(* ===== verification/_CoqProject ===== *)
-Q . S2P
Prelude.v
GoString.v
Goipp.v
IppAttrs.v
GoError.v
Urf.v
UrfSpec.v
UrfProofs.v
UrfComplete.v
UrfTheorems.v
GoUrl.v
Protocol.v
MediaCatalog.v
Normalizer.v
NormalizerTheorems.v
ProtocolTheorems.v
UriTheorems.v
GoTime.v
GoTimeOrder.v
GoParse.v
Store.v
StoreProofs.v
StoreTheorems.v
StoreQueries.v
Formats.v
Messages.v
MessagesTheorems.v
Routing.v
RoutingTheorems.v
Payload.v
PayloadTheorems.v
Configuration.v
PrinterDescription.v
Capabilities.v
Handlers.v
Reconcile.v
HandlersProofs.v
HandlersExample.v
HandlersTheorems.v
RequestProofs.v
RequestTheorems.v
JobProofs.v
JobTheorems.v
OperationTheorems.v
ReconcileTheorems.v
ListTheorems.v
ConfigurationProofs.v
ConfigurationTheorems.v
DnsSd.v
DnsSdTheorems.v
CapabilityProofs.v
Discovery.v
CapabilityTheorems.v
DiscoveryTheorems.v
Publisher.v
Avahi.v
AvahiTheorems.v
Redaction.v
RedactionTheorems.v
Lifecycle.v
LifecycleTheorems.v
RetryTheorems.v
CloseTheorems.v
Upstream.v
Diagnostics.v
DiagnosticsTheorems.v
UpstreamTheorems.v
Sums.v
Accounting.v
AccountingProofs.v
AccountingTheorems.v
Spans.v
SpansTheorems.v
Collector.v
CollectorTheorems.v
ProxyStatistics.v
ProxyStatisticsTheorems.v
