(* ===== verification/Prelude.v ===== *)
(** * golieipp: a verification library for the policy-enforcing IPP proxy

    golieipp is a proxy between print clients and the printers of a network.
    Clients speak IPP to its queues; each queue enforces a policy (media,
    colour, duplex, scaling, vendor attributes) on the jobs it forwards to its
    printer, keeps a registry of the jobs it has accepted, translates AirPrint
    raster (URF) into PWG Raster where a printer needs it, and reconciles the
    jobs whose fate it does not know. This library models that program, from
    the decoded request to the message for the printer and back, and proves
    what makes it correct.

    ** The parts of the program and their models

    - [internal/urf]: [Urf.v] is [Translate] with its reader, writer, context
      and lease observer as an environment that may do whatever the Go
      interfaces allow. [UrfSpec.v] is the abstract specification: the grammar
      of URF documents and the PWG document each denotes.
    - [internal/ipp/attrs.go]: [IppAttrs.v], over the data of [Goipp.v] (the
      types of the goipp package, with the text of tags and codes as class
      arguments, since that package is not in the repository).
    - [internal/store/store.go]: [Store.v]. The jobs table is a list of rows
      in id order with the semantics of the SQL statements, transactions and
      the unique index included; times are stored as the texts of [GoTime.v].
    - [internal/proxy/protocol.go]: [Protocol.v], the checks of a request; its
      two readers are in [Payload.v]. URLs are [GoUrl.v].
    - [internal/proxy/normalizer.go]: [Normalizer.v], the policy of a queue,
      over the media catalog of [MediaCatalog.v] ([capabilities.go]).
    - [internal/proxy/capabilities.go]: [MediaCatalog.v] (media), [Formats.v]
      (raster families and document formats), [PrinterDescription.v] (the
      parts of the description a queue shows, with the identity of
      [identity.go]) and [Capabilities.v] (the capability model of a queue, the
      profiles of [profiles.go] and Get-Printer-Attributes).
    - [internal/proxy/discovery.go]: [Discovery.v], what a queue publishes;
      [internal/dnssd/records.go]: [DnsSd.v], the registrations and their TXT
      data. The order in which Go visits a map is the class [MapRange].
    - [internal/config]: [Configuration.v], from the YAML nodes (the class
      [YAML]; the YAML package is not in the repository) over the defaults to
      the validated configuration. Its parsers of numbers, durations and host
      names are in [GoParse.v].
    - [internal/proxy/routing.go], [airprint.go]: [Routing.v], how a document
      reaches the printer and how that is pinned to a stored job.
    - [internal/proxy/payload.go]: [Payload.v].
    - [internal/proxy/service.go]: [Messages.v] (rewriting of messages and the
      canonical response), [Handlers.v] ([ippHandler] and every operation
      handler, Get-Printer-Attributes over [Capabilities.v]), [Reconcile.v]
      (maintenance) and [Lifecycle.v] (what the service keeps of its queues, the
      start, the loops of refresh and maintenance, refreshes, retries and
      [Close]).
    - [internal/dnssd/publisher.go, publisher_stub.go, publisher_avahi.go]:
      [Publisher.v] is the interface with its promises (the class [Publisher])
      and the stub, [Avahi.v] the Avahi publisher over a daemon that may fail at
      any call and lose groups at any moment.
    - [internal/proxy/upstream.go, dump.go]: [Upstream.v] is the client of the
      printers, with the HTTP exchange as an argument, and the capability
      report; [Redaction.v] is what reports and logs may show.
    - [internal/proxy/diagnostics.go, diagnostic_plugins_avahi.go]:
      [Diagnostics.v], readiness and the dump of the state.
    - [internal/stats]: [Accounting.v], the tables of jobs and actions with
      their daily totals and their retention ([jobs.go], [maintenance.go], the
      types of [types.go]); [Spans.v], the running actions and the resources they
      hold ([resources.go]); [Collector.v], the bounded queue, the batches and
      the writer ([collector.go]). [Sums.v] has the sums and maxima.
      [ProxyStatistics.v] is what the requests report ([statistics.go] of
      [internal/proxy]).
    - Shared: [Prelude.v] (results, machine integers, a state and error monad
      [M] with its weakest preconditions [wp], lists), [GoString.v] (strings
      and strconv), [GoError.v] (error values, float conversion).

    A handler is a computation of [M World]: the registry, a clock of ticks and
    the messages sent. Everything it cannot decide is the [Environment] of
    [Handlers.v], asked at a new tick each time: the wall clock, what other
    requests did to the registry since the last call, the capabilities a
    refresh has committed, the answers of the printers. A theorem over all
    environments is therefore one over all interleavings of registry calls.

    The goroutines of [Lifecycle.v] are threads of a step relation: one step is
    what a goroutine does while it holds the lock of the service, or within one
    call of its publisher, and the steps of all goroutines are interleaved in
    any order ([step], [reachable]). A loop that refreshes a queue is the goroutine
    of the refreshes it runs. Its theorems are proved for every
    publisher that keeps the promises of the class [Publisher]; the stub and
    the Avahi publisher are shown to keep them. The handlers, the maintenance,
    [Close] and the writer of [Collector.v] are interleaved in the same way, and
    so are the goroutines that share a span in [Spans.v].

    ** What the theorems show

    - Translation ([UrfTheorems.v]): what is accepted is a document of the
      grammar and the output is the document it denotes; every document of the
      grammar within the limits is accepted; it always returns, within its
      limits, and gives every lease back once.
    - Registry ([StoreTheorems.v], [StoreQueries.v]): unique identities, final
      terminal states, exact mapping, reservation, retention, lists and
      backoff. [StoreProofs.v] holds the invariants of single methods.
    - Requests ([ProtocolTheorems.v], [UriTheorems.v]): the checks accept
      exactly the well-formed requests; job URIs round trip and cannot name
      another job.
    - Policy ([NormalizerTheorems.v]): what reaches the printer, exactly; a
      client cannot smuggle an attribute past the policy.
    - Routes and documents ([RoutingTheorems.v], [PayloadTheorems.v]): routes
      are admitted, accepted by the translator, and survive the registry;
      documents of unknown length are staged exactly.
    - Configuration ([ConfigurationTheorems.v] over [ConfigurationProofs.v]):
      validation accepts exactly the good configurations; what is loaded is
      within its bounds; the queues of an accepted configuration never share a
      target.
    - Description ([CapabilityTheorems.v] over [CapabilityProofs.v]): no name
      twice, nothing of the printer under a name of the proxy, only media the
      policy allows and the printer has, exactly the formats the router admits,
      but for a queue without routes, which keeps the other formats of its
      printer, and only profiles with what they need.
    - Publication ([DnsSdTheorems.v], [DiscoveryTheorems.v]): what is published
      fits DNS-SD, has what its profiles need and does not depend on the order
      of iteration; a monochrome queue is published for AirPrint, a color one
      never is.
    - Messages ([MessagesTheorems.v]): clients only see the proxy's jobs,
      printers only their own; the canonical response passes the proxy's own
      checks.
    - Service ([RequestTheorems.v], [JobTheorems.v], [OperationTheorems.v],
      [ListTheorems.v], [ReconcileTheorems.v], over [HandlersProofs.v],
      [HandlersTheorems.v], [RequestProofs.v] and [JobProofs.v]): every request
      is answered; what a job becomes is decided by the printer's answer alone;
      lists show the right jobs; an uncertain job is never guessed; over any
      interleaving the registry stays well formed.
    - Publishers ([AvahiTheorems.v]): the groups of the daemon are accounted for
      in every reachable state, what is reported as published has exactly the
      registrations of its input, a failed update leaves no half of a publication
      (and the earlier one, when its services are to stay and the daemon keeps
      it), and after a withdrawal nothing is left.
    - Lifecycle ([LifecycleTheorems.v], [RetryTheorems.v], [CloseTheorems.v]): in every
      interleaving the answer, the model and the health of a queue are those of
      one refresh, its epoch grows exactly with its configuration, it has at
      most one retry loop, and what [Close] waits for, the loops, their refreshes
      and the retries, ends but for ticks and can always end.
    - Reports ([RedactionTheorems.v], [DiagnosticsTheorems.v],
      [UpstreamTheorems.v]): readiness is exact and not lost again, a start that
      succeeds is ready, reports do not depend on secrets or on the user
      information of URLs, the report of the capabilities is complete and in
      order, and an answer of a printer is accepted exactly when it passes every
      check within the limit.
    - Statistics ([AccountingTheorems.v] over [AccountingProofs.v],
      [SpansTheorems.v], [CollectorTheorems.v], [ProxyStatisticsTheorems.v]):
      the totals refine a ledger of jobs whatever is observed late, twice or out
      of order; what is known of a job is not lost and an action is counted once;
      what a span says it holds, and its peaks, are exact in every interleaving;
      the printer decides the outcome of a job; every record the collector
      accepts is written or counted as dropped, and its writer ends after
      [Close].

    ** Fuel

    [Urf.Translate] takes its fuel from the input limit, one unit for each byte
    that can still be read, and [Translate_total] shows that it is enough for
    every environment. [Payload.stage_loop] has a fuel argument, and
    [staged_exactly] says how much is enough. [DnsSd.fit_loop] has the number
    of entries as fuel, and [fit_loop_spec] that it only fails when the data
    cannot fit. [GoParse.ParseDuration] has the length of its text, which
    [ParseDuration_fuel] shows to be enough. [Avahi.poll_state] polls 82 times,
    more than fit the two seconds of its wait at one poll in 25 ms. A retry loop
    counts its six attempts as the source does. [Spans.acquire], [SetSize],
    [Written] and [Release] climb from a span to its ancestors and take the depth
    as fuel; for [acquire] it is the position of the span, which [acquire_fuel]
    shows to be enough. The theorems are about their single steps, and the
    methods are shown to be sequences of these. All other recursion is
    structural.

    ** Not modelled

    - The HTTP layer, IPP encoding and decoding, MIME types, TLS, and the pool
      of connections: library code or pure I/O. [ippHandler] starts at the
      decoded message.
    - How long a ticker or a timer takes: it may fire at any time. D-Bus,
      logging, the command line. That a call of a printer, of a publisher or of
      the store returns is taken for granted: it is one step.
    - The work of a maintenance run is in [Reconcile.v] and [Accounting.v]; the
      goroutine of [Lifecycle.v] that runs it only shows its begin and its end.
    - Of the statistics: CPU readings and their samples, the table of runs, the
      reports (SQL queries), and at which points a handler reports
      something. A transaction of the statistics may fail at any attempt.
    - What a request sees of a refresh is the capabilities, the model and the
      identity the environment of [Handlers.v] gives; that these belong together in every
      state of the service is a theorem of [LifecycleTheorems.v].
    - YAML: the nodes of a document are what the package makes of it, and the
      reading of files is an argument.
    - Schema creation and migration of database files; failures of the database
      itself (the registry refuses, but does not fail).
    - [goipp.Integer] is 32 bits wide; numbers that enter a message from the
      registry are taken as exact. *)

From Stdlib Require Import ZArith Lia Ascii String.
From Stdlib Require Import Strings.Byte Decimal DecimalString DecimalZ DecimalPos.
From stdpp Require Import base tactics list strings gmap.

#[global] Open Scope string_scope.
#[global] Open Scope list_scope.
#[global] Open Scope Z_scope.

(** ** Hint and rewrite databases *)

Create HintDb golib discriminated.
#[export] Hint Constants Opaque : golib.
Create Rewrite HintDb gosimp.

(** ** Results

    A Go function returning [(T, error)] returns a value or an error; the
    model keeps exactly one of the two. *)

Inductive res (E A : Type) : Type :=
| Ok (a : A)
| Err (e : E).
Arguments Ok {E A} a.
Arguments Err {E A} e.

#[export] Instance res_ret E : MRet (res E) := fun A a => Ok a.
#[export] Instance res_bind E : MBind (res E) :=
  fun A B f m => match m with Ok a => f a | Err e => Err e end.
#[export] Instance res_eq_dec E A `{EqDecision E, EqDecision A} : EqDecision (res E A).
Proof. solve_decision. Defined.

Definition is_ok {E A} (r : res E A) : bool := match r with Ok _ => true | Err _ => false end.

(** ** Machine integers

    A [w]-bit unsigned value is a [Z] reduced modulo [2^w]; a signed one is
    reduced to [-2^(w-1), 2^(w-1)). *)

Definition wrapu (w z : Z) : Z := z mod 2 ^ w.
Definition wraps (w z : Z) : Z := (z + 2 ^ (w - 1)) mod 2 ^ w - 2 ^ (w - 1).
Definition u8 (z : Z) : Z := wrapu 8 z.
Definition u16 (z : Z) : Z := wrapu 16 z.
Definition u32 (z : Z) : Z := wrapu 32 z.
Definition u64 (z : Z) : Z := wrapu 64 z.
Definition i64 (z : Z) : Z := wraps 64 z.
Definition maxU32 : Z := 4294967295.
Definition maxU64 : Z := 18446744073709551615.
Definition maxI64 : Z := 9223372036854775807.
Definition minI64 : Z := -9223372036854775808.
Definition maxI32 : Z := 2147483647.

Lemma wrapu_range w z : 0 <= w -> 0 <= wrapu w z < 2 ^ w.
Proof. intros. unfold wrapu. apply Z.mod_pos_bound. apply Z.pow_pos_nonneg; lia. Qed.

Lemma wrapu_small w z : 0 <= z < 2 ^ w -> wrapu w z = z.
Proof. intros. unfold wrapu. by apply Z.mod_small. Qed.

Lemma u32_range z : 0 <= u32 z < 2 ^ 32.
Proof. by apply wrapu_range. Qed.

Lemma u32_small z : 0 <= z <= maxU32 -> u32 z = z.
Proof. unfold maxU32. intros. apply wrapu_small. lia. Qed.

Lemma u64_small z : 0 <= z <= maxU64 -> u64 z = z.
Proof. unfold maxU64. intros. apply wrapu_small. lia. Qed.

Lemma i64_small z : minI64 <= z <= maxI64 -> i64 z = z.
Proof.
  unfold minI64, maxI64, i64, wraps. intros.
  rewrite Z.mod_small; lia.
Qed.

#[export] Hint Rewrite u32_small u64_small i64_small using (unfold maxU32, maxU64, minI64, maxI64 in *; lia) : gosimp.

(** ** Bytes and big-endian words ([encoding/binary]) *)

Definition byteZ (b : byte) : Z := Z.of_N (Byte.to_N b).
Definition Zbyte (z : Z) : byte :=
  match Byte.of_N (Z.to_N (z mod 256)) with Some b => b | None => x00 end.

Lemma byteZ_range b : 0 <= byteZ b < 256.
Proof. unfold byteZ. pose proof (Byte.to_N_bounded b). lia. Qed.

Lemma Zbyte_byteZ b : Zbyte (byteZ b) = b.
Proof.
  unfold Zbyte. rewrite Z.mod_small by apply byteZ_range. unfold byteZ.
  by rewrite N2Z.id, Byte.of_to_N.
Qed.

Lemma byteZ_Zbyte z : byteZ (Zbyte z) = z mod 256.
Proof.
  unfold Zbyte. pose proof (Z.mod_pos_bound z 256 ltac:(lia)) as Hm.
  destruct (Byte.of_N (Z.to_N (z mod 256))) as [b|] eqn:Hb.
  - apply Byte.to_of_N in Hb. unfold byteZ. rewrite Hb. lia.
  - apply Byte.of_N_None_iff in Hb. lia.
Qed.

(** [binary.BigEndian.PutUint32] as the four bytes written. *)
Definition be32 (v : Z) : list byte :=
  [Zbyte (v / 2 ^ 24); Zbyte (v / 2 ^ 16); Zbyte (v / 2 ^ 8); Zbyte v].

(** [binary.BigEndian.Uint32] of a slice of four bytes. *)
Definition Uint32 (l : list byte) : Z :=
  match l with
  | [a; b; c; d] => byteZ a * 2 ^ 24 + byteZ b * 2 ^ 16 + byteZ c * 2 ^ 8 + byteZ d
  | _ => 0
  end.

Lemma be32_length v : length (be32 v) = 4%nat.
Proof. done. Qed.

Lemma Uint32_be32 v : Uint32 (be32 v) = u32 v.
Proof.
  unfold Uint32, be32, u32, wrapu. rewrite !byteZ_Zbyte.
  Z.to_euclidean_division_equations; lia.
Qed.

Lemma Uint32_range l : 0 <= Uint32 l < 2 ^ 32.
Proof.
  unfold Uint32. do 5 (destruct l as [|? l]; try lia).
  pose proof (byteZ_range b). pose proof (byteZ_range b0).
  pose proof (byteZ_range b1). pose proof (byteZ_range b2). lia.
Qed.

(** The content of a new [n]-byte buffer. *)
Definition zeros (n : nat) : list byte := replicate n x00.

Lemma zeros_length n : length (zeros n) = n.
Proof. apply length_replicate. Qed.

(** [copy(dst[off:], src)] for [off + len(src) <= len(dst)]. *)
Definition splice {A} (off : nat) (src dst : list A) : list A :=
  take off dst ++ src ++ drop (off + length src) dst.

Lemma splice_length {A} off (src dst : list A) :
  (off + length src <= length dst)%nat -> length (splice off src dst) = length dst.
Proof.
  intros. unfold splice. rewrite !length_app, length_take, length_drop. lia.
Qed.

(** [len] as a Go [int]. *)
Definition zlen {A} (l : list A) : Z := Z.of_nat (length l).

Lemma zlen_nonneg {A} (l : list A) : 0 <= zlen l.
Proof. unfold zlen. lia. Qed.
Lemma zlen_app {A} (l k : list A) : zlen (l ++ k) = zlen l + zlen k.
Proof. unfold zlen. rewrite length_app. lia. Qed.
Lemma zlen_nil {A} : zlen (@nil A) = 0.
Proof. done. Qed.
Lemma zlen_cons {A} (x : A) l : zlen (x :: l) = 1 + zlen l.
Proof. unfold zlen. simpl. lia. Qed.
#[export] Hint Rewrite @zlen_app @zlen_nil @zlen_cons : gosimp.

(** ** Computations with state, errors, panics and fuel

    A stateful Go function that can fail is [M S E A]: from a state it ends
    in one of four outcomes and a state. [OutOfFuel] is the only outcome the
    Go code does not have: the loops of the model carry fuel, and every
    theorem about a function with a loop shows this outcome away. *)

Inductive outcome (E A : Type) : Type :=
| Done (a : A)
| Fail_ (e : E)
| Panics
| OutOfFuel.
Arguments Done {E A} a.
Arguments Fail_ {E A} e.
Arguments Panics {E A}.
Arguments OutOfFuel {E A}.

Definition M (S E A : Type) : Type := S -> outcome E A * S.

#[export] Instance M_ret S E : MRet (M S E) := fun A a s => (Done a, s).
#[export] Instance M_bind S E : MBind (M S E) := fun A B f m s =>
  match m s with
  | (Done a, s') => f a s'
  | (Fail_ e, s') => (Fail_ e, s')
  | (Panics, s') => (Panics, s')
  | (OutOfFuel, s') => (OutOfFuel, s')
  end.

Definition throw {S E A} (e : E) : M S E A := fun s => (Fail_ e, s).
Definition panic {S E A} : M S E A := fun s => (Panics, s).
Definition getS {S E} : M S E S := fun s => (Done s, s).
Definition gets {S E A} (f : S -> A) : M S E A := fun s => (Done (f s), s).
Definition modify {S E} (f : S -> S) : M S E unit := fun s => (Done tt, f s).
Definition liftS {S E A} (f : S -> A * S) : M S E A := fun s => let '(a, s') := f s in (Done a, s').
Definition when {S E} (b : bool) (m : M S E unit) : M S E unit := if b then m else mret tt.

(** [for { ... }] with an early exit: [inl] continues, [inr] leaves. *)
Fixpoint while {S E X A} (fuel : nat) (body : X -> M S E (X + A)) (x : X) : M S E A :=
  match fuel with
  | O => fun s => (OutOfFuel, s)
  | Datatypes.S k => r ← body x; match r with inl x' => while k body x' | inr a => mret a end
  end.

(** [defer cleanup()]: runs after every outcome, a panic included. *)
Definition deferred {S E A} (cleanup : S -> S) (m : M S E A) : M S E A :=
  fun s => let '(o, s') := m s in (o, cleanup s').

(** *** Weakest preconditions

    [wp m Q R s]: started in [s], [m] neither panics nor runs out of fuel,
    a normal end satisfies [Q] and an error satisfies [R]. *)
Definition wp {S E A} (m : M S E A) (Q : A -> S -> Prop) (R : E -> S -> Prop) (s : S) : Prop :=
  match m s with
  | (Done a, s') => Q a s'
  | (Fail_ e, s') => R e s'
  | (Panics, _) => False
  | (OutOfFuel, _) => False
  end.

Section wp.
Context {S E : Type}.
Implicit Types (R : E -> S -> Prop) (s : S).

Lemma wp_ret {A} (a : A) Q R s : Q a s -> wp (mret a) Q R s.
Proof. done. Qed.
Lemma wp_throw {A} (e : E) (Q : A -> S -> Prop) R s : R e s -> wp (throw e) Q R s.
Proof. done. Qed.
Lemma wp_bind {A B} (m : M S E A) (f : A -> M S E B) Q R s :
  wp m (fun a => wp (f a) Q R) R s -> wp (m ≫= f) Q R s.
Proof. unfold wp, mbind, M_bind. destruct (m s) as [[] ?]; done. Qed.
Lemma wp_gets {A} (f : S -> A) (Q : A -> S -> Prop) R s : Q (f s) s -> wp (gets f) Q R s.
Proof. done. Qed.
Lemma wp_modify (f : S -> S) (Q : unit -> S -> Prop) R s : Q tt (f s) -> wp (modify f) Q R s.
Proof. done. Qed.
Lemma wp_liftS {A} (f : S -> A * S) (Q : A -> S -> Prop) R s :
  (forall a s', f s = (a, s') -> Q a s') -> wp (liftS f) Q R s.
Proof. intros H. unfold wp, liftS. destruct (f s) eqn:?. eauto. Qed.
Lemma wp_deferred {A} c (m : M S E A) Q R s :
  wp m (fun a s' => Q a (c s')) (fun e s' => R e (c s')) s -> wp (deferred c m) Q R s.
Proof. unfold wp, deferred. by destruct (m s) as [[] ?]. Qed.
Lemma wp_mono {A} (m : M S E A) (Q Q' : A -> S -> Prop) R R' s :
  wp m Q R s -> (forall a s', Q a s' -> Q' a s') -> (forall e s', R e s' -> R' e s') ->
  wp m Q' R' s.
Proof. unfold wp. destruct (m s) as [[] ?]; naive_solver. Qed.

(** Two facts about one run. *)
Lemma wp_conj {A} (m : M S E A) (Q Q' : A -> S -> Prop) R R' s :
  wp m Q R s -> wp m Q' R' s ->
  wp m (fun a s' => Q a s' /\ Q' a s') (fun e s' => R e s' /\ R' e s') s.
Proof. unfold wp. by destruct (m s) as [[] ?]. Qed.

(** A run without errors, and what the run means. *)
Lemma wp_Done {A} (m : M S E A) (Q : A -> S -> Prop) s :
  wp m Q (fun _ _ => False) s -> exists a s', m s = (Done a, s') /\ Q a s'.
Proof. unfold wp. destruct (m s) as [[] ?]; naive_solver. Qed.

(** The loop rule: an invariant and a measure that decreases at each turn. *)
Lemma wp_while {X A} (I : X -> S -> Prop) (mu : X -> S -> Z) (body : X -> M S E (X + A)) Q R :
  (forall x s, I x s -> 0 <= mu x s) ->
  (forall x s, I x s ->
     wp (body x) (fun r s' => match r with
                              | inl x' => I x' s' /\ mu x' s' < mu x s
                              | inr a => Q a s'
                              end) R s) ->
  forall fuel x s, I x s -> mu x s < Z.of_nat fuel -> wp (while fuel body x) Q R s.
Proof.
  intros Hmu Hbody. induction fuel as [|k IH]; intros x s HI Hf.
  { specialize (Hmu x s HI). lia. }
  cbn [while]. apply wp_bind. eapply wp_mono; [by apply Hbody| |done].
  intros [x'|a] s'; [intros [HI' Hlt]|by intros HQ].
  apply IH; [done|lia].
Qed.
End wp.

(** One step of symbolic execution of a monadic program. *)
Ltac wp_step :=
  match goal with
  | |- wp (mbind _ _) _ _ _ => apply wp_bind
  | |- wp (mret _) _ _ _ => apply wp_ret
  | |- wp (throw _) _ _ _ => apply wp_throw
  | |- wp (gets _) _ _ _ => apply wp_gets
  | |- wp (modify _) _ _ _ => apply wp_modify
  | |- wp (when ?b _) _ _ _ => unfold when; destruct b eqn:?
  | |- wp (if ?b then _ else _) _ _ _ => destruct b eqn:?
  | |- wp (match ?x with _ => _ end) _ _ _ => destruct x eqn:?
  end.

(** Turn boolean comparisons in the context into propositions. *)
Ltac bool_to_prop :=
  repeat match goal with
  | H : (_ && _)%bool = true |- _ => apply andb_true_iff in H as [? ?]
  | H : (_ || _)%bool = false |- _ => apply orb_false_iff in H as [? ?]
  | H : negb _ = true |- _ => apply negb_true_iff in H
  | H : negb _ = false |- _ => apply negb_false_iff in H
  | H : (_ =? _) = true |- _ => apply Z.eqb_eq in H
  | H : (_ =? _) = false |- _ => apply Z.eqb_neq in H
  | H : (_ <? _) = true |- _ => apply Z.ltb_lt in H
  | H : (_ <? _) = false |- _ => apply Z.ltb_ge in H
  | H : (_ <=? _) = true |- _ => apply Z.leb_le in H
  | H : (_ <=? _) = false |- _ => apply Z.leb_gt in H
  | H : (_ =? _)%string = true |- _ => apply String.eqb_eq in H
  | H : (_ =? _)%string = false |- _ => apply String.eqb_neq in H
  | H : bool_decide _ = true |- _ => apply bool_decide_eq_true_1 in H
  | H : bool_decide _ = false |- _ => apply bool_decide_eq_false_1 in H
  end.
