(* ===== verification/GoString.v ===== *)
(** * Go strings

    The parts of the Go packages [strings] and [strconv] the proxy uses, on
    byte strings ([String.string], one [ascii] per byte). The case and space
    tables are the US-ASCII ones: IPP attribute names, keywords, MIME types
    and URIs are US-ASCII (RFC 8011, section 5.1), and a byte above 127 is a
    letter of neither case and not a space here. *)

From Stdlib Require Import ZArith Lia Ascii String.
From Stdlib Require Import Decimal DecimalString DecimalZ.
From stdpp Require Import base tactics list strings gmap.
From S2P Require Import Prelude.

(** ** Characters *)

Definition code (c : ascii) : Z := Z.of_N (N_of_ascii c).
Definition chr (z : Z) : ascii := ascii_of_N (Z.to_N z).

Lemma code_range c : 0 <= code c < 256.
Proof. unfold code. pose proof (N_ascii_bounded c). lia. Qed.
Lemma chr_code c : chr (code c) = c.
Proof. unfold chr, code. rewrite N2Z.id. apply ascii_N_embedding. Qed.
Lemma code_chr z : 0 <= z < 256 -> code (chr z) = z.
Proof. intros. unfold chr, code. rewrite N_ascii_embedding by lia. lia. Qed.

Definition is_upper (c : ascii) : bool := (65 <=? code c) && (code c <=? 90).
Definition is_lower (c : ascii) : bool := (97 <=? code c) && (code c <=? 122).
Definition is_digit (c : ascii) : bool := (48 <=? code c) && (code c <=? 57).
(** [unicode.IsSpace] and [unicode.IsControl] below 128. *)
Definition is_space (c : ascii) : bool := ((9 <=? code c) && (code c <=? 13)) || (code c =? 32).
Definition is_control (c : ascii) : bool := (code c <? 32) || (code c =? 127).

Definition lower_char (c : ascii) : ascii := if is_upper c then chr (code c + 32) else c.
Definition upper_char (c : ascii) : ascii := if is_lower c then chr (code c - 32) else c.

Lemma lower_char_not_upper c : is_upper (lower_char c) = false.
Proof.
  unfold lower_char. destruct (is_upper c) eqn:Hu; [|done].
  unfold is_upper in *. bool_to_prop. rewrite code_chr by lia.
  apply andb_false_iff. right. apply Z.leb_gt. lia.
Qed.

Lemma lower_char_idemp c : lower_char (lower_char c) = lower_char c.
Proof. unfold lower_char at 1. by rewrite lower_char_not_upper. Qed.

(** ** [strings] *)

Fixpoint smap (f : ascii -> ascii) (s : string) : string :=
  match s with EmptyString => EmptyString | String c r => String (f c) (smap f r) end.

Definition ToLower (s : string) : string := smap lower_char s.
Definition ToUpper (s : string) : string := smap upper_char s.
Definition EqualFold (s t : string) : bool := (ToLower s =? ToLower t)%string.

Fixpoint trim_left_by (p : ascii -> bool) (s : string) : string :=
  match s with
  | EmptyString => EmptyString
  | String c r => if p c then trim_left_by p r else s
  end.

Fixpoint trim_right_by (p : ascii -> bool) (s : string) : string :=
  match s with
  | EmptyString => EmptyString
  | String c r =>
      match trim_right_by p r with
      | EmptyString => if p c then EmptyString else String c EmptyString
      | r' => String c r'
      end
  end.

Definition TrimSpace (s : string) : string := trim_right_by is_space (trim_left_by is_space s).
(** [strings.TrimRight(s, cutset)] and [strings.Trim] for a cutset of one byte. *)
Definition TrimRight (s : string) (cut : ascii) : string := trim_right_by (Ascii.eqb cut) s.
Definition Trim (s : string) (cut : ascii) : string := TrimRight (trim_left_by (Ascii.eqb cut) s) cut.

Definition HasPrefix (s p : string) : bool := String.prefix p s.
Fixpoint sdrop (n : nat) (s : string) : string :=
  match n, s with
  | O, _ => s
  | Datatypes.S k, String _ r => sdrop k r
  | _, EmptyString => EmptyString
  end.
Fixpoint stake (n : nat) (s : string) : string :=
  match n, s with
  | O, _ => EmptyString
  | Datatypes.S k, String c r => String c (stake k r)
  | _, EmptyString => EmptyString
  end.
Definition slen (s : string) : nat := String.length s.
Definition HasSuffix (s p : string) : bool :=
  (slen p <=? slen s)%nat && (sdrop (slen s - slen p) s =? p)%string.
Definition TrimPrefix (s p : string) : string := if HasPrefix s p then sdrop (slen p) s else s.
Definition TrimSuffix (s p : string) : string := if HasSuffix s p then stake (slen s - slen p) s else s.

Fixpoint IndexChar (s : string) (p : ascii -> bool) : option nat :=
  match s with
  | EmptyString => None
  | String c r => if p c then Some O else Datatypes.S <$> IndexChar r p
  end.
(** [strings.IndexByte(s, c) >= 0], [strings.IndexFunc(s, p) >= 0]. *)
Definition ContainsFunc (s : string) (p : ascii -> bool) : bool := bool_decide (is_Some (IndexChar s p)).
Definition ContainsChar (s : string) (c : ascii) : bool := ContainsFunc s (Ascii.eqb c).
Fixpoint Contains (s p : string) : bool :=
  HasPrefix s p || match s with EmptyString => false | String _ r => Contains r p end.

(** [strings.Split] for a one-byte separator. *)
Fixpoint Split (s : string) (sep : ascii) : list string :=
  match s with
  | EmptyString => [EmptyString]
  | String c r =>
      if Ascii.eqb sep c then EmptyString :: Split r sep
      else match Split r sep with
           | h :: t => String c h :: t
           | [] => [String c EmptyString]
           end
  end.

Fixpoint Join (l : list string) (sep : string) : string :=
  match l with
  | [] => EmptyString
  | [x] => x
  | x :: r => x +:+ sep +:+ Join r sep
  end.

(** A [switch] on a string: membership in a list of cases. *)
Definition in_strings (s : string) (l : list string) : bool := existsb (String.eqb s) l.

(** ** [strconv] *)

Definition Itoa (z : Z) : string := NilZero.string_of_int (Z.to_int z).

Definition parse_uint (s : string) : option Z := Z.of_N <$> (N.of_uint <$> NilZero.uint_of_string s).

(** [strconv.Atoi]: an optional sign and decimal digits, in the range of [int]. *)
Definition Atoi (s : string) : option Z :=
  match
    match s with
    | String "-" r => Z.opp <$> parse_uint r
    | String "+" r => parse_uint r
    | _ => parse_uint s
    end
  with
  | Some z => if (minI64 <=? z) && (z <=? maxI64) then Some z else None
  | None => None
  end.

(** [%q] for US-ASCII text. A control character becomes its short escape, or
    two hexadecimal digits. *)
Definition dquote : ascii := ascii_of_nat 34.
Definition lower_hex (z : Z) : ascii := if z <? 10 then chr (48 + z) else chr (87 + z).
Definition hex_escape (c : ascii) : string :=
  String "\" (String "x" (String (lower_hex (code c / 16)) (String (lower_hex (code c mod 16)) EmptyString))).
Definition quote_char (q c : ascii) : string :=
  if Ascii.eqb c q || Ascii.eqb c "\" then String "\" (String c EmptyString)
  else if negb (is_control c) then String c EmptyString
  else match code c with
       | 7 => "\a" | 8 => "\b" | 9 => "\t" | 10 => "\n" | 11 => "\v" | 12 => "\f" | 13 => "\r"
       | _ => hex_escape c
       end.
Fixpoint quote_body (s : string) : string :=
  match s with
  | EmptyString => EmptyString
  | String c r => quote_char dquote c +:+ quote_body r
  end.
(** [%q] of a byte. *)
Definition QuoteRune (c : ascii) : string := String "'" (quote_char "'" c +:+ "'").
Definition Quote (s : string) : string :=
  String dquote (quote_body s +:+ String dquote EmptyString).

(** ** Lemmas *)

Lemma in_strings_true s l : in_strings s l = true <-> s ∈ l.
Proof.
  unfold in_strings. rewrite existsb_exists. setoid_rewrite String.eqb_eq.
  setoid_rewrite list_elem_of_In. naive_solver.
Qed.

Lemma ToLower_idemp s : ToLower (ToLower s) = ToLower s.
Proof. unfold ToLower. induction s as [|c r IH]; simpl; [done|]. by rewrite lower_char_idemp, IH. Qed.

Lemma EqualFold_spec s t : reflect (ToLower s = ToLower t) (EqualFold s t).
Proof. unfold EqualFold. apply String.eqb_spec. Qed.

(** Equality of names up to case, as a relation for setoid rewriting. *)
Definition name_eq (s t : string) : Prop := ToLower s = ToLower t.

#[export] Instance name_eq_equiv : Equivalence name_eq.
Proof. unfold name_eq. split; repeat intro; congruence. Qed.
#[export] Instance name_eq_dec : RelDecision name_eq.
Proof. intros s t. unfold name_eq. apply _. Defined.
#[export] Instance EqualFold_proper : Proper (name_eq ==> name_eq ==> eq) EqualFold.
Proof. intros s s' Hs t t' Ht. unfold EqualFold, name_eq in *. by rewrite Hs, Ht. Qed.
#[export] Instance ToLower_proper : Proper (name_eq ==> eq) ToLower.
Proof. by intros s t H. Qed.

Lemma EqualFold_true s t : EqualFold s t = true <-> name_eq s t.
Proof. unfold name_eq. destruct (EqualFold_spec s t); naive_solver. Qed.
Lemma EqualFold_false s t : EqualFold s t = false <-> ~ name_eq s t.
Proof. unfold name_eq. destruct (EqualFold_spec s t); naive_solver. Qed.
Lemma EqualFold_refl s : EqualFold s s = true.
Proof. by apply EqualFold_true. Qed.
Lemma EqualFold_sym s t : EqualFold s t = EqualFold t s.
Proof. unfold EqualFold. apply String.eqb_sym. Qed.
Lemma name_eq_ToLower s : name_eq (ToLower s) s.
Proof. apply ToLower_idemp. Qed.
#[export] Hint Rewrite EqualFold_refl ToLower_idemp : gosimp.
#[export] Hint Resolve name_eq_ToLower EqualFold_refl : golib.

Lemma parse_uint_Itoa n : 0 <= n -> parse_uint (Itoa n) = Some n.
Proof.
  intros Hn. unfold parse_uint, Itoa.
  destruct n as [|p|p]; [done| |lia]. simpl Z.to_int. unfold NilZero.string_of_int.
  rewrite NilZero.usu.
  - simpl. f_equal. change (Z.of_N (N.of_uint (Pos.to_uint p)) = Z.pos p).
    unfold N.of_uint. by rewrite DecimalPos.Unsigned.of_to.
  - intros H. by apply (DecimalPos.Unsigned.to_uint_nonnil p).
Qed.
