(* ===== verification/Goipp.v ===== *)
(** * The IPP data the proxy handles

    [github.com/OpenPrinting/goipp] is a library of the proxy, not part of
    it. Its data (attributes, tagged values, tags, status and operation
    codes, messages) is written down as the proxy sees it; the functions the
    proxy calls are the fields of the class [GoippLib], with what the proxy
    relies on as laws. [DeepCopy] and [Clone] copy a value: the values of the
    model are immutable, so a copy is the value itself. *)

From Stdlib Require Import ZArith Lia String.
From stdpp Require Import base tactics list strings gmap.
From S2P Require Import Prelude GoString.

(** ** Codes (RFC 8010, RFC 8011) *)

Definition TagOperationGroup : Z := 1.
Definition TagJobGroup : Z := 2.
Definition TagPrinterGroup : Z := 4.
Definition TagUnsupportedGroup : Z := 5.
Definition TagSubscriptionGroup : Z := 6.
Definition TagEventNotificationGroup : Z := 7.
Definition TagResourceGroup : Z := 8.
Definition TagDocumentGroup : Z := 9.
Definition TagSystemGroup : Z := 10.
Definition TagInteger : Z := 33.
Definition TagBoolean : Z := 34.
Definition TagEnum : Z := 35.
Definition TagResolution : Z := 50.
Definition TagRange : Z := 51.
Definition TagBeginCollection : Z := 52.
Definition TagText : Z := 65.
Definition TagName : Z := 66.
Definition TagKeyword : Z := 68.
Definition TagURI : Z := 69.
Definition TagCharset : Z := 71.
Definition TagLanguage : Z := 72.
Definition TagMimeType : Z := 73.

Definition StatusOk : Z := 0.
Definition StatusOkIgnoredOrSubstituted : Z := 1.
Definition StatusErrorBadRequest : Z := 1024.
Definition StatusErrorNotPossible : Z := 1028.
Definition StatusErrorNotFound : Z := 1030.
Definition StatusErrorRequestEntity : Z := 1032.
Definition StatusErrorDocumentFormatNotSupported : Z := 1034.
Definition StatusErrorAttributesOrValues : Z := 1035.
Definition StatusErrorCharset : Z := 1037.
Definition StatusErrorConflicting : Z := 1038.
Definition StatusErrorDocumentFormatError : Z := 1041.
Definition StatusErrorOperationNotSupported : Z := 1281.
Definition StatusErrorServiceUnavailable : Z := 1282.
Definition StatusErrorVersionNotSupported : Z := 1283.
Definition StatusErrorBusy : Z := 1287.
Definition StatusErrorMultipleJobsNotSupported : Z := 1289.
Definition StatusErrorPrinterIsDeactivated : Z := 1290.

Definition OpPrintJob : Z := 2.
Definition OpValidateJob : Z := 4.
Definition OpCreateJob : Z := 5.
Definition OpSendDocument : Z := 6.
Definition OpCancelJob : Z := 8.
Definition OpGetJobAttributes : Z := 9.
Definition OpGetJobs : Z := 10.
Definition OpGetPrinterAttributes : Z := 11.
Definition OpCancelMyJobs : Z := 57.
Definition OpCloseJob : Z := 59.
Definition OpIdentifyPrinter : Z := 60.

Definition UnitsDpi : Z := 3.
Definition UnitsDpcm : Z := 4.

(** ** Values and attributes

    [VNil] is a nil interface value; [VOther] stands for the value kinds the
    proxy never takes apart (octet strings, dates, strings with language,
    out-of-band values), by kind and content. *)

#[warnings="-register-all"]
Inductive Value : Type :=
| VNil
| VString (s : string)
| VInteger (z : Z)
| VBoolean (b : bool)
| VRange (lo hi : Z)
| VResolution (xres yres units : Z)
| VCollection (attrs : list (string * list (Z * Value)))
| VOther (kind : Z) (content : string).

Abbreviation TValue := (Z * Value)%type.
Abbreviation Attribute := (string * list (Z * Value))%type.
Abbreviation Attributes := (list (string * list (Z * Value))).

(** The fields of [goipp.Attribute] and of an element of [goipp.Values]. *)
Abbreviation aName := (@fst string (list (Z * Value))).
Abbreviation aValues := (@snd string (list (Z * Value))).
Abbreviation val_T := (@fst Z Value).
Abbreviation val_V := (@snd Z Value).

(** Nested induction: a property of every attribute, from the same property
    of every attribute of its collections. *)
Section Value_ind.
Variable P : Value -> Prop.
Hypothesis HNil : P VNil.
Hypothesis HString : forall s, P (VString s).
Hypothesis HInteger : forall z, P (VInteger z).
Hypothesis HBoolean : forall b, P (VBoolean b).
Hypothesis HRange : forall lo hi, P (VRange lo hi).
Hypothesis HResolution : forall x y u, P (VResolution x y u).
Hypothesis HCollection : forall attrs,
  Forall (fun a => Forall (fun tv => P (val_V tv)) (aValues a)) attrs -> P (VCollection attrs).
Hypothesis HOther : forall k c, P (VOther k c).

Fixpoint Value_rect_nested (v : Value) : P v :=
  match v with
  | VNil => HNil
  | VString s => HString s
  | VInteger z => HInteger z
  | VBoolean b => HBoolean b
  | VRange lo hi => HRange lo hi
  | VResolution x y u => HResolution x y u
  | VCollection attrs => HCollection attrs
      ((fix go_attrs l : Forall (fun a => Forall (fun tv => P (val_V tv)) (aValues a)) l :=
         match l with
         | [] => Forall_nil_2 _
         | a :: r => Forall_cons_2 _ _ _
             ((fix go_vals k : Forall (fun tv => P (val_V tv)) k :=
                match k with
                | [] => Forall_nil_2 _
                | tv :: q => Forall_cons_2 _ _ _ (Value_rect_nested (val_V tv)) (go_vals q)
                end) (aValues a)) (go_attrs r)
         end) attrs)
  | VOther k c => HOther k c
  end.
End Value_ind.

(** ** Messages *)

Record Group := mkGroup { Tag : Z; Attrs : Attributes }.

Record Message := mkMessage {
  Version : Z;
  Code : Z;
  RequestID : Z;
  Groups : option (list Group);
  Operation : Attributes;
  Job : Attributes;
  Printer : Attributes;
  Unsupported : Attributes;
  Subscription : Attributes;
  EventNotification : Attributes;
  Resource : Attributes;
  Document : Attributes;
  System : Attributes
}.

(** A response, as the proxy builds and receives it. The type of the program is
    [goipp.Message] again, but what is done with a response depends on whether
    a group of attributes is nil or merely empty: [None] is nil. *)
Record Response := mkResponse {
  resVersion : Z;
  resCode : Z;
  resRequestID : Z;
  resGroups : option (list Group);
  resOperation : Attributes;
  resJob : option Attributes;
  resPrinter : option Attributes;
  resUnsupported : option Attributes;
  resSubscription : option Attributes;
  resEventNotification : option Attributes;
  resResource : option Attributes;
  resDocument : option Attributes;
  resSystem : option Attributes
}.

(** [goipp.Version] is major*256 + minor ([MakeVersion], [Major], [Minor]). *)
Definition MakeVersion (major minor : Z) : Z := major * 256 + minor.
Definition Major (v : Z) : Z := v / 256.
Definition Minor (v : Z) : Z := v mod 256.
Definition DefaultVersion : Z := MakeVersion 2 0.

(** ** The library's functions *)

Class GoippLib := {
  (** [value.String()], the text [fmt.Sprint] prints. *)
  value_String : Value -> string;
  (** [tag.String()]. *)
  tag_String : Z -> string;
  (** [goipp.MakeAttr(name, tag, v, rest...)]: an attribute whose values all
      carry the tag. *)
  MakeAttr : string -> Z -> Value -> list Value -> Attribute;
  MakeAttr_eq : forall n t v rest, MakeAttr n t v rest = (n, map (pair t) (v :: rest));
  (** [goipp.MakeAttrCollection(name, member, rest...)]: one collection value. *)
  MakeAttrCollection : string -> Attribute -> list Attribute -> Attribute;
  MakeAttrCollection_eq : forall n a rest,
    MakeAttrCollection n a rest = (n, [(TagBeginCollection, VCollection (a :: rest))]);
  (** [status.String()], [op.String()] and [version.String()]. *)
  status_String : Z -> string;
  op_String : Z -> string;
  version_String : Z -> string;
  (** [goipp.NewRequest(version, op, id)] and [goipp.NewResponse(version,
      status, id)]: messages without attributes. *)
  NewRequest : Z -> Z -> Z -> Message;
  NewRequest_eq : forall v c i, NewRequest v c i = mkMessage v c i None [] [] [] [] [] [] [] [] [];
  NewResponse : Z -> Z -> Z -> Response;
  NewResponse_eq : forall v c i,
    NewResponse v c i = mkResponse v c i None [] None None None None None None None None
}.

Section lib.
Context `{G : GoippLib}.

(** [goipp.MakeAttribute(name, tag, v)]. *)
Definition MakeAttribute (n : string) (t : Z) (v : Value) : Attribute := MakeAttr n t v [].

(** [fmt.Sprint] of a value held in an interface. *)
Definition Sprint (v : Value) : string :=
  match v with VNil => "<nil>" | _ => value_String v end.
End lib.

Lemma MakeAttribute_eq `{GoippLib} n t v : MakeAttribute n t v = (n, [(t, v)]).
Proof. unfold MakeAttribute. by rewrite MakeAttr_eq. Qed.
#[export] Hint Rewrite @MakeAttribute_eq @MakeAttr_eq @MakeAttrCollection_eq @NewRequest_eq @NewResponse_eq : gosimp.

(** A concrete library, used to evaluate the model on examples: strings,
    numbers and booleans print as Go prints them. *)
Definition goipp_example : GoippLib := {|
  value_String v := match v with
    | VString s => s
    | VInteger z => Itoa z
    | VBoolean b => if b then "true" else "false"
    | _ => "?"
    end;
  tag_String t := Itoa t;
  MakeAttr n t v rest := (n, map (pair t) (v :: rest));
  MakeAttr_eq _ _ _ _ := eq_refl;
  MakeAttrCollection n a rest := (n, [(TagBeginCollection, VCollection (a :: rest))]);
  MakeAttrCollection_eq _ _ _ := eq_refl;
  status_String c := Itoa c;
  op_String c := Itoa c;
  version_String v := Itoa (Major v) +:+ "." +:+ Itoa (Minor v);
  NewRequest v c i := mkMessage v c i None [] [] [] [] [] [] [] [] [];
  NewRequest_eq _ _ _ := eq_refl;
  NewResponse v c i := mkResponse v c i None [] None None None None None None None None;
  NewResponse_eq _ _ _ := eq_refl
|}.
