(* ===== verification/IppAttrs.v ===== *)
(** * Attribute lists ([internal/ipp/attrs.go])

    Lookup, update and removal of attributes by name, without regard to the
    case of the name. A group of attributes is an ordered list, in which a
    name may occur more than once; lookups see the first occurrence. *)

From Stdlib Require Import ZArith Lia String.
From stdpp Require Import base tactics list strings gmap.
From S2P Require Import Prelude GoString Goipp.

(** ** Operations *)

(** [Attr] returns the first attribute of that name; [None] is [ok == false]. *)
Fixpoint Attr (attrs : Attributes) (name : string) : option Attribute :=
  match attrs with
  | [] => None
  | a :: r => if EqualFold (aName a) name then Some a else Attr r name
  end.

Definition FirstInt (attrs : Attributes) (name : string) : option Z :=
  match Attr attrs name with
  | Some (_, (_, VInteger v) :: _) => Some v
  | _ => None
  end.

Definition HasStringValue (attrs : Attributes) (name value : string) : bool :=
  match Attr attrs name with
  | None => false
  | Some a => existsb (fun tv => match val_V tv with VString s => (s =? value)%string | _ => false end)
                (aValues a)
  end.

(** The loop of [SetAttr], with its [replaced] flag. *)
Fixpoint SetAttr_go (attrs : Attributes) (attr : Attribute) (replaced : bool) : Attributes :=
  match attrs with
  | [] => if replaced then [] else [attr]
  | e :: r =>
      if EqualFold (aName e) (aName attr) then
        if replaced then SetAttr_go r attr true else attr :: SetAttr_go r attr true
      else e :: SetAttr_go r attr replaced
  end.
Definition SetAttr (attrs : Attributes) (attr : Attribute) : Attributes := SetAttr_go attrs attr false.

(** A Go [map[string]struct{}] of lower-cased names. *)
Definition name_set (names : list string) : gset string := list_to_set (map ToLower names).

Definition DropAttrs (attrs : Attributes) (names : list string) : Attributes :=
  let drop := name_set names in
  List.filter (fun a => negb (bool_decide (ToLower (aName a) ∈ drop))) attrs.

Section build.
Context `{G : GoippLib}.

Definition FirstString (attrs : Attributes) (name : string) : option string :=
  match Attr attrs name with
  | Some (_, (_, VString s) :: _) => Some s
  | Some (_, (_, v) :: _) => Some (Sprint v)
  | _ => None
  end.

Definition Keyword (name value : string) : Attribute := MakeAttribute name TagKeyword (VString value).
Definition Keywords (name : string) (values : list string) : Attribute :=
  match map VString values with
  | [] => (name, [])
  | v :: rest => MakeAttr name TagKeyword v rest
  end.
Definition URI (name value : string) : Attribute := MakeAttribute name TagURI (VString value).
Definition NameAttr (name value : string) : Attribute := MakeAttribute name TagName (VString value).
Definition Text (name value : string) : Attribute := MakeAttribute name TagText (VString value).
Definition Boolean (name : string) (value : bool) : Attribute := MakeAttribute name TagBoolean (VBoolean value).
Definition Integer (name : string) (value : Z) : Attribute := MakeAttribute name TagInteger (VInteger value).

Definition RewriteRequestPrinterURI (msg : Message) (printerURI : string) : Message :=
  mkMessage (Version msg) (Code msg) (RequestID msg) None
    (SetAttr (Operation msg) (URI "printer-uri" printerURI))
    (Job msg) (Printer msg) (Unsupported msg) (Subscription msg) (EventNotification msg)
    (Resource msg) (Document msg) (System msg).

Definition BasicOperationAttrs (uri : string) : Attributes :=
  [MakeAttribute "attributes-charset" TagCharset (VString "utf-8");
   MakeAttribute "attributes-natural-language" TagLanguage (VString "en");
   URI "printer-uri" uri].
End build.

(** ** Laws *)

Section laws.
Implicit Types (attrs : Attributes) (a : Attribute) (n : string).

(** [named attrs n]: some attribute of the list has the name [n]. *)
Definition named attrs n : Prop := exists a, a ∈ attrs /\ name_eq (aName a) n.

#[export] Instance Attr_proper attrs : Proper (name_eq ==> eq) (Attr attrs).
Proof.
  intros n n' Hn. induction attrs as [|a r IH]; simpl; [done|].
  rewrite IH. by setoid_rewrite Hn.
Qed.

Lemma Attr_Some attrs n a : Attr attrs n = Some a -> a ∈ attrs /\ name_eq (aName a) n.
Proof.
  induction attrs as [|b r IH]; simpl; [done|].
  destruct (EqualFold _ _) eqn:He.
  - intros [= ->]. split; [left|by apply EqualFold_true].
  - intros H. destruct (IH H). split; [by right|done].
Qed.

Lemma Attr_None attrs n : Attr attrs n = None <-> ~ named attrs n.
Proof.
  unfold named. induction attrs as [|b r IH]; simpl.
  { split; [|done]. intros _ (a & Ha & _). by apply elem_of_nil in Ha. }
  destruct (EqualFold _ _) eqn:He.
  - apply EqualFold_true in He. split; [done|]. intros H. destruct H. exists b. split; [left|done].
  - apply EqualFold_false in He. rewrite IH. split.
    + intros H (a & Ha & Hn). apply elem_of_cons in Ha as [->|Ha]; [done|]. eauto.
    + intros H (a & Ha & Hn). apply H. exists a. split; [by right|done].
Qed.

Lemma Attr_is_Some attrs n : is_Some (Attr attrs n) <-> named attrs n.
Proof.
  split.
  - intros [a Ha]. exists a. by apply Attr_Some.
  - intros H. destruct (Attr attrs n) eqn:E; [done|]. by apply Attr_None in E.
Qed.

Lemma Attr_app attrs attrs' n :
  Attr (attrs ++ attrs') n = match Attr attrs n with Some a => Some a | None => Attr attrs' n end.
Proof. induction attrs as [|b r IH]; simpl; [done|]. by destruct (EqualFold _ _). Qed.

Lemma SetAttr_go_other attrs a n r :
  ~ name_eq (aName a) n -> Attr (SetAttr_go attrs a r) n = Attr attrs n.
Proof.
  intros Hn. revert r. induction attrs as [|b l IH]; intros r; simpl.
  { destruct r; simpl; [done|]. apply EqualFold_false in Hn. by rewrite Hn. }
  destruct (EqualFold (aName b) (aName a)) eqn:He.
  - apply EqualFold_true in He.
    assert (EqualFold (aName b) n = false) as ->.
    { apply EqualFold_false. intros Hb. apply Hn. by rewrite <- He. }
    destruct r; simpl; [apply IH|]. apply EqualFold_false in Hn. rewrite Hn. apply IH.
  - simpl. by rewrite IH.
Qed.

Lemma SetAttr_go_same attrs a n :
  name_eq (aName a) n -> Attr (SetAttr_go attrs a false) n = Some a.
Proof.
  intros Hn. pose proof (proj2 (EqualFold_true _ _) Hn) as Hb.
  induction attrs as [|b l IH]; simpl; [by rewrite Hb|].
  destruct (EqualFold (aName b) (aName a)) eqn:He; simpl.
  - by rewrite Hb.
  - assert (EqualFold (aName b) n = false) as ->; [|done].
    apply EqualFold_false. intros H. apply EqualFold_false in He. apply He.
    by rewrite H, Hn.
Qed.

Lemma SetAttr_lookup attrs a n :
  Attr (SetAttr attrs a) n = if EqualFold (aName a) n then Some a else Attr attrs n.
Proof.
  unfold SetAttr. destruct (EqualFold _ _) eqn:He.
  - apply SetAttr_go_same. by apply EqualFold_true.
  - apply SetAttr_go_other. by apply EqualFold_false.
Qed.

Lemma elem_of_SetAttr attrs a b r :
  b ∈ SetAttr_go attrs a r -> b = a \/ (b ∈ attrs /\ ~ name_eq (aName b) (aName a)).
Proof.
  revert r. induction attrs as [|c l IH]; intros r; simpl.
  { destruct r; set_solver. }
  destruct (EqualFold (aName c) (aName a)) eqn:He.
  - destruct r; [|rewrite elem_of_cons; intros [->|H]; [by left|]];
      intros; edestruct IH; set_solver.
  - apply EqualFold_false in He. rewrite elem_of_cons. intros [->|H]; [set_solver|].
    edestruct IH; set_solver.
Qed.

Lemma elem_of_DropAttrs attrs names a :
  a ∈ DropAttrs attrs names <-> a ∈ attrs /\ ~ Exists (name_eq (aName a)) names.
Proof.
  unfold DropAttrs. rewrite !list_elem_of_In, filter_In, <- !list_elem_of_In.
  rewrite negb_true_iff, bool_decide_eq_false.
  assert (ToLower (aName a) ∈ name_set names <-> Exists (name_eq (aName a)) names) as ->; [|done].
  unfold name_set. rewrite elem_of_list_to_set, list_elem_of_fmap, Exists_exists.
  unfold name_eq. naive_solver.
Qed.

Lemma DropAttrs_app attrs attrs' names :
  DropAttrs (attrs ++ attrs') names = DropAttrs attrs names ++ DropAttrs attrs' names.
Proof. unfold DropAttrs. apply List.filter_app. Qed.

Lemma DropAttrs_not_named attrs names n :
  Exists (name_eq n) names -> ~ named (DropAttrs attrs names) n.
Proof.
  intros Hex (a & Ha & Hn). apply elem_of_DropAttrs in Ha as [_ Ha]. apply Ha.
  apply Exists_exists in Hex as (m & Hm & Hnm). apply Exists_exists. exists m. split; [done|].
  by rewrite Hn.
Qed.
End laws.
