(* ===== verification/GoError.v ===== *)
(** * Go errors and floating point

    The error values of the program, with [errors.Is] and [errors.As] as walks
    of the chain of wrapped errors, and the few binary64 and binary32
    operations the program uses, computed exactly with the standard library's
    reference floats ([SpecFloat]). *)

From Stdlib Require Import ZArith Lia String SpecFloat.
From stdpp Require Import base tactics list strings.
From S2P Require Import Prelude GoString.

(** ** Errors

    [ESentinel] is a package-level variable, compared by identity (its name);
    [EText] an error created where it is returned, equal to no other;
    [EWrap] the result of [fmt.Errorf] with one [%w]; [EUrf] is [*urf.Error];
    [EInputLimit] is [*inputLimitError] of the same package. *)
#[warnings="-register-all"]
Inductive goerr : Type :=
| ESentinel (name : string)
| EText (text : string)
| EWrap (prefix : string) (e : goerr)
| EInputLimit
| EUrf (Kind : Z) (Op : string) (Page Row Offset : Z) (Err : option goerr).

Definition EOF : goerr := ESentinel "EOF".
Definition ErrUnexpectedEOF : goerr := ESentinel "unexpected EOF".
Definition ErrNoProgress : goerr := ESentinel "multiple Read calls return no data or error".
Definition ErrShortWrite : goerr := ESentinel "short write".
Definition Canceled : goerr := ESentinel "context canceled".
Definition DeadlineExceeded : goerr := ESentinel "context deadline exceeded".

(** [e.Unwrap()]; a nil receiver does not arise. *)
Definition Unwrap (e : goerr) : option goerr :=
  match e with
  | EWrap _ e => Some e
  | EUrf _ _ _ _ _ err => err
  | _ => None
  end.

(** The first error of the chain that satisfies [p]. *)
Fixpoint find_err (p : goerr -> bool) (e : goerr) : option goerr :=
  if p e then Some e else
  match e with
  | EWrap _ e => find_err p e
  | EUrf _ _ _ _ _ (Some e) => find_err p e
  | _ => None
  end.

Definition is_sentinel (name : string) (e : goerr) : bool :=
  match e with ESentinel n => (n =? name)%string | _ => false end.

(** [errors.Is(e, target)] for a sentinel target. *)
Definition Is (e target : goerr) : bool :=
  match target with
  | ESentinel name => bool_decide (is_Some (find_err (is_sentinel name) e))
  | _ => false
  end.

(** ** The kinds and the text of [*urf.Error] ([internal/urf/errors.go]) *)

(** [ErrorKind] is a [uint8]; zero is no kind. *)
Definition KindInvalidOptions : Z := 1.
Definition KindMalformedInput : Z := 2.
Definition KindUnsupportedInput : Z := 3.
Definition KindSettingsMismatch : Z := 4.
Definition KindResourceLimit : Z := 5.
Definition KindSourceIO : Z := 6.
Definition KindDestinationIO : Z := 7.
Definition KindCanceled : Z := 8.

Definition ErrorKind_String (k : Z) : string :=
  if k =? KindInvalidOptions then "invalid options"
  else if k =? KindMalformedInput then "malformed input"
  else if k =? KindUnsupportedInput then "unsupported input"
  else if k =? KindSettingsMismatch then "settings mismatch"
  else if k =? KindResourceLimit then "resource limit"
  else if k =? KindSourceIO then "source I/O"
  else if k =? KindDestinationIO then "destination I/O"
  else if k =? KindCanceled then "canceled"
  else "unknown error".

(** The [Error] method of [*Error], and of the other errors of the chain. *)
Fixpoint Error_text (e : goerr) : string :=
  match e with
  | ESentinel n => n
  | EText s => s
  | EWrap s e => s +:+ Error_text e
  | EInputLimit => "maximum input bytes exceeded"
  | EUrf k op page row _ err =>
      let prefix := ErrorKind_String k in
      let prefix := if negb (op =? "")%string then prefix +:+ ": " +:+ op else prefix in
      let prefix :=
        if negb (page =? 0) then
          prefix +:+ " (page " +:+ Itoa page +:+
          (if negb (row =? 0) then ", row " +:+ Itoa row else "") +:+ ")"
        else if negb (row =? 0) then prefix +:+ " (row " +:+ Itoa row +:+ ")"
        else prefix in
      match err with Some e => prefix +:+ ": " +:+ Error_text e | None => prefix end
  end.

Definition is_urf (e : goerr) : bool := match e with EUrf _ _ _ _ _ _ => true | _ => false end.
Definition is_input_limit (e : goerr) : bool := match e with EInputLimit => true | _ => false end.

Definition ErrorKindOf (err : goerr) : Z :=
  match find_err is_urf err with
  | Some (EUrf k _ _ _ _ _) => k
  | _ => 0
  end.

(** ** Floats *)

Definition float64 : Type := spec_float.

(** [float64(z)], and the literal [z.0]. *)
Definition float64_of_Z (z : Z) : float64 := binary_normalize 53 1024 z 0 false.
Definition fmul (x y : float64) : float64 := SFmul 53 1024 x y.
Definition fdiv (x y : float64) : float64 := SFdiv 53 1024 x y.

(** [float32(x)]: rounding to nearest, ties to even. *)
Definition float32_of_float64 (x : float64) : spec_float :=
  match x with
  | S754_finite s m e => binary_normalize 24 128 (if s then Z.neg m else Z.pos m) e s
  | _ => x
  end.

(** [math.Float32bits] of a number that is neither infinite nor NaN. *)
Definition Float32bits (x : spec_float) : Z :=
  match x with
  | S754_zero s => if s then 2 ^ 31 else 0
  | S754_finite s m e =>
      (if s then 2 ^ 31 else 0) +
      (if Z.pos m <? 2 ^ 23 then Z.pos m else (e + 150) * 2 ^ 23 + (Z.pos m - 2 ^ 23))
  | _ => 0
  end.

Definition is_nan_or_inf (x : spec_float) : bool :=
  match x with S754_nan | S754_infinity _ => true | _ => false end.

Example Float32bits_612 :
  Float32bits (float32_of_float64
    (fdiv (fmul (float64_of_Z 21590) (float64_of_Z 72)) (float64_of_Z 2540))) = 0x44190000.
Proof. reflexivity. Qed.

(** ** Checks that return an error *)

(** [if !ok { return err }] *)
Definition ensure (ok : bool) (err : goerr) : res goerr unit := if ok then Ok tt else Err err.

(** [fmt.Errorf("prefix%w", err)] on the error of a check. *)
Definition wrapped {A} (prefix : string) (r : res goerr A) : res goerr A :=
  match r with Ok a => Ok a | Err e => Err (EWrap prefix e) end.

(** [errors.New] where a call failed, whatever its error. *)
Definition or_error {A} (err : goerr) (r : option A) : res goerr A :=
  match r with Some a => Ok a | None => Err err end.

(** [for i, x := range l { if err := f(i, x); err != nil { return err } }] *)
Fixpoint each {A} (f : nat -> A -> res goerr unit) (i : nat) (l : list A) : res goerr unit :=
  match l with
  | [] => Ok tt
  | x :: r => _ ← f i x; each f (Datatypes.S i) r
  end.

Lemma ensure_ok b e : ensure b e = Ok tt <-> b = true.
Proof. by destruct b. Qed.
Lemma wrapped_ok {A} p (r : res goerr A) a : wrapped p r = Ok a <-> r = Ok a.
Proof. by destruct r. Qed.
Lemma bind_ok {A B} (r : res goerr A) (f : A -> res goerr B) b :
  (r ≫= f) = Ok b <-> exists a, r = Ok a /\ f a = Ok b.
Proof. destruct r; cbn; naive_solver. Qed.
Lemma checks_ok {B} (r : res goerr unit) (f : unit -> res goerr B) b :
  (r ≫= f) = Ok b <-> r = Ok tt /\ f tt = Ok b.
Proof. destruct r as [[]|]; cbn; naive_solver. Qed.
Lemma or_error_ok {A} e (r : option A) a : or_error e r = Ok a <-> r = Some a.
Proof. destruct r; cbn; naive_solver. Qed.
Lemma each_ok {A} (f : nat -> A -> res goerr unit) i l :
  each f i l = Ok tt <-> forall k x, l !! k = Some x -> f (i + k)%nat x = Ok tt.
Proof.
  revert i. induction l as [|y l IH]; intros i; cbn [each]; [naive_solver|].
  rewrite checks_ok, IH. split.
  - intros [H1 H2] [|k] x; cbn; intros Hx; simplify_eq; [by rewrite Nat.add_0_r|].
    replace (i + Datatypes.S k)%nat with (Datatypes.S i + k)%nat by lia. by apply H2.
  - intros H. split; [replace i with (i + 0)%nat by lia; by apply (H 0%nat)|].
    intros k x Hx. replace (Datatypes.S i + k)%nat with (i + Datatypes.S k)%nat by lia. by apply H.
Qed.
