(* ===== verification/Urf.v ===== *)
(** * URF to PWG Raster translation: the program ([internal/urf])

    [Translate] reads an Apple Raster (URF) document from a source and writes
    the PWG Raster document with the same rows to a seekable destination.

    The outside world (the context, the source, the destination, the resource
    observer and the growth of a slice) is an oracle, [Env], that answers each
    call from the history of all the calls made so far; the history is part
    of the state, so that theorems can say what was read, what the
    destination holds and which leases are live. Nothing is assumed of the
    oracle: it may fail, answer short counts or counts out of range, and
    cancel at any call.

    The fields of the Go [translator] that never change after [Translate]
    builds it (the limits, the mapping, the policy) are section variables. *)

From Stdlib Require Import ZArith Lia Ascii String Strings.Byte.
From stdpp Require Import base tactics list strings.
From S2P Require Import Prelude GoString GoError.

(** ** Options and results (api.go, limits.go, errors.go) *)

(** [Mapping] is a [uint8] with three named values. *)
Definition MappingW8ToSGray8 : Z := 1.
Definition MappingSRGB24ToSRGB8 : Z := 2.
Definition MappingDEVRGB24ToRGB8 : Z := 3.

Definition Mapping_String (m : Z) : string :=
  if m =? MappingW8ToSGray8 then "W8->sgray_8"
  else if m =? MappingSRGB24ToSRGB8 then "SRGB24->srgb_8"
  else if m =? MappingDEVRGB24ToRGB8 then "DEVRGB24->rgb_8"
  else "unknown mapping".

Record PageSettings := {
  MediaName : string;
  MediaWidth : Z;
  MediaHeight : Z;
  MediaType : string;
  MediaSource : Z;
  ResolutionX : Z;
  ResolutionY : Z;
  PrintQuality : Z;
  Sides : string;
  SheetBack : string
}.

Record Result := { InputBytes : Z; OutputBytes : Z; Pages : Z }.

Record Limits := {
  MaxInputBytes : Z;
  MaxOutputBytes : Z;
  MaxPages : Z;
  MaxWidth : Z;
  MaxHeight : Z;
  MaxRowBytes : Z;
  MaxDecodedBytes : Z
}.

Record Options := { oMapping : Z; oPage : PageSettings; oLimits : Limits }.

Definition DefaultLimits : Limits := {|
  MaxInputBytes := 2 ^ 30;
  MaxOutputBytes := 2 ^ 30;
  MaxPages := 1024;
  MaxWidth := 2 ^ 20;
  MaxHeight := 2 ^ 20;
  MaxRowBytes := 2 ^ 24;
  MaxDecodedBytes := 2 ^ 40
|}.

(** [wrapError] with a non-nil [err]: no caller passes nil. *)
Definition wrapError (kind : Z) (op : string) (err : goerr) (offset page row : Z) : goerr :=
  EUrf kind op page row offset (Some err).

Definition errNegativeLimit : goerr := ESentinel "limits must not be negative".

Definition validateLimits (l : Limits) : res goerr unit :=
  if (MaxInputBytes l <? 0) || (MaxOutputBytes l <? 0)
  then Err (wrapError KindInvalidOptions "limits" errNegativeLimit (-1) 0 0)
  else Ok tt.

Definition or_default (v d : Z) : Z := if negb (v =? 0) then v else d.

Definition effectiveLimits (l : Limits) : Limits :=
  let d := DefaultLimits in {|
    MaxInputBytes := or_default (MaxInputBytes l) (MaxInputBytes d);
    MaxOutputBytes := or_default (MaxOutputBytes l) (MaxOutputBytes d);
    MaxPages := or_default (MaxPages l) (MaxPages d);
    MaxWidth := or_default (MaxWidth l) (MaxWidth d);
    MaxHeight := or_default (MaxHeight l) (MaxHeight d);
    MaxRowBytes := or_default (MaxRowBytes l) (MaxRowBytes d);
    MaxDecodedBytes := or_default (MaxDecodedBytes l) (MaxDecodedBytes d)
  |}.

(** ** Validated page settings *)

Record pagePolicy := {
  mediaName : string;
  mediaWidth : Z;
  mediaHeight : Z;
  mediaType : string;
  mediaSource : Z;
  resX : Z;
  resY : Z;
  quality : Z;
  sides : string;
  sheetBack : string
}.

Definition invalid_page_settings (text : string) : goerr :=
  wrapError KindInvalidOptions "page settings" (EText text) (-1) 0 0.

Definition validatePWGString (field value : string) : res goerr unit :=
  if ContainsChar value Ascii.zero then Err (invalid_page_settings (field +:+ " contains NUL"))
  else if 64 <=? Z.of_nat (slen value)
  then Err (invalid_page_settings (field +:+ " is too long for a PWG header"))
  else Ok tt.

Definition validatePageSettings (p : PageSettings) : res goerr pagePolicy :=
  _ ← validatePWGString "media name" (MediaName p);
  _ ← validatePWGString "media type" (MediaType p);
  if (MediaWidth p =? 0) || (MediaHeight p =? 0) then
    Err (invalid_page_settings "media dimensions must be positive hundredths of a millimetre")
  else if (ResolutionX p =? 0) || (ResolutionY p =? 0) then
    Err (invalid_page_settings "resolution must be positive")
  else if negb (ResolutionX p =? ResolutionY p) then
    Err (invalid_page_settings "URF carries one square resolution; ResolutionX and ResolutionY must match")
  else
  let sides := if (Sides p =? "")%string then "one-sided" else Sides p in
  if negb (in_strings sides ["one-sided"; "two-sided-long-edge"; "two-sided-short-edge"]) then
    Err (invalid_page_settings ("unsupported sides " +:+ Quote sides))
  else
  let sheetBack := if (SheetBack p =? "")%string then "normal" else SheetBack p in
  if negb (in_strings sheetBack ["normal"; "flipped"; "manual-tumble"; "rotated"]) then
    Err (invalid_page_settings ("unsupported sheet-back " +:+ Quote sheetBack))
  else if negb (existsb (Z.eqb (PrintQuality p)) [0; 3; 4; 5]) then
    Err (invalid_page_settings ("unsupported print quality " +:+ Itoa (PrintQuality p)))
  else Ok {|
    mediaName := MediaName p;
    mediaWidth := MediaWidth p;
    mediaHeight := MediaHeight p;
    mediaType := MediaType p;
    mediaSource := MediaSource p;
    resX := ResolutionX p;
    resY := ResolutionY p;
    quality := PrintQuality p;
    sides := sides;
    sheetBack := sheetBack
  |}.

Definition validateMapping (m : Z) : res goerr unit :=
  if existsb (Z.eqb m) [MappingW8ToSGray8; MappingSRGB24ToSRGB8; MappingDEVRGB24ToRGB8] then Ok tt
  else Err (wrapError KindInvalidOptions "mapping" (EText ("unsupported mapping " +:+ Itoa m)) (-1) 0 0).

(** ** Arithmetic with overflow checks, on [uint64] *)

Definition checkedMul (a b : Z) : option Z :=
  if negb (a =? 0) && (maxU64 / a <? b) then None else Some (u64 (a * b)).

(** The new sum, or [None] when it overflows or exceeds a positive limit. *)
Definition checkedAddWithin (sum add limit : Z) : option Z :=
  if u64 (maxU64 - sum) <? add then None
  else
    let next := u64 (sum + add) in
    if (0 <? limit) && (limit <? next) then None else Some next.

Definition sourceMapping (m : Z) : Z * Z * Z :=
  if m =? MappingW8ToSGray8 then (0, 8, 18)
  else if m =? MappingSRGB24ToSRGB8 then (1, 24, 19)
  else if m =? MappingDEVRGB24ToRGB8 then (5, 24, 1)
  else (0, 0, 0).

Definition mediaPixels (width height dpi : Z) : option (Z * Z) :=
  match checkedMul width dpi with
  | None => None
  | Some w =>
    match checkedMul height dpi with
    | None => None
    | Some h =>
      let w := w / 2540 in
      let h := h / 2540 in
      if (w =? 0) || (h =? 0) || (maxU32 <? w) || (maxU32 <? h) then None
      else Some (u32 w, u32 h)
    end
  end.

(** ** The PWG page header *)

Definition urfFileHeaderSize : nat := 12.
Definition urfPageHeaderSize : nat := 32.
Definition pwgPageHeaderSize : nat := 1796.
Definition pwgSync : Z := 0x52615332.
Definition urfHeaderPrefix : string := "UNIR".
Definition urfHeaderReversed : string := "RINU".
Definition maxCopyScratch : nat := 384.

(** [put32(dst, off, v)] *)
Definition put32 (off : nat) (v : Z) (h : list byte) : list byte := splice off (be32 v) h.
Definition get32 (off : nat) (h : list byte) : Z := Uint32 (take 4 (drop off h)).

(** [copyString(dst[off:off+n], s)] *)
Definition copyString (off n : nat) (s : string) (h : list byte) : list byte :=
  splice off (take (n - 1) (list_byte_of_string s)) h.

(** [putFloat32(dst, off, v)] *)
Definition putFloat32 (off : nat) (v : SpecFloat.spec_float) (h : list byte) : list byte :=
  let v := if is_nan_or_inf v then SpecFloat.S754_zero false else v in
  put32 off (Float32bits v) h.

Definition bool32 (v : bool) : Z := if v then 1 else 0.

Record pageDescription := {
  bitsPerPixel : Z;
  colorSpace : Z;
  duplexMode : Z;
  width : Z;
  height : Z;
  resolution : Z;
  rowBytes : Z;
  landscape : bool;
  pwgColorSpace : Z;
  pwgBitsPerPixel : Z;
  pwgBitsPerColor : Z;
  pwgNumColors : Z
}.

Definition byte_at (raw : list byte) (i : nat) : Z := byteZ (nth i raw x00).

(** The fields of the page header that [parsePage] reads first. *)
Definition rawPage (raw : list byte) : pageDescription := {|
  bitsPerPixel := byte_at raw 0;
  colorSpace := byte_at raw 1;
  duplexMode := byte_at raw 2;
  width := get32 12 raw;
  height := get32 16 raw;
  resolution := get32 20 raw;
  rowBytes := 0;
  landscape := false;
  pwgColorSpace := 0;
  pwgBitsPerPixel := 0;
  pwgBitsPerColor := 0;
  pwgNumColors := 0
|}.

Section header.
Context (policy : pagePolicy).

Definition setSheetBack (back : bool) (h : list byte) : list byte :=
  if negb back then h else
  let flipCross := 0xffffffff in
  let flipFeed := 0xffffffff in
  let tumble := (sides policy =? "two-sided-short-edge")%string in
  if (sheetBack policy =? "flipped")%string then
    if tumble then put32 456 flipCross h else put32 460 flipFeed h
  else if (sheetBack policy =? "manual-tumble")%string then
    if tumble then put32 460 flipFeed (put32 456 flipCross h) else h
  else if (sheetBack policy =? "rotated")%string then
    if negb tumble then put32 460 flipFeed (put32 456 flipCross h) else h
  else h.

(** The page size in hundredths of a millimetre, in the orientation of the page. *)
Definition pageSize (p : pageDescription) : Z * Z :=
  if landscape p then (mediaHeight policy, mediaWidth policy)
  else (mediaWidth policy, mediaHeight policy).
Definition points (z : Z) : Z := u32 (u64 (z * 72) / 2540).
Definition pointsFloat (z : Z) : SpecFloat.spec_float :=
  float32_of_float64 (fdiv (fmul (float64_of_Z z) (float64_of_Z 72)) (float64_of_Z 2540)).
Definition fzero : SpecFloat.spec_float := SpecFloat.S754_zero false.

(** The buffer [h] of [emitPageHeader], when [pages] pages precede it. *)
Definition pageHeader (p : pageDescription) (pages : Z) : list byte :=
  let '(pageWidth, pageHeight) := pageSize p in
  let pageWPoints := points pageWidth in
  let pageHPoints := points pageHeight in
  let duplex := negb (sides policy =? "one-sided")%string in
  let h := zeros pwgPageHeaderSize in
  let h := copyString 0 64 "PwgRaster" h in
  let h := copyString 128 64 (mediaType policy) h in
  let h := copyString 1732 64 (mediaName policy) h in
  let h := put32 272 (bool32 duplex) h in
  let h := put32 276 (resX policy) h in
  let h := put32 280 (resY policy) h in
  let h := put32 284 0 h in
  let h := put32 288 0 h in
  let h := put32 292 pageWPoints h in
  let h := put32 296 pageHPoints h in
  let h := put32 324 (mediaSource policy) h in
  let h := put32 352 pageWPoints h in
  let h := put32 356 pageHPoints h in
  let h := put32 368 (bool32 (sides policy =? "two-sided-short-edge")%string) h in
  let h := put32 372 (width p) h in
  let h := put32 376 (height p) h in
  let h := put32 384 (pwgBitsPerColor p) h in
  let h := put32 388 (pwgBitsPerPixel p) h in
  let h := put32 392 (u32 (rowBytes p)) h in
  let h := put32 396 0 h in
  let h := put32 400 (pwgColorSpace p) h in
  let h := put32 420 (pwgNumColors p) h in
  let h := putFloat32 428 (pointsFloat pageWidth) h in
  let h := putFloat32 432 (pointsFloat pageHeight) h in
  let h := putFloat32 436 fzero h in
  let h := putFloat32 440 fzero h in
  let h := putFloat32 444 fzero h in
  let h := putFloat32 448 fzero h in
  let h := put32 452 0 h in
  let h := put32 456 1 h in
  let h := put32 460 1 h in
  let h := setSheetBack (duplex && (pages mod 2 =? 1)) h in
  let h := put32 464 0 h in
  let h := put32 468 0 h in
  let h := put32 472 (width p) h in
  let h := put32 476 (height p) h in
  let h := put32 480 0xffffff h in
  put32 484 (quality policy) h.
End header.

(** ** The outside world *)

Definition SeekStart : Z := 0.
Definition SeekEnd : Z := 2.

(** One call of the outside world and its answer. A lease is named by the
    length of the history when it was acquired. *)
Inductive event : Type :=
| EvCtx (err : option goerr)
| EvRead (p : list byte) (n : Z) (p' : list byte) (err : option goerr)
| EvWrite (buf : list byte) (n : Z) (err : option goerr)
| EvSeek (offset whence : Z) (pos : Z) (err : option goerr)
| EvAcquire (component : string) (capacity : Z) (lease : option nat)
| EvSetSize (lease : nat) (size : Z)
| EvWritten (lease : nat) (n : Z)
| EvRelease (lease : nat).

(** Newest event first. *)
Definition history : Type := list event.

(** [src_Read h p] answers the count, the content of the buffer [p] after the
    call and the error; [dst_Write h buf] the count and the error;
    [dst_Seek h off whence] the position and the error. A nil source,
    destination or observer is [None]; an observer may return a nil lease.
    [append_cap c n] is the capacity after an [append] to a slice of capacity
    [c] that needs room for [n]. *)
Record Destination := {
  dst_Write : history -> list byte -> Z * option goerr;
  dst_Seek : history -> Z -> Z -> Z * option goerr
}.
Record Env := {
  ctx_Err : history -> option goerr;
  src : option (history -> list byte -> Z * list byte * option goerr);
  dst : option Destination;
  observer : option (history -> string -> Z -> bool);
  append_cap : Z -> Z -> Z
}.

(** ** The translator's mutable fields *)

Record translator := {
  hist : history;
  src_count : Z;
  src_pendingErr : option goerr;
  pages : Z;
  pageCounts : list Z;
  pageCounts_cap : Z;
  offsetLease : option nat;
  outputBytes : Z;
  outputSize : Z;
  pageLogical : Z;
  scratch : list byte;
  scratchLease : option nat;
  outputLease : option nat
}.

Definition set_hist h s := {| hist := h; src_count := src_count s; src_pendingErr := src_pendingErr s;
  pages := pages s; pageCounts := pageCounts s; pageCounts_cap := pageCounts_cap s;
  offsetLease := offsetLease s; outputBytes := outputBytes s; outputSize := outputSize s;
  pageLogical := pageLogical s; scratch := scratch s; scratchLease := scratchLease s;
  outputLease := outputLease s |}.
Definition set_src n pe s := {| hist := hist s; src_count := n; src_pendingErr := pe;
  pages := pages s; pageCounts := pageCounts s; pageCounts_cap := pageCounts_cap s;
  offsetLease := offsetLease s; outputBytes := outputBytes s; outputSize := outputSize s;
  pageLogical := pageLogical s; scratch := scratch s; scratchLease := scratchLease s;
  outputLease := outputLease s |}.
Definition set_pages n s := {| hist := hist s; src_count := src_count s; src_pendingErr := src_pendingErr s;
  pages := n; pageCounts := pageCounts s; pageCounts_cap := pageCounts_cap s;
  offsetLease := offsetLease s; outputBytes := outputBytes s; outputSize := outputSize s;
  pageLogical := pageLogical s; scratch := scratch s; scratchLease := scratchLease s;
  outputLease := outputLease s |}.
Definition set_pageCounts l c s := {| hist := hist s; src_count := src_count s; src_pendingErr := src_pendingErr s;
  pages := pages s; pageCounts := l; pageCounts_cap := c;
  offsetLease := offsetLease s; outputBytes := outputBytes s; outputSize := outputSize s;
  pageLogical := pageLogical s; scratch := scratch s; scratchLease := scratchLease s;
  outputLease := outputLease s |}.
Definition set_leases off scr out s := {| hist := hist s; src_count := src_count s; src_pendingErr := src_pendingErr s;
  pages := pages s; pageCounts := pageCounts s; pageCounts_cap := pageCounts_cap s;
  offsetLease := off; outputBytes := outputBytes s; outputSize := outputSize s;
  pageLogical := pageLogical s; scratch := scratch s; scratchLease := scr;
  outputLease := out |}.
Definition set_output b z s := {| hist := hist s; src_count := src_count s; src_pendingErr := src_pendingErr s;
  pages := pages s; pageCounts := pageCounts s; pageCounts_cap := pageCounts_cap s;
  offsetLease := offsetLease s; outputBytes := b; outputSize := z;
  pageLogical := pageLogical s; scratch := scratch s; scratchLease := scratchLease s;
  outputLease := outputLease s |}.
Definition set_pageLogical n s := {| hist := hist s; src_count := src_count s; src_pendingErr := src_pendingErr s;
  pages := pages s; pageCounts := pageCounts s; pageCounts_cap := pageCounts_cap s;
  offsetLease := offsetLease s; outputBytes := outputBytes s; outputSize := outputSize s;
  pageLogical := n; scratch := scratch s; scratchLease := scratchLease s;
  outputLease := outputLease s |}.
Definition set_scratch b s := {| hist := hist s; src_count := src_count s; src_pendingErr := src_pendingErr s;
  pages := pages s; pageCounts := pageCounts s; pageCounts_cap := pageCounts_cap s;
  offsetLease := offsetLease s; outputBytes := outputBytes s; outputSize := outputSize s;
  pageLogical := pageLogical s; scratch := b; scratchLease := scratchLease s;
  outputLease := outputLease s |}.

Definition new_translator : translator := {|
  hist := []; src_count := 0; src_pendingErr := None; pages := 0; pageCounts := [];
  pageCounts_cap := 0; offsetLease := None; outputBytes := 0; outputSize := 0;
  pageLogical := 0; scratch := zeros maxCopyScratch; scratchLease := None; outputLease := None
|}.

(** Stateful functions that may fail. *)
Abbreviation TM := (M translator goerr).

(** ** The operations *)

Section translate.
Context (env : Env) (limits : Limits) (mapping : Z) (policy : pagePolicy).

(** *** Calls of the outside world *)

Definition log (ev : event) (s : translator) : translator := set_hist (ev :: hist s) s.

Definition ctxErr : TM (option goerr) :=
  liftS (fun s => let err := ctx_Err env (hist s) in (err, log (EvCtx err) s)).

(** [r.Read(p)]: the buffer keeps its length whatever the reader does. A
    call through a nil interface panics. *)
Definition srcRead (p : list byte) : TM (Z * list byte * option goerr) :=
  match src env with
  | None => panic
  | Some read => liftS (fun s =>
      let '(n, b, err) := read (hist s) p in
      let p' := take (length p) (b ++ drop (length b) p) in
      ((n, p', err), log (EvRead p n p' err) s))
  end.

Definition dstWrite (buf : list byte) : TM (Z * option goerr) :=
  match dst env with
  | None => panic
  | Some d => liftS (fun s =>
      let '(n, err) := dst_Write d (hist s) buf in ((n, err), log (EvWrite buf n err) s))
  end.

Definition dstSeek (off whence : Z) : TM (Z * option goerr) :=
  match dst env with
  | None => panic
  | Some d => liftS (fun s =>
      let '(pos, err) := dst_Seek d (hist s) off whence in ((pos, err), log (EvSeek off whence pos err) s))
  end.

(** [t.observer.AcquireBuffer(component, capacity)], and [AcquireTemp]. *)
Definition acquire (component : string) (capacity : Z) : TM (option nat) :=
  match observer env with
  | None => panic
  | Some f => liftS (fun s =>
      let l := if f (hist s) component capacity then Some (length (hist s)) else None in
      (l, log (EvAcquire component capacity l) s))
  end.

Definition release_lease (l : option nat) (s : translator) : translator :=
  match l with Some l => log (EvRelease l) s | None => s end.

Definition releaseResources (s : translator) : translator :=
  let s := release_lease (offsetLease s) s in
  let s := set_leases None (scratchLease s) (outputLease s) s in
  let s := release_lease (outputLease s) s in
  let s := set_leases None (scratchLease s) None s in
  let s := release_lease (scratchLease s) s in
  set_leases None None None s.

(** *** Errors at the current source offset *)

Definition wrap_at {A} (kind : Z) (op : string) (err : goerr) (page row : Z) : TM A :=
  off ← gets src_count; throw (wrapError kind op err off page row).
Definition malformed {A} (message : string) (page row : Z) : TM A :=
  wrap_at KindMalformedInput message (EText message) page row.
Definition unsupported {A} (message : string) (page : Z) : TM A :=
  wrap_at KindUnsupportedInput message (EText message) page 0.
Definition settingsMismatch {A} (message : string) (page : Z) : TM A :=
  wrap_at KindSettingsMismatch message (EText message) page 0.
Definition resource {A} (message : string) (page row : Z) : TM A :=
  wrap_at KindResourceLimit message (EText message) page row.

(** [canceledError] asks the context again. *)
Definition canceledError {A} (op : string) (page row : Z) : TM A :=
  off ← gets src_count;
  err ← ctxErr;
  throw (EUrf KindCanceled op page row off (Some (default Canceled err))).

Definition checkContext (op : string) (offset page row : Z) : TM unit :=
  err ← ctxErr;
  match err with
  | Some err => throw (EUrf KindCanceled op page row offset (Some err))
  | None => mret tt
  end.

(** [checkContext(t.ctx, op, t.src.count, page, row)] *)
Definition check (op : string) (page row : Z) : TM unit :=
  off ← gets src_count; checkContext op off page row.

Definition dst_error {A} (op : string) (err : goerr) (page row : Z) : TM A :=
  wrap_at KindDestinationIO op err page row.

(** [t.pages + 1] as a [uint32]. *)
Definition next_page : TM Z := gets (fun s => u32 (pages s + 1)).

(** *** The counting reader *)

Definition invalid_read : goerr := EText "invalid source read count".

(** The branch of [read] at the limit: a probe of one byte. *)
Definition read_probe (p : list byte) : TM (Z * list byte * option goerr) :=
  '(n, _, err) ← srcRead [x00];
  if (n <? 0) || (1 <? n) then mret (0, p, Some invalid_read)
  else if 0 <? n then
    match err with
    | Some err => if negb (Is err EOF) then mret (0, p, Some err) else mret (0, p, Some EInputLimit)
    | None => mret (0, p, Some EInputLimit)
    end
  else mret (0, p, Some (default ErrNoProgress err)).

(** The final part of [read]: one call of the source for the first [k]
    bytes of the buffer. *)
Definition read_some (k : nat) (p : list byte) : TM (Z * list byte * option goerr) :=
  '(n, b, err) ← srcRead (take k p);
  let p' := b ++ drop k p in
  if (n <? 0) || (zlen b <? n) then mret (0, p', Some invalid_read)
  else
    modify (fun s => set_src (i64 (src_count s + n)) (src_pendingErr s) s);;
    match err with
    | Some err =>
        if (0 <? n) && Is err EOF then
          modify (fun s => set_src (src_count s) (Some EOF) s);;
          mret (n, p', None)
        else mret (n, p', Some err)
    | None => if n =? 0 then mret (0, p', Some ErrNoProgress) else mret (n, p', None)
    end.

(** [sourceReader.read(p)]: the count, the buffer and the error. *)
Definition read (p : list byte) : TM (Z * list byte * option goerr) :=
  err ← ctxErr;
  match err with
  | Some err => mret (0, p, Some err)
  | None =>
    if zlen p =? 0 then mret (0, p, None) else
    pending ← gets src_pendingErr;
    match pending with
    | Some err =>
        modify (fun s => set_src (src_count s) None s);;
        mret (0, p, Some err)
    | None =>
        count ← gets src_count;
        let limit := MaxInputBytes limits in
        if 0 <? limit then
          let remaining := i64 (limit - count) in
          if remaining <? 0 then mret (0, p, Some EInputLimit)
          else if remaining =? 0 then read_probe p
          else read_some (if remaining <? zlen p then Z.to_nat remaining else length p) p
        else read_some (length p) p
    end
  end.

(** *** Filling a buffer *)

Definition readFull (buf : list byte) (page row : Z) : TM (list byte) :=
  if zlen buf =? 0 then mret buf else
  while (S (length buf)) (fun '(total, buf) =>
    if total <? zlen buf then
      '(n, p, err) ← read (drop (Z.to_nat total) buf);
      let buf := take (Z.to_nat total) buf ++ p in
      let total := total + n in
      match err with
      | None => mret (inl (total, buf))
      | Some err =>
          if bool_decide (is_Some (find_err is_input_limit err)) then
            resource "maximum input bytes exceeded" page row
          else
          canceled ← ctxErr;
          match canceled with
          | Some _ => canceledError "read source" page row
          | None =>
              if Is err EOF || Is err ErrUnexpectedEOF then
                malformed "truncated raster data" page row
              else wrap_at KindSourceIO "read source" err page row
          end
      end
    else mret (inr buf)) (0, buf).

(** The buffer has the length of a page header at the only call, so the
    panic of [readHeader] is its first test. *)
Definition readHeader (buf : list byte) : TM (Z * list byte) :=
  if negb (length buf =? urfPageHeaderSize)%nat then panic else
  while (S (length buf)) (fun '(total, buf) =>
    if total <? zlen buf then
      '(n, p, err) ← read (drop (Z.to_nat total) buf);
      let buf := take (Z.to_nat total) buf ++ p in
      let total := total + n in
      match err with
      | None => mret (inl (total, buf))
      | Some err =>
          page ← next_page;
          if bool_decide (is_Some (find_err is_input_limit err)) then
            resource "maximum input bytes exceeded" page 0
          else
          canceled ← ctxErr;
          match canceled with
          | Some _ => canceledError "read page header" page 0
          | None =>
              if Is err EOF || Is err ErrUnexpectedEOF then mret (inr (total, buf))
              else wrap_at KindSourceIO "read page header" err page 0
          end
      end
    else mret (inr (total, buf))) (0, buf).

Definition readFileHeader : TM unit :=
  h ← readFull (zeros urfFileHeaderSize) 0 0;
  let sync := string_of_list_byte (take 4 h) in
  if negb (sync =? urfHeaderPrefix)%string && negb (sync =? urfHeaderReversed)%string then
    malformed "invalid Apple Raster file signature" 0 0
  else mret tt.

(** *** Writing *)

Definition lease_event (l : option nat) (ev : nat -> event) (s : translator) : translator :=
  match l with Some l => log (ev l) s | None => s end.

Definition write (buf : list byte) (page row : Z) : TM unit :=
  check "write destination" page row;;
  out ← gets outputBytes;
  if (0 <? MaxOutputBytes limits) &&
     (u64 (MaxOutputBytes limits) <? u64 (u64 out + zlen buf)) then
    resource "maximum output bytes exceeded" page row
  else
  while (S (length buf)) (fun buf =>
    if 0 <? zlen buf then
      check "write destination" page row;;
      '(n, err) ← dstWrite buf;
      if (n <? 0) || (zlen buf <? n) then
        dst_error "write destination" (EText "invalid write count") page row
      else
      modify (fun s => set_output (i64 (outputBytes s + n)) (outputSize s) s);;
      modify (fun s => lease_event (outputLease s) (fun l => EvWritten l n) s);;
      modify (fun s => lease_event (outputLease s) (fun l => EvSetSize l (outputBytes s)) s);;
      match err with
      | Some err => dst_error "write destination" err page row
      | None =>
          if n =? 0 then dst_error "write destination" ErrShortWrite page row
          else mret (inl (drop (Z.to_nat n) buf))
      end
    else mret (inr tt)) buf.

Definition seekWrite (off : Z) (buf : list byte) (op : string) : TM unit :=
  pg ← gets pages;
  check op pg 0;;
  if off <? 0 then dst_error op (EText "negative seek offset") pg 0
  else
  '(pos, err) ← dstSeek off SeekStart;
  match err with
  | Some err => dst_error op err pg 0
  | None =>
    if negb (pos =? off) then
      dst_error op (EText ("seek returned offset " +:+ Itoa pos +:+ ", want " +:+ Itoa off)) pg 0
    else
    while (S (length buf)) (fun buf =>
      if 0 <? zlen buf then
        check op pg 0;;
        '(n, err) ← dstWrite buf;
        if (n <? 0) || (zlen buf <? n) then dst_error op (EText "invalid write count") pg 0
        else
        match err with
        | Some err => dst_error op err pg 0
        | None =>
            modify (fun s => lease_event (outputLease s) (fun l => EvWritten l n) s);;
            if n =? 0 then dst_error op ErrShortWrite pg 0
            else mret (inl (drop (Z.to_nat n) buf))
        end
      else mret (inr tt)) buf
  end.

(** [copyBytes(n, page, row)] through the scratch buffer. *)
Definition copyBytes (n page row : Z) : TM unit :=
  while (S (Z.to_nat n)) (fun n =>
    if 0 <? n then
      check "copy raster payload" page row;;
      sc ← gets scratch;
      let chunk := if n <? zlen sc then n else zlen sc in
      b ← readFull (take (Z.to_nat chunk) sc) page row;
      modify (set_scratch (b ++ drop (Z.to_nat chunk) sc));;
      write b page row;;
      mret (inl (u64 (n - chunk)))
    else mret (inr tt)) n.

(** *** Pages *)

Definition validateDuplex (mode page : Z) : TM unit :=
  let inputDuplex := 2 <=? mode in
  let inputTumble := mode =? 2 in
  if (sides policy =? "one-sided")%string then
    if inputDuplex then settingsMismatch "URF duplex mode conflicts with one-sided policy" page
    else mret tt
  else if (sides policy =? "two-sided-long-edge")%string then
    if negb inputDuplex || inputTumble then
      settingsMismatch "URF duplex mode conflicts with long-edge policy" page
    else mret tt
  else if (sides policy =? "two-sided-short-edge")%string then
    if negb inputDuplex || negb inputTumble then
      settingsMismatch "URF duplex mode conflicts with short-edge policy" page
    else mret tt
  else mret tt.

(** The description [parsePage] returns, once every check has passed. *)
Definition describe (p : pageDescription) (rb : Z) (land : bool) : pageDescription :=
  let '(_, wantBPP, outSpace) := sourceMapping mapping in {|
    bitsPerPixel := bitsPerPixel p;
    colorSpace := colorSpace p;
    duplexMode := duplexMode p;
    width := width p;
    height := height p;
    resolution := resolution p;
    rowBytes := rb;
    landscape := land;
    pwgColorSpace := outSpace;
    pwgBitsPerPixel := wantBPP;
    pwgBitsPerColor := 8;
    pwgNumColors := if wantBPP =? 8 then 1 else 3
  |}.

(** The switch on the page geometry of [parsePage]. *)
Definition orientation (p : pageDescription) (page : Z) : TM bool :=
  if negb (mediaWidth policy =? 0) && negb (mediaHeight policy =? 0) then
    match mediaPixels (mediaWidth policy) (mediaHeight policy) (resolution p) with
    | None => resource "media geometry overflows" page 0
    | Some (directW, directH) =>
        if (width p =? directW) && (height p =? directH) then mret false
        else if (width p =? directH) && (height p =? directW) then mret true
        else settingsMismatch "page geometry conflicts with normalized media" page
    end
  else mret (landscape p).

Definition parsePage (raw : list byte) : TM pageDescription :=
  let p := rawPage raw in
  let '(wantSpace, wantBPP, outSpace) := sourceMapping mapping in
  page ← next_page;
  if negb (colorSpace p =? wantSpace) || negb (bitsPerPixel p =? wantBPP) then
    unsupported ("page color-space " +:+ Itoa (colorSpace p) +:+ "/bits-per-pixel " +:+
      Itoa (bitsPerPixel p) +:+ " do not match " +:+ Mapping_String mapping) page
  else if (width p =? 0) || (height p =? 0) then
    malformed "page dimensions must be positive" page 0
  else if resolution p =? 0 then malformed "page resolution must be positive" page 0
  else if negb (resolution p =? resX policy) || negb (resolution p =? resY policy) then
    settingsMismatch "page resolution conflicts with normalized settings" page
  else if (0 <? MaxWidth limits) && (MaxWidth limits <? width p) then
    resource "maximum page width exceeded" page 0
  else if (0 <? MaxHeight limits) && (MaxHeight limits <? height p) then
    resource "maximum page height exceeded" page 0
  else
  let bpp := wantBPP / 8 in
  match checkedMul (width p) bpp with
  | None => resource "page row size overflows" page 0
  | Some rb =>
    if rb =? 0 then resource "page row size overflows" page 0
    else if (0 <? MaxRowBytes limits) && (MaxRowBytes limits <? rb) then
      resource "maximum row size exceeded" page 0
    else if maxU32 <? rb then resource "page row size does not fit PWG header" page 0
    else
    match checkedMul rb (height p) with
    | None => resource "page decoded size overflows" page 0
    | Some pageBytes =>
      logical ← gets pageLogical;
      match checkedAddWithin logical pageBytes (MaxDecodedBytes limits) with
      | None => resource "maximum decoded bytes exceeded" page 0
      | Some next =>
        modify (set_pageLogical next);;
        land ← orientation p page;
        validateDuplex (duplexMode p) page;;
        mret (describe p rb land)
      end
    end
  end.

(** The capacity of [pageCounts] after [append] of one element. *)
Definition grown_cap (n c : Z) : Z := if n <=? c then c else append_cap env c n.

Definition appendCount (countOffset : Z) : TM unit :=
  previous ← gets pageCounts_cap;
  modify (fun s => let l := pageCounts s ++ [countOffset] in
                   set_pageCounts l (grown_cap (zlen l) (pageCounts_cap s)) s);;
  c ← gets pageCounts_cap;
  if negb (c =? previous) then
    modify (fun s => set_leases None (scratchLease s) (outputLease s) (release_lease (offsetLease s) s));;
    match observer env with
    | None => mret tt
    | Some _ =>
        l ← acquire "urf/page-offsets" (i64 (c * 8));
        modify (fun s => set_leases l (scratchLease s) (outputLease s) s)
    end
  else mret tt.

Definition emitPageHeader (p : pageDescription) : TM unit :=
  headerLease ← match observer env with
                | None => mret None
                | Some _ => acquire "urf/page-header" (Z.of_nat pwgPageHeaderSize)
                end;
  deferred (release_lease headerLease) (
    pg ← gets pages;
    page ← next_page;
    out ← gets outputBytes;
    let h := pageHeader policy p pg in
    let countOffset := i64 (out + 452) in
    counts ← gets pageCounts;
    if (0 <? MaxPages limits) && (MaxPages limits <? u32 (zlen counts + 1)) then
      resource "maximum page count exceeded" page 0
    else
      write h page 0;;
      appendCount countOffset).

(** One packet of a row: the bytes of the row that remain after it. *)
Definition copyPacket (bpp remaining page row : Z) : TM Z :=
  check "copy raster packet" page row;;
  control ← readFull (zeros 1) page row;
  write control page row;;
  let c := byte_at control 0 in
  if c =? 0x80 then mret 0
  else if negb (Z.land c 0x80 =? 0) then
    let pixels := u16 (257 - c) in
    match checkedMul pixels bpp with
    | None => resource "literal packet size overflows" page row
    | Some want =>
        let want := if remaining <? want then remaining else want in
        copyBytes want page row;;
        mret (u64 (remaining - want))
    end
  else
    let pixels := u64 (c + 1) in
    match checkedMul pixels bpp with
    | None => resource "repeat packet size overflows" page row
    | Some want =>
        let want := if remaining <? want then remaining else want in
        if want <? bpp then mret 0
        else
          copyBytes bpp page row;;
          mret (u64 (remaining - want))
    end.

Definition copyPageData (p : pageDescription) : TM unit :=
  page ← next_page;
  let bpp := pwgBitsPerPixel p / 8 in
  if bpp =? 0 then malformed "zero bytes per pixel" page 0 else
  while (S (Z.to_nat (height p))) (fun rowsDone =>
    if rowsDone <? height p then
      let row := u32 (rowsDone + 1) in
      check "copy raster row" page row;;
      repeat ← readFull (zeros 1) page row;
      write repeat page row;;
      let repeatRows := u64 (byte_at repeat 0 + 1) in
      while (S (Z.to_nat (rowBytes p))) (fun remaining =>
        if 0 <? remaining then
          remaining ← copyPacket bpp remaining page row;
          mret (inl remaining)
        else mret (inr tt)) (rowBytes p);;
      if u64 (height p - rowsDone) <? repeatRows then mret (inl (height p))
      else mret (inl (u64 (rowsDone + repeatRows)))
    else mret (inr tt)) 0.

Definition translatePages : TM unit :=
  while (S (S (Z.to_nat (MaxPages limits)))) (fun _ : unit =>
    page ← next_page;
    check "read page header" page 0;;
    '(n, raw) ← readHeader (zeros urfPageHeaderSize);
    if n =? 0 then mret (inr tt)
    else if n <? Z.of_nat urfPageHeaderSize then mret (inr tt)
    else
    pg ← gets pages;
    if (0 <? MaxPages limits) && (MaxPages limits <=? pg) then
      resource "maximum page count exceeded" page 0
    else
      p ← parsePage raw;
      emitPageHeader p;;
      copyPageData p;;
      modify (fun s => set_pages (u32 (pages s + 1)) s);;
      mret (inl tt)) tt.

(** *** The end of the document *)

Fixpoint forM {A} (l : list A) (f : A -> TM unit) : TM unit :=
  match l with
  | [] => mret tt
  | x :: r => f x;; forM r f
  end.

Definition finalize : TM unit :=
  pg ← gets pages;
  check "finalize" pg 0;;
  if maxU32 <? pg then resource "page count overflows PWG metadata" pg 0 else
  counts ← gets pageCounts;
  forM counts (fun off => seekWrite off (be32 pg) "patch page count");;
  seekWrite 0 (be32 pwgSync) "write PWG marker";;
  check "measure destination" pg 0;;
  '(end_, err) ← dstSeek 0 SeekEnd;
  match err with
  | Some err => dst_error "measure destination" err pg 0
  | None =>
    out ← gets outputBytes;
    if negb (end_ =? out) then
      dst_error "measure destination"
        (EText ("destination size " +:+ Itoa end_ +:+ ", want emitted size " +:+ Itoa out)) pg 0
    else if (0 <? MaxOutputBytes limits) && (MaxOutputBytes limits <? out) then
      resource "maximum output bytes exceeded" pg 0
    else
      check "rewind destination" pg 0;;
      '(pos, err) ← dstSeek 0 SeekStart;
      match err with
      | Some err => dst_error "rewind destination" err pg 0
      | None =>
        if negb (pos =? 0) then
          dst_error "rewind destination" (EText ("seek returned offset " +:+ Itoa pos +:+ ", want 0")) pg 0
        else
          check "complete translation" pg 0;;
          modify (fun s => set_output (outputBytes s) (outputBytes s) s)
      end
  end.

(** A seek of [Translate] before anything is written, with the position it must find. *)
Definition initial_seek (whence : Z) (op : string) (text : Z -> string) : TM unit :=
  '(pos, err) ← dstSeek 0 whence;
  match err with
  | Some err => throw (wrapError KindDestinationIO op err (-1) 0 0)
  | None =>
    if negb (pos =? 0) then throw (wrapError KindDestinationIO op (EText (text pos)) (-1) 0 0)
    else mret tt
  end.

Definition seek_text (pos : Z) : string := "seek returned offset " +:+ Itoa pos +:+ ", want 0".

(** The part of [Translate] after the options are validated. *)
Definition translateBody : TM Result :=
  deferred releaseResources (
    match observer env with
    | None => mret tt
    | Some _ =>
        sl ← acquire "urf/compressed-scratch" (Z.of_nat maxCopyScratch);
        modify (set_leases None sl None);;
        ol ← acquire "urf/output" 0;
        modify (set_leases None sl ol)
    end;;
    initial_seek SeekStart "seek destination" seek_text;;
    initial_seek SeekEnd "inspect destination"
      (fun e => "destination is not empty (size " +:+ Itoa e +:+ ")");;
    initial_seek SeekStart "rewind destination" seek_text;;
    write (zeros 4) 0 0;;
    readFileHeader;;
    translatePages;;
    pg ← gets pages;
    if pg =? 0 then malformed "document contains no complete pages" 0 0 else
    finalize;;
    gets (fun s => {| InputBytes := src_count s; OutputBytes := outputSize s; Pages := pages s |})).
End translate.

Definition liftE {A} (r : res goerr A) : TM A :=
  match r with Ok a => mret a | Err e => throw e end.

(** [Translate]; a nil context is one whose [Err] is always nil. *)
Definition Translate (env : Env) (opts : Options) : TM Result :=
  checkContext env "validate options" (-1) 0 0;;
  match src env, dst env with
  | None, _ => throw (wrapError KindInvalidOptions "source" (EText "nil source") (-1) 0 0)
  | Some _, None => throw (wrapError KindInvalidOptions "destination" (EText "nil destination") (-1) 0 0)
  | Some _, Some _ =>
      _ ← liftE (validateLimits (oLimits opts));
      let limits := effectiveLimits (oLimits opts) in
      policy ← liftE (validatePageSettings (oPage opts));
      _ ← liftE (validateMapping (oMapping opts));
      translateBody env limits (oMapping opts) policy
  end.
