(* ===== verification/UrfSpec.v ===== *)
(** * URF to PWG Raster translation: the specification

    What a history of calls means (the bytes the source delivered, the file
    the destination holds, the leases that are live), and what the
    translator promises: the grammar of the compressed rows of a page, the
    source document of a list of pages and the PWG document it becomes. *)

From Stdlib Require Import ZArith Lia Ascii String Strings.Byte.
From stdpp Require Import base tactics list strings.
From S2P Require Import Prelude GoString GoError Urf.

(** ** Meaning of a history *)

(** The bytes the source has delivered, oldest first. *)
Fixpoint consumed (h : history) : list byte :=
  match h with
  | [] => []
  | EvRead p n p' _ :: h =>
      if (0 <=? n) && (n <=? zlen p) then consumed h ++ take (Z.to_nat n) p' else consumed h
  | _ :: h => consumed h
  end.

(** Writing [b] at position [pos] of a file; a gap is filled with zeros. *)
Definition overwrite (pos : Z) (b content : list byte) : list byte :=
  let p := Z.to_nat pos in
  take p (content ++ zeros (p - length content)) ++ b ++ drop (p + length b) content.

(** The content of the destination and its position, for a destination that
    holds what it accepted where it said its position was. *)
Fixpoint file (h : history) : list byte * Z :=
  match h with
  | [] => ([], 0)
  | EvWrite buf n _ :: h =>
      let '(content, pos) := file h in
      if (0 <=? n) && (n <=? zlen buf)
      then (overwrite pos (take (Z.to_nat n) buf) content, pos + n) else (content, pos)
  | EvSeek _ _ pos None :: h => (fst (file h), pos)
  | _ :: h => file h
  end.

Fixpoint remove_lease (l : nat) (ls : list nat) : option (list nat) :=
  match ls with
  | [] => None
  | x :: r => if (x =? l)%nat then Some r else cons x <$> remove_lease l r
  end.

(** The live leases; [None] once a lease was used or released while not live. *)
Fixpoint live (h : history) : option (list nat) :=
  match h with
  | [] => Some []
  | EvAcquire _ _ (Some l) :: h => cons l <$> live h
  | EvRelease l :: h => ls ← live h; remove_lease l ls
  | (EvSetSize l _ | EvWritten l _) :: h =>
      ls ← live h; if existsb (Nat.eqb l) ls then Some ls else None
  | _ :: h => live h
  end.

(** ** Compressed rows

    [packets bpp r bs]: [bs] is the packets of a row of which [r] bytes
    remain, at [bpp] bytes per pixel: a literal run of [257 - c] pixels, a
    repeated pixel ([c + 1] times), or the end-of-row code. A run past the
    end of the row is clipped. *)
Inductive packets (bpp : Z) : Z -> list byte -> Prop :=
| pk_done : packets bpp 0 []
| pk_fill r : 0 < r -> packets bpp r [x80]
| pk_literal r c data rest :
    0 < r -> 128 < byteZ c ->
    zlen data = Z.min ((257 - byteZ c) * bpp) r ->
    packets bpp (r - zlen data) rest ->
    packets bpp r (c :: data ++ rest)
| pk_repeat r c px rest :
    0 < r -> byteZ c < 128 -> zlen px = bpp -> bpp <= r ->
    packets bpp (r - Z.min ((byteZ c + 1) * bpp) r) rest ->
    packets bpp r (c :: px ++ rest)
| pk_clipped r c :
    0 < r -> byteZ c < 128 -> r < bpp -> packets bpp r [c].

(** [rows rb bpp h bs]: [bs] is [h] rows of [rb] bytes, each run of equal rows
    preceded by its repeat count. *)
Inductive rows (rb bpp : Z) : Z -> list byte -> Prop :=
| rows_done : rows rb bpp 0 []
| rows_cons h c pk rest :
    0 < h -> packets bpp rb pk ->
    rows rb bpp (h - Z.min (byteZ c + 1) h) rest ->
    rows rb bpp h (c :: pk ++ rest).

(** ** Pages and documents *)

Record page := { pg_raw : list byte; pg_desc : pageDescription; pg_body : list byte }.

Section document.
Context (limits : Limits) (mapping : Z) (policy : pagePolicy).

(** The page header agrees with the options, and is described by [d]. *)
Record header_ok (raw : list byte) (d : pageDescription) : Prop := {
  ho_length : length raw = urfPageHeaderSize;
  ho_space : (byte_at raw 1, byte_at raw 0) = fst (sourceMapping mapping);
  ho_size : 0 < get32 12 raw /\ 0 < get32 16 raw;
  ho_resolution : get32 20 raw = resX policy /\ get32 20 raw = resY policy;
  ho_width : get32 12 raw <= MaxWidth limits;
  ho_height : get32 16 raw <= MaxHeight limits;
  ho_row : get32 12 raw * (byte_at raw 0 / 8) <= Z.min maxU32 (MaxRowBytes limits);
  ho_geometry : forall W H, mediaPixels (mediaWidth policy) (mediaHeight policy) (get32 20 raw) = Some (W, H) ->
    if landscape d then (get32 12 raw, get32 16 raw) = (H, W) /\ (get32 12 raw, get32 16 raw) <> (W, H)
    else (get32 12 raw, get32 16 raw) = (W, H);
  ho_media : is_Some (mediaPixels (mediaWidth policy) (mediaHeight policy) (get32 20 raw));
  ho_duplex :
    ((sides policy = "one-sided" -> byte_at raw 2 < 2) /\
     (sides policy = "two-sided-long-edge" -> 2 < byte_at raw 2) /\
     (sides policy = "two-sided-short-edge" -> byte_at raw 2 = 2))%string;
  ho_desc : d = describe mapping (rawPage raw) (get32 12 raw * (byte_at raw 0 / 8)) (landscape d)
}.

Record page_ok (p : page) : Prop := {
  po_header : header_ok (pg_raw p) (pg_desc p);
  po_body : rows (rowBytes (pg_desc p)) (pwgBitsPerPixel (pg_desc p) / 8)
              (height (pg_desc p)) (pg_body p)
}.

(** The decoded size of a page. *)
Definition page_logical (p : page) : Z := rowBytes (pg_desc p) * height (pg_desc p).
Definition logical (ps : list page) : Z := foldr Z.add 0 (map page_logical ps).

Definition source_page (p : page) : list byte := pg_raw p ++ pg_body p.
(** The page of index [i] of a document of [n] pages. *)
Definition output_page (n i : Z) (p : page) : list byte :=
  splice 452 (be32 n) (pageHeader policy (pg_desc p) i) ++ pg_body p.

Definition source_document (header : list byte) (ps : list page) (suffix : list byte) : list byte :=
  header ++ concat (map source_page ps) ++ suffix.
Fixpoint output_pages (n i : Z) (ps : list page) : list byte :=
  match ps with [] => [] | p :: r => output_page n i p ++ output_pages n (i + 1) r end.
Definition output_document (ps : list page) : list byte :=
  be32 pwgSync ++ output_pages (zlen ps) 0 ps.

Definition file_header_ok (h : list byte) : Prop :=
  length h = urfFileHeaderSize /\
  (string_of_list_byte (take 4 h) = urfHeaderPrefix \/
   string_of_list_byte (take 4 h) = urfHeaderReversed).
End document.

(** ** Evaluation: a source and a destination in memory

    [memory_env input chunk] reads [input] in pieces of at most [chunk h]
    bytes (at least one) and writes to a file that accepts as many. *)
Definition memory_env (input : list byte) (chunk : history -> nat) (obs : bool) : Env := {|
  ctx_Err := fun _ => None;
  src := Some (fun h p =>
    let rest := drop (length (consumed h)) input in
    let n := Nat.min (Nat.min (length p) (S (chunk h))) (length rest) in
    (Z.of_nat n, take n rest, if (n =? 0)%nat then Some EOF else None));
  dst := Some {|
    dst_Write := fun h buf => (Z.min (zlen buf) (1 + Z.of_nat (chunk h)), None);
    dst_Seek := fun h off whence =>
      ((if whence =? SeekEnd then zlen (fst (file h)) + off else off), None)
  |};
  observer := if obs then Some (fun _ _ _ => true) else None;
  append_cap := fun c n => Z.max n (2 * c)
|}.
