(* ===== verification/UrfProofs.v ===== *)
(** * URF to PWG Raster translation: the proofs

    Every operation of the translator is specified with the same invariant
    [good] (the resource bounds and the live leases), on normal ends and on
    errors, and with [adv], which says what it read and what it wrote. *)

From Stdlib Require Import ZArith Lia Ascii String Strings.Byte.
From stdpp Require Import base tactics list strings sets.
From S2P Require Import Prelude GoString GoError Urf UrfSpec.

(** ** Facts about histories *)

Lemma remove_lease_perm l ls k :
  ls ≡ₚ l :: k -> exists ls', remove_lease l ls = Some ls' /\ ls' ≡ₚ k.
Proof.
  revert k. induction ls as [|x r IH]; intros k Hp.
  { by apply Permutation_nil_cons in Hp. }
  simpl. destruct (x =? l)%nat eqn:E.
  - apply Nat.eqb_eq in E. subst. exists r. split; [done|]. by apply Permutation_cons_inv in Hp.
  - apply Nat.eqb_neq in E.
    assert (l ∈ r) as Hin.
    { assert (l ∈ x :: r) as Hl by (rewrite Hp; left).
      apply elem_of_cons in Hl as [->|]; done. }
    apply elem_of_Permutation in Hin as [q Hq].
    destruct (IH q Hq) as (ls' & -> & Hls'). exists (x :: ls'). split; [done|].
    assert (x :: r ≡ₚ l :: x :: q) as Hx by (rewrite Hq; constructor).
    rewrite Hx in Hp. apply Permutation_cons_inv in Hp. by rewrite Hls', Hp.
Qed.

Lemma overwrite_end c b : overwrite (zlen c) b c = c ++ b.
Proof.
  unfold overwrite, zlen. rewrite Nat2Z.id, Nat.sub_diag. simpl.
  rewrite app_nil_r, take_ge, drop_ge by lia. by rewrite app_nil_r.
Qed.

Lemma overwrite_inside pos b c :
  0 <= pos -> pos + zlen b <= zlen c -> overwrite pos b c = splice (Z.to_nat pos) b c.
Proof.
  unfold overwrite, splice, zlen. intros.
  replace (Z.to_nat pos - length c)%nat with 0%nat by lia. simpl. by rewrite app_nil_r.
Qed.

Lemma splice_app_r {A} (a b src : list A) k :
  splice (length a + k) src (a ++ b) = a ++ splice k src b.
Proof.
  unfold splice. rewrite take_app_add. rewrite <- app_assoc. f_equal. f_equal. f_equal.
  rewrite drop_app_ge by lia. f_equal. lia.
Qed.

Lemma splice_app_l {A} (a b src : list A) k :
  (k + length src <= length a)%nat -> splice k src (a ++ b) = splice k src a ++ b.
Proof.
  intros. unfold splice. rewrite take_app_le, drop_app_le by lia. by rewrite <- !app_assoc.
Qed.

Lemma be32_zlen v : zlen (be32 v) = 4.
Proof. done. Qed.

(** ** The page header buffer *)

Definition header_sized (h : list byte) : Prop := length h = pwgPageHeaderSize.

Lemma put32_sized off v h : (off <= 1792)%nat -> header_sized h -> header_sized (put32 off v h).
Proof.
  unfold header_sized, put32, pwgPageHeaderSize. intros.
  rewrite splice_length; [done|]. rewrite be32_length. lia.
Qed.
Lemma putFloat32_sized off v h : (off <= 1792)%nat -> header_sized h -> header_sized (putFloat32 off v h).
Proof. apply put32_sized. Qed.
Lemma copyString_sized off s h : (off <= 1732)%nat -> header_sized h -> header_sized (copyString off 64 s h).
Proof.
  unfold header_sized, copyString, pwgPageHeaderSize. intros.
  rewrite splice_length; [done|]. rewrite length_take. lia.
Qed.
Lemma setSheetBack_sized policy b h : header_sized h -> header_sized (setSheetBack policy b h).
Proof.
  intros. unfold setSheetBack.
  repeat (case_match; try done); repeat (apply put32_sized; [lia|]); done.
Qed.

Lemma pageHeader_sized policy p n : header_sized (pageHeader policy p n).
Proof.
  unfold pageHeader. destruct (pageSize policy p) as [w h]. cbv zeta.
  repeat first [ apply put32_sized; [lia|] | apply putFloat32_sized; [lia|]
               | apply setSheetBack_sized | apply copyString_sized; [lia|] ].
  apply zeros_length.
Qed.

(** ** The invariant *)

(** The range of the limits in force. *)
Record limits_ok (limits : Limits) : Prop := {
  lo_in : 0 < MaxInputBytes limits <= maxI64;
  lo_out : 0 < MaxOutputBytes limits <= maxI64;
  lo_pages : 0 < MaxPages limits <= maxU32;
  lo_width : 0 < MaxWidth limits <= maxU32;
  lo_height : 0 < MaxHeight limits <= maxU32;
  lo_row : 0 < MaxRowBytes limits <= maxU64;
  lo_decoded : 0 < MaxDecodedBytes limits <= maxU64
}.

(** The errors [Translate] returns. *)
Definition urf_error (e : goerr) : Prop :=
  exists k op page row off err, e = EUrf k op page row off (Some err) /\ 1 <= k <= 8.

Definition slots (s : translator) : list nat :=
  option_list (offsetLease s) ++ option_list (outputLease s) ++ option_list (scratchLease s).

Definition tracked_out (s : translator) (c : list byte) : Prop :=
  file (hist s) = (c, zlen c) /\ outputBytes s = zlen c.

Definition frame (s s' : translator) : Prop :=
  pages s' = pages s /\ pageCounts s' = pageCounts s /\ pageCounts_cap s' = pageCounts_cap s /\
  pageLogical s' = pageLogical s /\ length (scratch s') = length (scratch s).

Definition same_leases (s s' : translator) : Prop :=
  offsetLease s' = offsetLease s /\ scratchLease s' = scratchLease s /\
  outputLease s' = outputLease s.

Section proofs.
Context (env : Env) (limits : Limits) (mapping : Z) (policy : pagePolicy).
Context (Hlim : limits_ok limits).
Context (Hsrc : is_Some (src env)) (Hdst : is_Some (dst env)).

(** [X] is the leases that are live besides those the translator holds. *)
Record good (X : list nat) (s : translator) : Prop := {
  gd_in : 0 <= src_count s <= MaxInputBytes limits;
  gd_out : 0 <= outputBytes s <= MaxOutputBytes limits;
  gd_pages : 0 <= pages s <= MaxPages limits;
  gd_logical : 0 <= pageLogical s <= MaxDecodedBytes limits;
  gd_scratch : length (scratch s) = maxCopyScratch;
  gd_live : exists ls, live (hist s) = Some ls /\ ls ≡ₚ slots s ++ X
}.

Definition bad (X : list nat) (e : goerr) (s : translator) : Prop := good X s /\ urf_error e.

(** From [s] to [s'] the bytes [i] were read and the bytes [o] written. *)
Record adv (X : list nat) (i o : list byte) (s s' : translator) : Prop := {
  adv_good : good X s';
  adv_in : consumed (hist s') = consumed (hist s) ++ i;
  adv_count : src_count s' = src_count s + zlen i;
  adv_obytes : outputBytes s' = outputBytes s + zlen o;
  adv_out : forall c, tracked_out s c -> tracked_out s' (c ++ o);
  adv_frame : frame s s';
  adv_leases : same_leases s s'
}.

Lemma adv_refl X s : good X s -> adv X [] [] s s.
Proof.
  intros. split; try done; intros; rewrite ?app_nil_r, ?zlen_nil; try done; lia.
Qed.

Lemma adv_trans X i o i' o' s s' s'' :
  adv X i o s s' -> adv X i' o' s' s'' -> adv X (i ++ i') (o ++ o') s s''.
Proof.
  intros [G1 I1 C1 B1 O1 F1 L1] [G2 I2 C2 B2 O2 F2 L2]. split; [done|..].
  - by rewrite I2, I1, app_assoc.
  - rewrite C2, C1, zlen_app. lia.
  - rewrite B2, B1, zlen_app. lia.
  - intros c Hc. rewrite app_assoc. auto.
  - unfold frame in *. intuition congruence.
  - unfold same_leases in *. intuition congruence.
Qed.

Lemma adv_trans_l X i o s s' s'' : adv X [] [] s s' -> adv X i o s' s'' -> adv X i o s s''.
Proof. intros H H'. exact (adv_trans _ _ _ _ _ _ _ _ H H'). Qed.

Lemma adv_trans_r X i o s s' s'' : adv X i o s s' -> adv X [] [] s' s'' -> adv X i o s s''.
Proof. intros H H'. pose proof (adv_trans _ _ _ _ _ _ _ _ H H') as A. by rewrite !app_nil_r in A. Qed.

(** A spec: from [s] good, ends well or with a typed error. *)
Definition spec {A} (X : list nat) (m : TM A) (Q : A -> translator -> translator -> Prop) : Prop :=
  forall s, good X s -> wp m (fun a s' => Q a s s') (bad X) s.

(** *** Calls of the outside world *)

Definition neutral (ev : event) : Prop :=
  match ev with
  | EvCtx _ | EvAcquire _ _ None | EvSeek _ _ _ (Some _) => True
  | _ => False
  end.

Lemma log_neutral X ev s : neutral ev -> good X s -> adv X [] [] s (log ev s).
Proof.
  intros Hn []. split; [split|..]; simpl; try done.
  - destruct ev as [| | |? ? ? []| ? ? []| | |]; done.
  - rewrite app_nil_r. destruct ev as [| | |? ? ? []| ? ? []| | |]; done.
  - rewrite zlen_nil. lia.
  - rewrite zlen_nil. lia.
  - intros c []. split; [|by rewrite app_nil_r]. rewrite app_nil_r.
    destruct ev as [| | |? ? ? []| ? ? []| | |]; done.
Qed.

Lemma ctxErr_spec X : spec X (ctxErr env) (fun _ s s' => adv X [] [] s s').
Proof.
  intros s HG. apply wp_liftS. intros a s' [= <- <-]. by apply log_neutral.
Qed.

Lemma wrap_at_spec X {A} kind op err page row (Q : A -> translator -> Prop) s :
  1 <= kind <= 8 -> good X s -> wp (wrap_at kind op err page row) Q (bad X) s.
Proof.
  intros Hk HG. unfold wrap_at. repeat wp_step. split; [done|]. unfold urf_error. repeat eexists; lia.
Qed.

Lemma malformed_spec X {A} m page row (Q : A -> translator -> Prop) s : good X s ->
  wp (malformed m page row) Q (bad X) s.
Proof. by apply wrap_at_spec. Qed.
Lemma unsupported_spec X {A} m page (Q : A -> translator -> Prop) s : good X s ->
  wp (unsupported m page) Q (bad X) s.
Proof. by apply wrap_at_spec. Qed.
Lemma settingsMismatch_spec X {A} m page (Q : A -> translator -> Prop) s : good X s ->
  wp (settingsMismatch m page) Q (bad X) s.
Proof. by apply wrap_at_spec. Qed.
Lemma resource_spec X {A} m page row (Q : A -> translator -> Prop) s : good X s ->
  wp (resource m page row) Q (bad X) s.
Proof. by apply wrap_at_spec. Qed.
Lemma dst_error_spec X {A} op err page row (Q : A -> translator -> Prop) s : good X s ->
  wp (dst_error op err page row) Q (bad X) s.
Proof. by apply wrap_at_spec. Qed.

Lemma canceledError_spec X {A} op page row (Q : A -> translator -> Prop) s : good X s ->
  wp (canceledError env op page row) Q (bad X) s.
Proof.
  intros HG. unfold canceledError. repeat wp_step. eapply wp_mono; [by apply ctxErr_spec| |done].
  intros e s' HA. wp_step. split; [apply HA|].
  unfold urf_error, KindCanceled. repeat eexists; lia.
Qed.

Lemma check_spec X op page row : spec X (check env op page row) (fun _ s s' => adv X [] [] s s').
Proof.
  intros s HG. unfold check, checkContext. repeat wp_step.
  eapply wp_mono; [by apply ctxErr_spec| |done]. intros e s' HA. simpl. wp_step; repeat wp_step; [|done].
  split; [apply HA|]. unfold urf_error, KindCanceled. repeat eexists; lia.
Qed.

(** Using a spec in the middle of a program. *)
Lemma spec_use {A} X (m : TM A) Q Q' R s :
  spec X m Q -> good X s -> (forall e s', bad X e s' -> R e s') ->
  (forall a s', Q a s s' -> Q' a s') -> wp m Q' R s.
Proof. intros Hs HG HR HQ. eapply wp_mono; [by apply Hs|auto|auto]. Qed.

(** *** Reading *)

(** Like [adv], when the source may have delivered more than was counted
    (the probe at the input limit). *)
Record advw (X : list nat) (i : list byte) (s s' : translator) : Prop := {
  aw_good : good X s';
  aw_in : consumed (hist s) ++ i `prefix_of` consumed (hist s');
  aw_count : src_count s' = src_count s + zlen i;
  aw_obytes : outputBytes s' = outputBytes s;
  aw_out : forall c, tracked_out s c -> tracked_out s' c;
  aw_frame : frame s s';
  aw_leases : same_leases s s'
}.

Lemma adv_advw X i s s' : adv X i [] s s' -> advw X i s s'.
Proof.
  intros [G I C B O F L]. split; try done; [by rewrite I|by rewrite B, zlen_nil, Z.add_0_r|].
  intros c Hc. rewrite <- (app_nil_r c). auto.
Qed.

Lemma advw_trans X i i' s s' s'' : adv X i [] s s' -> advw X i' s' s'' -> advw X (i ++ i') s s''.
Proof.
  intros [G1 I1 C1 B1 O1 F1 L1] [G2 I2 C2 B2 O2 F2 L2]. split; [done|..].
  - rewrite app_assoc. by rewrite <- I1.
  - rewrite C2, C1, zlen_app. lia.
  - rewrite B2, B1, zlen_nil. lia.
  - intros c Hc. apply O2. rewrite <- (app_nil_r c). auto.
  - unfold frame in *. intuition congruence.
  - unfold same_leases in *. intuition congruence.
Qed.

(** What one call of [read] may do: [n] bytes of the buffer are new. *)
Definition read_post (X : list nat) (p : list byte) (r : Z * list byte * option goerr)
    (s s' : translator) : Prop :=
  let '(n, p', err) := r in
  length p' = length p /\ 0 <= n <= zlen p /\
  match err with
  | None => adv X (take (Z.to_nat n) p') [] s s' /\ (0 < n \/ p = [])
  | Some _ =>
      advw X (take (Z.to_nat n) p') s s' /\ (n = 0 \/ adv X (take (Z.to_nat n) p') [] s s')
  end.

Lemma adv_trans_r' X i s s' s'' : advw X i s s' -> adv X [] [] s' s'' -> advw X i s s''.
Proof.
  intros [G1 I1 C1 B1 O1 F1 L1] [G2 I2 C2 B2 O2 F2 L2]. split; [done|..].
  - by rewrite I2, app_nil_r.
  - rewrite C2, C1, zlen_nil. lia.
  - rewrite B2, B1, zlen_nil. lia.
  - intros c Hc. rewrite <- (app_nil_r c). auto.
  - unfold frame in *. intuition congruence.
  - unfold same_leases in *. intuition congruence.
Qed.

Lemma adv_or_advw X (i : list byte) s s' (P : Prop) :
  adv X i [] s s' -> advw X i s s' /\ (P \/ adv X i [] s s').
Proof. intros H. split; [by apply adv_advw|by right]. Qed.

Lemma srcRead_buffer k (p b : list byte) :
  length (take (length (take k p)) (b ++ drop (length b) (take k p))) = length (take k p).
Proof. rewrite length_take, !length_app, length_drop, !length_take. lia. Qed.

Lemma read_none_spec X p err s : good X s ->
  read_post X p (0, p, Some err) s s.
Proof.
  intros HG. split; [done|]. split; [split; [done|apply zlen_nonneg]|].
  apply adv_or_advw. by apply adv_refl.
Qed.

Lemma read_some_spec X k p s : good X s ->
  0 < Z.of_nat k <= zlen p -> src_count s + Z.of_nat k <= MaxInputBytes limits ->
  wp (read_some env k p) (fun r s' => read_post X p r s s') (bad X) s.
Proof.
  intros HG Hk Hc. destruct Hsrc as [rd Hrd]. unfold read_some, srcRead. rewrite Hrd.
  apply wp_bind, wp_liftS. intros r s' Hr.
  destruct (rd (hist s) (take k p)) as [[n b] err] eqn:E. injection Hr as <- <-. cbv beta iota.
  set (b' := take (length (take k p)) (b ++ drop (length b) (take k p))) in *.
  assert (length b' = length (take k p)) as Hb by apply srcRead_buffer.
  assert (length b' = k) as Hbk by (rewrite Hb, length_take; unfold zlen in *; lia).
  assert (length (b' ++ drop k p) = length p) as Hp
    by (rewrite length_app, length_drop, Hbk; unfold zlen in *; lia).
  assert (zlen (take k p) = Z.of_nat k) as Hz by (unfold zlen; rewrite <- Hb; lia).
  unfold zlen in Hk. destruct HG as [G1 G2 G3 G4 G5 G6].
  destruct ((n <? 0) || (zlen b' <? n)) eqn:Hn.
  { wp_step. split; [done|]. split; [split; [done|apply zlen_nonneg]|].
    assert ((0 <=? n) && (n <=? zlen (take k p)) = false) as Hn'.
    { rewrite Hz. unfold zlen in Hn. rewrite Hbk in Hn.
      apply orb_true_iff in Hn as [Hn|Hn]; apply Z.ltb_lt in Hn; lia. }
    change (take (Z.to_nat 0) (b' ++ drop k p)) with (@nil byte).
    apply adv_or_advw. split; simpl; rewrite ?Hn', ?app_nil_r, ?zlen_nil; try done; try lia.
    intros c; by rewrite app_nil_r. }
  bool_to_prop. unfold zlen in H0. rewrite Hbk in H0.
  assert (take (Z.to_nat n) (b' ++ drop k p) = take (Z.to_nat n) b') as Ht by (rewrite take_app_le by lia; done).
  destruct Hlim as [[_ HM] _ _ _ _ _ _].
  assert (good X (set_src (src_count s + n) (src_pendingErr s) (log (EvRead (take k p) n b' err) s))) as HG.
  { split; simpl; try done; lia. }
  assert (forall pe, adv X (take (Z.to_nat n) (b' ++ drop k p)) [] s
      (set_src (src_count s + n) pe (log (EvRead (take k p) n b' err) s))) as HA.
  { intros pe. rewrite Ht. split; simpl; try done.
    - by destruct HG; split.
    - rewrite Hz. assert ((0 <=? n) && (n <=? Z.of_nat k) = true) as -> by lia. done.
    - unfold zlen. rewrite length_take. lia.
    - rewrite zlen_nil. lia.
    - intros c. by rewrite app_nil_r. }
  apply wp_bind, wp_modify. simpl. rewrite i64_small by (unfold minI64; lia).
  assert (0 <= n <= Z.of_nat (length p)) as Hnp by lia.
  destruct err as [err|]; [destruct (_ && _) eqn:HE|destruct (n =? 0) eqn:HE].
  - bool_to_prop. repeat wp_step. simpl. split; [done|]. split; [done|]. split; [apply HA|by left].
  - wp_step. split; [done|]. split; [done|]. apply adv_or_advw, HA.
  - wp_step. bool_to_prop. subst n. split; [done|]. split; [done|]. apply adv_or_advw, HA.
  - wp_step. bool_to_prop. split; [done|]. split; [done|]. split; [apply HA|left; lia].
Qed.

Lemma read_probe_spec X p s : good X s ->
  wp (read_probe env p) (fun r s' => read_post X p r s s') (bad X) s.
Proof.
  intros HG. destruct Hsrc as [rd Hrd]. unfold read_probe, srcRead. rewrite Hrd.
  apply wp_bind, wp_liftS. intros r s' Hr.
  destruct (rd (hist s) [x00]) as [[n b] err] eqn:E. injection Hr as <- <-. cbv beta iota.
  set (b' := take (length [x00]) (b ++ drop (length b) [x00])) in *.
  assert (forall e, read_post X p (0, p, Some e) s (log (EvRead [x00] n b' err) s)) as HP.
  { intros e. split; [done|]. split; [split; [done|apply zlen_nonneg]|].
    change (take (Z.to_nat 0) p) with (@nil byte). split; [|by left]. destruct HG. split; simpl; try done.
    - rewrite app_nil_r. destruct (_ && _); [by apply prefix_app_r|done].
    - rewrite zlen_nil. lia. }
  repeat wp_step; apply HP.
Qed.

Lemma read_spec X p s : good X s ->
  wp (read env limits p) (fun r s' => read_post X p r s s') (bad X) s.
Proof.
  intros HG. unfold read. wp_step. eapply wp_mono; [by apply ctxErr_spec| |done].
  intros e s1 HA. pose proof (adv_good _ _ _ _ _ HA) as HG1.
  assert (forall r s', read_post X p r s1 s' -> read_post X p r s s') as Hmono.
  { intros [[n b] err] s' (? & ? & Hr). split; [done|]. split; [done|]. destruct err.
    - destruct Hr as [Hr Hr']. split; [eapply (advw_trans _ []); [apply HA|apply Hr]|].
      destruct Hr' as [|Hr']; [by left|right]. eapply adv_trans_l; [apply HA|apply Hr'].
    - destruct Hr as [Hr ?]. split; [|done]. eapply adv_trans_l; [apply HA|apply Hr]. }
  apply (wp_mono _ (fun r s' => read_post X p r s1 s') _ (bad X)); [|auto|done].
  wp_step. { wp_step. by apply read_none_spec. }
  wp_step. { wp_step. bool_to_prop. destruct p; [|by rewrite zlen_cons in *; pose proof (zlen_nonneg p); lia].
    split; [done|]. split; [done|]. split; [by apply adv_refl|by right]. }
  wp_step. wp_step. wp_step.
  { repeat wp_step. split; [done|]. split; [split; [done|apply zlen_nonneg]|].
    apply adv_or_advw.
    change (take (Z.to_nat 0) p) with (@nil byte). destruct HG1.
    split; simpl; rewrite ?app_nil_r, ?zlen_nil, ?Z.add_0_r; try done; intros c; by rewrite ?app_nil_r. }
  wp_step. wp_step. destruct Hlim as [[HL HM] _ _ _ _ _ _]. destruct (gd_in _ _ HG1) as [Hi Hj].
  assert (0 < zlen p) by (bool_to_prop; pose proof (zlen_nonneg p); lia).
  wp_step; [|bool_to_prop; lia]. rewrite i64_small by (unfold minI64; lia).
  wp_step; [bool_to_prop; lia|]. wp_step; [by apply read_probe_spec|].
  bool_to_prop. unfold zlen in *. destruct (_ <? Z.of_nat (length p)) eqn:E; bool_to_prop;
    apply read_some_spec; unfold zlen; (done || lia).
Qed.

(** Both loops that fill a buffer keep this invariant. *)
Definition fill_inv X (buf : list byte) s (x : Z * list byte) (st : translator) : Prop :=
  let '(total, b) := x in
  length b = length buf /\ 0 <= total <= zlen buf /\ adv X (take (Z.to_nat total) b) [] s st.

Lemma take_fill (total n : nat) (b p : list byte) :
  (total <= length b)%nat -> take (total + n) (take total b ++ p) = take total b ++ take n p.
Proof.
  intros. rewrite take_app, length_take, Nat.min_l by lia.
  rewrite take_take, Nat.min_r by lia. do 2 f_equal. lia.
Qed.

Lemma fill_step X buf s total b st n p s' :
  fill_inv X buf s (total, b) st -> (total <? zlen b) = true ->
  read_post X (drop (Z.to_nat total) b) (n, p, None) st s' ->
  fill_inv X buf s (total + n, take (Z.to_nat total) b ++ p) s' /\ 0 < n.
Proof.
  intros (Hl & Ht & HA) Hlt (Hp & Hn & HA' & Hn'). bool_to_prop. unfold zlen in *.
  rewrite length_drop in *.
  assert (0 < n) as Hpos.
  { destruct Hn' as [|Hd]; [done|]. apply (f_equal length) in Hd. rewrite length_drop in Hd. simpl in Hd. lia. }
  split; [|done]. split; [rewrite length_app, length_take; lia|]. unfold zlen. split; [lia|].
  rewrite Z2Nat.inj_add by lia. rewrite take_fill by lia.
  rewrite <- (app_nil_r (@nil byte)). by eapply adv_trans.
Qed.

(** An error of [read] in the middle of a fill. *)
Lemma fill_end X buf s total b st n p err s' :
  fill_inv X buf s (total, b) st ->
  read_post X (drop (Z.to_nat total) b) (n, p, Some err) st s' ->
  let t := total + n in let b' := take (Z.to_nat total) b ++ p in
  length b' = length buf /\ 0 <= t <= zlen buf /\ advw X (take (Z.to_nat t) b') s s' /\
  (total < zlen b -> t = zlen buf -> adv X b' [] s s').
Proof.
  intros (Hl & Ht & HA) (Hp & Hn & HA' & HA''). unfold zlen in *. rewrite length_drop in *. simpl.
  split; [rewrite length_app, length_take; lia|]. split; [lia|].
  rewrite Z2Nat.inj_add by lia. rewrite take_fill by lia. split; [by eapply advw_trans|].
  intros Hlt Hfull. destruct HA'' as [|HA'']; [lia|].
  rewrite (take_ge p) in HA'' by lia. rewrite <- (app_nil_r (@nil byte)). by eapply adv_trans.
Qed.

Lemma readFull_spec X buf page row :
  spec X (readFull env limits buf page row) (fun b s s' => length b = length buf /\ adv X b [] s s').
Proof.
  intros s HG. unfold readFull. wp_step.
  { wp_step. bool_to_prop. destruct buf; [|rewrite zlen_cons in *; pose proof (zlen_nonneg buf); lia].
    split; [done|]. by apply adv_refl. }
  eapply (wp_while (fill_inv X buf s) (fun x _ => zlen buf - fst x)).
  - intros [total b] st (_ & ? & _). simpl. lia.
  - intros [total b] st HI. wp_step; wp_step.
    + eapply wp_mono; [apply read_spec, (adv_good _ _ _ _ _ (proj2 (proj2 HI)))| |done].
      intros [[n p] err] s' HP. cbv beta iota. wp_step.
      * destruct (fill_end _ _ _ _ _ _ _ _ _ _ HI HP) as (_ & _ & HW & _).
        pose proof (aw_good _ _ _ _ HW) as HG'. wp_step; [by apply resource_spec|].
        wp_step. eapply spec_use; [apply ctxErr_spec|done|done|]. intros c s2 HA2.
        wp_step; [apply canceledError_spec, HA2|].
        wp_step; [apply malformed_spec, HA2|apply wrap_at_spec; [done|apply HA2]].
      * wp_step. destruct (fill_step _ _ _ _ _ _ _ _ _ HI Heqb0 HP). split; [done|]. simpl. lia.
    + destruct HI as (Hl & ? & HA). split; [done|]. bool_to_prop. unfold zlen in *.
      by rewrite take_ge in HA by lia.
  - split; [done|]. split; [split; [done|apply zlen_nonneg]|]. by apply adv_refl.
  - simpl. unfold zlen. lia.
Qed.

Lemma readHeader_spec X buf : length buf = urfPageHeaderSize ->
  spec X (readHeader env limits buf) (fun r s s' => let '(n, b) := r in
    length b = urfPageHeaderSize /\ 0 <= n <= Z.of_nat urfPageHeaderSize /\
    advw X (take (Z.to_nat n) b) s s' /\ (n = Z.of_nat urfPageHeaderSize -> adv X b [] s s')).
Proof.
  intros Hbuf s HG. unfold readHeader. rewrite Hbuf. cbn [Nat.eqb negb urfPageHeaderSize].
  eapply (wp_while (fill_inv X buf s) (fun x _ => zlen buf - fst x)).
  - intros [total b] st (_ & ? & _). simpl. lia.
  - intros [total b] st HI. wp_step; wp_step.
    + eapply wp_mono; [apply read_spec, (adv_good _ _ _ _ _ (proj2 (proj2 HI)))| |done].
      intros [[n p] err] s' HP. cbv beta iota. wp_step.
      * destruct (fill_end _ _ _ _ _ _ _ _ _ _ HI HP) as (Hl & Ht & HW & HF).
        pose proof (aw_good _ _ _ _ HW) as HG'. unfold next_page. wp_step. wp_step. wp_step; [by apply resource_spec|].
        wp_step. eapply spec_use; [apply ctxErr_spec|done|done|]. intros c s2 HA2.
        wp_step; [apply canceledError_spec, HA2|].
        wp_step; [wp_step|apply wrap_at_spec; [done|apply HA2]].
        pose proof (adv_trans_r' _ _ _ _ _ HW HA2) as HW2.
        split; [congruence|]. unfold zlen in Ht, HF. rewrite Hbuf in *. split; [done|]. split; [done|].
        intros Hn. bool_to_prop. eapply adv_trans_r; [|apply HA2]. apply HF; [done|lia].
      * wp_step. destruct (fill_step _ _ _ _ _ _ _ _ _ HI Heqb0 HP). split; [done|]. simpl. lia.
    + destruct HI as (Hl & Ht & HA). bool_to_prop. unfold zlen in *. split; [congruence|].
      rewrite Hbuf in *. split; [lia|]. split; [by apply adv_advw|]. intros Hn.
      by rewrite take_ge in HA by lia.
  - split; [done|]. split; [split; [done|apply zlen_nonneg]|]. by apply adv_refl.
  - simpl. unfold zlen. lia.
Qed.

Lemma readFileHeader_spec X :
  spec X (readFileHeader env limits) (fun _ s s' => exists h, file_header_ok h /\ adv X h [] s s').
Proof.
  intros s HG. unfold readFileHeader. wp_step. eapply spec_use; [apply readFull_spec|done|done|].
  intros h s' [Hl HA]. cbv beta zeta. wp_step; [apply malformed_spec, HA|].
  wp_step. exists h. split; [|done]. split; [by rewrite Hl|].
  apply andb_false_iff in Heqb as [Hb|Hb]; apply negb_false_iff, String.eqb_eq in Hb; auto.
Qed.

(** *** Writing *)

Lemma live_existsb l ls : l ∈ ls -> existsb (Nat.eqb l) ls = true.
Proof. intros Hin. apply existsb_exists. exists l. split; [by apply list_elem_of_In|apply Nat.eqb_refl]. Qed.

Lemma lease_event_adv X ev s :
  (forall l, exists z, ev l = EvWritten l z \/ ev l = EvSetSize l z) ->
  good X s -> adv X [] [] s (lease_event (outputLease s) ev s).
Proof.
  intros Hev HG. unfold lease_event. destruct (outputLease s) as [l|] eqn:Hl; [|by apply adv_refl].
  destruct HG as [? ? ? ? ? (ls & Hls & Hp)].
  assert (existsb (Nat.eqb l) ls = true) as Hin.
  { apply live_existsb. rewrite Hp. unfold slots. rewrite Hl. apply elem_of_app; left. apply elem_of_app; right. left. }
  destruct (Hev l) as [z [Hz|Hz]].
  all: split; [split|..]; simpl; rewrite ?Hz; simpl; rewrite ?app_nil_r, ?zlen_nil, ?Hls; simpl; try done; try lia.
  all: try (exists ls; by rewrite Hin).
  all: intros c [Hc1 Hc2]; rewrite app_nil_r; split; simpl; rewrite ?Hz; done.
Qed.

Lemma dstWrite_spec (buf : list byte) (Q : Z * option goerr -> translator -> Prop) R s :
  (forall n err, Q (n, err) (log (EvWrite buf n err) s)) -> wp (dstWrite env buf) Q R s.
Proof.
  intros H. unfold dstWrite. destruct Hdst as [d ->]. apply wp_liftS. intros [n err] s'.
  destruct (dst_Write d (hist s) buf) as [n' err']. intros [= <- <- <-]. apply H.
Qed.

(** One accepted write at the end of the file. *)
Lemma write_adv X buf n err s :
  good X s -> 0 <= n <= zlen buf -> outputBytes s + n <= MaxOutputBytes limits ->
  adv X [] (take (Z.to_nat n) buf) s
    (set_output (outputBytes s + n) (outputSize s) (log (EvWrite buf n err) s)).
Proof.
  intros [] Hn Hm. assert (((0 <=? n) && (n <=? zlen buf)) = true) as Hb by lia.
  split; [split|..]; simpl; rewrite ?app_nil_r, ?zlen_nil; try done; try lia.
  { unfold zlen in *. rewrite length_take. lia. }
  intros c [Hc Hc']. split; simpl.
  - rewrite Hc, Hb, overwrite_end. f_equal. rewrite zlen_app. unfold zlen in *. rewrite length_take. lia.
  - rewrite Hc', zlen_app. unfold zlen in *. rewrite length_take. lia.
Qed.

Definition write_inv X buf s (rest : list byte) (st : translator) : Prop :=
  exists d, buf = d ++ rest /\ adv X [] d s st /\
            outputBytes st + zlen rest <= MaxOutputBytes limits.

Lemma write_spec X buf page row : zlen buf <= maxI64 ->
  spec X (write env limits buf page row) (fun _ s s' => adv X [] buf s s').
Proof.
  intros Hbuf s HG. unfold write. wp_step. eapply spec_use; [apply check_spec|done|done|].
  intros ? s1 HA1. cbv beta in HA1. wp_step. wp_step. destruct Hlim as [_ [HL HM] _ _ _ _ _].
  destruct (gd_out _ _ (adv_good _ _ _ _ _ HA1)) as [Ho Hp]. pose proof (zlen_nonneg buf).
  wp_step; [apply resource_spec, HA1|].
  assert (outputBytes s1 + zlen buf <= MaxOutputBytes limits) as Hroom.
  { unfold maxI64 in *. apply andb_false_iff in Heqb as [Hb|Hb]; bool_to_prop; [lia|].
    rewrite (u64_small (outputBytes s1)) in Hb by (unfold maxU64; lia).
    rewrite !u64_small in Hb by (unfold maxU64; lia). lia. }
  clear Heqb. eapply (wp_while (write_inv X buf s) (fun rest _ => zlen rest)).
  - intros. apply zlen_nonneg.
  - intros rest st (d & Hd & HA & Hr). wp_step.
    2: { wp_step. bool_to_prop. destruct rest; [|rewrite zlen_cons in *; pose proof (zlen_nonneg rest); lia].
         by rewrite app_nil_r in Hd; subst. }
    wp_step. eapply spec_use; [apply check_spec|apply HA|done|]. intros ? s2 HA2. cbv beta in HA2.
    pose proof (adv_obytes _ _ _ _ _ HA2) as Hout. rewrite zlen_nil in Hout.
    pose proof (adv_good _ _ _ _ _ HA2) as HG2. pose proof (gd_out _ _ HG2).
    wp_step. apply dstWrite_spec. intros n err. cbv beta iota.
    wp_step; [apply dst_error_spec; by destruct HG2; split|]. bool_to_prop.
    pose proof (write_adv X rest n err s2 HG2 ltac:(lia) ltac:(lia)) as HA3.
    apply wp_bind, wp_modify. rewrite i64_small by (simpl; unfold minI64; lia). simpl outputBytes.
    apply wp_bind, wp_modify. apply wp_bind, wp_modify.
    match goal with |- context [lease_event _ _ ?s0] =>
      pose proof (lease_event_adv X (fun x => EvWritten x n) s0 ltac:(eauto) (adv_good _ _ _ _ _ HA3)) as HA4
    end.
    match type of HA4 with adv _ _ _ _ ?s0 =>
      pose proof (lease_event_adv X (fun x => EvSetSize x (outputBytes s0)) s0 ltac:(eauto) (adv_good _ _ _ _ _ HA4)) as HA5
    end.
    match type of HA5 with adv _ _ _ _ ?s0 => set (s5 := s0) in * end.
    assert (adv X [] (take (Z.to_nat n) rest) s2 s5) as HA6
      by (eapply adv_trans_r; [exact HA3|]; by eapply adv_trans_l).
    wp_step; [apply dst_error_spec, HA6|].
    wp_step; [apply dst_error_spec, HA6|]. wp_step. bool_to_prop.
    pose proof (adv_obytes _ _ _ _ _ HA6) as Hout6. unfold zlen in *. rewrite length_take in Hout6.
    split; [|cbv beta; rewrite length_drop; lia].
    exists (d ++ take (Z.to_nat n) rest). split; [by rewrite <- app_assoc, take_drop|].
    split; [|unfold zlen; rewrite length_drop; lia].
    rewrite <- (app_nil_r (@nil byte)). eapply adv_trans; [exact HA|]. by eapply adv_trans_l.
  - exists []. split; [done|]. split; [done|lia].
  - unfold zlen. lia.
Qed.

(** *** Rows *)

(** [m] copies some bytes [d] from the source to the destination. *)
Definition copies X (d : list byte) (s s' : translator) : Prop := adv X d d s s'.

Lemma copyBytes_spec X n page row : 0 <= n <= maxU64 ->
  spec X (copyBytes env limits n page row) (fun _ s s' => exists d, zlen d = n /\ copies X d s s').
Proof.
  intros Hn s HG. unfold copyBytes.
  eapply (wp_while (fun m st => 0 <= m <= n /\ exists d, zlen d = n - m /\ copies X d s st) (fun m _ => m)).
  - intros. lia.
  - intros m st (Hm & d & Hd & HA). wp_step.
    2: { wp_step. bool_to_prop. exists d. split; [lia|done]. }
    bool_to_prop. wp_step. eapply spec_use; [apply check_spec|apply HA|done|].
    intros ? s2 HA2. cbv beta in HA2. wp_step. wp_step.
    pose proof (adv_good _ _ _ _ _ HA2) as HG2. pose proof (gd_scratch _ _ HG2) as Hsc.
    assert (zlen (scratch s2) = 384) as Hz by (unfold zlen; by rewrite Hsc).
    set (chunk := if m <? zlen (scratch s2) then m else zlen (scratch s2)).
    assert (0 < chunk <= m /\ chunk <= 384) as [Hc Hc'] by (unfold chunk; rewrite Hz; destruct (Z.ltb_spec m 384); lia).
    wp_step. eapply spec_use; [apply readFull_spec|done|done|].
    intros b s3 [Hb HA3]. rewrite length_take, Hsc in Hb. unfold maxCopyScratch in *.
    assert (length b = Z.to_nat chunk) as Hb' by lia.
    apply wp_bind, wp_modify.
    assert (adv X b [] s2 (set_scratch (b ++ drop (Z.to_nat chunk) (scratch s2)) s3)) as HA4.
    { destruct HA3 as [[] ? ? ? ? (F1 & F2 & F3 & F4 & F5) ?]. split; try done; [split; try done|split; try done].
      - simpl. rewrite length_app, length_drop, Hsc, Hb'. unfold maxCopyScratch. lia.
      - simpl. split; [done|]. split; [done|]. split; [done|].
        rewrite length_app, length_drop, Hsc, Hb'. lia. }
    wp_step. eapply spec_use; [apply write_spec; unfold zlen, maxI64; lia|apply HA4|done|].
    intros ? s5 HA5. cbv beta in HA5. wp_step.
    rewrite u64_small by lia. split; [|lia]. split; [lia|].
    exists (d ++ b). split; [rewrite zlen_app, Hd; unfold zlen; lia|].
    eapply adv_trans; [exact HA|]. eapply adv_trans_l; [exact HA2|].
    rewrite <- (app_nil_r b) at 1. change b with ([] ++ b) at 2. by eapply adv_trans.
  - split; [lia|]. exists []. split; [rewrite zlen_nil; lia|]. by apply adv_refl.
  - lia.
Qed.

(** A byte read and written. *)
Lemma copies_read_write X b s s' s'' : adv X b [] s s' -> adv X [] b s' s'' -> copies X b s s''.
Proof.
  intros H H'. pose proof (adv_trans _ _ _ _ _ _ _ _ H H') as HA. by rewrite app_nil_r in HA.
Qed.

Lemma packets_0 bpp bs : packets bpp 0 bs -> bs = [].
Proof. inversion 1; subst; first [done|lia]. Qed.

Lemma length_1 {A} (b : list A) : length b = 1%nat -> exists x, b = [x].
Proof. destruct b as [|x [|]]; try done. by exists x. Qed.

Lemma copyPacket_spec X bpp rem page row :
  0 < bpp <= 4 -> 0 < rem <= maxU32 ->
  spec X (copyPacket env limits bpp rem page row) (fun r s s' => 0 <= r < rem /\
    exists d, copies X d s s' /\ forall rest, packets bpp r rest -> packets bpp rem (d ++ rest)).
Proof.
  intros Hb Hr s HG. unfold copyPacket, maxU32 in *.
  wp_step. eapply spec_use; [apply check_spec|done|done|]. intros ? s1 HA1. cbv beta in HA1.
  wp_step. eapply spec_use; [apply readFull_spec|apply HA1|done|]. intros b s2 [Hl HA2].
  destruct (length_1 b Hl) as [c ->].
  wp_step. eapply spec_use; [by apply write_spec|apply HA2|done|]. intros ? s3 HA3. cbv beta in HA3.
  assert (copies X [c] s s3) as HC by (eapply copies_read_write; [by eapply adv_trans_l|done]).
  pose proof (adv_good _ _ _ _ _ HA3) as HG3.
  unfold byte_at. cbn [nth]. pose proof (byteZ_range c) as Hc.
  assert (128 <= byteZ c <-> Z.land (byteZ c) 0x80 <> 0) as Hland by (clear; by destruct c).
  wp_step.
  { wp_step. bool_to_prop. split; [lia|]. exists [c]. split; [done|]. intros rest Hr0. apply packets_0 in Hr0 as ->.
    assert (c = x80) as -> by (rewrite <- (Zbyte_byteZ c); by replace (byteZ c) with 128 by lia). constructor. lia. }
  wp_step; bool_to_prop.
  - unfold u16. rewrite wrapu_small by lia. unfold checkedMul.
    assert (0 < (257 - byteZ c) * bpp <= 2000) by nia.
    assert ((maxU64 / (257 - byteZ c) <? bpp) = false) as ->.
    { apply Z.ltb_ge. apply Z.div_le_lower_bound; unfold maxU64; lia. }
    rewrite andb_false_r, (u64_small ((257 - byteZ c) * bpp)) by (unfold maxU64; lia).
    set (want := if rem <? _ then rem else _).
    assert (want = Z.min ((257 - byteZ c) * bpp) rem) as Hw by (unfold want; destruct (Z.ltb_spec rem ((257 - byteZ c) * bpp)); lia).
    assert (0 < want <= rem) as Hw' by nia.
    wp_step. eapply spec_use; [apply copyBytes_spec; unfold maxU64; lia|done|done|].
    intros ? s4 (d & Hd & HC4). wp_step. rewrite u64_small by (unfold maxU64; lia).
    split; [lia|]. exists ([c] ++ d). split; [by eapply adv_trans|]. intros rest Hrest.
    rewrite <- app_assoc. simpl. apply pk_literal; [lia|lia|lia|by rewrite Hd].
  - rewrite (u64_small (byteZ c + 1)) by (unfold maxU64; lia). unfold checkedMul.
    assert (0 < (byteZ c + 1) * bpp <= 2000) by nia.
    assert ((maxU64 / (byteZ c + 1) <? bpp) = false) as ->.
    { apply Z.ltb_ge. apply Z.div_le_lower_bound; unfold maxU64; lia. }
    rewrite andb_false_r, (u64_small ((byteZ c + 1) * bpp)) by (unfold maxU64; lia).
    set (want := if rem <? _ then rem else _).
    assert (want = Z.min ((byteZ c + 1) * bpp) rem) as Hw by (unfold want; destruct (Z.ltb_spec rem ((byteZ c + 1) * bpp)); lia).
    assert (bpp <= (byteZ c + 1) * bpp) as Hge by nia.
    wp_step; bool_to_prop.
    { wp_step. split; [lia|]. exists [c]. split; [done|]. intros rest Hr0. apply packets_0 in Hr0 as ->. apply pk_clipped; lia. }
    wp_step. eapply spec_use; [apply copyBytes_spec; unfold maxU64; lia|done|done|].
    intros ? s4 (d & Hd & HC4). wp_step. rewrite u64_small by (unfold maxU64; lia).
    split; [lia|]. exists ([c] ++ d). split; [by eapply adv_trans|]. intros rest Hrest.
    rewrite <- app_assoc. simpl. apply pk_repeat; [lia|lia|done|lia|by rewrite <- Hw].
Qed.

(** The part of a page description the copying of its rows relies on. *)
Definition desc_ok (p : pageDescription) : Prop :=
  0 < rowBytes p <= maxU32 /\ 0 < height p <= maxU32 /\
  (pwgBitsPerPixel p = 8 \/ pwgBitsPerPixel p = 24).

Lemma rows_step_bounds h done_ c :
  0 <= done_ < h -> h <= maxU32 -> 0 <= c < 256 ->
  (if u64 (h - done_) <? u64 (c + 1) then h else u64 (done_ + u64 (c + 1))) =
    done_ + Z.min (c + 1) (h - done_).
Proof.
  unfold maxU32. intros. rewrite !u64_small by (unfold maxU64; rewrite ?u64_small; unfold maxU64; lia).
  destruct (Z.ltb_spec (h - done_) (c + 1)); lia.
Qed.

Definition row_inv X (p : pageDescription) s (rem : Z) (st : translator) : Prop :=
  0 <= rem <= rowBytes p /\ exists d, copies X d s st /\
  forall rest, packets (pwgBitsPerPixel p / 8) rem rest ->
               packets (pwgBitsPerPixel p / 8) (rowBytes p) (d ++ rest).

Lemma copyRow_spec X p page row : desc_ok p ->
  spec X (while (S (Z.to_nat (rowBytes p))) (fun remaining =>
      if 0 <? remaining then
        remaining ← copyPacket env limits (pwgBitsPerPixel p / 8) remaining page row;
        mret (inl remaining)
      else mret (inr tt)) (rowBytes p))
    (fun _ s s' => exists pk, copies X pk s s' /\ packets (pwgBitsPerPixel p / 8) (rowBytes p) pk).
Proof.
  intros (Hr & Hh & Hb) s HG.
  assert (0 < pwgBitsPerPixel p / 8 <= 4) as Hbpp by (destruct Hb as [-> | ->]; done).
  eapply (wp_while (row_inv X p s) (fun rem _ => rem)).
  - intros x st []. lia.
  - intros rem st (Hrem & d & HC & Hpk). wp_step; bool_to_prop.
    + wp_step. eapply spec_use; [apply copyPacket_spec; lia|apply HC|done|].
      intros r s2 (Hr2 & d2 & HC2 & Hpk2). cbv beta. wp_step. split; [|lia]. split; [lia|].
      exists (d ++ d2). split; [by eapply adv_trans|]. intros rest Hrest. rewrite <- app_assoc. auto.
    + wp_step. assert (rem = 0) as -> by lia. exists d. split; [done|].
      rewrite <- (app_nil_r d). apply Hpk. constructor.
  - split; [lia|]. exists []. split; [by apply adv_refl|done].
  - lia.
Qed.

Definition rows_inv X (p : pageDescription) s (done_ : Z) (st : translator) : Prop :=
  0 <= done_ <= height p /\ exists d, copies X d s st /\
  forall rest, rows (rowBytes p) (pwgBitsPerPixel p / 8) (height p - done_) rest ->
               rows (rowBytes p) (pwgBitsPerPixel p / 8) (height p) (d ++ rest).

Lemma copyPageData_spec X p : desc_ok p ->
  spec X (copyPageData env limits p) (fun _ s s' => exists d, copies X d s s' /\
    rows (rowBytes p) (pwgBitsPerPixel p / 8) (height p) d).
Proof.
  intros Hp s HG. pose proof Hp as (Hr & Hh & Hb). unfold copyPageData, next_page. wp_step. wp_step.
  wp_step. { bool_to_prop. destruct Hb as [Hb | Hb]; rewrite Hb in *; done. } clear Heqb.
  eapply (wp_while (rows_inv X p s) (fun dn _ => height p - dn)).
  - intros x st []. lia.
  - intros dn st (Hdn & d & HC & Hrows). wp_step; bool_to_prop.
    2: { wp_step. assert (dn = height p) as -> by lia. exists d. split; [done|].
         rewrite <- (app_nil_r d). apply Hrows. rewrite Z.sub_diag. constructor. }
    wp_step. eapply spec_use; [apply check_spec|apply HC|done|]. intros ? s1 HA1. cbv beta in HA1.
    wp_step. eapply spec_use; [apply readFull_spec|apply HA1|done|]. intros b s2 [Hl HA2].
    destruct (length_1 b Hl) as [c ->].
    wp_step. eapply spec_use; [by apply write_spec|apply HA2|done|]. intros ? s3 HA3. cbv beta in HA3.
    assert (copies X [c] st s3) as HC3 by (eapply copies_read_write; [by eapply adv_trans_l|done]).
    wp_step. eapply spec_use; [by apply copyRow_spec|apply HC3|done|].
    intros ? s4 (pk & HC4 & Hpk). unfold byte_at. cbn [nth]. pose proof (byteZ_range c) as Hc.
    assert (copies X (d ++ [c] ++ pk) s s4) as HC5
      by (eapply adv_trans; [exact HC|]; by eapply adv_trans).
    assert (rows_inv X p s (dn + Z.min (byteZ c + 1) (height p - dn)) s4) as HI.
    { split; [lia|]. exists (d ++ [c] ++ pk). split; [done|].
      intros rest Hrest. rewrite <- !app_assoc. apply Hrows. simpl. apply rows_cons; [lia|done|].
      by replace (height p - dn - Z.min (byteZ c + 1) (height p - dn))
        with (height p - (dn + Z.min (byteZ c + 1) (height p - dn))) by lia. }
    pose proof (rows_step_bounds (height p) dn (byteZ c) ltac:(lia) ltac:(lia) Hc) as Hst.
    destruct (_ <? _); wp_step; rewrite <- Hst in HI; (split; [exact HI|lia]).
  - split; [lia|]. exists []. split; [by apply adv_refl|]. by rewrite Z.sub_0_r.
  - lia.
Qed.

(** *** Page headers *)

Lemma get32_range off h : 0 <= get32 off h <= maxU32.
Proof. unfold get32, maxU32. pose proof (Uint32_range (take 4 (drop off h))). lia. Qed.

Lemma byte_at_range raw i : 0 <= byte_at raw i < 256.
Proof. apply byteZ_range. Qed.

Lemma checkedMul_u32 a b : 0 <= a <= maxU32 -> 0 <= b <= maxU32 -> checkedMul a b = Some (a * b).
Proof.
  unfold checkedMul, maxU32. intros Ha Hb.
  assert (a * b <= maxU64) by (unfold maxU64; nia).
  rewrite u64_small by (unfold maxU64 in *; nia).
  destruct (Z.eqb_spec a 0) as [->|]; [done|]. simpl.
  destruct (Z.ltb_spec (maxU64 / a) b) as [Hlt|]; [|done].
  assert (b <= maxU64 / a); [|lia]. apply Z.div_le_lower_bound; lia.
Qed.

Lemma checkedAddWithin_spec sum add limit next :
  0 <= sum <= maxU64 -> 0 <= add <= maxU64 -> 0 < limit <= maxU64 ->
  checkedAddWithin sum add limit = Some next -> next = sum + add /\ next <= limit.
Proof.
  unfold checkedAddWithin. intros Hs Ha Hl. rewrite (u64_small (maxU64 - sum)) by lia.
  destruct (Z.ltb_spec (maxU64 - sum) add); [done|]. rewrite u64_small by lia.
  destruct (Z.ltb_spec 0 limit); [|lia]. destruct (Z.ltb_spec limit (sum + add)); [done|].
  simpl. intros [= <-]. lia.
Qed.

Lemma validateDuplex_wp X mode page s (Q : unit -> translator -> Prop) : good X s ->
  (((sides policy = "one-sided" -> mode < 2) /\
    (sides policy = "two-sided-long-edge" -> 2 < mode) /\
    (sides policy = "two-sided-short-edge" -> mode = 2))%string -> Q tt s) ->
  wp (validateDuplex policy mode page) Q (bad X) s.
Proof.
  intros HG HQ. unfold validateDuplex.
  repeat match goal with |- wp (if (?a =? ?b)%string then _ else _) _ _ _ => destruct (String.eqb_spec a b) end.
  all: repeat (wp_step; try by apply settingsMismatch_spec); apply HQ; bool_to_prop.
  all: repeat split; intros; try congruence; lia.
Qed.

Context (Hmap : mapping = 1 \/ mapping = 2 \/ mapping = 3).
Context (Hmedia : mediaWidth policy <> 0 /\ mediaHeight policy <> 0).

Lemma orientation_wp X p page s (Q : bool -> translator -> Prop) : good X s ->
  (forall W H land, mediaPixels (mediaWidth policy) (mediaHeight policy) (resolution p) = Some (W, H) ->
     (if land : bool then (width p, height p) = (H, W) /\ (width p, height p) <> (W, H)
      else (width p, height p) = (W, H)) -> Q land s) ->
  wp (orientation policy p page) Q (bad X) s.
Proof.
  intros HG HQ. unfold orientation. destruct Hmedia as [H1 H2].
  apply Z.eqb_neq in H1, H2. rewrite H1, H2. simpl.
  destruct (mediaPixels _ _ _) as [[W H]|] eqn:E; [|by apply resource_spec].
  destruct (_ && _) eqn:E1; [|destruct ((width p =? H) && _) eqn:E2; [|by apply settingsMismatch_spec]].
  - wp_step. bool_to_prop. apply (HQ W H); [done|]. congruence.
  - wp_step. bool_to_prop. apply (HQ W H); [done|]. split; [congruence|].
    intros [= Hw Hh]. apply andb_false_iff in E1 as [E1|E1]; bool_to_prop; congruence.
Qed.

Lemma parsePage_spec X raw s : good X s -> length raw = urfPageHeaderSize ->
  wp (parsePage limits mapping policy raw)
    (fun p s' => header_ok limits mapping policy raw p /\ desc_ok p /\
       pageLogical s + rowBytes p * height p <= MaxDecodedBytes limits /\
       s' = set_pageLogical (pageLogical s + rowBytes p * height p) s) (bad X) s.
Proof.
  intros HG Hraw. unfold parsePage. destruct (sourceMapping mapping) as [[sp bits] outsp] eqn:Hsm.
  assert (bits = 8 \/ bits = 24) as Hbits
    by (destruct Hmap as [-> |[-> | ->]]; injection Hsm as <- <- <-; auto).
  destruct Hlim as [_ _ _ HW HH HR HD]. pose proof (gd_logical _ _ HG) as HL.
  unfold next_page. wp_step. wp_step. set (page := u32 _).
  wp_step; [by apply unsupported_spec|]. wp_step; [by apply malformed_spec|].
  wp_step; [by apply malformed_spec|]. wp_step; [by apply settingsMismatch_spec|].
  wp_step; [by apply resource_spec|]. wp_step; [by apply resource_spec|].
  cbn [rawPage width height colorSpace bitsPerPixel resolution] in *. bool_to_prop.
  pose proof (get32_range 12 raw) as Rw. pose proof (get32_range 16 raw) as Rh.
  assert (0 < bits / 8 <= 3) as Hbpp by (destruct Hbits as [-> | ->]; done).
  rewrite checkedMul_u32 by (unfold maxU32 in *; lia).
  wp_step; [by apply resource_spec|]. wp_step; [by apply resource_spec|].
  wp_step; [by apply resource_spec|]. bool_to_prop.
  rewrite checkedMul_u32 by lia. set (rb := get32 12 raw * (bits / 8)) in *.
  wp_step. wp_step.
  destruct (checkedAddWithin _ _ _) as [next|] eqn:E; [|by apply resource_spec].
  apply checkedAddWithin_spec in E as [-> Hnext]; [|lia|unfold maxU32, maxU64 in *; nia|lia].
  apply wp_bind, wp_modify. set (s1 := set_pageLogical _ s).
  assert (good X s1) as HG1 by (destruct HG; split; simpl; try done; nia).
  wp_step. apply orientation_wp; [done|]. intros Wd Ht land Hpx Hland.
  wp_step. apply validateDuplex_wp; [done|]. intros Hdup. wp_step.
  cbn [rawPage width height resolution duplexMode] in *.
  assert (get32 12 raw * (byte_at raw 0 / 8) = rb) as Hrb by (unfold rb; congruence).
  assert (rowBytes (describe mapping (rawPage raw) rb land) = rb /\
          height (describe mapping (rawPage raw) rb land) = get32 16 raw /\
          pwgBitsPerPixel (describe mapping (rawPage raw) rb land) = bits /\
          landscape (describe mapping (rawPage raw) rb land) = land) as (D1 & D2 & D3 & D4)
    by (unfold describe; rewrite Hsm; done).
  rewrite D1, D2. split; [|split; [|done]].
  - split; rewrite ?D4, ?Hrb; try done.
    + rewrite Hsm. simpl. congruence.
    + lia.
    + apply andb_false_iff in Heqb3 as [?|?]; bool_to_prop; lia.
    + apply andb_false_iff in Heqb4 as [?|?]; bool_to_prop; lia.
    + apply andb_false_iff in Heqb0 as [?|?]; bool_to_prop; lia.
    + intros W' H' HWH. by simplify_eq.
  - unfold desc_ok. rewrite D1, D2, D3. lia.
Qed.

(** *** Leases *)

Lemma live_release l h ls k : live h = Some ls -> ls ≡ₚ l :: k ->
  exists ls', live (EvRelease l :: h) = Some ls' /\ ls' ≡ₚ k.
Proof. intros Hl Hp. simpl. rewrite Hl. simpl. by apply remove_lease_perm. Qed.

(** A change of the leases and of the history alone. *)
Lemma good_live X X' s s' : good X s ->
  src_count s' = src_count s -> outputBytes s' = outputBytes s -> pages s' = pages s ->
  pageLogical s' = pageLogical s -> scratch s' = scratch s ->
  (exists ls, live (hist s') = Some ls /\ ls ≡ₚ slots s' ++ X') -> good X' s'.
Proof. intros [] E1 E2 E3 E4 E5 HL. split; rewrite ?E1, ?E2, ?E3, ?E4, ?E5; done. Qed.

Lemma good_release X l s : good (l :: X) s -> good X (log (EvRelease l) s).
Proof.
  intros HG. eapply good_live; [exact HG|done..|]. destruct (gd_live _ _ HG) as (ls & Hls & Hp).
  apply (live_release l _ _ (slots s ++ X) Hls). by rewrite Hp, Permutation_middle.
Qed.

(** The three leases a translator holds, released together or one at a time. *)
Lemma good_release_slot X s off scr out :
  good X s -> slots s ≡ₚ option_list off ++ slots (set_leases None scr out s) ->
  good X (set_leases None scr out (release_lease off s)).
Proof.
  intros HG Hs. destruct (gd_live _ _ HG) as (ls & Hls & Hp). rewrite Hs in Hp.
  destruct off as [l|]; simpl.
  - eapply good_live; [exact HG|done..|]. eapply live_release; [exact Hls|exact Hp].
  - eapply good_live; [exact HG|done..|]. exists ls. split; [exact Hls|exact Hp].
Qed.

Lemma release_lease_fields l s :
  offsetLease (release_lease l s) = offsetLease s /\ scratchLease (release_lease l s) = scratchLease s /\
  outputLease (release_lease l s) = outputLease s.
Proof. by destruct l. Qed.

Lemma releaseResources_good X s : good X s -> slots (releaseResources s) = [] /\ good X (releaseResources s).
Proof.
  intros HG. split; [done|]. unfold releaseResources. cbv zeta.
  destruct (release_lease_fields (offsetLease s) s) as (_ & -> & ->).
  set (s1 := set_leases None _ _ (release_lease (offsetLease s) s)).
  assert (good X s1) as HG1 by (by apply good_release_slot).
  destruct (release_lease_fields (outputLease s1) s1) as (_ & -> & _).
  set (s2 := set_leases None _ None (release_lease (outputLease s1) s1)).
  assert (good X s2) as HG2 by (by apply good_release_slot).
  apply good_release_slot; [done|]. unfold s2, slots. simpl. by rewrite app_nil_r.
Qed.

Lemma acquire_spec X c n s (Q : option nat -> translator -> Prop) R :
  observer env <> None -> good X s ->
  (forall l, good (option_list l ++ X) (log (EvAcquire c n l) s) -> Q l (log (EvAcquire c n l) s)) ->
  wp (acquire env c n) Q R s.
Proof.
  intros Ho HG HQ. unfold acquire. destruct (observer env) as [f|]; [|done].
  apply wp_liftS. intros l s' [= <- <-]. apply HQ. destruct (gd_live _ _ HG) as (ls & Hls & Hp).
  destruct (f _ _ _); simpl; (eapply good_live; [exact HG|done..|]); simpl; rewrite Hls.
  - eexists; split; [done|]. by rewrite Hp, Permutation_middle.
  - by exists ls.
Qed.

(** [s'] differs from [s] by its leases and by lease events. *)
Definition lease_step (s s' : translator) : Prop :=
  consumed (hist s') = consumed (hist s) /\ file (hist s') = file (hist s) /\
  src_count s' = src_count s /\ outputBytes s' = outputBytes s /\
  pages s' = pages s /\ pageLogical s' = pageLogical s.

Lemma release_lease_step l s : lease_step s (release_lease l s).
Proof. by destruct l. Qed.

Lemma appendCount_spec X off :
  spec X (appendCount env off) (fun _ s s' =>
    good X s' /\ lease_step s s' /\ pageCounts s' = pageCounts s ++ [off]).
Proof.
  intros s HG. unfold appendCount. wp_step. wp_step. apply wp_bind, wp_modify. wp_step. wp_step.
  set (s1 := set_pageCounts _ _ s).
  assert (good X s1) as HG1 by (destruct HG; by split).
  wp_step; [|by wp_step]. apply wp_bind, wp_modify.
  destruct (release_lease_fields (offsetLease s1) s1) as (_ & R1 & R2).
  set (s2 := set_leases None _ _ _).
  assert (good X s2) as HG2 by (apply good_release_slot; done).
  assert (lease_step s s2) as HL2 by (unfold s2; by destruct (offsetLease s1)).
  assert (pageCounts s2 = pageCounts s ++ [off]) as HP2 by (unfold s2; by destruct (offsetLease s1)).
  destruct (observer env) eqn:Ho; [|by wp_step].
  wp_step. eapply acquire_spec; [by rewrite Ho|exact HG2|]. intros l HG3. apply wp_modify.
  split; [|done]. eapply good_live; [exact HG3|done..|].
  destruct (gd_live _ _ HG3) as (ls & Hls & Hp). exists ls. split; [exact Hls|].
  rewrite Hp. unfold slots. simpl.
  destruct l; simpl; [|done]. by rewrite Permutation_middle.
Qed.

Record emitted X (h : list byte) (s s' : translator) : Prop := {
  em_good : good X s';
  em_in : consumed (hist s') = consumed (hist s);
  em_count : src_count s' = src_count s;
  em_out : forall c, tracked_out s c -> tracked_out s' (c ++ h);
  em_counts : pageCounts s' = pageCounts s ++ [outputBytes s + 452];
  em_pages : pages s' = pages s;
  em_logical : pageLogical s' = pageLogical s
}.

Lemma release_lease_good X l s : good (option_list l ++ X) s -> good X (release_lease l s).
Proof. destruct l; [apply good_release|done]. Qed.

(** The body of [emitPageHeader], under its deferred release. *)
Lemma emitBody_spec X p :
  spec X (pg ← gets pages; page ← next_page; out ← gets outputBytes;
    let h := pageHeader policy p pg in
    let countOffset := i64 (out + 452) in
    counts ← gets pageCounts;
    if (0 <? MaxPages limits) && (MaxPages limits <? u32 (zlen counts + 1)) then
      resource "maximum page count exceeded" page 0
    else write env limits h page 0;; appendCount env countOffset)
  (fun _ s s' => emitted X (pageHeader policy p (pages s)) s s').
Proof.
  intros s HG. unfold next_page. do 5 wp_step. wp_step. cbv zeta. wp_step. wp_step.
  wp_step; [by apply resource_spec|].
  pose proof (pageHeader_sized policy p (pages s)) as Hh. unfold header_sized, pwgPageHeaderSize in Hh.
  wp_step. eapply spec_use; [apply write_spec; unfold zlen, maxI64; rewrite Hh; lia|done|done|].
  intros ? s1 HA. cbv beta in HA. pose proof (adv_obytes _ _ _ _ _ HA) as Hob.
  pose proof (gd_out _ _ (adv_good _ _ _ _ _ HA)) as Hmax. pose proof (gd_out _ _ HG) as H0.
  unfold zlen in Hob. rewrite Hh in Hob. destruct Hlim as [_ [_ HM] _ _ _ _ _].
  rewrite i64_small by (unfold minI64; lia).
  eapply spec_use; [apply appendCount_spec|apply HA|done|].
  intros ? s2 (HG2 & (E1 & E2 & E3 & E4 & E5 & E6) & EC). destruct HA as [HG1 I1 C1 B1 O1 (F1 & F2 & F3 & F4 & F5) _].
  split; try congruence.
  - rewrite E1, I1. by rewrite app_nil_r.
  - rewrite E3, C1, zlen_nil. lia.
  - intros c Hc. destruct (O1 c Hc) as [T1 T2]. split; congruence.
Qed.

Lemma emitPageHeader_spec X p :
  spec X (emitPageHeader env limits policy p) (fun _ s s' => emitted X (pageHeader policy p (pages s)) s s').
Proof.
  intros s HG. unfold emitPageHeader. wp_step.
  assert (forall l s1, lease_step s s1 -> pageCounts s1 = pageCounts s -> good (option_list l ++ X) s1 ->
    wp (deferred (release_lease l) (pg ← gets pages; page ← next_page; out ← gets outputBytes;
    let h := pageHeader policy p pg in
    let countOffset := i64 (out + 452) in
    counts ← gets pageCounts;
    if (0 <? MaxPages limits) && (MaxPages limits <? u32 (zlen counts + 1)) then
      resource "maximum page count exceeded" page 0
    else write env limits h page 0;; appendCount env countOffset))
    (fun _ s' => emitted X (pageHeader policy p (pages s)) s s') (bad X) s1) as Hbody.
  { intros l s1 (E1 & E2 & E3 & E4 & E5 & E6) EC HG1. apply wp_deferred.
    eapply spec_use; [apply emitBody_spec|exact HG1| |].
    - intros e s2 [HG2 He]. split; [by apply release_lease_good|done].
    - intros ? s2 [G I C O N P L]. destruct (release_lease_step l s2) as (R1 & R2 & R3 & R4 & R5 & R6).
      split; try congruence; [by apply release_lease_good| |by destruct l; simpl; congruence].
      intros c [T1 T2]. rewrite <- E5. destruct (O c) as [O1 O2]; [split; congruence|]. split; congruence. }
  destruct (observer env) eqn:Ho.
  - eapply acquire_spec; [by rewrite Ho|exact HG|]. intros l HG1. by apply Hbody; destruct l.
  - wp_step. by apply (Hbody None).
Qed.

(** *** Pages *)

(** The pages in the destination before their counts are patched, and the
    offsets of the counts. *)
Fixpoint raw_pages (i : Z) (ps : list page) : list byte :=
  match ps with
  | [] => []
  | p :: r => (pageHeader policy (pg_desc p) i ++ pg_body p) ++ raw_pages (i + 1) r
  end.
Fixpoint count_offsets (off : Z) (ps : list page) : list Z :=
  match ps with
  | [] => []
  | p :: r => (off + 452) :: count_offsets (off + 1796 + zlen (pg_body p)) r
  end.

Lemma zlen_pageHeader p i : zlen (pageHeader policy p i) = 1796.
Proof. unfold zlen. by rewrite pageHeader_sized. Qed.

Lemma raw_pages_snoc i ps p :
  raw_pages i (ps ++ [p]) = raw_pages i ps ++ pageHeader policy (pg_desc p) (i + zlen ps) ++ pg_body p.
Proof.
  revert i. induction ps as [|q r IH]; intros i; simpl.
  { by rewrite app_nil_r, zlen_nil, Z.add_0_r. }
  rewrite IH, zlen_cons, <- !app_assoc. by replace (i + 1 + zlen r) with (i + (1 + zlen r)) by lia.
Qed.

Lemma count_offsets_snoc off ps p i :
  count_offsets off (ps ++ [p]) = count_offsets off ps ++ [off + zlen (raw_pages i ps) + 452].
Proof.
  revert off i. induction ps as [|q r IH]; intros off i; simpl.
  { rewrite zlen_nil. do 2 f_equal. lia. }
  rewrite (IH _ (i + 1)). f_equal. rewrite !zlen_app, zlen_pageHeader. do 3 f_equal. lia.
Qed.

Lemma logical_snoc ps p : logical (ps ++ [p]) = logical ps + page_logical p.
Proof. unfold logical. rewrite map_app, foldr_app. simpl. induction ps; simpl; lia. Qed.

(** The translator after the file header [hd] and the pages [ps]. *)
Record doc X (hd : list byte) (ps : list page) (st : translator) : Prop := {
  dc_good : good X st;
  dc_in : consumed (hist st) = hd ++ concat (map source_page ps);
  dc_count : src_count st = zlen (hd ++ concat (map source_page ps));
  dc_out : tracked_out st (zeros 4 ++ raw_pages 0 ps);
  dc_pages : pages st = zlen ps;
  dc_counts : pageCounts st = count_offsets 4 ps;
  dc_logical : pageLogical st = logical ps;
  dc_ok : Forall (page_ok limits mapping policy) ps
}.

(** The same, with the rest of the source after the last complete page. *)
Record doc_end X (hd : list byte) (ps : list page) (suffix : list byte) (st : translator) : Prop := {
  de_good : good X st;
  de_in : source_document hd ps suffix `prefix_of` consumed (hist st);
  de_count : src_count st = zlen (source_document hd ps suffix);
  de_suffix : zlen suffix < Z.of_nat urfPageHeaderSize;
  de_out : tracked_out st (zeros 4 ++ raw_pages 0 ps);
  de_pages : pages st = zlen ps;
  de_counts : pageCounts st = count_offsets 4 ps;
  de_logical : pageLogical st = logical ps;
  de_ok : Forall (page_ok limits mapping policy) ps
}.

Lemma doc_advw X hd ps s s' suffix : doc X hd ps s -> advw X suffix s s' ->
  zlen suffix < Z.of_nat urfPageHeaderSize -> doc_end X hd ps suffix s'.
Proof.
  intros [G I C O P N L K] [G' I' C' B' O' (F1 & F2 & F3 & F4 & F5) _] Hs.
  split; unfold source_document; try congruence; try done.
  - rewrite app_assoc, <- I. exact I'.
  - rewrite C', C, app_assoc, (zlen_app _ suffix). done.
  - auto.
Qed.

(** One turn of [translatePages], with a complete page header. *)
Lemma one_page_spec X hd ps raw s s1 :
  doc X hd ps s -> adv X raw [] s s1 -> length raw = urfPageHeaderSize ->
  pages s1 < MaxPages limits ->
  wp (p ← parsePage limits mapping policy raw;
      emitPageHeader env limits policy p;;
      copyPageData env limits p;;
      modify (fun s => set_pages (u32 (pages s + 1)) s);;
      mret (inl tt))
     (fun r s' => match r : unit + unit with
                  | inl _ => exists p, doc X hd (ps ++ [p]) s'
                  | inr _ => False
                  end) (bad X) s1.
Proof.
  intros [G I C O P N L K] HA Hraw Hpg.
  pose proof HA as [G1 I1 C1 B1 O1 (F1 & F2 & F3 & F4 & F5) _].
  wp_step. eapply wp_mono; [by apply parsePage_spec| |done].
  intros p s2 (Hh & Hd & Hmax & ->). set (s2 := set_pageLogical _ s1).
  assert (good X s2) as HG2 by (destruct Hd as (? & ? & ?); destruct G1; split; simpl; try done; nia).
  wp_step. eapply spec_use; [apply emitPageHeader_spec|done|done|]. intros ? s3 [G3 I3 C3 O3 N3 P3 L3].
  wp_step. eapply spec_use; [by apply copyPageData_spec|done|done|].
  intros ? s4 (body & HC & Hrows). destruct HC as [G4 I4 C4 B4 O4 (H1 & H2 & H3 & H4 & H5) _].
  destruct Hlim as [_ _ [_ HM] _ _ _ _]. pose proof (gd_pages _ _ G1).
  assert (pages s4 = zlen ps) as Hpages by (rewrite H1, P3; simpl; congruence).
  apply wp_bind, wp_modify. wp_step. exists {| pg_raw := raw; pg_desc := p; pg_body := body |}.
  assert (concat (map source_page (ps ++ [{| pg_raw := raw; pg_desc := p; pg_body := body |}])) =
          concat (map source_page ps) ++ raw ++ body) as Hsrcp
    by (rewrite map_app, concat_app; simpl; by rewrite app_nil_r).
  rewrite u32_small by (rewrite Hpages; lia).
  simpl in O3, P3, N3, L3, I3, C3.
  split; simpl.
  - destruct G4. split; simpl; try done. rewrite Hpages. lia.
  - rewrite Hsrcp, I4, I3, I1, I. by rewrite <- !app_assoc.
  - rewrite Hsrcp, C4, C3, C1, C. rewrite !zlen_app. lia.
  - rewrite raw_pages_snoc, Z.add_0_l. simpl.
    replace (zlen ps) with (pages s1) by congruence.
    pose proof (O4 _ (O3 _ (O1 _ O))) as HT. rewrite <- !app_assoc in HT. exact HT.
  - rewrite Hpages, zlen_app, zlen_cons, zlen_nil. lia.
  - rewrite H2, N3, F2, N. rewrite (count_offsets_snoc 4 ps _ 0). f_equal. f_equal.
    rewrite B1. destruct O as [_ Oz]. rewrite Oz, zlen_app. change (zlen (zeros 4)) with 4. change (zlen (@nil byte)) with 0. lia.
  - rewrite H4, L3, F4, L. by rewrite logical_snoc.
  - apply Forall_app. split; [done|]. constructor; [|done]. by split.
Qed.

Lemma translatePages_spec X hd s : doc X hd [] s ->
  wp (translatePages env limits mapping policy)
    (fun _ s' => exists ps suffix, doc_end X hd ps suffix s') (bad X) s.
Proof.
  intros HD. unfold translatePages.
  eapply (wp_while (fun _ st => exists ps, doc X hd ps st) (fun _ st => MaxPages limits - pages st)).
  - intros _ st [ps HD']. pose proof (gd_pages _ _ (dc_good _ _ _ _ HD')). lia.
  - intros _ st [ps HD']. unfold next_page. wp_step. wp_step. wp_step.
    eapply spec_use; [apply check_spec|apply HD'|done|]. intros ? s1 HA1. cbv beta in HA1.
    wp_step. eapply spec_use; [apply readHeader_spec, zeros_length|apply HA1|done|].
    intros [n raw] s2 (Hl & Hn & HW & HF).
    assert (n < Z.of_nat urfPageHeaderSize -> exists ps suffix, doc_end X hd ps suffix s2) as Hend.
    { intros Hlt. exists ps, (take (Z.to_nat n) raw). eapply doc_advw; [exact HD'| |].
      - rewrite <- (app_nil_l (take _ _)). by eapply advw_trans.
      - unfold zlen. rewrite length_take, Hl. lia. }
    wp_step; [bool_to_prop; wp_step; apply Hend; unfold urfPageHeaderSize; lia|].
    wp_step; [bool_to_prop; wp_step; by apply Hend|].
    wp_step. wp_step. wp_step; [apply resource_spec, HW|].
    assert (adv X raw [] st s2) as HA2.
    { bool_to_prop. rewrite <- (app_nil_l raw). rewrite <- (app_nil_l []). eapply adv_trans; [exact HA1|].
      apply HF. lia. }
    destruct Hlim as [_ _ [HL _] _ _ _ _].
    assert (pages s2 < MaxPages limits) as Hpg.
    { apply andb_false_iff in Heqb1 as [?|?]; bool_to_prop; lia. }
    eapply wp_mono; [by eapply one_page_spec| |done]. intros [x|x] s3; [|done]. intros [p HD3].
    split; [by eexists|]. rewrite (dc_pages _ _ _ _ HD3), (dc_pages _ _ _ _ HD'), zlen_app, zlen_cons, zlen_nil. lia.
  - by exists [].
  - rewrite (dc_pages _ _ _ _ HD), zlen_nil. destruct Hlim as [_ _ [HL _] _ _ _ _]. lia.
Qed.

(** *** The end of the document *)

(** From [s] only the destination's content has changed, to [content]. *)
Record patched X (content : list byte) (s st : translator) : Prop := {
  pt_good : good X st;
  pt_file : fst (file (hist st)) = content;
  pt_in : consumed (hist st) = consumed (hist s);
  pt_count : src_count st = src_count s;
  pt_bytes : outputBytes st = outputBytes s;
  pt_pages : pages st = pages s;
  pt_counts : pageCounts st = pageCounts s;
  pt_logical : pageLogical st = pageLogical s
}.

(** A change of the history alone. *)
Lemma patched_log X c c' ev s st : patched X c s st ->
  live (ev :: hist st) = live (hist st) -> consumed (ev :: hist st) = consumed (hist st) ->
  fst (file (ev :: hist st)) = c' -> patched X c' s (log ev st).
Proof.
  intros [[] ? ? ? ? ? ? ?] Hl Hc Hf. split; simpl hist; try done; [|congruence].
  split; try done. simpl hist. by rewrite Hl.
Qed.

(** The end and the position of the file may change as well. *)
Lemma patched_adv X c s st st' : patched X c s st -> adv X [] [] st st' ->
  file (hist st') = file (hist st) -> patched X c s st'.
Proof.
  intros [] [G I C B O (F1 & F2 & F3 & F4 & F5) _] Hf. rewrite app_nil_r in I. rewrite zlen_nil in *.
  split; congruence || lia || done.
Qed.

Lemma check_patched X c op page row s st : patched X c s st ->
  wp (check env op page row)
    (fun _ st' => patched X c s st' /\ file (hist st') = file (hist st)) (bad X) st.
Proof.
  intros HP. unfold check, checkContext, ctxErr. wp_step. wp_step. wp_step.
  apply wp_liftS. intros e st' [= <- <-].
  assert (patched X c s (log (EvCtx (ctx_Err env (hist st))) st)) as HP'
    by (eapply patched_log; [exact HP|done..|exact (pt_file _ _ _ _ HP)]).
  wp_step; repeat wp_step; [|done]. split; [apply HP'|].
  unfold urf_error, KindCanceled. repeat eexists; lia.
Qed.

Lemma dstSeek_patched X c off whence (Q : Z * option goerr -> translator -> Prop) s st :
  patched X c s st ->
  (forall pos err st', patched X c s st' -> (err = None -> file (hist st') = (c, pos)) -> Q (pos, err) st') ->
  wp (dstSeek env off whence) Q (bad X) st.
Proof.
  intros HP HQ. unfold dstSeek. destruct Hdst as [d ->]. apply wp_liftS. intros [pos err] st'.
  destruct (dst_Seek d (hist st) off whence) as [pos' err']. intros [= <- <- <-].
  pose proof (pt_file _ _ _ _ HP) as Hf. apply HQ.
  - destruct err'; (eapply patched_log; [exact HP|done..|done]).
  - intros ->. simpl. by rewrite Hf.
Qed.

Lemma splice_splice {A} off (a b l : list A) :
  (off + length a + length b <= length l)%nat ->
  splice (off + length a) b (splice off a l) = splice off (a ++ b) l.
Proof.
  intros H. set (p := take off l ++ a).
  assert (length p = off + length a)%nat as Hp by (unfold p; rewrite length_app, length_take; lia).
  assert (splice off a l = p ++ drop (off + length a) l) as -> by (unfold splice, p; by rewrite app_assoc).
  replace (off + length a)%nat with (length p + 0)%nat at 1 by lia. rewrite splice_app_r.
  unfold splice, p. rewrite <- !app_assoc, length_app. simpl. rewrite drop_drop.
  do 4 f_equal. lia.
Qed.

(** The loop invariant of [seekWrite]: the part [d] of [buf] is written. *)
Definition patch_inv X off buf content s (rest : list byte) (st : translator) : Prop :=
  exists d, buf = d ++ rest /\
    let c := splice (Z.to_nat off) d content in
    patched X c s st /\ file (hist st) = (c, off + zlen d).

Lemma lease_event_patched X c z s st : patched X c s st ->
  let st' := lease_event (outputLease st) (fun l => EvWritten l z) st in
  patched X c s st' /\ file (hist st') = file (hist st).
Proof.
  intros HP. cbv zeta.
  pose proof (lease_event_adv X (fun l => EvWritten l z) st ltac:(eauto) (pt_good _ _ _ _ HP)) as HA.
  assert (file (hist (lease_event (outputLease st) (fun l => EvWritten l z) st)) = file (hist st)) as Hf
    by (by destruct (outputLease st)).
  split; [|done]. by eapply patched_adv.
Qed.

Lemma write_step X off buf content s d rest st n :
  0 <= off -> off + zlen buf <= zlen content -> buf = d ++ rest -> 0 <= n <= zlen rest ->
  patched X (splice (Z.to_nat off) d content) s st ->
  file (hist st) = (splice (Z.to_nat off) d content, off + zlen d) ->
  let st' := log (EvWrite rest n None) st in
  let d' := d ++ take (Z.to_nat n) rest in
  patched X (splice (Z.to_nat off) d' content) s st' /\
  file (hist st') = (splice (Z.to_nat off) d' content, off + zlen d').
Proof.
  intros Hoff Hfit -> Hn HP Hf. cbv zeta. rewrite zlen_app in Hfit.
  assert (file (hist (log (EvWrite rest n None) st)) =
    (splice (Z.to_nat off) (d ++ take (Z.to_nat n) rest) content, off + zlen (d ++ take (Z.to_nat n) rest))) as Hf'.
  { simpl. rewrite Hf. assert ((0 <=? n) && (n <=? zlen rest) = true) as -> by lia.
    unfold zlen in *. rewrite overwrite_inside; unfold zlen.
    - replace (Z.to_nat (off + Z.of_nat (length d))) with (Z.to_nat off + length d)%nat by lia.
      rewrite splice_splice by (rewrite length_take; lia).
      f_equal. rewrite length_app, length_take. lia.
    - lia.
    - rewrite splice_length, length_take by lia. lia. }
  split; [|exact Hf']. eapply patched_log; [exact HP|done..|]. simpl in Hf'. simpl. by rewrite Hf'.
Qed.

Lemma seekWrite_spec X off buf op content s st :
  0 <= off -> off + zlen buf <= zlen content -> patched X content s st ->
  wp (seekWrite env off buf op)
    (fun _ st' => patched X (splice (Z.to_nat off) buf content) s st') (bad X) st.
Proof.
  intros Hoff Hfit HP. unfold seekWrite. wp_step. wp_step. wp_step.
  eapply wp_mono; [by apply check_patched| |done]. intros ? s1 [HP1 _].
  wp_step; [bool_to_prop; lia|]. wp_step. eapply dstSeek_patched; [exact HP1|].
  intros pos err s2 HP2 Hf2. wp_step; [apply dst_error_spec, HP2|].
  specialize (Hf2 eq_refl). wp_step; [apply dst_error_spec, HP2|]. bool_to_prop. subst pos.
  eapply (wp_while (patch_inv X off buf content s) (fun rest _ => zlen rest)).
  - intros. apply zlen_nonneg.
  - intros rest s3 (d & Hd & HP3 & Hf3). wp_step; bool_to_prop.
    2: { wp_step. destruct rest; [|rewrite zlen_cons in *; pose proof (zlen_nonneg rest); lia].
         rewrite app_nil_r in Hd. by subst. }
    wp_step. eapply wp_mono; [by apply check_patched| |done]. intros ? s4 [HP4 Hf4]. rewrite Hf3 in Hf4.
    wp_step. apply dstWrite_spec. intros n werr. cbv beta iota.
    wp_step; [apply dst_error_spec; by destruct (pt_good _ _ _ _ HP4); split|].
    wp_step; [apply dst_error_spec; by destruct (pt_good _ _ _ _ HP4); split|]. bool_to_prop.
    destruct (write_step X off buf content s d rest s4 n Hoff Hfit Hd ltac:(lia) HP4 Hf4) as [HP5 Hf5].
    apply wp_bind, wp_modify. destruct (lease_event_patched X _ n s _ HP5) as [HP6 Hf6].
    wp_step; [apply dst_error_spec, HP6|]. bool_to_prop. wp_step.
    split; [|unfold zlen in *; rewrite length_drop; lia].
    exists (d ++ take (Z.to_nat n) rest). split; [by rewrite <- app_assoc, take_drop|].
    split; [exact HP6|]. by rewrite Hf6.
  - exists []. split; [done|]. assert (splice (Z.to_nat off) [] content = content) as Hs.
    { unfold splice. simpl. by rewrite Nat.add_0_r, take_drop. }
    rewrite Hs. split; [done|]. by rewrite Hf2, zlen_nil, Z.add_0_r.
  - unfold zlen. lia.
Qed.

(** Patching the count of the page at the front of [raw_pages]. *)
Lemma patch_page n i p pre rest :
  splice (Z.to_nat (zlen pre + 452)) (be32 n)
    (pre ++ (pageHeader policy (pg_desc p) i ++ pg_body p) ++ rest) =
  (pre ++ output_page policy n i p) ++ rest.
Proof.
  replace (Z.to_nat (zlen pre + 452)) with (length pre + 452)%nat by (unfold zlen; lia).
  rewrite splice_app_r, <- !app_assoc. f_equal. unfold output_page. rewrite <- app_assoc.
  apply splice_app_l. rewrite be32_length, pageHeader_sized. unfold pwgPageHeaderSize. lia.
Qed.

Lemma zlen_output_page n i p : zlen (output_page policy n i p) = 1796 + zlen (pg_body p).
Proof.
  unfold output_page. rewrite zlen_app. f_equal. unfold zlen.
  rewrite splice_length; [by rewrite pageHeader_sized|].
  rewrite be32_length, pageHeader_sized. unfold pwgPageHeaderSize. lia.
Qed.

Lemma zlen_output_pages n i ps : zlen (output_pages policy n i ps) = zlen (raw_pages i ps).
Proof.
  revert i. induction ps as [|p r IH]; intros i; [done|]. simpl.
  by rewrite !zlen_app, zlen_output_page, zlen_pageHeader, IH.
Qed.

Lemma patch_counts_spec X n ps : forall i pre s st,
  patched X (pre ++ raw_pages i ps) s st ->
  wp (forM (count_offsets (zlen pre) ps) (fun off => seekWrite env off (be32 n) "patch page count"))
    (fun _ st' => patched X (pre ++ output_pages policy n i ps) s st') (bad X) st.
Proof.
  induction ps as [|p r IH]; intros i pre s st HP; simpl forM.
  { by wp_step. }
  wp_step. eapply wp_mono; [|intros ? st1 HP1|done].
  - simpl in HP. eapply seekWrite_spec; [pose proof (zlen_nonneg pre); lia| |exact HP].
    rewrite !zlen_app, zlen_pageHeader. change (zlen (be32 n)) with 4.
    pose proof (zlen_nonneg (pg_body p)). pose proof (zlen_nonneg (raw_pages (i + 1) r)). lia.
  - cbv beta in HP1. rewrite patch_page in HP1.
    replace (zlen pre + 1796 + zlen (pg_body p)) with (zlen (pre ++ output_page policy n i p))
      by (rewrite zlen_app, zlen_output_page; lia).
    eapply wp_mono; [exact (IH _ _ _ _ HP1)| |done]. intros ? st2 HP2. cbv beta in HP2. simpl.
    by rewrite app_assoc.
Qed.

(** What [finalize] leaves. *)
Record finished X (hd : list byte) (ps : list page) (suffix : list byte) (st : translator) : Prop := {
  fn_good : good X st;
  fn_in : source_document hd ps suffix `prefix_of` consumed (hist st);
  fn_count : src_count st = zlen (source_document hd ps suffix);
  fn_suffix : zlen suffix < Z.of_nat urfPageHeaderSize;
  fn_file : file (hist st) = (output_document policy ps, 0);
  fn_size : outputSize st = zlen (output_document policy ps);
  fn_bytes : outputBytes st = zlen (output_document policy ps);
  fn_pages : pages st = zlen ps;
  fn_logical : pageLogical st = logical ps;
  fn_ok : Forall (page_ok limits mapping policy) ps
}.

Lemma finalize_spec X hd ps suffix s : doc_end X hd ps suffix s ->
  wp (finalize env limits) (fun _ st => finished X hd ps suffix st) (bad X) s.
Proof.
  intros [G I C S [O Ob] P N L K]. unfold finalize. wp_step. wp_step. wp_step.
  assert (patched X (zeros 4 ++ raw_pages 0 ps) s s) as HP by (split; try done; by rewrite O).
  eapply wp_mono; [by apply check_patched| |done]. intros ? s1 [HP1 _].
  wp_step; [apply resource_spec, HP1|]. wp_step. wp_step. wp_step.
  rewrite (pt_counts _ _ _ _ HP1), N. change 4 with (zlen (zeros 4)) at 1.
  eapply wp_mono; [exact (patch_counts_spec X (pages s) ps 0 (zeros 4) s s1 HP1)| |done].
  intros ? s2 HP2. cbv beta in HP2. wp_step.
  eapply wp_mono; [eapply seekWrite_spec; [| |exact HP2]| |done].
  { lia. }
  { rewrite zlen_app. change (zlen (zeros 4)) with 4. change (zlen (be32 pwgSync)) with 4.
    pose proof (zlen_nonneg (output_pages policy (pages s) 0 ps)). lia. }
  intros ? s3 HP3. cbv beta in HP3.
  assert (splice (Z.to_nat 0) (be32 pwgSync) (zeros 4 ++ output_pages policy (pages s) 0 ps) =
          output_document policy ps) as Hout by (rewrite P; done).
  rewrite Hout in HP3. wp_step. eapply wp_mono; [by apply check_patched| |done]. intros ? s4 [HP4 _].
  wp_step. eapply dstSeek_patched; [exact HP4|]. intros pos err s5 HP5 _. cbv beta iota.
  wp_step; [apply dst_error_spec, HP5|]. wp_step. wp_step.
  wp_step; [apply dst_error_spec, HP5|]. wp_step; [apply resource_spec, HP5|].
  wp_step. eapply wp_mono; [by apply check_patched| |done]. intros ? s6 [HP6 _].
  wp_step. eapply dstSeek_patched; [exact HP6|]. intros pos2 err2 s7 HP7 Hf7. cbv beta iota.
  wp_step; [apply dst_error_spec, HP7|]. specialize (Hf7 eq_refl).
  wp_step; [apply dst_error_spec, HP7|]. bool_to_prop. subst pos2.
  wp_step. eapply wp_mono; [by apply check_patched| |done]. intros ? s8 [HP8 Hf8]. rewrite Hf7 in Hf8.
  apply wp_modify. destruct HP8 as [G8 F8 I8 C8 B8 P8 N8 L8].
  assert (outputBytes s8 = zlen (output_document policy ps)) as Hbytes.
  { rewrite B8, Ob. unfold output_document. by rewrite !zlen_app, zlen_output_pages. }
  split; simpl; try congruence; try done. destruct G8; by split.
Qed.

(** *** The whole translation *)

(** Nothing was read or written yet. *)
Record start X (st : translator) : Prop := {
  sr_good : good X st;
  sr_in : consumed (hist st) = [];
  sr_count : src_count st = 0;
  sr_out : tracked_out st [];
  sr_pages : pages st = 0;
  sr_counts : pageCounts st = [];
  sr_logical : pageLogical st = 0
}.

Lemma start_lease_step X s s' : start X s -> good X s' -> lease_step s s' ->
  pageCounts s' = pageCounts s -> start X s'.
Proof.
  intros [G I C [O Ob] P N L] HG (E1 & E2 & E3 & E4 & E5 & E6) EC.
  split; try congruence; try done. split; congruence.
Qed.

Lemma initial_seek_spec X whence op text s : start X s ->
  wp (initial_seek env whence op text) (fun _ s' => start X s') (bad X) s.
Proof.
  intros [G I C [O Ob] P N L]. unfold initial_seek.
  assert (patched X [] s s) as HP by (split; try done; by rewrite O).
  assert (forall op err st, good X st -> bad X (wrapError KindDestinationIO op err (-1) 0 0) st) as Hbad.
  { intros. split; [done|]. unfold urf_error, wrapError, KindDestinationIO. repeat eexists; lia. }
  wp_step. eapply dstSeek_patched; [exact HP|]. intros pos err s1 HP1 Hf. cbv beta iota.
  wp_step; [wp_step; apply Hbad, HP1|]. specialize (Hf eq_refl).
  wp_step; [wp_step; apply Hbad, HP1|]. wp_step. bool_to_prop. subst pos.
  destruct HP1. split; try congruence; try done. split; [exact Hf|congruence].
Qed.

Lemma acquire_start X c n s (Q : option nat -> translator -> Prop) R :
  observer env <> None -> start X s ->
  (forall l st, good (option_list l ++ X) st -> lease_step s st -> slots st = slots s ->
                pageCounts st = pageCounts s -> Q l st) ->
  wp (acquire env c n) Q R s.
Proof.
  intros Ho HS HQ. eapply acquire_spec; [done|apply HS|]. intros l HG. apply HQ; [exact HG| |done|done].
  by destruct l.
Qed.

Lemma translateBody_spec s : start [] s -> slots s = [] -> outputSize s = 0 ->
  wp (translateBody env limits mapping policy)
    (fun r st => exists hd ps suffix st', finished [] hd ps suffix st' /\ st = releaseResources st' /\
       file_header_ok hd /\ ps <> [] /\
       r = {| InputBytes := src_count st'; OutputBytes := outputSize st'; Pages := pages st' |})
    (fun e st => exists st', bad [] e st' /\ st = releaseResources st') s.
Proof.
  intros HS Hsl _. unfold translateBody. apply wp_deferred.
  eapply wp_mono with (R := bad []); [|intros r st H; exact H|by eauto].
  wp_step. eapply (wp_mono _ (fun _ st => start [] st) _ (bad [])); [| |done].
  { destruct (observer env) eqn:Ho; [|by wp_step].
    wp_step. eapply acquire_start; [by rewrite Ho|done|]. intros sl s1 HG1 HL1 Hs1 HC1.
    apply wp_bind, wp_modify.
    assert (start [] (set_leases None sl None s1)) as HS2.
    { eapply start_lease_step; [exact HS| |exact HL1|exact HC1].
      eapply good_live; [exact HG1|done..|]. destruct (gd_live _ _ HG1) as (ls & Hls & Hp).
      exists ls. split; [exact Hls|]. rewrite Hp, Hs1, Hsl. unfold slots. simpl. done. }
    wp_step. eapply acquire_start; [by rewrite Ho|exact HS2|]. intros ol s3 HG3 HL3 Hs3 HC3.
    apply wp_modify. eapply start_lease_step; [exact HS2| |exact HL3|exact HC3].
    eapply good_live; [exact HG3|done..|]. destruct (gd_live _ _ HG3) as (ls & Hls & Hp).
    exists ls. split; [exact Hls|]. rewrite Hp, Hs3. unfold slots. simpl.
    rewrite !app_nil_r. by rewrite Permutation_app_comm. }
  intros ? s0 HS0. cbv beta in HS0.
  wp_step. eapply wp_mono; [by apply initial_seek_spec| |done]. intros ? s1 HS1. cbv beta in HS1.
  wp_step. eapply wp_mono; [by apply initial_seek_spec| |done]. intros ? s2 HS2. cbv beta in HS2.
  wp_step. eapply wp_mono; [by apply initial_seek_spec| |done]. intros ? s3 HS3. cbv beta in HS3.
  wp_step. eapply spec_use; [by apply write_spec|apply HS3|done|]. intros ? s4 HA4. cbv beta in HA4.
  wp_step. eapply spec_use; [apply readFileHeader_spec|apply HA4|done|]. intros ? s5 (hd & Hhd & HA5).
  assert (doc [] hd [] s5) as HD.
  { destruct HS3 as [G I C O P N L], HA4 as [G4 I4 C4 B4 O4 (F1 & F2 & F3 & F4 & F5) _].
    destruct HA5 as [G5 I5 C5 B5 O5 (H1 & H2 & H3 & H4 & H5) _].
    split; simpl; try congruence; try done.
    - by rewrite I5, I4, I, !app_nil_r.
    - rewrite C5, C4, C, app_nil_r. change (zlen (@nil byte)) with 0. lia.
    - exact (O5 _ (O4 _ O)).
    - change (zlen (@nil page)) with 0. congruence.
    - change (logical []) with 0. congruence. }
  wp_step. eapply wp_mono; [by apply translatePages_spec| |done]. intros ? s6 (ps & suffix & HE). cbv beta.
  wp_step. wp_step. wp_step; [apply malformed_spec, HE|]. bool_to_prop.
  wp_step. eapply wp_mono; [by apply finalize_spec| |done]. intros ? s7 HF. cbv beta in HF. wp_step.
  exists hd, ps, suffix, s7. split; [done|]. split; [done|]. split; [done|]. split; [|done].
  intros ->. apply Heqb. by rewrite (de_pages _ _ _ _ _ HE).
Qed.
End proofs.

(** ** The theorems *)

(** The ranges of the Go types of the limits. *)
Record limits_range (l : Limits) : Prop := {
  lr_in : minI64 <= MaxInputBytes l <= maxI64;
  lr_out : minI64 <= MaxOutputBytes l <= maxI64;
  lr_pages : 0 <= MaxPages l <= maxU32;
  lr_width : 0 <= MaxWidth l <= maxU32;
  lr_height : 0 <= MaxHeight l <= maxU32;
  lr_row : 0 <= MaxRowBytes l <= maxU64;
  lr_decoded : 0 <= MaxDecodedBytes l <= maxU64
}.

Lemma or_default_range v d m : 0 <= v <= m -> 0 < d <= m -> 0 < or_default v d <= m.
Proof. unfold or_default. intros. destruct (Z.eqb_spec v 0); simpl; lia. Qed.

Lemma effectiveLimits_ok l : limits_range l -> validateLimits l = Ok tt -> limits_ok (effectiveLimits l).
Proof.
  unfold validateLimits. intros [] H. destruct (_ || _) eqn:E; [done|]. bool_to_prop.
  split; apply or_default_range; (lia || done).
Qed.

Lemma validatePageSettings_media p policy :
  validatePageSettings p = Ok policy -> mediaWidth policy <> 0 /\ mediaHeight policy <> 0.
Proof.
  unfold validatePageSettings, mbind, res_bind. intros H.
  repeat (case_match; try done); bool_to_prop; by simplify_eq.
Qed.

Lemma validateMapping_ok m : validateMapping m = Ok tt -> m = 1 \/ m = 2 \/ m = 3.
Proof.
  unfold validateMapping. destruct (existsb _ _) eqn:E; [|done]. intros _.
  apply existsb_exists in E as (x & Hx & ->%Z.eqb_eq).
  destruct Hx as [<- |[<- |[<- |[]]]]; auto.
Qed.

Lemma good_start limits ev : limits_ok limits ->
  live [ev] = Some [] -> good limits [] (log ev new_translator).
Proof. intros [] Hl. split; simpl; try lia; try done. exists []. split; [exact Hl|done]. Qed.

Lemma wp_liftE {A} (r : res goerr A) (Q : A -> translator -> Prop) R s :
  (forall a, r = Ok a -> Q a s) -> (forall e, r = Err e -> R e s) -> wp (liftE r) Q R s.
Proof. destruct r; simpl; intros HQ HR; [by apply HQ|by apply HR]. Qed.

(** What [Translate] does from its first call, on every path. *)
Lemma Translate_wp env opts : limits_range (oLimits opts) ->
  wp (Translate env opts)
    (fun r st => exists policy hd ps suffix st',
       validatePageSettings (oPage opts) = Ok policy /\
       finished (effectiveLimits (oLimits opts)) (oMapping opts) policy [] hd ps suffix st' /\
       st = releaseResources st' /\ file_header_ok hd /\ ps <> [] /\
       limits_ok (effectiveLimits (oLimits opts)) /\
       r = {| InputBytes := src_count st'; OutputBytes := outputSize st'; Pages := pages st' |})
    (fun e st => urf_error e /\ live (hist st) = Some [] /\
       (limits_ok (effectiveLimits (oLimits opts)) ->
        good (effectiveLimits (oLimits opts)) [] st))
    new_translator.
Proof.
  intros Hr. unfold Translate, checkContext, ctxErr. set (limits := effectiveLimits (oLimits opts)).
  wp_step. wp_step. apply wp_liftS. intros err s [= <- <-]. set (s := log _ new_translator).
  assert (forall A (e : goerr) (Q : A -> translator -> Prop), urf_error e ->
    wp (throw e) Q (fun e st => urf_error e /\ live (hist st) = Some [] /\
       (limits_ok limits -> good limits [] st)) s) as Hthrow.
  { intros. wp_step. split; [done|]. split; [done|]. intros. by apply good_start. }
  assert (forall k op e off page row, 1 <= k <= 8 -> urf_error (wrapError k op e off page row)) as Hu
    by (intros; unfold urf_error, wrapError; repeat eexists; lia).
  wp_step; [apply Hthrow; unfold urf_error, KindCanceled; repeat eexists; lia|]. wp_step.
  destruct (src env) as [rd|] eqn:Hsrc; [|apply Hthrow, Hu; unfold KindInvalidOptions; lia].
  destruct (dst env) as [d|] eqn:Hdst; [|apply Hthrow, Hu; unfold KindInvalidOptions; lia].
  wp_step. apply wp_liftE.
  2: { intros e Hl. apply (Hthrow unit e (fun _ _ => True)). unfold validateLimits in Hl.
       destruct (_ || _); [|done]. injection Hl as <-. apply Hu. unfold KindInvalidOptions. lia. }
  intros [] Hl. pose proof (effectiveLimits_ok _ Hr Hl) as Hlim. cbv beta zeta.
  wp_step. apply wp_liftE.
  2: { intros e Hp. apply (Hthrow unit e (fun _ _ => True)).
       unfold validatePageSettings, validatePWGString, mbind, res_bind in Hp.
       repeat (case_match; simplify_eq); apply Hu; unfold KindInvalidOptions; lia. }
  intros policy Hp. wp_step. apply wp_liftE.
  2: { intros e Hm. apply (Hthrow unit e (fun _ _ => True)). unfold validateMapping in Hm.
       destruct (existsb _ _); [done|]. injection Hm as <-. apply Hu. unfold KindInvalidOptions. lia. }
  intros [] Hm. eapply wp_mono; [apply translateBody_spec with (s := s)| |].
  - exact Hlim.
  - by rewrite Hsrc.
  - by rewrite Hdst.
  - by apply validateMapping_ok.
  - by eapply validatePageSettings_media.
  - split; try done. by apply good_start.
  - done.
  - done.
  - intros r st (hd & ps & suffix & st' & H). exists policy, hd, ps, suffix, st'.
    destruct H as (? & ? & ? & ? & ?). by split_and!.
  - intros e st (st' & [HG He] & ->). split; [done|]. apply releaseResources_good in HG as [Hs HG].
    split; [|done]. destruct (gd_live _ _ _ HG) as (ls & Hls & Hp').
    rewrite Hs in Hp'. by apply Permutation_nil_r in Hp' as ->.
Qed.
