(* ===== verification/UrfComplete.v ===== *)
(** * URF to PWG Raster translation: accepted documents

    The grammar of source documents is unambiguous, and the translator
    accepts every document of the grammar that is within its limits, from a
    source and a destination in memory, in whatever pieces they deliver and
    accept the bytes. *)

From Stdlib Require Import ZArith Lia Ascii String Strings.Byte.
From stdpp Require Import base tactics list strings.
From S2P Require Import Prelude GoString GoError Urf UrfSpec UrfProofs.

(** ** The grammar is unambiguous *)

Lemma app_same_length {A} (a b c d : list A) : length a = length c -> a ++ b = c ++ d -> a = c /\ b = d.
Proof. apply app_inj_1. Qed.

Lemma zlen_same_length {A} (a c : list A) n : zlen a = n -> zlen c = n -> length a = length c.
Proof. unfold zlen. lia. Qed.

Lemma byteZ_x80 : byteZ x80 = 128.
Proof. done. Qed.

(** The first bytes of two packets agree, so the packets are of one kind. *)
Ltac same_packet Hb Heq :=
  inversion Hb; subst; try lia;
  pose proof (f_equal (@List.hd byte x00) Heq) as Hfirst; apply (f_equal (@List.tl byte)) in Heq;
  simpl in Hfirst, Heq; subst; rewrite ?byteZ_x80 in *; try lia.

Lemma packets_unique bpp r a b x y :
  packets bpp r a -> packets bpp r b -> a ++ x = b ++ y -> a = b /\ x = y.
Proof.
  intros Ha. revert b x y. induction Ha as [|r Hr|r c d rest Hr Hc Hd _ IH|r c px rest Hr Hc Hpx Hle _ IH|r c Hr Hc Hlt];
    intros b x y Hb Heq.
  - inversion Hb; subst; lia || done.
  - same_packet Hb Heq; done.
  - same_packet Hb Heq.
    rewrite <- !app_assoc in Heq. apply app_same_length in Heq as [-> Heq]; [|unfold zlen in *; lia].
    match type of Heq with _ ++ ?u = ?b ++ ?v => destruct (IH b u v) as [-> ->] end; done.
  - same_packet Hb Heq.
    rewrite <- !app_assoc in Heq. apply app_same_length in Heq as [-> Heq]; [|unfold zlen in *; lia].
    match type of Heq with _ ++ ?u = ?b ++ ?v => destruct (IH b u v) as [-> ->] end; done.
  - same_packet Hb Heq. done.
Qed.

Lemma rows_unique rb bpp h a b x y :
  rows rb bpp h a -> rows rb bpp h b -> a ++ x = b ++ y -> a = b /\ x = y.
Proof.
  intros Ha. revert b x y. induction Ha as [|h c pk rest Hh Hpk _ IH]; intros b x y Hb Heq.
  - inversion Hb; subst; lia || done.
  - inversion Hb as [|h' c' pk' rest' Hh' Hpk' Hrest']; subst; [lia|]. simpl in Heq.
    injection Heq as -> Heq. rewrite <- !app_assoc in Heq.
    apply (packets_unique _ _ _ _ _ _ Hpk Hpk') in Heq as [-> Heq].
    by apply (IH _ _ _ Hrest') in Heq as [-> ->].
Qed.

Section unique.
Context (limits : Limits) (mapping : Z) (policy : pagePolicy).

Lemma header_unique raw d d' :
  header_ok limits mapping policy raw d -> header_ok limits mapping policy raw d' -> d = d'.
Proof.
  intros H H'. rewrite (ho_desc _ _ _ _ _ H), (ho_desc _ _ _ _ _ H'). f_equal.
  destruct (ho_media _ _ _ _ _ H) as [[W Ht] E].
  pose proof (ho_geometry _ _ _ _ _ H W Ht E) as G. pose proof (ho_geometry _ _ _ _ _ H' W Ht E) as G'.
  destruct (landscape d), (landscape d'); [done|destruct G as [_ G]|destruct G' as [_ G']|done]; congruence.
Qed.

Lemma source_page_unique p q x y :
  page_ok limits mapping policy p -> page_ok limits mapping policy q ->
  source_page p ++ x = source_page q ++ y -> p = q /\ x = y.
Proof.
  intros [Hh Hb] [Hh' Hb'] Heq. unfold source_page in Heq. rewrite <- !app_assoc in Heq.
  apply app_same_length in Heq as [Hraw Heq];
    [|by rewrite (ho_length _ _ _ _ _ Hh), (ho_length _ _ _ _ _ Hh')].
  destruct p as [raw d body], q as [raw' d' body']; simpl in *. subst raw'.
  pose proof (header_unique _ _ _ Hh Hh') as ->.
  by apply (rows_unique _ _ _ _ _ _ _ Hb Hb') in Heq as [-> ->].
Qed.

Lemma source_page_long p : page_ok limits mapping policy p -> 32 <= zlen (source_page p).
Proof.
  intros [Hh _]. unfold source_page. rewrite zlen_app. pose proof (zlen_nonneg (pg_body p)).
  unfold zlen at 1. rewrite (ho_length _ _ _ _ _ Hh). unfold urfPageHeaderSize. lia.
Qed.

Lemma pages_unique ps : forall qs x y,
  Forall (page_ok limits mapping policy) ps -> Forall (page_ok limits mapping policy) qs ->
  zlen x < 32 -> zlen y < 32 ->
  concat (map source_page ps) ++ x = concat (map source_page qs) ++ y -> ps = qs /\ x = y.
Proof.
  induction ps as [|p ps IH]; intros [|q qs] x y Hp Hq Hx Hy Heq; simpl in Heq.
  - done.
  - exfalso. apply Forall_cons in Hq as [Hq _]. pose proof (source_page_long q Hq).
    subst x. rewrite !zlen_app in Hx. pose proof (zlen_nonneg (concat (map source_page qs))).
    pose proof (zlen_nonneg y). lia.
  - exfalso. apply Forall_cons in Hp as [Hp _]. pose proof (source_page_long p Hp).
    subst y. rewrite !zlen_app in Hy. pose proof (zlen_nonneg (concat (map source_page ps))).
    pose proof (zlen_nonneg x). lia.
  - apply Forall_cons in Hp as [Hp Hps]. apply Forall_cons in Hq as [Hq Hqs].
    rewrite <- !app_assoc in Heq.
    apply (source_page_unique _ _ _ _ Hp Hq) in Heq as [-> Heq].
    by apply IH in Heq as [-> ->].
Qed.
End unique.

(** ** Runs in memory *)

Lemma mediaPixels_0 w h r : mediaPixels w h 0 = Some r -> False.
Proof.
  unfold mediaPixels, checkedMul. rewrite !Z.mul_0_r.
  destruct (_ && _); [done|]. by destruct (_ && _).
Qed.

Lemma Zmin_if a b : Z.min a b = if a <? b then a else b.
Proof. destruct (Z.ltb_spec a b); lia. Qed.


Section benign.
Context (input : list byte) (chunk : history -> nat) (obs : bool).
Context (limits : Limits) (mapping : Z) (policy : pagePolicy).
Context (Hlim : limits_ok limits) (Hin : zlen input <= MaxInputBytes limits).
Abbreviation env := (memory_env input chunk obs).

(** [rest] of the input is unread; nothing else changed from [s0] but the
    [out] bytes written. *)
Record bn (rest : list byte) (out : Z) (s0 st : translator) : Prop := {
  bn_in : consumed (hist st) ++ rest = input;
  bn_count : src_count st = zlen (consumed (hist st));
  bn_pending : src_pendingErr st = None;
  bn_out : outputBytes st = out;
  bn_scratch : length (scratch st) = maxCopyScratch;
  bn_frame : frame s0 st
}.

(** No error, and the given end. *)
Abbreviation fine m Q st := (wp m Q (fun _ _ => False) st).

Lemma ctxErr_fine rest out s0 st : bn rest out s0 st ->
  fine (ctxErr env) (fun e st' => e = None /\ bn rest out s0 st') st.
Proof. intros []. apply wp_liftS. intros e s' [= <- <-]. split; [done|by split]. Qed.

Lemma check_fine op page row rest out s0 st : bn rest out s0 st ->
  fine (check env op page row) (fun _ st' => bn rest out s0 st') st.
Proof.
  intros HB. unfold check, checkContext . wp_step. wp_step. wp_step.
  eapply wp_mono; [by apply ctxErr_fine| |done]. intros e s' [-> HB']. by wp_step.
Qed.

(** One read returns some of the rest, or the end of the file. *)
Lemma read_fine p rest out s0 st : bn rest out s0 st -> p <> [] ->
  fine (read env limits p) (fun r st' => let '(n, p', err) := r in
    0 <= n <= zlen p /\ zlen p' = zlen p /\
    (rest = [] -> err = Some EOF /\ n = 0 /\ bn [] out s0 st') /\
    (rest <> [] -> err = None /\ 0 < n <= zlen rest /\
       take (Z.to_nat n) p' = take (Z.to_nat n) rest /\ bn (drop (Z.to_nat n) rest) out s0 st')) st.
Proof.
  intros HB Hp. unfold read. wp_step. eapply wp_mono; [by apply ctxErr_fine| |done].
  intros e s1 [-> [I C P O Sc F]]. wp_step; [bool_to_prop; destruct p; [done|]; rewrite zlen_cons in *; pose proof (zlen_nonneg p); lia|].
  wp_step. wp_step. rewrite P. wp_step. wp_step. destruct Hlim as [[HL HM] _ _ _ _ _ _].
  pose proof (f_equal zlen I) as HI. rewrite zlen_app in HI. pose proof (zlen_nonneg rest).
  pose proof (zlen_nonneg (consumed (hist s1))).
  assert (0 < zlen p) by (destruct p; [done|]; rewrite zlen_cons; pose proof (zlen_nonneg p); lia).
  wp_step; [|bool_to_prop; lia]. rewrite i64_small by (unfold minI64; lia).
  assert (drop (length (consumed (hist s1))) input = rest) as Hrest by (rewrite <- I; apply drop_app_length).
  wp_step; [bool_to_prop; lia|]. wp_step; bool_to_prop.
  { (* the probe at the limit finds the end of the input *)
    assert (rest = []) as -> by (destruct rest; [done|]; rewrite zlen_cons in *; pose proof (zlen_nonneg rest); lia).
    unfold read_probe, srcRead. apply wp_bind, wp_liftS. intros r s2. simpl src. rewrite Hrest.
    intros [= <- <-]. simpl. wp_step. split; [lia|]. split; [done|]. split; [|done]. intros _.
    split; [done|]. split; [done|]. split; simpl; try done; by rewrite ?app_nil_r in *. }
  set (k := if _ <? _ then _ else _).
  assert (0 < k <= length p)%nat as Hk.
  { unfold k, zlen in *. destruct (Z.ltb_spec (MaxInputBytes limits - src_count s1) (Z.of_nat (length p))); lia. }
  assert (Z.of_nat k <= MaxInputBytes limits - src_count s1) as Hk'.
  { unfold k, zlen in *. destruct (Z.ltb_spec (MaxInputBytes limits - src_count s1) (Z.of_nat (length p))); lia. }
  unfold read_some, srcRead. apply wp_bind, wp_liftS. intros r s2. simpl src. cbv beta iota zeta. rewrite Hrest.
  assert (length (take k p) = k) as Htk by (rewrite length_take; lia). rewrite Htk.
  set (m := Nat.min (Nat.min k (S (chunk (hist s1)))) (length rest)).
  assert (length (take m rest) = m) as Hm by (rewrite length_take; lia).
  rewrite Hm.
  intros [= <- <-]. cbv beta iota.
  set (b := take k (take m rest ++ drop m (take k p))) in *.
  assert (length b = k) as Hb by (unfold b; rewrite length_take, length_app, length_drop, Hm, Htk; lia).
  assert (take m b = take m rest) as Htb.
  { unfold b. rewrite take_take, Nat.min_l by lia. rewrite take_app_le by lia. by rewrite take_ge by lia. }
  wp_step; [bool_to_prop; apply orb_true_iff in Heqb3 as [|]; unfold zlen in *; bool_to_prop; lia|].
  apply wp_bind, wp_modify. simpl src_count. simpl src_pendingErr.
  assert (Z.to_nat (Z.of_nat m) = m) as Hmm by lia.
  assert (length (b ++ drop k p) = length p) as Hbp by (rewrite length_app, length_drop; lia).
  destruct (decide (rest = [])) as [Er|Er].
  - assert (m = 0%nat) as Hm0 by (unfold m; rewrite Er; simpl; lia). rewrite Hm0. simpl. repeat wp_step.
    split; [unfold zlen; lia|]. split; [unfold zlen; lia|]. split; [|done]. intros _.
    split; [done|]. split; [done|]. rewrite Er, app_nil_r in I.
    split; simpl; rewrite ?Hm0, ?app_nil_r; try done.
    + destruct (_ <=? _); simpl; by rewrite ?app_nil_r.
    + rewrite Z.add_0_r, i64_small by (unfold minI64; lia). destruct (_ <=? _); by rewrite ?app_nil_r.
  - assert (0 < m)%nat as Hm0 by (unfold m; destruct rest; [done|]; simpl; lia).
    assert ((m =? 0)%nat = false) as -> by (apply Nat.eqb_neq; lia).
    wp_step; [bool_to_prop; lia|]. wp_step.
    split; [unfold zlen; lia|]. split; [unfold zlen; lia|]. split; [done|]. intros _.
    split; [done|]. split; [unfold zlen; lia|]. rewrite Hmm.
    split; [rewrite take_app_le by lia; done|].
    assert (((0 <=? Z.of_nat m) && (Z.of_nat m <=? zlen (take k p))) = true) as Hval
      by (unfold zlen; rewrite Htk; lia).
    split; simpl hist; simpl consumed; simpl src_count; try done; rewrite ?Hval, ?Hmm, ?Htb.
    + by rewrite <- app_assoc, take_drop.
    + rewrite i64_small, zlen_app, C by (unfold minI64, zlen in *; lia). unfold zlen. by rewrite Hm.
Qed.

(** The loops that fill a buffer: [total] bytes of [rest] are in [cur]. *)
Definition filled (buf rest : list byte) out s0 (x : Z * list byte) (st : translator) : Prop :=
  let '(total, cur) := x in
  length cur = length buf /\ 0 <= total <= zlen buf /\ total <= zlen rest /\
  take (Z.to_nat total) cur = take (Z.to_nat total) rest /\
  bn (drop (Z.to_nat total) rest) out s0 st.

Lemma filled_start buf rest out s0 st : bn rest out s0 st -> filled buf rest out s0 (0, buf) st.
Proof.
  intros HB. pose proof (zlen_nonneg buf). pose proof (zlen_nonneg rest).
  by split_and!.
Qed.

Lemma filled_step buf rest out s0 total cur n p st' :
  length cur = length buf -> 0 <= total < zlen buf -> total <= zlen rest ->
  take (Z.to_nat total) cur = take (Z.to_nat total) rest ->
  0 <= n <= zlen (drop (Z.to_nat total) cur) -> zlen p = zlen (drop (Z.to_nat total) cur) ->
  n <= zlen (drop (Z.to_nat total) rest) ->
  take (Z.to_nat n) p = take (Z.to_nat n) (drop (Z.to_nat total) rest) ->
  bn (drop (Z.to_nat n) (drop (Z.to_nat total) rest)) out s0 st' ->
  filled buf rest out s0 (total + n, take (Z.to_nat total) cur ++ p) st'.
Proof.
  unfold zlen. rewrite !length_drop. intros Hl Ht Hr Htk Hn Hp Hnr Htn HB.
  unfold filled, zlen. rewrite length_app, length_take.
  assert (Z.to_nat (total + n) = Z.to_nat total + Z.to_nat n)%nat as Hadd by lia.
  rewrite Hadd. split; [lia|]. split; [lia|]. split; [lia|].
  split; [rewrite take_fill, Htk, Htn by lia; by rewrite take_take_drop|].
  by rewrite <- drop_drop.
Qed.

Lemma readFull_fine buf b rest out s0 st page row : bn (b ++ rest) out s0 st -> length b = length buf ->
  fine (readFull env limits buf page row) (fun r st' => r = b /\ bn rest out s0 st') st.
Proof.
  intros HB Hb. unfold readFull. wp_step.
  { wp_step. bool_to_prop. destruct buf; [|rewrite zlen_cons in *; pose proof (zlen_nonneg buf); lia].
    destruct b; [|done]. done. }
  eapply (wp_while (filled buf (b ++ rest) out s0) (fun x _ => zlen buf - fst x)).
  - intros [total cur] s1 (_ & ? & _). simpl. lia.
  - intros [total cur] s1 (Hl & Ht & Hr & Htk & HB1). wp_step.
    + bool_to_prop. assert (total < zlen buf) as Hlt by (unfold zlen in *; lia). wp_step.
      eapply wp_mono; [eapply read_fine; [exact HB1|]| |done].
      { intros Hd. apply (f_equal length) in Hd. rewrite length_drop in Hd. unfold zlen in *. simpl in Hd. lia. }
      intros [[n p] err] s2 (Hn & Hp & _ & Hne). destruct Hne as (-> & Hn2 & Htn & HB2).
      { intros Hd. apply (f_equal length) in Hd. rewrite length_drop, length_app in Hd. unfold zlen in *. simpl in Hd. lia. }
      cbv beta iota zeta. wp_step. split; [apply filled_step; (done || lia)|simpl; lia].
    + wp_step. bool_to_prop. assert (Z.to_nat total = length b) as E by (unfold zlen in *; lia).
      rewrite E in *. rewrite take_ge in Htk by lia. rewrite take_app_length in Htk.
      rewrite drop_app_length in HB1. done.
  - by apply filled_start.
  - simpl. unfold zlen. lia.
Qed.

Lemma readHeader_fine buf rest out s0 st : length buf = urfPageHeaderSize -> bn rest out s0 st ->
  fine (readHeader env limits buf) (fun r st' => let '(n, raw) := r in
    n = Z.min 32 (zlen rest) /\ length raw = 32%nat /\
    take (Z.to_nat n) raw = take (Z.to_nat n) rest /\ bn (drop (Z.to_nat n) rest) out s0 st') st.
Proof.
  intros Hbuf HB. unfold readHeader. rewrite Hbuf. cbn [Nat.eqb negb urfPageHeaderSize].
  assert (zlen buf = 32) as Hz by (unfold zlen; by rewrite Hbuf).
  eapply (wp_while (filled buf rest out s0) (fun x _ => zlen buf - fst x)).
  - intros [total cur] s1 (_ & ? & _). simpl. lia.
  - intros [total cur] s1 (Hl & Ht & Hr & Htk & HB1). wp_step.
    + bool_to_prop. assert (total < zlen buf) as Hlt by (unfold zlen in *; lia). wp_step.
      eapply wp_mono; [eapply read_fine; [exact HB1|]| |done].
      { intros Hd. apply (f_equal length) in Hd. rewrite length_drop in Hd. unfold zlen in *. simpl in Hd. lia. }
      intros [[n p] err] s2 (Hn & Hp & Hnil & Hne). destruct (decide (drop (Z.to_nat total) rest = [])) as [Hd|Hd].
      * destruct (Hnil Hd) as (-> & -> & HB2). cbv beta iota zeta. unfold next_page. wp_step. wp_step.
        change (bool_decide (is_Some (find_err is_input_limit EOF))) with false. cbv iota.
        wp_step. eapply wp_mono; [by apply ctxErr_fine| |done].
        intros e s3 [-> HB3]. change (Is EOF EOF) with true. cbv beta iota zeta. cbn [orb].
        wp_step. assert (total = zlen rest) as ->.
        { apply (f_equal length) in Hd. rewrite length_drop in Hd. unfold zlen in *. simpl in Hd. lia. }
        rewrite Z.add_0_r. split; [lia|]. unfold zlen in *. rewrite Nat2Z.id in *.
        split; [rewrite length_app, length_take; rewrite length_drop in *; lia|].
        rewrite take_app_le, take_take, Nat.min_id by (rewrite length_take; lia).
        split; [done|]. by rewrite Hd.
      * destruct (Hne Hd) as (-> & Hn2 & Htn & HB2). cbv beta iota zeta. wp_step.
        split; [apply filled_step; (done || lia)|simpl; lia].
    + wp_step. bool_to_prop. assert (total = 32) as -> by (unfold zlen in *; lia).
      split; [lia|]. split; [by rewrite Hl, Hbuf|]. done.
  - by apply filled_start.
  - simpl. unfold zlen. lia.
Qed.

(** *** Writing *)

Lemma lease_event_bn rest out s0 l ev st :
  (forall x, exists z, ev x = EvWritten x z \/ ev x = EvSetSize x z) ->
  bn rest out s0 st -> bn rest out s0 (lease_event l ev st).
Proof.
  intros Hev []. destruct l as [l|]; [|by split].
  destruct (Hev l) as [z [Hz|Hz]]; split; simpl; rewrite ?Hz; done.
Qed.

Lemma write_fine buf rest out s0 st page row : bn rest out s0 st ->
  0 <= out -> out + zlen buf <= MaxOutputBytes limits ->
  fine (write env limits buf page row) (fun _ st' => bn rest (out + zlen buf) s0 st') st.
Proof.
  intros HB Ho Hmax. unfold write. destruct Hlim as [_ [HL HM] _ _ _ _ _]. pose proof (zlen_nonneg buf).
  wp_step. eapply wp_mono; [by apply check_fine| |done]. intros ? s1 HB1. cbv beta in HB1.
  wp_step. wp_step. rewrite (bn_out _ _ _ _ HB1).
  rewrite (u64_small out), !u64_small by (unfold maxU64, maxI64 in *; lia).
  wp_step; [bool_to_prop; lia|].
  eapply (wp_while (fun b s => bn rest (out + (zlen buf - zlen b)) s0 s /\ zlen b <= zlen buf) (fun b _ => zlen b)).
  - intros. apply zlen_nonneg.
  - intros b s2 [HB2 Hb]. wp_step; bool_to_prop.
    2: { wp_step. pose proof (zlen_nonneg b). replace (zlen b) with 0 in HB2 by lia.
         by rewrite Z.sub_0_r in HB2. }
    wp_step. eapply wp_mono; [by apply check_fine| |done]. intros ? s3 [I C P O Sc F].
    unfold dstWrite. simpl dst. cbv beta iota. wp_step. apply wp_liftS. intros [n err] s4. simpl dst_Write.
    intros [= <- <- <-]. cbv beta iota.
    set (n := Z.min _ _) in *. assert (0 < n <= zlen b) as Hn by (unfold n; lia).
    assert (((n <? 0) || (zlen b <? n)) = false) as -> by lia.
    apply wp_bind, wp_modify. apply wp_bind, wp_modify. apply wp_bind, wp_modify.
    match goal with |- wp _ _ _ ?s => set (s5 := s) end.
    assert (bn rest (out + (zlen buf - (zlen b - n))) s0 s5) as HB5.
    { apply lease_event_bn; [by eauto|]. apply lease_event_bn; [by eauto|]. split; try done.
      simpl. rewrite O, i64_small by (unfold minI64; lia). lia. }
    wp_step; [bool_to_prop; lia|]. wp_step.
    assert (zlen (drop (Z.to_nat n) b) = zlen b - n) as -> by (unfold zlen in *; rewrite length_drop; lia).
    split; [split; [exact HB5|lia]|lia].
  - split; [|lia]. by rewrite Z.sub_diag, Z.add_0_r.
  - unfold zlen. lia.
Qed.

(** *** Rows *)

Lemma copyBytes_fine n d rest out s0 st page row : bn (d ++ rest) out s0 st -> zlen d = n ->
  n <= maxU32 -> 0 <= out -> out + n <= MaxOutputBytes limits ->
  fine (copyBytes env limits n page row) (fun _ st' => bn rest (out + n) s0 st') st.
Proof.
  intros HB Hd Hn32 Ho Hmax. pose proof (zlen_nonneg d). unfold copyBytes, maxU32 in *.
  eapply (wp_while (fun m s1 => 0 <= m <= n /\ bn (drop (Z.to_nat (n - m)) d ++ rest) (out + (n - m)) s0 s1) (fun m _ => m)).
  - intros. lia.
  - intros m s1 [Hm HB1]. wp_step; bool_to_prop.
    2: { wp_step. assert (m = 0) as -> by lia. rewrite Z.sub_0_r in HB1.
         by rewrite drop_ge in HB1 by (unfold zlen in *; lia). }
    wp_step. eapply wp_mono; [by apply check_fine| |done]. intros ? s2 HB2. cbv beta in HB2.
    wp_step. wp_step. pose proof (bn_scratch _ _ _ _ HB2) as Hsc. unfold maxCopyScratch in Hsc.
    set (chunk_ := if m <? zlen (scratch s2) then m else zlen (scratch s2)).
    assert (0 < chunk_ <= m /\ chunk_ <= 384) as [Hc Hc'].
    { unfold chunk_, zlen. rewrite Hsc. destruct (Z.ltb_spec m (Z.of_nat 384)); lia. }
    set (e := drop (Z.to_nat (n - m)) d) in *.
    assert (zlen e = m) as He by (unfold e, zlen in *; rewrite length_drop; lia).
    rewrite <- (take_drop (Z.to_nat chunk_) e), <- app_assoc in HB2.
    wp_step. eapply wp_mono; [eapply readFull_fine; [exact HB2|]| |done].
    { unfold zlen in *. rewrite !length_take, Hsc. lia. }
    intros b s3 [-> HB3]. apply wp_bind, wp_modify.
    assert (zlen (take (Z.to_nat chunk_) e) = chunk_) as Hz by (unfold zlen in *; rewrite length_take; lia).
    wp_step. eapply wp_mono; [apply write_fine with (rest := drop (Z.to_nat chunk_) e ++ rest) (out := out + (n - m)) (s0 := s0)| |done].
    + destruct HB3 as [I C P O Sc (F1 & F2 & F3 & F4 & F5)]. split; try done; simpl.
      * rewrite length_app, length_drop. unfold zlen in Hz. unfold maxCopyScratch. lia.
      * split_and!; try done. simpl. rewrite length_app, length_drop. rewrite <- F5, Sc. unfold zlen in Hz.
        unfold maxCopyScratch. lia.
    + lia.
    + rewrite Hz. lia.
    + intros ? s4 HB4. cbv beta in HB4. wp_step. rewrite u64_small by (unfold maxU64; lia).
      split; [|lia]. split; [lia|].
      replace (n - (m - chunk_)) with ((n - m) + chunk_) by lia.
      rewrite Z2Nat.inj_add, <- drop_drop by lia. rewrite Hz in HB4. by rewrite Z.add_assoc.
  - split; [lia|]. rewrite Z.sub_diag. simpl. by rewrite Z.add_0_r.
  - lia.
Qed.

(** One byte copied, at the head of a longer program. *)
Lemma copyByte_then {A} c rest out s0 st page row (k : list byte -> TM A) Q :
  bn (c :: rest) out s0 st -> 0 <= out -> out + 1 <= MaxOutputBytes limits ->
  (forall st', bn rest (out + 1) s0 st' -> fine (k [c]) Q st') ->
  fine (b ← readFull env limits (zeros 1) page row; write env limits b page row;; k b) Q st.
Proof.
  intros HB Ho Hm Hk. wp_step. eapply wp_mono; [by apply (readFull_fine _ [c] rest out s0)| |done].
  intros b s1 [-> HB1]. wp_step. eapply wp_mono; [by apply (write_fine [c] rest out s0)| |done].
  intros ? s2 HB2. by apply Hk.
Qed.

Lemma land_128 c : (Z.land (byteZ c) 0x80 =? 0) = (byteZ c <? 128).
Proof. by destruct c. Qed.

Lemma copyPacket_fine bpp rem bs rest T s0 st page row :
  0 < bpp <= 4 -> 0 < rem <= maxU32 -> packets bpp rem bs ->
  T <= MaxOutputBytes limits -> zlen bs <= T -> bn (bs ++ rest) (T - zlen bs) s0 st ->
  fine (copyPacket env limits bpp rem page row) (fun r st' => 0 <= r < rem /\
    exists bs', packets bpp r bs' /\ zlen bs' <= T /\ bn (bs' ++ rest) (T - zlen bs') s0 st') st.
Proof.
  intros Hb Hr Hpk HT HbsT HB. unfold copyPacket, maxU32 in *.
  wp_step. eapply wp_mono; [by apply check_fine| |done]. intros ? s1 HB1. cbv beta in HB1.
  inversion Hpk as [|? Hr'|? c d bs' Hr' Hc Hd Hrest|? c px bs' Hr' Hc Hpx Hle Hrest|? c Hr' Hc Hlt]; subst; [lia|..];
    rewrite <- ?app_comm_cons in HB1; rewrite ?zlen_cons, ?zlen_app, ?zlen_nil in *.
  - eapply copyByte_then; [exact HB1|lia|lia|]. intros s2 HB2. unfold byte_at. cbn [nth].
    change (byteZ x80 =? 128) with true. cbv iota. wp_step. split; [lia|]. exists []. split; [constructor|].
    rewrite zlen_nil. split; [lia|]. by replace (T - 0) with (T - (1 + 0) + 1) by lia.
  - pose proof (zlen_nonneg d). pose proof (zlen_nonneg bs'). pose proof (byteZ_range c).
    eapply copyByte_then; [exact HB1|lia|lia|]. intros s2 HB2. unfold byte_at. cbn [nth].
    rewrite land_128. destruct (Z.eqb_spec (byteZ c) 128); [lia|]. destruct (Z.ltb_spec (byteZ c) 128); [lia|].
    assert (0 < (257 - byteZ c) * bpp) by nia.
    cbn [negb]. unfold u16. rewrite wrapu_small by lia.
    rewrite checkedMul_u32 by (unfold maxU32; lia). rewrite <- Zmin_if. rewrite (Z.min_comm rem), <- Hd.
    rewrite <- app_assoc in HB2. wp_step.
    eapply wp_mono; [eapply copyBytes_fine; [exact HB2|done|unfold maxU32; lia|lia|lia]| |done].
    intros ? s3 HB3. cbv beta in HB3. wp_step. rewrite u64_small by (unfold maxU64; lia).
    split; [lia|]. exists bs'. split; [done|]. split; [lia|].
    by replace (T - zlen bs') with (T - (1 + (zlen d + zlen bs')) + 1 + zlen d) by lia.
  - pose proof (zlen_nonneg bs'). pose proof (byteZ_range c).
    eapply copyByte_then; [exact HB1|lia|lia|]. intros s2 HB2. unfold byte_at. cbn [nth].
    rewrite land_128. destruct (Z.eqb_spec (byteZ c) 128); [lia|]. destruct (Z.ltb_spec (byteZ c) 128); [|lia].
    assert (zlen px <= (byteZ c + 1) * zlen px) by nia.
    cbn [negb]. rewrite (u64_small (byteZ c + 1)) by (unfold maxU64; lia).
    rewrite checkedMul_u32 by (unfold maxU32; lia). rewrite <- Zmin_if. rewrite (Z.min_comm rem).
    set (want := Z.min _ rem) in *. assert (zlen px <= want <= rem) as Hw by (unfold want; lia).
    destruct (Z.ltb_spec want (zlen px)); [lia|].
    rewrite <- app_assoc in HB2. wp_step.
    eapply wp_mono; [eapply copyBytes_fine; [exact HB2|done|unfold maxU32; lia|lia|lia]| |done].
    intros ? s3 HB3. cbv beta in HB3. wp_step. rewrite u64_small by (unfold maxU64; lia).
    split; [lia|]. exists bs'. split; [done|]. split; [lia|].
    by replace (T - zlen bs') with (T - (1 + (zlen px + zlen bs')) + 1 + zlen px) by lia.
  - pose proof (byteZ_range c).
    eapply copyByte_then; [exact HB1|lia|lia|]. intros s2 HB2. unfold byte_at. cbn [nth].
    rewrite land_128. destruct (Z.eqb_spec (byteZ c) 128); [lia|]. destruct (Z.ltb_spec (byteZ c) 128); [|lia].
    assert (bpp <= (byteZ c + 1) * bpp) by nia.
    cbn [negb]. rewrite (u64_small (byteZ c + 1)) by (unfold maxU64; lia).
    rewrite checkedMul_u32 by (unfold maxU32; lia). rewrite <- Zmin_if.
    destruct (Z.ltb_spec (Z.min rem ((byteZ c + 1) * bpp)) bpp); [|lia].
    wp_step. split; [lia|]. exists []. split; [constructor|]. rewrite zlen_nil. split; [lia|].
    by replace (T - 0) with (T - (1 + 0) + 1) by lia.
Qed.

Lemma copyRow_fine p bs rest T s0 st page row : desc_ok p ->
  packets (pwgBitsPerPixel p / 8) (rowBytes p) bs ->
  T <= MaxOutputBytes limits -> zlen bs <= T -> bn (bs ++ rest) (T - zlen bs) s0 st ->
  fine (while (S (Z.to_nat (rowBytes p))) (fun remaining =>
      if 0 <? remaining then
        remaining ← copyPacket env limits (pwgBitsPerPixel p / 8) remaining page row;
        mret (inl remaining)
      else mret (inr tt)) (rowBytes p)) (fun _ st' => bn rest T s0 st') st.
Proof.
  intros (Hr & _ & Hb) Hpk HT Hbs HB.
  assert (0 < pwgBitsPerPixel p / 8 <= 4) as Hbpp by (destruct Hb as [-> | ->]; done).
  eapply (wp_while (fun rem s1 => 0 <= rem <= maxU32 /\ exists bs', packets (pwgBitsPerPixel p / 8) rem bs' /\
    zlen bs' <= T /\ bn (bs' ++ rest) (T - zlen bs') s0 s1) (fun rem _ => rem)).
  - intros x s1 []. lia.
  - intros rem s1 (Hrem & bs' & Hpk' & Hbs' & HB1). wp_step; bool_to_prop.
    + wp_step. eapply wp_mono; [eapply copyPacket_fine with (bs := bs'); [done|lia|done|done|done|exact HB1]| |done].
      intros r s2 (Hr2 & bs2 & H2). cbv beta. wp_step. split; [|lia]. split; [lia|]. by exists bs2.
    + wp_step. assert (rem = 0) as -> by lia. apply packets_0 in Hpk' as ->.
      by rewrite zlen_nil, Z.sub_0_r in HB1.
  - split; [lia|]. by exists bs.
  - lia.
Qed.

Lemma copyPageData_fine p bs rest T s0 st : desc_ok p ->
  rows (rowBytes p) (pwgBitsPerPixel p / 8) (height p) bs ->
  T <= MaxOutputBytes limits -> zlen bs <= T -> bn (bs ++ rest) (T - zlen bs) s0 st ->
  fine (copyPageData env limits p) (fun _ st' => bn rest T s0 st') st.
Proof.
  intros Hp Hrows HT Hbs HB. pose proof Hp as (Hr & Hh & Hb). unfold copyPageData, next_page.
  wp_step. wp_step. wp_step. { bool_to_prop. destruct Hb as [Hb | Hb]; rewrite Hb in *; done. }
  eapply (wp_while (fun dn s1 => 0 <= dn <= height p /\ exists bs',
    rows (rowBytes p) (pwgBitsPerPixel p / 8) (height p - dn) bs' /\
    zlen bs' <= T /\ bn (bs' ++ rest) (T - zlen bs') s0 s1) (fun dn _ => height p - dn)).
  - intros x s1 []. lia.
  - intros dn s1 (Hdn & bs' & Hrows' & Hbs' & HB1). wp_step; bool_to_prop.
    2: { wp_step. inversion Hrows'; subst; [|lia]. by rewrite zlen_nil, Z.sub_0_r in HB1. }
    wp_step. eapply wp_mono; [by apply check_fine| |done]. intros ? s2 HB2. cbv beta in HB2.
    inversion Hrows' as [|? c pk rest' Hpos Hpk Hrest']; subst; [lia|].
    rewrite <- app_comm_cons in HB2. rewrite zlen_cons, zlen_app in *.
    pose proof (zlen_nonneg pk). pose proof (zlen_nonneg rest'). pose proof (byteZ_range c) as Hc.
    eapply copyByte_then; [exact HB2|lia|lia|]. intros s3 HB3. rewrite <- app_assoc in HB3.
    wp_step. eapply wp_mono; [eapply copyRow_fine with (T := T - zlen rest'); [exact Hp|exact Hpk|lia|lia|]| |done].
    { by replace (T - zlen rest' - zlen pk) with (T - (1 + (zlen pk + zlen rest')) + 1) by lia. }
    intros ? s4 HB4. cbv beta in HB4. unfold byte_at. cbn [nth].
    assert (exists bs2, rows (rowBytes p) (pwgBitsPerPixel p / 8) (height p - (dn + Z.min (byteZ c + 1) (height p - dn))) bs2 /\
      zlen bs2 <= T /\ bn (bs2 ++ rest) (T - zlen bs2) s0 s4) as HI.
    { exists rest'. split_and!; [|lia|done].
      by replace (height p - (dn + Z.min (byteZ c + 1) (height p - dn)))
        with (height p - dn - Z.min (byteZ c + 1) (height p - dn)) by lia. }
    pose proof (rows_step_bounds (height p) dn (byteZ c) ltac:(lia) ltac:(lia) Hc) as Hst.
    destruct (_ <? _); wp_step; rewrite <- Hst in HI; (split; [split; [lia|exact HI]|lia]).
  - split; [lia|]. exists bs. by rewrite Z.sub_0_r.
  - lia.
Qed.

(** *** Page headers *)

Context (Hmap : mapping = 1 \/ mapping = 2 \/ mapping = 3).
Context (Hmedia : mediaWidth policy <> 0 /\ mediaHeight policy <> 0).

Lemma validateDuplex_fine mode page st :
  ((sides policy = "one-sided" -> mode < 2) /\
   (sides policy = "two-sided-long-edge" -> 2 < mode) /\
   (sides policy = "two-sided-short-edge" -> mode = 2))%string ->
  fine (validateDuplex policy mode page) (fun _ st' => st' = st) st.
Proof.
  intros (H1 & H2 & H3). unfold validateDuplex.
  repeat match goal with |- wp (if (?a =? ?b)%string then _ else _) _ _ _ => destruct (String.eqb_spec a b) end.
  - specialize (H1 e). destruct (Z.leb_spec 2 mode); [lia|by wp_step].
  - specialize (H2 e). destruct (Z.leb_spec 2 mode); [|lia]. destruct (Z.eqb_spec mode 2); [lia|by wp_step].
  - specialize (H3 e). subst. by wp_step.
  - by wp_step.
Qed.

Lemma orientation_fine raw d page st : header_ok limits mapping policy raw d ->
  fine (orientation policy (rawPage raw) page) (fun _ st' => st' = st) st.
Proof.
  intros Hd. unfold orientation. destruct Hmedia as [M1 M2]. apply Z.eqb_neq in M1, M2. rewrite M1, M2. cbn [negb andb].
  destruct (ho_media _ _ _ _ _ Hd) as [[W Ht] E]. pose proof (ho_geometry _ _ _ _ _ Hd W Ht E) as Hg.
  cbn [rawPage resolution width height]. rewrite E.
  destruct (Z.eqb_spec (get32 12 raw) W), (Z.eqb_spec (get32 16 raw) Ht); cbn [andb]; try by wp_step.
  all: destruct (Z.eqb_spec (get32 12 raw) Ht), (Z.eqb_spec (get32 16 raw) W); cbn [andb]; try by wp_step.
  all: exfalso; destruct (landscape d); [destruct Hg|]; congruence.
Qed.

Lemma parsePage_fine raw d st : header_ok limits mapping policy raw d ->
  0 <= pageLogical st -> pageLogical st + rowBytes d * height d <= MaxDecodedBytes limits ->
  fine (parsePage limits mapping policy raw) (fun _ _ => True) st.
Proof.
  intros Hd Hl0 Hl. unfold parsePage. destruct (sourceMapping mapping) as [[sp bits] outsp] eqn:Hsm.
  assert (bits = 8 \/ bits = 24) as Hbits
    by (destruct Hmap as [-> |[-> | ->]]; injection Hsm as <- <- <-; auto).
  pose proof (ho_space _ _ _ _ _ Hd) as Hsp. rewrite Hsm in Hsp. injection Hsp as Hs1 Hs0.
  destruct (ho_size _ _ _ _ _ Hd) as [Hw Hh]. destruct (ho_resolution _ _ _ _ _ Hd) as [Hrx Hry].
  pose proof (ho_width _ _ _ _ _ Hd). pose proof (ho_height _ _ _ _ _ Hd). pose proof (ho_row _ _ _ _ _ Hd) as Hrow.
  assert (rowBytes d = get32 12 raw * (bits / 8) /\ height d = get32 16 raw) as [Hd1 Hd2].
  { rewrite (ho_desc _ _ _ _ _ Hd), Hs0. unfold describe. by rewrite Hsm. }
  rewrite Hd1, Hd2 in Hl. rewrite Hs0 in Hrow. destruct Hlim as [_ _ _ HW HH HR HD].
  pose proof (get32_range 12 raw). pose proof (get32_range 16 raw).
  assert (0 < bits / 8 <= 3) as Hbpp by (destruct Hbits as [-> | ->]; done).
  unfold next_page. wp_step. wp_step. cbn [rawPage width height colorSpace bitsPerPixel resolution].
  rewrite Hs1, Hs0, !Z.eqb_refl. cbn [negb orb].
  destruct (Z.eqb_spec (get32 12 raw) 0); [lia|]. destruct (Z.eqb_spec (get32 16 raw) 0); [lia|]. cbn [orb].
  destruct (ho_media _ _ _ _ _ Hd) as [wh E].
  destruct (Z.eqb_spec (get32 20 raw) 0) as [Hz|]; [exfalso; revert E; rewrite Hz; apply mediaPixels_0|].
  rewrite <- Hrx, <- Hry, Z.eqb_refl. cbn [negb orb].
  assert (((0 <? MaxWidth limits) && (MaxWidth limits <? get32 12 raw)) = false) as -> by lia.
  assert (((0 <? MaxHeight limits) && (MaxHeight limits <? get32 16 raw)) = false) as -> by lia.
  rewrite checkedMul_u32 by (unfold maxU32 in *; lia).
  set (rb := get32 12 raw * (bits / 8)) in *. assert (0 < rb) by (unfold rb; nia).
  destruct (Z.eqb_spec rb 0); [lia|].
  assert (((0 <? MaxRowBytes limits) && (MaxRowBytes limits <? rb)) = false) as -> by lia.
  destruct (Z.ltb_spec maxU32 rb); [lia|]. rewrite checkedMul_u32 by lia.
  wp_step. wp_step. assert (0 <= rb * get32 16 raw) by nia.
  assert (checkedAddWithin (pageLogical st) (rb * get32 16 raw) (MaxDecodedBytes limits) =
          Some (pageLogical st + rb * get32 16 raw)) as ->.
  { unfold checkedAddWithin. rewrite !u64_small by lia.
    destruct (Z.ltb_spec (maxU64 - pageLogical st) (rb * get32 16 raw)); [lia|].
    destruct (Z.ltb_spec (MaxDecodedBytes limits) (pageLogical st + rb * get32 16 raw)); [lia|].
    by rewrite andb_false_r. }
  apply wp_bind, wp_modify. wp_step. eapply wp_mono; [by eapply orientation_fine| |done]. intros land ? ->.
  wp_step. eapply wp_mono; [apply validateDuplex_fine, Hd| |done]. intros ? ? ->. by wp_step.
Qed.

Lemma bn_lease_step rest out s0 st st' : bn rest out s0 st ->
  lease_step st st' -> src_pendingErr st' = src_pendingErr st -> scratch st' = scratch st ->
  bn rest out st' st'.
Proof.
  intros [I C P O Sc _] (E1 & _ & E3 & E4 & _ & _) Ep Es. split; try congruence. done.
Qed.

Lemma acquire_fine c n rest out st (Q : option nat -> translator -> Prop) :
  observer env <> None -> bn rest out st st ->
  (forall l st', bn rest out st' st' -> pageCounts st' = pageCounts st -> slots st' = slots st -> Q l st') ->
  fine (acquire env c n) Q st.
Proof.
  intros Ho HB HQ. unfold acquire. destruct (observer env) as [f|]; [|done]. apply wp_liftS.
  intros l st' [= <- <-]. apply HQ; [|done|done]. eapply bn_lease_step; [exact HB|done..].
Qed.

Lemma bn_set_leases rest out st a b c : bn rest out st st ->
  bn rest out (set_leases a b c st) (set_leases a b c st).
Proof. intros []. by split. Qed.

Lemma bn_release rest out st l : bn rest out st st -> bn rest out (release_lease l st) (release_lease l st).
Proof. intros []. destruct l; by split. Qed.

Lemma appendCount_fine off rest out st : bn rest out st st ->
  fine (appendCount env off) (fun _ st' => bn rest out st' st') st.
Proof.
  intros HB. unfold appendCount. wp_step. wp_step. apply wp_bind, wp_modify. wp_step. wp_step.
  assert (forall l c, bn rest out (set_pageCounts l c st) (set_pageCounts l c st)) as HB1
    by (intros; by destruct HB; split).
  wp_step; [|by wp_step; apply HB1]. apply wp_bind, wp_modify.
  destruct (observer env) eqn:Ho; [|wp_step; by apply bn_set_leases, bn_release].
  wp_step. eapply acquire_fine; [by rewrite Ho|by apply bn_set_leases, bn_release, HB1|].
  intros l st' HB' _ _. apply wp_modify. by apply bn_set_leases.
Qed.

Lemma emitPageHeader_fine p rest out st : bn rest out st st ->
  zlen (pageCounts st) + 1 <= MaxPages limits -> 0 <= out -> out + 1796 <= MaxOutputBytes limits ->
  fine (emitPageHeader env limits policy p) (fun _ st' => bn rest (out + 1796) st' st') st.
Proof.
  intros HB Hp Ho Hmax. unfold emitPageHeader. wp_step. destruct Hlim as [_ _ [_ HM] _ _ _ _].
  pose proof (zlen_nonneg (pageCounts st)) as Hz.
  match goal with |- wp _ (fun l => wp (deferred _ ?body) _ _) _ _ => set (m := body) end.
  assert (forall s1, bn rest out s1 s1 -> pageCounts s1 = pageCounts st ->
            fine m (fun _ st' => bn rest (out + 1796) st' st') s1) as Hm.
  { intros s1 HB1 HC. unfold m, next_page. do 6 wp_step. cbv zeta. wp_step. wp_step. rewrite HC.
    rewrite u32_small by lia.
    assert (((0 <? MaxPages limits) && (MaxPages limits <? zlen (pageCounts st) + 1)) = false) as -> by lia.
    wp_step. eapply wp_mono; [eapply write_fine; [exact HB1|lia|rewrite zlen_pageHeader; lia]| |done].
    intros ? s2 HB2. cbv beta in HB2. rewrite zlen_pageHeader in HB2. apply appendCount_fine.
    by destruct HB2; split. }
  assert (forall l s1, bn rest out s1 s1 -> pageCounts s1 = pageCounts st ->
    fine (deferred (release_lease l) m) (fun _ st' => bn rest (out + 1796) st' st') s1) as Hd.
  { intros l s1 HB1 HC. apply wp_deferred. eapply wp_mono; [by apply Hm| |done].
    intros ? s2 HB2. by apply bn_release. }
  destruct (observer env) eqn:Ho'.
  - eapply acquire_fine; [by rewrite Ho'|exact HB|]. intros l st' HB' HC _. by apply Hd.
  - wp_step. by apply Hd.
Qed.

(** *** Pages *)

Lemma header_desc_ok raw d : header_ok limits mapping policy raw d -> desc_ok d.
Proof.
  intros Hd. destruct (sourceMapping mapping) as [[sp bits] outsp] eqn:Hsm.
  assert (bits = 8 \/ bits = 24) as Hbits
    by (destruct Hmap as [-> |[-> | ->]]; injection Hsm as <- <- <-; auto).
  pose proof (ho_space _ _ _ _ _ Hd) as Hsp. rewrite Hsm in Hsp. injection Hsp as _ Hs0.
  pose proof (ho_row _ _ _ _ _ Hd) as Hr. destruct (ho_size _ _ _ _ _ Hd) as [? ?].
  rewrite (ho_desc _ _ _ _ _ Hd). rewrite Hs0 in *. unfold describe, desc_ok. rewrite Hsm. simpl.
  pose proof (get32_range 16 raw). pose proof (get32_range 12 raw).
  assert (0 < bits / 8 <= 3) by (destruct Hbits as [-> | ->]; done).
  split_and!; [nia|lia|lia|lia|done].
Qed.

Lemma bn_refl rest out s0 st : bn rest out s0 st -> bn rest out st st.
Proof. intros []. by split. Qed.

Lemma one_page_fine p rest out st : page_ok limits mapping policy p ->
  bn (pg_body p ++ rest) out st st -> 0 <= out -> out + 1796 + zlen (pg_body p) <= MaxOutputBytes limits ->
  zlen (pageCounts st) + 1 <= MaxPages limits -> good limits [] st ->
  pageLogical st + page_logical p <= MaxDecodedBytes limits ->
  fine (d ← parsePage limits mapping policy (pg_raw p);
      emitPageHeader env limits policy d;;
      copyPageData env limits d;;
      modify (fun s => set_pages (u32 (pages s + 1)) s);;
      mret (inl tt))
    (fun r st' => r = @inl unit unit tt /\ bn rest (out + 1796 + zlen (pg_body p)) st' st') st.
Proof.
  intros [Hh Hrows] HB Ho Hmax Hc HG Hl. pose proof (gd_logical _ _ _ HG). pose proof (zlen_nonneg (pg_body p)).
  wp_step. eapply wp_mono; [apply wp_conj; [eapply parsePage_fine; [exact Hh|lia|exact Hl]|]| |].
  { eapply parsePage_spec; [exact Hlim|exact Hmap|exact Hmedia|exact HG|exact (ho_length _ _ _ _ _ Hh)]. }
  2: { by intros e s' [? _]. }
  intros d s1 (_ & Hd & Hdok & Hmax1 & ->). pose proof (header_unique _ _ _ _ _ _ Hd Hh) as ->.
  wp_step. eapply wp_mono; [eapply emitPageHeader_fine with (rest := pg_body p ++ rest) (out := out)| |done].
  { by destruct HB; split. } { done. } { done. } { lia. }
  intros ? s2 HB2. cbv beta in HB2. wp_step.
  eapply wp_mono; [eapply copyPageData_fine with (T := out + 1796 + zlen (pg_body p)); [exact Hdok|exact Hrows|lia|lia|]| |done].
  { replace (out + 1796 + zlen (pg_body p) - zlen (pg_body p)) with (out + 1796) by lia. exact HB2. }
  intros ? s3 HB3. cbv beta in HB3. apply wp_bind, wp_modify. wp_step. split; [done|].
  by destruct HB3; split.
Qed.

Lemma zlen_raw_pages_nonneg i ps : 0 <= zlen (raw_pages policy i ps).
Proof. apply zlen_nonneg. Qed.

(** The run of [translatePages] after the pages [ps1], with [ps2] to come. *)
Definition run_inv (hd : list byte) (ps : list page) (suffix : list byte) (st : translator) : Prop :=
  exists ps1 ps2, ps = ps1 ++ ps2 /\ doc limits mapping policy [] hd ps1 st /\
    bn (concat (map source_page ps2) ++ suffix) (zlen (zeros 4 ++ raw_pages policy 0 ps1)) st st.

Lemma raw_pages_app i ps1 ps2 :
  raw_pages policy i (ps1 ++ ps2) = raw_pages policy i ps1 ++ raw_pages policy (i + zlen ps1) ps2.
Proof.
  revert i. induction ps1 as [|p r IH]; intros i; simpl; [by rewrite zlen_nil, Z.add_0_r|].
  rewrite IH, zlen_cons, <- !app_assoc. by replace (i + 1 + zlen r) with (i + (1 + zlen r)) by lia.
Qed.

Lemma logical_app ps1 ps2 : logical (ps1 ++ ps2) = logical ps1 + logical ps2.
Proof. unfold logical. rewrite map_app, foldr_app. induction ps1; simpl; lia. Qed.

Lemma count_offsets_length off ps : zlen (count_offsets off ps) = zlen ps.
Proof. revert off. induction ps; intros off; [done|]. simpl. by rewrite !zlen_cons, IHps. Qed.

Lemma logical_nonneg ps : Forall (page_ok limits mapping policy) ps -> 0 <= logical ps.
Proof.
  induction 1 as [|p r [Hp _] _ IH]; [done|]. unfold logical in *. simpl.
  destruct (header_desc_ok _ _ Hp) as ([? _] & [? _] & _).
  assert (0 <= page_logical p) by (apply Z.mul_nonneg_nonneg; lia). lia.
Qed.

Lemma translatePages_fine hd ps suffix st :
  Forall (page_ok limits mapping policy) ps -> zlen suffix < 32 ->
  zlen (zeros 4 ++ raw_pages policy 0 ps) <= MaxOutputBytes limits ->
  zlen ps <= MaxPages limits -> logical ps <= MaxDecodedBytes limits ->
  run_inv hd ps suffix st -> pages st = 0 ->
  fine (translatePages env limits mapping policy) (fun _ st' => bn [] (outputBytes st') st' st') st.
Proof.
  intros Hok Hsuf Hout Hpages Hlog HI H0. unfold translatePages.
  eapply (wp_while (fun _ => run_inv hd ps suffix) (fun _ st => MaxPages limits - pages st)).
  - intros _ s1 (ps1 & ps2 & _ & HD & _). pose proof (gd_pages _ _ _ (dc_good _ _ _ _ _ _ _ HD)). lia.
  - intros _ s1 (ps1 & ps2 & Hps & HD & HB). unfold next_page. wp_step. wp_step. wp_step.
    eapply wp_mono; [apply wp_conj; [by apply check_fine|apply check_spec with (X := []) (limits := limits); apply HD]| |by intros ? ? []].
    intros ? s2 [HB2 HA2]. cbv beta in HA2.
    wp_step. eapply wp_mono; [apply wp_conj; [eapply readHeader_fine; [apply zeros_length|exact HB2]|
      eapply readHeader_spec with (X := []) (limits := limits); [exact Hlim|by eexists|apply zeros_length|apply HA2]]| |by intros ? ? []].
    intros [n raw] s3 [(Hn & Hl & Htk & HB3) (_ & _ & _ & HF)].
    destruct ps2 as [|p ps2].
    { cbn [map concat] in *. rewrite app_nil_l in *. pose proof (zlen_nonneg suffix).
      assert (bn [] (outputBytes s3) s3 s3) as HE.
      { replace (drop (Z.to_nat n) suffix) with (@nil byte) in HB3
          by (symmetry; apply drop_ge; unfold zlen in *; lia). by destruct HB3; split. }
      wp_step; [by wp_step|]. wp_step; [by wp_step|]. bool_to_prop. unfold urfPageHeaderSize in *. lia. }
    rewrite Hps in Hok. apply Forall_app in Hok as [Hok1 Hok2]. apply Forall_cons in Hok2 as [Hp Hok2].
    pose proof (po_header _ _ _ _ Hp) as Hph. pose proof (ho_length _ _ _ _ _ Hph) as Hpl.
    unfold urfPageHeaderSize in Hpl.
    cbn [map concat] in HB3, Htk, Hn. unfold source_page at 1 in HB3. unfold source_page at 1 in Htk.
    unfold source_page at 1 in Hn. rewrite <- !app_assoc in HB3, Htk, Hn.
    assert (n = 32) as -> by (rewrite Hn, zlen_app; unfold zlen; rewrite Hpl; lia).
    change (Z.to_nat 32) with 32%nat in *. rewrite <- Hpl in Htk at 2. rewrite <- Hpl in HB3.
    rewrite take_app_length, take_ge in Htk by lia. subst raw. rewrite drop_app_length in HB3.
    change (32 =? 0) with false. change (32 <? Z.of_nat urfPageHeaderSize) with false. cbv iota.
    wp_step. wp_step.
    assert (adv limits [] (pg_raw p) [] s1 s3) as HA3.
    { rewrite <- (app_nil_l (pg_raw p)). rewrite <- (app_nil_l (@nil byte)).
      eapply adv_trans; [exact HA2|]. by apply HF. }
    pose proof HA3 as [G3 I3 C3 B3 O3 (F1 & F2 & F3 & F4 & F5) _].
    pose proof (dc_pages _ _ _ _ _ _ _ HD) as Hpg. pose proof (dc_counts _ _ _ _ _ _ _ HD) as Hcn.
    pose proof (dc_logical _ _ _ _ _ _ _ HD) as Hlg. rewrite Hps in Hpages, Hlog, Hout.
    rewrite zlen_app, zlen_cons in Hpages. pose proof (zlen_nonneg ps2).
    rewrite logical_app in Hlog. change (logical (p :: ps2)) with (page_logical p + logical ps2) in Hlog.
    pose proof (logical_nonneg ps2 Hok2).
    rewrite raw_pages_app in Hout. cbn [raw_pages] in Hout. rewrite !zlen_app, zlen_pageHeader in Hout.
    pose proof (zlen_nonneg (raw_pages policy (0 + zlen ps1 + 1) ps2)).
    assert (((0 <? MaxPages limits) && (MaxPages limits <=? pages s3)) = false) as -> by (rewrite F1, Hpg; lia).
    eapply wp_mono; [apply wp_conj|..].
    + eapply one_page_fine with (rest := concat (map source_page ps2) ++ suffix); [exact Hp|by eapply bn_refl|..].
      * apply zlen_nonneg.
      * rewrite zlen_app. lia.
      * rewrite F2, Hcn, count_offsets_length. lia.
      * exact G3.
      * rewrite F4, Hlg. lia.
    + eapply one_page_spec with (X := []) (hd := hd) (ps := ps1); [exact Hlim|by eexists|by eexists|exact Hmap|exact Hmedia|exact HD|exact HA3|exact Hpl|].
      rewrite F1, Hpg. lia.
    + intros r s4 [[-> HB4] [p' HD']]. cbv beta iota in HD'.
      assert (p' = p) as ->.
      { pose proof (bn_in _ _ _ _ HB4) as I4. rewrite (dc_in _ _ _ _ _ _ _ HD') in I4.
        pose proof (bn_in _ _ _ _ HB) as I1. rewrite (dc_in _ _ _ _ _ _ _ HD), <- I4 in I1.
        rewrite map_app, concat_app in I1. cbn [map concat] in I1. rewrite app_nil_r, <- !app_assoc in I1.
        apply app_inv_head in I1. apply app_inv_head in I1. symmetry in I1.
        eapply source_page_unique; [|exact Hp|exact I1].
        pose proof (dc_ok _ _ _ _ _ _ _ HD') as K. apply Forall_app in K as [_ K]. by apply Forall_cons in K as [K _]. }
      split.
      * exists (ps1 ++ [p]), ps2. split; [by rewrite Hps, <- app_assoc|]. split; [exact HD'|].
        rewrite raw_pages_app. cbn [raw_pages]. rewrite app_nil_r, !zlen_app, zlen_pageHeader.
        rewrite zlen_app in HB4.
        by replace (zlen (zeros 4) + (zlen (raw_pages policy 0 ps1) + (1796 + zlen (pg_body p))))
          with (zlen (zeros 4) + zlen (raw_pages policy 0 ps1) + 1796 + zlen (pg_body p)) by lia.
      * rewrite (dc_pages _ _ _ _ _ _ _ HD'), Hpg, zlen_app, zlen_cons, zlen_nil. lia.
    + by intros e s4 [? _].
  - done.
  - rewrite H0. destruct Hlim as [_ _ [? _] _ _ _ _]. lia.
Qed.

(** *** The end of the document *)

Lemma check_ok op page row st : fine (check env op page row) (fun _ _ => True) st.
Proof.
  unfold check, checkContext, ctxErr. wp_step. wp_step. wp_step. apply wp_liftS.
  intros e s' [= <- <-]. by wp_step.
Qed.

Lemma seekWrite_ok off buf op st : 0 <= off -> fine (seekWrite env off buf op) (fun _ _ => True) st.
Proof.
  intros Ho. unfold seekWrite. wp_step. wp_step. wp_step. eapply wp_mono; [apply check_ok| |done].
  intros ? s1 _. destruct (Z.ltb_spec off 0); [lia|]. wp_step. unfold dstSeek. simpl dst. cbv iota.
  apply wp_liftS. intros [pos err] s2. simpl dst_Seek. intros [= <- <- <-]. cbv beta iota.
  rewrite Z.eqb_refl. cbn [negb].
  eapply (wp_while (fun _ _ => True) (fun rest _ => zlen rest)).
  - intros. apply zlen_nonneg.
  - intros rest s3 _. wp_step; [|by wp_step]. bool_to_prop. wp_step.
    eapply wp_mono; [apply check_ok| |done]. intros ? s4 _. wp_step.
    unfold dstWrite. simpl dst. cbv beta iota. apply wp_liftS. intros [n err] s5. simpl dst_Write.
    intros [= <- <- <-]. cbv beta iota. set (n := Z.min _ _) in *.
    assert (0 < n <= zlen rest) as Hn by (unfold n; lia).
    assert (((n <? 0) || (zlen rest <? n)) = false) as -> by lia.
    apply wp_bind, wp_modify. destruct (Z.eqb_spec n 0); [lia|]. wp_step. split; [done|].
    unfold zlen in *. rewrite length_drop. lia.
  - done.
  - unfold zlen. lia.
Qed.

Lemma patch_counts_ok (cs : list Z) buf op : Forall (Z.le 0) cs -> forall st,
  fine (forM cs (fun off => seekWrite env off buf op)) (fun _ _ => True) st.
Proof.
  induction 1 as [|c r Hc _ IH]; intros st; cbn [forM]; [by wp_step|].
  wp_step. eapply wp_mono; [by apply seekWrite_ok| |done]. intros ? s1 _. apply IH.
Qed.

Lemma count_offsets_nonneg off ps : 0 <= off -> Forall (Z.le 0) (count_offsets off ps).
Proof.
  revert off. induction ps as [|p r IH]; intros off Ho; constructor; [lia|].
  apply IH. pose proof (zlen_nonneg (pg_body p)). lia.
Qed.

Lemma finalize_fine hd ps suffix st : doc_end limits mapping policy [] hd ps suffix st ->
  fine (finalize env limits) (fun _ _ => True) st.
Proof.
  intros [G I C S' [O Ob] P N L K]. unfold finalize. wp_step. wp_step. wp_step.
  assert (is_Some (dst env)) as Hdst by (by eexists). pose proof Hlim as [_ _ [_ HPg] _ _ _ _].
  assert (patched limits [] (zeros 4 ++ raw_pages policy 0 ps) st st) as HP by (split; try done; by rewrite O).
  eapply wp_mono; [apply wp_conj; [apply check_ok|by apply check_patched]| |by intros ? ? []].
  intros ? s1 [_ [HP1 _]]. pose proof (gd_pages _ _ _ G).
  destruct (Z.ltb_spec maxU32 (pages st)); [lia|]. wp_step. wp_step. wp_step.
  rewrite (pt_counts _ _ _ _ _ HP1), N. change 4 with (zlen (zeros 4)) at 1.
  eapply wp_mono; [apply wp_conj; [by apply patch_counts_ok, count_offsets_nonneg|
    exact (patch_counts_spec env limits policy Hdst [] (pages st) ps 0 (zeros 4) st s1 HP1)]| |by intros ? ? []].
  intros ? s2 [_ HP2]. cbv beta in HP2. wp_step.
  eapply wp_mono; [apply wp_conj; [by apply seekWrite_ok|eapply seekWrite_spec; [exact Hdst| | |exact HP2]]| |by intros ? ? []].
  { lia. }
  { rewrite zlen_app. change (zlen (zeros 4)) with 4. change (zlen (be32 pwgSync)) with 4.
    pose proof (zlen_nonneg (output_pages policy (pages st) 0 ps)). lia. }
  intros ? s3 [_ HP3]. cbv beta in HP3. wp_step.
  eapply wp_mono; [apply wp_conj; [apply check_ok|by apply check_patched]| |by intros ? ? []].
  intros ? s4 [_ [HP4 _]]. wp_step. unfold dstSeek at 1. simpl dst. cbv iota. apply wp_liftS.
  intros [e err] s5. simpl dst_Seek. intros [= <- <- <-]. cbv beta iota. wp_step. wp_step.
  simpl outputBytes. rewrite (pt_file _ _ _ _ _ HP4), (pt_bytes _ _ _ _ _ HP4).
  assert (zlen (splice (Z.to_nat 0) (be32 pwgSync) (zeros 4 ++ output_pages policy (pages st) 0 ps)) + 0 =
          outputBytes st) as ->.
  { rewrite Ob. unfold zlen at 1. rewrite splice_length by (rewrite length_app; simpl; lia).
    pose proof (zlen_output_pages policy (pages st) 0 ps) as Hz. rewrite zlen_app. unfold zlen in *.
    rewrite length_app. lia. }
  rewrite Z.eqb_refl. cbn [negb]. pose proof (gd_out _ _ _ G).
  assert (((0 <? MaxOutputBytes limits) && (MaxOutputBytes limits <? outputBytes st)) = false) as -> by lia.
  wp_step. eapply wp_mono; [apply check_ok| |done]. intros ? s6 _.
  wp_step. unfold dstSeek. simpl dst. cbv iota. apply wp_liftS. intros [e err] s7. simpl dst_Seek.
  intros [= <- <- <-]. cbv beta iota. change (negb (0 =? 0)) with false. cbv iota.
  wp_step. eapply wp_mono; [apply check_ok| |done]. intros ? s8 _. by wp_step.
Qed.

(** *** The whole run *)

Lemma initial_seek_fine whence op text rest out st :
  whence = SeekStart \/ whence = SeekEnd -> fst (file (hist st)) = [] -> bn rest out st st ->
  fine (initial_seek env whence op text) (fun _ st' => fst (file (hist st')) = [] /\ bn rest out st' st' /\
    pages st' = pages st /\ pageCounts st' = pageCounts st) st.
Proof.
  intros Hw Hf HB. unfold initial_seek, dstSeek. simpl dst. cbv iota. wp_step. apply wp_liftS.
  intros [pos err] s1. simpl dst_Seek. rewrite Hf.
  assert ((if whence =? SeekEnd then zlen (@nil byte) + 0 else 0) = 0) as -> by (by destruct Hw as [-> | ->]).
  intros [= <- <- <-]. cbv beta iota. change (negb (0 =? 0)) with false. cbv iota. wp_step.
  split; [done|]. split; [|done]. by destruct HB; split.
Qed.

Lemma translateBody_fine hd ps suffix s :
  input = source_document hd ps suffix -> file_header_ok hd -> ps <> [] ->
  Forall (page_ok limits mapping policy) ps -> zlen suffix < 32 ->
  zlen (output_document policy ps) <= MaxOutputBytes limits ->
  zlen ps <= MaxPages limits -> logical ps <= MaxDecodedBytes limits ->
  start limits [] s -> slots s = [] -> outputSize s = 0 -> bn input 0 s s ->
  fine (translateBody env limits mapping policy) (fun r st =>
    exists st', finished limits mapping policy [] hd ps suffix st' /\ st = releaseResources st' /\
    r = {| InputBytes := src_count st'; OutputBytes := outputSize st'; Pages := pages st' |}) s.
Proof.
  intros Hinput [Hhl Hhd] Hne Hok Hsuf Hout Hpages Hlog HS Hsl _ HB. unfold translateBody. apply wp_deferred.
  assert (is_Some (src env)) as Hsrc by (by eexists). assert (is_Some (dst env)) as Hdst by (by eexists).
  assert (zlen (zeros 4 ++ raw_pages policy 0 ps) <= MaxOutputBytes limits) as Hout'.
  { unfold output_document in Hout. rewrite zlen_app, zlen_output_pages in Hout. by rewrite zlen_app. }
  pose proof Hlim as [_ [HmO _] _ _ _ _ _].
  wp_step. eapply (wp_mono _ (fun _ st => start limits [] st /\ bn input 0 st st) _ (fun _ _ => False)); [| |done].
  { destruct (observer env) eqn:Ho; [|by wp_step].
    wp_step. eapply wp_mono; [apply wp_conj|..].
    - eapply acquire_fine with (Q := fun _ st => bn input 0 st st); [by rewrite Ho|exact HB|done].
    - eapply acquire_start with (Q := fun l st => good limits (option_list l ++ []) st /\ lease_step s st /\
        slots st = slots s /\ pageCounts st = pageCounts s) (R := fun _ _ => False) (limits := limits);
        [by rewrite Ho|exact HS|done].
    - intros sl s1 [HB1 (HG1 & HL1 & Hs1 & HC1)]. apply wp_bind, wp_modify.
      assert (start limits [] (set_leases None sl None s1)) as HS2.
      { eapply start_lease_step; [exact HS| |exact HL1|exact HC1].
        eapply good_live; [exact HG1|done..|]. destruct (gd_live _ _ _ HG1) as (ls & Hls & Hp).
        exists ls. split; [exact Hls|]. rewrite Hp, Hs1, Hsl. unfold slots. simpl. done. }
      wp_step. eapply wp_mono; [apply wp_conj|..].
      + eapply acquire_fine with (Q := fun _ st => bn input 0 st st); [by rewrite Ho|by apply bn_set_leases|done].
      + eapply acquire_start with (Q := fun l st => good limits (option_list l ++ []) st /\
          lease_step (set_leases None sl None s1) st /\ slots st = slots (set_leases None sl None s1) /\
          pageCounts st = pageCounts (set_leases None sl None s1)) (R := fun _ _ => False) (limits := limits);
          [by rewrite Ho|exact HS2|done].
      + intros ol s3 [HB3 (HG3 & HL3 & Hs3 & HC3)]. apply wp_modify. split; [|by apply bn_set_leases].
        eapply start_lease_step; [exact HS2| |exact HL3|exact HC3].
        eapply good_live; [exact HG3|done..|]. destruct (gd_live _ _ _ HG3) as (ls & Hls & Hp).
        exists ls. split; [exact Hls|]. rewrite Hp, Hs3. unfold slots. simpl.
        rewrite !app_nil_r. by rewrite Permutation_app_comm.
      + by intros ? ? [].
    - by intros ? ? []. }
  intros ? s0 [HS0 HB0].
  assert (forall whence op text s1, whence = SeekStart \/ whence = SeekEnd ->
    start limits [] s1 -> bn input 0 s1 s1 ->
    fine (initial_seek env whence op text) (fun _ st => start limits [] st /\ bn input 0 st st) s1) as Hseek.
  { intros whence op text s1 Hw HS1 HB1. destruct (sr_out _ _ _ HS1) as [Hf _].
    eapply wp_mono; [apply wp_conj; [eapply initial_seek_fine; [exact Hw|by rewrite Hf|exact HB1]|
      by apply initial_seek_spec with (limits := limits)]| |by intros ? ? []].
    by intros ? s2 [(_ & ? & _) ?]. }
  wp_step. eapply wp_mono; [apply Hseek; by auto| |done]. intros ? s1 [HS1 HB1].
  wp_step. eapply wp_mono; [apply Hseek; by auto| |done]. intros ? s2 [HS2 HB2].
  wp_step. eapply wp_mono; [apply Hseek; by auto| |done]. intros ? s3 [HS3 HB3].
  pose proof (zlen_raw_pages_nonneg 0 ps). rewrite zlen_app in Hout'. change (zlen (zeros 4)) with 4 in Hout'.
  wp_step. eapply wp_mono; [apply wp_conj; [eapply write_fine; [exact HB3|lia|change (zlen (zeros 4)) with 4; lia]|
    eapply write_spec with (X := []); [exact Hlim|exact Hdst|done|apply HS3]]| |by intros ? ? []].
  intros ? s4 [HB4 HA4]. cbv beta in HA4. change (0 + zlen (zeros 4)) with 4 in HB4.
  unfold readFileHeader. wp_step. wp_step. rewrite Hinput in HB4. unfold source_document in HB4.
  eapply wp_mono; [apply wp_conj; [eapply readFull_fine; [exact HB4|by rewrite Hhl]|
    eapply readFull_spec with (X := []); [exact Hlim|exact Hsrc|apply HA4]]| |by intros ? ? []].
  intros h s5 [[-> HB5] [_ HA5]]. cbv beta zeta.
  assert ((negb (string_of_list_byte (take 4 hd) =? urfHeaderPrefix)%string &&
           negb (string_of_list_byte (take 4 hd) =? urfHeaderReversed)%string) = false) as ->.
  { destruct Hhd as [-> | ->]; done. }
  wp_step.
  assert (doc limits mapping policy [] hd [] s5) as HD.
  { destruct HS3 as [G I C O P N L], HA4 as [G4 I4 C4 B4 O4 (F1 & F2 & F3 & F4 & F5) _].
    destruct HA5 as [G5 I5 C5 B5 O5 (H1 & H2 & H3 & H4 & H5) _].
    split; simpl; try congruence; try done.
    - by rewrite I5, I4, I, !app_nil_r.
    - rewrite C5, C4, C, app_nil_r. change (zlen (@nil byte)) with 0. lia.
    - exact (O5 _ (O4 _ O)).
    - change (zlen (@nil page)) with 0. congruence.
    - change (logical []) with 0. congruence. }
  wp_step. eapply wp_mono; [apply wp_conj; [eapply translatePages_fine with (hd := hd) (ps := ps)|
    by eapply translatePages_spec with (X := [])]| |by intros ? ? []].
  { exact Hok. } { exact Hsuf. } { by rewrite zlen_app. } { exact Hpages. } { exact Hlog. }
  { exists [], ps. split; [done|]. split; [exact HD|]. change (zlen (zeros 4 ++ raw_pages policy 0 [])) with 4.
    by eapply bn_refl. }
  { by rewrite (dc_pages _ _ _ _ _ _ _ HD). }
  intros ? s6 [HB6 (ps' & suffix' & HE)].
  assert (ps' = ps /\ suffix' = suffix) as [-> ->].
  { pose proof (de_in _ _ _ _ _ _ _ _ HE) as [k Hk]. pose proof (bn_in _ _ _ _ HB6) as I6.
    pose proof (bn_count _ _ _ _ HB6) as C6. rewrite (de_count _ _ _ _ _ _ _ _ HE) in C6.
    assert (k = []) as ->.
    { rewrite Hk, zlen_app in C6. destruct k; [done|]. rewrite zlen_cons in C6. pose proof (zlen_nonneg k). lia. }
    rewrite app_nil_r in Hk, I6. rewrite I6, Hinput in Hk. unfold source_document in Hk.
    apply app_inv_head in Hk. symmetry in Hk.
    eapply pages_unique; [exact (de_ok _ _ _ _ _ _ _ _ HE)|exact Hok| |exact Hsuf|exact Hk].
    exact (de_suffix _ _ _ _ _ _ _ _ HE). }
  wp_step. wp_step. rewrite (de_pages _ _ _ _ _ _ _ _ HE).
  destruct (Z.eqb_spec (zlen ps) 0) as [Hz|]; [destruct ps; [done|]; rewrite zlen_cons in Hz; pose proof (zlen_nonneg ps); lia|].
  wp_step. eapply wp_mono; [apply wp_conj; [by eapply finalize_fine|
    eapply finalize_spec with (X := []); [exact Hdst|exact HE]]| |by intros ? ? []].
  intros ? s7 [_ HF]. wp_step. by exists s7.
Qed.
End benign.

(** ** The whole translation, in memory *)

Lemma release_lease_file l s :
  file (hist (release_lease l s)) = file (hist s) /\ consumed (hist (release_lease l s)) = consumed (hist s).
Proof. by destruct l. Qed.

Lemma releaseResources_hist s :
  file (hist (releaseResources s)) = file (hist s) /\
  consumed (hist (releaseResources s)) = consumed (hist s).
Proof.
  unfold releaseResources. cbv zeta. cbn [set_leases hist].
  repeat match goal with |- context [release_lease ?l ?s0] =>
    rewrite ?(proj1 (release_lease_file l s0)), ?(proj2 (release_lease_file l s0)); cbn [set_leases hist] end.
  done.
Qed.

Lemma Translate_fine opts policy hd ps suffix chunk obs :
  let limits := effectiveLimits (oLimits opts) in
  limits_range (oLimits opts) -> validateLimits (oLimits opts) = Ok tt ->
  validatePageSettings (oPage opts) = Ok policy -> validateMapping (oMapping opts) = Ok tt ->
  file_header_ok hd -> ps <> [] -> Forall (page_ok limits (oMapping opts) policy) ps ->
  zlen suffix < Z.of_nat urfPageHeaderSize ->
  zlen (source_document hd ps suffix) <= MaxInputBytes limits ->
  zlen (output_document policy ps) <= MaxOutputBytes limits ->
  zlen ps <= MaxPages limits -> logical ps <= MaxDecodedBytes limits ->
  wp (Translate (memory_env (source_document hd ps suffix) chunk obs) opts)
    (fun r st => file (hist st) = (output_document policy ps, 0) /\
       r = {| InputBytes := zlen (source_document hd ps suffix);
              OutputBytes := zlen (output_document policy ps); Pages := zlen ps |})
    (fun _ _ => False) new_translator.
Proof.
  intros limits Hr Hl Hp Hm Hhd Hne Hok Hs Hin Hout Hpg Hlog.
  pose proof (effectiveLimits_ok _ Hr Hl) as Hlim.
  unfold Translate, checkContext, ctxErr. wp_step. wp_step. apply wp_liftS. intros err s [= <- <-].
  simpl src. simpl dst. simpl ctx_Err. cbv iota. wp_step. rewrite Hl, Hp, Hm. unfold liftE.
  wp_step. wp_step. wp_step. wp_step. wp_step. wp_step.
  eapply wp_mono; [eapply translateBody_fine; [exact Hlim|exact Hin|by apply validateMapping_ok|by eapply validatePageSettings_media|
    reflexivity|exact Hhd|exact Hne|exact Hok|exact Hs|exact Hout|exact Hpg|exact Hlog| |done|done|]| |done].
  - split; try done. by apply good_start.
  - by split.
  - intros r st (st' & [_ _ FC _ FF FS FB FP _ _] & -> & ->). rewrite (proj1 (releaseResources_hist _)).
    split; [done|]. by rewrite FC, FS, FP.
Qed.
