(* ===== verification/UrfTheorems.v ===== *)
(** * URF to PWG Raster translation: the theorems

    What [Translate] promises: it always returns, with a typed error or a
    result; within the resource limits on every path; releasing every lease;
    what it accepts is a document of the grammar, translated page by page
    with the packets copied verbatim; and it accepts every such document
    that is within the limits. *)

From Stdlib Require Import ZArith Lia Ascii String Strings.Byte.
From stdpp Require Import base tactics list strings.
From S2P Require Import Prelude GoString GoError Urf UrfSpec UrfProofs UrfComplete.

(** ** Fields of the page header *)

Lemma get32_put32_same off v h : (off + 4 <= length h)%nat -> get32 off (put32 off v h) = u32 v.
Proof.
  intros. unfold get32, put32, splice. rewrite drop_app_ge by (rewrite length_take; lia).
  rewrite length_take, Nat.min_l, Nat.sub_diag, drop_0 by lia.
  rewrite take_app_le by (rewrite be32_length; lia). by rewrite <- Uint32_be32.
Qed.

Lemma get32_put32_other off off' v h :
  (off' + 4 <= length h)%nat -> (off + 4 <= off' \/ off' + 4 <= off)%nat ->
  get32 off (put32 off' v h) = get32 off h.
Proof.
  intros Hl Ho. unfold get32, put32, splice. f_equal. rewrite be32_length. destruct Ho as [Ho|Ho].
  - rewrite drop_app_le by (rewrite length_take; lia). rewrite skipn_firstn_comm.
    rewrite take_app_le by (rewrite length_take, length_drop; lia). rewrite take_take. f_equal. lia.
  - rewrite !drop_app_ge by (rewrite ?length_app, ?length_take, ?be32_length; lia).
    rewrite length_take, be32_length, drop_drop. do 2 f_equal. lia.
Qed.

Lemma get32_setSheetBack policy b off h : header_sized h ->
  (off + 4 <= 456 \/ 464 <= off)%nat -> get32 off (setSheetBack policy b h) = get32 off h.
Proof.
  intros Hh Ho.
  assert (forall o v g, (o = 456 \/ o = 460)%nat -> header_sized g ->
    header_sized (put32 o v g) /\ get32 off (put32 o v g) = get32 off g) as Hone.
  { intros o v g Hoo Hg. split; [apply put32_sized; [lia|done]|].
    unfold header_sized, pwgPageHeaderSize in Hg. apply get32_put32_other; lia. }
  assert (forall v v', get32 off (put32 460 v (put32 456 v' h)) = get32 off h) as Htwo.
  { intros. destruct (Hone 456%nat v' h) as [Hs E]; [auto|done|].
    destruct (Hone 460%nat v (put32 456 v' h)) as [_ E']; [auto|done|]. congruence. }
  unfold setSheetBack. destruct b; [|reflexivity]. cbn [negb].
  destruct (sheetBack policy =? "flipped")%string; 
    [destruct (sides policy =? _)%string;
      [exact (proj2 (Hone 456%nat _ h (or_introl eq_refl) Hh))|exact (proj2 (Hone 460%nat _ h (or_intror eq_refl) Hh))]|].
  destruct (sheetBack policy =? "manual-tumble")%string; [destruct (sides policy =? _)%string; [apply Htwo|reflexivity]|].
  destruct (sheetBack policy =? "rotated")%string; [|reflexivity].
  destruct (sides policy =? _)%string; cbn [negb]; [reflexivity|apply Htwo].
Qed.

(** A sequence of [put32], the first one first. *)
Definition puts (l : list (nat * Z)) (h : list byte) : list byte :=
  fold_left (fun h '(off, v) => put32 off v h) l h.

(** The last value written at [off]. *)
Fixpoint last_put (off : nat) (l : list (nat * Z)) (d : Z) : Z :=
  match l with
  | [] => d
  | (o, v) :: r => last_put off r (if (o =? off)%nat then u32 v else d)
  end.

Definition puts_ok (off : nat) (l : list (nat * Z)) : bool :=
  forallb (fun o => (o <=? 1792) && ((o =? off) || (o + 4 <=? off) || (off + 4 <=? o)))%nat (map fst l).

Lemma get32_puts off l : forall h d, puts_ok off l = true -> header_sized h -> get32 off h = d ->
  header_sized (puts l h) /\ get32 off (puts l h) = last_put off l d.
Proof.
  induction l as [|[o v] r IH]; intros h d Hok Hh Hd; [done|]. cbn [puts fold_left last_put].
  unfold puts_ok in Hok. cbn [map fst forallb] in Hok. apply andb_true_iff in Hok as [Ho Hok].
  apply andb_true_iff in Ho as [Hmax Ho]. apply Nat.leb_le in Hmax.
  rewrite !orb_true_iff, !Nat.leb_le, Nat.eqb_eq in Ho.
  assert (header_sized h) as Hh' by done. unfold header_sized, pwgPageHeaderSize in Hh'.
  apply (IH (put32 o v h)); [exact Hok|apply put32_sized; [lia|done]|].
  destruct (Nat.eqb_spec o off) as [-> |].
  - apply get32_put32_same. lia.
  - rewrite get32_put32_other by lia. done.
Qed.

(** The buffer of a page header as its writes. *)
Definition header_base (policy : pagePolicy) : list byte :=
  copyString 1732 64 (mediaName policy) (copyString 128 64 (mediaType policy)
    (copyString 0 64 "PwgRaster" (zeros pwgPageHeaderSize))).
Definition float_put (v : SpecFloat.spec_float) : Z :=
  Float32bits (if is_nan_or_inf v then SpecFloat.S754_zero false else v).
Definition header_pre (policy : pagePolicy) (p : pageDescription) : list (nat * Z) :=
  let w := fst (pageSize policy p) in
  let ht := snd (pageSize policy p) in
  [(272%nat, bool32 (negb (sides policy =? "one-sided")%string)); (276%nat, resX policy);
    (280%nat, resY policy); (284%nat, 0); (288%nat, 0); (292%nat, points w); (296%nat, points ht);
    (324%nat, mediaSource policy); (352%nat, points w); (356%nat, points ht);
    (368%nat, bool32 (sides policy =? "two-sided-short-edge")%string); (372%nat, width p);
    (376%nat, height p); (384%nat, pwgBitsPerColor p); (388%nat, pwgBitsPerPixel p);
    (392%nat, u32 (rowBytes p)); (396%nat, 0); (400%nat, pwgColorSpace p); (420%nat, pwgNumColors p);
    (428%nat, float_put (pointsFloat w)); (432%nat, float_put (pointsFloat ht));
    (436%nat, float_put fzero); (440%nat, float_put fzero); (444%nat, float_put fzero);
    (448%nat, float_put fzero); (452%nat, 0); (456%nat, 1); (460%nat, 1)].
Definition header_post (policy : pagePolicy) (p : pageDescription) (n : Z) : list (nat * Z) :=
  [(464%nat, 0); (468%nat, 0); (472%nat, width p); (476%nat, height p);
    (480%nat, 0xffffff); (484%nat, quality policy); (452%nat, n)].

Lemma pageHeader_puts policy p n i :
  put32 452 n (pageHeader policy p i) =
  puts (header_post policy p n) (setSheetBack policy (negb (sides policy =? "one-sided")%string && (i mod 2 =? 1))
    (puts (header_pre policy p) (header_base policy))).
Proof.
  unfold pageHeader. rewrite (surjective_pairing (pageSize policy p)). cbn [fst snd].
  cbv beta iota zeta delta [putFloat32 puts fold_left header_pre header_post header_base float_put fst snd].
  reflexivity.
Qed.

(** The PWG page header of page [i] of a document of [n] pages holds, at
    the offsets of the PWG Raster format, the resolution and media of the
    policy, the size, depth and color space of the page, the duplex and
    tumble flags of the policy's sides and the page count [n]. *)
Theorem pageHeader_fields policy p n i :
  let h := splice 452 (be32 n) (pageHeader policy p i) in
  length h = pwgPageHeaderSize /\
  (get32 272 h = bool32 (negb (sides policy =? "one-sided")%string)) /\
  (get32 368 h = bool32 (sides policy =? "two-sided-short-edge")%string) /\
  get32 276 h = u32 (resX policy) /\ get32 280 h = u32 (resY policy) /\
  get32 324 h = u32 (mediaSource policy) /\
  get32 372 h = u32 (width p) /\ get32 376 h = u32 (height p) /\
  get32 384 h = u32 (pwgBitsPerColor p) /\ get32 388 h = u32 (pwgBitsPerPixel p) /\
  get32 392 h = u32 (rowBytes p) /\ get32 400 h = u32 (pwgColorSpace p) /\
  get32 420 h = u32 (pwgNumColors p) /\ get32 452 h = u32 n /\
  get32 484 h = u32 (quality policy).
Proof.
  intros h.
  assert (forall b, u32 (bool32 b) = bool32 b) as Hb by (by intros []).
  assert (forall z, u32 (u32 z) = u32 z) as Hu.
  { intros z. apply u32_small. pose proof (u32_range z). unfold maxU32. lia. }
  assert (forall off, puts_ok off (header_pre policy p) = true -> puts_ok off (header_post policy p n) = true ->
    (off + 4 <= 456 \/ 464 <= off)%nat ->
    get32 off h = last_put off (header_post policy p n) (last_put off (header_pre policy p) (get32 off (header_base policy)))) as Hget.
  { intros off H1 H2 Ho. unfold h. change (splice 452 (be32 n) ?x) with (put32 452 n x).
    rewrite pageHeader_puts.
    assert (header_sized (header_base policy)) as H0
      by (repeat (apply copyString_sized; [lia|]); apply zeros_length).
    destruct (get32_puts off (header_pre policy p) (header_base policy) _ H1 H0 eq_refl) as [S1 G1].
    apply get32_puts; [exact H2|by apply setSheetBack_sized|]. by rewrite get32_setSheetBack. }
  split; [apply put32_sized; [lia|apply pageHeader_sized]|]. clearbody h.
  split_and!; (rewrite Hget; [|reflexivity|reflexivity|lia]);
    cbv [last_put header_pre header_post Nat.eqb]; rewrite ?Hb, ?Hu; reflexivity.
Qed.

(** ** A small document

    One sgray page of 2 by 4 pixels, two equal rows of a repeated pixel and
    two of literals, and one byte after it. *)
Definition ex_page_settings : PageSettings := {|
  MediaName := "iso_a4"; MediaWidth := 2540; MediaHeight := 5080; MediaType := "stationery";
  MediaSource := 0; ResolutionX := 2; ResolutionY := 2; PrintQuality := 4; Sides := ""; SheetBack := ""
|}.
Definition ex_options : Options := {|
  oMapping := MappingW8ToSGray8; oPage := ex_page_settings;
  oLimits := {| MaxInputBytes := 0; MaxOutputBytes := 0; MaxPages := 3; MaxWidth := 0; MaxHeight := 0;
                MaxRowBytes := 0; MaxDecodedBytes := 0 |}
|}.
Definition ex_header : list byte := list_byte_of_string "UNIRAST" ++ [x00; x00; x00; x00; x01].
Definition ex_raw : list byte :=
  [x08; x00; x00; x00] ++ zeros 8 ++ be32 2 ++ be32 4 ++ be32 2 ++ zeros 8.
Definition ex_body : list byte := [x01; x01; xaa; x01; xff; x11; x22].
Definition ex_desc : pageDescription := describe MappingW8ToSGray8 (rawPage ex_raw) 2 false.
Definition ex_pages : list page := [{| pg_raw := ex_raw; pg_desc := ex_desc; pg_body := ex_body |}].
Definition ex_input : list byte := source_document ex_header ex_pages [x00].
Definition ex_policy : pagePolicy := {|
  mediaName := "iso_a4"; mediaWidth := 2540; mediaHeight := 5080; mediaType := "stationery";
  mediaSource := 0; resX := 2; resY := 2; quality := 4; sides := "one-sided"; sheetBack := "normal"
|}.
(** The source and the destination move at most six bytes at a time. *)
Definition ex_env : Env := memory_env ex_input (fun _ => 5%nat) true.

Lemma ex_limits : limits_range (oLimits ex_options).
Proof. split; done. Defined.

Lemma ex_rows : rows 2 1 4 ex_body.
Proof.
  apply (rows_cons 2 1 4 x01 [x01; xaa] [x01; xff; x11; x22]); [lia| |].
  - apply (pk_repeat 1 2 x01 [xaa] []); [lia|done|done|lia|constructor].
  - apply (rows_cons 2 1 2 x01 [xff; x11; x22] []); [lia| |constructor].
    apply (pk_literal 1 2 xff [x11; x22] []); [lia|done|done|constructor].
Defined.

Lemma ex_header_ok : header_ok (effectiveLimits (oLimits ex_options)) MappingW8ToSGray8 ex_policy ex_raw ex_desc.
Proof.
  split; try (vm_compute; done); try (vm_compute; split; done).
  - intros W H. vm_compute. intros [= <- <-]. done.
  - vm_compute. by eexists.
Defined.

Lemma ex_pages_ok : Forall (page_ok (effectiveLimits (oLimits ex_options)) MappingW8ToSGray8 ex_policy) ex_pages.
Proof. constructor; [|constructor]. split; [apply ex_header_ok|exact ex_rows]. Defined.

(** ** The theorems *)

(** C1: every document that [Translate] accepts, in any environment, is a
    file header followed by pages of the grammar that agree with the options
    and the limits, and at most an incomplete page header; the destination
    then holds the PWG document of those pages, each page header carrying
    the page count and each page body copied verbatim, and is rewound; the
    result states the bytes read, the bytes written and the pages. *)
Theorem Translate_sound env opts r st :
  limits_range (oLimits opts) -> Translate env opts new_translator = (Done r, st) ->
  exists policy hd ps suffix,
    validatePageSettings (oPage opts) = Ok policy /\
    file_header_ok hd /\ ps <> [] /\
    Forall (page_ok (effectiveLimits (oLimits opts)) (oMapping opts) policy) ps /\
    zlen suffix < Z.of_nat urfPageHeaderSize /\
    source_document hd ps suffix `prefix_of` consumed (hist st) /\
    file (hist st) = (output_document policy ps, 0) /\
    r = {| InputBytes := zlen (source_document hd ps suffix);
           OutputBytes := zlen (output_document policy ps); Pages := zlen ps |}.
Proof.
  intros Hr Hrun. pose proof (Translate_wp env opts Hr) as H. unfold wp in H. rewrite Hrun in H.
  destruct H as (policy & hd & ps & suffix & st' & Hp & HF & -> & Hhd & Hne & _ & ->).
  destruct (releaseResources_hist st') as [-> ->].
  exists policy, hd, ps, suffix. split_and!; try apply HF; try done.
  by rewrite (fn_count _ _ _ _ _ _ _ _ HF), (fn_size _ _ _ _ _ _ _ _ HF), (fn_pages _ _ _ _ _ _ _ _ HF).
Qed.

Lemma Translate_sound_witness :
  exists r st, Translate ex_env ex_options new_translator = (Done r, st) /\
  exists policy hd ps suffix,
    validatePageSettings (oPage ex_options) = Ok policy /\
    file_header_ok hd /\ ps <> [] /\
    Forall (page_ok (effectiveLimits (oLimits ex_options)) (oMapping ex_options) policy) ps /\
    zlen suffix < Z.of_nat urfPageHeaderSize /\
    source_document hd ps suffix `prefix_of` consumed (hist st) /\
    file (hist st) = (output_document policy ps, 0) /\
    r = {| InputBytes := zlen (source_document hd ps suffix);
           OutputBytes := zlen (output_document policy ps); Pages := zlen ps |}.
Proof.
  assert (Translate ex_env ex_options new_translator =
    (Done {| InputBytes := 52; OutputBytes := 1807; Pages := 1 |},
     snd (Translate ex_env ex_options new_translator))) as Hrun by (vm_compute; reflexivity).
  do 2 eexists. split; [exact Hrun|]. exact (Translate_sound _ _ _ _ ex_limits Hrun).
Defined.

(** C15: [Translate] accepts every document of the grammar that is within the
    limits, whatever the pieces in which the source delivers it and the
    destination accepts it, with or without an observer, and the destination
    then holds exactly the PWG document of its pages. *)
Theorem Translate_complete opts policy hd ps suffix chunk obs :
  let limits := effectiveLimits (oLimits opts) in
  limits_range (oLimits opts) -> validateLimits (oLimits opts) = Ok tt ->
  validatePageSettings (oPage opts) = Ok policy -> validateMapping (oMapping opts) = Ok tt ->
  file_header_ok hd -> ps <> [] -> Forall (page_ok limits (oMapping opts) policy) ps ->
  zlen suffix < Z.of_nat urfPageHeaderSize ->
  zlen (source_document hd ps suffix) <= MaxInputBytes limits ->
  zlen (output_document policy ps) <= MaxOutputBytes limits ->
  zlen ps <= MaxPages limits -> logical ps <= MaxDecodedBytes limits ->
  exists st, Translate (memory_env (source_document hd ps suffix) chunk obs) opts new_translator =
    (Done {| InputBytes := zlen (source_document hd ps suffix);
             OutputBytes := zlen (output_document policy ps); Pages := zlen ps |}, st) /\
    file (hist st) = (output_document policy ps, 0).
Proof.
  intros limits Hr Hl Hp Hm Hhd Hne Hok Hs Hin Hout Hpg Hlog.
  destruct (wp_Done _ _ _ (Translate_fine opts policy hd ps suffix chunk obs Hr Hl Hp Hm Hhd Hne Hok Hs Hin Hout Hpg Hlog))
    as (r & st & Hrun & Hfile & ->).
  by exists st.
Qed.

Lemma Translate_complete_witness :
  exists st, Translate ex_env ex_options new_translator =
    (Done {| InputBytes := 52; OutputBytes := 1807; Pages := 1 |}, st) /\
    file (hist st) = (output_document ex_policy ex_pages, 0).
Proof.
  apply (Translate_complete ex_options ex_policy ex_header ex_pages [x00] (fun _ => 5%nat) true).
  - exact ex_limits.
  - reflexivity.
  - reflexivity.
  - reflexivity.
  - split; [reflexivity|left; reflexivity].
  - done.
  - exact ex_pages_ok.
  - reflexivity.
  - vm_compute. discriminate.
  - vm_compute. discriminate.
  - vm_compute. discriminate.
  - vm_compute. discriminate.
Defined.

(** C32: [Translate] always returns: whatever the source, the destination, the
    context and the observer answer, it neither panics nor loops for ever,
    and an error it returns is a typed [*Error] of one of the eight kinds. *)
Theorem Translate_total env opts :
  limits_range (oLimits opts) ->
  match fst (Translate env opts new_translator) with
  | Done _ => True
  | Fail_ e => urf_error e
  | Panics | OutOfFuel => False
  end.
Proof.
  intros Hr. pose proof (Translate_wp env opts Hr) as H. unfold wp in H.
  destruct (Translate env opts new_translator) as [[] st]; simpl; try done. by destruct H.
Qed.

Lemma Translate_total_witness :
  match fst (Translate ex_env ex_options new_translator) with
  | Done _ => True
  | Fail_ e => urf_error e
  | Panics | OutOfFuel => False
  end.
Proof. exact (Translate_total ex_env ex_options ex_limits). Defined.

(** C38: on every path, a success, an error or a cancellation, the translator
    stays within the limits in force: the source bytes it counted, the bytes
    it wrote, the pages it completed and the decoded size it announced. *)
Theorem Translate_bounds env opts :
  let limits := effectiveLimits (oLimits opts) in
  let st := snd (Translate env opts new_translator) in
  limits_range (oLimits opts) -> validateLimits (oLimits opts) = Ok tt ->
  0 <= src_count st <= MaxInputBytes limits /\ 0 <= outputBytes st <= MaxOutputBytes limits /\
  0 <= pages st <= MaxPages limits /\ 0 <= pageLogical st <= MaxDecodedBytes limits.
Proof.
  intros limits st Hr Hl. pose proof (Translate_wp env opts Hr) as H. unfold wp in H.
  pose proof (effectiveLimits_ok _ Hr Hl) as Hlim. unfold st.
  destruct (Translate env opts new_translator) as [[] st0]; simpl; try done.
  - destruct H as (policy & hd & ps & suffix & st' & _ & HF & -> & _).
    destruct (releaseResources_good _ _ _ (fn_good _ _ _ _ _ _ _ _ HF)) as [_ []]. done.
  - destruct H as (_ & _ & HG). destruct (HG Hlim). done.
Qed.

Lemma Translate_bounds_witness :
  let st := snd (Translate ex_env ex_options new_translator) in
  0 <= src_count st <= 2 ^ 30 /\ 0 <= outputBytes st <= 2 ^ 30 /\ 0 <= pages st <= 3 /\
  0 <= pageLogical st <= 2 ^ 40.
Proof. exact (Translate_bounds ex_env ex_options ex_limits eq_refl). Defined.

(** When [Translate] returns, on success and on every error, each lease
    the observer granted was released exactly once and was live at every
    use. *)
Theorem Translate_leases env opts :
  limits_range (oLimits opts) -> live (hist (snd (Translate env opts new_translator))) = Some [].
Proof.
  intros Hr. pose proof (Translate_wp env opts Hr) as H. unfold wp in H.
  destruct (Translate env opts new_translator) as [[] st0]; simpl; try done.
  - destruct H as (policy & hd & ps & suffix & st' & _ & HF & -> & _).
    destruct (releaseResources_good _ _ _ (fn_good _ _ _ _ _ _ _ _ HF)) as [Hs [_ _ _ _ _ (ls & Hls & Hp)]].
    rewrite Hs in Hp. by apply Permutation_nil_r in Hp as ->.
  - by destruct H as (_ & ? & _).
Qed.

Lemma Translate_leases_witness : live (hist (snd (Translate ex_env ex_options new_translator))) = Some [].
Proof. exact (Translate_leases ex_env ex_options ex_limits). Defined.
