(* ===== verification/GoUrl.v ===== *)
(** * URLs ([net/url])

    [url.Parse], [EscapedPath], [Hostname] and [Port] of Go 1.26, on byte
    strings: the scheme, the authority, the path with its percent-encoding,
    the query and the fragment. The only thing left to a parameter is the text
    between the brackets of an IP literal ([net/netip], with its zones): the
    class [IPLiterals]. The exception of the schemes of PostgreSQL, which may
    have more than one colon in the host, is left out. *)

From Stdlib Require Import ZArith Lia Ascii String.
From stdpp Require Import base tactics list strings.
From S2P Require Import Prelude GoString.

Class IPLiterals := {
  (** The text between brackets, unescaped, when it is an IPv6 address. *)
  ip_literal : string -> option string
}.

(** [User] is whether the authority has user information. *)
Record URL := {
  Scheme : string;
  Opaque : string;
  User : bool;
  Host : string;
  Path : string;
  RawPath : string;
  RawQuery : string;
  Fragment : string
}.

(** ** Characters *)

Definition is_alpha (c : ascii) : bool := is_upper c || is_lower c.
Definition in_set (s : string) (c : ascii) : bool := ContainsChar s c.

Definition hex_val (c : ascii) : option Z :=
  if is_digit c then Some (code c - 48)
  else if (97 <=? code c) && (code c <=? 102) then Some (code c - 87)
  else if (65 <=? code c) && (code c <=? 70) then Some (code c - 55)
  else None.

Definition hex_digit (z : Z) : ascii := if z <? 10 then chr (48 + z) else chr (55 + z).

Inductive encoding : Type := encodePath | encodeHost | encodeUserPassword | encodeFragment.

Definition shouldEscape (c : ascii) (mode : encoding) : bool :=
  if is_alpha c || is_digit c then false
  else if match mode with encodeHost => in_set "!$&'()*+,;=:[]<>" c || Ascii.eqb c dquote | _ => false end then false
  else if in_set "-_.~" c then false
  else if in_set "$&+,/:;=?@" c then
    match mode with
    | encodePath => Ascii.eqb c "?"
    | encodeUserPassword => in_set "@/?:" c
    | encodeFragment => false
    | encodeHost => true
    end
  else match mode with encodeFragment => negb (in_set "!()*" c) | _ => true end.

(** [unescape(s, mode)]; [None] is an error. *)
Fixpoint unescape (mode : encoding) (s : string) : option string :=
  match s with
  | EmptyString => Some EmptyString
  | String "%" (String a (String b r)) =>
      match hex_val a, hex_val b with
      | Some x, Some y =>
          if match mode with
             | encodeHost => (x <? 8) && negb (Ascii.eqb a "2" && Ascii.eqb b "5")
             | _ => false
             end then None
          else String (chr (16 * x + y)) <$> unescape mode r
      | _, _ => None
      end
  | String "%" _ => None
  | String c r =>
      if match mode with encodeHost => (code c <? 128) && shouldEscape c encodeHost | _ => false end then None
      else String c <$> unescape mode r
  end.

Fixpoint escape (mode : encoding) (s : string) : string :=
  match s with
  | EmptyString => EmptyString
  | String c r =>
      if shouldEscape c mode
      then String "%" (String (hex_digit (code c / 16)) (String (hex_digit (code c mod 16)) (escape mode r)))
      else String c (escape mode r)
  end.

Fixpoint sall (p : ascii -> bool) (s : string) : bool :=
  match s with EmptyString => true | String c r => p c && sall p r end.

Definition validEncoded (s : string) : bool :=
  sall (fun c => in_set "!$&'()*+,;=:@[]%" c || negb (shouldEscape c encodePath)) s.

(** ** Parsing *)

(** [strings.Cut(s, sep)] for one byte: the parts, and whether it was found. *)
Fixpoint cut (sep : ascii) (s : string) : string * string * bool :=
  match s with
  | EmptyString => (EmptyString, EmptyString, false)
  | String c r =>
      if Ascii.eqb c sep then (EmptyString, r, true)
      else let '(a, b, f) := cut sep r in (String c a, b, f)
  end.

(** [getScheme]: [None] is an error; the scheme is empty when there is none.
    [whole] is the text from its beginning. *)
Fixpoint getScheme_go (whole : string) (acc : string) (s : string) : option (string * string) :=
  match s with
  | EmptyString => Some (EmptyString, whole)
  | String c r =>
      if is_alpha c then getScheme_go whole (acc +:+ String c EmptyString) r
      else if is_digit c || in_set "+-." c then
        if (acc =? "")%string then Some (EmptyString, whole) else getScheme_go whole (acc +:+ String c EmptyString) r
      else if Ascii.eqb c ":" then
        if (acc =? "")%string then None else Some (acc, r)
      else Some (EmptyString, whole)
  end.
Definition getScheme (s : string) : option (string * string) := getScheme_go s EmptyString s.

Definition validOptionalPort (port : string) : bool :=
  match port with EmptyString => true | String c r => Ascii.eqb c ":" && sall is_digit r end.

(** The parts of a text around the last occurrence of a byte. *)
Fixpoint cut_last (sep : ascii) (s : string) : option (string * string) :=
  match s with
  | EmptyString => None
  | String c r =>
      match cut_last sep r with
      | Some (a, b) => Some (String c a, b)
      | None => if Ascii.eqb c sep then Some (EmptyString, r) else None
      end
  end.

Definition validUserinfo (s : string) : bool :=
  sall (fun c => is_alpha c || is_digit c || in_set "-._:~!$&'()*+,;=%@" c) s.

Section parse.
Context `{I : IPLiterals}.

(** [parseHost]: a registered name or address with an optional port, or an IP
    literal in brackets. More than one colon outside brackets is refused. *)
Definition parseHost (host : string) : option string :=
  match cut_last "[" host with
  | Some (EmptyString, inner) =>
      '(name, port) ← cut_last "]" inner;
      if negb (validOptionalPort port) then None else
      name ← ip_literal name;
      Some ("[" +:+ name +:+ "]" +:+ port)
  | Some _ => None
  | None =>
      let '(_, port, found) := cut ":" host in
      if found && negb (sall is_digit port) then None else unescape encodeHost host
  end.

Definition parseAuthority (authority : string) : option (bool * string) :=
  match cut_last "@" authority with
  | None => pair false <$> parseHost authority
  | Some (userinfo, host) =>
      host ← parseHost host;
      if negb (validUserinfo userinfo) then None
      else
        let '(user, password, _) := cut ":" userinfo in
        _ ← unescape encodeUserPassword user; _ ← unescape encodeUserPassword password;
        Some (true, host)
  end.

(** [setPath] *)
Definition with_path (p : string) (u : URL) : option URL :=
  path ← unescape encodePath p;
  Some {| Scheme := Scheme u; Opaque := Opaque u; User := User u; Host := Host u; Path := path;
          RawPath := if (p =? escape encodePath path)%string then EmptyString else p;
          RawQuery := RawQuery u; Fragment := Fragment u |}.

(** The unexported [parse], on the text before the fragment. *)
Definition parse_url (raw : string) : option URL :=
  if ContainsFunc raw is_control then None
  else if (raw =? "*")%string then
    Some {| Scheme := EmptyString; Opaque := EmptyString; User := false; Host := EmptyString; Path := "*";
            RawPath := EmptyString; RawQuery := EmptyString; Fragment := EmptyString |}
  else
    '(scheme, rest) ← getScheme raw;
    let scheme := ToLower scheme in
    let '(rest, query, _) := cut "?" rest in
    let u := {| Scheme := scheme; Opaque := EmptyString; User := false; Host := EmptyString; Path := EmptyString;
                RawPath := EmptyString; RawQuery := query; Fragment := EmptyString |} in
    if negb (HasPrefix rest "/") && negb (scheme =? "")%string then
      Some {| Scheme := scheme; Opaque := rest; User := false; Host := EmptyString; Path := EmptyString;
              RawPath := EmptyString; RawQuery := query; Fragment := EmptyString |}
    else if negb (HasPrefix rest "/") && ContainsChar (fst (fst (cut "/" rest))) ":" then None
    else if (negb (scheme =? "")%string || negb (HasPrefix rest "///")) && HasPrefix rest "//" then
      let '(authority, path, found) := cut "/" (sdrop 2 rest) in
      let path := if found then String "/" path else EmptyString in
      '(user, host) ← parseAuthority authority;
      with_path path {| Scheme := scheme; Opaque := EmptyString; User := user; Host := host; Path := EmptyString;
                        RawPath := EmptyString; RawQuery := query; Fragment := EmptyString |}
    else with_path rest u.

Definition Parse (raw : string) : option URL :=
  let '(u, frag, _) := cut "#" raw in
  url ← parse_url u;
  if (frag =? "")%string then Some url
  else
    f ← unescape encodeFragment frag;
    Some {| Scheme := Scheme url; Opaque := Opaque url; User := User url; Host := Host url; Path := Path url;
            RawPath := RawPath url; RawQuery := RawQuery url; Fragment := f |}.
End parse.

Definition EscapedPath (u : URL) : string :=
  if negb (RawPath u =? "")%string && validEncoded (RawPath u) &&
     bool_decide (unescape encodePath (RawPath u) = Some (Path u))
  then RawPath u
  else if (Path u =? "*")%string then "*" else escape encodePath (Path u).

(** [splitHostPort] of the host, and the two methods. *)
Definition splitHostPort (hostPort : string) : string * string :=
  let '(host, port) :=
    match cut_last ":" hostPort with
    | Some (h, p) => if validOptionalPort (String ":" p) then (h, p) else (hostPort, EmptyString)
    | None => (hostPort, EmptyString)
    end in
  (if HasPrefix host "[" && HasSuffix host "]" then stake (slen host - 2) (sdrop 1 host) else host, port).
Definition Hostname (u : URL) : string := fst (splitHostPort (Host u)).
Definition Port (u : URL) : string := snd (splitHostPort (Host u)).

(** No IP literal is accepted: enough to evaluate the model on examples. *)
Definition no_ip6 : IPLiterals := {| ip_literal _ := None |}.

Example parse_printer :
  @Parse no_ip6 "ipp://proxy.local:8631/printers/office%20a?x#y" =
  Some {| Scheme := "ipp"; Opaque := ""; User := false; Host := "proxy.local:8631"; Path := "/printers/office a";
          RawPath := ""; RawQuery := "x"; Fragment := "y" |}.
Proof. vm_compute. reflexivity. Qed.
Example parse_bad : @Parse no_ip6 "ipp://a:b/x" = None /\ @Parse no_ip6 "ipp://a/%zz" = None.
Proof. vm_compute. done. Qed.
