(* ===== verification/Protocol.v ===== *)
(** * IPP requests ([internal/proxy/protocol.go], and the helpers of service.go)

    The checks every request passes before it is dispatched, in their order,
    each with the status, message and unsupported attributes of its error; the
    URIs of printers and jobs; the attributes a client asked for. *)

From Stdlib Require Import ZArith Lia Ascii String.
From stdpp Require Import base tactics list strings gmap.
From S2P Require Import Prelude GoString Goipp IppAttrs GoUrl.

(** ** Errors *)

Record ProtocolError := { peStatus : Z; peMessage : string; peUnsupported : Attributes }.

Definition protocolError (status : Z) (message : string) : ProtocolError :=
  {| peStatus := status; peMessage := message; peUnsupported := [] |}.

(** A check: [None] is nil, no error. The first error wins. *)
Abbreviation checked := (option ProtocolError).
Definition and_then (a b : checked) : checked := match a with Some e => Some e | None => b end.

Definition attrsNamed (attrs : Attributes) (names : list string) : Attributes :=
  List.filter (fun a => bool_decide (ToLower (aName a) ∈ name_set names)) attrs.

Definition single_error (status : Z) (message : string) (attr : Attribute) : checked :=
  Some {| peStatus := status; peMessage := message; peUnsupported := [attr] |}.

(** ** Groups and required attributes *)

(** The loop over the groups, with its two counters. *)
Fixpoint check_groups `{GoippLib} (l : list Group) (operationGroups jobGroups : Z) : ProtocolError + Z :=
  match l with
  | [] => inr jobGroups
  | g :: rest =>
      if Tag g =? TagOperationGroup then
        if negb (operationGroups + 1 =? 1) || (0 <? jobGroups)
        then inl (protocolError StatusErrorBadRequest "operation attribute group is duplicated or out of order")
        else check_groups rest (operationGroups + 1) jobGroups
      else if Tag g =? TagJobGroup then
        if 1 <? jobGroups + 1
        then inl (protocolError StatusErrorBadRequest "job attribute group is duplicated")
        else check_groups rest operationGroups (jobGroups + 1)
      else if Tag g =? TagDocumentGroup then
        inl (protocolError StatusErrorBadRequest "document attribute groups are not supported")
      else inl (protocolError StatusErrorBadRequest
                  ("attribute group " +:+ tag_String (Tag g) +:+ " is not valid in this request"))
  end.

Definition validateRequestGroups `{GoippLib} (msg : Message) : checked :=
  match Groups msg with
  | None => None
  | Some l =>
      if match l with g :: _ => negb (Tag g =? TagOperationGroup) | [] => true end
      then Some (protocolError StatusErrorBadRequest "operation attributes must be the first group")
      else
        match check_groups l 0 0 with
        | inl e => Some e
        | inr jobGroups =>
            if (0 <? jobGroups) &&
               negb ((Code msg =? OpPrintJob) || (Code msg =? OpValidateJob) || (Code msg =? OpCreateJob))
            then Some (protocolError StatusErrorBadRequest "job attributes are not valid for this operation")
            else None
        end
  end.

Definition singleValueAttr (attr : Attribute) (name : string) (tag : Z) : bool :=
  EqualFold (aName attr) name && match aValues attr with [tv] => val_T tv =? tag | _ => false end.

(** [len(attrs) > n && singleValueAttr(attrs[n], name, tag)] *)
Definition nth_single (attrs : Attributes) (n : nat) (name : string) (tag : Z) : bool :=
  match attrs !! n with Some a => singleValueAttr a name tag | None => false end.

Definition printerOperationRequiresURI (op : Z) : bool :=
  existsb (Z.eqb op) [OpPrintJob; OpValidateJob; OpCreateJob; OpGetJobs; OpGetPrinterAttributes;
                      OpCancelMyJobs; OpIdentifyPrinter].

Definition jobOperationRequiresTarget (op : Z) : bool :=
  existsb (Z.eqb op) [OpSendDocument; OpGetJobAttributes; OpCancelJob; OpCloseJob].

(** The text of the error, [None] is nil. *)
Definition validateRequiredOperationAttrs (attrs : Attributes) (op : Z) : option string :=
  if negb (nth_single attrs 0 "attributes-charset" TagCharset) ||
     negb (nth_single attrs 1 "attributes-natural-language" TagLanguage)
  then Some "attributes-charset and attributes-natural-language must be the first two operation attributes"%string
  else if printerOperationRequiresURI op && negb (nth_single attrs 2 "printer-uri" TagURI)
  then Some "printer-uri operation attribute is required"%string
  else None.

(** A repeated name in one group; the second attribute is the one reported. *)
Fixpoint duplicate_attr (seen : gset string) (attrs : Attributes) : option Attribute :=
  match attrs with
  | [] => None
  | a :: rest =>
      if bool_decide (ToLower (aName a) ∈ seen) then Some a
      else duplicate_attr ({[ToLower (aName a)]} ∪ seen) rest
  end.

Fixpoint first_duplicate (groups : list Attributes) : checked :=
  match groups with
  | [] => None
  | attrs :: rest =>
      match duplicate_attr ∅ attrs with
      | Some a => single_error StatusErrorBadRequest ("duplicate attribute: " +:+ aName a) a
      | None => first_duplicate rest
      end
  end.

Definition validateNoDuplicateAttrs (msg : Message) : checked :=
  first_duplicate [Operation msg; Job msg; Document msg; Subscription msg].

(** ** Targets *)

Section uris.
Context `{I : IPLiterals}.

Definition sameTargetURI (left right : string) : bool :=
  match Parse left, Parse right with
  | Some l, Some r =>
      if (Scheme l =? "")%string || (Host l =? "")%string || (Scheme r =? "")%string || (Host r =? "")%string then false
      else if negb (EqualFold (Scheme l) (Scheme r)) || negb (RawQuery l =? "")%string || negb (RawQuery r =? "")%string ||
              negb (Fragment l =? "")%string || negb (Fragment r =? "")%string then false
      else (TrimRight (EscapedPath l) "/" =? TrimRight (EscapedPath r) "/")%string
  | _, _ => false
  end.

(** [None] is [ok == false]. *)
Definition jobIDForPrinterURI (rawJobURI printerURI : string) : option Z :=
  match Parse rawJobURI, Parse printerURI with
  | Some job, Some printer =>
      if negb (RawQuery job =? "")%string || negb (Fragment job =? "")%string then None
      else if (Scheme job =? "")%string || (Scheme printer =? "")%string || (Host job =? "")%string ||
              (Host printer =? "")%string || negb (EqualFold (Scheme job) (Scheme printer)) then None
      else
        let prefix := TrimRight (EscapedPath printer) "/" +:+ "/jobs/" in
        if negb (HasPrefix (EscapedPath job) prefix) then None
        else
          let tail := TrimPrefix (EscapedPath job) prefix in
          if (tail =? "")%string || ContainsChar tail "/" then None
          else match Atoi tail with Some id => if 0 <? id then Some id else None | None => None end
  | _, _ => None
  end.

Definition proxyJobURI (printerURI : string) (jobID : Z) : string :=
  TrimRight printerURI "/" +:+ "/jobs/" +:+ Itoa jobID.

Definition validateTarget `{GoippLib} (attrs : Attributes) (op : Z) (printerURI : string) : checked :=
  let printer := FirstString attrs "printer-uri" in
  let jobURI := FirstString attrs "job-uri" in
  let jobID := FirstInt attrs "job-id" in
  let same := match printer with Some p => sameTargetURI p printerURI | None => false end in
  if printerOperationRequiresURI op then
    if negb (nth_single attrs 2 "printer-uri" TagURI)
    then Some (protocolError StatusErrorBadRequest "printer-uri must be the third operation attribute")
    else if negb same then Some (protocolError StatusErrorNotFound "printer-uri does not identify this queue")
    else if bool_decide (is_Some jobURI) || bool_decide (is_Some jobID)
    then Some (protocolError StatusErrorBadRequest "printer operation contains a job target")
    else None
  else if negb (jobOperationRequiresTarget op) then None
  else
    match jobURI with
    | Some uri =>
        if negb (nth_single attrs 2 "job-uri" TagURI)
        then Some (protocolError StatusErrorBadRequest "job-uri must be the third operation attribute")
        else if bool_decide (is_Some printer) || bool_decide (is_Some jobID)
        then Some (protocolError StatusErrorBadRequest "supply either job-uri or printer-uri with job-id")
        else match jobIDForPrinterURI uri printerURI with
             | None => Some (protocolError StatusErrorNotFound "job-uri does not identify a job in this queue")
             | Some _ => None
             end
    | None =>
        if negb (nth_single attrs 2 "printer-uri" TagURI) || negb (nth_single attrs 3 "job-id" TagInteger)
        then Some (protocolError StatusErrorBadRequest "printer-uri and job-id must be the third and fourth operation attributes")
        else if negb same || match jobID with Some id => id <? 1 | None => true end
        then Some (protocolError StatusErrorNotFound "printer-uri and positive job-id are required")
        else None
    end.
End uris.

(** ** The syntax of media-col *)

(** The names seen in the whole value, and whether a selector was seen. *)
Abbreviation mediaColSyntaxState := (gset string * bool)%type.

Definition validMediaColKeyword (attr : Attribute) : bool :=
  match aValues attr with
  | [(t, VString s)] => (t =? TagKeyword) && negb (TrimSpace s =? "")%string
  | _ => false
  end.
Definition validMediaColPositiveInteger (attr : Attribute) : bool :=
  match aValues attr with [(t, VInteger z)] => (t =? TagInteger) && (0 <? z) | _ => false end.
Definition validMediaColNonNegativeInteger (attr : Attribute) : bool :=
  match aValues attr with [(t, VInteger z)] => (t =? TagInteger) && (0 <=? z) | _ => false end.

(** [validMediaColMembers]; [None] is false. [dims] are the dimensions of the
    enclosing media-size, [size_member] is [validMediaSizeMember]. *)
Fixpoint validMediaColMembers (size_member : Attribute -> mediaColSyntaxState -> option mediaColSyntaxState)
    (inMediaSize : bool) (attrs : Attributes) (st : mediaColSyntaxState) (dims : option (bool * bool))
    : option mediaColSyntaxState :=
  match attrs with
  | [] => match dims with Some (x, y) => if x && y then Some st else None | None => Some st end
  | m :: rest =>
      let name := ToLower (aName m) in
      if (name =? "")%string || bool_decide (name ∈ fst st) then None
      else
        let st := ({[name]} ∪ fst st, snd st) in
        let continue st dims := validMediaColMembers size_member inMediaSize rest st dims in
        if in_strings name ["media-size-name"; "media-key"] then
          if validMediaColKeyword m then continue (fst st, true) dims else None
        else if (name =? "media-size")%string then
          if inMediaSize then None
          else match size_member m st with Some st => continue (fst st, true) dims | None => None end
        else if (name =? "x-dimension")%string then
          match dims with
          | Some (_, y) => if inMediaSize && validMediaColPositiveInteger m then continue st (Some (true, y)) else None
          | None => None
          end
        else if (name =? "y-dimension")%string then
          match dims with
          | Some (x, _) => if inMediaSize && validMediaColPositiveInteger m then continue st (Some (x, true)) else None
          | None => None
          end
        else if in_strings name ["media-type"; "media-source"; "media-color"] then
          if validMediaColKeyword m then continue st dims else None
        else if in_strings name ["media-bottom-margin"; "media-left-margin"; "media-right-margin"; "media-top-margin"] then
          if validMediaColNonNegativeInteger m then continue st dims else None
        else None
  end.

Definition validMediaSizeMember (attr : Attribute) (st : mediaColSyntaxState) : option mediaColSyntaxState :=
  match aValues attr with
  | [(t, VCollection attrs)] =>
      if t =? TagBeginCollection
      then validMediaColMembers (fun _ _ => None) true attrs st (Some (false, false)) else None
  | _ => None
  end.

Definition validMediaColSyntax (attr : Attribute) : bool :=
  match aValues attr with
  | [(t, VCollection attrs)] =>
      (t =? TagBeginCollection) &&
      match validMediaColMembers validMediaSizeMember false attrs (∅, false) None with
      | Some st => snd st
      | None => false
      end
  | _ => false
  end.

(** ** Known values *)

(** A rule of [validateKnownValues]: the group, the name, the tag and whether
    the integer must be positive; all the rules ask for a single value. *)
Record rule := { r_attrs : Attributes; r_name : string; r_tag : Z; r_positive : bool }.

Definition known_rules (msg : Message) : list rule :=
  let op n t p := {| r_attrs := Operation msg; r_name := n; r_tag := t; r_positive := p |} in
  let job n t p := {| r_attrs := Job msg; r_name := n; r_tag := t; r_positive := p |} in
  [op "attributes-charset" TagCharset false; op "attributes-natural-language" TagLanguage false;
   op "printer-uri" TagURI false; op "job-uri" TagURI false; op "job-id" TagInteger true;
   op "last-document" TagBoolean false; op "document-format" TagMimeType false;
   op "ipp-attribute-fidelity" TagBoolean false; op "my-jobs" TagBoolean false; op "limit" TagInteger true;
   op "which-jobs" TagKeyword false; job "copies" TagInteger true; job "media" TagKeyword false;
   job "media-col" TagBeginCollection false]%string.

(** One value against a rule. *)
Definition check_value (r : rule) (attr : Attribute) (tv : TValue) : checked :=
  if negb (val_T tv =? r_tag r)
  then single_error StatusErrorAttributesOrValues (r_name r +:+ " has invalid value syntax") attr
  else if r_positive r && match val_V tv with VInteger z => z <? 1 | _ => true end
  then single_error StatusErrorAttributesOrValues (r_name r +:+ " must be positive") attr
  else None.

Definition check_rule (r : rule) : checked :=
  match Attr (r_attrs r) (r_name r) with
  | None => None
  | Some attr =>
      if negb (length (aValues attr) =? 1)%nat
      then single_error StatusErrorAttributesOrValues (r_name r +:+ " has invalid cardinality") attr
      else and_then (foldr (fun tv acc => and_then (check_value r attr tv) acc) None (aValues attr))
        (if (r_name r =? "media-col")%string && negb (validMediaColSyntax attr)
         then single_error StatusErrorAttributesOrValues "media-col has invalid collection members" attr else None)
  end.

Definition which_jobs_values : list string :=
  ["completed"; "not-completed"; "aborted"; "all"; "canceled"; "pending"; "pending-held"; "processing";
   "processing-stopped"].

Definition check_requested (operation : Attributes) : checked :=
  match Attr operation "requested-attributes" with
  | None => None
  | Some attr =>
      match aValues attr with
      | [] => single_error StatusErrorAttributesOrValues "requested-attributes requires at least one keyword" attr
      | l => if forallb (fun tv => val_T tv =? TagKeyword) l then None
             else single_error StatusErrorAttributesOrValues "requested-attributes has invalid value syntax" attr
      end
  end.

Definition check_which_jobs `{GoippLib} (operation : Attributes) : checked :=
  match FirstString operation "which-jobs" with
  | None => None
  | Some v =>
      if in_strings (ToLower v) which_jobs_values then None
      else single_error StatusErrorAttributesOrValues "which-jobs has unsupported value"
             (default (""%string, []) (Attr operation "which-jobs"))
  end.

Definition validateKnownValues `{GoippLib} (msg : Message) : checked :=
  and_then (foldr (fun r acc => and_then (check_rule r) acc) None (known_rules msg))
    (and_then (check_requested (Operation msg)) (check_which_jobs (Operation msg))).

(** ** Overrides *)

Definition validPositiveRanges (attr : Attribute) : bool :=
  negb (length (aValues attr) =? 0)%nat &&
  forallb (fun tv => match val_V tv with
                     | VRange lo hi => (val_T tv =? TagRange) && (1 <=? lo) && (lo <=? hi)
                     | _ => false
                     end) (aValues attr).

(** One value of the overrides attribute. *)
Definition check_override (attr : Attribute) (tv : TValue) : checked :=
  let bad text := single_error StatusErrorAttributesOrValues text attr in
  match val_V tv with
  | VCollection attrs =>
      if negb (val_T tv =? TagBeginCollection) then bad "overrides values must be collections"%string
      else
        let pages := Attr attrs "pages" in
        let documents := Attr attrs "document-numbers" in
        if Bool.eqb (bool_decide (is_Some pages)) (bool_decide (is_Some documents))
        then bad "each override requires exactly one pages or document-numbers selector"%string
        else if (length attrs <? 2)%nat then bad "override has no job-template attributes"%string
        else
          let selector := match documents with Some d => d | None => default (""%string, []) pages end in
          if negb (validPositiveRanges selector) then bad "override selector must contain positive ranges"%string else None
  | _ => bad "overrides values must be collections"%string
  end.

Definition validateOverrides (attr : Attribute) : checked :=
  match aValues attr with
  | [] => single_error StatusErrorAttributesOrValues "overrides requires at least one collection" attr
  | l => foldr (fun tv acc => and_then (check_override attr tv) acc) None l
  end.

(** ** The whole check *)

Definition validateExplicitDocumentFormat (attrs : Attributes) : checked :=
  let required := Some {| peStatus := StatusErrorBadRequest;
                          peMessage := "document-format is required for a payload-bearing operation";
                          peUnsupported := attrsNamed attrs ["document-format"] |} in
  match Attr attrs "document-format" with
  | Some attr =>
      match aValues attr with
      | [(t, v)] =>
          if negb (t =? TagMimeType) then required
          else match v with
               | VString s => if (TrimSpace s =? "")%string
                              then single_error StatusErrorAttributesOrValues "document-format has invalid value syntax" attr
                              else None
               | _ => single_error StatusErrorAttributesOrValues "document-format has invalid value syntax" attr
               end
      | _ => required
      end
  | None => required
  end.

(** The document of Print-Job and the last-document flag of Send-Document. *)
Definition check_document (msg : Message) (hasPayload : bool) : checked :=
  if (Code msg =? OpPrintJob) && negb hasPayload
  then Some (protocolError StatusErrorBadRequest "document data is required")
  else if Code msg =? OpSendDocument then
    match Attr (Operation msg) "last-document" with
    | Some (_, [(t, VBoolean lastDocument)]) =>
        if negb (t =? TagBoolean) then Some (protocolError StatusErrorBadRequest "last-document boolean is required")
        else if negb hasPayload && negb lastDocument
        then Some (protocolError StatusErrorBadRequest "document data is required unless last-document is true")
        else None
    | _ => Some (protocolError StatusErrorBadRequest "last-document boolean is required")
    end
  else None.

(** Both media and media-col in the job attributes. *)
Definition check_media_conflict (job : Attributes) : checked :=
  if bool_decide (is_Some (Attr job "media")) && bool_decide (is_Some (Attr job "media-col"))
  then Some {| peStatus := StatusErrorConflicting; peMessage := "media and media-col cannot both be supplied";
               peUnsupported := attrsNamed job ["media"; "media-col"] |}
  else None.

Definition check_charset `{GoippLib} (operation : Attributes) : checked :=
  if EqualFold (default ""%string (FirstString operation "attributes-charset")) "utf-8" then None
  else Some {| peStatus := StatusErrorCharset; peMessage := "only utf-8 is supported";
               peUnsupported := attrsNamed operation ["attributes-charset"] |}.

(** [None] as a message is nil. *)
Definition ValidateProtocolRequest `{GoippLib} `{IPLiterals} (msg : option Message) (printerURI : string)
    (hasPayload : bool) : checked :=
  match msg with
  | None => Some (protocolError StatusErrorBadRequest "empty IPP request")
  | Some msg =>
      and_then (validateRequestGroups msg)
      (and_then (protocolError StatusErrorBadRequest <$> validateRequiredOperationAttrs (Operation msg) (Code msg))
      (and_then (check_charset (Operation msg))
      (and_then (validateNoDuplicateAttrs msg)
      (and_then (validateTarget (Operation msg) (Code msg) printerURI)
      (and_then (check_media_conflict (Job msg))
      (and_then (validateKnownValues msg)
      (and_then (Attr (Job msg) "overrides" ≫= validateOverrides)
      (check_document msg hasPayload))))))))
  end.

(** ** Versions and requested attributes *)

Definition closestSupportedVersion (version : Z) : Z :=
  if Major version <? 1 then MakeVersion 1 0
  else if (Major version =? 1) && (Minor version =? 0) then MakeVersion 1 0
  else if Major version =? 1 then MakeVersion 1 1
  else MakeVersion 2 0.

Definition description_prefixes : list string :=
  ["printer-name"; "printer-info"; "printer-location"; "printer-make-and-model"; "printer-uri"; "printer-uuid";
   "printer-more-info"; "printer-dns-sd-name"].

Definition status_names : list string :=
  ["printer-state"; "printer-state-reasons"; "printer-state-message"; "printer-is-accepting-jobs"; "queued-job-count"].

Definition jobTemplatePrinterAttributes : list string :=
  ["copies-supported"; "copies-default"; "cover-back-supported"; "cover-back-default"; "cover-front-supported";
   "cover-front-default"; "feed-orientation-supported"; "feed-orientation-default"; "finishings-supported";
   "finishings-default"; "imposition-template-supported"; "imposition-template-default"; "insert-sheet-supported";
   "insert-sheet-default"; "job-hold-until-supported"; "job-hold-until-default"; "job-priority-supported";
   "job-priority-default"; "job-sheets-supported"; "job-sheets-default"; "media-supported"; "media-default";
   "media-col-supported"; "media-col-default"; "media-col-ready"; "media-ready"; "media-size-supported";
   "media-type-supported"; "media-type-default"; "media-source-supported"; "media-source-default";
   "multiple-document-handling-supported"; "multiple-document-handling-default"; "number-up-supported";
   "number-up-default"; "number-up-layout-supported"; "number-up-layout-default";
   "orientation-requested-supported"; "orientation-requested-default"; "output-bin-supported";
   "output-bin-default"; "page-delivery-supported"; "page-delivery-default"; "page-ranges-supported";
   "presentation-direction-number-up-supported"; "presentation-direction-number-up-default";
   "print-color-mode-supported"; "print-color-mode-default"; "print-content-optimize-supported";
   "print-content-optimize-default"; "print-quality-supported"; "print-quality-default";
   "print-scaling-supported"; "print-scaling-default"; "printer-resolution-supported";
   "printer-resolution-default"; "proof-print-supported"; "proof-print-default"; "sides-supported";
   "sides-default"].

(** Each category is decided by the first of the three that was asked for and
    contains the name; the last one always decides. *)
Definition requestedAttributeCategory (wanted : list string) (name : string) : bool :=
  if in_strings "printer-description" wanted && existsb (HasPrefix name) description_prefixes then true
  else if in_strings "printer-status" wanted && in_strings name status_names then true
  else in_strings "job-template" wanted && in_strings name jobTemplatePrinterAttributes.

(** The lower-cased names of the requested-attributes value. *)
Definition wanted_names (requested : Attribute) : list string :=
  omap (fun tv => match val_V tv with VString s => Some (ToLower s) | _ => None end) (aValues requested).

Definition FilterRequestedPrinterAttributes (attrs operation : Attributes) : Attributes :=
  let requested := Attr operation "requested-attributes" in
  let wanted := match requested with Some r => wanted_names r | None => [] end in
  let all := match requested with Some _ => in_strings "all" wanted | None => true end in
  let explicitMediaDatabase := in_strings "media-col-database" wanted in
  List.filter (fun a =>
    let name := ToLower (aName a) in
    if (name =? "media-col-database")%string && negb explicitMediaDatabase then false
    else all || in_strings name wanted || requestedAttributeCategory wanted name) attrs.

(** ** Jobs of a request (service.go) *)

(** [jobIDFromURI] ignores the error of [strconv.Atoi], which returns zero for
    a text that is no number, and the nearest bound for one out of range. *)
Definition Atoi_value (s : string) : Z :=
  match Atoi s with
  | Some z => z
  | None =>
      match s with
      | String "-" r => match parse_uint r with Some _ => minI64 | None => 0 end
      | String "+" r => match parse_uint r with Some _ => maxI64 | None => 0 end
      | _ => match parse_uint s with Some _ => maxI64 | None => 0 end
      end
  end.

Definition jobIDFromURI (uri : string) : Z :=
  match cut_last "/" uri with
  | Some (_, tail) => if (tail =? "")%string then 0 else Atoi_value tail
  | None => 0
  end.

Definition requestProxyJobID `{GoippLib} (req : Message) : Z :=
  match FirstInt (Operation req) "job-id" with
  | Some id => id
  | None => match FirstString (Operation req) "job-uri" with Some uri => jobIDFromURI uri | None => 0 end
  end.

Definition copiesFromAttrs (attrs : Attributes) : Z :=
  match FirstInt attrs "copies" with Some c => if c <? 1 then 1 else c | None => 1 end.
