(* ===== verification/MediaCatalog.v ===== *)
(** * The media of a queue ([internal/proxy/capabilities.go], first half)

    The catalog of the media a queue offers: the names of its policy, with
    the dimensions of the PWG self-describing name, completed by the media
    collections the printer reports, one entry per physical instance.

    A Go field with a presence bit ([MediaType] and [HasMediaType], the
    margins) is an option here; the two are always written together. *)

From Stdlib Require Import ZArith Lia Ascii String SpecFloat.
From stdpp Require Import base tactics list strings gmap.
From S2P Require Import Prelude GoString Goipp IppAttrs GoError.

(** ** Data *)

(** [config.PolicyConfig], without the presence bits of its YAML keys. *)
Record PolicyConfig := {
  pMedia : string;
  pMediaSupported : list string;
  pMediaDefault : string;
  pMediaType : string;
  pPrintColorMode : string;
  pMediaSource : option string;
  pPrintScaling : option string;
  pUseMediaCol : bool;
  pFidelityMode : string
}.

Record mediaSize := {
  Name : string;
  XDimension : Z;
  YDimension : Z;
  HasDimension : bool;
  MediaType : option string;
  MediaSource : option string;
  Ready : bool;
  BottomMargin : option Z;
  LeftMargin : option Z;
  RightMargin : option Z;
  TopMargin : option Z;
  aliases : list string
}.

(** [mediaSize{}], and [mediaSize{Name: name}]. *)
Definition named_size (name : string) : mediaSize := {|
  Name := name; XDimension := 0; YDimension := 0; HasDimension := false; MediaType := None;
  MediaSource := None; Ready := false; BottomMargin := None; LeftMargin := None; RightMargin := None;
  TopMargin := None; aliases := [] |}.

(** Assignments to groups of fields. *)
Definition set_dims (x y : Z) (h : bool) (s : mediaSize) : mediaSize := {|
  Name := Name s; XDimension := x; YDimension := y; HasDimension := h; MediaType := MediaType s;
  MediaSource := MediaSource s; Ready := Ready s; BottomMargin := BottomMargin s;
  LeftMargin := LeftMargin s; RightMargin := RightMargin s; TopMargin := TopMargin s; aliases := aliases s |}.
Definition set_stock (ty src : option string) (s : mediaSize) : mediaSize := {|
  Name := Name s; XDimension := XDimension s; YDimension := YDimension s; HasDimension := HasDimension s;
  MediaType := ty; MediaSource := src; Ready := Ready s; BottomMargin := BottomMargin s;
  LeftMargin := LeftMargin s; RightMargin := RightMargin s; TopMargin := TopMargin s; aliases := aliases s |}.
Definition set_margins (b l r t : option Z) (s : mediaSize) : mediaSize := {|
  Name := Name s; XDimension := XDimension s; YDimension := YDimension s; HasDimension := HasDimension s;
  MediaType := MediaType s; MediaSource := MediaSource s; Ready := Ready s; BottomMargin := b;
  LeftMargin := l; RightMargin := r; TopMargin := t; aliases := aliases s |}.
Definition set_names (n : string) (al : list string) (rd : bool) (s : mediaSize) : mediaSize := {|
  Name := n; XDimension := XDimension s; YDimension := YDimension s; HasDimension := HasDimension s;
  MediaType := MediaType s; MediaSource := MediaSource s; Ready := rd; BottomMargin := BottomMargin s;
  LeftMargin := LeftMargin s; RightMargin := RightMargin s; TopMargin := TopMargin s; aliases := al |}.

(** [Instances] holds the same list as [Sizes]. *)
Record mediaCatalog := {
  Sizes : list mediaSize;
  Instances : list mediaSize;
  ByName : gmap string mediaSize;
  ByNameAll : gmap string (list mediaSize)
}.

Record mediaCollection := { size : mediaSize; cnames : list string; cready : bool }.

(** ** Names of the policy *)

Definition policyMediaNames (policy : PolicyConfig) : list string :=
  let out := List.filter (fun n => negb (n =? "")%string) (map TrimSpace (pMediaSupported policy)) in
  match out with
  | _ :: _ => out
  | [] =>
      let name := TrimSpace (pMedia policy) in
      if negb (name =? "")%string then [name] else ["iso_a4_210x297mm"%string]
  end.

Definition policyMediaDefault (policy : PolicyConfig) : string :=
  if negb (TrimSpace (pMediaDefault policy) =? "")%string then TrimSpace (pMediaDefault policy)
  else if negb (TrimSpace (pMedia policy) =? "")%string then TrimSpace (pMedia policy)
  else hd ""%string (policyMediaNames policy).

Definition policyMediaSource (policy : PolicyConfig) : string :=
  match pMediaSource policy with None => "" | Some s => TrimSpace s end.

Definition mediaNameKey (name : string) : string := ToLower (TrimSpace name).

(** ** PWG self-describing names

    [pwgMediaDimensions] is
    [(?i)([0-9]+(?:\.[0-9]+)?)x([0-9]+(?:\.[0-9]+)?)(mm|in)(?:$|[_-])]: from a
    given start there is at most one way to match it. *)

Fixpoint span (p : ascii -> bool) (s : string) : string * string :=
  match s with
  | String c r => if p c then let '(a, b) := span p r in (String c a, b) else ("", s)
  | EmptyString => ("", "")
  end.

(** A number: its digits, the digits of its fraction, and the rest. *)
Definition number (s : string) : option (string * string * string) :=
  let '(i, r) := span is_digit s in
  if (i =? "")%string then None
  else match r with
       | String "." q =>
           let '(f, r') := span is_digit q in
           if (f =? "")%string then Some (i, "", r) else Some (i, f, r')
       | _ => Some (i, "", r)
       end%string.

(** A letter in either case. *)
Definition letter (c : ascii) (s : string) : option string :=
  match s with String d r => if Ascii.eqb (lower_char d) c then Some r else None | EmptyString => None end.

(** The match at the beginning of a text: the two numbers, and whether the unit
    is the inch. *)
Definition match_at (s : string) : option ((string * string) * (string * string) * bool) :=
  '(xi, xf, r) ← number s;
  r ← letter "x" r;
  '(yi, yf, r) ← number r;
  '(inch, r) ← match letter "m" r ≫= letter "m" with
               | Some r => Some (false, r)
               | None => pair true <$> (letter "i" r ≫= letter "n")
               end;
  match r with
  | EmptyString => Some ((xi, xf), (yi, yf), inch)
  | String c _ => if Ascii.eqb c "_" || Ascii.eqb c "-" then Some ((xi, xf), (yi, yf), inch) else None
  end.

(** [FindStringSubmatch]: the leftmost match. *)
Fixpoint pwgMediaDimensions (s : string) : option ((string * string) * (string * string) * bool) :=
  match match_at s with
  | Some m => Some m
  | None => match s with String _ r => pwgMediaDimensions r | EmptyString => None end
  end.

Fixpoint digits_value (acc : Z) (s : string) : Z :=
  match s with EmptyString => acc | String c r => digits_value (10 * acc + (code c - 48)) r end.

(** [strconv.ParseFloat] of digits and a fraction: the nearest binary64; an
    infinite result is an error. *)
Definition ParseFloat (i f : string) : option float64 :=
  let n := digits_value 0 (i ++ f) in
  let v := match n with
           | Z.pos m => fdiv (S754_finite false m 0) (S754_finite false (Z.to_pos (10 ^ Z.of_nat (slen f))) 0)
           | _ => S754_zero false
           end in
  match v with S754_infinity _ => None | _ => Some v end.

Definition is_positive (x : float64) : bool := SFltb (S754_zero false) x.

(** [math.Round] of a positive number: to the nearest integer, half away from zero. *)
Definition Round (x : float64) : Z :=
  match x with
  | S754_finite false m e =>
      if 0 <=? e then Z.pos m * 2 ^ e else (Z.pos m + 2 ^ (- e - 1)) / 2 ^ (- e)
  | _ => 0
  end.

Definition MaxInt32 : Z := 2147483647.

Definition roundedIPPDimension (value multiplier : float64) : option Z :=
  if negb (is_positive value) || negb (is_positive multiplier) || is_nan_or_inf value then None
  else
    let scaled := fmul value multiplier in
    if is_nan_or_inf scaled || SFltb scaled (float64_of_Z 1) || SFltb (float64_of_Z MaxInt32) scaled then None
    else
      let rounded := Round scaled in
      if (rounded <? 1) || (MaxInt32 <? rounded) then None else Some rounded.

Definition mediaSizeFromPWGName (name : string) : option mediaSize :=
  '(xs, ys, inch) ← pwgMediaDimensions (TrimSpace name);
  x ← ParseFloat (fst xs) (snd xs);
  y ← ParseFloat (fst ys) (snd ys);
  if negb (is_positive x) || negb (is_positive y) then None
  else
    let multiplier := float64_of_Z (if inch : bool then 2540 else 100) in
    match roundedIPPDimension x multiplier, roundedIPPDimension y multiplier with
    | Some a, Some b => Some (set_dims a b true (named_size (TrimSpace name)))
    | _, _ => None
    end.

Example a4 : mediaSizeFromPWGName "iso_a4_210x297mm" =
  Some (set_dims 21000 29700 true (named_size "iso_a4_210x297mm")).
Proof. vm_compute. reflexivity. Qed.
Example letter_in : mediaSizeFromPWGName " na_letter_8.5x11IN_x " =
  Some (set_dims 21590 27940 true (named_size "na_letter_8.5x11IN_x")).
Proof. vm_compute. reflexivity. Qed.

(** ** Values *)

Definition stringValue (v : Value) : option string := match v with VString s => Some s | _ => None end.

Definition fixedInteger (values : list TValue) : option Z :=
  match values with
  | [(_, VInteger z)] => Some z
  | [(_, VRange lo hi)] => if lo =? hi then Some lo else None
  | _ => None
  end.

Definition fixedNonNegativeInteger (values : list TValue) : option Z :=
  match values with [(_, VInteger z)] => if 0 <=? z then Some z else None | _ => None end.

Definition fixedKeyword (values : list TValue) : option string :=
  match values with
  | [(t, VString s)] => if (t =? TagKeyword) || (t =? TagName) then Some (TrimSpace s) else None
  | _ => None
  end.

Definition hasString (attr : Attribute) (value : string) : bool :=
  existsb (fun tv => match val_V tv with VString s => EqualFold s value | _ => false end) (aValues attr).

Definition containsMediaName (names : list string) (wanted : string) : bool :=
  existsb (fun n => EqualFold (TrimSpace n) (TrimSpace wanted)) names.

Definition dimensionsEqual (a b : mediaSize) : bool :=
  HasDimension a && HasDimension b &&
  (((XDimension a =? XDimension b) && (YDimension a =? YDimension b)) ||
   ((XDimension a =? YDimension b) && (YDimension a =? XDimension b))).

(** ** Collections of the printer *)

(** What the walk of [mediaCollectionFromAttrs] collects. *)
Record collected := { w_names : list string; w_sizeName : string; w_key : string; w_size : mediaSize }.

Definition set_size (f : mediaSize -> mediaSize) (c : collected) : collected :=
  {| w_names := w_names c; w_sizeName := w_sizeName c; w_key := w_key c; w_size := f (w_size c) |}.

(** One value of a [media-key] or [media-size-name] member. *)
Definition collect_name (name : string) (c : collected) (tv : TValue) : collected :=
  match stringValue (val_V tv) with
  | None => c
  | Some raw =>
      let text := TrimSpace raw in
      if (text =? "")%string || containsMediaName (w_names c) text then c
      else {|
        w_names := w_names c ++ [text];
        w_sizeName := if (name =? "media-size-name")%string && (w_sizeName c =? "")%string then text else w_sizeName c;
        w_key := if (name =? "media-key")%string && (w_key c =? "")%string then text else w_key c;
        w_size := w_size c |}
  end.

Definition first_some {A} (a b : option A) : option A := match a with Some _ => a | None => b end.
(** A keyword that is not empty. *)
Definition keyword_member (values : list TValue) : option string :=
  match fixedKeyword values with Some v => if (v =? "")%string then None else Some v | None => None end.

(** The switch of the walk, on the lower-cased name of a member. *)
Definition collect_member (name : string) (values : list TValue) (c : collected) : collected :=
  let s := w_size c in
  if (name =? "media-key")%string || (name =? "media-size-name")%string
  then fold_left (collect_name name) values c
  else if (name =? "x-dimension")%string then
    match fixedInteger values with
    | Some v => if (0 <? v) && (XDimension s =? 0) then set_size (set_dims v (YDimension s) (HasDimension s)) c else c
    | None => c
    end
  else if (name =? "y-dimension")%string then
    match fixedInteger values with
    | Some v => if (0 <? v) && (YDimension s =? 0) then set_size (set_dims (XDimension s) v (HasDimension s)) c else c
    | None => c
    end
  else if (name =? "media-type")%string then
    set_size (set_stock (first_some (MediaType s) (keyword_member values)) (MediaSource s)) c
  else if (name =? "media-source")%string then
    set_size (set_stock (MediaType s) (first_some (MediaSource s) (keyword_member values))) c
  else
    let b n old := if (name =? n)%string then first_some old (fixedNonNegativeInteger values) else old in
    set_size (set_margins (b "media-bottom-margin" (BottomMargin s)) (b "media-left-margin" (LeftMargin s))
      (b "media-right-margin" (RightMargin s)) (b "media-top-margin" (TopMargin s)))%string c.

(** [walk] on the collections nested in a value. *)
Fixpoint walk_value (v : Value) (c : collected) : collected :=
  match v with
  | VCollection attrs =>
      (fix walk l c :=
         match l with
         | [] => c
         | (n, vals) :: rest =>
             walk rest
               ((fix each k c := match k with [] => c | (_, w) :: q => each q (walk_value w c) end)
                  vals (collect_member (ToLower n) vals c))
         end) attrs c
  | _ => c
  end.

Definition mediaCollectionFromAttrs (attrs : Attributes) : mediaCollection :=
  let c := walk_value (VCollection attrs) {| w_names := []; w_sizeName := ""; w_key := ""; w_size := named_size "" |} in
  let s := w_size c in
  let name := if negb (w_sizeName c =? "")%string then w_sizeName c
              else if negb (w_key c =? "")%string then w_key c
              else hd ""%string (w_names c) in
  {| size := set_names name (w_names c) (Ready s)
               (set_dims (XDimension s) (YDimension s) ((0 <? XDimension s) && (0 <? YDimension s)) s);
     cnames := w_names c; cready := false |}.

Definition mediaCollectionFromValue (v : Value) : option mediaCollection :=
  match v with
  | VCollection attrs =>
      let r := mediaCollectionFromAttrs attrs in
      match cnames r with
      | _ :: _ => Some r
      | [] => if HasDimension (size r) then Some r else None
      end
  | _ => None
  end.

Definition upstreamMediaCollections (attrs : Attributes) : list mediaCollection :=
  mjoin (map (fun a =>
    let name := ToLower (aName a) in
    if (name =? "media-col-database")%string || (name =? "media-col-ready")%string || (name =? "media-size-supported")%string
    then omap (fun tv =>
           (fun c => {| size := size c; cnames := cnames c; cready := (name =? "media-col-ready")%string |})
             <$> mediaCollectionFromValue (val_V tv)) (aValues a)
    else []) attrs).

Definition mediaCollectionHasName (c : mediaCollection) (policyName : string) : bool :=
  existsb (fun alias => EqualFold (TrimSpace alias) (TrimSpace policyName)) (cnames c) ||
  (negb (Name (size c) =? "")%string && EqualFold (TrimSpace (Name (size c))) (TrimSpace policyName)).

Definition mediaCollectionMatches (c : mediaCollection) (policyName : string) (policySize : option mediaSize) : bool :=
  mediaCollectionHasName c policyName ||
  match policySize with Some p => dimensionsEqual p (size c) | None => false end.

(** ** Merging *)

Definition add_names (dst src : list string) : list string :=
  fold_left (fun acc alias => if containsMediaName acc alias then acc else acc ++ [alias]) src dst.

Definition mergeMediaSize (dst src : mediaSize) : mediaSize :=
  let take := negb (HasDimension dst) && HasDimension src in
  {| Name := Name dst;
     XDimension := if take then XDimension src else XDimension dst;
     YDimension := if take then YDimension src else YDimension dst;
     HasDimension := HasDimension dst || HasDimension src;
     MediaType := first_some (MediaType dst) (MediaType src);
     MediaSource := first_some (MediaSource dst) (MediaSource src);
     Ready := Ready dst || Ready src;
     BottomMargin := first_some (BottomMargin dst) (BottomMargin src);
     LeftMargin := first_some (LeftMargin dst) (LeftMargin src);
     RightMargin := first_some (RightMargin dst) (RightMargin src);
     TopMargin := first_some (TopMargin dst) (TopMargin src);
     aliases := add_names (aliases dst) (aliases src) |}.

(** Both absent, or both present and the same keyword. *)
Definition same_keyword (a b : option string) : bool :=
  match a, b with None, None => true | Some x, Some y => EqualFold x y | _, _ => false end.
Definition compatible (a b : option Z) : bool := match a, b with Some x, Some y => x =? y | _, _ => true end.

Definition sameMediaInstance (a b : mediaSize) : bool :=
  same_keyword (MediaSource a) (MediaSource b) && same_keyword (MediaType a) (MediaType b) &&
  negb (HasDimension a && HasDimension b && negb (dimensionsEqual a b)) &&
  compatible (BottomMargin a) (BottomMargin b) && compatible (LeftMargin a) (LeftMargin b) &&
  compatible (RightMargin a) (RightMargin b) && compatible (TopMargin a) (TopMargin b).

Fixpoint mergeMediaInstance (instances : list mediaSize) (candidate : mediaSize) : list mediaSize :=
  match instances with
  | [] => [candidate]
  | i :: rest =>
      if sameMediaInstance i candidate then mergeMediaSize i candidate :: rest
      else i :: mergeMediaInstance rest candidate
  end.

Definition mediaSizeHasNonZeroMargin (s : mediaSize) : bool :=
  let pos m := match m with Some z => 0 <? z | None => false end in
  pos (BottomMargin s) || pos (LeftMargin s) || pos (RightMargin s) || pos (TopMargin s).

Definition mediaInstancePreference (s : mediaSize) : Z :=
  (if Ready s then 100 else 0) + (if mediaSizeHasNonZeroMargin s then 10 else 0).

Definition preferredMediaInstance (instances : list mediaSize) : mediaSize :=
  match instances with
  | [] => named_size ""
  | i :: rest =>
      fold_left (fun best c => if mediaInstancePreference best <? mediaInstancePreference c then c else best) rest i
  end.

Definition provenAutomaticMediaSource (upstream : Attributes) : string :=
  let supported := Attr upstream "media-source-supported" in
  let auto := match supported with
              | Some a => List.find (fun s => EqualFold s "auto") (omap (fun tv => fixedKeyword [tv]) (aValues a))
              | None => None
              end in
  match auto with
  | Some s => s
  | None =>
      match Attr upstream "media-source-default" with
      | Some a =>
          match fixedKeyword (aValues a) with
          | Some source =>
              match supported with
              | Some (n, v :: vs) => if hasString (n, v :: vs) source then source else ""
              | _ => source
              end
          | None => ""
          end
      | None => ""
      end
  end.

(** ** The catalog *)

(** The entry of the policy for a name, before the printer completes it. *)
Definition base_size (name : string) : mediaSize :=
  match mediaSizeFromPWGName name with
  | Some p => set_dims (XDimension p) (YDimension p) true (named_size name)
  | None => named_size name
  end.

(** The instance one collection of the printer contributes to a name. *)
Definition candidate (name : string) (c : mediaCollection) : mediaSize :=
  let base := base_size name in
  let d := if HasDimension (size c) && (negb (HasDimension base) || mediaCollectionHasName c name)
           then set_dims (XDimension (size c)) (YDimension (size c)) true base else base in
  let m := mergeMediaSize d (size c) in
  set_names name (add_names (aliases m) (cnames c)) (cready c || Ready m) m.

(** A collection with another source than the configured one is skipped. *)
Definition source_allowed (configured : string) (c : mediaCollection) : bool :=
  negb (negb (configured =? "")%string &&
        match MediaSource (size c) with Some s => negb (EqualFold s configured) | None => false end).

(** The source and the type an instance gets when the printer names none. *)
Definition fill_stock (upstream : Attributes) (policy : PolicyConfig) (i : mediaSize) : mediaSize :=
  let auto := provenAutomaticMediaSource upstream in
  let ty := TrimSpace (pMediaType policy) in
  set_stock (first_some (MediaType i) (if (ty =? "")%string then None else Some ty))
    (first_some (MediaSource i) (if (auto =? "")%string then None else Some auto)) i.

Definition instances_of (upstream : Attributes) (policy : PolicyConfig) (name : string) : list mediaSize :=
  let matching := List.filter (fun c => mediaCollectionMatches c name (mediaSizeFromPWGName name) &&
                                        source_allowed (policyMediaSource policy) c)
                    (upstreamMediaCollections upstream) in
  let instances := fold_left (fun l c => mergeMediaInstance l (candidate name c)) matching [] in
  map (fill_stock upstream policy) (match instances with [] => [base_size name] | l => l end).

Definition add_media (upstream : Attributes) (policy : PolicyConfig) (cat : mediaCatalog) (name : string) : mediaCatalog :=
  let instances := instances_of upstream policy name in
  let key := mediaNameKey name in
  {| Sizes := Sizes cat ++ instances; Instances := Instances cat ++ instances;
     ByName := <[key := preferredMediaInstance instances]> (ByName cat);
     ByNameAll := <[key := default [] (ByNameAll cat !! key) ++ instances]> (ByNameAll cat) |}.

Definition buildMediaCatalog (upstream : Attributes) (policy : PolicyConfig) : mediaCatalog :=
  fold_left (add_media upstream policy) (policyMediaNames policy)
    {| Sizes := []; Instances := []; ByName := ∅; ByNameAll := ∅ |}.

(** ** The media-col of a job *)

Section build.
Context `{G : GoippLib}.

Definition mediaColJobAttr (name : string) (s : mediaSize) (mediaType mediaSource : string) : Attribute :=
  let members :=
    (if HasDimension s
     then [MakeAttrCollection "media-size" (Integer "x-dimension" (XDimension s)) [Integer "y-dimension" (YDimension s)]]
     else []) ++
    (if negb (mediaType =? "")%string then [Keyword "media-type" mediaType] else []) ++
    (if negb (mediaSource =? "")%string then [Keyword "media-source" mediaSource] else []) in
  MakeAttribute name TagBeginCollection (VCollection members).
End build.
