(* ===== verification/Normalizer.v ===== *)
(** * The policy of a queue ([internal/proxy/normalizer.go])

    The job attributes of a client are cut down to what the policy leaves to
    the client, and completed with what the policy fixes; the media is chosen
    from the catalog of the queue. *)

From Stdlib Require Import ZArith Lia Ascii String.
From stdpp Require Import base tactics list strings gmap.
From S2P Require Import Prelude GoString Goipp IppAttrs GoError Protocol MediaCatalog.

Definition policyDropAttrs : list string :=
  ["media"; "media-col"; "media-type"; "media-source"; "media-weight-metric"; "media-color";
   "media-pre-printed"; "media-hole-count"; "media-order-count"; "media-recycled"; "media-tooth";
   "print-color-mode"; "output-mode"].

Record NormalizationLog := {
  ClientMedia : string;
  ClientMediaCol : string;
  ClientMediaType : string;
  ClientMediaSource : string;
  ClientPrintColorMode : string;
  RequestedMedia : string;
  RequestedMediaCol : string;
  EffectiveMedia : string;
  MediaFallback : bool;
  ForcedMedia : string;
  ForcedMediaType : string;
  ForcedMediaSource : string;
  ForcedPrintColorMode : string
}.

Definition FidelityWarn : string := "warn".
Definition FidelityReject : string := "reject".

Record NormalizationOptions := {
  oPolicy : PolicyConfig;
  oUpstream : Attributes;
  oDropVendorAttrs : list string;
  oPreserveJobAttrs : list string;
  oFidelity : bool;
  oFidelityMode : string
}.

Record NormalizationResult := {
  nAttrs : Attributes;
  nLog : NormalizationLog;
  nUnsupported : Attributes;
  nSubstitutions : list string;
  nSubstituted : bool
}.

Record NormalizationError := { neStatus : Z; neMessage : string; neUnsupported : Attributes }.

(** ** Malformed values *)

Definition malformed_keyword (attr : Attribute) : bool :=
  match aValues attr with
  | [(t, VString s)] => negb (t =? TagKeyword) || (TrimSpace s =? "")%string
  | _ => true
  end.

Definition malformedPolicyAttributes (attrs : Attributes) : Attributes :=
  List.filter (fun a =>
    let name := ToLower (aName a) in
    if in_strings name ["media"; "media-type"; "media-source"; "print-color-mode"; "output-mode"] then malformed_keyword a
    else if (name =? "media-col")%string then
      match aValues a with [(t, _)] => negb (t =? TagBeginCollection) || negb (validMediaColSyntax a) | _ => true end
    else false) attrs.

(** ** Overrides *)

(** The names of [drop]: the policy's and the vendor's, lower-cased. *)
Definition drop_set (vendorDrop : list string) : gset string := name_set (policyDropAttrs ++ vendorDrop).

(** [dropNestedPolicyAttrs] on the attributes of a collection value, at every
    depth. *)
Fixpoint drop_value (drop : gset string) (v : Value) : Value :=
  match v with
  | VCollection attrs =>
      VCollection
        ((fix go l :=
            match l with
            | [] => []
            | (n, vals) :: rest =>
                if bool_decide (ToLower n ∈ drop) then go rest
                else (n, (fix each k := match k with [] => [] | (t, w) :: q => (t, drop_value drop w) :: each q end) vals)
                       :: go rest
            end) attrs)
  | _ => v
  end.

Definition dropNestedPolicyAttrs (attrs : Attributes) (vendorDrop : list string) : Attributes :=
  match drop_value (drop_set vendorDrop) (VCollection attrs) with VCollection l => l | _ => [] end.

Definition hasOverridePayload (attrs : Attributes) : bool :=
  existsb (fun a => negb (in_strings (ToLower (aName a))
    ["document-number"; "document-numbers"; "page-ranges"; "pages"; "document-copies"; "copy-numbers"])) attrs.

(** [None] is [ok == false]. *)
Definition sanitizeOverridesAttr (attr : Attribute) (vendorDrop : list string) : option Attribute :=
  let values := omap (fun tv => match val_V tv with
                                | VCollection l =>
                                    let filtered := dropNestedPolicyAttrs l vendorDrop in
                                    if (length filtered =? 0)%nat || negb (hasOverridePayload filtered) then None
                                    else Some (TagBeginCollection, VCollection filtered)
                                | _ => None
                                end) (aValues attr) in
  match values with [] => None | _ => Some (aName attr, values) end.

Definition sanitizeOverrides (attrs : Attributes) (vendorDrop : list string) : Attributes :=
  omap (fun a => if negb (EqualFold (aName a) "overrides") then Some a else sanitizeOverridesAttr a vendorDrop) attrs.

(** ** The requested media *)

Definition attributeStrings (attr : Attribute) : option (list string) :=
  match aValues attr with
  | [] => None
  | l => mapM (fun tv => stringValue (val_V tv)) l
  end.

Record mediaColSelector := {
  sNames : list string;
  sX : option Z;
  sY : option Z;
  sInvalid : bool
}.

Definition no_selector : mediaColSelector := {| sNames := []; sX := None; sY := None; sInvalid := false |}.
Definition invalidate (s : mediaColSelector) : mediaColSelector :=
  {| sNames := sNames s; sX := sX s; sY := sY s; sInvalid := true |}.

(** The switch of [collectMediaColSelector]. *)
Definition select_member (name : string) (vals : list TValue) (s : mediaColSelector) : mediaColSelector :=
  if in_strings name ["media-key"; "media-size-name"] then
    match attributeStrings (name, vals) with
    | Some [v] =>
        if (TrimSpace v =? "")%string then invalidate s
        else {| sNames := sNames s ++ [TrimSpace v]; sX := sX s; sY := sY s; sInvalid := sInvalid s |}
    | _ => invalidate s
    end
  else if (name =? "x-dimension")%string then
    match fixedInteger vals, sX s with
    | Some v, None => {| sNames := sNames s; sX := Some v; sY := sY s; sInvalid := sInvalid s |}
    | _, _ => invalidate s
    end
  else if (name =? "y-dimension")%string then
    match fixedInteger vals, sY s with
    | Some v, None => {| sNames := sNames s; sX := sX s; sY := Some v; sInvalid := sInvalid s |}
    | _, _ => invalidate s
    end
  else s.

Fixpoint select_value (v : Value) (s : mediaColSelector) : mediaColSelector :=
  match v with
  | VCollection attrs =>
      (fix go l s :=
         match l with
         | [] => s
         | (n, vals) :: rest =>
             go rest
               ((fix each k s := match k with [] => s | (_, w) :: q => each q (select_value w s) end)
                  vals (select_member (ToLower n) vals s))
         end) attrs s
  | _ => s
  end.

Definition collectMediaColSelector (attrs : Attributes) (s : mediaColSelector) : mediaColSelector :=
  select_value (VCollection attrs) s.

(** The loop over the names: each must be in the catalog, and all the same
    name. [None] is an early [false]. *)
Fixpoint resolve_names (names : list string) (catalog : mediaCatalog) (named : option mediaSize)
    : option (option mediaSize) :=
  match names with
  | [] => Some named
  | raw :: rest =>
      match ByName catalog !! mediaNameKey raw with
      | None => None
      | Some s =>
          match named with
          | None => resolve_names rest catalog (Some s)
          | Some n => if (mediaNameKey (Name n) =? mediaNameKey (Name s))%string
                      then resolve_names rest catalog named else None
          end
      end
  end.

(** The only entry of the catalog with the dimensions. *)
Definition resolve_dimensions (x y : option Z) (catalog : mediaCatalog) : option (option mediaSize) :=
  match x, y with
  | None, None => Some None
  | Some x, Some y =>
      if (x <=? 0) || (y <=? 0) then None
      else match List.filter (dimensionsEqual (set_dims x y true (named_size ""))) (Sizes catalog) with
           | [s] => Some (Some s)
           | _ => None
           end
  | _, _ => None
  end.

Definition resolveMediaCol (attr : Attribute) (catalog : mediaCatalog) : option mediaSize :=
  match aValues attr with
  | [(_, VCollection attrs)] =>
      let selector := collectMediaColSelector attrs no_selector in
      if sInvalid selector then None
      else
        named ← resolve_names (sNames selector) catalog None;
        dimensional ← resolve_dimensions (sX selector) (sY selector) catalog;
        match named, dimensional with
        | Some n, Some d => if dimensionsEqual n d then Some n else None
        | Some n, None => Some n
        | None, d => d
        end
  | _ => None
  end.

Section normalize.
Context `{G : GoippLib}.

Definition attributeDisplay (attr : Attribute) : string := Join (map (fun tv => Sprint (val_V tv)) (aValues attr)) ",".

(** The size, the requested media, the requested media-col, the fallback. *)
Definition selectRequestedMedia (attrs : Attributes) (catalog : mediaCatalog) (policy : PolicyConfig)
    : mediaSize * string * string * bool :=
  let defaultSize := default (named_size "") (ByName catalog !! mediaNameKey (policyMediaDefault policy)) in
  let defaultSize := match Sizes catalog with
                     | s :: _ => if (Name defaultSize =? "")%string then s else defaultSize
                     | [] => defaultSize
                     end in
  match Attr attrs "media-col", Attr attrs "media" with
  | Some mediaCol, _ =>
      let raw := attributeDisplay mediaCol in
      match resolveMediaCol mediaCol catalog with
      | Some selected => (selected, raw, raw, false)
      | None => (defaultSize, raw, raw, true)
      end
  | None, Some media =>
      let raw := attributeDisplay media in
      match attributeStrings media with
      | Some [v] =>
          match ByName catalog !! mediaNameKey v with
          | Some selected => (selected, raw, ""%string, false)
          | None => (defaultSize, raw, ""%string, true)
          end
      | _ => (defaultSize, raw, ""%string, true)
      end
  | None, None => (defaultSize, ""%string, ""%string, true)
  end.

(** The media the job is printed on; [catalog.Sizes[0]] exists, since the
    policy names at least one medium. *)
Definition effective_media (attrs : Attributes) (catalog : mediaCatalog) (policy : PolicyConfig)
    : mediaSize * string * string * bool :=
  let '(selected, requested, requestedCol, fallback) := selectRequestedMedia attrs catalog policy in
  if (Name selected =? "")%string
  then (hd (named_size "") (Sizes catalog), requested, requestedCol, true)
  else (selected, requested, requestedCol, fallback).

(** The attributes the policy appends. *)
Definition forced_media (policy : PolicyConfig) (selected : mediaSize) : Attributes :=
  if pUseMediaCol policy
  then [mediaColJobAttr "media-col" selected (pMediaType policy) (policyMediaSource policy)]
  else [Keyword "media" (Name selected)] ++
       (if negb (pMediaType policy =? "")%string then [Keyword "media-type" (pMediaType policy)] else []) ++
       (if negb (policyMediaSource policy =? "")%string then [Keyword "media-source" (policyMediaSource policy)] else []).

Definition forced_color (policy : PolicyConfig) : Attributes :=
  Keyword "print-color-mode" (pPrintColorMode policy) ::
  (if (pPrintColorMode policy =? "monochrome")%string then [Keyword "output-mode" "monochrome"] else []).

(** The fixed print-scaling, when the policy has one. *)
Definition forced_scaling (policy : PolicyConfig) : option string :=
  match pPrintScaling policy with Some s => if (s =? "")%string then None else Some s | None => None end.

Definition NormalizeJobAttrsWithCapabilities (attrs : Attributes) (policy : PolicyConfig)
    (vendorDrop : list string) (upstream : Attributes) : Attributes * NormalizationLog :=
  let catalog := buildMediaCatalog upstream policy in
  let '(selected, requested, requestedCol, fallback) := effective_media attrs catalog policy in
  let log := {|
    ClientMedia := default ""%string (FirstString attrs "media");
    ClientMediaCol := match Attr attrs "media-col" with Some a => attributeDisplay a | None => "" end;
    ClientMediaType := default ""%string (FirstString attrs "media-type");
    ClientMediaSource := default ""%string (FirstString attrs "media-source");
    ClientPrintColorMode := default ""%string (FirstString attrs "print-color-mode");
    RequestedMedia := requested; RequestedMediaCol := requestedCol; EffectiveMedia := Name selected;
    MediaFallback := fallback; ForcedMedia := Name selected; ForcedMediaType := pMediaType policy;
    ForcedMediaSource := policyMediaSource policy; ForcedPrintColorMode := pPrintColorMode policy |} in
  let out := DropAttrs attrs (policyDropAttrs ++ vendorDrop) in
  let out := sanitizeOverrides out vendorDrop in
  let out := out ++ forced_media policy selected in
  let out := match forced_scaling policy with
             | Some s => SetAttr out (Keyword "print-scaling" s)
             | None => out
             end in
  (out ++ forced_color policy, log).

Definition NormalizeJobAttrs (attrs : Attributes) (policy : PolicyConfig) (vendorDrop : list string)
    : Attributes * NormalizationLog :=
  NormalizeJobAttrsWithCapabilities attrs policy vendorDrop [].

(** The substitutions noted after the normalisation, in their order: the name
    reported and the attribute of the client. *)
Definition substitutions (attrs normalized : Attributes) (log : NormalizationLog) (options : NormalizationOptions)
    : list (string * Attribute) :=
  let policy := oPolicy options in
  let note name attr (present : bool) := if present then [(name, attr)] else [] in
  let on name (f : Attribute -> list (string * Attribute)) := match Attr attrs name with Some a => f a | None => [] end in
  on "media"%string (fun a => note "media"%string a
    (MediaFallback log || negb (HasStringValue normalized "media" (ClientMedia log)))) ++
  on "media-col"%string (fun a => note "media-col"%string a (MediaFallback log || negb (pUseMediaCol policy))) ++
  mjoin (map (fun '(name, want) =>
    on name (fun a => note name a
      (negb (EqualFold (TrimSpace (default ""%string (FirstString attrs name))) (TrimSpace want)))))
    [("media-type", pMediaType policy); ("media-source", policyMediaSource policy);
     ("print-color-mode", pPrintColorMode policy); ("output-mode", pPrintColorMode policy)]%string) ++
  mjoin (map (fun name => on name (fun a => [(aName a, a)])) (oDropVendorAttrs options)).

Definition NormalizeJobAttrsWithOptions (attrs : Attributes) (options : NormalizationOptions)
    : NormalizationError + NormalizationResult :=
  let mode := if (oFidelityMode options =? "")%string then FidelityWarn else oFidelityMode options in
  let fail status message unsupported :=
    inl {| neStatus := status; neMessage := message; neUnsupported := unsupported |} in
  if negb (mode =? FidelityWarn)%string && negb (mode =? FidelityReject)%string
  then fail StatusErrorBadRequest "invalid fidelity mode"%string []
  else
    match malformedPolicyAttributes attrs with
    | (_ :: _) as invalid => fail StatusErrorAttributesOrValues "malformed policy-controlled attribute"%string invalid
    | [] =>
        let preserve : gset string :=
          list_to_set (map (fun n => ToLower (TrimSpace n)) (oPreserveJobAttrs options)) in
        let policyNames := drop_set (oDropVendorAttrs options) in
        let supported a := bool_decide (ToLower (aName a) ∈ policyNames) || bool_decide (ToLower (aName a) ∈ preserve) in
        let input := List.filter supported attrs in
        let unsupported := List.filter (fun a => negb (supported a)) attrs in
        if oFidelity options && negb (length unsupported =? 0)%nat
        then fail StatusErrorAttributesOrValues "unsupported job-template attributes"%string unsupported
        else
          let '(normalized, log) :=
            NormalizeJobAttrsWithCapabilities input (oPolicy options) (oDropVendorAttrs options) (oUpstream options) in
          let subs := substitutions attrs normalized log options in
          let result := {|
            nAttrs := normalized; nLog := log; nUnsupported := unsupported ++ map snd subs;
            nSubstitutions := map fst unsupported ++ map fst subs;
            nSubstituted := negb (length unsupported =? 0)%nat || negb (length subs =? 0)%nat |} in
          if oFidelity options && (mode =? FidelityReject)%string && nSubstituted result
          then fail StatusErrorAttributesOrValues "job attributes conflict with queue policy"%string (nUnsupported result)
          else inr result
    end.
End normalize.
