(* ===== verification/NormalizerTheorems.v ===== *)
(** * The policy of a queue: the theorems

    The catalog of a queue holds the media of its policy and no other; after
    the normalisation nothing the policy controls comes from the client, at
    any depth of an override; what the policy leaves alone is kept; the media
    is always one of the policy's, and the requested one when it is. *)

From Stdlib Require Import ZArith Lia Ascii String.
From stdpp Require Import base tactics list strings gmap.
From S2P Require Import Prelude GoString Goipp IppAttrs GoError Protocol MediaCatalog Normalizer.

(** ** The catalog *)

Lemma policyMediaNames_nonempty policy : policyMediaNames policy <> [].
Proof. unfold policyMediaNames. destruct (List.filter _ _); [destruct (negb _)|]; done. Qed.

Lemma policyMediaNames_named policy n : n ∈ policyMediaNames policy -> n <> ""%string.
Proof.
  unfold policyMediaNames. destruct (List.filter _ _) as [|x l] eqn:E.
  - destruct (negb _) eqn:Hn; intros H; apply list_elem_of_singleton in H as ->; [|done].
    intros Hm. by rewrite Hm in Hn.
  - rewrite <- E. intros H Hn. apply list_elem_of_In, filter_In in H as [_ H]. subst. done.
Qed.

Lemma mergeMediaInstance_names l c n : (forall i, i ∈ l -> Name i = n) -> Name c = n ->
  mergeMediaInstance l c <> [] /\ forall i, i ∈ mergeMediaInstance l c -> Name i = n.
Proof.
  intros Hl Hc. induction l as [|x l IH]; cbn.
  - split; [done|]. intros i Hi. apply list_elem_of_singleton in Hi as ->. done.
  - destruct (sameMediaInstance x c).
    + split; [done|]. intros i Hi. apply elem_of_cons in Hi as [->|Hi]; [change (Name x = n); apply Hl; left|apply Hl; by right].
    + split; [done|]. intros i Hi. apply elem_of_cons in Hi as [->|Hi]; [apply Hl; left|].
      apply IH; [|done]. intros j Hj. apply Hl. by right.
Qed.

Lemma base_size_name n : Name (base_size n) = n.
Proof. unfold base_size. by destruct (mediaSizeFromPWGName n). Qed.

Lemma instances_of_names upstream policy n : instances_of upstream policy n <> [] /\
  forall i, i ∈ instances_of upstream policy n -> Name i = n.
Proof.
  unfold instances_of. set (matching := List.filter _ _).
  assert (forall l k, (forall i, i ∈ k -> Name i = n) ->
    forall i, i ∈ fold_left (fun l c => mergeMediaInstance l (candidate n c)) l k -> Name i = n) as Hfold.
  { induction l as [|c l IH]; intros k Hk i Hi; [by apply Hk|]. cbn in Hi.
    eapply IH; [|exact Hi]. exact (proj2 (mergeMediaInstance_names k (candidate n c) n Hk eq_refl)). }
  assert (forall i, i ∈ @nil mediaSize -> Name i = n) as Hnil by (intros i Hi; by apply not_elem_of_nil in Hi).
  specialize (Hfold matching [] Hnil).
  destruct (fold_left _ matching []) as [|x l] eqn:E.
  - split; [done|]. intros i Hi. apply list_elem_of_singleton in Hi as ->. apply base_size_name.
  - split; [done|]. intros i Hi. apply list_elem_of_In, in_map_iff in Hi as (j & <- & Hj).
    apply list_elem_of_In in Hj. change (Name j = n). by apply Hfold.
Qed.

Lemma preferredMediaInstance_in l : l <> [] -> preferredMediaInstance l ∈ l.
Proof.
  destruct l as [|x l]; [done|]. intros _. cbn.
  enough (forall k b, fold_left (fun best c => if mediaInstancePreference best <? mediaInstancePreference c then c else best) k b ∈ b :: k) as H by apply H.
  induction k as [|y k IH]; intros b; cbn; [left|].
  specialize (IH (if mediaInstancePreference b <? mediaInstancePreference y then y else b)).
  destruct (_ <? _); set_solver.
Qed.

(** What a catalog under construction satisfies, for the names added so far. *)
Record catalog_ok (names : list string) (cat : mediaCatalog) : Prop := {
  cat_sizes : forall s, s ∈ Sizes cat -> Name s ∈ names;
  cat_nonempty : names <> [] -> Sizes cat <> [];
  cat_by_name : forall k s, ByName cat !! k = Some s -> k = mediaNameKey (Name s) /\ Name s ∈ names;
  cat_complete : forall n, n ∈ names -> is_Some (ByName cat !! mediaNameKey n);
  cat_by_name_in : forall k s, ByName cat !! k = Some s -> s ∈ Sizes cat
}.

Lemma add_media_ok upstream policy names cat n : catalog_ok names cat ->
  catalog_ok (names ++ [n]) (add_media upstream policy cat n).
Proof.
  intros [Hs Hne Hb Hc Hi]. destruct (instances_of_names upstream policy n) as [Hin Hnames].
  pose proof (preferredMediaInstance_in _ Hin) as Hpref.
  split; unfold add_media; cbn [Sizes ByName].
  - intros s Hin'. apply elem_of_app in Hin' as [H|H]; [set_solver|]. rewrite (Hnames s H). set_solver.
  - intros _ He. apply app_eq_nil in He as [_ He]. done.
  - intros k s. destruct (decide (k = mediaNameKey n)) as [->|Hk].
    + rewrite lookup_insert_eq. intros [= <-]. rewrite (Hnames _ Hpref). set_solver.
    + rewrite lookup_insert_ne by done. intros H. destruct (Hb k s H). set_solver.
  - intros m Hm. destruct (decide (mediaNameKey m = mediaNameKey n)) as [->|Hk].
    + rewrite lookup_insert_eq. done.
    + rewrite lookup_insert_ne by done. apply Hc. set_solver.
  - intros k s. destruct (decide (k = mediaNameKey n)) as [->|Hk].
    + rewrite lookup_insert_eq. intros [= <-]. set_solver.
    + rewrite lookup_insert_ne by done. intros H. specialize (Hi k s H). set_solver.
Qed.

Lemma buildMediaCatalog_ok upstream policy : catalog_ok (policyMediaNames policy) (buildMediaCatalog upstream policy).
Proof.
  unfold buildMediaCatalog.
  enough (forall l done_ cat, catalog_ok done_ cat ->
    catalog_ok (done_ ++ l) (fold_left (add_media upstream policy) l cat)) as H.
  { apply (H _ []). split; cbn; [intros s Hs; by apply not_elem_of_nil in Hs|done|intros k s; by rewrite lookup_empty
      |intros n Hn; by apply not_elem_of_nil in Hn|intros k s; by rewrite lookup_empty]. }
  induction l as [|n l IH]; intros d cat Hok; [by rewrite app_nil_r|].
  cbn. rewrite cons_middle, app_assoc. apply IH. by apply add_media_ok.
Qed.

(** *** Dimensions *)

Definition dims_ok (s : mediaSize) : Prop := HasDimension s = true -> 0 < XDimension s /\ 0 < YDimension s.
(** An entry without dimensions has a name that carries none. *)
Definition entry_ok (s : mediaSize) : Prop :=
  dims_ok s /\ (HasDimension s = false -> mediaSizeFromPWGName (Name s) = None).

Lemma roundedIPPDimension_range x m z : roundedIPPDimension x m = Some z -> 1 <= z <= MaxInt32.
Proof.
  unfold roundedIPPDimension. destruct (_ || _ || _); [done|]. destruct (_ || _ || _); [done|].
  destruct ((_ <? 1) || _) eqn:E; [done|]. intros [= <-]. bool_to_prop. lia.
Qed.

Lemma mediaSizeFromPWGName_dims n s : mediaSizeFromPWGName n = Some s ->
  HasDimension s = true /\ 1 <= XDimension s <= MaxInt32 /\ 1 <= YDimension s <= MaxInt32.
Proof.
  unfold mediaSizeFromPWGName. destruct (pwgMediaDimensions _) as [[[xs ys] inch]|]; [|done]. cbn [mbind option_bind].
  destruct (ParseFloat (fst xs) _); [|done]. cbn [mbind option_bind].
  destruct (ParseFloat (fst ys) _); [|done]. cbn [mbind option_bind].
  destruct (_ || _); [done|].
  destruct (roundedIPPDimension f _) as [a|] eqn:Ea; [|done]. destruct (roundedIPPDimension f0 _) as [b|] eqn:Eb; [|done].
  intros [= <-]. cbn [HasDimension XDimension YDimension set_dims].
  split; [done|]. split; by eapply roundedIPPDimension_range.
Qed.

Lemma base_size_ok n : entry_ok (base_size n).
Proof.
  unfold base_size, entry_ok, dims_ok. destruct (mediaSizeFromPWGName n) as [p|] eqn:E; [|by split].
  apply mediaSizeFromPWGName_dims in E as (_ & Hx & Hy). cbn. split; [lia|done].
Qed.

Lemma mergeMediaSize_dims d s : dims_ok d -> dims_ok s -> dims_ok (mergeMediaSize d s).
Proof.
  unfold dims_ok, mergeMediaSize. cbn [HasDimension XDimension YDimension].
  destruct (HasDimension d), (HasDimension s); cbn; naive_solver.
Qed.

Lemma mergeMediaSize_entry d s : entry_ok d -> dims_ok s -> entry_ok (mergeMediaSize d s).
Proof.
  intros [H1 H2] Hs. split; [by apply mergeMediaSize_dims|].
  unfold mergeMediaSize. cbn [HasDimension Name]. destruct (HasDimension d); [done|]. intros _. by apply H2.
Qed.

Lemma collection_dims v c : mediaCollectionFromValue v = Some c -> dims_ok (size c).
Proof.
  unfold mediaCollectionFromValue. destruct v; try done.
  assert (dims_ok (size (mediaCollectionFromAttrs attrs))) as H.
  { unfold mediaCollectionFromAttrs, dims_ok. cbn [size HasDimension XDimension YDimension set_names set_dims].
    intros H. bool_to_prop. lia. }
  destruct (cnames _); [destruct (HasDimension (size _))|]; naive_solver.
Qed.

Lemma upstream_dims upstream c : c ∈ upstreamMediaCollections upstream -> dims_ok (size c).
Proof.
  unfold upstreamMediaCollections. intros H. apply list_elem_of_join in H as (l & Hc & Hl).
  apply list_elem_of_In, in_map_iff in Hl as (a & <- & _). destruct (_ || _); [|by apply not_elem_of_nil in Hc].
  apply list_elem_of_omap in Hc as ([t v] & _ & Hc). cbn [snd] in Hc.
  destruct (mediaCollectionFromValue v) as [k|] eqn:E; [|done]. injection Hc as <-. by eapply (collection_dims v k).
Qed.

Lemma candidate_ok n c : dims_ok (size c) -> entry_ok (candidate n c).
Proof.
  intros Hc. pose proof (base_size_ok n) as [Hb1 Hb2]. rewrite base_size_name in Hb2. unfold candidate.
  set (d := if HasDimension (size c) && _ then _ else _).
  assert (entry_ok d) as Hd.
  { subst d. destruct (HasDimension (size c) && _) eqn:E; [|by split; rewrite ?base_size_name].
    apply andb_true_iff in E as [E _]. by split; [intros _; apply Hc|]. }
  assert (Name d = n) as Hn by (subst d; destruct (HasDimension (size c) && _); apply base_size_name).
  pose proof (mergeMediaSize_entry d (size c) Hd Hc) as [H1 H2]. unfold mergeMediaSize in H2 at 2. cbn [Name] in H2.
  rewrite Hn in H2. by split.
Qed.

Lemma mergeMediaInstance_ok l c : Forall entry_ok l -> entry_ok c -> Forall entry_ok (mergeMediaInstance l c).
Proof.
  intros Hl Hc. induction Hl as [|x l Hx Hl IH]; cbn; [by constructor|].
  destruct (sameMediaInstance x c); constructor; try done. apply mergeMediaSize_entry; [done|apply Hc].
Qed.

Lemma instances_of_ok upstream policy n : Forall entry_ok (instances_of upstream policy n).
Proof.
  unfold instances_of. set (matching := List.filter _ _).
  assert (forall c, In c matching -> dims_ok (size c)) as Hm.
  { intros c Hc. apply filter_In in Hc as [Hc _]. apply list_elem_of_In in Hc. by eapply upstream_dims. }
  assert (forall l k, (forall c, In c l -> dims_ok (size c)) -> Forall entry_ok k ->
    Forall entry_ok (fold_left (fun l c => mergeMediaInstance l (candidate n c)) l k)) as Hfold.
  { induction l as [|c l IH]; intros k Hl Hk; [done|]. cbn [fold_left]. apply IH; [intros; apply Hl; by right|].
    apply mergeMediaInstance_ok; [done|]. apply candidate_ok, Hl. by left. }
  specialize (Hfold matching [] Hm ltac:(constructor)).
  destruct (fold_left _ matching []) as [|x l].
  - constructor; [exact (base_size_ok n)|constructor].
  - clear -Hfold. induction Hfold as [|y k [H1 H2] _ IH]; constructor; [by split|done].
Qed.

Lemma buildMediaCatalog_entries upstream policy : Forall entry_ok (Sizes (buildMediaCatalog upstream policy)).
Proof.
  unfold buildMediaCatalog.
  enough (forall l cat, Forall entry_ok (Sizes cat) -> Forall entry_ok (Sizes (fold_left (add_media upstream policy) l cat))) as H
    by (apply H; constructor).
  induction l as [|n l IH]; intros cat Hc; [done|]. cbn [fold_left]. apply IH. unfold add_media. cbn [Sizes].
  apply Forall_app. split; [done|]. apply instances_of_ok.
Qed.

(** ** The chosen media *)

Lemma resolve_names_in names catalog named s :
  (forall n, named = Some n -> exists k, ByName catalog !! k = Some n) ->
  resolve_names names catalog named = Some (Some s) -> exists k, ByName catalog !! k = Some s.
Proof.
  revert named. induction names as [|raw rest IH]; intros named Hn; cbn.
  { intros [= ->]. by apply Hn. }
  destruct (ByName catalog !! mediaNameKey raw) as [x|] eqn:E; [|done].
  destruct named as [n|].
  - destruct (_ =? _)%string; [|done]. by apply IH.
  - apply IH. intros n [= <-]. eauto.
Qed.

Lemma resolve_dimensions_in x y catalog s : resolve_dimensions x y catalog = Some (Some s) -> s ∈ Sizes catalog.
Proof.
  unfold resolve_dimensions. destruct x, y; try done. destruct (_ || _); [done|].
  destruct (List.filter _ _) as [|a [|]] eqn:E; try done. intros [= <-].
  assert (a ∈ List.filter (dimensionsEqual (set_dims z z0 true (named_size ""))) (Sizes catalog)) as H by (rewrite E; left).
  apply list_elem_of_In, filter_In in H as [H _]. by apply list_elem_of_In.
Qed.

Lemma resolveMediaCol_in attr upstream policy s :
  resolveMediaCol attr (buildMediaCatalog upstream policy) = Some s -> Name s ∈ policyMediaNames policy.
Proof.
  pose proof (buildMediaCatalog_ok upstream policy) as Hok. set (cat := buildMediaCatalog upstream policy) in *.
  unfold resolveMediaCol. destruct (aValues attr) as [|[t []] [|]]; try done.
  destruct (sInvalid _); [done|]. cbn [mbind option_bind].
  destruct (resolve_names _ _ _) as [named|] eqn:En; [|done]. cbn.
  destruct (resolve_dimensions _ _ _) as [dim|] eqn:Ed; [|done]. cbn.
  assert (forall n, named = Some n -> Name n ∈ policyMediaNames policy) as Hn.
  { intros n ->. apply resolve_names_in in En as [k Hk]; [|done]. by apply (cat_by_name _ _ Hok k n). }
  assert (forall n, dim = Some n -> Name n ∈ policyMediaNames policy) as Hd.
  { intros n ->. apply resolve_dimensions_in in Ed. by apply (cat_sizes _ _ Hok). }
  destruct named as [n|], dim as [d|]; [destruct (dimensionsEqual n d)|..]; intros [= <-]; auto.
Qed.

Section chosen.
Context `{G : GoippLib}.

Lemma default_in upstream policy :
  let cat := buildMediaCatalog upstream policy in
  let d := default (named_size "") (ByName cat !! mediaNameKey (policyMediaDefault policy)) in
  Name (match Sizes cat with s :: _ => if (Name d =? "")%string then s else d | [] => d end) ∈ policyMediaNames policy.
Proof.
  cbv zeta. pose proof (buildMediaCatalog_ok upstream policy) as Hok. set (cat := buildMediaCatalog upstream policy) in *.
  destruct (Sizes cat) as [|s l] eqn:E.
  { exfalso. by apply (cat_nonempty _ _ Hok (policyMediaNames_nonempty policy)). }
  assert (Name s ∈ policyMediaNames policy) as Hs by (apply (cat_sizes _ _ Hok); rewrite E; left).
  destruct (ByName cat !! _) as [d|] eqn:Ed; cbn; [|done].
  destruct (String.eqb_spec (Name d) ""); [done|]. by apply (cat_by_name _ _ Hok _ _ Ed).
Qed.

Lemma selected_in attrs upstream policy :
  let cat := buildMediaCatalog upstream policy in
  Name (effective_media attrs cat policy).1.1.1 ∈ policyMediaNames policy /\
  effective_media attrs cat policy = selectRequestedMedia attrs cat policy.
Proof.
  cbv zeta. pose proof (buildMediaCatalog_ok upstream policy) as Hok.
  pose proof (default_in upstream policy) as Hdef. cbv zeta in Hdef. set (cat := buildMediaCatalog upstream policy) in *.
  assert (Name (selectRequestedMedia attrs cat policy).1.1.1 ∈ policyMediaNames policy) as Hsel.
  { unfold selectRequestedMedia. destruct (Attr attrs "media-col") as [mc|].
    - destruct (resolveMediaCol mc cat) eqn:Er; [|done]. by eapply resolveMediaCol_in.
    - destruct (Attr attrs "media") as [m|]; [|done]. destruct (attributeStrings m) as [[|v [|]]|]; try done.
      destruct (ByName cat !! mediaNameKey v) as [d|] eqn:Eb; [|done]. by apply (cat_by_name _ _ Hok _ _ Eb). }
  unfold effective_media. destruct (selectRequestedMedia attrs cat policy) as [[[s r] rc] fb]. cbn in Hsel.
  destruct (String.eqb_spec (Name s) "") as [E|]; [|by split].
  exfalso. by apply (policyMediaNames_named policy (Name s)).
Qed.
End chosen.

(** ** Overrides *)

(** A name of which [p] holds occurs in a value, at some depth. *)
Inductive occurs (p : string -> Prop) : Value -> Prop :=
| occurs_here l n vals : (n, vals) ∈ l -> p n -> occurs p (VCollection l)
| occurs_inside l n vals t w : (n, vals) ∈ l -> (t, w) ∈ vals -> occurs p w -> occurs p (VCollection l).

(** The two loops of [drop_value] as [map] and [filter]. *)
Lemma drop_value_collection drop attrs : drop_value drop (VCollection attrs) =
  VCollection (map (fun a => (aName a, map (fun tv => (val_T tv, drop_value drop (val_V tv))) (aValues a)))
    (List.filter (fun a => negb (bool_decide (ToLower (aName a) ∈ drop))) attrs)).
Proof.
  cbn. f_equal. induction attrs as [|[n vals] rest IH]; [done|]. cbn.
  destruct (bool_decide _); cbn; [exact IH|]. f_equal; [|exact IH]. f_equal.
  clear. induction vals as [|[t w] q IH]; [done|]. cbn. by rewrite IH.
Qed.

Lemma drop_value_clean drop v : ~ occurs (fun n => ToLower n ∈ drop) (drop_value drop v).
Proof.
  induction v as [| | | | | |attrs IH|] using Value_rect_nested; intros H; try by inversion H.
  rewrite drop_value_collection in H.
  inversion H as [l n vals Hin Hp|l n vals t w Hin Htw Hw]; subst; clear H.
  - apply list_elem_of_In, in_map_iff in Hin as ([n' vals'] & [= <- _] & Hin).
    apply filter_In in Hin as [_ Hd]. apply negb_true_iff, bool_decide_eq_false in Hd. done.
  - apply list_elem_of_In, in_map_iff in Hin as ([n' vals'] & [= <- <-] & Hin).
    apply filter_In in Hin as [Hin _]. apply list_elem_of_In in Hin.
    apply list_elem_of_In, in_map_iff in Htw as ([t' w'] & [= <- <-] & Htw). apply list_elem_of_In in Htw.
    rewrite Forall_forall in IH. specialize (IH _ Hin). cbn in IH. rewrite Forall_forall in IH.
    by apply (IH (t', w') Htw).
Qed.

Lemma drop_value_untouched drop v : ~ occurs (fun n => ToLower n ∈ drop) v -> drop_value drop v = v.
Proof.
  induction v as [| | | | | |attrs IH|] using Value_rect_nested; intros H; try done.
  rewrite drop_value_collection. f_equal.
  rewrite Forall_forall in IH.
  assert (forall l, (forall a, a ∈ l -> a ∈ attrs) ->
    map (fun a => (aName a, map (fun tv => (val_T tv, drop_value drop (val_V tv))) (aValues a)))
      (List.filter (fun a => negb (bool_decide (ToLower (aName a) ∈ drop))) l) = l) as Hl; [|by apply Hl].
  induction l as [|[n vals] l IHl]; intros Hsub; [done|]. cbn.
  assert ((n, vals) ∈ attrs) as Hin by (apply Hsub; left).
  rewrite bool_decide_eq_false_2 by (intros Hd; apply H; by eapply occurs_here). cbn.
  rewrite IHl by (intros; apply Hsub; by right). f_equal. f_equal.
  assert (forall k, (forall tv, tv ∈ k -> tv ∈ vals) -> map (fun tv => (val_T tv, drop_value drop (val_V tv))) k = k) as Hk;
    [|by apply Hk].
  induction k as [|[t w] k IHk]; intros Hsubk; [done|]. cbn. rewrite IHk by (intros; apply Hsubk; by right).
  f_equal. f_equal. specialize (IH _ Hin). cbn in IH. rewrite Forall_forall in IH.
  apply (IH (t, w)); [apply Hsubk; left|]. intros Ho. apply H. eapply occurs_inside; [exact Hin| |exact Ho].
  apply Hsubk. left.
Qed.

Lemma dropNestedPolicyAttrs_value attrs vendorDrop :
  VCollection (dropNestedPolicyAttrs attrs vendorDrop) = drop_value (drop_set vendorDrop) (VCollection attrs).
Proof. unfold dropNestedPolicyAttrs. by rewrite drop_value_collection. Qed.

(** What is left of an overrides attribute: its values, each without the
    dropped names. *)
Lemma sanitizeOverridesAttr_clean a vendorDrop b : sanitizeOverridesAttr a vendorDrop = Some b ->
  aName b = aName a /\ forall t w, (t, w) ∈ aValues b ->
    ~ occurs (fun n => ToLower n ∈ drop_set vendorDrop) w /\
    exists l, w = VCollection l /\ t = TagBeginCollection /\ hasOverridePayload l = true.
Proof.
  unfold sanitizeOverridesAttr. set (values := omap _ _). destruct values as [|x l] eqn:E; [done|].
  intros [= <-]. split; [done|]. cbn [snd]. rewrite <- E. intros t w Hin. subst values.
  apply list_elem_of_omap in Hin as ([t' w'] & Hin & Hw). cbn [snd] in Hw. destruct w'; try done.
  destruct ((length _ =? 0)%nat || negb (hasOverridePayload _)) eqn:Hb; [done|]. injection Hw as <- <-.
  apply orb_false_iff in Hb as [_ Hb]. apply negb_false_iff in Hb.
  split; [|by eauto]. rewrite dropNestedPolicyAttrs_value. apply drop_value_clean.
Qed.

Lemma hasOverridePayload_nonempty l : hasOverridePayload l = true -> (length l =? 0)%nat = false.
Proof. by destruct l. Qed.

Lemma sanitizeOverridesAttr_untouched a vendorDrop : aValues a <> [] ->
  (forall t w, (t, w) ∈ aValues a -> t = TagBeginCollection /\ ~ occurs (fun n => ToLower n ∈ drop_set vendorDrop) w /\
    exists l, w = VCollection l /\ hasOverridePayload l = true) ->
  sanitizeOverridesAttr a vendorDrop = Some a.
Proof.
  intros Hne Hok. unfold sanitizeOverridesAttr. set (f := fun tv : TValue => _).
  assert (forall k : list TValue, (forall tv, tv ∈ k -> tv ∈ aValues a) -> omap f k = k) as Hk.
  { induction k as [|[t w] k IH]; intros Hsub; [done|]. change (match f (t, w) with Some y => y :: omap f k | None => omap f k end = (t, w) :: k).
    rewrite IH by (intros; apply Hsub; by right).
    destruct (Hok t w) as (-> & Hc & l & -> & Hp); [apply Hsub; left|].
    unfold f. cbn [snd].
    assert (dropNestedPolicyAttrs l vendorDrop = l) as ->.
    { pose proof (dropNestedPolicyAttrs_value l vendorDrop) as H. rewrite (drop_value_untouched _ _ Hc) in H.
      by injection H. }
    by rewrite Hp, (hasOverridePayload_nonempty _ Hp). }
  rewrite (Hk (aValues a)) by done. destruct a as [n [|v vs]]; done.
Qed.

(** ** The attributes of the output *)

Section output.
Context `{G : GoippLib}.

(** What the policy sets itself. *)
Definition forced (policy : PolicyConfig) (selected : mediaSize) : Attributes :=
  forced_media policy selected ++
  (match forced_scaling policy with Some s => [Keyword "print-scaling" s] | None => [] end) ++
  forced_color policy.

(** What of a client attribute passes the policy: everything but the dropped
    names and a scaling the policy fixes; overrides only sanitized. *)
Definition passed (policy : PolicyConfig) (vendorDrop : list string) (client a : Attribute) : Prop :=
  ~ (ToLower (aName client) ∈ drop_set vendorDrop) /\
  (EqualFold (aName client) "overrides" = false /\ a = client \/
   EqualFold (aName client) "overrides" = true /\ sanitizeOverridesAttr client vendorDrop = Some a) /\
  (is_Some (forced_scaling policy) -> EqualFold (aName client) "print-scaling" = false).

Lemma elem_of_SetAttr_iff attrs b a : a ∈ SetAttr attrs b <-> a = b \/ (a ∈ attrs /\ EqualFold (aName a) (aName b) = false).
Proof.
  unfold SetAttr. enough (forall r, (a ∈ SetAttr_go attrs b r) <->
    (r = false /\ a = b) \/ (a ∈ attrs /\ EqualFold (aName a) (aName b) = false)) as H by (rewrite H; naive_solver).
  induction attrs as [|c l IH]; intros r; cbn.
  - destruct r; set_solver.
  - destruct (EqualFold (aName c) (aName b)) eqn:He; [destruct r|]; rewrite ?elem_of_cons, IH; naive_solver congruence.
Qed.

Lemma elem_of_sanitizeOverrides attrs vendorDrop a : a ∈ sanitizeOverrides attrs vendorDrop <->
  exists client, client ∈ attrs /\
    (EqualFold (aName client) "overrides" = false /\ a = client \/
     EqualFold (aName client) "overrides" = true /\ sanitizeOverridesAttr client vendorDrop = Some a).
Proof.
  unfold sanitizeOverrides. rewrite list_elem_of_omap. split; intros (c & Hc & H); exists c; (split; [done|]);
    destruct (EqualFold (aName c) "overrides"); cbn [negb] in *; naive_solver.
Qed.

Lemma elem_of_kept attrs vendorDrop a : a ∈ DropAttrs attrs (policyDropAttrs ++ vendorDrop) <->
  a ∈ attrs /\ ToLower (aName a) ∉ drop_set vendorDrop.
Proof.
  unfold DropAttrs. fold (drop_set vendorDrop). rewrite !list_elem_of_In, filter_In, <- !list_elem_of_In.
  rewrite negb_true_iff, bool_decide_eq_false. done.
Qed.

(** The output, without its log. *)
Definition normalized_with (attrs : Attributes) (policy : PolicyConfig) (vendorDrop : list string)
    (selected : mediaSize) : Attributes :=
  let out := sanitizeOverrides (DropAttrs attrs (policyDropAttrs ++ vendorDrop)) vendorDrop ++ forced_media policy selected in
  match forced_scaling policy with Some s => SetAttr out (Keyword "print-scaling" s) | None => out end ++ forced_color policy.

Lemma NormalizeJobAttrsWithCapabilities_out attrs policy vendorDrop upstream :
  let selected := (effective_media attrs (buildMediaCatalog upstream policy) policy).1.1.1 in
  (NormalizeJobAttrsWithCapabilities attrs policy vendorDrop upstream).1 = normalized_with attrs policy vendorDrop selected /\
  EffectiveMedia (NormalizeJobAttrsWithCapabilities attrs policy vendorDrop upstream).2 = Name selected /\
  MediaFallback (NormalizeJobAttrsWithCapabilities attrs policy vendorDrop upstream).2 =
    (effective_media attrs (buildMediaCatalog upstream policy) policy).2.
Proof.
  unfold NormalizeJobAttrsWithCapabilities. destruct (effective_media _ _ _) as [[[s r] rc] fb].
  cbn [fst snd EffectiveMedia MediaFallback]. unfold normalized_with. by destruct (forced_scaling policy).
Qed.

Lemma forced_media_names policy selected a : a ∈ forced_media policy selected ->
  aName a ∈ ["media"; "media-col"; "media-type"; "media-source"]%string.
Proof.
  unfold forced_media, mediaColJobAttr, Keyword. autorewrite with gosimp. intros H.
  repeat match type of H with context [if ?b then _ else _] => destruct b end; set_solver.
Qed.

Lemma sanitizeOverridesAttr_name a vendorDrop b : sanitizeOverridesAttr a vendorDrop = Some b -> aName b = aName a.
Proof. intros H. by apply sanitizeOverridesAttr_clean in H as [? _]. Qed.

Lemma elem_of_normalized attrs policy vendorDrop selected a :
  a ∈ normalized_with attrs policy vendorDrop selected <->
  a ∈ forced policy selected \/ exists client, client ∈ attrs /\ passed policy vendorDrop client a.
Proof.
  unfold normalized_with, forced. rewrite !elem_of_app.
  assert (a ∈ sanitizeOverrides (DropAttrs attrs (policyDropAttrs ++ vendorDrop)) vendorDrop <->
    exists client, client ∈ attrs /\ ~ (ToLower (aName client) ∈ drop_set vendorDrop) /\
      (EqualFold (aName client) "overrides" = false /\ a = client \/
       EqualFold (aName client) "overrides" = true /\ sanitizeOverridesAttr client vendorDrop = Some a)) as Hs.
  { rewrite elem_of_sanitizeOverrides. split; intros (c & H); exists c; rewrite ?elem_of_kept in *; tauto. }
  assert (forall client, (EqualFold (aName client) "overrides" = false /\ a = client \/
       EqualFold (aName client) "overrides" = true /\ sanitizeOverridesAttr client vendorDrop = Some a) -> aName a = aName client) as Hname.
  { intros c [[_ ->]|[_ H]]; [done|]. by apply sanitizeOverridesAttr_name in H. }
  unfold passed. destruct (forced_scaling policy) as [s|].
  - rewrite elem_of_SetAttr_iff, elem_of_app, Hs, list_elem_of_singleton.
    assert (aName (Keyword "print-scaling" s) = "print-scaling"%string) as Hk.
    { unfold Keyword. by autorewrite with gosimp. }
    rewrite Hk. split.
    + intros [[->|[[(c & Hin & Hd & Hc)|Hf] He]]|Hf]; [by auto| |by auto|by auto].
      right. exists c. rewrite (Hname c Hc) in He. split_and!; [done|done|done|done].
    + intros [[Hf|[->|Hf]]|(c & Hin & Hd & Hc & He)]; [|tauto|tauto|].
      * left. right. split; [tauto|]. apply forced_media_names in Hf.
        repeat (apply elem_of_cons in Hf as [->|Hf]; [reflexivity|]). by apply not_elem_of_nil in Hf.
      * left. right. rewrite (Hname c Hc). split; [left; eauto|auto].
  - rewrite elem_of_app, Hs. split.
    + intros [[(c & Hin & Hd & Hc)|H]|H]; [right; exists c|by auto|by auto].
      split_and!; [done|done|done|]. by intros [? ?].
    + intros [[H|[H|H]]|(c & Hin & Hd & Hc & _)]; [by auto|by apply not_elem_of_nil in H|by auto|left; left; eauto].
Qed.
End output.

(** ** The media of the output *)

Section media.
Context `{G : GoippLib}.

(** A name of the policy's own list is set by nobody else. *)
Lemma Attr_kept_dropped attrs vendorDrop n : ToLower n ∈ drop_set [] ->
  Attr (sanitizeOverrides (DropAttrs attrs (policyDropAttrs ++ vendorDrop)) vendorDrop) n = None.
Proof.
  intros Hn. apply Attr_None. intros (a & Ha & Hna). apply elem_of_sanitizeOverrides in Ha as (c & Hc & Hac).
  assert (aName a = aName c) as E.
  { destruct Hac as [[_ ->]|[_ H]]; [done|]. by apply sanitizeOverridesAttr_name in H. }
  apply elem_of_kept in Hc as [_ Hc]. apply Hc. rewrite <- E.
  unfold name_eq in Hna. rewrite Hna. unfold drop_set, name_set in *.
  rewrite app_nil_r in Hn. rewrite elem_of_list_to_set in *. rewrite map_app, elem_of_app. by left.
Qed.

Lemma Attr_normalized attrs policy vendorDrop selected n :
  ToLower n ∈ drop_set [] -> EqualFold "print-scaling" n = false ->
  Attr (normalized_with attrs policy vendorDrop selected) n =
  match Attr (forced_media policy selected) n with Some a => Some a | None => Attr (forced_color policy) n end.
Proof.
  intros Hn Hs. unfold normalized_with. rewrite Attr_app.
  assert (forall s, aName (Keyword "print-scaling" s) = "print-scaling"%string) as Hk.
  { intros s. unfold Keyword. by autorewrite with gosimp. }
  destruct (forced_scaling policy); rewrite ?SetAttr_lookup, ?Hk, ?Hs, Attr_app, Attr_kept_dropped by done; done.
Qed.

Lemma normalized_media attrs policy vendorDrop selected :
  Attr (normalized_with attrs policy vendorDrop selected) "media" =
    (if pUseMediaCol policy then None else Some (Keyword "media" (Name selected))) /\
  Attr (normalized_with attrs policy vendorDrop selected) "media-col" =
    (if pUseMediaCol policy
     then Some (mediaColJobAttr "media-col" selected (pMediaType policy) (policyMediaSource policy)) else None).
Proof.
  split; (rewrite Attr_normalized; [|by apply (bool_decide_eq_true_1 _); vm_compute|reflexivity]);
    unfold forced_media, forced_color, mediaColJobAttr, Keyword; autorewrite with gosimp;
    destruct (pUseMediaCol policy); cbn [Attr app fst]; 
    repeat match goal with |- context [if ?b then _ else _] => destruct b eqn:?; cbn [Attr app fst] end;
    try discriminate; reflexivity.
Qed.

Lemma default_key upstream policy :
  let cat := buildMediaCatalog upstream policy in
  let d := default (named_size "") (ByName cat !! mediaNameKey (policyMediaDefault policy)) in
  (exists n, n ∈ policyMediaNames policy /\ mediaNameKey n = mediaNameKey (policyMediaDefault policy)) ->
  mediaNameKey (Name (match Sizes cat with s :: _ => if (Name d =? "")%string then s else d | [] => d end)) =
    mediaNameKey (policyMediaDefault policy).
Proof.
  cbv zeta. intros (n & Hn & Hkey). pose proof (buildMediaCatalog_ok upstream policy) as Hok.
  set (cat := buildMediaCatalog upstream policy) in *.
  destruct (cat_complete _ _ Hok n Hn) as [d Hd]. rewrite <- Hkey, Hd. cbn [default from_option]. unfold id.
  destruct (cat_by_name _ _ Hok _ _ Hd) as [Hk Hin].
  destruct (String.eqb_spec (Name d) "") as [E|_]; [by apply (policyMediaNames_named policy (Name d)) in Hin|].
  destruct (Sizes cat); rewrite Hk; done.
Qed.

(** The names of a catalog's selectors all name the same entry. *)
Lemma resolve_names_keys names upstream policy named s :
  resolve_names names (buildMediaCatalog upstream policy) named = Some (Some s) ->
  (forall n, n ∈ names -> mediaNameKey n = mediaNameKey (Name s)) /\
  (forall m, named = Some m -> mediaNameKey (Name m) = mediaNameKey (Name s)).
Proof.
  pose proof (buildMediaCatalog_ok upstream policy) as Hok. set (cat := buildMediaCatalog upstream policy) in *.
  revert named. induction names as [|raw rest IH]; intros named; cbn.
  { intros [= ->]. split; [intros n Hn; by apply not_elem_of_nil in Hn|by intros m [= ->]]. }
  destruct (ByName cat !! mediaNameKey raw) as [x|] eqn:E; [|done].
  destruct (cat_by_name _ _ Hok _ _ E) as [Hk _].
  destruct named as [m|].
  - destruct (String.eqb_spec (mediaNameKey (Name m)) (mediaNameKey (Name x))) as [Hmx|]; [|done].
    intros H. destruct (IH _ H) as [H1 H2]. specialize (H2 m eq_refl). split; [|by intros ? [= <-]].
    intros n Hn. apply elem_of_cons in Hn as [->|Hn]; [congruence|by apply H1].
  - intros H. destruct (IH _ H) as [H1 H2]. specialize (H2 x eq_refl). split; [|done].
    intros n Hn. apply elem_of_cons in Hn as [->|Hn]; [congruence|by apply H1].
Qed.

Lemma resolve_names_None names catalog named : resolve_names names catalog named = Some None -> names = [] /\ named = None.
Proof.
  revert named. induction names as [|raw rest IH]; intros named; cbn; [by intros [= ->]|].
  destruct (ByName catalog !! mediaNameKey raw); [|done].
  destruct named; [destruct (_ =? _)%string; [|done]|]; intros H; apply IH in H as [_ H]; discriminate H.
Qed.

(** The size of [s] is [x] by [y], in one orientation or the other. *)
Definition has_size (s : mediaSize) (x y : Z) : Prop :=
  HasDimension s = true /\ ((XDimension s = x /\ YDimension s = y) \/ (XDimension s = y /\ YDimension s = x)).

Lemma resolve_dimensions_size x y catalog s : resolve_dimensions (Some x) (Some y) catalog = Some s ->
  exists d, s = Some d /\ has_size d x y /\ 0 < x /\ 0 < y.
Proof.
  unfold resolve_dimensions. destruct ((x <=? 0) || (y <=? 0)) eqn:Hp; [done|].
  destruct (List.filter _ _) as [|a [|]] eqn:E; try done. intros [= <-]. exists a. split; [done|].
  assert (In a (List.filter (dimensionsEqual (set_dims x y true (named_size ""))) (Sizes catalog))) as H by (rewrite E; by left).
  apply filter_In in H as [_ H]. unfold dimensionsEqual in H. cbn in H. unfold has_size.
  destruct (HasDimension a); [|discriminate H]. bool_to_prop. lia.
Qed.

Lemma has_size_dimensionsEqual a b x y : dimensionsEqual a b = true -> has_size b x y -> has_size a x y.
Proof.
  unfold dimensionsEqual, has_size. destruct (HasDimension a), (HasDimension b); try discriminate. cbn.
  intros H [_ Hb]. split; [done|]. bool_to_prop. lia.
Qed.

Lemma resolveMediaCol_sound attr upstream policy s :
  resolveMediaCol attr (buildMediaCatalog upstream policy) = Some s ->
  exists t l, aValues attr = [(t, VCollection l)] /\
    let selector := collectMediaColSelector l no_selector in
    sInvalid selector = false /\
    (forall n, n ∈ sNames selector -> mediaNameKey n = mediaNameKey (Name s)) /\
    match sX selector, sY selector with
    | Some x, Some y => has_size s x y /\ 0 < x /\ 0 < y
    | None, None => sNames selector <> []
    | _, _ => False
    end.
Proof.
  unfold resolveMediaCol. destruct (aValues attr) as [|[t []] [|]]; try done.
  intros H. exists t, attrs. split; [done|]. cbv zeta.
  destruct (sInvalid (collectMediaColSelector attrs no_selector)); [done|]. split; [done|]. revert H.
  set (sel := collectMediaColSelector attrs no_selector). cbn [mbind option_bind].
  destruct (resolve_names _ _ _) as [named|] eqn:En; [|done]. cbn [mbind option_bind].
  destruct (resolve_dimensions _ _ _) as [dim|] eqn:Ed; [|done]. cbn [mbind option_bind]. intros H.
  assert ((forall n, named = Some n -> s = n) /\ (named = None -> dim = Some s) /\
    (forall n d, named = Some n -> dim = Some d -> dimensionsEqual n d = true)) as (Hnamed & Hdim & Heq).
  { destruct named as [n|], dim as [d|]; [destruct (dimensionsEqual n d) eqn:E|..]; simplify_eq; naive_solver. }
  split.
  - destruct named as [n|].
    + rewrite (Hnamed n eq_refl). by apply resolve_names_keys in En as [En _].
    + apply resolve_names_None in En as [-> _]. intros n Hn. by apply not_elem_of_nil in Hn.
  - destruct (sX sel) as [x|], (sY sel) as [y|]; try done.
    + apply resolve_dimensions_size in Ed as (d & -> & Hs & Hpos). split; [|done].
      destruct named as [n|]; [|by specialize (Hdim eq_refl) as [= ->]].
      rewrite (Hnamed n eq_refl). eapply has_size_dimensionsEqual; [by apply Heq|done].
    + injection Ed as <-. destruct named as [n|]; [|by specialize (Hdim eq_refl)].
      intros E. rewrite E in En. discriminate En.
Qed.
End media.

(** ** The fidelity modes *)

Section options.
Context `{G : GoippLib}.

(** The names of [preserve_job_attrs]. *)
Definition preserved (options : NormalizationOptions) : gset string :=
  list_to_set (map (fun n => ToLower (TrimSpace n)) (oPreserveJobAttrs options)).
Definition allowed (options : NormalizationOptions) (a : Attribute) : bool :=
  bool_decide (ToLower (aName a) ∈ drop_set (oDropVendorAttrs options)) || bool_decide (ToLower (aName a) ∈ preserved options).

(** The filter of the allowlist keeps the first attribute of a name the policy
    controls. *)
Lemma Attr_allowed attrs options n : ToLower n ∈ drop_set (oDropVendorAttrs options) ->
  Attr (List.filter (allowed options) attrs) n = Attr attrs n.
Proof.
  intros Hn. induction attrs as [|a l IH]; [done|]. cbn.
  destruct (EqualFold (aName a) n) eqn:E.
  - assert (allowed options a = true) as ->.
    { unfold allowed. apply EqualFold_true in E. unfold name_eq in E. rewrite E. by rewrite bool_decide_eq_true_2. }
    cbn. by rewrite E.
  - destruct (allowed options a); cbn; rewrite ?E; exact IH.
Qed.

Lemma policy_controlled n vendorDrop : n ∈ policyDropAttrs -> ToLower n ∈ drop_set vendorDrop.
Proof.
  intros Hn. unfold drop_set, name_set. rewrite elem_of_list_to_set, map_app, elem_of_app. left.
  apply list_elem_of_In, in_map. by apply list_elem_of_In.
Qed.

Lemma selectRequestedMedia_ext attrs attrs' catalog policy :
  Attr attrs "media" = Attr attrs' "media" -> Attr attrs "media-col" = Attr attrs' "media-col" ->
  selectRequestedMedia attrs catalog policy = selectRequestedMedia attrs' catalog policy.
Proof. intros H1 H2. unfold selectRequestedMedia. by rewrite H1, H2. Qed.

(** An accepted job: what was checked, and what it was made of. *)
Lemma options_accepted attrs options r : NormalizeJobAttrsWithOptions attrs options = inr r ->
  let input := List.filter (allowed options) attrs in
  (nAttrs r, nLog r) =
    NormalizeJobAttrsWithCapabilities input (oPolicy options) (oDropVendorAttrs options) (oUpstream options) /\
  malformedPolicyAttributes attrs = [] /\
  nSubstituted r = negb (length (nSubstitutions r) =? 0)%nat /\
  nSubstitutions r = map fst (List.filter (fun a => negb (allowed options a)) attrs) ++
                     map fst (substitutions attrs (nAttrs r) (nLog r) options) /\
  length (nUnsupported r) = length (nSubstitutions r) /\
  (oFidelity options = true -> List.filter (fun a => negb (allowed options a)) attrs = []) /\
  (oFidelity options = true -> oFidelityMode options = FidelityReject -> nSubstituted r = false).
Proof.
  unfold NormalizeJobAttrsWithOptions. fold (preserved options).
  change (List.filter (fun a => bool_decide (ToLower (aName a) ∈ drop_set (oDropVendorAttrs options)) || bool_decide (ToLower (aName a) ∈ preserved options)) attrs)
    with (List.filter (allowed options) attrs).
  change (List.filter (fun a => negb (bool_decide (ToLower (aName a) ∈ drop_set (oDropVendorAttrs options)) || bool_decide (ToLower (aName a) ∈ preserved options))) attrs)
    with (List.filter (fun a => negb (allowed options a)) attrs).
  set (unsupported := List.filter (fun a => negb (allowed options a)) attrs).
  destruct (negb _ && negb _); [done|].
  destruct (malformedPolicyAttributes attrs); [|done].
  destruct (oFidelity options && negb (length unsupported =? 0)%nat) eqn:Hf; [done|].
  destruct (NormalizeJobAttrsWithCapabilities _ _ _ _) as [out log] eqn:En.
  cbn [nSubstituted]. destruct (oFidelity options && _ && _) eqn:Hr; [done|]. intros [= <-].
  cbn [nAttrs nLog nSubstituted nSubstitutions nUnsupported].
  set (subs := substitutions attrs out log options) in *. clearbody subs.
  split; [done|]. split; [done|]. split; [by destruct unsupported, subs|]. split; [done|].
  split; [by rewrite !length_app, !length_map|].
  split.
  - intros Ht. rewrite Ht in Hf. cbn [andb] in Hf. by destruct unsupported.
  - intros Ht Hm. rewrite Ht, Hm in Hr. by destruct (negb _ || negb _).
Qed.

Lemma malformed_media attrs a s : malformedPolicyAttributes attrs = [] -> Attr attrs s = Some a ->
  in_strings (ToLower s) ["media"; "media-type"; "media-source"; "print-color-mode"; "output-mode"] = true ->
  exists v, aValues a = [(TagKeyword, VString v)] /\ TrimSpace v <> ""%string.
Proof.
  intros Hm Ha Hs. apply Attr_Some in Ha as [Hin Hname]. unfold name_eq in Hname.
  destruct (malformed_keyword a) eqn:E.
  { exfalso. apply list_elem_of_In in Hin.
    assert (In a (malformedPolicyAttributes attrs)) as H; [|by rewrite Hm in H].
    unfold malformedPolicyAttributes. apply filter_In. split; [done|]. rewrite Hname. cbv zeta. by rewrite Hs. }
  unfold malformed_keyword in E. destruct (aValues a) as [|[t []] [|]]; try done.
  apply orb_false_iff in E as [Et Es]. apply negb_false_iff, Z.eqb_eq in Et as ->.
  exists s0. split; [done|]. by apply String.eqb_neq.
Qed.
Lemma mjoin_nil_in {A B} (f : A -> list B) {l : list A} (x : A) : mjoin (map f l) = [] -> x ∈ l -> f x = [].
Proof.
  intros H Hx. apply join_nil in H. rewrite Forall_forall in H. apply H. apply list_elem_of_In, in_map.
  by apply list_elem_of_In.
Qed.

(** An accepted job of which nothing was substituted: its media keyword is the
    one sent, and what else it asked for is what the policy has. *)
Lemma nothing_substituted attrs normalized log options :
  substitutions attrs normalized log options = [] ->
  (is_Some (Attr attrs "media") -> MediaFallback log = false /\ HasStringValue normalized "media" (ClientMedia log) = true) /\
  (is_Some (Attr attrs "media-col") -> MediaFallback log = false /\ pUseMediaCol (oPolicy options) = true) /\
  (forall name want, (name, want) ∈
     [("media-type", pMediaType (oPolicy options)); ("media-source", policyMediaSource (oPolicy options));
      ("print-color-mode", pPrintColorMode (oPolicy options)); ("output-mode", pPrintColorMode (oPolicy options))]%string ->
     is_Some (Attr attrs name) ->
     EqualFold (TrimSpace (default ""%string (FirstString attrs name))) (TrimSpace want) = true) /\
  (forall name, name ∈ oDropVendorAttrs options -> Attr attrs name = None).
Proof.
  unfold substitutions. intros H. apply app_eq_nil in H as [Hm H]. apply app_eq_nil in H as [Hmc H].
  apply app_eq_nil in H as [Hr Hv]. split_and!.
  - intros [a Ha]. rewrite Ha in Hm. destruct (MediaFallback log); [done|].
    by destruct (HasStringValue normalized "media" (ClientMedia log)).
  - intros [a Ha]. rewrite Ha in Hmc. destruct (MediaFallback log); [done|]. by destruct (pUseMediaCol _).
  - intros name want Hin [a Ha]. apply (mjoin_nil_in _ (name, want) Hr) in Hin. cbn in Hin. rewrite Ha in Hin.
    by destruct (EqualFold (TrimSpace _) (TrimSpace want)).
  - intros name Hin. apply (mjoin_nil_in _ name Hv) in Hin. cbn in Hin. by destruct (Attr attrs name).
Qed.
End options.

(** ** The theorems *)

Section theorems.
Context `{G : GoippLib}.
Implicit Types (attrs upstream : Attributes) (policy : PolicyConfig) (vendorDrop : list string).

(** The medium a normalised job is printed on. *)
Definition chosen (attrs : Attributes) (policy : PolicyConfig) (upstream : Attributes) : mediaSize :=
  (effective_media attrs (buildMediaCatalog upstream policy) policy).1.1.1.

(** The catalog of a queue is well formed, whatever the printer reports:
    its entries are media of the policy, each policy name has an entry of its
    name among them, dimensions are positive, and an entry has none only when
    its name is no PWG self-describing name and the printer gave none. *)
Theorem catalog_wellformed upstream policy :
  let cat := buildMediaCatalog upstream policy in
  (forall s, s ∈ Sizes cat -> Name s ∈ policyMediaNames policy /\
     (HasDimension s = true -> 0 < XDimension s /\ 0 < YDimension s) /\
     (HasDimension s = false -> mediaSizeFromPWGName (Name s) = None)) /\
  (forall n, n ∈ policyMediaNames policy -> exists s, ByName cat !! mediaNameKey n = Some s /\
     s ∈ Sizes cat /\ mediaNameKey (Name s) = mediaNameKey n).
Proof.
  cbv zeta. pose proof (buildMediaCatalog_ok upstream policy) as Hok.
  pose proof (buildMediaCatalog_entries upstream policy) as He. rewrite Forall_forall in He. split.
  - intros s Hs. split; [by apply (cat_sizes _ _ Hok)|]. by apply He.
  - intros n Hn. destruct (cat_complete _ _ Hok n Hn) as [s Hs]. exists s. split; [done|].
    split; [by eapply (cat_by_name_in _ _ Hok)|]. by destruct (cat_by_name _ _ Hok _ _ Hs) as [-> _].
Qed.

(** The attributes sent to the printer are exactly those the policy sets
    and those of the client that pass it: an attribute of a dropped name or a
    fixed scaling is replaced, overrides are sanitized, every other attribute
    is kept as it is, and nothing else appears. *)
Theorem normalized_exactly attrs policy vendorDrop upstream a :
  a ∈ (NormalizeJobAttrsWithCapabilities attrs policy vendorDrop upstream).1 <->
  a ∈ forced policy (chosen attrs policy upstream) \/
  exists client, client ∈ attrs /\ passed policy vendorDrop client a.
Proof.
  destruct (NormalizeJobAttrsWithCapabilities_out attrs policy vendorDrop upstream) as [-> _].
  apply elem_of_normalized.
Qed.

(** C5: The policy cannot be bypassed: an attribute of the output whose name
    the policy or the vendor list drops is one the policy set, and no
    collection of an overrides attribute holds a dropped name at any depth,
    nor is it left without an effect of its own. *)
Theorem policy_not_bypassed attrs policy vendorDrop upstream a :
  a ∈ (NormalizeJobAttrsWithCapabilities attrs policy vendorDrop upstream).1 ->
  (ToLower (aName a) ∈ drop_set vendorDrop -> a ∈ forced policy (chosen attrs policy upstream)) /\
  (EqualFold (aName a) "overrides" = true -> forall t v, (t, v) ∈ aValues a ->
     ~ occurs (fun n => ToLower n ∈ drop_set vendorDrop) v /\
     exists l, v = VCollection l /\ t = TagBeginCollection /\ hasOverridePayload l = true).
Proof.
  destruct (NormalizeJobAttrsWithCapabilities_out attrs policy vendorDrop upstream) as [-> _].
  rewrite elem_of_normalized. fold (chosen attrs policy upstream).
  intros [Hf|(c & _ & Hd & Hc & _)].
  - split; [done|]. intros Ho. exfalso. revert Hf Ho. unfold forced. rewrite !elem_of_app.
    intros [Hf|[Hf|Hf]] Ho.
    + apply forced_media_names in Hf.
      repeat (apply elem_of_cons in Hf as [E|Hf]; [rewrite E in Ho; discriminate Ho|]). by apply not_elem_of_nil in Hf.
    + destruct (forced_scaling policy) as [s|]; [|by apply not_elem_of_nil in Hf].
      apply list_elem_of_singleton in Hf as ->. unfold Keyword in Ho. autorewrite with gosimp in Ho. discriminate Ho.
    + unfold forced_color, Keyword in Hf. autorewrite with gosimp in Hf.
      apply elem_of_cons in Hf as [->|Hf]; [discriminate Ho|].
      destruct (pPrintColorMode policy =? "monochrome")%string; [|by apply not_elem_of_nil in Hf].
      apply list_elem_of_singleton in Hf as ->. discriminate Ho.
  - destruct Hc as [[Hno ->]|[Ho Hc]].
    + split; [done|]. rewrite Hno. done.
    + apply sanitizeOverridesAttr_clean in Hc as [Hn Hv]. rewrite Hn. split; [done|]. intros _. exact Hv.
Qed.

(** Sanitizing changes nothing it need not: an overrides attribute whose
    values are collections with an effect of their own and without a dropped
    name passes as it is, and sanitizing what was sanitized changes nothing. *)
Theorem sanitize_minimal a vendorDrop :
  (aValues a <> [] ->
   (forall t w, (t, w) ∈ aValues a -> t = TagBeginCollection /\
      ~ occurs (fun n => ToLower n ∈ drop_set vendorDrop) w /\
      exists l, w = VCollection l /\ hasOverridePayload l = true) ->
   sanitizeOverridesAttr a vendorDrop = Some a) /\
  (forall b, sanitizeOverridesAttr a vendorDrop = Some b -> sanitizeOverridesAttr b vendorDrop = Some b).
Proof.
  split; [apply sanitizeOverridesAttr_untouched|].
  intros b Hb. apply sanitizeOverridesAttr_untouched.
  - revert Hb. unfold sanitizeOverridesAttr. destruct (omap _ (aValues a)); [done|]. by intros [= <-].
  - apply sanitizeOverridesAttr_clean in Hb as [_ Hb]. intros t w Hin. destruct (Hb t w Hin) as (Hc & l & -> & -> & Hp).
    eauto.
Qed.

(** A job is always printed on a medium of the policy, which is the one
    reported and the one sent: as the media keyword, or, when the queue uses
    media-col, as the media-col of that size with no media keyword beside it.
    Without a usable request it is the default of the policy. *)
Theorem media_of_policy attrs policy vendorDrop upstream :
  let '(out, log) := NormalizeJobAttrsWithCapabilities attrs policy vendorDrop upstream in
  let s := chosen attrs policy upstream in
  Name s ∈ policyMediaNames policy /\ EffectiveMedia log = Name s /\
  (Attr out "media", Attr out "media-col") =
    (if pUseMediaCol policy
     then (None, Some (mediaColJobAttr "media-col" s (pMediaType policy) (policyMediaSource policy)))
     else (Some (Keyword "media" (Name s)), None)) /\
  (MediaFallback log = true ->
   (exists n, n ∈ policyMediaNames policy /\ mediaNameKey n = mediaNameKey (policyMediaDefault policy)) ->
   mediaNameKey (Name s) = mediaNameKey (policyMediaDefault policy)).
Proof.
  pose proof (NormalizeJobAttrsWithCapabilities_out attrs policy vendorDrop upstream) as (Hout & Heff & Hfb).
  pose proof (selected_in attrs upstream policy) as [Hin Hsel]. cbv zeta in Hsel.
  destruct (NormalizeJobAttrsWithCapabilities attrs policy vendorDrop upstream) as [out log].
  cbn [fst snd] in Hout, Heff, Hfb. fold (chosen attrs policy upstream) in Hout, Heff.
  pose proof (normalized_media attrs policy vendorDrop (chosen attrs policy upstream)) as [Hm Hmc].
  split; [exact Hin|]. split; [exact Heff|]. split.
  { rewrite Hout, Hm, Hmc. by destruct (pUseMediaCol policy). }
  rewrite Hfb. unfold chosen. rewrite Hsel. intros Hf Hd. pose proof (default_key upstream policy Hd) as Hkey.
  cbv zeta in Hkey. revert Hf. unfold selectRequestedMedia.
  destruct (Attr attrs "media-col") as [mc|].
  { destruct (resolveMediaCol mc _); [done|]. intros _. exact Hkey. }
  destruct (Attr attrs "media") as [m|]; [|intros _; exact Hkey].
  destruct (attributeStrings m) as [[|v [|]]|]; try (intros _; exact Hkey).
  destruct (ByName (buildMediaCatalog upstream policy) !! mediaNameKey v); [done|intros _; exact Hkey].
Qed.

(** A media keyword is honoured exactly when the policy has a medium of
    that name, whatever its case and the spaces around it. *)
Theorem media_keyword_honoured attrs policy vendorDrop upstream m v :
  Attr attrs "media-col" = None -> Attr attrs "media" = Some m -> attributeStrings m = Some [v] ->
  let log := (NormalizeJobAttrsWithCapabilities attrs policy vendorDrop upstream).2 in
  (MediaFallback log = false <-> exists n, n ∈ policyMediaNames policy /\ mediaNameKey n = mediaNameKey v) /\
  (MediaFallback log = false -> mediaNameKey (EffectiveMedia log) = mediaNameKey v).
Proof.
  intros Hmc Hm Hv.
  pose proof (NormalizeJobAttrsWithCapabilities_out attrs policy vendorDrop upstream) as (_ & Heff & Hfb).
  cbv zeta in Heff |- *. rewrite Heff, Hfb, (proj2 (selected_in attrs upstream policy)).
  unfold selectRequestedMedia. rewrite Hmc, Hm, Hv.
  pose proof (buildMediaCatalog_ok upstream policy) as Hok. set (cat := buildMediaCatalog upstream policy) in *.
  destruct (ByName cat !! mediaNameKey v) as [d|] eqn:Ed; cbn [fst snd].
  - destruct (cat_by_name _ _ Hok _ _ Ed) as [Hk Hin]. split; [|by rewrite Hk]. split; [|done]. intros _. by exists (Name d).
  - split; [|done]. split; [done|]. intros (n & Hn & Hkey). destruct (cat_complete _ _ Hok n Hn) as [d Hd].
    rewrite Hkey, Ed in Hd. discriminate Hd.
Qed.

(** A media-col is honoured only when it selects the medium without
    contradiction: every name in it, at any depth, names the chosen medium,
    its dimensions, when given, are positive and those of the chosen medium in
    one orientation, and it names something. *)
Theorem media_col_honoured attrs policy vendorDrop upstream mc :
  Attr attrs "media-col" = Some mc ->
  MediaFallback (NormalizeJobAttrsWithCapabilities attrs policy vendorDrop upstream).2 = false ->
  exists t l, aValues mc = [(t, VCollection l)] /\
    let selector := collectMediaColSelector l no_selector in
    let s := chosen attrs policy upstream in
    sInvalid selector = false /\
    (forall n, n ∈ sNames selector -> mediaNameKey n = mediaNameKey (Name s)) /\
    match sX selector, sY selector with
    | Some x, Some y => has_size s x y /\ 0 < x /\ 0 < y
    | None, None => sNames selector <> []
    | _, _ => False
    end.
Proof.
  intros Hmc.
  pose proof (NormalizeJobAttrsWithCapabilities_out attrs policy vendorDrop upstream) as (_ & _ & Hfb).
  cbv zeta in Hfb. unfold chosen. rewrite Hfb, (proj2 (selected_in attrs upstream policy)).
  unfold selectRequestedMedia. rewrite Hmc.
  destruct (resolveMediaCol mc (buildMediaCatalog upstream policy)) as [s|] eqn:Er; [|done].
  intros _. cbn [fst]. by apply resolveMediaCol_sound in Er.
Qed.

(** With an allowlist, an accepted job consists of what the policy sets and
    of the client's attributes of an allowed name that pass it; the medium is
    chosen as if there were no allowlist. *)
Theorem allowlist_exact attrs options r a : NormalizeJobAttrsWithOptions attrs options = inr r ->
  a ∈ nAttrs r <->
  a ∈ forced (oPolicy options) (chosen attrs (oPolicy options) (oUpstream options)) \/
  exists client, client ∈ attrs /\ ToLower (aName client) ∈ preserved options /\
    passed (oPolicy options) (oDropVendorAttrs options) client a.
Proof.
  intros H. apply options_accepted in H as (H & _). cbv zeta in H. apply (f_equal fst) in H. cbn [fst] in H. rewrite H.
  destruct (NormalizeJobAttrsWithCapabilities_out (List.filter (allowed options) attrs) (oPolicy options)
    (oDropVendorAttrs options) (oUpstream options)) as [-> _].
  rewrite elem_of_normalized, !(proj2 (selected_in _ _ _)). unfold chosen.
  rewrite (proj2 (selected_in attrs _ _)).
  rewrite (selectRequestedMedia_ext (List.filter (allowed options) attrs) attrs)
    by (apply Attr_allowed, policy_controlled; by apply (bool_decide_eq_true_1 _); vm_compute).
  apply or_iff_compat_l. split; intros (c & Hin & Hc).
  - exists c. rewrite list_elem_of_In, filter_In, <- list_elem_of_In in Hin. destruct Hin as [Hin Ha].
    split; [done|]. split; [|done]. unfold allowed in Ha. apply orb_true_iff in Ha as [Ha|Ha]; apply bool_decide_eq_true in Ha; [|done].
    by destruct Hc as [Hc _].
  - exists c. destruct Hc as [Hpre Hc]. split; [|done]. rewrite list_elem_of_In, filter_In, <- list_elem_of_In. split; [done|].
    unfold allowed. apply orb_true_iff. right. by apply bool_decide_eq_true.
Qed.

(** In the mode reject with fidelity, an accepted job is what the client
    asked for: no attribute is unsupported or substituted, none is outside the
    allowlist or of a vendor-dropped name, its media keyword is the one sent,
    its media-col was honoured, and its type, source and colors are the
    policy's. Without fidelity every well-formed job is accepted. *)
Theorem fidelity_reject attrs options :
  (forall r, NormalizeJobAttrsWithOptions attrs options = inr r ->
   oFidelity options = true -> oFidelityMode options = FidelityReject ->
   nUnsupported r = [] /\ nSubstitutions r = [] /\
   (forall a, a ∈ attrs -> allowed options a = true) /\
   (forall name, name ∈ oDropVendorAttrs options -> Attr attrs name = None) /\
   (is_Some (Attr attrs "media") -> FirstString (nAttrs r) "media" = FirstString attrs "media") /\
   (is_Some (Attr attrs "media-col") -> MediaFallback (nLog r) = false /\ pUseMediaCol (oPolicy options) = true) /\
   (forall name want, (name, want) ∈
      [("media-type", pMediaType (oPolicy options)); ("media-source", policyMediaSource (oPolicy options));
       ("print-color-mode", pPrintColorMode (oPolicy options)); ("output-mode", pPrintColorMode (oPolicy options))]%string ->
      is_Some (Attr attrs name) ->
      EqualFold (TrimSpace (default ""%string (FirstString attrs name))) (TrimSpace want) = true)) /\
  (oFidelity options = false -> oFidelityMode options ∈ [""; FidelityWarn; FidelityReject]%string ->
   malformedPolicyAttributes attrs = [] -> exists r, NormalizeJobAttrsWithOptions attrs options = inr r).
Proof.
  split.
  - intros r H Hf Hmode. apply options_accepted in H as (Hn & Hmal & Hsub & Hs & Hlen & Hall & Hrej). cbv zeta in Hn.
    specialize (Hall Hf). specialize (Hrej Hf Hmode).
    assert (nSubstitutions r = []) as Hnil by (rewrite Hrej in Hsub; by destruct (nSubstitutions r)).
    rewrite Hnil in Hs, Hlen. symmetry in Hs. apply app_eq_nil in Hs as [_ Hs]. apply map_eq_nil in Hs.
    apply nothing_substituted in Hs as (Hm & Hmc & Hrest & Hv).
    assert (forall a, a ∈ attrs -> allowed options a = true) as Hallowed.
    { intros a Ha. destruct (allowed options a) eqn:E; [done|]. exfalso.
      assert (In a (List.filter (fun a => negb (allowed options a)) attrs)) as H; [|by rewrite Hall in H].
      apply filter_In. split; [by apply list_elem_of_In|by rewrite E]. }
    split; [by destruct (nUnsupported r)|]. split_and!; try done.
    intros His. destruct (Hm His) as [_ Hhas]. destruct His as [a Ha].
    pose proof (malformed_media attrs a "media" Hmal Ha eq_refl) as (v & Hval & _).
    assert (FirstString attrs "media" = Some v) as ->.
    { unfold FirstString. rewrite Ha. destruct a as [n vals]. cbn in Hval. by subst vals. }
    assert (ClientMedia (nLog r) = v) as Hv'.
    { apply (f_equal snd) in Hn. cbn [snd] in Hn. rewrite Hn. unfold NormalizeJobAttrsWithCapabilities.
      destruct (effective_media _ _ _) as [[[? ?] ?] ?]. cbn [snd ClientMedia]. unfold FirstString.
      rewrite Attr_allowed by (apply policy_controlled; by apply (bool_decide_eq_true_1 _); vm_compute).
      rewrite Ha. destruct a as [n vals]. cbn in Hval. by subst vals. }
    revert Hhas. rewrite Hv'. unfold HasStringValue, FirstString.
    apply (f_equal fst) in Hn. cbn [fst] in Hn. rewrite Hn.
    destruct (NormalizeJobAttrsWithCapabilities_out (List.filter (allowed options) attrs) (oPolicy options)
      (oDropVendorAttrs options) (oUpstream options)) as [-> _].
    rewrite (proj1 (normalized_media _ _ _ _)). destruct (pUseMediaCol _); [done|].
    unfold Keyword. autorewrite with gosimp. cbn [snd existsb]. rewrite orb_false_r. intros E. cbn [val_V snd] in E.
    by apply String.eqb_eq in E as ->.
  - intros Hf Hmode Hmal. unfold NormalizeJobAttrsWithOptions.
    assert (let mode := if (oFidelityMode options =? "")%string then FidelityWarn else oFidelityMode options in
      negb (mode =? FidelityWarn)%string && negb (mode =? FidelityReject)%string = false) as ->.
    { repeat (apply elem_of_cons in Hmode as [->|Hmode]; [reflexivity|]). by apply not_elem_of_nil in Hmode. }
    rewrite Hmal, Hf. cbn [andb]. destruct (NormalizeJobAttrsWithCapabilities _ _ _ _) as [out log].
    cbn [nSubstituted andb]. eauto.
Qed.

(** A queue that uses media-col refuses, in the mode reject with fidelity,
    every job with a media keyword, also when the keyword is a medium of the
    policy and would be printed on: the check looks for the keyword in the
    attributes sent, where it became a media-col. *)
Theorem media_keyword_with_media_col attrs options :
  pUseMediaCol (oPolicy options) = true -> oFidelity options = true -> oFidelityMode options = FidelityReject ->
  is_Some (Attr attrs "media") ->
  exists e, NormalizeJobAttrsWithOptions attrs options = inl e /\ neStatus e = StatusErrorAttributesOrValues.
Proof.
  intros Hu Hf Hmode His. destruct (NormalizeJobAttrsWithOptions attrs options) as [e|r] eqn:E.
  - exists e. split; [done|]. revert E. unfold NormalizeJobAttrsWithOptions. rewrite Hmode, Hf.
    cbn [andb]. change (negb _ && negb _) with false. cbv iota.
    destruct (malformedPolicyAttributes attrs); [|by intros [= <-]].
    destruct (negb (length _ =? 0)%nat) eqn:El; [by intros [= <-]|].
    destruct (NormalizeJobAttrsWithCapabilities _ _ _ _) as [out log]. cbn [nSubstituted].
    destruct (_ && _); by intros [= <-].
  - exfalso. apply options_accepted in E as (Hn & _ & Hsub & Hs & _ & _ & Hrej). cbv zeta in Hn.
    rewrite (Hrej Hf Hmode) in Hsub. assert (nSubstitutions r = []) as Hnil by (by destruct (nSubstitutions r)).
    rewrite Hnil in Hs. symmetry in Hs. apply app_eq_nil in Hs as [_ Hs]. apply map_eq_nil in Hs.
    apply nothing_substituted in Hs as (Hm & _). destruct (Hm His) as [_ Hhas]. revert Hhas. unfold HasStringValue.
    apply (f_equal fst) in Hn. cbn [fst] in Hn. rewrite Hn.
    destruct (NormalizeJobAttrsWithCapabilities_out (List.filter (allowed options) attrs) (oPolicy options)
      (oDropVendorAttrs options) (oUpstream options)) as [-> _].
    by rewrite (proj1 (normalized_media _ _ _ _)), Hu.
Qed.
End theorems.

(** ** Witnesses *)

Section examples.
#[local] Existing Instance goipp_example.

(** Two media, one color mode, a fixed scaling. *)
Definition example_policy (useMediaCol : bool) : PolicyConfig := {|
  pMedia := ""; pMediaSupported := ["iso_a4_210x297mm"; "na_letter_8.5x11in"]; pMediaDefault := "iso_a4_210x297mm";
  pMediaType := "stationery"; pPrintColorMode := "monochrome"; pMediaSource := None; pPrintScaling := Some "fit";
  pUseMediaCol := useMediaCol; pFidelityMode := "reject" |}%string.

(** Letter, two copies, and an override that smuggles a medium in. *)
Definition example_override : Attribute :=
  ("overrides", [(TagBeginCollection, VCollection [("pages", [(TagRange, VRange 1 2)]);
     ("sides", [(TagKeyword, VString "two-sided-long-edge")]);
     ("x", [(TagBeginCollection, VCollection [("Media", [(TagKeyword, VString "tray-9")])])])])])%string.
Definition example_clean_override : Attribute :=
  ("overrides", [(TagBeginCollection, VCollection [("pages", [(TagRange, VRange 1 2)]);
     ("sides", [(TagKeyword, VString "two-sided-long-edge")]); ("x", [(TagBeginCollection, VCollection [])])])])%string.
Definition example_job : Attributes :=
  [Keyword "media" "NA_letter_8.5x11in"; Integer "copies" 2; example_override; Keyword "print-scaling" "fill"]%string.
Definition example_media_col : Attributes :=
  [("media-col", [(TagBeginCollection, VCollection
     [("media-size", [(TagBeginCollection, VCollection [Integer "x-dimension" 29700; Integer "y-dimension" 21000])])])])]%string.

Definition example_options (useMediaCol fidelity : bool) : NormalizationOptions := {|
  oPolicy := example_policy useMediaCol; oUpstream := []; oDropVendorAttrs := ["ColorModel"]%string;
  oPreserveJobAttrs := ["Copies"; "overrides"; "print-scaling"]%string; oFidelity := fidelity; oFidelityMode := FidelityReject |}.

Example example_output : (NormalizeJobAttrs example_job (example_policy false) ["ColorModel"]%string).1 =
  [Integer "copies" 2; example_clean_override; Keyword "print-scaling" "fit"; Keyword "media" "na_letter_8.5x11in";
   Keyword "media-type" "stationery"; Keyword "print-color-mode" "monochrome"; Keyword "output-mode" "monochrome"]%string.
Proof. vm_compute. reflexivity. Qed.

Lemma policy_not_bypassed_witness :
  example_clean_override ∈ (NormalizeJobAttrsWithCapabilities example_job (example_policy false) ["ColorModel"]%string []).1 /\
  forall t v, (t, v) ∈ aValues example_clean_override -> ~ occurs (fun n => ToLower n ∈ drop_set ["ColorModel"]%string) v.
Proof.
  assert (example_clean_override ∈ (NormalizeJobAttrsWithCapabilities example_job (example_policy false) ["ColorModel"]%string []).1) as H.
  { apply (list_elem_of_lookup_2 _ 1). vm_compute. reflexivity. }
  split; [exact H|]. intros t v Hin.
  exact (proj1 (proj2 (policy_not_bypassed example_job (example_policy false) ["ColorModel"]%string [] _ H) eq_refl t v Hin)).
Defined.

Lemma sanitize_minimal_witness :
  sanitizeOverridesAttr example_override [] = Some example_clean_override /\
  sanitizeOverridesAttr example_clean_override [] = Some example_clean_override.
Proof.
  assert (sanitizeOverridesAttr example_override [] = Some example_clean_override) as H by (vm_compute; reflexivity).
  split; [exact H|]. exact (proj2 (sanitize_minimal example_override []) _ H).
Defined.

Lemma media_keyword_honoured_witness :
  mediaNameKey (EffectiveMedia (NormalizeJobAttrsWithCapabilities example_job (example_policy false) [] []).2) =
  "na_letter_8.5x11in"%string.
Proof.
  refine (proj2 (media_keyword_honoured example_job (example_policy false) [] []
    (Keyword "media" "NA_letter_8.5x11in") "NA_letter_8.5x11in" _ _ _) _); vm_compute; reflexivity.
Defined.

Lemma media_col_honoured_witness :
  (exists t l, example_media_col = [("media-col"%string, [(t, VCollection l)])]) /\
  has_size (chosen example_media_col (example_policy true) []) 29700 21000.
Proof.
  assert (Attr example_media_col "media-col" = Some (hd (""%string, []) example_media_col)) as Ha by reflexivity.
  assert (MediaFallback (NormalizeJobAttrsWithCapabilities example_media_col (example_policy true) [] []).2 = false) as Hf
    by (vm_compute; reflexivity).
  split; [by do 2 eexists|].
  destruct (media_col_honoured example_media_col (example_policy true) [] [] _ Ha Hf) as (t & l & Hv & _ & _ & Hs).
  injection Hv as <- <-. exact (proj1 Hs).
Defined.

Definition example_asked : Attributes := ("ColorModel"%string, []) :: Keyword "sides" "one-sided" :: example_job.

Lemma allowlist_exact_witness :
  exists r, NormalizeJobAttrsWithOptions example_asked (example_options false false) = inr r /\
  Integer "copies" 2 ∈ nAttrs r /\ map fst (nUnsupported r) = ["sides"; "media"; "ColorModel"]%string.
Proof.
  assert (exists r, NormalizeJobAttrsWithOptions example_asked (example_options false false) = inr r /\
    map fst (nUnsupported r) = ["sides"; "media"; "ColorModel"]%string) as (r & Hr & Hu).
  { eexists. split; vm_compute; reflexivity. }
  exists r. split; [exact Hr|]. split; [|exact Hu].
  apply (proj2 (allowlist_exact example_asked (example_options false false) r (Integer "copies" 2) Hr)).
  right. exists (Integer "copies" 2). split; [apply (list_elem_of_lookup_2 _ 3); reflexivity|].
  split; [by apply (bool_decide_eq_true_1 _); vm_compute|]. split; [by apply (bool_decide_eq_false_1 _); vm_compute|].
  split; [left; split; reflexivity|intros _; reflexivity].
Defined.

Definition example_plain : Attributes := [Keyword "media" "na_letter_8.5x11in"; Integer "copies" 2].

Lemma fidelity_reject_witness :
  exists r, NormalizeJobAttrsWithOptions example_plain (example_options false true) = inr r /\
  FirstString (nAttrs r) "media" = Some "na_letter_8.5x11in"%string.
Proof.
  assert (exists r, NormalizeJobAttrsWithOptions example_plain (example_options false true) = inr r) as [r Hr]
    by (eexists; vm_compute; reflexivity).
  exists r. split; [exact Hr|].
  pose proof (proj1 (fidelity_reject example_plain (example_options false true)) r Hr eq_refl eq_refl) as (_ & _ & _ & _ & H & _).
  refine (eq_trans (H _) _); [by eexists|reflexivity].
Defined.

Lemma media_keyword_with_media_col_witness :
  MediaFallback (NormalizeJobAttrsWithCapabilities [Keyword "media" "na_letter_8.5x11in"] (example_policy true) [] []).2 = false /\
  exists e, NormalizeJobAttrsWithOptions [Keyword "media" "na_letter_8.5x11in"] (example_options true true) = inl e /\
    neStatus e = StatusErrorAttributesOrValues.
Proof.
  split; [vm_compute; reflexivity|].
  apply (media_keyword_with_media_col [Keyword "media" "na_letter_8.5x11in"] (example_options true true)); try reflexivity.
  by eexists.
Defined.
End examples.
