(* ===== verification/ProtocolTheorems.v ===== *)
(** * IPP requests: the theorems

    What a request that passes the checks looks like, stated without the order
    of the checks; the URIs of jobs; the syntax of media-col against the
    selector the policy builds from it. *)

From Stdlib Require Import ZArith Lia Ascii String.
From stdpp Require Import base tactics list strings gmap.
From S2P Require Import Prelude GoString Goipp IppAttrs GoUrl Protocol MediaCatalog Normalizer.

(** ** Well-formed requests *)

Section well_formed.
Context `{G : GoippLib} `{I : IPLiterals}.

(** The attribute at a position has the name and a single value of the tag. *)
Definition attr_at (attrs : Attributes) (n : nat) (name : string) (tag : Z) : Prop :=
  exists a v, attrs !! n = Some a /\ name_eq (aName a) name /\ aValues a = [(tag, v)].

(** The operation group comes first, a job group may follow when the operation
    creates a job, and there is no other. *)
Definition groups_ok (msg : Message) : Prop :=
  match Groups msg with
  | None => True
  | Some l => map Tag l = [TagOperationGroup] \/
              map Tag l = [TagOperationGroup; TagJobGroup] /\ Code msg ∈ [OpPrintJob; OpValidateJob; OpCreateJob]
  end.

(** No name occurs twice, whatever its case. *)
Definition names_unique (attrs : Attributes) : Prop := NoDup (map (fun a => ToLower (aName a)) attrs).

(** The target: this queue for a printer operation; for a job operation a job
    of this queue, by its URI or by printer-uri and job-id. *)
Definition target_ok (attrs : Attributes) (op : Z) (printerURI : string) : Prop :=
  let uri := FirstString attrs "job-uri" in
  let id := FirstInt attrs "job-id" in
  let printer := FirstString attrs "printer-uri" in
  let this_queue := exists p, printer = Some p /\ sameTargetURI p printerURI = true in
  (op ∈ [OpPrintJob; OpValidateJob; OpCreateJob; OpGetJobs; OpGetPrinterAttributes; OpCancelMyJobs; OpIdentifyPrinter] ->
     attr_at attrs 2 "printer-uri" TagURI /\ this_queue /\ uri = None /\ id = None) /\
  (op ∈ [OpSendDocument; OpGetJobAttributes; OpCancelJob; OpCloseJob] ->
     (exists u j, uri = Some u /\ attr_at attrs 2 "job-uri" TagURI /\ printer = None /\ id = None /\
        jobIDForPrinterURI u printerURI = Some j) \/
     (exists j, uri = None /\ attr_at attrs 2 "printer-uri" TagURI /\ attr_at attrs 3 "job-id" TagInteger /\
        this_queue /\ id = Some j /\ 1 <= j)).

(** The attributes with a known syntax have a single value of their tag, and
    the numbers are positive. *)
Definition known_value_ok (attrs : Attributes) (name : string) (tag : Z) (positive : bool) : Prop :=
  forall a, Attr attrs name = Some a -> exists v, aValues a = [(tag, v)] /\
    (positive = true -> exists z, v = VInteger z /\ 1 <= z).

Definition values_ok (msg : Message) : Prop :=
  (forall r, r ∈ known_rules msg -> known_value_ok (r_attrs r) (r_name r) (r_tag r) (r_positive r)) /\
  (forall a, Attr (Job msg) "media-col" = Some a -> validMediaColSyntax a = true) /\
  (forall a, Attr (Operation msg) "requested-attributes" = Some a ->
     aValues a <> [] /\ Forall (fun tv => val_T tv = TagKeyword) (aValues a)) /\
  (forall v, FirstString (Operation msg) "which-jobs" = Some v -> ToLower v ∈ which_jobs_values).

(** An override selects pages or documents, not both, by positive ranges, and
    holds something besides. *)
Definition ranges_ok (a : Attribute) : Prop :=
  aValues a <> [] /\ forall t v, (t, v) ∈ aValues a -> t = TagRange /\ exists lo hi, v = VRange lo hi /\ 1 <= lo <= hi.
Definition override_ok (tv : TValue) : Prop :=
  exists l, tv = (TagBeginCollection, VCollection l) /\ (2 <= length l)%nat /\
    match Attr l "pages", Attr l "document-numbers" with
    | Some selector, None | None, Some selector => ranges_ok selector
    | _, _ => False
    end.

(** Print-Job comes with a document; Send-Document says whether this is the
    last one, and only a last one may be empty. *)
Definition document_ok (msg : Message) (hasPayload : bool) : Prop :=
  (Code msg = OpPrintJob -> hasPayload = true) /\
  (Code msg = OpSendDocument -> exists n last, Attr (Operation msg) "last-document" = Some (n, [(TagBoolean, VBoolean last)]) /\
     (hasPayload = true \/ last = true)).

Record well_formed (msg : Message) (printerURI : string) (hasPayload : bool) : Prop := {
  wf_groups : groups_ok msg;
  wf_charset : attr_at (Operation msg) 0 "attributes-charset" TagCharset;
  wf_language : attr_at (Operation msg) 1 "attributes-natural-language" TagLanguage;
  wf_utf8 : exists c, FirstString (Operation msg) "attributes-charset" = Some c /\ name_eq c "utf-8";
  wf_unique : Forall names_unique [Operation msg; Job msg; Document msg; Subscription msg];
  wf_target : target_ok (Operation msg) (Code msg) printerURI;
  wf_media : Attr (Job msg) "media" = None \/ Attr (Job msg) "media-col" = None;
  wf_values : values_ok msg;
  wf_overrides : forall a, Attr (Job msg) "overrides" = Some a -> aValues a <> [] /\ Forall override_ok (aValues a);
  wf_document : document_ok msg hasPayload
}.

(** *** Each check *)

Lemma and_then_None (a b : checked) : and_then a b = None <-> a = None /\ b = None.
Proof. destruct a; naive_solver. Qed.

Lemma foldr_and_then {A} (f : A -> checked) l :
  foldr (fun x acc => and_then (f x) acc) None l = None <-> forall x, x ∈ l -> f x = None.
Proof.
  induction l as [|x l IH]; cbn; [split; [intros _ y Hy; by apply not_elem_of_nil in Hy|done]|].
  rewrite and_then_None, IH. set_solver.
Qed.

Lemma nth_single_true attrs n name tag : nth_single attrs n name tag = true <-> attr_at attrs n name tag.
Proof.
  unfold nth_single, attr_at, singleValueAttr. destruct (attrs !! n) as [a|]; [|split; [done|naive_solver]].
  rewrite andb_true_iff, EqualFold_true. split.
  - intros [Hn Hv]. destruct (aValues a) as [|[t v] [|]] eqn:E; try done. apply Z.eqb_eq in Hv. cbn in Hv. subst t.
    exists a, v. by rewrite E.
  - intros (a' & v & [= <-] & Hn & Hv). rewrite Hv. cbn. split; [done|]. by rewrite Z.eqb_refl.
Qed.

Lemma in_Zs x l : existsb (Z.eqb x) l = true <-> x ∈ l.
Proof.
  rewrite existsb_exists, list_elem_of_In. split; [intros (y & Hy & E); apply Z.eqb_eq in E; by subst|].
  intros H. exists x. by rewrite Z.eqb_refl.
Qed.

Lemma check_groups_job rest ops jobs : 1 <= ops -> 1 <= jobs -> forall r,
  check_groups rest ops jobs = inr r <-> rest = [] /\ r = jobs.
Proof.
  intros Ho Hj r. destruct rest as [|g rest]; cbn [check_groups]; [naive_solver|].
  split; [|intros [H _]; discriminate H].
  destruct (Tag g =? TagOperationGroup); [destruct (negb (ops + 1 =? 1) || (0 <? jobs)) eqn:E; [done|]; bool_to_prop; lia|].
  destruct (Tag g =? TagJobGroup); [destruct (1 <? jobs + 1) eqn:E; [done|]; bool_to_prop; lia|].
  by destruct (Tag g =? TagDocumentGroup).
Qed.

Lemma check_groups_operation rest r : check_groups rest 1 0 = inr r <->
  (rest = [] /\ r = 0) \/ (map Tag rest = [TagJobGroup] /\ r = 1).
Proof.
  destruct rest as [|g rest]; cbn [check_groups]; [naive_solver|].
  destruct (Tag g =? TagOperationGroup) eqn:E1.
  { cbn. apply Z.eqb_eq in E1. split; [done|]. intros [[H _]|[H _]]; [done|]. cbn in H. rewrite E1 in H. done. }
  destruct (Tag g =? TagJobGroup) eqn:E2.
  - apply Z.eqb_eq in E2. change (1 <? 0 + 1) with false. change (0 + 1) with 1. cbv iota. rewrite check_groups_job by lia. cbn [map].
    rewrite E2. destruct rest; cbn [map]; split; [naive_solver|naive_solver|naive_solver|].
    intros [[H _]|[H _]]; [done|]. by injection H.
  - apply Z.eqb_neq in E2. destruct (Tag g =? TagDocumentGroup); split; try done; intros [[H _]|[H _]]; try done; cbn in H; by injection H.
Qed.

Lemma validateRequestGroups_ok msg : validateRequestGroups msg = None <-> groups_ok msg.
Proof.
  unfold validateRequestGroups, groups_ok. destruct (Groups msg) as [[|g rest]|]; [split; [done|by intros [H|[H _]]]| |done].
  destruct (Tag g =? TagOperationGroup) eqn:Eg; cbn [negb].
  2: { apply Z.eqb_neq in Eg. split; [done|]. intros [H|[H _]]; cbn in H; by injection H. }
  cbn [check_groups]. rewrite Eg. apply Z.eqb_eq in Eg. change (0 + 1) with 1. cbn [Z.eqb Pos.eqb negb orb Z.ltb Z.compare].
  cbn [map]. rewrite Eg.
  assert ((Code msg =? OpPrintJob) || (Code msg =? OpValidateJob) || (Code msg =? OpCreateJob) = true <->
    Code msg ∈ [OpPrintJob; OpValidateJob; OpCreateJob]) as Hop.
  { rewrite <- in_Zs. cbn [existsb]. by rewrite orb_false_r, orb_assoc. }
  destruct (check_groups rest 1 0) as [e|r] eqn:Er.
  - split; [done|]. assert (forall r, ~ ((rest = [] /\ r = 0) \/ (map Tag rest = [TagJobGroup] /\ r = 1))) as Hno.
    { intros r Hr. apply check_groups_operation in Hr. congruence. }
    intros [H|[H _]]; injection H as H; [destruct rest; [|done]; destruct (Hno 0)|destruct (Hno 1)]; auto.
  - apply check_groups_operation in Er as [[-> ->]|[Hr ->]]; cbn [Z.ltb Z.compare andb map].
    + split; [by left|done].
    + rewrite Hr. destruct (_ || _) eqn:E; cbn [negb].
      * split; [|done]. intros _. right. split; [done|]. by apply Hop.
      * split; [done|]. intros [H|[_ H]]; [discriminate H|]. apply Hop in H. congruence.
Qed.

Lemma printer_ops op : printerOperationRequiresURI op = true <->
  op ∈ [OpPrintJob; OpValidateJob; OpCreateJob; OpGetJobs; OpGetPrinterAttributes; OpCancelMyJobs; OpIdentifyPrinter].
Proof. apply in_Zs. Qed.
Lemma job_ops op : jobOperationRequiresTarget op = true <-> op ∈ [OpSendDocument; OpGetJobAttributes; OpCancelJob; OpCloseJob].
Proof. apply in_Zs. Qed.
Lemma ops_disjoint op : printerOperationRequiresURI op = true -> jobOperationRequiresTarget op = false.
Proof.
  rewrite printer_ops. intros H. repeat (apply elem_of_cons in H as [->|H]; [reflexivity|]). by apply not_elem_of_nil in H.
Qed.

(** A lookup that must find something that satisfies a test. *)
Lemma tested_Some {A} (o : option A) (f : A -> bool) :
  match o with Some x => f x | None => false end = true <-> exists x, o = Some x /\ f x = true.
Proof. destruct o; naive_solver. Qed.

Lemma validateRequired_ok attrs op : validateRequiredOperationAttrs attrs op = None <->
  attr_at attrs 0 "attributes-charset" TagCharset /\ attr_at attrs 1 "attributes-natural-language" TagLanguage /\
  (printerOperationRequiresURI op = true -> attr_at attrs 2 "printer-uri" TagURI).
Proof.
  unfold validateRequiredOperationAttrs. rewrite <- !nth_single_true.
  destruct (nth_single attrs 0 _ _), (nth_single attrs 1 _ _), (printerOperationRequiresURI op), (nth_single attrs 2 _ _);
    cbn; naive_solver.
Qed.

Lemma check_charset_ok operation : check_charset operation = None <->
  exists c, FirstString operation "attributes-charset" = Some c /\ name_eq c "utf-8".
Proof.
  unfold check_charset. destruct (FirstString operation "attributes-charset") as [c|]; cbn [default from_option].
  - unfold id. destruct (EqualFold c "utf-8") eqn:E.
    + apply EqualFold_true in E. split; [eauto|done].
    + apply EqualFold_false in E. split; [done|]. intros (c' & [= <-] & H). done.
  - split; [done|]. by intros (c & H & _).
Qed.

Lemma duplicate_attr_None seen attrs : duplicate_attr seen attrs = None <->
  names_unique attrs /\ forall a, a ∈ attrs -> ~ (ToLower (aName a) ∈ seen).
Proof.
  unfold names_unique. revert seen. induction attrs as [|a l IH]; intros seen; cbn [duplicate_attr map].
  { split; [intros _; split; [constructor|intros a Ha; by apply not_elem_of_nil in Ha]|done]. }
  rewrite NoDup_cons. destruct (bool_decide_reflect (ToLower (aName a) ∈ seen)) as [H|H].
  - split; [done|]. intros [_ Hn]. destruct (Hn a); [left|done].
  - rewrite IH. rewrite list_elem_of_In, in_map_iff. split.
    + intros [Hd Hn]. split; [split; [|done]|].
      * intros (b & Hb & Hin). apply list_elem_of_In in Hin. apply (Hn b Hin). rewrite Hb. set_solver.
      * intros b Hb. apply elem_of_cons in Hb as [->|Hb]; [done|]. intros Hs. apply (Hn b Hb). set_solver.
    + intros [[Hna Hd] Hn]. split; [done|]. intros b Hb Hs. apply elem_of_union in Hs as [Hs|Hs].
      * apply elem_of_singleton in Hs. apply Hna. exists b. split; [done|]. by apply list_elem_of_In.
      * apply (Hn b); [by right|done].
Qed.

Lemma validateNoDuplicate_ok msg : validateNoDuplicateAttrs msg = None <->
  Forall names_unique [Operation msg; Job msg; Document msg; Subscription msg].
Proof.
  unfold validateNoDuplicateAttrs. generalize [Operation msg; Job msg; Document msg; Subscription msg]. intros l.
  induction l as [|attrs l IH]; cbn [first_duplicate]; [by split|]. rewrite Forall_cons, <- IH.
  pose proof (duplicate_attr_None ∅ attrs) as H.
  assert (names_unique attrs <-> duplicate_attr ∅ attrs = None) as ->.
  { rewrite H. split; [intros Hu; split; [done|set_solver]|tauto]. }
  destruct (duplicate_attr ∅ attrs); naive_solver.
Qed.

(** An error against a target that a job operation accepts. *)
Ltac refused :=
  split; [discriminate|]; intros [_ Hjob]; specialize (Hjob eq_refl);
  destruct Hjob as [(? & ? & ? & ? & ? & ? & ?)|(? & ? & ? & ? & ? & ? & ?)]; try congruence.

Lemma validateTarget_ok attrs op printerURI : validateTarget attrs op printerURI = None <-> target_ok attrs op printerURI.
Proof.
  unfold validateTarget, target_ok. cbv zeta.
  rewrite <- printer_ops, <- job_ops. setoid_rewrite <- nth_single_true.
  pose proof (ops_disjoint op) as Hd.
  setoid_rewrite <- (tested_Some (FirstString attrs "printer-uri") (fun p => sameTargetURI p printerURI)).
  set (same := match FirstString attrs "printer-uri" with Some _ => _ | None => _ end).
  assert (FirstString attrs "printer-uri" = None -> same = false) as Hnone by (by subst same; intros ->). clearbody same.
  destruct (printerOperationRequiresURI op).
  - rewrite (Hd eq_refl). destruct (nth_single attrs 2 "printer-uri" TagURI), same,
      (FirstString attrs "job-uri"), (FirstInt attrs "job-id"); cbn; (split; [try discriminate; by split|]);
      intros [H _]; destruct (H eq_refl) as (? & ? & ? & ?); done.
  - clear Hd. destruct (jobOperationRequiresTarget op); cbn [negb]; [|by split].
    destruct (FirstString attrs "job-uri") as [u|].
    + destruct (nth_single attrs 2 "job-uri" TagURI); cbn [negb]; [|refused].
      destruct (FirstString attrs "printer-uri"); cbn; [refused|].
      destruct (FirstInt attrs "job-id"); cbn; [refused|].
      destruct (jobIDForPrinterURI u printerURI) as [j|] eqn:Ej; [|refused].
      split; [|done]. intros _. split; [done|]. intros _. left. by exists u, j.
    + destruct (nth_single attrs 2 "printer-uri" TagURI), (nth_single attrs 3 "job-id" TagInteger); cbn [negb orb]; try refused.
      destruct same; cbn [negb orb]; [|refused].
      destruct (FirstInt attrs "job-id") as [j|]; [|refused].
      destruct (j <? 1) eqn:E; bool_to_prop; [refused; match goal with H : Some j = Some _ |- _ => injection H as -> end; lia|].
      split; [|done]. intros _. split; [done|]. intros _. right. by exists j.
Qed.

Lemma check_media_ok job : check_media_conflict job = None <-> Attr job "media" = None \/ Attr job "media-col" = None.
Proof. unfold check_media_conflict. destruct (Attr job "media"), (Attr job "media-col"); cbn; naive_solver. Qed.

Lemma check_rule_ok r : check_rule r = None <->
  known_value_ok (r_attrs r) (r_name r) (r_tag r) (r_positive r) /\
  (r_name r = "media-col"%string -> forall a, Attr (r_attrs r) (r_name r) = Some a -> validMediaColSyntax a = true).
Proof.
  unfold check_rule, known_value_ok. destruct (Attr (r_attrs r) (r_name r)) as [a|] eqn:Ha; [|by split].
  destruct (aValues a) as [|[t v] [|]] eqn:Ev; [split; [done|by intros [H _]; destruct (H a eq_refl) as (? & E' & _); rewrite Ev in E']| |
    split; [done|by intros [H _]; destruct (H a eq_refl) as (? & E' & _); rewrite Ev in E']].
  cbn [length Nat.eqb negb foldr]. rewrite !and_then_None. unfold check_value. cbn [fst snd].
  assert ((if negb (t =? r_tag r) then single_error StatusErrorAttributesOrValues (r_name r +:+ " has invalid value syntax") a
     else if r_positive r && match v with VInteger z => z <? 1 | _ => true end
     then single_error StatusErrorAttributesOrValues (r_name r +:+ " must be positive") a else None) = None <->
    t = r_tag r /\ (r_positive r = true -> exists z, v = VInteger z /\ 1 <= z)) as ->.
  { destruct (Z.eqb_spec t (r_tag r)); cbn [negb]; [|split; [done|by intros [? _]]].
    destruct (r_positive r); cbn [andb]; [|by split].
    destruct v; try (split; [done|intros [_ H]; by destruct (H eq_refl) as (? & ? & _)]).
    destruct (z <? 1) eqn:E; bool_to_prop; split; try done.
    - intros [_ H]. destruct (H eq_refl) as (? & [= ->] & ?). lia.
    - intros _. split; [done|]. intros _. eexists; split; [done|lia]. }
  assert ((forall b, Some a = Some b -> exists w, aValues b = [(r_tag r, w)] /\ (r_positive r = true -> exists z, w = VInteger z /\ 1 <= z)) <->
    t = r_tag r /\ (r_positive r = true -> exists z, v = VInteger z /\ 1 <= z)) as ->.
  { split.
    - intros H. destruct (H a eq_refl) as (w & E & Hw). rewrite Ev in E. by injection E as -> ->.
    - intros [-> Hv] b [= <-]. by exists v. }
  assert ((if (r_name r =? "media-col")%string && negb (validMediaColSyntax a)
     then single_error StatusErrorAttributesOrValues "media-col has invalid collection members" a else None) = None <->
    (r_name r = "media-col"%string -> forall b, Some a = Some b -> validMediaColSyntax b = true)) as ->; [|tauto].
  destruct (String.eqb_spec (r_name r) "media-col") as [Hn|Hn]; cbn [andb]; [|by split].
  destruct (validMediaColSyntax a) eqn:Es; cbn [negb]; split; try done; [by intros _ _ b [= <-]|].
  intros H. specialize (H Hn a eq_refl). congruence.
Qed.

Lemma validateKnownValues_ok msg : validateKnownValues msg = None <-> values_ok msg.
Proof.
  unfold validateKnownValues, values_ok. rewrite !and_then_None, foldr_and_then. setoid_rewrite check_rule_ok.
  assert (check_requested (Operation msg) = None <-> forall a, Attr (Operation msg) "requested-attributes" = Some a ->
     aValues a <> [] /\ Forall (fun tv => val_T tv = TagKeyword) (aValues a)) as ->.
  { unfold check_requested. destruct (Attr _ "requested-attributes") as [a|]; [|by split].
    destruct (aValues a) as [|tv l] eqn:E; [split; [done|by intros H; destruct (H a eq_refl)]|].
    destruct (forallb _ _) eqn:Hf.
    - split; [|done]. intros _ b [= <-]. rewrite E. split; [done|]. apply Forall_forall. intros x Hx.
      rewrite forallb_forall in Hf. apply Z.eqb_eq, Hf. by apply list_elem_of_In.
    - split; [done|]. intros H. destruct (H a eq_refl) as [_ Ha]. rewrite E in Ha.
      enough (forallb (fun tv => val_T tv =? TagKeyword) (tv :: l) = true) by congruence. apply forallb_forall. intros x Hx.
      rewrite Forall_forall in Ha. apply Z.eqb_eq, Ha. by apply list_elem_of_In. }
  assert (check_which_jobs (Operation msg) = None <->
    forall v, FirstString (Operation msg) "which-jobs" = Some v -> ToLower v ∈ which_jobs_values) as ->.
  { unfold check_which_jobs. destruct (FirstString _ "which-jobs") as [v|]; [|by split].
    destruct (in_strings (ToLower v) which_jobs_values) eqn:E.
    - split; [|done]. intros _ ? [= <-]. by apply in_strings_true.
    - split; [done|]. intros H. specialize (H v eq_refl). apply in_strings_true in H. congruence. }
  split.
  - intros (Hr & Hq & Hw). split_and!; try done; [by intros r Hin; apply Hr|].
    intros a Ha.
    assert ({| r_attrs := Job msg; r_name := "media-col"; r_tag := TagBeginCollection; r_positive := false |} ∈ known_rules msg) as Hin
      by (apply (list_elem_of_lookup_2 _ 13); reflexivity).
    by apply (proj2 (Hr _ Hin)).
  - intros (Hr & Hc & Hq & Hw). split_and!; try done. intros r Hin. split; [by apply Hr|].
    intros Hn a Ha. unfold known_rules in Hin.
    repeat (apply elem_of_cons in Hin as [->|Hin]; [first [discriminate Hn|by apply Hc]|]). by apply not_elem_of_nil in Hin.
Qed.

Lemma validPositiveRanges_ok a : validPositiveRanges a = true <-> ranges_ok a.
Proof.
  unfold validPositiveRanges, ranges_ok. rewrite andb_true_iff, forallb_forall. split.
  - intros [Hl Hf]. split; [by destruct (aValues a)|]. intros t v Hin. apply list_elem_of_In, Hf in Hin. cbn in Hin.
    destruct v; try done. bool_to_prop. eauto 10.
  - intros [Hl Hf]. split; [by destruct (aValues a)|]. intros [t v] Hin. apply list_elem_of_In, Hf in Hin as (-> & lo & hi & -> & H).
    cbn. rewrite !andb_true_iff, !Z.leb_le. lia.
Qed.

Lemma check_override_ok attr tv : check_override attr tv = None <-> override_ok tv.
Proof.
  unfold check_override, override_ok. destruct tv as [t v]. cbn [fst snd].
  destruct v as [| | | | | |l|]; try (split; [done|by intros (? & [= ] & _)]).
  destruct (Z.eqb_spec t TagBeginCollection) as [->|]; cbn [negb]; [|split; [done|by intros (? & [= ] & _)]].
  pose proof (Nat.ltb_spec (length l) 2) as Hlen. destruct (length l <? 2)%nat; inversion Hlen as [Hl|Hl]; clear Hlen.
  { destruct (Bool.eqb _ _); split; try done; intros (? & [= <-] & H & _); lia. }
  destruct (Attr l "pages") as [p|] eqn:Hp, (Attr l "document-numbers") as [d|] eqn:Hd; cbn.
  1,4: split; [done|]; intros (? & [= <-] & _ & H); rewrite Hp, Hd in H; exact (match H with end).
  all: match goal with |- context [validPositiveRanges ?s] => destruct (validPositiveRanges s) eqn:Er end; cbn [negb].
  1,3: split; [intros _|done]; exists l; split; [done|]; split; [done|]; rewrite Hp, Hd; by apply validPositiveRanges_ok.
  all: split; [done|]; intros (? & [= <-] & _ & H); rewrite Hp, Hd in H; apply validPositiveRanges_ok in H; congruence.
Qed.

Lemma overrides_ok job : (Attr job "overrides" ≫= validateOverrides) = None <->
  forall a, Attr job "overrides" = Some a -> aValues a <> [] /\ Forall override_ok (aValues a).
Proof.
  destruct (Attr job "overrides") as [a|]; cbn [mbind option_bind]; [|by split].
  unfold validateOverrides. destruct (aValues a) as [|tv l] eqn:E; [split; [done|by intros H; destruct (H a eq_refl)]|].
  rewrite foldr_and_then. setoid_rewrite check_override_ok. rewrite <- E, <- Forall_forall. split; [|naive_solver].
  intros H b [= <-]. by rewrite E in *.
Qed.

Lemma check_document_ok msg hasPayload : check_document msg hasPayload = None <-> document_ok msg hasPayload.
Proof.
  unfold check_document, document_ok. destruct (Z.eqb_spec (Code msg) OpPrintJob) as [E|E].
  - rewrite E. change (OpPrintJob =? OpSendDocument) with false. destruct hasPayload; cbn [negb andb]; [by split|].
    split; [done|]. intros [H _]. by specialize (H eq_refl).
  - cbn [andb]. destruct (Z.eqb_spec (Code msg) OpSendDocument) as [E'|E']; [|by split].
    destruct (Attr (Operation msg) "last-document") as [[n [|[t []] [|]]]|];
      try (split; [done|]; intros [_ H]; by destruct (H E') as (? & ? & [= ] & _)).
    destruct (Z.eqb_spec t TagBoolean) as [->|]; cbn [negb];
      [|split; [done|]; intros [_ H]; by destruct (H E') as (? & ? & [= ] & _)].
    destruct hasPayload, b; cbn [negb andb]; (split; [|try done]); try done.
    1-3: intros _; split; [done|]; intros _; do 2 eexists; split; [reflexivity|auto].
    intros [_ H]. by destruct (H E') as (? & ? & [= -> <-] & [?|?]).
Qed.

(** C4: The checks accept exactly the well-formed requests: at most an
    operation and a job group in this order, charset and language first and
    the charset utf-8, no name twice, a target of this queue and of the kind
    the operation needs, single values of the known syntax, one of media and
    media-col, overrides with one selector, and the document the operation
    requires. *)
Theorem accepts_well_formed msg printerURI hasPayload :
  ValidateProtocolRequest (Some msg) printerURI hasPayload = None <-> well_formed msg printerURI hasPayload.
Proof.
  unfold ValidateProtocolRequest. rewrite !and_then_None.
  rewrite validateRequestGroups_ok, check_charset_ok, validateNoDuplicate_ok, validateTarget_ok, check_media_ok,
    validateKnownValues_ok, overrides_ok, check_document_ok.
  assert ((protocolError StatusErrorBadRequest <$> validateRequiredOperationAttrs (Operation msg) (Code msg)) = None <->
    validateRequiredOperationAttrs (Operation msg) (Code msg) = None) as -> by (by destruct (validateRequiredOperationAttrs _ _)).
  rewrite validateRequired_ok. split.
  - intros (? & (? & ? & _) & ? & ? & ? & ? & ? & ? & ?). by split.
  - intros [Hg Hc Hl Hu Hn Ht Hm Hv Ho Hd]. split_and!; try done. intros Hp. by apply Ht, printer_ops.
Qed.
End well_formed.

(** ** The syntax of media-col and the selector of the policy *)

(** What the walk over valid members has done so far: the names seen, the
    dimensions. *)
Section media_col.

Lemma keyword_strings m : validMediaColKeyword m = true -> exists v, attributeStrings m = Some [v] /\ TrimSpace v <> ""%string /\ aValues m = [(TagKeyword, VString v)].
Proof.
  unfold validMediaColKeyword, attributeStrings. destruct (aValues m) as [|[t []] [|]]; try done.
  intros H. bool_to_prop. subst. exists s. done.
Qed.

Lemma positive_fixed m : validMediaColPositiveInteger m = true -> exists z, fixedInteger (aValues m) = Some z /\ 0 < z /\ aValues m = [(TagInteger, VInteger z)].
Proof.
  unfold validMediaColPositiveInteger, fixedInteger. destruct (aValues m) as [|[t []] [|]]; try done.
  intros H. bool_to_prop. subst. exists z. done.
Qed.

(** The loop of [select_value] over the attributes of a collection. *)
Definition select_attrs (attrs : Attributes) (s : mediaColSelector) : mediaColSelector := select_value (VCollection attrs) s.

Lemma select_attrs_cons n vals rest s : select_attrs ((n, vals) :: rest) s =
  select_attrs rest (fold_left (fun s tv => select_value (val_V tv) s) vals (select_member (ToLower n) vals s)).
Proof.
  unfold select_attrs. cbn [select_value]. f_equal.
  generalize (select_member (ToLower n) vals s). induction vals as [|[t w] q IH]; intros k; [done|]. apply IH.
Qed.

Definition selector_ok (s : mediaColSelector) : Prop :=
  sInvalid s = false /\ (forall n, n ∈ sNames s -> n <> ""%string) /\
  (forall x, sX s = Some x -> 0 < x) /\ (forall y, sY s = Some y -> 0 < y).
(** Something is selected: a name or a size. *)
Definition selects (s : mediaColSelector) : Prop := sNames s <> [] \/ sX s <> None.

(** One valid member that is no media-size: what it does to the selector. *)
Inductive member_step (name : string) (s : mediaColSelector) : mediaColSelector -> Prop :=
| step_name v : name ∈ ["media-key"; "media-size-name"]%string -> TrimSpace v <> ""%string ->
    member_step name s {| sNames := sNames s ++ [TrimSpace v]; sX := sX s; sY := sY s; sInvalid := sInvalid s |}
| step_x z : name = "x-dimension"%string -> sX s = None -> 0 < z ->
    member_step name s {| sNames := sNames s; sX := Some z; sY := sY s; sInvalid := sInvalid s |}
| step_y z : name = "y-dimension"%string -> sY s = None -> 0 < z ->
    member_step name s {| sNames := sNames s; sX := sX s; sY := Some z; sInvalid := sInvalid s |}
| step_other : ~ name ∈ ["media-key"; "media-size-name"; "media-size"; "x-dimension"; "y-dimension"]%string -> member_step name s s.

Lemma member_step_ok name s s' : member_step name s s' -> selector_ok s -> selector_ok s' /\ (selects s -> selects s').
Proof.
  unfold selector_ok, selects. intros [v Hn Hv|z Hn Hx Hz|z Hn Hx Hz|_] (Hi & Hs & H1 & H2);
    cbn [sInvalid sNames sX sY].
  - split; [split_and!; try done|].
    + intros n Hin. apply elem_of_app in Hin as [Hin|Hin]; [by apply Hs|]. by apply list_elem_of_singleton in Hin as ->.
    + intros _. left. by destruct (sNames s).
  - split; [split_and!; try done; by intros x [= <-]|]. by right.
  - split; [split_and!; try done; by intros x [= <-]|done].
  - done.
Qed.

(** The walk on a member. *)
Definition select_one (m : Attribute) (s : mediaColSelector) : mediaColSelector :=
  fold_left (fun s tv => select_value (val_V tv) s) (aValues m) (select_member (ToLower (aName m)) (aValues m) s).

(** What [validMediaColMembers] asks of a member that is no media-size. *)
Definition valid_member (dims : option (bool * bool)) (m : Attribute) : Prop :=
  let name := ToLower (aName m) in
  (in_strings name ["media-size-name"; "media-key"] = true /\ validMediaColKeyword m = true) \/
  (name = "x-dimension"%string /\ validMediaColPositiveInteger m = true /\ exists y, dims = Some (false, y)) \/
  (name = "y-dimension"%string /\ validMediaColPositiveInteger m = true /\ exists x, dims = Some (x, false)) \/
  (in_strings name ["media-type"; "media-source"; "media-color"] = true /\ validMediaColKeyword m = true) \/
  (in_strings name ["media-bottom-margin"; "media-left-margin"; "media-right-margin"; "media-top-margin"] = true /\
   validMediaColNonNegativeInteger m = true).

Lemma select_one_step dims m s : valid_member dims m ->
  (forall y, dims = Some (false, y) -> sX s = None) -> (forall x, dims = Some (x, false) -> sY s = None) ->
  member_step (ToLower (aName m)) s (select_one m s).
Proof.
  unfold valid_member, select_one. set (name := ToLower (aName m)). clearbody name. intros H Hx Hy.
  destruct H as [[Hn Hk]|[(-> & Hp & y & Hd)|[(-> & Hp & x & Hd)|[[Hn Hk]|[Hn Hk]]]]].
  - apply keyword_strings in Hk as (v & Hs & Hv & ->). cbn [fold_left snd select_value].
    unfold select_member. apply in_strings_true in Hn.
    assert (in_strings name ["media-key"; "media-size-name"] = true) as E by (apply in_strings_true; set_solver). rewrite E.
    change (attributeStrings (name, [(TagKeyword, VString v)])) with (Some [v]). cbv iota.
    apply String.eqb_neq in Hv as Hv'. rewrite Hv'. constructor; [set_solver|done].
  - apply positive_fixed in Hp as (z & _ & Hz & ->). cbn [fold_left snd select_value].
    specialize (Hx y Hd). unfold select_member. cbn [in_strings existsb String.eqb Ascii.eqb Bool.eqb orb fixedInteger].
    rewrite Hx. by constructor.
  - apply positive_fixed in Hp as (z & _ & Hz & ->). cbn [fold_left snd select_value].
    specialize (Hy x Hd). unfold select_member. cbn [in_strings existsb String.eqb Ascii.eqb Bool.eqb orb fixedInteger].
    rewrite Hy. by constructor.
  - apply keyword_strings in Hk as (v & Hs & Hv & ->). cbn [fold_left snd select_value].
    apply in_strings_true in Hn.
    repeat (apply elem_of_cons in Hn as [->|Hn]; [apply step_other; by apply (bool_decide_eq_false_1 _); vm_compute|]). by apply not_elem_of_nil in Hn.
  - unfold validMediaColNonNegativeInteger in Hk. destruct (aValues m) as [|[t []] [|]]; try done.
    cbn [fold_left snd select_value]. apply in_strings_true in Hn.
    repeat (apply elem_of_cons in Hn as [->|Hn]; [apply step_other; by apply (bool_decide_eq_false_1 _); vm_compute|]). by apply not_elem_of_nil in Hn.
Qed.

Definition seen_dims (dims : option (bool * bool)) (seen : gset string) : Prop :=
  forall hx hy, dims = Some (hx, hy) -> (hx = true -> "x-dimension"%string ∈ seen) /\ (hy = true -> "y-dimension"%string ∈ seen).
Definition same_dims (dims : option (bool * bool)) (s : mediaColSelector) : Prop :=
  forall hx hy, dims = Some (hx, hy) -> (hx = false <-> sX s = None) /\ (hy = false <-> sY s = None).
Definition add_dim (name : string) (dims : option (bool * bool)) : option (bool * bool) :=
  match dims with
  | Some (x, y) => Some (x || (name =? "x-dimension")%string, y || (name =? "y-dimension")%string)
  | None => None
  end.

(** A member that passes: a nested media-size, or a plain member. *)
Lemma members_cons size_member inSize m rest st dims st' :
  validMediaColMembers size_member inSize (m :: rest) st dims = Some st' -> seen_dims dims (fst st) ->
  let name := ToLower (aName m) in let seen := {[name]} ∪ fst st in
  ~ name ∈ fst st /\
  ((name = "media-size"%string /\ inSize = false /\ exists st1, size_member m (seen, snd st) = Some st1 /\
     validMediaColMembers size_member inSize rest (fst st1, true) dims = Some st') \/
   (valid_member dims m /\ name <> "media-size"%string /\ exists sel,
     validMediaColMembers size_member inSize rest (seen, sel) (add_dim name dims) = Some st' /\
     (sel = true -> snd st = true \/ name ∈ ["media-key"; "media-size-name"]%string))).
Proof.
  cbn [validMediaColMembers]. unfold valid_member. set (name := ToLower (aName m)). clearbody name. intros H Hs. cbv zeta.
  destruct (String.eqb_spec name "") as [|Hne]; [done|].
  destruct (bool_decide_reflect (name ∈ fst st)) as [|Hnin]; [done|]. split; [done|]. cbn [orb fst snd] in H.
  assert (forall l, in_strings name l = true -> forallb (fun n => negb (n =? "x-dimension")%string && negb (n =? "y-dimension")%string) l = true ->
    add_dim name dims = dims) as Hadd.
  { intros l Hl Hf. apply in_strings_true, list_elem_of_In in Hl. rewrite forallb_forall in Hf. apply Hf in Hl. unfold add_dim.
    bool_to_prop. destruct dims as [[x y]|]; [|done].
    rewrite (proj2 (String.eqb_neq name "x-dimension")), (proj2 (String.eqb_neq name "y-dimension")) by done.
    by rewrite !orb_false_r. }
  destruct (in_strings name ["media-size-name"; "media-key"]) eqn:E1.
  { destruct (validMediaColKeyword m) eqn:Ek; [|done]. right. split; [by left|].
    split; [intros ->; discriminate E1|]. exists true. rewrite (Hadd _ E1) by reflexivity. split; [done|]. intros _. right.
    apply in_strings_true in E1. set_solver. }
  destruct (String.eqb_spec name "media-size") as [->|Hms].
  { left. split; [done|]. destruct inSize; [done|]. split; [done|].
    destruct (size_member m _) as [st1|]; [|done]. by exists st1. }
  destruct (String.eqb_spec name "x-dimension") as [->|Hx].
  { destruct dims as [[x y]|]; [|done]. destruct (inSize && validMediaColPositiveInteger m) eqn:Ep; [|done].
    apply andb_true_iff in Ep as [_ Ep]. right. split.
    - right. left. split; [done|]. split; [done|]. exists y. destruct x; [|done]. exfalso. by apply Hnin, (Hs true y eq_refl).
    - split; [done|]. exists (snd st). cbn [add_dim String.eqb Ascii.eqb Bool.eqb]. rewrite orb_true_r, orb_false_r. split; [done|]. by left. }
  destruct (String.eqb_spec name "y-dimension") as [->|Hy].
  { destruct dims as [[x y]|]; [|done]. destruct (inSize && validMediaColPositiveInteger m) eqn:Ep; [|done].
    apply andb_true_iff in Ep as [_ Ep]. right. split.
    - right. right. left. split; [done|]. split; [done|]. exists x. destruct y; [|done]. exfalso. by apply Hnin, (Hs x true eq_refl).
    - split; [done|]. exists (snd st). cbn [add_dim String.eqb Ascii.eqb Bool.eqb]. rewrite orb_true_r, orb_false_r. split; [done|]. by left. }
  destruct (in_strings name ["media-type"; "media-source"; "media-color"]) eqn:E2.
  { destruct (validMediaColKeyword m) eqn:Ek; [|done]. right. split; [by auto 10|]. split; [done|]. exists (snd st).
    rewrite (Hadd _ E2) by reflexivity. split; [done|]. by left. }
  destruct (in_strings name ["media-bottom-margin"; "media-left-margin"; "media-right-margin"; "media-top-margin"]) eqn:E3; [|done].
  destruct (validMediaColNonNegativeInteger m) eqn:Ek; [|done]. right. split; [by auto 10|]. split; [done|]. exists (snd st).
  rewrite (Hadd _ E3) by reflexivity. split; [done|]. by left.
Qed.

Lemma same_dims_step dims m s s' : member_step (ToLower (aName m)) s s' -> same_dims dims s ->
  ToLower (aName m) <> "media-size"%string -> same_dims (add_dim (ToLower (aName m)) dims) s'.
Proof.
  set (name := ToLower (aName m)). clearbody name. intros Hstep Hd Hms hx hy. unfold add_dim.
  destruct dims as [[x y]|]; [|done]. intros [= <- <-]. destruct (Hd x y eq_refl) as [H1 H2].
  destruct Hstep as [v Hn Hv|z -> Hx Hz|z -> Hx Hz|Hn]; cbn [sX sY].
  - assert ((name =? "x-dimension")%string = false /\ (name =? "y-dimension")%string = false) as [-> ->].
    { repeat (apply elem_of_cons in Hn as [->|Hn]; [done|]). by apply not_elem_of_nil in Hn. }
    by rewrite !orb_false_r.
  - cbn [String.eqb Ascii.eqb Bool.eqb]. by rewrite orb_true_r, orb_false_r.
  - cbn [String.eqb Ascii.eqb Bool.eqb]. by rewrite orb_true_r, orb_false_r.
  - assert ((name =? "x-dimension")%string = false /\ (name =? "y-dimension")%string = false) as [-> ->].
    { split; apply String.eqb_neq; intros ->; apply Hn; by apply (bool_decide_eq_true_1 _); vm_compute. }
    by rewrite !orb_false_r.
Qed.

Lemma seen_dims_step dims name seen : seen_dims dims seen -> seen_dims (add_dim name dims) ({[name]} ∪ seen).
Proof.
  intros H hx hy. unfold add_dim. destruct dims as [[x y]|]; [|done]. intros [= <- <-]. destruct (H x y eq_refl) as [H1 H2].
  split; intros E; apply orb_true_iff in E as [E|E]; try (apply elem_of_union_r; by auto); apply String.eqb_eq in E as ->; by apply elem_of_union_l, elem_of_singleton.
Qed.

(** Inside a media-size: both dimensions are selected, positive. *)
Lemma size_members_ok size_member l seen sel hx hy st' s :
  validMediaColMembers size_member true l (seen, sel) (Some (hx, hy)) = Some st' ->
  seen_dims (Some (hx, hy)) seen -> same_dims (Some (hx, hy)) s -> selector_ok s ->
  let s' := select_attrs l s in
  selector_ok s' /\ sX s' <> None /\ sY s' <> None /\ seen ⊆ fst st'.
Proof.
  revert seen sel hx hy s. induction l as [|[n vals] l IH]; intros seen sel hx hy s H Hseen Hd Hok; cbv zeta.
  - cbn in H. destruct hx, hy; try done. injection H as <-. destruct (Hd true true eq_refl) as [H1 H2].
    split; [done|]. split; [by intros E; apply H1 in E|]. split; [by intros E; apply H2 in E|done].
  - apply members_cons in H as [Hn H]; [|done]. cbn [fst snd] in *.
    destruct H as [(_ & H & _)|(Hv & Hms & sel' & H & _)]; [done|].
    rewrite select_attrs_cons. change (fold_left _ vals _) with (select_one (n, vals) s).
    assert (member_step (ToLower n) s (select_one (n, vals) s)) as Hstep.
    { apply (select_one_step (Some (hx, hy)) (n, vals)); [done|..].
      - intros y [= -> ->]. by apply (Hd false y).
      - intros x [= -> ->]. by apply (Hd x false). }
    pose proof (same_dims_step (Some (hx, hy)) (n, vals) _ _ Hstep Hd Hms) as Hd'.
    apply member_step_ok in Hstep as [Hok' _]; [|done]. cbn [add_dim] in H, Hd'.
    edestruct IH as (H1 & H2 & H3 & H4); [exact H| |exact Hd'|exact Hok'|].
    { by apply (seen_dims_step (Some (hx, hy)) (ToLower n)). }
    split; [done|]. split; [done|]. split; [done|]. set_solver.
Qed.

(** Outside: the dimensions come from one media-size, or there are none. *)
Lemma members_ok l seen sel st' s :
  validMediaColMembers validMediaSizeMember false l (seen, sel) None = Some st' ->
  selector_ok s -> (sX s = None <-> sY s = None) -> (sX s <> None -> "media-size"%string ∈ seen) -> (sel = true -> selects s) ->
  let s' := select_attrs l s in
  selector_ok s' /\ (sX s' = None <-> sY s' = None) /\ (snd st' = true -> selects s').
Proof.
  revert seen sel s. induction l as [|[n vals] l IH]; intros seen sel s H Hok Hxy Hsize Hsel; cbv zeta.
  { cbn in H. by injection H as <-. }
  apply members_cons in H as [Hn H]; [|done]. cbn [fst snd] in Hn, H. change (aName (n, vals)) with n in *.
  rewrite select_attrs_cons. change (fold_left _ vals _) with (select_one (n, vals) s).
  destruct H as [(Hms & _ & st1 & Hst1 & H)|(Hv & Hms & sel' & H & Hsel')].
  - unfold validMediaSizeMember in Hst1. cbn [snd] in Hst1. destruct vals as [|[t []] [|]]; try done.
    destruct (t =? TagBeginCollection); [|done]. rewrite Hms in Hn, Hst1.
    assert (select_one (n, [(t, VCollection attrs)]) s = select_attrs attrs s) as ->.
    { unfold select_one. cbn [fst snd fold_left]. by rewrite Hms. }
    assert (sX s = None) as Hx by (destruct (sX s); [exfalso; by apply Hn, Hsize|done]).
    apply (size_members_ok _ attrs _ _ _ _ _ s) in Hst1 as (H1 & H2 & H3 & H4); [| | |done].
    2: { by intros hx hy [= <- <-]. }
    2: { intros hx hy [= <- <-]. split; [done|]. split; [intros _; by apply Hxy|done]. }
    apply (IH _ _ (select_attrs attrs s) H); [done|by split| |intros _; by right].
    intros _. apply H4. by apply elem_of_union_l, elem_of_singleton.
  - assert (member_step (ToLower n) s (select_one (n, vals) s)) as Hstep by (apply (select_one_step None (n, vals)); [exact Hv|by intros y|by intros x]).
    assert (sX (select_one (n, vals) s) = sX s /\ sY (select_one (n, vals) s) = sY s) as [E1 E2].
    { unfold valid_member in Hv. change (aName (n, vals)) with n in Hv.
      destruct Hstep as [v ? ?|z Hz ? ?|z Hz ? ?|?]; [done| | |done]; rewrite Hz in Hv;
        destruct Hv as [[Hv _]|[(_ & _ & ? & Hv)|[(_ & _ & ? & Hv)|[[Hv _]|[Hv _]]]]]; discriminate Hv. }
    assert (ToLower n ∈ ["media-key"; "media-size-name"]%string -> sNames (select_one (n, vals) s) <> []) as Hnames.
    { intros Hk. destruct Hstep as [v ? ?|z Hz ? ?|z Hz ? ?|Hno]; [by destruct (sNames s)|..]; cbn [sNames];
        [rewrite Hz in Hk; set_solver|rewrite Hz in Hk; set_solver|]. destruct Hno. set_solver. }
    apply member_step_ok in Hstep as [Hok' Hkeep]; [|done].
    apply (IH _ _ (select_one (n, vals) s) H); [done|by rewrite E1, E2| |].
    + rewrite E1. intros Hx. apply elem_of_union_r. by apply Hsize.
    + intros Hs. destruct (Hsel' Hs) as [Hs'|Hk]; [by apply Hkeep, Hsel|]. left. by apply Hnames.
Qed.

(** A media-col that passes the syntax check never fails the policy's own
    reading of it: the selector is not invalid, its names are not blank, it has
    both dimensions, positive, or neither, and it selects something; so the
    medium falls back only because the catalog has no match. *)
Theorem valid_media_col_selects attr : validMediaColSyntax attr = true ->
  exists l, aValues attr = [(TagBeginCollection, VCollection l)] /\
    let s := collectMediaColSelector l no_selector in
    sInvalid s = false /\ (forall n, n ∈ sNames s -> n <> ""%string) /\
    match sX s, sY s with
    | Some x, Some y => 0 < x /\ 0 < y
    | None, None => sNames s <> []
    | _, _ => False
    end.
Proof.
  unfold validMediaColSyntax. destruct (aValues attr) as [|[t []] [|]]; try done.
  destruct (Z.eqb_spec t TagBeginCollection) as [->|]; [|done]. cbn [andb].
  destruct (validMediaColMembers _ _ _ _ _) as [st|] eqn:E; [|done]. intros Hsel. exists attrs. split; [done|]. cbv zeta.
  apply (members_ok attrs ∅ false st no_selector) in E as ((Hi & Hn & Hx & Hy) & Hxy & Hs); try done.
  { unfold collectMediaColSelector. fold (select_attrs attrs no_selector). split; [done|]. split; [done|].
    destruct (Hs Hsel) as [Hs'|Hs'], (sX _) as [x|], (sY _) as [y|]; try (split; [by apply Hx|by apply Hy]);
      try done; naive_solver. }
  split; [done|]. split; [|done]. intros n Hin. by apply not_elem_of_nil in Hin.
Qed.
End media_col.

(** ** Witnesses *)

Definition example_media_col_value : Attribute :=
  ("media-col", [(TagBeginCollection, VCollection
     [("Media-Size", [(TagBeginCollection, VCollection [("x-dimension", [(TagInteger, VInteger 21000)]);
                                                        ("y-dimension", [(TagInteger, VInteger 29700)])])]);
      ("media-source", [(TagKeyword, VString "tray-2")]); ("media-top-margin", [(TagInteger, VInteger 0)])])])%string.

Lemma valid_media_col_selects_witness : exists l, aValues example_media_col_value = [(TagBeginCollection, VCollection l)] /\
  sX (collectMediaColSelector l no_selector) = Some 21000 /\ sInvalid (collectMediaColSelector l no_selector) = false.
Proof.
  destruct (valid_media_col_selects example_media_col_value) as (l & Hl & Hi & _); [vm_compute; reflexivity|].
  exists l. split; [exact Hl|]. split; [|exact Hi]. injection Hl as <-. reflexivity.
Defined.

(** A Print-Job that is well formed, and refused without its document. *)
Definition example_request : Message :=
  mkMessage (MakeVersion 2 0) OpPrintJob 1
    (Some [mkGroup TagOperationGroup []; mkGroup TagJobGroup []])
    [("attributes-charset", [(TagCharset, VString "UTF-8")]); ("attributes-natural-language", [(TagLanguage, VString "en")]);
     ("printer-uri", [(TagURI, VString "ipp://printer.local/printers/office")])]%string
    [("media", [(TagKeyword, VString "iso_a4_210x297mm")]);
     ("overrides", [(TagBeginCollection, VCollection [("pages", [(TagRange, VRange 1 2)]); ("sides", [(TagKeyword, VString "one-sided")])])])]%string
    [] [] [] [] [] [] [].

Lemma accepts_well_formed_witness :
  @well_formed goipp_example no_ip6 example_request "ipp://10.0.0.1:631/printers/office" true /\
  ~ @well_formed goipp_example no_ip6 example_request "ipp://10.0.0.1:631/printers/office" false.
Proof.
  split.
  - apply (@accepts_well_formed goipp_example no_ip6). vm_compute. reflexivity.
  - intros H. apply (@accepts_well_formed goipp_example no_ip6) in H.
    assert (@ValidateProtocolRequest goipp_example no_ip6 (Some example_request) "ipp://10.0.0.1:631/printers/office" false <> None) as Hn
      by (vm_compute; discriminate).
    exact (Hn H).
Defined.
