(* ===== verification/UriTheorems.v ===== *)
(** * The URIs of printers and jobs: the theorems

    What [url.Parse] makes of a URI with an authority, both ways; then the
    job URIs the proxy hands out, against the check of a request's target and
    against the id the handlers read from the same text. *)

From Stdlib Require Import ZArith Lia Ascii String.
From Stdlib Require Import Decimal DecimalString.
From stdpp Require Import base tactics list strings.
From S2P Require Import Prelude GoString Goipp IppAttrs GoUrl Protocol.

(** ** Strings *)

Lemma sapp_cons c s t : String c s +:+ t = String c (s +:+ t).
Proof. reflexivity. Qed.
Lemma sapp_nil s : "" +:+ s = s.
Proof. reflexivity. Qed.
Lemma sapp_nil_r s : s +:+ "" = s.
Proof. induction s as [|c s IH]; [done|]. by rewrite sapp_cons, IH. Qed.
Lemma sapp_assoc a b c : (a +:+ b) +:+ c = a +:+ (b +:+ c).
Proof. induction a as [|x a IH]; [done|]. by rewrite !sapp_cons, IH. Qed.
Lemma sapp_eq_nil a b : a +:+ b = ""%string -> a = ""%string /\ b = ""%string.
Proof. destruct a; [by split|done]. Qed.
Lemma sapp_inj_l a b c : a +:+ b = a +:+ c -> b = c.
Proof. induction a as [|x a IH]; [done|]. simpl. intros [= H]. by apply IH. Qed.

Lemma sall_cons p c s : sall p (String c s) = p c && sall p s.
Proof. reflexivity. Qed.
Lemma sall_app p a b : sall p (a +:+ b) = sall p a && sall p b.
Proof. induction a as [|c a IH]; [done|]. simpl. by rewrite IH, andb_assoc. Qed.
Lemma sall_impl (p q : ascii -> bool) s : (forall c, p c = true -> q c = true) -> sall p s = true -> sall q s = true.
Proof.
  intros Hpq. induction s as [|c s IH]; [done|]. simpl. intros H. apply andb_true_iff in H as [Hc H].
  by rewrite (Hpq c Hc), IH.
Qed.

Lemma ContainsFunc_sall s p : ContainsFunc s p = negb (sall (fun c => negb (p c)) s).
Proof.
  unfold ContainsFunc. induction s as [|c s IH]; [done|]. simpl. destruct (p c); [done|]. simpl. rewrite <- IH.
  by destruct (IndexChar s p).
Qed.

Lemma prefix_app p s : HasPrefix (p +:+ s) p = true.
Proof. unfold HasPrefix. induction p as [|c p IH]; [by destruct s|]. simpl. destruct (ascii_dec c c); [exact IH|done]. Qed.
Lemma prefix_split s p : HasPrefix s p = true -> exists r, s = p +:+ r.
Proof.
  unfold HasPrefix. revert s. induction p as [|c p IH]; intros s H; [by exists s|].
  destruct s as [|d s]; [done|]. simpl in H. destruct (ascii_dec c d) as [->|]; [|done].
  destruct (IH s H) as [r ->]. by exists r.
Qed.
Lemma sdrop_app p s : sdrop (slen p) (p +:+ s) = s.
Proof. unfold slen. induction p as [|c p IH]; [by destruct s|]. exact IH. Qed.
Lemma TrimPrefix_app p s : TrimPrefix (p +:+ s) p = s.
Proof. unfold TrimPrefix. by rewrite prefix_app, sdrop_app. Qed.

(** A text without the byte [c]. *)
Definition without (c : ascii) (s : string) : bool := sall (fun d => negb (Ascii.eqb d c)) s.

Lemma cut_spec c s : let '(a, b, f) := cut c s in
  s = a +:+ (if f then String c b else "") /\ without c a = true /\ (f = false -> b = ""%string).
Proof.
  unfold without. induction s as [|d s IH]; [done|]. simpl. destruct (Ascii.eqb_spec d c) as [->|Hd]; [done|].
  destruct (cut c s) as [[a b] f]. destruct IH as (-> & Ha & Hb). simpl.
  apply Ascii.eqb_neq in Hd. rewrite Hd. done.
Qed.
Lemma cut_found c a b : without c a = true -> cut c (a +:+ String c b) = (a, b, true).
Proof.
  unfold without. induction a as [|d a IH]; simpl; [by rewrite Ascii.eqb_refl|]. intros H.
  apply andb_true_iff in H as [Hd H]. apply negb_true_iff in Hd. by rewrite Hd, IH.
Qed.
Lemma cut_missing c a : without c a = true -> cut c a = (a, ""%string, false).
Proof.
  unfold without. induction a as [|d a IH]; [done|]. simpl. intros H.
  apply andb_true_iff in H as [Hd H]. apply negb_true_iff in Hd. by rewrite Hd, IH.
Qed.

Lemma cut_last_found c a b : without c b = true -> cut_last c (a +:+ String c b) = Some (a, b).
Proof.
  intros Hb. induction a as [|d a IH]; simpl.
  - assert (cut_last c b = None) as ->; [|by rewrite Ascii.eqb_refl].
    revert Hb. unfold without. clear. induction b as [|d b IH]; [done|]. simpl. intros H.
    apply andb_true_iff in H as [Hd H]. apply negb_true_iff in Hd. by rewrite IH, Hd.
  - by rewrite IH.
Qed.
Lemma cut_last_None c s : cut_last c s = None -> without c s = true.
Proof.
  unfold without. induction s as [|d s IH]; [done|]. simpl. destruct (cut_last c s) as [[a b]|]; [done|].
  destruct (Ascii.eqb d c); [done|]. intros _. by rewrite IH.
Qed.
Lemma cut_last_Some c s a b : cut_last c s = Some (a, b) -> s = a +:+ String c b /\ without c b = true.
Proof.
  revert a b. induction s as [|d s IH]; [done|]. intros a b. simpl. destruct (cut_last c s) as [[a' b']|] eqn:E.
  - intros [= <- <-]. destruct (IH a' b' eq_refl) as [-> Hb]. done.
  - destruct (Ascii.eqb_spec d c) as [->|]; [|done]. intros [= <- <-]. split; [done|]. by apply cut_last_None.
Qed.

(** *** Trimming *)

Lemma trim_right_app p a b : trim_right_by p (a +:+ b) =
  (if (trim_right_by p b =? "")%string then trim_right_by p a else a +:+ trim_right_by p b).
Proof.
  induction a as [|c a IH]; [simpl; by destruct (String.eqb_spec (trim_right_by p b) "")|].
  rewrite !sapp_cons. simpl. rewrite IH. destruct (String.eqb_spec (trim_right_by p b) "") as [E|E]; [done|].
  destruct (a +:+ trim_right_by p b) as [|d r] eqn:E2; [|done]. by apply sapp_eq_nil in E2 as [_ E2].
Qed.
Lemma trim_right_all p s : sall p s = true -> trim_right_by p s = ""%string.
Proof.
  induction s as [|c s IH]; [done|]. simpl. intros H. apply andb_true_iff in H as [Hc H]. by rewrite IH, Hc.
Qed.
Lemma trim_right_split p s : exists t, s = trim_right_by p s +:+ t /\ sall p t = true.
Proof.
  induction s as [|c s (t & Hs & Ht)]; [by exists ""%string|]. simpl.
  destruct (trim_right_by p s) as [|d r] eqn:E.
  - destruct (p c) eqn:Hc.
    + exists (String c t). simpl in Hs |- *. by rewrite Hs, Hc in *.
    + exists t. simpl in *. by rewrite Hs.
  - exists t. split; [|done]. by rewrite Hs at 1.
Qed.
Lemma trim_right_last p s c : p c = false -> trim_right_by p (s +:+ String c "") = s +:+ String c "".
Proof. intros Hc. rewrite trim_right_app. simpl. by rewrite Hc. Qed.

(** ** Percent-encoding *)

Lemma unescape_cons_other mode c r : c <> "%"%char ->
  unescape mode (String c r) =
  if match mode with encodeHost => (code c <? 128) && shouldEscape c encodeHost | _ => false end then None
  else String c <$> unescape mode r.
Proof. intros Hc. destruct c as [[] [] [] [] [] [] [] []]; try reflexivity. by destruct Hc. Qed.

Lemma unescape_app s t path : unescape encodePath s = Some path ->
  unescape encodePath (s +:+ t) = String.append path <$> unescape encodePath t.
Proof.
  remember (slen s) as n eqn:Hn. revert s path Hn. induction n as [n IH] using lt_wf_ind. intros s path -> Hs.
  destruct s as [|c r]; [injection Hs as <-; rewrite sapp_nil; by destruct (unescape encodePath t)|].
  destruct (ascii_dec c "%") as [->|Hc].
  - destruct r as [|a [|b r]]; try discriminate Hs. simpl in Hs |- *.
    destruct (hex_val a); [|done]. destruct (hex_val b); [|done].
    destruct (unescape encodePath r) as [q|] eqn:E; [|done]. injection Hs as <-.
    rewrite (IH (slen r) ltac:(unfold slen; simpl; lia) r q eq_refl E). by destruct (unescape encodePath t).
  - rewrite sapp_cons, unescape_cons_other by done. rewrite unescape_cons_other in Hs by done.
    destruct (unescape encodePath r) as [q|] eqn:E; [|done]. injection Hs as <-.
    rewrite (IH (slen r) ltac:(unfold slen; simpl; lia) r q eq_refl E). by destruct (unescape encodePath t).
Qed.

(** Before a slash an escape is complete. *)
Lemma unescape_before_slash s t whole : unescape encodePath (s +:+ String "/" t) = Some whole ->
  exists path rest, unescape encodePath s = Some path /\ unescape encodePath t = Some rest /\ whole = path +:+ String "/" rest.
Proof.
  remember (slen s) as n eqn:Hn. revert s whole Hn. induction n as [n IH] using lt_wf_ind. intros s whole -> Hs.
  destruct s as [|c r].
  { change ("" +:+ String "/" t) with (String "/" t) in Hs. rewrite unescape_cons_other in Hs by done.
    destruct (unescape encodePath t) as [q|]; [|done]. injection Hs as <-. by exists ""%string, q. }
  destruct (ascii_dec c "%") as [->|Hc].
  - destruct r as [|a [|b r]]; [by destruct t as [|? [|]]|simpl in Hs; by destruct (hex_val a)|]. simpl in Hs |- *.
    destruct (hex_val a); [|done]. destruct (hex_val b); [|done].
    destruct (unescape encodePath (r +:+ String "/" t)) as [q|] eqn:E; [|done]. injection Hs as <-.
    destruct (IH (slen r) ltac:(unfold slen; simpl; lia) r q eq_refl E) as (path & rest & -> & -> & ->).
    by exists (String (chr (16 * z + z0)) path), rest.
  - rewrite sapp_cons, unescape_cons_other in Hs by done. rewrite unescape_cons_other by done.
    destruct (unescape encodePath (r +:+ String "/" t)) as [q|] eqn:E; [|done]. injection Hs as <-.
    destruct (IH (slen r) ltac:(unfold slen; simpl; lia) r q eq_refl E) as (path & rest & -> & -> & ->).
    by exists (String c path), rest.
Qed.

Lemma escape_app mode s t : escape mode (s +:+ t) = escape mode s +:+ escape mode t.
Proof.
  induction s as [|c s IH]; [done|]. rewrite sapp_cons. simpl. rewrite IH. by destruct (shouldEscape c mode).
Qed.

(** Digits and signs stand for themselves in a path. *)
Definition plain_char (c : ascii) : bool := is_digit c || Ascii.eqb c "+" || Ascii.eqb c "-".

Lemma plain_char_spec c : plain_char c = true ->
  shouldEscape c encodePath = false /\ c <> "%"%char /\ c <> "/"%char /\ c <> "?"%char /\ c <> "#"%char /\ is_control c = false.
Proof.
  destruct c as [[] [] [] [] [] [] [] []]; try discriminate; intros _; (split; [reflexivity|]); repeat (split; [discriminate|]); reflexivity.
Qed.

Lemma plain_escape s : sall plain_char s = true -> escape encodePath s = s.
Proof.
  induction s as [|c s IH]; [done|]. simpl. intros H. apply andb_true_iff in H as [Hc H].
  apply plain_char_spec in Hc as [-> _]. by rewrite IH.
Qed.
Lemma plain_unescape s : sall plain_char s = true -> unescape encodePath s = Some s.
Proof.
  induction s as [|c s IH]; [done|]. intros H. apply andb_true_iff in H as [Hc H].
  apply plain_char_spec in Hc as (_ & Hc & _). rewrite unescape_cons_other by done. by rewrite IH.
Qed.
Lemma plain_without s c : plain_char c = false -> sall plain_char s = true -> without c s = true.
Proof.
  intros Hc. apply sall_impl. intros d Hd. apply negb_true_iff, Ascii.eqb_neq. intros ->. congruence.
Qed.

(** *** Numbers *)

Lemma uint_of_string_digits s u : NilEmpty.uint_of_string s = Some u -> sall is_digit s = true.
Proof.
  revert u. induction s as [|c s IH]; [done|]. intros u. simpl.
  destruct (NilEmpty.uint_of_string s) as [v|] eqn:E; [|by destruct c as [[] [] [] [] [] [] [] []]].
  intros H. rewrite (IH v eq_refl), andb_true_r. destruct c as [[] [] [] [] [] [] [] []]; try discriminate H; reflexivity.
Qed.

Lemma parse_uint_digits s z : parse_uint s = Some z -> sall is_digit s = true /\ s <> ""%string /\ 0 <= z.
Proof.
  unfold parse_uint. destruct s as [|c s]; [done|]. change (NilZero.uint_of_string (String c s)) with (NilEmpty.uint_of_string (String c s)).
  destruct (NilEmpty.uint_of_string (String c s)) as [u|] eqn:E; [|done]. intros [= <-].
  split; [by eapply uint_of_string_digits|]. split; [done|]. lia.
Qed.

(** ** URIs with an authority *)

(** The path part of a URI: empty, or from a slash on. *)
Definition rooted (p : string) : Prop := p = ""%string \/ exists r, p = String "/" r.

(** What [EscapedPath] gives back of the raw path it was parsed from. *)
Lemma EscapedPath_with_path p base u : with_path p base = Some u -> rooted p ->
  exists path, unescape encodePath p = Some path /\ EscapedPath u = (if validEncoded p then p else escape encodePath path).
Proof.
  unfold with_path. destruct (unescape encodePath p) as [path|] eqn:Ep; [|done]. intros [= <-] Hroot.
  exists path. split; [done|]. unfold EscapedPath. cbn [RawPath Path].
  assert ((path =? "*")%string = false) as Hstar.
  { destruct Hroot as [->|[r ->]]; [by injection Ep as <-|].
    rewrite unescape_cons_other in Ep by done. destruct (unescape encodePath r); [|done]. by injection Ep as <-. }
  rewrite Hstar. destruct (String.eqb_spec p (escape encodePath path)) as [E|E].
  - cbn [String.eqb negb andb]. by destruct (validEncoded p).
  - destruct (String.eqb_spec p "") as [->|_].
    { injection Ep as <-. by destruct E. }
    cbn [negb andb]. rewrite Ep, bool_decide_eq_true_2 by done. by rewrite andb_true_r.
Qed.

Lemma with_path_fields p base u : with_path p base = Some u ->
  Scheme u = Scheme base /\ Host u = Host base /\ RawQuery u = RawQuery base /\ Fragment u = Fragment base.
Proof. unfold with_path. destruct (unescape encodePath p); [|done]. by intros [= <-]. Qed.

Definition scheme_char (c : ascii) : bool := is_alpha c || is_digit c || in_set "+-." c.

Lemma getScheme_go_spec whole acc s sch rest : getScheme_go whole acc s = Some (sch, rest) -> sch <> ""%string ->
  exists s1, s = s1 +:+ String ":" rest /\ sch = acc +:+ s1 /\ sall scheme_char s1 = true /\
    forall whole' x, getScheme_go whole' acc (s1 +:+ String ":" x) = Some (sch, x).
Proof.
  revert acc. induction s as [|c s IH]; intros acc; cbn [getScheme_go]; [by intros [= <- _]|].
  assert (forall a t, (a +:+ String c "") +:+ t = a +:+ String c t) as Happ.
  { intros a t. by rewrite sapp_assoc. }
  destruct (is_alpha c) eqn:Ea.
  { intros H Hne. destruct (IH _ H Hne) as (s1 & -> & -> & Hall & Hgo). exists (String c s1). split; [done|].
    split; [by rewrite Happ|]. split; [simpl; unfold scheme_char at 1; by rewrite Ea, Hall|].
    intros w x. rewrite sapp_cons. cbn [getScheme_go]. by rewrite Ea. }
  destruct (is_digit c || in_set "+-." c) eqn:Ed.
  { destruct (acc =? "")%string eqn:Eacc; [by intros [= <- _]|].
    intros H Hne. destruct (IH _ H Hne) as (s1 & -> & -> & Hall & Hgo). exists (String c s1). split; [done|].
    split; [by rewrite Happ|]. split; [simpl; unfold scheme_char at 1; by rewrite <- orb_assoc, Ed, orb_true_r, Hall|]. intros w x. rewrite sapp_cons. cbn [getScheme_go]. by rewrite Ea, Ed, Eacc. }
  destruct (Ascii.eqb_spec c ":") as [->|]; [|by intros [= <- _]].
  destruct (acc =? "")%string eqn:Eacc; [done|]. intros [= -> ->] _. exists ""%string.
  rewrite sapp_nil_r. split; [done|]. split; [done|]. split; [done|]. intros w x. rewrite sapp_nil. cbn [getScheme_go].
  by rewrite Ea, Ed, Ascii.eqb_refl, Eacc.
Qed.

Section uris.
Context `{I : IPLiterals}.

(** A scheme and an authority a URI may begin with. *)
Record begins (sch auth : string) (user : bool) (host : string) : Prop := {
  b_scheme : sch <> ""%string;
  b_getScheme : forall x, getScheme (sch +:+ String ":" x) = Some (sch, x);
  b_plain : forall c, c ∈ ["?"; "#"]%char -> without c (sch +:+ auth) = true;
  b_slash : without "/" auth = true;
  b_control : sall (fun c => negb (is_control c)) (sch +:+ auth) = true;
  b_authority : parseAuthority auth = Some (user, host)
}.

Definition uri (sch auth p : string) : string := sch +:+ "://" +:+ auth +:+ p.

Definition base_url (sch : string) (user : bool) (host : string) : URL :=
  {| Scheme := ToLower sch; Opaque := ""; User := user; Host := host; Path := ""; RawPath := ""; RawQuery := ""; Fragment := "" |}.

Lemma parse_url_uri sch auth user host p query : begins sch auth user host -> rooted p ->
  without "?" p = true -> sall (fun c => negb (is_control c)) (p +:+ query) = true ->
  query = ""%string \/ query = "?"%string ->
  parse_url (uri sch auth p +:+ query) = with_path p (base_url sch user host).
Proof.
  intros [Hs Hget Hplain Hslash Hctl Hauth] Hroot Hq Hpctl Hquery. unfold parse_url, uri.
  rewrite ContainsFunc_sall, !sall_app. rewrite sall_app in Hctl, Hpctl. apply andb_true_iff in Hctl as [Hc1 Hc2].
  apply andb_true_iff in Hpctl as [Hp1 Hp2]. rewrite Hc1, Hc2, Hp1, Hp2. change (negb (_ && _)) with false. cbv iota.
  rewrite !sapp_assoc. change ("://" +:+ ?x) with (String ":" (String "/" (String "/" x))).
  assert (((sch +:+ String ":" (String "/" (String "/" (auth +:+ p +:+ query)))) =? "*")%string = false) as ->.
  { apply String.eqb_neq. intros E. destruct sch as [|a [|b sch]]; [done| |]; by injection E. }
  rewrite Hget. cbn [mbind option_bind].
  assert (cut "?" (String "/" (String "/" (auth +:+ p +:+ query))) =
    (String "/" (String "/" (auth +:+ p)), ""%string, negb (query =? "")%string)) as ->.
  { pose proof (Hplain "?"%char ltac:(left)) as H1. unfold without in H1. rewrite sall_app in H1.
    apply andb_true_iff in H1 as [_ H1].
    assert (without "?" (String "/" (String "/" (auth +:+ p))) = true) as Hw.
    { unfold without. simpl. rewrite sall_app, H1. exact Hq. }
    rewrite <- sapp_assoc. change (String "/" (String "/" ((auth +:+ p) +:+ query))) with (String "/" (String "/" (auth +:+ p)) +:+ query).
    destruct Hquery as [->| ->]; [rewrite sapp_nil_r; by apply cut_missing|by apply cut_found]. }
  assert ((ToLower sch =? "")%string = false) as Hl by (apply String.eqb_neq; by destruct sch). rewrite Hl. cbn [negb andb].
  assert (HasPrefix (String "/" (String "/" (auth +:+ p))) "/" = true) as -> by reflexivity. cbn [negb andb orb].
  assert (HasPrefix (String "/" (String "/" (auth +:+ p))) "//" = true) as -> by (by destruct (auth +:+ p)).
  cbn [andb sdrop].
  assert (cut "/" (auth +:+ p) = (auth, match p with String _ r => r | EmptyString => ""%string end, negb (p =? "")%string)) as ->.
  { destruct Hroot as [->|[r ->]]; [rewrite sapp_nil_r; by apply cut_missing|by apply cut_found]. }
  rewrite Hauth. cbn [mbind option_bind]. unfold base_url. by destruct Hroot as [->|[r ->]].
Qed.

Lemma unescape_nil mode s : unescape mode s = Some ""%string -> s = ""%string.
Proof.
  destruct s as [|c r]; [done|]. intros H. exfalso. destruct (ascii_dec c "%") as [->|Hc].
  - destruct r as [|a [|b r]]; [done|done|]. simpl in H. destruct (hex_val a); [|done]. destruct (hex_val b); [|done].
    destruct (match mode with encodeHost => _ | _ => _ end); [done|]. by destruct (unescape mode r).
  - rewrite unescape_cons_other in H by done. destruct (match mode with encodeHost => _ | _ => _ end); [done|].
    by destruct (unescape mode r).
Qed.

(** What follows the path of a URI without query and fragment. *)
Definition empty_tail (t : string) : Prop := t ∈ [""; "?"; "#"; "?#"]%string.

(** A URI with a scheme and a host, and without query and fragment. *)
Lemma Parse_inv raw u : Parse raw = Some u -> Scheme u <> ""%string -> Host u <> ""%string ->
  RawQuery u = ""%string -> Fragment u = ""%string ->
  exists sch auth user p t, raw = uri sch auth p +:+ t /\ begins sch auth user (Host u) /\ rooted p /\ empty_tail t /\
    with_path p (base_url sch user (Host u)) = Some u /\
    without "?" p = true /\ without "#" p = true /\ sall (fun c => negb (is_control c)) p = true.
Proof.
  unfold Parse. intros H Hsch Hhost Hq Hf.
  pose proof (cut_spec "#" raw) as Hc. destruct (cut "#" raw) as [[u0 frag] found]. destruct Hc as (Hraw & Hu0 & Hfrag).
  destruct (parse_url u0) as [url|] eqn:Ep; [|done]. cbn [mbind option_bind] in H.
  assert (frag = ""%string /\ url = u) as [-> ->].
  { destruct (String.eqb_spec frag "") as [->|Hne]; [by injection H|].
    destruct (unescape encodeFragment frag) as [f|] eqn:Ef; [|done]. injection H as <-. cbn in Hf. subst f.
    by apply unescape_nil in Ef. }
  clear H Hfrag. unfold parse_url in Ep. rewrite ContainsFunc_sall in Ep.
  destruct (sall (fun c => negb (is_control c)) u0) eqn:Hctl; [|done]. cbn [negb] in Ep.
  destruct (String.eqb_spec u0 "*"); [by injection Ep as <-|].
  destruct (getScheme u0) as [[sch rest]|] eqn:Eg; [|done]. cbn [mbind option_bind] in Ep.
  pose proof (cut_spec "?" rest) as Hc. destruct (cut "?" rest) as [[rest' query] found2]. destruct Hc as (Hrest & Hnoq & Hquery).
  destruct (negb (HasPrefix rest' "/") && negb (ToLower sch =? "")%string); [by injection Ep as <-|].
  destruct (negb (HasPrefix rest' "/") && _); [done|].
  destruct ((negb (ToLower sch =? "")%string || negb (HasPrefix rest' "///")) && HasPrefix rest' "//") eqn:E2.
  2: { apply with_path_fields in Ep as (_ & Eh & _). cbn in Eh. by rewrite Eh in Hhost. }
  apply andb_true_iff in E2 as [_ E2]. apply prefix_split in E2 as [x ->].
  change (sdrop 2 ("//" +:+ x)) with x in Ep.
  pose proof (cut_spec "/" x) as Hc. destruct (cut "/" x) as [[auth path] found3]. destruct Hc as (Hx & Hnos & Hpath).
  destruct (parseAuthority auth) as [[user host]|] eqn:Ea; [|done]. cbn [mbind option_bind] in Ep.
  set (p := if found3 then String "/" path else ""%string) in *.
  assert (x = auth +:+ p) as -> by done.
  destruct (with_path_fields _ _ _ Ep) as (E3 & E4 & E5 & E6). cbn in E3, E4, E5. rewrite E5 in Hq. subst query.
  assert (sch <> ""%string) as Hne by (intros ->; by rewrite E3 in Hsch).
  destruct (getScheme_go_spec _ _ _ _ _ Eg Hne) as (s1 & Hu0' & Es1 & Hall & Hgo). rewrite sapp_nil in Es1. subst s1.
  assert (without "?" (auth +:+ p) = true) as Hnoq2.
  { revert Hnoq. unfold without. by rewrite !sall_app. }
  assert (u0 = uri sch auth p +:+ (if found2 then "?" else "")) as Hu.
  { rewrite Hu0', Hrest. unfold uri. rewrite !sapp_assoc. by destruct found2. }
  assert (without "#" (uri sch auth p) = true /\ sall (fun c => negb (is_control c)) (uri sch auth p) = true) as [Hh Hcc].
  { split; [revert Hu0|revert Hctl]; rewrite Hu; unfold without; rewrite sall_app; intros Hy; by apply andb_true_iff in Hy as [Hy _]. }
  unfold uri, without in Hh. unfold uri in Hcc. rewrite !sall_app in Hh, Hcc. bool_to_prop.
  unfold without in Hnoq2. rewrite sall_app in Hnoq2. bool_to_prop.
  assert (without "?" sch = true) as Hsq.
  { revert Hall. apply sall_impl. intros c Hc. apply negb_true_iff, Ascii.eqb_neq. by intros ->. }
  exists sch, auth, user, p, ((if found2 then "?" else "") +:+ (if found then "#" else ""))%string.
  split_and!; try done.
  - rewrite Hraw, Hu, sapp_assoc. by destruct found.
  - rewrite E4. split; try done.
    + intros y. apply Hgo.
    + intros c Hc. apply elem_of_cons in Hc as [->|Hc]; [|apply list_elem_of_singleton in Hc as ->];
        unfold without; rewrite sall_app; by apply andb_true_iff.
    + rewrite sall_app. by apply andb_true_iff.
  - unfold p. destruct found3; [right; by exists path|by left].
  - by destruct found2, found; apply (bool_decide_eq_true_1 _); vm_compute.
  - by rewrite E4.
Qed.

Lemma Parse_uri sch auth user host p : begins sch auth user host -> rooted p ->
  without "?" p = true -> without "#" p = true -> sall (fun c => negb (is_control c)) p = true ->
  Parse (uri sch auth p) = with_path p (base_url sch user host).
Proof.
  intros Hb Hroot Hq Hh Hc. unfold Parse.
  assert (cut "#" (uri sch auth p) = (uri sch auth p, ""%string, false)) as ->.
  { apply cut_missing. pose proof (b_plain _ _ _ _ Hb "#"%char ltac:(right; left)) as H. unfold without, uri in *.
    rewrite sall_app in H. apply andb_true_iff in H as [H1 H2]. by rewrite !sall_app, H1, H2, Hh. }
  pose proof (parse_url_uri sch auth user host p "" Hb Hroot Hq ltac:(by rewrite sapp_nil_r) ltac:(by left)) as H.
  rewrite sapp_nil_r in H. rewrite H. by destruct (with_path p _).
Qed.

Lemma begins_authority sch auth user host : begins sch auth user host -> host <> ""%string -> auth <> ""%string.
Proof. intros [_ _ _ _ _ H] Hh ->. by injection H as <- <-. Qed.

(** Trailing slashes of a URI with an authority belong to its path. *)
Lemma TrimRight_uri sch auth user host p : begins sch auth user host -> host <> ""%string -> rooted p ->
  TrimRight (uri sch auth p) "/" = uri sch auth (TrimRight p "/").
Proof.
  intros Hb Hh Hp. pose proof (begins_authority _ _ _ _ Hb Hh) as Hne. pose proof (b_slash _ _ _ _ Hb) as Hs.
  unfold TrimRight, uri.
  assert (trim_right_by (Ascii.eqb "/") auth = auth) as Ha.
  { destruct (trim_right_split (Ascii.eqb "/") auth) as (t & Hat & Ht). destruct t as [|c t]; [by rewrite sapp_nil_r in Hat|].
    exfalso. rewrite Hat in Hs. unfold without in Hs. rewrite sall_app in Hs. rewrite !sall_cons in Hs, Ht.
    apply andb_true_iff in Ht as [Ht _]. apply Ascii.eqb_eq in Ht as <-. rewrite Ascii.eqb_refl, andb_false_r in Hs. discriminate Hs. }
  assert (trim_right_by (Ascii.eqb "/") (auth +:+ p) = auth +:+ trim_right_by (Ascii.eqb "/") p) as Hap.
  { rewrite trim_right_app. destruct (String.eqb_spec (trim_right_by (Ascii.eqb "/") p) "") as [->|]; [|done]. by rewrite sapp_nil_r. }
  rewrite trim_right_app, (trim_right_app _ "://"), Hap.
  destruct (String.eqb_spec (auth +:+ trim_right_by (Ascii.eqb "/") p) "") as [E|]; [by apply sapp_eq_nil in E as [? _]|]. done.
Qed.

Lemma validEncoded_app a b : validEncoded (a +:+ b) = validEncoded a && validEncoded b.
Proof. unfold validEncoded. apply sall_app. Qed.
Lemma validEncoded_without c s : validEncoded s = true ->
  in_set "!$&'()*+,;=:@[]%" c = false -> shouldEscape c encodePath = true -> without c s = true.
Proof.
  intros Hv H1 H2. revert Hv. apply sall_impl. intros d Hd. apply negb_true_iff, Ascii.eqb_neq. intros ->.
  by rewrite H1, H2 in Hd.
Qed.
Lemma plain_validEncoded s : sall plain_char s = true -> validEncoded s = true.
Proof. apply sall_impl. intros c Hc. apply plain_char_spec in Hc as [-> _]. by rewrite orb_true_r. Qed.
Lemma plain_no_control s : sall plain_char s = true -> sall (fun c => negb (is_control c)) s = true.
Proof. apply sall_impl. intros c Hc. apply plain_char_spec in Hc as (_ & _ & _ & _ & _ & ->). done. Qed.
Lemma digits_plain s : sall is_digit s = true -> sall plain_char s = true.
Proof. apply sall_impl. intros c Hc. unfold plain_char. by rewrite Hc. Qed.

Lemma Atoi_digits s z : parse_uint s = Some z -> z <= maxI64 -> Atoi s = Some z.
Proof.
  intros Hp Hz. pose proof (parse_uint_digits s z Hp) as (Hd & Hne & H0). unfold Atoi.
  assert (match s with String "-" r => Z.opp <$> parse_uint r | String "+" r => parse_uint r | _ => parse_uint s end = Some z) as ->.
  { destruct s as [|c s]; [done|]. simpl in Hd. apply andb_true_iff in Hd as [Hd _].
    destruct c as [[] [] [] [] [] [] [] []]; try discriminate Hd; exact Hp. }
  rewrite (proj2 (Z.leb_le z maxI64)) by done. rewrite (proj2 (Z.leb_le minI64 z)) by (unfold minI64; lia). done.
Qed.

Lemma Itoa_digits id : 0 <= id -> sall is_digit (Itoa id) = true /\ Itoa id <> ""%string.
Proof. intros H. pose proof (parse_uint_digits _ _ (parse_uint_Itoa id H)) as (? & ? & ?). done. Qed.

(** The path of a job: what is appended to the trimmed path of the printer. *)
Lemma job_path p base id : is_Some (unescape encodePath p) -> rooted p -> validEncoded p = true -> 0 <= id ->
  let p' := TrimRight p "/" +:+ "/jobs/" +:+ Itoa id in
  rooted p' /\ exists u, with_path p' base = Some u /\ EscapedPath u = p'.
Proof.
  intros [path Hpath] Hroot Hv Hid. cbv zeta. pose proof (Itoa_digits id Hid) as [Hd _]. apply digits_plain in Hd.
  unfold TrimRight. destruct (trim_right_split (Ascii.eqb "/") p) as (t & Hp & Ht).
  set (p1 := trim_right_by (Ascii.eqb "/") p) in *.
  assert (rooted (p1 +:+ "/jobs/" +:+ Itoa id)) as Hroot'.
  { right. destruct p1 as [|c r]; [by eexists|]. destruct Hroot as [->|[r' ->]]; [done|]. injection Hp as <- _. by eexists. }
  split; [done|].
  assert (exists path1, unescape encodePath p1 = Some path1) as [path1 Hpath1].
  { destruct t as [|c t]; [rewrite sapp_nil_r in Hp; rewrite <- Hp; by exists path|].
    rewrite sall_cons in Ht. apply andb_true_iff in Ht as [Hc _]. apply Ascii.eqb_eq in Hc. subst c. rewrite Hp in Hpath.
    apply unescape_before_slash in Hpath as (path1 & ? & ? & _). by exists path1. }
  assert (unescape encodePath (p1 +:+ "/jobs/" +:+ Itoa id) = Some (path1 +:+ "/jobs/" +:+ Itoa id)) as Hu.
  { rewrite (unescape_app _ _ _ Hpath1). rewrite (unescape_app "/jobs/" _ "/jobs/"%string eq_refl).
    by rewrite plain_unescape. }
  assert (exists u, with_path (p1 +:+ "/jobs/" +:+ Itoa id) base = Some u) as [u Hw] by (unfold with_path; rewrite Hu; by eexists).
  exists u. split; [done|]. destruct (EscapedPath_with_path _ _ _ Hw Hroot') as (? & _ & ->).
  assert (validEncoded (p1 +:+ "/jobs/" +:+ Itoa id) = true) as ->; [|done].
  rewrite !validEncoded_app, (plain_validEncoded _ Hd). rewrite Hp, validEncoded_app in Hv. by apply andb_true_iff in Hv as [-> _].
Qed.

Lemma TrimRight_sall q s c : sall q s = true -> sall q (TrimRight s c) = true.
Proof.
  intros H. unfold TrimRight. destruct (trim_right_split (Ascii.eqb c) s) as (t & Hs & _). rewrite Hs, sall_app in H.
  by apply andb_true_iff in H as [H _].
Qed.

(** The job URI of a printer URI: its path is the one of the printer with the
    job behind it. *)
Lemma Parse_job_uri printerURI l id :
  Parse printerURI = Some l -> Scheme l <> ""%string -> Host l <> ""%string -> RawQuery l = ""%string ->
  Fragment l = ""%string -> validEncoded printerURI = true -> 0 <= id ->
  exists u, Parse (proxyJobURI printerURI id) = Some u /\ Scheme u = Scheme l /\ Host u = Host l /\
    RawQuery u = ""%string /\ Fragment u = ""%string /\
    EscapedPath u = TrimRight (EscapedPath l) "/" +:+ "/jobs/" +:+ Itoa id.
Proof.
  intros El Hs Hh Hrq Hfr Hv Hid. pose proof (digits_plain _ (proj1 (Itoa_digits id Hid))) as Hdp.
  destruct (Parse_inv printerURI l El) as (sch & auth & user & p & t & Hraw & Hb & Hroot & Ht & Hw & Hpq & Hph & Hpc); try done.
  assert (t = ""%string) as ->.
  { rewrite Hraw in Hv. rewrite validEncoded_app in Hv. apply andb_true_iff in Hv as [_ Hv].
    repeat (apply elem_of_cons in Ht as [->|Ht]; [first [done|discriminate Hv]|]). by apply not_elem_of_nil in Ht. }
  rewrite sapp_nil_r in Hraw.
  assert (validEncoded p = true) as Hvp.
  { rewrite Hraw in Hv. unfold uri in Hv. rewrite !validEncoded_app in Hv. bool_to_prop. done. }
  destruct (EscapedPath_with_path _ _ _ Hw Hroot) as (path & Hpath & Hesc). rewrite Hvp in Hesc.
  destruct (job_path p (base_url sch user (Host l)) id) as (Hroot' & u' & Hw' & Hesc'); [by exists path|done|done|lia|].
  set (p' := TrimRight p "/" +:+ "/jobs/" +:+ Itoa id) in *.
  assert (proxyJobURI printerURI id = uri sch auth p') as ->.
  { unfold proxyJobURI. rewrite Hraw, (TrimRight_uri _ _ _ _ _ Hb) by done. unfold uri, p'. by rewrite !sapp_assoc. }
  destruct (with_path_fields _ _ _ Hw') as (F1 & F2 & F3 & F4). cbn in F1, F2, F3, F4.
  destruct (with_path_fields _ _ _ Hw) as (F1' & _). cbn in F1'. rewrite <- F1' in F1.
  exists u'. rewrite Hesc, <- Hw'. split; [|rewrite F3, F4, F1, F2; done].
  apply Parse_uri; [done..| | |]; unfold p', without; rewrite !sall_app.
  - rewrite (TrimRight_sall _ _ _ Hpq). exact (plain_without _ "?" eq_refl Hdp).
  - rewrite (TrimRight_sall _ _ _ Hph). exact (plain_without _ "#" eq_refl Hdp).
  - rewrite (TrimRight_sall _ _ _ Hpc). exact (plain_no_control _ Hdp).
Qed.

Lemma sameTargetURI_true left right : sameTargetURI left right = true <->
  exists l r, Parse left = Some l /\ Parse right = Some r /\
    (Scheme l <> "" /\ Host l <> "" /\ Scheme r <> "" /\ Host r <> "" /\ EqualFold (Scheme l) (Scheme r) = true /\
     RawQuery l = "" /\ RawQuery r = "" /\ Fragment l = "" /\ Fragment r = "" /\
     TrimRight (EscapedPath l) "/" = TrimRight (EscapedPath r) "/")%string.
Proof.
  unfold sameTargetURI. destruct (Parse left) as [l|]; [|naive_solver]. destruct (Parse right) as [r|]; [|naive_solver].
  trans ((Scheme l <> "" /\ Host l <> "" /\ Scheme r <> "" /\ Host r <> "" /\ EqualFold (Scheme l) (Scheme r) = true /\
     RawQuery l = "" /\ RawQuery r = "" /\ Fragment l = "" /\ Fragment r = "" /\
     TrimRight (EscapedPath l) "/" = TrimRight (EscapedPath r) "/")%string); [|naive_solver].
  assert (forall a b c : bool, (if a then false else if b then false else c) = true <-> a = false /\ b = false /\ c = true)
    as -> by (intros [] [] []; naive_solver).
  rewrite !orb_false_iff, !negb_false_iff, !String.eqb_neq, !String.eqb_eq. tauto.
Qed.

(** What the handlers read from a job URI of the proxy. *)
Lemma jobIDFromURI_proxy printerURI id : 1 <= id <= maxI64 -> jobIDFromURI (proxyJobURI printerURI id) = id.
Proof.
  intros Hid. pose proof (Itoa_digits id ltac:(lia)) as [Hd Hdne].
  pose proof (Atoi_digits (Itoa id) id (parse_uint_Itoa id ltac:(lia)) ltac:(lia)) as Hatoi.
  pose proof (plain_without _ "/" eq_refl (digits_plain _ Hd)) as Hnos. unfold jobIDFromURI, proxyJobURI.
  assert (TrimRight printerURI "/" +:+ "/jobs/" +:+ Itoa id =
    (TrimRight printerURI "/" +:+ "/jobs") +:+ String "/" (Itoa id)) as -> by (by rewrite sapp_assoc).
  rewrite cut_last_found by done. rewrite (proj2 (String.eqb_neq (Itoa id) "")) by done. unfold Atoi_value. by rewrite Hatoi.
Qed.

Lemma job_uri_accepted printerURI alias id :
  validEncoded printerURI = true -> sameTargetURI printerURI alias = true -> 1 <= id <= maxI64 ->
  jobIDForPrinterURI (proxyJobURI printerURI id) alias = Some id.
Proof.
  intros Hv (l & r & El & Er & Hs & Hh & Hs' & Hh' & Hfold & Hq & Hq' & Hf & Hf' & Hpath)%sameTargetURI_true Hid.
  pose proof (Itoa_digits id ltac:(lia)) as [Hd Hdne].
  pose proof (Atoi_digits (Itoa id) id (parse_uint_Itoa id ltac:(lia)) ltac:(lia)) as Hatoi.
  pose proof (plain_without _ "/" eq_refl (digits_plain _ Hd)) as Hnos.
  destruct (Parse_job_uri printerURI l id) as (u & Eu & F1 & F2 & F3 & F4 & F5); [done..|lia|].
  unfold jobIDForPrinterURI. rewrite Eu, Er, F1, F2, F3, F4, F5, Hfold. cbn [String.eqb negb orb].
  rewrite (proj2 (String.eqb_neq (Scheme l) "")), (proj2 (String.eqb_neq (Scheme r) "")),
    (proj2 (String.eqb_neq (Host l) "")), (proj2 (String.eqb_neq (Host r) "")) by done. cbn [orb negb].
  rewrite Hpath, <- sapp_assoc, prefix_app, TrimPrefix_app. cbn [negb].
  rewrite (proj2 (String.eqb_neq (Itoa id) "")) by done.
  assert (ContainsChar (Itoa id) "/" = false) as ->.
  { unfold ContainsChar. rewrite ContainsFunc_sall. apply negb_false_iff. revert Hnos. apply sall_impl.
    intros c. by rewrite Ascii.eqb_sym. }
  rewrite Hatoi. cbn [orb]. by rewrite (proj2 (Z.ltb_lt 0 id)) by lia.
Qed.

(** C40: The job URI the proxy hands out for a queue names that job under every
    name of the queue: whatever authority a client used to reach it, the job
    URI is accepted with the id it was made from, and the handlers read the
    same id from it. *)
Theorem job_uri_roundtrip printerURI alias id :
  validEncoded printerURI = true -> sameTargetURI printerURI alias = true -> 1 <= id <= maxI64 ->
  jobIDForPrinterURI (proxyJobURI printerURI id) alias = Some id /\ jobIDFromURI (proxyJobURI printerURI id) = id.
Proof. intros Hv Hsame Hid. split; [by apply job_uri_accepted|by apply jobIDFromURI_proxy]. Qed.

(** What the handlers read from a text that is no number. *)
Lemma Atoi_value_plain s : Atoi_value s <> 0 -> sall plain_char s = true.
Proof.
  intros H. destruct (sall plain_char s) eqn:E; [done|]. exfalso. apply H. clear H.
  assert (parse_uint s = None) as Hp.
  { destruct (parse_uint s) eqn:Ep; [|done]. apply parse_uint_digits in Ep as (Ep & _). apply digits_plain in Ep. congruence. }
  assert (forall c r, s = String c r -> plain_char c = true -> parse_uint r = None) as Hr.
  { intros c r -> Hc. rewrite sall_cons, Hc in E. destruct (parse_uint r) eqn:Ep; [|done].
    apply parse_uint_digits in Ep as (Ep & _). apply digits_plain in Ep. cbn [andb] in E. congruence. }
  unfold Atoi_value, Atoi. destruct s as [|c r]; [by rewrite Hp|]. specialize (Hr c r eq_refl).
  destruct c as [[] [] [] [] [] [] [] []]; rewrite ?Hp; try reflexivity; by rewrite Hr.
Qed.

(** The two readings of a job-uri agree: when the check of the target
    accepts a URI for a job of the queue, the handlers read the id of that
    very job from it, or no id at all (which finds no job), never another. *)
Theorem job_target_agrees jobURI printerURI id : jobIDForPrinterURI jobURI printerURI = Some id ->
  1 <= id /\ (jobIDFromURI jobURI = id \/ jobIDFromURI jobURI = 0).
Proof.
  unfold jobIDForPrinterURI. destruct (Parse jobURI) as [u|] eqn:Eu; [|done].
  destruct (Parse printerURI) as [printer|] eqn:Ep; [|done].
  destruct (negb (RawQuery u =? "")%string || _) eqn:E1; [done|].
  destruct ((Scheme u =? "")%string || _ || _ || _ || _) eqn:E2; [done|]. bool_to_prop.
  set (prefix := TrimRight (EscapedPath printer) "/" +:+ "/jobs/").
  destruct (HasPrefix (EscapedPath u) prefix) eqn:Ehp; [|done]. cbn [negb].
  apply prefix_split in Ehp as [tail Htail]. rewrite Htail, TrimPrefix_app.
  destruct ((tail =? "")%string || ContainsChar tail "/") eqn:Et; [done|]. bool_to_prop.
  destruct (Atoi tail) as [z|] eqn:Ez; [|done]. destruct (0 <? z) eqn:Ez0; [|done]. intros [= ->]. bool_to_prop.
  split; [lia|].
  destruct (Z.eq_dec (jobIDFromURI jobURI) 0) as [|Hne]; [by right|]. left. revert Hne.
  destruct (Parse_inv jobURI u Eu) as (sch & auth & user & p & t & Hraw & Hb & Hroot & Ht & Hw & Hpq & Hph & Hpc); try done.
  unfold jobIDFromURI. destruct (cut_last "/" jobURI) as [[a last]|] eqn:Ecut; [|done]. destruct (String.eqb_spec last "") as [|Hlne]; [done|].
  intros Hnz. pose proof (Atoi_value_plain _ Hnz) as Hplain.
  enough (tail = last) as -> by (unfold Atoi_value; by rewrite Ez).
  destruct (EscapedPath_with_path _ _ _ Hw Hroot) as (path & Hpath & Hesc). rewrite Htail in Hesc.
  assert (cut_last "/" (EscapedPath u) = Some (TrimRight (EscapedPath printer) "/" +:+ "/jobs", tail)) as Hcut.
  { rewrite Htail. unfold prefix. rewrite <- (cut_last_found "/" _ tail); [by rewrite !sapp_assoc|].
    match goal with H : ContainsChar tail "/" = false |- _ => revert H end. unfold ContainsChar. rewrite ContainsFunc_sall.
    intros Hc. apply negb_false_iff in Hc. revert Hc. apply sall_impl. intros c. by rewrite Ascii.eqb_sym. }
  rewrite Htail, Hesc in Hcut.
  destruct Hroot as [->|[r Hr]]; [injection Hpath as <-; discriminate Hcut|].
  destruct (cut_last "/" p) as [[q last']|] eqn:Eq.
  2: { apply cut_last_None in Eq. by rewrite Hr in Eq. }
  apply cut_last_Some in Eq as [Hp Hns].
  assert (last = last' +:+ t) as Hl.
  { rewrite Hraw, Hp in Ecut. unfold uri in Ecut.
    rewrite <- !sapp_assoc in Ecut. rewrite (sapp_assoc _ _ t) in Ecut. rewrite sapp_cons in Ecut.
    rewrite cut_last_found in Ecut; [by injection Ecut as _ <-|]. unfold without. rewrite sall_app.
    apply andb_true_iff. split; [done|]. by repeat (apply elem_of_cons in Ht as [->|Ht]; [reflexivity|]); apply not_elem_of_nil in Ht. }
  rewrite Hl, sall_app in Hplain. apply andb_true_iff in Hplain as [Hpl Hpt].
  assert (t = ""%string) as ->.
  { repeat (apply elem_of_cons in Ht as [->|Ht]; [first [reflexivity|discriminate Hpt]|]). by apply not_elem_of_nil in Ht. }
  rewrite sapp_nil_r in Hl. subst last'.
  destruct (validEncoded p).
  - rewrite Hp, cut_last_found in Hcut by done. by injection Hcut as _ <-.
  - rewrite Hp in Hpath. apply unescape_before_slash in Hpath as (path1 & rest & _ & Hrest & ->).
    rewrite (plain_unescape _ Hpl) in Hrest. injection Hrest as <-.
    rewrite escape_app in Hcut. change (escape encodePath (String "/" last)) with (String "/" (escape encodePath last)) in Hcut.
    rewrite (plain_escape _ Hpl), cut_last_found in Hcut by done. by injection Hcut as _ <-.
Qed.
End uris.

(** ** Witnesses *)

Lemma job_uri_roundtrip_witness :
  @proxyJobURI "ipp://192.0.2.7:8631/printers/office/" 42 = "ipp://192.0.2.7:8631/printers/office/jobs/42"%string /\
  @jobIDForPrinterURI no_ip6 (proxyJobURI "ipp://192.0.2.7:8631/printers/office/" 42) "IPP://proxy.local/printers/office" = Some 42.
Proof.
  split; [reflexivity|].
  refine (proj1 (@job_uri_roundtrip no_ip6 "ipp://192.0.2.7:8631/printers/office/" "IPP://proxy.local/printers/office" 42 _ _ _));
    [vm_compute; reflexivity|vm_compute; reflexivity|split; intros H; discriminate H].
Defined.

(** A trailing number sign passes the check and names no job. *)
Lemma job_target_agrees_witness :
  (1 <= 7 /\ (jobIDFromURI "ipp://h/printers/office/jobs/7" = 7 \/ jobIDFromURI "ipp://h/printers/office/jobs/7" = 0)) /\
  (@jobIDForPrinterURI no_ip6 "ipp://h/printers/office/jobs/7#" "ipp://h/printers/office" = Some 7 /\
   jobIDFromURI "ipp://h/printers/office/jobs/7#" = 0).
Proof.
  split; [apply (@job_target_agrees no_ip6 _ "ipp://h/printers/office"); vm_compute; reflexivity|].
  split; vm_compute; reflexivity.
Defined.
