(* ===== verification/GoTime.v ===== *)
(** * Go times

    A [time.Time] is the number of nanoseconds since the zero time, 1 January
    of the year 1, UTC; the program formats and parses times in UTC only, in
    the layouts [RFC3339Nano] and [RFC3339]. A [time.Duration] is an [int64]
    number of nanoseconds. The functions below are those of the package
    [time] for the years 1 to 9999. *)

From Stdlib Require Import ZArith Lia Ascii String.
From stdpp Require Import base tactics list strings.
From S2P Require Import Prelude GoString.

Abbreviation time := Z.
Definition IsZero (t : time) : bool := t =? 0.

Definition Nanosecond : Z := 1.
Definition Second : Z := 1000000000.
Definition Minute : Z := 60 * Second.
Definition Hour : Z := 60 * Minute.

(** [t.Sub(u)] saturates at the range of a duration. *)
Definition Sub (t u : time) : Z := Z.max minI64 (Z.min maxI64 (t - u)).
Definition After (t u : time) : bool := u <? t.
Definition Add (t : time) (d : Z) : time := t + d.

(** ** The Gregorian calendar *)

(** The days before 1 January of the year [y], counted from the year 1. *)
Definition days_before (y : Z) : Z := let p := y - 1 in 365 * p + p / 4 - p / 100 + p / 400.
Definition is_leap (y : Z) : bool := (y mod 4 =? 0) && (negb (y mod 100 =? 0) || (y mod 400 =? 0)).

(** The year of a day number and the day of the year, from 0. *)
Definition year_of (d : Z) : Z * Z :=
  let n400 := d / 146097 in
  let r := d mod 146097 in
  let n100 := Z.min (r / 36524) 3 in
  let r := r - 36524 * n100 in
  let n4 := r / 1461 in
  let r := r mod 1461 in
  let n1 := Z.min (r / 365) 3 in
  (400 * n400 + 100 * n100 + 4 * n4 + n1 + 1, r - 365 * n1).

(** The days of the year before each month, in a common year. *)
Definition month_start (leap : bool) (m : Z) : Z :=
  let l := if leap then 1 else 0 in
  match m with
  | 1 => 0 | 2 => 31 | 3 => 59 + l | 4 => 90 + l | 5 => 120 + l | 6 => 151 + l | 7 => 181 + l
  | 8 => 212 + l | 9 => 243 + l | 10 => 273 + l | 11 => 304 + l | 12 => 334 + l | _ => 365 + l
  end.

Definition month_of (leap : bool) (doy : Z) : Z :=
  match List.find (fun m => doy <? month_start leap (m + 1)) [1; 2; 3; 4; 5; 6; 7; 8; 9; 10; 11; 12] with
  | Some m => m
  | None => 12
  end.

Definition day_number (y m d : Z) : Z := days_before y + month_start (is_leap y) m + d - 1.
Definition month_length (y m : Z) : Z := month_start (is_leap y) (m + 1) - month_start (is_leap y) m.

(** ** Formatting *)

Definition digit (n : Z) : ascii := chr (48 + n mod 10).
Definition pad2 (n : Z) : string := String (digit (n / 10)) (String (digit n) "").
Definition pad4 (n : Z) : string :=
  String (digit (n / 1000)) (String (digit (n / 100)) (pad2 n)).
(** The nine digits of a fraction of a second. *)
Fixpoint padn (k : nat) (n : Z) : string :=
  match k with O => "" | Datatypes.S k => String (digit (n / 10 ^ Z.of_nat k)) (padn k n) end.

(** The fraction of [RFC3339Nano]: trailing zeros removed, nothing when zero. *)
Definition fraction (ns : Z) : string :=
  if ns =? 0 then "" else String "." (TrimRight (padn 9 ns) "0").

(** [t.UTC().Format(time.RFC3339Nano)] *)
Definition FormatRFC3339Nano (t : time) : string :=
  let day := t / (86400 * Second) in
  let ns := t mod (86400 * Second) in
  let sec := ns / Second in
  let '(y, doy) := year_of day in
  let m := month_of (is_leap y) doy in
  let d := doy - month_start (is_leap y) m + 1 in
  pad4 y +:+ "-" +:+ pad2 m +:+ "-" +:+ pad2 d +:+ "T" +:+
  pad2 (sec / 3600) +:+ ":" +:+ pad2 (sec / 60 mod 60) +:+ ":" +:+ pad2 (sec mod 60) +:+
  fraction (ns mod Second) +:+ "Z".

(** ** Parsing *)

Definition digit_val (c : ascii) : option Z := if is_digit c then Some (code c - 48) else None.

(** Exactly [k] digits, and the rest of the text. *)
Fixpoint digits (k : nat) (acc : Z) (s : string) : option (Z * string) :=
  match k with
  | O => Some (acc, s)
  | Datatypes.S k =>
      match s with
      | String c r => match digit_val c with Some v => digits k (10 * acc + v) r | None => None end
      | EmptyString => None
      end
  end.

Definition expect (c : ascii) (s : string) : option string :=
  match s with String c' r => if Ascii.eqb c c' then Some r else None | EmptyString => None end.

(** A fraction of a second: any number of digits, of which nine count. *)
Fixpoint fraction_digits (k : nat) (acc : Z) (s : string) : Z * string :=
  match s with
  | String c r =>
      match digit_val c with
      | Some v => match k with
                  | O => fraction_digits O acc r
                  | Datatypes.S k => fraction_digits k (acc + v * 10 ^ Z.of_nat k) r
                  end
      | None => (acc, s)
      end
  | EmptyString => (acc, s)
  end.

Definition parse_fraction (s : string) : option (Z * string) :=
  match s with
  | String "." (String c r) =>
      if is_digit c then Some (fraction_digits 9 0 (String c r)) else None
  | String "." EmptyString => None
  | _ => Some (0, s)
  end.

(** [Z] or a numeric offset, in seconds. *)
Definition parse_zone (s : string) : option Z :=
  match s with
  | String "Z" EmptyString => Some 0
  | String sign r =>
      if Ascii.eqb sign "+" || Ascii.eqb sign "-" then
        '(h, r) ← digits 2 0 r; r ← expect ":" r; '(m, r) ← digits 2 0 r;
        if (h <=? 24) && (m <=? 60) && (r =? "")%string
        then Some (if Ascii.eqb sign "+" then h * 3600 + m * 60 else - (h * 3600 + m * 60)) else None
      else None
  | EmptyString => None
  end.

(** [time.Parse(time.RFC3339Nano, s)]; the layout [RFC3339] accepts the same
    texts, a fraction included. The other texts Go's parser tolerates (an
    hour of one digit, a comma before the fraction) are refused here: neither
    the program nor SQLite writes them. *)
Definition ParseRFC3339 (s : string) : option time :=
  '(y, s) ← digits 4 0 s; s ← expect "-" s;
  '(m, s) ← digits 2 0 s; s ← expect "-" s;
  '(d, s) ← digits 2 0 s; s ← expect "T" s;
  '(hh, s) ← digits 2 0 s; s ← expect ":" s;
  '(mi, s) ← digits 2 0 s; s ← expect ":" s;
  '(ss, s) ← digits 2 0 s;
  '(ns, s) ← parse_fraction s;
  zone ← parse_zone s;
  if (1 <=? m) && (m <=? 12) && (1 <=? d) && (d <=? month_length y m) &&
     (hh <? 24) && (mi <? 60) && (ss <? 60)
  then Some ((day_number y m d * 86400 + hh * 3600 + mi * 60 + ss - zone) * Second + ns)
  else None.

(** ** Round trip *)

Lemma year_of_spec d : 0 <= d ->
  let '(y, doy) := year_of d in
  1 <= y /\ days_before y + doy = d /\ 0 <= doy < 365 + (if is_leap y then 1 else 0).
Proof.
  intros Hd. unfold year_of.
  set (a := d / 146097). set (r := d mod 146097).
  assert (d = 146097 * a + r /\ 0 <= r < 146097 /\ 0 <= a) as (Ed & Hr & Ha)
    by (unfold a, r; Z.to_euclidean_division_equations; lia).
  set (b := Z.min (r / 36524) 3). set (r1 := r - 36524 * b).
  assert (0 <= b <= 3 /\ 0 <= r1 <= 36524 /\ (b < 3 -> r1 < 36524)) as (Hb & Hr1 & Hb3)
    by (unfold r1, b; Z.to_euclidean_division_equations; lia).
  set (c := r1 / 1461). set (r2 := r1 mod 1461).
  assert (r1 = 1461 * c + r2 /\ 0 <= r2 < 1461 /\ 0 <= c <= 24) as (Er1 & Hr2 & Hc)
    by (unfold c, r2; Z.to_euclidean_division_equations; lia).
  set (e := Z.min (r2 / 365) 3).
  assert (0 <= e <= 3 /\ 0 <= r2 - 365 * e <= 365 /\ (e < 3 -> r2 - 365 * e < 365)) as (He & Hdoy & He3)
    by (unfold e; Z.to_euclidean_division_equations; lia).
  set (p := 400 * a + 100 * b + 4 * c + e).
  assert (p / 4 = 100 * a + 25 * b + c) as E4 by (unfold p; Z.to_euclidean_division_equations; lia).
  assert (p / 100 = 4 * a + b) as E100 by (unfold p; Z.to_euclidean_division_equations; lia).
  assert (p / 400 = a) as E400 by (unfold p; Z.to_euclidean_division_equations; lia).
  split; [unfold p; lia|]. unfold days_before. replace (p + 1 - 1) with p by lia.
  rewrite E4, E100, E400. split; [unfold p; lia|]. split; [lia|].
  destruct (Z.eq_dec (r2 - 365 * e) 365) as [Hfull|]; [|destruct (is_leap _); lia].
  assert (e = 3) by lia. assert ((p + 1) mod 4 = 0) as L4 by (unfold p; Z.to_euclidean_division_equations; lia).
  assert (is_leap (p + 1) = true) as ->; [|lia].
  unfold is_leap. rewrite L4. simpl. destruct (Z.eqb_spec ((p + 1) mod 100) 0) as [L100|]; [|done]. simpl.
  apply Z.eqb_eq. assert (c = 24) by (unfold p in L100; Z.to_euclidean_division_equations; lia).
  assert (b = 3) by lia. unfold p. Z.to_euclidean_division_equations; lia.
Qed.

Lemma month_of_spec l doy : 0 <= doy < 365 + (if l : bool then 1 else 0) ->
  let m := month_of l doy in
  1 <= m <= 12 /\ month_start l m <= doy < month_start l (m + 1).
Proof.
  intros Hd. unfold month_of. destruct (List.find _ _) as [m|] eqn:E.
  - cbv [List.find] in E.
    repeat match type of E with (if ?b then _ else _) = _ => destruct b eqn:? end; simplify_eq; bool_to_prop;
      simpl in *; destruct l; lia.
  - exfalso. cbv [List.find] in E.
    repeat match type of E with (if ?b then _ else _) = _ => destruct b eqn:?; [done|] end.
    bool_to_prop. simpl in *. destruct l; lia.
Qed.

Lemma digit_val_digit n : digit_val (digit n) = Some (n mod 10).
Proof.
  unfold digit_val, digit, is_digit. pose proof (Z.mod_pos_bound n 10 ltac:(lia)).
  rewrite code_chr by lia. destruct (Z.leb_spec 48 (48 + n mod 10)), (Z.leb_spec (48 + n mod 10) 57); try lia.
  simpl. f_equal. lia.
Qed.

Lemma digits_pad2 n s : 0 <= n < 100 -> digits 2 0 (pad2 n +:+ s) = Some (n, s).
Proof.
  intros. simpl. rewrite !digit_val_digit. simpl. do 2 f_equal.
  Z.to_euclidean_division_equations; lia.
Qed.

Lemma digits_pad4 n s : 0 <= n < 10000 -> digits 4 0 (pad4 n +:+ s) = Some (n, s).
Proof.
  intros. unfold pad4, pad2. simpl. rewrite !digit_val_digit. do 2 f_equal.
  Z.to_euclidean_division_equations; lia.
Qed.

Lemma str_app_cons c r s : String c r +:+ s = String c (r +:+ s).
Proof. done. Qed.

(** Removing trailing zeros does not change the value of a fraction. *)
Lemma padn_mod k n : padn k (n mod 10 ^ Z.of_nat k) = padn k n.
Proof.
  enough (forall j, (j <= k)%nat -> padn j (n mod 10 ^ Z.of_nat k) = padn j n) as H by (by apply H).
  induction j as [|j IH]; intros Hj; [done|]. cbn [padn]. rewrite IH by lia.
  enough (n mod 10 ^ Z.of_nat k / 10 ^ Z.of_nat j mod 10 = n / 10 ^ Z.of_nat j mod 10) as Hd
    by (unfold digit; by rewrite Hd).
  replace (Z.of_nat k) with (Z.of_nat j + (Z.of_nat k - Z.of_nat j)) by lia.
  rewrite Z.pow_add_r by lia. set (a := 10 ^ Z.of_nat j). set (b := 10 ^ (Z.of_nat k - Z.of_nat j)).
  assert (0 < a) by (apply Z.pow_pos_nonneg; lia).
  assert (exists c, b = 10 * c /\ 0 < c) as (c & Hb & Hc).
  { exists (10 ^ (Z.of_nat k - Z.of_nat j - 1)). split; [|apply Z.pow_pos_nonneg; lia].
    unfold b. rewrite <- Z.pow_succ_r by lia. f_equal. lia. }
  rewrite Z.rem_mul_r, (Z.mul_comm a), Z.div_add by lia.
  rewrite (Z.div_small (n mod a)), Z.add_0_l by (apply Z.mod_pos_bound; lia).
  rewrite Hb, Z.rem_mul_r, (Z.mul_comm 10), Z.mod_add by lia. by rewrite Z.mod_mod.
Qed.

Lemma fraction_digits_pad k : forall acc n, 0 <= n < 10 ^ Z.of_nat k ->
  fraction_digits k acc (TrimRight (padn k n) "0" +:+ "Z") = (acc + n, "Z").
Proof.
  induction k as [|k IH]; intros acc n Hn.
  { change (10 ^ Z.of_nat 0) with 1 in Hn. simpl. f_equal. lia. }
  rewrite Nat2Z.inj_succ, Z.pow_succ_r in Hn by lia. set (q := 10 ^ Z.of_nat k) in *.
  assert (0 < q) by (apply Z.pow_pos_nonneg; lia).
  pose proof (Z.mod_pos_bound n q ltac:(lia)) as Hm. pose proof (Z.div_mod n q ltac:(lia)) as Hdm.
  assert (0 <= n / q < 10) as Hq by (split; [apply Z.div_pos; lia|apply Z.div_lt_upper_bound; lia]).
  specialize (fun a => IH a (n mod q) Hm). pose proof (padn_mod k n) as Hpm.
  fold q in Hpm. rewrite Hpm in IH.
  cbn [padn]. unfold TrimRight in *. cbn [trim_right_by]. fold q.
  destruct (trim_right_by (Ascii.eqb "0") (padn k n)) as [|c r] eqn:E.
  - assert (n mod q = 0) as Hz by (specialize (IH 0); simpl in IH; change (digit_val "Z") with (@None Z) in IH; destruct k; simplify_eq/=; lia).
    destruct (Ascii.eqb_spec "0" (digit (n / q))) as [He|He].
    + assert (n / q = 0) as Hq0.
      { pose proof (digit_val_digit (n / q)) as Hd. rewrite <- He in Hd. change (digit_val "0") with (Some 0) in Hd.
        rewrite Z.mod_small in Hd by lia. congruence. }
      rewrite Hq0, Z.mul_0_r in Hdm. simpl. f_equal. lia.
    + rewrite str_app_cons. cbn [fraction_digits]. rewrite digit_val_digit, Z.mod_small by lia. fold q.
      destruct k; simpl; f_equal; lia.
  - rewrite str_app_cons. cbn [fraction_digits]. rewrite digit_val_digit, (Z.mod_small (n / q)) by lia.
    fold q. rewrite (IH (acc + n / q * q)). f_equal. lia.
Qed.

Lemma str_app_nil s : "" +:+ s = s.
Proof. done. Qed.
Lemma expect_same c s : expect c (String c s) = Some s.
Proof. unfold expect. by rewrite Ascii.eqb_refl. Qed.

Lemma trim_head p c r :
  trim_right_by p (String c r) = "" \/ exists r', trim_right_by p (String c r) = String c r'.
Proof. simpl. destruct (trim_right_by p r); [destruct (p c)|]; eauto. Qed.

Lemma parse_fraction_fraction ns : 0 <= ns < Second ->
  parse_fraction (fraction ns +:+ "Z") = Some (ns, "Z").
Proof.
  intros Hns. unfold fraction. destruct (Z.eqb_spec ns 0) as [-> |Hz]; [done|].
  pose proof (fraction_digits_pad 9 0 ns Hns) as H.
  destruct (TrimRight (padn 9 ns) "0") as [|c r] eqn:E.
  { simpl in H. change (digit_val "Z") with (@None Z) in H. simplify_eq. }
  assert (c = digit (ns / 10 ^ 8)) as ->.
  { change (padn 9 ns) with (String (digit (ns / 10 ^ 8)) (padn 8 ns)) in E. unfold TrimRight in E.
    destruct (trim_head (Ascii.eqb "0") (digit (ns / 10 ^ 8)) (padn 8 ns)) as [H0|[r' H0]]; rewrite H0 in E;
      by simplify_eq. }
  rewrite !str_app_cons in *. unfold parse_fraction.
  assert (is_digit (digit (ns / 10 ^ 8)) = true) as ->.
  { pose proof (digit_val_digit (ns / 10 ^ 8)) as Hd. unfold digit_val in Hd. by destruct (is_digit _). }
  by rewrite H.
Qed.

Definition max_time : time := 3652059 * 86400 * Second.

Lemma days_before_mono y y' : y <= y' -> days_before y <= days_before y'.
Proof. intros. unfold days_before. Z.to_euclidean_division_equations; lia. Qed.

(** ** The fields of a text *)

Record fields := { fy : Z; fm : Z; fd : Z; fh : Z; fmi : Z; fs : Z; fns : Z }.

Definition fields_ok (f : fields) : Prop :=
  1 <= fy f < 10000 /\ 1 <= fm f <= 12 /\ 1 <= fd f <= month_length (fy f) (fm f) /\ fd f < 100 /\
  0 <= fh f < 24 /\ 0 <= fmi f < 60 /\ 0 <= fs f < 60 /\ 0 <= fns f < Second.

Definition print_fields (f : fields) : string :=
  pad4 (fy f) +:+ "-" +:+ pad2 (fm f) +:+ "-" +:+ pad2 (fd f) +:+ "T" +:+
  pad2 (fh f) +:+ ":" +:+ pad2 (fmi f) +:+ ":" +:+ pad2 (fs f) +:+ fraction (fns f) +:+ "Z".

Definition seconds_of (f : fields) : Z :=
  day_number (fy f) (fm f) (fd f) * 86400 + fh f * 3600 + fmi f * 60 + fs f.

Lemma Format_fields t : 0 <= t < max_time ->
  exists f, fields_ok f /\ FormatRFC3339Nano t = print_fields f /\ t = seconds_of f * Second + fns f.
Proof.
  unfold max_time. intros Ht. unfold FormatRFC3339Nano.
  set (day := t / (86400 * Second)). set (ns := t mod (86400 * Second)). set (sec := ns / Second).
  assert (0 <= day < 3652059 /\ 0 <= ns < 86400 * Second /\ t = day * (86400 * Second) + ns) as (Hday & Hns & Et).
  { unfold day, ns, Second in *. Z.to_euclidean_division_equations; lia. }
  assert (0 <= sec < 86400 /\ ns = sec * Second + ns mod Second /\ 0 <= ns mod Second < Second) as (Hsec & Ens & Hfr).
  { unfold sec, Second in *. Z.to_euclidean_division_equations; lia. }
  pose proof (year_of_spec day ltac:(lia)) as Hy. destruct (year_of day) as [y doy].
  destruct Hy as (Hy1 & Hyd & Hdoy). pose proof (month_of_spec (is_leap y) doy Hdoy) as [Hm Hmd].
  set (m := month_of (is_leap y) doy) in *. set (d := doy - month_start (is_leap y) m + 1).
  assert (y < 10000) as Hy2.
  { destruct (Z_lt_le_dec y 10000); [done|]. pose proof (days_before_mono 10000 y ltac:(lia)) as Hmono.
    change (days_before 10000) with 3652059 in Hmono. lia. }
  assert (1 <= d <= month_length y m /\ d < 100) as (Hd1 & Hd2).
  { unfold d, month_length. split; [lia|].
    assert (month_start (is_leap y) (m + 1) - month_start (is_leap y) m <= 31); [|lia].
    assert (m = 1 \/ m = 2 \/ m = 3 \/ m = 4 \/ m = 5 \/ m = 6 \/ m = 7 \/ m = 8 \/ m = 9 \/ m = 10 \/ m = 11 \/ m = 12) as Hcase by lia.
    repeat destruct Hcase as [-> |Hcase]; [..|rewrite Hcase]; destruct (is_leap y); simpl; lia. }
  assert (0 <= sec / 3600 < 24 /\ 0 <= sec / 60 mod 60 < 60 /\ 0 <= sec mod 60 < 60 /\
          sec / 3600 * 3600 + sec / 60 mod 60 * 60 + sec mod 60 = sec) as (Hh & Hmi & Hss & Esec)
    by (Z.to_euclidean_division_equations; lia).
  exists {| fy := y; fm := m; fd := d; fh := sec / 3600; fmi := sec / 60 mod 60; fs := sec mod 60; fns := ns mod Second |}.
  split; [unfold fields_ok; cbn; lia|]. split; [done|].
  unfold seconds_of, day_number. cbn. unfold d, Second in *. lia.
Qed.

Lemma Parse_Format t : 0 <= t < max_time -> ParseRFC3339 (FormatRFC3339Nano t) = Some t.
Proof.
  intros Ht. destruct (Format_fields t Ht) as (f & Hf & -> & Et). unfold fields_ok in Hf.
  unfold print_fields, ParseRFC3339. rewrite !str_app_cons, !str_app_nil. rewrite digits_pad4 by lia. cbn [mbind option_bind]. rewrite expect_same. cbn [mbind option_bind].
  do 4 (rewrite digits_pad2 by lia; cbn [mbind option_bind]; rewrite expect_same; cbn [mbind option_bind]).
  rewrite digits_pad2 by lia. cbn [mbind option_bind].
  rewrite parse_fraction_fraction by lia. cbn [mbind option_bind parse_zone].
  match goal with |- (if ?b then _ else _) = _ => assert (b = true) as -> by lia end.
  f_equal. rewrite Et. unfold seconds_of. lia.
Qed.
