(* ===== verification/GoTimeOrder.v ===== *)
(** * Timestamps in the order of their texts

    The registry compares timestamps as texts. Two times of different seconds
    compare as their RFC 3339 texts do; inside one second they need not,
    because the fraction loses its trailing zeros. *)

From Stdlib Require Import ZArith Lia Ascii String.
From stdpp Require Import base tactics list strings.
From S2P Require Import Prelude GoString GoTime.

(** Lexicographic composition of comparisons. *)
Definition lex (c d : comparison) : comparison := match c with Eq => d | _ => c end.

Lemma string_compare_cons c d s t :
  String.compare (String c s) (String d t) = lex (Ascii.compare c d) (String.compare s t).
Proof. cbn. by destruct (Ascii.compare c d). Qed.

Lemma ascii_compare_same c : Ascii.compare c c = Eq.
Proof. unfold Ascii.compare. apply N.compare_refl. Qed.

Lemma string_compare_same c s t : String.compare (String c s) (String c t) = String.compare s t.
Proof. by rewrite string_compare_cons, ascii_compare_same. Qed.

Lemma compare_digit a b : Ascii.compare (digit a) (digit b) = (a mod 10 ?= b mod 10).
Proof.
  unfold Ascii.compare, digit, chr.
  pose proof (Z.mod_pos_bound a 10 ltac:(lia)). pose proof (Z.mod_pos_bound b 10 ltac:(lia)).
  rewrite !N_ascii_embedding by lia. rewrite <- N2Z.inj_compare, !Z2N.id by lia.
  destruct (Z.compare_spec (a mod 10) (b mod 10)), (Z.compare_spec (48 + a mod 10) (48 + b mod 10)); try done; lia.
Qed.

(** Two digits of a positional number. *)
Lemma lex_radix r a b c d : 0 < r -> 0 <= b < r -> 0 <= d < r ->
  lex (a ?= c) (b ?= d) = (r * a + b ?= r * c + d).
Proof.
  intros Hr Hb Hd. destruct (Z.compare_spec a c) as [->|Hac|Hac]; cbn [lex].
  - destruct (Z.compare_spec b d), (Z.compare_spec (r * c + b) (r * c + d)); try done; lia.
  - symmetry. apply Z.compare_lt_iff. nia.
  - symmetry. apply Z.compare_gt_iff. nia.
Qed.

Lemma lex_assoc a b c : lex (lex a b) c = lex a (lex b c).
Proof. by destruct a. Qed.

Lemma compare_pad2 n m s t : 0 <= n < 100 -> 0 <= m < 100 ->
  String.compare (pad2 n +:+ s) (pad2 m +:+ t) = lex (n ?= m) (String.compare s t).
Proof.
  intros Hn Hm. unfold pad2. rewrite !str_app_cons, !str_app_nil, !string_compare_cons, !compare_digit, <- lex_assoc.
  rewrite (lex_radix 10) by (try apply Z.mod_pos_bound; lia).
  replace (10 * (n / 10 mod 10) + n mod 10) with n by (Z.to_euclidean_division_equations; lia).
  by replace (10 * (m / 10 mod 10) + m mod 10) with m by (Z.to_euclidean_division_equations; lia).
Qed.

Lemma compare_pad4 n m s t : 0 <= n < 10000 -> 0 <= m < 10000 ->
  String.compare (pad4 n +:+ s) (pad4 m +:+ t) = lex (n ?= m) (String.compare s t).
Proof.
  intros Hn Hm. unfold pad4, pad2. rewrite !str_app_cons, !str_app_nil, !string_compare_cons, !compare_digit.
  rewrite <- !lex_assoc, !(lex_radix 10) by (try apply Z.mod_pos_bound; lia).
  replace (10 * (10 * (10 * (n / 1000 mod 10) + n / 100 mod 10) + n / 10 mod 10) + n mod 10) with n
    by (Z.to_euclidean_division_equations; lia).
  by replace (10 * (10 * (10 * (m / 1000 mod 10) + m / 100 mod 10) + m / 10 mod 10) + m mod 10) with m
    by (Z.to_euclidean_division_equations; lia).
Qed.

(** ** The order of texts *)

Lemma month_start_mono l a b : 1 <= a -> a <= b -> b <= 13 -> month_start l a <= month_start l b.
Proof.
  intros Ha Hab Hb.
  assert (forall m, 1 <= m <= 13 -> m = 1 \/ m = 2 \/ m = 3 \/ m = 4 \/ m = 5 \/ m = 6 \/ m = 7 \/ m = 8 \/ m = 9 \/
    m = 10 \/ m = 11 \/ m = 12 \/ m = 13) as Hall by lia.
  destruct (Hall a ltac:(lia)) as [->|[->|[->|[->|[->|[->|[->|[->|[->|[->|[->|[->| ->]]]]]]]]]]]],
    (Hall b ltac:(lia)) as [->|[->|[->|[->|[->|[->|[->|[->|[->|[->|[->|[->| ->]]]]]]]]]]]];
    destruct l; simpl; lia.
Qed.

Lemma year_days y : 1 <= y -> days_before (y + 1) = days_before y + month_start (is_leap y) 13.
Proof.
  intros Hy. unfold days_before, is_leap. cbn [month_start].
  replace (y + 1 - 1) with y by lia.
  destruct (Z.eqb_spec (y mod 4) 0), (Z.eqb_spec (y mod 100) 0), (Z.eqb_spec (y mod 400) 0); cbn [andb orb negb];
    Z.to_euclidean_division_equations; lia.
Qed.

(** Days are ordered as year, month and day are. *)
Lemma day_number_lt y m d y' m' d' : 1 <= y -> 1 <= m <= 12 -> 1 <= m' <= 12 ->
  1 <= d <= month_length y m -> 1 <= d' <= month_length y' m' ->
  y < y' \/ y = y' /\ (m < m' \/ m = m' /\ d < d') -> day_number y m d < day_number y' m' d'.
Proof.
  unfold month_length, day_number. intros Hy Hm Hm' Hd Hd' [Hlt|[<- [Hlt|[<- Hlt]]]]; [..|lia].
  - pose proof (days_before_mono (y + 1) y' ltac:(lia)). rewrite year_days in * by lia.
    pose proof (month_start_mono (is_leap y) (m + 1) 13 ltac:(lia) ltac:(lia) ltac:(lia)).
    pose proof (month_start_mono (is_leap y') 1 m' ltac:(lia) ltac:(lia) ltac:(lia)).
    change (month_start (is_leap y') 1) with 0 in *. lia.
  - pose proof (month_start_mono (is_leap y) (m + 1) m' ltac:(lia) ltac:(lia) ltac:(lia)). lia.
Qed.

Lemma compare_fields f g : fields_ok f -> fields_ok g ->
  String.compare (print_fields f) (print_fields g) =
  lex (fy f ?= fy g) (lex (fm f ?= fm g) (lex (fd f ?= fd g)
    (lex (fh f ?= fh g) (lex (fmi f ?= fmi g) (lex (fs f ?= fs g)
      (String.compare (fraction (fns f) +:+ "Z") (fraction (fns g) +:+ "Z"))))))).
Proof.
  unfold fields_ok. intros Hf Hg. unfold print_fields.
  rewrite compare_pad4, !str_app_cons, !str_app_nil, string_compare_same by lia.
  rewrite compare_pad2, string_compare_same by lia. rewrite compare_pad2, string_compare_same by lia.
  rewrite compare_pad2, string_compare_same by lia. rewrite compare_pad2, string_compare_same by lia.
  by rewrite compare_pad2 by lia.
Qed.

(** Times of different seconds. *)
Lemma Format_order t u : 0 <= t < max_time -> 0 <= u < max_time -> t / Second < u / Second ->
  String.compare (FormatRFC3339Nano t) (FormatRFC3339Nano u) = Lt.
Proof.
  intros Ht Hu Hlt. destruct (Format_fields t Ht) as (f & Hf & -> & Et). destruct (Format_fields u Hu) as (g & Hg & -> & Eu).
  rewrite compare_fields by done.
  assert (seconds_of f < seconds_of g) as Hs.
  { unfold fields_ok in *. rewrite Et, Eu, !(Z.add_comm (_ * Second)), !Z.div_add, !(Z.div_small (fns _)) in Hlt by (unfold Second in *; lia). lia. }
  unfold seconds_of in Hs. unfold fields_ok in *.
  pose proof (day_number_lt (fy g) (fm g) (fd g) (fy f) (fm f) (fd f)) as Hd.
  destruct (Z.compare_spec (fy f) (fy g)); cbn [lex]; [|done|lia].
  destruct (Z.compare_spec (fm f) (fm g)); cbn [lex]; [|done|lia].
  destruct (Z.compare_spec (fd f) (fd g)) as [Ed| |]; cbn [lex]; [|done|lia].
  assert (day_number (fy f) (fm f) (fd f) = day_number (fy g) (fm g) (fd g)) by congruence.
  destruct (Z.compare_spec (fh f) (fh g)); cbn [lex]; [|done|lia].
  destruct (Z.compare_spec (fmi f) (fmi g)); cbn [lex]; [|done|lia].
  destruct (Z.compare_spec (fs f) (fs g)); cbn [lex]; [|done|]; lia.
Qed.
