(* ===== verification/GoParse.v ===== *)
(** * Parsers of the Go standard library

    The numbers, durations, addresses and paths a configuration file holds:
    [strconv.ParseFloat] (rounded correctly, with the standard library's
    reference floats), [time.ParseDuration], [net.ParseIP] as a test, and
    [filepath.Clean]. A number out of the range of [int64] converts to whatever
    the machine gives: the class [Platform]. *)

From Stdlib Require Import ZArith Lia Ascii String SpecFloat.
From stdpp Require Import base tactics list strings.
From S2P Require Import Prelude GoString GoError GoUrl GoTime.

(** ** [float64] *)

Definition flt (x y : float64) : bool := SFltb x y.
Definition feq (x y : float64) : bool := SFeqb x y.
Definition fadd (x y : float64) : float64 := SFadd 53 1024 x y.
Definition IsNaN (x : float64) : bool := match x with S754_nan => true | _ => false end.
Definition IsInf (x : float64) : bool := match x with S754_infinity _ => true | _ => false end.

(** The integral part of a finite number, towards zero. *)
Definition Ztrunc (x : float64) : Z :=
  match x with
  | S754_finite s m e =>
      let z := if 0 <=? e then Z.pos m * 2 ^ e else Z.pos m / 2 ^ (- e) in if s then - z else z
  | _ => 0
  end.

(** [math.Trunc(x) == x] *)
Definition is_integral (x : float64) : bool :=
  match x with
  | S754_finite _ m e => (0 <=? e) || (Z.pos m mod 2 ^ (- e) =? 0)
  | S754_nan => false
  | _ => true
  end.

(** The conversion of a number [int64] cannot hold is the machine's choice. *)
Class Platform := {
  float_overflow : float64 -> Z;
  float_overflow_range x : minI64 <= float_overflow x <= maxI64
}.
Definition int64_of_float `{Platform} (x : float64) : Z :=
  let z := Ztrunc x in
  if is_nan_or_inf x || (z <? minI64) || (maxI64 <? z) then float_overflow x else z.

(** ** [strconv.ParseFloat(s, 64)] *)

Definition float_digit (hex : bool) (c : ascii) : option Z :=
  if is_digit c then Some (code c - 48) else if hex then hex_val c else None.

(** What [readFloat] knows of a mantissa: its digits as a number, how many are
    behind the point, and whether it has seen a point or a digit. *)
Record mantissa := { mValue : Z; mFraction : Z; mDot : bool; mDigits : bool }.
Definition no_mantissa : mantissa := {| mValue := 0; mFraction := 0; mDot := false; mDigits := false |}.

Fixpoint read_mantissa (hex : bool) (x : mantissa) (s : string) : mantissa * string :=
  match s with
  | EmptyString => (x, s)
  | String c r =>
      if Ascii.eqb c "_" then read_mantissa hex x r
      else if Ascii.eqb c "." then
        if mDot x then (x, s)
        else read_mantissa hex {| mValue := mValue x; mFraction := mFraction x; mDot := true; mDigits := mDigits x |} r
      else
        match float_digit hex c with
        | Some d =>
            read_mantissa hex {| mValue := (if hex then 16 else 10) * mValue x + d;
                                 mFraction := if mDot x then mFraction x + 1 else mFraction x;
                                 mDot := mDot x; mDigits := true |} r
        | None => (x, s)
        end
  end.

(** The digits of an exponent, to the end of the text; those after the fifth
    no longer count. *)
Fixpoint read_exponent (e : Z) (s : string) : option Z :=
  match s with
  | EmptyString => Some e
  | String c r =>
      if Ascii.eqb c "_" then read_exponent e r
      else if is_digit c then read_exponent (if e <? 10000 then e * 10 + (code c - 48) else e) r
      else None
  end.
Definition signed (s : string) : bool * string :=
  match s with
  | String "+" r => (false, r)
  | String "-" r => (true, r)
  | _ => (false, s)
  end.
Definition parse_exponent (s : string) : option Z :=
  let '(neg, r) := signed s in
  match r with
  | String c _ => if is_digit c then (if neg then Z.opp else id) <$> read_exponent 0 r else None
  | EmptyString => None
  end.

(** [underscoreOK]: [saw] is the class of the last byte. *)
Inductive seen := SawStart | SawDigit | SawUnderscore | SawOther.
Fixpoint underscores_from (hex : bool) (saw : seen) (s : string) : bool :=
  match s with
  | EmptyString => match saw with SawUnderscore => false | _ => true end
  | String c r =>
      match float_digit hex c with
      | Some _ => underscores_from hex SawDigit r
      | None =>
          if Ascii.eqb c "_" then
            match saw with SawDigit => underscores_from hex SawUnderscore r | _ => false end
          else match saw with SawUnderscore => false | _ => underscores_from hex SawOther r end
      end
  end.
Definition base_prefix (s : string) : option (ascii * string) :=
  match s with
  | String "0" (String b r) => if in_set "box" (lower_char b) then Some (lower_char b, r) else None
  | _ => None
  end.
Definition underscoreOK (s : string) : bool :=
  let '(_, s) := signed s in
  match base_prefix s with
  | Some (b, r) => underscores_from (Ascii.eqb b "x") SawDigit r
  | None => underscores_from false SawStart s
  end.

(** The float nearest to [m * 10 ^ e], ties to even. *)
Definition round_decimal (neg : bool) (m e : Z) : float64 :=
  match m with
  | Zpos p =>
      if 0 <=? e then binary_round 53 1024 neg (p * Z.to_pos (10 ^ e)) 0
      else
        let '(q, e', l) := SFdiv_core_binary 53 1024 (Zpos p) 0 (10 ^ (- e)) 0 in
        binary_round_aux 53 1024 neg q e' l
  | _ => S754_zero neg
  end.
(** The float nearest to [m * 2 ^ e]. *)
Definition round_binary (neg : bool) (m e : Z) : float64 :=
  match m with
  | Zpos p =>
      if 0 <=? e then binary_round 53 1024 neg (p * Z.to_pos (2 ^ e)) 0
      else binary_round 53 1024 neg p e
  | _ => S754_zero neg
  end.

Definition special (s : string) : option float64 :=
  let '(neg, r) := signed s in
  if in_strings (ToLower r) ["inf"; "infinity"] then Some (S754_infinity neg)
  else if (ToLower s =? "nan")%string then Some S754_nan
  else None.

Definition read_float (s : string) : option float64 :=
  let '(neg, r) := signed s in
  let '(hex, r) :=
    match base_prefix r with
    | Some ("x"%char, String c r') => (true, String c r')
    | _ => (false, r)
    end in
  let '(m, r) := read_mantissa hex no_mantissa r in
  if negb (mDigits m) then None else
  e ← match r with
      | EmptyString => if hex then None else Some 0
      | String c r' => if Ascii.eqb (lower_char c) (if hex then "p" else "e") then parse_exponent r' else None
      end;
  if ContainsChar s "_" && negb (underscoreOK s) then None
  else Some (if hex then round_binary neg (mValue m) (e - 4 * mFraction m)
             else round_decimal neg (mValue m) (e - mFraction m)).

(** [None] is an error: bad syntax, or a number out of range. *)
Definition ParseFloat (s : string) : option float64 :=
  match special s with
  | Some x => Some x
  | None => x ← read_float s; if is_nan_or_inf x then None else Some x
  end.

Example ParseFloat_exact :
  ParseFloat "1.5" = Some (fdiv (float64_of_Z 3) (float64_of_Z 2)) /\
  ParseFloat "0x1p-2" = Some (fdiv (float64_of_Z 1) (float64_of_Z 4)) /\
  ParseFloat "1_000e-3" = Some (float64_of_Z 1) /\ ParseFloat "9007199254740993" = Some (float64_of_Z 9007199254740992) /\
  ParseFloat "0.1" = Some (fdiv (float64_of_Z 1) (float64_of_Z 10)) /\ ParseFloat "1e23" = ParseFloat "99999999999999991611392".
Proof. vm_compute. done. Qed.
Example ParseFloat_errors :
  (ParseFloat <$> [""; "."; "1e"; "1e400"; "0x1"; "1__0"; "_1"; "1 "; "infx"; "-nan"; "0x"]) = replicate 11 None /\
  ParseFloat "-Infinity" = Some (S754_infinity true) /\ ParseFloat "1e-400" = Some (S754_zero false) /\
  ParseFloat "-.5" = Some (fdiv (float64_of_Z (-1)) (float64_of_Z 2)).
Proof. vm_compute. done. Qed.

(** ** [time.ParseDuration] *)

(** The package's own quoting: bytes that are not printable US-ASCII become
    hexadecimal escapes. *)
Fixpoint quote_time_body (s : string) : string :=
  match s with
  | EmptyString => EmptyString
  | String c r =>
      if (128 <=? code c) || (code c <? 32) then
        hex_escape c +:+ quote_time_body r
      else if Ascii.eqb c dquote || Ascii.eqb c "\" then String "\" (String c (quote_time_body r))
      else String c (quote_time_body r)
  end.
Definition quote_time (s : string) : string := String dquote (quote_time_body s +:+ String dquote EmptyString).

(** [leadingInt]: [None] is an overflow. *)
Fixpoint leadingInt (x : Z) (s : string) : option (Z * string) :=
  match s with
  | EmptyString => Some (x, s)
  | String c r =>
      if negb (is_digit c) then Some (x, s)
      else if 2 ^ 63 / 10 <? x then None
      else let x' := x * 10 + (code c - 48) in if 2 ^ 63 <? x' then None else leadingInt x' r
  end.

(** [leadingFraction]: the digits that fit, and the power of ten they are over. *)
Fixpoint leadingFraction (overflow : bool) (x : Z) (scale : float64) (s : string) : Z * float64 * string :=
  match s with
  | EmptyString => (x, scale, s)
  | String c r =>
      if negb (is_digit c) then (x, scale, s)
      else if overflow || (maxI64 / 10 <? x) then leadingFraction true x scale r
      else
        let y := x * 10 + (code c - 48) in
        if 2 ^ 63 <? y then leadingFraction true x scale r
        else leadingFraction false y (fmul scale (float64_of_Z 10)) r
  end.

(** The bytes of a unit: up to a point or a digit. *)
Fixpoint span_unit (s : string) : string * string :=
  match s with
  | EmptyString => (EmptyString, s)
  | String c r =>
      if Ascii.eqb c "." || is_digit c then (EmptyString, s)
      else let '(u, rest) := span_unit r in (String c u, rest)
  end.

Definition micro_sign : string := String (ascii_of_nat 194) (String (ascii_of_nat 181) "s").
Definition greek_mu : string := String (ascii_of_nat 206) (String (ascii_of_nat 188) "s").
Definition unitMap (u : string) : option Z :=
  if (u =? "ns")%string then Some 1
  else if in_strings u ["us"; micro_sign; greek_mu] then Some 1000
  else if (u =? "ms")%string then Some 1000000
  else if (u =? "s")%string then Some Second
  else if (u =? "m")%string then Some Minute
  else if (u =? "h")%string then Some Hour
  else None.

Definition invalid_duration (orig : string) : goerr := EText ("time: invalid duration " +:+ quote_time orig).

(** One term: a number, a fraction, a unit. *)
Definition duration_term (orig s : string) : res goerr (Z * string) :=
  let bad := Err (invalid_duration orig) in
  match s with
  | EmptyString => bad
  | String c _ =>
      if negb (Ascii.eqb c "." || is_digit c) then bad else
      match leadingInt 0 s with
      | None => bad
      | Some (v, s1) =>
          let pre := negb (slen s =? slen s1)%nat in
          let '(f, scale, s2, post) :=
            match s1 with
            | String "." r => let '(f, scale, r') := leadingFraction false 0 (float64_of_Z 1) r in
                              (f, scale, r', negb (slen r =? slen r')%nat)
            | _ => (0, float64_of_Z 1, s1, false)
            end in
          if negb pre && negb post then bad else
          let '(u, s3) := span_unit s2 in
          if (u =? "")%string then Err (EText ("time: missing unit in duration " +:+ quote_time orig)) else
          match unitMap u with
          | None => Err (EText ("time: unknown unit " +:+ quote_time u +:+ " in duration " +:+ quote_time orig))
          | Some unit =>
              if 2 ^ 63 / unit <? v then bad else
              let v := v * unit in
              let v := if 0 <? f then v + Ztrunc (fmul (float64_of_Z f) (fdiv (float64_of_Z unit) scale)) else v in
              if 2 ^ 63 <? v then bad else Ok (v, s3)
          end
      end
  end.

(** The loop over the terms; each takes at least one byte, so the length of the
    text is enough fuel ([ParseDuration_fuel]). *)
Fixpoint duration_terms (fuel : nat) (orig : string) (d : Z) (s : string) : res goerr Z :=
  if (s =? "")%string then Ok d else
  match fuel with
  | O => Err (invalid_duration orig)
  | Datatypes.S fuel =>
      '(v, s) ← duration_term orig s;
      if 2 ^ 63 <? d + v then Err (invalid_duration orig) else duration_terms fuel orig (d + v) s
  end.

Definition ParseDuration (orig : string) : res goerr Z :=
  let '(neg, s) := signed orig in
  if (s =? "0")%string then Ok 0
  else if (s =? "")%string then Err (invalid_duration orig)
  else
    d ← duration_terms (slen s) orig 0 s;
    if neg then Ok (i64 (- i64 d))
    else if maxI64 <? d then Err (invalid_duration orig) else Ok d.

Example ParseDuration_terms :
  ParseDuration "1h30m" = Ok (5400 * Second) /\ ParseDuration "-1.5h" = Ok (- 5400 * Second) /\
  ParseDuration ".5s" = Ok 500000000 /\ ParseDuration "0" = Ok 0 /\ is_ok (ParseDuration "9223372036854775808ns") = false /\
  ParseDuration "-9223372036854775808ns" = Ok minI64 /\ ParseDuration "1.000000001s" = Ok 1000000001.
Proof. vm_compute. done. Qed.
Example ParseDuration_errors :
  (is_ok ∘ ParseDuration <$> [""; "-"; "1"; "s"; ".s"; "1d"; "1h 2m"]) = replicate 7 false.
Proof. vm_compute. done. Qed.

(** ** [net.ParseIP], as a test *)

(** [parseIPv4Fields]: [pos] fields are done, the current one has [digLen]
    digits and the value [val]. *)
Fixpoint parseIPv4Fields (pos val digLen : Z) (s : string) : bool :=
  match s with
  | EmptyString => 3 <=? pos
  | String c r =>
      if is_digit c then
        if (digLen =? 1) && (val =? 0) then false
        else
          let val := val * 10 + (code c - 48) in
          if 255 <? val then false else parseIPv4Fields pos val (digLen + 1) r
      else if Ascii.eqb c "." then
        if (digLen =? 0) || (r =? "")%string || (pos =? 3) then false else parseIPv4Fields (pos + 1) 0 0 r
      else false
  end.

Fixpoint span_hex (s : string) : nat * string :=
  match s with
  | String c r => match hex_val c with Some _ => let '(n, rest) := span_hex r in (Datatypes.S n, rest) | None => (O, s) end
  | EmptyString => (O, s)
  end.

(** The loop of [parseIPv6]: [left] groups are free, [ellipsis] is whether [::]
    was seen. *)
Fixpoint ipv6_groups (left : nat) (ellipsis : bool) (s : string) : bool :=
  match left with
  | O => false
  | Datatypes.S left' =>
      let '(off, rest) := span_hex s in
      if (off =? 0)%nat || (4 <? off)%nat then false else
      let finish (left : nat) (ellipsis : bool) := if (left =? 0)%nat then negb ellipsis else ellipsis in
      match rest with
      | String "." _ =>
          if negb ellipsis && negb (left =? 2)%nat then false
          else if (left <? 2)%nat then false
          else parseIPv4Fields 0 0 0 s && finish (left - 2)%nat ellipsis
      | EmptyString => finish left' ellipsis
      | String ":" EmptyString => false
      | String ":" (String ":" r) =>
          if ellipsis then false
          else if (r =? "")%string then finish left' true
          else ipv6_groups left' true r
      | String ":" r => ipv6_groups left' ellipsis r
      | _ => false
      end
  end.
Definition parseIPv6 (s : string) : bool :=
  match s with
  | String ":" (String ":" EmptyString) => true
  | String ":" (String ":" r) => ipv6_groups 8 true r
  | _ => ipv6_groups 8 false s
  end.

(** [net.ParseIP(s) != nil]: an address with a zone is refused. *)
Definition ParseIP (s : string) : bool :=
  if ContainsChar s "%" then false
  else match IndexChar s (in_set ".:") with
       | Some n => match String.get n s with
                   | Some "."%char => parseIPv4Fields 0 0 0 s
                   | _ => parseIPv6 s
                   end
       | None => false
       end.

Example ParseIP_examples :
  (ParseIP <$> ["192.168.0.1"; "::"; "::1"; "fe80::1:2"; "1:2:3:4:5:6:7:8"; "::ffff:1.2.3.4"; "1:2:3:4:5:6:1.2.3.4"; "1::"]) =
  replicate 8 true /\
  (ParseIP <$> [""; "1.2.3"; "1.2.3.04"; "256.1.1.1"; "1:2:3:4:5:6:7"; "1:2:3:4:5:6:7::8"; "::1%eth0"; "1:::2"; ":1"; "12345::"; "a.b"]) =
  replicate 11 false.
Proof. vm_compute. done. Qed.

(** ** [filepath] on Unix *)

Fixpoint clean_parts (rooted : bool) (out l : list string) : list string :=
  match l with
  | [] => rev out
  | p :: r =>
      if in_strings p [""; "."] then clean_parts rooted out r
      else if (p =? "..")%string then
        match out with
        | x :: o => if (x =? "..")%string then clean_parts rooted (p :: out) r else clean_parts rooted o r
        | [] => clean_parts rooted (if rooted then out else [p]) r
        end
      else clean_parts rooted (p :: out) r
  end.
Definition Clean (path : string) : string :=
  let rooted := HasPrefix path "/" in
  let p := Join (clean_parts rooted [] (Split path "/")) "/" in
  if rooted then "/" +:+ p else if (p =? "")%string then "." else p.

Example Clean_examples :
  (Clean <$> [""; "/"; "a//b/../c/."; "../../x"; "/../x"; "a/.."]) = ["."; "/"; "a/c"; "../../x"; "/x"; "."].
Proof. vm_compute. done. Qed.

(** The files a process sees: its working directory, and the file a path
    leads to when it exists. *)
Class FileSystem := { Getwd : res goerr string; Stat : string -> option Z }.
Definition Abs `{FileSystem} (path : string) : res goerr string :=
  if HasPrefix path "/" then Ok (Clean path)
  else
    wd ← Getwd;
    Ok (if (wd =? "")%string then (if (path =? "")%string then "" else Clean path)
        else Clean (if (path =? "")%string then wd else wd +:+ "/" +:+ path)).

(** ** The loop of [ParseDuration] has enough fuel *)

Lemma leadingInt_length s x v r : leadingInt x s = Some (v, r) -> (slen r <= slen s)%nat.
Proof.
  revert x. induction s as [|c s IH]; simpl; intros x H; [by simplify_eq/=|].
  destruct (negb (is_digit c)); [by simplify_eq/=|].
  destruct (_ <? x); [done|]. destruct (_ <? x * 10 + _); [done|]. apply IH in H. unfold slen in *. simpl. lia.
Qed.
Lemma leadingFraction_length s o x sc f sc' r : leadingFraction o x sc s = (f, sc', r) -> (slen r <= slen s)%nat.
Proof.
  revert o x sc. induction s as [|c s IH]; simpl; intros o x sc H; [by simplify_eq/=|].
  destruct (negb (is_digit c)); [by simplify_eq/=|].
  repeat match goal with H : (if ?b then _ else _) = _ |- _ => destruct b end; apply IH in H; unfold slen in *; simpl; lia.
Qed.
Lemma span_unit_length s u r : span_unit s = (u, r) -> (slen u + slen r = slen s)%nat.
Proof.
  revert u. induction s as [|c s IH]; simpl; intros u H; [by simplify_eq/=|].
  destruct (_ || _); [by simplify_eq/=|]. destruct (span_unit s) as [u' r'].
  specialize (IH u'). simplify_eq. unfold slen in *. simpl. rewrite <- IH; [lia|done].
Qed.

Lemma duration_term_length orig s v r : duration_term orig s = Ok (v, r) -> (slen r < slen s)%nat.
Proof.
  destruct s as [|c s']; [done|]. unfold duration_term. set (s := String c s') in *.
  destruct (negb _); [done|]. destruct (leadingInt 0 s) as [[n s1]|] eqn:E1; [|done].
  apply leadingInt_length in E1.
  match goal with |- context [let '(_, _) := ?t in _] => destruct t as [[[f sc] s2] post] eqn:E2 end.
  assert (slen s2 <= slen s1)%nat.
  { destruct s1 as [|a s1']; [by simplify_eq|]. unfold slen in *. simpl.
    destruct a as [[] [] [] [] [] [] [] []]; simplify_eq/=; try lia.
    destruct (leadingFraction _ _ _ s1') as [[f' sc'] r'] eqn:E3. apply leadingFraction_length in E3.
    simplify_eq. unfold slen in *. lia. }
  destruct (_ && _); [done|]. destruct (span_unit s2) as [u s3] eqn:E3. apply span_unit_length in E3.
  destruct (u =? "")%string eqn:Eu; [done|]. destruct (unitMap u); [|done].
  assert (0 < slen u)%nat by (destruct u; [done|unfold slen; simpl; lia]).
  repeat match goal with |- context [if ?b then Err _ else _] => destruct b; [done|] end.
  intros H'. simplify_eq. lia.
Qed.

Lemma duration_terms_fuel orig s f f' d :
  (slen s <= f)%nat -> (slen s <= f')%nat -> duration_terms f orig d s = duration_terms f' orig d s.
Proof.
  revert s f' d. induction f as [|f IH]; intros s f' d H1 H2.
  - destruct s; [|unfold slen in *; simpl in *; lia]. by destruct f'.
  - destruct s as [|c s]; [by destruct f'|]. destruct f' as [|f']; [unfold slen in *; simpl in *; lia|].
    cbn [duration_terms]. destruct (_ =? _)%string; [done|].
    destruct (duration_term orig (String c s)) as [[v r]|e] eqn:E; [|done]. cbn.
    apply duration_term_length in E. destruct (2 ^ 63 <? d + v); [done|]. apply IH; lia.
Qed.

Lemma ParseDuration_fuel orig k :
  ParseDuration orig =
  (let '(neg, s) := signed orig in
   if (s =? "0")%string then Ok 0 else if (s =? "")%string then Err (invalid_duration orig)
   else d ← duration_terms (slen s + k) orig 0 s;
        if neg then Ok (i64 (- i64 d)) else if maxI64 <? d then Err (invalid_duration orig) else Ok d).
Proof.
  unfold ParseDuration. destruct (signed orig) as [neg s].
  by rewrite (duration_terms_fuel orig s (slen s) (slen s + k) 0) by lia.
Qed.

Lemma ParseDuration_max s d : ParseDuration s = Ok d -> d <= maxI64.
Proof.
  unfold ParseDuration. destruct (signed s) as [neg r].
  destruct (r =? "0")%string; [intros; simplify_eq; unfold maxI64; lia|]. destruct (r =? "")%string; [done|].
  destruct (duration_terms _ _ _ _) as [v|e]; [|done]. cbn.
  destruct neg; [|destruct (maxI64 <? v) eqn:Em]; intros H; simplify_eq; [|lia].
  unfold i64, wraps. simpl. unfold maxI64. Z.div_mod_to_equations. lia.
Qed.
