(* ===== verification/Store.v ===== *)
(** * The job registry: the program ([internal/store/store.go])

    The registry is one SQLite table. A row has the columns of the table, as
    SQLite stores them: integers, texts (times are texts), and [None] for
    NULL. A statement acts on the list of rows, in the order of the row ids;
    [seq] is the AUTOINCREMENT sequence, the largest id ever given. The
    unique index on the queue and the upstream job id refuses an INSERT or an
    UPDATE that would duplicate a pair.

    A method is a function of its arguments, of the current time where it asks
    for it ([now]), and of the store; a transaction that fails leaves the
    store as it was. The database itself does not fail: I/O errors of SQLite
    and cancellation of the context are not modelled.

    The fields of the Go structs [Job] and [DocumentRoute] are grouped into
    sub-records, with the same names. Go's [...any] arguments are the type
    [any], one constructor per dynamic type the parsers distinguish. *)

From Stdlib Require Import ZArith Lia Ascii String.
From stdpp Require Import base tactics list strings gmap sorting.
From S2P Require Import Prelude GoString GoError GoTime.

(** ** States, errors and constants *)

Definition StateReserved : string := "reserved".
Definition StateMapped : string := "mapped".
Definition StateUncertain : string := "uncertain".
Definition StateTerminal : string := "terminal".
Definition StateCompleted : string := "completed".
Definition StateCanceled : string := "canceled".
Definition StateCancelled : string := "cancelled".
Definition StateAborted : string := "aborted".
Definition StateFailed : string := "failed".
Definition StateStopped : string := "stopped".

Definition terminalStates : list string :=
  [StateTerminal; StateCompleted; StateCanceled; StateCancelled; StateAborted; StateFailed; StateStopped].

Definition DefaultRetention : Z := 30 * 24 * Hour.
Definition reconciliationInitialBackoff : Z := Minute.
Definition reconciliationMaxBackoff : Z := Hour.

Definition ErrMappingConflict : goerr := ESentinel "upstream job is already mapped".
Definition ErrInvalidTransition : goerr := ESentinel "invalid job state transition".
Definition ErrInvalidArgument : goerr := ESentinel "invalid job registry argument".
(** [sql.ErrNoRows] and the error of the driver for a broken unique index. *)
Definition ErrNoRows : goerr := ESentinel "sql: no rows in result set".
Definition ErrUnique : goerr :=
  EText "constraint failed: UNIQUE constraint failed: jobs.queue, jobs.upstream_job_id (2067)".

Definition RoutePassThrough : string := "pass-through".
Definition RouteURFToPWG : string := "urf-to-pwg".

Definition IsTerminalState (state : string) : bool := in_strings (ToLower (TrimSpace state)) terminalStates.

(** ** Jobs and routes *)

Record DocumentRoute := {
  ClientDocumentFormat : string;
  rUpstreamDocumentFormat : string;
  Kind : string;
  Mapping : string;
  MediaName : string;
  MediaWidth : Z;
  MediaHeight : Z;
  MediaType : string;
  MediaSource : Z;
  ResolutionX : Z;
  ResolutionY : Z;
  PrintQuality : Z;
  Sides : string;
  SheetBack : string
}.

(** The flattened route fields of [Job], [RouteKind] to [RouteSheetBack]; the
    same columns of the table. *)
Record RouteFields := {
  RouteKind : string;
  RouteMapping : string;
  RouteMediaName : string;
  RouteMediaWidth : Z;
  RouteMediaHeight : Z;
  RouteMediaType : string;
  RouteMediaSource : Z;
  RouteResolutionX : Z;
  RouteResolutionY : Z;
  RoutePrintQuality : Z;
  RouteSides : string;
  RouteSheetBack : string
}.

Record Names := {
  Queue : string;
  QueueOwner : string;
  RequestingUser : string;
  JobName : string
}.

(** The lifecycle: [State], [ObservedState] and [ObservedError]. *)
Record Life := { State : string; ObservedState : string; ObservedError : string }.

Record Payload := {
  PayloadBytes : Z;
  PageCount : option Z;
  Copies : Z;
  EstimatedImpressions : option Z;
  DocumentCount : Z;
  LastDocument : bool
}.

(** [TerminalAt] and the following are pointers. *)
Record Times := {
  CreatedAt : time;
  UpdatedAt : time;
  TerminalAt : option time;
  ReconcileAt : option time;
  LastReconcileAt : option time;
  NextReconcileAt : option time
}.

Record Job := {
  ProxyJobID : Z;
  UpstreamJobID : Z;
  HasUpstreamJobID : bool;
  UpstreamJobURI : string;
  HasUpstreamJobURI : bool;
  names : Names;
  DocumentFormat : string;
  UpstreamDocumentFormat : string;
  routeFields : RouteFields;
  Route : DocumentRoute;
  life : Life;
  payload : Payload;
  times : Times
}.

(** ** Rows *)

Record RowTimes := {
  created_at : string;
  updated_at : string;
  terminal_at : option string;
  reconcile_at : option string;
  last_reconcile_at : option string;
  next_reconcile_at : option string
}.

Record row := {
  proxy_job_id : Z;
  upstream_job_id : option Z;
  upstream_job_uri : option string;
  r_names : Names;
  document_format : string;
  upstream_document_format : string;
  r_route : RouteFields;
  r_life : Life;
  r_payload : Payload;
  r_times : RowTimes
}.

Record Store := { rows : list row; seq : Z }.

Definition queue (r : row) : string := Queue (r_names r).
Definition state (r : row) : string := State (r_life r).

(** Assignments of an UPDATE, by groups of columns. *)
Definition set_mapping (id : option Z) (uri : option string) (r : row) : row :=
  {| proxy_job_id := proxy_job_id r; upstream_job_id := id; upstream_job_uri := uri;
     r_names := r_names r; document_format := document_format r;
     upstream_document_format := upstream_document_format r; r_route := r_route r;
     r_life := r_life r; r_payload := r_payload r; r_times := r_times r |}.
Definition set_formats (df udf : string) (rt : RouteFields) (r : row) : row :=
  {| proxy_job_id := proxy_job_id r; upstream_job_id := upstream_job_id r;
     upstream_job_uri := upstream_job_uri r; r_names := r_names r; document_format := df;
     upstream_document_format := udf; r_route := rt;
     r_life := r_life r; r_payload := r_payload r; r_times := r_times r |}.
Definition set_life (l : Life) (r : row) : row :=
  {| proxy_job_id := proxy_job_id r; upstream_job_id := upstream_job_id r;
     upstream_job_uri := upstream_job_uri r; r_names := r_names r;
     document_format := document_format r; upstream_document_format := upstream_document_format r;
     r_route := r_route r; r_life := l; r_payload := r_payload r; r_times := r_times r |}.
Definition set_payload (df : string) (p : Payload) (r : row) : row :=
  {| proxy_job_id := proxy_job_id r; upstream_job_id := upstream_job_id r;
     upstream_job_uri := upstream_job_uri r; r_names := r_names r;
     document_format := df; upstream_document_format := upstream_document_format r;
     r_route := r_route r; r_life := r_life r; r_payload := p; r_times := r_times r |}.
Definition set_times (t : RowTimes) (r : row) : row :=
  {| proxy_job_id := proxy_job_id r; upstream_job_id := upstream_job_id r;
     upstream_job_uri := upstream_job_uri r; r_names := r_names r;
     document_format := document_format r; upstream_document_format := upstream_document_format r;
     r_route := r_route r; r_life := r_life r; r_payload := r_payload r; r_times := t |}.
Definition set_id (id : Z) (r : row) : row :=
  {| proxy_job_id := id; upstream_job_id := upstream_job_id r;
     upstream_job_uri := upstream_job_uri r; r_names := r_names r;
     document_format := document_format r; upstream_document_format := upstream_document_format r;
     r_route := r_route r; r_life := r_life r; r_payload := r_payload r; r_times := r_times r |}.

(** [updated_at = u], and the three reconciliation columns with it. *)
Definition set_updated (u : string) (t : RowTimes) : RowTimes :=
  {| created_at := created_at t; updated_at := u; terminal_at := terminal_at t;
     reconcile_at := reconcile_at t; last_reconcile_at := last_reconcile_at t;
     next_reconcile_at := next_reconcile_at t |}.
Definition set_reconcile (rec last next : option string) (t : RowTimes) : RowTimes :=
  {| created_at := created_at t; updated_at := updated_at t; terminal_at := terminal_at t;
     reconcile_at := rec; last_reconcile_at := last; next_reconcile_at := next |}.
Definition set_terminal_at (v : option string) (t : RowTimes) : RowTimes :=
  {| created_at := created_at t; updated_at := updated_at t; terminal_at := v;
     reconcile_at := reconcile_at t; last_reconcile_at := last_reconcile_at t;
     next_reconcile_at := next_reconcile_at t |}.

(** ** Routes of a job *)

Definition or_str (s d : string) : string := if (s =? "")%string then d else s.
Definition or_int (z d : Z) : Z := if z =? 0 then d else z.

Definition routeFromJob (job : Job) : DocumentRoute :=
  let r := Route job in
  let f := routeFields job in {|
    ClientDocumentFormat := or_str (ClientDocumentFormat r) (DocumentFormat job);
    rUpstreamDocumentFormat := or_str (rUpstreamDocumentFormat r) (UpstreamDocumentFormat job);
    Kind := or_str (Kind r) (RouteKind f);
    Mapping := or_str (Mapping r) (RouteMapping f);
    MediaName := or_str (MediaName r) (RouteMediaName f);
    MediaWidth := or_int (MediaWidth r) (RouteMediaWidth f);
    MediaHeight := or_int (MediaHeight r) (RouteMediaHeight f);
    MediaType := or_str (MediaType r) (RouteMediaType f);
    MediaSource := or_int (MediaSource r) (RouteMediaSource f);
    ResolutionX := or_int (ResolutionX r) (RouteResolutionX f);
    ResolutionY := or_int (ResolutionY r) (RouteResolutionY f);
    PrintQuality := or_int (PrintQuality r) (RoutePrintQuality f);
    Sides := or_str (Sides r) (RouteSides f);
    SheetBack := or_str (SheetBack r) (RouteSheetBack f)
  |}.

(** The assignments to the flattened fields at the end of [normalizeRoute]. *)
Definition flatten (r : DocumentRoute) : RouteFields := {|
  RouteKind := Kind r; RouteMapping := Mapping r; RouteMediaName := MediaName r;
  RouteMediaWidth := MediaWidth r; RouteMediaHeight := MediaHeight r;
  RouteMediaType := MediaType r; RouteMediaSource := MediaSource r;
  RouteResolutionX := ResolutionX r; RouteResolutionY := ResolutionY r;
  RoutePrintQuality := PrintQuality r; RouteSides := Sides r; RouteSheetBack := SheetBack r
|}.

Definition with_route (r : DocumentRoute) (client upstream kind : string) : DocumentRoute := {|
  ClientDocumentFormat := client; rUpstreamDocumentFormat := upstream; Kind := kind;
  Mapping := Mapping r; MediaName := MediaName r; MediaWidth := MediaWidth r;
  MediaHeight := MediaHeight r; MediaType := MediaType r; MediaSource := MediaSource r;
  ResolutionX := ResolutionX r; ResolutionY := ResolutionY r; PrintQuality := PrintQuality r;
  Sides := Sides r; SheetBack := SheetBack r
|}.

Definition normalizeRoute (job : Job) : Job :=
  let r := routeFromJob job in
  let client := or_str (ClientDocumentFormat r) (DocumentFormat job) in
  let df := or_str (DocumentFormat job) client in
  let upstream := or_str (rUpstreamDocumentFormat r) df in
  let kind := or_str (Kind r) RoutePassThrough in
  let r := with_route r client upstream kind in {|
    ProxyJobID := ProxyJobID job; UpstreamJobID := UpstreamJobID job;
    HasUpstreamJobID := HasUpstreamJobID job; UpstreamJobURI := UpstreamJobURI job;
    HasUpstreamJobURI := HasUpstreamJobURI job; names := names job;
    DocumentFormat := df; UpstreamDocumentFormat := upstream;
    routeFields := flatten r; Route := r;
    life := life job; payload := payload job; times := times job
  |}.

(** ** Times and nulls *)

Definition formatTime (t : time) : string := if IsZero t then "" else FormatRFC3339Nano t.

(** [parseTime] of a [sql.NullString]; a text that does not parse is the zero time. *)
Definition parseTime (v : option string) : time :=
  match v with
  | None => 0
  | Some s => if (s =? "")%string then 0 else default 0 (ParseRFC3339 s)
  end.
Definition parseNullableTime (v : option string) : option time :=
  let parsed := parseTime v in if IsZero parsed then None else Some parsed.
Definition nullableTime (v : option time) : option string :=
  match v with
  | None => None
  | Some t => if IsZero t then None else Some (formatTime t)
  end.
Definition timeOrNow (now t : time) : time := if IsZero t then now else t.

Definition nullableUpstreamID (job : Job) : option Z :=
  if HasUpstreamJobID job || negb (UpstreamJobID job =? 0) then Some (UpstreamJobID job) else None.
Definition nullableUpstreamURI (job : Job) : option string :=
  if HasUpstreamJobURI job || negb (UpstreamJobURI job =? "")%string then Some (UpstreamJobURI job) else None.
Definition nullableIntValue (v : Z) : option Z := if v =? 0 then None else Some v.
Definition nullableStringValue (v : string) : option string := if (v =? "")%string then None else Some v.

(** [isUniqueViolation(err)] looks for two words in the text of the error. *)
Definition isUniqueViolation (err : goerr) : bool :=
  let message := ToLower (Error_text err) in
  Contains message "unique" || Contains message "constraint".

(** ** Arguments *)

Inductive intkind : Type :=
| KInt | KInt8 | KInt16 | KInt32 | KInt64 | KUint | KUint8 | KUint16 | KUint32 | KUint64.

Record JobFilter := {
  fQueue : string;
  fQueueOwner : string;
  fRequestingUser : string;
  fUser : string;
  fRequestingUserName : string;
  fState : string;
  fStates : list string;
  fObservedState : string;
  fProxyJobID : Z;
  fUpstreamJobID : Z;
  fCreatedAfter : time;
  fCreatedBefore : time;
  fUpdatedAfter : time;
  fUpdatedBefore : time;
  fTerminalBefore : time;
  fTerminalAfter : time;
  fIncludeTerminal : bool;
  fExcludeTerminal : bool;
  fLimit : Z;
  fOffset : Z
}.

Inductive any : Type :=
| ANil
| AInt (k : intkind) (z : Z)
| AString (s : string)
| ABool (b : bool)
| ATime (t : time)
| ADuration (d : Z)
| AIntPtr (p : option Z)
| AJob (j : Job)
| AFilter (f : JobFilter)
| AOther.

(** [int(value)] keeps the low 64 bits of an unsigned value. *)
Definition asInt (v : any) : option Z :=
  match v with
  | AInt (KUint | KUint64) z => Some (i64 z)
  | AInt _ z => Some z
  | _ => None
  end.
Definition asInt64 (v : any) : option Z := asInt v.
Definition asString (v : any) : option string := match v with AString s => Some s | _ => None end.
Definition asOptionalInt (v : any) : option (option Z) :=
  match v with
  | ANil => Some None
  | AIntPtr p => Some p
  | _ => Some <$> asInt v
  end.

Definition invalid {A} : res goerr A := Err ErrInvalidArgument.
Definition arg {A} (o : option A) : res goerr A := match o with Some a => Ok a | None => invalid end.

Definition zeroTimes : Times := {|
  CreatedAt := 0; UpdatedAt := 0; TerminalAt := None; ReconcileAt := None;
  LastReconcileAt := None; NextReconcileAt := None |}.
Definition zeroRoute : DocumentRoute := {|
  ClientDocumentFormat := ""; rUpstreamDocumentFormat := ""; Kind := ""; Mapping := "";
  MediaName := ""; MediaWidth := 0; MediaHeight := 0; MediaType := ""; MediaSource := 0;
  ResolutionX := 0; ResolutionY := 0; PrintQuality := 0; Sides := ""; SheetBack := "" |}.
Definition zeroPayload (copies : Z) : Payload := {|
  PayloadBytes := 0; PageCount := None; Copies := copies; EstimatedImpressions := None;
  DocumentCount := 0; LastDocument := false |}.

(** A [Job] literal with a queue, a user, a name, a format and a copy count. *)
Definition newJob (q user name format : string) (copies : Z) : Job := {|
  ProxyJobID := 0; UpstreamJobID := 0; HasUpstreamJobID := false; UpstreamJobURI := "";
  HasUpstreamJobURI := false;
  names := {| Queue := q; QueueOwner := ""; RequestingUser := user; JobName := name |};
  DocumentFormat := format; UpstreamDocumentFormat := ""; routeFields := flatten zeroRoute;
  Route := zeroRoute; life := {| State := ""; ObservedState := ""; ObservedError := "" |};
  payload := zeroPayload copies; times := zeroTimes |}.

Definition parseReservationArgs (args : list any) : res goerr Job :=
  match args with
  | [AJob job] => Ok job
  | q :: u :: rest =>
      if (3 <? length rest)%nat then invalid else
      queue ← arg (asString q);
      user ← arg (asString u);
      match rest with
      | [] => Ok (newJob queue user "" "" 0)
      | [n] => name ← arg (asString n); Ok (newJob queue user name "" 0)
      | [n; f] =>
          name ← arg (asString n); format ← arg (asString f); Ok (newJob queue user name format 0)
      | [n; f; c] =>
          name ← arg (asString n); format ← arg (asString f); copies ← arg (asInt c);
          Ok (newJob queue user name format copies)
      | _ => invalid
      end
  | _ => invalid
  end.

Definition parseScopedID (args : list any) : res goerr (string * Z) :=
  match args with
  | [a] => id ← arg (asInt a); Ok ("", id)
  | [q; a] => queue ← arg (asString q); id ← arg (asInt a); Ok (queue, id)
  | _ => invalid
  end.

Definition parseScopedString (args : list any) : res goerr (string * string) :=
  match args with
  | [a] => s ← arg (asString a); Ok ("", s)
  | [q; a] => queue ← arg (asString q); s ← arg (asString a); Ok (queue, s)
  | _ => invalid
  end.

Definition parseMappingArgs (args : list any) : res goerr (string * Z * Z * string) :=
  '(queue, args) ← match args with
                   | [q; _; _; _] => s ← arg (asString q); Ok (s, tail args)
                   | _ => Ok ("", args)
                   end;
  match args with
  | [p; u; r] =>
      proxyID ← arg (asInt p); upstreamID ← arg (asInt u); uri ← arg (asString r);
      Ok (queue, proxyID, upstreamID, uri)
  | _ => invalid
  end.

(** The optional queue in front: a string followed by an integer, when there
    are at least [n] arguments. *)
Definition queuePrefix (n : nat) (args : list any) : string * list any :=
  match args with
  | q :: i :: rest =>
      if (n <=? length args)%nat then
        match asString q, asInt i with
        | Some s, Some _ => (s, i :: rest)
        | _, _ => ("", args)
        end
      else ("", args)
  | _ => ("", args)
  end.

(** The trailing times and strings: the last time, the first non-empty string. *)
Fixpoint reasonAndTime (reason : string) (at_ : time) (args : list any) : res goerr (string * time) :=
  match args with
  | [] => Ok (reason, at_)
  | ATime t :: r => reasonAndTime reason t r
  | AString s :: r => reasonAndTime (or_str reason s) at_ r
  | _ => invalid
  end.

Definition parseUncertainArgs (args : list any) : res goerr (string * Z * string * time) :=
  let '(queue, args) := queuePrefix 2 args in
  match args with
  | [] => invalid
  | p :: rest =>
      proxyID ← arg (asInt p);
      '(reason, at_) ← reasonAndTime "" 0 rest;
      Ok (queue, proxyID, reason, at_)
  end.

Definition parseObservedArgs (args : list any) : res goerr (string * Z * string * string * time) :=
  let '(queue, args) := queuePrefix 3 args in
  match args with
  | p :: o :: rest =>
      proxyID ← arg (asInt p);
      observed ← arg (asString o);
      '(error, at_) ← reasonAndTime "" 0 rest;
      Ok (queue, proxyID, observed, error, at_)
  | _ => invalid
  end.

(** The loop of [parseTerminalArgs]: the state, the error, the time and the
    number of strings seen. *)
Fixpoint terminalLoop (st err : string) (at_ : time) (seen : nat) (args : list any)
    : res goerr (string * string * time * nat) :=
  match args with
  | [] => Ok (st, err, at_, seen)
  | ATime t :: r => terminalLoop st err t seen r
  | AString s :: r =>
      match seen with
      | 0%nat => terminalLoop s err at_ 1 r
      | 1%nat => terminalLoop st s at_ 2 r
      | 2%nat => terminalLoop st s at_ 3 r
      | _ => terminalLoop st err at_ (S seen) r
      end
  | _ => invalid
  end.

Definition strings_of (args : list any) : list string :=
  omap (fun a => match a with AString s => Some s | _ => None end) args.

Definition parseTerminalArgs (args : list any) : res goerr (string * Z * string * string * string * time) :=
  let '(queue, args) := queuePrefix 2 args in
  match args with
  | [] => invalid
  | p :: rest =>
      proxyID ← arg (asInt p);
      '(st, err, at_, seen) ← terminalLoop "" "" 0 0 rest;
      match strings_of rest with
      | a :: b :: c :: _ => Ok (queue, proxyID, a, b, c, at_)
      | _ => Ok (queue, proxyID, st, "", err, at_)
      end
  end.

Definition parseDocumentArgs (args : list any)
    : res goerr (string * Z * string * Z * option Z * Z * option Z * bool) :=
  let '(queue, args) := queuePrefix 2 args in
  match args with
  | [p; f; b; pc; c; im; l] =>
      proxyID ← arg (asInt p);
      format ← arg (asString f);
      payloadBytes ← arg (asInt64 b);
      pageCount ← arg (asOptionalInt pc);
      copies ← arg (asInt c);
      impressions ← arg (asOptionalInt im);
      lastDocument ← arg (match l with ABool v => Some v | _ => None end);
      Ok (queue, proxyID, format, payloadBytes, pageCount, copies, impressions, lastDocument)
  | _ => invalid
  end.

Definition zeroFilter : JobFilter := {|
  fQueue := ""; fQueueOwner := ""; fRequestingUser := ""; fUser := ""; fRequestingUserName := "";
  fState := ""; fStates := []; fObservedState := ""; fProxyJobID := 0; fUpstreamJobID := 0;
  fCreatedAfter := 0; fCreatedBefore := 0; fUpdatedAfter := 0; fUpdatedBefore := 0;
  fTerminalBefore := 0; fTerminalAfter := 0; fIncludeTerminal := false; fExcludeTerminal := false;
  fLimit := 0; fOffset := 0 |}.

Definition mergeJobFilters (base extra : JobFilter) : JobFilter := {|
  fQueue := or_str (fQueue extra) (fQueue base);
  fQueueOwner := or_str (fQueueOwner extra) (fQueueOwner base);
  fRequestingUser := or_str (fRequestingUser extra) (fRequestingUser base);
  fUser := or_str (fUser extra) (fUser base);
  fRequestingUserName := or_str (fRequestingUserName extra) (fRequestingUserName base);
  fState := or_str (fState extra) (fState base);
  fStates := match fStates extra with [] => fStates base | l => l end;
  fObservedState := or_str (fObservedState extra) (fObservedState base);
  fProxyJobID := or_int (fProxyJobID extra) (fProxyJobID base);
  fUpstreamJobID := or_int (fUpstreamJobID extra) (fUpstreamJobID base);
  fCreatedAfter := or_int (fCreatedAfter extra) (fCreatedAfter base);
  fCreatedBefore := or_int (fCreatedBefore extra) (fCreatedBefore base);
  fUpdatedAfter := or_int (fUpdatedAfter extra) (fUpdatedAfter base);
  fUpdatedBefore := or_int (fUpdatedBefore extra) (fUpdatedBefore base);
  fTerminalBefore := or_int (fTerminalBefore extra) (fTerminalBefore base);
  fTerminalAfter := or_int (fTerminalAfter extra) (fTerminalAfter base);
  fIncludeTerminal := fIncludeTerminal extra || fIncludeTerminal base;
  fExcludeTerminal := fExcludeTerminal extra || fExcludeTerminal base;
  fLimit := or_int (fLimit extra) (fLimit base);
  fOffset := or_int (fOffset extra) (fOffset base)
|}.

Definition set_fQueue (q user : string) (f : JobFilter) : JobFilter := {|
  fQueue := q; fQueueOwner := fQueueOwner f; fRequestingUser := user; fUser := fUser f;
  fRequestingUserName := fRequestingUserName f; fState := fState f; fStates := fStates f;
  fObservedState := fObservedState f; fProxyJobID := fProxyJobID f; fUpstreamJobID := fUpstreamJobID f;
  fCreatedAfter := fCreatedAfter f; fCreatedBefore := fCreatedBefore f; fUpdatedAfter := fUpdatedAfter f;
  fUpdatedBefore := fUpdatedBefore f; fTerminalBefore := fTerminalBefore f;
  fTerminalAfter := fTerminalAfter f; fIncludeTerminal := fIncludeTerminal f;
  fExcludeTerminal := fExcludeTerminal f; fLimit := fLimit f; fOffset := fOffset f |}.

Fixpoint parseJobFilterLoop (filter : JobFilter) (args : list any) : res goerr JobFilter :=
  match args with
  | [] => Ok filter
  | AFilter f :: r => parseJobFilterLoop (mergeJobFilters filter f) r
  | AString s :: r =>
      if (fQueue filter =? "")%string then parseJobFilterLoop (set_fQueue s (fRequestingUser filter) filter) r
      else if (fRequestingUser filter =? "")%string then parseJobFilterLoop (set_fQueue (fQueue filter) s filter) r
      else invalid
  | _ => invalid
  end.
Definition parseJobFilterArgs (args : list any) : res goerr JobFilter := parseJobFilterLoop zeroFilter args.

Fixpoint reconcileLoop (at_ : time) (limit : Z) (args : list any) : res goerr (time * Z) :=
  match args with
  | [] => Ok (at_, limit)
  | ATime t :: r => reconcileLoop t limit r
  | AInt (KInt | KInt64) z :: r => reconcileLoop at_ z r
  | _ => invalid
  end.
Definition parseReconcileArgs (now : time) (args : list any) : res goerr (string * time * Z) :=
  let '(queue, args) := match args with AString s :: r => (s, r) | _ => ("", args) end in
  '(at_, limit) ← reconcileLoop now 100 args;
  Ok (queue, at_, limit).

Definition parseIDTimeArgs (args : list any) : res goerr (Z * time) :=
  match args with
  | [a] => id ← arg (asInt a); Ok (id, 0)
  | [a; t] => id ← arg (asInt a); at_ ← arg (match t with ATime v => Some v | _ => None end); Ok (id, at_)
  | _ => invalid
  end.

Definition parseCleanupCutoff (now : time) (v : any) : res goerr time :=
  match v with
  | ATime t => if IsZero t then Ok (now - DefaultRetention) else Ok t
  | ADuration d => let d := if d <=? 0 then DefaultRetention else d in Ok (now - d)
  | ANil => Ok (now - DefaultRetention)
  | _ => invalid
  end.

(** ** Statements *)

Abbreviation SM := (M Store goerr).

(** The rows of a scope: an id, and a queue when it is given. *)
Definition in_scope (q : string) (id : Z) (r : row) : bool :=
  (proxy_job_id r =? id) && ((q =? "")%string || (queue r =? q)%string).

(** The unique index on (queue, upstream_job_id) WHERE NOT NULL. *)
Definition same_mapping (r r' : row) : bool :=
  match upstream_job_id r, upstream_job_id r' with
  | Some a, Some b => (a =? b) && (queue r =? queue r')%string
  | _, _ => false
  end.
Fixpoint unique_mappings (l : list row) : bool :=
  match l with
  | [] => true
  | r :: rest => negb (existsb (same_mapping r) rest) && unique_mappings rest
  end.

(** [UPDATE jobs SET f WHERE p]: the number of rows affected. *)
Definition exec_update (p : row -> bool) (f : row -> row) : SM Z := fun s =>
  let l := map (fun r => if p r then f r else r) (rows s) in
  if unique_mappings l
  then (Done (zlen (List.filter p (rows s))), {| rows := l; seq := seq s |})
  else (Fail_ ErrUnique, s).

(** [DELETE FROM jobs WHERE p] *)
Definition exec_delete (p : row -> bool) : SM Z := fun s =>
  (Done (zlen (List.filter p (rows s))),
   {| rows := List.filter (fun r => negb (p r)) (rows s); seq := seq s |}).

(** [INSERT INTO jobs]: the new row gets the next id of the sequence. *)
Definition exec_insert (r : row) : SM Z := fun s =>
  let id := seq s + 1 in
  let l := rows s ++ [set_id id r] in
  if unique_mappings l then (Done id, {| rows := l; seq := id |}) else (Fail_ ErrUnique, s).

(** [SELECT ... WHERE p], and the first row of one. *)
Definition query (p : row -> bool) : SM (list row) := gets (fun s => List.filter p (rows s)).
Definition query_row (p : row -> bool) : SM row :=
  l ← query p;
  match l with r :: _ => mret r | [] => throw ErrNoRows end.

(** A transaction: on an error the store is rolled back. *)
Definition tx {A} (m : SM A) : SM A := fun s =>
  match m s with
  | (Done a, s') => (Done a, s')
  | (o, _) => (o, s)
  end.

Definition lift_res {A} (r : res goerr A) : SM A := match r with Ok a => mret a | Err e => throw e end.

(** [if affected == 0 { return sql.ErrNoRows }] *)
Definition some_affected (n : Z) : SM unit := if n =? 0 then throw ErrNoRows else mret tt.

(** ** Creating jobs *)

Definition withCreateDefaults (now : time) (job : Job) : Job :=
  let t := times job in
  let p := payload job in
  let created := if IsZero (CreatedAt t) then now else CreatedAt t in
  let updated := if IsZero (UpdatedAt t) then now else UpdatedAt t in
  let terminal :=
    if IsTerminalState (State (life job)) && bool_decide (TerminalAt t = None)
    then Some updated else TerminalAt t in {|
    ProxyJobID := ProxyJobID job; UpstreamJobID := UpstreamJobID job;
    HasUpstreamJobID := HasUpstreamJobID job; UpstreamJobURI := UpstreamJobURI job;
    HasUpstreamJobURI := HasUpstreamJobURI job; names := names job;
    DocumentFormat := DocumentFormat job; UpstreamDocumentFormat := UpstreamDocumentFormat job;
    routeFields := routeFields job; Route := Route job; life := life job;
    payload := {|
      PayloadBytes := PayloadBytes p; PageCount := PageCount p;
      Copies := if Copies p =? 0 then 1 else Copies p;
      EstimatedImpressions := EstimatedImpressions p;
      DocumentCount := if (DocumentCount p =? 0) && (0 <? PayloadBytes p) then 1 else DocumentCount p;
      LastDocument := LastDocument p |};
    times := {|
      CreatedAt := created; UpdatedAt := updated; TerminalAt := terminal;
      ReconcileAt := ReconcileAt t; LastReconcileAt := LastReconcileAt t;
      NextReconcileAt := NextReconcileAt t |}
  |}.

(** The values of the INSERT statement. *)
Definition row_of_job (job : Job) : row :=
  let t := times job in {|
    proxy_job_id := 0;
    upstream_job_id := nullableUpstreamID job;
    upstream_job_uri := nullableUpstreamURI job;
    r_names := names job;
    document_format := DocumentFormat job;
    upstream_document_format := UpstreamDocumentFormat job;
    r_route := routeFields job;
    r_life := life job;
    r_payload := payload job;
    r_times := {|
      created_at := formatTime (CreatedAt t); updated_at := formatTime (UpdatedAt t);
      terminal_at := nullableTime (TerminalAt t); reconcile_at := nullableTime (ReconcileAt t);
      last_reconcile_at := nullableTime (LastReconcileAt t);
      next_reconcile_at := nullableTime (NextReconcileAt t) |}
  |}.

Definition CreateJob (now : time) (job : Job) : SM Z :=
  exec_insert (row_of_job (withCreateDefaults now (normalizeRoute job))).

(** The fields [Reserve] clears before it creates the job. *)
Definition reservation (job : Job) : Job := {|
  ProxyJobID := ProxyJobID job; UpstreamJobID := 0; HasUpstreamJobID := false;
  UpstreamJobURI := ""; HasUpstreamJobURI := false; names := names job;
  DocumentFormat := DocumentFormat job; UpstreamDocumentFormat := UpstreamDocumentFormat job;
  routeFields := routeFields job; Route := Route job;
  life := {| State := StateReserved; ObservedState := ""; ObservedError := "" |};
  payload := zeroPayload (Copies (payload job));
  times := times job |}.

Definition Reserve (now : time) (args : list any) : SM Z :=
  job ← lift_res (parseReservationArgs args);
  CreateJob now (reservation job).

(** ** Reading jobs *)

Definition scanJob (r : row) : Job :=
  let rt := r_route r in
  let t := r_times r in
  normalizeRoute {|
    ProxyJobID := proxy_job_id r;
    UpstreamJobID := match upstream_job_id r with Some id => id | None => 0 end;
    HasUpstreamJobID := match upstream_job_id r with Some _ => true | None => false end;
    UpstreamJobURI := match upstream_job_uri r with Some u => u | None => "" end;
    HasUpstreamJobURI := match upstream_job_uri r with Some _ => true | None => false end;
    names := r_names r;
    DocumentFormat := document_format r;
    UpstreamDocumentFormat := upstream_document_format r;
    routeFields := {|
      RouteKind := RouteKind rt; RouteMapping := RouteMapping rt; RouteMediaName := RouteMediaName rt;
      RouteMediaWidth := u32 (RouteMediaWidth rt); RouteMediaHeight := u32 (RouteMediaHeight rt);
      RouteMediaType := RouteMediaType rt; RouteMediaSource := u32 (RouteMediaSource rt);
      RouteResolutionX := u32 (RouteResolutionX rt); RouteResolutionY := u32 (RouteResolutionY rt);
      RoutePrintQuality := u32 (RoutePrintQuality rt); RouteSides := RouteSides rt;
      RouteSheetBack := RouteSheetBack rt |};
    Route := zeroRoute;
    life := r_life r;
    payload := r_payload r;
    times := {|
      CreatedAt := parseTime (Some (created_at t)); UpdatedAt := parseTime (Some (updated_at t));
      TerminalAt := parseNullableTime (terminal_at t); ReconcileAt := parseNullableTime (reconcile_at t);
      LastReconcileAt := parseNullableTime (last_reconcile_at t);
      NextReconcileAt := parseNullableTime (next_reconcile_at t) |}
  |}.

Definition GetByProxyID (args : list any) : SM Job :=
  '(q, id) ← lift_res (parseScopedID args);
  r ← query_row (in_scope q id);
  mret (scanJob r).

Definition SelectedRoute (q : string) (proxyID : Z) : SM DocumentRoute :=
  job ← GetByProxyID [AString q; AInt KInt proxyID];
  mret (routeFromJob job).

Definition GetByUpstreamID (args : list any) : SM Job :=
  '(q, id) ← lift_res (parseScopedID args);
  r ← query_row (fun r => bool_decide (upstream_job_id r = Some id) && ((q =? "")%string || (queue r =? q)%string));
  mret (scanJob r).

Definition GetByUpstreamURI (args : list any) : SM Job :=
  '(q, uri) ← lift_res (parseScopedString args);
  r ← query_row (fun r => bool_decide (upstream_job_uri r = Some uri) && ((q =? "")%string || (queue r =? q)%string));
  mret (scanJob r).

(** ** Changing jobs *)

Definition UpdateRoute (now : time) (q : string) (proxyID : Z) (route : DocumentRoute) : SM unit :=
  let job := normalizeRoute {|
    ProxyJobID := 0; UpstreamJobID := 0; HasUpstreamJobID := false; UpstreamJobURI := "";
    HasUpstreamJobURI := false; names := names (newJob "" "" "" "" 0);
    DocumentFormat := ClientDocumentFormat route; UpstreamDocumentFormat := "";
    routeFields := flatten zeroRoute; Route := route; life := life (newJob "" "" "" "" 0);
    payload := zeroPayload 0; times := zeroTimes |} in
  let route := routeFromJob job in
  tx (
    r ← query_row (in_scope q proxyID);
    if IsTerminalState (state r) then throw ErrInvalidTransition
    else
      n ← exec_update (in_scope q proxyID) (fun r =>
        set_times (set_updated (formatTime now) (r_times r))
          (set_formats (if negb (ClientDocumentFormat route =? "")%string
                        then ClientDocumentFormat route else document_format r)
             (rUpstreamDocumentFormat route) (flatten route) r));
      some_affected n).

(** The UPDATE of [markMapped]: a broken unique index is a mapping conflict. *)
Definition exec_update_mapped (p : row -> bool) (f : row -> row) : SM Z := fun s =>
  match exec_update p f s with
  | (Fail_ err, s') => (Fail_ (if isUniqueViolation err then ErrMappingConflict else err), s')
  | r => r
  end.

Definition markMapped (now : time) (q : string) (proxyID upstreamID : Z) (upstreamURI : string) : SM unit :=
  tx (
    r ← query_row (in_scope q proxyID);
    if IsTerminalState (state r) then throw ErrInvalidTransition
    else if match upstream_job_id r with
            | Some current => negb (upstreamID =? 0) && negb (current =? upstreamID)
            | None => false
            end then throw ErrMappingConflict
    else if match upstream_job_uri r with
            | Some current => negb (upstreamURI =? "")%string && negb (current =? upstreamURI)%string
            | None => false
            end then throw ErrMappingConflict
    else
      when (negb (upstreamID =? 0)) (
        (* the duplicate check is scoped to the queue of the row *)
        owner ← query (fun r' => proxy_job_id r' =? proxyID);
        dup ← query (fun r' => bool_decide (upstream_job_id r' = Some upstreamID) &&
                 negb (proxy_job_id r' =? proxyID) &&
                 match owner with o :: _ => (queue r' =? queue o)%string | [] => false end);
        match dup with [] => mret tt | _ => throw ErrMappingConflict end);;
      n ← exec_update_mapped (in_scope q proxyID) (fun r =>
          set_mapping (nullableIntValue upstreamID) (nullableStringValue upstreamURI)
            (set_life {| State := StateMapped; ObservedState := ObservedState (r_life r); ObservedError := "" |}
              (set_times (set_reconcile None (last_reconcile_at (r_times r)) None
                           (set_updated (formatTime now) (r_times r))) r)));
      some_affected n).

Definition MarkMapped (now : time) (args : list any) : SM unit :=
  '(q, proxyID, upstreamID, uri) ← lift_res (parseMappingArgs args);
  markMapped now q proxyID upstreamID uri.

Definition MarkMappedNullable (now : time) (proxyID : Z) (upstreamID : option Z) (uri : option string) : SM unit :=
  markMapped now "" proxyID (default 0 upstreamID) (default "" uri).

Definition MarkUncertain (now : time) (args : list any) : SM unit :=
  '(q, proxyID, reason, at_) ← lift_res (parseUncertainArgs args);
  let at_ := timeOrNow now at_ in
  tx (
    r ← query_row (in_scope q proxyID);
    if IsTerminalState (state r) then throw ErrInvalidTransition
    else
      n ← exec_update (in_scope q proxyID) (fun r =>
        set_life {| State := StateUncertain; ObservedState := ObservedState (r_life r); ObservedError := reason |}
          (set_times (set_reconcile (Some (formatTime at_)) (last_reconcile_at (r_times r)) (Some (formatTime at_))
                       (set_updated (formatTime at_) (r_times r))) r));
      some_affected n).

(** [lower(state) NOT IN (...)]: SQLite's [lower] is the ASCII one. *)
Definition active_sql (r : row) : bool :=
  bool_decide (terminal_at (r_times r) = None) && negb (in_strings (ToLower (state r)) terminalStates).

Definition coalesce {A} (a b : option A) : option A := match a with Some _ => a | None => b end.

Definition markTerminalParsed (now : time) (args : list any) : SM unit :=
  '(q, proxyID, terminalState, observedState, observedError, at_) ← lift_res (parseTerminalArgs args);
  let observedState :=
    if (observedState =? "")%string && negb (terminalState =? "")%string &&
       negb (terminalState =? StateTerminal)%string then terminalState else observedState in
  let at_ := timeOrNow now at_ in
  n ← exec_update (in_scope q proxyID) (fun r =>
    set_life {| State := StateTerminal; ObservedState := observedState; ObservedError := observedError |}
      (set_times (set_reconcile None (last_reconcile_at (r_times r)) None
        (set_terminal_at (coalesce (terminal_at (r_times r)) (Some (formatTime at_)))
          (set_updated (formatTime at_) (r_times r)))) r));
  some_affected n.

Definition MarkTerminal (now : time) (args : list any) : SM unit := markTerminalParsed now args.

(** The lookup after an UPDATE that affected no row. *)
Definition refuse_or_missing (p : row -> bool) : SM unit :=
  r ← query_row p;
  if bool_decide (is_Some (terminal_at (r_times r))) || IsTerminalState (state r)
  then throw ErrInvalidTransition else throw ErrNoRows.

Definition UpdateObserved (now : time) (args : list any) : SM unit :=
  '(q, proxyID, observedState, observedError, at_) ← lift_res (parseObservedArgs args);
  if IsTerminalState observedState then
    markTerminalParsed now
      ((if (q =? "")%string then [] else [AString q]) ++
       [AInt KInt proxyID; AString observedState; AString observedState; AString observedError] ++
       (if IsZero at_ then [] else [ATime at_]))
  else
    n ← exec_update (fun r => in_scope q proxyID r && active_sql r) (fun r =>
      set_life {| State := state r; ObservedState := observedState; ObservedError := observedError |}
        (set_times (set_updated (formatTime (timeOrNow now at_)) (r_times r)) r));
    if n =? 0 then refuse_or_missing (in_scope q proxyID) else mret tt.

(** [queue = ? AND proxy_job_id = ?], the queue not optional. *)
Definition in_queue (q : string) (id : Z) (r : row) : bool :=
  (queue r =? q)%string && (proxy_job_id r =? id).

Definition UpdateState (now : time) (q : string) (proxyJobID : Z) (st : string) : SM unit :=
  if IsTerminalState st then
    n ← exec_update (in_queue q proxyJobID) (fun r =>
      set_life {| State := st;
                  ObservedState := if (st =? "")%string then ObservedState (r_life r) else st;
                  ObservedError := ObservedError (r_life r) |}
        (set_times (set_reconcile None (last_reconcile_at (r_times r)) None
          (set_terminal_at (coalesce (terminal_at (r_times r)) (Some (formatTime now)))
            (set_updated (formatTime now) (r_times r)))) r));
    some_affected n
  else
    n ← exec_update (fun r => in_queue q proxyJobID r && active_sql r) (fun r =>
      set_life {| State := st; ObservedState := ObservedState (r_life r); ObservedError := ObservedError (r_life r) |}
        (set_times (set_updated (formatTime now) (r_times r)) r));
    if n =? 0 then refuse_or_missing (in_queue q proxyJobID) else mret tt.

(** [c + ?] on a nullable counter: NULL leaves it, the first value sets it. *)
Definition add_count (c v : option Z) : option Z :=
  match v, c with
  | None, _ => c
  | Some v, None => Some v
  | Some v, Some c => Some (c + v)
  end.

Definition UpdateDocument (now : time) (args : list any) : SM unit :=
  '(q, proxyID, format, payloadBytes, pageCount, copies, impressions, lastDocument)
    ← lift_res (parseDocumentArgs args);
  let copies := if copies =? 0 then 1 else copies in
  n ← exec_update (in_scope q proxyID) (fun r =>
    let p := r_payload r in
    set_times (set_updated (formatTime now) (r_times r))
      (set_payload (if (format =? "")%string then document_format r else format) {|
         PayloadBytes := PayloadBytes p + payloadBytes;
         PageCount := add_count (PageCount p) pageCount;
         Copies := copies;
         EstimatedImpressions := add_count (EstimatedImpressions p) impressions;
         DocumentCount := DocumentCount p + (if 0 <? payloadBytes then 1 else 0);
         LastDocument := lastDocument || LastDocument p |} r));
  some_affected n.

Definition UpdatePayloadMetadataWithLastDocument (now : time) (q : string) (proxyJobID : Z) (format : string)
    (payloadBytes : Z) (pageCount : option Z) (copies : Z) (impressions : option Z) (last : bool) : SM unit :=
  UpdateDocument now [AString q; AInt KInt proxyJobID; AString format; AInt KInt64 payloadBytes;
    AIntPtr pageCount; AInt KInt copies; AIntPtr impressions; ABool last].

Definition UpdatePayloadMetadata (now : time) (q : string) (proxyJobID : Z) (format : string)
    (payloadBytes : Z) (pageCount : option Z) (copies : Z) (impressions : option Z) : SM unit :=
  UpdatePayloadMetadataWithLastDocument now q proxyJobID format payloadBytes pageCount copies impressions false.

(** ** Listing jobs *)

Definition str_le (a b : string) : bool := match String.compare a b with Gt => false | _ => true end.
Definition str_lt (a b : string) : bool := match String.compare a b with Lt => true | _ => false end.

(** The ORDER BY clauses: a text, then the id. *)
Definition order_le (key : row -> string) (a b : row) : bool :=
  match String.compare (key a) (key b) with
  | Lt => true
  | Eq => proxy_job_id a <=? proxy_job_id b
  | Gt => false
  end.
Fixpoint insert_row (le : row -> row -> bool) (x : row) (l : list row) : list row :=
  match l with
  | [] => [x]
  | y :: r => if le x y then x :: l else y :: insert_row le x r
  end.
Definition sort_rows (le : row -> row -> bool) (l : list row) : list row := foldr (insert_row le) [] l.

(** [LIMIT n OFFSET k], each only when positive. *)
Definition limit_rows (limit offset : Z) (l : list row) : list row :=
  let l := if 0 <? offset then drop (Z.to_nat offset) l else l in
  if 0 <? limit then take (Z.to_nat limit) l else l.

Definition when_str (v : string) (p : bool) : bool := (v =? "")%string || p.
Definition when_time (t : time) (p : bool) : bool := IsZero t || p.
Definition terminal_text (p : string -> bool) (r : row) : bool :=
  match terminal_at (r_times r) with Some t => p t | None => false end.

(** The WHERE clause [ListJobs] builds from a filter. *)
Definition filter_matches (f : JobFilter) (r : row) : bool :=
  let user := or_str (or_str (fRequestingUser f) (fUser f)) (fRequestingUserName f) in
  when_str (fQueue f) (queue r =? fQueue f)%string &&
  when_str (fQueueOwner f) (QueueOwner (r_names r) =? fQueueOwner f)%string &&
  when_str user (RequestingUser (r_names r) =? user)%string &&
  when_str (fState f) (state r =? fState f)%string &&
  match fStates f with [] => true | l => in_strings (state r) l end &&
  when_str (fObservedState f) (ObservedState (r_life r) =? fObservedState f)%string &&
  ((fProxyJobID f =? 0) || (proxy_job_id r =? fProxyJobID f)) &&
  ((fUpstreamJobID f =? 0) || bool_decide (upstream_job_id r = Some (fUpstreamJobID f))) &&
  when_time (fCreatedAfter f) (str_lt (formatTime (fCreatedAfter f)) (created_at (r_times r))) &&
  when_time (fCreatedBefore f) (str_lt (created_at (r_times r)) (formatTime (fCreatedBefore f))) &&
  when_time (fUpdatedAfter f) (str_lt (formatTime (fUpdatedAfter f)) (updated_at (r_times r))) &&
  when_time (fUpdatedBefore f) (str_lt (updated_at (r_times r)) (formatTime (fUpdatedBefore f))) &&
  when_time (fTerminalBefore f) (terminal_text (fun t => str_lt t (formatTime (fTerminalBefore f))) r) &&
  when_time (fTerminalAfter f) (terminal_text (fun t => str_lt (formatTime (fTerminalAfter f)) t) r) &&
  (negb (fExcludeTerminal f) || bool_decide (terminal_at (r_times r) = None)).

Definition ListJobs (args : list any) : SM (list Job) :=
  f ← lift_res (parseJobFilterArgs args);
  if fIncludeTerminal f && fExcludeTerminal f then throw ErrInvalidArgument
  else
    l ← query (filter_matches f);
    mret (map scanJob (limit_rows (fLimit f) (fOffset f)
      (sort_rows (order_le (fun r => created_at (r_times r))) l))).

Definition MyJobs (q requestingUser : string) : SM (list Job) :=
  ListJobs [AFilter (set_fQueue q requestingUser zeroFilter)].

Definition GetJobs (args : list any) : SM (list Job) :=
  f ← lift_res (parseJobFilterArgs args);
  ListJobs [AFilter f].

Record JobSummary := { Total : Z; ByQueue : gmap string Z; ByState : gmap string Z }.

(** [SELECT queue, state, COUNT] by queue and state: one row for each pair. *)
Definition group_counts (l : list row) : list (string * string * Z) :=
  map (fun k => (k, zlen (List.filter (fun r => bool_decide ((queue r, state r) = k)) l)))
    (remove_dups (map (fun r => (queue r, state r)) l)).

Definition add_to (k : string) (n : Z) (m : gmap string Z) : gmap string Z := <[k := default 0 (m !! k) + n]> m.

Definition summarize (groups : list (string * string * Z)) : JobSummary :=
  fold_left (fun s '(q, st, n) => {|
    Total := Total s + n; ByQueue := add_to q n (ByQueue s); ByState := add_to st n (ByState s) |})
    groups {| Total := 0; ByQueue := ∅; ByState := ∅ |}.

(** [None] is a nil store. *)
Definition SummarizeJobs (s : option Store) : res goerr JobSummary :=
  match s with
  | None => Err (EText "job store is unavailable")
  | Some s => Ok (summarize (group_counts (rows s)))
  end.

(** ** Reconciliation *)

Definition reconcile_key (r : row) : string :=
  let t := r_times r in
  default (updated_at t) (coalesce (next_reconcile_at t) (reconcile_at t)).

Definition due (at_ : time) (q : string) (r : row) : bool :=
  (state r =? StateUncertain)%string &&
  match next_reconcile_at (r_times r) with Some n => str_le n (formatTime at_) | None => true end &&
  ((q =? "")%string || (queue r =? q)%string).

Definition ReconciliationCandidates (now : time) (args : list any) : SM (list Job) :=
  '(q, at_, limit) ← lift_res (parseReconcileArgs now args);
  l ← query (due at_ q);
  mret (map scanJob (limit_rows limit 0 (sort_rows (order_le reconcile_key) l))).

Definition reconciliationBackoff (previousReconcile previousNext : time) : Z :=
  let backoff := reconciliationInitialBackoff in
  if IsZero previousReconcile || IsZero previousNext || negb (After previousNext previousReconcile)
  then backoff
  else
    let previousDelay := Sub previousNext previousReconcile in
    if reconciliationMaxBackoff <=? previousDelay then reconciliationMaxBackoff
    else if reconciliationMaxBackoff / 2 <? previousDelay then reconciliationMaxBackoff
    else
      let doubled := i64 (previousDelay * 2) in
      let backoff := if backoff <? doubled then doubled else backoff in
      if reconciliationMaxBackoff <? backoff then reconciliationMaxBackoff else backoff.

Definition has_id (id : Z) (r : row) : bool := proxy_job_id r =? id.

Definition MarkReconcileAttempt (now : time) (args : list any) : SM unit :=
  '(proxyID, at_) ← lift_res (parseIDTimeArgs args);
  let at_ := timeOrNow now at_ in
  tx (
    r ← query_row (has_id proxyID);
    let backoff := reconciliationBackoff (parseTime (reconcile_at (r_times r)))
                     (parseTime (next_reconcile_at (r_times r))) in
    let next := Add at_ backoff in
    n ← exec_update (fun r => has_id proxyID r && (state r =? StateUncertain)%string &&
                              bool_decide (terminal_at (r_times r) = None)) (fun r =>
      set_times (set_reconcile (Some (formatTime at_)) (Some (formatTime at_)) (Some (formatTime next))
                  (set_updated (formatTime at_) (r_times r))) r);
    if n =? 0 then
      r ← query_row (has_id proxyID);
      if bool_decide (is_Some (terminal_at (r_times r))) || IsTerminalState (state r) ||
         negb (state r =? StateUncertain)%string
      then throw ErrInvalidTransition else throw ErrNoRows
    else mret tt).

Definition MarkReconciled (now : time) (args : list any) : SM unit :=
  '(proxyID, at_) ← lift_res (parseIDTimeArgs args);
  let at_ := timeOrNow now at_ in
  n ← exec_update (has_id proxyID) (fun r =>
    set_times (set_reconcile None (Some (formatTime at_)) None (set_updated (formatTime at_) (r_times r))) r);
  some_affected n.

Definition ScheduleReconciliation (now : time) (args : list any) : SM unit :=
  '(proxyID, at_) ← lift_res (parseIDTimeArgs args);
  if IsZero at_ then throw ErrInvalidArgument
  else
    n ← exec_update (has_id proxyID) (fun r =>
      set_times (set_reconcile (Some (formatTime at_)) (last_reconcile_at (r_times r)) (Some (formatTime at_))
                  (set_updated (formatTime now) (r_times r))) r);
    some_affected n.

(** ** Retention *)

(** [state IN (...) AND COALESCE(terminal_at, updated_at) < cutoff] *)
Definition expired (cutoff : time) (r : row) : bool :=
  in_strings (state r) terminalStates &&
  str_lt (default (updated_at (r_times r)) (terminal_at (r_times r))) (formatTime cutoff).

Definition CleanupTerminalBefore (now : time) (cutoff : any) : SM Z :=
  cutoffTime ← lift_res (parseCleanupCutoff now cutoff);
  exec_delete (expired cutoffTime).

Definition CleanupExpired (now_ now : time) (retention : Z) : SM Z :=
  let now := timeOrNow now_ now in
  let retention := if retention <=? 0 then DefaultRetention else retention in
  CleanupTerminalBefore now_ (ATime (now - retention)).

Definition emptyStore : Store := {| rows := []; seq := 0 |}.
