(* ===== verification/StoreProofs.v ===== *)
(** * The job registry: invariants

    One call on the registry performs at most one write: [change] says which.
    Every operation of Store.v is shown to be a [change] that keeps the
    invariant [store_ok]; what happens to a row over any number of calls
    follows from that alone. *)

From Stdlib Require Import ZArith Lia Ascii String Sorted.
From stdpp Require Import base tactics list strings gmap sorting.
From S2P Require Import Prelude GoString GoError GoTime Store.

(** ** State names *)

Fixpoint no_space (s : string) : bool :=
  match s with EmptyString => true | String c r => negb (is_space c) && no_space r end.

Lemma lower_char_space c : is_space (lower_char c) = is_space c.
Proof.
  unfold lower_char. destruct (is_upper c) eqn:Hu; [|done].
  unfold is_upper in Hu. bool_to_prop. unfold is_space. rewrite code_chr by lia.
  repeat match goal with |- context [?a <=? ?b] => destruct (Z.leb_spec a b); try lia end;
  repeat match goal with |- context [?a =? ?b] => destruct (Z.eqb_spec a b); try lia end; done.
Qed.

Lemma no_space_lower s : no_space (ToLower s) = no_space s.
Proof. induction s as [|c r IH]; [done|]. cbn. by rewrite lower_char_space, <- IH. Qed.

Lemma no_space_trim s : no_space s = true -> TrimSpace s = s.
Proof.
  intros H. unfold TrimSpace. assert (trim_left_by is_space s = s) as ->.
  { destruct s as [|c r]; [done|]. cbn in *. by destruct (is_space c). }
  induction s as [|c r IH]; [done|]. cbn in *. bool_to_prop.
  rewrite IH by done. destruct r; [|done]. by destruct (is_space c).
Qed.

(** The spelling the SQL guards test is one [IsTerminalState] recognises. *)
Lemma terminal_spelling s : in_strings (ToLower s) terminalStates = true -> IsTerminalState s = true.
Proof.
  intros H. unfold IsTerminalState. rewrite no_space_trim; [done|].
  rewrite <- no_space_lower. apply in_strings_true in H.
  revert H. generalize (ToLower s). intros t H. unfold terminalStates in H.
  rewrite !elem_of_cons, elem_of_nil in H. destruct_or? H; subst; done.
Qed.

Lemma terminal_state_spelling s : in_strings s terminalStates = true -> IsTerminalState s = true.
Proof.
  intros H. apply in_strings_true in H. unfold terminalStates in H.
  rewrite !elem_of_cons, elem_of_nil in H. destruct_or? H; subst; vm_compute; done.
Qed.

(** ** The invariant *)

Record store_ok (s : Store) : Prop := {
  ok_seq : 0 <= seq s;
  ok_ids : forall r, r ∈ rows s -> 0 < proxy_job_id r <= seq s;
  ok_order : StronglySorted Z.lt (map proxy_job_id (rows s));
  ok_unique : unique_mappings (rows s) = true
}.

Lemma sorted_ids_inj l r r' : StronglySorted Z.lt (map proxy_job_id l) ->
  r ∈ l -> r' ∈ l -> proxy_job_id r = proxy_job_id r' -> r = r'.
Proof.
  induction l as [|x l IH]; cbn; intros Hs Hr Hr' Hid; [by apply not_elem_of_nil in Hr|].
  inversion Hs as [|? ? Hl Hx]; subst. rewrite List.Forall_forall in Hx.
  assert (forall y, y ∈ l -> proxy_job_id x < proxy_job_id y) as Hlt.
  { intros y Hy. apply Hx, in_map. by apply list_elem_of_In. }
  apply elem_of_cons in Hr as [->|Hr], Hr' as [->|Hr']; [done| | |by apply IH].
  - specialize (Hlt r' Hr'). lia.
  - specialize (Hlt r Hr). lia.
Qed.

Lemma unique_mappings_spec l : unique_mappings l = true ->
  forall r r' u, r ∈ l -> r' ∈ l -> upstream_job_id r = Some u -> upstream_job_id r' = Some u ->
  queue r = queue r' -> r = r'.
Proof.
  induction l as [|x l IH]; cbn; intros H r r' u Hr Hr' Hu Hu' Hq; [by apply not_elem_of_nil in Hr|].
  bool_to_prop.
  assert (forall y, y ∈ l -> same_mapping x y = false) as Hx.
  { intros y Hy. apply not_true_iff_false. intros E. apply not_true_iff_false in H. apply H.
    apply existsb_exists. exists y. by rewrite <- list_elem_of_In. }
  assert (forall y, y ∈ l -> upstream_job_id x = Some u -> upstream_job_id y = Some u -> queue x = queue y -> False) as Hno.
  { intros y Hy E1 E2 E3. specialize (Hx y Hy). unfold same_mapping in Hx. rewrite E1, E2, E3 in Hx.
    by rewrite Z.eqb_refl, String.eqb_refl in Hx. }
  apply elem_of_cons in Hr as [->|Hr], Hr' as [->|Hr']; [done|exfalso; eauto| |by eapply IH].
  exfalso. eauto.
Qed.

Lemma unique_mappings_intro l : NoDup l ->
  (forall r r' u, r ∈ l -> r' ∈ l -> upstream_job_id r = Some u -> upstream_job_id r' = Some u ->
     queue r = queue r' -> r = r') -> unique_mappings l = true.
Proof.
  induction l as [|x l IH]; cbn; intros Hnd H; [done|]. apply NoDup_cons in Hnd as [Hx Hnd].
  apply andb_true_iff. split.
  - apply negb_true_iff, not_true_iff_false. intros E. apply existsb_exists in E as (y & Hy & E).
    apply list_elem_of_In in Hy. unfold same_mapping in E.
    destruct (upstream_job_id x) eqn:E1, (upstream_job_id y) eqn:E2; try done. bool_to_prop. subst.
    apply Hx. rewrite (H x y z0); [done|set_solver..].
  - apply IH; [done|]. intros. eapply H; set_solver.
Qed.

Lemma sorted_ids_NoDup l : StronglySorted Z.lt (map proxy_job_id l) -> NoDup l.
Proof.
  induction l as [|x l IH]; cbn; intros Hs; [constructor|].
  inversion Hs as [|? ? Hl Hx]; subst. constructor; [|auto].
  intros Hin. rewrite List.Forall_forall in Hx. apply list_elem_of_In in Hin.
  specialize (Hx _ (in_map proxy_job_id _ _ Hin)). lia.
Qed.

(** ** Changes *)

(** A row that has ended: no operation brings it back to life. *)
Definition closed (r : row) : bool :=
  IsTerminalState (state r) &&
  (bool_decide (is_Some (terminal_at (r_times r))) || in_strings (ToLower (state r)) terminalStates).

(** What a row keeps, over any number of calls. *)
Record row_keep (r r' : row) : Prop := {
  keep_id : proxy_job_id r' = proxy_job_id r;
  keep_names : r_names r' = r_names r;
  keep_created : created_at (r_times r') = created_at (r_times r);
  keep_terminal_at : forall t, terminal_at (r_times r) = Some t -> terminal_at (r_times r') = Some t;
  keep_closed : closed r = true ->
    closed r' = true /\ upstream_job_id r' = upstream_job_id r /\
    upstream_job_uri r' = upstream_job_uri r /\ r_route r' = r_route r
}.

#[export] Instance row_keep_preorder : PreOrder row_keep.
Proof.
  split.
  - intros r. split; auto.
  - intros r1 r2 r3 [] []. split; try congruence; [auto|].
    intros Hc. destruct (keep_closed0 Hc) as (Hc2 & ? & ? & ?).
    destruct (keep_closed1 Hc2) as (? & ? & ? & ?). repeat split; congruence.
Qed.

(** What one update does to a row: its upstream identity is never replaced by
    another one. *)
Record row_step (r r' : row) : Prop := {
  step_keep : row_keep r r';
  step_id : forall u, upstream_job_id r = Some u -> upstream_job_id r' = Some u \/ upstream_job_id r' = None;
  step_uri : forall u, upstream_job_uri r = Some u -> upstream_job_uri r' = Some u \/ upstream_job_uri r' = None
}.

Lemma row_step_refl r : row_step r r.
Proof. split; [reflexivity|auto..]. Qed.

Inductive change (s : Store) : Store -> Prop :=
| change_none : change s s
| change_update (p : row -> bool) (f : row -> row) :
    (forall r, r ∈ rows s -> p r = true -> row_step r (f r)) ->
    unique_mappings (map (fun r => if p r then f r else r) (rows s)) = true ->
    change s {| rows := map (fun r => if p r then f r else r) (rows s); seq := seq s |}
| change_insert (r : row) :
    unique_mappings (rows s ++ [set_id (seq s + 1) r]) = true ->
    change s {| rows := rows s ++ [set_id (seq s + 1) r]; seq := seq s + 1 |}
| change_delete (p : row -> bool) :
    (forall r, p r = true -> in_strings (state r) terminalStates = true) ->
    change s {| rows := List.filter (fun r => negb (p r)) (rows s); seq := seq s |}.

Lemma elem_of_filter_bool {A} (p : A -> bool) l x : x ∈ List.filter p l <-> p x = true /\ x ∈ l.
Proof. rewrite !list_elem_of_In, filter_In. tauto. Qed.

Lemma sorted_filter (p : row -> bool) l : StronglySorted Z.lt (map proxy_job_id l) ->
  StronglySorted Z.lt (map proxy_job_id (List.filter p l)).
Proof.
  induction l as [|x l IH]; cbn; intros Hs; [constructor|].
  inversion Hs as [|? ? Hl Hx]; subst. rewrite List.Forall_forall in Hx.
  destruct (p x); cbn; [|auto]. constructor; [auto|]. apply List.Forall_forall.
  intros i Hi. apply Hx. apply in_map_iff in Hi as (y & <- & Hy). apply filter_In in Hy as [? ?]. by apply in_map.
Qed.

Lemma sorted_snoc l z : StronglySorted Z.lt l -> (forall y, y ∈ l -> y < z) -> StronglySorted Z.lt (l ++ [z]).
Proof.
  induction l as [|x l IH]; cbn; intros Hs Hz; [repeat constructor|].
  inversion Hs as [|? ? Hl Hx]; subst. rewrite List.Forall_forall in Hx. constructor.
  - apply IH; [done|]. intros; apply Hz; set_solver.
  - apply List.Forall_forall. intros y Hy. apply in_app_iff in Hy as [Hy|[<-|[]]]; [auto|]. apply Hz. set_solver.
Qed.

Lemma updated_ids (p : row -> bool) f l : (forall r, r ∈ l -> p r = true -> row_step r (f r)) ->
  map proxy_job_id (map (fun r => if p r then f r else r) l) = map proxy_job_id l.
Proof.
  induction l as [|x l IH]; cbn; intros H; [done|]. f_equal.
  - destruct (p x) eqn:Hp; [|done]. apply keep_id, step_keep, H; set_solver.
  - apply IH. intros; apply H; set_solver.
Qed.

Lemma change_ok s s' : store_ok s -> change s s' -> store_ok s'.
Proof.
  intros [Hq Hi Ho Hu] Hc. destruct Hc as [|p f Hf Hun|r Hun|p Hp]; [done|..].
  - split; cbn; [done| | |done].
    + intros r Hr. apply list_elem_of_In, in_map_iff in Hr as (y & <- & Hy). apply list_elem_of_In in Hy.
      specialize (Hi y Hy). destruct (p y) eqn:Hp; [|done]. by rewrite (keep_id _ _ (step_keep _ _ (Hf y Hy Hp))).
    + by rewrite updated_ids.
  - split; cbn [rows seq]; [lia| | |done].
    + intros y Hy. apply elem_of_app in Hy as [Hy|Hy]; [specialize (Hi y Hy); lia|].
      apply list_elem_of_singleton in Hy as ->. cbn. lia.
    + rewrite map_app. cbn. apply sorted_snoc; [done|]. intros y Hy.
      apply list_elem_of_In, in_map_iff in Hy as (z & <- & Hz). apply list_elem_of_In in Hz. specialize (Hi z Hz). lia.
  - split; cbn [rows seq]; [done| | |].
    + intros r Hr. apply elem_of_filter_bool in Hr as [_ Hr]. auto.
    + by apply sorted_filter.
    + apply unique_mappings_intro; [by apply sorted_ids_NoDup, sorted_filter|].
      intros r r' u Hr Hr'. apply elem_of_filter_bool in Hr as [_ Hr], Hr' as [_ Hr']. by apply unique_mappings_spec with (l := rows s).
Qed.

(** Where the rows of the new store come from. *)
Lemma change_rows s s' : store_ok s -> change s s' -> seq s <= seq s' /\
  forall r', r' ∈ rows s' -> seq s < proxy_job_id r' \/ exists r, r ∈ rows s /\ row_step r r'.
Proof.
  intros Hok Hc. destruct Hc as [|p f Hf Hun|r Hun|p Hp]; cbn [rows seq]; (split; [lia|]).
  - intros r' Hr'. right. exists r'. split; [done|apply row_step_refl].
  - intros r' Hr. right. apply list_elem_of_In, in_map_iff in Hr as (y & <- & Hy). apply list_elem_of_In in Hy.
    exists y. split; [done|]. destruct (p y) eqn:E; [auto|apply row_step_refl].
  - intros r' Hr. apply elem_of_app in Hr as [Hr|Hr]; [right; exists r'; split; [done|apply row_step_refl]|].
    left. apply list_elem_of_singleton in Hr as ->. cbn. lia.
  - intros r' Hr. apply elem_of_filter_bool in Hr as [_ Hr]. right. exists r'. split; [done|apply row_step_refl].
Qed.

(** ** Operations that only read *)

Class ReadOnly {A} (m : SM A) : Prop := read_only : forall s, snd (m s) = s.

#[export] Instance ro_ret A (a : A) : ReadOnly (mret a).
Proof. done. Qed.
#[export] Instance ro_throw A e : ReadOnly (throw e : SM A).
Proof. done. Qed.
#[export] Instance ro_gets A f : ReadOnly (gets f : SM A).
Proof. done. Qed.
#[export] Instance ro_lift A (r : res goerr A) : ReadOnly (lift_res r).
Proof. by destruct r. Qed.
#[export] Instance ro_bind A B (m : SM A) (f : A -> SM B) :
  ReadOnly m -> (forall a, ReadOnly (f a)) -> ReadOnly (m ≫= f).
Proof.
  intros Hm Hf s. specialize (Hm s). unfold mbind, M_bind. destruct (m s) as [o s']; cbn in Hm; subst.
  by destruct o; cbn; [apply Hf|..].
Qed.
#[export] Instance ro_if A (b : bool) (m n : SM A) : ReadOnly m -> ReadOnly n -> ReadOnly (if b then m else n).
Proof. by destruct b. Qed.
#[export] Instance ro_when b (m : SM unit) : ReadOnly m -> ReadOnly (when b m).
Proof. by destruct b. Qed.
#[export] Instance ro_list A B (l : list B) (m : SM A) (n : B -> list B -> SM A) :
  ReadOnly m -> (forall x r, ReadOnly (n x r)) -> ReadOnly (match l with [] => m | x :: r => n x r end).
Proof. by destruct l. Qed.
#[export] Instance ro_query p : ReadOnly (query p).
Proof. done. Qed.
#[export] Instance ro_query_row p : ReadOnly (query_row p).
Proof. unfold query_row. apply _. Qed.
#[export] Instance ro_affected n : ReadOnly (some_affected n).
Proof. unfold some_affected. apply _. Qed.
#[export] Instance ro_refuse p : ReadOnly (refuse_or_missing p).
Proof. unfold refuse_or_missing. apply _. Qed.

Lemma run_bind {A B} (m : SM A) (f : A -> SM B) s a s' : m s = (Done a, s') -> (m ≫= f) s = f a s'.
Proof. intros H. unfold mbind, M_bind. by rewrite H. Qed.

Lemma query_row_run p s : query_row p s =
  match List.filter p (rows s) with r :: _ => (Done r, s) | [] => (Fail_ ErrNoRows, s) end.
Proof. unfold query_row, query, mbind, M_bind, gets. by destruct (List.filter p (rows s)). Qed.

Lemma query_row_Done p s r s' : query_row p s = (Done r, s') -> s' = s /\ r ∈ rows s /\ p r = true.
Proof.
  rewrite query_row_run. destruct (List.filter p (rows s)) as [|x l] eqn:E; [done|]. intros [= -> ->].
  assert (r ∈ List.filter p (rows s')) as H by (rewrite E; set_solver).
  apply elem_of_filter_bool in H. naive_solver.
Qed.

(** ** Operations that write once *)

Definition writes {A} (m : SM A) : Prop := forall s, store_ok s -> change s (snd (m s)).

Lemma writes_read {A} (m : SM A) : ReadOnly m -> writes m.
Proof. intros H s _. rewrite H. constructor. Qed.

Lemma change_bind_read {A B} (m : SM A) (f : A -> SM B) s :
  ReadOnly m -> (forall a, m s = (Done a, s) -> change s (snd (f a s))) -> change s (snd ((m ≫= f) s)).
Proof.
  intros Hm Hf. specialize (Hm s). unfold mbind, M_bind. destruct (m s) as [o s'] eqn:E; cbn in Hm; subst.
  destruct o; [by apply Hf|constructor..].
Qed.

Lemma change_bind_write {A B} (m : SM A) (f : A -> SM B) s :
  change s (snd (m s)) -> (forall a, ReadOnly (f a)) -> change s (snd ((m ≫= f) s)).
Proof.
  intros Hm Hf. unfold mbind, M_bind. destruct (m s) as [o s'] eqn:E; cbn in Hm.
  destruct o; cbn; [by rewrite Hf|done..].
Qed.

Lemma change_tx {A} (m : SM A) s : change s (snd (m s)) -> change s (snd (tx m s)).
Proof. intros H. unfold tx. destruct (m s) as [[] s']; cbn in *; [done|constructor..]. Qed.

Lemma change_exec_update p f s :
  (forall r, r ∈ rows s -> p r = true -> row_step r (f r)) -> change s (snd (exec_update p f s)).
Proof.
  intros H. unfold exec_update. destruct (unique_mappings _) eqn:Hu; cbn; [by constructor|constructor].
Qed.

Lemma change_exec_update_mapped p f s :
  (forall r, r ∈ rows s -> p r = true -> row_step r (f r)) -> change s (snd (exec_update_mapped p f s)).
Proof.
  intros H. unfold exec_update_mapped. pose proof (change_exec_update p f s H) as Hc.
  by destruct (exec_update p f s) as [[] ?].
Qed.

(** A row an update does not end, and one it does. *)
Lemma row_step_open r r' :
  proxy_job_id r' = proxy_job_id r -> r_names r' = r_names r ->
  created_at (r_times r') = created_at (r_times r) ->
  terminal_at (r_times r') = terminal_at (r_times r) ->
  closed r = false ->
  (forall u, upstream_job_id r = Some u -> upstream_job_id r' = Some u \/ upstream_job_id r' = None) ->
  (forall u, upstream_job_uri r = Some u -> upstream_job_uri r' = Some u \/ upstream_job_uri r' = None) ->
  row_step r r'.
Proof. intros. split; [split|..]; [done|done|done|congruence|congruence|done|done]. Qed.

Lemma row_step_quiet r r' :
  proxy_job_id r' = proxy_job_id r -> r_names r' = r_names r ->
  created_at (r_times r') = created_at (r_times r) ->
  (forall t, terminal_at (r_times r) = Some t -> terminal_at (r_times r') = Some t) ->
  upstream_job_id r' = upstream_job_id r -> upstream_job_uri r' = upstream_job_uri r ->
  r_route r' = r_route r ->
  (closed r = true -> closed r' = true) ->
  row_step r r'.
Proof. intros. split; [split|..]; [done|done|done|done|naive_solver|intros; left; congruence..]. Qed.

(** The state and the terminal time are kept: the row stays closed. *)
Lemma closed_same r r' : state r' = state r ->
  (forall t, terminal_at (r_times r) = Some t -> terminal_at (r_times r') = Some t) ->
  closed r = true -> closed r' = true.
Proof.
  intros Hs Ht. unfold closed. rewrite Hs. intros [Hst H]%andb_true_iff. rewrite Hst, andb_true_l.
  apply orb_true_iff in H as [H|H].
  - apply bool_decide_eq_true_1 in H as [t Et]. by rewrite (Ht t Et).
  - rewrite H. apply orb_true_r.
Qed.

Lemma closed_terminal r : IsTerminalState (state r) = true -> is_Some (terminal_at (r_times r)) -> closed r = true.
Proof. intros H1 H2. unfold closed. by rewrite H1, bool_decide_true. Qed.

Lemma closed_active r : active_sql r = true -> closed r = false.
Proof.
  unfold active_sql, closed. intros [H1 H2]%andb_true_iff.
  apply bool_decide_eq_true_1 in H1. apply negb_true_iff in H2.
  rewrite H2, bool_decide_false by (intros [? ?]; congruence). apply andb_false_r.
Qed.

Lemma closed_not_terminal r : IsTerminalState (state r) = false -> closed r = false.
Proof. unfold closed. by intros ->. Qed.

(** The rows of a scope of one id are the row found. *)
Lemma scope_unique (p : row -> bool) s r r' id : store_ok s ->
  (forall x, p x = true -> proxy_job_id x = id) -> r ∈ rows s -> p r = true -> r' ∈ rows s -> p r' = true -> r' = r.
Proof. intros Hok Hp H1 H2 H3 H4. eapply sorted_ids_inj; [apply Hok|done..|]. rewrite !Hp; done. Qed.

Lemma in_scope_id q id r : in_scope q id r = true -> proxy_job_id r = id.
Proof. unfold in_scope. intros. bool_to_prop. done. Qed.
Lemma in_queue_id q id r : in_queue q id r = true -> proxy_job_id r = id.
Proof. unfold in_queue. intros. bool_to_prop. done. Qed.
Lemma has_id_id id r : has_id id r = true -> proxy_job_id r = id.
Proof. unfold has_id. intros. bool_to_prop. done. Qed.

(** ** Every operation is a change *)

Lemma exec_insert_writes r : writes (exec_insert r).
Proof. intros s _. unfold exec_insert. destruct (unique_mappings _) eqn:Hu; cbn; [by constructor|constructor]. Qed.

Lemma CreateJob_writes now job : writes (CreateJob now job).
Proof. apply exec_insert_writes. Qed.

Lemma lift_writes {A B} (r : res goerr A) (f : A -> SM B) :
  (forall a, r = Ok a -> writes (f a)) -> writes (lift_res r ≫= f).
Proof.
  intros H s Hok. destruct r as [a|e]; [|constructor].
  unfold mbind, M_bind. cbn. by apply (H a).
Qed.

Lemma Reserve_writes now args : writes (Reserve now args).
Proof. apply lift_writes. intros; apply CreateJob_writes. Qed.

(** A transaction that finds the row of an id, refuses it or updates it. *)
Lemma guarded_writes (p : row -> bool) (id : Z) (body : row -> SM unit) :
  (forall x, p x = true -> proxy_job_id x = id) ->
  (forall s r, store_ok s -> r ∈ rows s -> p r = true ->
     (forall r', r' ∈ rows s -> p r' = true -> r' = r) -> change s (snd (body r s))) ->
  writes (tx (query_row p ≫= body)).
Proof.
  intros Hp Hb s Hok. apply change_tx, change_bind_read; [apply _|].
  intros r Hr. apply query_row_Done in Hr as (_ & Hin & Hr). apply Hb; [done..|].
  intros. by eapply scope_unique.
Qed.

Lemma UpdateRoute_writes now q id route : writes (UpdateRoute now q id route).
Proof.
  unfold UpdateRoute. cbv zeta. apply guarded_writes with id; [apply in_scope_id|].
  intros s r Hok Hr Hs Huniq. destruct (IsTerminalState (state r)) eqn:Ht; [constructor|].
  apply change_bind_write; [|apply _]. apply change_exec_update. intros r' Hr' Hp'.
  rewrite (Huniq r' Hr' Hp'). apply row_step_open; try done; [by apply closed_not_terminal|auto..].
Qed.

Lemma nullable_step (current given : Z) :
  negb (given =? 0) && negb (current =? given) = false ->
  nullableIntValue given = Some current \/ nullableIntValue given = None.
Proof.
  unfold nullableIntValue. destruct (Z.eqb_spec given 0); cbn; [by right|].
  destruct (Z.eqb_spec current given); [|done]. left. congruence.
Qed.

Lemma nullable_string_step (current given : string) :
  negb (given =? "")%string && negb (current =? given)%string = false ->
  nullableStringValue given = Some current \/ nullableStringValue given = None.
Proof.
  unfold nullableStringValue. destruct (String.eqb_spec given ""); cbn; [by right|].
  destruct (String.eqb_spec current given); [|done]. left. congruence.
Qed.

Lemma markMapped_writes now q id up uri : writes (markMapped now q id up uri).
Proof.
  apply guarded_writes with id; [apply in_scope_id|].
  intros s r Hok Hr Hs Huniq. destruct (IsTerminalState (state r)) eqn:Ht; [constructor|].
  destruct (match upstream_job_id r with Some _ => _ | None => _ end) eqn:Hid; [constructor|].
  destruct (match upstream_job_uri r with Some _ => _ | None => _ end) eqn:Huri; [constructor|].
  apply change_bind_read; [apply _|intros [] _]. apply change_bind_write; [|apply _].
  apply change_exec_update_mapped. intros r' Hr' Hp'. rewrite (Huniq r' Hr' Hp').
  apply row_step_open; try done; [by apply closed_not_terminal|intros u Hu..].
  - rewrite Hu in Hid. by apply nullable_step.
  - rewrite Hu in Huri. by apply nullable_string_step.
Qed.

Lemma MarkMapped_writes now args : writes (MarkMapped now args).
Proof. apply lift_writes. intros [[[q id] up] uri] _. apply markMapped_writes. Qed.

Lemma MarkUncertain_writes now args : writes (MarkUncertain now args).
Proof.
  apply lift_writes. intros [[[q id] reason] at_] _. cbv zeta.
  apply guarded_writes with id; [apply in_scope_id|].
  intros s r Hok Hr Hs Huniq. destruct (IsTerminalState (state r)) eqn:Ht; [constructor|].
  apply change_bind_write; [|apply _]. apply change_exec_update. intros r' Hr' Hp'.
  rewrite (Huniq r' Hr' Hp'). apply row_step_open; try done; [by apply closed_not_terminal|auto..].
Qed.

Lemma coalesce_keep {A} (a b : option A) t : a = Some t -> coalesce a b = Some t.
Proof. by intros ->. Qed.
Lemma coalesce_Some {A} (a : option A) b : is_Some (coalesce a (Some b)).
Proof. by destruct a; eexists. Qed.
#[export] Hint Resolve coalesce_keep coalesce_Some row_step_refl : golib.

Lemma update_writes {B} p f (k : Z -> SM B) :
  (forall r, p r = true -> row_step r (f r)) -> (forall n, ReadOnly (k n)) ->
  writes (exec_update p f ≫= k).
Proof. intros Hf Hk s Hok. apply change_bind_write; [|done]. apply change_exec_update. auto. Qed.

Lemma markTerminalParsed_writes now args : writes (markTerminalParsed now args).
Proof.
  apply lift_writes. intros [[[[[q id] st] ob] err] at_] _. cbv zeta.
  apply update_writes; [|apply _]. intros r _. apply row_step_quiet; try done; cbn; eauto with golib.
  intros _. apply closed_terminal; [done|cbn; eauto with golib].
Qed.

Lemma UpdateObserved_writes now args : writes (UpdateObserved now args).
Proof.
  apply lift_writes. intros [[[[q id] ob] err] at_] _.
  destruct (IsTerminalState ob) eqn:Ht; [apply markTerminalParsed_writes|].
  apply update_writes; [|apply _]. intros r _. by apply row_step_quiet.
Qed.

Lemma UpdateState_writes now q id st : writes (UpdateState now q id st).
Proof.
  unfold UpdateState. destruct (IsTerminalState st) eqn:Ht.
  - apply update_writes; [|apply _]. intros r _. apply row_step_quiet; try done; cbn; eauto with golib.
    intros _. apply closed_terminal; [done|cbn; eauto with golib].
  - apply update_writes; [|apply _]. intros r Hr. apply andb_true_iff in Hr as [_ Ha].
    apply row_step_open; try done; [by apply closed_active|auto..].
Qed.

Lemma UpdateDocument_writes now args : writes (UpdateDocument now args).
Proof.
  apply lift_writes. intros [[[[[[[q id] fmt] bytes] pages] copies] impr] last] _. cbv zeta.
  apply update_writes; [|apply _]. intros r _. by apply row_step_quiet.
Qed.

Lemma MarkReconcileAttempt_writes now args : writes (MarkReconcileAttempt now args).
Proof.
  apply lift_writes. intros [id at_] _. cbv zeta.
  apply guarded_writes with id; [apply has_id_id|]. intros s r Hok Hr Hs Huniq. cbv zeta.
  apply change_bind_write; [|apply _]. apply change_exec_update. intros r' _ _.
  by apply row_step_quiet.
Qed.

Lemma MarkReconciled_writes now args : writes (MarkReconciled now args).
Proof.
  apply lift_writes. intros [id at_] _. cbv zeta. apply update_writes; [|apply _].
  intros r _. by apply row_step_quiet.
Qed.

Lemma ScheduleReconciliation_writes now args : writes (ScheduleReconciliation now args).
Proof.
  apply lift_writes. intros [id at_] _. destruct (IsZero at_); [apply writes_read, _|].
  apply update_writes; [|apply _].
  intros r _. by apply row_step_quiet.
Qed.

Lemma CleanupTerminalBefore_writes now cutoff : writes (CleanupTerminalBefore now cutoff).
Proof.
  apply lift_writes. intros t _ s Hok. unfold exec_delete. cbn [snd]. constructor.
  intros r Hr. by apply andb_true_iff in Hr as [? _].
Qed.

Lemma CleanupExpired_writes t now retention : writes (CleanupExpired t now retention).
Proof. apply CleanupTerminalBefore_writes. Qed.

(** ** Updates of one row *)

(** The store with the row of the id of [r'] replaced. *)
Definition set_row (r' : row) (s : Store) : Store :=
  {| rows := map (fun x => if proxy_job_id x =? proxy_job_id r' then r' else x) (rows s); seq := seq s |}.

Lemma filter_one (p : row -> bool) s r : store_ok s -> r ∈ rows s -> p r = true ->
  (forall x, p x = true -> proxy_job_id x = proxy_job_id r) -> List.filter p (rows s) = [r].
Proof.
  intros [_ _ Ho _] Hr Hp Hone. revert Ho Hr. generalize (rows s). intros l.
  induction l as [|x l IH]; cbn; intros Hs Hr; [by apply not_elem_of_nil in Hr|].
  inversion Hs as [|? ? Hl Hx]; subst. rewrite List.Forall_forall in Hx.
  assert (forall y, y ∈ l -> proxy_job_id x < proxy_job_id y) as Hlt.
  { intros y Hy. apply Hx, in_map. by apply list_elem_of_In. }
  apply elem_of_cons in Hr as [<-|Hr].
  - rewrite Hp. f_equal. destruct (List.filter p l) as [|y k] eqn:E; [done|].
    assert (y ∈ List.filter p l) as Hy by (rewrite E; left). apply elem_of_filter_bool in Hy as [Hy Hin].
    specialize (Hone y Hy). specialize (Hlt y Hin). lia.
  - destruct (p x) eqn:E; [|by apply IH]. specialize (Hone x E). specialize (Hlt r Hr). lia.
Qed.

Lemma filter_none {A} (p : A -> bool) l : (forall x, x ∈ l -> p x = false) -> List.filter p l = [].
Proof.
  induction l as [|x l IH]; cbn; intros H; [done|]. rewrite (H x) by set_solver. apply IH. set_solver.
Qed.

Lemma query_row_one p s r : store_ok s -> r ∈ rows s -> p r = true ->
  (forall x, p x = true -> proxy_job_id x = proxy_job_id r) -> query_row p s = (Done r, s).
Proof. intros. rewrite query_row_run. by rewrite (filter_one p s r). Qed.

Lemma map_set_row p f r s : store_ok s -> r ∈ rows s -> p r = true ->
  (forall x, p x = true -> proxy_job_id x = proxy_job_id r) -> proxy_job_id (f r) = proxy_job_id r ->
  map (fun x => if p x then f x else x) (rows s) = rows (set_row (f r) s).
Proof.
  intros Hok Hr Hp Hone Hf. cbn. apply map_ext_in. intros x Hx. apply list_elem_of_In in Hx. rewrite Hf.
  destruct (p x) eqn:E.
  - assert (x = r) as -> by (eapply sorted_ids_inj; [apply Hok|done..|auto]). by rewrite Z.eqb_refl.
  - destruct (Z.eqb_spec (proxy_job_id x) (proxy_job_id r)) as [Hid|]; [|done].
    assert (x = r) as -> by (eapply sorted_ids_inj; [apply Hok|done..]). congruence.
Qed.

(** The identities of the other rows leave room for the upstream id of [r']. *)
Definition no_clash (r' : row) (s : Store) : Prop :=
  forall x u, x ∈ rows s -> proxy_job_id x <> proxy_job_id r' -> queue x = queue r' ->
    upstream_job_id x = Some u -> upstream_job_id r' = Some u -> False.

Lemma no_clash_same r r' s : store_ok s -> r ∈ rows s -> proxy_job_id r' = proxy_job_id r ->
  r_names r' = r_names r -> upstream_job_id r' = upstream_job_id r \/ upstream_job_id r' = None -> no_clash r' s.
Proof.
  intros Hok Hr Hid Hn Hu x u Hx Hne Hq E E'. destruct Hu as [Hu|Hu]; [|congruence].
  apply Hne. rewrite Hid. f_equal. apply (unique_mappings_spec _ (ok_unique _ Hok) x r u); try done; [congruence|].
  unfold queue in *. congruence.
Qed.

Lemma elem_of_set_row y r' s : y ∈ rows (set_row r' s) ->
  y = r' \/ (y ∈ rows s /\ proxy_job_id y <> proxy_job_id r').
Proof.
  cbn. intros H. apply list_elem_of_In, in_map_iff in H as (x & E & Hx). apply list_elem_of_In in Hx.
  destruct (Z.eqb_spec (proxy_job_id x) (proxy_job_id r')); [left|right]; subst; done.
Qed.

Lemma set_row_in r r' s : r ∈ rows s -> proxy_job_id r' = proxy_job_id r -> r' ∈ rows (set_row r' s).
Proof.
  intros Hr Hid. cbn. apply list_elem_of_In, in_map_iff. exists r. rewrite list_elem_of_In in Hr.
  split; [|done]. by rewrite Hid, Z.eqb_refl.
Qed.

Lemma set_row_other x r' s : x ∈ rows s -> proxy_job_id x <> proxy_job_id r' -> x ∈ rows (set_row r' s).
Proof.
  intros Hx Hne. cbn. apply list_elem_of_In, in_map_iff. exists x. rewrite list_elem_of_In in Hx.
  split; [|done]. by destruct (Z.eqb_spec (proxy_job_id x) (proxy_job_id r')).
Qed.

Lemma set_row_ok r r' s : store_ok s -> r ∈ rows s -> proxy_job_id r' = proxy_job_id r -> no_clash r' s ->
  store_ok (set_row r' s).
Proof.
  intros Hok Hr Hid Hno.
  assert (map proxy_job_id (rows (set_row r' s)) = map proxy_job_id (rows s)) as Hids.
  { cbn. rewrite map_map. apply map_ext. intros x. destruct (Z.eqb_spec (proxy_job_id x) (proxy_job_id r')); congruence. }
  split; [apply Hok| |rewrite Hids; apply Hok|].
  - intros x Hx. cbn [seq set_row]. apply elem_of_set_row in Hx as [->|[Hx _]]; [rewrite Hid|]; by apply Hok.
  - apply unique_mappings_intro.
    { apply sorted_ids_NoDup. rewrite Hids. apply Hok. }
    intros x y u Hx Hy E E' Hq. apply elem_of_set_row in Hx as [->|[Hx Hxn]], Hy as [->|[Hy Hyn]]; [done|..].
    + exfalso. by apply (Hno y u).
    + exfalso. by apply (Hno x u).
    + by apply (unique_mappings_spec _ (ok_unique _ Hok) x y u).
Qed.

Lemma exec_update_one p f r s : store_ok s -> r ∈ rows s -> p r = true ->
  (forall x, p x = true -> proxy_job_id x = proxy_job_id r) -> proxy_job_id (f r) = proxy_job_id r ->
  no_clash (f r) s -> exec_update p f s = (Done 1, set_row (f r) s).
Proof.
  intros Hok Hr Hp Hone Hf Hno. unfold exec_update. rewrite (map_set_row p f r) by done.
  rewrite (ok_unique _ (set_row_ok r (f r) s Hok Hr Hf Hno)). by rewrite (filter_one p s r).
Qed.

Lemma exec_update_none p f s : store_ok s -> (forall x, x ∈ rows s -> p x = false) ->
  exec_update p f s = (Done 0, s).
Proof.
  intros Hok Hp. unfold exec_update.
  assert (map (fun r => if p r then f r else r) (rows s) = rows s) as ->.
  { rewrite <- (map_id (rows s)) at 2. apply map_ext_in. intros x Hx. apply list_elem_of_In in Hx. by rewrite Hp. }
  rewrite (ok_unique _ Hok), filter_none by done. by destruct s.
Qed.

Lemma query_row_none p s : (forall x, x ∈ rows s -> p x = false) -> query_row p s = (Fail_ ErrNoRows, s).
Proof. intros H. rewrite query_row_run. by rewrite filter_none. Qed.

(** Reading a row that was just replaced. *)
Lemma query_row_set_row p r r' s : store_ok s -> r ∈ rows s -> proxy_job_id r' = proxy_job_id r -> no_clash r' s ->
  p r' = true -> (forall x, p x = true -> proxy_job_id x = proxy_job_id r') ->
  query_row p (set_row r' s) = (Done r', set_row r' s).
Proof.
  intros Hok Hr Hid Hno Hp Hone. apply query_row_one; [by eapply set_row_ok|by eapply set_row_in|done|done].
Qed.

Lemma in_scope_same q id r r' : proxy_job_id r' = proxy_job_id r -> r_names r' = r_names r ->
  in_scope q id r' = in_scope q id r.
Proof. unfold in_scope, queue. by intros -> ->. Qed.

Lemma in_scope_one q id r : in_scope q id r = true -> forall x, in_scope q id x = true -> proxy_job_id x = proxy_job_id r.
Proof. intros Hr x Hx. apply in_scope_id in Hr, Hx. congruence. Qed.

Lemma query_row_only p s r : r ∈ rows s -> p r = true -> (forall x, x ∈ rows s -> p x = true -> x = r) ->
  query_row p s = (Done r, s).
Proof.
  intros Hr Hp Hone. rewrite query_row_run. destruct (List.filter p (rows s)) as [|x l] eqn:E.
  - assert (r ∈ List.filter p (rows s)) as H by (by apply elem_of_filter_bool). rewrite E in H. by apply not_elem_of_nil in H.
  - assert (x ∈ List.filter p (rows s)) as H by (rewrite E; left). apply elem_of_filter_bool in H as [H1 H2].
    by rewrite (Hone x H2 H1).
Qed.
