(* ===== verification/StoreTheorems.v ===== *)
(** * The job registry: the theorems

    Histories of calls ([reachable]): identities stay unique, a row that has
    ended stays ended. Then what single methods do, seen through the methods
    that read: mapping, routes, documents, listing, summaries, retention and
    the reconciliation clock. *)

From Stdlib Require Import ZArith Lia Ascii String Sorted.
From stdpp Require Import base tactics list strings gmap sorting relations.
From S2P Require Import Prelude GoString GoError GoTime Store StoreProofs.

(** ** Histories *)

(** The methods that change the registry, with their arguments. *)
Inductive call : Type :=
| CallCreateJob (job : Job)
| CallReserve (args : list any)
| CallUpdateRoute (q : string) (id : Z) (route : DocumentRoute)
| CallMarkMapped (args : list any)
| CallMarkMappedNullable (id : Z) (up : option Z) (uri : option string)
| CallMarkUncertain (args : list any)
| CallMarkTerminal (args : list any)
| CallUpdateObserved (args : list any)
| CallUpdateState (q : string) (id : Z) (st : string)
| CallUpdateDocument (args : list any)
| CallMarkReconcileAttempt (args : list any)
| CallMarkReconciled (args : list any)
| CallScheduleReconciliation (args : list any)
| CallCleanupTerminalBefore (cutoff : any)
| CallCleanupExpired (at_ : time) (retention : Z).

Definition perform (now : time) (c : call) (s : Store) : Store :=
  match c with
  | CallCreateJob job => snd (CreateJob now job s)
  | CallReserve args => snd (Reserve now args s)
  | CallUpdateRoute q id route => snd (UpdateRoute now q id route s)
  | CallMarkMapped args => snd (MarkMapped now args s)
  | CallMarkMappedNullable id up uri => snd (MarkMappedNullable now id up uri s)
  | CallMarkUncertain args => snd (MarkUncertain now args s)
  | CallMarkTerminal args => snd (MarkTerminal now args s)
  | CallUpdateObserved args => snd (UpdateObserved now args s)
  | CallUpdateState q id st => snd (UpdateState now q id st s)
  | CallUpdateDocument args => snd (UpdateDocument now args s)
  | CallMarkReconcileAttempt args => snd (MarkReconcileAttempt now args s)
  | CallMarkReconciled args => snd (MarkReconciled now args s)
  | CallScheduleReconciliation args => snd (ScheduleReconciliation now args s)
  | CallCleanupTerminalBefore cutoff => snd (CleanupTerminalBefore now cutoff s)
  | CallCleanupExpired t retention => snd (CleanupExpired now t retention s)
  end.

Inductive step : Store -> Store -> Prop :=
| step_call now c s : step s (perform now c s).

Definition reachable (s : Store) : Prop := rtc step emptyStore s.

Lemma perform_change now c s : store_ok s -> change s (perform now c s).
Proof.
  intros Hok. destruct c; cbn [perform];
  first [ by apply CreateJob_writes | by apply Reserve_writes | by apply UpdateRoute_writes
        | by apply MarkMapped_writes | by apply markMapped_writes | by apply MarkUncertain_writes
        | by apply markTerminalParsed_writes | by apply UpdateObserved_writes | by apply UpdateState_writes
        | by apply UpdateDocument_writes | by apply MarkReconcileAttempt_writes | by apply MarkReconciled_writes
        | by apply ScheduleReconciliation_writes | by apply CleanupTerminalBefore_writes
        | by apply CleanupExpired_writes ].
Qed.

Lemma empty_ok : store_ok emptyStore.
Proof. split; [done| |constructor|done]. intros r Hr. by apply not_elem_of_nil in Hr. Qed.

Lemma steps_ok s s' : rtc step s s' -> store_ok s -> store_ok s'.
Proof.
  induction 1 as [|s1 s2 s3 [now c s0] _ IH]; [done|]. intros Hok.
  apply IH, (change_ok s0); [done|]. by apply perform_change.
Qed.

Lemma steps_rows s s' : rtc step s s' -> store_ok s -> seq s <= seq s' /\
  forall r', r' ∈ rows s' -> seq s < proxy_job_id r' \/ exists r, r ∈ rows s /\ row_keep r r'.
Proof.
  induction 1 as [s|s1 s2 s3 [now c s0] _ IH]; intros Hok.
  { split; [lia|]. intros r' Hr. right. exists r'. by split; [|reflexivity]. }
  pose proof (perform_change now c s0 Hok) as Hc.
  destruct (change_rows _ _ Hok Hc) as [Hq Hr]. destruct (IH (change_ok _ _ Hok Hc)) as [Hq' Hr'].
  split; [lia|]. intros r' Hin. destruct (Hr' r' Hin) as [?|(r & Hin' & Hk)]; [left; lia|].
  destruct (Hr r Hin') as [?|(r0 & Hin0 & [Hk0 _ _])].
  - left. by rewrite (keep_id _ _ Hk).
  - right. exists r0. split; [done|]. by transitivity r.
Qed.

(** A store for the examples: two jobs of one queue, the first one mapped. *)
Definition ex_now : time := 63900000000 * Second.
Definition ex_store : Store :=
  perform ex_now (CallMarkMapped [AInt KInt 1; AInt KInt 41; AString "ipp://printer/jobs/41"])
    (perform ex_now (CallReserve [AString "office"; AString "bob"; AString "b"; AString "image/urf"; AInt KInt 2])
      (perform ex_now (CallReserve [AString "office"; AString "alice"]) emptyStore)).

Lemma ex_store_reachable : reachable ex_store.
Proof. do 3 (eapply rtc_r; [|constructor]). apply rtc_refl. Qed.

(** The row of an id in an example. *)
Definition no_row : row := row_of_job (newJob "" "" "" "" 0).
Definition row_at (n : nat) (s : Store) : row := nth n (rows s) no_row.

Lemma row_at_in n s : (n <? length (rows s))%nat = true -> row_at n s ∈ rows s.
Proof. intros H. apply list_elem_of_In, nth_In. by apply Nat.ltb_lt. Qed.

(** In every store the methods can produce, proxy job ids are positive,
    handed out once and in increasing order, and two rows of one queue never
    carry the same upstream job id. *)
Theorem reachable_identities s : reachable s ->
  (forall r, r ∈ rows s -> 0 < proxy_job_id r <= seq s) /\
  StronglySorted Z.lt (map proxy_job_id (rows s)) /\
  (forall r r' u, r ∈ rows s -> r' ∈ rows s -> upstream_job_id r = Some u -> upstream_job_id r' = Some u ->
     queue r = queue r' -> r = r').
Proof.
  intros H. apply steps_ok in H as [_ Hi Ho Hu]; [|apply empty_ok].
  split_and!; [done|done|by apply unique_mappings_spec].
Qed.

Lemma reachable_identities_witness : StronglySorted Z.lt (map proxy_job_id (rows ex_store)) /\ length (rows ex_store) = 2%nat.
Proof. split; [apply (reachable_identities ex_store ex_store_reachable)|vm_compute; reflexivity]. Defined.

(** C6: over any further history a row keeps its id, queue, owner, user and
    name, its creation time and its first terminal time; a row that has ended
    (a terminal state, with the terminal time or the exact spelling the SQL
    guards test) stays ended, and its upstream identity and route are frozen.
    An id that was deleted is not given again. *)
Theorem terminal_is_final s s' r r' : reachable s -> rtc step s s' ->
  r ∈ rows s -> r' ∈ rows s' -> proxy_job_id r' = proxy_job_id r ->
  r_names r' = r_names r /\
  created_at (r_times r') = created_at (r_times r) /\
  (forall t, terminal_at (r_times r) = Some t -> terminal_at (r_times r') = Some t) /\
  (closed r = true ->
     closed r' = true /\ IsTerminalState (state r') = true /\
     upstream_job_id r' = upstream_job_id r /\ upstream_job_uri r' = upstream_job_uri r /\
     r_route r' = r_route r).
Proof.
  intros Hre Hs Hr Hr' Hid. pose proof (steps_ok _ _ Hre empty_ok) as Hok.
  destruct (proj2 (steps_rows _ _ Hs Hok) r' Hr') as [Hlt|(r0 & Hr0 & Hk)].
  { pose proof (ok_ids _ Hok r Hr). lia. }
  assert (r0 = r) as ->.
  { eapply sorted_ids_inj; [apply Hok|done..|]. by rewrite <- (keep_id _ _ Hk). }
  destruct Hk as [_ Hn Hc Ht Hcl]. split_and!; [done..|]. intros H. destruct (Hcl H) as (H' & ? & ? & ?).
  split_and!; [done| |done..]. by apply andb_true_iff in H' as [? _].
Qed.

Definition ex_ended : Store :=
  perform (ex_now + Hour) (CallMarkTerminal [AInt KInt 1; AString "completed"; AString ""]) ex_store.
Definition ex_after : Store :=
  perform (ex_now + 2 * Hour) (CallUpdateState "office" 1 "processing") ex_ended.

Lemma terminal_is_final_witness : closed (row_at 0 ex_ended) = true /\
  IsTerminalState (state (row_at 0 ex_after)) = true.
Proof.
  assert (closed (row_at 0 ex_ended) = true) as Hc by (vm_compute; reflexivity). split; [exact Hc|].
  eapply (terminal_is_final ex_ended ex_after (row_at 0 ex_ended) (row_at 0 ex_after)); [| | | | |exact Hc].
  - eapply rtc_r; [apply ex_store_reachable|constructor].
  - apply rtc_once. constructor.
  - apply row_at_in. vm_compute. reflexivity.
  - apply row_at_in. vm_compute. reflexivity.
  - vm_compute. reflexivity.
Defined.

(** No call replaces a recorded upstream job id or URI by another one: it
    stays, or (a mapping without the value) it is erased. *)
Theorem identity_not_replaced s now c r r' : reachable s ->
  r ∈ rows s -> r' ∈ rows (perform now c s) -> proxy_job_id r' = proxy_job_id r ->
  (forall u, upstream_job_id r = Some u -> upstream_job_id r' = Some u \/ upstream_job_id r' = None) /\
  (forall u, upstream_job_uri r = Some u -> upstream_job_uri r' = Some u \/ upstream_job_uri r' = None).
Proof.
  intros Hre Hr Hr' Hid. pose proof (steps_ok _ _ Hre empty_ok) as Hok.
  destruct (proj2 (change_rows _ _ Hok (perform_change now c s Hok)) r' Hr') as [Hlt|(r0 & Hr0 & [Hk Hi Hu])].
  { pose proof (ok_ids _ Hok r Hr). lia. }
  assert (r0 = r) as ->; [|done].
  eapply sorted_ids_inj; [apply Hok|done..|]. by rewrite <- (keep_id _ _ Hk).
Qed.

Lemma identity_not_replaced_witness :
  let s' := perform ex_now (CallMarkMapped [AInt KInt 1; AInt KInt 42; AString ""]) ex_store in
  upstream_job_id (row_at 0 ex_store) = Some 41 /\
  (upstream_job_id (row_at 0 s') = Some 41 \/ upstream_job_id (row_at 0 s') = None).
Proof.
  assert (upstream_job_id (row_at 0 ex_store) = Some 41) as H by (vm_compute; reflexivity).
  split; [exact H|]. refine (proj1 (identity_not_replaced ex_store ex_now _ _ _ ex_store_reachable _ _ _) 41 H).
  - apply row_at_in. vm_compute. reflexivity.
  - apply row_at_in. vm_compute. reflexivity.
  - vm_compute. reflexivity.
Defined.

(** ** Mapping a job to its upstream identity *)

(** The row [markMapped] leaves. *)
Definition mapped_row (now : time) (up : Z) (uri : string) (r : row) : row :=
  set_mapping (nullableIntValue up) (nullableStringValue uri)
    (set_life {| State := StateMapped; ObservedState := ObservedState (r_life r); ObservedError := "" |}
      (set_times (set_reconcile None (last_reconcile_at (r_times r)) None
                   (set_updated (formatTime now) (r_times r))) r)).

(** The identity asked for contradicts the recorded one, or belongs to
    another job of the queue. *)
Definition mapping_conflict (up : Z) (uri : string) (r : row) (s : Store) : Prop :=
  (up <> 0 /\ exists u, upstream_job_id r = Some u /\ u <> up) \/
  (uri <> ""%string /\ exists v, upstream_job_uri r = Some v /\ v <> uri) \/
  (up <> 0 /\ exists x, x ∈ rows s /\ proxy_job_id x <> proxy_job_id r /\ queue x = queue r /\
                        upstream_job_id x = Some up).

Definition duplicate (up id : Z) (o : row) (x : row) : bool :=
  bool_decide (upstream_job_id x = Some up) && negb (proxy_job_id x =? id) && (queue x =? queue o)%string.

Lemma duplicate_none up r s :
  List.filter (duplicate up (proxy_job_id r) r) (rows s) = [] <->
  ~ exists x, x ∈ rows s /\ proxy_job_id x <> proxy_job_id r /\ queue x = queue r /\ upstream_job_id x = Some up.
Proof.
  assert (forall x, duplicate up (proxy_job_id r) r x = true <->
    proxy_job_id x <> proxy_job_id r /\ queue x = queue r /\ upstream_job_id x = Some up) as Hd.
  { intros x. unfold duplicate. rewrite !andb_true_iff, bool_decide_eq_true, negb_true_iff, Z.eqb_neq, String.eqb_eq. tauto. }
  split.
  - intros E (x & Hx & Hrest). apply Hd in Hrest.
    assert (x ∈ List.filter (duplicate up (proxy_job_id r) r) (rows s)) as Hin by (apply elem_of_filter_bool; done).
    rewrite E in Hin. by apply not_elem_of_nil in Hin.
  - intros Hno. apply filter_none. intros x Hx. apply not_true_iff_false. intros E. apply Hd in E. eauto.
Qed.

#[export] Instance mapping_conflict_dec up uri r s : Decision (mapping_conflict up uri r s).
Proof.
  unfold mapping_conflict. apply or_dec; [|apply or_dec].
  - apply and_dec; [apply _|]. destruct (upstream_job_id r) as [u|]; [|right; naive_solver].
    destruct (decide (u = up)); [right; naive_solver|left; eauto].
  - apply and_dec; [apply _|]. destruct (upstream_job_uri r) as [v|]; [|right; naive_solver].
    destruct (decide (v = uri)); [right; naive_solver|left; eauto].
  - apply and_dec; [apply _|].
    destruct (List.filter (duplicate up (proxy_job_id r) r) (rows s)) as [|x l] eqn:Ef.
    + right. by apply duplicate_none.
    + left.
      assert (x ∈ List.filter (duplicate up (proxy_job_id r) r) (rows s)) as H by (rewrite Ef; left).
      apply elem_of_filter_bool in H as [H Hx]. exists x. split; [done|].
      unfold duplicate in H. rewrite !andb_true_iff, bool_decide_eq_true, negb_true_iff, Z.eqb_neq, String.eqb_eq in H. tauto.
Defined.

Lemma duplicate_check_run up r s id : store_ok s -> r ∈ rows s -> proxy_job_id r = id ->
  when (negb (up =? 0)) (
    owner ← query (fun r' => proxy_job_id r' =? id);
    dup ← query (fun r' => bool_decide (upstream_job_id r' = Some up) && negb (proxy_job_id r' =? id) &&
             match owner with o :: _ => (queue r' =? queue o)%string | [] => false end);
    match dup with [] => mret tt | _ => throw ErrMappingConflict end) s =
  (if up =? 0 then Done tt
   else match List.filter (duplicate up id r) (rows s) with [] => Done tt | _ => Fail_ ErrMappingConflict end, s).
Proof.
  intros Hok Hr <-. unfold when. destruct (up =? 0); [done|].
  unfold query, mbind, M_bind, gets. cbn [negb].
  rewrite (filter_one _ s r Hok Hr (Z.eqb_refl _)) by (intros x Hx; by apply Z.eqb_eq).
  unfold duplicate. by destruct (List.filter _ _).
Qed.

Lemma run_seq {B} (m : SM unit) (k : SM B) s o : m s = (o, s) ->
  (m;; k) s = match o with Done _ => k s | Fail_ e => (Fail_ e, s) | Panics => (Panics, s) | OutOfFuel => (OutOfFuel, s) end.
Proof. intros H. unfold mbind, M_bind. rewrite H. by destruct o. Qed.

Lemma mapped_no_clash now up uri r s : store_ok s -> r ∈ rows s ->
  ~ mapping_conflict up uri r s -> no_clash (mapped_row now up uri r) s.
Proof.
  intros Hok Hr Hno x u Hx Hne Hq E E'. cbn in Hne, E'. unfold nullableIntValue in E'.
  destruct (Z.eqb_spec up 0); [done|]. injection E' as <-. apply Hno. right. right. split; [done|]. by exists x.
Qed.

Lemma markMapped_cases now q id up uri s r :
  store_ok s -> r ∈ rows s -> in_scope q id r = true ->
  (IsTerminalState (state r) = true -> markMapped now q id up uri s = (Fail_ ErrInvalidTransition, s)) /\
  (IsTerminalState (state r) = false -> mapping_conflict up uri r s ->
     markMapped now q id up uri s = (Fail_ ErrMappingConflict, s)) /\
  (IsTerminalState (state r) = false -> ~ mapping_conflict up uri r s ->
     markMapped now q id up uri s = (Done tt, set_row (mapped_row now up uri r) s)).
Proof.
  intros Hok Hr Hsc. pose proof (in_scope_one q id r Hsc) as Hone. pose proof (in_scope_id q id r Hsc) as Hid.
  assert (query_row (in_scope q id) s = (Done r, s)) as Hq by (by apply query_row_one).
  unfold markMapped, tx. rewrite (run_bind _ _ _ _ _ Hq).
  destruct (IsTerminalState (state r)); (split; [done|]); [done|].
  destruct (match upstream_job_id r with Some _ => _ | None => _ end) eqn:E1.
  { split; intros _ Hc; [done|]. destruct Hc. left. destruct (upstream_job_id r); [|done]. bool_to_prop. eauto. }
  destruct (match upstream_job_uri r with Some _ => _ | None => _ end) eqn:E2.
  { split; intros _ Hc; [done|]. destruct Hc. right; left. destruct (upstream_job_uri r); [|done]. bool_to_prop. eauto. }
  assert (mapping_conflict up uri r s <-> up <> 0 /\
    exists x, x ∈ rows s /\ proxy_job_id x <> proxy_job_id r /\ queue x = queue r /\ upstream_job_id x = Some up) as Hiff.
  { split; [|by right; right]. intros [(Hu & u & Eu & Hne)|[(Hu & v & Ev & Hne)|Hc]]; [| |done].
    - rewrite Eu in E1. apply Z.eqb_neq in Hu, Hne. by rewrite Hu, Hne in E1.
    - rewrite Ev in E2. apply String.eqb_neq in Hu, Hne. by rewrite Hu, Hne in E2. }
  assert (~ mapping_conflict up uri r s ->
    exec_update_mapped (in_scope q id) (mapped_row now up uri) s = (Done 1, set_row (mapped_row now up uri r) s)) as Hup.
  { intros Hno. unfold exec_update_mapped. rewrite (exec_update_one _ _ r); try done. by apply mapped_no_clash. }
  rewrite (run_seq _ _ _ _ (duplicate_check_run up r s id Hok Hr Hid)). rewrite Hiff.
  pose proof (duplicate_none up r s) as Hdup. destruct (Z.eqb_spec up 0) as [->|Hup0].
  - split; intros _ Hc; [by destruct Hc|]. cbv beta iota. rewrite (run_bind _ _ _ _ _ (Hup ltac:(by rewrite Hiff))). done.
  - destruct (List.filter (duplicate up id r) (rows s)) as [|d l] eqn:E; (split; intros _ Hc).
    + destruct Hc as [_ Hc]. rewrite Hid in Hdup, Hc. by apply Hdup in Hc.
    + rewrite (run_bind _ _ _ _ _ (Hup ltac:(by rewrite Hiff))). done.
    + done.
    + exfalso. rewrite Hid in Hc, Hdup. rewrite E in Hdup. enough (d :: l = []) by done. apply Hdup. intros Hx. auto.
Qed.

Lemma markMapped_run now q id up uri s r : store_ok s -> r ∈ rows s -> in_scope q id r = true ->
  (exists e, markMapped now q id up uri s = (Fail_ e, s)) \/
  markMapped now q id up uri s = (Done tt, set_row (mapped_row now up uri r) s).
Proof.
  intros Hok Hr Hsc. destruct (markMapped_cases now q id up uri s r Hok Hr Hsc) as (H1 & H2 & H3).
  destruct (IsTerminalState (state r)); [left; eauto|].
  destruct (mapping_conflict_dec up uri r s) as [Hc|Hc]; [left; eauto|right; auto].
Qed.

(** [markMapped] on an existing row: a row in a terminal state is refused
    as an invalid transition, a contradiction with the recorded identity or
    with another job of the queue as a conflict, both without any effect; in
    every other case the call succeeds, and changes exactly this row. The
    unique index is never what refuses it. *)
Theorem markMapped_spec now q id up uri s r :
  store_ok s -> r ∈ rows s -> in_scope q id r = true ->
  (IsTerminalState (state r) = true -> markMapped now q id up uri s = (Fail_ ErrInvalidTransition, s)) /\
  (IsTerminalState (state r) = false -> mapping_conflict up uri r s ->
     markMapped now q id up uri s = (Fail_ ErrMappingConflict, s)) /\
  (IsTerminalState (state r) = false -> ~ mapping_conflict up uri r s ->
     markMapped now q id up uri s = (Done tt, set_row (mapped_row now up uri r) s)).
Proof. apply markMapped_cases. Qed.

Lemma ex_store_ok : store_ok ex_store.
Proof. apply (steps_ok emptyStore); [apply ex_store_reachable|apply empty_ok]. Qed.

Lemma markMapped_spec_witness :
  markMapped ex_now "office" 2 41 "" ex_store = (Fail_ ErrMappingConflict, ex_store) /\
  markMapped ex_now "office" 2 42 "" ex_store = (Done tt, set_row (mapped_row ex_now 42 "" (row_at 1 ex_store)) ex_store).
Proof.
  assert (row_at 0 ex_store ∈ rows ex_store) as Hin0 by (apply row_at_in; vm_compute; reflexivity).
  assert (row_at 1 ex_store ∈ rows ex_store) as Hin by (apply row_at_in; vm_compute; reflexivity).
  assert (in_scope "office" 2 (row_at 1 ex_store) = true) as Hsc by (vm_compute; reflexivity).
  assert (IsTerminalState (state (row_at 1 ex_store)) = false) as Ht by (vm_compute; reflexivity).
  split.
  - apply (proj1 (proj2 (markMapped_spec ex_now "office" 2 41 "" _ _ ex_store_ok Hin Hsc))); [exact Ht|].
    right; right. split; [lia|]. exists (row_at 0 ex_store).
    split; [exact Hin0|]. vm_compute. split_and!; [discriminate|reflexivity..].
  - apply (proj2 (proj2 (markMapped_spec ex_now "office" 2 42 "" _ _ ex_store_ok Hin Hsc))); [exact Ht|].
    assert (upstream_job_id (row_at 1 ex_store) = None) as H1 by (vm_compute; reflexivity).
    assert (upstream_job_uri (row_at 1 ex_store) = None) as H2 by (vm_compute; reflexivity).
    assert (upstream_job_id (row_at 0 ex_store) = Some 41) as H3 by (vm_compute; reflexivity).
    intros [(_ & u & E & _)|[(_ & v & E & _)|(_ & x & Hx & Hne & _ & E)]]; [congruence..|].
    assert (rows ex_store = [row_at 0 ex_store; row_at 1 ex_store]) as Hrows by (vm_compute; reflexivity).
    rewrite Hrows in Hx. apply elem_of_cons in Hx as [->|Hx]; [congruence|].
    apply list_elem_of_singleton in Hx as ->. by apply Hne.
Defined.

(** After a successful mapping with an upstream id, the job is found under
    that id in its queue, and under its own id, with the identity recorded and
    the state [mapped]. *)
Theorem mapped_job_is_found now q id up uri s s' r :
  store_ok s -> r ∈ rows s -> in_scope q id r = true -> queue r <> ""%string -> up <> 0 ->
  markMapped now q id up uri s = (Done tt, s') ->
  exists job,
    GetByUpstreamID [AString (queue r); AInt KInt up] s' = (Done job, s') /\
    GetByProxyID [AInt KInt id] s' = (Done job, s') /\
    ProxyJobID job = id /\ UpstreamJobID job = up /\ HasUpstreamJobID job = true /\
    UpstreamJobURI job = uri /\ names job = r_names r /\ State (life job) = StateMapped.
Proof.
  intros Hok Hr Hsc Hqueue Hup Hrun. pose proof (in_scope_id q id r Hsc) as Hid.
  pose proof (markMapped_writes now q id up uri s Hok) as Hc. rewrite Hrun in Hc. cbn [snd] in Hc.
  pose proof (change_ok _ _ Hok Hc) as Hok'.
  assert (s' = set_row (mapped_row now up uri r) s) as Hs'.
  { destruct (markMapped_run now q id up uri s r Hok Hr Hsc) as [(e & E)|E]; congruence. }
  assert (mapped_row now up uri r ∈ rows s') as Hin by (rewrite Hs'; by eapply set_row_in).
  assert (upstream_job_id (mapped_row now up uri r) = Some up) as Eu.
  { cbn. unfold nullableIntValue. by destruct (Z.eqb_spec up 0). }
  exists (scanJob (mapped_row now up uri r)).
  split; [|split].
  - unfold GetByUpstreamID. cbn [parseScopedID asString arg asInt lift_res].
    rewrite (run_bind _ _ _ (queue r, up) s') by done.
    rewrite (run_bind _ _ _ (mapped_row now up uri r) s'); [done|].
    apply query_row_only; [done|..].
    + apply andb_true_iff. split; [by apply bool_decide_eq_true|]. apply orb_true_iff. right. by apply String.eqb_eq.
    + intros x Hx Hp. apply andb_true_iff in Hp as [Hp Hq]. apply bool_decide_eq_true in Hp.
      apply orb_true_iff in Hq as [Hq|Hq]; [by apply String.eqb_eq in Hq|]. apply String.eqb_eq in Hq.
      by eapply (unique_mappings_spec _ (ok_unique _ Hok')).
  - unfold GetByProxyID. cbn [parseScopedID asInt arg lift_res].
    rewrite (run_bind _ _ _ (""%string, id) s') by done.
    rewrite (run_bind _ _ _ (mapped_row now up uri r) s'); [done|].
    apply query_row_only; [done|by unfold in_scope; cbn; rewrite Hid, Z.eqb_refl|].
    intros x Hx Hp. apply in_scope_id in Hp. eapply sorted_ids_inj; [apply Hok'|done..|]. cbn. congruence.
  - unfold scanJob. rewrite Eu. cbn. split_and!; try done. unfold nullableStringValue.
    destruct (String.eqb_spec uri ""); congruence.
Qed.

Lemma mapped_job_is_found_witness : exists job,
  GetByUpstreamID [AString "office"; AInt KInt 41]
    (snd (markMapped ex_now "office" 1 41 "" ex_store)) =
  (Done job, snd (markMapped ex_now "office" 1 41 "" ex_store)) /\ ProxyJobID job = 1.
Proof.
  destruct (mapped_job_is_found ex_now "office" 1 41 "" ex_store (snd (markMapped ex_now "office" 1 41 "" ex_store))
    (row_at 0 ex_store) ex_store_ok) as (job & H & _ & Hid & _).
  - apply row_at_in. vm_compute. reflexivity.
  - vm_compute. reflexivity.
  - vm_compute. discriminate.
  - lia.
  - vm_compute. reflexivity.
  - exists job. split; [exact H|exact Hid].
Defined.

(** Mapping a job again without an upstream id erases the id recorded
    before, so that the job can no longer be found by it. *)
Example mapping_without_id_erases :
  upstream_job_id (row_at 0 ex_store) = Some 41 /\
  fst (markMapped ex_now "office" 1 0 "ipp://printer/jobs/41" ex_store) = Done tt /\
  fst (GetByUpstreamID [AString "office"; AInt KInt 41]
    (snd (markMapped ex_now "office" 1 0 "ipp://printer/jobs/41" ex_store))) = Fail_ ErrNoRows.
Proof. vm_compute. done. Qed.

(** ** Creating and reading a job *)

Lemma or_str_nil_l s : or_str "" s = s.
Proof. done. Qed.
Lemma or_str_same s : or_str s s = s.
Proof. unfold or_str. by destruct (s =? "")%string. Qed.
Lemma or_str_twice a b : or_str (or_str a b) b = or_str a b.
Proof. unfold or_str. destruct (a =? "")%string eqn:E; [by destruct (b =? "")%string|by rewrite E]. Qed.
Lemma or_str_nonempty a b : b <> ""%string -> or_str a b <> ""%string.
Proof. intros. unfold or_str. by destruct (String.eqb_spec a ""). Qed.
Lemma or_str_keep a b : a <> ""%string -> or_str a b = a.
Proof. intros. unfold or_str. by destruct (String.eqb_spec a ""). Qed.
Lemma or_str_chain a c d : or_str (or_str a c) (or_str c d) = or_str a (or_str c d).
Proof.
  unfold or_str. destruct (a =? "")%string eqn:Ea; [|by rewrite Ea].
  by destruct (c =? "")%string.
Qed.
#[export] Hint Rewrite or_str_nil_l or_str_same or_str_twice : gosimp.

(** The numbers of a route are unsigned 32-bit values. *)
Definition route_in_range (f : RouteFields) : Prop :=
  Forall (fun z => 0 <= z <= maxU32)
    [RouteMediaWidth f; RouteMediaHeight f; RouteMediaSource f; RouteResolutionX f; RouteResolutionY f;
     RoutePrintQuality f].

(** The route a row yields: the flattened fields, with the formats of the row. *)
Definition row_route (r : row) : DocumentRoute :=
  let f := r_route r in {|
  ClientDocumentFormat := document_format r;
  rUpstreamDocumentFormat := or_str (upstream_document_format r) (document_format r);
  Kind := or_str (RouteKind f) RoutePassThrough; Mapping := RouteMapping f; MediaName := RouteMediaName f;
  MediaWidth := RouteMediaWidth f; MediaHeight := RouteMediaHeight f; MediaType := RouteMediaType f;
  MediaSource := RouteMediaSource f; ResolutionX := RouteResolutionX f; ResolutionY := RouteResolutionY f;
  PrintQuality := RoutePrintQuality f; Sides := RouteSides f; SheetBack := RouteSheetBack f |}.

Lemma or_int_nil z : or_int 0 z = z.
Proof. done. Qed.

Lemma scanJob_route r : route_in_range (r_route r) -> Route (scanJob r) = row_route r.
Proof.
  intros H. unfold route_in_range in H. rewrite !Forall_cons in H. destruct H as (?&?&?&?&?&?&_).
  unfold scanJob, normalizeRoute, routeFromJob, row_route, zeroRoute, flatten, with_route.
  cbn -[or_str or_int u32]. rewrite !or_int_nil, !or_str_nil_l, !or_str_same.
  by rewrite !u32_small.
Qed.

Lemma routeFromJob_scan r : route_in_range (r_route r) -> routeFromJob (scanJob r) = row_route r.
Proof.
  intros H. unfold routeFromJob. rewrite (scanJob_route r H).
  assert (Route (scanJob r) = row_route r) as E by (by apply scanJob_route).
  assert (DocumentFormat (scanJob r) = document_format r) as E1.
  { unfold scanJob, normalizeRoute. cbn -[or_str or_int u32]. by rewrite ?or_str_nil_l, !or_str_same. }
  assert (UpstreamDocumentFormat (scanJob r) = or_str (upstream_document_format r) (document_format r)) as E2.
  { unfold scanJob, normalizeRoute. cbn -[or_str or_int u32]. by rewrite ?or_str_nil_l, !or_str_same. }
  assert (routeFields (scanJob r) = flatten (Route (scanJob r))) as -> by done.
  rewrite E, E1, E2. assert (forall z, or_int z z = z) as Hi by (intros z; unfold or_int; by destruct (z =? 0)).
  unfold row_route. cbn -[or_str or_int]. by rewrite !or_str_same, !Hi.
Qed.

(** The row [UpdateRoute] leaves. *)
Definition routed_row (now : time) (route : DocumentRoute) (r : row) : row :=
  let c := ClientDocumentFormat route in
  set_times (set_updated (formatTime now) (r_times r))
    (set_formats (or_str c (document_format r)) (or_str (rUpstreamDocumentFormat route) c)
       (flatten (with_route route c (or_str (rUpstreamDocumentFormat route) c) (or_str (Kind route) RoutePassThrough))) r).

Lemma or_str_if c d : or_str c d = if negb (c =? "")%string then c else d.
Proof. unfold or_str. by destruct (c =? "")%string. Qed.
Lemma or_str_nil_r a : or_str a "" = a.
Proof. unfold or_str. by destruct (String.eqb_spec a ""). Qed.
Lemma or_int_zero_r z : or_int z 0 = z.
Proof. unfold or_int. by destruct (Z.eqb_spec z 0). Qed.
Lemma or_int_same z : or_int z z = z.
Proof. unfold or_int. by destruct (z =? 0). Qed.

(** A job whose flattened fields are empty, and one whose flattened fields
    mirror its route. *)
Lemma routeFromJob_empty job : routeFields job = flatten zeroRoute -> UpstreamDocumentFormat job = ""%string ->
  DocumentFormat job = ClientDocumentFormat (Route job) -> routeFromJob job = Route job.
Proof.
  intros Hf Hu Hd. unfold routeFromJob. rewrite Hf, Hu, Hd. destruct (Route job). cbn -[or_str or_int].
  by rewrite !or_str_nil_r, !or_int_zero_r, or_str_same.
Qed.

Lemma routeFromJob_mirror job : routeFields job = flatten (Route job) ->
  UpstreamDocumentFormat job = rUpstreamDocumentFormat (Route job) ->
  DocumentFormat job = ClientDocumentFormat (Route job) -> routeFromJob job = Route job.
Proof.
  intros Hf Hu Hd. unfold routeFromJob. rewrite Hf, Hu, Hd. destruct (Route job). cbn -[or_str or_int].
  by rewrite !or_str_same, !or_int_same.
Qed.

(** The route [UpdateRoute] computes. *)
Lemma normalizeRoute_plain job : routeFields job = flatten zeroRoute -> UpstreamDocumentFormat job = ""%string ->
  DocumentFormat job = ClientDocumentFormat (Route job) ->
  let route := Route job in
  let c := ClientDocumentFormat route in
  routeFromJob (normalizeRoute job) =
  with_route route c (or_str (rUpstreamDocumentFormat route) c) (or_str (Kind route) RoutePassThrough).
Proof.
  intros Hf Hu Hd. cbv zeta.
  assert (Route (normalizeRoute job) = with_route (Route job) (ClientDocumentFormat (Route job))
    (or_str (rUpstreamDocumentFormat (Route job)) (ClientDocumentFormat (Route job))) (or_str (Kind (Route job)) RoutePassThrough)) as E.
  { unfold normalizeRoute. cbn [Route]. rewrite routeFromJob_empty, Hd by done. by rewrite !or_str_same. }
  rewrite <- E. apply routeFromJob_mirror; [done|done|].
  rewrite E. unfold normalizeRoute. cbn [DocumentFormat ClientDocumentFormat with_route].
  rewrite routeFromJob_empty, Hd by done. by rewrite !or_str_same.
Qed.

Lemma UpdateRoute_run now q id route s r :
  store_ok s -> r ∈ rows s -> in_scope q id r = true -> IsTerminalState (state r) = false ->
  UpdateRoute now q id route s = (Done tt, set_row (routed_row now route r) s).
Proof.
  intros Hok Hr Hsc Ht. pose proof (in_scope_one q id r Hsc) as Hone.
  unfold UpdateRoute, tx. cbv zeta.
  rewrite (run_bind _ _ _ _ _ (query_row_one _ s r Hok Hr Hsc Hone)), Ht.
  rewrite normalizeRoute_plain by done. cbn [Route].
  match goal with |- context [exec_update _ ?f] => set (g := f) end.
  assert (g r = routed_row now route r) as Hf.
  { unfold g, routed_row. cbv zeta. cbn [with_route ClientDocumentFormat rUpstreamDocumentFormat].
    by rewrite (or_str_if (ClientDocumentFormat route)). }
  rewrite (run_bind _ _ _ _ _ (exec_update_one _ g r s Hok Hr Hsc Hone
    ltac:(by rewrite Hf) ltac:(rewrite Hf; by eapply no_clash_same; [..|left]))), Hf. done.
Qed.

(** A route pinned to a job is the route selected later: all its fields
    come back through the columns of the table, the formats and the kind
    defaulted; nothing else of the job changes, and no other job does. *)
Theorem UpdateRoute_SelectedRoute now q id route s r :
  store_ok s -> r ∈ rows s -> in_scope q id r = true -> IsTerminalState (state r) = false ->
  route_in_range (flatten route) ->
  exists s' c, c = or_str (ClientDocumentFormat route) (document_format r) /\
    UpdateRoute now q id route s = (Done tt, s') /\
    SelectedRoute q id s' =
      (Done (with_route route c (or_str (rUpstreamDocumentFormat route) c) (or_str (Kind route) RoutePassThrough)), s') /\
    (forall x, proxy_job_id x <> id -> x ∈ rows s' <-> x ∈ rows s) /\
    (forall x, x ∈ rows s' -> proxy_job_id x = id ->
       r_names x = r_names r /\ r_life x = r_life r /\ r_payload x = r_payload r /\
       upstream_job_id x = upstream_job_id r /\ upstream_job_uri x = upstream_job_uri r).
Proof.
  intros Hok Hr Hsc Ht Hrange. pose proof (in_scope_id q id r Hsc) as Hid.
  exists (set_row (routed_row now route r) s), (or_str (ClientDocumentFormat route) (document_format r)).
  assert (no_clash (routed_row now route r) s) as Hno by (by eapply no_clash_same; [..|left]).
  split_and!; [done|by apply UpdateRoute_run| | |].
  - unfold SelectedRoute, GetByProxyID. cbn [parseScopedID asString asInt arg lift_res].
    rewrite (run_bind _ _ _ (scanJob (routed_row now route r)) (set_row (routed_row now route r) s)).
    + cbv beta. rewrite routeFromJob_scan by done. unfold row_route, routed_row. cbn -[or_str].
      unfold mret, M_ret, with_route. by rewrite or_str_chain, or_str_twice.
    + rewrite (run_bind _ _ _ (q, id) (set_row (routed_row now route r) s)) by done.
      rewrite (run_bind _ _ _ (routed_row now route r) (set_row (routed_row now route r) s)); [done|].
      eapply query_row_set_row; try done. by apply in_scope_one.
  - intros x Hne. split; intros Hx; [|by apply set_row_other; [|cbn; congruence]].
    apply elem_of_set_row in Hx as [->|[? _]]; [cbn in Hne; congruence|done].
  - intros x Hx Hxid. apply elem_of_set_row in Hx as [->|[_ Hn]]; [done|cbn in Hn; congruence].
Qed.

Definition ex_route : DocumentRoute := {|
  ClientDocumentFormat := "image/urf"; rUpstreamDocumentFormat := "image/pwg-raster"; Kind := RouteURFToPWG;
  Mapping := "A4"; MediaName := "iso_a4_210x297mm"; MediaWidth := 21000; MediaHeight := 29700;
  MediaType := "stationery"; MediaSource := 0; ResolutionX := 600; ResolutionY := 600; PrintQuality := 4;
  Sides := "one-sided"; SheetBack := "normal" |}.

Lemma UpdateRoute_SelectedRoute_witness :
  SelectedRoute "office" 2 (snd (UpdateRoute ex_now "office" 2 ex_route ex_store)) =
  (Done ex_route, snd (UpdateRoute ex_now "office" 2 ex_route ex_store)).
Proof.
  destruct (UpdateRoute_SelectedRoute ex_now "office" 2 ex_route ex_store (row_at 1 ex_store) ex_store_ok)
    as (s' & c & -> & E & H & _).
  - apply row_at_in. vm_compute. reflexivity.
  - vm_compute. reflexivity.
  - vm_compute. reflexivity.
  - unfold route_in_range. repeat constructor; vm_compute; discriminate.
  - rewrite E. exact H.
Defined.

Lemma parseTime_formatTime t : 0 <= t < max_time -> parseTime (Some (formatTime t)) = t.
Proof.
  intros Ht. unfold formatTime, IsZero. destruct (Z.eqb_spec t 0) as [->|]; [done|].
  unfold parseTime. destruct (String.eqb_spec (FormatRFC3339Nano t) "") as [E|E].
  - pose proof (Parse_Format t Ht) as Hp. rewrite E in Hp. done.
  - by rewrite Parse_Format.
Qed.

Lemma parseNullableTime_formatTime t : 0 < t < max_time -> parseNullableTime (Some (formatTime t)) = Some t.
Proof.
  intros Ht. unfold parseNullableTime. rewrite parseTime_formatTime by lia. unfold IsZero.
  by destruct (Z.eqb_spec t 0); [lia|].
Qed.

Lemma CreateJob_run now job s : store_ok s ->
  nullableUpstreamID job = None ->
  let r := set_id (seq s + 1) (row_of_job (withCreateDefaults now (normalizeRoute job))) in
  CreateJob now job s = (Done (seq s + 1), {| rows := rows s ++ [r]; seq := seq s + 1 |}) /\
  store_ok {| rows := rows s ++ [r]; seq := seq s + 1 |}.
Proof.
  intros Hok Hnone. cbv zeta. unfold CreateJob, exec_insert. set (j := row_of_job _).
  assert (upstream_job_id j = None) as Hj by exact Hnone.
  assert (unique_mappings (rows s ++ [set_id (seq s + 1) j]) = true) as Hu.
  { apply unique_mappings_intro.
    - apply NoDup_app. split; [apply sorted_ids_NoDup, Hok|]. split; [|apply NoDup_singleton].
      intros x Hx Hin. apply list_elem_of_singleton in Hin as ->. pose proof (ok_ids _ Hok _ Hx) as Hi. cbn in Hi. lia.
    - assert (forall x u, x ∈ rows s ++ [set_id (seq s + 1) j] -> upstream_job_id x = Some u -> x ∈ rows s) as Hold.
      { intros x u Hx Ex. apply elem_of_app in Hx as [Hx|Hx]; [done|]. apply list_elem_of_singleton in Hx as ->.
        change (upstream_job_id j = Some u) in Ex. congruence. }
      intros x y u Hx Hy Ex Ey Hq. apply (unique_mappings_spec _ (ok_unique _ Hok) x y u); eauto. }
  rewrite Hu. split; [done|]. eapply (change_ok s); [done|]. by constructor.
Qed.

(** A reservation whose arguments are understood always succeeds with the
    next id, larger than every id in the table; the job is found under it,
    in the state [reserved], with the names of the request, no upstream
    identity, no document yet, one copy when none is asked for, and the
    creation time given or the current one, read back exactly. *)
Theorem Reserve_GetByProxyID now args s job :
  store_ok s -> parseReservationArgs args = Ok job ->
  0 <= now < max_time -> 0 <= CreatedAt (times job) < max_time ->
  exists s' r job',
    Reserve now args s = (Done (seq s + 1), s') /\
    rows s' = rows s ++ [r] /\
    (forall x, x ∈ rows s -> proxy_job_id x < seq s + 1) /\
    GetByProxyID [AInt KInt (seq s + 1)] s' = (Done job', s') /\
    ProxyJobID job' = seq s + 1 /\ names job' = names job /\
    life job' = {| State := StateReserved; ObservedState := ""; ObservedError := "" |} /\
    HasUpstreamJobID job' = false /\ HasUpstreamJobURI job' = false /\
    PayloadBytes (payload job') = 0 /\ DocumentCount (payload job') = 0 /\
    Copies (payload job') = (if Copies (payload job) =? 0 then 1 else Copies (payload job)) /\
    CreatedAt (times job') = timeOrNow now (CreatedAt (times job)).
Proof.
  intros Hok Hparse Hnow Hcr. destruct (CreateJob_run now (reservation job) s Hok eq_refl) as [Hrun Hok'].
  set (r := set_id (seq s + 1) (row_of_job (withCreateDefaults now (normalizeRoute (reservation job))))) in *.
  exists {| rows := rows s ++ [r]; seq := seq s + 1 |}, r, (scanJob r).
  assert (HasUpstreamJobID (scanJob r) = false /\ HasUpstreamJobURI (scanJob r) = false) as [H1 H2] by done.
  split_and!; try done.
  - unfold Reserve. rewrite Hparse. cbn [lift_res]. by rewrite (run_bind _ _ _ job s).
  - intros x Hx. pose proof (ok_ids _ Hok x Hx). lia.
  - unfold GetByProxyID. cbn [parseScopedID asInt arg lift_res].
    rewrite (run_bind _ _ _ (""%string, seq s + 1) {| rows := rows s ++ [r]; seq := seq s + 1 |}) by done.
    rewrite (run_bind _ _ _ r {| rows := rows s ++ [r]; seq := seq s + 1 |}); [done|].
    apply query_row_one; [done|cbn [rows]; set_solver| |].
    + unfold in_scope. cbn. by rewrite Z.eqb_refl.
    + intros x Hx. apply in_scope_id in Hx. done.
  - change (CreatedAt (times (scanJob r))) with (parseTime (Some (formatTime (timeOrNow now (CreatedAt (times job)))))).
    apply parseTime_formatTime. unfold timeOrNow. by destruct (IsZero _).
Qed.

Lemma Reserve_GetByProxyID_witness : exists job',
  GetByProxyID [AInt KInt 3] (snd (Reserve ex_now [AString "office"; AString "eve"] ex_store)) =
    (Done job', snd (Reserve ex_now [AString "office"; AString "eve"] ex_store)) /\
  Copies (payload job') = 1.
Proof.
  destruct (Reserve_GetByProxyID ex_now [AString "office"; AString "eve"] ex_store (newJob "office" "eve" "" "" 0) ex_store_ok)
    as (s' & r & job' & E & _ & _ & H & _ & _ & _ & _ & _ & _ & _ & Hc & _).
  - reflexivity.
  - vm_compute. split; [discriminate|reflexivity].
  - vm_compute. split; [discriminate|reflexivity].
  - assert (seq ex_store = 2) as Hseq by (vm_compute; reflexivity). rewrite Hseq in *.
    exists job'. rewrite E. split; [exact H|exact Hc].
Defined.

(** ** The reconciliation clock *)

(** A row that waits for its reconciliation: the clock started at [t], the
    next attempt is due [d] later. *)
Definition waiting (id : Z) (t : time) (d : Z) (s : Store) : Prop :=
  exists r, r ∈ rows s /\ proxy_job_id r = id /\ state r = StateUncertain /\ terminal_at (r_times r) = None /\
    reconcile_at (r_times r) = Some (formatTime t) /\ next_reconcile_at (r_times r) = Some (formatTime (Add t d)).

Lemma reconciliationBackoff_doubles t d : 0 < t -> d = 0 \/ Minute <= d <= Hour ->
  reconciliationBackoff t (Add t d) = if d =? 0 then Minute else Z.min (2 * d) Hour.
Proof.
  intros Ht Hd. unfold reconciliationBackoff, IsZero, After, Add, Sub, reconciliationInitialBackoff, reconciliationMaxBackoff.
  assert (Minute = 60000000000 /\ Hour = 3600000000000) as [Hm Hh] by (split; vm_compute; done).
  destruct (Z.eqb_spec d 0) as [->|Hd0].
  - rewrite Z.add_0_r, Z.ltb_irrefl, !orb_true_r. done.
  - destruct Hd as [?|Hd]; [done|]. rewrite Hm, Hh in *.
    destruct (Z.eqb_spec t 0); [lia|]. destruct (Z.eqb_spec (t + d) 0); [lia|].
    destruct (Z.ltb_spec t (t + d)); [|lia]. cbn [orb negb].
    rewrite (Z.min_r maxI64), (Z.max_r minI64) by (unfold maxI64, minI64; lia).
    replace (t + d - t) with d by lia.
    change (3600000000000 / 2) with 1800000000000.
    destruct (Z.leb_spec 3600000000000 d); [lia|]. destruct (Z.ltb_spec 1800000000000 d); [lia|].
    rewrite i64_small by (unfold maxI64, minI64; lia).
    destruct (Z.ltb_spec 60000000000 (d * 2)); [|lia].
    destruct (Z.ltb_spec 3600000000000 (d * 2)); lia.
Qed.

Lemma MarkUncertain_waiting now q id reason t s r : store_ok s -> r ∈ rows s -> in_scope q id r = true ->
  IsTerminalState (state r) = false -> terminal_at (r_times r) = None -> 0 < t ->
  exists s', MarkUncertain now [AString q; AInt KInt id; AString reason; ATime t] s = (Done tt, s') /\
    store_ok s' /\ waiting id t 0 s'.
Proof.
  intros Hok Hr Hsc Ht Hterm Hpos. pose proof (in_scope_id q id r Hsc) as Hid.
  pose proof (MarkUncertain_writes now [AString q; AInt KInt id; AString reason; ATime t] s Hok) as Hw.
  unfold MarkUncertain in *. rewrite (run_bind _ _ _ (q, id, or_str "" reason, t) s) in * by done.
  cbv beta iota zeta in *. assert (timeOrNow now t = t) as Hnow.
  { unfold timeOrNow, IsZero. by destruct (Z.eqb_spec t 0); [lia|]. }
  rewrite Hnow in *. unfold tx in *.
  rewrite (run_bind _ _ _ _ _ (query_row_one _ s r Hok Hr Hsc (in_scope_one q id r Hsc))) in *. rewrite Ht in *.
  match goal with |- context [exec_update _ ?f] => set (g := f) in * end.
  assert (no_clash (g r) s) as Hno by (by eapply no_clash_same; [..|left]).
  rewrite (run_bind _ _ _ _ _ (exec_update_one _ g r s Hok Hr Hsc (in_scope_one q id r Hsc) eq_refl Hno)) in *.
  exists (set_row (g r) s). split_and!; [done|by eapply set_row_ok|].
  exists (g r). split_and!; try done; [by eapply set_row_in|]. cbn. unfold Add. by rewrite Z.add_0_r.
Qed.

Lemma MarkReconcileAttempt_waiting now id t d t' s : store_ok s -> waiting id t d s ->
  0 < t -> t + d < max_time -> d = 0 \/ Minute <= d <= Hour -> 0 < t' ->
  exists s', MarkReconcileAttempt now [AInt KInt id; ATime t'] s = (Done tt, s') /\ store_ok s' /\
    waiting id t' (if d =? 0 then Minute else Z.min (2 * d) Hour) s'.
Proof.
  intros Hok (r & Hr & Hid & Hst & Hterm & Hrec & Hnext) Hpos Hmax Hd Hpos'.
  assert (0 <= d) as Hd0 by (destruct Hd as [->|[Hm _]]; [lia|]; change Minute with 60000000000 in Hm; lia).
  unfold MarkReconcileAttempt. rewrite (run_bind _ _ _ (id, t') s) by done. cbv beta iota zeta.
  assert (timeOrNow now t' = t') as Hnow.
  { unfold timeOrNow, IsZero. by destruct (Z.eqb_spec t' 0); [lia|]. }
  rewrite Hnow. unfold tx.
  assert (has_id id r = true) as Hp by (unfold has_id; by rewrite Hid, Z.eqb_refl).
  assert (forall x, has_id id x = true -> proxy_job_id x = proxy_job_id r) as Hone.
  { intros x Hx. apply has_id_id in Hx. congruence. }
  rewrite (run_bind _ _ _ _ _ (query_row_one _ s r Hok Hr Hp Hone)), Hrec, Hnext.
  rewrite !parseTime_formatTime by (unfold Add; lia). rewrite reconciliationBackoff_doubles by done.
  match goal with |- context [exec_update ?p ?f] => set (g := f); set (p' := p) end.
  assert (no_clash (g r) s) as Hno by (by eapply no_clash_same; [..|left]).
  assert (p' r = true) as Hp'.
  { unfold p'. rewrite Hp, Hst, String.eqb_refl, bool_decide_true by done. done. }
  rewrite (run_bind _ _ _ _ _ (exec_update_one p' g r s Hok Hr Hp'
    ltac:(intros x Hx; unfold p' in Hx; apply andb_true_iff in Hx as [Hx _]; apply andb_true_iff in Hx as [Hx _]; auto) eq_refl Hno)).
  exists (set_row (g r) s). split_and!; [done|by eapply set_row_ok|].
  exists (g r). by split_and!; [eapply set_row_in|..].
Qed.

(** Attempts at the times [ts], one after the other, all of them successful. *)
Fixpoint attempts (now : time) (id : Z) (ts : list time) (s : Store) : option Store :=
  match ts with
  | [] => Some s
  | t :: r =>
      match MarkReconcileAttempt now [AInt KInt id; ATime t] s with
      | (Done _, s') => attempts now id r s'
      | _ => None
      end
  end.

(** The delay after [k] attempts. *)
Definition delay (k : nat) : Z :=
  match k with O => 0 | Datatypes.S k => Z.min (Minute * 2 ^ Z.of_nat k) Hour end.

Lemma delay_step k : (if delay k =? 0 then Minute else Z.min (2 * delay k) Hour) = delay (Datatypes.S k) /\
  (delay k = 0 \/ Minute <= delay k <= Hour).
Proof.
  assert (Minute = 60000000000 /\ Hour = 3600000000000) as [Hm Hh] by (split; vm_compute; done).
  destruct k as [|k]; [split; [done|by left]|]. unfold delay. rewrite Hm, Hh.
  pose proof (Z.pow_pos_nonneg 2 (Z.of_nat k) ltac:(lia) ltac:(lia)).
  rewrite Nat2Z.inj_succ, Z.pow_succ_r by lia. generalize dependent (2 ^ Z.of_nat k). intros p Hp.
  destruct (Z.eqb_spec (Z.min (60000000000 * p) 3600000000000) 0); lia.
Qed.

Lemma last_cons_default {A} (l : list A) x d : List.last (x :: l) d = List.last l x.
Proof. revert x. induction l as [|y l IH]; intros x; [done|]. cbn in *. by destruct l. Qed.

Lemma attempts_waiting now id ts : forall k t s, store_ok s -> waiting id t (delay k) s ->
  Forall (fun u => 0 < u /\ u + Hour < max_time) (t :: ts) ->
  exists s', attempts now id ts s = Some s' /\ store_ok s' /\
    waiting id (List.last ts t) (delay (k + length ts)) s'.
Proof.
  induction ts as [|u ts IH]; intros k t s Hok Hw Hts.
  { exists s. cbn. rewrite Nat.add_0_r. done. }
  rewrite !Forall_cons in Hts. destruct Hts as ([Ht Ht'] & [Hu Hu'] & Hts).
  destruct (delay_step k) as [Hd Hr].
  assert (delay k <= Hour) as Hle by (destruct Hr as [->|?]; [vm_compute; done|lia]).
  destruct (MarkReconcileAttempt_waiting now id t (delay k) u s Hok Hw Ht ltac:(lia) Hr Hu) as (s1 & E & Hok1 & Hw1).
  rewrite Hd in Hw1. destruct (IH (Datatypes.S k) u s1 Hok1 Hw1 ltac:(by rewrite !Forall_cons)) as (s' & E' & Hok' & Hw').
  exists s'. cbn [attempts length]. rewrite E. split_and!; [done|done|].
  replace (k + Datatypes.S (length ts))%nat with (Datatypes.S k + length ts)%nat by lia.
  by rewrite last_cons_default.
Qed.

(** After a job became uncertain, every reconciliation attempt succeeds,
    and the delays to the next attempt are one minute, two, four, ... doubling
    up to one hour and staying there; the delay is recovered exactly from the
    two timestamps stored as texts. *)
Theorem reconciliation_backoff now q id reason t0 ts s r :
  store_ok s -> r ∈ rows s -> in_scope q id r = true ->
  IsTerminalState (state r) = false -> terminal_at (r_times r) = None ->
  Forall (fun u => 0 < u /\ u + Hour < max_time) (t0 :: ts) ->
  exists s1 s2, MarkUncertain now [AString q; AInt KInt id; AString reason; ATime t0] s = (Done tt, s1) /\
    attempts now id ts s1 = Some s2 /\
    exists r', r' ∈ rows s2 /\ proxy_job_id r' = id /\ state r' = StateUncertain /\
      next_reconcile_at (r_times r') = Some (formatTime (List.last ts t0 + delay (length ts))).
Proof.
  intros Hok Hr Hsc Ht Hterm Hts. assert (0 < t0) as Hpos by (apply Forall_cons in Hts; tauto).
  destruct (MarkUncertain_waiting now q id reason t0 s r Hok Hr Hsc Ht Hterm Hpos) as (s1 & E1 & Hok1 & Hw1).
  destruct (attempts_waiting now id ts 0 t0 s1 Hok1 Hw1 Hts) as (s2 & E2 & Hok2 & (r' & ? & ? & ? & _ & _ & ?)).
  exists s1, s2. split_and!; [done|done|]. by exists r'.
Qed.

Lemma reconciliation_backoff_witness : exists s1 s2,
  MarkUncertain 0 [AString "office"; AInt KInt 2; AString "timeout"; ATime ex_now] ex_store = (Done tt, s1) /\
  attempts 0 2 [ex_now + Minute; ex_now + 3 * Minute; ex_now + 8 * Minute] s1 = Some s2 /\
  exists r', r' ∈ rows s2 /\ next_reconcile_at (r_times r') = Some (formatTime (ex_now + 12 * Minute)).
Proof.
  destruct (reconciliation_backoff 0 "office" 2 "timeout" ex_now [ex_now + Minute; ex_now + 3 * Minute; ex_now + 8 * Minute]
    ex_store (row_at 1 ex_store) ex_store_ok) as (s1 & s2 & E1 & E2 & r' & Hr' & _ & _ & H).
  - apply row_at_in. vm_compute. reflexivity.
  - vm_compute. reflexivity.
  - vm_compute. reflexivity.
  - vm_compute. reflexivity.
  - repeat constructor.
  - exists s1, s2. split; [exact E1|]. split; [exact E2|]. exists r'. split; [exact Hr'|exact H].
Defined.
