(* ===== verification/StoreQueries.v ===== *)
(** * The job registry: documents, lists, totals and retention

    The theorems on whole tables: what accumulates over the documents of a
    job, which jobs a list holds and in which order, what the summary counts
    and what retention removes. *)

From Stdlib Require Import ZArith Lia Ascii String Sorted Permutation.
From stdpp Require Import base tactics list strings gmap sorting.
From S2P Require Import Prelude GoString GoError GoTime GoTimeOrder Store StoreProofs StoreTheorems.

(** ** Timestamps *)

Lemma str_lt_formatTime a b : 0 <= a < max_time -> 0 <= b < max_time -> a / Second < b / Second ->
  str_lt (formatTime a) (formatTime b) = true /\ str_lt (formatTime b) (formatTime a) = false.
Proof.
  intros Ha Hb Hlt. assert (b <> 0) by (intros ->; unfold Second in *; Z.to_euclidean_division_equations; lia).
  assert (String.compare (formatTime a) (formatTime b) = Lt) as E.
  { unfold formatTime, IsZero. destruct (Z.eqb_spec b 0); [done|]. destruct (Z.eqb_spec a 0); [|by apply Format_order].
    destruct (Format_fields b Hb) as (f & _ & -> & _). done. }
  unfold str_lt. rewrite E. split; [done|]. by rewrite String.compare_antisym, E.
Qed.

(** ** Documents of a job *)

(** One call of [UpdateDocument]: the bytes, the pages, the copies, the
    impressions and the last-document flag. *)
Record document := { dFormat : string; dBytes : Z; dPages : option Z; dCopies : Z; dImpressions : option Z; dLast : bool }.

Definition document_args (q : string) (id : Z) (d : document) : list any :=
  [AString q; AInt KInt id; AString (dFormat d); AInt KInt64 (dBytes d); AIntPtr (dPages d); AInt KInt (dCopies d);
   AIntPtr (dImpressions d); ABool (dLast d)].

Definition document_row (now : time) (d : document) (r : row) : row :=
  let p := r_payload r in
  set_times (set_updated (formatTime now) (r_times r))
    (set_payload (if (dFormat d =? "")%string then document_format r else dFormat d) {|
       PayloadBytes := PayloadBytes p + dBytes d; PageCount := add_count (PageCount p) (dPages d);
       Copies := if dCopies d =? 0 then 1 else dCopies d;
       EstimatedImpressions := add_count (EstimatedImpressions p) (dImpressions d);
       DocumentCount := DocumentCount p + (if 0 <? dBytes d then 1 else 0);
       LastDocument := dLast d || LastDocument p |} r).

Lemma UpdateDocument_run now q id d s r : store_ok s -> r ∈ rows s -> in_scope q id r = true ->
  UpdateDocument now (document_args q id d) s = (Done tt, set_row (document_row now d r) s) /\
  store_ok (set_row (document_row now d r) s).
Proof.
  intros Hok Hr Hsc.
  assert (no_clash (document_row now d r) s) as Hno by (by eapply no_clash_same; [..|left]).
  split; [|by eapply set_row_ok]. unfold UpdateDocument.
  rewrite (run_bind _ _ _ (q, id, dFormat d, dBytes d, dPages d, dCopies d, dImpressions d, dLast d) s) by done.
  cbv beta iota zeta.
  match goal with |- context [exec_update _ ?f] => set (g := f) end.
  by rewrite (run_bind _ _ _ _ _ (exec_update_one _ g r s Hok Hr Hsc (in_scope_one q id r Hsc) eq_refl Hno)).
Qed.

(** The documents of a job, sent one after the other. *)
Fixpoint send (now : time) (q : string) (id : Z) (docs : list document) (s : Store) : option Store :=
  match docs with
  | [] => Some s
  | d :: rest =>
      match UpdateDocument now (document_args q id d) s with
      | (Done _, s') => send now q id rest s'
      | _ => None
      end
  end.

Definition sumZ (l : list Z) : Z := foldr Z.add 0 l.

Lemma sumZ_cons x l : sumZ (x :: l) = x + sumZ l.
Proof. done. Qed.

(** A nullable counter after the values [l]: unknown values leave it. *)
Definition counted (c : option Z) (l : list (option Z)) : option Z :=
  match omap id l, c with
  | [], _ => c
  | vs, _ => Some (default 0 c + sumZ vs)
  end.

Lemma counted_step c v l : counted (add_count c v) l = counted c (v :: l).
Proof.
  unfold counted, add_count. destruct v as [v|]; cbn; [|by destruct c].
  destruct c as [c|]; destruct (omap id l) eqn:E; cbn; f_equal; lia.
Qed.

(** After the documents of a job were recorded, the payload is the sum of
    their sizes, the document count is the number of those that are not
    empty, pages and impressions are the sums of the known values (unknown
    when none is known), and the job has its last document when one of them
    was marked so; no other row changes. *)
Theorem documents_accumulate now q id docs s r :
  store_ok s -> r ∈ rows s -> in_scope q id r = true ->
  exists s' r', send now q id docs s = Some s' /\ r' ∈ rows s' /\ proxy_job_id r' = id /\
    PayloadBytes (r_payload r') = PayloadBytes (r_payload r) + sumZ (map dBytes docs) /\
    DocumentCount (r_payload r') = DocumentCount (r_payload r) + zlen (List.filter (fun d => 0 <? dBytes d) docs) /\
    PageCount (r_payload r') = counted (PageCount (r_payload r)) (map dPages docs) /\
    EstimatedImpressions (r_payload r') = counted (EstimatedImpressions (r_payload r)) (map dImpressions docs) /\
    LastDocument (r_payload r') = existsb dLast docs || LastDocument (r_payload r) /\
    r_life r' = r_life r /\
    (forall x, proxy_job_id x <> id -> x ∈ rows s' <-> x ∈ rows s).
Proof.
  revert s r. induction docs as [|d docs IH]; intros s r Hok Hr Hsc.
  { exists s, r. pose proof (in_scope_id q id r Hsc). unfold counted. cbn. rewrite !Z.add_0_r. by split_and!. }
  destruct (UpdateDocument_run now q id d s r Hok Hr Hsc) as [Hrun Hok'].
  set (r1 := document_row now d r) in *.
  assert (r1 ∈ rows (set_row r1 s)) as Hr1 by (by eapply set_row_in).
  assert (in_scope q id r1 = true) as Hsc1 by done.
  destruct (IH _ r1 Hok' Hr1 Hsc1) as (s' & r' & Hs & Hin & Hid & Hb & Hc & Hp & Hi & Hl & Hlife & Hother).
  exists s', r'. cbn [send]. rewrite Hrun. split_and!; [done|done|done|..].
  - rewrite Hb. cbn [map]. rewrite sumZ_cons. unfold r1, document_row. cbn [r_payload set_times set_payload PayloadBytes]. lia.
  - rewrite Hc. unfold r1, document_row. cbn [r_payload set_times set_payload DocumentCount List.filter]. destruct (0 <? dBytes d); rewrite ?zlen_cons; lia.
  - rewrite Hp. cbn [map]. by rewrite <- counted_step.
  - rewrite Hi. cbn [map]. by rewrite <- counted_step.
  - rewrite Hl. unfold r1, document_row. cbn. by destruct (dLast d), (existsb dLast docs), (LastDocument (r_payload r)).
  - done.
  - intros x Hx. rewrite (Hother x Hx). pose proof (in_scope_id q id r Hsc) as Hid'. split; intros H.
    + apply elem_of_set_row in H as [->|[? _]]; [|done]. by rewrite <- Hid' in Hx.
    + apply set_row_other; [done|]. by change (proxy_job_id r1) with (proxy_job_id r); rewrite Hid'.
Qed.

Definition ex_documents : list document :=
  [ {| dFormat := "application/pdf"; dBytes := 1000; dPages := Some 3; dCopies := 2; dImpressions := None; dLast := false |};
    {| dFormat := ""; dBytes := 0; dPages := None; dCopies := 0; dImpressions := Some 6; dLast := true |} ].

Lemma documents_accumulate_witness : exists s' r', send ex_now "office" 2 ex_documents ex_store = Some s' /\
  r' ∈ rows s' /\ PayloadBytes (r_payload r') = 1000 /\ DocumentCount (r_payload r') = 1 /\
  PageCount (r_payload r') = Some 3 /\ LastDocument (r_payload r') = true.
Proof.
  assert (PayloadBytes (r_payload (row_at 1 ex_store)) = 0 /\ DocumentCount (r_payload (row_at 1 ex_store)) = 0 /\
    PageCount (r_payload (row_at 1 ex_store)) = None /\ LastDocument (r_payload (row_at 1 ex_store)) = false)
    as (E1 & E2 & E3 & E4) by (vm_compute; done).
  destruct (documents_accumulate ex_now "office" 2 ex_documents ex_store (row_at 1 ex_store) ex_store_ok)
    as (s' & r' & H1 & H2 & _ & H3 & H4 & H5 & _ & H6 & _).
  - apply row_at_in. vm_compute. reflexivity.
  - vm_compute. reflexivity.
  - rewrite E1 in H3. rewrite E2 in H4. rewrite E3 in H5. rewrite E4 in H6.
    exists s', r'. split; [exact H1|]. split; [exact H2|]. split; [exact H3|]. split; [exact H4|]. split; [exact H5|exact H6].
Defined.

(** ** Retention *)

(** The time a row ended, as the retention statement reads it. *)
Definition ended_text (r : row) : string := default (updated_at (r_times r)) (terminal_at (r_times r)).

(** Retention deletes exactly as many rows as it reports; it never deletes
    a row whose state is not terminal, deletes every terminal row that ended
    in an earlier second than the cutoff, and keeps every row that ended in a
    later one. *)
Theorem cleanup_exact now cutoff s : 0 < cutoff < max_time ->
  exists n s', CleanupTerminalBefore now (ATime cutoff) s = (Done n, s') /\
    zlen (rows s) = n + zlen (rows s') /\ seq s' = seq s /\
    (forall r, r ∈ rows s' -> r ∈ rows s) /\
    (forall r, r ∈ rows s -> in_strings (state r) terminalStates = false -> r ∈ rows s') /\
    (forall r e, r ∈ rows s -> ended_text r = formatTime e -> 0 <= e < max_time ->
       (in_strings (state r) terminalStates = true -> e / Second < cutoff / Second -> r ∉ rows s') /\
       (cutoff / Second < e / Second -> r ∈ rows s')).
Proof.
  intros Hc. unfold CleanupTerminalBefore. cbn [parseCleanupCutoff].
  assert (IsZero cutoff = false) as -> by (unfold IsZero; apply Z.eqb_neq; lia).
  eexists _, _. split; [reflexivity|]. cbn [rows seq].
  assert (forall p (l : list row), zlen l = zlen (List.filter p l) + zlen (List.filter (fun r => negb (p r)) l)) as Hpart.
  { intros p l. induction l as [|x l IH]; [done|]. cbn. destruct (p x); cbn [negb]; rewrite ?zlen_cons; lia. }
  split; [apply Hpart|]. split; [done|].
  assert (forall r, r ∈ List.filter (fun x => negb (expired cutoff x)) (rows s) <-> expired cutoff r = false /\ r ∈ rows s) as Hin.
  { intros r. rewrite elem_of_filter_bool, negb_true_iff. done. }
  split; [intros r Hr; by apply Hin in Hr as [_ ?]|].
  split; [intros r Hr Hs; apply Hin; unfold expired; by rewrite Hs|].
  intros r e Hr Hd He. unfold ended_text in Hd. split.
  - intros Hs Hlt Hin'. apply Hin in Hin' as [Hx _]. unfold expired in Hx. rewrite Hs, Hd in Hx.
    by rewrite (proj1 (str_lt_formatTime e cutoff He ltac:(lia) Hlt)) in Hx.
  - intros Hlt. apply Hin. split; [|done]. unfold expired. rewrite Hd.
    rewrite (proj2 (str_lt_formatTime cutoff e ltac:(lia) He Hlt)). apply andb_false_r.
Qed.

Lemma cleanup_exact_witness : exists n s', CleanupTerminalBefore 0 (ATime (ex_now + 3 * Hour)) ex_ended = (Done n, s') /\
  zlen (rows ex_ended) = n + zlen (rows s').
Proof.
  destruct (cleanup_exact 0 (ex_now + 3 * Hour) ex_ended) as (n & s' & E & Hn & _).
  - vm_compute. split; reflexivity.
  - exists n, s'. split; [exact E|exact Hn].
Defined.

(** Inside one second the texts do not follow the clock: of two times half
    a second apart, the later one has the smaller text, so retention keeps a
    terminal row that is older than the cutoff. *)
Example subsecond_order :
  let early := ex_now in
  let late := ex_now + 500000000 in
  early < late /\ str_lt (formatTime late) (formatTime early) = true /\
  let r := set_life {| State := StateTerminal; ObservedState := ""; ObservedError := "" |}
             (set_times {| created_at := formatTime early; updated_at := formatTime early;
                terminal_at := Some (formatTime early); reconcile_at := None; last_reconcile_at := None;
                next_reconcile_at := None |} (set_id 1 no_row)) in
  fst (CleanupTerminalBefore 0 (ATime late) {| rows := [r]; seq := 1 |}) = Done 0.
Proof. vm_compute. done. Qed.

(** ** Lists *)

Lemma string_compare_refl s : String.compare s s = Eq.
Proof. induction s as [|c s IH]; [done|]. by rewrite string_compare_same. Qed.

Lemma string_compare_trans_lt a : forall b c, String.compare a b = Lt -> String.compare b c = Lt -> String.compare a c = Lt.
Proof.
  induction a as [|x a IH]; intros [|y b] [|z c]; try done.
  rewrite !string_compare_cons. unfold lex, Ascii.compare.
  destruct (N.compare_spec (N_of_ascii x) (N_of_ascii y)) as [E1|E1|E1]; [|intros _|done];
  (destruct (N.compare_spec (N_of_ascii y) (N_of_ascii z)) as [E2|E2|E2]; [| |done]);
  destruct (N.compare_spec (N_of_ascii x) (N_of_ascii z)) as [E3|E3|E3]; try done; try lia. apply IH.
Qed.

Lemma order_le_spec key a b : order_le key a b = true <->
  String.compare (key a) (key b) = Lt \/ key a = key b /\ proxy_job_id a <= proxy_job_id b.
Proof.
  unfold order_le. destruct (String.compare (key a) (key b)) eqn:E.
  - apply String.compare_eq_iff in E. rewrite Z.leb_le. naive_solver.
  - naive_solver.
  - split; [done|]. intros [?|[Hk _]]; [done|]. rewrite Hk, string_compare_refl in E. done.
Qed.

Lemma order_le_trans key a b c : order_le key a b = true -> order_le key b c = true -> order_le key a c = true.
Proof.
  rewrite !order_le_spec. intros [H1|[H1 I1]] [H2|[H2 I2]].
  - left. by eapply string_compare_trans_lt.
  - left. congruence.
  - left. congruence.
  - right. split; [congruence|lia].
Qed.

Lemma order_le_total key a b : order_le key a b = false -> order_le key b a = true.
Proof.
  unfold order_le. rewrite (String.compare_antisym (key b)).
  destruct (String.compare (key a) (key b)); cbn; intros; [|done|done]. bool_to_prop. apply Z.leb_le. lia.
Qed.

Lemma insert_row_perm le x l : Permutation (insert_row le x l) (x :: l).
Proof.
  induction l as [|y l IH]; [done|]. cbn. destruct (le x y); [done|].
  rewrite IH. apply perm_swap.
Qed.

Lemma sort_rows_perm le l : Permutation (sort_rows le l) l.
Proof. induction l as [|x l IH]; [done|]. cbn. rewrite insert_row_perm. by constructor. Qed.

Lemma insert_row_sorted key x l : StronglySorted (fun a b => order_le key a b = true) l ->
  StronglySorted (fun a b => order_le key a b = true) (insert_row (order_le key) x l).
Proof.
  induction l as [|y l IH]; cbn; intros Hs; [repeat constructor|].
  inversion Hs as [|? ? Hl Hy]; subst. rewrite List.Forall_forall in Hy. destruct (order_le key x y) eqn:E.
  - constructor; [done|]. apply List.Forall_forall. intros z [<-|Hz]; [done|].
    by eapply order_le_trans; [|apply Hy].
  - constructor; [auto|]. apply List.Forall_forall. intros z Hz.
    apply (Permutation_in _ (insert_row_perm _ _ _)) in Hz as [<-|Hz]; [by apply order_le_total|auto].
Qed.

Lemma sort_rows_sorted key l : StronglySorted (fun a b => order_le key a b = true) (sort_rows (order_le key) l).
Proof. induction l as [|x l IH]; [constructor|]. by apply insert_row_sorted. Qed.

Lemma sorted_impl {A} (R Q : A -> A -> Prop) l : (forall a b, a ∈ l -> b ∈ l -> R a b -> Q a b) ->
  StronglySorted R l -> StronglySorted Q l.
Proof.
  induction l as [|x l IH]; intros H Hs; [constructor|]. inversion Hs as [|? ? Hl Hx]; subst.
  rewrite List.Forall_forall in Hx. constructor; [apply IH; [|done]; set_solver|].
  apply List.Forall_forall. intros y Hy. apply H; [left| |auto]. right. by apply list_elem_of_In.
Qed.

Lemma elem_of_limit_rows a b l (r : row) : r ∈ limit_rows a b l -> r ∈ l.
Proof.
  assert (forall n (k : list row), r ∈ take n k -> r ∈ k) as Ht.
  { intros n k Hr. rewrite <- (take_drop n k). apply elem_of_app. by left. }
  assert (forall n (k : list row), r ∈ drop n k -> r ∈ k) as Hd.
  { intros n k Hr. rewrite <- (take_drop n k). apply elem_of_app. by right. }
  unfold limit_rows. destruct (0 <? b), (0 <? a); eauto.
Qed.

(** Every row carries the text of a creation time. *)
Definition created_known (s : Store) (c : row -> time) : Prop :=
  forall r, r ∈ rows s -> created_at (r_times r) = formatTime (c r) /\ 0 <= c r < max_time.

(** A list holds the rows its filter matches, each once, in the order of
    their creation to the second (equal texts in the order of the ids), of
    which the offset skips and the limit keeps the first; listing changes
    nothing. *)
Theorem ListJobs_spec f s c : fIncludeTerminal f && fExcludeTerminal f = false -> created_known s c ->
  exists l, ListJobs [AFilter f] s =
      (Done (map scanJob (limit_rows (fLimit (mergeJobFilters zeroFilter f)) (fOffset (mergeJobFilters zeroFilter f)) l)), s) /\
    Permutation l (List.filter (filter_matches (mergeJobFilters zeroFilter f)) (rows s)) /\
    StronglySorted (fun a b => c a / Second <= c b / Second) l /\
    StronglySorted (fun a b => created_at (r_times a) = created_at (r_times b) -> proxy_job_id a <= proxy_job_id b) l.
Proof.
  intros Hterm Hc. set (g := mergeJobFilters zeroFilter f).
  set (key := fun r : row => created_at (r_times r)).
  exists (sort_rows (order_le key) (List.filter (filter_matches g) (rows s))).
  split; [|split; [apply sort_rows_perm|]].
  - unfold ListJobs. cbn [parseJobFilterArgs parseJobFilterLoop lift_res]. fold g.
    rewrite (run_bind _ _ _ g s) by done.
    assert (fIncludeTerminal g && fExcludeTerminal g = false) as ->; [|done].
    unfold g. cbn [fIncludeTerminal fExcludeTerminal mergeJobFilters zeroFilter]. by rewrite !orb_false_r.
  - pose proof (sort_rows_sorted key (List.filter (filter_matches g) (rows s))) as Hs.
    assert (forall r, r ∈ sort_rows (order_le key) (List.filter (filter_matches g) (rows s)) -> r ∈ rows s) as Hin.
    { intros r Hr. apply list_elem_of_In in Hr. apply (Permutation_in _ (sort_rows_perm _ _)) in Hr.
      apply list_elem_of_In, elem_of_filter_bool in Hr. tauto. }
    split; (eapply sorted_impl; [|exact Hs]); intros a b Ha Hb Hle; apply order_le_spec in Hle.
    + destruct (Hc a (Hin a Ha)) as [Ea Ra], (Hc b (Hin b Hb)) as [Eb Rb]. unfold key in Hle. rewrite Ea, Eb in Hle.
      destruct (Z.le_gt_cases (c a / Second) (c b / Second)) as [?|Hlt]; [done|exfalso].
      destruct (str_lt_formatTime (c b) (c a) Rb Ra Hlt) as [H1 H2].
      destruct Hle as [Hle|[Hle _]]; [unfold str_lt in H2; by rewrite Hle in H2|].
      rewrite Hle in H1. unfold str_lt in H1. by rewrite string_compare_refl in H1.
    + intros He. destruct Hle as [Hle|[_ ?]]; [|done]. unfold key in Hle. rewrite He in Hle.
      by rewrite string_compare_refl in Hle.
Qed.

Lemma ListJobs_spec_witness : exists l, Permutation l (List.filter (filter_matches (mergeJobFilters zeroFilter zeroFilter)) (rows ex_store)) /\
  StronglySorted (fun a b => ex_now / Second <= ex_now / Second) l.
Proof.
  destruct (ListJobs_spec zeroFilter ex_store (fun _ => ex_now)) as (l & _ & Hp & Hs & _).
  - reflexivity.
  - intros r Hr. assert (rows ex_store = [row_at 0 ex_store; row_at 1 ex_store]) as E by (vm_compute; reflexivity).
    assert (created_at (r_times (row_at 0 ex_store)) = formatTime ex_now) as E0 by (vm_compute; reflexivity).
    assert (created_at (r_times (row_at 1 ex_store)) = formatTime ex_now) as E1 by (vm_compute; reflexivity).
    rewrite E in Hr. split; [|split; vm_compute; [discriminate|reflexivity]].
    apply elem_of_cons in Hr as [->|Hr]; [exact E0|]. apply list_elem_of_singleton in Hr as ->. exact E1.
  - exists l. split; [exact Hp|exact Hs].
Defined.

(** A list for a queue and a user holds only jobs of this queue and this
    user, whatever else the filter says, and without a limit every one of
    them the rest of the filter matches. *)
Theorem ListJobs_owned f s jobs s' : fQueue f <> ""%string -> fRequestingUser f <> ""%string ->
  ListJobs [AFilter f] s = (Done jobs, s') ->
  s' = s /\
  (forall j, j ∈ jobs -> Queue (names j) = fQueue f /\ RequestingUser (names j) = fRequestingUser f) /\
  (fLimit f = 0 -> fOffset f = 0 ->
     forall r, r ∈ rows s -> filter_matches (mergeJobFilters zeroFilter f) r = true -> scanJob r ∈ jobs).
Proof.
  intros Hq Hu. set (g := mergeJobFilters zeroFilter f).
  assert (fQueue g = fQueue f /\ fRequestingUser g = fRequestingUser f) as [Eq Eu].
  { unfold g. cbn [fQueue fRequestingUser mergeJobFilters zeroFilter]. by rewrite !or_str_nil_r. }
  unfold ListJobs. cbn [parseJobFilterArgs parseJobFilterLoop lift_res]. fold g.
  rewrite (run_bind _ _ _ g s) by done. destruct (fIncludeTerminal g && fExcludeTerminal g); [done|].
  rewrite (run_bind _ _ _ (List.filter (filter_matches g) (rows s)) s) by done.
  set (key := fun r : row => created_at (r_times r)).
  set (l := sort_rows (order_le key) (List.filter (filter_matches g) (rows s))).
  intros Hrun. assert (jobs = map scanJob (limit_rows (fLimit g) (fOffset g) l) /\ s' = s) as [-> ->]
    by (unfold mret, M_ret in Hrun; split; congruence). clear Hrun.
  assert (forall r, r ∈ l <-> filter_matches g r = true /\ r ∈ rows s) as Hl.
  { intros r. rewrite <- elem_of_filter_bool, !list_elem_of_In. split; apply Permutation_in;
      [apply sort_rows_perm|symmetry; apply sort_rows_perm]. }
  split; [done|]. split.
  - intros j Hj. apply list_elem_of_In, in_map_iff in Hj as (r & <- & Hr). apply list_elem_of_In in Hr.
    assert (r ∈ l) as Hr'.
    { by eapply elem_of_limit_rows. }
    apply Hl in Hr' as [Hm _]. unfold filter_matches in Hm. rewrite Eq, Eu in Hm. rewrite !(or_str_keep _ _ Hu) in Hm.
    rewrite !andb_true_iff in Hm. destruct Hm as [[[[[[[[[[[[[[H1 _] H2] _] _] _] _] _] _] _] _] _] _] _] _].
    unfold when_str in H1, H2. apply String.eqb_neq in Hq, Hu. rewrite Hq in H1. rewrite Hu in H2.
    apply String.eqb_eq in H1, H2. done.
  - intros Hlim Hoff r Hr Hm.
    assert (fLimit g = 0 /\ fOffset g = 0) as [-> ->].
    { unfold g. cbn [fLimit fOffset mergeJobFilters zeroFilter]. by rewrite Hlim, Hoff. }
    cbn. apply list_elem_of_In, in_map, list_elem_of_In, Hl. done.
Qed.

Lemma ListJobs_owned_witness : exists jobs,
  ListJobs [AFilter (set_fQueue "office" "bob" zeroFilter)] ex_store = (Done jobs, ex_store) /\
  (forall j, j ∈ jobs -> Queue (names j) = "office"%string /\ RequestingUser (names j) = "bob"%string).
Proof.
  destruct (ListJobs [AFilter (set_fQueue "office" "bob" zeroFilter)] ex_store) as [o s'] eqn:E.
  assert (match o with Done _ => true | _ => false end = true) as Ho.
  { replace o with (fst (ListJobs [AFilter (set_fQueue "office" "bob" zeroFilter)] ex_store)) by (rewrite E; reflexivity).
    vm_compute. reflexivity. }
  destruct o as [jobs| | |]; try discriminate Ho.
  destruct (ListJobs_owned (set_fQueue "office" "bob" zeroFilter) ex_store jobs s') as (-> & H & _).
  - discriminate.
  - discriminate.
  - exact E.
  - exists jobs. split; [reflexivity|exact H].
Defined.

(** ** The summary *)

Definition count (p : row -> bool) (l : list row) : Z := zlen (List.filter p l).
Definition pair_of (r : row) : string * string := (queue r, state r).

Definition group_count (P : string * string -> bool) (l : list row) (k : string * string) : Z :=
  if P k then count (fun r => bool_decide (pair_of r = k)) l else 0.

Lemma group_sum_nil P ks : sumZ (map (group_count P []) ks) = 0.
Proof. induction ks as [|k ks IH]; [done|]. cbn [map]. rewrite sumZ_cons, IH. unfold group_count. by destruct (P k). Qed.

(** One more row adds one to its group, and to no other. *)
Lemma group_sum_cons P x l ks : NoDup ks -> sumZ (map (group_count P (x :: l)) ks) =
  (if bool_decide (pair_of x ∈ ks) && P (pair_of x) then 1 else 0) + sumZ (map (group_count P l) ks).
Proof.
  induction ks as [|k ks IH]; intros Hnd; [done|]. apply NoDup_cons in Hnd as [Hk Hnd].
  cbn [map]. rewrite !sumZ_cons, IH by done.
  assert (group_count P (x :: l) k = (if P k && bool_decide (pair_of x = k) then 1 else 0) + group_count P l k) as ->.
  { unfold group_count, count. cbn. destruct (P k), (bool_decide (pair_of x = k)); cbn; rewrite ?zlen_cons; lia. }
  destruct (decide (pair_of x = k)) as [<-|Hne].
  - rewrite (bool_decide_false (pair_of x ∈ ks)), (bool_decide_true (pair_of x = pair_of x)) by done.
    rewrite bool_decide_true by set_solver. cbn. destruct (P (pair_of x)); cbn; lia.
  - rewrite (bool_decide_false (pair_of x = k)) by done.
    replace (bool_decide (pair_of x ∈ k :: ks)) with (bool_decide (pair_of x ∈ ks)) by (apply bool_decide_ext; set_solver).
    rewrite andb_false_r. lia.
Qed.

(** The sum of the counts of distinct groups is the count of their union. *)
Lemma group_sum P ks l : NoDup ks -> (forall r, r ∈ l -> pair_of r ∈ ks) ->
  sumZ (map (group_count P l) ks) = count (fun r => P (pair_of r)) l.
Proof.
  intros Hnd. induction l as [|x l IH]; intros Hin; [by apply group_sum_nil|].
  rewrite group_sum_cons, IH by (done || set_solver). rewrite bool_decide_true by set_solver. unfold count. cbn.
  destruct (P (pair_of x)); rewrite ?zlen_cons; lia.
Qed.

Definition add_group (s : JobSummary) (g : string * string * Z) : JobSummary :=
  let '(q, st, n) := g in
  {| Total := Total s + n; ByQueue := add_to q n (ByQueue s); ByState := add_to st n (ByState s) |}.

(** What folding the groups adds to a total and to one key of a map. *)
Lemma add_groups gs : forall s0,
  let s := fold_left add_group gs s0 in
  Total s = Total s0 + sumZ (map snd gs) /\
  (forall q, ByQueue s !! q = if existsb (fun g => fst (fst g) =? q)%string gs
     then Some (default 0 (ByQueue s0 !! q) + sumZ (map (fun g => if (fst (fst g) =? q)%string then snd g else 0) gs))
     else ByQueue s0 !! q) /\
  (forall st, ByState s !! st = if existsb (fun g => snd (fst g) =? st)%string gs
     then Some (default 0 (ByState s0 !! st) + sumZ (map (fun g => if (snd (fst g) =? st)%string then snd g else 0) gs))
     else ByState s0 !! st).
Proof.
  assert (forall (m : gmap string Z) k n q (b : bool) z, 
    (if b then Some (default 0 (add_to k n m !! q) + z) else add_to k n m !! q) =
    if (k =? q)%string || b then Some (default 0 (m !! q) + ((if (k =? q)%string then n else 0) + (if b then z else 0)))
    else m !! q) as Hadd.
  { intros m k n q b z. unfold add_to. destruct (String.eqb_spec k q) as [->|Hne].
    - rewrite lookup_insert_eq. cbn. destruct b; f_equal; lia.
    - rewrite lookup_insert_ne by done. cbn. destruct b; [f_equal; lia|done]. }
  assert (forall (f : string * string * Z -> string) k gs, existsb (fun g => f g =? k)%string gs = false ->
    sumZ (map (fun g => if (f g =? k)%string then snd g else 0) gs) = 0) as Hnone.
  { intros f k l. induction l as [|g l IH]; [done|]. cbn [existsb map]. intros H. apply orb_false_iff in H as [H1 H2].
    by rewrite sumZ_cons, H1, IH. }
  induction gs as [|[[q st] n] gs IH]; intros s0; cbn zeta.
  { cbn. split_and!; [lia|done|done]. }
  cbn [fold_left]. destruct (IH (add_group s0 (q, st, n))) as (Ht & Hq & Hs). cbn zeta in Ht, Hq, Hs. split_and!.
  - rewrite Ht. cbn [map]. rewrite sumZ_cons. cbn. lia.
  - intros k. rewrite Hq. cbn [add_group ByQueue]. rewrite Hadd. cbn [existsb map fst snd]. rewrite sumZ_cons.
    destruct (existsb (fun g => fst (fst g) =? k)%string gs) eqn:E; [done|]. by rewrite (Hnone (fun g => fst (fst g)) k gs E).
  - intros k. rewrite Hs. cbn [add_group ByState]. rewrite Hadd. cbn [existsb map fst snd]. rewrite sumZ_cons.
    destruct (existsb (fun g => snd (fst g) =? k)%string gs) eqn:E; [done|]. by rewrite (Hnone (fun g => snd (fst g)) k gs E).
Qed.

Lemma group_counts_sum (P : string * string -> bool) l :
  sumZ (map (fun g : string * string * Z => if P (fst g) then snd g else 0) (group_counts l)) = count (fun r => P (pair_of r)) l.
Proof.
  unfold group_counts. rewrite map_map. cbn [fst snd].
  rewrite <- (group_sum P (remove_dups (map pair_of l))); [done|apply NoDup_remove_dups|].
  intros r Hr. apply elem_of_remove_dups. apply list_elem_of_In, in_map. by apply list_elem_of_In.
Qed.

Lemma group_counts_exists (P : string * string -> bool) l :
  existsb (fun g : string * string * Z => P (fst g)) (group_counts l) = existsb (fun r => P (pair_of r)) l.
Proof.
  apply eq_true_iff_eq. rewrite !existsb_exists. unfold group_counts. split.
  - intros (g & Hg & Hp). apply in_map_iff in Hg as (k & <- & Hk). cbn in Hp. rewrite <- list_elem_of_In, elem_of_remove_dups in Hk.
    apply list_elem_of_In, in_map_iff in Hk as (r & <- & Hr). eauto.
  - intros (r & Hr & Hp). eexists. split; [apply in_map|exact Hp]. rewrite <- list_elem_of_In, elem_of_remove_dups, list_elem_of_In. apply (in_map _ _ _ Hr).
Qed.

Lemma count_all l : count (fun _ => true) l = zlen l.
Proof. induction l as [|x l IH]; [done|]. unfold count in *. cbn. rewrite !zlen_cons. lia. Qed.

(** The summary of the registry is exact: the total is the number of
    rows, the entry of a queue (of a state) the number of rows with it, and
    queues and states without a row have no entry. *)
Theorem SummarizeJobs_exact s : exists sum, SummarizeJobs (Some s) = Ok sum /\
  Total sum = zlen (rows s) /\
  (forall q, ByQueue sum !! q =
     if existsb (fun r => queue r =? q)%string (rows s) then Some (count (fun r => queue r =? q)%string (rows s)) else None) /\
  (forall st, ByState sum !! st =
     if existsb (fun r => state r =? st)%string (rows s) then Some (count (fun r => state r =? st)%string (rows s)) else None).
Proof.
  eexists. split; [reflexivity|].
  destruct (add_groups (group_counts (rows s)) {| Total := 0; ByQueue := ∅; ByState := ∅ |}) as (Ht & Hq & Hs).
  cbn [Total ByQueue ByState] in *.
  change (fold_left add_group (group_counts (rows s)) {| Total := 0; ByQueue := ∅; ByState := ∅ |})
    with (summarize (group_counts (rows s))) in *.
  split_and!.
  - rewrite Ht.
    change (map snd (group_counts (rows s))) with (map (fun g : string * string * Z => if (fun _ : string * string => true) (fst g) then snd g else 0) (group_counts (rows s))).
    rewrite (group_counts_sum (fun _ : string * string => true)). rewrite Z.add_0_l. apply count_all.
  - intros q. rewrite Hq, (group_counts_sum (fun k => fst k =? q)%string), (group_counts_exists (fun k => fst k =? q)%string), lookup_empty.
    done.
  - intros st. rewrite Hs, (group_counts_sum (fun k => snd k =? st)%string), (group_counts_exists (fun k => snd k =? st)%string), lookup_empty.
    done.
Qed.
