(* ===== verification/Formats.v ===== *)
(** * Raster families ([internal/proxy/capabilities.go])

    The syntax of the URF and PWG Raster capabilities of a printer: the tokens
    of [urf-supported], the keywords of [pwg-raster-document-type-supported],
    and when a printer's description of a family is complete enough to be
    offered to clients. The regular expressions are written as predicates on
    the text; [(?i)] folds the US-ASCII letters. *)

From Stdlib Require Import ZArith Lia Ascii String.
From stdpp Require Import base tactics list strings gmap.
From S2P Require Import Prelude GoString Goipp IppAttrs MediaCatalog.

(** ** Tokens *)

Fixpoint all_digits (s : string) : bool :=
  match s with EmptyString => true | String c r => is_digit c && all_digits r end.

(** A number without a leading zero. *)
Definition positive_number (s : string) : bool :=
  match s with
  | String c r => is_digit c && negb (Ascii.eqb c "0") && all_digits r
  | EmptyString => false
  end.
(** One digit or more. *)
Definition some_digits (s : string) : bool := negb (s =? "")%string && all_digits s.
(** Such numbers, separated by hyphens. *)
Definition positive_list (s : string) : bool := forallb positive_number (Split s "-").

(** A token that is one of the prefixes followed by what [p] accepts. *)
Definition token_of (prefixes : list string) (p : string -> bool) (token : string) : bool :=
  let t := ToUpper token in existsb (fun pre => HasPrefix t pre && p (sdrop (slen pre) t)) prefixes.

Definition urfVersionToken : string -> bool :=
  token_of ["V"%string] (fun s => match Split s "." with [a; b] => some_digits a && some_digits b | _ => false end).
Definition urfWidthToken : string -> bool := token_of ["W"%string] positive_list.
Definition urfColorSpaceToken : string -> bool :=
  token_of ["SRGB"; "ADOBERGB"; "DEVRGB"; "DEVW"; "DEVCMYK"]%string positive_list.
Definition urfPositiveNumericListToken : string -> bool :=
  token_of ["CP"; "DM"; "FN"; "IS"; "MT"; "OB"; "PQ"]%string positive_list.
Definition urfOptionalZeroToken : string -> bool :=
  token_of ["IFU"; "OFU"]%string (fun s => (s =? "0")%string || positive_number s).
Definition urfResolutionToken : string -> bool := token_of ["RS"%string] positive_list.

Definition pwgBlackRasterType (s : string) : bool := in_strings (ToLower s) ["black_1"; "black_8"; "black_16"]%string.
Definition pwgGrayRasterType (s : string) : bool := in_strings (ToLower s) ["sgray_1"; "sgray_8"; "sgray_16"]%string.
Definition pwgColorRasterType (s : string) : bool :=
  in_strings (ToLower s) ["srgb_8"; "srgb_16"; "rgb_8"; "rgb_16"; "adobe-rgb_8"; "adobe-rgb_16"; "cmyk_8"; "cmyk_16"]%string.
Definition pwgDeviceRasterType (s : string) : bool :=
  existsb (fun n => in_strings (ToLower s) ["device" +:+ Itoa n +:+ "_8"; "device" +:+ Itoa n +:+ "_16"])
    [1; 2; 3; 4; 5; 6; 7; 8; 9; 10; 11; 12; 13; 14; 15].

(** The loop of [splitURFTokens]: [cur] is the token that has begun, if any. *)
Fixpoint split_tokens (text : string) (tokens : list string) (cur : option string) (commaPending : bool)
    : option (list string) :=
  match text with
  | EmptyString =>
      let tokens := match cur with Some t => tokens ++ [t] | None => tokens end in
      if commaPending || match tokens with [] => true | _ => false end then None else Some tokens
  | String r rest =>
      if Ascii.eqb r "," || is_space r then
        let '(tokens, commaPending) :=
          match cur with Some t => (tokens ++ [t], false) | None => (tokens, commaPending) end in
        if Ascii.eqb r "," then
          if match tokens with [] => true | _ => false end || commaPending then None
          else split_tokens rest tokens None true
        else split_tokens rest tokens None commaPending
      else split_tokens rest tokens (Some (default ""%string cur +:+ String r "")) false
  end.

Definition splitURFTokens (text : string) : option (list string) := split_tokens text [] None false.

(** ** Families *)

(** The loop over the values, with its [found]. *)
Fixpoint mime_value_loop (values : list TValue) (wanted : string) (found : bool) : bool :=
  match values with
  | [] => found
  | (t, v) :: rest =>
      if negb (t =? TagMimeType) then false
      else match v with
           | VString text => mime_value_loop rest wanted (found || EqualFold text wanted)
           | _ => false
           end
  end.
Definition hasMimeTypeValue (attr : Attribute) (wanted : string) : bool := mime_value_loop (aValues attr) wanted false.

(** What the tokens seen so far provide. *)
Record urf_seen := { seen_tokens : Z; seen_width : bool; seen_colorSpace : bool; seen_resolution : bool }.

Definition see_token (token : string) (s : urf_seen) : option urf_seen :=
  let n := seen_tokens s + 1 in
  if urfResolutionToken token then Some {| seen_tokens := n; seen_width := seen_width s;
    seen_colorSpace := seen_colorSpace s; seen_resolution := true |}
  else if urfWidthToken token then Some {| seen_tokens := n; seen_width := true;
    seen_colorSpace := seen_colorSpace s; seen_resolution := seen_resolution s |}
  else if urfColorSpaceToken token then Some {| seen_tokens := n; seen_width := seen_width s;
    seen_colorSpace := true; seen_resolution := seen_resolution s |}
  else if urfVersionToken token || urfPositiveNumericListToken token || urfOptionalZeroToken token then
    Some {| seen_tokens := n; seen_width := seen_width s; seen_colorSpace := seen_colorSpace s;
            seen_resolution := seen_resolution s |}
  else None.

Fixpoint see_tokens (tokens : list string) (s : urf_seen) : option urf_seen :=
  match tokens with [] => Some s | t :: rest => see_token t s ≫= see_tokens rest end.

Fixpoint see_values (values : list TValue) (s : urf_seen) : option urf_seen :=
  match values with
  | [] => Some s
  | (t, v) :: rest =>
      if negb (t =? TagKeyword) then None
      else match v with
           | VString text => splitURFTokens text ≫= fun parts => see_tokens parts s ≫= see_values rest
           | _ => None
           end
  end.

Definition validURFFamily (upstream : Attributes) : bool :=
  match Attr upstream "document-format-supported", Attr upstream "urf-supported" with
  | Some formats, Some attr =>
      hasMimeTypeValue formats "image/urf" && negb (length (aValues attr) =? 0)%nat &&
      match see_values (aValues attr) {| seen_tokens := 0; seen_width := false; seen_colorSpace := false;
                                         seen_resolution := false |} with
      | Some s => (3 <=? seen_tokens s) && seen_width s && seen_colorSpace s && seen_resolution s
      | None => false
      end
  | _, _ => false
  end.

Definition validPWGRasterType (rasterType : string) : bool :=
  let value := TrimSpace rasterType in
  pwgBlackRasterType value || pwgGrayRasterType value || pwgColorRasterType value || pwgDeviceRasterType value.

Definition rasterTypeCompatible (rasterType colorMode : string) : bool :=
  let value := ToLower (TrimSpace rasterType) in
  if negb (validPWGRasterType value) then false
  else if EqualFold (TrimSpace colorMode) "monochrome" then pwgBlackRasterType value || pwgGrayRasterType value
  else if EqualFold (TrimSpace colorMode) "color" then pwgColorRasterType value || pwgDeviceRasterType value
  else true.

(** [None] is a malformed value. *)
Fixpoint filter_raster_types (values : list TValue) (colorMode : string) : option (list TValue) :=
  match values with
  | [] => Some []
  | (t, v) :: rest =>
      if negb (t =? TagKeyword) then None
      else match v with
           | VString text =>
               if (TrimSpace text =? "")%string || negb (validPWGRasterType text) then None
               else (fun l => if rasterTypeCompatible text colorMode then (t, v) :: l else l) <$>
                    filter_raster_types rest colorMode
           | _ => None
           end
  end.

Definition filteredPWGRasterTypes (attr : Attribute) (colorMode : string) : option Attribute :=
  match aValues attr with
  | [] => None
  | l => match filter_raster_types l colorMode with
         | Some ((_ :: _) as values) => Some (aName attr, values)
         | _ => None
         end
  end.

Definition raster_resolution (tv : TValue) : bool :=
  match tv with
  | (t, VResolution x y units) =>
      (t =? TagResolution) && (0 <? x) && (0 <? y) && ((units =? UnitsDpi) || (units =? UnitsDpcm))
  | _ => false
  end.

Definition sheet_backs : list string := ["normal"; "flipped"; "rotated"; "manual-tumble"]%string.

Definition validPWGRasterFamily (upstream : Attributes) (policy : PolicyConfig) : bool :=
  match Attr upstream "document-format-supported", Attr upstream "pwg-raster-document-type-supported",
        Attr upstream "pwg-raster-document-resolution-supported", Attr upstream "pwg-raster-document-sheet-back" with
  | Some formats, Some types, Some resolutions, Some sheetBack =>
      hasMimeTypeValue formats "image/pwg-raster" &&
      bool_decide (is_Some (filteredPWGRasterTypes types (pPrintColorMode policy))) &&
      negb (length (aValues resolutions) =? 0)%nat && forallb raster_resolution (aValues resolutions) &&
      match aValues sheetBack with
      | [(t, v)] => (t =? TagKeyword) &&
                    match fixedKeyword [(t, v)] with
                    | Some sheet => existsb (EqualFold sheet) sheet_backs
                    | None => false
                    end
      | _ => false
      end
  | _, _, _, _ => false
  end.

(** ** The formats offered to clients *)

Definition fixedStringValue (values : list TValue) : option string :=
  match values with
  | [(_, VString s)] => if (TrimSpace s =? "")%string then None else Some (TrimSpace s)
  | _ => None
  end.

Definition formatInValues (format : string) (values : list TValue) : bool :=
  existsb (fun tv => match val_V tv with VString c => EqualFold c format | _ => false end) values.

(** The values of document-format-supported that stay. *)
Definition offered_formats (values : list TValue) (pwgOK urfOK : bool) : list TValue :=
  List.filter (fun '(t, v) =>
    (t =? TagMimeType) &&
    match v with
    | VString format =>
        let lower := ToLower (TrimSpace format) in
        negb (lower =? "")%string && negb (lower =? "application/octet-stream")%string &&
        (if (lower =? "image/pwg-raster")%string then pwgOK else if (lower =? "image/urf")%string then urfOK else true)
    | _ => false
    end) values.

(** The attribute of that name, if it is there. *)
Definition copied (upstream : Attributes) (name : string) : Attributes :=
  match Attr upstream name with Some a => [a] | None => [] end.

Definition synthesizedFormatAttributes `{GoippLib} (upstream : Attributes) (policy : PolicyConfig) : Attributes :=
  match Attr upstream "document-format-supported" with
  | None => []
  | Some formatAttr =>
      let pwgOK := validPWGRasterFamily upstream policy in
      let urfOK := validURFFamily upstream in
      match offered_formats (aValues formatAttr) pwgOK urfOK with
      | [] => []
      | ((_, first) :: _) as values =>
          let fixed attr := match fixedStringValue (aValues attr) with
                            | Some f => if formatInValues f values then Some f else None
                            | None => None
                            end in
          [("document-format-supported"%string, values)] ++
          match Attr upstream "document-format-default" with
          | Some attr => [MakeAttribute "document-format-default" TagMimeType
                            (match fixed attr with Some f => VString f | None => first end)]
          | None => []
          end ++
          match Attr upstream "document-format-preferred" with
          | Some attr => match fixed attr with
                         | Some f => [MakeAttribute "document-format-preferred" TagMimeType (VString f)]
                         | None => []
                         end
          | None => []
          end ++
          (if pwgOK then
             match Attr upstream "pwg-raster-document-type-supported" with
             | Some attr => match filteredPWGRasterTypes attr (pPrintColorMode policy) with Some f => [f] | None => [] end
             | None => []
             end ++ copied upstream "pwg-raster-document-resolution-supported" ++
             copied upstream "pwg-raster-document-sheet-back"
           else []) ++
          (if urfOK then copied upstream "urf-supported" else [])
      end
  end.

(** The lower-cased formats clients may send, and whether there is an attribute. *)
Definition effectiveFormatSet `{GoippLib} (attrs : Attributes) (policy : PolicyConfig) : option (gset string) :=
  match Attr (synthesizedFormatAttributes attrs policy) "document-format-supported" with
  | None => None
  | Some formatAttr =>
      Some (list_to_set (omap (fun '(t, v) =>
        match v with
        | VString f => if (t =? TagMimeType) && negb (TrimSpace f =? "")%string &&
                          negb (EqualFold (TrimSpace f) "application/octet-stream")
                       then Some (ToLower (TrimSpace f)) else None
        | _ => None
        end) (aValues formatAttr)))
  end.

(** ** Media keywords *)

Definition hasKeywordString (attr : Attribute) (wanted : string) : bool :=
  (fix go values := match values with
     | [] => false
     | (t, v) :: rest =>
         if negb (t =? TagKeyword) then false
         else match v with
              | VString text => if (TrimSpace text =? "")%string then false
                                else if EqualFold (TrimSpace text) wanted then true else go rest
              | _ => false
              end
     end) (aValues attr).

Definition upstreamSupportsMedia (attrs : Attributes) (policyName : string) : bool :=
  match Attr attrs "media-supported" with Some a => hasString a policyName | None => false end ||
  existsb (fun c => mediaCollectionMatches c policyName (mediaSizeFromPWGName policyName)) (upstreamMediaCollections attrs).

Example split_ex : splitURFTokens "V1.4, W8,SRGB24 RS300-600" = Some ["V1.4"; "W8"; "SRGB24"; "RS300-600"]%string.
Proof. reflexivity. Qed.
Example split_ex2 : splitURFTokens "V1.4,,W8" = None /\ splitURFTokens "V1.4," = None /\ splitURFTokens " ,W8" = None.
Proof. repeat split; reflexivity. Qed.
