(* ===== verification/Messages.v ===== *)
(** * Messages between client, proxy and printer ([internal/proxy/service.go])

    What the proxy does to a message on its way: the operation attributes of
    a request sent to the printer, the attributes of the jobs in an answer,
    the responses the proxy makes itself, the canonical shape of every
    response, and the checks an answer of the printer must pass
    ([internal/proxy/upstream.go]). *)

From Stdlib Require Import ZArith Lia Ascii String.
From stdpp Require Import base tactics list strings gmap.
From S2P Require Import Prelude GoString GoError GoTime Store Goipp IppAttrs GoUrl Protocol.
From S2P Require Import MediaCatalog Normalizer.

(** ** Fields of a response *)

Definition set_resOperation (a : Attributes) (r : Response) : Response :=
  mkResponse (resVersion r) (resCode r) (resRequestID r) (resGroups r) a (resJob r) (resPrinter r)
    (resUnsupported r) (resSubscription r) (resEventNotification r) (resResource r) (resDocument r) (resSystem r).
Definition set_resUnsupported (u : option Attributes) (r : Response) : Response :=
  mkResponse (resVersion r) (resCode r) (resRequestID r) (resGroups r) (resOperation r) (resJob r) (resPrinter r)
    u (resSubscription r) (resEventNotification r) (resResource r) (resDocument r) (resSystem r).
Definition set_resJob (j : option Attributes) (r : Response) : Response :=
  mkResponse (resVersion r) (resCode r) (resRequestID r) (resGroups r) (resOperation r) j (resPrinter r)
    (resUnsupported r) (resSubscription r) (resEventNotification r) (resResource r) (resDocument r) (resSystem r).
Definition set_resPrinter (p : option Attributes) (r : Response) : Response :=
  mkResponse (resVersion r) (resCode r) (resRequestID r) (resGroups r) (resOperation r) (resJob r) p
    (resUnsupported r) (resSubscription r) (resEventNotification r) (resResource r) (resDocument r) (resSystem r).
Definition set_resGroups (g : option (list Group)) (r : Response) : Response :=
  mkResponse (resVersion r) (resCode r) (resRequestID r) g (resOperation r) (resJob r) (resPrinter r)
    (resUnsupported r) (resSubscription r) (resEventNotification r) (resResource r) (resDocument r) (resSystem r).
Definition set_resCode (c : Z) (r : Response) : Response :=
  mkResponse (resVersion r) c (resRequestID r) (resGroups r) (resOperation r) (resJob r) (resPrinter r)
    (resUnsupported r) (resSubscription r) (resEventNotification r) (resResource r) (resDocument r) (resSystem r).
Definition set_resVersion (v : Z) (r : Response) : Response :=
  mkResponse v (resCode r) (resRequestID r) (resGroups r) (resOperation r) (resJob r) (resPrinter r)
    (resUnsupported r) (resSubscription r) (resEventNotification r) (resResource r) (resDocument r) (resSystem r).

(** The assignments [req.Operation = ...], [req.Job = ...] and [req.Groups =
    nil] of the handlers. *)
Definition set_Operation (a : Attributes) (m : Message) : Message :=
  mkMessage (Version m) (Code m) (RequestID m) (Groups m) a (Job m) (Printer m) (Unsupported m)
    (Subscription m) (EventNotification m) (Resource m) (Document m) (System m).
Definition set_Job (j : Attributes) (m : Message) : Message :=
  mkMessage (Version m) (Code m) (RequestID m) (Groups m) (Operation m) j (Printer m) (Unsupported m)
    (Subscription m) (EventNotification m) (Resource m) (Document m) (System m).
Definition clear_Groups (m : Message) : Message :=
  mkMessage (Version m) (Code m) (RequestID m) None (Operation m) (Job m) (Printer m) (Unsupported m)
    (Subscription m) (EventNotification m) (Resource m) (Document m) (System m).

(** Appending to a slice that may be nil: nil stays nil when nothing is added. *)
Definition append_attrs (a : option Attributes) (b : Attributes) : option Attributes :=
  match a, b with None, [] => None | _, _ => Some (default [] a ++ b) end.

(** ** Versions and status codes *)

Definition supportedIPPVersion (version : Z) : bool :=
  existsb (Z.eqb version) [MakeVersion 1 0; MakeVersion 1 1; MakeVersion 2 0].

Definition ippVersionGreater (left right : Z) : bool :=
  if negb (Major left =? Major right) then Major right <? Major left else Minor right <? Minor left.

Definition ippSuccess (resp : Response) : bool := resCode resp <? StatusErrorBadRequest.

(** ** Operations *)

(** The loop over the values; [goipp.Op(integer)] keeps sixteen bits. *)
Fixpoint supports_operation (values : list TValue) (operation : Z) : bool :=
  match values with
  | [] => false
  | (t, v) :: rest =>
      if negb (t =? TagEnum) then false
      else match v with
           | VInteger z => if u16 z =? operation then true else supports_operation rest operation
           | _ => false
           end
  end.

Definition upstreamSupportsOperation (attrs : Attributes) (operation : Z) : bool :=
  match List.filter (fun a => EqualFold (aName a) "operations-supported") attrs with
  | [a] => supports_operation (aValues a) operation
  | _ => false
  end.

Definition proxySupportedOperations (upstream : Attributes) : list Z :=
  let supports := upstreamSupportsOperation upstream in
  [OpGetPrinterAttributes] ++
  List.filter supports [OpPrintJob; OpValidateJob; OpCancelJob; OpGetJobAttributes; OpGetJobs] ++
  (if supports OpCreateJob && supports OpSendDocument then [OpCreateJob; OpSendDocument] else []) ++
  (if supports OpCancelJob then [OpCancelMyJobs] else []) ++
  List.filter supports [OpCloseJob; OpIdentifyPrinter].

Definition operationAvailable (operations : list Z) (wanted : Z) : bool := existsb (Z.eqb wanted) operations.

(** ** Operation attributes of a request for the printer *)

Definition target_names : list string :=
  ["attributes-charset"; "attributes-natural-language"; "printer-uri"; "job-uri"; "job-id"]%string.

Definition orderOperationTargets (attrs : Attributes) : Attributes :=
  omap (Attr attrs) target_names ++
  List.filter (fun a => negb (in_strings (ToLower (aName a)) target_names)) attrs.

Section build.
Context `{G : GoippLib}.

Definition rewriteOperationForUpstream (attrs : Attributes) (upstreamURI : string) : Attributes :=
  orderOperationTargets (SetAttr attrs (URI "printer-uri" upstreamURI)).

Definition rewriteMappedJobOperation (attrs : Attributes) (job : Store.Job) : Attributes :=
  orderOperationTargets (DropAttrs (SetAttr attrs (Integer "job-id" (UpstreamJobID job))) ["job-uri"]).

Definition rewriteDocumentFormat (attrs : Attributes) (format : string) : Attributes :=
  if (TrimSpace format =? "")%string then attrs
  else SetAttr attrs (MakeAttribute "document-format" TagMimeType (VString format)).

(** ** The jobs of an answer *)

Definition validJobStateAttribute (attr : Attribute) : bool :=
  match aValues attr with
  | [(t, VInteger state)] => (t =? TagEnum) && (3 <=? state) && (state <=? 9)
  | _ => false
  end.

Definition validJobStateReasonsAttribute (attr : Attribute) : bool :=
  match aValues attr with
  | [] => false
  | l => forallb (fun '(t, v) =>
           (t =? TagKeyword) && match v with VString reason => negb (TrimSpace reason =? "")%string | _ => false end) l
  end.

Definition job_clocks : list string :=
  ["time-at-creation"; "time-at-processing"; "time-at-completed"; "date-time-at-creation";
   "date-time-at-processing"; "date-time-at-completed"; "job-printer-up-time"]%string.

Definition rewriteJobAttrs (attrs : Attributes) (proxyJobID : Z) (printerURI : string) : Attributes :=
  let attrs := SetAttr attrs (Integer "job-id" proxyJobID) in
  let attrs := SetAttr attrs (URI "job-uri" (proxyJobURI printerURI proxyJobID)) in
  let attrs := SetAttr attrs (URI "job-printer-uri" printerURI) in
  let attrs := match Attr attrs "job-state" with
               | Some a => if validJobStateAttribute a then attrs
                           else SetAttr attrs (MakeAttribute "job-state" TagEnum (VInteger 3))
               | None => SetAttr attrs (MakeAttribute "job-state" TagEnum (VInteger 3))
               end in
  let attrs := match Attr attrs "job-state-reasons" with
               | Some a => if validJobStateReasonsAttribute a then attrs
                           else SetAttr attrs (Keyword "job-state-reasons" "none")
               | None => SetAttr attrs (Keyword "job-state-reasons" "none")
               end in
  DropAttrs attrs job_clocks.

(** [resp.Job] and the job groups are both rewritten; a nil [resp.Job] becomes
    the attributes of the proxy's job. *)
Definition rewriteResponseJob (resp : Response) (proxyJobID : Z) (printerURI : string) : Response :=
  let rewrite attrs := rewriteJobAttrs attrs proxyJobID printerURI in
  set_resGroups (map (fun g => if Tag g =? TagJobGroup then mkGroup (Tag g) (rewrite (Attrs g)) else g) <$> resGroups resp)
    (set_resJob (Some (rewrite (default [] (resJob resp)))) resp).

Definition responseJobGroups (response : option Response) : list Attributes :=
  match response with
  | None => []
  | Some r =>
      match resGroups r with
      | None => match default [] (resJob r) with [] => [] | job => [job] end
      | Some groups => map Attrs (List.filter (fun g => Tag g =? TagJobGroup) groups)
      end
  end.

(** ** Which job attributes a client asked for *)

Definition requestedJobAttributes (operation : Attributes) : gset string :=
  match Attr operation "requested-attributes" with
  | None => {["job-id"; "job-uri"]}
  | Some attr =>
      list_to_set (omap (fun tv => match val_V tv with VString text => Some (ToLower (TrimSpace text)) | _ => None end)
                     (aValues attr))
  end%string.

Definition jobDescriptionAttributes : list string :=
  ["job-account-id"; "job-accounting-impressions"; "job-accounting-sheets"; "job-accounting-sheets-completed";
   "job-accounting-user-id"; "job-cancel-after"; "job-completed-with-errors"; "job-document-access-errors";
   "job-error-action"; "job-id"; "job-impressions"; "job-impressions-completed"; "job-k-octets";
   "job-k-octets-processed"; "job-media-sheets"; "job-media-sheets-completed"; "job-message-from-operator";
   "job-more-info"; "job-name"; "job-originating-user-name"; "job-pages-completed"; "job-printer-up-time";
   "job-printer-uri"; "job-save-disposition"; "job-state"; "job-state-message"; "job-state-reasons"; "job-uri";
   "job-uuid"; "time-at-completed"; "time-at-creation"; "time-at-processing"; "date-time-at-completed";
   "date-time-at-creation"; "date-time-at-processing"]%string.

Definition jobTemplateAttributes : list string :=
  ["copies"; "cover-back"; "cover-front"; "feed-orientation"; "finishings"; "finishings-col";
   "imposition-template"; "insert-sheet"; "job-hold-until"; "job-hold-until-time"; "job-priority"; "job-sheets";
   "media"; "media-col"; "media-color"; "media-source"; "media-type"; "media-weight";
   "multiple-document-handling"; "number-up"; "orientation-requested"; "output-bin"; "output-mode";
   "page-delivery"; "page-ranges"; "pages-per-subset"; "presentation-direction-number-up"; "print-color-mode";
   "print-content-optimize"; "print-quality"; "print-scaling"; "printer-resolution"; "sides"]%string.

Definition requestedJobAttribute (wanted : gset string) (name : string) : bool :=
  if bool_decide (name ∈ wanted) then true
  else if bool_decide ("job-description"%string ∈ wanted) && in_strings name jobDescriptionAttributes then true
  else bool_decide ("job-template"%string ∈ wanted) && in_strings name jobTemplateAttributes.

Definition projectJobAttributes (attrs : Attributes) (wanted : gset string) : Attributes :=
  if bool_decide ("all"%string ∈ wanted) then attrs
  else List.filter (fun a => requestedJobAttribute wanted (ToLower (aName a))) attrs.

(** ** Responses of the proxy *)

Definition responseOperationAttrs (message : string) : Attributes :=
  [MakeAttribute "attributes-charset" TagCharset (VString "utf-8");
   MakeAttribute "attributes-natural-language" TagLanguage (VString "en")] ++
  (if (message =? "")%string then [] else [Text "status-message" message]).

Definition protocolResponse (req : Message) (status : Z) (message : string) : Response :=
  set_resOperation (responseOperationAttrs message) (NewResponse (Version req) status (RequestID req)).

Definition operationNotSupported (req : Message) (message : string) : Response :=
  protocolResponse req StatusErrorOperationNotSupported message.

Definition statusMessage (resp : Response) : string := default ""%string (FirstString (resOperation resp) "status-message").

(** What [writeIPPError] and [writeIPPProtocolError] send. *)
Definition ippError (version requestID status : Z) (message : string) : Response :=
  set_resOperation (responseOperationAttrs message) (NewResponse version status requestID).
Definition ippProtocolError (version requestID : Z) (e : ProtocolError) : Response :=
  set_resUnsupported (match peUnsupported e with [] => None | u => Some u end)
    (ippError version requestID (peStatus e) (peMessage e)).

(** [resp == nil] is the caller's: the function then does nothing. *)
Definition applyNormalizationResult (resp : Response) (result : NormalizationResult) : Response :=
  if negb (ippSuccess resp) || negb (nSubstituted result) then resp
  else
    let resp := if resCode resp =? StatusOk then set_resCode StatusOkIgnoredOrSubstituted resp else resp in
    let resp := set_resUnsupported (append_attrs (resUnsupported resp) (nUnsupported result)) resp in
    match resGroups resp, nUnsupported result with
    | Some groups, _ :: _ => set_resGroups (Some (groups ++ [mkGroup TagUnsupportedGroup (nUnsupported result)])) resp
    | _, _ => resp
    end.

(** ** The canonical shape of a response *)

(** The groups of a response that has only named fields. *)
Definition named_groups (resp : Response) : list Group :=
  mkGroup TagOperationGroup (resOperation resp) ::
  omap (fun '(tag, attrs) => mkGroup tag <$> attrs)
    [(TagUnsupportedGroup, resUnsupported resp); (TagJobGroup, resJob resp); (TagPrinterGroup, resPrinter resp);
     (TagSubscriptionGroup, resSubscription resp); (TagEventNotificationGroup, resEventNotification resp);
     (TagResourceGroup, resResource resp); (TagDocumentGroup, resDocument resp); (TagSystemGroup, resSystem resp)].

(** The loop over the groups: the operation and unsupported attributes so far,
    the object groups so far, and the index of the group of each tag. *)
Record shaping := {
  sh_operation : Attributes;
  sh_unsupported : Attributes;
  sh_objects : list Group;
  sh_index : gmap Z nat
}.

Definition shape_group (s : shaping) (g : Group) : shaping :=
  if Tag g =? TagOperationGroup then
    {| sh_operation := sh_operation s ++ Attrs g; sh_unsupported := sh_unsupported s;
       sh_objects := sh_objects s; sh_index := sh_index s |}
  else if Tag g =? TagUnsupportedGroup then
    {| sh_operation := sh_operation s; sh_unsupported := sh_unsupported s ++ Attrs g;
       sh_objects := sh_objects s; sh_index := sh_index s |}
  else if Tag g =? TagJobGroup then
    {| sh_operation := sh_operation s; sh_unsupported := sh_unsupported s;
       sh_objects := sh_objects s ++ [g]; sh_index := sh_index s |}
  else
    match sh_index s !! Tag g with
    | Some index =>
        {| sh_operation := sh_operation s; sh_unsupported := sh_unsupported s;
           sh_objects := alter (fun o => mkGroup (Tag o) (Attrs o ++ Attrs g)) index (sh_objects s);
           sh_index := sh_index s |}
    | None =>
        {| sh_operation := sh_operation s; sh_unsupported := sh_unsupported s;
           sh_objects := sh_objects s ++ [g]; sh_index := <[Tag g := length (sh_objects s)]> (sh_index s) |}
    end.

Definition shape_start : shaping :=
  {| sh_operation := []; sh_unsupported := []; sh_objects := []; sh_index := ∅ |}.

Definition shape_operation (attrs : Attributes) : Attributes :=
  responseOperationAttrs "" ++ DropAttrs attrs ["attributes-charset"; "attributes-natural-language"].

(** A slice that was only appended to is nil exactly when it is empty. *)
Definition shapeIPPResponse (resp : Response) : Response :=
  let groups := default (named_groups resp) (resGroups resp) in
  let s := foldl shape_group shape_start groups in
  let operation := match sh_operation s with [] => resOperation resp | o => o end in
  let unsupported := match sh_unsupported s with [] => resUnsupported resp | u => Some u end in
  let operation := shape_operation operation in
  let canonical := mkGroup TagOperationGroup operation ::
                   match unsupported with Some u => [mkGroup TagUnsupportedGroup u] | None => [] end in
  set_resGroups (Some (canonical ++ sh_objects s))
    (set_resUnsupported unsupported (set_resOperation operation resp)).

(** ** The checks of an answer ([upstream.go]) *)

(** The loop over the groups, with the index and the three flags. *)
Fixpoint check_response_groups (groups : list Group) (index : Z) (seenOperation seenUnsupported seenObject : bool)
    : option string :=
  match groups with
  | [] => None
  | g :: rest =>
      if Tag g =? TagOperationGroup then
        if seenOperation || negb (index =? 0)
        then Some "upstream response contains duplicate or misplaced operation attributes group"%string
        else check_response_groups rest (index + 1) true seenUnsupported seenObject
      else if Tag g =? TagUnsupportedGroup then
        if seenUnsupported || seenObject || (1 <? index)
        then Some "upstream response contains duplicate or misplaced unsupported attributes group"%string
        else check_response_groups rest (index + 1) seenOperation true seenObject
      else check_response_groups rest (index + 1) seenOperation seenUnsupported true
  end.

Definition validateUpstreamResponseGroups (groups : option (list Group)) : option string :=
  match default [] groups with
  | g :: _ =>
      if Tag g =? TagOperationGroup then check_response_groups (default [] groups) 0 false false false
      else Some "upstream response must begin with exactly one operation attributes group"%string
  | [] => Some "upstream response must begin with exactly one operation attributes group"%string
  end.

(** The end of [UpstreamClient.Do]: what a decoded answer to [msg] must be; the
    result is the text of the error. *)
Definition checkUpstreamResponse (msg : Message) (out : Response) : option string :=
  if negb (resRequestID out =? RequestID msg) then
    Some ("upstream response request-id " +:+ Itoa (resRequestID out) +:+ " does not match request-id " +:+
          Itoa (RequestID msg))%string
  else if negb (supportedIPPVersion (resVersion out)) then
    Some ("upstream response uses unsupported IPP version " +:+ version_String (resVersion out))%string
  else if ippSuccess out && ippVersionGreater (resVersion out) (Version msg) then
    Some ("upstream response IPP version " +:+ version_String (resVersion out) +:+ " exceeds requested version " +:+
          version_String (Version msg))%string
  else
    match validateUpstreamResponseGroups (resGroups out) with
    | Some e => Some e
    | None =>
        if negb (nth_single (resOperation out) 0 "attributes-charset" TagCharset) ||
           negb (nth_single (resOperation out) 1 "attributes-natural-language" TagLanguage)
        then Some "upstream response is missing required leading operation attributes"%string
        else None
    end.
End build.
