(* ===== verification/MessagesTheorems.v ===== *)
(** * What the proxy does to messages: theorems

    The canonical shape of responses, the attributes of jobs as a client sees
    them, and the operation attributes a printer receives. *)

From Stdlib Require Import ZArith Lia Ascii String.
From stdpp Require Import base tactics list strings gmap.
From S2P Require Import Prelude GoString GoError GoTime Store Goipp IppAttrs GoUrl Protocol.
From S2P Require Import MediaCatalog Normalizer Messages.

(** ** Groups by tag *)

Definition with_tag (t : Z) (gs : list Group) : list Group := List.filter (fun g => Tag g =? t) gs.
(** The attributes of all the groups of a tag, in their order. *)
Definition attrs_of (t : Z) (gs : list Group) : Attributes := mjoin (map Attrs (with_tag t gs)).

Lemma with_tag_app t l k : with_tag t (l ++ k) = with_tag t l ++ with_tag t k.
Proof. apply List.filter_app. Qed.
Lemma attrs_of_app t l k : attrs_of t (l ++ k) = attrs_of t l ++ attrs_of t k.
Proof. unfold attrs_of. by rewrite with_tag_app, map_app, join_app. Qed.
Lemma attrs_of_cons t g l : attrs_of t (g :: l) = (if Tag g =? t then Attrs g else []) ++ attrs_of t l.
Proof. unfold attrs_of, with_tag. cbn. by destruct (_ =? _). Qed.
Lemma attrs_of_single t g : attrs_of t [g] = if Tag g =? t then Attrs g else [].
Proof. unfold attrs_of, with_tag. cbn. destruct (_ =? _); cbn; by rewrite ?app_nil_r. Qed.

(** Appending to the attributes of one group of a list. *)
Definition extend (i : nat) (more : Attributes) (l : list Group) : list Group :=
  alter (fun o => mkGroup (Tag o) (Attrs o ++ more)) i l.

Lemma extend_split i more l o : l !! i = Some o ->
  exists l1 l2, l = l1 ++ o :: l2 /\ extend i more l = l1 ++ mkGroup (Tag o) (Attrs o ++ more) :: l2.
Proof.
  intros H. exists (take i l), (drop (S i) l). unfold extend.
  pose proof (take_drop_middle l i o H) as E. split; [done|].
  assert (length (take i l) = i) as Hl by (rewrite length_take; apply lookup_lt_Some in H; lia).
  rewrite <- E at 1. rewrite alter_app_r_alt by lia. by rewrite Hl, Nat.sub_diag.
Qed.

Lemma extend_tags i more l : map Tag (extend i more l) = map Tag l.
Proof.
  destruct (l !! i) as [o|] eqn:E.
  - destruct (extend_split i more l o E) as (l1 & l2 & -> & ->). by rewrite !map_app.
  - unfold extend. f_equal. apply list_eq. intros k. destruct (decide (i = k)) as [<-|].
    + by rewrite list_lookup_alter_eq, E.
    + by rewrite list_lookup_alter_ne.
Qed.

Lemma attrs_of_absent t l : t ∉ map Tag l -> attrs_of t l = [].
Proof.
  induction l as [|g l IH]; intros H; [done|]. rewrite attrs_of_cons. cbn [map] in H.
  destruct (Z.eqb_spec (Tag g) t) as [Ht|]; [exfalso; apply H; rewrite Ht; left|].
  apply IH. intros ?; apply H; by right.
Qed.

(** ** The loop of [shapeIPPResponse] *)

Record shape_inv (s : shaping) (gs : list Group) : Prop := {
  si_operation : sh_operation s = attrs_of TagOperationGroup gs;
  si_unsupported : sh_unsupported s = attrs_of TagUnsupportedGroup gs;
  si_jobs : with_tag TagJobGroup (sh_objects s) = with_tag TagJobGroup gs;
  si_attrs : forall t, t <> TagOperationGroup -> t <> TagUnsupportedGroup -> attrs_of t (sh_objects s) = attrs_of t gs;
  si_tags : Forall (fun t => t <> TagOperationGroup /\ t <> TagUnsupportedGroup) (map Tag (sh_objects s));
  si_index : forall t i, sh_index s !! t = Some i <-> t <> TagJobGroup /\ map Tag (sh_objects s) !! i = Some t
}.

(** The tag of an object group other than a job group determines the group. *)
Lemma si_unique s gs : shape_inv s gs -> forall t i j, t <> TagJobGroup ->
  map Tag (sh_objects s) !! i = Some t -> map Tag (sh_objects s) !! j = Some t -> i = j.
Proof.
  intros I t i j Ht Hi Hj. pose proof (proj2 (si_index s gs I t i) (conj Ht Hi)) as H1.
  pose proof (proj2 (si_index s gs I t j) (conj Ht Hj)) as H2. congruence.
Qed.

Lemma shape_group_add s gs g : shape_inv s gs ->
  Tag g <> TagOperationGroup -> Tag g <> TagUnsupportedGroup ->
  (Tag g = TagJobGroup \/ sh_index s !! Tag g = None) ->
  shape_inv {| sh_operation := sh_operation s; sh_unsupported := sh_unsupported s; sh_objects := sh_objects s ++ [g];
               sh_index := if Tag g =? TagJobGroup then sh_index s
                           else <[Tag g := length (sh_objects s)]> (sh_index s) |} (gs ++ [g]).
Proof.
  intros I Ho Hu Hnew. destruct I as [Iop Iun Ij Ia It Ii].
  apply Z.eqb_neq in Ho as Ho', Hu as Hu'.
  split; cbn [sh_operation sh_unsupported sh_objects sh_index].
  - by rewrite attrs_of_app, attrs_of_single, Ho', app_nil_r.
  - by rewrite attrs_of_app, attrs_of_single, Hu', app_nil_r.
  - by rewrite !with_tag_app, Ij.
  - intros t H1 H2. by rewrite !attrs_of_app, Ia.
  - rewrite map_app. by apply Forall_app_2; [|repeat constructor].
  - intros t i. rewrite map_app. cbn [map].
    assert (Hold : (i < length (sh_objects s))%nat ->
      (map Tag (sh_objects s) ++ [Tag g]) !! i = map Tag (sh_objects s) !! i).
    { intros Hi. apply lookup_app_l. by rewrite length_map. }
    assert (Hlt : map Tag (sh_objects s) !! i = Some t -> (i < length (sh_objects s))%nat).
    { intros Hi. apply lookup_lt_Some in Hi. by rewrite length_map in Hi. }
    assert (Hlast : (map Tag (sh_objects s) ++ [Tag g]) !! length (sh_objects s) = Some (Tag g)).
    { rewrite lookup_app_r by (rewrite length_map; lia). by rewrite length_map, Nat.sub_diag. }
    assert (Hcase : (map Tag (sh_objects s) ++ [Tag g]) !! i = Some t ->
      map Tag (sh_objects s) !! i = Some t \/ (i = length (sh_objects s) /\ t = Tag g)).
    { intros Hi. pose proof (lookup_lt_Some _ _ _ Hi) as Hl. rewrite length_app, length_map in Hl. cbn in Hl.
      destruct (decide (i < length (sh_objects s))%nat) as [Hlt'|]; [left; by rewrite <- Hold|].
      right. assert (i = length (sh_objects s)) as -> by lia. rewrite Hlast in Hi. naive_solver. }
    destruct (Z.eqb_spec (Tag g) TagJobGroup) as [Hj|Hj].
    + rewrite Ii. split; intros [Ht Hi]; (split; [done|]).
      * rewrite Hold; [done|]. by apply Hlt.
      * apply Hcase in Hi as [?|[-> ->]]; [done|]. by rewrite Hj in Ht.
    + destruct Hnew as [?|Hnew]; [done|]. destruct (decide (t = Tag g)) as [->|Hne].
      * rewrite lookup_insert_eq. split.
        { intros [= <-]. by split. }
        intros [_ Hi]. apply Hcase in Hi as [Hi|[-> _]]; [|done].
        pose proof (proj2 (Ii (Tag g) i) (conj Hj Hi)). congruence.
      * rewrite lookup_insert_ne by done. rewrite Ii. split; intros [Ht Hi]; (split; [done|]).
        { rewrite Hold; [done|]. by apply Hlt. }
        apply Hcase in Hi as [?|[-> ->]]; done.
Qed.

Lemma shape_group_extend s gs g i : shape_inv s gs ->
  Tag g <> TagOperationGroup -> Tag g <> TagUnsupportedGroup -> Tag g <> TagJobGroup ->
  sh_index s !! Tag g = Some i ->
  shape_inv {| sh_operation := sh_operation s; sh_unsupported := sh_unsupported s;
               sh_objects := extend i (Attrs g) (sh_objects s); sh_index := sh_index s |} (gs ++ [g]).
Proof.
  intros I Ho Hu Hj Hi. pose proof (si_unique s gs I) as Hun. destruct I as [Iop Iun Ij Ia It Ii].
  apply Ii in Hi as Hi'. destruct Hi' as [_ Hi'].
  apply Z.eqb_neq in Ho as Ho', Hu as Hu', Hj as Hj'.
  destruct (sh_objects s !! i) as [o|] eqn:Eo.
  2:{ change (map Tag (sh_objects s)) with (Tag <$> sh_objects s) in Hi'. by rewrite list_lookup_fmap, Eo in Hi'. }
  assert (Tag o = Tag g) as Hog.
  { change (map Tag (sh_objects s)) with (Tag <$> sh_objects s) in Hi'. rewrite list_lookup_fmap, Eo in Hi'. by inversion Hi'. }
  destruct (extend_split i (Attrs g) _ o Eo) as (l1 & l2 & E1 & E2).
  assert (Tag g ∉ map Tag l2) as Hl2.
  { intros Hin. apply list_elem_of_lookup in Hin as [k Hk].
    assert (length l1 = (length l1 + S k))%nat; [|lia]. apply (Hun (Tag g)); [done|..]; rewrite E1, map_app; cbn [map].
    - rewrite lookup_app_r by (rewrite length_map; lia). by rewrite length_map, Nat.sub_diag, Hog.
    - rewrite lookup_app_r by (rewrite length_map; lia). rewrite length_map.
      replace (length l1 + S k - length l1)%nat with (S k) by lia. done. }
  split; cbn [sh_operation sh_unsupported sh_objects sh_index].
  - by rewrite attrs_of_app, attrs_of_single, Ho', app_nil_r.
  - by rewrite attrs_of_app, attrs_of_single, Hu', app_nil_r.
  - rewrite with_tag_app, <- Ij, E2, E1. unfold with_tag. rewrite !List.filter_app. cbn. by rewrite Hog, Hj', app_nil_r.
  - intros t H1 H2. rewrite attrs_of_app, attrs_of_single, <- Ia, E2, E1 by done.
    rewrite !attrs_of_app, !attrs_of_cons. cbn [Tag Attrs]. rewrite Hog.
    destruct (Z.eqb_spec (Tag g) t) as [<-|]; [|by rewrite app_nil_r].
    by rewrite (attrs_of_absent _ _ Hl2), !app_nil_r, <- app_assoc.
  - by rewrite extend_tags.
  - intros t k. by rewrite extend_tags.
Qed.

Definition object_tag (t : Z) : Prop := t <> TagOperationGroup /\ t <> TagUnsupportedGroup.

Lemma shape_inv_step s gs g : shape_inv s gs -> shape_inv (shape_group s g) (gs ++ [g]).
Proof.
  intros I. unfold shape_group.
  destruct (Z.eqb_spec (Tag g) TagOperationGroup) as [Ho|Ho].
  { destruct I as [Iop Iun Ij Ia It Ii]. split; cbn [sh_operation sh_unsupported sh_objects sh_index]; [..|done|done].
    - by rewrite attrs_of_app, attrs_of_single, Ho, Iop.
    - rewrite attrs_of_app, attrs_of_single, Ho. by rewrite app_nil_r.
    - rewrite with_tag_app, Ij. unfold with_tag at 3. cbn. rewrite Ho. by rewrite app_nil_r.
    - intros t H1 H2. rewrite attrs_of_app, attrs_of_single, Ia by done.
      destruct (Z.eqb_spec (Tag g) t); [congruence|]. by rewrite app_nil_r. }
  destruct (Z.eqb_spec (Tag g) TagUnsupportedGroup) as [Hu|Hu].
  { destruct I as [Iop Iun Ij Ia It Ii]. split; cbn [sh_operation sh_unsupported sh_objects sh_index]; [..|done|done].
    - rewrite attrs_of_app, attrs_of_single, Hu. by rewrite app_nil_r.
    - by rewrite attrs_of_app, attrs_of_single, Hu, Iun.
    - rewrite with_tag_app, Ij. unfold with_tag at 3. cbn. rewrite Hu. by rewrite app_nil_r.
    - intros t H1 H2. rewrite attrs_of_app, attrs_of_single, Ia by done.
      destruct (Z.eqb_spec (Tag g) t); [congruence|]. by rewrite app_nil_r. }
  destruct (Z.eqb_spec (Tag g) TagJobGroup) as [Hj|Hj].
  { pose proof (shape_group_add s gs g I Ho Hu (or_introl Hj)) as H. by rewrite Hj in H. }
  destruct (sh_index s !! Tag g) as [i|] eqn:Ei.
  - by apply (shape_group_extend s gs g i).
  - pose proof (shape_group_add s gs g I Ho Hu (or_intror Ei)) as H.
    apply Z.eqb_neq in Hj. by rewrite Hj in H.
Qed.

Lemma shape_inv_fold gs : shape_inv (foldl shape_group shape_start gs) gs.
Proof.
  induction gs as [|g gs IH] using rev_ind; cbn.
  - split; try done. intros t i. cbn. rewrite lookup_empty, lookup_nil. naive_solver.
  - rewrite foldl_app. by apply shape_inv_step.
Qed.

(** Every tag but the job tag occurs once. *)
Definition once (l : list Group) : Prop := forall t i j, t <> TagJobGroup ->
  map Tag l !! i = Some t -> map Tag l !! j = Some t -> i = j.

(** Object groups that are already merged are left as they are. *)
Lemma shape_objects objs : forall s gs, shape_inv s gs -> Forall object_tag (map Tag objs) ->
  once (sh_objects s ++ objs) -> sh_objects (foldl shape_group s objs) = sh_objects s ++ objs.
Proof.
  induction objs as [|g objs IH]; intros s gs I Ht Hon; cbn [foldl]; [by rewrite app_nil_r|].
  cbn [map] in Ht. apply Forall_cons in Ht as [[Ho Hu] Ht].
  assert (sh_objects (shape_group s g) = sh_objects s ++ [g]) as E.
  { unfold shape_group. apply Z.eqb_neq in Ho as ->, Hu as ->.
    destruct (Z.eqb_spec (Tag g) TagJobGroup) as [Hj|Hj]; [done|].
    destruct (sh_index s !! Tag g) as [i|] eqn:Ei; [|done]. exfalso.
    apply (si_index s gs I) in Ei as [_ Ei].
    assert (i < length (sh_objects s))%nat by (apply lookup_lt_Some in Ei; by rewrite length_map in Ei).
    assert (i = length (sh_objects s)); [|lia]. apply (Hon (Tag g)); [done|..]; rewrite map_app.
    - by rewrite lookup_app_l by (by rewrite length_map).
    - rewrite lookup_app_r by (rewrite length_map; lia). by rewrite length_map, Nat.sub_diag. }
  rewrite (IH _ (gs ++ [g])); [by rewrite E, <- app_assoc|by apply shape_inv_step|done|].
  by rewrite E, <- app_assoc.
Qed.

Lemma check_objects objs : forall i a b c, Forall object_tag (map Tag objs) ->
  check_response_groups objs i a b c = None.
Proof.
  induction objs as [|g objs IH]; intros i a b c Ht; cbn; [done|]. cbn [map] in Ht.
  apply Forall_cons in Ht as [[Ho Hu] Ht]. apply Z.eqb_neq in Ho as ->, Hu as ->. by apply IH.
Qed.

Section shape.
Context `{G : GoippLib}.

Lemma responseOperationAttrs_empty : responseOperationAttrs "" =
  [("attributes-charset", [(TagCharset, VString "utf-8")]); ("attributes-natural-language", [(TagLanguage, VString "en")])]%string.
Proof. unfold responseOperationAttrs. by autorewrite with gosimp. Qed.

Lemma DropAttrs_idemp attrs names : DropAttrs (DropAttrs attrs names) names = DropAttrs attrs names.
Proof.
  unfold DropAttrs. induction attrs as [|a r IH]; [done|]. cbn. destruct (negb _) eqn:E; cbn; [rewrite E; by f_equal|done].
Qed.

Lemma shape_operation_idemp attrs : shape_operation (shape_operation attrs) = shape_operation attrs.
Proof.
  unfold shape_operation. rewrite responseOperationAttrs_empty, DropAttrs_app, DropAttrs_idemp.
  set (rest := DropAttrs attrs _). reflexivity.
Qed.

(** The groups of a shaped response. *)
Definition shaped_groups (out : Response) (objects : list Group) : list Group :=
  mkGroup TagOperationGroup (resOperation out) ::
  match resUnsupported out with Some u => [mkGroup TagUnsupportedGroup u] | None => [] end ++ objects.

Lemma shaped_fold out objects : Forall object_tag (map Tag objects) -> once objects ->
  let s := foldl shape_group shape_start (shaped_groups out objects) in
  sh_operation s = resOperation out /\ sh_unsupported s = default [] (resUnsupported out) /\ sh_objects s = objects.
Proof.
  intros Ht Hon s. pose proof (shape_inv_fold (shaped_groups out objects)) as I. fold s in I.
  assert (Habs : forall t, t = TagOperationGroup \/ t = TagUnsupportedGroup -> attrs_of t objects = []).
  { intros t Hto. apply attrs_of_absent. intros Hin. rewrite Forall_forall in Ht. specialize (Ht t Hin).
    unfold object_tag in Ht. naive_solver. }
  split_and!.
  - rewrite (si_operation s _ I). unfold shaped_groups. rewrite attrs_of_cons. cbn [Tag Attrs].
    rewrite attrs_of_app, Habs by auto. destruct (resUnsupported out); cbn; by rewrite !app_nil_r.
  - rewrite (si_unsupported s _ I). unfold shaped_groups. rewrite attrs_of_cons. cbn [Tag Attrs].
    rewrite attrs_of_app, Habs by auto.
    destruct (resUnsupported out); cbn; by rewrite ?app_nil_r.
  - unfold s, shaped_groups. cbn [foldl]. destruct (resUnsupported out) as [u|]; cbn [app foldl].
    + erewrite (shape_objects objects _ [_; _]); [done| |done|done].
      apply (shape_inv_step _ [_]), (shape_inv_step _ []), (shape_inv_fold []).
    + erewrite (shape_objects objects _ [_]); [done| |done|done].
      apply (shape_inv_step _ []), (shape_inv_fold []).
Qed.

Lemma shapeIPPResponse_eq resp :
  let groups := default (named_groups resp) (resGroups resp) in
  let out := shapeIPPResponse resp in
  let objects := sh_objects (foldl shape_group shape_start groups) in
  resGroups out = Some (shaped_groups out objects) /\
  resOperation out = shape_operation
    (match attrs_of TagOperationGroup groups with [] => resOperation resp | o => o end) /\
  resUnsupported out =
    (match attrs_of TagUnsupportedGroup groups with [] => resUnsupported resp | u => Some u end) /\
  out = set_resGroups (resGroups out) (set_resUnsupported (resUnsupported out) (set_resOperation (resOperation out) resp)).
Proof.
  intros groups out objects. pose proof (shape_inv_fold groups) as I.
  rewrite <- (si_operation _ _ I), <- (si_unsupported _ _ I).
  unfold out, shapeIPPResponse, shaped_groups. fold groups. fold objects. cbn [resGroups resOperation resUnsupported set_resGroups set_resUnsupported set_resOperation].
  done.
Qed.

(** Whatever groups a handler or the printer produced, the response the
    client gets has the canonical shape: one operation group that opens with
    the charset and the language of the proxy, directly followed by the
    unsupported group, if any, and then the object groups, in which every tag
    but the job tag occurs once. The job groups are the ones of the input,
    each as it was, and no attribute of any other group is lost. Shaping a
    shaped response changes nothing. *)
Theorem shaped_response_canonical resp :
  let groups := default (named_groups resp) (resGroups resp) in
  let out := shapeIPPResponse resp in
  exists objects,
    resGroups out = Some (mkGroup TagOperationGroup (resOperation out) ::
      match resUnsupported out with Some u => [mkGroup TagUnsupportedGroup u] | None => [] end ++ objects) /\
    take 2 (resOperation out) = responseOperationAttrs "" /\
    drop 2 (resOperation out) =
      DropAttrs (match attrs_of TagOperationGroup groups with [] => resOperation resp | o => o end)
        ["attributes-charset"; "attributes-natural-language"]%string /\
    resUnsupported out =
      (match attrs_of TagUnsupportedGroup groups with [] => resUnsupported resp | u => Some u end) /\
    Forall object_tag (map Tag objects) /\ once objects /\
    with_tag TagJobGroup objects = with_tag TagJobGroup groups /\
    (forall t, object_tag t -> attrs_of t objects = attrs_of t groups) /\
    shapeIPPResponse out = out.
Proof.
  intros groups out. pose proof (shape_inv_fold groups) as I.
  destruct (shapeIPPResponse_eq resp) as (Eg & Eo & Eu & Er). fold groups out in Eg, Eo, Eu, Er.
  set (objects := sh_objects (foldl shape_group shape_start groups)) in *.
  assert (once objects) as Hon by exact (si_unique _ _ I).
  pose proof (si_tags _ _ I : Forall object_tag (map Tag objects)) as Ht.
  assert (shapeIPPResponse out = out) as Hidem.
  { destruct (shaped_fold out objects Ht Hon) as (F1 & F2 & F3).
    pose proof (shape_inv_fold (shaped_groups out objects)) as I'.
    destruct (shapeIPPResponse_eq out) as (Eg' & Eo' & Eu' & Er').
    rewrite Eg in Eg', Eo', Eu'. cbn [default from_option] in Eg', Eo', Eu'. unfold id in Eg', Eo', Eu'.
    rewrite <- (si_operation _ _ I'), F1 in Eo'. rewrite <- (si_unsupported _ _ I'), F2 in Eu'. rewrite F3 in Eg'.
    assert (resOperation (shapeIPPResponse out) = resOperation out) as Eo2.
    { rewrite Eo'. replace (match resOperation out with [] => resOperation out | a :: l => a :: l end)
        with (resOperation out) by (by destruct (resOperation out)). by rewrite Eo, shape_operation_idemp. }
    assert (resUnsupported (shapeIPPResponse out) = resUnsupported out) as Eu2.
    { rewrite Eu'. by destruct (resUnsupported out) as [[]|]. }
    rewrite Er', Eg'. unfold shaped_groups. rewrite Eo2, Eu2.
    fold (shaped_groups out objects). rewrite <- Eg. by destruct out. }
  exists objects. split; [exact Eg|].
  split; [etrans; [exact (f_equal (take 2) Eo)|]; unfold shape_operation; by rewrite responseOperationAttrs_empty|].
  split_and!; try done.
  - etrans; [exact (f_equal (drop 2) Eo)|]. unfold shape_operation. by rewrite responseOperationAttrs_empty.
  - exact (si_jobs _ _ I).
  - intros t [H1 H2]. by apply (si_attrs _ _ I).
Qed.

(** What the proxy answers a client is what the proxy itself demands of a
    printer: a shaped response that carries the version and the request id of
    the request passes every check made on the answer of a printer, so that
    proxies can be chained. *)
Theorem shaped_response_accepted (req : Message) resp :
  supportedIPPVersion (Version req) = true ->
  resRequestID resp = RequestID req ->
  checkUpstreamResponse req (shapeIPPResponse (set_resVersion (Version req) resp)) = None.
Proof.
  intros Hv Hid. set (out := shapeIPPResponse (set_resVersion (Version req) resp)).
  set (groups := default (named_groups (set_resVersion (Version req) resp)) (resGroups (set_resVersion (Version req) resp))).
  pose proof (shape_inv_fold groups) as I.
  destruct (shapeIPPResponse_eq (set_resVersion (Version req) resp)) as (Eg & Eo & _ & Er). fold groups out in Eg, Eo, Er.
  assert (resVersion out = Version req) as Ev by (rewrite Er; done).
  assert (resRequestID out = RequestID req) as Ei by (rewrite Er; done).
  assert (ippVersionGreater (Version req) (Version req) = false) as Hg.
  { unfold ippVersionGreater. rewrite Z.eqb_refl. cbn [negb]. apply Z.ltb_irrefl. }
  clear Er. clearbody out groups. unfold checkUpstreamResponse. rewrite Ev, Ei, Z.eqb_refl, Hv, Hg, andb_false_r. cbn [negb].
  assert (validateUpstreamResponseGroups (resGroups out) = None) as ->.
  { rewrite Eg. unfold validateUpstreamResponseGroups, shaped_groups. cbn -[check_response_groups].
    destruct (resUnsupported out); cbn; apply check_objects; exact (si_tags _ _ I). }
  rewrite Eo. unfold shape_operation. rewrite responseOperationAttrs_empty. set (rest := DropAttrs _ _). reflexivity.
Qed.
End shape.

(** ** Attributes that are set, dropped and kept *)

(** The attributes of a name, in their order. *)
Definition all_named (n : string) (attrs : Attributes) : Attributes :=
  List.filter (fun a => EqualFold (aName a) n) attrs.

Lemma filter_SetAttr_skip (p : Attribute -> bool) attrs a :
  (forall b, name_eq (aName b) (aName a) -> p b = false) -> List.filter p (SetAttr attrs a) = List.filter p attrs.
Proof.
  intros Hp. unfold SetAttr. generalize false as r.
  induction attrs as [|b l IH]; intros r; cbn [SetAttr_go].
  { destruct r; cbn; [done|]. by rewrite Hp. }
  destruct (EqualFold (aName b) (aName a)) eqn:E; cbn [List.filter].
  - apply EqualFold_true in E. rewrite (Hp b E). destruct r; cbn [List.filter]; [apply IH|].
    rewrite (Hp a) by done. apply IH.
  - by rewrite IH.
Qed.

Lemma all_named_SetAttr n attrs a : name_eq (aName a) n -> all_named n (SetAttr attrs a) = [a].
Proof.
  intros Hn. unfold SetAttr, all_named. pose proof (proj2 (EqualFold_true _ _) Hn) as Ha.
  assert (Hsame : forall b, EqualFold (aName b) n = EqualFold (aName b) (aName a)).
  { intros b. unfold EqualFold. unfold name_eq in Hn. by rewrite Hn. }
  assert (Htrue : List.filter (fun b => EqualFold (aName b) n) (SetAttr_go attrs a true) = []).
  { induction attrs as [|b l IH]; cbn [SetAttr_go]; [done|].
    destruct (EqualFold (aName b) (aName a)) eqn:E; [done|]. cbn [List.filter]. by rewrite Hsame, E. }
  induction attrs as [|b l IH]; cbn [SetAttr_go]; [cbn; by rewrite Ha|].
  destruct (EqualFold (aName b) (aName a)) eqn:E; cbn [List.filter].
  - rewrite Ha. f_equal. cbn [SetAttr_go] in Htrue. by rewrite E in Htrue.
  - rewrite Hsame, E. apply IH. cbn [SetAttr_go] in Htrue. rewrite E in Htrue. cbn [List.filter] in Htrue.
    by rewrite Hsame, E in Htrue.
Qed.

Lemma in_name_set n names : n ∈ name_set names <-> Exists (fun m => ToLower m = n) names.
Proof.
  unfold name_set. rewrite elem_of_list_to_set, list_elem_of_fmap, Exists_exists. naive_solver.
Qed.

Lemma filter_DropAttrs_skip (p : Attribute -> bool) attrs names :
  (forall b, ToLower (aName b) ∈ name_set names -> p b = false) ->
  List.filter p (DropAttrs attrs names) = List.filter p attrs.
Proof.
  intros Hp. unfold DropAttrs. induction attrs as [|b l IH]; [done|]. cbn [List.filter].
  destruct (bool_decide _) eqn:E; cbn [negb List.filter].
  - apply bool_decide_eq_true in E. by rewrite (Hp b E).
  - by rewrite IH.
Qed.

Lemma Attr_DropAttrs attrs names n :
  Attr (DropAttrs attrs names) n = if bool_decide (ToLower n ∈ name_set names) then None else Attr attrs n.
Proof.
  unfold DropAttrs. induction attrs as [|b l IH]; cbn [List.filter Attr].
  { by destruct (bool_decide _). }
  destruct (EqualFold (aName b) n) eqn:E.
  - apply EqualFold_true in E. unfold name_eq in E. rewrite E.
    destruct (bool_decide (ToLower n ∈ name_set names)) eqn:En; cbn [negb].
    + by rewrite IH.
    + cbn [Attr]. by rewrite (proj2 (EqualFold_true _ _) E).
  - destruct (bool_decide (ToLower (aName b) ∈ name_set names)) eqn:En; cbn [negb].
    + by rewrite IH.
    + cbn [Attr]. by rewrite E, IH.
Qed.

(** ** The operation attributes a printer receives *)

Definition is_target (a : Attribute) : bool := in_strings (ToLower (aName a)) target_names.
Definition not_target (a : Attribute) : bool := negb (is_target a).

Lemma filter_filter_same {A} (p : A -> bool) l : List.filter p (List.filter p l) = List.filter p l.
Proof. induction l as [|x l IH]; [done|]. cbn. destruct (p x) eqn:E; cbn; [rewrite E; by f_equal|done]. Qed.

Lemma target_named n a : in_strings n target_names = true -> EqualFold (aName a) n = true ->
  ToLower n = n -> is_target a = true.
Proof. intros Hn He Hl. unfold is_target. apply EqualFold_true in He. unfold name_eq in He. by rewrite He, Hl. Qed.

Lemma order_targets attrs :
  Forall (fun a => is_target a = true) (omap (Attr attrs) target_names).
Proof.
  rewrite Forall_forall. intros a Ha. apply list_elem_of_omap in Ha as (n & Hn & Ha).
  apply Attr_Some in Ha as [_ Ha]. apply (target_named n).
  - by apply in_strings_true.
  - by apply EqualFold_true.
  - unfold target_names in Hn. rewrite !elem_of_cons, elem_of_nil in Hn. destruct_or? Hn; subst; done.
Qed.

Lemma filter_all_false {A} (p : A -> bool) l : Forall (fun a => p a = false) l -> List.filter p l = [].
Proof. induction 1 as [|x l Hx _ IH]; [done|]. cbn. by rewrite Hx. Qed.

Lemma order_rest attrs : List.filter not_target (orderOperationTargets attrs) = List.filter not_target attrs.
Proof.
  unfold orderOperationTargets. rewrite List.filter_app, filter_all_false.
  - apply filter_filter_same.
  - eapply Forall_impl; [apply order_targets|]. intros a Ha. exact (f_equal negb Ha).
Qed.

Lemma Attr_not_target l n : in_strings n target_names = true -> ToLower n = n ->
  Attr (List.filter not_target l) n = None.
Proof.
  intros Hn Hl. apply Attr_None. intros (a & Ha & He).
  apply list_elem_of_In, filter_In in Ha as [_ Ha]. apply EqualFold_true in He.
  pose proof (target_named n a Hn He Hl) as Ht. unfold not_target in Ha. by rewrite Ht in Ha.
Qed.

Lemma omap_lookup attrs names n : Forall (fun m => ToLower m = m) names -> ToLower n = n ->
  Attr (omap (Attr attrs) names) n = if in_strings n names then Attr attrs n else None.
Proof.
  intros Hl Hn. induction Hl as [|m names Hm _ IH]; [done|]. cbn [omap list_omap].
  unfold in_strings in *. cbn [existsb]. destruct (String.eqb_spec n m) as [<-|Hne]; cbn [orb].
  - destruct (Attr attrs n) as [a|] eqn:E; cbn [Attr].
    + apply Attr_Some in E as [_ E]. by rewrite (proj2 (EqualFold_true _ _) E).
    + rewrite IH. by destruct (existsb _ _).
  - destruct (Attr attrs m) as [a|] eqn:E; cbn [Attr]; [|done].
    apply Attr_Some in E as [_ E]. destruct (EqualFold (aName a) n) eqn:Ef; [|done].
    apply EqualFold_true in Ef. unfold name_eq in *. congruence.
Qed.

Lemma order_lookup attrs n : in_strings n target_names = true -> ToLower n = n ->
  Attr (orderOperationTargets attrs) n = Attr attrs n.
Proof.
  intros Hn Hl. unfold orderOperationTargets. rewrite Attr_app, Attr_not_target, omap_lookup, Hn; [|repeat constructor|done..].
  by destruct (Attr attrs n).
Qed.

Section requests.
Context `{G : GoippLib}.

Definition printer_target (uri : string) : Attribute := ("printer-uri", [(TagURI, VString uri)])%string.
Definition job_target (id : Z) : Attribute := ("job-id", [(TagInteger, VInteger id)])%string.

Lemma rewriteOperationForUpstream_exact attrs uri :
  rewriteOperationForUpstream attrs uri =
  omap (Attr attrs) ["attributes-charset"; "attributes-natural-language"]%string ++
  [printer_target uri] ++ omap (Attr attrs) ["job-uri"; "job-id"]%string ++
  List.filter not_target attrs.
Proof.
  unfold rewriteOperationForUpstream, URI. rewrite MakeAttribute_eq. fold (printer_target uri).
  unfold orderOperationTargets. fold not_target.
  rewrite (filter_SetAttr_skip not_target).
  - unfold target_names. cbn [omap list_omap]. rewrite !SetAttr_lookup. cbn [aName fst printer_target].
    change (EqualFold "printer-uri" "attributes-charset") with false.
    change (EqualFold "printer-uri" "attributes-natural-language") with false.
    change (EqualFold "printer-uri" "printer-uri") with true.
    change (EqualFold "printer-uri" "job-uri") with false.
    change (EqualFold "printer-uri" "job-id") with false. cbn iota.
    change (fun a => negb (in_strings (ToLower (aName a)) target_names)) with not_target.
    destruct (Attr attrs "attributes-charset"), (Attr attrs "attributes-natural-language"),
      (Attr attrs "job-uri"), (Attr attrs "job-id"); done.
  - intros b Hb. unfold not_target. rewrite (target_named "printer-uri" b); try done. by apply EqualFold_true.
Qed.

(** The operation attributes of a request about a job, as the printer
    receives them: the charset and language of the client, the URI of the
    printer (never the one of the queue), the printer's id of the job (never
    the proxy's id or a job-uri), and then the other attributes of the client,
    unchanged and in their order. *)
Theorem upstream_job_request attrs job uri :
  rewriteOperationForUpstream (rewriteMappedJobOperation attrs job) uri =
  omap (Attr attrs) ["attributes-charset"; "attributes-natural-language"]%string ++
  [printer_target uri; job_target (UpstreamJobID job)] ++ List.filter not_target attrs.
Proof.
  rewrite rewriteOperationForUpstream_exact. unfold rewriteMappedJobOperation, Integer. rewrite MakeAttribute_eq.
  fold (job_target (UpstreamJobID job)). set (inner := SetAttr attrs _).
  cbn [omap list_omap]. rewrite !order_lookup, order_rest, !Attr_DropAttrs by done.
  rewrite (filter_DropAttrs_skip not_target). 2:{
    intros b Hb. apply in_name_set, Exists_exists in Hb as (m & Hm & Hb). apply list_elem_of_singleton in Hm as ->.
    unfold not_target. rewrite (target_named "job-uri" b); try done. apply EqualFold_true. by symmetry. }
  unfold inner. rewrite (filter_SetAttr_skip not_target). 2:{
    intros b Hb. unfold not_target. rewrite (target_named "job-id" b); try done. by apply EqualFold_true. }
  rewrite !SetAttr_lookup. cbn [aName fst job_target].
  change (EqualFold "job-id" "attributes-charset") with false.
  change (EqualFold "job-id" "attributes-natural-language") with false.
  change (EqualFold "job-id" "job-uri") with false.
  change (EqualFold "job-id" "job-id") with true. cbn iota.
  repeat match goal with |- context [bool_decide ?P] =>
    match P with context [name_set] =>
      first [rewrite (bool_decide_eq_false_2 P) by (intros H; apply in_name_set in H; by apply Exists_cons in H as [?|H%Exists_nil])
            |rewrite (bool_decide_eq_true_2 P) by (apply in_name_set; by left)] end end.
  done.
Qed.
End requests.

(** ** The jobs a client sees *)

(** The attributes of a job the proxy answers for. *)
Definition proxied_names : list string :=
  ["job-id"; "job-uri"; "job-printer-uri"; "job-state"; "job-state-reasons"]%string ++ job_clocks.
Definition untouched (a : Attribute) : bool := negb (in_strings (ToLower (aName a)) proxied_names).

(** [job_view uri id orig out]: [out] shows the job [id] of the queue [uri]
    with the attributes [orig] of the printer. *)
Record job_view `{GoippLib} (printerURI : string) (id : Z) (orig out : Attributes) : Prop := {
  jv_id : all_named "job-id" out = [("job-id", [(TagInteger, VInteger id)])%string];
  jv_uri : all_named "job-uri" out = [("job-uri", [(TagURI, VString (proxyJobURI printerURI id))])%string];
  jv_printer : all_named "job-printer-uri" out = [("job-printer-uri", [(TagURI, VString printerURI)])%string];
  jv_state : exists a, Attr out "job-state" = Some a /\ validJobStateAttribute a = true;
  jv_reasons : exists a, Attr out "job-state-reasons" = Some a /\ validJobStateReasonsAttribute a = true;
  jv_clocks : forall n, n ∈ job_clocks -> Attr out n = None;
  jv_rest : List.filter untouched out = List.filter untouched orig
}.

(** Setting an attribute unless a valid one is there. *)
Definition ensure (n : string) (valid : Attribute -> bool) (d : Attribute) (attrs : Attributes) : Attributes :=
  match Attr attrs n with
  | Some a => if valid a then attrs else SetAttr attrs d
  | None => SetAttr attrs d
  end.

Lemma ensure_lookup n valid d attrs : name_eq (aName d) n -> valid d = true ->
  exists a, Attr (ensure n valid d attrs) n = Some a /\ valid a = true.
Proof.
  intros Hd Hv. assert (Attr (SetAttr attrs d) n = Some d) as Hset.
  { rewrite SetAttr_lookup. by rewrite (proj2 (EqualFold_true _ _) Hd). }
  unfold ensure. destruct (Attr attrs n) as [a|] eqn:E; [|eauto]. destruct (valid a) eqn:Ev; eauto.
Qed.

Lemma ensure_other n valid d attrs m : EqualFold (aName d) m = false ->
  Attr (ensure n valid d attrs) m = Attr attrs m.
Proof.
  intros Hd. assert (Attr (SetAttr attrs d) m = Attr attrs m) as Hset by (rewrite SetAttr_lookup; by rewrite Hd).
  unfold ensure. destruct (Attr attrs n) as [a|]; [|done]. by destruct (valid a).
Qed.

Lemma ensure_skip n valid d attrs (p : Attribute -> bool) :
  (forall b, name_eq (aName b) (aName d) -> p b = false) ->
  List.filter p (ensure n valid d attrs) = List.filter p attrs.
Proof.
  intros Hp. unfold ensure. pose proof (filter_SetAttr_skip p attrs d Hp) as Hs.
  destruct (Attr attrs n) as [a|]; [|done]. by destruct (valid a).
Qed.

(** Attributes named by a constant are not of another constant name. *)
Lemma named_other m n b : name_eq (aName b) m -> EqualFold m n = false -> EqualFold (aName b) n = false.
Proof. intros Hb Hm. unfold EqualFold in *. unfold name_eq in Hb. by rewrite Hb. Qed.

Lemma named_touched m b : name_eq (aName b) m -> in_strings (ToLower m) proxied_names = true -> untouched b = false.
Proof. intros Hb Hm. unfold untouched. unfold name_eq in Hb. by rewrite Hb, Hm. Qed.

Lemma clock_names m : m ∈ name_set job_clocks -> m ∈ job_clocks.
Proof.
  intros H. apply in_name_set, Exists_exists in H as (c & Hc & <-).
  assert (forallb (fun c => (ToLower c =? c)%string) job_clocks = true) as Hall by reflexivity.
  rewrite forallb_forall in Hall. apply list_elem_of_In in Hc as Hc'. apply Hall, String.eqb_eq in Hc'. by rewrite Hc'.
Qed.

Lemma not_clock m : m ∈ job_clocks -> in_strings m job_clocks = false -> False.
Proof. intros H. apply in_strings_true in H. by rewrite H. Qed.

Section view.
Context `{G : GoippLib}.

Lemma rewriteJobAttrs_eq attrs id uri : rewriteJobAttrs attrs id uri =
  DropAttrs
    (ensure "job-state-reasons" validJobStateReasonsAttribute ("job-state-reasons", [(TagKeyword, VString "none")])
      (ensure "job-state" validJobStateAttribute ("job-state", [(TagEnum, VInteger 3)])
        (SetAttr (SetAttr (SetAttr attrs ("job-id", [(TagInteger, VInteger id)]))
           ("job-uri", [(TagURI, VString (proxyJobURI uri id))])) ("job-printer-uri", [(TagURI, VString uri)]))))
    job_clocks%string.
Proof. unfold rewriteJobAttrs, Integer, URI, Keyword. by rewrite !MakeAttribute_eq. Qed.

(** A name that is no clock, in the rewritten attributes. *)
Lemma clock_filter (p : Attribute -> bool) attrs :
  (forall m b, m ∈ job_clocks -> name_eq (aName b) m -> p b = false) ->
  List.filter p (DropAttrs attrs job_clocks) = List.filter p attrs.
Proof.
  intros Hp. apply filter_DropAttrs_skip. intros b Hb. pose proof (clock_names _ Hb) as Hm.
  apply (Hp (ToLower (aName b))); [done|]. unfold name_eq.
  apply in_name_set, Exists_exists in Hb as (c & _ & Hc). by rewrite ToLower_idemp.
Qed.

Lemma job_view_rewrite attrs id uri : job_view uri id attrs (rewriteJobAttrs attrs id uri).
Proof.
  rewrite rewriteJobAttrs_eq.
  assert (Hclock : forall n m b, (forallb (fun c => negb (EqualFold c n)) job_clocks = true) ->
    m ∈ job_clocks -> name_eq (aName b) m -> EqualFold (aName b) n = false).
  { intros n m b Hall Hm Hb. rewrite forallb_forall in Hall. apply list_elem_of_In, Hall, negb_true_iff in Hm.
    by apply (named_other m). }
  assert (Hoff : forall m n, EqualFold m n = false -> forall b : Attribute, name_eq (aName b) m -> EqualFold (aName b) n = false).
  { intros m n Hm b Hb. by apply (named_other m). }
  split.
  1-3: unfold all_named; rewrite clock_filter by (intros m b Hm Hb; eapply Hclock; [|done..]; reflexivity);
    rewrite !ensure_skip by (cbn [aName fst]; apply Hoff; reflexivity).
  - rewrite !filter_SetAttr_skip by (cbn [aName fst]; apply Hoff; reflexivity). by apply all_named_SetAttr.
  - rewrite filter_SetAttr_skip by (cbn [aName fst]; apply Hoff; reflexivity). by apply all_named_SetAttr.
  - by apply all_named_SetAttr.
  - rewrite Attr_DropAttrs, bool_decide_eq_false_2, ensure_other; [by apply ensure_lookup|done|].
    intros Hin%clock_names. by apply not_clock in Hin.
  - rewrite Attr_DropAttrs, bool_decide_eq_false_2; [by apply ensure_lookup|].
    intros Hin%clock_names. by apply not_clock in Hin.
  - intros n Hn. rewrite Attr_DropAttrs, bool_decide_eq_true_2; [done|].
    apply in_name_set, Exists_exists. eauto.
  - rewrite clock_filter.
    2:{ intros m b Hm Hb. apply (named_touched m); [done|].
        assert (forallb (fun c => in_strings (ToLower c) proxied_names) job_clocks = true) as Hall by reflexivity.
        rewrite forallb_forall in Hall. by apply Hall, list_elem_of_In. }
    rewrite !ensure_skip by (intros b Hb; by apply (named_touched _ b Hb)).
    by rewrite !filter_SetAttr_skip by (intros b Hb; by apply (named_touched _ b Hb)).
Qed.

(** After [rewriteResponseJob] every job of a response, in the named field
    and in each job group, is the proxy's job: it has exactly one job-id, one
    job-uri and one job-printer-uri, those of the proxy, whatever the printer
    sent, a valid state and state reasons, and none of the printer's clocks;
    its other attributes, and the other groups, are unchanged. *)
Theorem client_sees_proxy_job resp id uri :
  let out := rewriteResponseJob resp id uri in
  job_view uri id (default [] (resJob resp)) (default [] (resJob out)) /\
  Forall2 (fun g g' => Tag g' = Tag g /\
             if Tag g =? TagJobGroup then job_view uri id (Attrs g) (Attrs g') else g' = g)
    (default [] (resGroups resp)) (default [] (resGroups out)) /\
  out = set_resGroups (resGroups out) (set_resJob (resJob out) resp).
Proof.
  intros out. split; [apply job_view_rewrite|]. split; [|done].
  unfold out, rewriteResponseJob. cbn [resGroups set_resGroups]. destruct (resGroups resp) as [gs|]; [|constructor].
  cbn. induction gs as [|g gs IH]; cbn; constructor; [|done].
  destruct (Tag g =? TagJobGroup) eqn:E; cbn; [|done]. split; [done|apply job_view_rewrite].
Qed.
End view.

(** ** Examples *)

Section examples.
#[local] Existing Instance goipp_example.

Definition example_request : Message :=
  NewRequest (MakeVersion 2 0) OpGetJobs 7.

Definition example_response : Response :=
  set_resGroups (Some [mkGroup TagJobGroup [("job-id", [(TagInteger, VInteger 4)])];
                       mkGroup TagPrinterGroup [("a", [])];
                       mkGroup TagOperationGroup [("x", [])];
                       mkGroup TagPrinterGroup [("b", [])]])%string
    (NewResponse (MakeVersion 1 1) StatusOk 7).

Example example_shaped :
  resGroups (shapeIPPResponse example_response) =
  Some [mkGroup TagOperationGroup (responseOperationAttrs "" ++ [("x", [])]);
        mkGroup TagJobGroup [("job-id", [(TagInteger, VInteger 4)])];
        mkGroup TagPrinterGroup [("a", []); ("b", [])]]%string.
Proof. vm_compute. reflexivity. Qed.

Lemma shaped_response_accepted_witness :
  checkUpstreamResponse example_request
    (shapeIPPResponse (set_resVersion (Version example_request) example_response)) = None.
Proof. apply shaped_response_accepted; reflexivity. Defined.
End examples.
