(* ===== verification/Routing.v ===== *)
(** * Document routes ([internal/proxy/routing.go, airprint.go])

    Which document formats a queue admits, and what happens to a document of
    each: it is passed through, or translated from URF to PWG Raster with
    settings that are fixed when the job is created and kept in the registry.

    [DocumentRoute] here is the type of package proxy; the one of package
    store is [Store.DocumentRoute]. A clone of a route is the route itself. *)

From Stdlib Require Import ZArith Lia Ascii String.
From stdpp Require Import base tactics list strings gmap.
From S2P Require Import Prelude GoString GoError GoTime Store Urf Goipp IppAttrs GoUrl Protocol.
From S2P Require Import MediaCatalog Formats Messages.

(** ** Configuration and capabilities *)

(** [config.PrinterConfig], the fields that the job operations use. *)
Record PrinterConfig := {
  UpstreamURI : string;
  Policy : PolicyConfig;
  AirPrintMode : string;
  DropVendorAttrs : list string;
  PreserveJobAttrs : list string
}.

Definition AirPrintDisabled : string := "disabled".
Definition AirPrintAuto : string := "auto".
Definition AirPrintEmulateIfMissing : string := "emulate-if-missing".

Definition normalizeAirPrintMode (mode : string) : string :=
  let m := ToLower (TrimSpace mode) in
  if in_strings m [""; AirPrintAuto]%string then AirPrintAuto
  else if (m =? AirPrintEmulateIfMissing)%string then AirPrintEmulateIfMissing else m.

(** [config.PolicyConfig{}] *)
Definition zeroPolicy : PolicyConfig := {|
  pMedia := ""; pMediaSupported := []; pMediaDefault := ""; pMediaType := ""; pPrintColorMode := "";
  pMediaSource := None; pPrintScaling := None; pUseMediaCol := false; pFidelityMode := "" |}.

(** ** Routes *)

Inductive AirPrintPath : Type := AirPrintPathNative | AirPrintPathEmulated | AirPrintPathUnavailable.

Record DocumentRoute := {
  ClientFormat : string;
  UpstreamFormat : string;
  Transform : bool;
  drMapping : Z;
  Page : PageSettings;
  Resolutions : list Z;
  drURFTokens : list string
}.

Record RouteSnapshot := {
  Routes : list DocumentRoute;
  snapPath : AirPrintPath;
  snapReason : string;
  URFTokens : list string
}.

Definition matches_format (format : string) (r : DocumentRoute) : bool :=
  EqualFold (TrimSpace (ClientFormat r)) (TrimSpace format).

Definition routeFor (s : RouteSnapshot) (format : string) : option DocumentRoute :=
  head (List.filter (matches_format format) (Routes s)).

Section routes.
Context `{G : GoippLib}.

Definition defaultRoute (s : RouteSnapshot) (upstream : Attributes) : option DocumentRoute :=
  match FirstString upstream "document-format-default" ≫= routeFor s with
  | Some r => Some r
  | None =>
      match (match snapPath s with AirPrintPathEmulated => routeFor s "image/urf" | _ => None end) with
      | Some r => Some r
      | None => head (Routes s)
      end
  end.

(** ** What a printer and a policy allow *)

(** The first occurrence of each value. *)
Fixpoint unique_from {A} `{Countable A} (seen : gset A) (l : list A) : list A :=
  match l with
  | [] => []
  | x :: r => if bool_decide (x ∈ seen) then unique_from seen r else x :: unique_from ({[x]} ∪ seen) r
  end.
Definition uniqueStrings (values : list string) : list string := unique_from ∅ values.

Definition admittedUpstreamFormats (upstream : Attributes) : list string :=
  match Attr upstream "document-format-supported" with
  | None => []
  | Some attr =>
      uniqueStrings (omap (fun '(t, v) =>
        match v with
        | VString format =>
            let text := ToLower (TrimSpace format) in
            if (t =? TagMimeType) && negb (text =? "")%string && negb (text =? "application/octet-stream")%string
            then Some text else None
        | _ => None
        end) (aValues attr))
  end.

Definition isColorURFToken (token : string) : bool :=
  existsb (HasPrefix token) ["SRGB"; "ADOBERGB"; "DEVRGB"; "DEVCMYK"]%string.
Definition containsURFPrefix (tokens : list string) (prefix : string) : bool :=
  existsb (fun t => HasPrefix t prefix) tokens.

Definition rank_prefixes : list string :=
  ["V"; "W"; "SRGB"; "DEVRGB"; "DEVW"; "DEVCMYK"; "RS"; "CP"; "DM"; "FN"; "IS"; "MT"; "OB"; "PQ"; "IFU"; "OFU"]%string.
Definition urfTokenRank (token : string) : Z :=
  (fix go l i := match l with [] => 100 | p :: r => if HasPrefix token p then i else go r (i + 1) end) rank_prefixes 0.

(** [sort.SliceStable] by a key. *)
Fixpoint insert_by {A} (key : A -> Z) (x : A) (l : list A) : list A :=
  match l with
  | [] => [x]
  | y :: r => if key x <=? key y then x :: l else y :: insert_by key x r
  end.
Definition sort_by {A} (key : A -> Z) (l : list A) : list A := foldr (insert_by key) [] l.

(** The upper-cased tokens of all the values; [None] is a malformed value. *)
Fixpoint raw_tokens (values : list TValue) : option (list string) :=
  match values with
  | [] => Some []
  | (_, VString text) :: rest =>
      splitURFTokens text ≫= fun parts => (fun l => map ToUpper parts ++ l) <$> raw_tokens rest
  | _ => None
  end.

(** The loop that looks for the preferred color token. *)
Definition preferred_color (tokens : list string) : string :=
  fold_left (fun p t => if HasPrefix t "SRGB" then "SRGB"
                        else if (p =? "") && HasPrefix t "DEVRGB" then "DEVRGB" else p)%string tokens ""%string.

Definition keep_token (colorMode preferredColor token : string) : bool :=
  if (colorMode =? "monochrome")%string && isColorURFToken token then false
  else if (colorMode =? "color")%string then
    negb (HasPrefix token "W" || HasPrefix token "DEVW") &&
    negb (isColorURFToken token && negb (HasPrefix token preferredColor))
  else true.

(** [None] is [false]: no policy-compatible tokens. *)
Definition nativeURFTokens (upstream : Attributes) (policy : PolicyConfig) : option (list string) :=
  match Attr upstream "urf-supported" with
  | None => None
  | Some attr =>
      match aValues attr with
      | [] => None
      | values =>
          match raw_tokens values with
          | None => None
          | Some rawTokens =>
              let colorMode := ToLower (TrimSpace (pPrintColorMode policy)) in
              let mono := (colorMode =? "monochrome")%string in
              let color := (colorMode =? "color")%string in
              let preferredColor := if color then preferred_color rawTokens else ""%string in
              if color && (preferredColor =? "")%string then None
              else
                let tokens := List.filter (keep_token colorMode preferredColor) rawTokens in
                if negb (containsURFPrefix tokens "RS") ||
                   (mono && negb (containsURFPrefix tokens "W")) ||
                   (color && negb (containsURFPrefix tokens preferredColor)) ||
                   (negb mono && negb color && negb (containsURFPrefix tokens "W") && negb (existsb isColorURFToken tokens))
                then None
                else match tokens with
                     | [] => None
                     | _ => Some (uniqueStrings (sort_by urfTokenRank tokens))
                     end
          end
      end
  end.

Definition containsMimeType (attrs : Attributes) (wanted : string) : bool :=
  match Attr attrs "document-format-supported" with
  | None => false
  | Some attr => existsb (fun '(t, v) => (t =? TagMimeType) &&
                   match v with VString s => EqualFold (TrimSpace s) wanted | _ => false end) (aValues attr)
  end.

Definition hasRasterType (attrs : Attributes) (wanted : string) : bool :=
  match Attr attrs "pwg-raster-document-type-supported" with
  | None => false
  | Some attr => existsb (fun tv => match val_V tv with VString s => EqualFold (TrimSpace s) wanted | _ => false end)
                   (aValues attr)
  end.

Definition mappingForPolicyAndTypes (attrs : Attributes) (policy : PolicyConfig) : Z :=
  if EqualFold (TrimSpace (pPrintColorMode policy)) "monochrome" then MappingW8ToSGray8
  else if hasRasterType attrs "srgb_8" then MappingSRGB24ToSRGB8
  else MappingDEVRGB24ToRGB8.

Definition squarePWGResolutions (attrs : Attributes) : list Z :=
  match Attr attrs "pwg-raster-document-resolution-supported" with
  | None => []
  | Some attr =>
      sort_by id (unique_from ∅ (omap (fun tv =>
        match val_V tv with
        | VResolution x y units =>
            if (x <=? 0) || negb (x =? y) || negb (units =? UnitsDpi) then None else Some (u32 x)
        | _ => None
        end) (aValues attr)))
  end.

Definition fixedSheetBack (attrs : Attributes) : option string :=
  match Attr attrs "pwg-raster-document-sheet-back" with
  | Some (_, [(t, VString value)]) =>
      if (t =? TagKeyword) && in_strings (ToLower (TrimSpace value)) sheet_backs
      then Some (ToLower (TrimSpace value)) else None
  | _ => None
  end.

Definition sides_values : list string := ["one-sided"; "two-sided-long-edge"; "two-sided-short-edge"]%string.

Definition defaultSides (attrs : Attributes) : string :=
  match FirstString attrs "sides-default" with
  | Some value => if in_strings (ToLower (TrimSpace value)) sides_values then ToLower (TrimSpace value) else "one-sided"%string
  | None => "one-sided"%string
  end.

(** ** Page settings *)

Definition set_media (name : string) (w h : Z) (p : PageSettings) : PageSettings := {|
  Urf.MediaName := name; Urf.MediaWidth := w; Urf.MediaHeight := h; Urf.MediaType := Urf.MediaType p;
  Urf.MediaSource := Urf.MediaSource p; Urf.ResolutionX := Urf.ResolutionX p; Urf.ResolutionY := Urf.ResolutionY p;
  Urf.PrintQuality := Urf.PrintQuality p; Urf.Sides := Urf.Sides p; Urf.SheetBack := Urf.SheetBack p |}.
Definition set_type (t : string) (p : PageSettings) : PageSettings := {|
  Urf.MediaName := Urf.MediaName p; Urf.MediaWidth := Urf.MediaWidth p; Urf.MediaHeight := Urf.MediaHeight p;
  Urf.MediaType := t; Urf.MediaSource := Urf.MediaSource p; Urf.ResolutionX := Urf.ResolutionX p;
  Urf.ResolutionY := Urf.ResolutionY p; Urf.PrintQuality := Urf.PrintQuality p; Urf.Sides := Urf.Sides p;
  Urf.SheetBack := Urf.SheetBack p |}.
Definition set_resolution (x y : Z) (p : PageSettings) : PageSettings := {|
  Urf.MediaName := Urf.MediaName p; Urf.MediaWidth := Urf.MediaWidth p; Urf.MediaHeight := Urf.MediaHeight p;
  Urf.MediaType := Urf.MediaType p; Urf.MediaSource := Urf.MediaSource p; Urf.ResolutionX := x; Urf.ResolutionY := y;
  Urf.PrintQuality := Urf.PrintQuality p; Urf.Sides := Urf.Sides p; Urf.SheetBack := Urf.SheetBack p |}.
Definition set_finish (q : Z) (s b : string) (p : PageSettings) : PageSettings := {|
  Urf.MediaName := Urf.MediaName p; Urf.MediaWidth := Urf.MediaWidth p; Urf.MediaHeight := Urf.MediaHeight p;
  Urf.MediaType := Urf.MediaType p; Urf.MediaSource := Urf.MediaSource p; Urf.ResolutionX := Urf.ResolutionX p;
  Urf.ResolutionY := Urf.ResolutionY p; Urf.PrintQuality := q; Urf.Sides := s; Urf.SheetBack := b |}.

Definition zeroPage : PageSettings := {|
  Urf.MediaName := ""; Urf.MediaWidth := 0; Urf.MediaHeight := 0; Urf.MediaType := ""; Urf.MediaSource := 0;
  Urf.ResolutionX := 0; Urf.ResolutionY := 0; Urf.PrintQuality := 0; Urf.Sides := ""; Urf.SheetBack := "" |}.

(** An integer in the range of a print quality. *)
Definition quality_of (attrs : Attributes) (name : string) : option Z :=
  match FirstInt attrs name with Some q => if (3 <=? q) && (q <=? 5) then Some q else None | None => None end.

Definition stock_type (s : mediaSize) : string := default ""%string (MediaCatalog.MediaType s).

Definition defaultPageSettings (upstream : Attributes) (policy : PolicyConfig) : PageSettings :=
  let settings := set_finish 0 (defaultSides upstream) ""
    (set_type (pMediaType policy) (set_media (policyMediaDefault policy) 0 0 zeroPage)) in
  let settings :=
    match ByName (buildMediaCatalog upstream policy) !! mediaNameKey (Urf.MediaName settings) with
    | Some selected =>
        if HasDimension selected then
          set_type (or_str (stock_type selected) (Urf.MediaType settings))
            (set_media (Urf.MediaName settings) (u32 (XDimension selected)) (u32 (YDimension selected)) settings)
        else settings
    | None => settings
    end in
  let settings := match squarePWGResolutions upstream with r :: _ => set_resolution r r settings | [] => settings end in
  let settings := match quality_of upstream "print-quality-default" with
                  | Some q => set_finish q (Urf.Sides settings) (Urf.SheetBack settings) settings
                  | None => settings
                  end in
  match fixedSheetBack upstream with
  | Some sheet => set_finish (Urf.PrintQuality settings) (Urf.Sides settings) sheet settings
  | None => settings
  end.

Definition singleResolution (attrs : Attributes) (name : string) : option (Z * Z * Z) :=
  match Attr attrs name with
  | Some (_, [(t, VResolution x y units)]) => if t =? TagResolution then Some (x, y, units) else None
  | _ => None
  end.

(** The first non-empty text of that name, in the collection and the ones
    nested in it. *)
Fixpoint nestedStringValue (name : string) (v : Value) : string :=
  match v with
  | VCollection attrs =>
      match FirstString attrs name with
      | Some value => TrimSpace value
      | None =>
          (fix go l := match l with
             | [] => ""%string
             | (_, vals) :: rest =>
                 or_str ((fix each k := match k with
                            | [] => ""%string
                            | (_, w) :: q => or_str (nestedStringValue name w) (each q)
                            end) vals) (go rest)
             end) attrs
      end
  | _ => ""%string
  end.

Definition nestedStringAttribute (attrs : Attributes) (collectionName memberName : string) : string :=
  match Attr attrs collectionName with
  | Some (_, [(_, VCollection members)]) => nestedStringValue memberName (VCollection members)
  | _ => ""%string
  end.

Definition media_policy (media mediaType : string) : PolicyConfig := {|
  pMedia := media; pMediaSupported := []; pMediaDefault := ""; pMediaType := mediaType; pPrintColorMode := "";
  pMediaSource := None; pPrintScaling := None; pUseMediaCol := false; pFidelityMode := "" |}.

Definition requested_media (attrs : Attributes) : option string :=
  match FirstString attrs "media" with
  | Some m => Some m
  | None => let m := nestedStringAttribute attrs "media-col" "media-size-name" in
            if (m =? "")%string then None else Some m
  end.

Definition routePageSettings (route : DocumentRoute) (attrs upstream : Attributes) : PageSettings :=
  let settings := Page route in
  let settings :=
    match requested_media attrs with
    | Some m =>
        match ByName (buildMediaCatalog upstream (media_policy m (Urf.MediaType settings))) !! mediaNameKey m with
        | Some selected =>
            if HasDimension selected
            then set_media (Name selected) (u32 (XDimension selected)) (u32 (YDimension selected)) settings
            else settings
        | None => settings
        end
    | None => settings
    end in
  let settings := match FirstString attrs "sides" with
                  | Some s => set_finish (Urf.PrintQuality settings) (ToLower (TrimSpace s)) (Urf.SheetBack settings) settings
                  | None => settings
                  end in
  let settings := match quality_of attrs "print-quality" with
                  | Some q => set_finish q (Urf.Sides settings) (Urf.SheetBack settings) settings
                  | None => settings
                  end in
  match singleResolution attrs "printer-resolution" with
  | Some (x, y, units) =>
      if (0 <? x) && (x =? y) && (units =? UnitsDpi) &&
         (match Resolutions route with [] => true | l => existsb (Z.eqb (u32 x)) l end)
      then set_resolution (u32 x) (u32 x) settings else settings
  | None => settings
  end.

(** ** The routes of a queue *)

(** The route without its formats, and the tokens; or the reason there is none. *)
Definition emulatedURFRoute (upstream : Attributes) (policy : PolicyConfig)
    : string + (Z * PageSettings * list Z * list string) :=
  let color := TrimSpace (pPrintColorMode policy) in
  if negb (containsMimeType upstream "image/pwg-raster") then inl "upstream does not support image/pwg-raster"%string
  else if negb (validPWGRasterFamily upstream policy) then
    inl "upstream lacks a complete compatible PWG Raster capability family"%string
  else
    match ByName (buildMediaCatalog upstream policy) !! mediaNameKey (policyMediaDefault policy) with
    | None => inl "configured media has no resolvable dimensions"%string
    | Some selected =>
        if negb (HasDimension selected) || (XDimension selected <=? 0) || (YDimension selected <=? 0)
        then inl "configured media has no resolvable dimensions"%string
        else
          match squarePWGResolutions upstream with
          | [] => inl "upstream exposes no square PWG Raster resolution"%string
          | (r0 :: _) as resolutions =>
              let colorToken :=
                if EqualFold color "monochrome" then
                  if hasRasterType upstream "sgray_8" then inr "W8"%string
                  else inl "monochrome policy requires upstream sgray_8"%string
                else if EqualFold color "color" then
                  if hasRasterType upstream "srgb_8" then inr "SRGB24"%string
                  else if hasRasterType upstream "rgb_8" then inr "DEVRGB24"%string
                  else inl "color policy requires upstream srgb_8 or rgb_8"%string
                else inl "AirPrint emulation requires monochrome or color policy"%string in
              match colorToken with
              | inl reason => inl reason
              | inr token =>
                  match fixedSheetBack upstream with
                  | None => inl "upstream has no usable PWG Raster sheet-back mode"%string
                  | Some sheet =>
                      inr (mappingForPolicyAndTypes upstream policy,
                           {| Urf.MediaName := Name selected; Urf.MediaWidth := u32 (XDimension selected);
                              Urf.MediaHeight := u32 (YDimension selected); Urf.MediaType := stock_type selected;
                              Urf.MediaSource := 0; Urf.ResolutionX := r0; Urf.ResolutionY := r0;
                              Urf.PrintQuality := 0; Urf.Sides := defaultSides upstream; Urf.SheetBack := sheet |},
                           resolutions, ["V1.4"; token; "RS" +:+ Itoa r0]%string)
                  end
              end
          end
    end.

Definition pass_through (format : string) (page : PageSettings) : DocumentRoute := {|
  ClientFormat := format; UpstreamFormat := format; Transform := false; drMapping := 0; Page := page;
  Resolutions := []; drURFTokens := [] |}.

Definition buildRouteSnapshot (upstream : Attributes) (policy : PolicyConfig) (printer : PrinterConfig) : RouteSnapshot :=
  let family := validURFFamily upstream in
  let native := if family then nativeURFTokens upstream policy else None in
  let nativeURF := bool_decide (is_Some native) in
  let direct := map (fun f => pass_through f (defaultPageSettings upstream policy))
    (List.filter (fun f => negb (EqualFold f "image/urf" && negb nativeURF) &&
                           negb (EqualFold f "image/pwg-raster" && negb (validPWGRasterFamily upstream policy)))
       (admittedUpstreamFormats upstream)) in
  let unavailable reason :=
    {| Routes := direct; snapPath := AirPrintPathUnavailable; snapReason := reason; URFTokens := [] |} in
  match native with
  | Some nativeTokens =>
      {| Routes := direct; snapPath := AirPrintPathNative;
         snapReason := "upstream provides a valid native image/urf family"; URFTokens := nativeTokens |}
  | None =>
      let mode := normalizeAirPrintMode (AirPrintMode printer) in
      if negb (mode =? AirPrintEmulateIfMissing)%string then
        if (mode =? AirPrintDisabled)%string then unavailable "disabled by configuration (airprint_mode=disabled)"%string
        else unavailable "native-only mode requires a valid upstream image/urf family"%string
      else
        match emulatedURFRoute upstream policy with
        | inl reason => unavailable reason
        | inr (mapping, page, resolutions, tokens) =>
            {| Routes := direct ++ [{| ClientFormat := "image/urf"; UpstreamFormat := "image/pwg-raster";
                                       Transform := true; drMapping := mapping; Page := page;
                                       Resolutions := resolutions; drURFTokens := tokens |}];
               snapPath := AirPrintPathEmulated;
               snapReason := "native URF is unavailable; exact URF-to-PWG route is eligible"; URFTokens := tokens |}
        end
  end.

(** [CapabilityModel], the fields that decide the routes and the policy. The
    routes are always built when the model is made. *)
Record CapabilityModel := {
  cmUpstream : Attributes;
  cmPolicy : PolicyConfig;
  cmRoutes : RouteSnapshot
}.

(** Formats for a queue that has no committed model yet. *)
Definition admittedLegacyFormats (upstream : Attributes) : list string :=
  match Attr upstream "document-format-supported" with
  | None => []
  | Some attr =>
      uniqueStrings (omap (fun '(t, v) =>
        match v with
        | VString text =>
            let format := ToLower (TrimSpace text) in
            if (t =? TagMimeType) && negb (format =? "")%string then Some format else None
        | _ => None
        end) (aValues attr))
  end.

Definition legacyPassThroughRoute (upstream : Attributes) (format : string) : option DocumentRoute :=
  let format := ToLower (TrimSpace format) in
  let formats := admittedLegacyFormats upstream in
  let format :=
    if (format =? "")%string then
      let f := match FirstString upstream "document-format-default" with
               | Some d => ToLower (TrimSpace d) | None => ""%string end in
      if (f =? "")%string then hd ""%string formats else f
    else format in
  let page := defaultPageSettings upstream zeroPolicy in
  if (format =? "")%string then None
  else if (format =? "application/octet-stream")%string then Some (pass_through format page)
  else (fun candidate => pass_through candidate page) <$> head (List.filter (fun c => EqualFold c format) formats).

(** [routeForRequest]: the model of the queue, its capabilities (nil before the
    first refresh), its configuration, and the capabilities read once more
    when the first reading was nil. *)
Definition routeForRequest (model : option CapabilityModel) (capabilities : option Attributes)
    (printer : option PrinterConfig) (reread : option Attributes) (format : string) : option DocumentRoute :=
  let blank := (TrimSpace format =? "")%string in
  match model with
  | Some m => if blank then defaultRoute (cmRoutes m) (cmUpstream m) else routeFor (cmRoutes m) format
  | None =>
      match printer with
      | None => None
      | Some p =>
          let upstream := default [] (match capabilities with Some u => Some u | None => reread end) in
          let snapshot := buildRouteSnapshot upstream (Policy p) p in
          match (if blank then defaultRoute snapshot upstream else routeFor snapshot format) with
          | Some r => Some r
          | None => legacyPassThroughRoute upstream format
          end
      end
  end.

(** ** Routes in the registry *)

Definition routeKind (route : DocumentRoute) : string := if Transform route then RouteURFToPWG else RoutePassThrough.

Definition routeToStore (route : DocumentRoute) : Store.DocumentRoute := {|
  ClientDocumentFormat := ToLower (TrimSpace (ClientFormat route));
  rUpstreamDocumentFormat := ToLower (TrimSpace (UpstreamFormat route));
  Kind := routeKind route; Mapping := Mapping_String (drMapping route);
  Store.MediaName := Urf.MediaName (Page route); Store.MediaWidth := Urf.MediaWidth (Page route);
  Store.MediaHeight := Urf.MediaHeight (Page route); Store.MediaType := Urf.MediaType (Page route);
  Store.MediaSource := Urf.MediaSource (Page route); Store.ResolutionX := Urf.ResolutionX (Page route);
  Store.ResolutionY := Urf.ResolutionY (Page route); Store.PrintQuality := Urf.PrintQuality (Page route);
  Store.Sides := Urf.Sides (Page route); Store.SheetBack := Urf.SheetBack (Page route) |}.

(** The job that Print-Job and Create-Job reserve. *)
Definition reserved_job (q user name format : string) (route : DocumentRoute) (copies : Z) : Store.Job := {|
  ProxyJobID := 0; UpstreamJobID := 0; HasUpstreamJobID := false; UpstreamJobURI := ""; HasUpstreamJobURI := false;
  names := {| Queue := q; QueueOwner := q; RequestingUser := user; JobName := name |};
  DocumentFormat := format; UpstreamDocumentFormat := UpstreamFormat route;
  routeFields := flatten zeroRoute; Store.Route := routeToStore route;
  life := {| State := ""; ObservedState := ""; ObservedError := "" |}; payload := zeroPayload copies; times := zeroTimes |}.

Definition mappingFromString (value : string) : Z :=
  let v := ToLower (TrimSpace value) in
  if (v =? ToLower (Mapping_String MappingW8ToSGray8))%string then MappingW8ToSGray8
  else if (v =? ToLower (Mapping_String MappingSRGB24ToSRGB8))%string then MappingSRGB24ToSRGB8
  else if (v =? ToLower (Mapping_String MappingDEVRGB24ToRGB8))%string then MappingDEVRGB24ToRGB8
  else 0.

Definition routeFromStore (job : Store.Job) : option DocumentRoute :=
  let s := Store.Route job in
  let f := routeFields job in
  let client := or_str (ClientDocumentFormat s) (DocumentFormat job) in
  let upstream := or_str (or_str (rUpstreamDocumentFormat s) (UpstreamDocumentFormat job)) client in
  let kind := or_str (or_str (Kind s) (RouteKind f)) RoutePassThrough in
  if (client =? "")%string || (upstream =? "")%string then None
  else Some {|
    ClientFormat := client; UpstreamFormat := upstream; Transform := (kind =? RouteURFToPWG)%string;
    drMapping := mappingFromString (or_str (Mapping s) (RouteMapping f));
    Page := {|
      Urf.MediaName := or_str (Store.MediaName s) (RouteMediaName f);
      Urf.MediaWidth := or_int (Store.MediaWidth s) (RouteMediaWidth f);
      Urf.MediaHeight := or_int (Store.MediaHeight s) (RouteMediaHeight f);
      Urf.MediaType := or_str (Store.MediaType s) (RouteMediaType f);
      Urf.MediaSource := or_int (Store.MediaSource s) (RouteMediaSource f);
      Urf.ResolutionX := or_int (Store.ResolutionX s) (RouteResolutionX f);
      Urf.ResolutionY := or_int (Store.ResolutionY s) (RouteResolutionY f);
      Urf.PrintQuality := or_int (Store.PrintQuality s) (RoutePrintQuality f);
      Urf.Sides := or_str (Store.Sides s) (RouteSides f);
      Urf.SheetBack := or_str (Store.SheetBack s) (RouteSheetBack f) |};
    Resolutions := []; drURFTokens := [] |}.

Definition translationErrorProtocol (req : Message) (err : goerr) : ProtocolError :=
  let answer status message :=
    {| peStatus := status; peMessage := message; peUnsupported := attrsNamed (Operation req) ["document-format"%string] |} in
  let k := ErrorKindOf err in
  if k =? KindMalformedInput then answer StatusErrorDocumentFormatError "AirPrint document is malformed"%string
  else if (k =? KindUnsupportedInput) || (k =? KindSettingsMismatch) || (k =? KindInvalidOptions) then
    answer StatusErrorDocumentFormatNotSupported "AirPrint document format is not supported by this queue"%string
  else if k =? KindResourceLimit then
    answer StatusErrorRequestEntity "AirPrint document exceeds the configured translation limit"%string
  else if k =? KindCanceled then
    answer StatusErrorServiceUnavailable "AirPrint document translation was canceled"%string
  else if (k =? KindSourceIO) || (k =? KindDestinationIO) then
    answer StatusErrorServiceUnavailable "AirPrint document could not be staged for translation"%string
  else if Is err Canceled || Is err DeadlineExceeded then
    answer StatusErrorServiceUnavailable "AirPrint document translation was canceled"%string
  else answer StatusErrorDocumentFormatError "AirPrint document translation failed"%string.
End routes.
