(* ===== verification/RoutingTheorems.v ===== *)
(** * Document routes: theorems

    Which routes a queue has; that the settings of an emulated route are ones
    the translator takes; that a monochrome queue never offers color; and that
    the route pinned at Create-Job is the one found at Send-Document. *)

From Stdlib Require Import ZArith Lia Ascii String.
From stdpp Require Import base tactics list strings gmap.
From S2P Require Import Prelude GoString GoError GoTime Store StoreProofs StoreTheorems Urf Goipp IppAttrs GoUrl.
From S2P Require Import Protocol MediaCatalog Normalizer NormalizerTheorems Formats Messages Routing.

(** ** Lists without repetitions, and sorting *)

Lemma unique_from_spec {A} `{Countable A} (l : list A) : forall seen,
  NoDup (unique_from seen l) /\ forall x, x ∈ unique_from seen l <-> x ∈ l /\ x ∉ seen.
Proof.
  induction l as [|y l IH]; intros seen; cbn [unique_from]; [split; [constructor|set_solver]|].
  destruct (bool_decide (y ∈ seen)) eqn:E.
  - apply bool_decide_eq_true in E. destruct (IH seen) as [Hn Hx]. split; [done|].
    intros x. rewrite Hx. set_solver.
  - apply bool_decide_eq_false in E. destruct (IH ({[y]} ∪ seen)) as [Hn Hx]. split.
    + constructor; [rewrite Hx; set_solver|done].
    + intros x. rewrite elem_of_cons, Hx. destruct (decide (x = y)); set_solver.
Qed.

Lemma uniqueStrings_NoDup l : NoDup (uniqueStrings l).
Proof. apply unique_from_spec. Qed.
Lemma elem_of_uniqueStrings x l : x ∈ uniqueStrings l <-> x ∈ l.
Proof. unfold uniqueStrings. rewrite (proj2 (unique_from_spec l ∅)). set_solver. Qed.

Lemma insert_by_perm {A} (key : A -> Z) x l : insert_by key x l ≡ₚ x :: l.
Proof.
  induction l as [|y l IH]; cbn; [done|]. destruct (key x <=? key y); [done|].
  rewrite IH. apply Permutation_swap.
Qed.
Lemma sort_by_perm {A} (key : A -> Z) (l : list A) : sort_by key l ≡ₚ l.
Proof. induction l as [|x l IH]; cbn; [done|]. by rewrite insert_by_perm, IH. Qed.

Lemma elem_of_sort_by {A} (key : A -> Z) x (l : list A) : x ∈ sort_by key l <-> x ∈ l.
Proof. by rewrite sort_by_perm. Qed.

(** ** Trimmed and lower-cased texts *)

Lemma trim_left_idemp p s : trim_left_by p (trim_left_by p s) = trim_left_by p s.
Proof. induction s as [|c r IH]; [done|]. cbn. destruct (p c) eqn:E; [done|]. cbn. by rewrite E. Qed.

Lemma trim_right_cons p c r : p c = false -> trim_right_by p (String c r) = String c (trim_right_by p r).
Proof. intros H. cbn. rewrite H. by destruct (trim_right_by p r). Qed.

Lemma trim_right_idemp p s : trim_right_by p (trim_right_by p s) = trim_right_by p s.
Proof.
  induction s as [|c r IH]; [done|]. cbn. destruct (trim_right_by p r) as [|d q] eqn:E.
  - destruct (p c) eqn:Ec; [done|]. cbn. by rewrite Ec.
  - change (trim_right_by p (String c (String d q))) with
      (match trim_right_by p (String d q) with
       | EmptyString => if p c then EmptyString else String c EmptyString
       | r' => String c r' end). by rewrite IH.
Qed.

Lemma TrimSpace_idemp s : TrimSpace (TrimSpace s) = TrimSpace s.
Proof.
  unfold TrimSpace. assert (trim_left_by is_space (trim_right_by is_space (trim_left_by is_space s)) =
    trim_right_by is_space (trim_left_by is_space s)) as ->; [|apply trim_right_idemp].
  induction s as [|c r IH]; [done|]. cbn [trim_left_by]. destruct (is_space c) eqn:E; [done|].
  rewrite trim_right_cons by done. cbn [trim_left_by]. by rewrite E.
Qed.

Lemma smap_trim_left p f s : (forall c, p (f c) = p c) -> smap f (trim_left_by p s) = trim_left_by p (smap f s).
Proof. intros H. induction s as [|c r IH]; [done|]. cbn. rewrite H. by destruct (p c). Qed.

Lemma smap_trim_right p f s : (forall c, p (f c) = p c) -> smap f (trim_right_by p s) = trim_right_by p (smap f s).
Proof.
  intros H. induction s as [|c r IH]; [done|]. cbn. rewrite <- IH, H.
  destruct (trim_right_by p r); [by destruct (p c)|done].
Qed.

Lemma TrimSpace_ToLower s : TrimSpace (ToLower s) = ToLower (TrimSpace s).
Proof.
  unfold TrimSpace, ToLower.
  by rewrite smap_trim_right, smap_trim_left by apply lower_char_space.
Qed.

(** A format as the program keeps it. *)
Definition canonical_format (f : string) : Prop := TrimSpace f = f /\ ToLower f = f.
Lemma canonical_lower_trim s : canonical_format (ToLower (TrimSpace s)).
Proof. split; [by rewrite TrimSpace_ToLower, TrimSpace_idemp|apply ToLower_idemp]. Qed.

(** ** The routes of a snapshot *)

Section routes.
Context `{G : GoippLib}.
Implicit Types (upstream attrs : Attributes) (policy : PolicyConfig) (printer : PrinterConfig).

Lemma admitted_canonical upstream f : f ∈ admittedUpstreamFormats upstream -> canonical_format f.
Proof.
  unfold admittedUpstreamFormats. destruct (Attr _ _) as [attr|]; [|by intros ?%elem_of_nil].
  rewrite elem_of_uniqueStrings. intros H. apply list_elem_of_omap in H as ([t v] & _ & H).
  destruct v; try done. destruct (_ && _); [|done]. inversion H. apply canonical_lower_trim.
Qed.

(** The tokens of a queue with a usable native URF family. *)
Definition native_tokens upstream policy : option (list string) :=
  if validURFFamily upstream then nativeURFTokens upstream policy else None.

Record direct_format upstream policy (f : string) : Prop := {
  df_admitted : f ∈ admittedUpstreamFormats upstream;
  df_urf : f = "image/urf"%string -> is_Some (native_tokens upstream policy);
  df_pwg : f = "image/pwg-raster"%string -> validPWGRasterFamily upstream policy = true
}.

Definition direct_routes upstream policy : list DocumentRoute :=
  map (fun f => pass_through f (defaultPageSettings upstream policy))
    (List.filter (fun f => negb (EqualFold f "image/urf" && negb (bool_decide (is_Some (native_tokens upstream policy)))) &&
                           negb (EqualFold f "image/pwg-raster" && negb (validPWGRasterFamily upstream policy)))
       (admittedUpstreamFormats upstream)).

Lemma canonical_fold f g : canonical_format f -> ToLower g = g -> EqualFold f g = (f =? g)%string.
Proof. intros [_ Hf] Hg. unfold EqualFold. by rewrite Hf, Hg. Qed.

Lemma elem_of_direct upstream policy r : r ∈ direct_routes upstream policy <->
  exists f, r = pass_through f (defaultPageSettings upstream policy) /\ direct_format upstream policy f.
Proof.
  unfold direct_routes. rewrite list_elem_of_In, in_map_iff.
  assert (forall f, In f (List.filter (fun f => negb (EqualFold f "image/urf" && negb (bool_decide (is_Some (native_tokens upstream policy)))) &&
                           negb (EqualFold f "image/pwg-raster" && negb (validPWGRasterFamily upstream policy)))
       (admittedUpstreamFormats upstream)) <-> direct_format upstream policy f) as Hf.
  { intros f. rewrite filter_In, <- list_elem_of_In, andb_true_iff, !negb_true_iff, !andb_false_iff, !negb_false_iff, bool_decide_eq_true.
    split.
    - intros (Ha & Hu & Hp). pose proof (admitted_canonical _ _ Ha) as Hc.
      rewrite !(canonical_fold f) in Hu, Hp by done. split; [done|..]; intros ->; [by destruct Hu|by destruct Hp].
    - intros [Ha Hu Hp]. pose proof (admitted_canonical _ _ Ha) as Hc. split; [done|].
      rewrite !(canonical_fold f) by done. split.
      + destruct (String.eqb_spec f "image/urf"); [right; auto|by left].
      + destruct (String.eqb_spec f "image/pwg-raster"); [right; auto|by left]. }
  split.
  - intros (f & <- & H). exists f. split; [done|]. by apply Hf.
  - intros (f & -> & H). exists f. split; [done|]. by apply Hf.
Qed.

Lemma direct_client upstream policy : map ClientFormat (direct_routes upstream policy) =
  map UpstreamFormat (direct_routes upstream policy) /\ NoDup (map ClientFormat (direct_routes upstream policy)).
Proof.
  unfold direct_routes. split; rewrite !map_map; [done|]. cbn. rewrite map_id.
  apply NoDup_ListNoDup, List.NoDup_filter, NoDup_ListNoDup.
  unfold admittedUpstreamFormats. destruct (Attr _ _); [apply uniqueStrings_NoDup|constructor].
Qed.

(** What [buildRouteSnapshot] builds. *)
Lemma snapshot_cases upstream policy printer :
  let s := buildRouteSnapshot upstream policy printer in
  (exists tokens, native_tokens upstream policy = Some tokens /\ Routes s = direct_routes upstream policy /\
     snapPath s = AirPrintPathNative /\ URFTokens s = tokens) \/
  (native_tokens upstream policy = None /\ Routes s = direct_routes upstream policy /\
     snapPath s = AirPrintPathUnavailable /\ URFTokens s = []) \/
  (native_tokens upstream policy = None /\ normalizeAirPrintMode (AirPrintMode printer) = AirPrintEmulateIfMissing /\
     exists mapping page resolutions tokens,
       emulatedURFRoute upstream policy = inr (mapping, page, resolutions, tokens) /\
       Routes s = direct_routes upstream policy ++
         [{| ClientFormat := "image/urf"; UpstreamFormat := "image/pwg-raster"; Transform := true;
             drMapping := mapping; Page := page; Resolutions := resolutions; drURFTokens := tokens |}] /\
       snapPath s = AirPrintPathEmulated /\ URFTokens s = tokens).
Proof.
  intros s. unfold s, buildRouteSnapshot. fold (native_tokens upstream policy).
  destruct (native_tokens upstream policy) as [tokens|] eqn:En.
  - left. exists tokens. split_and!; [done| |done|done]. unfold direct_routes. by rewrite En.
  - right. destruct (String.eqb_spec (normalizeAirPrintMode (AirPrintMode printer)) AirPrintEmulateIfMissing) as [Em|Em]; cbn [negb].
    + destruct (emulatedURFRoute upstream policy) as [reason|[[[mapping page] resolutions] tokens]].
      * left. unfold direct_routes. by rewrite En.
      * right. split_and!; [done|done|]. exists mapping, page, resolutions, tokens. unfold direct_routes. by rewrite En.
    + left. unfold direct_routes. rewrite En. by destruct (_ =? _)%string.
Qed.

Lemma emulatedURFRoute_inv upstream policy mapping page resolutions tokens :
  emulatedURFRoute upstream policy = inr (mapping, page, resolutions, tokens) ->
  exists selected r0 rest token sheet,
    containsMimeType upstream "image/pwg-raster" = true /\ validPWGRasterFamily upstream policy = true /\
    ByName (buildMediaCatalog upstream policy) !! mediaNameKey (policyMediaDefault policy) = Some selected /\
    HasDimension selected = true /\ 0 < XDimension selected /\ 0 < YDimension selected /\
    resolutions = r0 :: rest /\ resolutions = squarePWGResolutions upstream /\
    fixedSheetBack upstream = Some sheet /\ mapping = mappingForPolicyAndTypes upstream policy /\
    tokens = ["V1.4"; token; "RS" +:+ Itoa r0]%string /\
    (token, mapping) ∈ [("W8"%string, MappingW8ToSGray8); ("SRGB24"%string, MappingSRGB24ToSRGB8);
                        ("DEVRGB24"%string, MappingDEVRGB24ToRGB8)] /\
    (EqualFold (TrimSpace (pPrintColorMode policy)) "monochrome" = true -> token = "W8"%string) /\
    (EqualFold (TrimSpace (pPrintColorMode policy)) "monochrome" = false ->
       EqualFold (TrimSpace (pPrintColorMode policy)) "color" = true /\ token <> "W8"%string) /\
    hasRasterType upstream (if mapping =? MappingW8ToSGray8 then "sgray_8"
                            else if mapping =? MappingSRGB24ToSRGB8 then "srgb_8" else "rgb_8") = true /\
    page = {| Urf.MediaName := Name selected; Urf.MediaWidth := u32 (XDimension selected);
              Urf.MediaHeight := u32 (YDimension selected); Urf.MediaType := stock_type selected;
              Urf.MediaSource := 0; Urf.ResolutionX := r0; Urf.ResolutionY := r0;
              Urf.PrintQuality := 0; Urf.Sides := defaultSides upstream; Urf.SheetBack := sheet |}.
Proof.
  unfold emulatedURFRoute. destruct (containsMimeType _ _) eqn:E1; [|done].
  destruct (validPWGRasterFamily _ _) eqn:E2; [|done]. cbn [negb].
  destruct (_ !! _) as [selected|] eqn:E3; [|done].
  destruct (negb (HasDimension selected) || _ || _) eqn:E4; [done|].
  apply orb_false_iff in E4 as [E4 E6]. apply orb_false_iff in E4 as [E4 E5]. apply negb_false_iff in E4.
  apply Z.leb_gt in E5, E6.
  destruct (squarePWGResolutions upstream) as [|r0 rest] eqn:E7; [done|].
  unfold mappingForPolicyAndTypes.
  destruct (EqualFold (TrimSpace (pPrintColorMode policy)) "monochrome") eqn:Em.
  - destruct (hasRasterType upstream "sgray_8") eqn:Eg; [|done]. destruct (fixedSheetBack upstream) as [sheet|]; [|done].
    intros [= <- <- <- <-]. exists selected, r0, rest, "W8"%string, sheet. split_and!; try done; rewrite !elem_of_cons; auto.
  - destruct (EqualFold _ "color") eqn:Ec; [|done].
    destruct (hasRasterType upstream "srgb_8") eqn:Es.
    + destruct (fixedSheetBack upstream) as [sheet|]; [|done].
      intros [= <- <- <- <-]. exists selected, r0, rest, "SRGB24"%string, sheet. split_and!; try done; rewrite !elem_of_cons; auto.
    + destruct (hasRasterType upstream "rgb_8") eqn:Er; [|done]. destruct (fixedSheetBack upstream) as [sheet|]; [|done].
      intros [= <- <- <- <-]. exists selected, r0, rest, "DEVRGB24"%string, sheet. split_and!; try done; rewrite !elem_of_cons; auto.
Qed.

Lemma snapshot_clients upstream policy printer :
  let s := buildRouteSnapshot upstream policy printer in
  NoDup (map ClientFormat (Routes s)) /\ (forall r, r ∈ Routes s -> canonical_format (ClientFormat r)).
Proof.
  intros s.
  assert (forall r, r ∈ direct_routes upstream policy -> canonical_format (ClientFormat r)) as Hcan.
  { intros r (f & -> & Hf)%elem_of_direct. exact (admitted_canonical _ _ (df_admitted _ _ _ Hf)). }
  destruct (direct_client upstream policy) as [_ Hnd].
  destruct (snapshot_cases upstream policy printer) as [(tk & _ & Er & _)|[(_ & Er & _)|(En & _ & m & p & l & tk & _ & Er & _)]];
    fold s in Er; rewrite Er; [done|done|]. split.
  - rewrite map_app. apply NoDup_app. split; [done|]. split; [|apply NoDup_singleton].
    intros x Hx Hin. apply list_elem_of_singleton in Hin as ->. apply list_elem_of_In, in_map_iff in Hx as (r & Hr & Hin).
    apply list_elem_of_In, elem_of_direct in Hin as (f & -> & Hf). cbn in Hr.
    apply (df_urf _ _ _ Hf) in Hr. rewrite En in Hr. by apply is_Some_None in Hr.
  - intros r [Hr|Hr%list_elem_of_singleton]%elem_of_app; [auto|]. by subst.
Qed.

Lemma matches_canonical format r : canonical_format (ClientFormat r) ->
  matches_format format r = (ClientFormat r =? ToLower (TrimSpace format))%string.
Proof. intros [Ht Hl]. unfold matches_format, EqualFold. by rewrite Ht, Hl. Qed.

Lemma head_filter_unique {A} (key : A -> string) (p : A -> bool) (k : string) l :
  NoDup (map key l) -> (forall x, x ∈ l -> p x = (key x =? k)%string) ->
  forall x, head (List.filter p l) = Some x <-> x ∈ l /\ key x = k.
Proof.
  induction l as [|y l IH]; cbn [List.filter map]; intros Hnd Hp x.
  { cbn. split; [done|]. intros [H _]. by apply elem_of_nil in H. }
  apply NoDup_cons in Hnd as [Hy Hnd]. rewrite (Hp y) by left.
  assert (forall z, z ∈ l -> p z = (key z =? k)%string) as Hp' by (intros; apply Hp; by right).
  destruct (String.eqb_spec (key y) k) as [Hk|Hk].
  - cbn. split; [intros [= ->]; split; [left|done]|]. intros [[->|Hx]%elem_of_cons Hkx]; [done|].
    exfalso. apply Hy. rewrite Hk, <- Hkx. apply list_elem_of_In, in_map, list_elem_of_In, Hx.
  - rewrite IH by done. rewrite elem_of_cons. naive_solver.
Qed.

(** The translation a color policy asks of a printer, with the color space the
    clients are told: gray for a monochrome policy; for a color policy sRGB
    where the printer has it, else device RGB where it has that. *)
Inductive translation_admitted (upstream : Attributes) (policy : PolicyConfig) : Z -> string -> Prop :=
| admits_gray : EqualFold (TrimSpace (pPrintColorMode policy)) "monochrome" = true ->
    hasRasterType upstream "sgray_8" = true -> translation_admitted upstream policy MappingW8ToSGray8 "W8"
| admits_srgb : EqualFold (TrimSpace (pPrintColorMode policy)) "color" = true ->
    hasRasterType upstream "srgb_8" = true -> translation_admitted upstream policy MappingSRGB24ToSRGB8 "SRGB24"
| admits_rgb : EqualFold (TrimSpace (pPrintColorMode policy)) "color" = true ->
    hasRasterType upstream "srgb_8" = false -> hasRasterType upstream "rgb_8" = true ->
    translation_admitted upstream policy MappingDEVRGB24ToRGB8 "DEVRGB24".

Lemma emulated_admitted upstream policy mapping page resolutions tokens :
  emulatedURFRoute upstream policy = inr (mapping, page, resolutions, tokens) ->
  exists token, translation_admitted upstream policy mapping token /\ token ∈ tokens.
Proof.
  intros H. destruct (emulatedURFRoute_inv _ _ _ _ _ _ H) as (_ & r0 & _ & token & _ & _ & _ & _ & _ & _ & _ & _ & _ & _ & Hmap &
    Htok & Hin & Hmono & Hcolor & Hraster & _). exists token. split; [|rewrite Htok; right; left].
  rewrite !elem_of_cons, elem_of_nil in Hin. unfold mappingForPolicyAndTypes in Hmap.
  destruct (EqualFold (TrimSpace (pPrintColorMode policy)) "monochrome") eqn:Em.
  - subst mapping. rewrite (Hmono eq_refl). by constructor.
  - destruct (Hcolor eq_refl) as [Hc Hw]. destruct (hasRasterType upstream "srgb_8") eqn:Es; subst mapping;
      destruct_or? Hin; try done; simplify_eq; by constructor.
Qed.

(** C39: the routes of a queue. Every client format has at most one route, and
    a request finds the route of its format, whatever the case and the spaces
    around it. A document that is passed through is sent in the format in
    which it came, which the printer lists; as image/urf only when the family
    is native, as PWG Raster only when the family is complete. A document is
    translated only when the configuration asks for it, the printer has no
    usable native URF and lists PWG Raster, and by the translation that the color
    mode of the policy and the raster types of the printer determine, to gray
    for a monochrome policy and to color for a color one; the clients are told
    the color space it reads. *)
Theorem routes_admitted upstream policy printer :
  let s := buildRouteSnapshot upstream policy printer in
  NoDup (map ClientFormat (Routes s)) /\
  (forall format r, routeFor s format = Some r <-> r ∈ Routes s /\ ClientFormat r = ToLower (TrimSpace format)) /\
  (forall r, r ∈ Routes s -> Transform r = false ->
     UpstreamFormat r = ClientFormat r /\ ClientFormat r ∈ admittedUpstreamFormats upstream /\
     (ClientFormat r = "image/urf"%string -> snapPath s = AirPrintPathNative) /\
     (ClientFormat r = "image/pwg-raster"%string -> validPWGRasterFamily upstream policy = true)) /\
  (forall r, r ∈ Routes s -> Transform r = true ->
     snapPath s = AirPrintPathEmulated /\ native_tokens upstream policy = None /\
     normalizeAirPrintMode (AirPrintMode printer) = AirPrintEmulateIfMissing /\
     ClientFormat r = "image/urf"%string /\ UpstreamFormat r = "image/pwg-raster"%string /\
     containsMimeType upstream "image/pwg-raster" = true /\ validPWGRasterFamily upstream policy = true /\
     exists token, translation_admitted upstream policy (drMapping r) token /\ token ∈ URFTokens s).
Proof.
  intros s. destruct (snapshot_clients upstream policy printer) as [Hnd Hcan]. fold s in Hnd, Hcan.
  split; [done|]. split.
  { intros format r. unfold routeFor. apply head_filter_unique; [done|]. intros x Hx. by apply matches_canonical, Hcan. }
  assert (forall r, r ∈ direct_routes upstream policy -> Transform r = false) as Hdt by (by intros r (f & -> & _)%elem_of_direct).
  destruct (snapshot_cases upstream policy printer)
    as [(tk & En & Er & Ep & _)|[(En & Er & Ep & _)|(En & Em & m & p & l & tk & Ee & Er & Ep & Et)]];
    fold s in Er, Ep; rewrite Er, Ep.
  - split; [|intros r Hr%Hdt; congruence]. intros r (f & -> & [Ha Hu Hp])%elem_of_direct _. auto.
  - split; [|intros r Hr%Hdt; congruence]. intros r (f & -> & [Ha Hu Hp])%elem_of_direct _. split_and!; try done.
    intros Hf%Hu. rewrite En in Hf. by apply is_Some_None in Hf.
  - split.
    + intros r [(f & -> & [Ha Hu Hp])%elem_of_direct|Hx%list_elem_of_singleton]%elem_of_app Ht; [|by subst r].
      split_and!; try done. intros Hf%Hu. rewrite En in Hf. by apply is_Some_None in Hf.
    + intros r [Hr%Hdt|Hx%list_elem_of_singleton]%elem_of_app Ht; [congruence|]. subst r.
      destruct (emulatedURFRoute_inv _ _ _ _ _ _ Ee) as (sel & r0 & rest & token & sheet & H1 & H2 & _).
      fold s in Et. rewrite Et. split_and!; [done..|]. by eapply emulated_admitted.
Qed.

(** What native tokens are made of. *)
Lemma nativeURFTokens_inv upstream policy tokens : nativeURFTokens upstream policy = Some tokens ->
  exists attr raw preferred, let mode := ToLower (TrimSpace (pPrintColorMode policy)) in
    Attr upstream "urf-supported" = Some attr /\ raw_tokens (aValues attr) = Some raw /\
    tokens = uniqueStrings (sort_by urfTokenRank (List.filter (keep_token mode preferred) raw)) /\ tokens <> [] /\
    containsURFPrefix tokens "RS" = true /\ (mode = "monochrome"%string -> containsURFPrefix tokens "W" = true).
Proof.
  unfold nativeURFTokens. destruct (Attr _ _) as [attr|]; [|done].
  destruct (aValues attr) as [|v values] eqn:Ev; [done|]. rewrite <- Ev. destruct (raw_tokens _) as [raw|] eqn:Eraw; [|done].
  set (preferred := if (ToLower (TrimSpace (pPrintColorMode policy)) =? "color")%string then preferred_color raw else ""%string).
  cbv zeta. fold preferred. set (kept := List.filter _ raw). destruct (_ && _)%bool; [done|].
  destruct (negb (containsURFPrefix kept "RS") || _ || _ || _)%bool eqn:Eg; [done|].
  destruct kept as [|k kept'] eqn:Ek; [done|]. rewrite <- Ek in *. intros Hs.
  assert (tokens = uniqueStrings (sort_by urfTokenRank kept)) as -> by congruence. clear Hs. exists attr, raw, preferred.
  assert (forall p, containsURFPrefix (uniqueStrings (sort_by urfTokenRank kept)) p = containsURFPrefix kept p) as Hc.
  { intros p. apply eq_true_iff_eq. unfold containsURFPrefix. rewrite !existsb_exists.
    split; intros (t & Ht & Hp); exists t; (split; [|done]); apply list_elem_of_In;
      [apply (elem_of_sort_by urfTokenRank), elem_of_uniqueStrings|apply elem_of_uniqueStrings, elem_of_sort_by];
      by apply list_elem_of_In. }
  cbv zeta. fold kept. rewrite !Hc. apply orb_false_iff in Eg as [[[E1%negb_false_iff E2]%orb_false_iff _]%orb_false_iff _].
  split; [done|]. split; [done|]. split; [done|]. split.
  { intros E. apply (not_elem_of_nil k). rewrite <- E. apply elem_of_uniqueStrings, elem_of_sort_by. rewrite Ek. left. }
  split; [done|]. intros Em. rewrite Em in E2. cbn in E2. by apply negb_false_iff in E2.
Qed.

Lemma nativeURFTokens_keep upstream policy tokens : nativeURFTokens upstream policy = Some tokens ->
  exists preferred, forall t, t ∈ tokens -> keep_token (ToLower (TrimSpace (pPrintColorMode policy))) preferred t = true.
Proof.
  intros (attr & raw & preferred & _ & _ & -> & _)%nativeURFTokens_inv. exists preferred. intros t.
  rewrite elem_of_uniqueStrings, elem_of_sort_by, list_elem_of_In, filter_In. by intros [_ Ht].
Qed.

(** What a queue advertises and translates agrees with its color policy: a
    monochrome queue offers no color token and translates to grayscale only; a
    color queue offers no grayscale token and translates to color only. *)
Theorem urf_tokens_respect_policy upstream policy printer :
  let s := buildRouteSnapshot upstream policy printer in
  let mode := ToLower (TrimSpace (pPrintColorMode policy)) in
  (mode = "monochrome"%string ->
     (forall t, t ∈ URFTokens s -> isColorURFToken t = false) /\
     (forall r, r ∈ Routes s -> Transform r = true -> drMapping r = MappingW8ToSGray8)) /\
  (mode = "color"%string ->
     (forall t, t ∈ URFTokens s -> HasPrefix t "W" = false /\ HasPrefix t "DEVW" = false) /\
     (forall r, r ∈ Routes s -> Transform r = true -> drMapping r <> MappingW8ToSGray8)).
Proof.
  intros s mode.
  assert (forall r, r ∈ direct_routes upstream policy -> Transform r = false) as Hdt by (by intros r (f & -> & _)%elem_of_direct).
  destruct (snapshot_cases upstream policy printer)
    as [(tk & En & Er & Ep & Et)|[(En & Er & Ep & Et)|(En & Em & m & p & l & tk & Ee & Er & Ep & Et)]];
    fold s in Er, Ep, Et; rewrite Er, Et.
  - unfold native_tokens in En. destruct (validURFFamily upstream); [|done].
    destruct (nativeURFTokens_keep _ _ _ En) as [preferred Hk]. fold mode in Hk. split; intros Hmode.
    + split; [|intros r Hr%Hdt; congruence]. intros t Ht%Hk. rewrite Hmode in Ht. unfold keep_token in Ht.
      change (("monochrome" =? "monochrome")%string) with true in Ht. cbn [andb] in Ht.
      by destruct (isColorURFToken t).
    + split; [|intros r Hr%Hdt; congruence]. intros t Ht%Hk. rewrite Hmode in Ht. unfold keep_token in Ht.
      change (("color" =? "monochrome")%string) with false in Ht. cbn [andb] in Ht.
      change (("color" =? "color")%string) with true in Ht. cbn iota in Ht.
      apply andb_true_iff in Ht as [Ht _]. apply negb_true_iff, orb_false_iff in Ht. done.
  - split; (split; [by intros t Ht%elem_of_nil|intros r Hr%Hdt; congruence]).
  - destruct (emulatedURFRoute_inv _ _ _ _ _ _ Ee)
      as (sel & r0 & rest & token & sheet & _ & _ & _ & _ & _ & _ & _ & _ & _ & _ & Htk & Hpair & Hmono & Hcol & _ & _).
    assert (EqualFold (TrimSpace (pPrintColorMode policy)) "monochrome" = (mode =? "monochrome")%string) as Hfold by done.
    rewrite Hfold in Hmono, Hcol.
    split; intros Hmode; rewrite Hmode in Hmono, Hcol; cbn in Hmono, Hcol.
    + specialize (Hmono eq_refl). subst token. split.
      * intros t Ht. rewrite Htk, !elem_of_cons, elem_of_nil in Ht. destruct_or? Ht; subst t; done.
      * intros r [Hr%Hdt|Hx%list_elem_of_singleton]%elem_of_app Ht; [congruence|]. subst r. cbn.
        rewrite !elem_of_cons, elem_of_nil in Hpair. naive_solver.
    + destruct (Hcol eq_refl) as [_ Hne]. rewrite !elem_of_cons, elem_of_nil in Hpair. split.
      * intros t Ht. rewrite Htk, !elem_of_cons, elem_of_nil in Ht.
        destruct_or? Ht; subst t; try done. destruct_or? Hpair; inversion Hpair; subst; done.
      * intros r [Hr%Hdt|Hx%list_elem_of_singleton]%elem_of_app Ht; [congruence|]. subst r. cbn.
        destruct_or? Hpair; inversion Hpair; subst; done.
Qed.

(** ** Page settings the translator takes *)

(** A text that fits a field of a PWG header. *)
Definition header_text (t : string) : bool := negb (ContainsChar t Ascii.zero) && (Z.of_nat (slen t) <? 64).

(** IPP integers are 32-bit: so are the dimensions of a catalog. *)
Definition fits32 (cat : mediaCatalog) : Prop :=
  forall n s, ByName cat !! n = Some s -> HasDimension s = true ->
    0 < XDimension s <= maxU32 /\ 0 < YDimension s <= maxU32.

Record settings_ok (p : PageSettings) : Prop := {
  so_width : Urf.MediaWidth p <> 0;
  so_height : Urf.MediaHeight p <> 0;
  so_resolution : Urf.ResolutionX p <> 0;
  so_square : Urf.ResolutionX p = Urf.ResolutionY p;
  so_sides : in_strings (Urf.Sides p) sides_values = true;
  so_sheet : in_strings (Urf.SheetBack p) sheet_backs = true;
  so_quality : existsb (Z.eqb (Urf.PrintQuality p)) [0; 3; 4; 5] = true
}.

Lemma settings_ok_accepted p : settings_ok p ->
  header_text (Urf.MediaName p) = true -> header_text (Urf.MediaType p) = true ->
  exists pol, validatePageSettings p = Ok pol.
Proof.
  intros [Hw Hh Hr Hsq Hs Hb Hq] Hn Ht. unfold header_text in *. bool_to_prop.
  assert (forall f v, ContainsChar v Ascii.zero = false -> Z.of_nat (slen v) < 64 -> validatePWGString f v = Ok tt) as Hv.
  { intros f v E1 E2. unfold validatePWGString. rewrite E1. by destruct (Z.leb_spec 64 (Z.of_nat (slen v))); [lia|]. }
  unfold validatePageSettings. rewrite !Hv by done. cbn [mbind res_bind].
  apply Z.eqb_neq in Hw, Hh, Hr. rewrite Hw, Hh, <- Hsq, Hr, Z.eqb_refl. cbn [orb negb].
  assert (Urf.Sides p <> ""%string) as Hs' by (intros E; by rewrite E in Hs).
  assert (Urf.SheetBack p <> ""%string) as Hb' by (intros E; by rewrite E in Hb).
  apply String.eqb_neq in Hs', Hb'. rewrite Hs', Hb'. fold sides_values. rewrite Hs. cbn [negb].
  assert (in_strings (Urf.SheetBack p) ["normal"; "flipped"; "manual-tumble"; "rotated"]%string = true) as ->.
  { apply in_strings_true. apply in_strings_true in Hb. unfold sheet_backs in Hb.
    rewrite !elem_of_cons, elem_of_nil in *. tauto. }
  rewrite Hq. cbn [negb]. eauto.
Qed.

Lemma quality_of_range attrs n q : quality_of attrs n = Some q -> existsb (Z.eqb q) [0; 3; 4; 5] = true.
Proof.
  unfold quality_of. destruct (FirstInt _ _) as [z|]; [|done]. destruct (_ && _) eqn:E; [|done]. intros [= ->].
  bool_to_prop. assert (q = 3 \/ q = 4 \/ q = 5) as [->|[->| ->]] by lia; done.
Qed.

Lemma u32_nonzero z : 0 < z <= maxU32 -> u32 z <> 0.
Proof. intros. rewrite u32_small by lia. lia. Qed.

(** Request attributes keep good settings good. *)
Lemma routePageSettings_ok route attrs upstream :
  settings_ok (Page route) ->
  (forall m, requested_media attrs = Some m ->
     fits32 (buildMediaCatalog upstream (media_policy m (Urf.MediaType (Page route))))) ->
  (forall v, FirstString attrs "sides" = Some v -> in_strings (ToLower (TrimSpace v)) sides_values = true) ->
  (forall x y u, singleResolution attrs "printer-resolution" = Some (x, y, u) -> x <= maxU32) ->
  settings_ok (routePageSettings route attrs upstream).
Proof.
  intros Hok Hm Hs Hr. unfold routePageSettings.
  match goal with |- context [match requested_media attrs with _ => _ end] =>
    set (p1 := match requested_media attrs with Some m => _ | None => _ end) end.
  assert (settings_ok p1) as H1.
  { unfold p1. destruct (requested_media attrs) as [m|] eqn:E; [|done].
    destruct (_ !! _) as [sel|] eqn:Es; [|done]. destruct (HasDimension sel) eqn:Ed; [|done].
    destruct (Hm m eq_refl _ _ Es Ed) as [Hx Hy]. destruct Hok. split; cbn; try done; by apply u32_nonzero. }
  clearbody p1. clear Hok Hm.
  match goal with |- context [match FirstString attrs "sides" with _ => _ end] =>
    set (p2 := match FirstString attrs "sides" with Some m => _ | None => _ end) end.
  assert (settings_ok p2) as H2.
  { unfold p2. destruct (FirstString attrs "sides") as [v|]; [|done]. destruct H1. split; try done. by apply Hs. }
  clearbody p2. clear H1 Hs p1.
  match goal with |- context [match quality_of attrs "print-quality" with _ => _ end] =>
    set (p3 := match quality_of attrs "print-quality" with Some m => _ | None => _ end) end.
  assert (settings_ok p3) as H3.
  { unfold p3. destruct (quality_of _ _) as [q|] eqn:E; [|done]. destruct H2. split; try done. apply (quality_of_range _ _ _ E). }
  clearbody p3. clear H2 p2.
  destruct (singleResolution _ _) as [[[x y] u]|]; [|done]. destruct (_ && _) eqn:E; [|done].
  bool_to_prop. specialize (Hr x y u eq_refl). destruct H3. split; cbn; try done; apply u32_nonzero; lia.
Qed.

Lemma fixedSheetBack_ok upstream sheet : fixedSheetBack upstream = Some sheet -> in_strings sheet sheet_backs = true.
Proof.
  unfold fixedSheetBack. destruct (Attr _ _) as [[n [|[t [] ] [] ] ]|]; try done.
  destruct (_ && _) eqn:E; [|done]. apply andb_true_iff in E as [_ E]. intros [= <-]. exact E.
Qed.

Lemma defaultSides_ok upstream : in_strings (defaultSides upstream) sides_values = true.
Proof.
  unfold defaultSides. destruct (FirstString _ _) as [v|]; [|done].
  by destruct (in_strings (ToLower (TrimSpace v)) sides_values) eqn:E.
Qed.

(** An emulated route is one the translator takes. With 32-bit
    dimensions, names that fit a PWG header, and the sides of the request
    among those of IPP, the mapping and the page settings of the route, with
    the values of the request laid over them, pass every check of the
    translator, so that a document is never refused for its route. *)
Theorem emulated_route_accepted upstream policy printer r attrs :
  r ∈ Routes (buildRouteSnapshot upstream policy printer) -> Transform r = true ->
  fits32 (buildMediaCatalog upstream policy) ->
  (forall x, x ∈ squarePWGResolutions upstream -> x <> 0) ->
  (forall m, requested_media attrs = Some m ->
     fits32 (buildMediaCatalog upstream (media_policy m (Urf.MediaType (Page r))))) ->
  (forall v, FirstString attrs "sides" = Some v -> in_strings (ToLower (TrimSpace v)) sides_values = true) ->
  (forall x y u, singleResolution attrs "printer-resolution" = Some (x, y, u) -> x <= maxU32) ->
  let settings := routePageSettings r attrs upstream in
  header_text (Urf.MediaName settings) = true -> header_text (Urf.MediaType settings) = true ->
  validateMapping (drMapping r) = Ok tt /\ exists pol, validatePageSettings settings = Ok pol.
Proof.
  intros Hr Ht Hf Hres Hm Hs Hrq settings Hn Hty.
  assert (forall r, r ∈ direct_routes upstream policy -> Transform r = false) as Hdt by (by intros x (f & -> & _)%elem_of_direct).
  destruct (snapshot_cases upstream policy printer)
    as [(tk & _ & Er & _)|[(_ & Er & _)|(_ & _ & m & p & l & tk & Ee & Er & _)]]; rewrite Er in Hr.
  1-2: apply Hdt in Hr; congruence.
  apply elem_of_app in Hr as [Hr%Hdt|Hx%list_elem_of_singleton]; [congruence|].
  destruct (emulatedURFRoute_inv _ _ _ _ _ _ Ee)
    as (sel & r0 & rest & token & sheet & _ & _ & Hsel & Hd & _ & _ & Hl & Hl' & Hsh & _ & _ & Hpair & _ & _ & _ & Hp).
  destruct (Hf _ _ Hsel Hd) as [Hx1 Hx2].
  assert (settings_ok (Page r)) as Hok.
  { subst r. cbn [Page]. subst p. assert (r0 <> 0) as Hr0 by (apply Hres; rewrite <- Hl', Hl; left).
    split; cbn; try done; [by apply u32_nonzero..|apply defaultSides_ok|by eapply fixedSheetBack_ok]. }
  split.
  - subst r. cbn. rewrite !elem_of_cons, elem_of_nil in Hpair.
    destruct_or? Hpair; try done; inversion Hpair; done.
  - apply settings_ok_accepted; [|done..]. by apply routePageSettings_ok.
Qed.
End routes.

(** ** Routes through the registry *)

(** The route that is found for a job whose document format is [format]. *)
Definition pinned (format : string) (route : DocumentRoute) : DocumentRoute := {|
  ClientFormat := format; UpstreamFormat := ToLower (TrimSpace (UpstreamFormat route));
  Transform := Transform route; drMapping := drMapping route; Page := Page route;
  Resolutions := []; drURFTokens := [] |}.

Lemma mappingFromString_String m : 0 <= m <= 3 -> mappingFromString (Mapping_String m) = m.
Proof. intros. assert (m = 0 \/ m = 1 \/ m = 2 \/ m = 3) as [->|[->|[->| ->]]] by lia; reflexivity. Qed.

Record page_range (p : PageSettings) : Prop := {
  pr_width : 0 <= Urf.MediaWidth p <= maxU32;
  pr_height : 0 <= Urf.MediaHeight p <= maxU32;
  pr_source : 0 <= Urf.MediaSource p <= maxU32;
  pr_resx : 0 <= Urf.ResolutionX p <= maxU32;
  pr_resy : 0 <= Urf.ResolutionY p <= maxU32;
  pr_quality : 0 <= Urf.PrintQuality p <= maxU32
}.

(** The route fields of a normalised job, and of a job that was read. *)
Lemma normalizeRoute_fields job : routeFields (normalizeRoute job) =
  {| RouteKind := or_str (or_str (Kind (Store.Route job)) (RouteKind (routeFields job))) RoutePassThrough;
     RouteMapping := or_str (Mapping (Store.Route job)) (RouteMapping (routeFields job));
     RouteMediaName := or_str (Store.MediaName (Store.Route job)) (RouteMediaName (routeFields job));
     RouteMediaWidth := or_int (Store.MediaWidth (Store.Route job)) (RouteMediaWidth (routeFields job));
     RouteMediaHeight := or_int (Store.MediaHeight (Store.Route job)) (RouteMediaHeight (routeFields job));
     RouteMediaType := or_str (Store.MediaType (Store.Route job)) (RouteMediaType (routeFields job));
     RouteMediaSource := or_int (Store.MediaSource (Store.Route job)) (RouteMediaSource (routeFields job));
     RouteResolutionX := or_int (Store.ResolutionX (Store.Route job)) (RouteResolutionX (routeFields job));
     RouteResolutionY := or_int (Store.ResolutionY (Store.Route job)) (RouteResolutionY (routeFields job));
     RoutePrintQuality := or_int (Store.PrintQuality (Store.Route job)) (RoutePrintQuality (routeFields job));
     RouteSides := or_str (Store.Sides (Store.Route job)) (RouteSides (routeFields job));
     RouteSheetBack := or_str (Store.SheetBack (Store.Route job)) (RouteSheetBack (routeFields job)) |}.
Proof. reflexivity. Qed.

Lemma scanJob_fields r : routeFields (scanJob r) =
  {| RouteKind := or_str (RouteKind (r_route r)) RoutePassThrough;
     RouteMapping := RouteMapping (r_route r);
     RouteMediaName := RouteMediaName (r_route r);
     RouteMediaWidth := u32 (RouteMediaWidth (r_route r));
     RouteMediaHeight := u32 (RouteMediaHeight (r_route r));
     RouteMediaType := RouteMediaType (r_route r);
     RouteMediaSource := u32 (RouteMediaSource (r_route r));
     RouteResolutionX := u32 (RouteResolutionX (r_route r));
     RouteResolutionY := u32 (RouteResolutionY (r_route r));
     RoutePrintQuality := u32 (RoutePrintQuality (r_route r));
     RouteSides := RouteSides (r_route r);
     RouteSheetBack := RouteSheetBack (r_route r) |}.
Proof. reflexivity. Qed.

Lemma scanJob_route_fields r : Store.Route (scanJob r) =
  {| ClientDocumentFormat := or_str (document_format r) (document_format r);
     rUpstreamDocumentFormat := or_str (upstream_document_format r) (or_str (document_format r) (or_str (document_format r) (document_format r)));
     Kind := or_str (RouteKind (r_route r)) RoutePassThrough;
     Mapping := RouteMapping (r_route r);
     Store.MediaName := RouteMediaName (r_route r);
     Store.MediaWidth := u32 (RouteMediaWidth (r_route r));
     Store.MediaHeight := u32 (RouteMediaHeight (r_route r));
     Store.MediaType := RouteMediaType (r_route r);
     Store.MediaSource := u32 (RouteMediaSource (r_route r));
     Store.ResolutionX := u32 (RouteResolutionX (r_route r));
     Store.ResolutionY := u32 (RouteResolutionY (r_route r));
     Store.PrintQuality := u32 (RoutePrintQuality (r_route r));
     Store.Sides := RouteSides (r_route r);
     Store.SheetBack := RouteSheetBack (r_route r) |}.
Proof. reflexivity. Qed.

Lemma lower_nonempty s : s <> ""%string -> ToLower s <> ""%string.
Proof. by destruct s. Qed.
Lemma routeKind_nonempty route : routeKind route <> ""%string.
Proof. unfold routeKind. by destruct (Transform route). Qed.

(** What the table keeps of the route. *)
Lemma route_columns now q user name format route copies :
  format <> ""%string -> TrimSpace (UpstreamFormat route) <> ""%string ->
  let r := row_of_job (withCreateDefaults now (normalizeRoute (reservation (reserved_job q user name format route copies)))) in
  document_format r = format /\ upstream_document_format r = ToLower (TrimSpace (UpstreamFormat route)) /\
  r_route r = flatten (routeToStore route).
Proof.
  intros Hf Hu%lower_nonempty r. split_and!.
  - change (or_str format (or_str (or_str (ToLower (TrimSpace (ClientFormat route))) format) format) = format).
    by apply or_str_keep.
  - change (or_str (or_str (ToLower (TrimSpace (UpstreamFormat route))) (UpstreamFormat route))
              (document_format r) = ToLower (TrimSpace (UpstreamFormat route))).
    by rewrite !(or_str_keep _ _ Hu).
  - change (routeFields (normalizeRoute (reservation (reserved_job q user name format route copies))) = flatten (routeToStore route)).
    rewrite normalizeRoute_fields.
    change (Store.Route (reservation (reserved_job q user name format route copies))) with (routeToStore route).
    change (routeFields (reservation (reserved_job q user name format route copies))) with (flatten zeroRoute).
    unfold flatten. cbn [zeroRoute Kind Mapping Store.MediaName Store.MediaWidth
         Store.MediaHeight Store.MediaType Store.MediaSource Store.ResolutionX Store.ResolutionY Store.PrintQuality
         Store.Sides Store.SheetBack RouteKind RouteMapping RouteMediaName RouteMediaWidth RouteMediaHeight
         RouteMediaType RouteMediaSource RouteResolutionX RouteResolutionY RoutePrintQuality RouteSides RouteSheetBack].
    rewrite !or_str_nil_r, !or_int_zero_r. by rewrite (or_str_keep (Kind (routeToStore route)) _ (routeKind_nonempty route)).
Qed.

(** Any row with these columns gives the route back. *)
Lemma row_route r format route :
  format <> ""%string -> TrimSpace (UpstreamFormat route) <> ""%string ->
  0 <= drMapping route <= 3 -> page_range (Page route) ->
  document_format r = format -> upstream_document_format r = ToLower (TrimSpace (UpstreamFormat route)) ->
  r_route r = flatten (routeToStore route) ->
  routeFromStore (scanJob r) = Some (pinned format route).
Proof.
  intros Hf Hu%lower_nonempty Hm [] Hd Hud Hr.
  unfold routeFromStore. rewrite scanJob_fields, scanJob_route_fields, Hr, Hd, Hud.
  unfold flatten, routeToStore.
  cbn [Kind Mapping Store.MediaName Store.MediaWidth ClientDocumentFormat rUpstreamDocumentFormat
       Store.MediaHeight Store.MediaType Store.MediaSource Store.ResolutionX Store.ResolutionY Store.PrintQuality
       Store.Sides Store.SheetBack RouteKind RouteMapping RouteMediaName RouteMediaWidth RouteMediaHeight
       RouteMediaType RouteMediaSource RouteResolutionX RouteResolutionY RoutePrintQuality RouteSides RouteSheetBack].
  rewrite !u32_small by done.
  rewrite !(or_str_keep _ _ (routeKind_nonempty route)), !(or_str_keep _ _ Hf), !(or_str_keep _ _ Hu).
  rewrite !or_str_same, !or_int_same.
  apply String.eqb_neq in Hf as ->, Hu as ->. cbn [orb].
  rewrite mappingFromString_String by done. unfold pinned. f_equal. f_equal.
  - unfold routeKind. by destruct (Transform route).
  - by destruct (Page route).
Qed.

(** The route chosen at Create-Job is the one found at Send-Document: the
    job the handlers reserve is stored, and read back under its id it gives
    the same route, formats, transformation, mapping and every page setting
    included, whatever the capabilities of the queue have become meanwhile. *)
Theorem pinned_route_roundtrip now q user name format route copies s :
  store_ok s -> format <> ""%string -> TrimSpace (UpstreamFormat route) <> ""%string ->
  0 <= drMapping route <= 3 -> page_range (Page route) ->
  exists s' job,
    Reserve now [AJob (reserved_job q user name format route copies)] s = (Done (seq s + 1), s') /\
    GetByProxyID [AString q; AInt KInt (seq s + 1)] s' = (Done job, s') /\
    routeFromStore job = Some (pinned format route).
Proof.
  intros Hok Hf Hu Hm Hp. set (j := reserved_job q user name format route copies).
  destruct (CreateJob_run now (reservation j) s Hok eq_refl) as [Hrun Hok'].
  set (r := set_id (seq s + 1) (row_of_job (withCreateDefaults now (normalizeRoute (reservation j))))) in *.
  exists {| rows := rows s ++ [r]; seq := seq s + 1 |}, (scanJob r). split_and!.
  - unfold Reserve. cbn [parseReservationArgs lift_res]. by rewrite (run_bind _ _ _ j s).
  - unfold GetByProxyID. cbn [parseScopedID asInt asString arg lift_res].
    rewrite (run_bind _ _ _ (q, seq s + 1) {| rows := rows s ++ [r]; seq := seq s + 1 |}) by done.
    rewrite (run_bind _ _ _ r {| rows := rows s ++ [r]; seq := seq s + 1 |}); [done|].
    apply query_row_one; [done|cbn [rows]; set_solver| |].
    + unfold in_scope. cbn. by rewrite Z.eqb_refl, String.eqb_refl, orb_true_r.
    + intros x Hx. apply in_scope_id in Hx. done.
  - destruct (route_columns now q user name format route copies Hf Hu) as (H1 & H2 & H3).
    by apply row_route.
Qed.

(** ** Examples: a printer without URF *)

Section examples.
#[local] Existing Instance goipp_example.

Definition ex_upstream : Attributes :=
  [("document-format-supported", [(TagMimeType, VString "application/pdf"); (TagMimeType, VString "image/pwg-raster")]);
   ("pwg-raster-document-type-supported", [(TagKeyword, VString "sgray_8"); (TagKeyword, VString "srgb_8")]);
   ("pwg-raster-document-resolution-supported", [(TagResolution, VResolution 600 600 UnitsDpi); (TagResolution, VResolution 300 300 UnitsDpi)]);
   ("pwg-raster-document-sheet-back", [(TagKeyword, VString "rotated")])]%string.

Definition ex_policy : PolicyConfig := {|
  pMedia := "iso_a4_210x297mm"; pMediaSupported := []; pMediaDefault := ""; pMediaType := "stationery";
  pPrintColorMode := "monochrome"; pMediaSource := None; pPrintScaling := None; pUseMediaCol := false;
  pFidelityMode := "" |}.

Definition ex_printer : PrinterConfig := {|
  UpstreamURI := "ipp://printer.example/ipp/print"; Policy := ex_policy; AirPrintMode := "emulate-if-missing";
  DropVendorAttrs := []; PreserveJobAttrs := [] |}.

Definition ex_route : DocumentRoute :=
  {| ClientFormat := "image/urf"; UpstreamFormat := "image/pwg-raster"; Transform := true; drMapping := 1;
     Page := {| Urf.MediaName := "iso_a4_210x297mm"; Urf.MediaWidth := 21000; Urf.MediaHeight := 29700;
                Urf.MediaType := "stationery"; Urf.MediaSource := 0; Urf.ResolutionX := 300; Urf.ResolutionY := 300;
                Urf.PrintQuality := 0; Urf.Sides := "one-sided"; Urf.SheetBack := "rotated" |};
     Resolutions := [300; 600]; drURFTokens := ["V1.4"; "W8"; "RS300"] |}%string.

Example ex_snapshot :
  snapPath (buildRouteSnapshot ex_upstream ex_policy ex_printer) = AirPrintPathEmulated /\
  routeFor (buildRouteSnapshot ex_upstream ex_policy ex_printer) " Image/URF" = Some ex_route /\
  map ClientFormat (Routes (buildRouteSnapshot ex_upstream ex_policy ex_printer)) =
    ["application/pdf"; "image/pwg-raster"; "image/urf"]%string.
Proof. vm_compute. auto. Qed.

Lemma fits32_forall cat :
  map_Forall (fun _ s => HasDimension s = true -> (0 < XDimension s <= maxU32) /\ (0 < YDimension s <= maxU32)) (ByName cat) ->
  fits32 cat.
Proof. intros H n s Hn Hd. by apply (H n s). Qed.

Definition ex_job_attrs : Attributes :=
  [("media", [(TagKeyword, VString "iso_a4_210x297mm")]); ("sides", [(TagKeyword, VString "two-sided-long-edge")])]%string.

Lemma emulated_route_accepted_witness :
  exists pol, validatePageSettings (routePageSettings ex_route ex_job_attrs ex_upstream) = Ok pol.
Proof.
  apply (emulated_route_accepted ex_upstream ex_policy ex_printer ex_route ex_job_attrs).
  - assert (Routes (buildRouteSnapshot ex_upstream ex_policy ex_printer) !! 2%nat = Some ex_route) as H by (vm_compute; reflexivity).
    exact (list_elem_of_lookup_2 _ _ _ H).
  - reflexivity.
  - apply fits32_forall. apply (bool_decide_eq_true_1 _). vm_compute. reflexivity.
  - assert (squarePWGResolutions ex_upstream = [300; 600]) as -> by (vm_compute; reflexivity).
    intros x Hx. rewrite !elem_of_cons, elem_of_nil in Hx. lia.
  - assert (requested_media ex_job_attrs = Some "iso_a4_210x297mm"%string) as -> by (vm_compute; reflexivity).
    intros m [= <-]. apply fits32_forall. apply (bool_decide_eq_true_1 _). vm_compute. reflexivity.
  - assert (FirstString ex_job_attrs "sides" = Some "two-sided-long-edge"%string) as -> by (vm_compute; reflexivity).
    intros v [= <-]. reflexivity.
  - assert (singleResolution ex_job_attrs "printer-resolution" = None) as -> by (vm_compute; reflexivity). discriminate.
  - vm_compute. reflexivity.
  - vm_compute. reflexivity.
Defined.

Lemma pinned_route_roundtrip_witness : exists s' job,
  Reserve ex_now [AJob (reserved_job "office" "ann" "report" "image/urf" ex_route 2)] ex_store = (Done 3, s') /\
  GetByProxyID [AString "office"; AInt KInt 3] s' = (Done job, s') /\
  routeFromStore job = Some (pinned "image/urf" ex_route).
Proof.
  destruct (pinned_route_roundtrip ex_now "office" "ann" "report" "image/urf" ex_route 2 ex_store ex_store_ok)
    as (s' & job & H1 & H2 & H3).
  - discriminate.
  - vm_compute. discriminate.
  - vm_compute. split; discriminate.
  - split; vm_compute; split; discriminate.
  - assert (seq ex_store = 2) as Hseq by (vm_compute; reflexivity). rewrite Hseq in H1, H2.
    exists s', job. split; [exact H1|]. split; [exact H2|exact H3].
Defined.
End examples.
