(* ===== verification/Payload.v ===== *)
(** * Payloads ([internal/proxy/payload.go], and the counting readers of
    protocol.go)

    Reading a document within a limit, staging one of unknown length, and
    what is recorded about a document that was sent: its size, and the number
    of pages when it looks like a PDF file. The temporary files themselves
    belong to the operating system: a file is its content, and the calls that
    may fail do so as the environment says. *)

From Stdlib Require Import ZArith Lia Ascii String Strings.Byte.
From stdpp Require Import base tactics list strings.
From S2P Require Import Prelude GoString GoError.

(** ** Readers

    The answer of a call of [Read] on a buffer of [n] bytes, after calls on
    buffers of the sizes [h] (the last one first): the bytes delivered and the
    error. *)
Definition reader : Type := list nat -> nat -> list byte * option goerr.

(** The contract of [io.Reader] that the program relies on. *)
Definition reader_ok (R : reader) : Prop := forall h n, (length (fst (R h n)) <= n)%nat.

(** Everything delivered by the calls [h]. *)
Fixpoint delivered (R : reader) (h : list nat) : list byte :=
  match h with [] => [] | n :: r => delivered R r ++ fst (R r n) end.

Definition errReadLimitExceeded : goerr := ESentinel "IPP request exceeds configured size limit".

(** The inner calls made so far, and the bytes counted ([read]). *)
Record counting := { calls : list nat; count : Z }.

Definition counted (R : reader) (n : nat) (st : counting) : (list byte * option goerr) * counting :=
  let '(data, err) := R (calls st) n in
  ((data, err), {| calls := n :: calls st; count := count st + zlen data |}).

(** [p[:remaining]], when the limit asks for it. *)
Definition shortened (Max : Z) (n : nat) (st : counting) : nat :=
  let remaining := i64 (Max - count st) in
  if (0 <? Max) && (remaining <? Z.of_nat n) then Z.to_nat remaining else n.

(** [Read] of a [phaseLimitReader], for the envelope of a request. *)
Definition phaseLimitRead (R : reader) (Max : Z) (n : nat) (st : counting)
    : (list byte * option goerr) * counting :=
  if (0 <? Max) && (Max <=? count st) then (([], Some errReadLimitExceeded), st)
  else counted R (shortened Max n st) st.

(** [Read] of a [maxBytesReader], for documents: at the limit one more byte is
    asked for, to tell a document that ends there from a longer one. *)
Definition maxBytesRead (R : reader) (Max : Z) (n : nat) (st : counting)
    : (list byte * option goerr) * counting :=
  if (0 <? Max) && (Max <=? count st) then
    let '(data, err) := R (calls st) 1%nat in
    let st := {| calls := 1%nat :: calls st; count := count st |} in
    match data with
    | _ :: _ => (([], Some errReadLimitExceeded), st)
    | [] => (([], err), st)
    end
  else counted R (shortened Max n st) st.

(** ** Staging a document of unknown length

    The loop of [stageUnknownPayload]. [st_ctx k] is the error of the context
    before the [k]-th round, [st_done k] after its read, [st_last] the one after the
    loop (the 0-th is read before it); [st_disk k] is the error
    of writing to the staging file. The result is the content of the file;
    [None] is a source that has not ended after [fuel] rounds. *)
Record staging_env := {
  st_ctx : nat -> option goerr;
  st_done : nat -> option goerr;
  st_disk : nat -> option goerr;
  st_last : option goerr;
  st_rewind : option goerr
}.

Definition staging_buffer : nat := Z.to_nat (64 * 1024).
(** [err == io.EOF] *)
Definition is_EOF (err : goerr) : bool := is_sentinel "EOF" err.

Fixpoint stage_loop (E : staging_env) (R : reader) (Max : Z) (fuel k : nat) (st : counting) (content : list byte)
    : option (res goerr (list byte)) :=
  match fuel with
  | O => None
  | S fuel =>
      match st_ctx E k with
      | Some err => Some (Err err)
      | None =>
          let '((data, readErr), st) := maxBytesRead R Max staging_buffer st in
          match (match data with [] => None | _ => st_disk E k end) with
          | Some err => Some (Err (EWrap "stage request document: " err))
          | None =>
              let content := content ++ data in
              match readErr with
              | None => stage_loop E R Max fuel (S k) st content
              | Some err =>
                  match st_done E k with
                  | Some c => if Is c Canceled || Is c DeadlineExceeded then Some (Err c)
                              else if is_EOF err then Some (Ok content) else Some (Err err)
                  | None => if is_EOF err then Some (Ok content) else Some (Err err)
                  end
              end
          end
      end
  end.

(** [closeBody] is closed by a callback when the context ends: the reads of
    the source that follow are the environment's. A nil source or body and a
    failing [os.CreateTemp] end the call at once. *)
Definition stageUnknownPayload (E : staging_env) (temp : option goerr) (source : option reader) (Max : Z) (fuel : nat)
    : option (res goerr (list byte)) :=
  match source with
  | None => Some (Err (EText "missing request body"))
  | Some R =>
      match st_ctx E 0, temp with
      | Some err, _ => Some (Err err)
      | None, Some err => Some (Err err)
      | None, None =>
          match stage_loop E R Max fuel 1 {| calls := []; count := 0 |} [] with
          | Some (Ok content) =>
              match st_last E, st_rewind E with
              | Some err, _ => Some (Err err)
              | None, Some err => Some (Err (EWrap "rewind staged request document: " err))
              | None, None => Some (Ok content)
              end
          | r => r
          end
      end
  end.

(** ** Pages of a PDF file

    [pdfPageToken] is [/Type\s*/Page\b]: [\s] is a tab, line feed, form feed,
    carriage return or space, and after [Page] comes no letter, digit or
    underscore. *)
Definition re_space (c : ascii) : bool := existsb (Z.eqb (code c)) [9; 10; 12; 13; 32].
Definition is_word (c : ascii) : bool := is_digit c || is_upper c || is_lower c || Ascii.eqb c "_".

(** The length of the spaces at the start, and the rest. *)
Fixpoint skip_space (s : string) : nat * string :=
  match s with
  | String c r => if re_space c then let '(n, t) := skip_space r in (S n, t) else (O, s)
  | EmptyString => (O, s)
  end.

(** The length of the match that begins here. *)
Definition page_token (s : string) : option nat :=
  if HasPrefix s "/Type" then
    let '(n, t) := skip_space (sdrop 5 s) in
    if HasPrefix t "/Page" then
      match sdrop 5 t with
      | String c _ => if is_word c then None else Some (10 + n)%nat
      | EmptyString => Some (10 + n)%nat
      end
    else None
  else None.

(** [FindAllStringIndex]: the ends of the matches, from the left, without
    overlap. [skip] is what is left of the match before. *)
Fixpoint match_ends (s : string) (pos skip : nat) : list nat :=
  match s with
  | EmptyString => []
  | String _ r =>
      match skip with
      | S k => match_ends r (S pos) k
      | O => match page_token s with
             | Some n => (pos + n)%nat :: match_ends r (S pos) (n - 1)
             | None => match_ends r (S pos) O
             end
      end
  end.

(** One read of the scan: the matches that end in the new bytes, and the next
    tail. *)
Definition scan_chunk (tail : string) (new : string) : nat * string :=
  let chunk := tail +:+ new in
  let found := length (List.filter (fun e => (slen tail <? e)%nat) (match_ends chunk 0 0)) in
  (found, if (128 <? slen chunk)%nat then sdrop (slen chunk - 128) chunk else chunk).

(** [countPDFPagesBestEffort], over the reads the file delivers (a read that
    delivers nothing changes nothing). *)
Fixpoint count_chunks (chunks : list string) (tail : string) (n : nat) : nat :=
  match chunks with
  | [] => n
  | c :: rest => let '(k, tail) := scan_chunk tail c in count_chunks rest tail (n + k)
  end.
Definition countPDFPagesBestEffort (chunks : list string) : Z := Z.of_nat (count_chunks chunks "" 0).

Definition isPDF (documentFormat : string) : bool := (ToLower (TrimSpace documentFormat) =? "application/pdf")%string.

(** The first read of the file, at most 1024 bytes. *)
Definition fileLooksLikePDF (header : string) : bool := Contains (stake 1024 header) "%PDF-".

(** ** What is recorded *)

Record PayloadMetadata := {
  mBytes : Z;
  mPageCount : option Z;
  mCopies : Z;
  mEstimatedImpressions : option Z
}.
Definition noMetadata : PayloadMetadata :=
  {| mBytes := 0; mPageCount := None; mCopies := 0; mEstimatedImpressions := None |}.

(** The recording of a payload: the bytes the upstream request read, in the
    pieces in which they are read back, and the errors of the file. *)
Record recording := {
  rec_open : option goerr;     (** newPayloadRecorderContext *)
  rec_close : option goerr;
  rec_stat : option goerr;
  rec_chunks : list string;
  rec_scan : option goerr      (** reading the file back *)
}.
Definition recorded (r : recording) : string := fold_right (fun a b => a +:+ b) ""%string (rec_chunks r).

(** [Finish] of a [payloadRecorder]. *)
Definition Finish (r : recording) (documentFormat : string) (copies : Z) : PayloadMetadata * option goerr :=
  let copies := if copies <? 1 then 1 else copies in
  let meta bytes pages impressions :=
    {| mBytes := bytes; mPageCount := pages; mCopies := copies; mEstimatedImpressions := impressions |} in
  match rec_close r, rec_stat r with
  | Some err, _ => (meta 0 None None, Some err)
  | None, Some err => (meta 0 None None, Some err)
  | None, None =>
      let bytes := Z.of_nat (slen (recorded r)) in
      if (0 <? bytes) && (isPDF documentFormat || fileLooksLikePDF (recorded r)) then
        match rec_scan r with
        | Some err => (meta bytes None None, Some err)
        | None =>
            let pages := countPDFPagesBestEffort (rec_chunks r) in
            if 0 <? pages then (meta bytes (Some pages) (Some (i64 (pages * copies))), None)
            else (meta bytes None None, None)
        end
      else (meta bytes None None, None)
  end.

(** ** Evaluation: a document in memory

    It is delivered in pieces of at most [1 + chunk h] bytes, and ends with
    [io.EOF] and no data. *)
Fixpoint doc_position (doc : list byte) (chunk : list nat -> nat) (h : list nat) : nat :=
  match h with
  | [] => O
  | n :: r => let p := doc_position doc chunk r in (p + Nat.min (Nat.min n (S (chunk r))) (length doc - p))%nat
  end.
Definition doc_reader (doc : list byte) (chunk : list nat -> nat) : reader := fun h n =>
  let data := take (Nat.min n (S (chunk h))) (drop (doc_position doc chunk h) doc) in
  (data, match drop (doc_position doc chunk h) doc with [] => Some EOF | _ => None end).

(** Two pages are counted as two, and the page tree is not one. *)
Example pages_ex : countPDFPagesBestEffort ["%PDF-1.4 /Type /Pages /Kids ... /Type /Page >> /Type/Page"]%string = 2.
Proof. vm_compute. reflexivity. Qed.
(** A page tree whose name is cut by the end of a read is taken for a page. *)
Example pages_cut_ex : countPDFPagesBestEffort ["%PDF-1.4 /Type /Page"; "s /Kids ..."]%string = 1 /\
  countPDFPagesBestEffort ["%PDF-1.4 /Type /Pages /Kids ..."]%string = 0.
Proof. vm_compute. split; reflexivity. Qed.
