(* ===== verification/PayloadTheorems.v ===== *)
(** * Payloads: theorems

    A document of unknown length is staged completely or not at all, and
    never beyond its limit. *)

From Stdlib Require Import ZArith Lia Ascii String Strings.Byte.
From stdpp Require Import base tactics list strings.
From S2P Require Import Prelude GoString GoError Payload.

Section staging.
Context (R : reader) (Max : Z) (HR : reader_ok R) (HMax : 0 < Max).

(** What the counting reader knows: it has counted what was delivered. *)
Definition counted_ok (st : counting) : Prop :=
  count st = zlen (delivered R (calls st)) /\ 0 <= count st <= Max.

(** A read within the limit delivers what the source delivers. At the limit
    nothing more is accepted. *)
Lemma maxBytesRead_ok n st data err st' : Max <= maxI64 -> counted_ok st ->
  maxBytesRead R Max n st = ((data, err), st') ->
  (data = [] /\ err = Some errReadLimitExceeded) \/
  (counted_ok st' /\ delivered R (calls st') = delivered R (calls st) ++ data /\
   exists m, calls st' = m :: calls st /\ err = snd (R (calls st) m)).
Proof.
  intros HM [Hc Hr] H. unfold maxBytesRead in H.
  assert (0 <? Max = true) as Hpos by (by apply Z.ltb_lt). rewrite Hpos in H. cbn [andb] in H.
  destruct (Z.leb_spec Max (count st)) as [Hge|Hlt].
  - destruct (R (calls st) 1%nat) as [d e] eqn:E. destruct d as [|b d].
    + inversion H; subst. right. cbn [calls count]. split; [|split].
      * split; [cbn [calls count delivered]|cbn; lia]. rewrite E. cbn. by rewrite app_nil_r.
      * cbn [delivered]. by rewrite E.
      * exists 1%nat. by rewrite E.
    + inversion H; subst. by left.
  - unfold counted in H. set (m := shortened Max n st) in H.
    destruct (R (calls st) m) as [d e] eqn:E. inversion H; subst. right. cbn [calls count].
    pose proof (HR (calls st) m) as Hlen. rewrite E in Hlen. cbn in Hlen.
    assert (Z.of_nat m <= Max - count st) as Hm.
    { unfold m, shortened. rewrite Hpos. cbn [andb]. rewrite i64_small by (unfold minI64, maxI64 in *; lia).
      destruct (Z.ltb_spec (Max - count st) (Z.of_nat n)); lia. }
    split; [|split].
    + split; cbn [calls count delivered]; rewrite ?E; cbn [fst]; rewrite ?zlen_app; unfold zlen in *; lia.
    + cbn [delivered]. by rewrite E.
    + exists m. by rewrite E.
Qed.

(** What has been staged is what the source delivered, up to its end. *)
Definition complete (content : list byte) : Prop :=
  exists h n e, content = delivered R (n :: h) /\ snd (R h n) = Some e /\ is_EOF e = true.

Lemma stage_loop_ok E fuel : forall k st content, Max <= maxI64 -> counted_ok st -> content = delivered R (calls st) ->
  forall out, stage_loop E R Max fuel k st content = Some (Ok out) -> zlen out <= Max /\ complete out.
Proof.
  induction fuel as [|fuel IH]; intros k st content HM Hok Hc out H; cbn [stage_loop] in H; [done|].
  destruct (st_ctx E k); [done|].
  destruct (maxBytesRead R Max staging_buffer st) as [[data err] st'] eqn:Er.
  destruct (maxBytesRead_ok _ _ _ _ _ HM Hok Er) as [[-> ->]|(Hok' & Hd & m & Hm & Herr)].
  - cbn in H. destruct (st_done E k); [|done]. by destruct (_ || _).
  - destruct (match data with [] => None | _ => st_disk E k end); [done|].
    assert (content ++ data = delivered R (calls st')) as Hc' by congruence.
    destruct err as [e|].
    + assert (is_EOF e = true /\ out = content ++ data) as [He ->].
      { destruct (st_done E k) as [c|]; [destruct (_ || _); [done|]|]; destruct (is_EOF e); naive_solver. }
      destruct Hok' as [Hcount Hrange]. split; [rewrite Hc'; lia|].
      exists (calls st), m, e. split; [by rewrite Hc', Hm|]. done.
    + by eapply IH.
Qed.

End staging.

(** ** A document in memory *)

Lemma doc_position_le doc chunk h : (doc_position doc chunk h <= length doc)%nat.
Proof. induction h; cbn; lia. Qed.

Lemma doc_delivered doc chunk h : delivered (doc_reader doc chunk) h = take (doc_position doc chunk h) doc.
Proof.
  induction h as [|n h IH]; [done|]. cbn [delivered doc_position]. rewrite IH. cbn.
  pose proof (doc_position_le doc chunk h).
  rewrite <- take_take_drop. f_equal.
  set (p := doc_position doc chunk h) in *. set (m := Nat.min n (S (chunk h))).
  destruct (decide (m <= length doc - p)%nat); [by rewrite (Nat.min_l m) by done|].
  rewrite (Nat.min_r m) by lia. by rewrite !take_ge by (rewrite ?length_drop; lia).
Qed.

Lemma doc_reader_ok doc chunk : reader_ok (doc_reader doc chunk).
Proof. intros h n. cbn. rewrite length_take. lia. Qed.

(** An environment in which nothing fails. *)
Record quiet (E : staging_env) : Prop := {
  q_ctx : forall k, st_ctx E k = None;
  q_done : forall k, st_done E k = None;
  q_disk : forall k, st_disk E k = None;
  q_last : st_last E = None;
  q_rewind : st_rewind E = None
}.

Section document.
Context (doc : list byte) (chunk : list nat -> nat) (Max : Z) (E : staging_env).
Context (HMax : 0 < Max <= maxI64) (HE : quiet E).
#[local] Abbreviation R := (doc_reader doc chunk).
#[local] Abbreviation position st := (doc_position doc chunk (calls st)).

(** One round: the end of the document, the limit, or progress. *)
Lemma doc_round st : counted_ok R Max st -> (0 < staging_buffer)%nat ->
  match maxBytesRead R Max staging_buffer st with
  | ((data, Some e), st') =>
      data = [] /\ (if decide (position st < length doc)%nat then Max < zlen doc /\ e = errReadLimitExceeded
                    else zlen doc <= Max /\ e = EOF)
  | ((data, None), st') =>
      (position st < position st')%nat /\ counted_ok R Max st' /\
      delivered R (calls st') = delivered R (calls st) ++ data
  end.
Proof.
  intros Hok Hbuf. pose proof (doc_position_le doc chunk (calls st)) as Hle.
  assert (count st = Z.of_nat (position st)) as Hcount.
  { destruct Hok as [-> _]. rewrite doc_delivered. unfold zlen. rewrite length_take. lia. }
  destruct (maxBytesRead R Max staging_buffer st) as [[data err] st'] eqn:Er.
  destruct (maxBytesRead_ok R Max (doc_reader_ok doc chunk) ltac:(lia) _ _ _ _ _ ltac:(lia) Hok Er)
    as [[-> ->]|(Hok' & Hd & m & Hm & Herr)].
  - split; [done|]. unfold maxBytesRead in Er.
    assert (0 <? Max = true) as Hpos by (apply Z.ltb_lt; lia). rewrite Hpos in Er. cbn [andb] in Er.
    destruct (Z.leb_spec Max (count st)) as [Hge|Hlt].
    + cbn in Er. destruct (drop (position st) doc) as [|b rest] eqn:Ed; [inversion Er|].
      assert (position st < length doc)%nat as Hp.
      { apply (f_equal length) in Ed. rewrite length_drop in Ed. cbn in Ed. lia. }
      destruct (decide _); [|done]. unfold zlen. split; [lia|done].
    + cbn in Er. destruct (drop (position st) doc); inversion Er.
  - cbn [doc_reader snd] in Herr. destruct (drop (position st) doc) as [|b rest] eqn:Ed.
    + subst err. assert (position st = length doc) as Hp.
      { apply (f_equal length) in Ed. rewrite length_drop in Ed. cbn in Ed. lia. }
      assert (data = []) as ->.
      { apply (f_equal length) in Hd. rewrite length_app, !doc_delivered, !length_take in Hd.
        pose proof (doc_position_le doc chunk (calls st')). destruct data; [done|cbn in Hd; lia]. }
      split; [done|]. destruct (decide _); [lia|]. split; [|done]. unfold zlen. destruct Hok as [_ Hr]. lia.
    + subst err. split; [|done]. rewrite Hm. cbn [doc_position].
      assert (position st < length doc)%nat as Hp.
      { apply (f_equal length) in Ed. rewrite length_drop in Ed. cbn in Ed. lia. }
      assert (0 < m)%nat; [|lia].
      (* the buffer that was asked for is not empty *)
      unfold maxBytesRead in Er. destruct (_ && _) eqn:Ec.
      * destruct (R (calls st) 1%nat) as [d e] eqn:Ed2. destruct d; inversion Er; subst; cbn in Hm; inversion Hm; lia.
      * unfold counted in Er. destruct (R (calls st) (shortened Max staging_buffer st)) eqn:Ed2.
        inversion Er; subst. cbn in Hm. inversion Hm. subst m.
        unfold shortened. assert (0 <? Max = true) as Hpos by (apply Z.ltb_lt; lia). rewrite Hpos in Ec |- *.
        cbn [andb] in Ec |- *. apply Z.leb_gt in Ec. rewrite i64_small by (unfold minI64, maxI64 in *; lia).
        destruct (Z.ltb_spec (Max - count st) (Z.of_nat staging_buffer)); lia.
Qed.

Lemma stage_loop_doc fuel : forall k st, counted_ok R Max st -> (length doc - position st < fuel)%nat ->
  (0 < staging_buffer)%nat ->
  stage_loop E R Max fuel k st (delivered R (calls st)) =
  Some (if zlen doc <=? Max then Ok doc else Err errReadLimitExceeded).
Proof.
  induction fuel as [|fuel IH]; intros k st Hok Hf Hbuf; [lia|]. cbn [stage_loop].
  rewrite (q_ctx E HE). pose proof (doc_round st Hok Hbuf) as Hround.
  pose proof (doc_position_le doc chunk (calls st)) as Hle.
  destruct (maxBytesRead R Max staging_buffer st) as [[data [e|]] st'] eqn:Er.
  - destruct Hround as [-> Hround]. rewrite (q_done E HE), app_nil_r.
    destruct (decide _).
    + destruct Hround as [Hd ->]. cbn. by destruct (Z.leb_spec (zlen doc) Max); [lia|].
    + destruct Hround as [Hd ->]. cbn. destruct (Z.leb_spec (zlen doc) Max); [|lia].
      by rewrite doc_delivered, take_ge by lia.
  - destruct Hround as (Hp & Hok' & Hd).
    assert ((match data with [] => None | _ => st_disk E k end) = None) as -> by (destruct data; [done|apply (q_disk E HE)]).
    rewrite <- Hd. apply IH; [done| |done]. pose proof (doc_position_le doc chunk (calls st')). lia.
Qed.

End document.

(** A document of unknown length is staged exactly or refused. Whatever
    the source does, what is staged is everything it delivered until its end,
    and no more than the limit. A document in memory, delivered in pieces of
    any size while nothing fails, is staged when it is within the limit and
    refused with the limit error when it is longer, after at most one round
    per byte. *)
Theorem staged_exactly E temp source Max fuel :
  0 < Max <= maxI64 ->
  (forall R content, source = Some R -> reader_ok R ->
     stageUnknownPayload E temp source Max fuel = Some (Ok content) ->
     zlen content <= Max /\ complete R content) /\
  (forall doc chunk, source = Some (doc_reader doc chunk) -> quiet E -> temp = None -> (length doc < fuel)%nat ->
     stageUnknownPayload E temp source Max fuel =
     Some (if zlen doc <=? Max then Ok doc else Err errReadLimitExceeded)).
Proof.
  intros HMax.
  assert (forall R, counted_ok R Max {| calls := []; count := 0 |}) as H0 by (intros R; split; cbn; [done|lia]).
  split.
  - intros R content -> HR. unfold stageUnknownPayload. destruct (st_ctx E 0); [done|]. destruct temp; [done|].
    destruct (stage_loop E R Max fuel 1 _ []) as [[out|e]|] eqn:El; [|done..].
    destruct (st_last E); [done|]. destruct (st_rewind E); [done|]. intros [= ->].
    eapply stage_loop_ok in El; [exact El|done|lia|lia|apply H0|done].
  - intros doc chunk -> HE -> Hf. unfold stageUnknownPayload. rewrite (q_ctx E HE).
    assert (0 < staging_buffer)%nat as Hbuf by (unfold staging_buffer; lia).
    pose proof (stage_loop_doc doc chunk Max E HMax HE fuel 1 {| calls := []; count := 0 |} (H0 _) ltac:(cbn; lia) Hbuf) as Hl.
    cbn [calls delivered] in Hl. rewrite Hl, (q_last E HE), (q_rewind E HE). by destruct (_ <=? _).
Qed.

Definition ex_staging : staging_env :=
  {| st_ctx := fun _ => None; st_done := fun _ => None; st_disk := fun _ => None; st_last := None; st_rewind := None |}.
Lemma staged_exactly_witness :
  stageUnknownPayload ex_staging None (Some (doc_reader [x01; x02; x03] (fun _ => 1%nat))) 3 4 = Some (Ok [x01; x02; x03]) /\
  stageUnknownPayload ex_staging None (Some (doc_reader [x01; x02; x03] (fun _ => 1%nat))) 2 4 = Some (Err errReadLimitExceeded).
Proof.
  split.
  - destruct (staged_exactly ex_staging None (Some (doc_reader [x01; x02; x03] (fun _ => 1%nat))) 3 4) as [_ H].
    + vm_compute. split; [reflexivity|discriminate].
    + apply (H [x01; x02; x03] (fun _ => 1%nat)); [reflexivity|by split|reflexivity|cbn; lia].
  - destruct (staged_exactly ex_staging None (Some (doc_reader [x01; x02; x03] (fun _ => 1%nat))) 2 4) as [_ H].
    + vm_compute. split; [reflexivity|discriminate].
    + apply (H [x01; x02; x03] (fun _ => 1%nat)); [reflexivity|by split|reflexivity|cbn; lia].
Defined.
