(* ===== verification/Configuration.v ===== *)
(** * The configuration ([internal/config/config.go], [statistics.go])

    The sections of the file as the program keeps them, how each is read from
    its YAML node, the defaults that complete them, and the validation every
    configuration passes before the service starts.

    The YAML library is the class [YAML]: a decoder for each type the program
    leaves to it, given the value to decode into. A node is the library's public
    data type. The iteration of a Go map visits the entries in any order: the
    class [MapRange]. Presence bits that decoding sets are fields, as in the
    code. *)

From Stdlib Require Import ZArith Lia Ascii String SpecFloat.
From stdpp Require Import base tactics list strings gmap.
From S2P Require Import Prelude GoString GoError GoUrl MediaCatalog GoTime GoParse.

(** ** Data *)

Record ListenConfig := { Addr : string; PublicBaseURL : string }.

Record DNSSDConfig := {
  Mode : string;
  Hostname : string;
  Interface : string;
  AllowedAliases : list string;
  modeSet : bool
}.

(** The five limits of [DefaultsConfig], each with its canonical field, its
    alias in memory and its presence bit. *)
Record Limits (A : Type) := {
  MaxEnvelopeBytes : A;
  MaxDocumentBytes : A;
  MaxUpstreamResponseBytes : A;
  MaxConcurrentPayloadJobsPerQueue : A;
  JobRetention : A
}.
Arguments MaxEnvelopeBytes {A} _.
Arguments MaxDocumentBytes {A} _.
Arguments MaxUpstreamResponseBytes {A} _.
Arguments MaxConcurrentPayloadJobsPerQueue {A} _.
Arguments JobRetention {A} _.
Record DefaultsConfig := { limits : Limits Z; alias : Limits Z; present : Limits bool }.

Definition all_of {A} (x : A) : Limits A := {|
  MaxEnvelopeBytes := x; MaxDocumentBytes := x; MaxUpstreamResponseBytes := x;
  MaxConcurrentPayloadJobsPerQueue := x; JobRetention := x |}.
(** A function of the limits at the same place of two records. *)
Definition zip_limits {A B C} (f : A -> B -> C) (a : Limits A) (b : Limits B) : Limits C := {|
  MaxEnvelopeBytes := f (MaxEnvelopeBytes a) (MaxEnvelopeBytes b);
  MaxDocumentBytes := f (MaxDocumentBytes a) (MaxDocumentBytes b);
  MaxUpstreamResponseBytes := f (MaxUpstreamResponseBytes a) (MaxUpstreamResponseBytes b);
  MaxConcurrentPayloadJobsPerQueue :=
    f (MaxConcurrentPayloadJobsPerQueue a) (MaxConcurrentPayloadJobsPerQueue b);
  JobRetention := f (JobRetention a) (JobRetention b) |}.
Definition any_limit (l : Limits bool) : bool :=
  MaxEnvelopeBytes l || MaxDocumentBytes l || MaxUpstreamResponseBytes l ||
  MaxConcurrentPayloadJobsPerQueue l || JobRetention l.
(** [DefaultsConfig{}] *)
Definition no_defaults : DefaultsConfig := {| limits := all_of 0; alias := all_of 0; present := all_of false |}.

Record StatisticsConfig := {
  Enabled : bool;
  SQLitePath : string;
  DetailRetention : Z;
  CPURetention : Z;
  RollupRetention : Z;
  QueueSize : Z;
  BatchSize : Z;
  FlushInterval : Z;
  Resources : bool;
  CPU : bool;
  configured : bool
}.
#[export] Instance StatisticsConfig_eq_dec : EqDecision StatisticsConfig.
Proof. solve_decision. Defined.

(** [PolicyConfig]: the policy itself, and the presence bits of its keys. *)
Record PolicySection := {
  settings : PolicyConfig;
  mediaLegacySet : bool;
  mediaSupportedSet : bool;
  mediaDefaultSet : bool;
  mediaDefaultsApply : bool
}.

Record PassthroughConfig := {
  AllowUnknownAttributes : bool;
  PreserveJobAttrs : list string;
  DropVendorAttrs : list string
}.

Record PrinterConfig := {
  UpstreamURI : string;
  DisplayName : string;
  Location : string;
  Optional : bool;
  IPPEverywhereMode : string;
  AirPrintMode : string;
  DNSSD : bool;
  GeoLocation : string;
  RefreshInterval : Z;
  RefreshRaw : string;
  Policy : PolicySection;
  Passthrough : PassthroughConfig;
  DNS_SD : bool;
  ippEverywhereModeSet : bool;
  airPrintModeSet : bool;
  dnsSDSet : bool
}.

(** [Storage] is the path of the registry, its only field. *)
Record Config := {
  Listen : ListenConfig;
  StoragePath : string;
  Statistics : StatisticsConfig;
  Defaults : DefaultsConfig;
  LimitsAlias : DefaultsConfig;
  DNSSDSection : DNSSDConfig;
  Printers : gmap string PrinterConfig;
  limitsAliasConflict : bool
}.

Definition DNSModeAuto : string := "auto".
Definition DNSModeOff : string := "off".
Definition IPPEverywhereDisabled : string := "disabled".
Definition IPPEverywhereAuto : string := "auto".
Definition IPPEverywhereRequired : string := "required".
Definition AirPrintDisabled : string := "disabled".
Definition AirPrintAuto : string := "auto".
Definition AirPrintEmulateIfMissing : string := "emulate-if-missing".

(** The iteration of a map. *)
Class MapRange := {
  range {A} : gmap string A -> list (string * A);
  range_perm {A} (m : gmap string A) : range m ≡ₚ map_to_list m
}.

(** ** Numbers and durations of the file *)

Section parsing.
Context `{P : Platform}.

Definition not_finite (x : float64) : bool := IsNaN x || IsInf x.

Definition parseFiniteFloat (raw : string) : res goerr float64 :=
  let err := Err (EText "must be a finite number") in
  match ParseFloat (TrimSpace raw) with
  | Some value => if not_finite value then err else Ok value
  | None => err
  end.

Definition byte_units : list (string * Z) :=
  [("tib", 2 ^ 40); ("tb", 1000000000000); ("gib", 2 ^ 30); ("gb", 1000000000); ("mib", 2 ^ 20); ("mb", 1000000);
   ("kib", 2 ^ 10); ("kb", 1000); ("b", 1)].

(** The first unit the text ends with, and the number before it. *)
Fixpoint split_unit (value : string) (units : list (string * Z)) : Z * string :=
  match units with
  | [] => (1, value)
  | (suffix, factor) :: r =>
      if HasSuffix (ToLower value) suffix then (factor, TrimSpace (stake (slen value - slen suffix) value))
      else split_unit value r
  end.

Definition parseByteLimit (raw : string) : res goerr Z :=
  let value := TrimSpace raw in
  if (value =? "")%string then Err (EText "must not be empty") else
  let '(factor, number) := split_unit value byte_units in
  if (number =? "")%string then Err (EText "must contain a number") else
  match ParseFloat number with
  | Some amount =>
      if not_finite amount || flt amount (float64_of_Z 0) then Err (EText "must be a non-negative byte count") else
      let bytes := fmul amount (float64_of_Z factor) in
      if flt (float64_of_Z maxI64) bytes || negb (is_integral bytes)
      then Err (EText "byte count overflows an integer or is fractional")
      else Ok (int64_of_float bytes)
  | None => Err (EText "must be a non-negative byte count")
  end.

Definition parseFlexibleDuration (raw : string) : res goerr Z :=
  let value := TrimSpace raw in
  if (value =? "")%string then Err (EText "must be a duration")
  else if HasSuffix (ToLower value) "d" then
    match ParseFloat (TrimSpace (stake (slen value - 1) value)) with
    | Some days =>
        if not_finite days then Err (EText "must be a valid duration") else
        let hours := fmul days (float64_of_Z (24 * Hour)) in
        if flt (float64_of_Z maxI64) hours || flt hours (float64_of_Z minI64)
        then Err (EText "duration overflows time.Duration")
        else Ok (int64_of_float hours)
    | None => Err (EText "must be a valid duration")
    end
  else wrapped "must be a valid duration: " (ParseDuration value).

(** ** YAML nodes *)

#[warnings="-register-all"]
Inductive NodeKind := DocumentNode | SequenceNode | MappingNode | ScalarNode | AliasNode.
#[export] Instance NodeKind_eq_dec : EqDecision NodeKind.
Proof. solve_decision. Defined.
#[warnings="-register-all"]
Inductive Node := mkNode (kind : NodeKind) (tag value : string) (content : list Node).
Definition Kind (n : Node) : NodeKind := let 'mkNode k _ _ _ := n in k.
Definition Tag (n : Node) : string := let 'mkNode _ t _ _ := n in t.
Definition Value (n : Node) : string := let 'mkNode _ _ v _ := n in v.
Definition Content (n : Node) : list Node := let 'mkNode _ _ _ c := n in c.

Definition is_kind (k : NodeKind) (n : Node) : bool := bool_decide (Kind n = k).
Definition is_null (n : Node) : bool := is_kind ScalarNode n && (Tag n =? "!!null")%string.

(** [for i := 0; i+1 < len(content); i += 2] *)
Fixpoint pairs (l : list Node) : list (string * Node) :=
  match l with
  | k :: v :: r => (Value k, v) :: pairs r
  | _ => []
  end.
Definition has_key (n : Node) (key : string) : bool := existsb (fun p => (fst p =? key)%string) (pairs (Content n)).

Definition parseByteLimitNode (node : Node) : res goerr Z :=
  if negb (is_kind ScalarNode node) then Err (EText "must be a byte count or size such as 1MiB")
  else parseByteLimit (Value node).
Definition parsePositiveIntNode (node : Node) : res goerr Z :=
  if negb (is_kind ScalarNode node) then Err (EText "must be a positive integer")
  else or_error (EText "must be a positive integer") (Atoi (TrimSpace (Value node))).
Definition parseDurationNode (node : Node) : res goerr Z :=
  if negb (is_kind ScalarNode node) then Err (EText "must be a duration") else parseFlexibleDuration (Value node).

(** [d.field = parsed; d.fieldSet = true] for the field [f] updates. *)
Definition set_limit (f : forall A, A -> Limits A -> Limits A) (v : Z) (d : DefaultsConfig) : DefaultsConfig :=
  {| limits := f Z v (limits d); alias := alias d; present := f bool true (present d) |}.
Definition set_envelope A (v : A) (l : Limits A) : Limits A := {|
  MaxEnvelopeBytes := v; MaxDocumentBytes := MaxDocumentBytes l; MaxUpstreamResponseBytes := MaxUpstreamResponseBytes l;
  MaxConcurrentPayloadJobsPerQueue := MaxConcurrentPayloadJobsPerQueue l; JobRetention := JobRetention l |}.
Definition set_document A (v : A) (l : Limits A) : Limits A := {|
  MaxEnvelopeBytes := MaxEnvelopeBytes l; MaxDocumentBytes := v; MaxUpstreamResponseBytes := MaxUpstreamResponseBytes l;
  MaxConcurrentPayloadJobsPerQueue := MaxConcurrentPayloadJobsPerQueue l; JobRetention := JobRetention l |}.
Definition set_response A (v : A) (l : Limits A) : Limits A := {|
  MaxEnvelopeBytes := MaxEnvelopeBytes l; MaxDocumentBytes := MaxDocumentBytes l; MaxUpstreamResponseBytes := v;
  MaxConcurrentPayloadJobsPerQueue := MaxConcurrentPayloadJobsPerQueue l; JobRetention := JobRetention l |}.
Definition set_concurrent A (v : A) (l : Limits A) : Limits A := {|
  MaxEnvelopeBytes := MaxEnvelopeBytes l; MaxDocumentBytes := MaxDocumentBytes l;
  MaxUpstreamResponseBytes := MaxUpstreamResponseBytes l;
  MaxConcurrentPayloadJobsPerQueue := v; JobRetention := JobRetention l |}.
Definition set_retention A (v : A) (l : Limits A) : Limits A := {|
  MaxEnvelopeBytes := MaxEnvelopeBytes l; MaxDocumentBytes := MaxDocumentBytes l;
  MaxUpstreamResponseBytes := MaxUpstreamResponseBytes l;
  MaxConcurrentPayloadJobsPerQueue := MaxConcurrentPayloadJobsPerQueue l; JobRetention := v |}.

(** The body of the loop over the keys of the section. *)
Definition defaults_key (d : DefaultsConfig) (key : string) (value : Node) : res goerr DefaultsConfig :=
  let read (parse : Node -> res goerr Z) f := parsed ← wrapped (key +:+ ": ") (parse value); Ok (set_limit f parsed d) in
  if in_strings key ["max_envelope_bytes"; "envelope"; "envelope_max_bytes"] then read parseByteLimitNode set_envelope
  else if in_strings key ["max_document_bytes"; "document"; "document_max_bytes"] then read parseByteLimitNode set_document
  else if in_strings key ["max_upstream_response_bytes"; "upstream_response"; "upstream_response_max_bytes"]
  then read parseByteLimitNode set_response
  else if in_strings key ["max_concurrent_payload_jobs_per_queue"; "concurrent_payload_jobs_per_queue"]
  then read parsePositiveIntNode set_concurrent
  else if in_strings key ["job_retention"; "retention"] then read parseDurationNode set_retention
  else Ok d.
Fixpoint defaults_keys (d : DefaultsConfig) (l : list (string * Node)) : res goerr DefaultsConfig :=
  match l with
  | [] => Ok d
  | (key, value) :: r => d ← defaults_key d key value; defaults_keys d r
  end.
Definition DefaultsConfig_UnmarshalYAML (node : Node) : res goerr DefaultsConfig :=
  if is_null node then Ok no_defaults
  else if negb (is_kind MappingNode node) then Err (EText "defaults must be a YAML mapping")
  else defaults_keys no_defaults (pairs (Content node)).
End parsing.

(** ** Sections read from their nodes *)

(** The decoder of the YAML library for the types without a method of their
    own, given the value that is there. *)
Class YAML := {
  decode_bool : Node -> bool -> res goerr bool;
  decode_string : Node -> string -> res goerr string;
  decode_int : Node -> Z -> res goerr Z;
  decode_dnssd : Node -> res goerr DNSSDConfig;
  decode_printer : Node -> res goerr PrinterConfig;
  decode_policy : Node -> res goerr PolicySection;
  Unmarshal : string -> res goerr Node;
  decode_config : Node -> res goerr Config
}.

Definition no_policy : PolicySection := {|
  settings := {| pMedia := ""; pMediaSupported := []; pMediaDefault := ""; pMediaType := ""; pPrintColorMode := "";
                 pMediaSource := None; pPrintScaling := None; pUseMediaCol := false; pFidelityMode := "" |};
  mediaLegacySet := false; mediaSupportedSet := false; mediaDefaultSet := false; mediaDefaultsApply := false |}.
(** [PrinterConfig{}] *)
Definition no_printer : PrinterConfig := {|
  UpstreamURI := ""; DisplayName := ""; Location := ""; Optional := false; IPPEverywhereMode := ""; AirPrintMode := "";
  DNSSD := false; GeoLocation := ""; RefreshInterval := 0; RefreshRaw := ""; Policy := no_policy;
  Passthrough := {| AllowUnknownAttributes := false; PreserveJobAttrs := []; DropVendorAttrs := [] |};
  DNS_SD := false; ippEverywhereModeSet := false; airPrintModeSet := false; dnsSDSet := false |}.

Section unmarshal.
Context `{Y : YAML} `{P : Platform}.

Definition DNSSDConfig_UnmarshalYAML (node : Node) : res goerr DNSSDConfig :=
  if is_null node then
    Ok {| Mode := ""; Hostname := ""; Interface := ""; AllowedAliases := []; modeSet := false |}
  else if negb (is_kind MappingNode node) then Err (EText "dns_sd must be a YAML mapping")
  else
    d ← decode_dnssd node;
    Ok {| Mode := Mode d; Hostname := Hostname d; Interface := Interface d; AllowedAliases := AllowedAliases d;
          modeSet := modeSet d || has_key node "mode" |}.

Definition PrinterConfig_UnmarshalYAML (node : Node) : res goerr PrinterConfig :=
  if is_null node then Ok no_printer
  else if negb (is_kind MappingNode node) then Err (EText "printer must be a YAML mapping")
  else
    p ← decode_printer node;
    Ok {| UpstreamURI := UpstreamURI p; DisplayName := DisplayName p; Location := Location p; Optional := Optional p;
          IPPEverywhereMode := IPPEverywhereMode p; AirPrintMode := AirPrintMode p; DNSSD := DNSSD p;
          GeoLocation := GeoLocation p; RefreshInterval := RefreshInterval p; RefreshRaw := RefreshRaw p;
          Policy := Policy p; Passthrough := Passthrough p; DNS_SD := DNS_SD p;
          ippEverywhereModeSet := ippEverywhereModeSet p || has_key node "ipp_everywhere_mode";
          airPrintModeSet := airPrintModeSet p || has_key node "airprint_mode";
          dnsSDSet := dnsSDSet p || has_key node "dns_sd" |}.

Definition PolicyConfig_UnmarshalYAML (node : Node) : res goerr PolicySection :=
  p ← decode_policy node;
  if negb (is_kind MappingNode node) then Err (EText "policy must be a YAML mapping")
  else Ok {| settings := settings p;
             mediaLegacySet := mediaLegacySet p || has_key node "media";
             mediaSupportedSet := mediaSupportedSet p || has_key node "media_supported";
             mediaDefaultSet := mediaDefaultSet p || has_key node "media_default";
             mediaDefaultsApply := mediaDefaultsApply p |}.

Definition DefaultStatisticsConfig : StatisticsConfig := {|
  Enabled := true; SQLitePath := ""; DetailRetention := 90 * 24 * Hour; CPURetention := 30 * 24 * Hour;
  RollupRetention := 0; QueueSize := 4096; BatchSize := 256; FlushInterval := Second; Resources := true; CPU := true;
  configured := true |}.
Definition no_statistics : StatisticsConfig := {|
  Enabled := false; SQLitePath := ""; DetailRetention := 0; CPURetention := 0; RollupRetention := 0; QueueSize := 0;
  BatchSize := 0; FlushInterval := 0; Resources := false; CPU := false; configured := false |}.

(** One key of the section: the assignments of the switch. *)
Definition statistics_key (s : StatisticsConfig) (key : string) (v : Node) : res goerr StatisticsConfig :=
  let mk en path dr cr rr qs bs fi re cpu := {|
    Enabled := en; SQLitePath := path; DetailRetention := dr; CPURetention := cr; RollupRetention := rr; QueueSize := qs;
    BatchSize := bs; FlushInterval := fi; Resources := re; CPU := cpu; configured := configured s |} in
  let '(en, path, dr, cr, rr) := (Enabled s, SQLitePath s, DetailRetention s, CPURetention s, RollupRetention s) in
  let '(qs, bs, fi, re, cpu) := (QueueSize s, BatchSize s, FlushInterval s, Resources s, CPU s) in
  if (key =? "enabled")%string then x ← decode_bool v en; Ok (mk x path dr cr rr qs bs fi re cpu)
  else if (key =? "sqlite_path")%string then x ← decode_string v path; Ok (mk en x dr cr rr qs bs fi re cpu)
  else if (key =? "resources")%string then x ← decode_bool v re; Ok (mk en path dr cr rr qs bs fi x cpu)
  else if (key =? "cpu")%string then x ← decode_bool v cpu; Ok (mk en path dr cr rr qs bs fi re x)
  else if (key =? "queue_size")%string then x ← decode_int v qs; Ok (mk en path dr cr rr x bs fi re cpu)
  else if (key =? "batch_size")%string then x ← decode_int v bs; Ok (mk en path dr cr rr qs x fi re cpu)
  else if (key =? "detail_retention")%string then x ← parseDurationNode v; Ok (mk en path x cr rr qs bs fi re cpu)
  else if (key =? "cpu_retention")%string then x ← parseDurationNode v; Ok (mk en path dr x rr qs bs fi re cpu)
  else if (key =? "rollup_retention")%string then x ← parseDurationNode v; Ok (mk en path dr cr x qs bs fi re cpu)
  else if (key =? "flush_interval")%string then x ← parseDurationNode v; Ok (mk en path dr cr rr qs bs x re cpu)
  else Ok s.
Fixpoint statistics_keys (s : StatisticsConfig) (l : list (string * Node)) : res goerr StatisticsConfig :=
  match l with
  | [] => Ok s
  | (key, value) :: r =>
      s ← wrapped ("statistics." +:+ key +:+ ": ") (statistics_key s key value);
      statistics_keys s r
  end.
Definition StatisticsConfig_UnmarshalYAML (node : Node) : res goerr StatisticsConfig :=
  if is_null node then Ok DefaultStatisticsConfig
  else if negb (is_kind MappingNode node) then Err (EText "statistics must be a YAML mapping")
  else statistics_keys DefaultStatisticsConfig (pairs (Content node)).

(** ** Defaults *)

Definition normalizeAliases (d : DefaultsConfig) : DefaultsConfig := {|
  limits := zip_limits (fun v a => if (v =? 0) && negb (a =? 0) then a else v) (limits d) (alias d);
  alias := alias d; present := present d |}.

Definition hasValues (d : DefaultsConfig) : bool :=
  let d := normalizeAliases d in
  any_limit (present d) || any_limit (zip_limits (fun v _ => negb (v =? 0)) (limits d) (limits d)).

Definition default_limits : Limits Z := {|
  MaxEnvelopeBytes := 2 ^ 20; MaxDocumentBytes := 2 ^ 30; MaxUpstreamResponseBytes := 32 * 2 ^ 20;
  MaxConcurrentPayloadJobsPerQueue := 2; JobRetention := 30 * 24 * Hour |}.
Definition DefaultsConfig_applyDefaults (d : DefaultsConfig) : DefaultsConfig :=
  let d := normalizeAliases d in
  let l := zip_limits (fun v '(set, default) => if (v =? 0) && negb set then default else v)
             (limits d) (zip_limits pair (present d) default_limits) in
  {| limits := l; alias := l; present := present d |}.

Definition StatisticsConfig_applyDefaults (primary : string) (s : StatisticsConfig) : StatisticsConfig :=
  let s := if negb (configured s) && bool_decide (s = no_statistics) then DefaultStatisticsConfig else s in
  if (SQLitePath s =? "")%string then
    {| Enabled := Enabled s; SQLitePath := primary +:+ ".stats.sqlite"; DetailRetention := DetailRetention s;
       CPURetention := CPURetention s; RollupRetention := RollupRetention s; QueueSize := QueueSize s;
       BatchSize := BatchSize s; FlushInterval := FlushInterval s; Resources := Resources s; CPU := CPU s;
       configured := configured s |}
  else s.

Definition set_media (media : string) (supported : list string) (default : string) (p : PolicyConfig) : PolicyConfig := {|
  pMedia := media; pMediaSupported := supported; pMediaDefault := default; pMediaType := pMediaType p;
  pPrintColorMode := pPrintColorMode p; pMediaSource := pMediaSource p; pPrintScaling := pPrintScaling p;
  pUseMediaCol := pUseMediaCol p; pFidelityMode := pFidelityMode p |}.
Definition with_media (p : PolicySection) (m : string) : PolicySection := {|
  settings := set_media m [m] m (settings p); mediaLegacySet := mediaLegacySet p;
  mediaSupportedSet := mediaSupportedSet p; mediaDefaultSet := mediaDefaultSet p; mediaDefaultsApply := true |}.

Definition legacy_form (p : PolicySection) : bool := mediaLegacySet p || negb (pMedia (settings p) =? "")%string.
Definition new_form (p : PolicySection) : bool :=
  mediaSupportedSet p || mediaDefaultSet p || match pMediaSupported (settings p) with [] => false | _ => true end ||
  negb (pMediaDefault (settings p) =? "")%string.
Definition applyMediaDefaults (p : PolicySection) : PolicySection :=
  if legacy_form p && negb (new_form p) then with_media p (TrimSpace (pMedia (settings p)))
  else if negb (legacy_form p) && negb (new_form p) then with_media p "iso_a4_210x297mm"
  else p.

Definition or_default (value default : string) : string := if (value =? "")%string then default else value.
Definition policy_defaults (p : PolicySection) : PolicySection :=
  let p := applyMediaDefaults p in
  let s := settings p in
  {| settings := {| pMedia := pMedia s; pMediaSupported := pMediaSupported s; pMediaDefault := pMediaDefault s;
                    pMediaType := or_default (pMediaType s) "stationery";
                    pPrintColorMode := or_default (pPrintColorMode s) "monochrome";
                    pMediaSource := pMediaSource s; pPrintScaling := pPrintScaling s; pUseMediaCol := pUseMediaCol s;
                    pFidelityMode := or_default (pFidelityMode s) "warn" |};
     mediaLegacySet := mediaLegacySet p; mediaSupportedSet := mediaSupportedSet p;
     mediaDefaultSet := mediaDefaultSet p; mediaDefaultsApply := mediaDefaultsApply p |}.

Definition default_vendor_attrs : list string :=
  ["ColorModel"; "ColorMode"; "InputSlot"; "PageSize"; "MediaType"; "HPPaperSource"; "BRMediaType"; "RIPaperPolicy"].

(** The body of the loop over the printers. *)
Definition printer_defaults (name : string) (p : PrinterConfig) : PrinterConfig :=
  let dnssd := if dnsSDSet p then DNSSD p else true in
  {| UpstreamURI := UpstreamURI p;
     DisplayName := or_default (DisplayName p) name;
     Location := Location p; Optional := Optional p;
     IPPEverywhereMode :=
       if (IPPEverywhereMode p =? "")%string && negb (ippEverywhereModeSet p) then IPPEverywhereAuto else IPPEverywhereMode p;
     AirPrintMode := if (AirPrintMode p =? "")%string && negb (airPrintModeSet p) then AirPrintAuto else AirPrintMode p;
     DNSSD := dnssd; GeoLocation := GeoLocation p;
     RefreshInterval :=
       if (RefreshRaw p =? "")%string then 5 * Minute
       else match parseFlexibleDuration (RefreshRaw p) with Ok d => d | Err _ => RefreshInterval p end;
     RefreshRaw := RefreshRaw p;
     Policy := policy_defaults (Policy p);
     Passthrough := {| AllowUnknownAttributes := AllowUnknownAttributes (Passthrough p);
                       PreserveJobAttrs := PreserveJobAttrs (Passthrough p);
                       DropVendorAttrs := match DropVendorAttrs (Passthrough p) with
                                          | [] => default_vendor_attrs | l => l end |};
     DNS_SD := dnssd; ippEverywhereModeSet := ippEverywhereModeSet p; airPrintModeSet := airPrintModeSet p;
     dnsSDSet := dnsSDSet p |}.

Definition legacy_mode (p : PrinterConfig) : PrinterConfig := {|
  UpstreamURI := UpstreamURI p; DisplayName := DisplayName p; Location := Location p; Optional := Optional p;
  IPPEverywhereMode := if (IPPEverywhereMode p =? IPPEverywhereRequired)%string then IPPEverywhereAuto else IPPEverywhereMode p;
  AirPrintMode := AirPrintMode p; DNSSD := DNSSD p; GeoLocation := GeoLocation p; RefreshInterval := RefreshInterval p;
  RefreshRaw := RefreshRaw p; Policy := Policy p; Passthrough := Passthrough p; DNS_SD := DNS_SD p;
  ippEverywhereModeSet := ippEverywhereModeSet p; airPrintModeSet := airPrintModeSet p; dnsSDSet := dnsSDSet p |}.

Definition set_printers (f : gmap string PrinterConfig -> gmap string PrinterConfig) (c : Config) : Config := {|
  Listen := Listen c; StoragePath := StoragePath c; Statistics := Statistics c; Defaults := Defaults c;
  LimitsAlias := LimitsAlias c; DNSSDSection := DNSSDSection c; Printers := f (Printers c);
  limitsAliasConflict := limitsAliasConflict c |}.

(** [normalizeLegacyModes]: the configuration, and the warnings in the order of
    the iteration. Each turn writes the entry it reads. *)
Definition legacy_warning (queue : string) : string :=
  "printers." +:+ queue +:+ ".ipp_everywhere_mode=required is deprecated; using auto".
Definition normalizeLegacyModes `{MapRange} (c : Config) : Config * list string :=
  (set_printers (fmap legacy_mode) c,
   legacy_warning ∘ fst <$>
     List.filter (fun '(_, p) => (IPPEverywhereMode p =? IPPEverywhereRequired)%string) (range (Printers c))).

Definition Config_applyDefaults `{MapRange} (c : Config) : Config :=
  let c := fst (normalizeLegacyModes c) in
  let defaultsProvided := hasValues (Defaults c) in
  let limitsProvided := hasValues (LimitsAlias c) in
  let defaults := DefaultsConfig_applyDefaults
                    (if negb defaultsProvided && limitsProvided then LimitsAlias c else Defaults c) in
  let storage := or_default (StoragePath c) "jobs.db" in
  {| Listen := {| Addr := or_default (Addr (Listen c)) ":8631"; PublicBaseURL := PublicBaseURL (Listen c) |};
     StoragePath := storage;
     Statistics := StatisticsConfig_applyDefaults storage (Statistics c);
     Defaults := defaults; LimitsAlias := defaults;
     DNSSDSection :=
       (let d := DNSSDSection c in
        {| Mode := if (Mode d =? "")%string && negb (modeSet d) then DNSModeAuto else Mode d;
           Hostname := Hostname d; Interface := Interface d; AllowedAliases := AllowedAliases d; modeSet := modeSet d |});
     Printers := map_imap (fun name p => Some (printer_defaults name p)) (Printers c);
     limitsAliasConflict := limitsAliasConflict c || (defaultsProvided && limitsProvided) |}.
End unmarshal.

(** ** Validation *)

(** The text of the errors of [url.Parse], of which the program only shows the
    text. *)
Class UrlErrors := { parse_error : string -> goerr }.

Definition isASCIIAlpha (c : ascii) : bool := is_lower c || is_upper c.
Definition isASCIIDigit (c : ascii) : bool := is_digit c.
Definition keyword_char (c : ascii) : bool := isASCIIAlpha c || isASCIIDigit c || in_set "-_." c.

(** The first byte that does not satisfy [p]. *)
Fixpoint first_not (p : ascii -> bool) (s : string) : option ascii :=
  match s with EmptyString => None | String c r => if p c then first_not p r else Some c end.

Definition validateKeyword (value : string) : res goerr unit :=
  if (value =? "")%string then Err (EText "must not be empty")
  else if (255 <? slen value)%nat then Err (EText "must not exceed 255 characters")
  else match first_not keyword_char value with
       | None => Ok tt
       | Some ch => Err (EText ("contains invalid keyword character " +:+ QuoteRune ch))
       end.

Definition validateQueueName (name : string) : res goerr unit :=
  _ ← wrapped "invalid queue name: " (validateKeyword name);
  match name with
  | String first _ => ensure (isASCIIAlpha first) (EText "queue name must start with a letter")
  | EmptyString => Ok tt
  end.

Fixpoint keyword_list (field : string) (seen : gset string) (i : nat) (values : list string) : res goerr unit :=
  match values with
  | [] => Ok tt
  | raw :: r =>
      let value := TrimSpace raw in
      _ ← wrapped (field +:+ "[" +:+ Itoa (Z.of_nat i) +:+ "]: ") (validateKeyword value);
      let key := ToLower value in
      if bool_decide (key ∈ seen) then Err (EText (field +:+ " contains duplicate value " +:+ Quote raw))
      else keyword_list field ({[key]} ∪ seen) (Datatypes.S i) r
  end.
Definition validateKeywordList (field : string) (values : list string) : res goerr unit := keyword_list field ∅ 0 values.

Definition validatePassthrough (p : PassthroughConfig) : res goerr unit :=
  _ ← validateKeywordList "preserve_job_attrs" (PreserveJobAttrs p);
  validateKeywordList "drop_vendor_attrs" (DropVendorAttrs p).

(** The loop over [media_supported]: the set of names seen. *)
Fixpoint media_list (seen : gset string) (i : nat) (values : list string) : res goerr (gset string) :=
  match values with
  | [] => Ok seen
  | raw :: r =>
      let value := TrimSpace raw in
      let place := "media_supported[" +:+ Itoa (Z.of_nat i) +:+ "]" in
      if (value =? "")%string then Err (EText (place +:+ " must not be empty")) else
      _ ← wrapped (place +:+ ": ") (validateKeyword value);
      let key := ToLower value in
      if bool_decide (key ∈ seen) then Err (EText ("media_supported contains duplicate value " +:+ Quote raw))
      else media_list ({[key]} ∪ seen) (Datatypes.S i) r
  end.

Definition validatePolicyMedia (p : PolicySection) : res goerr unit :=
  let s := settings p in
  let legacy := legacy_form p in
  let newForm := new_form p in
  if legacy && newForm && negb (mediaDefaultsApply p)
  then Err (EText "media cannot be combined with media_supported or media_default")
  else if newForm || mediaDefaultsApply p then
    if match pMediaSupported s with [] => true | _ => false end
    then Err (EText "media_supported must contain at least one value")
    else if (TrimSpace (pMediaDefault s) =? "")%string
    then Err (EText "media_default is required when media_supported is configured")
    else
      seen ← media_list ∅ 0 (pMediaSupported s);
      _ ← wrapped "media_default: " (validateKeyword (TrimSpace (pMediaDefault s)));
      ensure (bool_decide (ToLower (TrimSpace (pMediaDefault s)) ∈ seen))
        (EText ("media_default " +:+ Quote (pMediaDefault s) +:+ " is not in media_supported"))
  else if (pMedia s =? "")%string then Err (EText "media or media_supported is required")
  else if (TrimSpace (pMedia s) =? "")%string then Err (EText "media must not be empty")
  else wrapped "media: " (validateKeyword (TrimSpace (pMedia s))).

Definition optional_keyword (field value : string) : res goerr unit :=
  if (value =? "")%string then Ok tt else wrapped (field +:+ ": ") (validateKeyword value).
Definition pointed_keyword (field : string) (value : option string) : res goerr unit :=
  match value with
  | Some v => wrapped (field +:+ ": ") (validateKeyword (TrimSpace v))
  | None => Ok tt
  end.
Definition validatePolicyKeywords (p : PolicySection) : res goerr unit :=
  let s := settings p in
  _ ← optional_keyword "media_type" (pMediaType s);
  _ ← optional_keyword "print_color_mode" (pPrintColorMode s);
  _ ← pointed_keyword "media_source" (pMediaSource s);
  pointed_keyword "print_scaling" (pPrintScaling s).

Definition validateDefaults (d : DefaultsConfig) : res goerr unit :=
  let l := limits (normalizeAliases d) in
  _ ← ensure (0 <? MaxEnvelopeBytes l) (EText "max_envelope_bytes must be positive");
  _ ← ensure (0 <? MaxDocumentBytes l) (EText "max_document_bytes must be positive");
  _ ← ensure (0 <? MaxUpstreamResponseBytes l) (EText "max_upstream_response_bytes must be positive");
  _ ← ensure (0 <? MaxConcurrentPayloadJobsPerQueue l) (EText "max_concurrent_payload_jobs_per_queue must be positive");
  _ ← ensure (0 <? JobRetention l) (EText "job_retention must be positive");
  ensure (MaxEnvelopeBytes l <=? MaxDocumentBytes l) (EText "max_envelope_bytes must not exceed max_document_bytes").

(** The test of one label of a hostname. *)
Definition valid_label (label : string) : bool :=
  negb (label =? "")%string && (slen label <=? 63)%nat && negb (HasPrefix label "-") && negb (HasSuffix label "-") &&
  sall (fun c => isASCIIAlpha c || isASCIIDigit c || Ascii.eqb c "-") label.
Definition validateHostname (hostname : string) : res goerr unit :=
  let value := TrimSuffix hostname "." in
  ensure (negb (value =? "")%string && (slen value <=? 253)%nat && forallb valid_label (Split value "."))
    (EText "must be a valid hostname").

Definition validateHostAlias (raw : string) : res goerr unit :=
  let err := EText "must be a hostname or IP address without a port" in
  if negb (TrimSpace raw =? raw)%string || (raw =? "")%string then Err err
  else if ParseIP raw then Ok tt
  else ensure (is_ok (validateHostname raw)) err.

Definition canonicalHost (raw : string) : string := ToLower (TrimSuffix (TrimSpace raw) ".").

Fixpoint alias_list (seen : gset string) (i : nat) (l : list string) : res goerr unit :=
  match l with
  | [] => Ok tt
  | raw :: r =>
      let place := "allowed_aliases[" +:+ Itoa (Z.of_nat i) +:+ "]: " in
      _ ← wrapped place (validateHostAlias raw);
      let key := canonicalHost raw in
      if bool_decide (key ∈ seen) then Err (EText (place +:+ "duplicate alias"))
      else alias_list ({[key]} ∪ seen) (Datatypes.S i) r
  end.

Definition space_or_control (c : ascii) : bool := is_space c || is_control c.
Definition validateDNSSD (d : DNSSDConfig) : res goerr unit :=
  _ ← ensure (in_strings (Mode d) [DNSModeAuto; DNSModeOff]) (EText "mode must be auto or off");
  _ ← (if (Hostname d =? "")%string then Ok tt else wrapped "hostname: " (validateHostname (Hostname d)));
  _ ← alias_list ∅ 0 (AllowedAliases d);
  _ ← ensure (negb (ContainsFunc (Interface d) space_or_control))
        (EText "interface must not contain whitespace or control characters");
  ensure (slen (Interface d) <=? 255)%nat (EText "interface must not exceed 255 characters").

Definition validIPPEverywhereMode (mode : string) : bool := in_strings mode [IPPEverywhereDisabled; IPPEverywhereAuto].
Definition validAirPrintMode (mode : string) : bool :=
  in_strings mode [AirPrintDisabled; AirPrintAuto; AirPrintEmulateIfMissing].

(** The comparisons of a coordinate with its bounds. *)
Definition outside (x : float64) (bound : Z) : bool := flt x (float64_of_Z (- bound)) || flt (float64_of_Z bound) x.

Definition validateGeoLocation (raw : string) : res goerr unit :=
  let value := TrimSpace raw in
  if negb (value =? raw)%string || negb (HasPrefix (ToLower value) "geo:")
  then Err (EText "must be a geo URI (geo:latitude,longitude[,altitude])") else
  let '(head, tail, found) := cut ";" (sdrop 4 value) in
  let number bound raw := match parseFiniteFloat raw with Ok x => negb (outside x bound) | Err _ => false end in
  match Split head "," with
  | c0 :: c1 :: more =>
      _ ← ensure (match more with [] | [_] => true | _ => false end) (EText "must contain latitude and longitude");
      _ ← ensure (number 90 c0) (EText "latitude must be between -90 and 90");
      _ ← ensure (number 180 c1) (EText "longitude must be between -180 and 180");
      _ ← (match more with
           | [c2] => ensure (is_ok (parseFiniteFloat c2)) (EText "altitude must be a finite number")
           | _ => Ok tt
           end);
      if found then
        _ ← ensure (HasPrefix tail "u=") (EText "uncertainty parameter must use u=");
        ensure (match parseFiniteFloat (TrimPrefix tail "u=") with
                | Ok u => negb (flt u (float64_of_Z 0)) | Err _ => false end)
          (EText "uncertainty must be non-negative")
      else Ok tt
  | _ => Err (EText "must contain latitude and longitude")
  end.

Section validation.
Context `{I : IPLiterals} `{U : UrlErrors} `{P : Platform} `{F : FileSystem} `{R : MapRange}.

Definition valid_port (port : string) : bool :=
  match Atoi port with Some v => (1 <=? v) && (v <=? 65535) | None => false end.

Definition validateIPPURI (raw : string) : res goerr unit :=
  if negb (TrimSpace raw =? raw)%string || ContainsFunc raw space_or_control
  then Err (EText "must not contain whitespace or control characters") else
  match Parse raw with
  | None => Err (EWrap "invalid URI: " (parse_error raw))
  | Some u =>
      _ ← ensure (in_strings (ToLower (Scheme u)) ["ipp"; "ipps"]) (EText "scheme must be ipp or ipps");
      _ ← ensure ((Opaque u =? "")%string && negb (Host u =? "")%string && negb (GoUrl.Hostname u =? "")%string)
            (EText "must include a host");
      _ ← ensure ((Port u =? "")%string || valid_port (Port u)) (EText "port must be between 1 and 65535");
      ensure (Fragment u =? "")%string (EText "must not contain a fragment")
  end.

Definition validatePublicIPPURI (raw : string) : res goerr unit :=
  _ ← validateIPPURI raw;
  match Parse raw with
  | None => Ok tt
  | Some u =>
      _ ← ensure (EqualFold (Scheme u) "ipp") (EText "public endpoint must use ipp; ipps is not supported yet");
      _ ← ensure (RawQuery u =? "")%string (EText "public endpoint must not contain a query");
      ensure (in_strings (TrimRight (EscapedPath u) "/") ["/printers"; "/ipp"])
        (EText "public endpoint path must be /printers or /ipp")
  end.

(** [StatisticsConfig.validate] *)
Definition validateStatistics (s : StatisticsConfig) (primary : string) : res goerr unit :=
  if negb (Enabled s) then Ok tt else
  _ ← ensure ((1 <=? QueueSize s) && (QueueSize s <=? 1000000)) (EText "queue_size must be between 1 and 1000000");
  _ ← ensure ((1 <=? BatchSize s) && (BatchSize s <=? QueueSize s))
        (EText "batch_size must be positive and no greater than queue_size");
  _ ← ensure (0 <? FlushInterval s) (EText "flush_interval must be positive");
  _ ← ensure (negb ((DetailRetention s <? 0) || (CPURetention s <? 0) || (RollupRetention s <? 0)))
        (EText "retention periods must be nonnegative (0 means indefinitely)");
  _ ← ensure (negb (SQLitePath s =? "")%string) (EText "sqlite_path must not be empty");
  a ← Abs primary;
  b ← Abs (SQLitePath s);
  _ ← ensure (negb (a =? b)%string) (EText "sqlite_path must differ from storage.sqlite_path");
  ensure (match Stat a, Stat b with Some x, Some y => negb (x =? y) | _, _ => true end)
    (EText "sqlite_path must differ from storage.sqlite_path").

(** The body of the loop over the printers. *)
Definition validatePrinter (name : string) (p : PrinterConfig) : res goerr unit :=
  let at_ := "printers." +:+ name in
  let s := settings (Policy p) in
  _ ← wrapped (at_ +:+ ": ") (validateQueueName name);
  _ ← ensure (negb (UpstreamURI p =? "")%string) (EText (at_ +:+ ".upstream_uri is required"));
  _ ← wrapped (at_ +:+ ".upstream_uri: ") (validateIPPURI (UpstreamURI p));
  _ ← ensure ((RefreshRaw p =? "")%string || negb (RefreshInterval p =? 0)) (EText (at_ +:+ ".refresh_interval is invalid"));
  _ ← ensure ((RefreshRaw p =? "")%string ||
              match parseFlexibleDuration (RefreshRaw p) with Ok d => 0 <? d | Err _ => false end)
        (EText (at_ +:+ ".refresh_interval must be positive"));
  _ ← ensure (validIPPEverywhereMode (IPPEverywhereMode p))
        (EText (at_ +:+ ".ipp_everywhere_mode must be one of disabled, auto"));
  _ ← ensure (validAirPrintMode (AirPrintMode p)) (EText (at_ +:+ ".airprint_mode must be one of disabled, auto"));
  _ ← (if (GeoLocation p =? "")%string then Ok tt
       else wrapped (at_ +:+ ".geo_location: ") (validateGeoLocation (GeoLocation p)));
  _ ← wrapped (at_ +:+ ".passthrough: ") (validatePassthrough (Passthrough p));
  _ ← wrapped (at_ +:+ ".policy: ") (validatePolicyMedia (Policy p));
  _ ← wrapped (at_ +:+ ".policy: ") (validatePolicyKeywords (Policy p));
  _ ← ensure (negb (pPrintColorMode s =? "")%string) (EText (at_ +:+ ".policy.print_color_mode is required"));
  ensure (in_strings (pFidelityMode s) ["warn"; "reject"]) (EText (at_ +:+ ".policy.fidelity_mode must be warn or reject")).

(** [Validate] also writes the normalised modes into the configuration. *)
Definition validate (c : Config) : res goerr unit :=
  _ ← ensure (negb (PublicBaseURL (Listen c) =? "")%string) (EText "listen.public_base_url is required");
  _ ← wrapped "listen.public_base_url: " (validatePublicIPPURI (PublicBaseURL (Listen c)));
  _ ← ensure (negb (limitsAliasConflict c)) (EText "defaults and limits cannot both be configured");
  _ ← wrapped "defaults: " (validateDefaults (Defaults c));
  _ ← wrapped "statistics: " (validateStatistics (Statistics c) (StoragePath c));
  _ ← wrapped "dns_sd: " (validateDNSSD (DNSSDSection c));
  _ ← ensure (negb (bool_decide (Printers c = ∅))) (EText "at least one printer is required");
  each (fun _ '(name, printer) => validatePrinter name printer) 0 (range (Printers c)).
Definition Validate (c : Config) : res goerr unit * Config :=
  let c := fst (normalizeLegacyModes c) in (validate c, c).
End validation.

(** ** Unknown keys *)

#[warnings="-register-all"]
Inductive yamlSchema := mkSchema (fields : list (string * yamlSchema)) (dynamic : bool).
Definition schema_fields (s : yamlSchema) : list (string * yamlSchema) := let 'mkSchema f _ := s in f.
Definition schema_dynamic (s : yamlSchema) : bool := let 'mkSchema _ d := s in d.
Definition keyword : yamlSchema := mkSchema [] false.
Definition objectSchema (fields : list (string * yamlSchema)) : yamlSchema := mkSchema fields false.
Definition dynamicSchema (child : yamlSchema) : yamlSchema := mkSchema (schema_fields child) true.
Definition schema_field (s : yamlSchema) (key : string) : option yamlSchema :=
  snd <$> List.find (fun f => (fst f =? key)%string) (schema_fields s).
Definition keywords (names : list string) : list (string * yamlSchema) := (fun n => (n, keyword)) <$> names.

Definition printer_schema : yamlSchema := objectSchema
  (keywords ["upstream_uri"; "display_name"; "location"; "optional"; "ipp_everywhere_mode"; "airprint_mode"; "dns_sd";
             "geo_location"; "refresh_interval"] ++
   [("policy", objectSchema (keywords
       ["media"; "media_supported"; "media_default"; "media_type"; "print_color_mode"; "media_source"; "print_scaling";
        "use_media_col"; "fidelity_mode"]));
    ("passthrough", objectSchema (keywords ["allow_unknown_attributes"; "preserve_job_attrs"; "drop_vendor_attrs"]))]).
Definition defaults_schema : yamlSchema := objectSchema (keywords
  ["max_envelope_bytes"; "envelope"; "envelope_max_bytes"; "max_document_bytes"; "document"; "document_max_bytes";
   "max_upstream_response_bytes"; "upstream_response"; "upstream_response_max_bytes";
   "max_concurrent_payload_jobs_per_queue"; "concurrent_payload_jobs_per_queue"; "job_retention"; "retention"]).
Definition statistics_schema : yamlSchema := objectSchema (keywords
  ["enabled"; "sqlite_path"; "detail_retention"; "cpu_retention"; "rollup_retention"; "queue_size"; "batch_size";
   "flush_interval"; "resources"; "cpu"]).
Definition configYAMLSchema : yamlSchema := objectSchema
  [("listen", objectSchema (keywords ["addr"; "public_base_url"]));
   ("storage", objectSchema (keywords ["sqlite_path"]));
   ("statistics", statistics_schema);
   ("dns_sd", objectSchema (keywords ["mode"; "hostname"; "interface"; "allowed_aliases"]));
   ("defaults", defaults_schema);
   ("limits", defaults_schema);
   ("printers", dynamicSchema printer_schema)].

(** What the logger is told. *)
#[warnings="-register-all"]
Inductive warning := UnknownKey (key : string) | DeprecatedKey (key : string) | DeprecatedValue (text : string).

Definition join_path (path key : string) : string := if (path =? "")%string then key else path +:+ "." +:+ key.
Definition deprecated_key (path : string) : bool :=
  (path =? "passthrough.allow_unknown_attributes")%string || HasSuffix path ".passthrough.allow_unknown_attributes".

(** [walkUnknownKeys] and, for a dynamic schema, [walkDynamicKeys]: the keys of
    the mapping are names of queues, and its values follow the schema. *)
Fixpoint walkUnknownKeys (n : Node) (s : yamlSchema) (path : string) {struct n} : list warning :=
  match n with
  | mkNode DocumentNode _ _ content =>
      match content with c :: _ => walkUnknownKeys c s path | [] => [] end
  | mkNode MappingNode _ _ content =>
      (fix keys (l : list Node) : list warning :=
         match l with
         | k :: v :: r =>
             let fullPath := join_path path (Value k) in
             match schema_field s (Value k) with
             | None => UnknownKey fullPath :: keys r
             | Some child =>
                 (if deprecated_key fullPath then [DeprecatedKey fullPath] else []) ++
                 (if schema_dynamic child then
                    match v with
                    | mkNode MappingNode _ _ entries =>
                        (fix queues (l : list Node) : list warning :=
                           match l with
                           | q :: w :: r =>
                               walkUnknownKeys w (mkSchema (schema_fields child) false) (fullPath +:+ "." +:+ Value q) ++ queues r
                           | _ => []
                           end) entries
                    | _ => []
                    end
                  else walkUnknownKeys v child fullPath) ++ keys r
             end
         | _ => []
         end) content
  | _ => []
  end.
Definition warnUnknownKeys (node : Node) : list warning := walkUnknownKeys node configYAMLSchema "".

(** ** Loading *)

(** The contents of a file. *)
Class Files := { ReadFile : string -> res goerr string }.

Section load.
Context `{I : IPLiterals} `{U : UrlErrors} `{P : Platform} `{F : FileSystem} `{R : MapRange} `{Y : YAML} `{D : Files}.

Definition LoadWithLogger (path : string) : res goerr Config * list warning :=
  match ReadFile path ≫= Unmarshal with
  | Err e => (Err e, [])
  | Ok document =>
      let unknown := match Content document with n :: _ => warnUnknownKeys n | [] => [] end in
      match decode_config document with
      | Err e => (Err e, unknown)
      | Ok cfg =>
          let '(cfg, warnings) := normalizeLegacyModes cfg in
          let '(r, cfg) := Validate (Config_applyDefaults cfg) in
          (_ ← r; Ok cfg, unknown ++ (DeprecatedValue <$> warnings))
      end
  end.
End load.

(** ** An example *)

Definition example_node : Node :=
  let scalar s := mkNode ScalarNode "!!str" s [] in
  let mapping l := mkNode MappingNode "!!map" "" l in
  mapping [scalar "defaults"; mapping [scalar "document"; scalar "2GiB"; scalar "extra"; scalar "1"];
           scalar "printers"; mapping [scalar "office"; mapping
             [scalar "upstream_uri"; scalar "ipp://p/ipp/print";
              scalar "passthrough"; mapping [scalar "allow_unknown_attributes"; scalar "true"]; scalar "colour"; scalar "x"]]].
Example example_warnings :
  warnUnknownKeys example_node =
  [UnknownKey "defaults.extra"; DeprecatedKey "printers.office.passthrough.allow_unknown_attributes";
   UnknownKey "printers.office.colour"].
Proof. vm_compute. reflexivity. Qed.

(** A machine that answers the least integer, and one that saturates. *)
#[export, refine] Instance amd64 : Platform := {| float_overflow _ := minI64 |}.
Proof. intros _. unfold minI64, maxI64. lia. Defined.
Definition saturating (x : float64) : Z :=
  match x with S754_infinity s | S754_finite s _ _ => if s then minI64 else maxI64 | _ => 0 end.
#[refine] Definition arm64 : Platform := {| float_overflow := saturating |}.
Proof. intros x. unfold saturating, minI64, maxI64. repeat case_match; lia. Defined.

Example byte_limits :
  parseByteLimit " 1.5 MiB " = Ok 1572864 /\ parseByteLimit "10" = Ok 10 /\ parseByteLimit "2e3kb" = Ok 2000000 /\
  is_ok (parseByteLimit "0.5") = false /\ is_ok (parseByteLimit "-1") = false /\ is_ok (parseByteLimit "16 EiB") = false.
Proof. vm_compute. done. Qed.
Example flexible_durations :
  parseFlexibleDuration "1.5d" = Ok (36 * Hour) /\ parseFlexibleDuration "90m" = Ok (90 * Minute) /\
  is_ok (parseFlexibleDuration "200000d") = false.
Proof. vm_compute. done. Qed.
Example geo_locations :
  validateGeoLocation "geo:50.08,14.42,200;u=10" = Ok tt /\ is_ok (validateGeoLocation "geo:91,0") = false /\
  is_ok (validateGeoLocation "geo:1,2,3,4") = false /\ is_ok (validateGeoLocation "geo:1,nan") = false.
Proof. vm_compute. done. Qed.
