(* ===== verification/PrinterDescription.v ===== *)
(** * The description of a queue ([internal/proxy/capabilities.go], second half)

    The attributes a client of the queue is shown: what may pass from the
    printer, the media of the catalog and those that are ready, the operations,
    the identity of the proxy ([internal/proxy/identity.go]), and the document
    formats of the routes ([internal/proxy/routing.go]).

    The names of a queue's ready media are kept in a Go map, which is visited
    in any order ([MapRange]). *)

From Stdlib Require Import ZArith Lia Ascii String.
From stdpp Require Import base tactics list strings gmap.
From S2P Require Import Configuration Urf Routing.
From S2P Require Import Prelude GoString GoTime Goipp IppAttrs MediaCatalog Normalizer Formats.

(** The part of a printer's configuration the job operations use. *)
Definition service_printer (p : Configuration.PrinterConfig) : PrinterConfig := {|
  UpstreamURI := Configuration.UpstreamURI p; Policy := settings (Configuration.Policy p);
  AirPrintMode := Configuration.AirPrintMode p;
  DropVendorAttrs := Configuration.DropVendorAttrs (Passthrough p);
  PreserveJobAttrs := Configuration.PreserveJobAttrs (Passthrough p) |}.

(** ** What passes *)

Definition constrainedPrinterAttrs : list string :=
  ["operations-supported"; "printer-uri-supported"; "printer-name"; "printer-info"; "printer-location";
   "printer-uuid"; "printer-up-time"; "printer-config-change-time"; "printer-config-change-date-time";
   "media-supported"; "media-default"; "media-col-supported"; "media-col-default"; "media-col-database";
   "media-col-ready"; "media-size-supported"; "media-type-supported"; "media-type-default";
   "media-source-supported"; "media-source-default"; "overrides-supported"; "media-ready";
   "print-color-mode-supported"; "print-color-mode-default"; "color-supported"; "output-mode-supported";
   "output-mode-default"; "multiple-document-jobs-supported"; "pwg-raster-document-type-supported";
   "pwg-raster-document-resolution-supported"; "pwg-raster-document-sheet-back"; "urf-supported";
   "pages-per-minute-color"]%string.

Definition constrainedPrinterAttrSet : gset string :=
  name_set constrainedPrinterAttrs ∪
  list_to_set ["document-format-supported"; "document-format-default"; "document-format-preferred";
               "ipp-features-supported"; "pwg-raster-document-resolution-supported";
               "pwg-raster-document-sheet-back"]%string.

Definition safePassthroughPrinterAttrs : list string :=
  ["charset-configured"; "charset-supported"; "natural-language-configured"; "generated-natural-language-supported";
   "compression-supported"; "copies-default"; "copies-supported"; "finishings-default"; "finishings-supported";
   "orientation-requested-default"; "orientation-requested-supported"; "output-bin-default"; "output-bin-supported";
   "page-ranges-supported"; "number-up-default"; "number-up-supported";
   "presentation-direction-number-up-default"; "presentation-direction-number-up-supported";
   "print-quality-default"; "print-quality-supported"; "print-scaling-default"; "print-scaling-supported";
   "printer-kind"; "printer-make-and-model"; "printer-more-info"; "printer-icons";
   "printer-state"; "printer-state-reasons"; "printer-is-accepting-jobs"; "sides-default"; "sides-supported";
   "printer-resolution-default"; "printer-resolution-supported"; "pdf-versions-supported"; "jpeg-features-supported";
   "jpeg-k-octets-supported"; "jpeg-x-dimension-supported"; "jpeg-y-dimension-supported";
   "job-creation-attributes-supported"]%string.

Definition passes (attr : Attribute) : bool :=
  let name := ToLower (TrimSpace (aName attr)) in
  negb (bool_decide (name ∈ constrainedPrinterAttrSet)) && in_strings name safePassthroughPrinterAttrs.
Definition filteredPassthroughPrinterAttributes (upstream : Attributes) : Attributes := List.filter passes upstream.

(** ** Media *)

Definition is_blank (c : ascii) : bool := (code c =? 32) || (code c =? 9) || (code c =? 13) || (code c =? 10).
Definition validMediaSizeName (name : string) : bool :=
  let name := TrimSpace name in negb (name =? "")%string && negb (ContainsFunc name is_blank).

Definition mediaColSupportedNames (catalog : mediaCatalog) (policy : PolicyConfig) : list string :=
  let any {A} (field : mediaSize -> option A) := existsb (fun s => bool_decide (is_Some (field s))) (Instances catalog) in
  let name (b : bool) (n : string) := if b then [n] else [] in
  name (existsb (fun s => validMediaSizeName (Name s)) (Sizes catalog)) "media-size-name"%string ++
  name (existsb HasDimension (Sizes catalog)) "media-size"%string ++
  name (negb (TrimSpace (pMediaType policy) =? "")%string || any MediaType) "media-type"%string ++
  name (any BottomMargin) "media-bottom-margin"%string ++
  name (any LeftMargin) "media-left-margin"%string ++
  name (any RightMargin) "media-right-margin"%string ++
  name (any TopMargin) "media-top-margin"%string ++
  name (negb (policyMediaSource policy =? "")%string || any MediaSource) "media-source"%string.

(** A text, or the other one when it is empty. *)
Definition or_text (text : string) (other : option string) : string :=
  if (text =? "")%string then default ""%string other else text.

(** Whether two sizes are the same instance of a medium with equal dimensions. *)
Definition containsReadyInstance (sizes : list mediaSize) (wanted : mediaSize) : bool :=
  existsb (fun s => sameMediaInstance s wanted && dimensionsEqual s wanted) sizes.
Definition hasReadyName (sizes : list mediaSize) (name : string) : bool :=
  existsb (fun s => (mediaNameKey (Name s) =? name)%string) sizes.

(** Points for a member both sides have; [None] when they disagree. *)
Definition points {A B} (wanted : option A) (has : option B) (same : A -> B -> bool) (n : Z) : option Z :=
  match wanted with
  | None => Some 0
  | Some x => match has with Some y => if same x y then Some n else None | None => None end
  end.
(** The dimensions of a size that has some. *)
Definition dims_of (s : mediaSize) : option mediaSize := if HasDimension s then Some s else None.

(** How well an instance fits a collection of the printer; [None] is [continue]. *)
Definition collection_score (c : mediaCollection) (s : mediaSize) : option Z :=
  let same_name n := EqualFold (TrimSpace n) (TrimSpace (Name s)) in
  let by_alias := existsb same_name (cnames c) in
  let by_name := negb (Name (size c) =? "")%string && same_name (Name (size c)) in
  let nameMatch := by_alias || by_name in
  let score := (if by_alias then 4 else 0) + (if by_name then 4 else 0) +
               (if negb nameMatch && HasDimension (size c) && dimensionsEqual (size c) s then 2 else 0) in
  if negb nameMatch && (score =? 0) then None else
  source ← points (MediaSource (size c)) (MediaSource s) EqualFold 3;
  type ← points (MediaType (size c)) (MediaType s) EqualFold 3;
  dims ← points (dims_of (size c)) (dims_of s) dimensionsEqual 2;
  Some (score + source + type + dims).

(** The loop of [catalogIndexForCollection], from [index] on, with the best
    index and score so far. *)
Fixpoint best_index (c : mediaCollection) (sizes : list mediaSize) (index bestIndex bestScore : Z) : Z :=
  match sizes with
  | [] => bestIndex
  | s :: r =>
      match collection_score c s with
      | Some score => if bestScore <? score then best_index c r (index + 1) index score
                      else best_index c r (index + 1) bestIndex bestScore
      | None => best_index c r (index + 1) bestIndex bestScore
      end
  end.
Definition catalogIndexForCollection (c : mediaCollection) (catalog : mediaCatalog) : Z :=
  best_index c (Instances catalog) 0 (-1) (-1).

Definition overlayMediaSize (dst src : mediaSize) : mediaSize := {|
  Name := Name dst;
  XDimension := if HasDimension src then XDimension src else XDimension dst;
  YDimension := if HasDimension src then YDimension src else YDimension dst;
  HasDimension := HasDimension src || HasDimension dst;
  MediaType := first_some (MediaType src) (MediaType dst);
  MediaSource := first_some (MediaSource src) (MediaSource dst);
  Ready := Ready dst || Ready src;
  BottomMargin := first_some (BottomMargin src) (BottomMargin dst);
  LeftMargin := first_some (LeftMargin src) (LeftMargin dst);
  RightMargin := first_some (RightMargin src) (RightMargin dst);
  TopMargin := first_some (TopMargin src) (TopMargin dst);
  aliases := aliases dst |}.

(** [size.Ready = true] *)
Definition made_ready (s : mediaSize) : mediaSize := set_names (Name s) (aliases s) true s.

(** The instance of the catalog a collection of [media-col-ready] resolves to. *)
Definition resolve_ready (catalog : mediaCatalog) (v : Value) : option mediaSize :=
  c ← mediaCollectionFromValue v;
  let index := catalogIndexForCollection c catalog in
  if index <? 0 then None
  else (fun s => made_ready (overlayMediaSize s (size c))) <$> Instances catalog !! Z.to_nat index.

Definition add_ready (catalog : mediaCatalog) (sizes : list mediaSize) (tv : TValue) : list mediaSize :=
  match resolve_ready catalog (val_V tv) with
  | Some s => if containsReadyInstance sizes s then sizes else sizes ++ [s]
  | None => sizes
  end.

(** The keys of the [media-ready] of the printer. *)
Definition upstream_ready (upstream : Attributes) : gmap string unit :=
  match Attr upstream "media-ready" ≫= attributeStrings with
  | Some values => list_to_map (map (fun v => (mediaNameKey v, tt)) values)
  | None => ∅
  end.

(** A name that no resolved collection has gets the preferred instance. *)
Definition add_ready_name (catalog : mediaCatalog) (sizes : list mediaSize) (key : string) : list mediaSize :=
  if hasReadyName sizes key then sizes
  else match ByName catalog !! key with Some s => sizes ++ [made_ready s] | None => sizes end.

(** The first name of each key. *)
Fixpoint distinct_names (seen : gset string) (sizes : list mediaSize) : list string :=
  match sizes with
  | [] => []
  | s :: r =>
      let key := mediaNameKey (Name s) in
      if bool_decide (key ∈ seen) then distinct_names seen r else Name s :: distinct_names ({[key]} ∪ seen) r
  end.

Section description.
Context `{G : GoippLib}.

Definition size_members (s : mediaSize) : list Attribute :=
  if HasDimension s then [Integer "x-dimension" (XDimension s); Integer "y-dimension" (YDimension s)] else [].

Definition mediaSizeSupportedAttr (sizes : list mediaSize) : option Attribute :=
  match map (fun s => VCollection (size_members s)) (List.filter HasDimension sizes) with
  | [] => None
  | v :: r => Some (MakeAttr "media-size-supported" TagBeginCollection v r)
  end.

Definition known_margins (s : mediaSize) : list Attribute :=
  let margin n (m : option Z) := match m with Some z => [Integer n z] | None => [] end in
  margin "media-bottom-margin"%string (BottomMargin s) ++ margin "media-left-margin"%string (LeftMargin s) ++
  margin "media-right-margin"%string (RightMargin s) ++ margin "media-top-margin"%string (TopMargin s).
Definition appendKnownMargins (members : Attributes) (s : mediaSize) : Attributes := members ++ known_margins s.

(** A keyword member, unless it is empty. *)
Definition keyword_unless_empty (name value : string) : Attributes :=
  if (value =? "")%string then [] else [Keyword name value].

Definition mediaColDescriptionAttr (name : string) (s : mediaSize) (mediaType mediaSource : string) : Attribute :=
  let members :=
    (if validMediaSizeName (Name s) then [Keyword "media-size-name" (Name s)] else []) ++
    match size_members s with
    | [] => []
    | m :: r => [MakeAttrCollection "media-size" m r]
    end ++
    keyword_unless_empty "media-type" (or_text mediaType (MediaType s)) ++
    keyword_unless_empty "media-source" (or_text mediaSource (MediaSource s)) in
  MakeAttribute name TagBeginCollection (VCollection (appendKnownMargins members s)).

(** The descriptions of a list of sizes as the values of one attribute. *)
Definition description_attr (name : string) (sizes : list mediaSize) (mediaType mediaSource : string) : Attribute :=
  match omap (fun s => match aValues (mediaColDescriptionAttr name s mediaType mediaSource) with
                       | (_, v) :: _ => Some v | [] => None end) sizes with
  | [] => (name, [])
  | v :: r => MakeAttr name TagBeginCollection v r
  end.
Definition mediaColDatabaseAttrWithSource (sizes : list mediaSize) (mediaType mediaSource : string) : Attribute :=
  description_attr "media-col-database" sizes mediaType mediaSource.
Definition mediaColReadyAttr (sizes : list mediaSize) (mediaType mediaSource : string) : Attribute :=
  description_attr "media-col-ready" sizes mediaType mediaSource.

Definition ready_sizes `{MapRange} (upstream : Attributes) (catalog : mediaCatalog) : list mediaSize :=
  let resolved := match Attr upstream "media-col-ready" with
                  | Some attr => fold_left (add_ready catalog) (aValues attr) []
                  | None => []
                  end in
  fold_left (add_ready_name catalog) (range (upstream_ready upstream)).*1 resolved.

Definition filteredReadyAttributes `{MapRange} (upstream : Attributes) (catalog : mediaCatalog)
    (policy : PolicyConfig) : Attributes :=
  match ready_sizes upstream catalog with
  | [] => []
  | readySizes =>
      (match distinct_names ∅ readySizes with [] => [] | names => [Keywords "media-ready" names] end) ++
      [mediaColReadyAttr readySizes (pMediaType policy) (policyMediaSource policy)]
  end.

(** ** Operations *)

Definition operationsSupportedAttrFor (ops : list Z) : Attribute :=
  match map VInteger (match ops with [] => [OpGetPrinterAttributes] | _ => ops end) with
  | [] => ("operations-supported"%string, [])
  | v :: r => MakeAttr "operations-supported" TagEnum v r
  end.

(** ** Formats of the routes *)

Definition formatRouteList (routes : list DocumentRoute) : list string := uniqueStrings (map ClientFormat routes).

Definition mappingOutputType (mapping : Z) : string :=
  if mapping =? MappingW8ToSGray8 then "sgray_8"
  else if mapping =? MappingSRGB24ToSRGB8 then "srgb_8"
  else if mapping =? MappingDEVRGB24ToRGB8 then "rgb_8"
  else "".

Definition replaced (attrs : Attributes) (attr : Attribute) : Attributes :=
  SetAttr (DropAttrs attrs [aName attr]) attr.

Definition applyEmulatedRasterCapabilities (attrs : Attributes) (routes : RouteSnapshot) : Attributes :=
  match List.find Transform (Routes routes) with
  | None => attrs
  | Some emulated =>
      let output := mappingOutputType (drMapping emulated) in
      let attrs := if (output =? "")%string then attrs
                   else replaced attrs (Keyword "pwg-raster-document-type-supported" output) in
      match map (fun r => VResolution r r UnitsDpi) (List.filter (fun r => negb (r =? 0)) (Resolutions emulated)) with
      | [] => attrs
      | v :: rest => replaced attrs (MakeAttr "pwg-raster-document-resolution-supported" TagResolution v rest)
      end
  end.

Definition applyRouteCapabilities (base : Attributes) (routes : RouteSnapshot) : Attributes :=
  match map VString (formatRouteList (Routes routes)) with
  | [] => DropAttrs base ["urf-supported"%string]
  | v :: rest =>
      let result := SetAttr (DropAttrs base ["document-format-supported"%string])
                      (MakeAttr "document-format-supported" TagMimeType v rest) in
      let urf := SetAttr (DropAttrs result ["urf-supported"%string]) (Keywords "urf-supported" (URFTokens routes)) in
      match snapPath routes with
      | AirPrintPathUnavailable => DropAttrs result ["urf-supported"%string]
      | AirPrintPathNative => urf
      | AirPrintPathEmulated =>
          let result := applyEmulatedRasterCapabilities urf routes in
          match Attr result "document-format-default" with
          | Some _ => result
          | None => result ++ [MakeAttribute "document-format-default" TagMimeType (VString "image/urf")]
          end
      end
  end.

(** ** Helpers that remain for older callers *)

(** One alias of a collection in the map of the sizes a printer names. *)
Definition add_alias (s : mediaSize) (result : gmap string mediaSize) (alias : string) : gmap string mediaSize :=
  let key := mediaNameKey alias in
  if (key =? "")%string then result
  else match result !! key with
       | Some existing => <[key := mergeMediaSize existing s]> result
       | None => <[key := s]> result
       end.
Definition upstreamMediaCatalog (attrs : Attributes) : gmap string mediaSize :=
  fold_left (fun result c =>
    fold_left (add_alias (size c)) (cnames c ++ (if (Name (size c) =? "")%string then [] else [Name (size c)])) result)
    (upstreamMediaCollections attrs) ∅.

Record mediaMargins := { Bottom : Z; Left : Z; Right : Z; Top : Z; Valid : bool; validSides : list bool }.
(** Unknown margins stay unknown: the size is not written. *)
Definition fillMissingMargins (s : mediaSize) (fallback : mediaMargins) : mediaSize := s.
Definition minimumSupportedMargin (attrs : Attributes) (name : string) : option Z :=
  match Attr attrs name with
  | None => None
  | Some attr => fold_left (fun minimum tv =>
      match fixedNonNegativeInteger [tv] with
      | None => minimum
      | Some candidate => match minimum with
                          | Some m => if candidate <? m then Some candidate else minimum
                          | None => Some candidate
                          end
      end) (aValues attr) None
  end.
Definition upstreamMarginDefaults (attrs : Attributes) : mediaMargins :=
  let margin side := minimumSupportedMargin attrs ("media-" +:+ side +:+ "-margin-supported") in
  {| Bottom := default 0 (margin "bottom"); Left := default 0 (margin "left"); Right := default 0 (margin "right");
     Top := default 0 (margin "top");
     Valid := forallb (fun side => bool_decide (is_Some (margin side))) ["bottom"; "left"; "right"; "top"]%string;
     validSides := [false; false; false; false] |}.

Definition mediaSizeFromCollection (v : Value) : option mediaSize := size <$> mediaCollectionFromValue v.
Definition mediaSizeFromCollectionAttrs (attrs : Attributes) : mediaSize * bool :=
  let c := mediaCollectionFromAttrs attrs in
  (size c, negb (bool_decide (cnames c = [])) || HasDimension (size c)).
Definition firstValueString (values : list TValue) : option string :=
  match values with
  | [] | (_, VNil) :: _ => None
  | (_, VString s) :: _ => Some s
  | (_, v) :: _ => Some (Sprint v)
  end.
Definition mediaColAttr (name : string) (s : mediaSize) (mediaType : string) : Attribute :=
  mediaColDescriptionAttr name s mediaType "".
Definition mediaColDatabaseAttr (sizes : list mediaSize) (mediaType : string) : Attribute :=
  mediaColDatabaseAttrWithSource sizes mediaType "".
End description.

(** ** Identity *)

(** [uuid.NewSHA1(uuid.NameSpaceURL, ...).URN()]: the URN form of a UUID. *)
Class UUIDs := {
  urn_of : string -> string;
  urn_of_prefix s : HasPrefix (urn_of s) "urn:uuid:" = true
}.

Record PrinterIdentityMetadata := {
  UUID : string;
  Uptime : Z;
  ConfigChangeTime : Z;
  ConfigChangeDateTime : time
}.

(** [time.Unix(0, 0)] *)
Definition unix_epoch : time := 62135596800 * Second.
Definition TagDateTime : Z := 49.

Section identity.
Context `{G : GoippLib} `{U : UUIDs}.

Definition proxyPrinterUUID (proxyURI : string) : string := urn_of proxyURI.

Definition defaultPrinterIdentityMetadata (proxyURI : string) : PrinterIdentityMetadata := {|
  UUID := proxyPrinterUUID proxyURI; Uptime := 1; ConfigChangeTime := 1; ConfigChangeDateTime := unix_epoch |}.

(** [Service.proxyPrinterIdentity], given the URI of the queue, the clock, and
    the times the service keeps (zero when it keeps none). *)
Definition proxyPrinterIdentity (proxyURI : string) (now startedAt configChangedAt : time) : PrinterIdentityMetadata :=
  let startedAt := if IsZero startedAt then unix_epoch else startedAt in
  let configChangedAt := if IsZero configChangedAt then startedAt else configChangedAt in
  let uptime := Z.max 1 (Z.quot (Sub now startedAt) Second) in
  let changeTime := Z.max 1 (Z.quot (Sub configChangedAt startedAt) Second) in
  {| UUID := proxyPrinterUUID proxyURI; Uptime := uptime;
     ConfigChangeTime := if uptime <? changeTime then uptime else changeTime;
     ConfigChangeDateTime := configChangedAt |}.

Definition proxyPrinterIdentityAttributes (identity : PrinterIdentityMetadata) : Attributes :=
  let id := if (UUID identity =? "")%string then proxyPrinterUUID "" else UUID identity in
  [URI "printer-uuid" id; Integer "printer-up-time" (Uptime identity);
   Integer "printer-config-change-time" (ConfigChangeTime identity);
   MakeAttribute "printer-config-change-date-time" TagDateTime
     (VOther TagDateTime (FormatRFC3339Nano (ConfigChangeDateTime identity)))].
End identity.
