(* ===== verification/Capabilities.v ===== *)
(** * The capability model of a queue ([internal/proxy/profiles.go], [capabilities.go])

    What the proxy makes of the description of a printer each time it is
    refreshed: the policy that is left of the configured one, the profiles the
    queue is ready for and why not, the operations, the routes, and the
    description the clients are shown, in one [CapabilityModel]. *)

From Stdlib Require Import ZArith Lia Ascii String.
From stdpp Require Import base tactics list strings gmap.
From S2P Require Import Configuration Urf Routing.
From S2P Require Import Prelude GoString GoError GoTime GoUrl Goipp IppAttrs MediaCatalog Normalizer Formats Messages.
From S2P Require Import PrinterDescription.

(** ** Profiles *)

Record CapabilityProfile := {
  prEnabled : bool;
  prReady : bool;
  prReason : string;
  prWarnings : list string
}.
Record CapabilityProfiles := {
  pfOrdinary : CapabilityProfile;
  pfAirPrint : CapabilityProfile;
  pfIPPEverywhere : CapabilityProfile
}.

Definition profile_warnings (p : CapabilityProfiles) : list string :=
  let named name profile := map (fun w => name +:+ ": " +:+ w) (prWarnings profile) in
  named "ordinary" (pfOrdinary p) ++ named "airprint" (pfAirPrint p) ++ named "ipp_everywhere" (pfIPPEverywhere p).

Definition normalizeIPPEverywhereMode (mode : string) : string :=
  let m := ToLower (TrimSpace mode) in
  if in_strings m [""; IPPEverywhereRequired; IPPEverywhereAuto]%string then IPPEverywhereAuto else m.

(** The comparisons of the refresh. *)
Definition sameCapabilityProfile (left right : CapabilityProfile) : bool :=
  bool_decide (prEnabled left = prEnabled right) && bool_decide (prReady left = prReady right) &&
  (prReason left =? prReason right)%string && bool_decide (prWarnings left = prWarnings right).
Definition sameCapabilityProfiles (left right : CapabilityProfiles) : bool :=
  sameCapabilityProfile (pfOrdinary left) (pfOrdinary right) &&
  sameCapabilityProfile (pfAirPrint left) (pfAirPrint right) &&
  sameCapabilityProfile (pfIPPEverywhere left) (pfIPPEverywhere right).

Definition policyPrintScaling (policy : PolicyConfig) : string := default ""%string (pPrintScaling policy).

Fixpoint same_names (ls rs : list string) : bool :=
  match ls, rs with
  | [], [] => true
  | l :: ls, r :: rs => EqualFold l r && same_names ls rs
  | _, _ => false
  end.
Definition samePolicySnapshot (left right : PolicyConfig) : bool :=
  EqualFold (pMedia left) (pMedia right) && EqualFold (pMediaDefault left) (pMediaDefault right) &&
  EqualFold (pMediaType left) (pMediaType right) && EqualFold (pPrintColorMode left) (pPrintColorMode right) &&
  EqualFold (policyMediaSource left) (policyMediaSource right) &&
  EqualFold (policyPrintScaling left) (policyPrintScaling right) &&
  bool_decide (pUseMediaCol left = pUseMediaCol right) && EqualFold (pFidelityMode left) (pFidelityMode right) &&
  same_names (pMediaSupported left) (pMediaSupported right).

(** ** The policy against the printer *)

Definition presentAttribute (attrs : Attributes) (name : string) : bool := bool_decide (is_Some (Attr attrs name)).

(** The loop over the values, with [supported] so far: the second result. *)
Fixpoint keyword_loop (values : list TValue) (wanted : string) (supported : bool) : bool :=
  match values with
  | [] => supported
  | (t, v) :: rest =>
      if negb (t =? TagKeyword) then false
      else match v with
           | VString text => if (TrimSpace text =? "")%string then false
                             else keyword_loop rest wanted (supported || EqualFold (TrimSpace text) wanted)
           | _ => false
           end
  end.
Definition advertisedKeywordContains (attrs : Attributes) (name wanted : string) : bool * bool :=
  match Attr attrs name with
  | None => (false, false)
  | Some attr => (true, keyword_loop (aValues attr) wanted false)
  end.

Definition stringValues (attrs : Attributes) (name : string) : list string :=
  match Attr attrs name with
  | None => []
  | Some attr => omap (fun tv => stringValue (val_V tv)) (aValues attr)
  end.
Definition containsFold (values : list string) (wanted : string) : bool := existsb (fun v => EqualFold v wanted) values.

Definition policyMediaSupportedByUpstream (upstream : Attributes) (policy : PolicyConfig) (name : string) : bool :=
  if pUseMediaCol policy then upstreamSupportsMedia upstream name
  else match Attr upstream "media-supported" with Some a => hasKeywordString a name | None => false end.
Definition usableProfileMedia (upstream : Attributes) (policy : PolicyConfig) : bool :=
  existsb (policyMediaSupportedByUpstream upstream policy) (policyMediaNames policy).

(** [policy.MediaSupported = media], [policy.Media = media[0]] if it is set,
    [policy.MediaDefault = defaultName]. *)
Definition project_media (media : list string) (policy : PolicyConfig) : PolicyConfig * list string :=
  let oldDefault := TrimSpace (pMediaDefault policy) in
  let first := hd ""%string media in
  let legacy := if (pMedia policy =? "")%string then ""%string else first in
  let wanted := if (oldDefault =? "")%string then TrimSpace legacy else oldDefault in
  let found := containsFold media wanted in
  ({| pMedia := legacy; pMediaSupported := media; pMediaDefault := if found then wanted else first;
      pMediaType := pMediaType policy; pPrintColorMode := pPrintColorMode policy; pMediaSource := pMediaSource policy;
      pPrintScaling := pPrintScaling policy; pUseMediaCol := pUseMediaCol policy; pFidelityMode := pFidelityMode policy |},
   if found then []
   else ["policy media default " +:+ Quote wanted +:+ " is not supported; using " +:+ Quote first]).

(** A keyword of the policy against the attribute of the printer: refused when
    the attribute is there without it, with a warning when it is not there. *)
Definition project_keyword (upstream : Attributes) (dimension value : string) : goerr + list string :=
  if (value =? "")%string then inr [] else
  let name := dimension +:+ "-supported" in
  let '(present, supported) := advertisedKeywordContains upstream name value in
  if present && negb supported then
    inl (EText ("required policy dimension " +:+ dimension +:+ " has no upstream-supported value " +:+ Quote value))
  else inr (if presentAttribute upstream name then []
            else ["upstream did not advertise " +:+ name +:+ "; retaining configured policy"]).

(** The dimensions in order: the warnings, and the error of the first refused. *)
Fixpoint project_keywords (upstream : Attributes) (l : list (string * string)) : list string * option goerr :=
  match l with
  | [] => ([], None)
  | (dimension, value) :: r =>
      match project_keyword upstream dimension value with
      | inl err => ([], Some err)
      | inr warnings => let '(more, err) := project_keywords upstream r in (warnings ++ more, err)
      end
  end.

Definition ProjectPolicyAgainstUpstream (upstream : Attributes) (policy : PolicyConfig)
    : list string * res goerr PolicyConfig :=
  let supported := policyMediaSupportedByUpstream upstream policy in
  let configuredMedia := policyMediaNames policy in
  let media := List.filter supported configuredMedia in
  let warnings := map (fun name => "policy media " +:+ Quote name +:+ " is not advertised by upstream and was omitted")
                    (List.filter (fun n => negb (supported n)) configuredMedia) in
  match media with
  | [] => (warnings, Err (EText "required policy dimension media has no upstream-supported values"))
  | _ =>
      let '(projected, more) := project_media media policy in
      let '(kept, err) := project_keywords upstream
        [("print-color-mode"%string, TrimSpace (pPrintColorMode policy)); ("media-type"%string, TrimSpace (pMediaType policy));
         ("media-source"%string, policyMediaSource policy)] in
      (warnings ++ more ++ kept, match err with Some e => Err e | None => Ok projected end)
  end.

(** ** Readiness *)

(** The claims of [ipp-features-supported], from value [index] on. *)
Section capabilities.
Context `{G : GoippLib} `{I : IPLiterals} `{U : UUIDs}.

Fixpoint check_claims (values : list TValue) (index : Z) (claimFound : bool) : bool * string :=
  match values with
  | [] => if claimFound then (true, ""%string)
          else (false, "upstream ipp-features-supported does not include ipp-everywhere"%string)
  | (t, v) :: rest =>
      if negb (t =? TagKeyword) then
        (false, "upstream ipp-features-supported value " +:+ Itoa index +:+ " has tag " +:+ tag_String t +:+ ", want keyword")
      else
        let bad := (false, "upstream ipp-features-supported value " +:+ Itoa index +:+ " is not a non-empty keyword") in
        match v with
        | VString feature =>
            if (TrimSpace feature =? "")%string then bad
            else check_claims rest (index + 1) (claimFound || (feature =? "ipp-everywhere")%string)
        | _ => bad
        end
  end.
Definition ippEverywhereClaimEligibility (attrs : Attributes) : bool * string :=
  match List.filter (fun a => EqualFold (aName a) "ipp-features-supported") attrs with
  | [] => (false, "upstream did not provide ipp-features-supported"%string)
  | [(_, [])] => (false, "upstream provided an empty ipp-features-supported attribute"%string)
  | [(_, values)] => check_claims values 0 false
  | _ => (false, "upstream provided duplicate ipp-features-supported attributes"%string)
  end.
Definition upstreamClaimsIPPEverywhere (attrs : Attributes) : bool := fst (ippEverywhereClaimEligibility attrs).

Definition usableProfileIdentity (proxyURI : string) : bool :=
  match Parse proxyURI with
  | Some parsed => EqualFold (Scheme parsed) "ipp" && negb (Hostname parsed =? "")%string &&
                   negb (proxyPrinterUUID proxyURI =? "")%string
  | None => false
  end.

Definition urfHasColorSpaces (attrs : Attributes) : bool :=
  match Attr attrs "urf-supported" with
  | None => false
  | Some attribute =>
      existsb (fun tv => match val_V tv with
                         | VString text => existsb urfColorSpaceToken (default [] (splitURFTokens text))
                         | _ => false
                         end) (aValues attribute)
  end.

Definition proxyOperations : list Z :=
  [OpPrintJob; OpValidateJob; OpCreateJob; OpSendDocument; OpCancelJob; OpGetJobAttributes; OpGetJobs;
   OpGetPrinterAttributes; OpCancelMyJobs; OpCloseJob; OpIdentifyPrinter].
Definition ippEverywhereRequiredOperations : list Z :=
  [OpPrintJob; OpValidateJob; OpCreateJob; OpSendDocument; OpCancelJob; OpGetJobAttributes; OpGetJobs;
   OpGetPrinterAttributes; OpCancelMyJobs; OpCloseJob; OpIdentifyPrinter].

Definition uniqueOperations (operations : list Z) : list Z := unique_from ∅ operations.
Definition missingOperations (operations required : list Z) : list Z :=
  let available : gset Z := list_to_set operations in
  List.filter (fun op => negb (bool_decide (op ∈ available))) required.
Definition operationNames (operations : list Z) : string := Join (map op_String operations) ",".

(** A profile that is not ready, and why. *)
Definition not_ready (enabled : bool) (reason : string) : CapabilityProfile :=
  {| prEnabled := enabled; prReady := false; prReason := reason; prWarnings := [] |}.

Definition airprint_disabled : string := "disabled by configuration (airprint_mode=disabled)".
Definition ipp_everywhere_disabled : string := "disabled by configuration (ipp_everywhere_mode=disabled)".

(** The first condition that fails, with its reason: a [switch] of guards. *)
Fixpoint first_reason (l : list (bool * string)) : option string :=
  match l with
  | [] => None
  | (holds, reason) :: r => if negb holds then Some reason else first_reason r
  end.

(** What both profiles ask for, besides the operations. *)
Definition base_conditions (upstream : Attributes) (policy : PolicyConfig) (operations : list Z) (proxyURI : string)
    : list (bool * string) :=
  [(operationAvailable operations OpGetPrinterAttributes && operationAvailable operations OpPrintJob,
    "Get-Printer-Attributes and Print-Job are not both dispatchable"%string);
   (match effectiveFormatSet upstream policy with Some formats => negb (bool_decide (formats = ∅)) | None => false end,
    "upstream has no admitted document format"%string);
   (usableProfileMedia upstream policy, "configured media is not supported by upstream"%string);
   (usableProfileIdentity proxyURI, "proxy printer identity is unavailable"%string)].

Definition airprint_profile (upstream : Attributes) (policy : PolicyConfig) (operations : list Z) (proxyURI : string)
    (routes : RouteSnapshot) : CapabilityProfile :=
  let unavailable := match snapPath routes with AirPrintPathUnavailable => true | _ => false end in
  match first_reason (base_conditions upstream policy operations proxyURI ++ [(negb unavailable, snapReason routes)]) with
  | Some reason => not_ready true reason
  | None =>
      let native := match snapPath routes with AirPrintPathNative => true | _ => false end in
      {| prEnabled := true; prReady := true; prReason := "";
         prWarnings := if native && EqualFold (TrimSpace (pPrintColorMode policy)) "monochrome" && urfHasColorSpaces upstream
                       then ["upstream URF advertises color-coded values while policy is monochrome; the client view retains only policy-compatible URF tokens"%string]
                       else [] |}
  end.

Definition ipp_everywhere_profile (upstream : Attributes) (policy : PolicyConfig) (operations : list Z)
    (proxyURI : string) : CapabilityProfile :=
  let '(claimReady, claimReason) := ippEverywhereClaimEligibility upstream in
  match first_reason ((claimReady, claimReason) :: base_conditions upstream policy operations proxyURI) with
  | Some reason =>
      {| prEnabled := true; prReady := false; prReason := reason;
         prWarnings := if claimReady && negb (reason =? "")%string
                       then ["upstream claims ipp-everywhere but the proxy cannot advertise the profile: " +:+ reason] else [] |}
  | None =>
      {| prEnabled := true; prReady := true; prReason := "";
         prWarnings := match missingOperations operations ippEverywhereRequiredOperations with
                       | [] => []
                       | missing => ["upstream/proxy operation surface is short of formal IPP Everywhere coverage: " +:+
                                     operationNames missing]
                       end |}
  end.

Definition evaluateCapabilityProfiles (upstream : Attributes) (printer : Configuration.PrinterConfig)
    (policy : PolicyConfig) (operations : list Z) (proxyURI : string) (disabled : bool) : CapabilityProfiles :=
  let airPrint := negb (normalizeAirPrintMode (Configuration.AirPrintMode printer) =? AirPrintDisabled)%string in
  let ippEverywhere := negb (normalizeIPPEverywhereMode (IPPEverywhereMode printer) =? IPPEverywhereDisabled)%string in
  let unavailable enabled reason := not_ready enabled (if enabled then "queue is unavailable"%string else reason) in
  if disabled then
    {| pfOrdinary := not_ready false "queue is unavailable"; pfAirPrint := unavailable airPrint airprint_disabled;
       pfIPPEverywhere := unavailable ippEverywhere ipp_everywhere_disabled |}
  else
    {| pfOrdinary := {| prEnabled := true; prReady := true; prReason := ""; prWarnings := [] |};
       pfAirPrint := if negb airPrint then not_ready false airprint_disabled
                     else airprint_profile upstream policy operations proxyURI
                            (buildRouteSnapshot upstream policy (service_printer printer));
       pfIPPEverywhere := if negb ippEverywhere then not_ready false ipp_everywhere_disabled
                          else ipp_everywhere_profile upstream policy operations proxyURI |}.

(** ** The model *)

Record CapabilityModel := {
  mUpstream : Attributes;
  mPrinter : Configuration.PrinterConfig;
  mPolicy : PolicyConfig;
  mQueueName : string;
  mProxyURI : string;
  mIdentity : PrinterIdentityMetadata;
  mOperations : option (list Z);  (** [None] is nil *)
  mDisabled : bool;
  mRequiredOperations : list Z;
  mRequiredUnsatisfied : list Z;
  mIPPEligible : bool;
  mIPPFeatures : list string;
  mProfiles : CapabilityProfiles;
  mRoutes : option RouteSnapshot;  (** [None] is the zero snapshot *)
  mWarnings : list string;
  mAttributes : option Attributes;
  practicalProfiles : bool
}.

Definition policyConfigEmpty (policy : PolicyConfig) : bool :=
  (TrimSpace (pMedia policy) =? "")%string && bool_decide (pMediaSupported policy = []) &&
  (TrimSpace (pMediaDefault policy) =? "")%string && (TrimSpace (pMediaType policy) =? "")%string &&
  (TrimSpace (pPrintColorMode policy) =? "")%string && bool_decide (pMediaSource policy = None) &&
  bool_decide (pPrintScaling policy = None) && (TrimSpace (pFidelityMode policy) =? "")%string && negb (pUseMediaCol policy).

Definition routeSnapshotForModel (model : CapabilityModel) : RouteSnapshot :=
  match mRoutes model with
  | Some routes => routes
  | None => buildRouteSnapshot (mUpstream model) (mPolicy model) (service_printer (mPrinter model))
  end.

(** The identity the description shows: the one of the model, unless it is the
    zero value, completed, its clocks at least one and in order. *)
Definition shown_identity (identity : PrinterIdentityMetadata) (proxyURI : string) : PrinterIdentityMetadata :=
  let empty := (UUID identity =? "")%string && (Uptime identity =? 0) && (ConfigChangeTime identity =? 0) &&
               IsZero (ConfigChangeDateTime identity) in
  let i := if empty then defaultPrinterIdentityMetadata proxyURI else identity in
  let uptime := if Uptime i <? 1 then 1 else Uptime i in
  let change := if ConfigChangeTime i <? 1 then 1 else ConfigChangeTime i in
  {| UUID := if (UUID i =? "")%string then proxyPrinterUUID proxyURI else UUID i; Uptime := uptime;
     ConfigChangeTime := if uptime <? change then uptime else change;
     ConfigChangeDateTime := if IsZero (ConfigChangeDateTime i) then unix_epoch else ConfigChangeDateTime i |}.

(** The attributes that replace what passed from the printer. *)
Definition owned_attributes : Attributes :=
  [Keywords "ipp-versions-supported" ["1.0"; "1.1"; "2.0"]%string; Keyword "uri-authentication-supported" "none";
   Keyword "uri-security-supported" "none"; MakeAttribute "charset-configured" TagCharset (VString "utf-8");
   MakeAttribute "charset-supported" TagCharset (VString "utf-8");
   MakeAttribute "natural-language-configured" TagLanguage (VString "en");
   MakeAttribute "generated-natural-language-supported" TagLanguage (VString "en")].

(** [out], with the attribute appended when none has its name. *)
Definition append_missing (out : Attributes) (attr : Attribute) : Attributes :=
  match Attr out (aName attr) with Some _ => out | None => out ++ [attr] end.
Definition state_attributes : Attributes :=
  [Boolean "printer-is-accepting-jobs" true; MakeAttribute "printer-state" TagEnum (VInteger 3);
   Keyword "printer-state-reasons" "none"].

(** The media of the description. *)
Definition media_attributes (catalog : mediaCatalog) (policy : PolicyConfig) : Attributes :=
  let source := policyMediaSource policy in
  let selected := match ByName catalog !! mediaNameKey (policyMediaDefault policy) with
                  | Some s => s
                  | None => hd (named_size "") (Sizes catalog)
                  end in
  [Keywords "media-supported" (policyMediaNames policy); Keyword "media-default" (policyMediaDefault policy);
   Keywords "media-col-supported" (mediaColSupportedNames catalog policy);
   mediaColDescriptionAttr "media-col-default" selected (pMediaType policy) source;
   mediaColDatabaseAttrWithSource (Sizes catalog) (pMediaType policy) source;
   Keyword "media-type-supported" (pMediaType policy); Keyword "media-type-default" (pMediaType policy)].

Definition color_attributes (policy : PolicyConfig) : Attributes :=
  let color := EqualFold (TrimSpace (pPrintColorMode policy)) "color" in
  let outputMode := if color then "color"%string else "monochrome"%string in
  [Keyword "print-color-mode-supported" (pPrintColorMode policy);
   Keyword "print-color-mode-default" (pPrintColorMode policy); Boolean "color-supported" color;
   Keyword "output-mode-supported" outputMode; Keyword "output-mode-default" outputMode].

(** The source of the policy, or the one the printer is proven to choose. *)
Definition source_attributes (upstream : Attributes) (policy : PolicyConfig) : Attributes :=
  let configured := policyMediaSource policy in
  let source := if (configured =? "")%string then provenAutomaticMediaSource upstream else configured in
  if (source =? "")%string then []
  else [Keyword "media-source-supported" source; Keyword "media-source-default" source].

Definition synthesizePrinterAttributes `{MapRange} (model : CapabilityModel) : Attributes :=
  let upstream := mUpstream model in
  let printer := mPrinter model in
  let policy := settings (Configuration.Policy printer) in
  let catalog := buildMediaCatalog upstream policy in
  let named := filteredPassthroughPrinterAttributes upstream ++
    [URI "printer-uri-supported" (mProxyURI model); NameAttr "printer-name" (DisplayName printer);
     Text "printer-info" (DisplayName printer +:+ " via policy proxy"); Text "printer-location" (Location printer)] in
  fold_left append_missing state_attributes (fold_left SetAttr owned_attributes named) ++
  proxyPrinterIdentityAttributes (shown_identity (mIdentity model) (mProxyURI model)) ++
  media_attributes catalog policy ++ color_attributes policy ++
  [operationsSupportedAttrFor (default [] (mOperations model)); Boolean "multiple-document-jobs-supported" false] ++
  option_list (mediaSizeSupportedAttr (Sizes catalog)) ++
  source_attributes upstream policy ++
  filteredReadyAttributes upstream catalog policy ++
  applyRouteCapabilities (synthesizedFormatAttributes upstream policy) (routeSnapshotForModel model) ++
  (match mIPPFeatures model with [] => [] | features => [Keywords "ipp-features-supported" features] end).

Definition with_policy (policy : PolicyConfig) (p : Configuration.PrinterConfig) : Configuration.PrinterConfig := {|
  Configuration.UpstreamURI := Configuration.UpstreamURI p; DisplayName := DisplayName p; Location := Location p;
  Optional := Optional p; IPPEverywhereMode := IPPEverywhereMode p; Configuration.AirPrintMode := Configuration.AirPrintMode p;
  DNSSD := DNSSD p; GeoLocation := GeoLocation p; RefreshInterval := RefreshInterval p; RefreshRaw := RefreshRaw p;
  Configuration.Policy :=
    {| settings := policy; mediaLegacySet := mediaLegacySet (Configuration.Policy p);
       mediaSupportedSet := mediaSupportedSet (Configuration.Policy p);
       mediaDefaultSet := mediaDefaultSet (Configuration.Policy p);
       mediaDefaultsApply := mediaDefaultsApply (Configuration.Policy p) |};
  Passthrough := Passthrough p; DNS_SD := DNS_SD p; ippEverywhereModeSet := ippEverywhereModeSet p;
  airPrintModeSet := airPrintModeSet p; dnsSDSet := dnsSDSet p |}.
Definition with_modes (ippEverywhere airPrint : string) (p : Configuration.PrinterConfig) : Configuration.PrinterConfig := {|
  Configuration.UpstreamURI := Configuration.UpstreamURI p; DisplayName := DisplayName p; Location := Location p;
  Optional := Optional p; IPPEverywhereMode := ippEverywhere; Configuration.AirPrintMode := airPrint;
  DNSSD := DNSSD p; GeoLocation := GeoLocation p; RefreshInterval := RefreshInterval p; RefreshRaw := RefreshRaw p;
  Configuration.Policy := Configuration.Policy p;
  Passthrough := Passthrough p; DNS_SD := DNS_SD p; ippEverywhereModeSet := ippEverywhereModeSet p;
  airPrintModeSet := airPrintModeSet p; dnsSDSet := dnsSDSet p |}.

Definition ipp_features (eligible : bool) : list string :=
  if eligible then ["ipp-everywhere"; "ipp-everywhere-server"]%string else [].

Section synthesis.
Context `{R : MapRange}.

Definition with_attributes (attrs : option Attributes) (identity : PrinterIdentityMetadata) (m : CapabilityModel) : CapabilityModel := {|
  mUpstream := mUpstream m; mPrinter := mPrinter m; mPolicy := mPolicy m; mQueueName := mQueueName m;
  mProxyURI := mProxyURI m; mIdentity := identity; mOperations := mOperations m; mDisabled := mDisabled m;
  mRequiredOperations := mRequiredOperations m; mRequiredUnsatisfied := mRequiredUnsatisfied m;
  mIPPEligible := mIPPEligible m; mIPPFeatures := mIPPFeatures m; mProfiles := mProfiles m; mRoutes := mRoutes m;
  mWarnings := mWarnings m; mAttributes := attrs; practicalProfiles := practicalProfiles m |}.

Definition SynthesizeCapabilityModel (model : CapabilityModel) : CapabilityModel :=
  let own := settings (Configuration.Policy (mPrinter model)) in
  let policy := if policyConfigEmpty (mPolicy model) then own else mPolicy model in
  let printer := with_policy policy (mPrinter model) in
  let legacyFeatureDisable :=
    negb (practicalProfiles model) && (IPPEverywhereMode printer =? IPPEverywhereDisabled)%string in
  let disabled := mDisabled model || legacyFeatureDisable ||
                  match mOperations model with Some [] => true | _ => false end in
  let operations := uniqueOperations (default proxyOperations (mOperations model)) in
  let upstream := mUpstream model in
  let profiles := evaluateCapabilityProfiles upstream printer policy operations (mProxyURI model) disabled in
  let eligible := if practicalProfiles model then prReady (pfIPPEverywhere profiles)
                  else negb disabled && upstreamClaimsIPPEverywhere upstream in
  let m := {|
    mUpstream := upstream; mPrinter := printer; mPolicy := policy; mQueueName := mQueueName model;
    mProxyURI := mProxyURI model; mIdentity := mIdentity model; mOperations := Some operations; mDisabled := disabled;
    mRequiredOperations := ippEverywhereRequiredOperations;
    mRequiredUnsatisfied := missingOperations operations ippEverywhereRequiredOperations;
    mIPPEligible := eligible; mIPPFeatures := ipp_features eligible; mProfiles := profiles;
    mRoutes := Some (buildRouteSnapshot upstream policy (service_printer printer));
    mWarnings := mWarnings model ++ profile_warnings profiles; mAttributes := mAttributes model;
    practicalProfiles := practicalProfiles model |} in
  with_attributes (Some (synthesizePrinterAttributes m)) (mIdentity m) m.

(** [PrinterIdentityMetadata{}], and the fields a new model does not set. *)
Definition no_identity : PrinterIdentityMetadata := {| UUID := ""; Uptime := 0; ConfigChangeTime := 0; ConfigChangeDateTime := 0 |}.
Definition no_profile : CapabilityProfile := not_ready false "".
Definition zero_profiles : CapabilityProfiles :=
  {| pfOrdinary := no_profile; pfAirPrint := no_profile; pfIPPEverywhere := no_profile |}.
Definition new_model (upstream : Attributes) (queueName proxyURI : string) (printer : Configuration.PrinterConfig)
    (policy : PolicyConfig) (operations : option (list Z)) (disabled practical : bool) (warnings : list string)
    (metadata : option PrinterIdentityMetadata) : CapabilityModel := {|
  mUpstream := upstream; mPrinter := printer; mPolicy := policy; mQueueName := queueName; mProxyURI := proxyURI;
  mIdentity := default no_identity metadata; mOperations := operations; mDisabled := disabled;
  mRequiredOperations := []; mRequiredUnsatisfied := []; mIPPEligible := false; mIPPFeatures := [];
  mProfiles := zero_profiles; mRoutes := None; mWarnings := warnings; mAttributes := None;
  practicalProfiles := practical |}.

Record CapabilityModelOptions := {
  oOperations : option (list Z);
  oDisabled : bool;
  oEffectivePolicy : PolicyConfig;
  oPracticalProfiles : bool;
  oWarnings : list string
}.

Definition NewCapabilityModel (upstream : Attributes) (queueName proxyURI : string) (printer : Configuration.PrinterConfig)
    (options : CapabilityModelOptions) (metadata : option PrinterIdentityMetadata) : CapabilityModel :=
  let own := settings (Configuration.Policy printer) in
  let policy := if policyConfigEmpty (oEffectivePolicy options) then own else oEffectivePolicy options in
  let printer := if oPracticalProfiles options
                 then with_modes (normalizeIPPEverywhereMode (IPPEverywhereMode printer))
                        (normalizeAirPrintMode (Configuration.AirPrintMode printer)) printer
                 else printer in
  SynthesizeCapabilityModel (new_model upstream queueName proxyURI printer policy (oOperations options)
    (oDisabled options) (oPracticalProfiles options) (oWarnings options) metadata).

Definition FilterPrinterAttributesWithModel (model : CapabilityModel) : Attributes :=
  match mAttributes model with
  | Some attrs => attrs
  | None => default [] (mAttributes (SynthesizeCapabilityModel model))
  end.

Definition FilterPrinterAttributesWithOperations (upstream : Attributes) (queueName proxyURI : string)
    (printer : Configuration.PrinterConfig) (operations : option (list Z)) (metadata : option PrinterIdentityMetadata)
    : Attributes :=
  let disabled := (IPPEverywhereMode printer =? IPPEverywhereDisabled)%string || negb (upstreamClaimsIPPEverywhere upstream) in
  FilterPrinterAttributesWithModel (SynthesizeCapabilityModel
    (new_model upstream queueName proxyURI printer (settings (Configuration.Policy printer)) operations disabled false []
       metadata)).
Definition FilterPrinterAttributes (upstream : Attributes) (queueName proxyURI : string)
    (printer : Configuration.PrinterConfig) (metadata : option PrinterIdentityMetadata) : Attributes :=
  FilterPrinterAttributesWithOperations upstream queueName proxyURI printer None metadata.

(** [Service.clientCapabilities]: the model of the queue if there is one, the
    identity of the moment, and the description of the printer. *)
Definition clientCapabilities (model : option CapabilityModel) (queue proxyURI : string)
    (printer : Configuration.PrinterConfig) (upstream : Attributes) (identity : PrinterIdentityMetadata) : Attributes :=
  let attrs := match model with
               | Some m => match mAttributes m with
                           | Some (_ :: _) => FilterPrinterAttributesWithModel (with_attributes None identity m)
                           | _ => FilterPrinterAttributesWithOperations upstream queue proxyURI printer
                                    (Some (proxySupportedOperations upstream)) (Some identity)
                           end
               | None => FilterPrinterAttributesWithOperations upstream queue proxyURI printer
                           (Some (proxySupportedOperations upstream)) (Some identity)
               end in
  DropAttrs attrs ["overrides-supported"%string].

(** [Service.profilesLocked]. *)
Definition profilesLocked (model : option CapabilityModel) (printer : Configuration.PrinterConfig) (proxyURI : string)
    (upstream : Attributes) : CapabilityProfiles :=
  match model with
  | Some m => mProfiles m
  | None => evaluateCapabilityProfiles upstream printer (settings (Configuration.Policy printer))
              (proxySupportedOperations upstream) proxyURI false
  end.

(** [Service.handleGetPrinterAttributes]: the state of the queue is the
    description of its printer, its model, and its DNS-SD name. *)
Definition handleGetPrinterAttributes (capabilities : option Attributes) (model : option CapabilityModel) (dnsName : string)
    (queue proxyURI : string) (printer : Configuration.PrinterConfig) (identity : PrinterIdentityMetadata) (req : Message)
    : Response :=
  match capabilities with
  | None => NewResponse (Version req) StatusErrorPrinterIsDeactivated (RequestID req)
  | Some upstream =>
      let filtered := clientCapabilities model queue proxyURI printer upstream identity in
      let filtered := if (dnsName =? "")%string then filtered
                      else SetAttr filtered (NameAttr "printer-dns-sd-name" dnsName) in
      set_resPrinter (Some (Protocol.FilterRequestedPrinterAttributes filtered (Operation req)))
        (set_resOperation (responseOperationAttrs "") (NewResponse (Version req) StatusOk (RequestID req)))
  end.
End synthesis.

Definition operationsSupportedAttr : Attribute := operationsSupportedAttrFor proxyOperations.

(** ** The policy against a printer, for a queue without projection *)

Definition keyword_advertised (attrs : Attributes) (name value : string) (required : bool) : res goerr unit :=
  let err := EText ("upstream does not advertise " +:+ name +:+ "=" +:+ value) in
  match Attr attrs name with
  | Some attr => ensure (hasString attr value) err
  | None => ensure (negb required) err
  end.
Definition ValidatePolicyAgainstUpstream (attrs : Attributes) (policy : PolicyConfig) : res goerr unit :=
  _ ← each (fun _ media =>
        ensure (if pUseMediaCol policy then upstreamSupportsMedia attrs media
                else match Attr attrs "media-supported" with Some a => hasString a media | None => false end)
          (EText ("upstream does not advertise media-supported=" +:+ media))) 0 (policyMediaNames policy);
  _ ← keyword_advertised attrs "print-color-mode-supported" (pPrintColorMode policy) false;
  _ ← (if (pMediaType policy =? "")%string then Ok tt
       else keyword_advertised attrs "media-type-supported" (pMediaType policy) false);
  _ ← (if (policyMediaSource policy =? "")%string then Ok tt
       else keyword_advertised attrs "media-source-supported" (policyMediaSource policy) true);
  each (fun _ s => ensure (HasDimension s)
          (EText ("cannot resolve fixed dimensions for media-supported=" +:+ Name s))) 0 (Sizes (buildMediaCatalog attrs policy)).
End capabilities.
