(* ===== verification/Handlers.v ===== *)
(** * The handlers of job operations ([internal/proxy/service.go])

    Each handler is a computation over the registry: it reads the committed
    capabilities of its queue, sends messages to the printer and calls the
    registry, and ends with a response or an error. What the handler cannot
    decide is the [Environment]: the clock, what other requests did to the
    registry since the handler's last call, the capabilities a refresh has
    committed, the answers of the printers. Each of them is asked at a tick
    that grows with every question, so no two questions need agree.

    Logging, statistics and the contexts of the registry calls are not
    modelled; the registry itself does not fail ([Store.v]), but it refuses. *)

From Stdlib Require Import ZArith Lia Ascii String Strings.Byte.
From stdpp Require Import base tactics list strings gmap.
From S2P Require Import Configuration PrinterDescription Capabilities.
From S2P Require Import Prelude GoString GoError GoTime Store Urf UrfSpec Goipp IppAttrs GoUrl Protocol.
From S2P Require Import MediaCatalog Normalizer Formats Messages Routing Payload.

(** ** The environment and the state *)

(** What goes with a message: nothing, a document staged by the translator, or
    what the upstream client read of the client's document. *)
Inductive Body : Type := NoBody | Staged (content : list byte) | Streamed (content : string).

Record Environment := {
  e_now : nat -> time;
  e_others : nat -> Store -> Store;
  (** [s.capabilityModels[queue]] and [s.capabilities[queue]] *)
  e_client : nat -> string -> option Capabilities.CapabilityModel;
  e_caps : nat -> string -> option Attributes;
  (** [s.startedAt], [s.configChangedAt[queue]] and [s.queueHealth[queue].DNSName] *)
  e_startedAt : time;
  e_configChangedAt : nat -> string -> time;
  e_dnsName : nat -> string -> string;
  (** The decoded answer of the printer, or the error of the exchange. *)
  e_answer : nat -> string -> Message -> Body -> res goerr Response;
  (** [s.nextID.Add(1)] *)
  e_nextID : nat -> Z
}.

(** The part of a committed model the job operations use. *)
Definition service_model (m : Capabilities.CapabilityModel) : CapabilityModel := {|
  cmUpstream := mUpstream m; cmPolicy := mPolicy m;
  cmRoutes := default {| Routes := []; snapPath := AirPrintPathUnavailable; snapReason := ""; URFTokens := [] |} (mRoutes m) |}.
Definition e_model (E : Environment) (t : nat) (queue : string) : option CapabilityModel :=
  service_model <$> e_client E t queue.

(** [config.Config], the fields the handlers use. *)
Record Config := {
  PublicBaseURL : string;
  Queues : gmap string Configuration.PrinterConfig;
  MaxDocumentBytes : Z
}.
Definition Printers (cfg : Config) : gmap string PrinterConfig := service_printer <$> Queues cfg.

(** A message handed to the upstream client. *)
Record sent := { s_to : string; s_message : Message; s_body : Body }.

Record World := {
  w_store : Store;
  w_tick : nat;
  w_sent : list sent;
  w_error : option string  (** [LastTranslationError] of the queue, when it was set *)
}.

(** A handler may end early with an error, [inl], or with a response, [inr]. *)
Abbreviation HM := (M World (goerr + Response)).
Definition return_ {A} (resp : Response) : HM A := throw (inr resp).
Definition fail {A} (err : goerr) : HM A := throw (inl err).
Definition returned (m : HM Response) : HM Response := fun w =>
  match m w with (Fail_ (inr resp), w') => (Done resp, w') | r => r end.

(** The files and the reader of a document: [io_env] is the environment of the
    translator, its source the client's document. *)
Record PayloadIO := {
  io_env : Env;
  io_temp : option goerr;
  io_ctx : option goerr;
  io_rewind : option goerr;
  io_recording : recording
}.

Record translated := { t_content : list byte; t_result : Urf.Result }.

Section handlers.
Context `{G : GoippLib} `{I : IPLiterals} `{U : UUIDs} `{R : MapRange} (E : Environment) (cfg : Config).

(** ** Primitives *)

Definition ticked (w : World) : World :=
  {| w_store := w_store w; w_tick := S (w_tick w); w_sent := w_sent w; w_error := w_error w |}.
Definition ask {A} (f : nat -> A) : HM A := fun w => (Done (f (w_tick w)), ticked w).

(** A call of the registry, after whatever other requests did to it. *)
Definition registry {A} (op : time -> SM A) : HM (res goerr A) := fun w =>
  let '(o, s) := op (e_now E (w_tick w)) (e_others E (w_tick w) (w_store w)) in
  (match o with Done a => Done (Ok a) | Fail_ e => Done (Err e) | Panics => Panics | OutOfFuel => OutOfFuel end,
   {| w_store := s; w_tick := S (w_tick w); w_sent := w_sent w; w_error := w_error w |}).

(** A call whose error is dropped or only logged. *)
Definition registry_ {A} (op : time -> SM A) : HM unit := _ ← registry op; mret tt.

(** [s.upstream.Do]: the exchange and the checks of the answer. *)
Definition Do (uri : string) (msg : Message) (body : Body) : HM (res goerr Response) := fun w =>
  (Done (match e_answer E (w_tick w) uri msg body with
         | Err e => Err e
         | Ok resp => match checkUpstreamResponse msg resp with Some text => Err (EText text) | None => Ok resp end
         end),
   {| w_store := w_store w; w_tick := S (w_tick w);
      w_sent := w_sent w ++ [{| s_to := uri; s_message := msg; s_body := body |}]; w_error := w_error w |}).

Definition recordTranslationError (err : goerr) : HM unit :=
  modify (fun w => {| w_store := w_store w; w_tick := w_tick w; w_sent := w_sent w; w_error := Some (Error_text err) |}).

(** [if protocolErr != nil { return protocolResponse(...) }] *)
Definition refuse (req : Message) (e : option ProtocolError) : HM unit :=
  match e with Some e => return_ (protocolResponse req (peStatus e) (peMessage e)) | None => mret tt end.

Definition proxyPrinterURI (queue : string) : string := TrimRight (PublicBaseURL cfg) "/" +:+ "/" +:+ queue.

Definition upstreamCapabilities (queue : string) : HM Attributes := ask (fun t => default [] (e_caps E t queue)).

(** The boolean of an attribute with one value. *)
Definition flag (attrs : Attributes) (name : string) : bool :=
  match Attr attrs name with Some (_, [(_, VBoolean b)]) => b | _ => false end.

(** ** What a request asks for *)

Definition format_error (req : Message) (message : string) : ProtocolError :=
  {| peStatus := StatusErrorDocumentFormatNotSupported; peMessage := message;
     peUnsupported := attrsNamed (Operation req) ["document-format"%string] |}.

Definition validatePayloadDocumentFormat (queue : string) (req : Message) : HM (option ProtocolError) :=
  match FirstString (Operation req) "document-format" with
  | Some format =>
      if (TrimSpace format =? "")%string
      then mret (Some (format_error req "document-format is not admitted for a payload-bearing operation"))
      else
        model ← ask (fun t => e_model E t queue);
        mret (match model with
              | None => None
              | Some model =>
                  match Routes (cmRoutes model) with
                  | [] => Some (protocolError StatusErrorDocumentFormatNotSupported
                                  "the proxy has no admitted document formats")
                  | _ =>
                      match routeFor (cmRoutes model) (ToLower (TrimSpace format)) with
                      | Some _ => None
                      | None => Some (format_error req ("document-format " +:+ Quote format +:+
                                                        " is not supported by the proxy"))
                      end
                  end
              end)
  | None => mret (Some (format_error req "document-format is not admitted for a payload-bearing operation"))
  end.

(** The route of a format: the model, the capabilities and the configuration
    are read together, the capabilities once more when there were none. *)
Definition requestRoute (queue format : string) : HM (option DocumentRoute) :=
  '(model, caps) ← ask (fun t => (e_model E t queue, e_caps E t queue));
  reread ← upstreamCapabilities queue;
  mret (routeForRequest model caps (Printers cfg !! queue) (Some reread) format).

Definition clientRoute (queue format : string) (req : Message) : HM (ProtocolError + DocumentRoute) :=
  route ← requestRoute queue format;
  mret (match route with
        | Some route => inr route
        | None => inl (format_error req "document-format is not admitted for this queue")
        end).

(** [inl] is the response that rejects the request. *)
Definition normalizeJobRequest (queue : string) (printer : PrinterConfig) (req : Message)
    : HM (Response + NormalizationResult) :=
  model ← ask (fun t => e_model E t queue);
  upstream ← upstreamCapabilities queue;
  let policy := match model with Some model => cmPolicy model | None => Policy printer end in
  mret (match NormalizeJobAttrsWithOptions (Job req) {|
                oPolicy := policy; oUpstream := upstream; oDropVendorAttrs := DropVendorAttrs printer;
                oPreserveJobAttrs := PreserveJobAttrs printer;
                oFidelity := flag (Operation req) "ipp-attribute-fidelity"; oFidelityMode := pFidelityMode policy |} with
        | inr result => inr result
        | inl e =>
            inl (set_resUnsupported (match neUnsupported e with [] => None | u => Some u end)
                   (protocolResponse req (neStatus e) (neMessage e)))
        end).

(** ** Documents *)

Definition translationLimits (maxBytes : Z) : Limits :=
  if 0 <? maxBytes then {|
    MaxInputBytes := maxBytes; MaxOutputBytes := maxBytes; MaxPages := MaxPages DefaultLimits;
    MaxWidth := MaxWidth DefaultLimits; MaxHeight := MaxHeight DefaultLimits;
    MaxRowBytes := MaxRowBytes DefaultLimits; MaxDecodedBytes := MaxDecodedBytes DefaultLimits |}
  else DefaultLimits.

(** [Ok None] is a route that does not translate. The staging file is its
    content; it is removed on every path. *)
Definition translatePayload (io : PayloadIO) (route : DocumentRoute) (attrs upstream : Attributes) (maxBytes : Z)
    : outcome goerr (option translated) :=
  if negb (Transform route) then Done None
  else
    match src (io_env io), io_temp io with
    | None, _ => Fail_ (EText "emulated document payload is missing")
    | Some _, Some err => Fail_ (EWrap "create AirPrint translation staging file: " err)
    | Some _, None =>
        match Translate (io_env io) {| oMapping := drMapping route; oPage := routePageSettings route attrs upstream;
                                       oLimits := translationLimits maxBytes |} new_translator with
        | (Done result, st) =>
            match io_ctx io, io_rewind io with
            | Some err, _ => Fail_ err
            | None, Some err => Fail_ (EWrap "rewind AirPrint translation staging file: " err)
            | None, None => Done (Some {| t_content := fst (file (hist st)); t_result := result |})
            end
        | (Fail_ err, _) => Fail_ err
        | (Panics, _) => Panics
        | (OutOfFuel, _) => OutOfFuel
        end
    end.

(** The translation in a handler: its error is recorded and answered. *)
Definition translation (io : PayloadIO) (route : DocumentRoute) (attrs upstream : Attributes) (req : Message)
    : HM (option translated) :=
  match translatePayload io route attrs upstream (MaxDocumentBytes cfg) with
  | Done document => mret document
  | Fail_ err =>
      recordTranslationError err;;
      let e := translationErrorProtocol req err in return_ (protocolResponse req (peStatus e) (peMessage e))
  | Panics => panic
  | OutOfFuel => fun w => (OutOfFuel, w)
  end.

(** The metadata of a translated document, of so many copies each. *)
Definition translatedMetadata (t : translated) (copies : Z) : PayloadMetadata := {|
  mBytes := Urf.InputBytes (t_result t); mPageCount := Some (Urf.Pages (t_result t)); mCopies := copies;
  mEstimatedImpressions := Some (i64 (Urf.Pages (t_result t) * copies)) |}.

(** A document is sent: the staged one, or the client's through the recorder,
    whose file [opened] is the [newPayloadRecorderContext] of the caller. The
    error of [Finish] is only logged. *)
Definition sendTranslated (uri : string) (req : Message) (t : translated) (copies : Z)
    : HM (res goerr Response * PayloadMetadata) :=
  answer ← Do uri req (Staged (t_content t));
  mret (answer, translatedMetadata t copies).
Definition sendRecorded (uri : string) (req : Message) (io : PayloadIO) (format : string) (copies : Z)
    : HM (res goerr Response * PayloadMetadata) :=
  answer ← Do uri req (Streamed (recorded (io_recording io)));
  mret (answer, fst (Finish (io_recording io) format copies)).

Definition with_page (route : DocumentRoute) (page : PageSettings) : DocumentRoute := {|
  ClientFormat := ClientFormat route; UpstreamFormat := UpstreamFormat route; Transform := Transform route;
  drMapping := drMapping route; Page := page; Resolutions := Resolutions route; drURFTokens := drURFTokens route |}.

(** ** Print-Job and Create-Job *)

Definition clear_request (operation job : Attributes) (req : Message) : Message :=
  clear_Groups (set_Job job (set_Operation operation req)).

Definition stop_on_rejection (normalized : Response + NormalizationResult) : HM NormalizationResult :=
  match normalized with inl rejected => return_ rejected | inr result => mret result end.
Definition stop_without_route (req : Message) (routed : ProtocolError + DocumentRoute) : HM DocumentRoute :=
  match routed with
  | inl e => return_ (protocolResponse req (peStatus e) (peMessage e))
  | inr route => mret route
  end.

Definition reserve (queue : string) (req : Message) (format : string) (route : DocumentRoute) (copies : Z) : HM Z :=
  let user := default ""%string (FirstString (Operation req) "requesting-user-name") in
  let jobName := default ""%string (FirstString (Operation req) "job-name") in
  reserved ← registry (fun now => Reserve now [AJob (reserved_job queue user jobName format route copies)]);
  match reserved with Ok id => mret id | Err err => fail (EWrap "reserve proxy job: " err) end.

Definition uncertain (queue : string) (id : Z) (reason : string) : HM unit :=
  registry_ (fun now => MarkUncertain now [AString queue; AInt KInt id; AString reason]).

(** The printer refused a reserved job: it has failed. *)
Definition rejected_by_printer (queue : string) (id : Z) (resp : Response) : HM unit :=
  registry_ (fun now => MarkTerminal now [AString queue; AInt KInt id; AString StateFailed;
    AString (status_String (resCode resp)); AString (statusMessage resp)]).

(** The printer accepted a reserved job: its identity there is recorded, or
    the job is uncertain. *)
Definition record_mapping (queue : string) (id : Z) (resp : Response) (missing : string) : HM unit :=
  let upstreamJobID := default 0 (FirstInt (default [] (resJob resp)) "job-id") in
  let upstreamJobURI := default ""%string (FirstString (default [] (resJob resp)) "job-uri") in
  if 0 <? upstreamJobID then
    mapped ← registry (fun now => MarkMapped now [AString queue; AInt KInt id; AInt KInt upstreamJobID;
                                                  AString upstreamJobURI]);
    match mapped with Ok _ => mret tt | Err err => uncertain queue id (Error_text err) end
  else uncertain queue id missing.

Definition record_document (queue : string) (id : Z) (format : string) (meta : PayloadMetadata) (last : bool) : HM unit :=
  recorded ← registry (fun now => UpdatePayloadMetadataWithLastDocument now queue id format (mBytes meta)
                                    (mPageCount meta) (mCopies meta) (mEstimatedImpressions meta) last);
  match recorded with Ok _ => mret tt | Err err => uncertain queue id (Error_text err) end.

Definition print_request (req : Message) (route : DocumentRoute) (printer : PrinterConfig) (job : Attributes) : Message :=
  clear_request (rewriteOperationForUpstream (rewriteDocumentFormat (Operation req) (UpstreamFormat route))
                   (UpstreamURI printer)) job req.

Definition handlePrintJob (queue : string) (printer : PrinterConfig) (req : Message) (io : PayloadIO) : HM Response :=
  refuse req (validateExplicitDocumentFormat (Operation req));;
  admitted ← validatePayloadDocumentFormat queue req;
  refuse req admitted;;
  let format := default ""%string (FirstString (Operation req) "document-format") in
  routed ← clientRoute queue format req;
  route ← stop_without_route req routed;
  normalized ← normalizeJobRequest queue printer req;
  result ← stop_on_rejection normalized;
  let normalized := nAttrs result in
  let copies := copiesFromAttrs normalized in
  upstream ← upstreamCapabilities queue;
  let route := with_page route (routePageSettings route normalized upstream) in
  document ← translation io route normalized upstream req;
  proxyID ← reserve queue req format route copies;
  let sent_req := print_request req route printer normalized in
  '(answer, meta) ← match document with
    | Some t => sendTranslated (UpstreamURI printer) sent_req t copies
    | None =>
        match rec_open (io_recording io) with
        | Some err =>
            recordTranslationError err;;
            registry_ (fun now => MarkTerminal now [AString queue; AInt KInt proxyID; AString StateFailed;
                                                    AString ""; AString (Error_text err)]);;
            fail err
        | None => sendRecorded (UpstreamURI printer) sent_req io format copies
        end
    end;
  match answer with
  | Err err => uncertain queue proxyID (Error_text err);; fail err
  | Ok resp =>
      if negb (ippSuccess resp) then rejected_by_printer queue proxyID resp;; mret resp
      else
        let resp := applyNormalizationResult resp result in
        record_mapping queue proxyID resp "upstream accepted job without job-id";;
        record_document queue proxyID format meta true;;
        mret (rewriteResponseJob resp proxyID (proxyPrinterURI queue))
  end.

Definition handleCreateJob (queue : string) (printer : PrinterConfig) (req : Message) : HM Response :=
  normalized ← normalizeJobRequest queue printer req;
  result ← stop_on_rejection normalized;
  let normalized := nAttrs result in
  let format := default ""%string (FirstString (Operation req) "document-format") in
  routed ← clientRoute queue format req;
  route ← stop_without_route req routed;
  let format := if (TrimSpace format =? "")%string then ClientFormat route else format in
  upstream ← upstreamCapabilities queue;
  let route := with_page route (routePageSettings route normalized upstream) in
  let copies := copiesFromAttrs normalized in
  proxyID ← reserve queue req format route copies;
  answer ← Do (UpstreamURI printer) (print_request req route printer normalized) NoBody;
  match answer with
  | Err err => uncertain queue proxyID (Error_text err);; fail err
  | Ok resp =>
      if negb (ippSuccess resp) then rejected_by_printer queue proxyID resp;; mret resp
      else
        let resp := applyNormalizationResult resp result in
        record_mapping queue proxyID resp "upstream created job without job-id";;
        mret (rewriteResponseJob resp proxyID (proxyPrinterURI queue))
  end.

(** [resp] is nil when the exchange failed; the result is then not applied. *)
Definition handleValidateJob (queue : string) (printer : PrinterConfig) (req : Message) : HM Response :=
  normalized ← normalizeJobRequest queue printer req;
  result ← stop_on_rejection normalized;
  let clientFormat := default ""%string (FirstString (Operation req) "document-format") in
  routed ← clientRoute queue clientFormat req;
  route ← stop_without_route req routed;
  answer ← Do (UpstreamURI printer) (print_request req route printer (nAttrs result)) NoBody;
  match answer with
  | Err err => fail err
  | Ok resp => mret (applyNormalizationResult resp result)
  end.

(** ** Jobs that the proxy knows *)

Definition lookupRequestJob (queue : string) (req : Message) : HM (res goerr Store.Job) :=
  let proxyJobID := requestProxyJobID req in
  if proxyJobID =? 0 then mret (Err ErrNoRows)
  else registry (fun _ => GetByProxyID [AString queue; AInt KInt proxyJobID]).

(** [!job.HasUpstreamJobID || job.UpstreamJobID < 1 || ...] *)
Definition mapping_unavailable (job : Store.Job) : bool :=
  negb (HasUpstreamJobID job) || (UpstreamJobID job <? 1) ||
  (State (life job) =? StateReserved)%string || (State (life job) =? StateUncertain)%string.

Definition state_labels : list (Z * string) :=
  [(3, "pending"); (4, "pending-held"); (5, "processing"); (6, "processing-stopped");
   (7, "canceled"); (8, "aborted"); (9, "completed")]%string.
Definition state_label (state : Z) : string :=
  match List.find (fun kv => fst kv =? state) state_labels with Some (_, label) => label | None => Itoa state end.

(** What a job-state of the printer does to the registry. *)
Definition syncObservedJob (queue : string) (job : Store.Job) (attrs : Attributes) : HM unit :=
  match FirstInt attrs "job-state" with
  | None => mret tt
  | Some state =>
      let args := [AString queue; AInt KInt (ProxyJobID job); AString (state_label state); AString ""] in
      if (7 <=? state) && (state <=? 9) then registry_ (fun now => MarkTerminal now args)
      else registry_ (fun now => UpdateObserved now args)
  end.

Definition handleSendDocument (queue : string) (printer : PrinterConfig) (req : Message) (io : PayloadIO)
    (hasPayload : bool) : HM Response :=
  let answer status message : HM Response := return_ (protocolResponse req status message) in
  found ← lookupRequestJob queue req;
  job ← match found with Ok job => mret job | Err err => fail err end;
  let proxyJobID := if requestProxyJobID req =? 0 then ProxyJobID job else requestProxyJobID req in
  let requestedFormat := FirstString (Operation req) "document-format" in
  route ← match routeFromStore job with
          | Some route => mret (Some route)
          | None =>
              let fallbackFormat := default ""%string requestedFormat in
              requestRoute queue (if (TrimSpace fallbackFormat =? "")%string then DocumentFormat job else fallbackFormat)
          end;
  match route with
  | None => answer StatusErrorNotPossible "job has no pinned document route"
  | Some route =>
      if match requestedFormat with
         | Some f => negb (EqualFold (TrimSpace f) (TrimSpace (ClientFormat route)))
         | None => false
         end
      then answer StatusErrorConflicting "document-format conflicts with the route pinned at Create-Job"
      else if mapping_unavailable job || IsTerminalState (State (life job))
      then answer StatusErrorNotPossible "job is not available for document submission"
      else
        let lastDocument := flag (Operation req) "last-document" in
        if LastDocument (payload job) || ((0 <? DocumentCount (payload job)) && hasPayload)
        then answer StatusErrorMultipleJobsNotSupported "this proxy accepts exactly one document per job"
        else
          let format := or_str (ClientFormat route) (DocumentFormat job) in
          if hasPayload && (format =? "")%string
          then answer StatusErrorDocumentFormatNotSupported "job has no pinned document format"
          else
            document ← (if hasPayload && Transform route
                        then upstream ← upstreamCapabilities queue; translation io route [] upstream req
                        else mret None);
            let sent_req := clear_Groups (set_Operation (rewriteOperationForUpstream
                              (rewriteDocumentFormat (rewriteMappedJobOperation (Operation req) job)
                                 (UpstreamFormat route)) (UpstreamURI printer)) req) in
            let copies := Copies (payload job) in
            '(sent_answer, meta) ← match document with
              | Some t => sendTranslated (UpstreamURI printer) sent_req t copies
              | None =>
                  match rec_open (io_recording io) with
                  | Some err => uncertain queue proxyJobID (Error_text err);; fail err
                  | None => sendRecorded (UpstreamURI printer) sent_req io format copies
                  end
              end;
            match sent_answer with
            | Err err => uncertain queue proxyJobID (Error_text err);; fail err
            | Ok resp =>
                (if negb (ippSuccess resp)
                 then when (0 <? proxyJobID) (registry_ (fun now => UpdateState now queue proxyJobID "failed"))
                 else when (0 <? proxyJobID) (record_document queue proxyJobID format meta lastDocument));;
                mret (rewriteResponseJob resp proxyJobID (proxyPrinterURI queue))
            end
  end.

(** Get-Job-Attributes, Cancel-Job and Close-Job. *)
Definition handleMappedJobOperation (queue : string) (printer : PrinterConfig) (req : Message) : HM Response :=
  found ← lookupRequestJob queue req;
  match found with
  | Err err =>
      if Is err ErrNoRows
      then mret (set_resOperation (responseOperationAttrs "unknown job")
                   (NewResponse (Version req) StatusErrorNotFound (RequestID req)))
      else fail err
  | Ok job =>
      if mapping_unavailable job
      then mret (protocolResponse req StatusErrorNotPossible "job mapping is not yet available")
      else if IsTerminalState (State (life job)) && negb (Code req =? OpGetJobAttributes)
      then mret (protocolResponse req StatusErrorNotPossible "job is already terminal")
      else
        let sent_req := clear_Groups (set_Operation (rewriteOperationForUpstream
                          (rewriteMappedJobOperation (Operation req) job) (UpstreamURI printer)) req) in
        answer ← Do (UpstreamURI printer) sent_req NoBody;
        match answer with
        | Err err =>
            when ((Code req =? OpCancelJob) || (Code req =? OpCloseJob))
              (uncertain queue (ProxyJobID job) (Error_text err));;
            fail err
        | Ok resp =>
            when (ippSuccess resp)
              (if Code req =? OpCancelJob
               then registry_ (fun now => MarkTerminal now [AString queue; AInt KInt (ProxyJobID job);
                                                            AString StateCanceled; AString ""])
               else syncObservedJob queue job (default [] (resJob resp)));;
            mret (rewriteResponseJob resp (ProxyJobID job) (proxyPrinterURI queue))
        end
  end.

Definition forwardPrinterOperation (printer : PrinterConfig) (req : Message) : HM Response :=
  answer ← Do (UpstreamURI printer)
             (clear_Groups (set_Operation (rewriteOperationForUpstream (Operation req) (UpstreamURI printer)) req)) NoBody;
  match answer with Ok resp => mret resp | Err err => fail err end.

(** ** Get-Jobs *)

Record jobs_query := { q_user : string; q_limit : Z; q_requested : gset string; q_mine : bool }.

(** [filterJob]: the attributes of a job of the answer as the client sees
    them, and the number of jobs kept. *)
Definition filterJob (queue : string) (jq : jobs_query) (kept : Z) (attrs : Attributes) : HM (option Attributes * Z) :=
  if (0 <? q_limit jq) && (q_limit jq <=? kept) then mret (None, kept)
  else
    match FirstInt attrs "job-id" with
    | None => mret (None, kept)
    | Some upstreamID =>
        found ← registry (fun _ => GetByUpstreamID [AString queue; AInt KInt upstreamID]);
        match found with
        | Err _ => mret (None, kept)
        | Ok job =>
            if q_mine jq && negb (RequestingUser (names job) =? q_user jq)%string then mret (None, kept)
            else
              syncObservedJob queue job attrs;;
              mret (Some (projectJobAttributes (rewriteJobAttrs attrs (ProxyJobID job) (proxyPrinterURI queue))
                            (q_requested jq)), kept + 1)
        end
    end.

(** The loop over the groups: those that stay, and the attributes of the jobs
    that stay, appended to a nil slice. *)
Fixpoint filterGroups (queue : string) (jq : jobs_query) (kept : Z) (job : option Attributes) (groups : list Group)
    : HM (list Group * option Attributes) :=
  match groups with
  | [] => mret ([], job)
  | g :: rest =>
      if negb (Tag g =? TagJobGroup) then
        '(l, job) ← filterGroups queue jq kept job rest;
        mret (g :: l, job)
      else
        '(attrs, kept) ← filterJob queue jq kept (Attrs g);
        match attrs with
        | Some a =>
            '(l, job) ← filterGroups queue jq kept (append_attrs job a) rest;
            mret (mkGroup (Tag g) a :: l, job)
        | None => filterGroups queue jq kept job rest
        end
  end.

Definition jobs_request (req : Message) (printer : PrinterConfig) : Message :=
  clear_Groups (set_Operation
    (rewriteOperationForUpstream
       (DropAttrs (Operation req) ["limit"; "requested-attributes"]%string ++
        [MakeAttribute "requested-attributes" TagKeyword (VString "all")])
       (UpstreamURI printer)) req).

Definition handleGetJobs (queue : string) (printer : PrinterConfig) (req : Message) : HM Response :=
  let jq := {|
    q_user := default ""%string (FirstString (Operation req) "requesting-user-name");
    q_limit := default 0 (FirstInt (Operation req) "limit");
    q_requested := requestedJobAttributes (Operation req);
    q_mine := flag (Operation req) "my-jobs" |} in
  answer ← Do (UpstreamURI printer) (jobs_request req printer) NoBody;
  match answer with
  | Err err => fail err
  | Ok resp =>
      if negb (ippSuccess resp) then mret resp
      else
        match resGroups resp with
        | Some groups =>
            '(groups, job) ← filterGroups queue jq 0 None groups;
            mret (set_resGroups (Some groups) (set_resJob job resp))
        | None =>
            '(attrs, _) ← filterJob queue jq 0 (default [] (resJob resp));
            mret (set_resJob attrs resp)
        end
  end.

(** ** Cancel-My-Jobs *)

Definition cancel_request (req : Message) (printer : PrinterConfig) (user : string) (upstreamID id : Z) : Message :=
  set_Operation (BasicOperationAttrs (UpstreamURI printer) ++
                 [NameAttr "requesting-user-name" user; Integer "job-id" upstreamID])
    (NewRequest (Version req) OpCancelJob (u32 id)).

(** The loop over the jobs, with the number of failures. *)
Fixpoint cancelJobs (queue : string) (printer : PrinterConfig) (req : Message) (user : string) (failed : Z)
    (jobs : list Store.Job) : HM Z :=
  match jobs with
  | [] => mret failed
  | job :: rest =>
      if negb (HasUpstreamJobID job) || (UpstreamJobID job <? 1) then cancelJobs queue printer req user failed rest
      else
        id ← ask (e_nextID E);
        answer ← Do (UpstreamURI printer) (cancel_request req printer user (UpstreamJobID job) id) NoBody;
        match answer with
        | Err err =>
            uncertain queue (ProxyJobID job) (Error_text err);;
            cancelJobs queue printer req user (failed + 1) rest
        | Ok resp =>
            if negb (ippSuccess resp) then cancelJobs queue printer req user (failed + 1) rest
            else
              registry_ (fun now => MarkTerminal now [AString queue; AInt KInt (ProxyJobID job);
                                                      AString StateCanceled; AString ""]);;
              cancelJobs queue printer req user failed rest
        end
  end.

(** [store.JobFilter{Queue: queue, RequestingUser: user, ExcludeTerminal: true}] *)
Definition active_jobs_of (queue user : string) : JobFilter := {|
  fQueue := queue; fQueueOwner := ""; fRequestingUser := user; fUser := ""; fRequestingUserName := "";
  fState := ""; fStates := []; fObservedState := ""; fProxyJobID := 0; fUpstreamJobID := 0;
  fCreatedAfter := 0; fCreatedBefore := 0; fUpdatedAfter := 0; fUpdatedBefore := 0;
  fTerminalBefore := 0; fTerminalAfter := 0; fIncludeTerminal := false; fExcludeTerminal := true;
  fLimit := 0; fOffset := 0 |}.

Definition handleCancelMyJobs (queue : string) (printer : PrinterConfig) (req : Message) : HM Response :=
  let user := default ""%string (FirstString (Operation req) "requesting-user-name") in
  if (user =? "")%string
  then mret (protocolResponse req StatusErrorBadRequest "requesting-user-name is required")
  else
    listed ← registry (fun _ => ListJobs [AFilter (active_jobs_of queue user)]);
    match listed with
    | Err err => fail err
    | Ok jobs =>
        failed ← cancelJobs queue printer req user 0 jobs;
        mret (if 0 <? failed
              then protocolResponse req StatusErrorNotPossible (Itoa failed +:+ " jobs could not be canceled")
              else protocolResponse req StatusOk "")
    end.

(** ** The concurrent submissions of a queue

    [free] is what the attempt to take a slot finds: [None] is a queue without
    a limit. A slot that was taken is given back when the operation returns. *)
Definition withPayloadSlot (free : option bool) (req : Message) (operation : HM Response) : HM Response :=
  match free with
  | None | Some true => operation
  | Some false => mret (set_resOperation (responseOperationAttrs "too many concurrent document submissions")
                          (NewResponse (Version req) StatusErrorBusy (RequestID req)))
  end.

(** ** Requests *)

(** What the HTTP request of a decoded message provides: its length (negative
    when unknown), the bytes its envelope took, whether the document has a
    first byte, the slot, and the errors of staging a document of unknown
    length and of the context. [x_io] is the document as the handlers get it. *)
Record exchange := {
  x_length : Z;
  x_read : Z;
  x_peek : bool;
  x_free : option bool;
  x_staging : option goerr;
  x_staged_ctx : option goerr;
  x_ctx : option goerr;
  x_io : PayloadIO
}.

(** Get-Printer-Attributes: the description, the model, the identity and the
    DNS-SD name of the queue are read one after the other. *)
Definition getPrinterAttributes (queue : string) (config : Configuration.PrinterConfig) (req : Message) : HM Response :=
  capabilities ← ask (fun t => e_caps E t queue);
  model ← ask (fun t => e_client E t queue);
  identity ← ask (fun t => proxyPrinterIdentity (proxyPrinterURI queue) (e_now E t) (e_startedAt E) (e_configChangedAt E t queue));
  dnsName ← ask (fun t => e_dnsName E t queue);
  mret (handleGetPrinterAttributes capabilities model dnsName queue (proxyPrinterURI queue) config identity req).

(** The switch over the operations. *)
Definition dispatch (x : exchange) (hasPayload : bool) (queue : string) (config : Configuration.PrinterConfig)
    (req : Message) : HM Response :=
  let printer := service_printer config in
  let op := Code req in
  let mapped := returned (handleMappedJobOperation queue printer req) in
  let supported m message :=
    upstream ← upstreamCapabilities queue;
    if negb (upstreamSupportsOperation upstream op) then mret (operationNotSupported req message) else m in
  if op =? OpGetPrinterAttributes then getPrinterAttributes queue config req
  else if op =? OpValidateJob then returned (handleValidateJob queue printer req)
  else if op =? OpPrintJob then
    withPayloadSlot (x_free x) req (returned (handlePrintJob queue printer req (x_io x)))
  else if op =? OpCreateJob then returned (handleCreateJob queue printer req)
  else if op =? OpSendDocument then
    withPayloadSlot (x_free x) req (returned (handleSendDocument queue printer req (x_io x) hasPayload))
  else if (op =? OpGetJobAttributes) || (op =? OpCancelJob) then mapped
  else if op =? OpCloseJob then supported mapped "Close-Job is not supported by the upstream printer"%string
  else if op =? OpGetJobs then returned (handleGetJobs queue printer req)
  else if op =? OpCancelMyJobs then returned (handleCancelMyJobs queue printer req)
  else if op =? OpIdentifyPrinter then
    supported (forwardPrinterOperation printer req) "Identify-Printer is not supported by the upstream printer"%string
  else mret (set_resOperation (responseOperationAttrs "unsupported operation")
               (NewResponse (Version req) StatusErrorOperationNotSupported (RequestID req))).

(** An error of the operation becomes a response, and every response gets the
    version of the request and the canonical shape. *)
Definition answered (req : Message) (m : HM Response) : HM Response := fun w =>
  let close resp := shapeIPPResponse (set_resVersion (Version req) resp) in
  match m w with
  | (Done resp, w') => (Done (close resp), w')
  | (Fail_ (inr resp), w') => (Done (close resp), w')
  | (Fail_ (inl err), w') =>
      (Done (close (set_resOperation (responseOperationAttrs (Error_text err))
                      (NewResponse (Version req) StatusErrorServiceUnavailable (RequestID req)))), w')
  | r => r
  end.

(** The checks before the document: the explicit format of Print-Job and the
    formats the queue admits. *)
Definition document_checks (queue : string) (req : Message) (hasPayload : bool) : HM (option ProtocolError) :=
  let op := Code req in
  if (op =? OpPrintJob) || ((op =? OpSendDocument) && hasPayload) then
    match (if op =? OpPrintJob then validateExplicitDocumentFormat (Operation req) else None) with
    | Some e => mret (Some e)
    | None =>
        let format := FirstString (Operation req) "document-format" in
        if ((op =? OpPrintJob) || bool_decide (is_Some format)) && (TrimSpace (default "" format) =? "")%string
        then mret (Some (format_error req "document-format is not admitted for a payload-bearing operation"))
        else if op =? OpPrintJob then validatePayloadDocumentFormat queue req
        else mret None
    end
  else mret None.

(** [ippHandler], from the decoded message on. *)
Definition ippHandler (x : exchange) (queue : string) (req : Message) : HM Response :=
  let op := Code req in
  let error status message : HM Response := mret (ippError (Version req) (RequestID req) status message) in
  match Queues cfg !! queue with
  | None => mret (ippError DefaultVersion 1 StatusErrorNotFound "unknown printer")
  | Some config =>
      let documentMax := if MaxDocumentBytes cfg <=? 0 then 2 ^ 30 else MaxDocumentBytes cfg in
      if (0 <=? x_length x) && (documentMax <? x_length x - x_read x)
      then error StatusErrorRequestEntity "document exceeds configured size limit"%string
      else if negb (supportedIPPVersion (Version req)) then
        mret (ippError (closestSupportedVersion (Version req)) (RequestID req) StatusErrorVersionNotSupported
                "IPP version not supported")
      else
        let hasPayload := ((op =? OpPrintJob) || (op =? OpSendDocument)) && x_peek x in
        match ValidateProtocolRequest (Some req) (proxyPrinterURI queue) hasPayload with
        | Some e => mret (ippProtocolError (Version req) (RequestID req) e)
        | None =>
            available ← ask (fun t => bool_decide (is_Some (e_caps E t queue)));
            if negb available then error StatusErrorPrinterIsDeactivated "printer capabilities are not available"%string
            else
              upstream ← upstreamCapabilities queue;
              if negb (operationAvailable (proxySupportedOperations upstream) op) then
                answered req (mret (operationNotSupported req "operation is not supported by this queue"))
              else
                refused ← document_checks queue req hasPayload;
                match refused with
                | Some e => mret (ippProtocolError (Version req) (RequestID req) e)
                | None =>
                    let unknown := (x_length x <? 0) && ((op =? OpPrintJob) || (op =? OpSendDocument)) in
                    match (if unknown then x_staging x else None), (if unknown then x_staged_ctx x else None), x_ctx x with
                    | Some err, _, _ =>
                        error (if Is err errReadLimitExceeded then StatusErrorRequestEntity
                               else StatusErrorServiceUnavailable) (Error_text err)
                    | None, Some err, _ | None, None, Some err => error StatusErrorServiceUnavailable (Error_text err)
                    | None, None, None =>
                        answered req (dispatch x hasPayload queue config req)
                    end
                end
        end
  end.
End handlers.
