(* ===== verification/Reconcile.v ===== *)
(** * Maintenance: retention and reconciliation ([internal/proxy/service.go])

    [runMaintenance] deletes the jobs that ended long ago and asks the
    printers about the jobs whose fate is unknown: an uncertain job that one
    job of the printer, and only one, agrees with is mapped to it; a mapped
    job follows the state of its counterpart.

    The queues are visited in the order of a Go map, which is none: the order
    is an argument. *)

From Stdlib Require Import ZArith Lia Ascii String.
From stdpp Require Import base tactics list strings gmap.
From S2P Require Import Prelude GoString GoError GoTime Store Urf Goipp IppAttrs GoUrl Protocol.
From S2P Require Import MediaCatalog Normalizer Formats Messages Routing Payload Handlers.

Section reconcile.
Context `{G : GoippLib} (E : Environment) (cfg : Config).

(** One comparison: an empty field of the job decides nothing. The result is
    the [matched] of the next one, or the early [return false]. *)
Definition agrees (field name : string) (attrs : Attributes) (matched : option bool) : option bool :=
  match matched with
  | None => None
  | Some m =>
      if (field =? "")%string then Some m
      else match FirstString attrs name with
           | Some value => if (value =? field)%string then Some true else None
           | None => None
           end
  end.

Definition sameReconciledJob (job : Store.Job) (attrs : Attributes) : bool :=
  default false
    (agrees (RequestingUser (names job)) "job-originating-user-name" attrs
      (agrees (JobName (names job)) "job-name" attrs
        (agrees (UpstreamJobURI job) "job-uri" attrs
          (Some (HasUpstreamJobID job && (0 <? UpstreamJobID job)))))).

(** The loop over the jobs of the printer for a job with an upstream id: the
    first that carries the id and agrees decides. *)
Fixpoint follow (queue : string) (job : Store.Job) (upstreamJobs : list Attributes) : HM unit :=
  match upstreamJobs with
  | [] => mret tt
  | attrs :: rest =>
      if bool_decide (FirstInt attrs "job-id" = Some (UpstreamJobID job)) && sameReconciledJob job attrs then
        if IsTerminalState (State (life job)) then mret tt
        else
          mapped ← registry E (fun now => MarkMapped now [AString queue; AInt KInt (ProxyJobID job);
                     AInt KInt (UpstreamJobID job); AString (UpstreamJobURI job)]);
          match mapped with Ok _ => syncObservedJob E queue job attrs | Err _ => mret tt end
      else follow queue job rest
  end.

(** The body of the loop over the jobs of a queue. *)
Definition reconcileJob (queue : string) (upstreamJobs : list Attributes) (job : Store.Job) : HM unit :=
  when (State (life job) =? StateUncertain)%string (
    at_ ← ask (e_now E);
    registry_ E (fun now => MarkReconcileAttempt now [AInt KInt (ProxyJobID job); ATime at_]));;
  if HasUpstreamJobID job then follow queue job upstreamJobs
  else
    match List.filter (sameReconciledJob job) upstreamJobs with
    | [attrs] =>
        match FirstInt attrs "job-id" with
        | Some upstreamID =>
            if upstreamID <? 1 then mret tt
            else
              let upstreamURI := default ""%string (FirstString attrs "job-uri") in
              mapped ← registry E (fun now => MarkMapped now [AString queue; AInt KInt (ProxyJobID job);
                         AInt KInt upstreamID; AString upstreamURI]);
              match mapped with Ok _ => syncObservedJob E queue job attrs | Err _ => mret tt end
        | None => mret tt
        end
    | _ => mret tt
    end.

Fixpoint reconcileJobs (queue : string) (upstreamJobs : list Attributes) (jobs : list Store.Job) : HM unit :=
  match jobs with
  | [] => mret tt
  | job :: rest => reconcileJob queue upstreamJobs job;; reconcileJobs queue upstreamJobs rest
  end.

Definition reconcile_request (printer : PrinterConfig) (id : Z) : Message :=
  set_Operation (BasicOperationAttrs (UpstreamURI printer) ++
    [Keyword "which-jobs" "all";
     MakeAttr "requested-attributes" TagKeyword (VString "job-id")
       (map VString ["job-uri"; "job-name"; "job-originating-user-name"; "job-state"; "job-state-reasons";
                     "job-impressions-completed"; "job-media-sheets-completed"]%string)])
    (NewRequest DefaultVersion OpGetJobs (u32 id)).

(** The body of the loop over the queues. *)
Definition reconcileQueue (queue : string) (jobs : list Store.Job) : HM unit :=
  match Printers cfg !! queue with
  | None => mret tt
  | Some printer =>
      available ← ask (fun t => bool_decide (is_Some (e_caps E t queue)));
      if negb available then mret tt
      else
        id ← ask (e_nextID E);
        answer ← Do E (UpstreamURI printer) (reconcile_request printer id) NoBody;
        match answer with
        | Ok response =>
            if negb (ippSuccess response) then mret tt
            else reconcileJobs queue (responseJobGroups (Some response)) jobs
        | Err _ => mret tt
        end
  end.

Fixpoint reconcileQueues (byQueue : list (string * list Store.Job)) : HM unit :=
  match byQueue with
  | [] => mret tt
  | (queue, jobs) :: rest => reconcileQueue queue jobs;; reconcileQueues rest
  end.

(** [byQueue], in the order of the jobs for each queue. *)
Definition jobs_by_queue (order : list string) (jobs : list Store.Job) : list (string * list Store.Job) :=
  map (fun q => (q, List.filter (fun job => (Queue (names job) =? q)%string) jobs)) order.

Definition set_fState (st : string) (after : time) : JobFilter := {|
  fQueue := ""; fQueueOwner := ""; fRequestingUser := ""; fUser := ""; fRequestingUserName := "";
  fState := st; fStates := []; fObservedState := ""; fProxyJobID := 0; fUpstreamJobID := 0;
  fCreatedAfter := 0; fCreatedBefore := 0; fUpdatedAfter := 0; fUpdatedBefore := 0;
  fTerminalBefore := 0; fTerminalAfter := after; fIncludeTerminal := false; fExcludeTerminal := false;
  fLimit := 0; fOffset := 0 |}.

Definition or_fail {A} (r : res goerr A) : HM A := match r with Ok a => mret a | Err e => fail e end.

(** [statistics] is [s.statistics.Enabled()]; [order] puts the queues of the
    jobs found in some order. *)
Definition reconcileUncertainJobs (statistics : bool) (order : list Store.Job -> list string) : HM unit :=
  at_ ← ask (e_now E);
  candidates ← registry E (fun now => ReconciliationCandidates now [ATime at_; AInt KInt 100]);
  candidates ← or_fail candidates;
  mapped ← registry E (fun _ => ListJobs [AFilter (set_fState StateMapped 0)]);
  mapped ← or_fail mapped;
  canceled ← (if statistics then
                at_ ← ask (e_now E);
                canceled ← registry E (fun _ => ListJobs [AFilter (set_fState StateCanceled (Add at_ (-10 * Minute)))]);
                or_fail canceled
              else mret []);
  let jobs := candidates ++ mapped ++ canceled in
  reconcileQueues (jobs_by_queue (order jobs) jobs).

(** An error that is only logged. *)
Definition logged (m : HM unit) : HM unit := fun w => match m w with (Fail_ _, w') => (Done tt, w') | r => r end.

Definition runMaintenance (retention : Z) (statistics : bool) (order : list Store.Job -> list string) : HM unit :=
  at_ ← ask (e_now E);
  registry_ E (fun now => CleanupExpired now at_ retention);;
  logged (reconcileUncertainJobs statistics order).
End reconcile.
