(* ===== verification/HandlersProofs.v ===== *)
(** * The handlers: how they use the registry

    The calls of the registry that the service makes ([issued]), the stores
    they lead to ([served]), and the rules by which a handler is run
    symbolically: what each primitive does to the world. *)

From Stdlib Require Import ZArith Lia Ascii String Strings.Byte Sorted.
From stdpp Require Import base tactics list strings gmap relations.
From S2P Require Import Configuration PrinterDescription Capabilities.
From S2P Require Import Prelude GoString GoError Urf UrfSpec UrfProofs GoTime Store StoreProofs StoreTheorems.
From S2P Require Import Goipp IppAttrs GoUrl Protocol MediaCatalog Normalizer Formats Messages Routing Payload.
From S2P Require Import Handlers Reconcile.

(** ** The calls the service makes *)

Inductive issued : call -> Prop :=
| issued_reserve job : issued (CallReserve [AJob job])
| issued_mapped args : issued (CallMarkMapped args)
| issued_uncertain args : issued (CallMarkUncertain args)
| issued_terminal args : issued (CallMarkTerminal args)
| issued_observed args : issued (CallUpdateObserved args)
| issued_failed q id : issued (CallUpdateState q id "failed")
| issued_document args : issued (CallUpdateDocument args)
| issued_attempt args : issued (CallMarkReconcileAttempt args)
| issued_cleanup t retention : issued (CallCleanupExpired t retention).

Definition serve (s s' : Store) : Prop := exists now c, issued c /\ s' = perform now c s.
Definition served : Store -> Store -> Prop := rtc serve.

Lemma served_steps s s' : served s s' -> rtc step s s'.
Proof. induction 1 as [|x y z (now & c & _ & ->) _ IH]; [done|]. eapply rtc_l; [constructor|done]. Qed.

Lemma served_ok s s' : served s s' -> store_ok s -> store_ok s' /\ seq s <= seq s'.
Proof.
  intros H%served_steps Hok. split; [by eapply steps_ok|]. by destruct (steps_rows _ _ H Hok).
Qed.

(** Every method ends normally or refuses. *)
Class Answers {A} (m : SM A) : Prop := answers : forall s, wp m (fun _ _ => True) (fun _ _ => True) s.

#[export] Instance an_ret A (a : A) : Answers (mret a).
Proof. done. Qed.
#[export] Instance an_throw A e : Answers (throw e : SM A).
Proof. done. Qed.
#[export] Instance an_lift A (r : res goerr A) : Answers (lift_res r).
Proof. by destruct r. Qed.
#[export] Instance an_bind A B (m : SM A) (f : A -> SM B) : Answers m -> (forall a, Answers (f a)) -> Answers (m ≫= f).
Proof. intros Hm Hf s. apply wp_bind. eapply wp_mono; [apply Hm|intros a s' _; apply Hf|done]. Qed.
#[export] Instance an_if A (b : bool) (m n : SM A) : Answers m -> Answers n -> Answers (if b then m else n).
Proof. by destruct b. Qed.
#[export] Instance an_when b (m : SM unit) : Answers m -> Answers (when b m).
Proof. by destruct b. Qed.
#[export] Instance an_list A B (l : list B) (m : SM A) (n : B -> list B -> SM A) :
  Answers m -> (forall x r, Answers (n x r)) -> Answers (match l with [] => m | x :: r => n x r end).
Proof. by destruct l. Qed.
#[export] Instance an_tx A (m : SM A) : Answers m -> Answers (tx m).
Proof. intros H s. specialize (H s). unfold wp, tx in *. by destruct (m s) as [[] ?]. Qed.
#[export] Instance an_query p : Answers (query p).
Proof. done. Qed.
#[export] Instance an_query_row p : Answers (query_row p).
Proof. unfold query_row. apply _. Qed.
#[export] Instance an_insert r : Answers (exec_insert r).
Proof. intros s. unfold wp, exec_insert. by destruct (unique_mappings _). Qed.
#[export] Instance an_update p f : Answers (exec_update p f).
Proof. intros s. unfold wp, exec_update. by destruct (unique_mappings _). Qed.
#[export] Instance an_update_mapped p f : Answers (exec_update_mapped p f).
Proof. intros s. unfold wp, exec_update_mapped, exec_update. by destruct (unique_mappings _). Qed.
#[export] Instance an_delete p : Answers (exec_delete p).
Proof. done. Qed.
#[export] Instance an_affected n : Answers (some_affected n).
Proof. unfold some_affected. apply _. Qed.
#[export] Instance an_refuse p : Answers (refuse_or_missing p).
Proof. unfold refuse_or_missing. apply _. Qed.

Ltac method_answers :=
  repeat match goal with
    | |- Answers (match ?x with (_, _) => _ end) => destruct x
    | |- Answers (_ ≫= _) => apply an_bind; [|intros]
    | |- Answers (if _ then _ else _) => apply an_if
    | |- Answers (tx _) => apply an_tx
    | |- _ => progress cbv zeta
    end; try apply _.

#[export] Instance an_Reserve now args : Answers (Reserve now args).
Proof. unfold Reserve, CreateJob. method_answers. Qed.
#[export] Instance an_MarkMapped now args : Answers (MarkMapped now args).
Proof. unfold MarkMapped, markMapped. method_answers. Qed.
#[export] Instance an_MarkUncertain now args : Answers (MarkUncertain now args).
Proof. unfold MarkUncertain. method_answers. Qed.
#[export] Instance an_MarkTerminal now args : Answers (MarkTerminal now args).
Proof. unfold MarkTerminal, markTerminalParsed. method_answers. Qed.
#[export] Instance an_UpdateObserved now args : Answers (UpdateObserved now args).
Proof. unfold UpdateObserved. method_answers. Qed.
#[export] Instance an_UpdateState now q id st : Answers (UpdateState now q id st).
Proof. unfold UpdateState. method_answers. Qed.
#[export] Instance an_UpdateDocument now args : Answers (UpdateDocument now args).
Proof. unfold UpdateDocument. method_answers. Qed.
#[export] Instance an_MarkReconcileAttempt now args : Answers (MarkReconcileAttempt now args).
Proof. unfold MarkReconcileAttempt. method_answers. Qed.
#[export] Instance an_CleanupExpired now t retention : Answers (CleanupExpired now t retention).
Proof. unfold CleanupExpired, CleanupTerminalBefore. method_answers. Qed.
#[export] Instance an_GetByProxyID args : Answers (GetByProxyID args).
Proof. unfold GetByProxyID. method_answers. Qed.
#[export] Instance an_GetByUpstreamID args : Answers (GetByUpstreamID args).
Proof. unfold GetByUpstreamID. method_answers. Qed.
#[export] Instance an_ListJobs args : Answers (ListJobs args).
Proof. unfold ListJobs. method_answers. Qed.
#[export] Instance an_Candidates now args : Answers (ReconciliationCandidates now args).
Proof. unfold ReconciliationCandidates. method_answers. Qed.

(** A method the service calls: it reads, or it is one of the calls. *)
Class Serving {A} (op : time -> SM A) : Prop := {
  serving_answers now : Answers (op now);
  serving_step now s : served s (snd (op now s))
}.

Lemma serving_read {A} (op : time -> SM A) : (forall now, Answers (op now)) -> (forall now, ReadOnly (op now)) -> Serving op.
Proof. intros Ha Hr. split; [done|]. intros now s. rewrite Hr. apply rtc_refl. Qed.
Lemma serving_call {A} (op : time -> SM A) c : (forall now, Answers (op now)) ->
  issued c -> (forall now s, snd (op now s) = perform now c s) -> Serving op.
Proof. intros Ha Hc Hp. split; [done|]. intros now s. apply rtc_once. exists now, c. by rewrite Hp. Qed.

#[export] Instance serving_Reserve job : Serving (fun now => Reserve now [AJob job]).
Proof. by apply (serving_call _ (CallReserve [AJob job])); [apply _|constructor|]. Qed.
#[export] Instance serving_MarkMapped args : Serving (fun now => MarkMapped now args).
Proof. by apply (serving_call _ (CallMarkMapped args)); [apply _|constructor|]. Qed.
#[export] Instance serving_MarkUncertain args : Serving (fun now => MarkUncertain now args).
Proof. by apply (serving_call _ (CallMarkUncertain args)); [apply _|constructor|]. Qed.
#[export] Instance serving_MarkTerminal args : Serving (fun now => MarkTerminal now args).
Proof. by apply (serving_call _ (CallMarkTerminal args)); [apply _|constructor|]. Qed.
#[export] Instance serving_UpdateObserved args : Serving (fun now => UpdateObserved now args).
Proof. by apply (serving_call _ (CallUpdateObserved args)); [apply _|constructor|]. Qed.
#[export] Instance serving_UpdateState q id : Serving (fun now => UpdateState now q id "failed").
Proof. by apply (serving_call _ (CallUpdateState q id "failed")); [apply _|constructor|]. Qed.
#[export] Instance serving_UpdateDocument q id f b p c i l :
  Serving (fun now => UpdatePayloadMetadataWithLastDocument now q id f b p c i l).
Proof. eapply (serving_call _ (CallUpdateDocument _)); [intros; apply an_UpdateDocument|constructor|reflexivity]. Qed.
#[export] Instance serving_Attempt args : Serving (fun now => MarkReconcileAttempt now args).
Proof. by apply (serving_call _ (CallMarkReconcileAttempt args)); [apply _|constructor|]. Qed.
#[export] Instance serving_Cleanup t retention : Serving (fun now => CleanupExpired now t retention).
Proof. by apply (serving_call _ (CallCleanupExpired t retention)); [apply _|constructor|]. Qed.
#[export] Instance serving_GetByProxyID args : Serving (fun _ => GetByProxyID args).
Proof. apply serving_read; intros; [apply _|]. unfold GetByProxyID. apply ro_bind; [apply _|]. intros []. apply _. Qed.
#[export] Instance serving_GetByUpstreamID args : Serving (fun _ => GetByUpstreamID args).
Proof. apply serving_read; intros; [apply _|]. unfold GetByUpstreamID. apply ro_bind; [apply _|]. intros []. apply _. Qed.
#[export] Instance serving_ListJobs args : Serving (fun _ => ListJobs args).
Proof. apply serving_read; intros; [apply _|]. unfold ListJobs. apply _. Qed.
#[export] Instance serving_Candidates args : Serving (fun now => ReconciliationCandidates now args).
Proof.
  apply serving_read; intros; [apply _|]. unfold ReconciliationCandidates. apply ro_bind; [apply _|].
  intros [[] ?]. apply _.
Qed.

(** ** Handlers return, and change the registry by such calls only *)

Section serves.
Context `{G : GoippLib} `{I : IPLiterals} `{U : UUIDs} `{R : MapRange} (E : Environment) (cfg : Config).
(** What other requests do is done by the service, too. *)
Context (Hothers : forall t s, served s (e_others E t s)).

Class Serves {A} (m : HM A) : Prop := serves : forall w,
  wp m (fun _ w' => served (w_store w) (w_store w')) (fun _ w' => served (w_store w) (w_store w')) w.

#[local] Instance sv_ret A (a : A) : Serves (mret a).
Proof. intros w. apply rtc_refl. Qed.
#[local] Instance sv_throw A e : Serves (throw e : HM A).
Proof. intros w. apply rtc_refl. Qed.
#[local] Instance sv_return A resp : Serves (return_ resp : HM A).
Proof. apply sv_throw. Qed.
#[local] Instance sv_fail A err : Serves (fail err : HM A).
Proof. apply sv_throw. Qed.
#[local] Instance sv_ask A (f : nat -> A) : Serves (ask f).
Proof. intros w. apply rtc_refl. Qed.
#[local] Instance sv_Do uri msg body : Serves (Do E uri msg body).
Proof. intros w. apply rtc_refl. Qed.
#[local] Instance sv_record err : Serves (recordTranslationError err).
Proof. intros w. apply rtc_refl. Qed.
#[local] Instance sv_bind A B (m : HM A) (f : A -> HM B) : Serves m -> (forall a, Serves (f a)) -> Serves (m ≫= f).
Proof.
  intros Hm Hf w. apply wp_bind. eapply wp_mono; [apply Hm| |done]. intros a w' H1.
  eapply wp_mono; [apply Hf|..]; intros ? ? H2; exact (transitivity H1 H2).
Qed.
#[local] Instance sv_if A (b : bool) (m n : HM A) : Serves m -> Serves n -> Serves (if b then m else n).
Proof. by destruct b. Qed.
#[local] Instance sv_when b (m : HM unit) : Serves m -> Serves (when b m).
Proof. destruct b; [done|]. intros. apply sv_ret. Qed.
#[local] Instance sv_registry A (op : time -> SM A) : Serving op -> Serves (registry E op).
Proof.
  intros [Ha Hs] w. unfold registry, wp. specialize (Ha (e_now E (w_tick w)) (e_others E (w_tick w) (w_store w))).
  specialize (Hs (e_now E (w_tick w)) (e_others E (w_tick w) (w_store w))). pose proof (Hothers (w_tick w) (w_store w)) as Ho.
  unfold wp in Ha. destruct (op _ _) as [[] s]; cbn in *; by try exact (transitivity Ho Hs).
Qed.
#[local] Instance sv_registry_ A (op : time -> SM A) : Serving op -> Serves (registry_ E op).
Proof. intros. unfold registry_. apply _. Qed.
#[local] Instance sv_returned m : Serves m -> Serves (returned m).
Proof. intros H w. specialize (H w). unfold wp, returned in *. destruct (m w) as [[|[]| |] ?]; done. Qed.
#[local] Instance sv_refuse req e : Serves (refuse req e).
Proof. destruct e; unfold refuse; apply _. Qed.

(** Case analysis on everything a handler tests, then the instances. *)
Ltac serve := intros;
  repeat match goal with
    | |- Serves (_ ≫= _) => apply sv_bind; [|intros]
    | |- Serves (match ?x with _ => _ end) => destruct x
    | |- Serves (when _ _) => apply sv_when
    | |- _ => progress cbv zeta
    end; try apply _.

#[local] Instance sv_capabilities q : Serves (upstreamCapabilities E q).
Proof. unfold upstreamCapabilities. apply _. Qed.
#[local] Instance sv_route q f : Serves (requestRoute E cfg q f).
Proof. unfold requestRoute. serve. Qed.
#[local] Instance sv_admitted q req : Serves (validatePayloadDocumentFormat E q req).
Proof. unfold validatePayloadDocumentFormat. serve. Qed.
#[local] Instance sv_clientRoute q f req : Serves (clientRoute E cfg q f req).
Proof. unfold clientRoute. serve. Qed.
#[local] Instance sv_normalize q p req : Serves (normalizeJobRequest E q p req).
Proof. unfold normalizeJobRequest. serve. Qed.
#[local] Instance sv_stop n : Serves (stop_on_rejection n).
Proof. unfold stop_on_rejection. serve. Qed.
#[local] Instance sv_stop_route req r : Serves (stop_without_route req r).
Proof. unfold stop_without_route. serve. Qed.
#[local] Instance sv_reserve q req f r c : Serves (reserve E q req f r c).
Proof. unfold reserve. serve. Qed.
#[local] Instance sv_uncertain q id reason : Serves (uncertain E q id reason).
Proof. unfold uncertain. serve. Qed.
#[local] Instance sv_rejected q id resp : Serves (rejected_by_printer E q id resp).
Proof. unfold rejected_by_printer. serve. Qed.
#[local] Instance sv_mapping q id resp missing : Serves (record_mapping E q id resp missing).
Proof. unfold record_mapping. serve. Qed.
#[local] Instance sv_document q id f m l : Serves (record_document E q id f m l).
Proof. unfold record_document. serve. Qed.
#[local] Instance sv_sendTranslated uri req t c : Serves (sendTranslated E uri req t c).
Proof. unfold sendTranslated. serve. Qed.
#[local] Instance sv_sendRecorded uri req io f c : Serves (sendRecorded E uri req io f c).
Proof. unfold sendRecorded. serve. Qed.
#[local] Instance sv_lookup q req : Serves (lookupRequestJob E q req).
Proof. unfold lookupRequestJob. serve. Qed.
#[local] Instance sv_sync q job attrs : Serves (syncObservedJob E q job attrs).
Proof. unfold syncObservedJob. serve. Qed.

#[local] Instance sv_filterJob q jq kept attrs : Serves (filterJob E cfg q jq kept attrs).
Proof. unfold filterJob. serve. Qed.
#[local] Instance sv_filterGroups q jq groups : forall kept job, Serves (filterGroups E cfg q jq kept job groups).
Proof. induction groups as [|g rest IH]; cbn [filterGroups]; serve. Qed.
#[local] Instance sv_cancelJobs q p req user jobs : forall failed, Serves (cancelJobs E q p req user failed jobs).
Proof. induction jobs as [|job rest IH]; cbn [cancelJobs]; serve. Qed.
#[local] Instance sv_follow q job l : Serves (follow E q job l).
Proof. induction l as [|a rest IH]; cbn [follow]; serve. Qed.
#[local] Instance sv_reconcileJob q l job : Serves (reconcileJob E q l job).
Proof. unfold reconcileJob. serve. Qed.
#[local] Instance sv_reconcileJobs q l jobs : Serves (reconcileJobs E q l jobs).
Proof. induction jobs as [|job rest IH]; cbn [reconcileJobs]; serve. Qed.
#[local] Instance sv_reconcileQueue q jobs : Serves (reconcileQueue E cfg q jobs).
Proof. unfold reconcileQueue. serve. Qed.
#[local] Instance sv_reconcileQueues l : Serves (reconcileQueues E cfg l).
Proof. induction l as [|[q jobs] rest IH]; cbn [reconcileQueues]; serve. Qed.
#[local] Instance sv_or_fail A (r : res goerr A) : Serves (or_fail r).
Proof. unfold or_fail. serve. Qed.
#[local] Instance sv_logged m : Serves m -> Serves (logged m).
Proof. intros H w. specialize (H w). unfold wp, logged in *. destruct (m w) as [[] ?]; done. Qed.

Lemma reconcile_serves statistics order : Serves (reconcileUncertainJobs E cfg statistics order).
Proof. unfold reconcileUncertainJobs. serve. Qed.
Lemma maintenance_serves retention statistics order : Serves (runMaintenance E cfg retention statistics order).
Proof. unfold runMaintenance. pose proof reconcile_serves. serve. Qed.

(** The document limit of the configuration is an [int64]. *)
Context (Hmax : MaxDocumentBytes cfg <= maxI64).

Lemma translationLimits_range m : m <= maxI64 -> limits_range (translationLimits m).
Proof.
  intros H. unfold translationLimits. destruct (0 <? m) eqn:Hm; bool_to_prop; [|by vm_compute].
  split; cbn; unfold minI64, maxI64, maxU32, maxU64 in *; lia.
Qed.

Lemma translatePayload_ends io route attrs upstream m : m <= maxI64 ->
  match translatePayload io route attrs upstream m with Done _ | Fail_ _ => True | Panics | OutOfFuel => False end.
Proof.
  intros H. unfold translatePayload. destruct (negb (Transform route)); [done|].
  destruct (src (io_env io)); [|done]. destruct (io_temp io); [done|].
  set (opts := {| oMapping := _ |}).
  pose proof (Translate_wp (io_env io) opts (translationLimits_range m H)) as Hw. unfold wp in Hw.
  destruct (Translate _ _ _) as [[] st]; [|done..]. by destruct (io_ctx io), (io_rewind io).
Qed.

#[local] Instance sv_translation io route attrs upstream req : Serves (translation cfg io route attrs upstream req).
Proof.
  unfold translation. pose proof (translatePayload_ends io route attrs upstream _ Hmax) as H.
  destruct (translatePayload _ _ _ _ _); serve; done.
Qed.

Lemma print_serves q p req io : Serves (handlePrintJob E cfg q p req io).
Proof. unfold handlePrintJob. serve. Qed.
Lemma create_serves q p req : Serves (handleCreateJob E cfg q p req).
Proof. unfold handleCreateJob. serve. Qed.
Lemma validate_serves q p req : Serves (handleValidateJob E cfg q p req).
Proof. unfold handleValidateJob. serve. Qed.
Lemma send_serves q p req io has : Serves (handleSendDocument E cfg q p req io has).
Proof. unfold handleSendDocument. serve. Qed.
Lemma mapped_serves q p req : Serves (handleMappedJobOperation E cfg q p req).
Proof. unfold handleMappedJobOperation. serve. Qed.
Lemma jobs_serves q p req : Serves (handleGetJobs E cfg q p req).
Proof. unfold handleGetJobs. serve. Qed.
Lemma cancel_serves q p req : Serves (handleCancelMyJobs E q p req).
Proof. unfold handleCancelMyJobs. serve. Qed.
Lemma forward_serves p req : Serves (forwardPrinterOperation E p req).
Proof. unfold forwardPrinterOperation. serve. Qed.

#[local] Instance sv_supported q op req m message : Serves m ->
  Serves (upstream ← upstreamCapabilities E q;
          if negb (upstreamSupportsOperation upstream op) then mret (operationNotSupported req message) else m).
Proof. serve. Qed.
#[local] Instance sv_slot free req m : Serves m -> Serves (withPayloadSlot free req m).
Proof. intros. unfold withPayloadSlot. serve. Qed.
#[local] Instance sv_document_checks q req has : Serves (document_checks E q req has).
Proof. unfold document_checks. serve. Qed.
#[local] Instance sv_attributes q c req : Serves (getPrinterAttributes E cfg q c req).
Proof. unfold getPrinterAttributes. serve. Qed.
#[local] Instance sv_dispatch x has q c req : Serves (dispatch E cfg x has q c req).
Proof.
  unfold dispatch. pose proof print_serves. pose proof create_serves. pose proof validate_serves. pose proof send_serves.
  pose proof mapped_serves. pose proof jobs_serves. pose proof cancel_serves. pose proof forward_serves.
  cbv zeta. repeat apply sv_if; apply _.
Qed.

(** A request is always answered. *)
Lemma answered_serves req m : Serves m -> forall w,
  wp (answered req m) (fun _ w' => served (w_store w) (w_store w')) (fun _ _ => False) w.
Proof. intros H w. specialize (H w). unfold wp, answered in *. destruct (m w) as [[|[]| |] ?]; done. Qed.
End serves.
