(* ===== verification/HandlersExample.v ===== *)
(** * A queue to evaluate the handlers on

    One queue with the printer of [RoutingTheorems.v], which accepts every job
    as its job 77, and a registry with two earlier jobs. *)

From Stdlib Require Import ZArith Lia Ascii String Strings.Byte.
From stdpp Require Import base tactics list strings gmap relations.
From S2P Require Import Configuration PrinterDescription Capabilities.
From S2P Require Import Prelude GoString GoError Urf UrfSpec UrfTheorems GoTime Store StoreProofs StoreTheorems.
From S2P Require Import Goipp IppAttrs GoUrl Protocol MediaCatalog Normalizer Formats Messages Routing RoutingTheorems Payload.
From S2P Require Import Handlers Reconcile HandlersProofs.

#[local] Existing Instance goipp_example.
#[local] Existing Instance no_ip6.

(** Every URN of a UUID is this one; maps are visited in the order of their keys. *)
#[export] Instance example_uuid : UUIDs := {| urn_of s := "urn:uuid:f81d4fae-7dec-11d0-a765-00a0c91e6bf6"; urn_of_prefix s := eq_refl |}.
#[export] Instance listed_queues : MapRange := {| range A m := map_to_list m; range_perm A m := reflexivity _ |}.

Definition ex_capabilities : Attributes :=
  RoutingTheorems.ex_upstream ++
  [("operations-supported", map (fun op => (TagEnum, VInteger op))
      [OpPrintJob; OpValidateJob; OpCreateJob; OpSendDocument; OpCancelJob; OpGetJobAttributes; OpGetJobs])]%string.

Definition ex_queue : Configuration.PrinterConfig := {|
  Configuration.UpstreamURI := "ipp://printer.example/ipp/print"; DisplayName := "Office"; Location := "2nd floor";
  Optional := false; IPPEverywhereMode := "auto"; Configuration.AirPrintMode := "emulate-if-missing"; DNSSD := true;
  GeoLocation := ""; RefreshInterval := 300 * Second; RefreshRaw := "300s";
  Configuration.Policy := {| settings := RoutingTheorems.ex_policy; mediaLegacySet := false; mediaSupportedSet := true;
                             mediaDefaultSet := true; mediaDefaultsApply := true |};
  Passthrough := {| AllowUnknownAttributes := false; Configuration.PreserveJobAttrs := ["copies"%string];
                    Configuration.DropVendorAttrs := [] |};
  DNS_SD := true; ippEverywhereModeSet := true; airPrintModeSet := true; dnsSDSet := true |}.

(** What the job operations see of it. *)
Definition ex_office : PrinterConfig := {|
  UpstreamURI := "ipp://printer.example/ipp/print"; Policy := RoutingTheorems.ex_policy;
  AirPrintMode := "emulate-if-missing"; DropVendorAttrs := []; PreserveJobAttrs := ["copies"%string] |}.

(** The model a refresh commits. *)
Definition ex_model : Capabilities.CapabilityModel :=
  NewCapabilityModel ex_capabilities "office" "ipp://proxy.local:8631/printers/office" ex_queue
    {| oOperations := Some (proxySupportedOperations ex_capabilities); oDisabled := false;
       oEffectivePolicy := RoutingTheorems.ex_policy; oPracticalProfiles := true; oWarnings := [] |} None.

Definition leading_attrs : Attributes :=
  [("attributes-charset", [(TagCharset, VString "utf-8")]); ("attributes-natural-language", [(TagLanguage, VString "en")])]%string.

(** The answer of the printer: the job of the request, under its own id. *)
Definition ex_answer (msg : Message) : Response :=
  let job := [("job-id", [(TagInteger, VInteger 77)]);
              ("job-uri", [(TagURI, VString "ipp://printer.example/jobs/77")]);
              ("job-state", [(TagEnum, VInteger 5)])]%string in
  set_resGroups (Some [mkGroup TagOperationGroup leading_attrs; mkGroup TagJobGroup job])
    (set_resJob (Some job) (set_resOperation leading_attrs (NewResponse (Version msg) StatusOk (RequestID msg)))).

Definition ex_environment : Environment := {|
  e_now t := ex_now + Z.of_nat t * Second;
  e_others _ s := s;
  e_client _ q := if (q =? "office")%string then Some ex_model else None;
  e_caps _ q := if (q =? "office")%string then Some ex_capabilities else None;
  e_startedAt := ex_now; e_configChangedAt _ _ := ex_now; e_dnsName _ _ := "Office";
  e_answer _ _ msg _ := Ok (ex_answer msg);
  e_nextID t := 100 + Z.of_nat t |}.

Definition ex_config : Config := {|
  PublicBaseURL := "ipp://proxy.local:8631/printers";
  Queues := {["office"%string := ex_queue]};
  MaxDocumentBytes := 0 |}.

Definition ex_world : World := {| w_store := ex_store; w_tick := 0; w_sent := []; w_error := None |}.

Definition ex_io : PayloadIO := {|
  io_env := ex_env; io_temp := None; io_ctx := None; io_rewind := None;
  io_recording := {| rec_open := None; rec_close := None; rec_stat := None; rec_scan := None;
                     rec_chunks := ["%PDF-1.4 /Type /Page /Type /Pages"]%string |} |}.

Definition ex_exchange : exchange := {|
  x_length := 300; x_read := 200; x_peek := true; x_free := Some true; x_staging := None; x_staged_ctx := None;
  x_ctx := None; x_io := ex_io |}.

Definition request_attrs (l : Attributes) : Attributes :=
  [("attributes-charset", [(TagCharset, VString "utf-8")]); ("attributes-natural-language", [(TagLanguage, VString "en")]);
   ("printer-uri", [(TagURI, VString "ipp://proxy.local:8631/printers/office")]);
   ("requesting-user-name", [(TagName, VString "ann")])]%string ++ l.

Definition ex_request (op : Z) (operation job : Attributes) : Message :=
  mkMessage (MakeVersion 2 0) op 9
    (Some [mkGroup TagOperationGroup (request_attrs operation); mkGroup TagJobGroup job])
    (request_attrs operation) job [] [] [] [] [] [] [].

(** Two copies of a PDF document. *)
Definition ex_print : Message :=
  ex_request OpPrintJob [("job-name", [(TagName, VString "letter")]);
                         ("document-format", [(TagMimeType, VString "application/pdf")])]%string
    [("copies", [(TagInteger, VInteger 2)])]%string.

Lemma ex_quiet t s : served s (e_others ex_environment t s).
Proof. apply rtc_refl. Qed.

(** It is printed, recorded and answered with the id of the proxy. *)
Example print_runs :
  let '(o, w) := ippHandler ex_environment ex_config ex_exchange "office" ex_print ex_world in
  match o with
  | Done resp => (resCode resp, resRequestID resp, FirstInt (default [] (resJob resp)) "job-id",
                  FirstString (default [] (resJob resp)) "job-uri")
  | _ => (0, 0, None, None)
  end = (StatusOk, 9, Some 3, Some "ipp://proxy.local:8631/printers/office/jobs/3"%string) /\
  map (fun m => (s_to m, FirstString (Operation (s_message m)) "printer-uri")) (w_sent w) =
    [("ipp://printer.example/ipp/print", Some "ipp://printer.example/ipp/print")]%string /\
  match rows (w_store w) with
  | [_; _; r] => (proxy_job_id r, state r, upstream_job_id r, PageCount (r_payload r), EstimatedImpressions (r_payload r))
  | _ => (0, ""%string, None, None, None)
  end = (3, StateMapped, Some 77, Some 1, Some 2).
Proof. vm_compute. auto. Qed.

(** A request without attributes of a job. *)
Definition ex_query (op : Z) : Message :=
  mkMessage (MakeVersion 2 0) op 9 (Some [mkGroup TagOperationGroup (request_attrs [])]) (request_attrs []) []
    [] [] [] [] [] [] [].

(** And the description of the queue is its own. *)
Example attributes_run :
  match ippHandler ex_environment ex_config ex_exchange "office" (ex_query OpGetPrinterAttributes) ex_world with
  | (Done resp, w) => (resCode resp, resRequestID resp, w_sent w,
      FirstString (default [] (resPrinter resp)) "printer-uri-supported",
      FirstString (default [] (resPrinter resp)) "printer-dns-sd-name")
  | _ => (0, 0, [], None, None)
  end = (StatusOk, 9, [], Some "ipp://proxy.local:8631/printers/office", Some "Office")%string.
Proof. vm_compute. reflexivity. Qed.

(** A job without an answer, which its name identifies. *)
Definition lost_store : Store :=
  perform ex_now (CallMarkUncertain [AString "office"; AInt KInt 1; AString "timeout"])
    (perform ex_now (CallReserve [AJob (newJob "office" "" "letter" "image/urf" 1)]) emptyStore).

Lemma lost_store_ok : store_ok lost_store.
Proof. apply (steps_ok emptyStore); [|apply empty_ok]. do 2 (eapply rtc_r; [|constructor]). apply rtc_refl. Qed.
