(* ===== verification/HandlersTheorems.v ===== *)
(** * The handlers: the theorems

    What the service makes of the registry over any interleaving of its
    requests and its maintenance, and what single handlers do. *)

From Stdlib Require Import ZArith Lia Ascii String Strings.Byte Sorted.
From stdpp Require Import base tactics list strings gmap relations.
From S2P Require Import Prelude GoString GoError Urf UrfSpec UrfProofs GoTime Store StoreProofs StoreTheorems.
From S2P Require Import Goipp IppAttrs GoUrl Protocol MediaCatalog Normalizer Formats Messages Routing Payload.
From S2P Require Import Handlers Reconcile HandlersProofs.

(** ** The states of a served registry *)

Definition lifecycle_states : list string := [StateReserved; StateMapped; StateUncertain; StateTerminal; StateFailed].
Definition lifecycle (s : Store) : Prop := forall r, r ∈ rows s -> state r ∈ lifecycle_states.

(** A method keeps a property of every row. *)
Class Keeps (I : row -> Prop) {A} (m : SM A) : Prop :=
  keeps : forall s, (forall r, r ∈ rows s -> I r) -> forall r, r ∈ rows (snd (m s)) -> I r.

Section keeps.
Context (I : row -> Prop).
#[export] Instance keeps_read A (m : SM A) : ReadOnly m -> Keeps I m | 10.
Proof. intros H s Hs. rewrite H. done. Qed.
#[export] Instance keeps_bind A B (m : SM A) (f : A -> SM B) : Keeps I m -> (forall a, Keeps I (f a)) -> Keeps I (m ≫= f) | 1.
Proof.
  intros Hm Hf s Hs. unfold mbind, M_bind. specialize (Hm s Hs). destruct (m s) as [[a| | |] s']; cbn in *; [|done..].
  by apply Hf.
Qed.
#[export] Instance keeps_if A (b : bool) (m n : SM A) : Keeps I m -> Keeps I n -> Keeps I (if b then m else n) | 1.
Proof. by destruct b. Qed.
#[export] Instance keeps_tx A (m : SM A) : Keeps I m -> Keeps I (tx m) | 1.
Proof. intros Hm s Hs. specialize (Hm s Hs). unfold tx. by destruct (m s) as [[] ?]. Qed.
Lemma keeps_update p f : (forall r, I r -> I (f r)) -> Keeps I (exec_update p f).
Proof.
  intros Hf s Hs r. unfold exec_update. destruct (unique_mappings _); [|apply Hs]. cbn.
  intros Hr. apply list_elem_of_In, in_map_iff in Hr as (x & <- & Hx). apply list_elem_of_In in Hx.
  destruct (p x); auto.
Qed.
Lemma keeps_update_mapped p f : (forall r, I r -> I (f r)) -> Keeps I (exec_update_mapped p f).
Proof.
  intros Hf s Hs r. pose proof (keeps_update p f Hf s Hs r) as H. unfold exec_update_mapped.
  by destruct (exec_update p f s) as [[] ?].
Qed.
Lemma keeps_delete p : Keeps I (exec_delete p).
Proof. intros s Hs r. cbn. rewrite elem_of_filter_bool. intros [_ ?]. auto. Qed.
End keeps.

(** The registry's own updates, by what they do to the state. *)
Ltac keep_states :=
  repeat match goal with
    | |- Keeps _ (match ?x with (_, _) => _ end) => destruct x
    | |- Keeps _ (_ ≫= _) => apply keeps_bind; [|intros]
    | |- Keeps _ (if _ then _ else _) => apply keeps_if
    | |- Keeps _ (tx _) => apply keeps_tx
    | |- Keeps _ (exec_update _ _) => apply keeps_update; cbn
    | |- Keeps _ (exec_update_mapped _ _) => apply keeps_update_mapped; cbn
    | |- Keeps _ (exec_delete _) => apply keeps_delete
    | |- _ => progress cbv zeta
    end; try apply _.

(** A property of the state that these values have. *)
Section states.
Context (P : string -> Prop) (Hmapped : P StateMapped) (Huncertain : P StateUncertain).
Context (Hterminal : P StateTerminal) (Hfailed : P StateFailed).
Let I r := P (state r).

Lemma keeps_terminal now args : Keeps I (markTerminalParsed now args).
Proof. unfold markTerminalParsed. keep_states. intros r _. exact Hterminal. Qed.

Lemma issued_keeps now c s : issued c -> (forall job, c <> CallReserve [AJob job]) ->
  (forall r, r ∈ rows s -> I r) -> forall r, r ∈ rows (perform now c s) -> I r.
Proof.
  intros Hc Hno. destruct Hc; cbn [perform]; [by destruct (Hno job)|..];
    match goal with |- context [snd (?m s)] => cut (Keeps I m); [intros H; exact (H s)|] end.
  - unfold MarkMapped, markMapped. keep_states. intros r _. exact Hmapped.
  - unfold MarkUncertain. keep_states. intros r _. exact Huncertain.
  - apply keeps_terminal.
  - unfold UpdateObserved. keep_states; [apply keeps_terminal|]. done.
  - unfold UpdateState. keep_states; [|done]. intros r _. exact Hfailed.
  - unfold UpdateDocument. keep_states. done.
  - unfold MarkReconcileAttempt. keep_states. done.
  - unfold CleanupExpired, CleanupTerminalBefore. keep_states.
Qed.
End states.

Lemma reserved_row now job s : let s' := perform now (CallReserve [AJob job]) s in
  forall r, r ∈ rows s' -> r ∈ rows s \/ (proxy_job_id r = seq s + 1 /\ seq s' = seq s + 1 /\ state r = StateReserved).
Proof.
  cbn [perform]. intros r. unfold Reserve, CreateJob, exec_insert, mbind, M_bind. cbn [parseReservationArgs lift_res].
  cbn [mret M_ret]. destruct (unique_mappings _); [|by left]. cbn. rewrite elem_of_app, list_elem_of_singleton.
  intros [Hr|Hr]; [by left|]. subst r. right. done.
Qed.

Lemma serve_cases c : issued c ->
  (exists job, c = CallReserve [AJob job]) \/ forall job, c <> CallReserve [AJob job].
Proof. destruct 1; [left; eauto|right; done..]. Qed.

Lemma serve_lifecycle s s' : serve s s' -> lifecycle s -> lifecycle s'.
Proof.
  intros (now & c & Hc & ->) Hs. unfold lifecycle in *.
  destruct (serve_cases c Hc) as [(job & ->)|Hno].
  - intros r [Hr|(_ & _ & Hr)]%reserved_row; [auto|]. rewrite Hr. left.
  - apply (issued_keeps (fun st => st ∈ lifecycle_states)); try done;
      unfold lifecycle_states; rewrite !elem_of_cons; tauto.
Qed.

Lemma served_lifecycle s s' : served s s' -> lifecycle s -> lifecycle s'.
Proof. induction 1 as [|x y z Hxy _ IH]; [done|]. intros Hx. by apply IH, (serve_lifecycle x). Qed.

(** A job that is no longer reserved stays so. *)
Definition settled (id : Z) (s : Store) : Prop :=
  id <= seq s /\ forall r, r ∈ rows s -> proxy_job_id r = id -> state r <> StateReserved.

(** [lifecycle] of the empty registry. *)
Lemma served_from_empty s : served emptyStore s -> store_ok s /\ lifecycle s.
Proof.
  intros H. split; [by apply (served_ok _ _ H empty_ok)|]. apply (served_lifecycle _ _ H).
  intros r Hr. by apply not_elem_of_nil in Hr.
Qed.
