(* ===== verification/RequestProofs.v ===== *)
(** * Requests: every request is answered

    The responses of the handlers carry the id of the request, the ones of the
    printer included, and every request ends with a response. *)

From Stdlib Require Import ZArith Lia Ascii String Strings.Byte Sorted.
From stdpp Require Import base tactics list strings gmap relations.
From S2P Require Import Configuration PrinterDescription Capabilities.
From S2P Require Import Prelude GoString GoError Urf UrfSpec UrfProofs GoTime Store StoreProofs StoreTheorems.
From S2P Require Import Goipp IppAttrs GoUrl Protocol MediaCatalog Normalizer Formats Messages Routing Payload.
From S2P Require Import Handlers Reconcile HandlersProofs.

(** ** The request id of the responses made from others *)

Section ids.
Context `{G : GoippLib}.
Implicit Types (resp : Response) (req : Message).

Lemma id_protocolResponse req st m : resRequestID (protocolResponse req st m) = RequestID req.
Proof. unfold protocolResponse. by rewrite NewResponse_eq. Qed.
Lemma id_operationNotSupported req m : resRequestID (operationNotSupported req m) = RequestID req.
Proof. apply id_protocolResponse. Qed.
Lemma id_new attrs v st i : resRequestID (set_resOperation attrs (NewResponse v st i)) = i.
Proof. by rewrite NewResponse_eq. Qed.
Lemma id_ippError v i st m : resRequestID (ippError v i st m) = i.
Proof. apply id_new. Qed.
Lemma id_ippProtocolError v i e : resRequestID (ippProtocolError v i e) = i.
Proof. apply (id_new _ v). Qed.
Lemma id_apply resp result : resRequestID (applyNormalizationResult resp result) = resRequestID resp.
Proof.
  unfold applyNormalizationResult. destruct (_ || _); [done|]. cbv zeta.
  destruct (resCode resp =? StatusOk); destruct (resGroups _), (nUnsupported result); done.
Qed.
Lemma id_rewrite resp i uri : resRequestID (rewriteResponseJob resp i uri) = resRequestID resp.
Proof. done. Qed.
Lemma id_shape resp : resRequestID (shapeIPPResponse resp) = resRequestID resp.
Proof. done. Qed.
Lemma id_version resp v : resRequestID (set_resVersion v resp) = resRequestID resp.
Proof. done. Qed.
Lemma id_job resp j : resRequestID (set_resJob j resp) = resRequestID resp.
Proof. done. Qed.
Lemma id_groups resp g : resRequestID (set_resGroups g resp) = resRequestID resp.
Proof. done. Qed.
End ids.
#[export] Hint Rewrite @id_rewrite @id_shape @id_version @id_job @id_groups @id_protocolResponse @id_operationNotSupported @id_new @id_ippError @id_ippProtocolError
  @id_apply : gosimp.

(** ** What a computation answers *)

Create HintDb echo discriminated.


Section echo.
Context `{G : GoippLib} `{I : IPLiterals} `{U : UUIDs} `{R : MapRange} (E : Environment) (cfg : Config) (Hmax : MaxDocumentBytes cfg <= maxI64) (id : Z).

Definition echo_err (e : goerr + Response) : Prop :=
  match e with inr resp => resRequestID resp = id | inl _ => True end.
Definition echo_answer (r : res goerr Response) : Prop :=
  match r with Ok resp => resRequestID resp = id | Err _ => True end.

(** [m] ends; its value satisfies [P], its early response carries the id. *)
Definition echoes {A} (P : A -> Prop) (m : HM A) : Prop := forall w, wp m (fun a _ => P a) (fun e _ => echo_err e) w.
Definition any {A} (_ : A) : Prop := True.
Definition named_id (resp : Response) : Prop := resRequestID resp = id.

Lemma echo_ret {A} (P : A -> Prop) a : P a -> echoes P (mret a).
Proof. by intros H w. Qed.
Lemma echo_return {A} (P : A -> Prop) resp : named_id resp -> echoes P (return_ resp).
Proof. by intros H w. Qed.
Lemma echo_fail {A} (P : A -> Prop) err : echoes P (fail err : HM A).
Proof. by intros w. Qed.
Lemma echo_bind {A B} (P : A -> Prop) (Q : B -> Prop) (m : HM A) (f : A -> HM B) :
  echoes P m -> (forall a, P a -> echoes Q (f a)) -> echoes Q (m ≫= f).
Proof. intros Hm Hf w. apply wp_bind. eapply wp_mono; [apply Hm|intros a w' Ha; by apply Hf|done]. Qed.
Lemma echo_ask {A} (f : nat -> A) : echoes any (ask f).
Proof. by intros w. Qed.
Lemma echo_Do uri msg body : RequestID msg = id -> echoes echo_answer (Do E uri msg body).
Proof.
  intros Hid w. unfold wp, Do. cbn. destruct (e_answer E _ _ _ _) as [resp|err]; [|done]. unfold checkUpstreamResponse.
  destruct (Z.eqb_spec (resRequestID resp) (RequestID msg)) as [Hr|]; [|done]. cbn [negb].
  repeat (case_match; try done); cbn; congruence.
Qed.
Lemma echo_registry {A} (op : time -> SM A) : Serving op -> echoes any (registry E op).
Proof.
  intros [Ha _] w. unfold registry, wp. specialize (Ha (e_now E (w_tick w)) (e_others E (w_tick w) (w_store w))).
  unfold wp in Ha. by destruct (op _ _) as [[] s].
Qed.
Lemma echo_registry_ {A} (op : time -> SM A) : Serving op -> echoes any (registry_ E op).
Proof. intros H. eapply echo_bind; [by apply echo_registry|]. intros a _. by apply echo_ret. Qed.
Lemma echo_when b m : echoes any m -> echoes any (when b m).
Proof. destruct b; [done|]. intros _. by apply echo_ret. Qed.
Lemma echo_weaken {A} (P Q : A -> Prop) m : (forall a, P a -> Q a) -> echoes P m -> echoes Q m.
Proof. intros H Hm w. eapply wp_mono; [apply Hm|intros ? ? ?; auto|done]. Qed.
Lemma echo_returned m : echoes named_id m -> echoes named_id (returned m).
Proof. intros H w. specialize (H w). unfold wp, returned in *. by destruct (m w) as [[|[]| |] ?]. Qed.
Lemma echo_refuse req e : RequestID req = id -> echoes any (refuse req e).
Proof.
  intros H. destruct e; cbn [refuse]; [apply echo_return; unfold named_id; by autorewrite with gosimp|by apply echo_ret].
Qed.

(** Steps through a handler: the known parts by their lemmas, case analysis on
    what the handler tests. *)
Ltac echo := intros;
  repeat match goal with
    | |- echoes _ (mret _) => apply echo_ret; first [done | unfold named_id; autorewrite with gosimp; cbn; done]
    | |- echoes _ (return_ _) => apply echo_return; unfold named_id; autorewrite with gosimp; done
    | |- echoes _ (fail _) => apply echo_fail
    | |- echoes any (ask _) => apply echo_ask
    | |- echoes any (when _ _) => apply echo_when
    | |- echoes any (registry _ _) => apply echo_registry; apply _
    | |- echoes any (registry_ _ _) => apply echo_registry_; apply _
    | |- echoes _ (refuse _ _ ≫= _) => eapply (echo_bind any); [by apply echo_refuse|intros]
    | |- echoes _ (Do _ _ _ _ ≫= _) => eapply (echo_bind echo_answer); [apply echo_Do|intros]
    | |- echoes _ (_ ≫= _) => eapply (echo_bind any); [solve [eauto with echo nocore|echo]|intros]
    | |- echoes _ (match ?x with _ => _ end) => destruct x
    | |- _ => progress cbv zeta
    end; eauto with echo nocore.

Lemma echo_capabilities q : echoes any (upstreamCapabilities E q).
Proof. apply echo_ask. Qed.
Lemma echo_uncertain q i reason : echoes any (uncertain E q i reason).
Proof. unfold uncertain. echo. Qed.
#[local] Hint Resolve echo_capabilities echo_uncertain : echo.
Lemma echo_rejected q i resp : echoes any (rejected_by_printer E q i resp).
Proof. unfold rejected_by_printer. echo. Qed.
Lemma echo_reserve q req f r c : echoes any (reserve E q req f r c).
Proof. unfold reserve. echo. Qed.
Lemma echo_sync q job attrs : echoes any (syncObservedJob E q job attrs).
Proof. unfold syncObservedJob. echo. Qed.
Lemma echo_lookup q req : echoes any (lookupRequestJob E q req).
Proof. unfold lookupRequestJob. echo. Qed.
Lemma echo_requestRoute q f : echoes any (requestRoute E cfg q f).
Proof. unfold requestRoute. echo. Qed.
Lemma echo_clientRoute q f req : echoes any (clientRoute E cfg q f req).
Proof. unfold clientRoute, requestRoute. echo. Qed.
Lemma echo_admitted q req : echoes any (validatePayloadDocumentFormat E q req).
Proof. unfold validatePayloadDocumentFormat. echo. Qed.
Lemma echo_translation io route attrs upstream req : RequestID req = id ->
  echoes any (translation cfg io route attrs upstream req).
Proof.
  intros Hid. unfold translation. pose proof (translatePayload_ends io route attrs upstream _ Hmax) as H.
  destruct (translatePayload _ _ _ _ _); [by apply echo_ret| |done..].
  intros w. apply wp_bind, wp_modify. apply echo_return. unfold named_id. by autorewrite with gosimp.
Qed.
#[local] Hint Resolve echo_rejected echo_reserve echo_sync echo_lookup
  echo_requestRoute echo_clientRoute echo_admitted echo_translation : echo.

Lemma echo_mapping q i resp missing : echoes any (record_mapping E q i resp missing).
Proof. unfold record_mapping. echo. Qed.
Lemma echo_document q i f m l : echoes any (record_document E q i f m l).
Proof. unfold record_document. echo. Qed.
Lemma echo_normalize q p req : RequestID req = id ->
  echoes (fun n => match n with inl resp => named_id resp | inr _ => True end) (normalizeJobRequest E q p req).
Proof.
  intros Hid. unfold normalizeJobRequest. eapply echo_bind; [apply echo_ask|intros model _].
  eapply echo_bind; [apply echo_ask|intros upstream _]. apply echo_ret.
  destruct (NormalizeJobAttrsWithOptions _ _) as [e|]; [|done].
  unfold named_id. change (resRequestID (protocolResponse req (neStatus e) (neMessage e)) = id).
  by autorewrite with gosimp.
Qed.
Lemma echo_stop n : match n with inl resp => named_id resp | inr _ => True end -> echoes any (stop_on_rejection n).
Proof. destruct n; cbn; intros; [by apply echo_return|by apply echo_ret]. Qed.
Lemma echo_stop_route req r : RequestID req = id -> echoes any (stop_without_route req r).
Proof. intros. destruct r; cbn; echo. Qed.
Lemma echo_sendTranslated uri req t c : RequestID req = id -> echoes (fun p => echo_answer (fst p)) (sendTranslated E uri req t c).
Proof. intros. unfold sendTranslated. eapply echo_bind; [by apply echo_Do|intros]. by apply echo_ret. Qed.
Lemma echo_sendRecorded uri req io f c : RequestID req = id -> echoes (fun p => echo_answer (fst p)) (sendRecorded E uri req io f c).
Proof. intros. unfold sendRecorded. eapply echo_bind; [by apply echo_Do|intros]. by apply echo_ret. Qed.
#[local] Hint Resolve echo_mapping echo_document echo_stop_route : echo.


(** The steps the job handlers share. *)
Ltac echo_handler :=
  repeat match goal with
    | |- echoes _ (normalizeJobRequest _ _ _ _ ≫= _) => eapply echo_bind; [by apply echo_normalize|intros ? ?]
    | |- echoes _ (stop_on_rejection _ ≫= _) => eapply (echo_bind any); [by apply echo_stop|intros ? _]
    | |- echoes _ (stop_without_route _ _ ≫= _) => eapply (echo_bind any); [by apply echo_stop_route|intros ? _]
    | |- echoes _ (translation _ _ _ _ _ _ ≫= _) => eapply (echo_bind any); [by apply echo_translation|intros ? _]
    | |- echoes _ (refuse _ _ ≫= _) => eapply (echo_bind any); [by apply echo_refuse|intros ? _]
    | |- echoes _ (reserve _ _ _ _ _ _ ≫= _) => eapply (echo_bind any); [apply echo_reserve|intros ? _]
    | |- echoes _ (upstreamCapabilities _ _ ≫= _) => eapply (echo_bind any); [apply echo_capabilities|intros ? _]
    | |- echoes _ (clientRoute _ _ _ _ _ ≫= _) => eapply (echo_bind any); [apply echo_clientRoute|intros ? _]
    | |- echoes _ (validatePayloadDocumentFormat _ _ _ ≫= _) => eapply (echo_bind any); [apply echo_admitted|intros ? _]
    | |- echoes _ (Do _ _ _ _ ≫= _) => eapply (echo_bind echo_answer); [by apply echo_Do|intros ? ?]
    | |- _ => progress cbv zeta
    end.

(** The result of an exchange, however it was sent. *)
Lemma echo_sending {B} (uri : string) req (io : PayloadIO) (document : option translated)
    (stop : goerr -> HM (res goerr Response * PayloadMetadata))
    f c (k : res goerr Response * PayloadMetadata -> HM B) (Q : B -> Prop) :
  RequestID req = id -> (forall err, echoes (fun p => echo_answer (fst p)) (stop err)) ->
  (forall p, echo_answer (fst p) -> echoes Q (k p)) ->
  echoes Q (p ← match document with
              | Some t => sendTranslated E uri req t c
              | None => match rec_open (io_recording io) with
                        | Some err => stop err
                        | None => sendRecorded E uri req io f c
                        end
              end; k p).
Proof.
  intros Hid Hb Hk. apply (echo_bind (fun p => echo_answer (fst p))); [|done].
  destruct document; [by apply echo_sendTranslated|]. destruct (rec_open _); [apply Hb|by apply echo_sendRecorded].
Qed.

Lemma echo_record err : echoes any (recordTranslationError err).
Proof. by intros w. Qed.
#[local] Hint Resolve echo_record : echo.

Lemma echo_validate q p req : RequestID req = id -> echoes named_id (handleValidateJob E cfg q p req).
Proof. intros Hid. unfold handleValidateJob. echo_handler. destruct a3 as [resp|err]; echo. Qed.

Lemma echo_create q p req : RequestID req = id -> echoes named_id (handleCreateJob E cfg q p req).
Proof. intros Hid. unfold handleCreateJob. echo_handler. destruct a5 as [resp|err]; echo. Qed.

Lemma echo_print q p req io : RequestID req = id -> echoes named_id (handlePrintJob E cfg q p req io).
Proof.
  intros Hid. unfold handlePrintJob. echo_handler.
  apply (echo_sending _ _ io _ (fun err => _)); [done|intros; echo|].
  intros [[resp|err] meta] Ha; cbn in Ha; echo.
Qed.

Lemma echo_send q p req io has : RequestID req = id -> echoes named_id (handleSendDocument E cfg q p req io has).
Proof.
  intros Hid. unfold handleSendDocument.
  eapply (echo_bind any); [apply echo_lookup|intros found _].
  eapply (echo_bind any); [destruct found; echo|intros job _].
  cbv zeta. eapply (echo_bind any); [destruct (routeFromStore job); [by apply echo_ret|apply echo_requestRoute]|intros route _].
  destruct route as [route|]; [|echo].
  repeat match goal with |- echoes _ (if ?b then _ else _) => destruct b; [echo|] end.
  eapply (echo_bind any); [destruct (has && Transform route); [|by apply echo_ret]|intros document _].
  { eapply (echo_bind any); [apply echo_capabilities|intros]. by apply echo_translation. }
  apply (echo_sending _ _ io _ (fun err => _)); [done|intros; echo|].
  intros [[resp|err] meta] Ha; cbn in Ha; echo.
Qed.

Lemma echo_mapped q p req : RequestID req = id -> echoes named_id (handleMappedJobOperation E cfg q p req).
Proof.
  intros Hid. unfold handleMappedJobOperation. eapply (echo_bind any); [apply echo_lookup|intros found _].
  destruct found as [job|err]; [|destruct (Is err ErrNoRows); echo].
  do 2 (case_match; [echo|]). cbv zeta. eapply (echo_bind echo_answer); [by apply echo_Do|intros [resp|err] Ha; echo].
Qed.

Lemma echo_forward p req : RequestID req = id -> echoes named_id (forwardPrinterOperation E p req).
Proof.
  intros Hid. unfold forwardPrinterOperation. eapply (echo_bind echo_answer); [by apply echo_Do|intros [resp|err] Ha; echo].
Qed.

Lemma echo_filterJob q jq kept attrs : echoes any (filterJob E cfg q jq kept attrs).
Proof. unfold filterJob. echo. Qed.
Lemma echo_filterGroups q jq groups : forall kept job, echoes any (filterGroups E cfg q jq kept job groups).
Proof.
  induction groups as [|g rest IH]; intros; cbn [filterGroups]; [echo|].
  pose proof echo_filterJob. echo.
Qed.
Lemma echo_jobs q p req : RequestID req = id -> echoes named_id (handleGetJobs E cfg q p req).
Proof.
  intros Hid. unfold handleGetJobs. cbv zeta. eapply (echo_bind echo_answer); [by apply echo_Do|intros [resp|err] Ha; [|echo]].
  pose proof echo_filterJob. pose proof echo_filterGroups. echo.
Qed.

Lemma echo_cancelJobs q p req user jobs : forall failed, echoes any (cancelJobs E q p req user failed jobs).
Proof.
  induction jobs as [|job rest IH]; intros; cbn [cancelJobs]; [echo|].
  case_match; [done|]. eapply (echo_bind any); [apply echo_ask|intros i _].
  eapply (echo_bind any); [by intros w|intros [resp|err] _; echo].
Qed.
Lemma echo_cancel q p req : RequestID req = id -> echoes named_id (handleCancelMyJobs E q p req).
Proof.
  intros Hid. unfold handleCancelMyJobs. cbv zeta. case_match; [echo|].
  eapply (echo_bind any); [by apply echo_registry, serving_ListJobs|intros [jobs|err] _; [|echo]].
  eapply (echo_bind any); [apply echo_cancelJobs|intros failed _]. apply echo_ret.
  case_match; unfold named_id; by rewrite id_protocolResponse.
Qed.

Lemma echo_attributes q c req : RequestID req = id -> echoes named_id (getPrinterAttributes E cfg q c req).
Proof.
  intros Hid. unfold getPrinterAttributes. do 4 (eapply (echo_bind any); [apply echo_ask|intros ? _]). apply echo_ret.
  unfold handleGetPrinterAttributes, named_id. destruct (_ : option Attributes); rewrite NewResponse_eq; autorewrite with gosimp; cbn; auto.
Qed.

Lemma echo_dispatch x has q c req : RequestID req = id -> echoes named_id (dispatch E cfg x has q c req).
Proof.
  intros Hid. unfold dispatch. cbv zeta.
  assert (forall m, echoes named_id m -> echoes named_id (withPayloadSlot (x_free x) req m)) as Hslot.
  { intros m Hm. unfold withPayloadSlot. destruct (x_free x) as [[]|]; [done|echo|done]. }
  assert (forall op m message, echoes named_id m -> echoes named_id
    (upstream ← upstreamCapabilities E q;
     if negb (upstreamSupportsOperation upstream op) then mret (operationNotSupported req message) else m)) as Hsup.
  { intros op m message Hm. eapply (echo_bind any); [apply echo_capabilities|intros u _]. case_match; [echo|done]. }
  repeat match goal with |- echoes _ (if ?b then _ else _) => destruct b end;
    first [by apply echo_attributes | apply echo_returned | apply Hslot, echo_returned
          | apply Hsup; first [apply echo_returned | by apply echo_forward] | idtac];
    first [by apply echo_validate | by apply echo_print | by apply echo_create | by apply echo_send
          | by apply echo_mapped | by apply echo_jobs | by apply echo_cancel | by apply echo_forward | echo].
Qed.

(** An operation is always answered, with the id and the version of the request. *)
Lemma echo_answered req m : RequestID req = id -> echoes named_id m -> forall w,
  wp (answered req m) (fun resp _ => named_id resp /\ resVersion resp = Version req) (fun _ _ => False) w.
Proof.
  intros Hid H w. specialize (H w). unfold wp, answered in *. cbv zeta. destruct (m w) as [[resp|[err|resp]| |] w']; try done.
  unfold named_id. autorewrite with gosimp. cbn. done.
Qed.
End echo.
