(* ===== verification/RequestTheorems.v ===== *)
(** * Requests and the service: the theorems

    Every request is answered, and only requests that pass the checks reach
    the printer or the registry; and the registry stays well formed over any
    interleaving of requests and maintenance. *)

From Stdlib Require Import ZArith Lia Ascii String Strings.Byte Sorted.
From stdpp Require Import base tactics list strings gmap relations.
From S2P Require Import Configuration PrinterDescription Capabilities.
From S2P Require Import Prelude GoString GoError Urf UrfSpec UrfProofs GoTime Store StoreProofs StoreTheorems.
From S2P Require Import Goipp IppAttrs GoUrl Protocol MediaCatalog Normalizer Formats Messages Routing Payload.
From S2P Require Import Handlers Reconcile HandlersProofs HandlersExample HandlersTheorems RequestProofs.

Section requests.
Context `{G : GoippLib} `{L : IPLiterals} `{U : UUIDs} `{R : MapRange} (E : Environment) (cfg : Config).
Context (Hothers : forall t s, served s (e_others E t s)) (Hmax : MaxDocumentBytes cfg <= maxI64).

(** What has not reached the printer or the registry. *)
Definition untouched (w w' : World) : Prop := w_sent w' = w_sent w /\ w_store w' = w_store w.

(** The checks that come before everything else. *)
Definition passes_checks (x : exchange) (q : string) (req : Message) : Prop :=
  supportedIPPVersion (Version req) = true /\
  ValidateProtocolRequest (Some req) (proxyPrinterURI cfg q)
    (((Code req =? OpPrintJob) || (Code req =? OpSendDocument)) && x_peek x) = None.

Definition answer_ok (req : Message) (resp : Response) : Prop :=
  resRequestID resp = RequestID req /\
  (resVersion resp = Version req \/
   supportedIPPVersion (Version req) = false /\ resVersion resp = closestSupportedVersion (Version req)).

Lemma untouched_refl w : untouched w w.
Proof. done. Qed.
Lemma untouched_served w w' : untouched w w' -> served (w_store w) (w_store w').
Proof. intros [_ ->]. apply rtc_refl. Qed.

Lemma ippError_ok req st m : answer_ok req (ippError (Version req) (RequestID req) st m).
Proof. unfold answer_ok, ippError. rewrite NewResponse_eq. cbn. auto. Qed.
Lemma ippProtocolError_ok req e : answer_ok req (ippProtocolError (Version req) (RequestID req) e).
Proof. unfold answer_ok, ippProtocolError, ippError. rewrite NewResponse_eq. cbn. auto. Qed.

Lemma document_checks_reads q req has w :
  wp (document_checks E q req has) (fun _ w' => untouched w w') (fun _ _ => False) w.
Proof.
  unfold document_checks, validatePayloadDocumentFormat. repeat (wp_step || case_match); done.
Qed.

Section one.
Context (x : exchange) (q : string) (req : Message) (w : World).

Definition answered_ok (resp : Response) (w' : World) : Prop :=
  answer_ok req resp /\ served (w_store w) (w_store w') /\ (untouched w w' \/ passes_checks x q req).

Lemma answer_early resp w' : untouched w w' -> answer_ok req resp ->
  wp (mret resp : HM Response) answered_ok (fun _ _ => False) w'.
Proof. intros Hu Hr. apply wp_ret. split_and!; [done|by apply untouched_served|by left]. Qed.

Lemma answer_operation m w' : untouched w w' -> Serves m -> echoes (RequestID req) (named_id (RequestID req)) m ->
  passes_checks x q req -> wp (answered req m) answered_ok (fun _ _ => False) w'.
Proof.
  intros Hu Hs He Hc. pose proof (answered_serves req m Hs w') as H1.
  pose proof (echo_answered (RequestID req) req m eq_refl He w') as H2.
  eapply wp_mono; [exact (wp_conj _ _ _ _ _ _ H1 H2)| |intros ? ? [[] _]].
  intros resp w'' (Hserved & Hid & Hv). split; [by split; [|left]|]. split; [|by right].
  exact (transitivity (untouched_served _ _ Hu) Hserved).
Qed.

Lemma answer_closed resp w' : untouched w w' -> resRequestID resp = RequestID req ->
  wp (answered req (mret resp)) answered_ok (fun _ _ => False) w'.
Proof.
  intros Hu Hid. unfold wp, answered. cbn. split_and!; [|by apply untouched_served|by left]. split; [exact Hid|by left].
Qed.

Ltac branch := match goal with |- wp (if ?b then _ else _) _ _ _ => destruct b end.

Lemma ippHandler_wp config : Queues cfg !! q = Some config ->
  wp (ippHandler E cfg x q req) answered_ok (fun _ _ => False) w.
Proof.
  intros Hp. unfold ippHandler. rewrite Hp. cbv zeta.
  branch; [by apply answer_early, ippError_ok|].
  destruct (supportedIPPVersion (Version req)) eqn:Hv; cbn [negb].
  2:{ apply answer_early; [done|]. unfold answer_ok, ippError. rewrite NewResponse_eq. cbn. auto. }
  destruct (ValidateProtocolRequest _ _ _) as [e|] eqn:Hcheck; [by apply answer_early, ippProtocolError_ok|].
  assert (passes_checks x q req) as Hpass by done.
  apply wp_bind. change (wp (ask ?f) ?Q ?R w) with (Q (f (w_tick w)) (ticked w)). cbv beta.
  branch; [by apply answer_early, ippError_ok|].
  apply wp_bind. change (wp (upstreamCapabilities E q) ?Q ?R (ticked w)) with
    (Q (default [] (e_caps E (w_tick (ticked w)) q)) (ticked (ticked w))). cbv beta.
  branch; [apply answer_closed; [done|]; by rewrite id_operationNotSupported|].
  apply wp_bind. eapply wp_mono; [apply document_checks_reads| |done]. intros refused w' Hu.
  assert (untouched w w') as Hw by (destruct Hu; split; done).
  destruct refused as [e|]; [by apply answer_early, ippProtocolError_ok|].
  destruct (if (_ : bool) then x_staging x else None); [by apply answer_early, ippError_ok|].
  destruct (if (_ : bool) then x_staged_ctx x else None); [by apply answer_early, ippError_ok|].
  destruct (x_ctx x); [by apply answer_early, ippError_ok|].
  apply answer_operation; [done|by apply sv_dispatch|by apply echo_dispatch|done].
Qed.
End one.
End requests.

(** C3: whatever the printer answers and other requests do, a request for a
    configured queue ends with one response: it carries the id of the request
    and its version, or the closest supported one when the version is what is
    refused. The registry only changes as the service's own calls change it,
    and unless the version and every protocol check pass, nothing is sent to
    the printer and the registry is left as it was. *)
Theorem request_answered `{GoippLib} `{IPLiterals} `{UUIDs} `{MapRange} E cfg x q req config w :
  (forall t s, served s (e_others E t s)) -> MaxDocumentBytes cfg <= maxI64 -> Queues cfg !! q = Some config ->
  exists resp w', ippHandler E cfg x q req w = (Done resp, w') /\
    answer_ok req resp /\ served (w_store w) (w_store w') /\
    (passes_checks cfg x q req \/ untouched w w').
Proof.
  intros Ho Hm Hp.
  destruct (wp_Done _ _ _ (ippHandler_wp E cfg Ho Hm x q req w config Hp)) as (resp & w' & Hr & Hr1 & Hr2 & Hr3).
  exists resp, w'. tauto.
Qed.

#[local] Existing Instance goipp_example.
#[local] Existing Instance no_ip6.

Lemma request_answered_witness : exists resp w',
  ippHandler ex_environment ex_config ex_exchange "office" ex_print ex_world = (Done resp, w') /\ resRequestID resp = 9 /\ resVersion resp = MakeVersion 2 0.
Proof.
  destruct (request_answered ex_environment ex_config ex_exchange "office" ex_print ex_queue ex_world ex_quiet) as (resp & w' & Hr & [Hid Hv] & _).
  - vm_compute. discriminate.
  - reflexivity.
  - exists resp, w'. split; [exact Hr|]. split; [exact Hid|].
    destruct Hv as [Hv|[Hv _]]; [exact Hv|]. exfalso. revert Hv. vm_compute. discriminate.
Defined.

(** ** The lifecycle of a job *)

Lemma list_state st t s : (forall r, r ∈ rows s -> state r <> st) -> st <> ""%string ->
  ListJobs [AFilter (set_fState st t)] s = (Done [], s).
Proof.
  intros Hs Hne. unfold ListJobs. cbn [parseJobFilterArgs parseJobFilterLoop lift_res].
  set (f := mergeJobFilters zeroFilter (set_fState st t)). rewrite (run_bind _ _ _ f s) by done.
  assert (fIncludeTerminal f && fExcludeTerminal f = false) as -> by done.
  rewrite (run_bind _ _ _ [] s); [done|]. unfold query, gets. do 2 f_equal. apply filter_none. intros r Hr.
  apply not_true_iff_false. intros H. unfold filter_matches in H. rewrite !andb_true_iff in H.
  destruct H as (((((((((((((( _ & _) & _) & H) & _) & _) & _) & _) & _) & _) & _) & _) & _) & _) & _).
  change (fState f) with (or_str st "") in H. rewrite or_str_keep in H by done. unfold when_str in H.
  apply orb_true_iff in H as [H|H]; apply String.eqb_eq in H; [done|]. by destruct (Hs r Hr).
Qed.

(** C18: in every registry that requests and maintenance can lead to, in any
    interleaving, the identities are unique and every job is reserved, mapped,
    uncertain, terminal or failed; in particular none is [canceled], so the
    list of canceled jobs that the maintenance asks for is always empty. *)
Theorem registry_lifecycle s : served emptyStore s ->
  store_ok s /\ (forall r, r ∈ rows s -> state r ∈ lifecycle_states) /\
  forall t, ListJobs [AFilter (set_fState StateCanceled t)] s = (Done [], s).
Proof.
  intros [Hok Hl]%served_from_empty. split_and!; [done|done|]. intros t. apply list_state; [|done].
  intros r Hr E. apply Hl in Hr. rewrite E in Hr. unfold lifecycle_states in Hr.
  rewrite !elem_of_cons, elem_of_nil in Hr. by destruct_or? Hr.
Qed.

(** A job that was reserved, mapped and canceled by its user. *)
Definition canceled_store : Store :=
  let act c s := perform ex_now c s in
  act (CallMarkTerminal [AString "office"; AInt KInt 1; AString StateCanceled; AString ""])
    (act (CallMarkMapped [AString "office"; AInt KInt 1; AInt KInt 41; AString "ipp://printer/jobs/41"])
       (act (CallReserve [AJob (newJob "office" "alice" "letter" "image/urf" 1)]) emptyStore)).

Lemma canceled_store_served : served emptyStore canceled_store.
Proof. do 3 (eapply rtc_r; [|by do 2 eexists; split; [constructor|reflexivity]]). apply rtc_refl. Qed.

Lemma registry_lifecycle_witness :
  length (rows canceled_store) = 1%nat /\
  ListJobs [AFilter (set_fState StateCanceled 0)] canceled_store = (Done [], canceled_store).
Proof.
  split; [vm_compute; reflexivity|].
  exact (proj2 (proj2 (registry_lifecycle canceled_store canceled_store_served)) 0).
Defined.

(** The maintenance always ends, whatever the printers answer and however
    the queues are ordered, and changes the registry only by the service's
    own calls. *)
Theorem maintenance_total `{GoippLib} E cfg retention statistics order w :
  (forall t s, served s (e_others E t s)) ->
  exists w', runMaintenance E cfg retention statistics order w = (Done tt, w') /\ served (w_store w) (w_store w').
Proof.
  intros Ho. pose proof (maintenance_serves E cfg Ho retention statistics order w) as Hw.
  unfold wp in Hw. destruct (runMaintenance E cfg retention statistics order w) as [[[]|e| |] w'] eqn:Hr; try done; [by exists w'|].
  exfalso. revert Hr. unfold runMaintenance, ask, registry_, registry, logged, mbind, M_bind. cbn.
  repeat (case_match; try done); by intros [=].
Qed.

Lemma maintenance_total_witness : exists w',
  runMaintenance ex_environment ex_config 0 true (fun _ => ["office"%string])
    {| w_store := lost_store; w_tick := 3; w_sent := []; w_error := None |} = (Done tt, w').
Proof.
  destruct (maintenance_total ex_environment ex_config 0 true (fun _ => ["office"%string])
    {| w_store := lost_store; w_tick := 3; w_sent := []; w_error := None |} ex_quiet) as (w' & Hr & _).
  exists w'. exact Hr.
Defined.
