(* ===== verification/JobProofs.v ===== *)
(** * One job, followed through a handler

    What the calls of the registry do to the row of one job, while other
    requests work on jobs with other names. *)

From Stdlib Require Import ZArith Lia Ascii String Strings.Byte Sorted.
From stdpp Require Import base tactics list strings gmap relations.
From S2P Require Import Prelude GoString GoError Urf UrfSpec UrfProofs GoTime Store StoreProofs StoreTheorems StoreQueries.
From S2P Require Import Goipp IppAttrs GoUrl Protocol MediaCatalog Normalizer Formats Messages Routing Payload.
From S2P Require Import Handlers Reconcile HandlersProofs HandlersExample.

(** ** Methods on a row that is there *)

Definition uncertain_row (now : time) (reason : string) (r : row) : row :=
  set_life {| State := StateUncertain; ObservedState := ObservedState (r_life r); ObservedError := reason |}
    (set_times (set_reconcile (Some (formatTime now)) (last_reconcile_at (r_times r)) (Some (formatTime now))
                 (set_updated (formatTime now) (r_times r))) r).

Lemma MarkUncertain_run now q id reason s r : store_ok s -> r ∈ rows s -> in_scope q id r = true ->
  IsTerminalState (state r) = false ->
  MarkUncertain now [AString q; AInt KInt id; AString reason] s = (Done tt, set_row (uncertain_row now reason r) s).
Proof.
  intros Hok Hr Hsc Ht. pose proof (in_scope_one q id r Hsc) as Hone.
  assert (no_clash (uncertain_row now reason r) s) as Hno by (by eapply no_clash_same; [..|left]).
  unfold MarkUncertain. rewrite (run_bind _ _ _ (q, id, or_str "" reason, 0) s) by done. cbv beta iota zeta.
  change (timeOrNow now 0) with now. change (or_str "" reason) with reason. unfold tx.
  rewrite (run_bind _ _ _ _ _ (query_row_one _ s r Hok Hr Hsc Hone)), Ht.
  match goal with |- context [exec_update _ ?f] => set (g := f) end.
  by rewrite (run_bind _ _ _ _ _ (exec_update_one _ g r s Hok Hr Hsc Hone eq_refl Hno)).
Qed.

Definition terminal_row (now : time) (observed error : string) (r : row) : row :=
  set_life {| State := StateTerminal; ObservedState := observed; ObservedError := error |}
    (set_times (set_reconcile None (last_reconcile_at (r_times r)) None
      (set_terminal_at (coalesce (terminal_at (r_times r)) (Some (formatTime now)))
        (set_updated (formatTime now) (r_times r)))) r).

Lemma MarkTerminal_run now q id st status message s r : store_ok s -> r ∈ rows s -> in_scope q id r = true ->
  st <> ""%string -> st <> StateTerminal ->
  MarkTerminal now [AString q; AInt KInt id; AString st; AString status; AString message] s =
    (Done tt, set_row (terminal_row now (or_str status st) message r) s).
Proof.
  intros Hok Hr Hsc Hne Hst. pose proof (in_scope_one q id r Hsc) as Hone.
  set (f := terminal_row now (or_str status st) message).
  assert (no_clash (f r) s) as Hno by (by eapply no_clash_same; [..|left]).
  unfold MarkTerminal, markTerminalParsed. rewrite (run_bind _ _ _ (q, id, st, status, message, 0) s) by done.
  cbv beta iota zeta. change (timeOrNow now 0) with now.
  match goal with |- context [exec_update _ ?g] => assert (g = f) as -> end.
  { unfold f, terminal_row. apply String.eqb_neq in Hne, Hst. rewrite Hne, Hst. cbn [negb].
    rewrite !andb_true_r. unfold or_str. reflexivity. }
  by rewrite (run_bind _ _ _ _ _ (exec_update_one _ f r s Hok Hr Hsc Hone eq_refl Hno)).
Qed.

(** ** One job among others *)

Section job.
Context `{G : GoippLib} (E : Environment) (cfg : Config) (n : Names).

(** Other requests keep the registry well formed and work on jobs with other
    names. *)
Definition peers : Prop := forall t s, store_ok s ->
  store_ok (e_others E t s) /\ seq s <= seq (e_others E t s) /\
  forall r, r_names r = n -> (r ∈ rows (e_others E t s) <-> r ∈ rows s).
Context (Hpeers : peers).

(** The jobs of these names are those of [base], apart from [id]. *)
Definition alone (id : Z) (base s : Store) : Prop :=
  store_ok s /\ seq base <= seq s /\
  forall x, r_names x = n -> proxy_job_id x <> id -> (x ∈ rows s <-> x ∈ rows base).
Definition at_job (id : Z) (P : row -> Prop) (base s : Store) : Prop :=
  alone id base s /\ exists r, r ∈ rows s /\ proxy_job_id r = id /\ r_names r = n /\ P r.

Lemma at_job_peers id P base t s : at_job id P base s -> at_job id P base (e_others E t s).
Proof.
  intros ((Hok & Hq & Ha) & r & Hr & Hid & Hn & HP). destruct (Hpeers t s Hok) as (Hok' & Hq' & Hx).
  split; [split_and!; [done|lia|]|].
  - intros x Hnx Hne. rewrite (Hx x Hnx). by apply Ha.
  - exists r. split_and!; try done. by apply Hx.
Qed.

(** A method that replaces the row of the job. *)
Lemma at_job_set id P (P' : row -> Prop) (f : row -> row) base s : at_job id P base s ->
  (forall r, P r -> r_names r = n -> proxy_job_id (f r) = proxy_job_id r /\ r_names (f r) = r_names r /\ P' (f r)) ->
  (forall r, r ∈ rows s -> P r -> proxy_job_id r = id -> r_names r = n -> store_ok (set_row (f r) s)) ->
  forall r, r ∈ rows s -> P r -> proxy_job_id r = id -> r_names r = n -> at_job id P' base (set_row (f r) s).
Proof.
  intros ((Hok & Hq & Ha) & _) Hf Hok' r Hr HP Hid Hn. destruct (Hf r HP Hn) as (Hi & Hnn & HP').
  split; [split_and!; [auto|exact Hq|]|].
  - intros x Hnx Hne. rewrite <- (Ha x Hnx Hne). split.
    + intros H. apply elem_of_set_row in H as [->|[? _]]; [|done]. congruence.
    + intros H. apply set_row_other; congruence.
  - exists (f r). split_and!; try congruence. by eapply set_row_in.
Qed.

(** The registry after [op], when it replaces the row by [f r]. *)
Lemma registry_row {A} id (op : time -> SM A) a P P' f base w Q R : at_job id P base (w_store w) ->
  (forall now s r, store_ok s -> r ∈ rows s -> proxy_job_id r = id -> r_names r = n -> P r ->
     op now s = (Done a, set_row (f now r) s) /\ store_ok (set_row (f now r) s)) ->
  (forall now r, P r -> r_names r = n -> proxy_job_id (f now r) = proxy_job_id r /\ r_names (f now r) = r_names r /\ P' (f now r)) ->
  (forall w', at_job id P' base (w_store w') -> w_sent w' = w_sent w -> Q (Ok a) w') ->
  wp (registry E op) Q R w.
Proof.
  intros Hat Hop Hf HQ. apply (at_job_peers id P base (w_tick w)) in Hat. unfold wp, registry.
  destruct Hat as [Hal Hrow]. destruct Hrow as (r & Hr & Hid & Hn & HP). set (s := e_others E (w_tick w) (w_store w)) in *.
  destruct (Hop (e_now E (w_tick w)) s r) as [-> Hok']; [apply Hal|done..|]. apply HQ; [|done].
  eapply (at_job_set id P P' (f (e_now E (w_tick w)))); try done; [split; [done|by exists r]|eauto|].
  intros r' Hr' HP' Hid' Hn'. eapply (Hop _ s); try done. apply Hal.
Qed.

(** *** The steps of the submission *)

(** What is recorded of a job, apart from names, route and clocks. *)
Definition row_is (l : Life) (up : option Z) (uri : option string) (p : Store.Payload) (r : row) : Prop :=
  r_life r = l /\ upstream_job_id r = up /\ upstream_job_uri r = uri /\ r_payload r = p.

Definition life_of (st observed error : string) : Life :=
  {| State := st; ObservedState := observed; ObservedError := error |}.

Lemma in_scope_names id r : proxy_job_id r = id -> r_names r = n -> in_scope (Queue n) id r = true.
Proof. intros Hi Hn. unfold in_scope, queue. rewrite Hi, Hn, Z.eqb_refl, String.eqb_refl. apply orb_true_r. Qed.

(** The environment, and what was sent, after a step that sends nothing. *)
Definition stays (id : Z) (P : row -> Prop) (base : Store) (w w' : World) : Prop :=
  at_job id P base (w_store w') /\ w_sent w' = w_sent w.

Lemma uncertain_wp id l up uri p base reason w : at_job id (row_is l up uri p) base (w_store w) ->
  IsTerminalState (State l) = false ->
  wp (uncertain E (Queue n) id reason)
    (fun _ => stays id (row_is (life_of StateUncertain (ObservedState l) reason) up uri p) base w) (fun _ _ => False) w.
Proof.
  intros Hat Hl. unfold uncertain, registry_. apply wp_bind.
  eapply (registry_row id _ tt (row_is l up uri p)
    (row_is (life_of StateUncertain (ObservedState l) reason) up uri p) (fun now => uncertain_row now reason) base); [done|..].
  - intros now s r Hok Hr Hid Hn (Hlife & _). assert (IsTerminalState (state r) = false) as Ht by (change (IsTerminalState (State (r_life r)) = false); by rewrite Hlife).
    pose proof (in_scope_names id r Hid Hn) as Hsc. split; [by apply MarkUncertain_run|].
    eapply set_row_ok; try done. by eapply no_clash_same; [..|left].
  - intros now r (<- & Hup & Huri & Hp) _. by split_and!.
  - intros w' H1 H2. by split.
Qed.

Lemma terminal_wp id l up uri p base st status message w : at_job id (row_is l up uri p) base (w_store w) ->
  st <> ""%string -> st <> StateTerminal ->
  wp (registry_ E (fun now => MarkTerminal now [AString (Queue n); AInt KInt id; AString st; AString status; AString message]))
    (fun _ => stays id (row_is (life_of StateTerminal (or_str status st) message) up uri p) base w) (fun _ _ => False) w.
Proof.
  intros Hat H1 H2. unfold registry_. apply wp_bind.
  eapply (registry_row id _ tt (row_is l up uri p)
    (row_is (life_of StateTerminal (or_str status st) message) up uri p)
    (fun now => terminal_row now (or_str status st) message) base); [done|..].
  - intros now s r Hok Hr Hid Hn _. pose proof (in_scope_names id r Hid Hn) as Hsc.
    split; [by apply MarkTerminal_run|]. eapply set_row_ok; try done. by eapply no_clash_same; [..|left].
  - intros now r (Hlife & Hup & Huri & Hp) _. split_and!; done.
  - intros w' H3 H4. by split.
Qed.

Definition with_document (meta : PayloadMetadata) (last : bool) (p : Store.Payload) : Store.Payload := {|
  PayloadBytes := PayloadBytes p + mBytes meta; PageCount := add_count (PageCount p) (mPageCount meta);
  Copies := if mCopies meta =? 0 then 1 else mCopies meta;
  EstimatedImpressions := add_count (EstimatedImpressions p) (mEstimatedImpressions meta);
  DocumentCount := DocumentCount p + (if 0 <? mBytes meta then 1 else 0);
  LastDocument := last || LastDocument p |}.

Definition recorded_document (format : string) (meta : PayloadMetadata) (last : bool) : document := {|
  dFormat := format; dBytes := mBytes meta; dPages := mPageCount meta; dCopies := mCopies meta;
  dImpressions := mEstimatedImpressions meta; dLast := last |}.

Lemma document_row_is now format meta last l up uri p r : row_is l up uri p r ->
  row_is l up uri (with_document meta last p) (document_row now (recorded_document format meta last) r).
Proof. intros (H1 & H2 & H3 & <-). by split_and!. Qed.

Lemma record_document_wp id P P' base format meta last w : at_job id P base (w_store w) ->
  (forall now r, P r -> P' (document_row now (recorded_document format meta last) r)) ->
  wp (record_document E (Queue n) id format meta last) (fun _ => stays id P' base w) (fun _ _ => False) w.
Proof.
  intros Hat HP. unfold record_document. apply wp_bind.
  eapply (registry_row id _ tt P P' (fun now => document_row now (recorded_document format meta last)) base); [done|..].
  - intros now s r Hok Hr Hid Hn _. pose proof (in_scope_names id r Hid Hn) as Hsc.
    exact (UpdateDocument_run now (Queue n) id (recorded_document format meta last) s r Hok Hr Hsc).
  - intros now r Hr _. split_and!; auto.
  - intros w' H3 H4. by apply wp_ret.
Qed.

(** Nothing else has these names, yet. *)
Definition same_jobs (base s : Store) : Prop :=
  store_ok s /\ seq base <= seq s /\ forall x, r_names x = n -> (x ∈ rows s <-> x ∈ rows base).

Definition one_copy_at_least (copies : Z) : Z := if copies =? 0 then 1 else copies.

Lemma reserve_wp req format route copies base w : same_jobs base (w_store w) ->
  n = {| Queue := Queue n; QueueOwner := Queue n;
         RequestingUser := default ""%string (FirstString (Operation req) "requesting-user-name");
         JobName := default ""%string (FirstString (Operation req) "job-name") |} ->
  wp (reserve E (Queue n) req format route copies)
    (fun id w' => seq base < id /\ w_sent w' = w_sent w /\
       at_job id (row_is (life_of StateReserved "" "") None None (zeroPayload (one_copy_at_least copies))) base (w_store w'))
    (fun _ _ => False) w.
Proof.
  intros (Hok & Hq & Hb) Hn. unfold reserve. apply wp_bind. unfold wp at 1, registry.
  destruct (Hpeers (w_tick w) (w_store w) Hok) as (Hok1 & Hq1 & Hx). set (s1 := e_others E (w_tick w) (w_store w)) in *.
  match goal with |- context [Reserve ?t [AJob ?j] s1] =>
    change (Reserve t [AJob j] s1) with (CreateJob t (reservation j) s1); set (job := reservation j); set (now := t) end.
  destruct (CreateJob_run now job s1 Hok1 eq_refl) as [-> Hok2].
  set (r := set_id _ _) in *. apply wp_ret. cbn [w_store w_sent]. split_and!; [lia|done|].
  assert (r_names r = n) as Hrn by (by rewrite Hn).
  split; [split_and!; [done|cbn; lia|]|].
  - intros x Hxn Hne. cbn [rows]. rewrite elem_of_app, list_elem_of_singleton, (Hx x Hxn), (Hb x Hxn). split; [|by left].
    intros [?| ->]; [done|]. by destruct Hne.
  - exists r. split_and!; try done. cbn [rows]. rewrite elem_of_app, list_elem_of_singleton. by right.
Qed.

(** *** The identity at the printer *)

(** What the registry holds once the printer has accepted the job: the
    identity it gave, or the reason why there is none. *)
Definition identified (up : Z) (uri missing : string) (p : Store.Payload) (r : row) : Prop :=
  if 0 <? up then row_is (life_of StateMapped "" "") (Some up) (nullableStringValue uri) p r \/
                  row_is (life_of StateUncertain "" (Error_text ErrMappingConflict)) None None p r
  else row_is (life_of StateUncertain "" missing) None None p r.

Lemma identified_document now format meta last up uri missing p r : identified up uri missing p r ->
  identified up uri missing (with_document meta last p) (document_row now (recorded_document format meta last) r).
Proof. unfold identified. destruct (0 <? up); [|by apply document_row_is]. intros [H|H]; [left|right]; by apply document_row_is. Qed.

(** An attempt to map the job: it is mapped, or another job has the identity. *)
Lemma map_wp {A} id (P : row -> Prop) base up uri w (k : res goerr unit -> HM A) Q R :
  at_job id P base (w_store w) -> (forall x, P x -> IsTerminalState (state x) = false) ->
  (forall w', stays id (fun x => exists now r, P r /\ x = mapped_row now up uri r) base w w' -> wp (k (Ok tt)) Q R w') ->
  (forall r w', alone id base (w_store w') -> r ∈ rows (w_store w') -> proxy_job_id r = id -> r_names r = n -> P r ->
     mapping_conflict up uri r (w_store w') -> w_sent w' = w_sent w -> wp (k (Err ErrMappingConflict)) Q R w') ->
  wp (registry E (fun now => MarkMapped now [AString (Queue n); AInt KInt id; AInt KInt up; AString uri]) ≫= k) Q R w.
Proof.
  intros Hat Ht Hmapped Hconflict. apply (at_job_peers id _ base (w_tick w)) in Hat. destruct Hat as [Hal (r & Hr & Hid & Hn & HP)].
  apply wp_bind. unfold wp at 1, registry. set (s := e_others E (w_tick w) (w_store w)) in *.
  set (now := e_now E (w_tick w)).
  assert (MarkMapped now [AString (Queue n); AInt KInt id; AInt KInt up; AString uri] s =
          markMapped now (Queue n) id up uri s) as -> by done.
  pose proof (in_scope_names id r Hid Hn) as Hsc.
  destruct (markMapped_cases now (Queue n) id up uri s r (proj1 Hal) Hr Hsc) as (_ & H2 & H3).
  destruct (mapping_conflict_dec up uri r s) as [Hc|Hc].
  - rewrite (H2 (Ht r HP) Hc). by apply (Hconflict r).
  - rewrite (H3 (Ht r HP) Hc). apply Hmapped. split; [|done]. cbn [w_store].
    assert (store_ok (set_row (mapped_row now up uri r) s)) as Hok'
      by (eapply set_row_ok; [apply Hal|exact Hr|done|by apply mapped_no_clash; [apply Hal|..]]).
    destruct Hal as (Hok & Hq & Ha). split; [split_and!; [done|done|]|].
    + intros x Hnx Hne. rewrite <- (Ha x Hnx Hne). split.
      * intros H. apply elem_of_set_row in H as [->|[? _]]; [|done]. by destruct Hne.
      * intros H. apply set_row_other; [done|]. cbn. congruence.
    + exists (mapped_row now up uri r). split_and!; try done; [by eapply set_row_in|]. by exists now, r.
Qed.

Lemma record_mapping_wp id p base resp missing w :
  at_job id (row_is (life_of StateReserved "" "") None None p) base (w_store w) ->
  wp (record_mapping E (Queue n) id resp missing)
    (fun _ => stays id (identified (default 0 (FirstInt (default [] (resJob resp)) "job-id"))
       (default ""%string (FirstString (default [] (resJob resp)) "job-uri")) missing p) base w) (fun _ _ => False) w.
Proof.
  intros Hat. unfold record_mapping, identified. cbv zeta. set (up := default 0 _). set (uri := default ""%string _).
  destruct (0 <? up) eqn:Hup; [|by apply (uncertain_wp id (life_of StateReserved "" ""))].
  eapply map_wp; [exact Hat|..].
  - intros x (Hl & _). change (IsTerminalState (State (r_life x)) = false). by rewrite Hl.
  - intros w' [(Hal & r & Hr & Hi & Hn & now & r0 & (Hl & Hu & Huri & Hp) & E1) Hs]. apply wp_ret. split; [|done].
    split; [done|]. exists r. split_and!; try done. left. subst r. split_and!; try done.
    + cbn. by rewrite Hl.
    + cbn. unfold nullableIntValue. by destruct (Z.eqb_spec up 0) as [E0|]; [rewrite E0 in Hup|].
  - intros r w' Hal Hr Hi Hn HP _ Hs.
    eapply wp_mono; [eapply (uncertain_wp id (life_of StateReserved "" "") None None p base)|..]; try done.
    + split; [exact Hal|]. by exists r.
    + intros _ w2 [(Ha & r' & H) Hs2]. split; [|by rewrite Hs2]. split; [done|]. exists r'. tauto.
Qed.
End job.

(** ** Steps that only read *)

Definition quiet (w w' : World) : Prop := w_store w' = w_store w /\ w_sent w' = w_sent w.

(** A step that neither calls the registry nor the printer, and ends the
    handler only with a response. *)
Class Quiet {A} (m : HM A) : Prop := quiet_step : forall w,
  wp m (fun _ w' => quiet w w') (fun e w' => quiet w w' /\ exists resp, e = inr resp) w.

Lemma wp_quiet {A B} (m : HM A) (f : A -> HM B) Q R w0 w : Quiet m -> quiet w0 w ->
  (forall a w', quiet w0 w' -> wp (f a) Q R w') -> (forall resp w', quiet w0 w' -> R (inr resp) w') -> wp (m ≫= f) Q R w.
Proof.
  intros Hm [H1 H2] Hf Hr. apply wp_bind. eapply wp_mono; [apply Hm|..].
  - intros a w' [H3 H4]. apply Hf. split; congruence.
  - intros e w' ([H3 H4] & resp & ->). apply Hr. split; congruence.
Qed.

Section quiet.
Context `{G : GoippLib} (E : Environment) (cfg : Config).
#[export] Instance quiet_ret A (a : A) : Quiet (mret a).
Proof. by intros w. Qed.
#[export] Instance quiet_return A resp : Quiet (return_ resp : HM A).
Proof. intros w. split; [done|by eexists]. Qed.
#[export] Instance quiet_ask A (f : nat -> A) : Quiet (ask f).
Proof. by intros w. Qed.
#[export] Instance quiet_bind A B (m : HM A) (f : A -> HM B) : Quiet m -> (forall a, Quiet (f a)) -> Quiet (m ≫= f).
Proof.
  intros Hm Hf w. eapply wp_quiet; [done..| |by intros resp w' H; split; [|eexists]]. intros a w' [H1 H2].
  eapply wp_mono; [apply Hf|..].
  - intros b w2 [H3 H4]. split; congruence.
  - intros e w2 ([H3 H4] & He). split; [split; congruence|done].
Qed.
#[export] Instance quiet_refuse req e : Quiet (refuse req e).
Proof. destruct e; apply _. Qed.
#[export] Instance quiet_admitted q req : Quiet (validatePayloadDocumentFormat E q req).
Proof. unfold validatePayloadDocumentFormat. repeat case_match; apply _. Qed.
#[export] Instance quiet_upstream q : Quiet (upstreamCapabilities E q).
Proof. unfold upstreamCapabilities. apply _. Qed.
#[export] Instance quiet_route q format req : Quiet (clientRoute E cfg q format req).
Proof. 
  unfold clientRoute, requestRoute. apply quiet_bind; [|intros r; apply _].
  apply quiet_bind; [apply _|intros [model caps]; apply _].
Qed.
#[export] Instance quiet_stop_route req r : Quiet (stop_without_route req r).
Proof. destruct r; apply _. Qed.
#[export] Instance quiet_stop n : Quiet (stop_on_rejection n).
Proof. destruct n; apply _. Qed.
#[export] Instance quiet_normalize q printer req : Quiet (normalizeJobRequest E q printer req).
Proof. unfold normalizeJobRequest. apply _. Qed.

Lemma translation_wp io route attrs upstream req Q R w0 w : MaxDocumentBytes cfg <= maxI64 -> quiet w0 w ->
  (forall d w', quiet w0 w' -> translatePayload io route attrs upstream (MaxDocumentBytes cfg) = Done d -> Q d w') ->
  (forall resp w', quiet w0 w' -> R (inr resp) w') -> wp (translation cfg io route attrs upstream req) Q R w.
Proof.
  intros Hmax Hq HQ HR. unfold translation. pose proof (translatePayload_ends io route attrs upstream _ Hmax) as H.
  destruct (translatePayload _ _ _ _ _) as [d|err| |]; [by apply wp_ret, HQ| |done..].
  apply wp_bind. apply wp_modify. apply wp_throw, HR. destruct Hq. by split.
Qed.
End quiet.

(** ** The answers of the printer *)

(** The answer of the printer, once checked. *)
Definition exchanged `{G : GoippLib} (E : Environment) (t : nat) (uri : string) (msg : Message) (body : Body) : res goerr Response :=
  match e_answer E t uri msg body with
  | Err e => Err e
  | Ok resp => match checkUpstreamResponse msg resp with Some text => Err (EText text) | None => Ok resp end
  end.

Lemma Do_wp `{G : GoippLib} E uri msg body w (Q : res goerr Response -> World -> Prop) R :
  (forall w', w_store w' = w_store w ->
     w_sent w' = w_sent w ++ [{| s_to := uri; s_message := msg; s_body := body |}] ->
     Q (exchanged E (w_tick w) uri msg body) w') -> wp (Do E uri msg body) Q R w.
Proof. intros H. by apply H. Qed.

Lemma wp_outcome {A} (m : HM A) (P : outcome (goerr + Response) A -> World -> Prop) w :
  wp m (fun a => P (Done a)) (fun e => P (Fail_ e)) w -> P (fst (m w)) (snd (m w)).
Proof. unfold wp. by destruct (m w) as [[] ?]. Qed.

Lemma ex_peers `{G : GoippLib} n : peers ex_environment n.
Proof. intros t s Hok. by split_and!. Qed.
