(* ===== verification/JobTheorems.v ===== *)
(** * Print-Job and Create-Job: what becomes of the job

    The job a request reserves is followed through the handler: what the
    registry holds at the end is decided by the answer of the printer, while
    other requests work on other jobs. *)

From Stdlib Require Import ZArith Lia Ascii String Strings.Byte Sorted.
From stdpp Require Import base tactics list strings gmap relations.
From S2P Require Import Prelude GoString GoError Urf UrfSpec UrfProofs GoTime Store StoreProofs StoreTheorems StoreQueries.
From S2P Require Import Goipp IppAttrs GoUrl Protocol MediaCatalog Normalizer Formats Messages Routing Payload.
From S2P Require Import Handlers Reconcile HandlersProofs HandlersExample.
From S2P Require Import JobProofs.

(** ** The outcome of a submission *)

(** The names under which a request reserves its job. *)
Definition submitted_names `{G : GoippLib} (queue : string) (req : Message) : Names := {|
  Queue := queue; QueueOwner := queue;
  RequestingUser := default ""%string (FirstString (Operation req) "requesting-user-name");
  JobName := default ""%string (FirstString (Operation req) "job-name") |}.

(** The document that goes to the printer, and what is recorded of it. *)
Inductive document_of `{G : GoippLib} (cfg : Config) (io : PayloadIO) (attrs : Attributes) : DocumentRoute -> Body -> PayloadMetadata -> Prop :=
| document_streamed route format : Transform route = false -> rec_open (io_recording io) = None ->
    document_of cfg io attrs route (Streamed (recorded (io_recording io)))
      (fst (Finish (io_recording io) format (copiesFromAttrs attrs)))
| document_translated route upstream t :
    translatePayload io route attrs upstream (MaxDocumentBytes cfg) = Done (Some t) ->
    document_of cfg io attrs route (Staged (t_content t)) (translatedMetadata t (copiesFromAttrs attrs)).

(** How the request ends and what the job becomes, by the answer: [p] is the
    payload the job was reserved with, [p'] the one of an accepted job. *)
Definition decided `{G : GoippLib} (cfg : Config) (queue : string) (result : NormalizationResult) (id : Z) (missing : string)
    (p p' : Store.Payload) (answer : res goerr Response) (o : outcome (goerr + Response) Response) (r : row) : Prop :=
  match answer with
  | Err err => o = Fail_ (inl err) /\ row_is (life_of StateUncertain "" (Error_text err)) None None p r
  | Ok resp =>
      if ippSuccess resp then
        let resp := applyNormalizationResult resp result in
        let job := default [] (resJob resp) in
        o = Done (rewriteResponseJob resp id (proxyPrinterURI cfg queue)) /\
        identified (default 0 (FirstInt job "job-id")) (default ""%string (FirstString job "job-uri")) missing p' r
      else o = Done resp /\
        row_is (life_of StateTerminal (or_str (status_String (resCode resp)) StateFailed) (statusMessage resp)) None None p r
  end.

(** A job is reserved, one message is sent for it, and its answer decides. *)
Definition submitted `{G : GoippLib} (E : Environment) (cfg : Config) (queue : string) (printer : PrinterConfig) (req : Message)
    (documents : Attributes -> DocumentRoute -> Body -> (Store.Payload -> Store.Payload) -> Prop) (missing : string)
    (w : World) (o : outcome (goerr + Response) Response) (w' : World) : Prop :=
  exists id route result body update t,
    let job := nAttrs result in
    let p := zeroPayload (one_copy_at_least (copiesFromAttrs job)) in
    let msg := print_request req route printer job in
    seq (w_store w) < id /\ documents job route body update /\
    w_sent w' = w_sent w ++ [{| s_to := UpstreamURI printer; s_message := msg; s_body := body |}] /\
    at_job (submitted_names queue req) id
      (decided cfg queue result id missing p (update p) (exchanged E t (UpstreamURI printer) msg body) o)
      (w_store w) (w_store w').

(** The request is refused before anything is done for it. *)
Definition refused_request (w : World) (o : outcome (goerr + Response) Response) (w' : World) : Prop :=
  quiet w w' /\ exists resp, o = Fail_ (inr resp).

Section outcome.
Context `{G : GoippLib} (E : Environment) (cfg : Config) (queue : string) (printer : PrinterConfig) (req : Message).
Context (Hmax : MaxDocumentBytes cfg <= maxI64) (Hpeers : peers E (submitted_names queue req)).
Let n := submitted_names queue req.

Lemma same_jobs_start s : store_ok s -> same_jobs n s s.
Proof. by intros Hok; split_and!. Qed.

Lemma reserve_names_wp format route copies w0 w : store_ok (w_store w0) -> quiet w0 w ->
  wp (reserve E queue req format route copies)
    (fun id w' => seq (w_store w0) < id /\ w_sent w' = w_sent w0 /\
       at_job n id (row_is (life_of StateReserved "" "") None None (zeroPayload (one_copy_at_least copies)))
         (w_store w0) (w_store w'))
    (fun _ _ => False) w.
Proof.
  intros Hok [Hs Hsent]. rewrite <- Hsent. apply (reserve_wp E n Hpeers); [|done]. rewrite Hs. by apply same_jobs_start.
Qed.

(** After the answer, when it is not accepted. *)
Lemma refused_wp result id p p' missing base answer w (k : Response -> HM Response) P :
  at_job n id (row_is (life_of StateReserved "" "") None None p) base (w_store w) ->
  (forall o w', at_job n id (decided cfg queue result id missing p p' answer o) base (w_store w') -> w_sent w' = w_sent w -> P o w') ->
  (forall resp, answer = Ok resp -> ippSuccess resp = true -> wp (k resp) (fun a => P (Done a)) (fun e => P (Fail_ e)) w) ->
  wp (match answer with
      | Err err => uncertain E queue id (Error_text err);; fail err
      | Ok resp => if negb (ippSuccess resp) then rejected_by_printer E queue id resp;; mret resp else k resp
      end) (fun a => P (Done a)) (fun e => P (Fail_ e)) w.
Proof.
  intros Hat HP Hk. destruct answer as [resp|err].
  - destruct (ippSuccess resp) eqn:Hok; [by apply Hk|]. apply wp_bind.
    eapply wp_mono; [apply (terminal_wp E n Hpeers id _ _ _ _ base StateFailed _ _ w Hat)|..]; try done.
    intros _ w' [(Ha & r & Hr & Hid & Hn & Hrow) Hs]. apply wp_ret, HP; [|done]. split; [done|].
    exists r. split_and!; try done. unfold decided. by rewrite Hok.
  - apply wp_bind. eapply wp_mono; [apply (uncertain_wp E n Hpeers id _ _ _ _ base _ w Hat)|..]; try done.
    intros _ w' [(Ha & r & Hr & Hid & Hn & Hrow) Hs]. apply wp_throw, HP; [|done]. split; [done|].
    exists r. split_and!; try done.
Qed.

Lemma translatePayload_none io route attrs upstream m : translatePayload io route attrs upstream m = Done None ->
  Transform route = false.
Proof. unfold translatePayload. destruct (Transform route); [cbn|done]. by repeat case_match. Qed.

(** The file of the recorder could not be opened: the job has failed. *)
Definition recorder_failed (io : PayloadIO) (w : World) (o : outcome (goerr + Response) Response) (w' : World) : Prop :=
  exists id err copies, rec_open (io_recording io) = Some err /\ o = Fail_ (inl err) /\ w_sent w' = w_sent w /\
    seq (w_store w) < id /\
    at_job n id (row_is (life_of StateTerminal StateFailed (Error_text err)) None None
                   (zeroPayload (one_copy_at_least copies))) (w_store w) (w_store w').

Ltac quiet_step := eapply wp_quiet; [apply _|eassumption| |by intros; left; split; [|eexists]].

Definition documents_of_print (io : PayloadIO) (job : Attributes) (route : DocumentRoute) (body : Body)
    (update : Store.Payload -> Store.Payload) : Prop :=
  exists meta, document_of cfg io job route body meta /\ update = with_document meta true.

(** The registry and the answer, once the document has been sent. *)
Lemma print_end_wp io route result body meta id format t w w' : document_of cfg io (nAttrs result) route body meta ->
  let msg := print_request req route printer (nAttrs result) in
  let missing := "upstream accepted job without job-id"%string in
  let p := zeroPayload (one_copy_at_least (copiesFromAttrs (nAttrs result))) in
  let P o w'' := refused_request w o w'' \/ recorder_failed io w o w'' \/
    submitted E cfg queue printer req (documents_of_print io) missing w o w'' in
  seq (w_store w) < id ->
  w_sent w' = w_sent w ++ [{| s_to := UpstreamURI printer; s_message := msg; s_body := body |}] ->
  at_job n id (row_is (life_of StateReserved "" "") None None p) (w_store w) (w_store w') ->
  wp (match exchanged E t (UpstreamURI printer) msg body with
      | Err err => uncertain E queue id (Error_text err);; fail err
      | Ok resp =>
          if negb (ippSuccess resp) then rejected_by_printer E queue id resp;; mret resp
          else
            let resp := applyNormalizationResult resp result in
            record_mapping E queue id resp missing;;
            record_document E queue id format meta true;;
            mret (rewriteResponseJob resp id (proxyPrinterURI cfg queue))
      end) (fun a => P (Done a)) (fun e => P (Fail_ e)) w'.
Proof.
  intros Hdoc msg missing p P Hid Hsent Hat.
  assert (forall o w'', at_job n id (decided cfg queue result id missing p (with_document meta true p)
      (exchanged E t (UpstreamURI printer) msg body) o) (w_store w) (w_store w'') -> w_sent w'' = w_sent w' -> P o w'') as HP.
  { intros o w'' H Hs. right; right. exists id, route, result, body, (with_document meta true), t.
    split_and!; [exact Hid|by exists meta|by rewrite Hs|exact H]. }
  eapply refused_wp; [exact Hat|exact HP|]. intros resp Ha Hok. cbv zeta. apply wp_bind.
  eapply wp_mono; [by apply (record_mapping_wp E n Hpeers id p)| |done]. intros _ w1 [Hat1 Hs1]. apply wp_bind.
  eapply wp_mono; [eapply (record_document_wp E n Hpeers id); [exact Hat1|intros now r; apply identified_document]| |done]. intros _ w2 [Hat2 Hs2].
  apply wp_ret, HP; [|congruence]. rewrite Ha. destruct Hat2 as (Hal & r & Hr & Hi & Hn & Hrow).
  split; [done|]. exists r. split_and!; try done. unfold decided. by rewrite Hok.
Qed.

Lemma print_wp io w : store_ok (w_store w) ->
  let P o w' := refused_request w o w' \/ recorder_failed io w o w' \/
    submitted E cfg queue printer req (documents_of_print io) "upstream accepted job without job-id" w o w' in
  wp (handlePrintJob E cfg queue printer req io) (fun a => P (Done a)) (fun e => P (Fail_ e)) w.
Proof.
  intros Hok P. assert (quiet w w) as H0 by done. unfold handlePrintJob.
  quiet_step; intros _ w1 H1. quiet_step; intros admitted w2 H2. quiet_step; intros _ w3 H3. cbv zeta.
  quiet_step; intros routed w4 H4. quiet_step; intros route0 w5 H5. quiet_step; intros normalized w6 H6.
  quiet_step; intros result w7 H7. quiet_step; intros upstream w8 H8. set (route := with_page route0 _).
  apply wp_bind. eapply (translation_wp cfg io route); [exact Hmax|exact H8| |by intros; left; split; [|eexists]].
  intros document w9 H9 Hdoc. apply wp_bind. eapply wp_mono; [by apply reserve_names_wp| |done].
  intros id w10 (Hid & Hsent & Hat). apply wp_bind.
  destruct document as [t|].
  - apply wp_bind. apply Do_wp. intros w11 Hst Hse. apply wp_ret. eapply print_end_wp; [|exact Hid|by rewrite Hse, Hsent|by rewrite Hst].
    by eapply document_translated.
  - destruct (rec_open (io_recording io)) as [err|] eqn:Hopen.
    + apply wp_bind, wp_modify, wp_bind. 
      eapply wp_mono; [eapply (terminal_wp E n Hpeers id _ _ _ _ (w_store w) StateFailed ""); [exact Hat|done..]| |done].
      intros _ w11 [Hat' Hs]. apply wp_throw. right; left. do 3 eexists. split_and!; try done. by rewrite Hs, <- Hsent.
    + apply wp_bind, Do_wp. intros w11 Hst Hse. apply wp_ret. eapply print_end_wp; [|exact Hid|by rewrite Hse, Hsent|by rewrite Hst].
      apply document_streamed; [|done]. by eapply translatePayload_none.
Qed.
Definition no_document (_ : Attributes) (_ : DocumentRoute) (body : Body) (update : Store.Payload -> Store.Payload) : Prop :=
  body = NoBody /\ update = fun p => p.

Lemma create_wp w : store_ok (w_store w) ->
  let P o w' := refused_request w o w' \/
    submitted E cfg queue printer req no_document "upstream created job without job-id" w o w' in
  wp (handleCreateJob E cfg queue printer req) (fun a => P (Done a)) (fun e => P (Fail_ e)) w.
Proof.
  intros Hok P. assert (quiet w w) as H0 by done. unfold handleCreateJob.
  quiet_step; intros normalized w1 H1. quiet_step; intros result w2 H2. cbv zeta.
  quiet_step; intros routed w3 H3. quiet_step; intros route0 w4 H4.
  quiet_step; intros upstream w5 H5. set (route := with_page route0 _).
  apply wp_bind. eapply wp_mono; [by apply reserve_names_wp| |done].
  intros id w6 (Hid & Hsent & Hat). apply wp_bind. apply Do_wp. intros w7 Hst Hse. rewrite <- Hst in Hat.
  set (p := zeroPayload _) in Hat. set (answer := exchanged _ _ _ _ _).
  assert (forall o w'', at_job n id (decided cfg queue result id "upstream created job without job-id" p p
      answer o) (w_store w) (w_store w'') -> w_sent w'' = w_sent w7 -> P o w'') as HP.
  { intros o w'' H Hs. right. exists id, route, result, NoBody, (fun p => p), (w_tick w6).
    split_and!; [exact Hid|done|by rewrite Hs, Hse, Hsent|exact H]. }
  eapply refused_wp; [exact Hat|exact HP|]. intros resp Ha Hsucc. cbv zeta. apply wp_bind.
  eapply wp_mono; [by apply (record_mapping_wp E n Hpeers id p)| |done]. intros _ w8 [Hat1 Hs1].
  apply wp_ret, HP; [|congruence]. rewrite Ha. destruct Hat1 as (Hal & r & Hr & Hi & Hn & Hrow).
  split; [done|]. exists r. split_and!; try done. unfold decided. by rewrite Hsucc.
Qed.
End outcome.

(** C2: Print-Job, whatever the printer answers and while other requests work
    on other jobs. Either it is refused, with nothing reserved and nothing
    sent; or a new job is reserved and the printer gets exactly one message:
    the request rewritten for the admitted route, with the translated document
    when the route translates and the client's otherwise. What the job becomes
    is decided by the answer: without one it is uncertain for that error; a
    rejected job has failed, with the status and the message; an accepted one
    is mapped to the identity it got at the printer (or uncertain when it got
    none or one that another job has), its document is recorded, and the
    client is answered with the id of the proxy. Only when the recorder cannot
    be opened, the job has failed and nothing is sent. No other job of these
    names changes. *)
Theorem print_job_outcome `{G : GoippLib} E cfg queue printer req io w :
  MaxDocumentBytes cfg <= maxI64 -> peers E (submitted_names queue req) -> store_ok (w_store w) ->
  let '(o, w') := handlePrintJob E cfg queue printer req io w in
  refused_request w o w' \/ recorder_failed queue req io w o w' \/
  submitted E cfg queue printer req (documents_of_print cfg io) "upstream accepted job without job-id" w o w'.
Proof.
  intros Hmax Hpeers Hok. pose proof (wp_outcome _ _ _ (print_wp E cfg queue printer req Hmax Hpeers io w Hok)) as H.
  by destruct (handlePrintJob _ _ _ _ _ _ _).
Qed.

(** Create-Job likewise: either refused with nothing reserved and nothing
    sent, or one job is reserved and one message without a document is sent,
    and the answer decides: no answer leaves the job uncertain, a rejection
    fails it, an accepted job is mapped to its identity at the printer, still
    without a document, and answered with the id of the proxy. *)
Theorem create_job_outcome `{G : GoippLib} E cfg queue printer req w :
  peers E (submitted_names queue req) -> store_ok (w_store w) ->
  let '(o, w') := handleCreateJob E cfg queue printer req w in
  refused_request w o w' \/
  submitted E cfg queue printer req no_document "upstream created job without job-id" w o w'.
Proof.
  intros Hpeers Hok. pose proof (wp_outcome _ _ _ (create_wp E cfg queue printer req Hpeers w Hok)) as H.
  by destruct (handleCreateJob _ _ _ _ _ _).
Qed.

#[local] Existing Instance goipp_example.

Definition is_done {A B} (o : outcome A B) : bool := match o with Done _ => true | _ => false end.

Lemma print_job_outcome_witness :
  let '(o, w') := handlePrintJob ex_environment ex_config "office" ex_office ex_print ex_io ex_world in
  submitted ex_environment ex_config "office" ex_office ex_print (documents_of_print ex_config ex_io)
    "upstream accepted job without job-id" ex_world o w'.
Proof.
  assert (is_done (fst (handlePrintJob ex_environment ex_config "office" ex_office ex_print ex_io ex_world)) = true) as Hd
    by (vm_compute; reflexivity).
  pose proof (print_job_outcome ex_environment ex_config "office" ex_office ex_print ex_io ex_world
    ltac:(vm_compute; discriminate) (ex_peers _) ex_store_ok) as H.
  destruct (handlePrintJob ex_environment ex_config "office" ex_office ex_print ex_io ex_world) as [o w'].
  destruct H as [(_ & resp & ->)|[(id & err & copies & _ & -> & _)|H]]; [discriminate Hd|discriminate Hd|exact H].
Defined.

Lemma create_job_outcome_witness :
  let req := ex_request OpCreateJob [] [("copies", [(TagInteger, VInteger 2)])]%string in
  let '(o, w') := handleCreateJob ex_environment ex_config "office" ex_office req ex_world in
  submitted ex_environment ex_config "office" ex_office req no_document "upstream created job without job-id" ex_world o w'.
Proof.
  intros req.
  assert (is_done (fst (handleCreateJob ex_environment ex_config "office" ex_office req ex_world)) = true) as Hd
    by (vm_compute; reflexivity).
  pose proof (create_job_outcome ex_environment ex_config "office" ex_office req ex_world (ex_peers _) ex_store_ok) as H.
  destruct (handleCreateJob ex_environment ex_config "office" ex_office req ex_world) as [o w'].
  destruct H as [(_ & resp & ->)|H]; [discriminate Hd|exact H].
Defined.
