(* ===== verification/OperationTheorems.v ===== *)
(** * Operations on a job: cancellation and reconciliation

    What Cancel-Job and the reconciliation of an uncertain job make of it, by
    the answers of the printer and while other requests work on other jobs. *)

From Stdlib Require Import ZArith Lia Ascii String Strings.Byte Sorted.
From stdpp Require Import base tactics list strings gmap relations.
From S2P Require Import Prelude GoString GoError Urf UrfSpec UrfProofs GoTime Store StoreProofs StoreTheorems StoreQueries.
From S2P Require Import Goipp IppAttrs GoUrl Protocol MediaCatalog Normalizer Formats Messages Routing Payload.
From S2P Require Import Handlers Reconcile HandlersProofs HandlersExample.
From S2P Require Import JobProofs.

Lemma GetByProxyID_run q id s r : store_ok s -> r ∈ rows s -> in_scope q id r = true ->
  GetByProxyID [AString q; AInt KInt id] s = (Done (scanJob r), s).
Proof.
  intros Hok Hr Hsc. unfold GetByProxyID. rewrite (run_bind _ _ _ (q, id) s) by done.
  by rewrite (run_bind _ _ _ _ _ (query_row_one _ s r Hok Hr Hsc (in_scope_one q id r Hsc))).
Qed.

Lemma MarkEnded_run now q id st s r : store_ok s -> r ∈ rows s -> in_scope q id r = true ->
  st <> ""%string -> st <> StateTerminal ->
  MarkTerminal now [AString q; AInt KInt id; AString st; AString ""] s =
    (Done tt, set_row (terminal_row now st "" r) s) /\ store_ok (set_row (terminal_row now st "" r) s).
Proof.
  intros Hok Hr Hsc H1 H2. pose proof (in_scope_one q id r Hsc) as Hone. set (f := terminal_row now st "").
  assert (no_clash (f r) s) as Hno by (by eapply no_clash_same; [..|left]).
  split; [|by eapply set_row_ok].
  unfold MarkTerminal, markTerminalParsed. rewrite (run_bind _ _ _ (q, id, st, ""%string, ""%string, 0) s) by done.
  cbv beta iota zeta. change (timeOrNow now 0) with now.
  match goal with |- context [exec_update _ ?g] => assert (g = f) as -> end.
  { unfold f, terminal_row. apply String.eqb_neq in H1, H2. by rewrite H1, H2. }
  by rewrite (run_bind _ _ _ _ _ (exec_update_one _ f r s Hok Hr Hsc Hone eq_refl Hno)).
Qed.

Section operations.
Context `{G : GoippLib} (E : Environment) (cfg : Config) (queue : string) (printer : PrinterConfig) (req : Message).

(** ** Cancel-Job *)

Section cancel.
Context (r : row) (base : Store) (Hpeers : peers E (r_names r)) (Hq : Store.queue r = queue).
Let n := r_names r.
Let id := proxy_job_id r.

(** The row as a request finds it. *)
Lemma at_job_start : store_ok base -> r ∈ rows base -> at_job n id (eq r) base base.
Proof. intros Hok Hr. split; [by split_and!|]. exists r. by split_and!. Qed.

Lemma at_job_mono (P P' : row -> Prop) s : (forall x, P x -> P' x) -> at_job n id P base s -> at_job n id P' base s.
Proof. intros H (Ha & x & Hx & Hi & Hn & HP). split; [done|]. exists x. split_and!; auto. Qed.

Lemma in_scope_here : in_scope queue id r = true.
Proof. unfold in_scope. rewrite Z.eqb_refl, Hq, String.eqb_refl. apply orb_true_r. Qed.

Lemma lookup_wp w : requestProxyJobID req = id -> id <> 0 -> at_job n id (eq r) base (w_store w) ->
  wp (lookupRequestJob E queue req)
    (fun found w' => found = Ok (scanJob r) /\ stays n id (eq r) base w w') (fun _ _ => False) w.
Proof.
  intros Hid Hne Hat. unfold lookupRequestJob. rewrite Hid. apply Z.eqb_neq in Hne as ->.
  apply (at_job_peers E n Hpeers id _ base (w_tick w)) in Hat as Hat'. destruct Hat' as [Hal (x & Hx & _ & _ & <-)].
  unfold wp, registry. rewrite (GetByProxyID_run queue id _ r (proj1 Hal) Hx (in_scope_here)).
  split; [done|]. split; [|done]. split; [exact Hal|]. by exists r.
Qed.

Lemma canceled_wp w : at_job n id (eq r) base (w_store w) ->
  wp (registry_ E (fun now => MarkTerminal now [AString queue; AInt KInt id; AString StateCanceled; AString ""]))
    (fun _ => stays n id (row_is (life_of StateTerminal StateCanceled "") (upstream_job_id r) (upstream_job_uri r)
                            (r_payload r)) base w) (fun _ _ => False) w.
Proof.
  intros Hat. unfold registry_. apply wp_bind. eapply (registry_row E n Hpeers id _ tt (eq r)
    (row_is (life_of StateTerminal StateCanceled "") (upstream_job_id r) (upstream_job_uri r) (r_payload r))
    (fun now => terminal_row now StateCanceled "") base); [done|..].
  - intros now s x Hok' Hx Hi Hn <-. pose proof in_scope_here as Hsc.
    by apply MarkEnded_run.
  - intros now x <- _. by split_and!.
  - intros w' H3 H4. apply wp_ret. by split.
Qed.
End cancel.

(** The message that goes to the printer for an operation on a job. *)
Definition job_request (job : Store.Job) : Message :=
  clear_Groups (set_Operation (rewriteOperationForUpstream (rewriteMappedJobOperation (Operation req) job) (UpstreamURI printer)) req).

Definition canceled_outcome (r : row) (w : World) (o : outcome (goerr + Response) Response) (w' : World) : Prop :=
  let id := proxy_job_id r in
  let becomes P := at_job (r_names r) id P (w_store w) (w_store w') in
  let with_life l := row_is l (upstream_job_id r) (upstream_job_uri r) (r_payload r) in
  if mapping_unavailable (scanJob r) || IsTerminalState (state r) then
    w_sent w' = w_sent w /\ becomes (eq r) /\ exists message, o = Done (protocolResponse req StatusErrorNotPossible message)
  else exists t,
    let msg := job_request (scanJob r) in
    w_sent w' = w_sent w ++ [{| s_to := UpstreamURI printer; s_message := msg; s_body := NoBody |}] /\
    match exchanged E t (UpstreamURI printer) msg NoBody with
    | Err err => o = Fail_ (inl err) /\
        becomes (with_life (life_of StateUncertain (ObservedState (r_life r)) (Error_text err)))
    | Ok resp => o = Done (rewriteResponseJob resp id (proxyPrinterURI cfg queue)) /\
        becomes (if ippSuccess resp then with_life (life_of StateTerminal StateCanceled "") else eq r)
    end.

Lemma cancel_wp r w : Code req = OpCancelJob -> peers E (r_names r) -> store_ok (w_store w) -> r ∈ rows (w_store w) ->
  Store.queue r = queue -> requestProxyJobID req = proxy_job_id r -> proxy_job_id r <> 0 ->
  let P := canceled_outcome r w in
  wp (handleMappedJobOperation E cfg queue printer req) (fun a => P (Done a)) (fun e => P (Fail_ e)) w.
Proof.
  intros Hop Hpeers Hok Hr Hq Hid Hne P. unfold handleMappedJobOperation. apply wp_bind.
  eapply wp_mono; [apply (lookup_wp r (w_store w) Hpeers Hq w Hid Hne), at_job_start; done| |done].
  intros found w1 (-> & Hat & Hsent). change (State (life (scanJob r))) with (state r). rewrite Hop.
  change (OpCancelJob =? OpGetJobAttributes) with false. change (OpCancelJob =? OpCancelJob) with true. cbn [negb orb].
  rewrite andb_true_r. unfold P, canceled_outcome. destruct (mapping_unavailable (scanJob r)) eqn:Hm; cbn [orb].
  { apply wp_ret. split_and!; [done..|by eexists]. }
  destruct (IsTerminalState (state r)) eqn:Ht; [apply wp_ret; split_and!; [done..|by eexists]|]. fold (job_request (scanJob r)).
  apply wp_bind, Do_wp. intros w2 Hst Hse. rewrite Hsent in Hse. rewrite <- Hst in Hat.
  destruct (exchanged _ _ _ _ _) as [resp|err] eqn:Hans.
  - destruct (ippSuccess resp) eqn:Hs; cbn [when]; apply wp_bind.
    + eapply wp_mono; [by apply (canceled_wp r (w_store w) Hpeers Hq)| |done].
      intros _ w3 [Hat3 Hs3]. apply wp_ret. exists (w_tick w1). split; [congruence|]. rewrite Hans. by rewrite Hs.
    + apply wp_ret, wp_ret. exists (w_tick w1). split; [congruence|]. rewrite Hans. by rewrite Hs.
  - cbn [when]. apply wp_bind. eapply wp_mono.
    + rewrite <- Hq. apply (uncertain_wp E (r_names r) Hpeers (proxy_job_id r) (r_life r) (upstream_job_id r) (upstream_job_uri r)
        (r_payload r) (w_store w)); [|exact Ht]. eapply at_job_mono; [|exact Hat]. by intros x <-.
    + intros _ w3 [Hat3 Hs3]. apply wp_throw. exists (w_tick w1). split; [congruence|]. by rewrite Hans.
    + done.
Qed.
End operations.

(** C31: Cancel-Job for a job of the queue, whatever the printer answers and
    while other requests work on other jobs. A job that has no identity at the
    printer yet, or has ended, is refused and nothing is sent. Otherwise the
    printer gets exactly one message, about its own id of the job; when it
    accepts, the job has ended, canceled; when it refuses, the job is as it
    was; when there is no answer, the job is uncertain for that error. In all
    cases the job keeps its identity and its documents, and the client sees
    the id of the proxy. *)
Theorem cancel_job_outcome `{G : GoippLib} E cfg queue printer req r w :
  Code req = OpCancelJob -> peers E (r_names r) -> store_ok (w_store w) -> r ∈ rows (w_store w) ->
  Store.queue r = queue -> requestProxyJobID req = proxy_job_id r -> proxy_job_id r <> 0 ->
  let '(o, w') := handleMappedJobOperation E cfg queue printer req w in canceled_outcome E cfg queue printer req r w o w'.
Proof.
  intros. pose proof (wp_outcome _ _ _ (cancel_wp E cfg queue printer req r w ltac:(done) ltac:(done) ltac:(done)
    ltac:(done) ltac:(done) ltac:(done) ltac:(done))) as Hw.
  by destruct (handleMappedJobOperation _ _ _ _ _ _).
Qed.

#[local] Existing Instance goipp_example.

(** Job 1 of the example, printed as job 41, is canceled. *)
Lemma cancel_job_outcome_witness :
  let req := ex_request OpCancelJob [("job-id", [(TagInteger, VInteger 1)])]%string [] in
  let '(o, w') := handleMappedJobOperation ex_environment ex_config "office" ex_office req ex_world in
  length (w_sent w') = 1%nat /\
  exists r', r' ∈ rows (w_store w') /\ proxy_job_id r' = 1 /\ r_life r' = life_of StateTerminal StateCanceled "".
Proof.
  intros req. set (r := row_at 0 ex_store).
  assert (r ∈ rows ex_store) as Hr by (apply row_at_in; vm_compute; reflexivity).
  assert (Store.queue r = "office"%string /\ requestProxyJobID req = proxy_job_id r /\ proxy_job_id r <> 0 /\ proxy_job_id r = 1) as (H1 & H2 & H3 & H4)
    by (vm_compute; split_and!; (reflexivity || discriminate)).
  pose proof (cancel_job_outcome ex_environment ex_config "office" ex_office req r ex_world eq_refl (ex_peers _)
    ex_store_ok Hr H1 H2 H3) as H.
  destruct (handleMappedJobOperation _ _ _ _ _ _) as [o w']. unfold canceled_outcome in H. revert H.
  assert (mapping_unavailable (scanJob r) || IsTerminalState (state r) = false) as -> by (vm_compute; reflexivity).
  intros (t & -> & H). split; [reflexivity|].
  assert (exchanged ex_environment t (UpstreamURI ex_office) (job_request ex_office req (scanJob r)) NoBody =
    Ok (ex_answer (job_request ex_office req (scanJob r)))) as Ha by (vm_compute; reflexivity).
  rewrite Ha in H. assert (ippSuccess (ex_answer (job_request ex_office req (scanJob r))) = true) as Hs by (vm_compute; reflexivity).
  rewrite Hs in H. destruct H as (_ & _ & r' & Hin & Hid & _ & Hl & _). exists r'. rewrite <- H4. auto.
Defined.
