(* ===== verification/ReconcileTheorems.v ===== *)
(** * Reconciliation: an uncertain job is never guessed

    What the reconciliation makes of a job without an identity at the printer,
    by the jobs the printer lists and while other requests work on other jobs. *)

From Stdlib Require Import ZArith Lia Ascii String Strings.Byte Sorted.
From stdpp Require Import base tactics list strings gmap relations.
From S2P Require Import Prelude GoString GoError Urf UrfSpec UrfProofs GoTime Store StoreProofs StoreTheorems StoreQueries.
From S2P Require Import Goipp IppAttrs GoUrl Protocol MediaCatalog Normalizer Formats Messages Routing Payload.
From S2P Require Import Handlers Reconcile HandlersProofs HandlersExample HandlersTheorems.
From S2P Require Import JobProofs OperationTheorems.

(** ** Methods that edit rows in place *)

(** Every row is replaced by one that [R] allows, in its place. *)
Class Edits (R : row -> row -> Prop) {A} (m : SM A) : Prop :=
  edits : forall s, Forall2 R (rows s) (rows (snd (m s))).

Section edits.
Context (R : row -> row -> Prop) `{!Reflexive R, !Transitive R}.
#[export] Instance edits_read A (m : SM A) : ReadOnly m -> Edits R m | 10.
Proof. intros H s. rewrite H. apply Forall_Forall2_diag, Forall_true. intros x. reflexivity. Qed.
#[export] Instance edits_bind A B (m : SM A) (f : A -> SM B) : Edits R m -> (forall a, Edits R (f a)) -> Edits R (m ≫= f) | 1.
Proof.
  intros Hm Hf s. unfold mbind, M_bind. specialize (Hm s). destruct (m s) as [[a| | |] s']; cbn in *; [|done..].
  exact (transitivity Hm (Hf a s')).
Qed.
#[export] Instance edits_if A (b : bool) (m n : SM A) : Edits R m -> Edits R n -> Edits R (if b then m else n) | 1.
Proof. by destruct b. Qed.
#[export] Instance edits_tx A (m : SM A) : Edits R m -> Edits R (tx m) | 1.
Proof.
  intros Hm s. specialize (Hm s). unfold tx. destruct (m s) as [[] ?]; try done;
  apply Forall_Forall2_diag, Forall_true; intros x; reflexivity.
Qed.
Lemma edits_update p f : (forall r, p r = true -> R r (f r)) -> Edits R (exec_update p f).
Proof.
  intros Hf s. unfold exec_update. destruct (unique_mappings _); cbn.
  - induction (rows s) as [|x l IH]; cbn; constructor; [|done]. destruct (p x) eqn:Hp; [auto|reflexivity].
  - apply Forall_Forall2_diag, Forall_true. intros x. reflexivity.
Qed.
End edits.

(** Only the row of [id] is edited, and as [Q] allows. *)
Definition only (id : Z) (Q : row -> row -> Prop) (r r' : row) : Prop :=
  r' = r \/ (proxy_job_id r = id /\ proxy_job_id r' = id /\ r_names r' = r_names r /\ Q r r').

#[export] Instance only_refl id Q : Reflexive (only id Q).
Proof. intros r. by left. Qed.
#[export] Instance only_trans id Q : Transitive Q -> Transitive (only id Q).
Proof.
  intros HQ x y z [->|(H1 & H2 & H3 & H4)]; [done|]. intros [->|(H5 & H6 & H7 & H8)]; right; split_and!; try done.
  - congruence.
  - exact (transitivity H4 H8).
Qed.

Ltac edit_rows :=
  repeat match goal with
    | |- Edits _ (match ?x with (_, _) => _ end) => destruct x
    | |- Edits _ (_ ≫= _) => apply edits_bind; [apply _| |intros]
    | |- Edits _ (if _ then _ else _) => apply edits_if
    | |- Edits _ (tx _) => apply edits_tx; [apply _|]
    | |- Edits _ (exec_update _ _) => apply edits_update; [apply _|]; intros
    | |- _ => progress cbv zeta
    end; try apply _.

(** A call that edits the row of the job, whatever its result. *)
Lemma edit_wp `{G : GoippLib} (E : Environment) n id Q P P' base (op : time -> SM unit) w : peers E n -> Serving op ->
  (forall now, Edits (only id Q) (op now)) -> (forall r r', P r -> r' = r \/ Q r r' -> P' r') ->
  at_job n id P base (w_store w) ->
  wp (registry_ E op) (fun _ => stays n id P' base w) (fun _ _ => False) w.
Proof.
  intros Hpeers [Ha Hs] He HP Hat. apply (at_job_peers E n Hpeers id _ base (w_tick w)) in Hat.
  unfold registry_. apply wp_bind. unfold wp at 1, registry. set (now := e_now E (w_tick w)). set (s := e_others E (w_tick w) (w_store w)) in *.
  specialize (Ha now s). specialize (Hs now s). specialize (He now s). destruct Hat as [(Hok & Hq & Hx) (r & Hr & Hid & Hn & HPr)].
  assert (stays n id P' base w {| w_store := snd (op now s); w_tick := S (w_tick w); w_sent := w_sent w; w_error := w_error w |}) as H.
  { destruct (served_ok _ _ Hs Hok) as [Hok' Hq']. split; [|done]. cbn [w_store].
    assert (forall x, x ∈ rows s -> proxy_job_id x <> id -> x ∈ rows (snd (op now s))) as Hkeep.
    { intros x Hin Hne. apply list_elem_of_lookup in Hin as [i Hi]. destruct (Forall2_lookup_l _ _ _ _ _ He Hi) as (y & Hy & Hxy).
      apply list_elem_of_lookup. exists i. destruct Hxy as [->|(? & _)]; [done|by destruct Hne]. }
    split; [split_and!; [done|lia|]|].
    - intros x Hxn Hne. rewrite <- (Hx x Hxn Hne). split; [|auto]. intros Hin. apply list_elem_of_lookup in Hin as [i Hi].
      destruct (Forall2_lookup_r _ _ _ _ _ He Hi) as (y & Hy & [->|(? & ? & _)]); [|done].
      apply list_elem_of_lookup. by exists i.
    - apply list_elem_of_lookup in Hr as [i Hi]. destruct (Forall2_lookup_l _ _ _ _ _ He Hi) as (r' & Hr' & Hrr).
      exists r'. split; [apply list_elem_of_lookup; by exists i|].
      destruct Hrr as [->|(H1 & H2 & H3 & H4)]; split_and!; try congruence; eauto. }
  unfold wp in Ha. destruct (op now s) as [[] s']; try done; by apply wp_ret.
Qed.

(** ** The state of the printer's job *)

(** [Itoa] begins with a digit or a sign, the terminal states with a letter. *)
Definition letter_first (s : string) : bool :=
  match s with String c _ => negb (is_digit c) && negb (Ascii.eqb c "-") | EmptyString => false end.

Lemma trimmed_head c s : is_space c = false -> lower_char c = c -> exists s', ToLower (TrimSpace (String c s)) = String c s'.
Proof.
  intros Hc Hl. unfold TrimSpace. cbn. rewrite Hc. cbn. destruct (trim_right_by is_space s); [rewrite Hc|];
    unfold ToLower; cbn; rewrite Hl; by eexists.
Qed.

Lemma Itoa_head z : exists c s, Itoa z = String c s /\ is_space c = false /\ lower_char c = c /\ letter_first (String c s) = false.
Proof.
  unfold Itoa. destruct (Z.to_int z) as [d|d]; [destruct d|]; cbn; eauto 10.
Qed.

Lemma label_active st : ~ 7 <= st <= 9 -> IsTerminalState (state_label st) = false.
Proof.
  intros Hst. unfold state_label. destruct (List.find _ _) as [[z l]|] eqn:E.
  - apply find_some in E as [Hin E]. cbn in E. apply Z.eqb_eq in E as ->.
    repeat (destruct Hin as [[= <- <-]|Hin]; [reflexivity || lia|]). destruct Hin.
  - destruct (Itoa_head st) as (c & s & -> & H1 & H2 & H3). unfold IsTerminalState.
    destruct (trimmed_head c s H1 H2) as [s' ->]. apply not_true_iff_false. intros H. apply in_strings_true in H.
    unfold terminalStates in H. rewrite !elem_of_cons in H. cbn in H3.
    destruct_or? H; try (injection H as -> _; discriminate H3). by apply not_elem_of_nil in H.
Qed.

Definition kept_job (r r' : row) : Prop :=
  upstream_job_id r' = upstream_job_id r /\ upstream_job_uri r' = upstream_job_uri r /\ r_payload r' = r_payload r.
Definition kept_state (r r' : row) : Prop := kept_job r r' /\ state r' = state r.
Definition kept_life (r r' : row) : Prop := kept_job r r' /\ r_life r' = r_life r.

#[export] Instance kept_job_trans : Transitive kept_job.
Proof. intros x y z (?&?&?) (?&?&?). split_and!; congruence. Qed.
#[export] Instance kept_state_trans : Transitive kept_state.
Proof. intros x y z [H1 ?] [H2 ?]. split; [exact (transitivity H1 H2)|congruence]. Qed.
#[export] Instance kept_life_trans : Transitive kept_life.
Proof. intros x y z [H1 ?] [H2 ?]. split; [exact (transitivity H1 H2)|congruence]. Qed.

Lemma observed_edits now q id label : IsTerminalState label = false ->
  Edits (only id kept_state) (UpdateObserved now [AString q; AInt KInt id; AString label; AString ""]).
Proof.
  intros Hl s. unfold UpdateObserved. rewrite (run_bind _ _ _ (q, id, label, ""%string, 0) s) by done.
  cbv beta iota. rewrite Hl.
  match goal with |- Forall2 _ _ (rows (snd (?m s))) => cut (Edits (only id kept_state) m); [intros H; exact (H s)|] end.
  edit_rows. right. apply andb_true_iff in H as [H _]. apply in_scope_id in H. by split_and!.
Qed.

Lemma attempt_edits now id t : Edits (only id kept_life) (MarkReconcileAttempt now [AInt KInt id; ATime t]).
Proof.
  intros s. unfold MarkReconcileAttempt. rewrite (run_bind _ _ _ (id, t) s) by done. cbv beta iota zeta.
  match goal with |- Forall2 _ _ (rows (snd (?m s))) => cut (Edits (only id kept_life) m); [intros H; exact (H s)|] end.
  edit_rows. right. rewrite !andb_true_iff in H. destruct H as [[H _] _]. apply Z.eqb_eq in H. by split_and!.
Qed.

Definition ended (attrs : Attributes) `{GoippLib} : bool :=
  match FirstInt attrs "job-state" with Some st => (7 <=? st) && (st <=? 9) | None => false end.

Lemma sync_wp `{G : GoippLib} (E : Environment) n id P base job attrs w : peers E n -> ProxyJobID job = id ->
  at_job n id P base (w_store w) ->
  wp (syncObservedJob E (Queue n) job attrs)
    (fun _ => stays n id (fun x => exists r, P r /\ kept_job r x /\
                 state x = if ended attrs then StateTerminal else state r) base w) (fun _ _ => False) w.
Proof.
  intros Hpeers Hid Hat. unfold syncObservedJob, ended. destruct (FirstInt attrs "job-state") as [st|].
  2:{ apply wp_ret. split; [|done]. destruct Hat as (Ha & r & H1 & H2 & H3 & H4). split; [done|]. exists r. split_and!; eauto. by exists r. }
  rewrite Hid. destruct ((7 <=? st) && (st <=? 9)) eqn:Hst.
  - apply andb_true_iff in Hst as [H1 H2]. apply Z.leb_le in H1, H2. unfold registry_. apply wp_bind.
    assert (state_label st <> ""%string /\ state_label st <> StateTerminal) as [Hl1 Hl2].
    { assert (st = 7 \/ st = 8 \/ st = 9) as [->|[->| ->]] by lia; done. }
    eapply (registry_row E n Hpeers id _ tt P (fun x => exists r, P r /\ kept_job r x /\ state x = StateTerminal)
      (fun now => terminal_row now (state_label st) "") base); [done|..].
    + intros now s x Hok' Hx Hi Hn _. pose proof (in_scope_names n id x Hi Hn) as Hsc. by apply MarkEnded_run.
    + intros now x Hx _. split; [done|]. split; [done|]. by exists x.
    + intros w' H3 H4. apply wp_ret. by split.
  - eapply (edit_wp E n id kept_state P (fun x => exists r, P r /\ kept_job r x /\ state x = state r)); [done|apply _| | |done].
    + intros now. apply observed_edits, label_active. apply andb_false_iff in Hst.
      destruct Hst as [H|H]; apply Z.leb_gt in H; lia.
    + intros r r' HP [->|[Hk Hs]]; exists r; by split_and!.
Qed.

(** ** Which job of the printer it is *)

(** What the registry knows of the job, and something at least, is what the
    printer says of its own. *)
Definition agrees_with `{G : GoippLib} (job : Store.Job) (attrs : Attributes) : Prop :=
  let says name value := value <> ""%string -> FirstString attrs name = Some value in
  says "job-uri"%string (UpstreamJobURI job) /\ says "job-name"%string (JobName (names job)) /\
  says "job-originating-user-name"%string (RequestingUser (names job)) /\
  (HasUpstreamJobID job && (0 <? UpstreamJobID job) = true \/ UpstreamJobURI job <> ""%string \/
   JobName (names job) <> ""%string \/ RequestingUser (names job) <> ""%string).

Lemma agrees_true `{G : GoippLib} field name attrs m :
  agrees field name attrs m = Some true <->
  (field = ""%string /\ m = Some true) \/ (field <> ""%string /\ is_Some m /\ FirstString attrs name = Some field).
Proof.
  unfold agrees. destruct m as [m|]; [|split; [done|intros [[_ ?]|(_ & [? ?] & _)]; done]].
  destruct (String.eqb_spec field ""); [naive_solver|].
  destruct (FirstString attrs name) as [v|]; [|naive_solver]. destruct (String.eqb_spec v field); naive_solver.
Qed.

Lemma agrees_some `{G : GoippLib} field name attrs m :
  is_Some (agrees field name attrs m) <-> is_Some m /\ (field <> ""%string -> FirstString attrs name = Some field).
Proof.
  unfold agrees. destruct m as [m|]; [|split; [by intros [? ?]|by intros [[? ?] _]]].
  destruct (String.eqb_spec field ""); [by split|].
  destruct (FirstString attrs name) as [v|]; [|split; [by intros [? ?]|naive_solver]].
  destruct (String.eqb_spec v field); split; naive_solver.
Qed.

Lemma sameReconciledJob_spec `{G : GoippLib} job attrs : sameReconciledJob job attrs = true <-> agrees_with job attrs.
Proof.
  unfold sameReconciledJob, agrees_with. set (m := Some (_ && _)).
  assert (forall o, default false o = true <-> o = Some true) as -> by (intros [[]|]; naive_solver).
  rewrite !agrees_true, agrees_some. assert (is_Some m) as Hm by done.
  assert (m = Some true <-> HasUpstreamJobID job && (0 <? UpstreamJobID job) = true) as Hm' by (unfold m; split; [by intros [= ->]|by intros ->]).
  rewrite !agrees_some, Hm'. destruct (decide (UpstreamJobURI job = ""%string)), (decide (JobName (names job) = ""%string)),
    (decide (RequestingUser (names job) = ""%string)); tauto.
Qed.

Definition only_match `{G : GoippLib} (job : Store.Job) (attrs : Attributes) (ups : list Attributes) : Prop :=
  exists l1 l2, ups = l1 ++ attrs :: l2 /\ agrees_with job attrs /\ forall a, a ∈ l1 ++ l2 -> ~ agrees_with job a.

Lemma filter_single {A} (p : A -> bool) x l : List.filter p l = [x] <->
  exists l1 l2, l = l1 ++ x :: l2 /\ p x = true /\ forall a, a ∈ l1 ++ l2 -> p a = false.
Proof.
  split.
  - induction l as [|y l IH]; cbn; [done|]. destruct (p y) eqn:Hy.
    + intros [= -> Hl]. exists [], l. split_and!; [done|done|]. intros a Ha. cbn in Ha. apply not_true_iff_false. intros Hp.
      assert (a ∈ List.filter p l) as H by (by apply elem_of_filter_bool). rewrite Hl in H. by apply not_elem_of_nil in H.
    + intros H. destruct (IH H) as (l1 & l2 & -> & Hx & Ha). exists (y :: l1), l2. split_and!; [done|done|].
      intros a [->|Hin]%elem_of_cons; auto.
  - intros (l1 & l2 & -> & Hx & Ha). rewrite List.filter_app. cbn. rewrite Hx.
    rewrite (filter_none p l1), (filter_none p l2); [done|intros a Hin; apply Ha; set_solver..].
Qed.

Lemma only_match_filter `{G : GoippLib} job attrs ups :
  List.filter (sameReconciledJob job) ups = [attrs] <-> only_match job attrs ups.
Proof.
  rewrite filter_single. unfold only_match. setoid_rewrite <- sameReconciledJob_spec. setoid_rewrite not_true_iff_false. done.
Qed.

(** ** The reconciliation of an uncertain job *)

Definition job_URI `{G : GoippLib} (attrs : Attributes) : string := default ""%string (FirstString attrs "job-uri").

(** The job [r] is now the printer's job [attrs]. *)
Definition mapped_to `{G : GoippLib} (attrs : Attributes) (r r' : row) : Prop := exists up,
  FirstInt attrs "job-id" = Some up /\ 1 <= up /\ upstream_job_id r' = Some up /\
  upstream_job_uri r' = nullableStringValue (job_URI attrs) /\ r_payload r' = r_payload r /\
  state r' = if ended attrs then StateTerminal else StateMapped.

(** It is still uncertain, and [attrs] is not its identity: it has no id, or
    another job has it. *)
Definition not_mapped `{G : GoippLib} (attrs : Attributes) (r' : row) (s : Store) : Prop :=
  forall up, FirstInt attrs "job-id" = Some up -> 1 <= up -> mapping_conflict up (job_URI attrs) r' s.

Definition reconciled `{G : GoippLib} (ups : list Attributes) (r r' : row) (s : Store) : Prop :=
  (exists attrs, only_match (scanJob r) attrs ups /\ mapped_to attrs r r') \/
  (kept_life r r' /\ forall attrs, only_match (scanJob r) attrs ups -> not_mapped attrs r' s).

Section reconcile.
Context `{G : GoippLib} (E : Environment) (ups : list Attributes) (r : row).
Context (Hpeers : peers E (r_names r)) (Hstate : state r = StateUncertain) (Hno : upstream_job_id r = None).
Let n := r_names r.
Let id := proxy_job_id r.

Definition reconciled_in (base : Store) (w w' : World) : Prop :=
  w_sent w' = w_sent w /\ at_job n id (fun r' => reconciled ups r r' (w_store w')) base (w_store w').

Lemma stays_reconciled base w w' : (forall attrs, only_match (scanJob r) attrs ups ->
    forall up, FirstInt attrs "job-id" = Some up -> 1 <= up -> False) ->
  stays n id (kept_life r) base w w' -> reconciled_in base w w'.
Proof.
  intros H [(Ha & x & H1 & H2 & H3 & H4) Hs]. split; [done|]. split; [done|]. exists x. split_and!; try done. right.
  split; [done|]. intros attrs Hm up H5 H6. by destruct (H attrs Hm up H5 H6).
Qed.

Lemma map_reconciled_wp attrs up base w : only_match (scanJob r) attrs ups -> FirstInt attrs "job-id" = Some up -> 1 <= up ->
  at_job n id (kept_life r) base (w_store w) ->
  wp (mapped ← registry E (fun now => MarkMapped now [AString (Queue n); AInt KInt id; AInt KInt up; AString (job_URI attrs)]);
      match mapped with Ok _ => syncObservedJob E (Queue n) (scanJob r) attrs | Err _ => mret tt end)
    (fun _ => reconciled_in base w) (fun _ _ => False) w.
Proof.
  intros Hm Hup H1 Hat. eapply (map_wp E n Hpeers id (kept_life r)); [exact Hat|..].
  - intros x [_ Hl]. change (IsTerminalState (State (r_life x)) = false). rewrite Hl. by change (IsTerminalState (state r) = false); rewrite Hstate.
  - intros w1 [Hat1 Hs1]. eapply wp_mono; [by eapply sync_wp| |done]. intros _ w2 [(Ha & x & Hx & Hi & Hn & y & (now & z & [Hk _] & ->) & Hxy & Hst) Hs2].
    split; [congruence|]. split; [done|]. exists x. split_and!; try done. left. exists attrs. split; [done|]. exists up.
    destruct Hxy as (H2 & H3 & H4), Hk as (_ & _ & H5). split_and!; try done; try congruence.
    + rewrite H2. cbn. unfold nullableIntValue. by destruct (Z.eqb_spec up 0); [lia|].
    + rewrite H4. by rewrite <- H5.
  - intros x w1 Hal Hx Hi Hn Hk Hc Hs1. apply wp_ret. split; [done|]. split; [done|]. exists x. split_and!; try done.
    right. split; [done|]. intros attrs' Hm'. apply only_match_filter in Hm, Hm'. rewrite Hm in Hm'. injection Hm' as <-.
    intros up' Hup' _. rewrite Hup in Hup'. by injection Hup' as <-.
Qed.

Lemma reconcile_wp base w : at_job n id (eq r) base (w_store w) ->
  wp (reconcileJob E (Queue n) ups (scanJob r)) (fun _ => reconciled_in base w) (fun _ _ => False) w.
Proof.
  intros Hat. unfold reconcileJob. change (State (life (scanJob r))) with (state r). rewrite Hstate.
  change (StateUncertain =? StateUncertain)%string with true. cbn [when]. apply wp_bind, wp_bind.
  change (wp (ask (e_now E)) ?Q ?R w) with (Q (e_now E (w_tick w)) (ticked w)). cbv beta.
  eapply wp_mono; [eapply (edit_wp E n id kept_life (eq r) (kept_life r)); [exact Hpeers|apply _| | |exact Hat]| |done].
  - intros now. apply attempt_edits.
  - intros x x' <- [->|H]; [by split_and!|done].
  - intros _ w1 [Hat1 Hs1]. assert (HasUpstreamJobID (scanJob r) = false) as ->.
    { change (match upstream_job_id r with Some _ => true | None => false end = false). by rewrite Hno. }
    change (w_sent (ticked w)) with (w_sent w) in Hs1.
    assert (stays n id (kept_life r) base w w1) as Hst by done.
    destruct (List.filter _ _) as [|attrs [|? ?]] eqn:Ef.
    + apply wp_ret, stays_reconciled; [|done]. intros a Hm%only_match_filter. by rewrite Ef in Hm.
    + destruct (FirstInt attrs "job-id") as [up|] eqn:Hup.
      * destruct (up <? 1) eqn:H1.
        -- apply wp_ret, stays_reconciled; [|done]. intros a Hm%only_match_filter u Hu Hle. rewrite Ef in Hm. injection Hm as <-.
           rewrite Hup in Hu. injection Hu as <-. apply Z.ltb_lt in H1. lia.
        -- apply Z.ltb_ge in H1. cbv zeta. eapply wp_mono; [apply (map_reconciled_wp attrs up base w1); try done; by apply only_match_filter| |done].
           intros _ w2 [H2 H3]. split; [congruence|done].
      * apply wp_ret, stays_reconciled; [|done]. intros a Hm%only_match_filter u Hu. rewrite Ef in Hm. injection Hm as <-. congruence.
    + apply wp_ret, stays_reconciled; [|done]. intros a Hm%only_match_filter. by rewrite Ef in Hm.
Qed.
End reconcile.

(** C16: the reconciliation of an uncertain job without an identity at the
    printer, whatever the printer lists and while other requests work on other
    jobs. It always ends without a message. The job is mapped exactly when one
    job of the printer, and only one, agrees with it in everything the
    registry knows of it, and its id is positive and no other job of the queue
    has it; then it has that identity, and has ended if the printer says so.
    Otherwise it stays as it was. Its documents never change. *)
Theorem uncertain_job_reconciled `{G : GoippLib} E ups r w :
  peers E (r_names r) -> store_ok (w_store w) -> r ∈ rows (w_store w) ->
  state r = StateUncertain -> upstream_job_id r = None ->
  exists w', reconcileJob E (Store.queue r) ups (scanJob r) w = (Done tt, w') /\ w_sent w' = w_sent w /\
    at_job (r_names r) (proxy_job_id r) (fun r' => reconciled ups r r' (w_store w')) (w_store w) (w_store w').
Proof.
  intros Hp Hok Hr Hs Hno. destruct (wp_Done _ _ _ (reconcile_wp E ups r Hp Hs Hno (w_store w) w
    ltac:(split; [by split_and!|by exists r]))) as ([] & w' & Hrun & H1 & H2). by exists w'.
Qed.

#[local] Existing Instance goipp_example.

Definition ex_jobs : list Attributes :=
  [[("job-id", [(TagInteger, VInteger 6)]); ("job-name", [(TagName, VString "report")])];
   [("job-id", [(TagInteger, VInteger 5)]); ("job-name", [(TagName, VString "letter")])]]%string.

(** The lost job is job 5 of the printer. *)
Lemma uncertain_job_reconciled_witness :
  let r := row_at 0 lost_store in
  let w := {| w_store := lost_store; w_tick := 0; w_sent := []; w_error := None |} in
  exists w', reconcileJob ex_environment "office" ex_jobs (scanJob r) w = (Done tt, w') /\
    at_job (r_names r) (proxy_job_id r) (fun r' => reconciled ex_jobs r r' (w_store w')) (w_store w) (w_store w').
Proof.
  intros r w. assert (r ∈ rows lost_store) as Hr by (apply row_at_in; vm_compute; reflexivity).
  assert (state r = StateUncertain /\ upstream_job_id r = None /\ Store.queue r = "office"%string) as (H1 & H2 & H3)
    by (vm_compute; split_and!; reflexivity).
  destruct (uncertain_job_reconciled ex_environment ex_jobs r w (ex_peers _) lost_store_ok Hr H1 H2) as (w' & Hrun & _ & H).
  rewrite H3 in Hrun. by exists w'.
Defined.
