(* ===== verification/ListTheorems.v ===== *)
(** * Get-Jobs and Cancel-My-Jobs

    Which jobs of the printer a client sees, and which of its own jobs are
    canceled, by the registry at the moment of each lookup and whatever other
    requests do in between. *)

From Stdlib Require Import ZArith Lia Ascii String Strings.Byte Sorted.
From stdpp Require Import base tactics list strings gmap relations.
From S2P Require Import Prelude GoString GoError Urf UrfSpec UrfProofs GoTime Store StoreProofs StoreTheorems StoreQueries.
From S2P Require Import Goipp IppAttrs GoUrl Protocol MediaCatalog Normalizer Formats Messages Routing Payload.
From S2P Require Import Handlers Reconcile HandlersProofs HandlersExample JobProofs.

Section lists.
Context `{G : GoippLib} (E : Environment) (cfg : Config) (queue : string) (printer : PrinterConfig) (req : Message).
Context (Hothers : forall t s, served s (e_others E t s)).

(** Steps that send nothing, from the registry [base]. *)
Definition follows (base : Store) (w w' : World) : Prop := served base (w_store w') /\ w_sent w' = w_sent w.

Lemma registry_serving_wp (op : time -> SM unit) base w : Serving op -> served base (w_store w) ->
  wp (registry_ E op) (fun _ => follows base w) (fun _ _ => False) w.
Proof.
  intros [Ha Hs] Hb. unfold registry_. apply wp_bind. unfold wp at 1, registry.
  specialize (Ha (e_now E (w_tick w)) (e_others E (w_tick w) (w_store w))).
  specialize (Hs (e_now E (w_tick w)) (e_others E (w_tick w) (w_store w))). pose proof (Hothers (w_tick w) (w_store w)) as Ho.
  unfold wp in Ha. destruct (op _ _) as [[] s]; try done; apply wp_ret; (split; [|done]);
    exact (transitivity Hb (transitivity Ho Hs)).
Qed.

(** A read of the registry: its answer at some later moment. *)
Lemma registry_read_wp {A} (op : SM A) base w Q R : ReadOnly op -> Answers op -> served base (w_store w) ->
  (forall a s w', served base s -> op s = (a, s) -> w_store w' = s -> follows base w w' ->
     match a with Done x => Q (Ok x) w' | Fail_ e => Q (Err e) w' | _ => True end) ->
  wp (registry E (fun _ => op)) Q R w.
Proof.
  intros Hro Ha Hb HQ. unfold wp, registry. set (s := e_others E (w_tick w) (w_store w)).
  assert (served base s) as Hs by exact (transitivity Hb (Hothers (w_tick w) (w_store w))).
  specialize (Hro s). specialize (Ha s). unfold wp in Ha. destruct (op s) as [o s'] eqn:Eo. cbn in Hro. subst s'.
  specialize (HQ o s {| w_store := s; w_tick := S (w_tick w); w_sent := w_sent w; w_error := w_error w |} Hs Eo eq_refl ltac:(done)).
  by destruct o.
Qed.

(** ** Get-Jobs

    The registry a call finds that is made in [w], and the world after a call
    that only reads it. *)
Definition seen (w : World) : Store := e_others E (w_tick w) (w_store w).
Definition leaves (s : Store) (w : World) : World :=
  {| w_store := s; w_tick := S (w_tick w); w_sent := w_sent w; w_error := w_error w |}.

(** The job of this queue that has an id at the printer. *)
Definition known_job (s : Store) (id : Z) : option row :=
  List.find (fun r => bool_decide (upstream_job_id r = Some id) && (Store.queue r =? queue)%string) (rows s).

(** What a job of the answer tells of a job's state is recorded, at the moment
    after its lookup. *)
Definition noted (r : row) (attrs : Attributes) (w : World) : World :=
  match FirstInt attrs "job-state" with
  | None => w
  | Some st =>
      let args := [AString queue; AInt KInt (proxy_job_id r); AString (state_label st); AString ""] in
      leaves (perform (e_now E (w_tick w))
                (if (7 <=? st) && (st <=? 9) then CallMarkTerminal args else CallUpdateObserved args) (seen w)) w
  end.

(** What becomes of one job of the answer when [kept] jobs are shown so far, by
    the registry of the moment: what is shown of it, and the world afterwards. *)
Inductive job_view (jq : jobs_query) (kept : Z) (attrs : Attributes) (w : World) : option Attributes -> World -> Prop :=
| view_full : 0 < q_limit jq <= kept -> job_view jq kept attrs w None w
| view_no_id : ~ 0 < q_limit jq <= kept -> FirstInt attrs "job-id" = None -> job_view jq kept attrs w None w
| view_unknown id : ~ 0 < q_limit jq <= kept -> FirstInt attrs "job-id" = Some id ->
    known_job (seen w) id = None -> job_view jq kept attrs w None (leaves (seen w) w)
| view_other id r : ~ 0 < q_limit jq <= kept -> FirstInt attrs "job-id" = Some id -> known_job (seen w) id = Some r ->
    q_mine jq = true -> RequestingUser (r_names r) <> q_user jq -> job_view jq kept attrs w None (leaves (seen w) w)
| view_shown id r : ~ 0 < q_limit jq <= kept -> FirstInt attrs "job-id" = Some id -> known_job (seen w) id = Some r ->
    (q_mine jq = true -> RequestingUser (r_names r) = q_user jq) ->
    job_view jq kept attrs w
      (Some (projectJobAttributes (rewriteJobAttrs attrs (proxy_job_id r) (proxyPrinterURI cfg queue)) (q_requested jq)))
      (noted r attrs (leaves (seen w) w)).

Definition is_job (g : Group) : bool := Tag g =? TagJobGroup.
Definition job_count (gs : list Group) : Z := zlen (List.filter is_job gs).
Definition job_attrs (gs : list Group) : Attributes := flat_map Attrs (List.filter is_job gs).

(** What becomes of the groups of the answer, one after the other. *)
Inductive listing (jq : jobs_query) : Z -> World -> list Group -> list Group -> World -> Prop :=
| listing_end kept w : listing jq kept w [] [] w
| listing_other kept w g gs out w' : is_job g = false ->
    listing jq kept w gs out w' -> listing jq kept w (g :: gs) (g :: out) w'
| listing_shown kept w g gs shown w1 out w' : is_job g = true -> job_view jq kept (Attrs g) w (Some shown) w1 ->
    listing jq (kept + 1) w1 gs out w' -> listing jq kept w (g :: gs) (mkGroup (Tag g) shown :: out) w'
| listing_hidden kept w g gs w1 out w' : is_job g = true -> job_view jq kept (Attrs g) w None w1 ->
    listing jq kept w1 gs out w' -> listing jq kept w (g :: gs) out w'.

Lemma step_bind {A B} (m : HM A) (f : A -> HM B) w a w' : m w = (Done a, w') -> (m ≫= f) w = f a w'.
Proof. intros H. unfold mbind, M_bind. by rewrite H. Qed.

Lemma find_head {A} (p : A -> bool) l : head (List.filter p l) = List.find p l.
Proof. induction l as [|x l IH]; [done|]. cbn. by destruct (p x). Qed.

(** A lookup answers by the registry of its moment. *)
Lemma lookup_eq id w : queue <> ""%string -> registry E (fun _ => GetByUpstreamID [AString queue; AInt KInt id]) w =
  (Done (match known_job (seen w) id with Some r => Ok (scanJob r) | None => Err ErrNoRows end), leaves (seen w) w).
Proof.
  intros Hq%String.eqb_neq. unfold registry, GetByUpstreamID. cbn [parseScopedID asString arg asInt lift_res].
  fold (seen w). rewrite (run_bind _ _ _ (queue, id) (seen w)) by done. unfold query_row, known_job.
  rewrite <- find_head. rewrite Hq. cbn [orb].
  unfold query, gets, mbind, M_bind. by destruct (List.filter _ (rows (seen w))).
Qed.

Lemma registry_call_eq (op : time -> SM unit) c w : (forall now, Answers (op now)) ->
  (forall now s, snd (op now s) = perform now c s) ->
  registry_ E op w = (Done tt, leaves (perform (e_now E (w_tick w)) c (seen w)) w).
Proof.
  intros Ha Hc. unfold registry_, registry, mbind, M_bind. fold (seen w). rewrite <- Hc.
  specialize (Ha (e_now E (w_tick w)) (seen w)). unfold wp in Ha. by destruct (op _ _) as [[] s].
Qed.

Lemma sync_eq r attrs w : syncObservedJob E queue (scanJob r) attrs w = (Done tt, noted r attrs w).
Proof.
  unfold syncObservedJob, noted. destruct (FirstInt attrs "job-state") as [st|]; [|done]. cbv zeta.
  change (ProxyJobID (scanJob r)) with (proxy_job_id r).
  destruct (_ && _); apply registry_call_eq; (intros; apply _ || done).
Qed.

Lemma filterJob_view jq kept attrs w : queue <> ""%string -> exists shown w',
  filterJob E cfg queue jq kept attrs w = (Done (shown, match shown with Some _ => kept + 1 | None => kept end), w') /\
  job_view jq kept attrs w shown w'.
Proof.
  intros Hq. unfold filterJob. destruct (_ && _) eqn:Hl.
  { exists None, w. split; [done|]. apply view_full. lia. }
  assert (~ 0 < q_limit jq <= kept) as Hlim by lia.
  destruct (FirstInt attrs "job-id") as [id|] eqn:Hid; [|exists None, w; split; [done|by apply view_no_id]].
  rewrite (step_bind _ _ _ _ _ (lookup_eq id w Hq)). destruct (known_job (seen w) id) as [r|] eqn:Hr.
  2:{ eexists None, _. split; [done|]. by eapply view_unknown. }
  change (RequestingUser (names (scanJob r))) with (RequestingUser (r_names r)).
  destruct (q_mine jq && _) eqn:Hm.
  - apply andb_true_iff in Hm as [Hm Hu%negb_true_iff%String.eqb_neq]. eexists None, _. split; [done|]. by eapply view_other.
  - rewrite (step_bind _ _ _ _ _ (sync_eq r attrs _)). eexists (Some _), _. split; [done|]. eapply view_shown; [done..|].
    intros Hmine. rewrite Hmine in Hm. by apply negb_false_iff, String.eqb_eq in Hm.
Qed.

Lemma job_count_shown g a out : is_job g = true -> job_count (mkGroup (Tag g) a :: out) = 1 + job_count out.
Proof.
  intros Hg. unfold job_count. cbn [List.filter]. change (is_job (mkGroup (Tag g) a)) with (is_job g). rewrite Hg.
  unfold zlen. cbn [length]. lia.
Qed.
Lemma job_attrs_shown g a out : is_job g = true -> job_attrs (mkGroup (Tag g) a :: out) = a ++ job_attrs out.
Proof. intros Hg. unfold job_attrs. cbn [List.filter]. change (is_job (mkGroup (Tag g) a)) with (is_job g). by rewrite Hg. Qed.
Lemma job_list_other g out : is_job g = false -> job_count (g :: out) = job_count out /\ job_attrs (g :: out) = job_attrs out.
Proof. intros Hg. unfold job_count, job_attrs. cbn [List.filter]. by rewrite Hg. Qed.

Lemma filterGroups_listing jq gs : queue <> ""%string -> forall kept job w, exists out job' w',
  filterGroups E cfg queue jq kept job gs w = (Done (out, job'), w') /\ listing jq kept w gs out w' /\
  default [] job' = default [] job ++ job_attrs out.
Proof.
  intros Hq. induction gs as [|g rest IH]; intros kept job w; cbn [filterGroups].
  { exists [], job, w. split_and!; [done|constructor|by rewrite app_nil_r]. }
  change (Tag g =? TagJobGroup) with (is_job g). destruct (is_job g) eqn:Hg; cbn [negb].
  - destruct (filterJob_view jq kept (Attrs g) w Hq) as (shown & w1 & Hrun & Hview). rewrite (step_bind _ _ _ _ _ Hrun).
    destruct shown as [a|].
    + destruct (IH (kept + 1) (append_attrs job a) w1) as (out & job' & w' & Hr & Hl & Hj). cbv iota.
      rewrite (step_bind _ _ _ _ _ Hr). exists (mkGroup (Tag g) a :: out), job', w'. split; [done|]. split; [by eapply listing_shown|].
      rewrite Hj, job_attrs_shown, app_assoc by done. f_equal. destruct job, a; cbn; rewrite ?app_nil_r; done.
    + destruct (IH kept job w1) as (out & job' & w' & Hr & Hl & Hj). exists out, job', w'.
      split_and!; [done|by eapply listing_hidden|done].
  - destruct (IH kept job w) as (out & job' & w' & Hr & Hl & Hj). rewrite (step_bind _ _ _ _ _ Hr).
    exists (g :: out), job', w'. destruct (job_list_other g out Hg) as [_ ->]. split_and!; [done|by apply listing_other|done].
Qed.

(** What follows from a listing: the limit, and that nothing is sent. *)
Lemma job_view_limit jq kept attrs w a w' : job_view jq kept attrs w (Some a) w' -> 0 < q_limit jq -> kept + 1 <= q_limit jq.
Proof. inversion 1; lia. Qed.
Lemma listing_limit jq kept w gs out w' : listing jq kept w gs out w' -> 0 < q_limit jq -> kept <= q_limit jq ->
  kept + job_count out <= q_limit jq.
Proof.
  intros H Hl. induction H as [kept w|kept w g gs out w' Hg H IH|kept w g gs a w1 out w' Hg Hv H IH|kept w g gs w1 out w' Hg Hv H IH]; intros Hk.
  - unfold job_count, zlen. cbn. lia.
  - destruct (job_list_other g out Hg) as [-> _]. auto.
  - rewrite job_count_shown by done. pose proof (job_view_limit _ _ _ _ _ _ Hv Hl). specialize (IH ltac:(lia)). lia.
  - auto.
Qed.

Lemma served_perform now c s : issued c -> served s (perform now c s).
Proof. intros Hc. apply rtc_once. by exists now, c. Qed.
Lemma seen_follows w : follows (w_store w) w (leaves (seen w) w).
Proof. split; [|done]. apply Hothers. Qed.
Lemma noted_follows r attrs w : follows (w_store w) w (noted r attrs w).
Proof.
  unfold noted. destruct (FirstInt attrs "job-state"); [|by split; [apply rtc_refl|]]. split; [|done]. cbn.
  etrans; [apply Hothers|]. apply served_perform. destruct (_ && _); constructor.
Qed.
Lemma follows_trans w w1 w' : follows (w_store w) w w1 -> follows (w_store w1) w1 w' -> follows (w_store w) w w'.
Proof. intros [H1 E1] [H2 E2]. split; [exact (transitivity H1 H2)|by rewrite E2]. Qed.
Lemma follows_refl w : follows (w_store w) w w.
Proof. by split; [apply rtc_refl|]. Qed.
Lemma view_follows jq kept attrs w shown w' : job_view jq kept attrs w shown w' -> follows (w_store w) w w'.
Proof.
  destruct 1; try apply follows_refl; try apply seen_follows. eapply follows_trans; [apply seen_follows|apply noted_follows].
Qed.
Lemma listing_follows jq kept w gs out w' : listing jq kept w gs out w' -> follows (w_store w) w w'.
Proof.
  induction 1; [apply follows_refl|done| |]; (eapply follows_trans; [by eapply view_follows|done]).
Qed.

Definition jobs_query_of : jobs_query := {|
  q_user := default ""%string (FirstString (Operation req) "requesting-user-name");
  q_limit := default 0 (FirstInt (Operation req) "limit");
  q_requested := requestedJobAttributes (Operation req);
  q_mine := flag (Operation req) "my-jobs" |}.

(** The world after the message that asks for the jobs. *)
Definition jobs_asked (w : World) : World := {|
  w_store := w_store w; w_tick := S (w_tick w);
  w_sent := w_sent w ++ [{| s_to := UpstreamURI printer; s_message := jobs_request req printer; s_body := NoBody |}];
  w_error := w_error w |}.

Definition get_jobs_outcome (w : World) (o : outcome (goerr + Response) Response) (w' : World) : Prop :=
  let jq := jobs_query_of in
  served (w_store w) (w_store w') /\ w_sent w' = w_sent (jobs_asked w) /\
  match exchanged E (w_tick w) (UpstreamURI printer) (jobs_request req printer) NoBody with
  | Err err => o = Fail_ (inl err) /\ w' = jobs_asked w
  | Ok resp =>
      if negb (ippSuccess resp) then o = Done resp /\ w' = jobs_asked w
      else match resGroups resp with
           | Some gs => exists out job,
               o = Done (set_resGroups (Some out) (set_resJob job resp)) /\
               listing jq 0 (jobs_asked w) gs out w' /\
               (0 < q_limit jq -> job_count out <= q_limit jq) /\ default [] job = job_attrs out
           | None => exists shown, o = Done (set_resJob shown resp) /\
               job_view jq 0 (default [] (resJob resp)) (jobs_asked w) shown w'
           end
  end.

Lemma get_jobs_runs w : queue <> ""%string ->
  let '(o, w') := handleGetJobs E cfg queue printer req w in get_jobs_outcome w o w'.
Proof.
  intros Hq. unfold handleGetJobs. fold jobs_query_of. cbv zeta.
  rewrite (step_bind _ _ _ (exchanged E (w_tick w) (UpstreamURI printer) (jobs_request req printer) NoBody) (jobs_asked w)) by done.
  unfold get_jobs_outcome. cbv zeta. generalize jobs_query_of as jq. intros jq. destruct (exchanged _ _ _ _ _) as [resp|err].
  2:{ by split_and!. }
  destruct (negb (ippSuccess resp)); [by split_and!|].
  destruct (resGroups resp) as [gs|].
  - destruct (filterGroups_listing jq gs Hq 0 None (jobs_asked w)) as (out & job & w' & Hr & Hl & Hj).
    rewrite (step_bind _ _ _ _ _ Hr). cbn. destruct (listing_follows _ _ _ _ _ _ Hl) as [Hs He].
    split_and!; [exact Hs|exact He|]. exists out, job. split_and!; try done. intros H. pose proof (listing_limit _ _ _ _ _ _ Hl H ltac:(lia)). lia.
  - destruct (filterJob_view jq 0 (default [] (resJob resp)) (jobs_asked w) Hq) as (shown & w' & Hr & Hv).
    rewrite (step_bind _ _ _ _ _ Hr). cbn. destruct (view_follows _ _ _ _ _ _ Hv) as [Hs He].
    split_and!; [exact Hs|exact He|]. by exists shown.
Qed.

(** ** Cancel-My-Jobs *)

Definition cancelable (job : Store.Job) : bool := HasUpstreamJobID job && (1 <=? UpstreamJobID job).

(** The message for a job, under the request id of the proxy, and the tick at
    which the printer answered it. *)
Record cancellation := { c_job : Store.Job; c_id : Z; c_tick : nat }.
Definition cancel_message (user : string) (c : cancellation) : Message := cancel_request req printer user (UpstreamJobID (c_job c)) (c_id c).
Definition canceled (user : string) (c : cancellation) : bool :=
  match exchanged E (c_tick c) (UpstreamURI printer) (cancel_message user c) NoBody with
  | Ok resp => ippSuccess resp
  | Err _ => false
  end.
Definition cancel_sent (user : string) (c : cancellation) : sent :=
  {| s_to := UpstreamURI printer; s_message := cancel_message user c; s_body := NoBody |}.
Definition failures (user : string) (l : list cancellation) : Z := zlen (List.filter (fun c => negb (canceled user c)) l).

Lemma cancelJobs_wp user base jobs : forall failed w, served base (w_store w) ->
  wp (cancelJobs E queue printer req user failed jobs)
    (fun failed' w' => exists l, map c_job l = List.filter cancelable jobs /\ served base (w_store w') /\
       w_sent w' = w_sent w ++ map (cancel_sent user) l /\ failed' = failed + failures user l) (fun _ _ => False) w.
Proof.
  induction jobs as [|job rest IH]; intros failed w Hb; cbn [cancelJobs List.filter].
  { apply wp_ret. exists []. split_and!; [done|done|by rewrite app_nil_r|unfold failures, zlen; cbn; lia]. }
  assert (negb (HasUpstreamJobID job) || (UpstreamJobID job <? 1) = negb (cancelable job)) as ->.
  { unfold cancelable. rewrite negb_andb. f_equal. by rewrite Z.leb_antisym, negb_involutive. }
  destruct (cancelable job); cbn [negb]; [|by apply IH].
  apply wp_bind. change (wp (ask (e_nextID E)) ?Q ?R w) with (Q (e_nextID E (w_tick w)) (ticked w)). cbv beta.
  apply wp_bind, Do_wp. intros w1 Hst Hse. change (w_sent (ticked w)) with (w_sent w) in Hse.
  change (w_tick (ticked w)) with (S (w_tick w)).
  set (c := {| c_job := job; c_id := e_nextID E (w_tick w); c_tick := S (w_tick w) |}).
  fold (cancel_message user c) in *. fold (cancel_sent user c) in Hse.
  assert (served base (w_store w1)) as Hb1 by (by rewrite Hst).
  assert (forall k b (m : HM Z), (forall w2, follows base w1 w2 -> wp m
       (fun failed' w' => exists l, map c_job l = List.filter cancelable rest /\ served base (w_store w') /\
         w_sent w' = w_sent w2 ++ map (cancel_sent user) l /\ failed' = k + failures user l) (fun _ _ => False) w2) ->
     canceled user c = b -> k = failed + (if b then 0 else 1) -> forall w2, follows base w1 w2 -> wp m
       (fun failed' w' => exists l, map c_job l = job :: List.filter cancelable rest /\ served base (w_store w') /\
         w_sent w' = w_sent w ++ map (cancel_sent user) l /\ failed' = failed + failures user l) (fun _ _ => False) w2) as Hnext.
  { intros k b m Hm Hc Hk w2 Hw2. eapply wp_mono; [by apply Hm| |done]. intros f w3 (l & Hl & H3 & Hs3 & Hf).
    exists (c :: l). destruct Hw2 as [_ Hs2]. split_and!; [cbn; by rewrite Hl|done| |].
    - cbn [map]. by rewrite Hs3, Hs2, Hse, <- app_assoc.
    - rewrite Hf, Hk. unfold failures. cbn [List.filter]. rewrite Hc. destruct b; cbn [negb]; unfold zlen; cbn [length]; lia. }
  assert (forall w2, follows base w1 w2 -> served base (w_store w2)) as Hsb by (by intros ? []).
  set (answer := exchanged _ _ _ _ _).
  assert (canceled user c = match answer with Ok resp => ippSuccess resp | Err _ => false end) as Hc by done.
  destruct answer as [resp|err].
  - destruct (ippSuccess resp); cbn [negb].
    + apply wp_bind. eapply wp_mono; [apply (registry_serving_wp _ base); [apply _|done]| |done]. intros [] w2 Hw2.
      apply (Hnext failed true); [intros; apply IH; auto|exact Hc|lia|done].
    + apply (Hnext (failed + 1) false); [intros; apply IH; auto|exact Hc|lia|done].
  - apply wp_bind. eapply wp_mono; [apply (registry_serving_wp _ base); [apply _|done]| |done]. intros [] w2 Hw2.
    apply (Hnext (failed + 1) false); [intros; apply IH; auto|exact Hc|lia|done].
Qed.

(** The jobs of the user in the queue that have not ended. *)
Definition active_of (user : string) (r : row) : bool :=
  (Store.queue r =? queue)%string && (RequestingUser (r_names r) =? user)%string && bool_decide (terminal_at (r_times r) = None).

Lemma active_matches user r : queue <> ""%string -> user <> ""%string ->
  filter_matches (mergeJobFilters zeroFilter (active_jobs_of queue user)) r = active_of user r.
Proof.
  intros H1 H2. unfold filter_matches, active_of, active_jobs_of, when_str, mergeJobFilters. cbn [fQueue fQueueOwner fRequestingUser fUser
    fRequestingUserName fState fStates fObservedState fProxyJobID fUpstreamJobID fCreatedAfter fCreatedBefore fUpdatedAfter
    fUpdatedBefore fTerminalBefore fTerminalAfter fExcludeTerminal zeroFilter]. rewrite !or_str_nil_r.
  apply String.eqb_neq in H1, H2. rewrite H1, H2. cbn [orb]. change (or_int 0 0 =? 0) with true. cbn [String.eqb orb andb].
  change (when_time (or_int 0 0)) with (fun _ : bool => true). cbv beta. cbn [andb negb orb]. by rewrite !andb_true_r.
Qed.

Lemma active_list user s : queue <> ""%string -> user <> ""%string -> exists rs,
  ListJobs [AFilter (active_jobs_of queue user)] s = (Done (map scanJob rs), s) /\
  Permutation rs (List.filter (active_of user) (rows s)).
Proof.
  intros H1 H2. exists (sort_rows (order_le (fun r => created_at (r_times r))) (List.filter (active_of user) (rows s))).
  split; [|apply sort_rows_perm]. unfold ListJobs. cbn [parseJobFilterArgs parseJobFilterLoop lift_res].
  set (f := mergeJobFilters zeroFilter _). rewrite (run_bind _ _ _ f s) by done.
  assert (fIncludeTerminal f && fExcludeTerminal f = false) as -> by done.
  rewrite (run_bind _ _ _ (List.filter (active_of user) (rows s)) s); [done|].
  unfold query, gets. do 2 f_equal. apply filter_ext. intros r. by apply active_matches.
Qed.

Definition cancel_my_jobs_outcome (w : World) (o : outcome (goerr + Response) Response) (w' : World) : Prop :=
  let user := default ""%string (FirstString (Operation req) "requesting-user-name") in
  if (user =? "")%string then
    o = Done (protocolResponse req StatusErrorBadRequest "requesting-user-name is required") /\ w' = w
  else exists s rs l,
    served (w_store w) s /\ Permutation rs (List.filter (active_of user) (rows s)) /\ served s (w_store w') /\
    map c_job l = List.filter cancelable (map scanJob rs) /\
    w_sent w' = w_sent w ++ map (cancel_sent user) l /\
    o = Done (if 0 <? failures user l
              then protocolResponse req StatusErrorNotPossible (Itoa (failures user l) +:+ " jobs could not be canceled")
              else protocolResponse req StatusOk "").

Lemma cancel_my_jobs_wp w : queue <> ""%string -> let P := cancel_my_jobs_outcome w in
  wp (handleCancelMyJobs E queue printer req) (fun a => P (Done a)) (fun e => P (Fail_ e)) w.
Proof.
  intros Hq P. unfold handleCancelMyJobs. unfold P, cancel_my_jobs_outcome. cbv zeta. set (user := default _ _).
  destruct (String.eqb_spec user "") as [|Hu]; [by apply wp_ret|].
  apply wp_bind. apply (registry_read_wp _ (w_store w)); [unfold ListJobs; apply _|apply _|apply rtc_refl|].
  intros o s w1 Hs Ho Hst Hw1. destruct (active_list user s Hq Hu) as (rs & Hl & Hp). rewrite Hl in Ho. injection Ho as <-.
  apply wp_bind. eapply wp_mono; [apply (cancelJobs_wp user s)| |done].
  - rewrite Hst. apply rtc_refl.
  - intros failed w2 (l & Hj & Hsv & Hse & ->). apply wp_ret. exists s, rs, l. destruct Hw1 as [_ Hs1].
    split_and!; try done. by rewrite Hse, Hs1.
Qed.
End lists.

(** C22: Get-Jobs, whatever the printer answers and other requests do. One
    message asks the printer for all its jobs. The groups of the answer are
    gone through in their order, each job against the registry as it is at the
    moment of its lookup: the client gets exactly the jobs that the queue has
    there under the printer's id (and that are the user's own, when only those
    are asked for) until the limit is reached, with the proxy's ids and projected
    to the attributes asked for, and the state the printer tells is recorded;
    a job that the queue does not have, or without an id, is left out. The other
    groups stay as they are, the job field is the shown groups together, and a
    list without groups is treated as one job. The queue has a name. *)
Theorem get_jobs_listed `{G : GoippLib} E cfg queue printer req w : (forall t s, served s (e_others E t s)) ->
  queue <> ""%string ->
  let '(o, w') := handleGetJobs E cfg queue printer req w in get_jobs_outcome E cfg queue printer req w o w'.
Proof. intros Ho Hq. by apply get_jobs_runs. Qed.

(** C23: Cancel-My-Jobs. Without a user name it is refused and nothing happens.
    Otherwise the printer gets one Cancel-Job, under its own id of the job, for
    each job of the user in the queue that has not ended and that it knows,
    by the registry at one moment, and nothing else: no job of another user or
    queue. The answer is successful exactly when every cancellation was, and
    counts those that were not. *)
Theorem cancel_my_jobs_exact `{G : GoippLib} E queue printer req w : (forall t s, served s (e_others E t s)) ->
  queue <> ""%string ->
  let '(o, w') := handleCancelMyJobs E queue printer req w in cancel_my_jobs_outcome E queue printer req w o w'.
Proof.
  intros Ho Hq. pose proof (wp_outcome _ _ _ (cancel_my_jobs_wp E queue printer req Ho w Hq)) as H.
  by destruct (handleCancelMyJobs _ _ _ _ _).
Qed.

#[local] Existing Instance goipp_example.

(** The example printer lists job 77 in answer to everything, which no job of
    the registry is, and is then told to list the job of alice. *)
Definition ex_listing : Environment := {|
  e_now := e_now ex_environment; e_others := e_others ex_environment; e_client := e_client ex_environment;
  e_caps := e_caps ex_environment; e_startedAt := e_startedAt ex_environment;
  e_configChangedAt := e_configChangedAt ex_environment; e_dnsName := e_dnsName ex_environment;
  e_nextID := e_nextID ex_environment;
  e_answer _ _ msg _ :=
    let job id := [("job-id", [(TagInteger, VInteger id)]); ("job-state", [(TagEnum, VInteger 5)])]%string in
    Ok (set_resGroups (Some [mkGroup TagOperationGroup leading_attrs; mkGroup TagJobGroup (job 77); mkGroup TagJobGroup (job 41)])
          (set_resJob (Some (job 77 ++ job 41)) (ex_answer msg))) |}.

Example jobs_shown :
  match fst (handleGetJobs ex_listing ex_config "office" ex_office (ex_request OpGetJobs [] []) ex_world) with
  | Done resp => map (fun g => (Tag g, FirstInt (Attrs g) "job-id")) (default [] (resGroups resp))
  | _ => []
  end = [(TagOperationGroup, None); (TagJobGroup, Some 1)].
Proof. vm_compute. reflexivity. Qed.

Lemma get_jobs_listed_witness : let req := ex_request OpGetJobs [] [] in
  get_jobs_outcome ex_listing ex_config "office" ex_office req ex_world
    (fst (handleGetJobs ex_listing ex_config "office" ex_office req ex_world))
    (snd (handleGetJobs ex_listing ex_config "office" ex_office req ex_world)).
Proof.
  intros req. pose proof (get_jobs_listed ex_listing ex_config "office" ex_office req ex_world ex_quiet) as H.
  destruct (handleGetJobs _ _ _ _ _ _). apply H. discriminate.
Defined.

(** Alice cancels her job 1. *)
Lemma cancel_my_jobs_exact_witness :
  let req := set_Operation [("requesting-user-name", [(TagName, VString "alice")])]%string (ex_request OpCancelMyJobs [] []) in
  cancel_my_jobs_outcome ex_environment "office" ex_office req ex_world
    (fst (handleCancelMyJobs ex_environment "office" ex_office req ex_world))
    (snd (handleCancelMyJobs ex_environment "office" ex_office req ex_world)).
Proof.
  intros req. pose proof (cancel_my_jobs_exact ex_environment "office" ex_office req ex_world ex_quiet) as H.
  destruct (handleCancelMyJobs _ _ _ _ _). apply H. discriminate.
Defined.
