(* ===== verification/ConfigurationProofs.v ===== *)
(** * What the checks of a configuration accept

    Each validator of [Configuration.v] as the set of values it accepts, in
    words that do not mention its order of tests or its errors. *)

From Stdlib Require Import ZArith Lia Ascii String SpecFloat.
From stdpp Require Import base tactics list strings gmap.
From S2P Require Import Prelude GoString GoError GoUrl MediaCatalog Protocol UriTheorems GoTime GoParse Configuration.

(** A sequence of checks is a conjunction. *)
Lemma sall_forall p s : sall p s = true <-> Forall (fun c => p c = true) (String.list_ascii_of_string s).
Proof.
  induction s as [|c s IH]; [by split; [constructor|]|]. cbn [sall String.list_ascii_of_string].
  rewrite andb_true_iff, Forall_cons, IH. done.
Qed.
Lemma first_not_sall p s : first_not p s = None <-> sall p s = true.
Proof. induction s as [|c s IH]; [done|]. cbn [first_not sall]. destruct (p c); [exact IH|done]. Qed.

(** ** Keywords *)

(** A keyword of IPP: 1 to 255 letters, digits, dashes, underscores and dots. *)
Definition is_keyword (s : string) : Prop := s <> ""%string /\ (slen s <= 255)%nat /\ sall keyword_char s = true.

#[export] Instance is_keyword_dec s : Decision (is_keyword s).
Proof. unfold is_keyword. apply _. Defined.

Lemma validateKeyword_ok s : validateKeyword s = Ok tt <-> is_keyword s.
Proof.
  unfold validateKeyword, is_keyword. destruct (String.eqb_spec s ""); [naive_solver|].
  destruct (Nat.ltb_spec 255 (slen s)); [split; [done|intros (_ & ? & _); lia]|].
  rewrite <- first_not_sall. destruct (first_not keyword_char s); naive_solver.
Qed.
#[export] Hint Rewrite validateKeyword_ok : gosimp.

(** The name of a queue: a keyword that starts with a letter. *)
Definition is_queue_name (s : string) : Prop :=
  is_keyword s /\ exists c r, s = String c r /\ isASCIIAlpha c = true.

Lemma validateQueueName_ok s : validateQueueName s = Ok tt <-> is_queue_name s.
Proof.
  unfold validateQueueName, is_queue_name. rewrite checks_ok, wrapped_ok, validateKeyword_ok.
  destruct s as [|c r]; [unfold is_keyword; naive_solver|]. rewrite ensure_ok. naive_solver.
Qed.

(** The trimmed names of a list, up to case. *)
Definition keys (l : list string) : list string := (ToLower ∘ TrimSpace) <$> l.
(** Keywords, no two of them equal up to case. *)
Definition distinct_keywords (l : list string) : Prop := Forall (is_keyword ∘ TrimSpace) l /\ NoDup (keys l).

Lemma distinct_step seen x l :
  (is_keyword (TrimSpace x) /\ ToLower (TrimSpace x) ∉ seen /\
   distinct_keywords l /\ Forall (.∉ ({[ToLower (TrimSpace x)]} ∪ seen : gset string)) (keys l)) <->
  distinct_keywords (x :: l) /\ Forall (.∉ seen) (keys (x :: l)).
Proof.
  unfold distinct_keywords, keys. cbn. rewrite !Forall_cons, NoDup_cons, !Forall_forall. cbn. set_solver.
Qed.

Lemma keyword_list_ok field seen i l :
  keyword_list field seen i l = Ok tt <-> distinct_keywords l /\ Forall (.∉ seen) (keys l).
Proof.
  revert seen i. induction l as [|x l IH]; intros seen i; cbn [keyword_list].
  { unfold distinct_keywords, keys. cbn. split; [|done]. repeat constructor. }
  rewrite checks_ok, wrapped_ok, validateKeyword_ok, <- distinct_step.
  destruct (bool_decide_reflect (ToLower (TrimSpace x) ∈ seen)); [naive_solver|]. rewrite IH. naive_solver.
Qed.

Lemma validateKeywordList_ok field l : validateKeywordList field l = Ok tt <-> distinct_keywords l.
Proof.
  unfold validateKeywordList. rewrite keyword_list_ok. split; [tauto|]. intros H. split; [done|].
  apply Forall_forall. set_solver.
Qed.

Lemma validatePassthrough_ok p :
  validatePassthrough p = Ok tt <-> distinct_keywords (PreserveJobAttrs p) /\ distinct_keywords (DropVendorAttrs p).
Proof. unfold validatePassthrough. by rewrite checks_ok, !validateKeywordList_ok. Qed.

(** ** Media *)

Lemma media_list_ok seen i l seen' :
  media_list seen i l = Ok seen' <->
  (distinct_keywords l /\ Forall (.∉ seen) (keys l)) /\ seen' = list_to_set (rev (keys l)) ∪ seen.
Proof.
  revert seen i. induction l as [|x l IH]; intros seen i; cbn [media_list].
  { unfold distinct_keywords, keys. cbn. split; [intros [= <-]|intros [_ ->]]; [|f_equal; set_solver].
    split; [repeat constructor|set_solver]. }
  rewrite <- distinct_step. destruct (String.eqb_spec (TrimSpace x) "") as [He|He].
  { rewrite He. unfold is_keyword. naive_solver. }
  rewrite checks_ok, wrapped_ok, validateKeyword_ok.
  destruct (bool_decide_reflect (ToLower (TrimSpace x) ∈ seen)); [naive_solver|]. rewrite IH.
  assert (list_to_set (rev (keys (x :: l))) ∪ seen = list_to_set (rev (keys l)) ∪ ({[ToLower (TrimSpace x)]} ∪ seen)) as <-.
  { apply leibniz_equiv. unfold keys. cbn. intros y. rewrite list_to_set_app. set_solver. }
  tauto.
Qed.

Lemma elem_of_seen (x : string) l : x ∈ (list_to_set (rev l) ∪ ∅ : gset string) <-> x ∈ l.
Proof.
  rewrite elem_of_union, elem_of_list_to_set, list_elem_of_In, <- in_rev, <- list_elem_of_In. set_solver.
Qed.

(** The media of a policy: a list of distinct keywords with the default among
    them, or the one name of the older form. *)
Definition good_list (s : PolicyConfig) : Prop :=
  pMediaSupported s <> [] /\ distinct_keywords (pMediaSupported s) /\ is_keyword (TrimSpace (pMediaDefault s)) /\
  ToLower (TrimSpace (pMediaDefault s)) ∈ keys (pMediaSupported s).
Definition good_media (p : PolicySection) : Prop :=
  (legacy_form p = true -> new_form p = true -> mediaDefaultsApply p = true) /\
  (if new_form p || mediaDefaultsApply p then good_list (settings p) else is_keyword (TrimSpace (pMedia (settings p)))).

Lemma validatePolicyMedia_ok p : validatePolicyMedia p = Ok tt <-> good_media p.
Proof.
  unfold validatePolicyMedia, good_media, good_list.
  destruct (legacy_form p && new_form p && negb (mediaDefaultsApply p)) eqn:E1.
  { apply andb_true_iff in E1 as [[? ?]%andb_true_iff ?%negb_true_iff]. split; [done|]. intros [Hm _]. by rewrite Hm in *. }
  assert ((legacy_form p = true -> new_form p = true -> mediaDefaultsApply p = true) <-> True) as ->.
  { destruct (legacy_form p), (new_form p), (mediaDefaultsApply p); naive_solver. }
  destruct (new_form p || mediaDefaultsApply p).
  - destruct (pMediaSupported (settings p)) as [|x l] eqn:El; [naive_solver|]. cbv iota.
    destruct (String.eqb_spec (TrimSpace (pMediaDefault (settings p))) "") as [Hd|Hd].
    { rewrite Hd. unfold is_keyword. naive_solver. }
    rewrite bind_ok. setoid_rewrite media_list_ok. setoid_rewrite checks_ok. setoid_rewrite wrapped_ok.
    setoid_rewrite validateKeyword_ok. setoid_rewrite ensure_ok. setoid_rewrite bool_decide_eq_true.
    split.
    + intros (seen & ((H1 & _) & ->) & H2 & H3). split; [done|]. split; [done|]. split; [done|].
      split; [done|]. by apply elem_of_seen in H3.
    + intros (_ & _ & H1 & H2 & H3). eexists. split; [split; [|done]; split; [done|apply Forall_forall; set_solver]|].
      split; [done|]. by apply elem_of_seen.
  - destruct (String.eqb_spec (pMedia (settings p)) "") as [->|Hm]; [unfold is_keyword; naive_solver|].
    destruct (String.eqb_spec (TrimSpace (pMedia (settings p))) "") as [->|Hm']; [unfold is_keyword; naive_solver|].
    rewrite wrapped_ok, validateKeyword_ok. tauto.
Qed.

(** ** The keywords of a policy *)

Definition good_keywords (s : PolicyConfig) : Prop :=
  (pMediaType s <> ""%string -> is_keyword (pMediaType s)) /\
  (pPrintColorMode s <> ""%string -> is_keyword (pPrintColorMode s)) /\
  (forall v, pMediaSource s = Some v -> is_keyword (TrimSpace v)) /\
  (forall v, pPrintScaling s = Some v -> is_keyword (TrimSpace v)).

Lemma validatePolicyKeywords_ok p : validatePolicyKeywords p = Ok tt <-> good_keywords (settings p).
Proof.
  unfold validatePolicyKeywords, good_keywords. rewrite !checks_ok. unfold optional_keyword, pointed_keyword.
  destruct (String.eqb_spec (pMediaType (settings p)) ""), (String.eqb_spec (pPrintColorMode (settings p)) ""),
    (pMediaSource (settings p)), (pPrintScaling (settings p));
    rewrite ?wrapped_ok, ?validateKeyword_ok; naive_solver.
Qed.

(** ** Limits *)

Definition good_limits (l : Limits Z) : Prop :=
  0 < MaxEnvelopeBytes l <= MaxDocumentBytes l /\ 0 < MaxUpstreamResponseBytes l /\
  0 < MaxConcurrentPayloadJobsPerQueue l /\ 0 < JobRetention l.

Lemma validateDefaults_ok d : validateDefaults d = Ok tt <-> good_limits (limits (normalizeAliases d)).
Proof. unfold validateDefaults, good_limits. rewrite !checks_ok, !ensure_ok, !Z.ltb_lt, Z.leb_le. lia. Qed.

(** ** Hosts *)

(** A label: 1 to 63 letters, digits and dashes, no dash at an end. *)
Definition is_label (s : string) : Prop :=
  s <> ""%string /\ (slen s <= 63)%nat /\ HasPrefix s "-" = false /\ HasSuffix s "-" = false /\
  sall (fun c => isASCIIAlpha c || isASCIIDigit c || Ascii.eqb c "-") s = true.
(** Labels with a dot between them, and possibly one at the end. *)
Definition is_hostname (s : string) : Prop :=
  let name := TrimSuffix s "." in
  name <> ""%string /\ (slen name <= 253)%nat /\ Forall is_label (Split name ".").

Lemma valid_label_ok s : valid_label s = true <-> is_label s.
Proof.
  unfold valid_label, is_label. rewrite !andb_true_iff, !negb_true_iff, Nat.leb_le, String.eqb_neq. tauto.
Qed.
Lemma validateHostname_ok s : validateHostname s = Ok tt <-> is_hostname s.
Proof.
  unfold validateHostname, is_hostname. rewrite ensure_ok, !andb_true_iff, negb_true_iff, Nat.leb_le, String.eqb_neq.
  rewrite forallb_forall, List.Forall_forall. setoid_rewrite valid_label_ok. tauto.
Qed.

(** An alternate name of the endpoint: a hostname or an address. *)
Definition is_host (s : string) : Prop :=
  TrimSpace s = s /\ s <> ""%string /\ (ParseIP s = true \/ is_hostname s).
Lemma validateHostAlias_ok s : validateHostAlias s = Ok tt <-> is_host s.
Proof.
  unfold validateHostAlias, is_host. destruct (String.eqb_spec (TrimSpace s) s); [|naive_solver].
  destruct (String.eqb_spec s ""); [naive_solver|]. simpl. destruct (ParseIP s); [naive_solver|].
  rewrite ensure_ok. rewrite <- validateHostname_ok. destruct (validateHostname s) as [[]|]; naive_solver.
Qed.

Lemma alias_list_ok seen i l :
  alias_list seen i l = Ok tt <->
  Forall is_host l /\ NoDup (canonicalHost <$> l) /\ Forall (.∉ seen) (canonicalHost <$> l).
Proof.
  revert seen i. induction l as [|x l IH]; intros seen i; cbn [alias_list].
  { split; [|done]. repeat constructor. }
  rewrite checks_ok, wrapped_ok, validateHostAlias_ok, fmap_cons, !Forall_cons, NoDup_cons.
  destruct (bool_decide_reflect (canonicalHost x ∈ seen)); [naive_solver|]. rewrite IH, !Forall_forall. set_solver.
Qed.

Definition no_space_or_control (s : string) : Prop := sall (fun c => negb (space_or_control c)) s = true.
Lemma no_space_or_control_ok s : ContainsFunc s space_or_control = false <-> no_space_or_control s.
Proof. unfold no_space_or_control. rewrite ContainsFunc_sall. by rewrite negb_false_iff. Qed.

Definition good_dnssd (d : DNSSDConfig) : Prop :=
  Mode d ∈ [DNSModeAuto; DNSModeOff] /\ (Hostname d <> ""%string -> is_hostname (Hostname d)) /\
  Forall is_host (AllowedAliases d) /\ NoDup (canonicalHost <$> AllowedAliases d) /\
  no_space_or_control (Interface d) /\ (slen (Interface d) <= 255)%nat.
Lemma validateDNSSD_ok d : validateDNSSD d = Ok tt <-> good_dnssd d.
Proof.
  unfold validateDNSSD, good_dnssd. rewrite !checks_ok, !ensure_ok, in_strings_true, alias_list_ok, Nat.leb_le,
    negb_true_iff, no_space_or_control_ok.
  assert (Forall (.∉ (∅ : gset string)) (canonicalHost <$> AllowedAliases d)) by (apply Forall_forall; set_solver).
  destruct (String.eqb_spec (Hostname d) ""); rewrite ?wrapped_ok, ?validateHostname_ok; naive_solver.
Qed.

(** ** Coordinates *)

Definition in_bounds (raw : string) (bound : Z) : Prop :=
  exists x, parseFiniteFloat raw = Ok x /\ outside x bound = false.
Definition is_finite (raw : string) : Prop := exists x, parseFiniteFloat raw = Ok x.
Definition is_uncertainty (raw : string) : Prop :=
  exists x, parseFiniteFloat raw = Ok x /\ flt x (float64_of_Z 0) = false.

(** [geo:latitude,longitude[,altitude][;u=uncertainty]] without space around it. *)
Definition coordinates (head : string) : Prop :=
  exists c0 c1 more, Split head "," = c0 :: c1 :: more /\ (length more <= 1)%nat /\
    in_bounds c0 90 /\ in_bounds c1 180 /\ Forall is_finite more.
Definition is_geo_uri (raw : string) : Prop :=
  TrimSpace raw = raw /\ HasPrefix (ToLower raw) "geo:" = true /\
  exists head tail, sdrop 4 raw = head +:+ (match tail with Some t => String ";" t | None => "" end) /\
    without ";" head = true /\ coordinates head /\
    (forall t, tail = Some t -> exists u, t = "u=" +:+ u /\ is_uncertainty u).

(** The parts around the first separator, when there is one. *)
Lemma cut_iff c s (Q : string -> option string -> Prop) :
  (let '(h, t, f) := cut c s in Q h (if f then Some t else None)) <->
  exists h t, s = h +:+ (match t with Some u => String c u | None => "" end) /\ without c h = true /\ Q h t.
Proof.
  pose proof (cut_spec c s) as Hs. destruct (cut c s) as [[h t] f] eqn:E. destruct Hs as (Hs & Hw & _). split.
  - intros HQ. exists h, (if f then Some t else None). by destruct f.
  - intros (h' & t' & Hs' & Hw' & HQ). rewrite Hs' in E. destruct t' as [u|].
    + rewrite cut_found in E by done. by simplify_eq.
    + rewrite sapp_nil_r, cut_missing in E by done. by simplify_eq.
Qed.

Lemma number_in_bounds b r :
  (match parseFiniteFloat r with Ok x => negb (outside x b) | Err _ => false end) = true <-> in_bounds r b.
Proof. unfold in_bounds. destruct (parseFiniteFloat r); [|naive_solver]. rewrite negb_true_iff. naive_solver. Qed.
Lemma number_finite r : is_ok (parseFiniteFloat r) = true <-> is_finite r.
Proof. unfold is_finite. destruct (parseFiniteFloat r); naive_solver. Qed.
Lemma number_uncertainty r :
  (match parseFiniteFloat r with Ok u => negb (flt u (float64_of_Z 0)) | Err _ => false end) = true <-> is_uncertainty r.
Proof. unfold is_uncertainty. destruct (parseFiniteFloat r); [|naive_solver]. rewrite negb_true_iff. naive_solver. Qed.

(** The two halves of the validator. *)
Lemma check_uncertainty_ok (found : bool) tail :
  (if found then _ ← ensure (HasPrefix tail "u=") (EText "uncertainty parameter must use u=");
     ensure (match parseFiniteFloat (TrimPrefix tail "u=") with
       | Ok u => negb (flt u (float64_of_Z 0)) | Err _ => false end) (EText "uncertainty must be non-negative")
   else Ok tt) = Ok tt <->
  (forall t, (if found then Some tail else None) = Some t -> exists u, t = "u=" +:+ u /\ is_uncertainty u).
Proof.
  destruct found; [|naive_solver]. rewrite checks_ok, !ensure_ok, number_uncertainty. split.
  - intros [Hp Hun] t [= <-]. apply prefix_split in Hp as [u ->]. rewrite TrimPrefix_app in Hun. eauto.
  - intros H. destruct (H tail eq_refl) as (u & -> & Hun). by rewrite prefix_app, TrimPrefix_app.
Qed.

Lemma validateGeoLocation_ok raw : validateGeoLocation raw = Ok tt <-> is_geo_uri raw.
Proof.
  unfold validateGeoLocation, is_geo_uri.
  destruct (String.eqb_spec (TrimSpace raw) raw) as [->|]; [|naive_solver].
  destruct (HasPrefix (ToLower raw) "geo:"); [|naive_solver]. cbn [negb orb].
  rewrite <- (cut_iff ";" (sdrop 4 raw) (fun h t => coordinates h /\
    forall t', t = Some t' -> exists u, t' = "u=" +:+ u /\ is_uncertainty u)).
  destruct (cut ";" (sdrop 4 raw)) as [[head tail] found]. unfold coordinates.
  destruct (Split head ",") as [|c0 [|c1 more]]; [naive_solver..|].
  rewrite !checks_ok, !ensure_ok, !number_in_bounds, check_uncertainty_ok.
  destruct more as [|c2 [|c3 more]]; rewrite ?ensure_ok, ?number_finite.
  - split; [|naive_solver]. intros (_ & ? & ? & _ & ?). split; [done|]. split; [done|]. split; [|done].
    exists c0, c1, []. repeat split; try done. cbn. lia.
  - split.
    + intros (_ & ? & ? & ? & ?). split; [done|]. split; [done|]. split; [|done].
      exists c0, c1, [c2]. repeat split; try done. by repeat constructor.
    + intros (_ & _ & (d0 & d1 & more & Heq & _ & ? & ? & HF) & ?). simplify_eq. by apply Forall_cons in HF as [? _].
  - split; [naive_solver|]. intros (_ & _ & (d0 & d1 & more' & Heq & Hl & _) & _). simplify_eq. cbn in Hl. lia.
Qed.

(** ** URIs *)

Lemma trim_left_none p s : sall (fun c => negb (p c)) s = true -> trim_left_by p s = s.
Proof. destruct s as [|c s]; [done|]. cbn. intros [Hc _]%andb_true_iff. apply negb_true_iff in Hc. by rewrite Hc. Qed.
Lemma trim_right_none p s : sall (fun c => negb (p c)) s = true -> trim_right_by p s = s.
Proof.
  induction s as [|c s IH]; [done|]. cbn. intros [Hc Hs]%andb_true_iff. rewrite IH by done.
  apply negb_true_iff in Hc. rewrite Hc. by destruct s.
Qed.
Lemma TrimSpace_none s : no_space_or_control s -> TrimSpace s = s.
Proof.
  intros H. assert (sall (fun c => negb (is_space c)) s = true) as Hs.
  { revert H. apply sall_impl. intros c. unfold space_or_control. by destruct (is_space c). }
  unfold TrimSpace. by rewrite trim_left_none, trim_right_none.
Qed.

Section uris.
Context `{I : IPLiterals} `{U : UrlErrors}.

Definition is_port (s : string) : Prop := s = ""%string \/ exists v, Atoi s = Some v /\ 1 <= v <= 65535.
(** An absolute [ipp] or [ipps] URI with a host, and without fragment, space
    and control characters. *)
Definition is_ipp_uri (raw : string) (u : URL) : Prop :=
  no_space_or_control raw /\ Parse raw = Some u /\ ToLower (Scheme u) ∈ ["ipp"; "ipps"]%string /\
  Opaque u = ""%string /\ Host u <> ""%string /\ GoUrl.Hostname u <> ""%string /\ is_port (Port u) /\ Fragment u = ""%string.

Lemma valid_port_ok s : (s =? "")%string || valid_port s = true <-> is_port s.
Proof.
  unfold valid_port, is_port. rewrite orb_true_iff, String.eqb_eq. destruct (Atoi s) as [v|]; [|naive_solver].
  rewrite andb_true_iff, !Z.leb_le. naive_solver.
Qed.

Lemma validateIPPURI_ok raw : validateIPPURI raw = Ok tt <-> exists u, is_ipp_uri raw u.
Proof.
  unfold validateIPPURI, is_ipp_uri. setoid_rewrite <- (no_space_or_control_ok raw).
  destruct (ContainsFunc raw space_or_control) eqn:Ec.
  { rewrite orb_true_r. naive_solver. }
  rewrite (TrimSpace_none raw) by by apply no_space_or_control_ok. rewrite String.eqb_refl. cbn [negb orb].
  destruct (Parse raw) as [u|]; [|naive_solver].
  rewrite !checks_ok, !ensure_ok, valid_port_ok, in_strings_true, !andb_true_iff, !negb_true_iff, !String.eqb_eq, !String.eqb_neq.
  naive_solver.
Qed.

(** The public endpoint: plain [ipp] without a query, under one of two paths. *)
Definition is_public_uri (raw : string) : Prop :=
  exists u, is_ipp_uri raw u /\ name_eq (Scheme u) "ipp" /\ RawQuery u = ""%string /\
    TrimRight (EscapedPath u) "/" ∈ ["/printers"; "/ipp"]%string.

Lemma validatePublicIPPURI_ok raw : validatePublicIPPURI raw = Ok tt <-> is_public_uri raw.
Proof.
  unfold validatePublicIPPURI, is_public_uri. rewrite checks_ok, validateIPPURI_ok. split.
  - intros [(u & Hu) H]. exists u. split; [done|]. destruct Hu as (_ & Hp & _). rewrite Hp in H.
    rewrite !checks_ok, !ensure_ok, EqualFold_true, in_strings_true, String.eqb_eq in H. tauto.
  - intros (u & Hu & H). split; [eauto|]. destruct Hu as (_ & -> & _).
    rewrite !checks_ok, !ensure_ok, EqualFold_true, in_strings_true, String.eqb_eq. tauto.
Qed.
End uris.

(** ** Statistics *)

Section stats.
Context `{F : FileSystem}.

(** The two databases: different paths, and not the same file. *)
Definition apart (primary other : string) : Prop :=
  exists a b, Abs primary = Ok a /\ Abs other = Ok b /\ a <> b /\
    (forall x, Stat a = Some x -> Stat b <> Some x).
Definition good_statistics (s : StatisticsConfig) (primary : string) : Prop :=
  Enabled s = true ->
  1 <= BatchSize s <= QueueSize s /\ QueueSize s <= 1000000 /\ 0 < FlushInterval s /\
  0 <= DetailRetention s /\ 0 <= CPURetention s /\ 0 <= RollupRetention s /\
  SQLitePath s <> ""%string /\ apart primary (SQLitePath s).

Lemma validateStatistics_ok s primary : validateStatistics s primary = Ok tt <-> good_statistics s primary.
Proof.
  unfold validateStatistics, good_statistics, apart. destruct (Enabled s); [|naive_solver]. cbn [negb].
  rewrite !checks_ok, !ensure_ok, !andb_true_iff, !negb_true_iff, !orb_false_iff, !Z.leb_le, !Z.ltb_lt, !Z.ltb_ge, String.eqb_neq.
  assert ((exists a, Abs primary = Ok a /\ exists b, Abs (SQLitePath s) = Ok b /\ a <> b /\
             (forall x, Stat a = Some x -> Stat b <> Some x)) <->
          exists a b, Abs primary = Ok a /\ Abs (SQLitePath s) = Ok b /\ a <> b /\
             (forall x, Stat a = Some x -> Stat b <> Some x)) as <- by naive_solver.
  rewrite bind_ok. setoid_rewrite bind_ok. setoid_rewrite checks_ok. setoid_rewrite ensure_ok.
  setoid_rewrite negb_true_iff. setoid_rewrite String.eqb_neq.
  assert (forall a b, (match Stat a, Stat b with Some x, Some y => negb (x =? y) | _, _ => true end) = true <->
            (forall x, Stat a = Some x -> Stat b <> Some x)) as Hst.
  { intros a b. destruct (Stat a), (Stat b); rewrite ?negb_true_iff, ?Z.eqb_neq; naive_solver. }
  setoid_rewrite Hst. split; intros; intuition lia.
Qed.
End stats.

(** ** Printers and the whole configuration *)

Section whole.
Context `{I : IPLiterals} `{U : UrlErrors} `{P : Platform} `{F : FileSystem} `{R : MapRange}.

Definition good_refresh (p : PrinterConfig) : Prop :=
  RefreshRaw p <> ""%string ->
  RefreshInterval p <> 0 /\ exists d, parseFlexibleDuration (RefreshRaw p) = Ok d /\ 0 < d.
Definition good_printer (name : string) (p : PrinterConfig) : Prop :=
  let s := settings (Policy p) in
  is_queue_name name /\ (exists u, is_ipp_uri (UpstreamURI p) u) /\ good_refresh p /\
  IPPEverywhereMode p ∈ [IPPEverywhereDisabled; IPPEverywhereAuto] /\
  AirPrintMode p ∈ [AirPrintDisabled; AirPrintAuto; AirPrintEmulateIfMissing] /\
  (GeoLocation p <> ""%string -> is_geo_uri (GeoLocation p)) /\
  distinct_keywords (PreserveJobAttrs (Passthrough p)) /\ distinct_keywords (DropVendorAttrs (Passthrough p)) /\
  good_media (Policy p) /\ good_keywords s /\ pPrintColorMode s <> ""%string /\ pFidelityMode s ∈ ["warn"; "reject"]%string.

(** The empty text is no URI. *)
Lemma empty_no_uri u : ~ is_ipp_uri "" u.
Proof. intros (_ & H & _ & _ & Hh & _). vm_compute in H. by injection H as <-. Qed.

Lemma good_refresh_ok p :
  (RefreshRaw p =? "")%string || negb (RefreshInterval p =? 0) = true /\
  (RefreshRaw p =? "")%string ||
    match parseFlexibleDuration (RefreshRaw p) with Ok d => 0 <? d | Err _ => false end = true <-> good_refresh p.
Proof.
  unfold good_refresh. destruct (String.eqb_spec (RefreshRaw p) ""); [naive_solver|]. cbn [orb].
  rewrite negb_true_iff, Z.eqb_neq. destruct (parseFlexibleDuration (RefreshRaw p)) as [d|]; [|naive_solver].
  rewrite Z.ltb_lt. naive_solver.
Qed.

Lemma validatePrinter_ok name p : validatePrinter name p = Ok tt <-> good_printer name p.
Proof.
  unfold validatePrinter, good_printer. rewrite !checks_ok, !wrapped_ok, !ensure_ok, validateQueueName_ok, validateIPPURI_ok,
    validatePassthrough_ok, validatePolicyMedia_ok, validatePolicyKeywords_ok, <- good_refresh_ok.
  unfold validIPPEverywhereMode, validAirPrintMode. rewrite !in_strings_true, !negb_true_iff, !String.eqb_neq.
  assert ((if (GeoLocation p =? "")%string then Ok tt
           else wrapped ("printers." +:+ name +:+ ".geo_location: ") (validateGeoLocation (GeoLocation p))) = Ok tt <->
          (GeoLocation p <> ""%string -> is_geo_uri (GeoLocation p))) as ->.
  { destruct (String.eqb_spec (GeoLocation p) ""); [naive_solver|]. rewrite wrapped_ok, validateGeoLocation_ok. naive_solver. }
  assert ((exists u, is_ipp_uri (UpstreamURI p) u) -> UpstreamURI p <> ""%string).
  { intros [u Hu] He. rewrite He in Hu. by apply empty_no_uri in Hu. }
  tauto.
Qed.

(** A configuration the service can run with. *)
Definition good_config (c : Config) : Prop :=
  is_public_uri (PublicBaseURL (Listen c)) /\ limitsAliasConflict c = false /\
  good_limits (limits (normalizeAliases (Defaults c))) /\ good_statistics (Statistics c) (StoragePath c) /\
  good_dnssd (DNSSDSection c) /\ Printers c <> ∅ /\ map_Forall good_printer (Printers c).

Lemma validate_ok c : validate c = Ok tt <-> good_config c.
Proof.
  unfold validate, good_config. rewrite !checks_ok, !wrapped_ok, !ensure_ok, validatePublicIPPURI_ok, validateDefaults_ok,
    validateStatistics_ok, validateDNSSD_ok, each_ok, !negb_true_iff, bool_decide_eq_false, String.eqb_neq.
  assert ((forall k x, range (Printers c) !! k = Some x ->
             (let '(name, printer) := x in validatePrinter name printer) = Ok tt) <->
          map_Forall good_printer (Printers c)) as ->.
  { rewrite map_Forall_to_list, <- (range_perm (Printers c)), Forall_lookup. unfold uncurry.
    split; intros H k [n p] Hk; apply validatePrinter_ok; exact (H k _ Hk) || (apply validatePrinter_ok; exact (H k _ Hk)). }
  assert (is_public_uri (PublicBaseURL (Listen c)) -> PublicBaseURL (Listen c) <> ""%string).
  { intros (u & Hu & _) He. rewrite He in Hu. by apply empty_no_uri in Hu. }
  tauto.
Qed.
End whole.
