(* ===== verification/ConfigurationTheorems.v ===== *)
(** * Correctness of the configuration

    What an accepted configuration is, what its defaults are, and that the
    service can run with it: its queues have URIs of their own, its jobs can be
    printed on the media it names, its limits are those of the service. *)

From Stdlib Require Import ZArith Lia Ascii String SpecFloat.
From stdpp Require Import base tactics list strings gmap.
From S2P Require Import Prelude GoString GoError GoUrl MediaCatalog Protocol UriTheorems Routing Handlers PrinterDescription.
From S2P Require Import GoTime GoParse Configuration ConfigurationProofs.

(** ** The URIs of the queues *)

Section queues.
Context `{I : IPLiterals} `{U : UrlErrors}.

(** The characters of a keyword stand for themselves in a path. *)
Definition path_char (c : ascii) : bool := keyword_char c || Ascii.eqb c "/".
Lemma path_char_spec c : path_char c = true ->
  shouldEscape c encodePath || Ascii.eqb c "%" || Ascii.eqb c "?" || Ascii.eqb c "#" || is_control c ||
  negb (in_set "!$&'()*+,;=:@[]%" c || negb (shouldEscape c encodePath)) = false.
Proof. destruct c as [[] [] [] [] [] [] [] []]; try discriminate; intros _; vm_compute; reflexivity. Qed.

Lemma path_chars_unescape s : sall path_char s = true -> unescape encodePath s = Some s.
Proof.
  induction s as [|c s IH]; [done|]. cbn [sall]. intros [Hc Hs]%andb_true_iff. apply path_char_spec in Hc.
  rewrite unescape_cons_other; [by rewrite IH|]. intros ->. discriminate Hc.
Qed.

(** The path of a queue, without anything to escape. *)
Lemma queue_path root name : root ∈ ["/printers"; "/ipp"]%string -> is_queue_name name ->
  sall path_char (root +:+ "/" +:+ name) = true /\ TrimRight (root +:+ "/" +:+ name) "/" = root +:+ "/" +:+ name.
Proof.
  intros Hroot [[Hne [_ Hk]] (c & r & -> & Hc)].
  assert (sall path_char root = true) by (apply elem_of_cons in Hroot as [->|Hroot]; [done|]; by apply list_elem_of_singleton in Hroot as ->).
  split.
  - rewrite !sall_app, H. change (sall path_char (String c r) = true). revert Hk. apply sall_impl.
    intros d Hd. unfold path_char. by rewrite Hd.
  - assert (TrimRight (String c r) "/" = String c r) as Ht.
    { apply trim_right_none. revert Hk. apply sall_impl. intros d Hd. apply negb_true_iff, Ascii.eqb_neq. intros <-. discriminate Hd. }
    unfold TrimRight in *. by rewrite !trim_right_app, Ht.
Qed.

(** What the queues of an endpoint have in common. *)
Lemma queue_uri base : is_public_uri base -> validEncoded base = true ->
  exists root, root ∈ ["/printers"; "/ipp"]%string /\ forall name, is_queue_name name ->
    exists u, Parse (TrimRight base "/" +:+ "/" +:+ name) = Some u /\ name_eq (Scheme u) "ipp" /\ Scheme u <> ""%string /\
      Host u <> ""%string /\ RawQuery u = ""%string /\ Fragment u = ""%string /\
      EscapedPath u = root +:+ "/" +:+ name /\ validEncoded (TrimRight base "/" +:+ "/" +:+ name) = true.
Proof.
  intros (l & (_ & El & Hsch & _ & Hh & _ & _ & Hf) & Hipp & Hq & Hroot) Hv.
  assert (Scheme l <> ""%string) as Hs by (intros E; rewrite E in Hipp; discriminate Hipp).
  destruct (Parse_inv base l El) as (sch & auth & user & p & t & Hraw & Hb & Hr & Ht & Hw & Hpq & Hph & Hpc); try done.
  assert (t = ""%string) as ->.
  { rewrite Hraw in Hv. rewrite validEncoded_app in Hv. apply andb_true_iff in Hv as [_ Hv].
    repeat (apply elem_of_cons in Ht as [->|Ht]; [first [done|discriminate Hv]|]). by apply not_elem_of_nil in Ht. }
  rewrite sapp_nil_r in Hraw. destruct (EscapedPath_with_path _ _ _ Hw Hr) as (path & _ & Hesc).
  assert (validEncoded p = true) as Hvp by (rewrite Hraw in Hv; unfold uri in Hv; rewrite !validEncoded_app in Hv; by bool_to_prop).
  rewrite Hvp in Hesc. rewrite Hesc in Hroot. exists (TrimRight p "/"). split; [done|]. intros name Hname.
  destruct (queue_path _ _ Hroot Hname) as [Hchars _]. set (p' := TrimRight p "/" +:+ "/" +:+ name) in *.
  assert (TrimRight base "/" +:+ "/" +:+ name = uri sch auth p') as ->.
  { rewrite Hraw, (TrimRight_uri _ _ _ _ _ Hb) by done. unfold uri, p'. by rewrite !sapp_assoc. }
  assert (rooted p') as Hroot'.
  { right. unfold p'. apply elem_of_cons in Hroot as [->|Hroot]; [by eexists|]. apply list_elem_of_singleton in Hroot as ->. by eexists. }
  assert (exists u, with_path p' (base_url sch user (Host l)) = Some u) as [u Hw'].
  { unfold with_path. rewrite path_chars_unescape by done. by eexists. }
  destruct (EscapedPath_with_path _ _ _ Hw' Hroot') as (path' & _ & Hesc').
  assert (validEncoded p' = true) as Hvp'.
  { revert Hchars. apply sall_impl. intros c [_ Hc]%path_char_spec%orb_false_iff. by apply negb_false_iff in Hc. }
  rewrite Hvp' in Hesc'. destruct (with_path_fields _ _ _ Hw') as (F1 & F2 & F3 & F4). cbn in F1, F2, F3, F4.
  destruct (with_path_fields _ _ _ Hw) as (F1' & _). cbn in F1'.
  exists u. rewrite F1, <- F1', F2, F3, F4. rewrite (Parse_uri _ _ _ _ _ Hb Hroot'), Hw'.
  - do 7 (split; [done|]). rewrite Hraw in Hv. unfold uri in Hv |- *. rewrite !validEncoded_app in Hv |- *.
    bool_to_prop. rewrite Hvp', andb_true_r. by apply andb_true_iff.
  - revert Hchars. apply sall_impl. intros c Hc%path_char_spec. apply negb_true_iff, Ascii.eqb_neq. intros ->. discriminate Hc.
  - revert Hchars. apply sall_impl. intros c Hc%path_char_spec. apply negb_true_iff, Ascii.eqb_neq. intros ->. discriminate Hc.
  - revert Hchars. apply sall_impl. intros c Hc%path_char_spec. rewrite !orb_false_iff in Hc. destruct Hc as [[_ ->] _]. done.
Qed.
End queues.

(** ** Limits *)

Definition each_limit (Q : Z -> Prop) (l : Limits Z) : Prop :=
  Q (MaxEnvelopeBytes l) /\ Q (MaxDocumentBytes l) /\ Q (MaxUpstreamResponseBytes l) /\
  Q (MaxConcurrentPayloadJobsPerQueue l) /\ Q (JobRetention l).

Section limits.
Context `{P : Platform}.

Lemma int64_of_float_range x : minI64 <= int64_of_float x <= maxI64.
Proof.
  unfold int64_of_float. destruct (_ || _) eqn:E; [apply float_overflow_range|]. bool_to_prop. lia.
Qed.
Lemma parseByteLimit_range raw v : parseByteLimit raw = Ok v -> minI64 <= v <= maxI64.
Proof.
  unfold parseByteLimit. destruct (_ =? _)%string; [done|]. destruct (split_unit _ _) as [factor number].
  destruct (_ =? _)%string; [done|]. destruct (ParseFloat number) as [x|]; [|done].
  destruct (not_finite x || _); [done|]. cbv zeta. destruct (_ || _); [done|]. intros [= <-]. apply int64_of_float_range.
Qed.
Lemma Atoi_range s v : Atoi s = Some v -> minI64 <= v <= maxI64.
Proof.
  unfold Atoi. match goal with |- (match ?t with _ => _ end) = _ -> _ => destruct t as [z|] end; [|done].
  destruct (_ && _) eqn:E; [|done]. intros [= <-]. bool_to_prop. lia.
Qed.
Lemma parseFlexibleDuration_max raw v : parseFlexibleDuration raw = Ok v -> v <= maxI64.
Proof.
  unfold parseFlexibleDuration. destruct (_ =? _)%string; [done|]. destruct (HasSuffix _ _).
  - destruct (ParseFloat _) as [x|]; [|done]. destruct (not_finite x); [done|]. cbv zeta.
    destruct (_ || _); [done|]. intros [= <-]. apply int64_of_float_range.
  - rewrite wrapped_ok. apply ParseDuration_max.
Qed.

Lemma defaults_key_max d key value d' : defaults_key d key value = Ok d' ->
  each_limit (Z.ge maxI64) (limits d) -> each_limit (Z.ge maxI64) (limits d').
Proof.
  unfold defaults_key. intros H Hd.
  assert (forall (parse : Node -> res goerr Z) (f : forall A : Type, A -> Limits A -> Limits A), (forall n v, parse n = Ok v -> maxI64 >= v) ->
    (forall v, maxI64 >= v -> each_limit (Z.ge maxI64) (f Z v (limits d))) ->
    (parsed ← wrapped (key +:+ ": ") (parse value); Ok (set_limit f parsed d)) = Ok d' -> each_limit (Z.ge maxI64) (limits d')) as Hread.
  { intros parse f Hp Hf (v & Hv%wrapped_ok & [= <-])%bind_ok. apply Hf. by eapply Hp. }
  assert (forall n v, parseByteLimitNode n = Ok v -> maxI64 >= v).
  { intros n v. unfold parseByteLimitNode. destruct (negb _); [done|]. intros Hv%parseByteLimit_range. lia. }
  assert (forall n v, parsePositiveIntNode n = Ok v -> maxI64 >= v).
  { intros n v. unfold parsePositiveIntNode. destruct (negb _); [done|]. rewrite or_error_ok. intros Hv%Atoi_range. lia. }
  assert (forall n v, parseDurationNode n = Ok v -> maxI64 >= v).
  { intros n v. unfold parseDurationNode. destruct (negb _); [done|]. intros Hv%parseFlexibleDuration_max. lia. }
  destruct Hd as (L1 & L2 & L3 & L4 & L5).
  repeat match type of H with (if ?b then _ else _) = _ => destruct b end;
    try (eapply Hread; [|..|exact H]; [eassumption|]; intros v Hv; by repeat split).
  by simplify_eq.
Qed.
Lemma DefaultsConfig_UnmarshalYAML_max node d : DefaultsConfig_UnmarshalYAML node = Ok d ->
  each_limit (Z.ge maxI64) (limits d).
Proof.
  assert (each_limit (Z.ge maxI64) (limits no_defaults)) as H0 by (repeat split; by cbn).
  unfold DefaultsConfig_UnmarshalYAML. destruct (is_null node); [by intros [= <-]|]. destruct (negb _); [done|].
  revert H0. generalize no_defaults. induction (pairs (Content node)) as [|[key value] l IH]; intros d0 H0; cbn [defaults_keys].
  - by intros [= <-].
  - rewrite bind_ok. intros (d1 & H1 & H2). eapply IH; [|exact H2]. by eapply defaults_key_max.
Qed.

(** The alias fields are zero in a section that was read. *)
Lemma DefaultsConfig_UnmarshalYAML_alias node d : DefaultsConfig_UnmarshalYAML node = Ok d -> alias d = all_of 0.
Proof.
  unfold DefaultsConfig_UnmarshalYAML. destruct (is_null node); [by intros [= <-]|]. destruct (negb _); [done|].
  assert (alias no_defaults = all_of 0) as H0 by done. revert H0. generalize no_defaults.
  induction (pairs (Content node)) as [|[key value] l IH]; intros d0 H0; cbn [defaults_keys]; [by intros [= <-]|].
  rewrite bind_ok. intros (d1 & H1 & H2). apply (IH d1); [|exact H2]. rewrite <- H0. revert H1. unfold defaults_key.
  repeat match goal with |- context [if ?b then _ else _] => destruct b end;
    try (rewrite bind_ok; intros (v & _ & [= <-]); done). by intros [= <-].
Qed.
End limits.

(** [v] is a limit that was given, or its default where the key is missing. *)
Definition given_or_default (v default : Z) (set : bool) (r : Z) : Prop :=
  r = if (v =? 0) && negb set then default else v.

Lemma applyDefaults_limits d : alias d = all_of 0 ->
  let l := limits (DefaultsConfig_applyDefaults d) in
  given_or_default (MaxEnvelopeBytes (limits d)) (2 ^ 20) (MaxEnvelopeBytes (present d)) (MaxEnvelopeBytes l) /\
  given_or_default (MaxDocumentBytes (limits d)) (2 ^ 30) (MaxDocumentBytes (present d)) (MaxDocumentBytes l) /\
  given_or_default (MaxUpstreamResponseBytes (limits d)) (2 ^ 25) (MaxUpstreamResponseBytes (present d)) (MaxUpstreamResponseBytes l) /\
  given_or_default (MaxConcurrentPayloadJobsPerQueue (limits d)) 2 (MaxConcurrentPayloadJobsPerQueue (present d))
    (MaxConcurrentPayloadJobsPerQueue l) /\
  given_or_default (JobRetention (limits d)) (720 * Hour) (JobRetention (present d)) (JobRetention l).
Proof.
  intros Ha. unfold given_or_default, DefaultsConfig_applyDefaults, normalizeAliases. cbn. rewrite Ha. cbn.
  rewrite !andb_false_r. done.
Qed.

(** The aliases equal the limits after the defaults. *)
Lemma normalizeAliases_synced d : alias d = limits d -> normalizeAliases d = d.
Proof.
  destruct d as [l a s]. cbn. intros ->. unfold normalizeAliases. cbn. f_equal. destruct l as [a b c e f]. unfold zip_limits. cbn.
  f_equal; match goal with |- context [?v =? 0] => by destruct (v =? 0) end.
Qed.

(** ** What the service is given *)

(** The part of the configuration the job operations use. *)
Definition service_config (c : Config) : Handlers.Config := {|
  Handlers.PublicBaseURL := PublicBaseURL (Listen c); Handlers.Queues := Printers c;
  Handlers.MaxDocumentBytes := MaxDocumentBytes (limits (Defaults c)) |}.

Section theorems.
Context `{I : IPLiterals} `{U : UrlErrors} `{P : Platform} `{F : FileSystem} `{R : MapRange}.

(** What validation returns, and what it leaves behind. *)
Lemma Validate_result c c' : Validate c = (Ok tt, c') <-> c' = set_printers (fmap legacy_mode) c /\ good_config c'.
Proof.
  unfold Validate, normalizeLegacyModes. cbn [fst]. split.
  - intros [= H <-]. split; [done|]. by apply validate_ok.
  - intros [-> H]. f_equal. by apply validate_ok.
Qed.

(** C11: Validation accepts exactly the configurations the service can run
    with, whatever the order in which Go visits the printers, and leaves behind
    the configuration with the legacy mode of every printer replaced. *)
Theorem validate_exactly c c' :
  Validate c = (Ok tt, c') <-> c' = set_printers (fmap legacy_mode) c /\ good_config c'.
Proof. apply Validate_result. Qed.

Lemma queue_uri_named c queue : good_config c -> validEncoded (PublicBaseURL (Listen c)) = true ->
  is_Some (Printers c !! queue) -> is_queue_name queue.
Proof. intros (_ & _ & _ & _ & _ & _ & H) _ [p Hp]. by apply (H queue p Hp). Qed.

(** The text behind a common prefix, up to the next slash. *)
Lemma prefix_name (a b : string) r s : without "/" a = true -> without "/" b = true ->
  a +:+ String "/" r = b +:+ String "/" s -> a = b.
Proof.
  intros Ha Hb H. assert (cut "/" (a +:+ String "/" r) = cut "/" (b +:+ String "/" s)) as Hc by by rewrite H.
  rewrite !cut_found in Hc by done. by simplify_eq.
Qed.
Lemma queue_name_without name : is_queue_name name -> without "/" name = true.
Proof.
  intros [(_ & _ & H) _]. revert H. apply sall_impl. intros c Hc. apply negb_true_iff, Ascii.eqb_neq. intros ->. discriminate Hc.
Qed.

(** C14: In an accepted configuration every queue has a URI of its own: the URI
    of a queue identifies that queue and no other, and the URI of one of its
    jobs gives back its id there and is refused by every other queue. The
    public URL has to consist of characters of a valid encoding. *)
Theorem queues_apart c queue queue' id :
  fst (Validate c) = Ok tt -> validEncoded (PublicBaseURL (Listen c)) = true ->
  is_Some (Printers c !! queue) -> is_Some (Printers c !! queue') -> 1 <= id <= maxI64 ->
  let uri := proxyPrinterURI (service_config (snd (Validate c))) in
  (sameTargetURI (uri queue) (uri queue') = true <-> queue = queue') /\
  jobIDForPrinterURI (proxyJobURI (uri queue) id) (uri queue') = (if decide (queue = queue') then Some id else None).
Proof.
  intros Hgood%validate_ok Hv Hq Hq' Hid uri.
  assert (forall q, is_Some (Printers c !! q) -> is_queue_name q) as Hname.
  { intros q [p Hp]. apply (queue_uri_named _ q Hgood); [done|]. cbn. rewrite lookup_fmap, Hp. by eexists. }
  destruct Hgood as (Hpub & _). cbn in Hpub. destruct (queue_uri _ Hpub Hv) as (root & Hroot & Huri).
  destruct (Huri _ (Hname _ Hq)) as (u & Eu & Hi & Hs & Hh & Hrq & Hf & Hp & Hve).
  destruct (Huri _ (Hname _ Hq')) as (u' & Eu' & Hi' & Hs' & Hh' & Hrq' & Hf' & Hp' & Hve').
  change (Parse (uri queue) = Some u) in Eu. change (Parse (uri queue') = Some u') in Eu'.
  change (validEncoded (uri queue) = true) in Hve.
  pose proof (queue_path root queue Hroot (Hname _ Hq)) as [_ Ht]. pose proof (queue_path root queue' Hroot (Hname _ Hq')) as [_ Ht'].
  assert (sameTargetURI (uri queue) (uri queue') = true <-> queue = queue') as Hsame.
  { rewrite sameTargetURI_true. split.
    - intros (l & r & El & Er & _ & _ & _ & _ & _ & _ & _ & _ & _ & Heq). rewrite Eu in El. rewrite Eu' in Er. simplify_eq.
      rewrite Hp, Hp', Ht, Ht' in Heq. apply sapp_inj_l in Heq. by injection Heq.
    - intros <-. exists u, u. assert (u' = u) as -> by congruence. repeat split; try done. apply EqualFold_refl. }
  split; [done|]. destruct (decide (queue = queue')) as [<-|Hne]; [apply job_uri_accepted; [done|by apply Hsame|done]|].
  destruct (Parse_job_uri _ u id Eu) as (j & Ej & F1 & F2 & F3 & F4 & F5); [done..|lia|].
  unfold jobIDForPrinterURI. rewrite Ej, Eu', F1, F2, F3, F4, F5, Hp, Hp', Ht, Ht'. cbn [String.eqb negb orb].
  match goal with |- (if ?b then _ else _) = _ => destruct b; [done|] end.
  match goal with |- context [HasPrefix ?s ?p] => destruct (HasPrefix s p) eqn:E end; [|done]. exfalso. apply Hne.
  apply prefix_split in E as [r E]. rewrite !sapp_assoc in E. apply sapp_inj_l in E. injection E as E.
  by eapply prefix_name; [apply queue_name_without, Hname| |exact E]; [|apply queue_name_without, Hname].
Qed.

Lemma keyword_trimmed k : is_keyword k -> TrimSpace k = k /\ (k =? "")%string = false.
Proof.
  intros (Hne & _ & Hk). split; [|by apply String.eqb_neq]. apply TrimSpace_none. revert Hk. apply sall_impl.
  intros c. by destruct c as [[] [] [] [] [] [] [] []].
Qed.
Lemma keyword_names l : Forall (is_keyword ∘ TrimSpace) l ->
  List.filter (fun n => negb (n =? "")%string) (map TrimSpace l) = TrimSpace <$> l /\ mediaNameKey <$> (TrimSpace <$> l) = keys l.
Proof.
  induction 1 as [|x l Hx _ [IH1 IH2]]; [done|]. cbn in Hx. destruct (keyword_trimmed _ Hx) as [Ht Hne]. cbn.
  rewrite Hne. cbn. rewrite IH1. split; [done|]. unfold keys in *. cbn. f_equal; [|exact IH2]. unfold mediaNameKey. by rewrite Ht.
Qed.

Lemma nonempty_match {A} (l d : list A) : l <> [] -> match l with [] => d | _ :: _ => l end = l.
Proof. by destruct l. Qed.

(** The media of an accepted policy. *)
Lemma good_media_names p : good_media p ->
  let s := settings p in
  let names := policyMediaNames s in
  names = (match pMediaSupported s with [] => [TrimSpace (pMedia s)] | l => TrimSpace <$> l end) /\
  Forall is_keyword names /\ NoDup (mediaNameKey <$> names) /\
  exists n, n ∈ names /\ mediaNameKey n = mediaNameKey (policyMediaDefault s).
Proof.
  intros [_ Hm] s names. fold s in Hm. unfold names, policyMediaNames, policyMediaDefault.
  destruct (new_form p || mediaDefaultsApply p) eqn:Ef.
  - destruct Hm as (Hl & [Hkw Hnd] & Hd & Hin). destruct (keyword_names _ Hkw) as [-> Hkeys].
    destruct (keyword_trimmed _ Hd) as [Htd ->]. cbn [negb].
    rewrite nonempty_match by (by destruct (pMediaSupported s)).
    split; [by destruct (pMediaSupported s)|]. split; [by apply Forall_fmap|]. rewrite Hkeys. split; [done|].
    rewrite <- Hkeys in Hin. apply list_elem_of_fmap in Hin as (n & Hn & Hin). exists n. split; [done|].
    unfold mediaNameKey at 2. by rewrite Htd.
  - apply orb_false_iff in Ef as [Ef _]. unfold new_form in Ef. fold s in Ef. rewrite !orb_false_iff in Ef.
    destruct Ef as [[_ El] Ed]. destruct (pMediaSupported s); [|done]. apply negb_false_iff, String.eqb_eq in Ed. rewrite Ed.
    destruct (keyword_trimmed _ Hm) as [Htm Hne]. cbn. rewrite Hne. cbn. split; [done|]. split; [by constructor|].
    split; [apply NoDup_singleton|]. exists (TrimSpace (pMedia s)). split; [by left|done].
Qed.

(** The jobs of a queue with an accepted policy are printed on the media
    its configuration names: they are keywords, no two of them equal up to
    case, and the default is one of them. *)
Theorem configured_media c queue p :
  fst (Validate c) = Ok tt -> Printers c !! queue = Some p ->
  let s := settings (Policy p) in
  let names := policyMediaNames s in
  names = (match pMediaSupported s with [] => [TrimSpace (pMedia s)] | l => TrimSpace <$> l end) /\
  Forall is_keyword names /\ NoDup (mediaNameKey <$> names) /\
  exists n, n ∈ names /\ mediaNameKey n = mediaNameKey (policyMediaDefault s).
Proof.
  intros Hgood%validate_ok Hp. destruct Hgood as (_ & _ & _ & _ & _ & _ & Hall). apply good_media_names.
  destruct (Hall queue (legacy_mode p)) as (_ & _ & _ & _ & _ & _ & _ & _ & Hm & _); [|exact Hm].
  cbn. by rewrite lookup_fmap, Hp.
Qed.

(** ** Defaults *)

Lemma printer_defaults_idemp name p : printer_defaults name (printer_defaults name p) = printer_defaults name p.
Proof.
  assert (forall v d : string, or_default (or_default v d) d = or_default v d) as Hor.
  { intros v d. unfold or_default. destruct (String.eqb_spec v "") as [->|Hv]; [by destruct (d =? "")%string|].
    by rewrite (proj2 (String.eqb_neq v "")). }
  assert (policy_defaults (policy_defaults (Policy p)) = policy_defaults (Policy p)) as Hpol.
  { assert (new_form (policy_defaults (Policy p)) = true) as Hnew.
    { change (new_form (applyMediaDefaults (Policy p)) = true). unfold applyMediaDefaults.
      destruct (new_form (Policy p)) eqn:E, (legacy_form (Policy p)); cbn [negb andb]; try exact E;
        unfold new_form; cbn; by destruct (mediaSupportedSet (Policy p)), (mediaDefaultSet (Policy p)). }
    unfold policy_defaults at 1, applyMediaDefaults. rewrite Hnew. cbn [negb]. rewrite !andb_false_r. cbn. by rewrite !Hor. }
  assert (forall (v d : string) b, (if (v =? "")%string && b then d else v) =
    (let w := if (v =? "")%string && b then d else v in if (w =? "")%string && b then d else w)) as Hmode.
  { intros v d b. cbn. destruct ((v =? "")%string && b) eqn:E; [by destruct ((d =? "")%string && b)|by rewrite E]. }
  destruct p as [u d lo o ipp air dn geo ri rr po pa ds b1 b2 b3]. unfold printer_defaults. cbn in *. rewrite Hor, Hpol.
  f_equal; try (symmetry; apply Hmode); try (by destruct b3).
  - destruct (rr =? "")%string; [done|]. by destruct (parseFlexibleDuration rr).
  - by destruct (DropVendorAttrs pa).
Qed.

Lemma hasValues_defaults d : hasValues (DefaultsConfig_applyDefaults d) = true.
Proof.
  unfold hasValues. rewrite normalizeAliases_synced by done. unfold any_limit, DefaultsConfig_applyDefaults. cbn.
  match goal with |- context [MaxEnvelopeBytes (present d)] => destruct (MaxEnvelopeBytes (present d)); [done|] end.
  cbn. match goal with |- context [negb ((if ?b then _ else _) =? 0)] => destruct b eqn:E end; cbn; rewrite ?orb_true_r; [done|].
  rewrite andb_true_r in E. rewrite E. cbn. by rewrite !orb_true_r.
Qed.
Lemma defaults_idemp d : DefaultsConfig_applyDefaults (DefaultsConfig_applyDefaults d) = DefaultsConfig_applyDefaults d.
Proof.
  set (d1 := DefaultsConfig_applyDefaults d). unfold DefaultsConfig_applyDefaults. rewrite normalizeAliases_synced by done.
  assert (zip_limits (fun v '(set, default) => if (v =? 0) && negb set then default else v) (limits d1)
            (zip_limits pair (present d1) default_limits) = limits d1) as ->; [|reflexivity].
  unfold d1, DefaultsConfig_applyDefaults, zip_limits. cbn.
  assert (forall (v d : Z) b, (let w := if (v =? 0) && b then d else v in if (w =? 0) && b then d else w) =
    (if (v =? 0) && b then d else v)) as Hfill.
  { intros v d' b. cbn. destruct ((v =? 0) && b) eqn:E; [by destruct ((d' =? 0) && b)|by rewrite E]. }
  f_equal; apply Hfill.
Qed.
Lemma statistics_defaults_idemp primary s :
  StatisticsConfig_applyDefaults primary (StatisticsConfig_applyDefaults primary s) = StatisticsConfig_applyDefaults primary s.
Proof.
  assert ((primary +:+ ".stats.sqlite" =? "")%string = false) as Hp by (by destruct primary).
  set (s1 := StatisticsConfig_applyDefaults primary s).
  assert ((SQLitePath s1 =? "")%string = false /\ s1 <> no_statistics) as [H1 H2].
  { assert ((SQLitePath s1 =? "")%string = false) as Hs.
    { unfold s1, StatisticsConfig_applyDefaults. set (y := if negb (configured s) && _ then _ else s).
      destruct (SQLitePath y =? "")%string eqn:E; [exact Hp|exact E]. }
    split; [done|]. intros He. by rewrite He in Hs. }
  unfold StatisticsConfig_applyDefaults. rewrite bool_decide_eq_false_2 by done. by rewrite andb_false_r, H1.
Qed.

Lemma or_default_idemp (v d d' : string) : (d =? "")%string = false -> or_default (or_default v d) d' = or_default v d.
Proof.
  intros Hd. unfold or_default. destruct (String.eqb_spec v "") as [->|Hv]; [by rewrite Hd|].
  by rewrite (proj2 (String.eqb_neq v "")).
Qed.
Lemma legacy_mode_defaults q p : legacy_mode (printer_defaults q (legacy_mode p)) = printer_defaults q (legacy_mode p).
Proof.
  assert (IPPEverywhereMode (printer_defaults q (legacy_mode p)) <> IPPEverywhereRequired) as Hm.
  { cbn. destruct (String.eqb_spec (IPPEverywhereMode p) IPPEverywhereRequired); [by destruct (_ && _)|]. by destruct (_ && _). }
  apply String.eqb_neq in Hm. unfold legacy_mode at 1. by rewrite Hm.
Qed.
Lemma printers_defaults_idemp c :
  Printers (Config_applyDefaults (Config_applyDefaults c)) = Printers (Config_applyDefaults c).
Proof.
  apply map_eq. intros q. cbn. rewrite !map_lookup_imap, !lookup_fmap, map_lookup_imap, lookup_fmap.
  destruct (Printers c !! q) as [p|]; [|done]. cbn. f_equal. by rewrite legacy_mode_defaults, printer_defaults_idemp.
Qed.

(** The defaults are complete: completing a configuration once more changes
    nothing, except that the synchronised sections now count as both given,
    which validation refuses. *)
Theorem defaults_complete c :
  let c1 := Config_applyDefaults c in
  Config_applyDefaults c1 =
    {| Listen := Listen c1; StoragePath := StoragePath c1; Statistics := Statistics c1; Defaults := Defaults c1;
       LimitsAlias := LimitsAlias c1; DNSSDSection := DNSSDSection c1; Printers := Printers c1; limitsAliasConflict := true |} /\
  fst (Validate (Config_applyDefaults c1)) <> Ok tt.
Proof.
  intros c1.
  assert (limitsAliasConflict (Config_applyDefaults c1) = true) as Hc.
  { cbn. rewrite hasValues_defaults. by rewrite orb_true_r. }
  split; [|intros Hv%validate_ok; destruct Hv as (_ & Hc' & _);
    change (limitsAliasConflict (Config_applyDefaults c1) = false) in Hc'; congruence].
  trans {| Listen := Listen (Config_applyDefaults c1); StoragePath := StoragePath (Config_applyDefaults c1);
           Statistics := Statistics (Config_applyDefaults c1); Defaults := Defaults (Config_applyDefaults c1);
           LimitsAlias := Defaults (Config_applyDefaults c1); DNSSDSection := DNSSDSection (Config_applyDefaults c1);
           Printers := Printers (Config_applyDefaults c1); limitsAliasConflict := limitsAliasConflict (Config_applyDefaults c1) |};
    [reflexivity|]. rewrite Hc.
  assert (StoragePath (Config_applyDefaults c1) = StoragePath c1) as Hst by by apply or_default_idemp.
  assert (Defaults (Config_applyDefaults c1) = Defaults c1) as Hd.
  { change (Defaults (Config_applyDefaults c1)) with (DefaultsConfig_applyDefaults
      (if negb (hasValues (Defaults c1)) && hasValues (LimitsAlias c1) then LimitsAlias c1 else Defaults c1)).
    change (LimitsAlias c1) with (Defaults c1). destruct (negb _ && _); apply defaults_idemp. }
  f_equal; try done.
  - unfold c1. cbn. f_equal. by apply or_default_idemp.
  - change (Statistics (Config_applyDefaults c1)) with
      (StatisticsConfig_applyDefaults (StoragePath (Config_applyDefaults c1)) (Statistics c1)).
    rewrite Hst. apply statistics_defaults_idemp.
  - unfold c1. cbn. f_equal. by destruct ((Mode _ =? "")%string && _) eqn:E; [|rewrite E].
  - apply printers_defaults_idemp.
Qed.

(** A configuration with nothing but its public URL and the URI of each printer. *)
Definition bare_printer (uri : string) : PrinterConfig := {|
  UpstreamURI := uri; DisplayName := ""; Location := ""; Optional := false; IPPEverywhereMode := ""; AirPrintMode := "";
  DNSSD := false; GeoLocation := ""; RefreshInterval := 0; RefreshRaw := ""; Policy := no_policy;
  Passthrough := Passthrough no_printer; DNS_SD := false; ippEverywhereModeSet := false; airPrintModeSet := false;
  dnsSDSet := false |}.
Definition bare_config (url : string) (uris : gmap string string) : Config := {|
  Listen := {| Addr := ""; PublicBaseURL := url |}; StoragePath := ""; Statistics := no_statistics;
  Defaults := no_defaults; LimitsAlias := no_defaults;
  DNSSDSection := {| Mode := ""; Hostname := ""; Interface := ""; AllowedAliases := []; modeSet := false |};
  Printers := bare_printer <$> uris; limitsAliasConflict := false |}.

Lemma bare_printer_good name uri u : is_queue_name name -> is_ipp_uri uri u ->
  good_printer name (legacy_mode (printer_defaults name (legacy_mode (bare_printer uri)))).
Proof.
  intros Hn Hu. rewrite legacy_mode_defaults. unfold good_printer.
  split; [done|]. split; [by exists u|]. split; [done|]. split; [apply in_strings_true; reflexivity|].
  split; [apply in_strings_true; reflexivity|]. split; [done|].
  split; [apply (validateKeywordList_ok "preserve_job_attrs"); reflexivity|].
  split; [apply (validateKeywordList_ok "drop_vendor_attrs"); vm_compute; reflexivity|].
  split; [apply validatePolicyMedia_ok; vm_compute; reflexivity|].
  split; [apply validatePolicyKeywords_ok; vm_compute; reflexivity|]. split; [done|]. apply in_strings_true. reflexivity.
Qed.

(** A configuration that leaves out everything but the public URL and the
    URIs of its printers is accepted once its defaults are applied. The only
    condition is that the two default databases are different files. *)
Theorem minimal_accepted url (uris : gmap string string) :
  is_public_uri url -> uris <> ∅ -> map_Forall (fun name uri => is_queue_name name /\ exists u, is_ipp_uri uri u) uris ->
  apart "jobs.db" "jobs.db.stats.sqlite" ->
  fst (Validate (Config_applyDefaults (bare_config url uris))) = Ok tt.
Proof.
  intros Hurl Hne Hall Hap. apply validate_ok. unfold good_config. cbn [Listen].
  split; [done|]. split; [done|]. split; [apply validateDefaults_ok; reflexivity|].
  split; [intros _; by repeat (split; [by cbn|])|]. split; [apply validateDNSSD_ok; reflexivity|]. split.
  - intros He. apply Hne, map_eq. intros q. pose proof (f_equal (.!! q) He) as Hq. cbn in Hq.
    rewrite lookup_fmap, map_lookup_imap, !lookup_fmap in Hq. by destruct (uris !! q).
  - intros q p Hp. cbn in Hp. rewrite lookup_fmap, map_lookup_imap, !lookup_fmap in Hp.
    destruct (uris !! q) as [uri|] eqn:E; [|done]. destruct (Hall q uri E) as [Hn [u Hu]]. cbn in Hp.
    injection Hp as <-. by eapply bare_printer_good.
Qed.
End theorems.

(** ** Loading *)

(** The library decodes the two sections of limits with their own method; a
    missing section is a null node. *)
Class YAMLMethods `{YAML} `{Platform} := {
  decoded_limits node c : decode_config node = Ok c ->
    (exists n, DefaultsConfig_UnmarshalYAML n = Ok (Defaults c)) /\
    (exists n, DefaultsConfig_UnmarshalYAML n = Ok (LimitsAlias c))
}.

Section load.
Context `{I : IPLiterals} `{U : UrlErrors} `{F : FileSystem} `{R : MapRange} `{D : Files} `{M : YAMLMethods}.

Lemma positive_refresh name p : good_refresh (printer_defaults name p) -> 0 < RefreshInterval (printer_defaults name p).
Proof.
  unfold good_refresh. cbn. destruct (String.eqb_spec (RefreshRaw p) "") as [|Hr]; [unfold Minute, Second; lia|].
  intros Hx. destruct (Hx Hr) as (_ & d & Hd & Hpos). rewrite Hd. lia.
Qed.

Lemma synced_limits d : let d1 := DefaultsConfig_applyDefaults d in
  alias d = all_of 0 -> each_limit (Z.ge maxI64) (limits d) -> good_limits (limits (normalizeAliases d1)) ->
  each_limit (fun v => 1 <= v <= maxI64) (limits d1) /\ MaxEnvelopeBytes (limits d1) <= MaxDocumentBytes (limits d1).
Proof.
  intros d1 Ha (M1 & M2 & M3 & M4 & M5). rewrite normalizeAliases_synced by done. intros (G1 & G2 & G3 & G4).
  pose proof (applyDefaults_limits d Ha) as (A1 & A2 & A3 & A4 & A5). fold d1 in A1, A2, A3, A4, A5.
  unfold given_or_default in *. unfold each_limit. unfold maxI64 in *. unfold Hour, Minute, Second in A5.
  repeat match goal with H : _ = (if ?b then _ else _) |- _ => destruct b end; lia.
Qed.

(** C36: A configuration that was loaded is accepted, and its limits are
    positive numbers of [int64], the envelope within the document; every
    printer is refreshed at a positive interval. *)
Theorem loaded_configuration path cfg w :
  LoadWithLogger path = (Ok cfg, w) ->
  good_config cfg /\ each_limit (fun v => 1 <= v <= maxI64) (limits (Defaults cfg)) /\
  MaxEnvelopeBytes (limits (Defaults cfg)) <= MaxDocumentBytes (limits (Defaults cfg)) /\
  map_Forall (fun _ p => 0 < RefreshInterval p) (Printers cfg).
Proof.
  unfold LoadWithLogger. destruct (ReadFile path ≫= Unmarshal) as [doc|e]; [|done].
  destruct (decode_config doc) as [c|e] eqn:Ed; [|done]. destruct (decoded_limits doc c Ed) as [[n1 Hn1] [n2 Hn2]].
  destruct (normalizeLegacyModes c) as [c0 warnings] eqn:En.
  destruct (Validate (Config_applyDefaults c0)) as [[[]|e] c2] eqn:Ev; [|done]. intros [= <- _].
  apply Validate_result in Ev as [-> Hgood]. split; [done|].
  assert (Defaults c0 = Defaults c /\ LimitsAlias c0 = LimitsAlias c) as [E1 E2] by (unfold normalizeLegacyModes in En; by simplify_eq).
  destruct Hgood as (_ & _ & Hl & _ & _ & _ & Hp). split; [|split].
  1, 2: change (Defaults (set_printers (fmap legacy_mode) (Config_applyDefaults c0))) with (DefaultsConfig_applyDefaults
      (if negb (hasValues (Defaults c0)) && hasValues (LimitsAlias c0) then LimitsAlias c0 else Defaults c0)) in *;
    rewrite E1, E2 in *; revert Hl; destruct (_ && _); intros Hl; apply synced_limits in Hl;
    first [apply Hl | by eapply DefaultsConfig_UnmarshalYAML_alias | by eapply DefaultsConfig_UnmarshalYAML_max].
  intros q p Hq. destruct (Hp q p Hq) as (_ & _ & Hr & _). cbn in Hq.
  rewrite lookup_fmap, map_lookup_imap, lookup_fmap in Hq. destruct (Printers c0 !! q) as [p0|]; [|done].
  cbn in Hq. injection Hq as <-. by apply positive_refresh.
Qed.
End load.

(** ** Keys *)

Lemma in_strings_app_false k l l' : in_strings k (l ++ l') = false <-> in_strings k l = false /\ in_strings k l' = false.
Proof. unfold in_strings. by rewrite existsb_app, orb_false_iff. Qed.
Lemma keywords_missing k l : schema_field (objectSchema (keywords l)) k = None <-> in_strings k l = false.
Proof.
  unfold schema_field, in_strings, keywords. cbn. induction l as [|n l IH]; [done|]. cbn. rewrite (String.eqb_sym n).
  by destruct (k =? n)%string.
Qed.

(** A key of the section of limits is reported as unknown exactly when the
    decoder ignores it; and the decoder of the statistics ignores the keys that
    are unknown there. *)
Theorem unknown_keys_ignored `{Y : YAML} `{P : Platform} key :
  (schema_field defaults_schema key = None <-> forall d v, defaults_key d key v = Ok d) /\
  (schema_field statistics_schema key = None -> forall s v, statistics_key s key v = Ok s).
Proof.
  split.
  - unfold defaults_schema. rewrite keywords_missing. split.
    + intros H d v. unfold defaults_key.
      change (in_strings key (["max_envelope_bytes"; "envelope"; "envelope_max_bytes"] ++
        ["max_document_bytes"; "document"; "document_max_bytes"] ++
        ["max_upstream_response_bytes"; "upstream_response"; "upstream_response_max_bytes"] ++
        ["max_concurrent_payload_jobs_per_queue"; "concurrent_payload_jobs_per_queue"] ++
        ["job_retention"; "retention"]) = false) in H.
      rewrite !in_strings_app_false in H. destruct H as (-> & -> & -> & -> & ->). done.
    + intros H. apply not_true_iff_false. rewrite in_strings_true. intros Hin.
      specialize (H no_defaults (mkNode MappingNode "" "" [])). clear -Hin H.
      repeat (apply elem_of_cons in Hin as [->|Hin]; [discriminate H|]). by apply not_elem_of_nil in Hin.
  - unfold statistics_schema. intros H%keywords_missing st v. unfold statistics_key. unfold in_strings in H. cbn [existsb] in H.
    rewrite !orb_false_iff in H. destruct H as (H1 & H2 & H3 & H4 & H5 & H6 & H7 & H8 & H9 & H10 & _).
    by rewrite H1, H2, H3, H4, H5, H6, H7, H8, H9, H10.
Qed.

(** ** Examples *)

#[export, refine] Instance range_in_order : MapRange := {| range A m := map_to_list m |}.
Proof. done. Defined.
Definition example_files : FileSystem := {| Getwd := Ok "/srv"; Stat _ := None |}.
Definition example_errors : UrlErrors := {| parse_error raw := EText ("parse " +:+ Quote raw) |}.
Definition example_uris : gmap string string :=
  {[ "office" := "ipp://printer.local/ipp/print"; "lab" := "ipps://192.0.2.9:631/" ]}.
Definition example_config : Config := Config_applyDefaults (bare_config "ipp://proxy.local:8631/printers/" example_uris).
Definition example_yaml : YAML := {|
  decode_bool _ b := Ok b; decode_string _ s := Ok s; decode_int _ z := Ok z;
  decode_dnssd _ := Err EOF; decode_printer _ := Err EOF; decode_policy _ := Err EOF;
  Unmarshal _ := Ok (mkNode DocumentNode "" "" [example_node]);
  decode_config _ := Ok (bare_config "ipp://proxy.local:8631/printers/" example_uris) |}.
Definition example_disk : Files := {| ReadFile path := if (path =? "proxy.yaml")%string then Ok "..." else Err EOF |}.
#[local] Existing Instances no_ip6 example_files example_errors example_yaml example_disk.
#[local, refine] Instance example_methods : YAMLMethods := {}.
Proof.
  intros n c [= <-]. split; exists (mkNode ScalarNode "!!null" "" []); reflexivity.
Defined.

(** A query or fragment sign at the end of the public URL passes validation, and
    then no queue has a URI. *)
Example trailing_query_sign :
  let c := Config_applyDefaults (bare_config "ipp://proxy.local/printers?" example_uris) in
  let uri := proxyPrinterURI (service_config c) "office" in
  fst (Validate c) = Ok tt /\ uri = "ipp://proxy.local/printers?/office"%string /\ sameTargetURI uri uri = false.
Proof. vm_compute. done. Qed.

(** The first limit [int64] cannot hold is accepted: on one machine it becomes
    negative, on another the greatest number. *)
Example byte_limit_overflow :
  @parseByteLimit amd64 "8388608TiB" = Ok minI64 /\ @parseByteLimit arm64 "8388608TiB" = Ok maxI64.
Proof. vm_compute. done. Qed.

Lemma validate_exactly_witness : Validate example_config = (Ok tt, snd (Validate example_config)).
Proof.
  apply (validate_exactly example_config). split; [reflexivity|]. apply validate_ok. vm_compute. reflexivity.
Defined.

Lemma queues_apart_witness :
  proxyPrinterURI (service_config (snd (Validate example_config))) "office" = "ipp://proxy.local:8631/printers/office"%string /\
  jobIDForPrinterURI (proxyJobURI (proxyPrinterURI (service_config (snd (Validate example_config))) "office") 42)
    (proxyPrinterURI (service_config (snd (Validate example_config))) "lab") = None.
Proof.
  split; [vm_compute; reflexivity|].
  refine (proj2 (queues_apart example_config "office" "lab" 42 _ _ _ _ _)); try (vm_compute; reflexivity).
  - vm_compute. by eexists.
  - vm_compute. by eexists.
  - unfold maxI64. lia.
Defined.

Lemma configured_media_witness :
  exists p, Printers example_config !! "office"%string = Some p /\
    policyMediaNames (settings (Policy p)) = ["iso_a4_210x297mm"%string].
Proof.
  exists (printer_defaults "office" (bare_printer "ipp://printer.local/ipp/print")).
  assert (Printers example_config !! "office"%string =
    Some (printer_defaults "office" (bare_printer "ipp://printer.local/ipp/print"))) as Hp by (vm_compute; reflexivity).
  split; [exact Hp|].
  refine (proj1 (configured_media example_config "office" _ _ Hp)). vm_compute. reflexivity.
Defined.

Lemma minimal_accepted_witness :
  fst (Validate (Config_applyDefaults (bare_config "ipp://proxy.local:8631/printers/" example_uris))) = Ok tt.
Proof.
  apply (minimal_accepted "ipp://proxy.local:8631/printers/" example_uris).
  - apply validatePublicIPPURI_ok. vm_compute. reflexivity.
  - intros H. apply (f_equal (.!! "office"%string)) in H. vm_compute in H. discriminate H.
  - apply map_Forall_insert_2; [|apply map_Forall_singleton];
      (split; [apply validateQueueName_ok|apply validateIPPURI_ok]; vm_compute; reflexivity).
  - exists "/srv/jobs.db"%string, "/srv/jobs.db.stats.sqlite"%string. split; [vm_compute; reflexivity|]. split; [vm_compute; reflexivity|]. by split.
Defined.

Lemma loaded_configuration_witness :
  LoadWithLogger "proxy.yaml" =
    (Ok (snd (Validate example_config)), [UnknownKey "defaults.extra";
       DeprecatedKey "printers.office.passthrough.allow_unknown_attributes"; UnknownKey "printers.office.colour"]) /\
  map_Forall (fun _ p => 0 < RefreshInterval p) (Printers (snd (Validate example_config))).
Proof.
  assert (LoadWithLogger "proxy.yaml" =
    (Ok (snd (Validate example_config)), [UnknownKey "defaults.extra";
       DeprecatedKey "printers.office.passthrough.allow_unknown_attributes"; UnknownKey "printers.office.colour"])) as H
    by (vm_compute; reflexivity).
  split; [exact H|]. exact (proj2 (proj2 (proj2 (loaded_configuration "proxy.yaml" _ _ H)))).
Defined.
