(* ===== verification/DnsSd.v ===== *)
(** * DNS-SD records ([internal/dnssd/records.go])

    The registrations of a queue and their TXT data: what an input must be, how
    TXT data is ordered and made to fit, the subtypes a profile adds, the names
    tried after a collision, and the location record. TXT data is a map, which
    Go visits in any order ([MapRange]). *)

From Stdlib Require Import ZArith Lia Ascii String SpecFloat.
From stdpp Require Import base tactics list strings gmap sorting.
From S2P Require Import Prelude GoString GoError GoUrl MediaCatalog GoTime GoParse Configuration.

Definition DefaultCollisionRetries : Z := 3.

Record PublicationProfiles := { Ordinary : bool; AirPrint : bool; IPPEverywhere : bool }.
Definition no_profiles : PublicationProfiles := {| Ordinary := false; AirPrint := false; IPPEverywhere := false |}.

Abbreviation TXT_data := (gmap string string).

Record ServiceInput := {
  iName : string;
  iHostname : string;
  iPort : Z;
  iIPPS : bool;
  iInterface : string;
  iTXT : TXT_data;
  iGeoLocation : string;
  iProfiles : PublicationProfiles;
  iProfilesSet : bool;
  iMaxCollisionRetries : Z
}.

Record ServiceRecord := {
  rName : string;
  rHostname : string;
  rPort : Z;
  rType : string;
  rSubtype : string;
  rTXT : TXT_data;
  rGeoLocation : string
}.
#[export] Instance PublicationProfiles_eq_dec : EqDecision PublicationProfiles.
Proof. solve_decision. Defined.
#[export] Instance ServiceRecord_eq_dec : EqDecision ServiceRecord.
Proof. solve_decision. Defined.

Definition FullType (r : ServiceRecord) : string :=
  if (rSubtype r =? "")%string then rType r else rSubtype r +:+ "._sub." +:+ TrimPrefix (rType r) ".".

(** Two registrations that differ at most in their TXT data. *)
Definition same_structure (l r : ServiceRecord) : bool :=
  (rName l =? rName r)%string && (rHostname l =? rHostname r)%string && (rPort l =? rPort r) &&
  (rType l =? rType r)%string && (rSubtype l =? rSubtype r)%string && (rGeoLocation l =? rGeoLocation r)%string.
Fixpoint samePublicationStructure (ls rs : list ServiceRecord) : bool :=
  match ls, rs with
  | [], [] => true
  | l :: ls, r :: rs => same_structure l r && samePublicationStructure ls rs
  | _, _ => false
  end.

(** ** The order of TXT data *)

Definition maxTXTEntryBytes : Z := 255.
Definition maxTXTDataBytes : Z := 1300.
Definition maxRPBytes : Z := 400.

Definition txtKeyOrder : list string :=
  ["rp"; "txtvers"; "qtotal"; "priority"; "note"; "air"; "tls"; "adminurl"; "uuid"; "duuid"; "ty"; "color"; "duplex";
   "copies"; "collate"; "papermax"; "papercustom"; "bind"; "punch"; "sort"; "staple"; "product"; "pdl"; "urf"].

(** The place of a key among the preferred ones, or their number. *)
Fixpoint index_of (key : string) (l : list string) : Z :=
  match l with [] => 0 | k :: r => if (key =? k)%string then 0 else 1 + index_of key r end.
Definition txtKeyPriority (key : string) : Z := index_of (ToLower key) txtKeyOrder.

(** The comparison of [TXTEntries]. *)
Definition txt_less (a b : string) : bool :=
  if negb (txtKeyPriority a =? txtKeyPriority b) then txtKeyPriority a <? txtKeyPriority b
  else if negb (ToLower a =? ToLower b)%string then String.ltb (ToLower a) (ToLower b)
  else String.ltb a b.
Definition txt_le (a b : string) : Prop := txt_less b a = false.
#[export] Instance txt_le_dec : RelDecision txt_le.
Proof. intros a b. unfold txt_le. apply _. Defined.

Definition txt_keys (txt : TXT_data) : list string := (map_to_list txt).*1.
(** [sort.Slice] with a comparison that tells any two keys apart: the order of
    the iteration of the map does not matter. *)
Definition TXTEntries (txt : TXT_data) : list string :=
  (fun key => key +:+ "=" +:+ default "" (txt !! key)) <$> merge_sort txt_le (txt_keys txt).

(** ** Limits *)

Definition zslen (s : string) : Z := Z.of_nat (slen s).

(** The loop over the entries: their total size, and the end of the first [rp]
    entry. *)
Fixpoint entry_sizes (total rpEnd : Z) (entries : list string) : res goerr (Z * Z) :=
  match entries with
  | [] => Ok (total, rpEnd)
  | entry :: r =>
      let entryBytes := zslen entry in
      if maxTXTEntryBytes <? entryBytes then Err (EText ("TXT entry exceeds " +:+ Itoa maxTXTEntryBytes +:+ " bytes")) else
      let total := total + (1 + entryBytes) in
      entry_sizes total (if HasPrefix (ToLower entry) "rp=" && (rpEnd =? 0) then total else rpEnd) r
  end.
Definition validateTXTEntryLimits (entries : list string) : res goerr unit :=
  '(total, rpEnd) ← entry_sizes 0 0 entries;
  _ ← ensure (total <=? maxTXTDataBytes) (EText ("TXT data exceeds " +:+ Itoa maxTXTDataBytes +:+ " bytes"));
  ensure (rpEnd <=? maxRPBytes) (EText ("TXT rp entry must occur within the first " +:+ Itoa maxRPBytes +:+ " bytes")).
Definition validateTXTSize (txt : TXT_data) : res goerr unit := validateTXTEntryLimits (TXTEntries txt).

Definition hasFold (txt : TXT_data) (wanted : string) : bool :=
  existsb (fun key => EqualFold key wanted) (txt_keys txt).
Definition deleteFold (txt : TXT_data) (wanted : string) : TXT_data :=
  filter (fun '(key, _) => EqualFold key wanted = false) txt.

Definition isTXTProfileEssential (key : string) (profiles : PublicationProfiles) : bool :=
  let key := ToLower (TrimSpace key) in
  if in_strings key ["rp"; "txtvers"; "qtotal"] then true
  else if in_strings key ["ty"; "uuid"; "pdl"] then AirPrint profiles || IPPEverywhere profiles
  else if (key =? "urf")%string then AirPrint profiles
  else false.

(** The comparison of [optionalTXTKey]: the least wanted key first. *)
Definition optional_less (a b : string) : bool :=
  if negb (txtKeyPriority a =? txtKeyPriority b) then txtKeyPriority b <? txtKeyPriority a
  else String.ltb (ToLower b) (ToLower a).
Fixpoint first_of (less : string -> string -> bool) (best : string) (l : list string) : string :=
  match l with [] => best | x :: r => first_of less (if less x best then x else best) r end.

Section txt.
Context `{R : MapRange}.

(** The first key after sorting; keys that differ in case only are equal to the
    comparison, and the first the iteration gives is taken. *)
Definition optionalTXTKey (txt : TXT_data) (profiles : PublicationProfiles) : string :=
  match List.filter (fun key => negb (isTXTProfileEssential key profiles)) (range txt).*1 with
  | [] => ""
  | key :: r => first_of optional_less key r
  end.

Definition fitProfilesForTXT (txt : TXT_data) (p : PublicationProfiles) : PublicationProfiles :=
  let p := if AirPrint p && negb (hasFold txt "urf")
           then {| Ordinary := Ordinary p; AirPrint := false; IPPEverywhere := IPPEverywhere p |} else p in
  if (AirPrint p || IPPEverywhere p) && negb (hasFold txt "pdl")
  then {| Ordinary := Ordinary p; AirPrint := false; IPPEverywhere := false |} else p.

(** The loop of [fitProfileTXT]: each turn ends it, removes a key or withdraws a
    profile ([fit_loop_fuel]). *)
Fixpoint fit_loop (fuel : nat) (txt : TXT_data) (p : PublicationProfiles) : res goerr (TXT_data * PublicationProfiles) :=
  match validateTXTEntryLimits (TXTEntries txt) with
  | Ok _ => Ok (txt, p)
  | Err err =>
      match fuel with
      | O => Err err
      | Datatypes.S fuel =>
          if Contains (Error_text err) "rp entry" then Err err else
          let optional := optionalTXTKey txt p in
          if (optional =? "")%string then
            if AirPrint p && hasFold txt "urf" then
              fit_loop fuel (deleteFold txt "urf")
                {| Ordinary := Ordinary p; AirPrint := false; IPPEverywhere := IPPEverywhere p |}
            else if IPPEverywhere p && hasFold txt "pdl" then
              fit_loop fuel (deleteFold txt "pdl") {| Ordinary := Ordinary p; AirPrint := false; IPPEverywhere := false |}
            else Err err
          else fit_loop fuel (deleteFold txt optional) p
      end
  end.
Definition fitProfileTXT (input : TXT_data) (p : PublicationProfiles) : res goerr (TXT_data * PublicationProfiles) :=
  let txt := if negb (AirPrint p) then deleteFold input "urf" else input in
  fit_loop (base.size txt) txt (fitProfilesForTXT txt p).
End txt.

(** ** Locations *)

Definition parse_coordinate (raw : string) : res goerr float64 :=
  match ParseFloat (TrimSpace raw) with
  | Some value => if not_finite value then Err (EText "coordinates must be finite numbers") else Ok value
  | None => Err (EText "coordinates must be finite numbers")
  end.

Definition parseGeoLocation (raw : string) : res goerr (float64 * float64 * float64) :=
  let value := TrimSpace raw in
  if negb (value =? raw)%string || negb (HasPrefix (ToLower value) "geo:")
  then Err (EText "must be a geo URI (geo:latitude,longitude[,altitude])") else
  let '(head, tail, found) := cut ";" (sdrop 4 value) in
  let number bound text message :=
    match parse_coordinate text with
    | Ok x => if outside x bound then Err (EText message) else Ok x
    | Err _ => Err (EText message)
    end in
  match Split head "," with
  | c0 :: c1 :: more =>
      _ ← ensure (match more with [] | [_] => true | _ => false end) (EText "must contain latitude and longitude");
      lat ← number 90 c0 "latitude must be between -90 and 90";
      lon ← number 180 c1 "longitude must be between -180 and 180";
      altitude ← match more with
                 | [c2] => match parse_coordinate c2 with
                           | Ok x => Ok x | Err _ => Err (EText "altitude must be a finite number") end
                 | _ => Ok (S754_zero false)
                 end;
      _ ← (if found then
             _ ← ensure (HasPrefix tail "u=") (EText "uncertainty parameter must use u=");
             ensure (match parse_coordinate (sdrop 2 tail) with
                     | Ok u => negb (flt u (float64_of_Z 0)) | Err _ => false end)
               (EText "uncertainty must be non-negative")
           else Ok tt);
      Ok (lat, lon, altitude)
  | _ => Err (EText "must contain latitude and longitude")
  end.

(** The greatest altitude of a location record, in metres. *)
Definition max_altitude : float64 := fdiv (float64_of_Z 4284967295) (float64_of_Z 100).

(** [uint32(math.Round((x + offset) * scale))] *)
Definition fixed_point (x : float64) (offset scale : Z) : Z :=
  u32 (Round (fmul (fadd x (float64_of_Z offset)) (float64_of_Z scale))).
Definition EncodeLOC (raw : string) : res goerr (list Byte.byte) :=
  '(lat, lon, altitude) ← parseGeoLocation raw;
  if flt altitude (float64_of_Z (-100000)) || flt max_altitude altitude
  then Err (EText "altitude is outside the LOC range")
  else Ok ((Zbyte <$> [0x00; 0x12; 0x16; 0x13]) ++ be32 (fixed_point lat 90 3600000) ++
           be32 (fixed_point lon 180 3600000) ++ be32 (fixed_point altitude 100000 100)).

(** ** Input and records *)

Definition has_control (s : string) : bool := ContainsFunc s is_control.

Section records.
Context `{R : MapRange}.

Definition check_input (input : ServiceInput) : res goerr unit :=
  _ ← ensure (negb (iName input =? "")%string) (EText "service name is required");
  _ ← ensure (zslen (iName input) <=? 63) (EText "service name must not exceed 63 bytes");
  _ ← ensure (negb (has_control (iName input))) (EText "service name must not contain control characters");
  _ ← ensure (negb (iPort input =? 0)) (EText "service port must be positive");
  _ ← ensure (0 <=? iMaxCollisionRetries input) (EText "max collision retries must not be negative");
  if (iGeoLocation input =? "")%string then Ok tt
  else _ ← wrapped "geo location: " (EncodeLOC (iGeoLocation input)); Ok tt.

Definition too_long (key value : string) : bool := (255 <? zslen key) || (255 <? zslen key + 1 + zslen value).
(** The checks of one entry; [strict key] is whether its size is checked too. *)
Definition check_entry (strict : string -> bool) (key value : string) : res goerr unit :=
  _ ← ensure (negb ((key =? "")%string || ContainsChar key "=")) (EText ("TXT key " +:+ Quote key +:+ " is invalid"));
  _ ← ensure (negb (too_long key value && strict key)) (EText ("TXT entry " +:+ Quote key +:+ " exceeds 255 bytes"));
  ensure (negb (has_control key || has_control value)) (EText ("TXT entry " +:+ Quote key +:+ " contains a control character")).
Definition essential_size (key : string) : bool :=
  EqualFold key "rp" || EqualFold key "txtvers" || EqualFold key "qtotal".

Definition validateServiceInputBasic (input : ServiceInput) : res goerr unit :=
  _ ← check_input input;
  each (fun _ '(key, value) => check_entry essential_size key value) 0 (range (iTXT input)).
Definition validateServiceInput (input : ServiceInput) : res goerr unit :=
  _ ← check_input input;
  _ ← each (fun _ '(key, value) => check_entry (fun _ => true) key value) 0 (range (iTXT input));
  validateTXTSize (iTXT input).

(** A registration of the input. *)
Definition record_of (input : ServiceInput) (port : Z) (type subtype : string) (txt : TXT_data) (geo : string) : ServiceRecord := {|
  rName := iName input; rHostname := iHostname input; rPort := port; rType := type; rSubtype := subtype;
  rTXT := txt; rGeoLocation := geo |}.

Definition BuildRecords (input : ServiceInput) : res goerr (list ServiceRecord) :=
  _ ← validateServiceInput input;
  let record := record_of input (iPort input) in
  Ok ([record "_ipp._tcp" "" (iTXT input) (iGeoLocation input); record "_ipp._tcp" "_print" ∅ "";
       record "_ipp._tcp" "_universal" ∅ ""; record_of input 0 "_printer._tcp" "" ∅ ""] ++
      (if iIPPS input then
         [record "_ipps._tcp" "" (iTXT input) ""; record "_ipps._tcp" "_print" ∅ ""; record "_ipps._tcp" "_universal" ∅ ""]
       else [])).

Definition BuildRecordsForProfiles (input : ServiceInput) (profiles : PublicationProfiles) : res goerr (list ServiceRecord) :=
  _ ← validateServiceInputBasic input;
  if negb (Ordinary profiles) then Ok [] else
  '(txt, effective) ← fitProfileTXT (iTXT input) profiles;
  let record := record_of input (iPort input) in
  Ok ([record "_ipp._tcp" "" txt (iGeoLocation input)] ++
      (if IPPEverywhere effective then [record "_ipp._tcp" "_print" ∅ ""] else []) ++
      (if AirPrint effective then [record "_ipp._tcp" "_universal" ∅ ""] else []) ++
      [record_of input 0 "_printer._tcp" "" ∅ ""]).
End records.

(** One record of [publicationProfilesForRecords]. *)
Definition add_profile (p : PublicationProfiles) (r : ServiceRecord) : PublicationProfiles :=
  if negb (rType r =? "_ipp._tcp")%string then p
  else if (rSubtype r =? "")%string then {| Ordinary := true; AirPrint := AirPrint p; IPPEverywhere := IPPEverywhere p |}
  else if (rSubtype r =? "_print")%string then {| Ordinary := Ordinary p; AirPrint := AirPrint p; IPPEverywhere := true |}
  else if (rSubtype r =? "_universal")%string then {| Ordinary := Ordinary p; AirPrint := true; IPPEverywhere := IPPEverywhere p |}
  else p.
Definition publicationProfilesForRecords (records : list ServiceRecord) : PublicationProfiles :=
  fold_left add_profile records no_profiles.

(** ** Names *)

Definition AlternateServiceName (name : string) (attempt : Z) : string :=
  if attempt <=? 0 then name else name +:+ " (" +:+ Itoa (attempt + 1) +:+ ")".
Definition CollisionNames (name : string) (maxAttempts : Z) : list string :=
  (fun k => AlternateServiceName name (Z.of_nat k)) <$> seq 0 (Z.to_nat maxAttempts).
