(* ===== verification/DnsSdTheorems.v ===== *)
(** * Correctness of the DNS-SD records

    What is published of a queue: TXT data that respects the limits of DNS-SD
    and keeps what clients need, exactly the subtypes whose data it carries, and
    the same on every run; which locations are accepted; and the names tried. *)

From Stdlib Require Import ZArith Lia Ascii String SpecFloat.
From stdpp Require Import base tactics list strings gmap sorting.
From S2P Require Import Prelude GoString GoError GoUrl MediaCatalog UriTheorems GoTime GoParse Configuration.
From S2P Require Import ConfigurationProofs DnsSd.

(** ** The order of texts *)

Lemma string_ltb_lt s t : String.ltb s t = true <-> String.compare s t = Lt.
Proof. unfold String.ltb. destruct (String.compare s t); naive_solver. Qed.
Lemma text_compare_refl s : String.compare s s = Eq.
Proof. induction s as [|c s IH]; [done|]. cbn. unfold Ascii.compare. by rewrite N.compare_refl. Qed.
Lemma string_ltb_irrefl s : String.ltb s s = false.
Proof. unfold String.ltb. by rewrite text_compare_refl. Qed.
Lemma string_ltb_trichotomy s t : String.ltb s t = false -> String.ltb t s = false -> s = t.
Proof.
  unfold String.ltb. rewrite (String.compare_antisym t s). destruct (String.compare s t) eqn:E; try done.
  intros _ _. by apply String.compare_eq_iff.
Qed.
Lemma string_compare_trans s t u : String.compare s t = Lt -> String.compare t u = Lt -> String.compare s u = Lt.
Proof.
  revert t u. induction s as [|a s IH]; intros [|b t] [|c u]; try done. cbn [String.compare].
  unfold Ascii.compare. destruct (N.compare_spec (N_of_ascii a) (N_of_ascii b)) as [E1|E1|E1]; try done;
    destruct (N.compare_spec (N_of_ascii b) (N_of_ascii c)) as [E2|E2|E2]; try done; intros H1 H2.
  - rewrite E1, E2, N.compare_refl. by eapply IH.
  - rewrite E1. by rewrite (proj2 (N.compare_lt_iff _ _)).
  - rewrite <- E2. by rewrite (proj2 (N.compare_lt_iff _ _)).
  - rewrite (proj2 (N.compare_lt_iff _ _)); [done|]. by etrans.
Qed.
Lemma string_ltb_trans s t u : String.ltb s t = true -> String.ltb t u = true -> String.ltb s u = true.
Proof. rewrite !string_ltb_lt. apply string_compare_trans. Qed.
Lemma string_ltb_asym s t : String.ltb s t = true -> String.ltb t s = false.
Proof.
  intros H. apply not_true_iff_false. intros H'. pose proof (string_ltb_trans _ _ _ H H') as Hs.
  by rewrite string_ltb_irrefl in Hs.
Qed.

(** ** The order of TXT data *)

#[export] Instance txt_le_total : Total txt_le.
Proof.
  intros a b. unfold txt_le, txt_less. rewrite (Z.eqb_sym (txtKeyPriority b)), (String.eqb_sym (ToLower b)).
  destruct (Z.eqb_spec (txtKeyPriority a) (txtKeyPriority b)) as [->|Hp]; cbn [negb].
  - destruct (ToLower a =? ToLower b)%string; cbn [negb].
    + destruct (String.ltb b a) eqn:E; [right; by apply string_ltb_asym|by left].
    + destruct (String.ltb (ToLower b) (ToLower a)) eqn:E; [right; by apply string_ltb_asym|by left].
  - destruct (Z.ltb_spec (txtKeyPriority b) (txtKeyPriority a)); [right; apply Z.ltb_ge; lia|by left].
Qed.

Lemma txt_le_priority a b : txt_le a b -> txtKeyPriority a <= txtKeyPriority b.
Proof.
  unfold txt_le, txt_less. destruct (Z.eqb_spec (txtKeyPriority b) (txtKeyPriority a)) as [->|]; [lia|]. cbn [negb].
  by intros ?%Z.ltb_ge.
Qed.
(** The keys of the entries, in order: those of the map, the preferred first. *)
Lemma entry_keys_perm txt : merge_sort txt_le (txt_keys txt) ≡ₚ txt_keys txt.
Proof. apply merge_sort_Permutation. Qed.
Lemma Sorted_weaken {A} (R Q : relation A) l : (forall a b, R a b -> Q a b) -> Sorted R l -> Sorted Q l.
Proof. intros H. induction 1 as [|a l _ IH Hd]; constructor; [done|]. destruct Hd; constructor. by apply H. Qed.
Lemma entry_keys_sorted txt :
  StronglySorted (fun a b => txtKeyPriority a <= txtKeyPriority b) (merge_sort txt_le (txt_keys txt)).
Proof.
  apply Sorted_StronglySorted; [intros a b c; lia|].
  eapply Sorted_weaken; [|apply Sorted_merge_sort; apply _]. intros a b. apply txt_le_priority.
Qed.
Lemma elem_of_txt_keys txt k : k ∈ txt_keys txt <-> is_Some (txt !! k).
Proof.
  unfold txt_keys. rewrite list_elem_of_fmap. split.
  - intros ([k' v] & -> & H). apply elem_of_map_to_list in H. by exists v.
  - intros [v H]. exists (k, v). split; [done|]. by apply elem_of_map_to_list.
Qed.

(** ** Limits *)

(** The number of bytes of TXT data. *)
Definition txt_bytes (entries : list string) : Z := foldr (fun e n => 1 + zslen e + n) 0 entries.

Lemma zslen_nonneg s : 0 <= zslen s.
Proof. unfold zslen. lia. Qed.
Lemma zslen_app s t : zslen (s +:+ t) = zslen s + zslen t.
Proof.
  unfold zslen, slen. induction s as [|c s IH]; [done|]. rewrite sapp_cons. cbn [String.length]. lia.
Qed.

Lemma entry_sizes_ok entries total rpEnd total' rpEnd' :
  entry_sizes total rpEnd entries = Ok (total', rpEnd') ->
  Forall (fun e => zslen e <= maxTXTEntryBytes) entries /\ total' = total + txt_bytes entries.
Proof.
  revert total rpEnd. induction entries as [|e r IH]; intros total rpEnd; cbn [entry_sizes txt_bytes foldr].
  - intros [= <- <-]. split; [done|lia].
  - destruct (Z.ltb_spec maxTXTEntryBytes (zslen e)); [done|]. intros [HF Ht]%IH. split; [by constructor|].
    unfold txt_bytes in Ht. lia.
Qed.
Lemma entry_sizes_total entries total rpEnd : Forall (fun e => zslen e <= maxTXTEntryBytes) entries ->
  exists rpEnd', entry_sizes total rpEnd entries = Ok (total + txt_bytes entries, rpEnd').
Proof.
  intros HF. revert total rpEnd. induction HF as [|e r He _ IH]; intros total rpEnd; cbn [entry_sizes txt_bytes foldr].
  - exists rpEnd. by rewrite Z.add_0_r.
  - rewrite (proj2 (Z.ltb_ge _ _)) by done.
    match goal with |- exists x, entry_sizes ?t ?p r = _ => destruct (IH t p) as [q ->] end. exists q.
    f_equal. f_equal. unfold txt_bytes. lia.
Qed.

(** The end of the first [rp] entry when no such entry comes after the first. *)
Lemma entry_sizes_rp entries total rpEnd total' rpEnd' : 0 <= total ->
  entry_sizes total rpEnd entries = Ok (total', rpEnd') ->
  (rpEnd <> 0 -> rpEnd' = rpEnd) /\
  (rpEnd = 0 -> Forall (fun e => HasPrefix (ToLower e) "rp=" = false) entries -> rpEnd' = 0).
Proof.
  revert total rpEnd. induction entries as [|e r IH]; intros total rpEnd Ht; cbn [entry_sizes]; [by intros [= _ <-]|].
  destruct (Z.ltb_spec maxTXTEntryBytes (zslen e)); [done|]. pose proof (zslen_nonneg e). intros Hr. apply IH in Hr as [H1 H2]; [|lia]. split.
  - intros Hne. rewrite (proj2 (Z.eqb_neq rpEnd 0)) in H1, H2 by done. rewrite andb_false_r in *. by apply H1.
  - intros -> HF. apply Forall_cons in HF as [He HF]. rewrite He in *. cbn in *. by apply H2.
Qed.

Lemma ToLower_app s t : ToLower (s +:+ t) = ToLower s +:+ ToLower t.
Proof. unfold ToLower. induction s as [|c s IH]; [done|]. rewrite !sapp_cons. cbn [smap]. by rewrite IH, sapp_cons. Qed.

(** A key is never cut by its entry when it has no equals sign. *)
Lemma entry_prefix key v : ContainsChar key "=" = false ->
  HasPrefix (ToLower (key +:+ "=" +:+ v)) "rp=" = (ToLower key =? "rp")%string.
Proof.
  intros Hk. rewrite !ToLower_app. change (ToLower "=") with "="%string.
  assert (without "=" (ToLower key) = true) as Hw.
  { unfold ContainsChar in Hk. rewrite ContainsFunc_sall in Hk. apply negb_false_iff in Hk. revert Hk. unfold without, ToLower.
    induction key as [|c key IH]; [done|]. cbn. intros [Hc Hk]%andb_true_iff. rewrite IH by done. rewrite andb_true_r.
    destruct c as [[] [] [] [] [] [] [] []]; try done. }
  destruct (String.eqb_spec (ToLower key) "rp") as [->|Hne]; [exact (prefix_app "rp=" (ToLower v))|].
  apply not_true_iff_false. intros Hp. apply prefix_split in Hp as [r Hr]. apply Hne.
  assert (cut "=" (ToLower key +:+ "=" +:+ ToLower v) = cut "=" ("rp" +:+ "=" +:+ r)) as Hc by (f_equal; exact Hr).
  change ("=" +:+ ToLower v) with (String "=" (ToLower v)) in Hc. change ("=" +:+ r) with (String "=" r) in Hc.
  rewrite !cut_found in Hc by done. by injection Hc.
Qed.

(** TXT data within the limits of DNS-SD. *)
Definition fits (txt : TXT_data) : Prop :=
  Forall (fun e => zslen e <= maxTXTEntryBytes) (TXTEntries txt) /\ txt_bytes (TXTEntries txt) <= maxTXTDataBytes.
(** Keys an entry can be split at. *)
Definition plain_keys (txt : TXT_data) : Prop := forall k, is_Some (txt !! k) -> ContainsChar k "=" = false.

Lemma priority_zero k : txtKeyPriority k = 0 <-> ToLower k = "rp"%string.
Proof.
  unfold txtKeyPriority, txtKeyOrder. cbn [index_of]. destruct (String.eqb_spec (ToLower k) "rp") as [->|Hne]; [done|].
  assert (forall l, 0 <= index_of (ToLower k) l) as H0.
  { induction l as [|x l IH]; cbn [index_of]; [lia|]. destruct (_ =? x)%string; lia. }
  split; [|done]. intros H. specialize (H0 (tl txtKeyOrder)). cbn [tl txtKeyOrder index_of] in H0. lia.
Qed.

(** The [rp] entries come first, so the first of them always ends early enough. *)
Lemma rp_ends_early txt total rpEnd : plain_keys txt -> entry_sizes 0 0 (TXTEntries txt) = Ok (total, rpEnd) -> rpEnd <= 256.
Proof.
  intros Hk. unfold TXTEntries. pose proof (entry_keys_sorted txt) as Hs.
  assert (Forall (fun k => ContainsChar k "=" = false) (merge_sort txt_le (txt_keys txt))) as Hp.
  { apply Forall_forall. intros k. rewrite entry_keys_perm, elem_of_txt_keys. apply Hk. }
  destruct (merge_sort txt_le (txt_keys txt)) as [|k l]; cbn [fmap list_fmap entry_sizes]; [intros [= _ <-]; lia|].
  apply Forall_cons in Hp as [Hp0 Hp]. inversion_clear Hs as [|? ? _ Hmin]. set (e := k +:+ "=" +:+ default "" (txt !! k)).
  destruct (Z.ltb_spec maxTXTEntryBytes (zslen e)); [done|]. unfold maxTXTEntryBytes in *. pose proof (zslen_nonneg e).
  pose proof (entry_prefix k (default "" (txt !! k)) Hp0) as Hpre. fold e in Hpre. rewrite Hpre. intros Hr. apply entry_sizes_rp in Hr as [H1 H2]; [|lia].
  destruct (String.eqb_spec (ToLower k) "rp") as [Hrp|Hrp]; cbn [andb Z.eqb] in *; [rewrite H1; lia|].
  rewrite H2; [lia|done|]. apply Forall_fmap, Forall_forall. intros k' Hk'. unfold compose.
  rewrite entry_prefix by (by eapply Forall_forall in Hp). apply String.eqb_neq. intros Hrp'.
  eapply Forall_forall in Hmin; [|exact Hk']. cbv beta in Hmin.
  apply priority_zero in Hrp'. apply Hrp, priority_zero. rewrite Hrp' in Hmin. revert Hmin. unfold txtKeyPriority.
  assert (0 <= index_of (ToLower k) txtKeyOrder); [|lia]. generalize txtKeyOrder. intros order.
  induction order as [|x order IH]; cbn [index_of]; [lia|]. destruct (_ =? x)%string; lia.
Qed.

Lemma entry_sizes_error entries total rpEnd e : entry_sizes total rpEnd entries = Err e ->
  Error_text e = "TXT entry exceeds 255 bytes"%string.
Proof.
  revert total rpEnd. induction entries as [|x r IH]; intros total rpEnd; cbn [entry_sizes]; [done|].
  destruct (_ <? zslen x); [by intros [= <-]|]. apply IH.
Qed.

(** The limits that matter, and the texts of the errors: never the one about [rp]. *)
Lemma limits_ok txt : plain_keys txt ->
  (validateTXTEntryLimits (TXTEntries txt) = Ok tt <-> fits txt) /\
  (forall e, validateTXTEntryLimits (TXTEntries txt) = Err e -> Contains (Error_text e) "rp entry" = false /\ ~ fits txt).
Proof.
  intros Hk. unfold validateTXTEntryLimits, fits. destruct (entry_sizes 0 0 (TXTEntries txt)) as [[total rpEnd]|e] eqn:E; cbn.
  - pose proof (rp_ends_early _ _ _ Hk E) as Hrp. apply entry_sizes_ok in E as [HF Ht]. rewrite Z.add_0_l in Ht. subst total.
    unfold ensure. rewrite (proj2 (Z.leb_le rpEnd maxRPBytes)) by (unfold maxRPBytes; lia).
    destruct (Z.leb_spec (txt_bytes (TXTEntries txt)) maxTXTDataBytes); cbn; [naive_solver|].
    split; [split; [done|]; intros [_ ?]; lia|]. intros e [= <-]. split; [reflexivity|]. intros [_ ?]. lia.
  - assert (~ Forall (fun e => zslen e <= maxTXTEntryBytes) (TXTEntries txt)) as HF.
    { intros HF. destruct (entry_sizes_total _ 0 0 HF) as [q Hq]. congruence. }
    split; [naive_solver|]. intros e' [= <-]. split; [|tauto]. by rewrite (entry_sizes_error _ _ _ _ E).
Qed.

(** ** Names up to case *)

Lemma ToLower_trim_left s : ToLower (trim_left_by is_space s) = trim_left_by is_space (ToLower s).
Proof.
  unfold ToLower. induction s as [|c s IH]; [done|]. cbn.
  assert (is_space (lower_char c) = is_space c) as -> by (by destruct c as [[] [] [] [] [] [] [] []]). by destruct (is_space c).
Qed.
Lemma ToLower_trim_right s : ToLower (trim_right_by is_space s) = trim_right_by is_space (ToLower s).
Proof.
  unfold ToLower. induction s as [|c s IH]; [done|]. cbn. rewrite <- IH.
  assert (is_space (lower_char c) = is_space c) as -> by (by destruct c as [[] [] [] [] [] [] [] []]).
  destruct (trim_right_by is_space s); cbn; by destruct (is_space c).
Qed.
Lemma ToLower_TrimSpace s : ToLower (TrimSpace s) = TrimSpace (ToLower s).
Proof. unfold TrimSpace. by rewrite ToLower_trim_right, ToLower_trim_left. Qed.

#[export] Instance essential_proper : Proper (name_eq ==> eq ==> eq) isTXTProfileEssential.
Proof. intros k k' Hk p _ <-. unfold isTXTProfileEssential. rewrite !ToLower_TrimSpace. unfold name_eq in Hk. by rewrite Hk. Qed.

Lemma hasFold_true txt w : hasFold txt w = true <-> exists k, is_Some (txt !! k) /\ name_eq k w.
Proof.
  unfold hasFold. rewrite existsb_exists. setoid_rewrite EqualFold_true. setoid_rewrite <- elem_of_txt_keys.
  setoid_rewrite list_elem_of_In. done.
Qed.
Lemma lookup_deleteFold txt w k : deleteFold txt w !! k = if EqualFold k w then None else txt !! k.
Proof.
  unfold deleteFold. rewrite map_lookup_filter. destruct (txt !! k); cbn; [|by destruct (EqualFold k w)].
  by destruct (EqualFold k w) eqn:E; rewrite ?E.
Qed.
Lemma deleteFold_subseteq txt w : deleteFold txt w ⊆ txt.
Proof. apply map_filter_subseteq. Qed.
Lemma deleteFold_size txt w : hasFold txt w = true -> (base.size (deleteFold txt w) < base.size txt)%nat.
Proof.
  intros (k & [v Hv] & Hk)%hasFold_true. apply map_subset_size. apply map_subset_alt. split; [apply deleteFold_subseteq|].
  exists k. split; [|by exists v]. rewrite lookup_deleteFold. by apply EqualFold_true in Hk as ->.
Qed.
Lemma plain_keys_subseteq txt txt' : txt' ⊆ txt -> plain_keys txt -> plain_keys txt'.
Proof. intros Hs H k [v Hv]. apply H. exists v. by eapply lookup_weaken. Qed.

(** ** The least wanted key *)

Lemma optional_less_spec a b : optional_less a b = true <->
  txtKeyPriority b < txtKeyPriority a \/
  (txtKeyPriority a = txtKeyPriority b /\ String.ltb (ToLower b) (ToLower a) = true).
Proof.
  unfold optional_less. destruct (Z.eqb_spec (txtKeyPriority a) (txtKeyPriority b)) as [E|E]; cbn [negb]; [|rewrite Z.ltb_lt]; lia || tauto || idtac.
  split; [tauto|]. intros [?|[_ ?]]; [lia|done].
Qed.
Lemma optional_less_trans a b c : optional_less a b = true -> optional_less b c = true -> optional_less a c = true.
Proof.
  rewrite !optional_less_spec. intros [H1|[H1 H2]] [H3|[H3 H4]]; [left; lia..|]. right. split; [lia|]. by eapply string_ltb_trans.
Qed.
(** A key that is before another is before or behind any third. *)
Lemma optional_less_split a b c : optional_less a c = true -> optional_less a b = true \/ optional_less b c = true.
Proof.
  rewrite !optional_less_spec. intros [H|[H1 H2]].
  - destruct (Z.lt_trichotomy (txtKeyPriority b) (txtKeyPriority a)) as [?|[?|?]]; [by left; left|right; left; lia|right; left; lia].
  - destruct (Z.lt_trichotomy (txtKeyPriority b) (txtKeyPriority a)) as [?|[E|?]]; [by left; left| |right; left; lia].
    destruct (String.ltb (ToLower b) (ToLower a)) eqn:E1; [left; right; split; [lia|done]|].
    right. right. split; [lia|]. destruct (String.ltb (ToLower a) (ToLower b)) eqn:E2; [by eapply string_ltb_trans|].
    by rewrite (string_ltb_trichotomy _ _ E1 E2).
Qed.

Lemma first_of_spec best l : let m := first_of optional_less best l in
  m ∈ best :: l /\ forall x, x ∈ best :: l -> optional_less x m = false.
Proof.
  revert best. induction l as [|x l IH]; intros best; cbn [first_of].
  { split; [by left|]. intros x ->%list_elem_of_singleton. apply not_true_iff_false. rewrite optional_less_spec, string_ltb_irrefl. lia. }
  destruct (IH (if optional_less x best then x else best)) as [Hin Hmax]. set (m := first_of _ _ l) in *. split.
  - destruct (optional_less x best); set_solver.
  - assert (optional_less (if optional_less x best then x else best) m = false) as Hb by (apply Hmax; by left).
    intros y [->|[->|Hy]%elem_of_cons]%elem_of_cons; [..|apply Hmax; by right];
      destruct (optional_less x best) eqn:E; try done; apply not_true_iff_false; intros Hlt.
    + by rewrite (optional_less_trans _ _ _ E Hlt) in Hb.
    + destruct (optional_less_split _ best _ Hlt); congruence.
Qed.

(** The keys that may go. *)
Definition may_go (txt : TXT_data) (p : PublicationProfiles) (k : string) : Prop :=
  is_Some (txt !! k) /\ isTXTProfileEssential k p = false.

Lemma elem_of_candidates `{R : MapRange} txt p k :
  k ∈ List.filter (fun key => negb (isTXTProfileEssential key p)) (range txt).*1 <-> may_go txt p k.
Proof.
  rewrite list_elem_of_In, filter_In, <- list_elem_of_In, negb_true_iff, (range_perm txt). fold (txt_keys txt).
  by rewrite elem_of_txt_keys.
Qed.
(** The key chosen is one that may go and that no other is wanted less than. *)
Lemma optionalTXTKey_spec `{R : MapRange} txt p :
  (optionalTXTKey txt p = ""%string /\ forall k, ~ may_go txt p k) \/
  (may_go txt p (optionalTXTKey txt p) /\ forall k, may_go txt p k -> optional_less k (optionalTXTKey txt p) = false).
Proof.
  unfold optionalTXTKey. pose proof (elem_of_candidates txt p) as He.
  destruct (List.filter _ _) as [|k l]; [left; split; [done|]; intros k Hk%He; by apply not_elem_of_nil in Hk|].
  right. destruct (first_of_spec k l) as [Hin Hmax]. split; [by apply He|]. intros k' Hk'. apply Hmax. by apply He.
Qed.

(** Whatever the order of the iteration, the same key goes, up to case. *)
Lemma optionalTXTKey_range (R R' : MapRange) txt p : txt !! ""%string = None ->
  name_eq (@optionalTXTKey R txt p) (@optionalTXTKey R' txt p).
Proof.
  intros Hne. destruct (@optionalTXTKey_spec R txt p) as [[-> H]|[Hin Hmax]], (@optionalTXTKey_spec R' txt p) as [[-> H']|[Hin' Hmax']];
    [done|by edestruct H|by edestruct H'|].
  pose proof (Hmax _ Hin') as H1. pose proof (Hmax' _ Hin) as H2. apply not_true_iff_false in H1, H2.
  rewrite optional_less_spec in H1, H2. unfold name_eq.
  assert (txtKeyPriority (@optionalTXTKey R txt p) = txtKeyPriority (@optionalTXTKey R' txt p)) as E by lia.
  apply string_ltb_trichotomy; apply not_true_iff_false; intros Hlt; [apply H1|apply H2]; right; (split; [lia|done]).
Qed.

(** ** Making TXT data fit *)

(** The profiles [p] are among those of [q]. *)
Definition profiles_le (p q : PublicationProfiles) : Prop :=
  Ordinary p = Ordinary q /\ (AirPrint p = true -> AirPrint q = true) /\ (IPPEverywhere p = true -> IPPEverywhere q = true).
#[export] Instance profiles_le_preorder : PreOrder profiles_le.
Proof. split; [by intros p|]. intros p q r (? & ? & ?) (? & ? & ?). split; [congruence|]. auto. Qed.

Lemma essential_mono k p q : profiles_le p q -> isTXTProfileEssential k p = true -> isTXTProfileEssential k q = true.
Proof.
  intros (_ & Ha & Hi). unfold isTXTProfileEssential. destruct (in_strings _ _); [done|]. destruct (in_strings _ _).
  - rewrite !orb_true_iff. tauto.
  - destruct (_ =? _)%string; [tauto|done].
Qed.

Lemma essential_routing k p : isTXTProfileEssential k no_profiles = true -> isTXTProfileEssential k p = true.
Proof. unfold isTXTProfileEssential. destruct (in_strings _ _); [done|]. destruct (in_strings _ _); [done|]. by destruct (_ =? _)%string. Qed.

(** Every profile has the data its clients need. *)
Definition carried (txt : TXT_data) (p : PublicationProfiles) : Prop :=
  (AirPrint p = true -> hasFold txt "urf" = true) /\ (AirPrint p || IPPEverywhere p = true -> hasFold txt "pdl" = true).
(** What is published of the input. *)
Definition kept (input txt : TXT_data) (q p : PublicationProfiles) : Prop :=
  txt ⊆ input /\ profiles_le p q /\ carried txt p /\
  forall k, isTXTProfileEssential k p = true -> txt !! k = input !! k.

(** The keys without which a queue cannot be used. *)
Definition routing_data (input : TXT_data) : TXT_data :=
  filter (fun '(k, _) => isTXTProfileEssential k no_profiles = true) input.
Lemma lookup_routing_data input k :
  routing_data input !! k = if isTXTProfileEssential k no_profiles then input !! k else None.
Proof.
  unfold routing_data. rewrite map_lookup_filter. destruct (input !! k); cbn; [|by destruct (isTXTProfileEssential _ _)].
  by destruct (isTXTProfileEssential k no_profiles) eqn:E; rewrite ?E.
Qed.

Lemma hasFold_delete txt w w' : name_eq w w' -> hasFold (deleteFold txt w) w' = false.
Proof.
  intros Hw. apply not_true_iff_false. rewrite hasFold_true. intros (k & [v Hv] & Hk). rewrite lookup_deleteFold in Hv.
  assert (EqualFold k w = true) as E by (apply EqualFold_true; by rewrite Hk). by rewrite E in Hv.
Qed.
Lemma hasFold_delete_other txt w w' : ~ name_eq w w' -> hasFold (deleteFold txt w) w' = hasFold txt w'.
Proof.
  intros Hw. apply eq_true_iff_eq. rewrite !hasFold_true. split; intros (k & [v Hv] & Hk); exists k; split; try done; exists v.
  - rewrite lookup_deleteFold in Hv. by destruct (EqualFold k w).
  - rewrite lookup_deleteFold. destruct (EqualFold k w) eqn:E; [|done]. apply EqualFold_true in E. exfalso. apply Hw. by rewrite <- E.
Qed.

(** Removing a key keeps what the smaller set of profiles needs. *)
Lemma kept_delete input txt q p p' w : kept input txt q p -> profiles_le p' p -> isTXTProfileEssential w p' = false ->
  carried (deleteFold txt w) p' -> kept input (deleteFold txt w) q p'.
Proof.
  intros (Hs & Hp & _ & He) Hle Hw Hc. split; [by etrans; [apply deleteFold_subseteq|]|]. split; [by etrans|]. split; [done|].
  intros k Hk. rewrite lookup_deleteFold. destruct (EqualFold k w) eqn:E.
  - apply EqualFold_true in E. assert (isTXTProfileEssential w p' = true) by by rewrite <- E. congruence.
  - apply He. by eapply essential_mono.
Qed.
Lemma carried_delete txt p w : carried txt p -> isTXTProfileEssential w p = false -> carried (deleteFold txt w) p.
Proof.
  intros [Ha Hi] Hw. split; intros Hp.
  - rewrite hasFold_delete_other; [by apply Ha|]. intros E. rewrite E in Hw.
    change (AirPrint p = false) in Hw. congruence.
  - rewrite hasFold_delete_other; [by apply Hi|]. intros E. rewrite E in Hw.
    change (AirPrint p || IPPEverywhere p = false) in Hw. congruence.
Qed.

Lemma fitProfilesForTXT_spec txt p : profiles_le (fitProfilesForTXT txt p) p /\ carried txt (fitProfilesForTXT txt p).
Proof.
  unfold fitProfilesForTXT, profiles_le, carried.
  destruct p as [o [] []]; cbn; destruct (hasFold txt "urf") eqn:Eu; cbn; destruct (hasFold txt "pdl") eqn:Ep; cbn; rewrite ?Eu, ?Ep; naive_solver.
Qed.

(** The loop: it keeps what has to be kept, and only fails when the routing data
    itself is too much. *)
Lemma fit_loop_spec `{R : MapRange} input q n txt p :
  plain_keys input -> input !! ""%string = None -> (base.size txt <= n)%nat -> kept input txt q p ->
  match fit_loop n txt p with
  | Ok (txt', p') => fits txt' /\ kept input txt' q p'
  | Err _ => ~ fits (routing_data input)
  end.
Proof.
  intros Hplain Hempty. revert txt p. induction n as [|n IH]; intros txt p Hn Hkept; cbn [fit_loop];
    pose proof (limits_ok txt (plain_keys_subseteq _ _ (proj1 Hkept) Hplain)) as [Hok Herr];
    destruct (validateTXTEntryLimits (TXTEntries txt)) as [[]|e]; try (split; [by apply Hok|done]).
  { assert (txt = ∅) as -> by (apply map_size_empty_inv; lia). destruct (Herr e eq_refl) as [_ Hf]. exfalso. apply Hf.
    split; [by constructor|]. done. }
  destruct (Herr e eq_refl) as [-> Hf]. destruct (optionalTXTKey_spec txt p) as [[-> Hall]|[[Hin Hgo] _]]; cbn [String.eqb].
  - destruct Hkept as (Hs & Hp & [Hca Hci] & He).
    destruct (AirPrint p && hasFold txt "urf") eqn:Ea; [|destruct (IPPEverywhere p && hasFold txt "pdl") eqn:Ei].
    + apply andb_true_iff in Ea as [Ea Eu]. apply IH; [pose proof (deleteFold_size _ _ Eu); lia|].
      apply (kept_delete _ _ _ p); [by split|by split|done|]. split; [done|]. cbn. intros Hi.
      rewrite hasFold_delete_other by done. apply Hci. by rewrite Hi, orb_true_r.
    + apply andb_true_iff in Ei as [Ei Ep]. apply IH; [pose proof (deleteFold_size _ _ Ep); lia|].
      apply (kept_delete _ _ _ p); [by split|by split|done|by split].
    + assert (AirPrint p = false) as Ea' by (destruct (AirPrint p); [rewrite Hca in Ea by done; done|done]).
      assert (IPPEverywhere p = false) as Ei'.
      { destruct (IPPEverywhere p); [|done]. rewrite Hci in Ei by apply orb_true_r. done. }
      assert (forall k, isTXTProfileEssential k p = isTXTProfileEssential k no_profiles) as Hess.
      { intros k. unfold isTXTProfileEssential. by rewrite Ea', Ei'. }
      assert (routing_data input = txt) as ->; [|done]. apply map_eq. intros k. rewrite lookup_routing_data, <- Hess.
      destruct (isTXTProfileEssential k p) eqn:E; [symmetry; by apply He|].
      destruct (txt !! k) eqn:Ek; [|done]. exfalso. by apply (Hall k).
  - assert ((optionalTXTKey txt p =? "")%string = false) as ->.
    { apply String.eqb_neq. intros E. rewrite E in Hin. destruct Hin as [v Hv].
      pose proof (lookup_weaken _ _ _ _ Hv (proj1 Hkept)). congruence. }
    apply IH; [|apply (kept_delete _ _ _ p); [done|done|done|by apply carried_delete; [apply Hkept|]]].
    assert (hasFold txt (optionalTXTKey txt p) = true) as Hh by (apply hasFold_true; by exists (optionalTXTKey txt p)).
    pose proof (deleteFold_size _ _ Hh). lia.
Qed.

(** The sizes of fewer entries are smaller. *)
Lemma txt_bytes_perm l l' : l ≡ₚ l' -> txt_bytes l = txt_bytes l'.
Proof. induction 1; cbn [txt_bytes foldr]; unfold txt_bytes in *; lia. Qed.
Lemma txt_bytes_app l l' : txt_bytes (l ++ l') = txt_bytes l + txt_bytes l'.
Proof. induction l as [|e l IH]; [done|]. cbn [app txt_bytes foldr]. unfold txt_bytes in *. rewrite IH. lia. Qed.
Lemma txt_bytes_nonneg l : 0 <= txt_bytes l.
Proof. induction l as [|e l IH]; [done|]. pose proof (zslen_nonneg e). cbn [txt_bytes foldr]. unfold txt_bytes in *. lia. Qed.
Lemma TXTEntries_list txt : TXTEntries txt ≡ₚ (fun '(k, v) => k +:+ "=" +:+ v) <$> map_to_list txt.
Proof.
  unfold TXTEntries. rewrite entry_keys_perm. unfold txt_keys. rewrite <- list_fmap_compose. apply reflexive_eq, list_fmap_ext.
  intros i [k v] H. cbn. apply list_elem_of_lookup_2, elem_of_map_to_list in H. by rewrite H.
Qed.
Lemma fits_subseteq txt txt' : txt' ⊆ txt -> fits txt -> fits txt'.
Proof.
  intros Hs [HF Ht]. pose proof (map_to_list_submseteq txt' txt Hs) as H.
  apply (fmap_submseteq (fun '(k, v) => k +:+ "=" +:+ v)) in H. rewrite <- !TXTEntries_list in H.
  destruct (submseteq_Permutation _ _ H) as [l Hl]. split.
  - rewrite Hl in HF. by apply Forall_app in HF as [? _].
  - rewrite (txt_bytes_perm _ _ Hl), txt_bytes_app in Ht. pose proof (txt_bytes_nonneg l). lia.
Qed.

(** What [fitProfileTXT] gives, and when it fails. *)
Lemma fitProfileTXT_spec `{R : MapRange} input q : plain_keys input -> input !! ""%string = None ->
  match fitProfileTXT input q with
  | Ok (txt, p) => fits txt /\ fits (routing_data input) /\ kept input txt q p
  | Err _ => ~ fits (routing_data input)
  end.
Proof.
  intros Hplain Hempty. unfold fitProfileTXT. set (txt0 := if negb (AirPrint q) then deleteFold input "urf" else input).
  pose proof (fitProfilesForTXT_spec txt0 q) as [Hle Hc].
  assert (kept input txt0 q (fitProfilesForTXT txt0 q)) as Hk.
  { split; [unfold txt0; destruct (AirPrint q); [done|apply deleteFold_subseteq]|]. split; [done|]. split; [done|].
    intros k Hk. pose proof (essential_mono k _ _ Hle Hk) as Hkq. unfold txt0. destruct (AirPrint q) eqn:Ea; [done|]. cbn [negb].
    rewrite lookup_deleteFold. destruct (EqualFold k "urf") eqn:E; [|done]. apply EqualFold_true in E. rewrite E in Hkq.
    change (AirPrint q = true) in Hkq. congruence. }
  pose proof (fit_loop_spec input q (base.size txt0) txt0 _ Hplain Hempty (le_n _) Hk) as H.
  destruct (fit_loop _ _ _) as [[txt p]|e]; [|done]. destruct H as [Hf Hk']. split; [done|]. split; [|done].
  eapply fits_subseteq; [|exact Hf]. apply map_subseteq_spec. intros k v. rewrite lookup_routing_data.
  destruct (isTXTProfileEssential k no_profiles) eqn:E; [|done]. intros Hv. destruct Hk' as (_ & _ & _ & He). rewrite He; [done|].
  by apply essential_routing.
Qed.

(** The order in which Go visits the data does not matter. *)
Lemma deleteFold_name txt w w' : name_eq w w' -> deleteFold txt w = deleteFold txt w'.
Proof. intros Hw. apply map_eq. intros k. by rewrite !lookup_deleteFold, Hw. Qed.
Lemma fit_loop_range (R R' : MapRange) n txt p : txt !! ""%string = None ->
  @fit_loop R n txt p = @fit_loop R' n txt p.
Proof.
  revert txt p. induction n as [|n IH]; intros txt p Hne; cbn [fit_loop]; [done|].
  destruct (validateTXTEntryLimits _) as [|e]; [done|]. destruct (Contains _ _); [done|].
  pose proof (optionalTXTKey_range R R' txt p Hne) as Ho.
  assert (forall w, deleteFold txt w !! ""%string = None) as Hd by (intros w; rewrite lookup_deleteFold; by destruct (EqualFold "" w)).
  assert ((@optionalTXTKey R txt p =? "")%string = (@optionalTXTKey R' txt p =? "")%string) as ->.
  { unfold name_eq in Ho. by destruct (@optionalTXTKey R txt p), (@optionalTXTKey R' txt p). }
  destruct (_ =? "")%string; [|rewrite (deleteFold_name _ _ _ Ho); by apply IH].
  destruct (_ && _); [by apply IH|]. destruct (_ && _); [by apply IH|done].
Qed.

(** What validation of the input says of its TXT data. *)
Lemma valid_input_keys `{R : MapRange} input strict :
  each (fun _ '(key, value) => check_entry strict key value) 0 (range (iTXT input)) = Ok tt ->
  plain_keys (iTXT input) /\ iTXT input !! ""%string = None.
Proof.
  rewrite each_ok. intros H.
  assert (forall k v, iTXT input !! k = Some v -> check_entry strict k v = Ok tt) as Hall.
  { intros k v Hk. apply elem_of_map_to_list in Hk. rewrite <- (range_perm (iTXT input)) in Hk.
    apply list_elem_of_lookup in Hk as [i Hi]. exact (H i _ Hi). }
  split.
  - intros k [v Hk]. specialize (Hall k v Hk). unfold check_entry in Hall. rewrite checks_ok, ensure_ok in Hall.
    destruct Hall as [Hk' _]. apply negb_true_iff, orb_false_iff in Hk'. tauto.
  - destruct (iTXT input !! ""%string) as [v|] eqn:E; [|done]. specialize (Hall _ _ E). discriminate Hall.
Qed.

(** ** What is published *)

(** The registrations of a queue with the TXT data and the profiles it is
    published with. *)
Definition registrations (input : ServiceInput) (txt : TXT_data) (p : PublicationProfiles) : list ServiceRecord :=
  [record_of input (iPort input) "_ipp._tcp" "" txt (iGeoLocation input)] ++
  (if IPPEverywhere p then [record_of input (iPort input) "_ipp._tcp" "_print" ∅ ""] else []) ++
  (if AirPrint p then [record_of input (iPort input) "_ipp._tcp" "_universal" ∅ ""] else []) ++
  [record_of input 0 "_printer._tcp" "" ∅ ""].

(** C8: A valid description of a queue is published exactly when its routing data
    fits the limits of DNS-SD. What is published fits them too, is part of what
    was given, has all that its profiles need, names exactly those profiles,
    none of which was not asked for, and does not depend on the order in which
    Go visits the data. *)
Theorem published_records (R R' : MapRange) input profiles :
  @validateServiceInputBasic R input = Ok tt -> @validateServiceInputBasic R' input = Ok tt -> Ordinary profiles = true ->
  @BuildRecordsForProfiles R' input profiles = @BuildRecordsForProfiles R input profiles /\
  match @BuildRecordsForProfiles R input profiles with
  | Ok records => exists txt p, records = registrations input txt p /\ publicationProfilesForRecords records = p /\
      fits txt /\ kept (iTXT input) txt profiles p
  | Err _ => ~ fits (routing_data (iTXT input))
  end /\
  (fits (routing_data (iTXT input)) <-> is_ok (@BuildRecordsForProfiles R input profiles) = true).
Proof.
  intros Hv Hv' Ho. unfold BuildRecordsForProfiles. rewrite Hv, Hv', Ho. cbn [mbind res_bind negb].
  unfold validateServiceInputBasic in Hv. apply checks_ok in Hv as [_ Hv]. apply valid_input_keys in Hv as [Hplain Hempty].
  assert (@fitProfileTXT R' (iTXT input) profiles = @fitProfileTXT R (iTXT input) profiles) as ->.
  { unfold fitProfileTXT. apply fit_loop_range. destruct (AirPrint profiles); [done|]. cbn [negb].
    rewrite lookup_deleteFold. by destruct (EqualFold "" "urf"). }
  split; [done|]. pose proof (@fitProfileTXT_spec R (iTXT input) profiles Hplain Hempty) as Hfit.
  destruct (@fitProfileTXT R (iTXT input) profiles) as [[txt p]|e]; cbn; [|split; [done|]; split; [tauto|done]].
  destruct Hfit as (Hf & Hr & Hk). split; [|tauto]. exists txt, p. split; [done|]. split; [|done].
  destruct Hk as (_ & (Hord & _) & _). rewrite Ho in Hord. destruct p as [o a i]. cbn in Hord. subst o. by destruct a, i.
Qed.

(** ** Locations *)

Lemma parse_coordinate_finite raw x : parse_coordinate raw = Ok x <-> parseFiniteFloat raw = Ok x.
Proof. unfold parse_coordinate, parseFiniteFloat. destruct (ParseFloat _); [|done]. by destruct (not_finite _). Qed.
Lemma parse_coordinate_ok raw : is_ok (parse_coordinate raw) = is_ok (parseFiniteFloat raw).
Proof. unfold parse_coordinate, parseFiniteFloat. destruct (ParseFloat _); [|done]. by destruct (not_finite _). Qed.

Lemma parseGeoLocation_ok raw : is_ok (parseGeoLocation raw) = is_ok (validateGeoLocation raw).
Proof.
  unfold parseGeoLocation, validateGeoLocation, parse_coordinate, parseFiniteFloat. destruct (_ || _); [done|].
  destruct (cut ";" _) as [[head tail] found]. destruct (Split head ",") as [|c0 [|c1 more]]; [done..|].
  destruct (ParseFloat (TrimSpace c0)) as [x0|]; [|by destruct more as [|? []]].
  destruct (not_finite x0); [by destruct more as [|? []]|]. destruct (outside x0 90); [by destruct more as [|? []]|].
  destruct (ParseFloat (TrimSpace c1)) as [x1|]; [|by destruct more as [|? []]].
  destruct (not_finite x1); [by destruct more as [|? []]|]. destruct (outside x1 180); [by destruct more as [|? []]|].
  assert (forall (a : float64), is_ok (_ ← (if found then _ ← ensure (HasPrefix tail "u=") (EText "uncertainty parameter must use u=");
      ensure (match (match ParseFloat (TrimSpace (sdrop 2 tail)) with
          | Some value => if not_finite value then Err (EText "coordinates must be finite numbers") else Ok value
          | None => Err (EText "coordinates must be finite numbers") end) with
        | Ok u => negb (flt u (float64_of_Z 0)) | Err _ => false end) (EText "uncertainty must be non-negative") else Ok tt);
      Ok (x0, x1, a)) =
    is_ok (if found then _ ← ensure (HasPrefix tail "u=") (EText "uncertainty parameter must use u=");
      ensure (match (match ParseFloat (TrimSpace (TrimPrefix tail "u=")) with
          | Some value => if not_finite value then Err (EText "must be a finite number") else Ok value
          | None => Err (EText "must be a finite number") end) with
        | Ok u => negb (flt u (float64_of_Z 0)) | Err _ => false end) (EText "uncertainty must be non-negative") else Ok tt)) as Hu.
  { intros a. destruct found; [|done]. unfold TrimPrefix. destruct (HasPrefix tail "u="); [|done]. cbn.
    destruct (ParseFloat _) as [x|]; [|done]. destruct (not_finite x); [done|]. by destruct (flt x _). }
  destruct more as [|c2 [|]]; [apply (Hu (S754_zero false))| |done].
  destruct (ParseFloat (TrimSpace c2)) as [x2|]; [|done]. destruct (not_finite x2); [done|]. apply (Hu x2).
Qed.

(** The altitude a location record can hold. *)
Definition loc_altitude (altitude : float64) : Prop :=
  flt altitude (float64_of_Z (-100000)) = false /\ flt max_altitude altitude = false.

(** The configuration accepts exactly the locations that publication can
    parse; a location record of 16 bytes is made of those whose altitude it can
    hold, and of no other. *)
Theorem locations_agree raw :
  (validateGeoLocation raw = Ok tt <-> exists lat lon altitude, parseGeoLocation raw = Ok (lat, lon, altitude)) /\
  ((exists lat lon altitude, parseGeoLocation raw = Ok (lat, lon, altitude) /\ loc_altitude altitude) <->
   exists data, EncodeLOC raw = Ok data /\ length data = 16%nat).
Proof.
  split.
  - pose proof (parseGeoLocation_ok raw) as H.
    destruct (validateGeoLocation raw) as [[]|], (parseGeoLocation raw) as [[[lat lon] alt]|]; try discriminate H.
    + split; [intros _; by exists lat, lon, alt|done].
    + split; [done|intros (? & ? & ? & [=])].
  - unfold EncodeLOC, loc_altitude. destruct (parseGeoLocation raw) as [[[lat lon] alt]|].
    2: { cbn. split; [intros (? & ? & ? & [=] & _)|intros (? & [=] & _)]. }
    cbn [mbind res_bind].
    destruct (flt alt (float64_of_Z (-100000))) eqn:E1; cbn [orb].
    { split; [intros (? & ? & ? & [= -> -> ->] & [? _]); congruence|intros (? & [=] & _)]. }
    destruct (flt max_altitude alt) eqn:E2.
    { split; [intros (? & ? & ? & [= -> -> ->] & [_ ?]); congruence|intros (? & [=] & _)]. }
    split; [intros _; by eexists|]. intros _. by exists lat, lon, alt.
Qed.

(** ** Names *)

Lemma Itoa_inj a b : 0 <= a -> 0 <= b -> Itoa a = Itoa b -> a = b.
Proof.
  intros Ha Hb H. pose proof (parse_uint_Itoa a Ha) as Hpa. pose proof (parse_uint_Itoa b Hb) as Hpb. rewrite H in Hpa. congruence.
Qed.
Lemma alternate_inj name i j : 0 <= i -> 0 <= j -> AlternateServiceName name i = AlternateServiceName name j -> i = j.
Proof.
  intros Hi Hj. unfold AlternateServiceName.
  assert (forall k, name <> name +:+ " (" +:+ Itoa k +:+ ")") as Hne.
  { intros k E. apply (f_equal zslen) in E. rewrite zslen_app in E. pose proof (zslen_app " (" (Itoa k +:+ ")")).
    pose proof (zslen_nonneg (Itoa k +:+ ")")). change (zslen " (") with 2 in *. lia. }
  destruct (Z.leb_spec i 0), (Z.leb_spec j 0); [lia|intros E; by apply Hne in E|intros E; symmetry in E; by apply Hne in E|].
  intros E. apply sapp_inj_l, sapp_inj_l in E. pose proof (Itoa_digits (i + 1) ltac:(lia)) as [Hdi _].
  pose proof (Itoa_digits (j + 1) ltac:(lia)) as [Hdj _].
  assert (cut ")" (Itoa (i + 1) +:+ ")") = cut ")" (Itoa (j + 1) +:+ ")")) as Hc by by rewrite E.
  change ")"%string with (String ")" "") in Hc.
  rewrite !cut_found in Hc by (eapply sall_impl; [|eassumption]; intros c Hd; by destruct c as [[] [] [] [] [] [] [] []]).
  simplify_eq. match goal with H : Itoa _ = Itoa _ |- _ => apply Itoa_inj in H; lia end.
Qed.

(** The names tried: as many as allowed, all different, the one asked for first. *)
Lemma collision_names_spec name n : 1 <= n ->
  NoDup (CollisionNames name n) /\ Z.of_nat (length (CollisionNames name n)) = n /\ head (CollisionNames name n) = Some name.
Proof.
  intros Hn. unfold CollisionNames. rewrite length_fmap, length_seq. split; [|split; [lia|]].
  - apply NoDup_fmap_2_strong; [|apply NoDup_seq]. intros i j _ _ H. apply alternate_inj in H; lia.
  - destruct (Z.to_nat n) eqn:E; [lia|]. done.
Qed.

(** An alternate name can be longer than the limit the name itself respects. *)
Example alternate_too_long :
  let name := String.concat "" (replicate 60 "x") in
  zslen name = 60 /\ (63 <? zslen (AlternateServiceName name 1)) = true.
Proof. vm_compute. done. Qed.
(** A location the configuration accepts and no record can hold. *)
Example location_not_published :
  validateGeoLocation "geo:50,14,50000000" = Ok tt /\ is_ok (EncodeLOC "geo:50,14,50000000") = false.
Proof. vm_compute. done. Qed.

(** ** Examples *)

Definition example_txt : TXT_data :=
  {[ "txtvers" := "1"; "qtotal" := "1"; "rp" := "printers/office"; "ty" := "Example"; "URF" := "W8,RS300";
     "pdl" := "image/pwg-raster,image/urf"; "note" := String.concat "" (replicate 300 "y"); "UUID" := "0" ]}.
Definition example_input : ServiceInput := {|
  iName := "Office"; iHostname := "proxy.local"; iPort := 8631; iIPPS := false; iInterface := ""; iTXT := example_txt;
  iGeoLocation := "geo:50,14"; iProfiles := no_profiles; iProfilesSet := true; iMaxCollisionRetries := 0 |}.
#[local, refine] Instance range_backwards : MapRange := {| range A m := rev (map_to_list m) |}.
Proof. intros A m. symmetry. apply Permutation_rev. Defined.
#[local, refine] Instance range_forwards : MapRange := {| range A m := map_to_list m |}.
Proof. done. Defined.

Lemma published_records_witness :
  let all := {| Ordinary := true; AirPrint := true; IPPEverywhere := true |} in
  @BuildRecordsForProfiles range_backwards example_input all = @BuildRecordsForProfiles range_forwards example_input all /\
  (rSubtype <$> match @BuildRecordsForProfiles range_forwards example_input all with Ok l => l | Err _ => [] end) =
    [""; "_print"; "_universal"; ""]%string.
Proof.
  split; [|vm_compute; reflexivity].
  refine (proj1 (published_records range_forwards range_backwards example_input
    {| Ordinary := true; AirPrint := true; IPPEverywhere := true |} _ _ _)); vm_compute; reflexivity.
Defined.
