(* ===== verification/CapabilityProofs.v ===== *)
(** * Lemmas on the description of a queue

    The names of the attributes, segment by segment; the media of the catalog;
    the formats of the routes; the identity. *)

From Stdlib Require Import ZArith Lia Ascii String.
From stdpp Require Import base tactics list strings gmap.
From S2P Require Import Configuration Urf Routing RoutingTheorems.
From S2P Require Import Prelude GoString GoError GoTime GoUrl Goipp IppAttrs MediaCatalog Normalizer NormalizerTheorems Formats.
From S2P Require Import Messages PrinterDescription Capabilities.

(** ** Names *)

Definition lower_name (a : Attribute) : string := ToLower (aName a).
Definition lower_names (l : Attributes) : list string := lower_name <$> l.

Lemma elem_of_lower_names a l : a ∈ l -> lower_name a ∈ lower_names l.
Proof. intros H. unfold lower_names. apply list_elem_of_fmap. by exists a. Qed.
Lemma lower_names_app l k : lower_names (l ++ k) = lower_names l ++ lower_names k.
Proof. apply fmap_app. Qed.

(** A list whose names are distinct, up to case, and satisfy [P]. *)
Definition segment (P : string -> Prop) (l : Attributes) : Prop :=
  NoDup (lower_names l) /\ forall a, a ∈ l -> P (lower_name a).

Lemma segment_weaken (P Q : string -> Prop) l : (forall n, P n -> Q n) -> segment P l -> segment Q l.
Proof. intros H [Hn HP]. split; [done|]. auto. Qed.

Lemma segment_app (P Q : string -> Prop) l k : segment P l -> segment Q k -> (forall n, P n -> ~ Q n) ->
  segment (fun n => P n \/ Q n) (l ++ k).
Proof.
  intros [Hl HP] [Hk HQ] Hd. split.
  - unfold lower_names. rewrite fmap_app. apply NoDup_app. split; [done|]. split; [|done].
    intros n (a & -> & Ha)%list_elem_of_fmap (b & E & Hb)%list_elem_of_fmap.
    apply (Hd (lower_name a)); [auto|]. rewrite E. auto.
  - intros a [Ha|Ha]%elem_of_app; auto.
Qed.

(** Segments with the names of two disjoint lists. *)
Lemma segment_lists (A B : list string) l k : segment (.∈ A) l -> segment (.∈ B) k -> NoDup (A ++ B) ->
  segment (.∈ A ++ B) (l ++ k).
Proof.
  intros Hl Hk (_ & Hd & _)%NoDup_app. eapply segment_weaken; [|apply (segment_app _ _ _ _ Hl Hk Hd)].
  intros n. cbn. by rewrite elem_of_app.
Qed.

Lemma segment_of_names (A : list string) l : NoDup A -> lower_names l = A -> segment (.∈ A) l.
Proof.
  intros Hn <-. split; [done|]. intros a Ha. unfold lower_names. apply list_elem_of_fmap. by exists a.
Qed.
Lemma segment_nil P : segment P [].
Proof. split; [constructor|]. by intros a ?%elem_of_nil. Qed.
Lemma segment_single (A : list string) a : lower_name a ∈ A -> segment (.∈ A) [a].
Proof. intros H. split; [apply NoDup_singleton|]. by intros b ->%list_elem_of_singleton. Qed.

Lemma NoDup_filter_names (p : Attribute -> bool) l : NoDup (lower_names l) -> NoDup (lower_names (List.filter p l)).
Proof.
  unfold lower_names. induction l as [|a l IH]; [done|]. cbn. intros [Ha Hl]%NoDup_cons.
  destruct (p a); [|auto]. cbn. apply NoDup_cons. split; [|auto]. intros (b & E & Hb)%list_elem_of_fmap.
  apply list_elem_of_In, filter_In in Hb as [Hb _]. apply Ha. rewrite E. apply list_elem_of_fmap. exists b. split; [done|].
  by apply list_elem_of_In.
Qed.
Lemma segment_filter P (p : Attribute -> bool) l : segment P l -> segment P (List.filter p l).
Proof.
  intros [Hn HP]. split; [by apply NoDup_filter_names|]. intros a Ha. apply HP.
  apply list_elem_of_In, filter_In in Ha as [Ha _]. by apply list_elem_of_In.
Qed.
Lemma segment_DropAttrs P l names : segment P l -> segment P (DropAttrs l names).
Proof. apply segment_filter. Qed.

Lemma NoDup_SetAttr_go l a r : NoDup (lower_names l) -> NoDup (lower_names (SetAttr_go l a r)) /\
  (r = true -> lower_name a ∉ lower_names (SetAttr_go l a r)).
Proof.
  unfold lower_names. revert r. induction l as [|b l IH]; intros r; cbn.
  { intros _. destruct r; cbn; split; try done; [constructor|by intros ? ?%elem_of_nil|apply NoDup_singleton]. }
  intros [Hb Hl]%NoDup_cons. destruct (EqualFold (aName b) (aName a)) eqn:E.
  - destruct (IH true Hl) as [H1 H2]. destruct r; [by split|]. split; [|done].
    cbn. apply NoDup_cons. split; [|done]. by apply H2.
  - destruct (IH r Hl) as [H1 H2]. cbn. split.
    + apply NoDup_cons. split; [|done]. intros (c & Ec & Hc)%list_elem_of_fmap.
      apply elem_of_SetAttr in Hc as [->|[Hc _]].
      * apply EqualFold_false in E. by apply E.
      * apply Hb. rewrite Ec. apply list_elem_of_fmap. by exists c.
    + intros Hr. rewrite elem_of_cons. intros [E'|Hin]; [|by apply H2].
      apply EqualFold_false in E. apply E. unfold name_eq. by symmetry.
Qed.
Lemma segment_SetAttr (P : string -> Prop) l a : segment P l -> P (lower_name a) -> segment P (SetAttr l a).
Proof.
  intros [Hn HP] Ha. split; [by apply NoDup_SetAttr_go|]. intros b [->|[Hb _]]%elem_of_SetAttr; auto.
Qed.
Lemma segment_append_missing (P : string -> Prop) l a : segment P l -> P (lower_name a) -> segment P (append_missing l a).
Proof.
  intros Hl Ha. unfold append_missing. destruct (Attr l (aName a)) eqn:E; [done|].
  assert (segment (fun n => P n \/ n ∈ [lower_name a]) (l ++ [a])) as H.
  { split.
    - unfold lower_names. rewrite fmap_app. apply NoDup_app. split; [apply Hl|]. split; [|apply NoDup_singleton].
      intros n (b & -> & Hb)%list_elem_of_fmap Hn%list_elem_of_singleton.
      apply Attr_None in E. apply E. exists b. by split.
    - intros b [Hb|Hb]%elem_of_app; [left; by apply Hl|]. apply list_elem_of_singleton in Hb as ->. right. by left. }
  revert H. apply segment_weaken. intros n [Hn|Hn]; [done|]. by apply list_elem_of_singleton in Hn as ->.
Qed.
Lemma segment_fold (P : string -> Prop) (f : Attributes -> Attribute -> Attributes) :
  (forall l a, segment P l -> P (lower_name a) -> segment P (f l a)) ->
  forall k l, segment P l -> (forall a, a ∈ k -> P (lower_name a)) -> segment P (fold_left f k l).
Proof.
  intros Hf k. induction k as [|a k IH]; intros l Hl Hk; [done|]. cbn. apply IH.
  - apply Hf; [done|]. apply Hk. left.
  - intros b Hb. apply Hk. by right.
Qed.

(** ** The segments of a description *)

Definition state_names : list string :=
  ["printer-uri-supported"; "printer-name"; "printer-info"; "printer-location"; "ipp-versions-supported";
   "uri-authentication-supported"; "uri-security-supported"; "charset-configured"; "charset-supported";
   "natural-language-configured"; "generated-natural-language-supported"; "printer-is-accepting-jobs";
   "printer-state"; "printer-state-reasons"]%string.
Definition identity_names : list string :=
  ["printer-uuid"; "printer-up-time"; "printer-config-change-time"; "printer-config-change-date-time"]%string.
Definition media_names : list string :=
  ["media-supported"; "media-default"; "media-col-supported"; "media-col-default"; "media-col-database";
   "media-type-supported"; "media-type-default"]%string.
Definition color_names : list string :=
  ["print-color-mode-supported"; "print-color-mode-default"; "color-supported"; "output-mode-supported";
   "output-mode-default"]%string.
Definition operation_names : list string := ["operations-supported"; "multiple-document-jobs-supported"]%string.
Definition source_names : list string := ["media-source-supported"; "media-source-default"]%string.
Definition ready_names : list string := ["media-ready"; "media-col-ready"]%string.
Definition format_names : list string :=
  ["document-format-supported"; "document-format-default"; "document-format-preferred";
   "pwg-raster-document-type-supported"; "pwg-raster-document-resolution-supported";
   "pwg-raster-document-sheet-back"; "urf-supported"]%string.

(** The names a description adds behind the state of the printer. *)
Definition added_names : list string :=
  identity_names ++ media_names ++ color_names ++ operation_names ++ ["media-size-supported"%string] ++ source_names ++
  ready_names ++ format_names ++ ["ipp-features-supported"%string].

Section segments.
Context `{G : GoippLib}.

Lemma lower_copied upstream n a : a ∈ copied upstream n -> lower_name a = ToLower n.
Proof.
  unfold copied. destruct (Attr upstream n) as [b|] eqn:E; [|by intros ?%elem_of_nil].
  intros ->%list_elem_of_singleton. by apply Attr_Some in E as [_ E].
Qed.
Lemma segment_copied upstream n : ToLower n = n -> segment (.∈ [n]) (copied upstream n).
Proof.
  intros Hn. split.
  - unfold copied. destruct (Attr _ _); [apply NoDup_singleton|constructor].
  - intros a ->%lower_copied. rewrite Hn. left.
Qed.

(** An attribute that may be missing. *)
Lemma segment_option (A : list string) (o : option Attribute) : (forall a, o = Some a -> lower_name a ∈ A) ->
  segment (.∈ A) (option_list o).
Proof. destruct o as [a|]; intros H; [apply segment_single; auto|apply segment_nil]. Qed.

Lemma lower_MakeAttr n t v rest : lower_name (MakeAttr n t v rest) = ToLower n.
Proof. by rewrite MakeAttr_eq. Qed.
Lemma lower_MakeAttribute n t v : lower_name (MakeAttribute n t v) = ToLower n.
Proof. apply lower_MakeAttr. Qed.
Lemma lower_Keywords n values : lower_name (Keywords n values) = ToLower n.
Proof. unfold Keywords. destruct (map VString values); [done|]. apply lower_MakeAttr. Qed.
Lemma lower_description n s ty src : lower_name (mediaColDescriptionAttr n s ty src) = ToLower n.
Proof. apply lower_MakeAttribute. Qed.
Lemma lower_description_attr n sizes ty src : lower_name (description_attr n sizes ty src) = ToLower n.
Proof. unfold description_attr. destruct (omap _ _); [done|]. apply lower_MakeAttr. Qed.
Lemma lower_operations ops : lower_name (operationsSupportedAttrFor ops) = "operations-supported"%string.
Proof. unfold operationsSupportedAttrFor. destruct (map _ _); [done|]. apply lower_MakeAttr. Qed.

(** The names of the built attributes. *)
Ltac names := repeat first
  [ rewrite lower_Keywords | rewrite lower_description | rewrite lower_description_attr | rewrite lower_operations
  | rewrite lower_MakeAttribute | rewrite lower_MakeAttr ]; try reflexivity.
Ltac in_names := apply (bool_decide_unpack _); exact I.
Ltac one := apply list_elem_of_singleton; names.

(** Segments of known names, side by side. *)
Lemma segment_split n (C : list string) l k : bool_decide (NoDup C) = true -> segment (.∈ take n C) l ->
  segment (.∈ drop n C) k -> segment (.∈ C) (l ++ k).
Proof.
  intros Hn%bool_decide_eq_true Hl Hk. rewrite <- (take_drop n C) in Hn.
  eapply segment_weaken; [|exact (segment_lists _ _ _ _ Hl Hk Hn)]. intros x. cbn. by rewrite take_drop.
Qed.
(** The first [n] of the names are those of the first list. *)
Ltac split_segment n := apply (segment_split n); [reflexivity|cbn [take drop]|cbn [take drop]].

Lemma synthesized_segment upstream policy : segment (.∈ format_names) (synthesizedFormatAttributes upstream policy).
Proof.
  unfold synthesizedFormatAttributes. destruct (Attr upstream "document-format-supported") as [formatAttr|]; [|apply segment_nil].
  destruct (offered_formats _ _ _) as [|[t first] values]; [apply segment_nil|]. cbv zeta.
  unfold format_names. split_segment 1%nat; [apply segment_single; one|].
  split_segment 1%nat.
  { destruct (Attr _ _); [|apply segment_nil]. apply segment_single. one. }
  split_segment 1%nat.
  { destruct (Attr _ _) as [a|]; [|apply segment_nil]. destruct (match fixedStringValue (aValues a) with Some _ => _ | None => _ end);
      [|apply segment_nil]. apply segment_single. one. }
  split_segment 3%nat.
  - destruct (validPWGRasterFamily _ _); [|apply segment_nil].
    split_segment 1%nat.
    { destruct (Attr upstream _) as [a|] eqn:E; [|apply segment_nil]. apply Attr_Some in E as [_ E].
      unfold filteredPWGRasterTypes. destruct (aValues a); [apply segment_nil|].
      destruct (filter_raster_types _ _) as [[|]|]; try apply segment_nil. apply segment_single. apply list_elem_of_singleton, E. }
    split_segment 1%nat; by apply segment_copied.
  - destruct (validURFFamily _); [by apply segment_copied|apply segment_nil].
Qed.

Lemma segment_replaced (P : string -> Prop) l a : segment P l -> P (lower_name a) -> segment P (replaced l a).
Proof. intros Hl Ha. apply segment_SetAttr; [by apply segment_DropAttrs|done]. Qed.

Lemma emulated_segment attrs routes : segment (.∈ format_names) attrs ->
  segment (.∈ format_names) (applyEmulatedRasterCapabilities attrs routes).
Proof.
  intros H. unfold applyEmulatedRasterCapabilities. destruct (List.find _ _) as [r|]; [|done].
  assert (segment (.∈ format_names) (if (mappingOutputType (drMapping r) =? "")%string then attrs
    else replaced attrs (Keyword "pwg-raster-document-type-supported" (mappingOutputType (drMapping r))))) as H'.
  { destruct (_ =? _)%string; [done|]. apply segment_replaced; [done|]. unfold Keyword. names. in_names. }
  destruct (map _ _); [done|]. apply segment_replaced; [done|]. names. in_names.
Qed.

Lemma route_segment base routes : segment (.∈ format_names) base -> segment (.∈ format_names) (applyRouteCapabilities base routes).
Proof.
  intros H. unfold applyRouteCapabilities. destruct (map _ _) as [|v rest]; [by apply segment_DropAttrs|].
  cbv zeta. set (result := SetAttr (DropAttrs base ["document-format-supported"%string]) _). assert (segment (.∈ format_names) result) as Hr.
  { apply segment_SetAttr; [by apply segment_DropAttrs|]. names. in_names. }
  assert (segment (.∈ format_names) (SetAttr (DropAttrs result ["urf-supported"%string]) (Keywords "urf-supported" (URFTokens routes)))) as Hu.
  { apply segment_SetAttr; [by apply segment_DropAttrs|]. names. in_names. }
  destruct (snapPath routes); [done| |by apply segment_DropAttrs].
  apply (emulated_segment _ routes) in Hu.
  pose proof (segment_append_missing _ _ (MakeAttribute "document-format-default" TagMimeType (VString "image/urf")) Hu) as Ha.
  unfold append_missing in Ha. rewrite MakeAttribute_eq in Ha |- *. apply Ha. in_names.
Qed.

Lemma ready_segment `{MapRange} upstream catalog policy : segment (.∈ ready_names) (filteredReadyAttributes upstream catalog policy).
Proof.
  unfold filteredReadyAttributes. destruct (ready_sizes _ _) as [|s l]; [apply segment_nil|].
  unfold ready_names. split_segment 1%nat.
  - destruct (distinct_names _ _); [apply segment_nil|]. apply segment_single. one.
  - apply segment_single. unfold mediaColReadyAttr. one.
Qed.

Lemma source_segment upstream policy : segment (.∈ source_names) (source_attributes upstream policy).
Proof.
  unfold source_attributes. cbv zeta. set (source := if (policyMediaSource policy =? "")%string then _ else _).
  destruct (source =? "")%string; [apply segment_nil|].
  apply segment_of_names; [by apply (bool_decide_unpack _)|]. unfold Keyword. cbn. by rewrite !lower_MakeAttribute.
Qed.

Definition size_attributes (catalog : mediaCatalog) : Attributes := option_list (mediaSizeSupportedAttr (Sizes catalog)).
Definition operation_attributes (model : CapabilityModel) : Attributes :=
  [operationsSupportedAttrFor (default [] (mOperations model)); Boolean "multiple-document-jobs-supported" false].
Definition feature_attributes (model : CapabilityModel) : Attributes :=
  match mIPPFeatures model with [] => [] | features => [Keywords "ipp-features-supported" features] end.

Lemma identity_segment `{UUIDs} i : segment (.∈ identity_names) (proxyPrinterIdentityAttributes i).
Proof. apply segment_of_names; [by apply (bool_decide_unpack _)|]. cbn. unfold URI, Integer. by rewrite !lower_MakeAttribute. Qed.
Lemma media_segment catalog policy : segment (.∈ media_names) (media_attributes catalog policy).
Proof.
  apply segment_of_names; [by apply (bool_decide_unpack _)|]. cbn. unfold Keyword, mediaColDatabaseAttrWithSource.
  by rewrite !lower_Keywords, lower_description, lower_description_attr, !lower_MakeAttribute.
Qed.
Lemma color_segment policy : segment (.∈ color_names) (color_attributes policy).
Proof. apply segment_of_names; [by apply (bool_decide_unpack _)|]. cbn. unfold Keyword, Boolean. by rewrite !lower_MakeAttribute. Qed.
Lemma operation_segment model : segment (.∈ operation_names) (operation_attributes model).
Proof.
  apply segment_of_names; [by apply (bool_decide_unpack _)|]. cbn. unfold Boolean. by rewrite lower_operations, lower_MakeAttribute.
Qed.
Lemma size_segment catalog : segment (.∈ ["media-size-supported"%string]) (size_attributes catalog).
Proof. apply segment_option. intros a. unfold mediaSizeSupportedAttr. destruct (map _ _); [done|]. intros [= <-]. one. Qed.
Lemma feature_segment model : segment (.∈ ["ipp-features-supported"%string]) (feature_attributes model).
Proof. unfold feature_attributes. destruct (mIPPFeatures model); [apply segment_nil|]. apply segment_single. one. Qed.

(** What the proxy adds behind the state of the printer. *)
Definition added `{UUIDs} `{MapRange} (model : CapabilityModel) : Attributes :=
  let upstream := mUpstream model in
  let policy := settings (Configuration.Policy (mPrinter model)) in
  let catalog := buildMediaCatalog upstream policy in
  proxyPrinterIdentityAttributes (shown_identity (mIdentity model) (mProxyURI model)) ++
  media_attributes catalog policy ++ color_attributes policy ++
  operation_attributes model ++ size_attributes catalog ++ source_attributes upstream policy ++
  filteredReadyAttributes upstream catalog policy ++
  applyRouteCapabilities (synthesizedFormatAttributes upstream policy) (routeSnapshotForModel model) ++
  feature_attributes model.

Lemma added_segment `{UUIDs} `{MapRange} model : segment (.∈ added_names) (added model).
Proof.
  unfold added. cbv zeta. let A := eval vm_compute in added_names in change added_names with A.
  split_segment 4%nat; [apply identity_segment|]. split_segment 7%nat; [apply media_segment|].
  split_segment 5%nat; [apply color_segment|]. split_segment 2%nat; [apply operation_segment|].
  split_segment 1%nat; [apply size_segment|]. split_segment 2%nat; [apply source_segment|].
  split_segment 2%nat; [apply ready_segment|].
  split_segment 7%nat; [apply route_segment, synthesized_segment|apply feature_segment].
Qed.

(** ** The state of the printer *)

Definition queue_attributes (proxyURI : string) (printer : Configuration.PrinterConfig) : Attributes :=
  [URI "printer-uri-supported" proxyURI; NameAttr "printer-name" (DisplayName printer);
   Text "printer-info" (DisplayName printer +:+ " via policy proxy"); Text "printer-location" (Location printer)].
Definition shown_state (model : CapabilityModel) : Attributes :=
  fold_left append_missing state_attributes (fold_left SetAttr owned_attributes
    (filteredPassthroughPrinterAttributes (mUpstream model) ++ queue_attributes (mProxyURI model) (mPrinter model))).

Lemma synthesize_split `{UUIDs} `{MapRange} model : synthesizePrinterAttributes model = shown_state model ++ added model.
Proof. done. Qed.

(** The names before the added ones: those that may pass, and those of the state. *)
Definition state_name (n : string) : Prop := in_strings (TrimSpace n) safePassthroughPrinterAttrs = true \/ n ∈ state_names.

Lemma passes_safe a : passes a = true -> in_strings (TrimSpace (lower_name a)) safePassthroughPrinterAttrs = true.
Proof. unfold passes, lower_name. rewrite TrimSpace_ToLower. by intros [_ H]%andb_true_iff. Qed.
Lemma elem_of_passthrough upstream a : a ∈ filteredPassthroughPrinterAttributes upstream <-> a ∈ upstream /\ passes a = true.
Proof. unfold filteredPassthroughPrinterAttributes. by rewrite list_elem_of_In, filter_In, <- list_elem_of_In. Qed.

Lemma queue_names proxyURI printer : lower_names (queue_attributes proxyURI printer) = take 4 state_names.
Proof. unfold lower_names. cbn. unfold URI, NameAttr, Text. by rewrite !lower_MakeAttribute. Qed.
Lemma owned_names : lower_names owned_attributes = take 7 (drop 4 state_names).
Proof. unfold lower_names. cbn. unfold Keyword. by rewrite lower_MakeAttr, !lower_MakeAttribute. Qed.
Lemma state_attributes_names : lower_names state_attributes = drop 11 state_names.
Proof. unfold lower_names. cbn. unfold Keyword, Boolean. by rewrite !lower_MakeAttribute. Qed.

Lemma queue_name_not_safe n : n ∈ take 4 state_names -> in_strings (TrimSpace n) safePassthroughPrinterAttrs = false.
Proof.
  assert (bool_decide (Forall (fun n => in_strings (TrimSpace n) safePassthroughPrinterAttrs = false) (take 4 state_names)) = true)
    as HF%bool_decide_eq_true by reflexivity. rewrite Forall_forall in HF. apply HF.
Qed.
Lemma in_state_names l A : lower_names l = A -> bool_decide (Forall (.∈ state_names) A) = true ->
  forall a, a ∈ l -> state_name (lower_name a).
Proof.
  intros <- HF%bool_decide_eq_true a Ha. right. rewrite Forall_forall in HF. apply HF.
  by apply elem_of_lower_names.
Qed.

Lemma named_segment model : NoDup (lower_names (mUpstream model)) ->
  segment state_name (filteredPassthroughPrinterAttributes (mUpstream model) ++ queue_attributes (mProxyURI model) (mPrinter model)).
Proof.
  intros Hn. eapply segment_weaken; [|apply (segment_app (fun n => in_strings (TrimSpace n) safePassthroughPrinterAttrs = true) (.∈ take 4 state_names))].
  - intros n [H|H]; [by left|right]. rewrite <- (take_drop 4 state_names). apply elem_of_app. by left.
  - split; [by apply NoDup_filter_names|]. intros a [_ Ha]%elem_of_passthrough. by apply passes_safe.
  - apply segment_of_names; [by apply (bool_decide_unpack _)|apply queue_names].
  - intros n Hs Hn'%queue_name_not_safe. congruence.
Qed.

Lemma state_segment model : NoDup (lower_names (mUpstream model)) -> segment state_name (shown_state model).
Proof.
  intros Hn. unfold shown_state. apply segment_fold; [intros; by apply segment_append_missing| |].
  - apply segment_fold; [intros; by apply segment_SetAttr|by apply named_segment|].
    by apply (in_state_names _ _ owned_names).
  - by apply (in_state_names _ _ state_attributes_names).
Qed.

Lemma state_name_added n : state_name n -> n ∈ added_names -> False.
Proof.
  assert (Forall (fun n => ~ state_name n) added_names) as HF.
  { assert (bool_decide (Forall (fun n => in_strings (TrimSpace n) safePassthroughPrinterAttrs = false /\ n ∉ state_names) added_names) = true)
      as HF%bool_decide_eq_true by reflexivity.
    eapply Forall_impl; [exact HF|]. intros m [H1 H2] [H|H]; [congruence|done]. }
  rewrite Forall_forall in HF. intros H Ha. by apply (HF n Ha).
Qed.

(** ** Where the attributes come from, and lookups *)

Lemma elem_of_fold_SetAttr k : forall l a, a ∈ fold_left SetAttr k l -> a ∈ l \/ a ∈ k.
Proof.
  induction k as [|b k IH]; intros l a; cbn; [by left|]. intros [Ha|Ha]%IH; [|right; by right].
  apply elem_of_SetAttr in Ha as [->|[Ha _]]; [right; left|by left].
Qed.
Lemma elem_of_fold_append k : forall l a, a ∈ fold_left append_missing k l -> a ∈ l \/ a ∈ k.
Proof.
  induction k as [|b k IH]; intros l a; cbn; [by left|]. intros [Ha|Ha]%IH; [|right; by right].
  unfold append_missing in Ha. destruct (Attr l (aName b)); [by left|].
  apply elem_of_app in Ha as [Ha|Ha]; [by left|]. apply list_elem_of_singleton in Ha as ->. right; left.
Qed.

Lemma shown_state_sources model a : a ∈ shown_state model ->
  (a ∈ mUpstream model /\ passes a = true) \/ lower_name a ∈ state_names.
Proof.
  intros Ha. assert (forall l A, lower_names l = A -> (forall n, n ∈ A -> n ∈ state_names) -> a ∈ l -> lower_name a ∈ state_names) as Hl.
  { intros l A <- H Hin. apply H. by apply elem_of_lower_names. }
  apply elem_of_fold_append in Ha as [Ha|Ha].
  - apply elem_of_fold_SetAttr in Ha as [Ha|Ha].
    + apply elem_of_app in Ha as [Ha|Ha]; [left; by apply elem_of_passthrough|right].
      eapply Hl; [apply queue_names| |done]. intros n Hn. rewrite <- (take_drop 4 state_names), elem_of_app. by left.
    + right. eapply Hl; [apply owned_names| |done]. intros n Hn. rewrite <- (take_drop 4 state_names), elem_of_app. right.
      rewrite <- (take_drop 7 (drop 4 state_names)), elem_of_app. by left.
  - right. eapply Hl; [apply state_attributes_names| |done]. intros n Hn. rewrite <- (take_drop 11 state_names), elem_of_app. by right.
Qed.

Lemma lookup_segment l a : NoDup (lower_names l) -> a ∈ l -> Attr l (aName a) = Some a.
Proof.
  induction l as [|b l IH]; [by intros _ ?%elem_of_nil|]. cbn. intros [Hb Hl]%NoDup_cons Ha.
  destruct (EqualFold (aName b) (aName a)) eqn:E.
  - apply elem_of_cons in Ha as [->|Ha]; [done|]. exfalso. apply Hb. apply EqualFold_true in E.
    apply list_elem_of_fmap. exists a. by split.
  - apply elem_of_cons in Ha as [->|Ha]; [|auto]. apply EqualFold_false in E. by destruct E.
Qed.
Lemma lookup_absent l n : (forall a, a ∈ l -> lower_name a <> ToLower n) -> Attr l n = None.
Proof. intros H. apply Attr_None. intros (a & Ha & E). by apply (H a Ha). Qed.

Lemma lookup_fold_SetAttr k : forall l n, NoDup (lower_names k) ->
  Attr (fold_left SetAttr k l) n = match Attr k n with Some a => Some a | None => Attr l n end.
Proof.
  induction k as [|b k IH]; intros l n; [done|]. cbn. intros [Hb Hk]%NoDup_cons. rewrite IH by done. rewrite SetAttr_lookup.
  destruct (EqualFold (aName b) n) eqn:E; [|done].
  rewrite lookup_absent; [done|]. intros a Ha En. apply Hb. apply list_elem_of_fmap. exists a. split; [|done].
  apply EqualFold_true in E. unfold lower_name in *. by rewrite En, <- E.
Qed.
Lemma lookup_fold_append k : forall l n a, Attr l n = Some a -> Attr (fold_left append_missing k l) n = Some a.
Proof.
  induction k as [|b k IH]; intros l n a H; [done|]. cbn. apply IH. unfold append_missing. destruct (Attr l (aName b)); [done|].
  by rewrite Attr_app, H.
Qed.

(** A name outside a segment is not found in it. *)
Lemma lookup_other (A : list string) l n : segment (.∈ A) l -> bool_decide (ToLower n ∈ A) = false -> Attr l n = None.
Proof.
  intros [_ HA] Hn%bool_decide_eq_false. apply lookup_absent. intros a Ha E. apply Hn. rewrite <- E. by apply HA.
Qed.
Lemma shown_state_other model n : bool_decide (ToLower n ∈ added_names) = true -> Attr (shown_state model) n = None.
Proof.
  intros Hn%bool_decide_eq_true. apply lookup_absent. intros b Hb E. apply (state_name_added (lower_name b)); [|by rewrite E].
  apply shown_state_sources in Hb as [[_ Hb]|Hb]; [left; by apply passes_safe|by right].
Qed.

Section lookups.
Context `{UUIDs} `{MapRange}.
Implicit Types (model : CapabilityModel) (n : string).

(** The parts of a description, by the names they hold. *)
Ltac outside := unfold added; cbv zeta; rewrite ?Attr_app;
  repeat match goal with
  | |- context [Attr (shown_state ?m) ?n] => rewrite (shown_state_other m n) by reflexivity
  | |- context [Attr (proxyPrinterIdentityAttributes ?i) ?n] => rewrite (lookup_other _ _ n (identity_segment i)) by reflexivity
  | |- context [Attr (media_attributes ?c ?p) ?n] => rewrite (lookup_other _ _ n (media_segment c p)) by reflexivity
  | |- context [Attr (color_attributes ?p) ?n] => rewrite (lookup_other _ _ n (color_segment p)) by reflexivity
  | |- context [Attr (operation_attributes ?m) ?n] => rewrite (lookup_other _ _ n (operation_segment m)) by reflexivity
  | |- context [Attr (size_attributes ?c) ?n] => rewrite (lookup_other _ _ n (size_segment c)) by reflexivity
  | |- context [Attr (source_attributes ?u ?p) ?n] => rewrite (lookup_other _ _ n (source_segment u p)) by reflexivity
  | |- context [Attr (filteredReadyAttributes ?u ?c ?p) ?n] => rewrite (lookup_other _ _ n (ready_segment u c p)) by reflexivity
  | |- context [Attr (applyRouteCapabilities (synthesizedFormatAttributes ?u ?p) ?r) ?n] =>
      rewrite (lookup_other _ _ n (route_segment _ r (synthesized_segment u p))) by reflexivity
  | |- context [Attr (feature_attributes ?m) ?n] => rewrite (lookup_other _ _ n (feature_segment m)) by reflexivity
  end.

Lemma ready_lookup model n : n ∈ ready_names -> Attr (synthesizePrinterAttributes model) n =
  Attr (filteredReadyAttributes (mUpstream model) (buildMediaCatalog (mUpstream model) (settings (Configuration.Policy (mPrinter model))))
          (settings (Configuration.Policy (mPrinter model)))) n.
Proof.
  intros Hn. rewrite synthesize_split. unfold ready_names in Hn. rewrite !elem_of_cons, elem_of_nil in Hn.
  destruct Hn as [->|[->|[]]]; outside; by destruct (Attr (filteredReadyAttributes _ _ _) _).
Qed.
Lemma format_lookup model n : n ∈ format_names -> Attr (synthesizePrinterAttributes model) n =
  Attr (applyRouteCapabilities (synthesizedFormatAttributes (mUpstream model) (settings (Configuration.Policy (mPrinter model))))
          (routeSnapshotForModel model)) n.
Proof.
  intros Hn. rewrite synthesize_split. unfold format_names in Hn. rewrite !elem_of_cons, elem_of_nil in Hn.
  repeat destruct Hn as [->|Hn]; try done; outside; by destruct (Attr (applyRouteCapabilities _ _) _).
Qed.
Lemma feature_lookup model : Attr (synthesizePrinterAttributes model) "ipp-features-supported" =
  match mIPPFeatures model with [] => None | features => Some (Keywords "ipp-features-supported" features) end.
Proof.
  rewrite synthesize_split. outside. unfold feature_attributes. destruct (mIPPFeatures model) as [|f l]; [done|].
  unfold Keywords. cbn. by rewrite !MakeAttr_eq.
Qed.
End lookups.

(** ** The media of a description *)

Lemma catalog_instances upstream policy : Instances (buildMediaCatalog upstream policy) = Sizes (buildMediaCatalog upstream policy).
Proof.
  unfold buildMediaCatalog. match goal with |- Instances (fold_left _ _ ?c) = _ => assert (Instances c = Sizes c) as H by done; revert H; generalize c end.
  induction (policyMediaNames policy) as [|n l IH]; intros c H; [done|]. cbn. apply IH. cbn. by rewrite H.
Qed.

(** Sizes whose names the policy has. *)
Definition of_policy (policy : PolicyConfig) (s : mediaSize) : Prop := Name s ∈ policyMediaNames policy.

Section media.
Context (upstream : Attributes) (policy : PolicyConfig).
Abbreviation catalog := (buildMediaCatalog upstream policy).

Lemma catalog_of_policy : Forall (of_policy policy) (Sizes catalog).
Proof. apply Forall_forall. intros s Hs. by apply (cat_sizes _ _ (buildMediaCatalog_ok upstream policy)). Qed.

Lemma add_ready_policy l tv : Forall (of_policy policy) l -> Forall (of_policy policy) (add_ready catalog l tv).
Proof.
  intros Hl. unfold add_ready, resolve_ready. destruct (mediaCollectionFromValue _) as [c|]; [|done]. cbn.
  destruct (_ <? 0); [done|]. rewrite catalog_instances. destruct (Sizes catalog !! _) as [s|] eqn:E; [|done]. cbn.
  destruct (containsReadyInstance _ _); [done|]. apply Forall_app. split; [done|]. apply Forall_singleton.
  pose proof catalog_of_policy as Hc. rewrite Forall_forall in Hc. apply (Hc s). by eapply list_elem_of_lookup_2.
Qed.
Lemma add_ready_name_policy l key : Forall (of_policy policy) l -> Forall (of_policy policy) (add_ready_name catalog l key).
Proof.
  intros Hl. unfold add_ready_name. destruct (hasReadyName _ _); [done|]. destruct (ByName catalog !! key) as [s|] eqn:E; [|done].
  apply Forall_app. split; [done|]. apply Forall_singleton. by apply (cat_by_name _ _ (buildMediaCatalog_ok upstream policy) key s).
Qed.
Lemma Forall_fold {A B} (P : A -> Prop) (f : list A -> B -> list A) : (forall l b, Forall P l -> Forall P (f l b)) ->
  forall k l, Forall P l -> Forall P (fold_left f k l).
Proof. intros Hf k. induction k as [|b k IH]; intros l Hl; [done|]. cbn. apply IH, Hf, Hl. Qed.
Lemma ready_sizes_policy `{MapRange} : Forall (of_policy policy) (ready_sizes upstream catalog).
Proof.
  unfold ready_sizes. cbv zeta. apply Forall_fold; [apply add_ready_name_policy|].
  destruct (Attr _ _); [|constructor]. apply Forall_fold; [apply add_ready_policy|constructor].
Qed.
Lemma default_size_policy : Name (match ByName catalog !! mediaNameKey (policyMediaDefault policy) with
    | Some s => s | None => hd (named_size "") (Sizes catalog) end) ∈ policyMediaNames policy.
Proof.
  pose proof (buildMediaCatalog_ok upstream policy) as Hok.
  destruct (ByName catalog !! _) as [s|] eqn:E; [by apply (cat_by_name _ _ Hok _ s E)|].
  pose proof (cat_nonempty _ _ Hok (policyMediaNames_nonempty policy)) as Hne. pose proof catalog_of_policy as Hc.
  destruct (Sizes catalog); [done|]. by apply Forall_cons in Hc as [Hc _].
Qed.
End media.

Lemma distinct_names_in seen sizes n : n ∈ distinct_names seen sizes -> exists s, s ∈ sizes /\ n = Name s.
Proof.
  revert seen. induction sizes as [|s l IH]; intros seen; cbn; [by intros ?%elem_of_nil|].
  destruct (bool_decide _); [|intros [->|Hn]%elem_of_cons; [exists s; split; [left|done]|]; revert Hn];
    intros (t & Ht & E)%IH; exists t; (split; [by right|done]).
Qed.

(** The media a description names: by keyword, and in its collections. *)
Definition size_names (v : Value) : list string :=
  match v with VCollection members => stringValues members "media-size-name" | _ => [] end.
Definition named_media (attr : Attribute) : list string := mjoin ((fun tv => size_names (val_V tv)) <$> aValues attr).
Definition advertised_media (attrs : Attributes) : list string :=
  stringValues attrs "media-supported" ++ stringValues attrs "media-default" ++ stringValues attrs "media-ready" ++
  mjoin ((fun n => match Attr attrs n with Some a => named_media a | None => [] end) <$>
         ["media-col-default"; "media-col-database"; "media-col-ready"]%string).

Lemma Attr_not_named l n : Forall (fun a => lower_name a <> ToLower n) l -> Attr l n = None.
Proof. intros H. apply lookup_absent. by apply Forall_forall. Qed.

Lemma description_value n s ty src : exists rest,
  mediaColDescriptionAttr n s ty src = (n, [(TagBeginCollection, VCollection
    ((if validMediaSizeName (Name s) then [Keyword "media-size-name" (Name s)] else []) ++ rest))]) /\
  Attr rest "media-size-name" = None.
Proof.
  unfold mediaColDescriptionAttr, appendKnownMargins. rewrite MakeAttribute_eq. eexists. split; [by rewrite <- app_assoc|].
  apply Attr_not_named. unfold keyword_unless_empty, known_margins, size_members.
  repeat (apply Forall_app; split);
    repeat match goal with |- Forall _ (match ?x with _ => _ end) => destruct x end;
    repeat constructor; unfold Keyword, Integer; rewrite ?MakeAttrCollection_eq, ?lower_MakeAttribute; done.
Qed.

Lemma description_named n s ty src m : m ∈ named_media (mediaColDescriptionAttr n s ty src) -> m = Name s.
Proof.
  destruct (description_value n s ty src) as (rest & -> & Hrest). unfold named_media. cbn. rewrite app_nil_r.
  unfold stringValues. rewrite Attr_app, Hrest. unfold Keyword. destruct (validMediaSizeName _); cbn; [|by intros ?%elem_of_nil].
  rewrite MakeAttribute_eq. cbn. by intros ?%list_elem_of_singleton.
Qed.

Lemma description_attr_named n sizes ty src m : m ∈ named_media (description_attr n sizes ty src) ->
  exists s, s ∈ sizes /\ m = Name s.
Proof.
  assert (omap (fun s => match aValues (mediaColDescriptionAttr n s ty src) with (_, v) :: _ => Some v | [] => None end) sizes =
    (fun s => match aValues (mediaColDescriptionAttr n s ty src) with (_, v) :: _ => v | [] => VNil end) <$> sizes) as E.
  { induction sizes as [|s l IH]; [done|]. cbn. destruct (description_value n s ty src) as (rest & -> & _). cbn. by rewrite <- IH. }
  unfold description_attr. rewrite E. destruct sizes as [|s l]; [by intros ?%elem_of_nil|]. cbn [fmap list_fmap].
  rewrite MakeAttr_eq. unfold named_media. cbn [snd fst]. intros H.
  change (m ∈ mjoin ((fun tv => size_names (val_V tv)) <$> map (pair TagBeginCollection)
    ((fun s => match aValues (mediaColDescriptionAttr n s ty src) with (_, v) :: _ => v | [] => VNil end) <$> (s :: l)))) in H.
  apply list_elem_of_join in H as (names & Hm & H). apply list_elem_of_fmap in H as ([t v] & -> & H).
  apply list_elem_of_In, in_map_iff in H as (v' & [= <- ->] & H). apply list_elem_of_In, list_elem_of_fmap in H as (s' & -> & Hs).
  exists s'. split; [done|]. apply (description_named n s' ty src). revert Hm. destruct (description_value n s' ty src) as (rest & -> & _).
  unfold named_media. cbn. by rewrite app_nil_r.
Qed.

(** ** The projected policy *)

Lemma EqualFold_empty n : EqualFold n "" = true -> n = ""%string.
Proof. intros H%EqualFold_true. by destruct n. Qed.

Lemma policyMediaNames_trimmed policy n : n ∈ policyMediaNames policy -> TrimSpace n = n.
Proof.
  unfold policyMediaNames. set (out := List.filter _ _). assert (n ∈ out -> TrimSpace n = n) as Hout.
  { unfold out. rewrite list_elem_of_In, filter_In, in_map_iff. intros [(m & <- & _) _]. apply TrimSpace_idemp. }
  destruct out as [|o out']; [|done]. destruct (negb _); intros H%list_elem_of_singleton; subst n; [apply TrimSpace_idemp|done].
Qed.
Lemma trimmed_names l : Forall (fun n => TrimSpace n = n /\ n <> ""%string) l ->
  List.filter (fun n => negb (n =? "")%string) (map TrimSpace l) = l.
Proof.
  induction 1 as [|n l [Ht Hn] _ IH]; [done|]. cbn. rewrite Ht, IH. by destruct (String.eqb_spec n "").
Qed.

Record projected (upstream : Attributes) (policy p : PolicyConfig) : Prop := {
  pj_names : policyMediaNames p = List.filter (policyMediaSupportedByUpstream upstream policy) (policyMediaNames policy);
  pj_default : containsFold (policyMediaNames p) (policyMediaDefault p) = true;
  pj_media : pMediaSupported p = policyMediaNames p
}.

Lemma containsFold_first l n : n ∈ l -> containsFold l n = true.
Proof. intros H. apply existsb_exists. exists n. split; [by apply list_elem_of_In|]. apply EqualFold_refl. Qed.

Lemma ProjectPolicy_projected upstream policy w p :
  ProjectPolicyAgainstUpstream upstream policy = (w, Ok p) -> projected upstream policy p.
Proof.
  unfold ProjectPolicyAgainstUpstream. cbv zeta. set (media := List.filter _ (policyMediaNames policy)).
  assert (Forall (fun n => TrimSpace n = n /\ n <> ""%string) media) as Hm.
  { apply Forall_forall. intros n Hn. apply list_elem_of_In, filter_In in Hn as [Hn _]. apply list_elem_of_In in Hn.
    split; [by eapply policyMediaNames_trimmed|by eapply policyMediaNames_named]. }
  destruct media as [|m0 rest] eqn:Em; [done|]. rewrite <- Em in *.
  destruct (project_media media policy) as [projected more] eqn:Ep. destruct (project_keywords _ _) as [kept [e|]]; [done|].
  intros [= _ <-]. unfold project_media in Ep. cbv zeta in Ep. injection Ep as <- _.
  set (wanted := if (TrimSpace (pMediaDefault policy) =? "")%string then _ else _).
  assert (forall q, pMediaSupported q = media -> policyMediaNames q = media) as Hnames.
  { intros q Hq. unfold policyMediaNames. by rewrite Hq, trimmed_names, Em by done. }
  split; [by apply Hnames| |symmetry; by apply Hnames]. rewrite Hnames by done. unfold policyMediaDefault. cbn [pMediaDefault].
  assert (TrimSpace wanted = wanted) as Ht.
  { unfold wanted. destruct (_ =? _)%string; [|apply TrimSpace_idemp]. destruct (pMedia policy =? "")%string; apply TrimSpace_idemp. }
  destruct (containsFold media wanted) eqn:Ef.
  - rewrite Ht. destruct (String.eqb_spec wanted "") as [E|]; [|done].
    rewrite E in Ef. apply existsb_exists in Ef as (v & Hv & He%EqualFold_empty). rewrite Forall_forall in Hm.
    apply list_elem_of_In in Hv. by destruct (Hm v Hv).
  - rewrite Em in Hm |- *. apply Forall_cons in Hm as [[H1 H2] _]. cbn [hd]. rewrite H1.
    destruct (String.eqb_spec m0 ""); [done|]. apply containsFold_first. left.
Qed.

Lemma projected_not_empty upstream policy p : projected upstream policy p -> policyConfigEmpty p = false.
Proof.
  intros [_ _ H]. unfold policyConfigEmpty. rewrite H. rewrite (bool_decide_eq_false_2 (policyMediaNames p = [])).
  - by rewrite andb_false_r.
  - apply policyMediaNames_nonempty.
Qed.

(** ** The formats of a description *)

Lemma lookup_DropAttrs l names n : existsb (fun m => EqualFold n m) names = false -> Attr (DropAttrs l names) n = Attr l n.
Proof.
  intros Hn. unfold DropAttrs. induction l as [|a l IH]; [done|]. cbn.
  destruct (EqualFold (aName a) n) eqn:E.
  - rewrite bool_decide_eq_false_2; [cbn; by rewrite E|]. unfold name_set. rewrite elem_of_list_to_set, list_elem_of_fmap.
    intros (m & Em & Hm). assert (existsb (fun m => EqualFold n m) names = true) as Ht; [|congruence].
    apply existsb_exists. exists m. split; [by apply list_elem_of_In|]. apply EqualFold_true in E. apply EqualFold_true.
    unfold name_eq in *. by rewrite <- E.
  - destruct (negb _); [cbn; by rewrite E|done].
Qed.
Lemma lookup_dropped l names n : existsb (fun m => EqualFold n m) names = true -> Attr (DropAttrs l names) n = None.
Proof.
  intros (m & Hm & E%EqualFold_true)%existsb_exists. apply Attr_None, DropAttrs_not_named, Exists_exists.
  exists m. split; [by apply list_elem_of_In|done].
Qed.
Lemma lookup_replaced l a n : Attr (replaced l a) n = if EqualFold (aName a) n then Some a else Attr l n.
Proof.
  unfold replaced. rewrite SetAttr_lookup. destruct (EqualFold (aName a) n) eqn:E; [done|]. apply lookup_DropAttrs.
  cbn. rewrite orb_false_r. unfold EqualFold in *. by rewrite String.eqb_sym.
Qed.
Lemma lookup_emulated attrs routes n : in_strings (ToLower n)
    ["pwg-raster-document-type-supported"; "pwg-raster-document-resolution-supported"]%string = false ->
  Attr (applyEmulatedRasterCapabilities attrs routes) n = Attr attrs n.
Proof.
  intros Hn. cbn in Hn. apply orb_false_iff in Hn as [H1 [H2 _]%orb_false_iff].
  assert (forall m l a, lower_name a = m -> (ToLower n =? m)%string = false -> Attr (replaced l a) n = Attr l n) as Hr.
  { intros m l a <- H. rewrite lookup_replaced. unfold EqualFold. change (ToLower (aName a)) with (lower_name a).
    by rewrite String.eqb_sym, H. }
  unfold applyEmulatedRasterCapabilities. destruct (List.find _ _) as [r|]; [|done]. cbv zeta.
  destruct (map _ _).
  - destruct (_ =? "")%string; [done|]. eapply Hr; [|exact H1]. unfold Keyword. names.
  - rewrite (Hr "pwg-raster-document-resolution-supported"%string) by (try done; names).
    destruct (_ =? "")%string; [done|]. eapply Hr; [|exact H1]. unfold Keyword. names.
Qed.

Section formats.
Implicit Types (routes : RouteSnapshot).

Lemma uniqueStrings_id l : NoDup l -> uniqueStrings l = l.
Proof.
  unfold uniqueStrings. intros Hn. assert (forall seen : gset string, (forall x, x ∈ l -> x ∉ seen) -> unique_from seen l = l) as H.
  { induction Hn as [|x l Hx Hn IH]; intros seen Hs; [done|]. cbn. rewrite bool_decide_eq_false_2 by (apply Hs; left).
    f_equal. apply IH. intros y Hy. specialize (Hs y ltac:(by right)). set_solver. }
  apply H. set_solver.
Qed.

Lemma routed_lookups base routes : NoDup (map ClientFormat (Routes routes)) -> Routes routes <> [] ->
  let out := applyRouteCapabilities base routes in
  Attr out "document-format-supported" =
    Some ("document-format-supported"%string, map (pair TagMimeType) (map VString (map ClientFormat (Routes routes)))) /\
  Attr out "urf-supported" = match snapPath routes with AirPrintPathUnavailable => None
                             | _ => Some (Keywords "urf-supported" (URFTokens routes)) end.
Proof.
  intros Hn Hne. unfold applyRouteCapabilities, formatRouteList. rewrite uniqueStrings_id by done. cbv zeta.
  destruct (map VString (map ClientFormat (Routes routes))) as [|v rest] eqn:E.
  { exfalso. apply Hne. by destruct (Routes routes). }
  set (result := SetAttr _ (MakeAttr _ _ _ _)).
  assert (Attr result "document-format-supported" = Some ("document-format-supported"%string, map (pair TagMimeType) (v :: rest))) as Hd.
  { unfold result. by rewrite SetAttr_lookup, MakeAttr_eq. }
  set (urf := SetAttr (DropAttrs result ["urf-supported"%string]) _).
  assert (Attr urf "document-format-supported" = Attr result "document-format-supported" /\
          Attr urf "urf-supported" = Some (Keywords "urf-supported" (URFTokens routes))) as [Hu1 Hu2].
  { unfold urf. rewrite !SetAttr_lookup. unfold EqualFold. change (aName ?a) with (aName a).
    assert (ToLower (aName (Keywords "urf-supported" (URFTokens routes))) = "urf-supported"%string) as -> by apply lower_Keywords.
    cbn. by rewrite lookup_DropAttrs. }
  destruct (snapPath routes).
  - by rewrite Hu1, Hu2.
  - assert (forall n, in_strings (ToLower n) ["pwg-raster-document-type-supported"; "pwg-raster-document-resolution-supported"]%string = false ->
      is_Some (Attr urf n) -> Attr (let r := applyEmulatedRasterCapabilities urf routes in
        match Attr r "document-format-default" with Some _ => r
        | None => r ++ [MakeAttribute "document-format-default" TagMimeType (VString "image/urf")] end) n = Attr urf n) as Hk.
    { intros n Hin [a Ha]. cbv zeta. destruct (Attr (applyEmulatedRasterCapabilities urf routes) "document-format-default");
        rewrite ?Attr_app, lookup_emulated by done; by rewrite ?Ha. }
    cbv zeta in Hk. rewrite !Hk; try done; [by rewrite Hu1, Hu2|..]; by rewrite ?Hu2, ?Hu1, ?Hd.
  - rewrite lookup_DropAttrs, lookup_dropped by done. by rewrite Hd.
Qed.

(** Without a route only the URF tokens go; with one, the default changes only
    where an emulated path has none. *)
Lemma unrouted_lookup base routes n : Routes routes = [] -> EqualFold n "urf-supported" = false ->
  Attr (applyRouteCapabilities base routes) n = Attr base n.
Proof.
  intros E Hn. unfold applyRouteCapabilities, formatRouteList. rewrite E. apply lookup_DropAttrs. cbn. by rewrite Hn.
Qed.
Lemma default_lookup base routes : NoDup (map ClientFormat (Routes routes)) -> Routes routes <> [] ->
  Attr (applyRouteCapabilities base routes) "document-format-default" =
  match Attr base "document-format-default", snapPath routes with
  | None, AirPrintPathEmulated => Some (MakeAttribute "document-format-default" TagMimeType (VString "image/urf"))
  | attr, _ => attr
  end.
Proof.
  intros Hn Hne. unfold applyRouteCapabilities, formatRouteList. rewrite uniqueStrings_id by done. cbv zeta.
  destruct (map VString (map ClientFormat (Routes routes))) as [|v rest] eqn:E.
  { exfalso. apply Hne. by destruct (Routes routes). }
  set (result := SetAttr _ (MakeAttr _ _ _ _)).
  assert (Attr result "document-format-default" = Attr base "document-format-default") as Hd.
  { unfold result. rewrite SetAttr_lookup, MakeAttr_eq. cbn. by rewrite lookup_DropAttrs. }
  set (urf := SetAttr (DropAttrs result ["urf-supported"%string]) _).
  assert (Attr urf "document-format-default" = Attr base "document-format-default") as Hu.
  { unfold urf. rewrite SetAttr_lookup. unfold EqualFold. change (aName ?a) with (aName a).
    assert (ToLower (aName (Keywords "urf-supported" (URFTokens routes))) = "urf-supported"%string) as -> by apply lower_Keywords.
    cbn. by rewrite lookup_DropAttrs. }
  destruct (snapPath routes).
  - rewrite Hu. by destruct (Attr base _).
  - rewrite lookup_emulated by done. rewrite Hu. destruct (Attr base _) as [a|] eqn:Ea.
    + by rewrite lookup_emulated, Hu.
    + rewrite Attr_app, lookup_emulated, Hu by done. by rewrite MakeAttribute_eq.
  - rewrite lookup_DropAttrs, Hd by done. by destruct (Attr base _).
Qed.

Lemma routeFor_iff upstream policy printer format r : let s := buildRouteSnapshot upstream policy printer in
  routeFor s format = Some r <-> r ∈ Routes s /\ ClientFormat r = ToLower (TrimSpace format).
Proof.
  intros s. destruct (snapshot_clients upstream policy printer) as [Hn Hc]. unfold routeFor.
  apply head_filter_unique; [done|]. intros x Hx. by apply matches_canonical, Hc.
Qed.

Lemma mime_value_admitted formats values : hasMimeTypeValue (formats, values) "image/urf" = true ->
  exists t text, (t, VString text) ∈ values /\ t = TagMimeType /\ ToLower text = "image/urf"%string.
Proof.
  unfold hasMimeTypeValue. cbn. assert (forall found, mime_value_loop values "image/urf" found = true -> found = false ->
    exists t text, (t, VString text) ∈ values /\ t = TagMimeType /\ ToLower text = "image/urf"%string) as H.
  { induction values as [|[t v] l IH]; intros found; cbn; [by intros -> |].
    destruct (Z.eqb_spec t TagMimeType) as [->|]; [|done]. destruct v as [|text| | | | | |]; try done. cbn [negb].
    intros Hl ->. destruct (EqualFold text "image/urf") eqn:E.
    - exists TagMimeType, text. split; [left|]. split; [done|]. by apply EqualFold_true in E.
    - destruct (IH _ Hl eq_refl) as (t & text' & Hin & H). exists t, text'. split; [by right|done]. }
  intros Hl. by apply (H false).
Qed.

(** A queue offers image/urf exactly when it has a path for it. *)
Lemma urf_route upstream policy printer : let s := buildRouteSnapshot upstream policy printer in
  "image/urf"%string ∈ map ClientFormat (Routes s) <-> snapPath s <> AirPrintPathUnavailable.
Proof.
  intros s. assert ("image/urf"%string ∈ map ClientFormat (direct_routes upstream policy) -> is_Some (native_tokens upstream policy)) as Hd.
  { intros (r & Hr & Hin)%list_elem_of_In%in_map_iff. apply list_elem_of_In, elem_of_direct in Hin as (f & -> & Hf).
    by apply (df_urf _ _ _ Hf). }
  destruct (snapshot_cases upstream policy printer) as [(tk & En & Er & Ep & _)|[(En & Er & Ep & _)|(En & _ & m & p & l & tk & _ & Er & Ep & _)]];
    fold s in Er, Ep; rewrite Er, Ep.
  - split; [done|]. intros _. apply list_elem_of_In, in_map_iff. eexists. split; [|apply list_elem_of_In, elem_of_direct; eexists; split; [done|split]].
    + done.
    + unfold native_tokens, validURFFamily in En. unfold admittedUpstreamFormats. destruct (Attr upstream "document-format-supported") as [[n values]|]; [|done].
      destruct (Attr upstream "urf-supported"); [|done]. destruct (hasMimeTypeValue _ _) eqn:Eh; [|done].
      apply mime_value_admitted in Eh as (t & text & Hin & -> & Hl). apply elem_of_uniqueStrings, list_elem_of_omap.
      exists (TagMimeType, VString text). split; [done|]. cbn. rewrite <- TrimSpace_ToLower, Hl. reflexivity.
    + intros _. by rewrite En.
    + done.
  - split; [|done]. intros H%Hd. rewrite En in H. by apply is_Some_None in H.
  - split; [done|]. intros _. rewrite map_app. apply elem_of_app. right. left.
Qed.
End formats.
End segments.
