(* ===== verification/Discovery.v ===== *)
(** * What a queue publishes ([internal/proxy/discovery.go], [service.go])

    The TXT data of a queue, made of the description its clients are shown and
    of the profiles it is ready for, and the input of the DNS-SD publisher. *)

From Stdlib Require Import ZArith Lia Ascii String.
From stdpp Require Import base tactics list strings gmap sorting.
From S2P Require Import DnsSd Configuration.
From S2P Require Import Prelude GoString GoError GoTime GoUrl Goipp IppAttrs MediaCatalog Formats.
From S2P Require Import PrinterDescription Capabilities.

(** The strict family, or a family without a color-space token. *)
Definition validAdvertisedURFFamily (attrs : Attributes) : bool :=
  if validURFFamily attrs then true else
  match Attr attrs "document-format-supported", Attr attrs "urf-supported" with
  | Some formats, Some attr =>
      hasMimeTypeValue formats "image/urf" && negb (length (aValues attr) =? 0)%nat &&
      match see_values (aValues attr) {| seen_tokens := 0; seen_width := false; seen_colorSpace := false;
                                         seen_resolution := false |} with
      | Some s => (2 <=? seen_tokens s) && seen_width s && seen_resolution s
      | None => false
      end
  | _, _ => false
  end.

(** [txt[key] = value] when there is one. *)
Definition put (key : string) (value : option string) (txt : TXT_data) : TXT_data :=
  match value with Some v => <[key := v]> txt | None => txt end.

Definition published_formats (attrs : Attributes) : list string :=
  merge_sort String.le (List.filter (fun f => negb (EqualFold f "application/octet-stream"))
    (stringValues attrs "document-format-supported")).

Section discovery.
Context `{G : GoippLib}.

Definition printerDNSSDTXTForProfiles (resourcePath name location : string) (attrs : Attributes)
    (profiles : CapabilityProfiles) : TXT_data :=
  let upstreamModel := FirstString attrs "printer-make-and-model" in
  let model := match upstreamModel with
               | Some m => if (TrimSpace m =? "")%string then name else m
               | None => name
               end in
  let formats := published_formats attrs in
  let flag (b : bool) := Some (if b then "T" else "F")%string in
  let sides := stringValues attrs "sides-supported" in
  let urf := stringValues attrs "urf-supported" in
  let txt : TXT_data := <["txtvers" := "1"]> (<["qtotal" := "1"]>
    (<["rp" := trim_left_by (Ascii.eqb "/") resourcePath]> (<["ty" := model]> ∅)))%string in
  let txt := put "note" (if (location =? "")%string then None else Some location) txt in
  let txt := put "pdl" (match formats with [] => None | _ => Some (Join formats ",") end) txt in
  let txt := put "Color" (flag (containsFold (stringValues attrs "print-color-mode-supported") "color")) txt in
  let txt := put "Duplex" (flag (containsFold sides "two-sided-long-edge" || containsFold sides "two-sided-short-edge")) txt in
  let txt := put "UUID" ((fun uuid => TrimPrefix (ToLower uuid) "urn:uuid:") <$> FirstString attrs "printer-uuid") txt in
  let txt := put "product" (match upstreamModel with
                            | Some m => if (m =? "")%string then None else Some ("(" +:+ m +:+ ")")
                            | None => None
                            end) txt in
  put "URF" (if prReady (pfAirPrint profiles) && negb (bool_decide (urf = [])) && validAdvertisedURFFamily attrs
             then Some (Join urf ",") else None) txt.

Definition ready_profile : CapabilityProfile := {| prEnabled := false; prReady := true; prReason := ""; prWarnings := [] |}.
Definition printerDNSSDTXT (resourcePath name location : string) (attrs : Attributes) : TXT_data :=
  printerDNSSDTXTForProfiles resourcePath name location attrs
    {| pfOrdinary := ready_profile; pfAirPrint := ready_profile; pfIPPEverywhere := ready_profile |}.

(** ** Hosts *)

Definition canonicalDNSHost (raw : string) : string := ToLower (TrimSuffix (TrimSpace raw) ".").
Definition hostsMatchOrAreAllowedAliases (dnsSDHostname publicEndpointHost : string) (allowedAliases : list string) : bool :=
  let dnsHost := canonicalDNSHost dnsSDHostname in
  let publicHost := canonicalDNSHost publicEndpointHost in
  (dnsHost =? publicHost)%string ||
  existsb (fun alias => (canonicalDNSHost alias =? dnsHost)%string || (canonicalDNSHost alias =? publicHost)%string)
    allowedAliases.

(** ** The input of the publisher *)

Section input.
Context `{I : IPLiterals} `{U : UUIDs} `{R : MapRange}.

(** The port of the public URI. *)
Definition public_port (port : string) : res goerr Z :=
  if (port =? "")%string then Ok 631 else
  match Atoi port with
  | Some p => if (p <? 1) || (65535 <? p) then Err (EText "invalid public printer port") else Ok (u16 p)
  | None => Err (EText "invalid public printer port")
  end.

(** The host of the publication: the configured one, the name of the machine,
    or the host of the public URI. *)
Definition publication_host (configured : string) (localHostname : option string) (publicHost : string) : string :=
  if negb (configured =? "")%string then configured
  else match localHostname with
       | Some resolved => if (TrimSpace resolved =? "")%string then publicHost else TrimSuffix (TrimSpace resolved) "."
       | None => publicHost
       end.

(** [Service.dnsServiceInputWithProfiles]: the URI of the queue and the
    description its clients are shown are arguments; so is the name of the
    machine, [None] when the lookup fails. *)
Definition dnsServiceInputWithProfiles (cfg : DNSSDConfig) (localHostname : option string) (printerURI : string)
    (printer : Configuration.PrinterConfig) (upstream clientAttrs : Attributes) (profiles : CapabilityProfiles)
    : res goerr ServiceInput :=
  match Parse printerURI with
  | Some parsed =>
      if (GoUrl.Hostname parsed =? "")%string then Err (EText ("invalid public printer URI " +:+ Quote printerURI)) else
      port ← public_port (Port parsed);
      let geo := default ""%string (FirstString upstream "printer-geo-location") in
      Ok {| iName := DisplayName printer;
            iHostname := publication_host (Configuration.Hostname cfg) localHostname (GoUrl.Hostname parsed);
            iPort := port; iIPPS := false; iInterface := Interface cfg;
            iTXT := printerDNSSDTXTForProfiles (EscapedPath parsed) (DisplayName printer) (Location printer) clientAttrs profiles;
            iGeoLocation := if (geo =? "")%string then GeoLocation printer else geo;
            iProfiles := {| Ordinary := prReady (pfOrdinary profiles); AirPrint := prReady (pfAirPrint profiles);
                            IPPEverywhere := prReady (pfIPPEverywhere profiles) |};
            iProfilesSet := true; iMaxCollisionRetries := 0 |}
  | None => Err (EText ("invalid public printer URI " +:+ Quote printerURI))
  end.
End input.
End discovery.
