(* ===== verification/CapabilityTheorems.v ===== *)
(** * Correctness of the description of a queue

    What a client of the queue is shown is the proxy's: no attribute of the
    printer gets into it except the ones that may, every medium it names is one
    the policy allows and the printer has, every format one the router admits,
    and the profiles it claims are the ones the queue is ready for. *)

From Stdlib Require Import ZArith Lia Ascii String.
From stdpp Require Import base tactics list strings gmap.
From S2P Require Import Configuration Urf Routing RoutingTheorems.
From S2P Require Import Prelude GoString GoError GoTime GoUrl Goipp IppAttrs MediaCatalog Normalizer NormalizerTheorems Formats.
From S2P Require Import Messages PrinterDescription Capabilities CapabilityProofs.

Section theorems.
Context `{G : GoippLib} `{I : IPLiterals} `{U : UUIDs} `{R : MapRange}.

(** The attributes of a description that do not depend on the printer. *)
Definition proxy_attributes (model : CapabilityModel) : Attributes :=
  let policy := settings (Configuration.Policy (mPrinter model)) in
  queue_attributes (mProxyURI model) (mPrinter model) ++ owned_attributes ++
  proxyPrinterIdentityAttributes (shown_identity (mIdentity model) (mProxyURI model)) ++
  [Keywords "media-supported" (policyMediaNames policy); Keyword "media-default" (policyMediaDefault policy);
   Keyword "media-type-supported" (pMediaType policy); Keyword "media-type-default" (pMediaType policy)] ++
  color_attributes policy ++
  [operationsSupportedAttrFor (default [] (mOperations model)); Boolean "multiple-document-jobs-supported" false].

(** A description never has two attributes of one name, up to case, when
    the printer's has none. *)
Theorem description_names model : NoDup (lower_names (mUpstream model)) ->
  NoDup (lower_names (synthesizePrinterAttributes model)).
Proof.
  intros Hn. rewrite synthesize_split.
  apply (segment_app _ _ _ _ (state_segment model Hn) (added_segment model)).
  intros n Hs Ha. by apply (state_name_added n).
Qed.

Lemma state_lookup model a : a ∈ queue_attributes (mProxyURI model) (mPrinter model) ++ owned_attributes ->
  Attr (shown_state model) (aName a) = Some a.
Proof.
  set (queue := queue_attributes _ _).
  assert (NoDup (lower_names (queue ++ owned_attributes))) as Hn.
  { rewrite lower_names_app. unfold queue. rewrite queue_names, owned_names. by apply (bool_decide_unpack _). }
  rewrite lower_names_app in Hn. apply NoDup_app in Hn as (Hq & Hd & Ho).
  intros Ha. apply lookup_fold_append. rewrite lookup_fold_SetAttr by done. apply elem_of_app in Ha as [Ha|Ha].
  2: by rewrite (lookup_segment owned_attributes a).
  rewrite (lookup_absent owned_attributes).
  2: { intros b Hb E. apply (Hd (lower_name a)); [by apply elem_of_lower_names|]. unfold lower_name at 1. rewrite <- E.
       by apply elem_of_lower_names. }
  rewrite Attr_app, lookup_absent; [by apply lookup_segment|].
  intros b Hb E. apply elem_of_passthrough in Hb as [_ Hb%passes_safe]. change (lower_name b = lower_name a) in E. rewrite E in Hb.
  apply elem_of_lower_names in Ha. unfold queue in Ha. rewrite queue_names in Ha.
  apply queue_name_not_safe in Ha. congruence.
Qed.

Lemma added_lookup model a : a ∈ added model -> Attr (synthesizePrinterAttributes model) (aName a) = Some a.
Proof.
  destruct (added_segment model) as [Hn HA]. intros Ha. rewrite synthesize_split, Attr_app, lookup_absent.
  - by apply lookup_segment.
  - intros b Hb E. apply (state_name_added (lower_name b)).
    + apply shown_state_sources in Hb as [[_ Hb]|Hb]; [left; by apply passes_safe|by right].
    + change (lower_name b = lower_name a) in E. rewrite E. by apply HA.
Qed.

(** C24: Nothing of the printer gets into a description under a name of the
    proxy. Every attribute is one of the printer's that may pass, unchanged, or
    has a name the proxy owns; and the identity, the media and color policy,
    the operations and the protocol attributes are the proxy's, whatever the
    printer reports. *)
Theorem description_owned model : let out := synthesizePrinterAttributes model in
  (forall a, a ∈ out -> (a ∈ mUpstream model /\ passes a = true) \/ lower_name a ∈ state_names ++ added_names) /\
  (forall a, a ∈ proxy_attributes model -> Attr out (aName a) = Some a).
Proof.
  cbv zeta. split.
  - intros a. rewrite synthesize_split. intros [Ha|Ha]%elem_of_app.
    + apply shown_state_sources in Ha as [Ha|Ha]; [by left|right]. apply elem_of_app. by left.
    + right. apply elem_of_app. right. by apply (added_segment model).
  - intros a Ha. assert (a ∈ queue_attributes (mProxyURI model) (mPrinter model) ++ owned_attributes \/ a ∈ added model) as [H|H].
    { unfold proxy_attributes, added, operation_attributes, media_attributes in *. cbv zeta in *. rewrite !elem_of_app, !elem_of_cons, !elem_of_nil in Ha. rewrite !elem_of_app, !elem_of_cons.
      tauto. }
    + by rewrite synthesize_split, Attr_app, state_lookup.
    + by apply added_lookup.
Qed.

(** ** Media *)

Lemma text_values t l : omap (fun tv => stringValue (val_V tv)) (map (pair t) (map VString l)) = l.
Proof. induction l as [|v l IH]; [done|]. cbn. f_equal. apply IH. Qed.
Lemma Keywords_values n l a : Keywords n l = a -> omap (fun tv => stringValue (val_V tv)) (aValues a) = l.
Proof.
  intros <-. unfold Keywords. destruct l as [|v l]; [done|]. cbn [map]. rewrite MakeAttr_eq. apply (text_values TagKeyword (v :: l)).
Qed.
Lemma aName_Keywords n l : aName (Keywords n l) = n.
Proof. unfold Keywords. destruct (map VString l); [done|]. by rewrite MakeAttr_eq. Qed.
Lemma stringValues_Keywords attrs n l : Attr attrs (aName (Keywords n l)) = Some (Keywords n l) -> stringValues attrs n = l.
Proof. rewrite aName_Keywords. intros H. unfold stringValues. rewrite H. by eapply Keywords_values. Qed.
Lemma Keyword_Keywords n v : Keyword n v = Keywords n [v].
Proof. done. Qed.

(** The attributes of the media part of a description. *)
Lemma media_lookup model a : let policy := settings (Configuration.Policy (mPrinter model)) in
  a ∈ media_attributes (buildMediaCatalog (mUpstream model) policy) policy ->
  Attr (synthesizePrinterAttributes model) (aName a) = Some a.
Proof.
  intros policy Ha. apply added_lookup. unfold added. cbv zeta. apply elem_of_app. right. apply elem_of_app. by left.
Qed.

Lemma ready_attributes upstream catalog policy : filteredReadyAttributes upstream catalog policy =
  let sizes := ready_sizes upstream catalog in
  if bool_decide (sizes = []) then []
  else [Keywords "media-ready" (distinct_names ∅ sizes); mediaColReadyAttr sizes (pMediaType policy) (policyMediaSource policy)].
Proof.
  unfold filteredReadyAttributes. cbv zeta. destruct (ready_sizes _ _) as [|s l]; [done|].
  rewrite bool_decide_eq_false_2 by done. cbn [distinct_names]. by rewrite bool_decide_eq_false_2 by set_solver.
Qed.

Lemma aName_description_attr n sizes ty src : aName (description_attr n sizes ty src) = n.
Proof. unfold description_attr. destruct (omap _ _); [done|]. by rewrite MakeAttr_eq. Qed.

(** The media a description names are the policy's. *)
Lemma advertised_of_policy model n : let policy := settings (Configuration.Policy (mPrinter model)) in
  n ∈ advertised_media (synthesizePrinterAttributes model) -> n ∈ policyMediaNames policy \/ n = policyMediaDefault policy.
Proof.
  intros policy. unfold advertised_media. rewrite !elem_of_app. set (out := synthesizePrinterAttributes model).
  pose proof (fun a => media_lookup model a) as Hl. cbv zeta in Hl. fold policy out in Hl.
  pose proof (catalog_of_policy (mUpstream model) policy) as Hcat. rewrite Forall_forall in Hcat.
  pose proof (ready_sizes_policy (mUpstream model) policy) as Hr. rewrite Forall_forall in Hr.
  pose proof (fun n => ready_lookup model n) as Hready. fold policy in Hready. fold out in Hready.
  set (catalog := buildMediaCatalog (mUpstream model) policy) in *. rewrite ready_attributes in Hready. cbv zeta in Hready.
  assert (forall name l, Keywords name l ∈ media_attributes catalog policy -> stringValues out name = l) as Hk.
  { intros name l Hin. by apply stringValues_Keywords, Hl. }
  assert (forall name a, a ∈ media_attributes catalog policy -> aName a = name -> Attr out name = Some a) as Ha.
  { intros name a Hin <-. by apply Hl. }
  intros [H|[H|[H|H]]].
  - rewrite (Hk _ (policyMediaNames policy)) in H; [by left|]. unfold media_attributes. left.
  - rewrite (Hk _ [policyMediaDefault policy]) in H; [right; by apply list_elem_of_singleton in H|]. unfold media_attributes. right. left.
  - left. specialize (Hready "media-ready"%string ltac:(left)). destruct (bool_decide _).
    + unfold stringValues in H. rewrite Hready in H. by apply elem_of_nil in H.
    + rewrite (stringValues_Keywords _ _ (distinct_names ∅ (ready_sizes (mUpstream model) catalog))) in H.
      * apply distinct_names_in in H as (s & Hs & ->). by apply Hr.
      * rewrite aName_Keywords, Hready. cbn [Attr]. by rewrite aName_Keywords.
  - left. apply list_elem_of_join in H as (names & Hn & H). rewrite list_elem_of_fmap in H. destruct H as (name & -> & H).
    rewrite !elem_of_cons, elem_of_nil in H. destruct H as [->|[->|[->|[]]]].
    + erewrite (Ha "media-col-default"%string) in Hn; [|unfold media_attributes; cbv zeta; do 3 right; left|].
      2: by destruct (description_value "media-col-default" (match ByName catalog !! mediaNameKey (policyMediaDefault policy) with
           | Some s => s | None => hd (named_size "") (Sizes catalog) end) (pMediaType policy) (policyMediaSource policy)) as (r & -> & _).
      apply description_named in Hn as ->. apply default_size_policy.
    + erewrite (Ha "media-col-database"%string) in Hn; [|unfold media_attributes; cbv zeta; do 4 right; left|apply aName_description_attr].
      apply description_attr_named in Hn as (s & Hs & ->). by apply Hcat.
    + specialize (Hready "media-col-ready"%string ltac:(right; left)). rewrite Hready in Hn.
      destruct (bool_decide _); [by apply elem_of_nil in Hn|]. cbn [Attr] in Hn. rewrite aName_Keywords in Hn.
      unfold mediaColReadyAttr in Hn. rewrite aName_description_attr in Hn. cbn in Hn.
      apply description_attr_named in Hn as (s & Hs & ->). by apply Hr.
Qed.

(** C12: The media a client is offered, as keywords or in collections, as
    default or as ready, are media of the configured policy that the printer
    supports, whatever else the printer describes. *)
Theorem advertised_media_supported upstream queue proxyURI printer options metadata w p n :
  ProjectPolicyAgainstUpstream upstream (settings (Configuration.Policy printer)) = (w, Ok p) ->
  oEffectivePolicy options = p ->
  n ∈ advertised_media (default [] (mAttributes (NewCapabilityModel upstream queue proxyURI printer options metadata))) ->
  exists m, m ∈ policyMediaNames (settings (Configuration.Policy printer)) /\ EqualFold m n = true /\
    policyMediaSupportedByUpstream upstream (settings (Configuration.Policy printer)) m = true.
Proof.
  intros Hp%ProjectPolicy_projected <- Hn. set (policy := settings (Configuration.Policy printer)) in *.
  assert (exists m, m ∈ policyMediaNames (oEffectivePolicy options) /\ EqualFold m n = true) as (m & Hm & E).
  { unfold NewCapabilityModel, SynthesizeCapabilityModel in Hn. cbv zeta in Hn. cbn [mAttributes with_attributes default] in Hn.
    apply advertised_of_policy in Hn. cbn [mPrinter with_policy Configuration.Policy settings] in Hn.
    cbn [mPolicy new_model] in Hn. rewrite !(projected_not_empty _ _ _ Hp) in Hn. destruct Hn as [Hn| ->].
    - exists n. split; [done|]. apply EqualFold_refl.
    - pose proof (pj_default _ _ _ Hp) as Hd. apply existsb_exists in Hd as (m & Hm & Hd). exists m. split; [by apply list_elem_of_In|done]. }
  exists m. rewrite (pj_names _ _ _ Hp) in Hm. apply list_elem_of_In, filter_In in Hm as [Hm Hs]. split; [by apply list_elem_of_In|done].
Qed.

(** ** Formats *)

(** A model as the synthesis leaves it: its routes are those of the printer. *)
Definition routed (model : CapabilityModel) (routes : RouteSnapshot) : Prop :=
  mRoutes model = Some routes /\
  routes = buildRouteSnapshot (mUpstream model) (settings (Configuration.Policy (mPrinter model))) (service_printer (mPrinter model)).

Lemma formats_attributes model routes : routed model routes -> let out := synthesizePrinterAttributes model in
  (Routes routes <> [] -> Attr out "document-format-supported" =
    Some ("document-format-supported"%string, map (pair TagMimeType) (map VString (map ClientFormat (Routes routes))))) /\
  Attr out "urf-supported" = match snapPath routes with AirPrintPathUnavailable => None
                             | _ => Some (Keywords "urf-supported" (URFTokens routes)) end.
Proof.
  intros [Hm Hr]. cbv zeta. rewrite !format_lookup.
  2: unfold format_names; rewrite !elem_of_cons; tauto. 2: left.
  unfold routeSnapshotForModel. rewrite Hm. destruct (Routes routes) as [|r l] eqn:El.
  - split; [done|]. unfold applyRouteCapabilities, formatRouteList. rewrite El. cbn [map]. change (map VString (uniqueStrings [])) with (@nil Value).
    cbv iota. rewrite lookup_dropped by done. destruct (urf_route (mUpstream model) (settings (Configuration.Policy (mPrinter model)))
      (service_printer (mPrinter model))) as [_ Hu]. rewrite <- Hr, El in Hu.
    destruct (snapPath routes); [..|done]; by specialize (Hu ltac:(done)); apply elem_of_nil in Hu.
  - rewrite <- El. assert (Routes routes <> []) as Hne by by rewrite El.
    assert (NoDup (map ClientFormat (Routes routes))) as Hn by (rewrite Hr; apply snapshot_clients).
    destruct (routed_lookups (synthesizedFormatAttributes (mUpstream model) (settings (Configuration.Policy (mPrinter model)))) routes Hn Hne)
      as [-> ->]. done.
Qed.
Lemma formats_lookup model routes : routed model routes -> Routes routes <> [] ->
  let out := synthesizePrinterAttributes model in
  stringValues out "document-format-supported" = map ClientFormat (Routes routes) /\
  Attr out "urf-supported" = match snapPath routes with AirPrintPathUnavailable => None
                             | _ => Some (Keywords "urf-supported" (URFTokens routes)) end.
Proof.
  intros H Hne. cbv zeta. destruct (formats_attributes model routes H) as [Hf Hu]. split; [|done].
  unfold stringValues. rewrite Hf by done. apply text_values.
Qed.



(** ** Profiles *)

Lemma first_reason_None l : first_reason l = None <-> Forall (fun c => fst c = true) l.
Proof.
  induction l as [|[b r] l IH]; cbn; [by split|]. rewrite Forall_cons. cbn. destruct b; cbn; [|naive_solver].
  rewrite IH. naive_solver.
Qed.

(** The operations a queue advertises. *)
Definition advertised_operations (attrs : Attributes) : list Z :=
  match Attr attrs "operations-supported" with
  | Some attr => omap (fun tv => match val_V tv with VInteger z => Some z | _ => None end) (aValues attr)
  | None => []
  end.

Lemma uniqueOperations_elem op l : op ∈ uniqueOperations l <-> op ∈ l.
Proof. unfold uniqueOperations. destruct (unique_from_spec l ∅) as [_ H]. rewrite H. set_solver. Qed.

Lemma operations_eq ops : ops <> [] ->
  operationsSupportedAttrFor ops = ("operations-supported"%string, map (pair TagEnum) (map VInteger ops)).
Proof. unfold operationsSupportedAttrFor. destruct ops as [|op ops]; [done|]. intros _. cbn [map]. by rewrite MakeAttr_eq. Qed.
Lemma operations_lookup model ops : mOperations model = Some ops -> ops <> [] ->
  advertised_operations (synthesizePrinterAttributes model) = ops.
Proof.
  intros Ho Hne. unfold advertised_operations.
  pose proof (added_lookup model (operationsSupportedAttrFor (default [] (mOperations model)))) as Hl.
  rewrite Ho in Hl. change (default [] (Some ops)) with ops in Hl. rewrite (operations_eq ops Hne) in Hl. cbn [fst] in Hl. rewrite Hl.
  - cbn [snd]. clear. induction ops as [|o l IH]; [done|]. cbn. f_equal. apply IH.
  - unfold added, operation_attributes. rewrite Ho. change (default [] (Some ops)) with ops. rewrite (operations_eq ops Hne).
    rewrite !elem_of_app, !elem_of_cons. tauto.
Qed.

(** What the synthesis leaves behind. *)
Record synthesized (m : CapabilityModel) (routes : RouteSnapshot) (ops : list Z) (disabled : bool) : Prop := {
  sy_routed : routed m routes;
  sy_operations : mOperations m = Some ops;
  sy_profiles : mProfiles m = evaluateCapabilityProfiles (mUpstream m) (mPrinter m)
    (settings (Configuration.Policy (mPrinter m))) ops (mProxyURI m) disabled;
  sy_attributes : mAttributes m = Some (synthesizePrinterAttributes m);
  sy_features : practicalProfiles m = true -> mIPPFeatures m = ipp_features (prReady (pfIPPEverywhere (mProfiles m)))
}.
Lemma SynthesizeCapabilityModel_ok model : exists routes ops disabled, synthesized (SynthesizeCapabilityModel model) routes ops disabled.
Proof.
  unfold SynthesizeCapabilityModel. cbv zeta. do 3 eexists. split; try reflexivity; [split; reflexivity|]. cbn. intros ->. reflexivity.
Qed.

Lemma path_tokens upstream policy printer : let s := buildRouteSnapshot upstream policy printer in
  snapPath s <> AirPrintPathUnavailable -> URFTokens s <> [].
Proof.
  intros s. destruct (snapshot_cases upstream policy printer) as [(tk & En & _ & _ & Et)|[(_ & _ & Ep & _)|(_ & _ & m & p & l & tk & Ee & _ & _ & Et)]]; fold s in Et || fold s in Ep.
  - intros _. rewrite Et. unfold native_tokens in En. destruct (validURFFamily _); [|done].
    by apply nativeURFTokens_inv in En as (attr & raw & p & _ & _ & _ & Hne & _).
  - done.
  - intros _. rewrite Et. apply emulatedURFRoute_inv in Ee as (sel & r0 & rest & token & sheet & H). by destruct_and! H; subst.
Qed.

Lemma available_in ops op : operationAvailable ops op = true -> op ∈ ops.
Proof. intros (x & Hx & E%Z.eqb_eq)%existsb_exists. subst. by apply list_elem_of_In. Qed.

(** The conditions both profiles ask for, as what the description says. *)
Lemma base_conditions_offered upstream policy ops proxyURI more :
  first_reason (base_conditions upstream policy ops proxyURI ++ more) = None ->
  OpPrintJob ∈ ops /\ OpGetPrinterAttributes ∈ ops /\ usableProfileMedia upstream policy = true /\
  usableProfileIdentity proxyURI = true /\ Forall (fun c => fst c = true) more.
Proof.
  rewrite first_reason_None, Forall_app. unfold base_conditions. rewrite !Forall_cons. cbn.
  intros [([H1 H2]%andb_true_iff & _ & H3 & H4 & _) H]. by auto using available_in.
Qed.

(** C25: A profile is only claimed with what it needs. A queue that is ready
    for AirPrint offers image/urf with the tokens of its path, routes such a
    document, dispatches Print-Job, has a medium the printer supports and a
    public URI; ipp-features-supported is in the description exactly when the
    queue is ready for IPP Everywhere, and then the printer itself claims
    it. *)
Theorem profiles_offered model : let m := SynthesizeCapabilityModel model in
  let policy := settings (Configuration.Policy (mPrinter m)) in
  let out := default [] (mAttributes m) in
  (prReady (pfAirPrint (mProfiles m)) = true ->
     exists routes route, mRoutes m = Some routes /\ routeFor routes "image/urf" = Some route /\
     "image/urf"%string ∈ stringValues out "document-format-supported" /\
     stringValues out "urf-supported" = URFTokens routes /\ URFTokens routes <> [] /\
     OpPrintJob ∈ advertised_operations out /\ usableProfileMedia (mUpstream m) policy = true /\
     usableProfileIdentity (mProxyURI m) = true) /\
  (practicalProfiles m = true ->
     stringValues out "ipp-features-supported" = ipp_features (prReady (pfIPPEverywhere (mProfiles m)))) /\
  (prReady (pfIPPEverywhere (mProfiles m)) = true ->
     upstreamClaimsIPPEverywhere (mUpstream m) = true /\ OpPrintJob ∈ advertised_operations out /\
     usableProfileMedia (mUpstream m) policy = true /\ usableProfileIdentity (mProxyURI m) = true).
Proof.
  cbv zeta. destruct (SynthesizeCapabilityModel_ok model) as (routes & ops & disabled & [Hr Ho Hp Ha Hf]).
  set (m := SynthesizeCapabilityModel model) in *. rewrite Ha. cbn [default from_option id].
  assert (practicalProfiles m = true -> stringValues (synthesizePrinterAttributes m) "ipp-features-supported" =
    ipp_features (prReady (pfIPPEverywhere (mProfiles m)))) as Hfeat.
  { intros Hpr. specialize (Hf Hpr). unfold stringValues. rewrite feature_lookup, Hf. unfold ipp_features.
    destruct (prReady _); [by eapply Keywords_values|done]. }
  assert (forall op, op ∈ ops -> op ∈ advertised_operations (synthesizePrinterAttributes m)) as Hops.
  { intros op Hop. rewrite (operations_lookup m ops); [done|done|]. intros E. rewrite E in Hop. by apply elem_of_nil in Hop. }
  split; [|split; [done|]]; rewrite Hp; clear Hf Hfeat.
  - unfold evaluateCapabilityProfiles. cbv zeta. destruct disabled; [done|]. cbn [pfAirPrint]. destruct (negb (negb _)); [done|]. unfold airprint_profile. cbv zeta.
    destruct (first_reason _) as [|] eqn:E; [done|]. intros _.
    apply base_conditions_offered in E as (H1 & _ & H3 & H4 & [H5 _]%Forall_cons). cbn [fst] in H5.
    destruct Hr as [Hm Hr]. rewrite <- Hr in H5. assert (snapPath routes <> AirPrintPathUnavailable) as Hpath by (intros Ep; by rewrite Ep in H5).
    assert ("image/urf"%string ∈ map ClientFormat (Routes routes)) as Hin by (rewrite Hr; apply urf_route; by rewrite <- Hr).
    assert (Routes routes <> []) as Hne by (intros En; rewrite En in Hin; by apply elem_of_nil in Hin).
    destruct (formats_lookup m routes (conj Hm Hr) Hne) as [F1 F2].
    pose proof Hin as (route & Ec & Hroute)%list_elem_of_In%in_map_iff. exists routes, route.
    split; [done|]. split. { rewrite Hr. apply routeFor_iff. rewrite <- Hr. split; [by apply list_elem_of_In|done]. }
    rewrite F1. split; [done|]. split; [|split; [rewrite Hr; apply path_tokens; by rewrite <- Hr|auto]].
    apply stringValues_Keywords. rewrite aName_Keywords, F2. by destruct (snapPath routes).
  - unfold evaluateCapabilityProfiles. cbv zeta. destruct disabled; [done|]. cbn [pfIPPEverywhere]. destruct (negb (negb _)); [done|]. unfold ipp_everywhere_profile.
    unfold upstreamClaimsIPPEverywhere. destruct (ippEverywhereClaimEligibility _) as [claim reason] eqn:Ec.
    destruct (first_reason _) as [|] eqn:E; [done|]. intros _. cbn [first_reason] in E. destruct claim; [|done]. cbn [negb] in E.
    rewrite <- (app_nil_r (base_conditions _ _ _ _)) in E. apply base_conditions_offered in E as (H1 & _ & H3 & H4 & _). auto.
Qed.
End theorems.

(** ** A queue *)

Definition urn_prefixed : UUIDs.
Proof. refine {| urn_of s := "urn:uuid:" +:+ s |}. intros s. by destruct s. Defined.
Definition visit_in_order : MapRange := {| range A m := map_to_list m; range_perm A m := reflexivity _ |}.
#[local] Existing Instances goipp_example no_ip6 urn_prefixed visit_in_order.

Definition a4_policy (color : string) : PolicyConfig := {|
  pMedia := "iso_a4_210x297mm"; pMediaSupported := ["iso_a4_210x297mm"]%string; pMediaDefault := "iso_a4_210x297mm";
  pMediaType := "stationery"; pPrintColorMode := color; pMediaSource := None; pPrintScaling := None; pUseMediaCol := false;
  pFidelityMode := "" |}.
Definition a4_queue (color : string) : Configuration.PrinterConfig := with_modes "auto" "auto" (with_policy (a4_policy color) {|
  Configuration.UpstreamURI := "ipp://10.0.0.9/ipp/print"; DisplayName := "Office"; Location := "Hall"; Optional := false;
  IPPEverywhereMode := ""; Configuration.AirPrintMode := ""; DNSSD := true; GeoLocation := ""; RefreshInterval := RefreshInterval no_printer;
  RefreshRaw := ""; Configuration.Policy := Configuration.Policy no_printer; Passthrough := Passthrough no_printer;
  DNS_SD := DNS_SD no_printer; ippEverywhereModeSet := false; airPrintModeSet := false; dnsSDSet := true |}).
(** A printer that prints PDF and URF, and prefers URF. *)
Definition urf_printer (formats tokens : list string) : Attributes :=
  [Keywords "media-supported" ["iso_a4_210x297mm"; "iso_a3_297x420mm"]%string;
   Keywords "print-color-mode-supported" ["monochrome"; "color"]%string;
   ("document-format-supported"%string, map (pair TagMimeType) (map VString formats));
   MakeAttribute "document-format-default" TagMimeType (VString "image/urf");
   Keywords "urf-supported" tokens; Keyword "printer-make-and-model" "Acme 100";
   MakeAttr "operations-supported" TagEnum (VInteger 2) [VInteger 11]].
Definition urf_options (policy : PolicyConfig) (upstream : Attributes) : CapabilityModelOptions := {|
  oOperations := Some (proxySupportedOperations upstream); oDisabled := false; oEffectivePolicy := policy;
  oPracticalProfiles := true; oWarnings := [] |}.
Definition urf_model (color : string) (upstream : Attributes) : CapabilityModel :=
  NewCapabilityModel upstream "office" "ipp://proxy.example:631/ipp/office" (a4_queue color)
    (urf_options (a4_policy color) upstream) None.
Definition gray_printer : Attributes := urf_printer ["application/pdf"; "image/urf"]%string ["V1.4"; "W8"; "DEVW8"; "RS300-600"]%string.

Lemma description_names_witness : NoDup (lower_names (mUpstream (urf_model "monochrome" gray_printer))) /\
  NoDup (lower_names (synthesizePrinterAttributes (urf_model "monochrome" gray_printer))).
Proof.
  assert (NoDup (lower_names (mUpstream (urf_model "monochrome" gray_printer)))) as H by (apply (bool_decide_unpack _); exact I).
  split; [exact H|]. exact (description_names _ H).
Defined.

Lemma advertised_media_supported_witness :
  exists m, m ∈ policyMediaNames (a4_policy "monochrome") /\ EqualFold m "iso_a4_210x297mm" = true /\
    policyMediaSupportedByUpstream gray_printer (a4_policy "monochrome") m = true.
Proof.
  refine (advertised_media_supported gray_printer "office" "ipp://proxy.example:631/ipp/office" (a4_queue "monochrome")
    (urf_options (a4_policy "monochrome") gray_printer) None
    ["upstream did not advertise media-type-supported; retaining configured policy"%string] (a4_policy "monochrome") "iso_a4_210x297mm" _ eq_refl _).
  - vm_compute. reflexivity.
  - apply (bool_decide_unpack _). vm_compute. exact Logic.I.
Defined.


(** A color queue of a printer that only has URF without a usable color token
    has no route; its description keeps a default format that is not in the
    list of formats, or the printer's list. *)
Example default_not_admitted : let out := default [] (mAttributes (urf_model "color" gray_printer)) in
  stringValues out "document-format-supported" = ["application/pdf"%string] /\
  stringValues out "document-format-default" = ["image/urf"%string].
Proof. vm_compute. split; reflexivity. Qed.
Example formats_without_route : let model := urf_model "color" (urf_printer ["image/urf"]%string ["V1.4"; "W8"; "DEVW8"; "RS300"]%string) in
  mRoutes model = Some {| Routes := []; snapPath := AirPrintPathUnavailable;
    snapReason := "native-only mode requires a valid upstream image/urf family"; URFTokens := [] |} /\
  stringValues (default [] (mAttributes model)) "document-format-supported" = ["image/urf"%string].
Proof. vm_compute. split; reflexivity. Qed.
