(* ===== verification/DiscoveryTheorems.v ===== *)
(** * Correctness of what a queue publishes

    The URF data of the publication against the description clients are shown:
    a monochrome queue that is ready for AirPrint is published with its tokens;
    a color queue never is. *)

From Stdlib Require Import ZArith Lia Ascii String Decimal DecimalFacts DecimalString DecimalN DecimalPos.
From stdpp Require Import base tactics list strings gmap sorting.
From S2P Require Import DnsSd DnsSdTheorems Configuration Urf Routing RoutingTheorems UriTheorems.
From S2P Require Import Prelude GoString GoError GoTime GoUrl Goipp IppAttrs MediaCatalog Normalizer Formats.
From S2P Require Import Messages PrinterDescription Capabilities CapabilityProofs CapabilityTheorems Discovery.

(** ** Tokens of a URF family *)

(** A token: some characters, none of which separates tokens. *)
Definition separator (c : ascii) : bool := Ascii.eqb c "," || is_space c.
Definition no_separator (s : string) : bool := sall (fun c => negb (separator c)) s.
Definition is_token (s : string) : Prop := no_separator s = true /\ s <> ""%string.

Lemma no_separator_snoc s c : no_separator s = true -> separator c = false -> no_separator (s +:+ String c "") = true.
Proof. intros Hs Hc. unfold no_separator in *. rewrite sall_app, Hs. cbn. by rewrite Hc. Qed.

Lemma split_tokens_token text : forall tokens cur comma l, Forall is_token tokens ->
  match cur with Some t => is_token t | None => True end ->
  split_tokens text tokens cur comma = Some l -> Forall is_token l.
Proof.
  induction text as [|c text IH]; intros tokens cur comma l Ht Hc; cbn [split_tokens].
  - set (tokens' := match cur with Some t => tokens ++ [t] | None => tokens end).
    assert (Forall is_token tokens') as Ht' by (unfold tokens'; destruct cur; [by rewrite Forall_app, Forall_singleton|done]).
    destruct (comma || match tokens' with [] => true | _ => false end); [done|]. by intros [= <-].
  - destruct (Ascii.eqb c "," || is_space c) eqn:Es.
    + assert (Forall is_token (fst (match cur with Some t => (tokens ++ [t], false) | None => (tokens, comma) end))) as Ht'
        by (destruct cur; cbn; [by rewrite Forall_app, Forall_singleton|done]).
      destruct (match cur with Some t => (tokens ++ [t], false) | None => (tokens, comma) end) as [tokens' comma'].
      cbv beta iota. cbn [fst] in Ht'.
      destruct (Ascii.eqb c ","); [|by apply IH].
      destruct (match tokens' with [] => true | _ => false end || comma'); [done|]. by apply IH.
    + apply IH; [done|]. destruct cur as [t|]; cbn.
      * destruct Hc as [Hc _]. split; [by apply no_separator_snoc|]. by destruct t.
      * split; [|done]. by apply (no_separator_snoc "" c).
Qed.

Lemma split_tokens_one text : forall tokens t comma, no_separator text = true -> t <> ""%string ->
  split_tokens text tokens (Some t) comma =
  (if comma && (text =? "")%string then None else Some (tokens ++ [t +:+ text])).
Proof.
  induction text as [|c text IH]; intros tokens t comma Hn Ht; cbn [split_tokens].
  - rewrite sapp_nil_r. destruct tokens, comma; done.
  - unfold no_separator in Hn. cbn [sall] in Hn. apply andb_true_iff in Hn as [Hc Hn]. apply negb_true_iff in Hc. unfold separator in Hc.
    rewrite Hc. cbn [default from_option id]. rewrite IH; [|done|by destruct t]. rewrite andb_false_r, andb_false_l.
    by rewrite sapp_assoc.
Qed.
Lemma splitURFTokens_token t : is_token t -> splitURFTokens t = Some [t].
Proof.
  intros [Hn Ht]. unfold splitURFTokens. destruct t as [|c t]; [done|]. cbn [split_tokens].
  unfold no_separator in Hn. cbn [sall] in Hn. apply andb_true_iff in Hn as [Hc Hn]. apply negb_true_iff in Hc. unfold separator in Hc.
  rewrite Hc. by rewrite split_tokens_one.
Qed.

Lemma upper_separator c : separator (upper_char c) = separator c.
Proof. destruct c as [[] [] [] [] [] [] [] []]; reflexivity. Qed.
Lemma ToUpper_token t : is_token t -> is_token (ToUpper t).
Proof.
  intros [Hn Ht]. split; [|by destruct t]. clear Ht. unfold no_separator, ToUpper in *. induction t as [|c t IH]; [done|].
  cbn [smap sall] in *. rewrite upper_separator. apply andb_true_iff in Hn as [-> Hn]. by apply IH.
Qed.
Lemma ToUpper_idemp s : ToUpper (ToUpper s) = ToUpper s.
Proof.
  unfold ToUpper. induction s as [|c s IH]; [done|]. cbn. rewrite IH. f_equal. by destruct c as [[] [] [] [] [] [] [] []].
Qed.

(** A token in its advertised form. *)
Definition upper_token (t : string) : Prop := is_token t /\ ToUpper t = t.

Lemma raw_tokens_upper values raw : raw_tokens values = Some raw -> Forall upper_token raw.
Proof.
  revert raw. induction values as [|[t v] l IH]; intros raw; cbn; [by intros [= <-]|].
  destruct v as [|text| | | | | |]; try done. destruct (splitURFTokens text) as [parts|] eqn:E; [|done]. cbn.
  destruct (raw_tokens l) as [more|]; [|done]. intros [= <-]. apply Forall_app. split; [|by apply IH].
  apply split_tokens_token in E; [|constructor|done]. clear -E. induction E as [|p l Hp _ IH]; constructor; [|done].
  split; [by apply ToUpper_token|apply ToUpper_idemp].
Qed.

(** ** What the tokens provide *)

Definition accepted (t : string) : bool :=
  urfResolutionToken t || urfWidthToken t || urfColorSpaceToken t ||
  (urfVersionToken t || urfPositiveNumericListToken t || urfOptionalZeroToken t).

Definition wide (t : string) : bool := negb (urfResolutionToken t) && urfWidthToken t.
Definition colored (t : string) : bool := negb (urfResolutionToken t) && negb (urfWidthToken t) && urfColorSpaceToken t.

Lemma see_token_eq t s : see_token t s = if accepted t then Some {|
  seen_tokens := seen_tokens s + 1; seen_width := seen_width s || wide t;
  seen_colorSpace := seen_colorSpace s || colored t; seen_resolution := seen_resolution s || urfResolutionToken t |} else None.
Proof.
  unfold see_token, accepted, wide, colored. destruct s as [n w c r]. cbn [seen_tokens seen_width seen_colorSpace seen_resolution].
  destruct (urfResolutionToken t), (urfWidthToken t), (urfColorSpaceToken t); cbn [orb andb negb];
    by rewrite ?orb_true_r, ?orb_false_r.
Qed.

Lemma see_tokens_spec l : forall s,
  match see_tokens l s with
  | Some s' => forallb accepted l = true /\ seen_tokens s' = seen_tokens s + zlen l /\
      seen_width s' = seen_width s || existsb wide l /\ seen_resolution s' = seen_resolution s || existsb urfResolutionToken l
  | None => forallb accepted l = false
  end.
Proof.
  induction l as [|t l IH]; intros s; cbn [see_tokens].
  { cbn. rewrite !orb_false_r. split; [done|]. split; [unfold zlen; cbn; lia|done]. }
  rewrite see_token_eq. cbn [forallb existsb]. destruct (accepted t); [|done]. cbn [mbind option_bind andb].
  match goal with |- context [see_tokens l ?s'] => specialize (IH s') end.
  destruct (see_tokens _ _) as [s'|]; [|done]. destruct IH as (-> & -> & -> & ->). cbn [seen_tokens seen_width seen_resolution].
  rewrite !orb_assoc. split; [done|]. split; [unfold zlen; cbn; lia|done].
Qed.

(** ** The family a queue advertises *)

Lemma Keywords_eq `{GoippLib} n l : Keywords n l = (n, map (pair TagKeyword) (map VString l)).
Proof. unfold Keywords. destruct l as [|v l]; [done|]. cbn [map]. by rewrite MakeAttr_eq. Qed.

Lemma see_keywords tokens : Forall is_token tokens -> forall s,
  see_values (map (pair TagKeyword) (map VString tokens)) s = see_tokens tokens s.
Proof.
  induction 1 as [|t l Ht _ IH]; intros s; [done|]. cbn [map see_values]. change (negb (TagKeyword =? TagKeyword)) with false.
  cbv iota. rewrite splitURFTokens_token by done. cbn [mbind option_bind see_tokens].
  destruct (see_token t s) as [s'|]; [|done]. cbn. apply IH.
Qed.

Definition family_tokens (tokens : list string) : bool :=
  forallb accepted tokens && (2 <=? zlen tokens) && existsb wide tokens && existsb urfResolutionToken tokens.

Lemma advertised_family `{GoippLib} attrs tokens : Forall is_token tokens ->
  Attr attrs "urf-supported" = Some (Keywords "urf-supported" tokens) ->
  validAdvertisedURFFamily attrs = match Attr attrs "document-format-supported" with
                                   | Some formats => hasMimeTypeValue formats "image/urf" && family_tokens tokens
                                   | None => false end.
Proof.
  intros Ht Hu. unfold validAdvertisedURFFamily, validURFFamily. rewrite Hu, Keywords_eq. cbn [aValues snd].
  destruct (Attr attrs "document-format-supported") as [formats|]; [|done]. destruct (hasMimeTypeValue _ _); [|done]. cbn [andb].
  rewrite see_keywords by done. set (s0 := {| seen_tokens := 0; seen_width := _; seen_colorSpace := _; seen_resolution := _ |}).
  pose proof (see_tokens_spec tokens s0) as Hs. unfold family_tokens. destruct tokens as [|t l]; [done|].
  cbn [map length Nat.eqb negb andb] in *. destruct (see_tokens _ _) as [s|].
  - destruct Hs as (-> & -> & -> & ->). subst s0. cbn [seen_tokens seen_width seen_resolution orb andb].
    rewrite Z.add_0_l. set (n := zlen (t :: l)) in *. set (w := existsb wide _). set (r := existsb urfResolutionToken _).
    destruct (Z.leb_spec 3 n), (Z.leb_spec 2 n); try lia; destruct w, r, (seen_colorSpace s); done.
  - by rewrite Hs.
Qed.

(** ** The tokens of a queue *)

Lemma digit_not_separator c : is_digit c = true -> negb (separator c) = true /\ upper_char c = c.
Proof. by destruct c as [[] [] [] [] [] [] [] []]. Qed.
Lemma Itoa_upper r : 0 <= r -> upper_token ("RS" +:+ Itoa r).
Proof.
  intros [Hd _]%Itoa_digits. assert (no_separator (Itoa r) = true /\ ToUpper (Itoa r) = Itoa r) as [Hn Hu].
  { unfold no_separator, ToUpper. generalize dependent (Itoa r). intros s. induction s as [|c s IH]; [done|].
    cbn [sall smap]. intros [Hc Hs]%andb_true_iff. apply IH in Hs as [-> ->]. apply digit_not_separator in Hc as [-> ->]. done. }
  split; [split; [|done]|].
  - unfold no_separator in *. rewrite sall_app, Hn. reflexivity.
  - change (ToUpper ("RS" +:+ Itoa r)) with ("RS" +:+ ToUpper (Itoa r)). by rewrite Hu.
Qed.

Lemma square_nonneg upstream r : r ∈ squarePWGResolutions upstream -> 0 <= r.
Proof.
  unfold squarePWGResolutions. destruct (Attr _ _) as [attr|]; [|intros H; by apply elem_of_nil in H].
  rewrite elem_of_sort_by. intros H.
  assert (forall (l : list Z) seen, r ∈ unique_from seen l -> r ∈ l) as Hin.
  { clear. induction l as [|x l IH]; intros seen; cbn; [done|]. case_bool_decide.
    - intros Hr%IH. by right.
    - intros [->|Hr%IH]%elem_of_cons; [left|by right]. }
  apply Hin, list_elem_of_omap in H as ((t & v) & _ & H). destruct v; try done. cbn in H.
  destruct (_ || _); [done|]. injection H as <-. apply Z.mod_pos_bound. done.
Qed.

Section publication.
Context `{G : GoippLib} `{I : IPLiterals} `{U : UUIDs} `{R : MapRange}.

(** The tokens of a queue are in their advertised form; the printer's own are
    accepted as well. *)
Lemma snapshot_tokens upstream policy printer : let s := buildRouteSnapshot upstream policy printer in
  Forall upper_token (URFTokens s).
Proof.
  intros s. destruct (snapshot_cases upstream policy printer)
    as [(tk & En & _ & _ & Et)|[(_ & _ & _ & Et)|(_ & _ & m & p & l & tk & Ee & _ & _ & Et)]]; fold s in Et; rewrite Et.
  - unfold native_tokens in En. destruct (validURFFamily _); [|done].
    apply nativeURFTokens_inv in En as (attr & raw & pref & _ & Hraw%raw_tokens_upper & -> & _).
    rewrite Forall_forall in Hraw |- *. intros t. rewrite elem_of_uniqueStrings, elem_of_sort_by, list_elem_of_In, filter_In.
    intros [Ht _]. by apply Hraw, list_elem_of_In.
  - constructor.
  - apply emulatedURFRoute_inv in Ee as (sel & r0 & rest & token & sheet & H). destruct_and! H. subst tk.
    assert (upper_token token) as Htok.
    { match goal with H : (token, _) ∈ _ |- _ => rewrite !elem_of_cons, elem_of_nil in H; destruct H as [H|[H|[H|[]]]] end;
        simplify_eq; done. }
    rewrite !Forall_cons. split_and!; [done|done| |by constructor]. apply Itoa_upper.
    apply (square_nonneg upstream). match goal with H : _ = squarePWGResolutions _ |- _ => rewrite <- H end.
    match goal with H : _ = r0 :: rest |- _ => rewrite H end. left.
Qed.

Lemma color_tokens upstream policy printer : ToLower (TrimSpace (pPrintColorMode policy)) = "color"%string ->
  existsb wide (URFTokens (buildRouteSnapshot upstream policy printer)) = false.
Proof.
  intros Hc. destruct (urf_tokens_respect_policy upstream policy printer) as [_ Ht]. destruct (Ht Hc) as [Hw _].
  pose proof (snapshot_tokens upstream policy printer) as Hu. rewrite Forall_forall in Hu.
  apply not_true_iff_false. intros (t & Hin%list_elem_of_In & H)%existsb_exists. destruct (Hu t Hin) as [_ Eu].
  destruct (Hw t Hin) as [Hp _]. unfold wide, urfWidthToken, token_of in H. cbv zeta in H. rewrite Eu in H. cbn [existsb] in H.
  rewrite Hp in H. cbn in H. by rewrite andb_false_r in H.
Qed.

(** ** The description behind a publication *)

Lemma synthesized_policy model : settings (Configuration.Policy (mPrinter (SynthesizeCapabilityModel model))) =
  mPolicy (SynthesizeCapabilityModel model).
Proof. done. Qed.

(** What the clients of a queue with a model are shown is synthesized again, for
    the same printer and policy. *)
Lemma client_model model queue proxyURI printer upstream identity : let m := SynthesizeCapabilityModel model in
  let m' := SynthesizeCapabilityModel (with_attributes None identity m) in
  clientCapabilities (Some m) queue proxyURI printer upstream identity =
    DropAttrs (synthesizePrinterAttributes m') ["overrides-supported"%string] /\ mPolicy m' = mPolicy m.
Proof.
  cbv zeta. set (m := SynthesizeCapabilityModel model). set (m' := SynthesizeCapabilityModel (with_attributes None identity m)).
  destruct (SynthesizeCapabilityModel_ok model) as (routes & ops & d & [_ _ _ Ha _]). fold m in Ha.
  destruct (SynthesizeCapabilityModel_ok (with_attributes None identity m)) as (routes' & ops' & d' & [_ _ _ Ha' _]). fold m' in Ha'.
  assert (synthesizePrinterAttributes m <> []) as Hne.
  { intros E. set (b := Boolean "multiple-document-jobs-supported" false).
    assert (Attr (synthesizePrinterAttributes m) (aName b) = Some b) as H; [|by rewrite E in H]. apply added_lookup.
    unfold b, added, operation_attributes. cbv zeta. rewrite !elem_of_app, !elem_of_cons. tauto. }
  split.
  - unfold clientCapabilities. rewrite Ha. destruct (synthesizePrinterAttributes m) as [|a l]; [done|].
    unfold FilterPrinterAttributesWithModel. cbn [mAttributes with_attributes]. fold m'. by rewrite Ha'.
  - change (mPolicy m') with (if policyConfigEmpty (mPolicy m) then settings (Configuration.Policy (mPrinter m)) else mPolicy m).
    unfold m at 2. rewrite synthesized_policy. fold m. by destruct (policyConfigEmpty _).
Qed.
Lemma client_description model queue proxyURI printer upstream identity : let m := SynthesizeCapabilityModel model in
  exists m' routes, clientCapabilities (Some m) queue proxyURI printer upstream identity =
      DropAttrs (synthesizePrinterAttributes m') ["overrides-supported"%string] /\
    routed m' routes /\
    routes = buildRouteSnapshot (mUpstream model) (mPolicy m) (service_printer (mPrinter m)).
Proof.
  cbv zeta. set (m := SynthesizeCapabilityModel model).
  destruct (client_model model queue proxyURI printer upstream identity) as [Hc Hp]. fold m in Hc, Hp.
  set (m' := SynthesizeCapabilityModel (with_attributes None identity m)) in *.
  destruct (SynthesizeCapabilityModel_ok (with_attributes None identity m)) as (routes' & ops' & d' & [Hr' _ _ _ _]). fold m' in Hr'.
  exists m', routes'. split; [exact Hc|]. split; [done|]. destruct Hr' as [_ ->]. change (mUpstream m') with (mUpstream model).
  change (settings (Configuration.Policy (mPrinter m'))) with (mPolicy m'). rewrite Hp.
  change (service_printer (mPrinter m')) with (service_printer (with_policy (mPolicy m') (mPrinter m))). by rewrite Hp.
Qed.

(** The media the clients of a queue are shown. *)
Lemma advertised_dropped attrs : advertised_media (DropAttrs attrs ["overrides-supported"%string]) = advertised_media attrs.
Proof. unfold advertised_media, stringValues. cbn [fmap list_fmap]. by rewrite !lookup_DropAttrs. Qed.
Lemma client_media upstream queue proxyURI printer options metadata identity printer' upstream' w p n :
  ProjectPolicyAgainstUpstream upstream (settings (Configuration.Policy printer)) = (w, Ok p) -> oEffectivePolicy options = p ->
  n ∈ advertised_media (clientCapabilities (Some (NewCapabilityModel upstream queue proxyURI printer options metadata))
                          queue proxyURI printer' upstream' identity) ->
  exists m, m ∈ policyMediaNames (settings (Configuration.Policy printer)) /\ EqualFold m n = true /\
    policyMediaSupportedByUpstream upstream (settings (Configuration.Policy printer)) m = true.
Proof.
  intros Hp%ProjectPolicy_projected <-. unfold NewCapabilityModel. cbv zeta. rewrite (projected_not_empty _ _ _ Hp).
  set (printer0 := if oPracticalProfiles options then _ else _).
  set (model := new_model _ _ _ _ _ _ _ _ _ _).
  destruct (client_model model queue proxyURI printer' upstream' identity) as [-> Hm]. rewrite advertised_dropped.
  assert (mPolicy (SynthesizeCapabilityModel model) = oEffectivePolicy options) as Ho.
  { change (mPolicy (SynthesizeCapabilityModel model)) with
      (if policyConfigEmpty (oEffectivePolicy options) then settings (Configuration.Policy printer0) else oEffectivePolicy options).
    by rewrite (projected_not_empty _ _ _ Hp). }
  intros Hn%advertised_of_policy. rewrite synthesized_policy, Hm, Ho in Hn.
  assert (exists m, m ∈ policyMediaNames (oEffectivePolicy options) /\ EqualFold m n = true) as (m & Hin & E).
  { destruct Hn as [Hn| ->]; [exists n; split; [done|apply EqualFold_refl]|].
    pose proof (pj_default _ _ _ Hp) as Hd. apply existsb_exists in Hd as (m & Hin & Hd). exists m.
    split; [by apply list_elem_of_In|done]. }
  exists m. rewrite (pj_names _ _ _ Hp) in Hin. apply list_elem_of_In, filter_In in Hin as [Hin Hs].
  split; [by apply list_elem_of_In|done].
Qed.

Lemma mime_values n l wanted :
  hasMimeTypeValue (n, map (pair TagMimeType) (map VString l)) wanted = existsb (fun f => EqualFold f wanted) l.
Proof.
  unfold hasMimeTypeValue. cbn [aValues snd].
  assert (forall found, mime_value_loop (map (pair TagMimeType) (map VString l)) wanted found =
    found || existsb (fun f => EqualFold f wanted) l) as H; [|by rewrite H].
  induction l as [|f l IH]; intros found; cbn; [by rewrite orb_false_r|]. by rewrite IH, orb_assoc.
Qed.

(** The family of such a description. *)
Lemma client_family model queue proxyURI printer upstream identity : let m := SynthesizeCapabilityModel model in
  let routes := buildRouteSnapshot (mUpstream model) (mPolicy m) (service_printer (mPrinter m)) in
  let attrs := clientCapabilities (Some m) queue proxyURI printer upstream identity in
  validAdvertisedURFFamily attrs =
    match snapPath routes with AirPrintPathUnavailable => false | _ => family_tokens (URFTokens routes) end /\
  (Routes routes <> [] -> stringValues attrs "document-format-supported" = map ClientFormat (Routes routes)) /\
  stringValues attrs "urf-supported" =
    match snapPath routes with AirPrintPathUnavailable => [] | _ => URFTokens routes end.
Proof.
  cbv zeta. destruct (client_description model queue proxyURI printer upstream identity) as (m' & routes & -> & Hr & E).
  rewrite <- E. destruct (formats_attributes m' routes Hr) as [Hf Hu].
  assert (forall n, EqualFold n "overrides-supported" = false ->
    Attr (DropAttrs (synthesizePrinterAttributes m') ["overrides-supported"%string]) n = Attr (synthesizePrinterAttributes m') n) as Hd.
  { intros n Hn. apply lookup_DropAttrs. cbn. by rewrite Hn. }
  unfold stringValues. rewrite !Hd, Hu by done. split; [|split; [intros Hne; rewrite Hf by done; apply text_values|]].
  2: { destruct (snapPath routes); [..|done]; by eapply Keywords_values. }
  assert (snapPath routes <> AirPrintPathUnavailable ->
    validAdvertisedURFFamily (DropAttrs (synthesizePrinterAttributes m') ["overrides-supported"%string]) = family_tokens (URFTokens routes)) as H.
  { intros Hp. assert ("image/urf"%string ∈ map ClientFormat (Routes routes)) as Hin by (rewrite E in Hp |- *; by apply urf_route).
    rewrite (advertised_family _ (URFTokens routes)).
    - rewrite Hd, Hf by (try done; intros En; rewrite En in Hin; by apply elem_of_nil in Hin). rewrite mime_values.
      assert (existsb (fun f => EqualFold f "image/urf") (map ClientFormat (Routes routes)) = true) as ->; [|done].
      apply existsb_exists. eexists. split; [by apply list_elem_of_In|done].
    - rewrite E. eapply Forall_impl; [apply snapshot_tokens|]. by intros t [Ht _].
    - rewrite Hd, Hu by done. by destruct (snapPath routes). }
  destruct (snapPath routes); [by apply H..|]. unfold validAdvertisedURFFamily, validURFFamily. rewrite !Hd, Hu by done. by destruct (Attr _ _).
Qed.

(** ** The TXT data *)

Lemma hasFold_insert txt k v w : hasFold (<[k := v]> txt) w = EqualFold k w || hasFold txt w.
Proof.
  apply eq_true_iff_eq. rewrite orb_true_iff, !hasFold_true, EqualFold_true. split.
  - intros (k' & Hk & E). destruct (decide (k = k')) as [->|Hne]; [by left|]. right. exists k'. by rewrite lookup_insert_ne in Hk.
  - intros [E|(k' & Hk & E)]; [exists k; by rewrite lookup_insert_eq|]. exists k'. split; [|done].
    destruct (decide (k = k')) as [->|Hne]; [by rewrite lookup_insert_eq|]. by rewrite lookup_insert_ne.
Qed.
Lemma hasFold_put txt k v w : hasFold (put k v txt) w = bool_decide (is_Some v) && EqualFold k w || hasFold txt w.
Proof.
  destruct v as [v|]; cbn [put]; [by rewrite hasFold_insert|]. rewrite bool_decide_eq_false_2; [done|]. apply is_Some_None.
Qed.

(** Only the entry of that name makes the data of a queue have it. *)
Lemma txt_urf path name location attrs profiles :
  hasFold (printerDNSSDTXTForProfiles path name location attrs profiles) "urf" =
  prReady (pfAirPrint profiles) && negb (bool_decide (stringValues attrs "urf-supported" = [])) && validAdvertisedURFFamily attrs.
Proof.
  unfold printerDNSSDTXTForProfiles. cbv zeta. rewrite !hasFold_put, !hasFold_insert.
  change (hasFold ∅ "urf") with false. change (EqualFold "URF" "urf") with true.
  repeat match goal with |- context [EqualFold ?k "urf"] => change (EqualFold k "urf") with false end.
  rewrite !andb_false_r, andb_true_r, !orb_false_r. by destruct (prReady _ && _ && _).
Qed.
Lemma txt_pdl path name location attrs profiles :
  hasFold (printerDNSSDTXTForProfiles path name location attrs profiles) "pdl" = negb (bool_decide (published_formats attrs = [])).
Proof.
  unfold printerDNSSDTXTForProfiles. cbv zeta. rewrite !hasFold_put, !hasFold_insert.
  change (hasFold ∅ "pdl") with false. change (EqualFold "pdl" "pdl") with true.
  repeat match goal with |- context [EqualFold ?k "pdl"] => change (EqualFold k "pdl") with false end.
  rewrite !andb_false_r, andb_true_r, !orb_false_r. by destruct (published_formats attrs).
Qed.

Lemma input_data cfg local uri printer upstream attrs profiles input :
  dnsServiceInputWithProfiles cfg local uri printer upstream attrs profiles = Ok input ->
  iProfiles input = {| Ordinary := prReady (pfOrdinary profiles); AirPrint := prReady (pfAirPrint profiles);
                       IPPEverywhere := prReady (pfIPPEverywhere profiles) |} /\
  exists path, iTXT input = printerDNSSDTXTForProfiles path (DisplayName printer) (Location printer) attrs profiles.
Proof.
  unfold dnsServiceInputWithProfiles. destruct (Parse uri) as [parsed|]; [|done]. destruct (_ =? "")%string; [done|].
  destruct (public_port _) as [port|]; [|done]. intros [= <-]. split; [done|]. by eexists.
Qed.

(** The profiles of published records have their data. *)
Lemma records_carried input records : BuildRecordsForProfiles input (iProfiles input) = Ok records ->
  AirPrint (publicationProfilesForRecords records) = true -> hasFold (iTXT input) "urf" = true.
Proof.
  unfold BuildRecordsForProfiles. destruct (validateServiceInputBasic input) as [[]|] eqn:Hv; [|done]. cbn [mbind res_bind].
  destruct (negb _); [by intros [= <-]|]. unfold validateServiceInputBasic in Hv.
  apply checks_ok in Hv as [_ Hv]. apply valid_input_keys in Hv as [Hp He].
  pose proof (fitProfileTXT_spec (iTXT input) (iProfiles input) Hp He) as Hfit.
  destruct (fitProfileTXT _ _) as [[txt p]|]; [|done]. destruct Hfit as (_ & _ & Hs & _ & [Hc _] & _). intros [= <-].
  intros Ha. assert (AirPrint p = true) as Hap.
  { revert Ha. unfold publicationProfilesForRecords. destruct p as [o [] []]; done. }
  apply Hc, hasFold_true in Hap as (k & [v Hk] & E). apply hasFold_true. exists k. split; [|done].
  exists v. by eapply lookup_weaken.
Qed.

(** A color queue is never published for AirPrint. The URF tokens of a
    color queue have no grayscale token, which the publication of the tokens
    asks for; so whatever profiles the queue is ready for, its TXT data has no
    URF entry and no registration names the AirPrint subtype. *)
Theorem color_queue_without_airprint upstream queue proxyURI printer options metadata identity printer' upstream' cfg local uri profiles :
  let model := NewCapabilityModel upstream queue proxyURI printer options metadata in
  let attrs := clientCapabilities (Some model) queue proxyURI printer' upstream' identity in
  ToLower (TrimSpace (pPrintColorMode (mPolicy model))) = "color"%string ->
  match dnsServiceInputWithProfiles cfg local uri printer' upstream' attrs profiles with
  | Ok input => hasFold (iTXT input) "urf" = false /\
                forall records, BuildRecordsForProfiles input (iProfiles input) = Ok records ->
                  AirPrint (publicationProfilesForRecords records) = false
  | Err _ => True
  end.
Proof.
  cbv zeta. set (attrs := clientCapabilities _ _ _ _ _ _). intros Hc. destruct (dnsServiceInputWithProfiles _ _ _ _ _ _ _) as [input|] eqn:Hi; [|done].
  apply input_data in Hi as (_ & path & Ht).
  assert (hasFold (iTXT input) "urf" = false) as Hu.
  { rewrite Ht, txt_urf. unfold attrs, NewCapabilityModel. cbv zeta in *.
    match goal with |- context [SynthesizeCapabilityModel ?m] =>
      destruct (client_family m queue proxyURI printer' upstream' identity) as (-> & _) end.
    rewrite andb_comm. unfold family_tokens. rewrite color_tokens by exact Hc.
    rewrite andb_false_r, andb_false_l. by destruct (snapPath _). }
  split; [done|]. intros records Hr. apply not_true_iff_false. intros Ha%(records_carried _ _ Hr). congruence.
Qed.

(** ** A monochrome queue *)

Lemma Itoa_positive n : 0 < n -> exists c s, Itoa n = String c s /\ c <> "0"%char.
Proof.
  destruct n as [|p|p]; [lia| |lia]. intros _. unfold Itoa. cbn [Z.to_int].
  pose proof (DecimalN.Unsigned.to_of (Pos.to_uint p)) as Hn.
  assert (N.of_uint (Pos.to_uint p) = N.pos p) as Eo by apply DecimalPos.Unsigned.of_to. rewrite Eo in Hn.
  change (N.to_uint (N.pos p)) with (Pos.to_uint p) in Hn. unfold NilZero.string_of_int, NilZero.string_of_uint.
  destruct (Pos.to_uint p) as [|d|d|d|d|d|d|d|d|d|d] eqn:Ed; try (eexists _, _; split; [reflexivity|done]).
  exfalso. unfold unorm in Hn. destruct (nzhead (D0 d)) eqn:Ez; try discriminate Hn.
  - injection Hn as ->. discriminate Eo.
  - by apply (nzhead_nonzero (D0 d) u).
Qed.
Lemma digits_all s : sall is_digit s = true -> all_digits s = true /\ Split s "-" = [s].
Proof.
  induction s as [|c s IH]; [done|]. cbn [sall all_digits Split]. intros [Hc Hs]%andb_true_iff. apply IH in Hs as [-> ->]. rewrite Hc.
  split; [done|]. destruct (Ascii.eqb_spec "-" c) as [<-|]; [done|done].
Qed.
Lemma Itoa_number n : 0 < n -> positive_list (Itoa n) = true.
Proof.
  intros Hn. pose proof (Itoa_digits n ltac:(lia)) as [Hd _]. destruct (digits_all _ Hd) as [_ Hs]. unfold positive_list. rewrite Hs.
  cbn [forallb]. rewrite andb_true_r. destruct (Itoa_positive n Hn) as (c & s & E & Hc). rewrite E in Hd |- *. cbn [sall positive_number] in *.
  apply andb_true_iff in Hd as [-> Hd]. apply digits_all in Hd as [-> _]. apply Ascii.eqb_neq in Hc. by rewrite Hc.
Qed.

Lemma accepted_upper t : accepted (ToUpper t) = accepted t.
Proof.
  unfold accepted, urfResolutionToken, urfWidthToken, urfColorSpaceToken, urfVersionToken, urfPositiveNumericListToken,
    urfOptionalZeroToken, token_of. cbv zeta. by rewrite ToUpper_idemp.
Qed.

(** What a token that is accepted provides shows in its first letters. *)
Lemma accepted_prefix t : ToUpper t = t -> accepted t = true ->
  (HasPrefix t "W" = true -> wide t = true) /\ (HasPrefix t "RS" = true -> urfResolutionToken t = true).
Proof.
  intros Hu Ha. split; intros [r ->]%prefix_split; revert Ha;
    unfold accepted, wide, urfResolutionToken, urfWidthToken, urfColorSpaceToken, urfVersionToken, urfPositiveNumericListToken,
      urfOptionalZeroToken, token_of; cbv zeta; rewrite Hu; cbn; destruct r; cbn; rewrite ?orb_false_r; done.
Qed.

Lemma raw_accepted values : forall s s' raw, see_values values s = Some s' -> raw_tokens values = Some raw -> forallb accepted raw = true.
Proof.
  induction values as [|[t v] l IH]; intros s s' raw; cbn [see_values raw_tokens]; [by intros _ [= <-]|].
  destruct (negb _); [done|]. destruct v as [|text| | | | | |]; try done. destruct (splitURFTokens text) as [parts|]; [|done]. cbn [mbind option_bind].
  pose proof (see_tokens_spec parts s) as Hs. destruct (see_tokens parts s) as [s1|]; [|done]. destruct Hs as [Hs _]. cbn [mbind option_bind].
  intros Hl. destruct (raw_tokens l) as [more|]; [|done]. intros [= <-]. rewrite forallb_app. apply andb_true_iff. split; [|by eapply IH].
  rewrite <- Hs. clear. induction parts as [|p l IH]; [done|]. cbn. by rewrite accepted_upper, IH.
Qed.

(** The tokens of a monochrome queue are ones it can publish. *)
Lemma mono_tokens upstream policy printer : let s := buildRouteSnapshot upstream policy printer in
  ToLower (TrimSpace (pPrintColorMode policy)) = "monochrome"%string -> 0 ∉ squarePWGResolutions upstream ->
  snapPath s <> AirPrintPathUnavailable -> family_tokens (URFTokens s) = true.
Proof.
  intros s Hm Hz Hp. destruct (snapshot_cases upstream policy printer)
    as [(tk & En & _ & _ & Et)|[(_ & _ & Ep & _)|(_ & _ & m & p & l & tk & Ee & _ & _ & Et)]]; [fold s in Et; rewrite Et|done|fold s in Et; rewrite Et].
  - unfold native_tokens in En. destruct (validURFFamily upstream) eqn:Ev; [|done].
    apply nativeURFTokens_inv in En as (attr & raw & pref & Ha & Hraw & -> & _ & Hrs & Hw).
    specialize (Hw Hm). set (tokens := uniqueStrings _) in *.
    assert (forallb accepted raw = true) as Hacc.
    { unfold validURFFamily in Ev. rewrite Ha in Ev. destruct (Attr upstream "document-format-supported"); [|done].
      apply andb_true_iff in Ev as [_ Ev]. destruct (see_values _ _) eqn:Es; [|done]. by eapply raw_accepted. }
    assert (forall t, t ∈ tokens -> ToUpper t = t /\ accepted t = true) as Ht.
    { intros t. unfold tokens. rewrite elem_of_uniqueStrings, elem_of_sort_by, list_elem_of_In, filter_In. intros [Hin _].
      rewrite forallb_forall in Hacc. split; [|by apply Hacc]. apply raw_tokens_upper in Hraw. rewrite Forall_forall in Hraw.
      by destruct (Hraw t) as [_ ?]; [apply list_elem_of_In|]. }
    apply existsb_exists in Hrs as (r & Hr & Er), Hw as (w & Hw & Ew). 
    destruct (Ht r ltac:(by apply list_elem_of_In)) as [Ur Ar], (Ht w ltac:(by apply list_elem_of_In)) as [Uw Aw].
    apply (accepted_prefix r Ur Ar) in Er. apply (accepted_prefix w Uw Aw) in Ew.
    unfold family_tokens. rewrite !andb_true_iff. split_and!.
    + apply forallb_forall. intros t Hin. apply Ht, list_elem_of_In, Hin.
    + apply Z.leb_le. destruct tokens as [|a [|b k]]; [done| |unfold zlen; cbn; lia]. exfalso.
      destruct Hr as [->|[]], Hw as [->|[]]. unfold wide in Ew. by rewrite Er in Ew.
    + apply existsb_exists. by exists w.
    + apply existsb_exists. by exists r.
  - apply emulatedURFRoute_inv in Ee as (sel & r0 & rest & token & sheet & H). destruct_and! H. subst tk.
    assert (0 < r0) as Hr.
    { assert (r0 ∈ squarePWGResolutions upstream) as Hin.
      { match goal with H : _ = squarePWGResolutions _ |- _ => rewrite <- H end.
        match goal with H : _ = r0 :: rest |- _ => rewrite H end. left. }
      pose proof (square_nonneg _ _ Hin). destruct (decide (r0 = 0)) as [->|]; [done|lia]. }
    match goal with H : EqualFold _ "monochrome" = true -> _ |- _ => rewrite H by (apply EqualFold_true; exact Hm) end.
    assert (urfResolutionToken ("RS" +:+ Itoa r0) = true) as Hrs.
    { unfold urfResolutionToken, token_of. cbv zeta. destruct (Itoa_upper r0 ltac:(lia)) as [_ ->].
      cbn [existsb]. by rewrite prefix_app, sdrop_app, Itoa_number. }
    unfold family_tokens. cbn [forallb existsb]. unfold accepted at 3. rewrite Hrs. reflexivity.
Qed.

Lemma fit_unchanged input q : plain_keys input -> fits input -> AirPrint q = true -> hasFold input "urf" = true ->
  hasFold input "pdl" = true -> fitProfileTXT input q = Ok (input, q).
Proof.
  intros Hp Hf Ha Hu Hd. unfold fitProfileTXT, fitProfilesForTXT. rewrite Ha. cbn [negb]. rewrite Hu. cbn [negb andb orb].
  rewrite Ha. cbn [orb]. rewrite Hd. cbn [negb andb].
  destruct (limits_ok input Hp) as [Hok _]. destruct (base.size input); cbn [fit_loop]; by rewrite (proj2 Hok Hf).
Qed.

Lemma offered_published attrs : "image/urf"%string ∈ stringValues attrs "document-format-supported" -> published_formats attrs <> [].
Proof.
  intros Hin E. unfold published_formats in E. apply (not_elem_of_nil (A := string) "image/urf"). rewrite <- E.
  rewrite merge_sort_Permutation. apply list_elem_of_In, filter_In. split; [by apply list_elem_of_In|done].
Qed.

(** A monochrome queue with an AirPrint path whose resolutions fit the
    width they are kept in publishes the URF tokens of its path when it is
    ready for AirPrint, and is then published as a service for AirPrint
    clients when its TXT data fits. *)
Theorem mono_queue_published upstream queue proxyURI printer options metadata identity printer' upstream' cfg local uri profiles input :
  let model := NewCapabilityModel upstream queue proxyURI printer options metadata in
  let routes := buildRouteSnapshot upstream (mPolicy model) (service_printer (mPrinter model)) in
  let attrs := clientCapabilities (Some model) queue proxyURI printer' upstream' identity in
  ToLower (TrimSpace (pPrintColorMode (mPolicy model))) = "monochrome"%string ->
  snapPath routes <> AirPrintPathUnavailable -> 0 ∉ squarePWGResolutions upstream ->
  prReady (pfOrdinary profiles) = true -> prReady (pfAirPrint profiles) = true ->
  dnsServiceInputWithProfiles cfg local uri printer' upstream' attrs profiles = Ok input ->
  iTXT input !! "URF" = Some (Join (URFTokens routes) ",") /\
  (validateServiceInputBasic input = Ok tt -> fits (iTXT input) ->
   exists records, BuildRecordsForProfiles input (iProfiles input) = Ok records /\
     AirPrint (publicationProfilesForRecords records) = true).
Proof.
  cbv zeta. set (attrs := clientCapabilities _ _ _ _ _ _). intros Hm Hp Hz Ho Ha Hi.
  apply input_data in Hi as (Eprof & path & Et). subst attrs. unfold NewCapabilityModel in *. cbv zeta in *.
  match type of Et with context [clientCapabilities (Some (SynthesizeCapabilityModel ?m))] =>
    destruct (client_family m queue proxyURI printer' upstream' identity) as (Ev & Ef & Eu) end.
  set (m := SynthesizeCapabilityModel _) in *. set (routes := buildRouteSnapshot upstream (mPolicy m) (service_printer (mPrinter m))) in *.
  pose proof (mono_tokens upstream (mPolicy m) (service_printer (mPrinter m)) Hm Hz Hp) as Hfam. cbv zeta in Hfam. fold routes in Hfam.
  set (attrs := clientCapabilities _ _ _ _ _ _) in *.
  change (buildRouteSnapshot (mUpstream _) (mPolicy m) (service_printer (mPrinter m))) with routes in Ev, Ef, Eu.
  assert (validAdvertisedURFFamily attrs = true) as Hv by (rewrite Ev; by destruct (snapPath routes)).
  assert (stringValues attrs "urf-supported" = URFTokens routes) as Hu by (rewrite Eu; by destruct (snapPath routes)).
  assert (URFTokens routes <> []) as Hne by by apply path_tokens.
  assert ("image/urf"%string ∈ map ClientFormat (Routes routes)) as Hin by by apply urf_route.
  assert (hasFold (iTXT input) "urf" = true) as Hurf by (rewrite Et, txt_urf, Ha, Hu, Hv; by rewrite bool_decide_eq_false_2).
  assert (hasFold (iTXT input) "pdl" = true) as Hpdl.
  { rewrite Et, txt_pdl, bool_decide_eq_false_2; [done|]. apply offered_published. rewrite Ef; [done|].
    intros En. rewrite En in Hin. by apply elem_of_nil in Hin. }
  split.
  - rewrite Et. unfold printerDNSSDTXTForProfiles. cbv zeta. rewrite Ha, Hu, Hv, bool_decide_eq_false_2 by done. cbn [negb andb put].
    apply lookup_insert_eq.
  - intros Hb Hf. unfold BuildRecordsForProfiles. rewrite Hb. cbn [mbind res_bind]. rewrite Eprof. cbn [Ordinary]. rewrite Ho. cbn [negb].
    unfold validateServiceInputBasic in Hb. apply checks_ok in Hb as [_ Hb]. apply valid_input_keys in Hb as [Hk _].
    rewrite fit_unchanged by done. cbn [mbind res_bind AirPrint IPPEverywhere]. eexists. split; [done|]. rewrite Ha.
    by destruct (prReady (pfIPPEverywhere profiles)).
Qed.
End publication.

(** ** A color queue and a monochrome one *)

#[local] Existing Instances goipp_example no_ip6 urn_prefixed visit_in_order.

Definition example_dnssd : DNSSDConfig := {|
  Configuration.Mode := "enabled"; Configuration.Hostname := "proxy.local"; Configuration.Interface := "";
  Configuration.AllowedAliases := []; Configuration.modeSet := true |}.
Definition color_printer : Attributes := urf_printer ["application/pdf"; "image/urf"]%string ["V1.4"; "W8"; "SRGB24"; "RS300-600"]%string.
Definition example_attrs (color : string) (upstream : Attributes) : Attributes :=
  clientCapabilities (Some (urf_model color upstream)) "office" "ipp://proxy.example:631/ipp/office" (a4_queue color) upstream no_identity.
Definition example_input (color : string) (upstream : Attributes) : res goerr ServiceInput :=
  dnsServiceInputWithProfiles example_dnssd None "ipp://proxy.example:631/ipp/office" (a4_queue color) upstream
    (example_attrs color upstream) (mProfiles (urf_model color upstream)).
Example color_ready : prReady (pfAirPrint (mProfiles (urf_model "color" color_printer))) = true /\
  stringValues (example_attrs "color" color_printer) "urf-supported" = ["V1.4"; "SRGB24"; "RS300-600"]%string.
Proof. vm_compute. split; reflexivity. Qed.

Lemma color_queue_without_airprint_witness :
  exists input records, example_input "color" color_printer = Ok input /\ BuildRecordsForProfiles input (iProfiles input) = Ok records /\
    AirPrint (iProfiles input) = true /\ AirPrint (publicationProfilesForRecords records) = false.
Proof.
  assert (exists input, example_input "color" color_printer = Ok input /\ AirPrint (iProfiles input) = true /\
    is_ok (BuildRecordsForProfiles input (iProfiles input)) = true) as (input & Hi & Ha & Hr).
  { destruct (example_input "color" color_printer) as [input|e] eqn:E; [|vm_compute in E; discriminate E].
    exists input. split; [reflexivity|]. vm_compute in E. injection E as <-. split; vm_compute; reflexivity. }
  destruct (BuildRecordsForProfiles input (iProfiles input)) as [records|] eqn:Er; [|discriminate Hr].
  exists input, records. split; [exact Hi|]. split; [exact Er|]. split; [exact Ha|].
  pose proof (color_queue_without_airprint color_printer "office" "ipp://proxy.example:631/ipp/office" (a4_queue "color")
    (urf_options (a4_policy "color") color_printer) None no_identity (a4_queue "color") color_printer example_dnssd None
    "ipp://proxy.example:631/ipp/office" (mProfiles (urf_model "color" color_printer)) eq_refl) as H. cbv zeta in H.
  unfold urf_model in H. unfold example_input, example_attrs, urf_model in Hi.
  rewrite Hi in H. destruct H as [_ H]. exact (H records Er).
Defined.

Lemma mono_queue_published_witness :
  exists input records, example_input "monochrome" gray_printer = Ok input /\
    BuildRecordsForProfiles input (iProfiles input) = Ok records /\ AirPrint (publicationProfilesForRecords records) = true.
Proof.
  destruct (example_input "monochrome" gray_printer) as [input|e] eqn:E; [|vm_compute in E; discriminate E].
  assert (validateServiceInputBasic input = Ok tt /\ bool_decide (fits (iTXT input)) = true) as [Hb Hf].
  { vm_compute in E. injection E as <-. split; vm_compute; reflexivity. }
  destruct (mono_queue_published gray_printer "office" "ipp://proxy.example:631/ipp/office" (a4_queue "monochrome")
    (urf_options (a4_policy "monochrome") gray_printer) None no_identity (a4_queue "monochrome") gray_printer example_dnssd None
    "ipp://proxy.example:631/ipp/office" (mProfiles (urf_model "monochrome" gray_printer)) input) as [_ H].
  - reflexivity.
  - vm_compute. discriminate.
  - apply (bool_decide_unpack _). vm_compute. exact Logic.I.
  - vm_compute. reflexivity.
  - vm_compute. reflexivity.
  - unfold example_input, example_attrs, urf_model in E. unfold urf_model. exact E.
  - destruct (H Hb (bool_decide_eq_true_1 _ Hf)) as (records & Hr & Ha). exists input, records. auto.
Defined.
