(* ===== verification/Publisher.v ===== *)
(** * DNS-SD publishers ([internal/dnssd/publisher.go, publisher_stub.go, publisher_avahi.go])

    The interface the service calls, the stub and the Avahi publisher. The
    Avahi daemon is an environment: it answers each call of D-Bus at a tick of
    its own, may have applied a call it reports as failed, and may lose groups
    at any moment, as it does when it is restarted. The state it is in is kept
    next to the state of the publisher, which never reads it. *)

From Stdlib Require Import ZArith Lia Ascii String.
From stdpp Require Import base tactics list strings gmap.
From S2P Require Import Configuration.
From S2P Require Import Prelude GoString GoError DnsSd.

Definition StatePublished : string := "published".
Definition StateDegraded : string := "degraded".
Definition StateWithdrawn : string := "withdrawn".
Definition StateDisabled : string := "disabled".
Definition StateUnpublished : string := "unpublished".

Record Status := { sState : string; sName : string; sAttempts : Z; sErr : option goerr }.
Definition degraded (name : string) (err : goerr) : Status :=
  {| sState := StateDegraded; sName := name; sAttempts := 0; sErr := Some err |}.
Definition reached (state name : string) : Status := {| sState := state; sName := name; sAttempts := 0; sErr := None |}.
Definition published_as (name : string) (attempts : Z) : Status :=
  {| sState := StatePublished; sName := name; sAttempts := attempts; sErr := None |}.
(** No name of the candidates was free. *)
Definition no_name_left (name : string) (attempts : Z) : Status :=
  {| sState := StateDegraded; sName := name; sAttempts := attempts; sErr := Some (EText "DNS-SD service name collision") |}.

Record Publication := { pName : string; pInput : ServiceInput; pRecords : list ServiceRecord }.

(** A context: none, one that is done, or one that is not. *)
Inductive Context : Type := NilContext | DoneContext (err : goerr) | LiveContext.
Definition contextErr (ctx : Context) : option goerr :=
  match ctx with
  | NilContext => Some (EText "nil context")
  | DoneContext err => Some err
  | LiveContext => None
  end.

(** ** Inputs and records *)

Definition with_host (hostname interface : string) (i : ServiceInput) : ServiceInput := {|
  iName := iName i; iHostname := hostname; iPort := iPort i; iIPPS := iIPPS i; iInterface := interface; iTXT := iTXT i;
  iGeoLocation := iGeoLocation i; iProfiles := iProfiles i; iProfilesSet := iProfilesSet i;
  iMaxCollisionRetries := iMaxCollisionRetries i |}.
Definition with_profiles (p : PublicationProfiles) (i : ServiceInput) : ServiceInput := {|
  iName := iName i; iHostname := iHostname i; iPort := iPort i; iIPPS := iIPPS i; iInterface := iInterface i; iTXT := iTXT i;
  iGeoLocation := iGeoLocation i; iProfiles := p; iProfilesSet := iProfilesSet i;
  iMaxCollisionRetries := iMaxCollisionRetries i |}.
Definition with_name (name : string) (i : ServiceInput) : ServiceInput := {|
  iName := name; iHostname := iHostname i; iPort := iPort i; iIPPS := iIPPS i; iInterface := iInterface i; iTXT := iTXT i;
  iGeoLocation := iGeoLocation i; iProfiles := iProfiles i; iProfilesSet := iProfilesSet i;
  iMaxCollisionRetries := iMaxCollisionRetries i |}.
(** The identity of a publication: its name and its endpoint. *)
Definition with_identity (name : string) (from i : ServiceInput) : ServiceInput := {|
  iName := name; iHostname := iHostname from; iPort := iPort from; iIPPS := iIPPS from; iInterface := iInterface from;
  iTXT := iTXT i; iGeoLocation := iGeoLocation from; iProfiles := iProfiles i; iProfilesSet := iProfilesSet i;
  iMaxCollisionRetries := iMaxCollisionRetries i |}.
Definition renamed (name : string) (r : ServiceRecord) : ServiceRecord := {|
  rName := name; rHostname := rHostname r; rPort := rPort r; rType := rType r; rSubtype := rSubtype r; rTXT := rTXT r;
  rGeoLocation := rGeoLocation r |}.
(** The publication of the records under a name. *)
Definition publication_of (name : string) (input : ServiceInput) (records : list ServiceRecord) : Publication :=
  {| pName := name; pInput := with_name name input; pRecords := map (renamed name) records |}.

Definition max_attempts (input : ServiceInput) : Z :=
  if iMaxCollisionRetries input =? 0 then DefaultCollisionRetries else i64 (iMaxCollisionRetries input + 1).
Definition build_records `{MapRange} (input : ServiceInput) : res goerr (list ServiceRecord) :=
  if iProfilesSet input then BuildRecordsForProfiles input (iProfiles input) else BuildRecords input.

(** ** The interface

    What a publisher promises: its states, an error only with a degraded
    status, the name it has published under, and nothing left after a
    withdrawal. [published] is the last known good publication. *)
Class Publisher (P : Type) := {
  Update : Context -> ServiceInput -> P -> (Status * option goerr) * P;
  Withdraw : Context -> P -> (Status * option goerr) * P;
  Close : P -> option goerr * P;
  published : P -> option Publication;
  Update_published ctx input p s e p' : Update ctx input p = (s, e, p') -> sState s = StatePublished ->
    e = None /\ sErr s = None /\ exists pub, published p' = Some pub /\ pName pub = sName s;
  Update_gone ctx input p s e p' : Update ctx input p = (s, e, p') ->
    sState s = StateWithdrawn \/ sState s = StateDisabled -> e = None /\ published p' = None;
  Update_states ctx input p : sState (fst (fst (Update ctx input p))) ∈
    [StatePublished; StateDegraded; StateWithdrawn; StateDisabled];
  Withdraw_states ctx p : sState (fst (fst (Withdraw ctx p))) ∈ [StateDegraded; StateWithdrawn; StateDisabled];
  Withdraw_gone ctx p s e p' : Withdraw ctx p = (s, e, p') ->
    sState s = StateWithdrawn \/ sState s = StateDisabled -> e = None /\ published p' = None
}.

(** ** The stub *)

Record StubPublisher := { available : bool; disabled : bool; stub_current : option Publication; collisions : gset string }.
Definition NewStubPublisher : StubPublisher :=
  {| available := true; disabled := false; stub_current := None; collisions := ∅ |}.
Definition with_current (c : option Publication) (p : StubPublisher) : StubPublisher :=
  {| available := available p; disabled := disabled p; stub_current := c; collisions := collisions p |}.
Definition SetAvailable (a : bool) (p : StubPublisher) : StubPublisher :=
  {| available := a; disabled := disabled p; stub_current := stub_current p; collisions := collisions p |}.
Definition SetCollidingNames (names : list string) (p : StubPublisher) : StubPublisher :=
  {| available := available p; disabled := disabled p; stub_current := stub_current p; collisions := list_to_set names |}.
(** The publisher of a platform without Avahi. *)
Definition newStubPlatformPublisher (cfg : DNSSDConfig) : StubPublisher :=
  {| available := false; disabled := (Configuration.Mode cfg =? DNSModeOff)%string; stub_current := None; collisions := ∅ |}.

(** What the publishers show of themselves. *)
Record DebugState := {
  Backend : string; Availability : string; EntryGroup : string; EntryGroupState : string; EntryGroupStateErr : string;
  Closed : bool; debug_publication : option Publication
}.
Definition stub_DebugState (p : StubPublisher) : DebugState := {|
  Backend := "stub";
  Availability := if disabled p then "disabled" else if available p then "available" else "unavailable";
  EntryGroup := ""; EntryGroupState := "not_applicable"; EntryGroupStateErr := ""; Closed := false; debug_publication := stub_current p |}.

Definition publication_name (current : option Publication) (other : string) : string :=
  match current with Some pub => pName pub | None => other end.
Definition unavailable : goerr := EText "DNS-SD publisher unavailable".

Definition stub_Withdraw (ctx : Context) (p : StubPublisher) : (Status * option goerr) * StubPublisher :=
  match contextErr ctx with
  | Some err => (degraded "" err, Some err, p)
  | None =>
      let name := publication_name (stub_current p) "" in
      if disabled p then (reached StateDisabled "", None, with_current None p)
      else if negb (available p) then (degraded name unavailable, None, p)
      else (reached StateWithdrawn name, None, with_current None p)
  end.

(** The loop over the candidate names. *)
Fixpoint stub_publish (input : ServiceInput) (records : list ServiceRecord) (attempt : Z) (names : list string)
    (p : StubPublisher) : Status * StubPublisher :=
  match names with
  | [] => (no_name_left (iName input) (max_attempts input), p)
  | candidate :: rest =>
      if bool_decide (candidate ∈ collisions p) then stub_publish input records (attempt + 1) rest p
      else (published_as candidate (attempt + 1), with_current (Some (publication_of candidate input records)) p)
  end.

Section publishers.
Context `{R : MapRange}.

Definition stub_Update (ctx : Context) (input : ServiceInput) (p : StubPublisher) : (Status * option goerr) * StubPublisher :=
  match contextErr ctx with
  | Some err => (degraded (iName input) err, Some err, p)
  | None =>
      match build_records input with
      | Err err => (degraded (iName input) err, Some err, p)
      | Ok records =>
          if iProfilesSet input && negb (Ordinary (iProfiles input)) then stub_Withdraw ctx p else
          let input := if iProfilesSet input then with_profiles (publicationProfilesForRecords records) input else input in
          if disabled p then (reached StateDisabled (iName input), None, with_current None p)
          else if negb (available p) then (degraded (iName input) unavailable, None, p)
          else let '(s, p') := stub_publish input records 0 (CollisionNames (iName input) (max_attempts input)) p in
               (s, None, p')
      end
  end.
Definition stub_Close (p : StubPublisher) : option goerr * StubPublisher :=
  let '(_, err, p') := stub_Withdraw LiveContext p in (err, p').
End publishers.

(** ** The stub keeps the promises of the interface *)

Section stub_laws.
Context `{R : MapRange}.

(** What a status says of the stub. *)
Definition stub_truthful (r : Status * option goerr) (p : StubPublisher) : Prop :=
  (sState (fst r) = StatePublished ->
     snd r = None /\ sErr (fst r) = None /\ exists pub, stub_current p = Some pub /\ pName pub = sName (fst r)) /\
  (sState (fst r) = StateWithdrawn \/ sState (fst r) = StateDisabled -> snd r = None /\ stub_current p = None) /\
  sState (fst r) ∈ [StatePublished; StateDegraded; StateWithdrawn; StateDisabled].

Lemma stub_degraded s e p : sState s = StateDegraded -> stub_truthful (s, e) p.
Proof. intros Hs. unfold stub_truthful. cbn. rewrite Hs. split_and!; [done|by intros [?|?]|set_solver]. Qed.
Lemma stub_gone s p : sState s = StateWithdrawn \/ sState s = StateDisabled -> stub_current p = None -> stub_truthful (s, None) p.
Proof. intros Hs Hc. unfold stub_truthful. cbn. destruct Hs as [->| ->]; split_and!; try done; set_solver. Qed.
Lemma stub_Withdraw_truthful ctx p :
  stub_truthful (stub_Withdraw ctx p).1 (stub_Withdraw ctx p).2 /\ sState (stub_Withdraw ctx p).1.1 <> StatePublished.
Proof.
  unfold stub_Withdraw. destruct (contextErr ctx); [by split; [apply stub_degraded|]|].
  destruct (disabled p); [by split; [apply stub_gone; auto|]|].
  destruct (available p); [by split; [apply stub_gone; auto|]|by split; [apply stub_degraded|]].
Qed.
Lemma stub_publish_truthful input rs names attempt p :
  stub_truthful ((stub_publish input rs attempt names p).1, None) (stub_publish input rs attempt names p).2.
Proof.
  revert attempt p. induction names as [|name names IH]; intros attempt p; cbn [stub_publish]; [by apply stub_degraded|].
  destruct (bool_decide _); [apply IH|]. split_and!; cbn; [by intros _; eauto|by intros [?|?]|set_solver].
Qed.
Lemma stub_Update_truthful ctx input p : stub_truthful (stub_Update ctx input p).1 (stub_Update ctx input p).2.
Proof.
  unfold stub_Update. destruct (contextErr ctx) eqn:Hctx; [by apply stub_degraded|].
  destruct (build_records input) as [rs|]; [|by apply stub_degraded].
  destruct (iProfilesSet input && negb (Ordinary (iProfiles input))); [apply stub_Withdraw_truthful|].
  set (i := if iProfilesSet input then _ else input).
  destruct (disabled p); [by apply stub_gone; auto|]. destruct (available p); [|by apply stub_degraded]. cbn [negb].
  pose proof (stub_publish_truthful i rs (CollisionNames (iName i) (max_attempts i)) 0 p) as Ht.
  by destruct (stub_publish _ _ _ _ _).
Qed.

#[export] Instance stub_is_publisher : Publisher StubPublisher.
Proof.
  refine {| Update := stub_Update; Withdraw := stub_Withdraw; Close := stub_Close; published := stub_current |}.
  - intros ctx input p s e p' H Hs. destruct (stub_Update_truthful ctx input p) as (Ht & _). rewrite H in Ht. by apply Ht.
  - intros ctx input p s e p' H Hs. destruct (stub_Update_truthful ctx input p) as (_ & Ht & _). rewrite H in Ht. by apply Ht.
  - intros ctx input p. apply stub_Update_truthful.
  - intros ctx p. destruct (stub_Withdraw_truthful ctx p) as ((_ & _ & Ht) & Hs). set_solver.
  - intros ctx p s e p' H Hs. destruct (stub_Withdraw_truthful ctx p) as ((_ & Ht & _) & _). rewrite H in Ht. by apply Ht.
Defined.
End stub_laws.
