(* ===== verification/Avahi.v ===== *)
(** * The Avahi publisher ([internal/dnssd/publisher_avahi.go])

    A publication is an entry group of the daemon: it is created, filled and
    committed, its TXT data is updated in place, and it is freed and created
    again when its services change. *)

From Stdlib Require Import ZArith Lia Ascii String.
From Stdlib Require Import Strings.Byte.
From stdpp Require Import base tactics list strings gmap.
From S2P Require Import Configuration.
From S2P Require Import Prelude GoString GoError GoTime DnsSd Publisher.

(** ** The daemon *)

(** What is registered in a group. *)
Inductive Entry : Type :=
| EService (name type host : string) (port : Z) (txt : list string)
| ESubtype (name type full : string)
| ELoc (host : string) (loc : list byte).
Record Group := { g_entries : list Entry; g_committed : bool }.
Abbreviation groups := (gmap string Group).

(** The calls that change a group. *)
Inductive Call : Type :=
| AddEntry (path : string) (interface : Z) (e : Entry)
| Commit (path : string)
| UpdateServiceTxt (path : string) (interface : Z) (name type : string) (txt : list string)
| Free (path : string).
Definition path_of (c : Call) : string :=
  match c with AddEntry p _ _ | Commit p | UpdateServiceTxt p _ _ _ _ | Free p => p end.

Definition set_txt (name type : string) (txt : list string) (e : Entry) : Entry :=
  match e with
  | EService n t h p old => if (n =? name)%string && (t =? type)%string then EService n t h p txt else e
  | _ => e
  end.
(** What a call does to the daemon. *)
Definition apply_call (c : Call) (gs : groups) : groups :=
  match c with
  | AddEntry path _ e => alter (fun g => {| g_entries := g_entries g ++ [e]; g_committed := g_committed g |}) path gs
  | Commit path => alter (fun g => {| g_entries := g_entries g; g_committed := true |}) path gs
  | UpdateServiceTxt path _ name type txt =>
      alter (fun g => {| g_entries := map (set_txt name type txt) (g_entries g); g_committed := g_committed g |}) path gs
  | Free path => delete path gs
  end.

Definition error_mentions (words : list string) (err : goerr) : bool :=
  existsb (fun w => Contains (ToLower (Error_text err)) w) words.
Definition isCollisionError : goerr -> bool := error_mentions ["collision"; "nameconflict"; "already exists"]%string.
Definition isStaleEntryGroupError : goerr -> bool :=
  error_mentions ["unknownobject"; "unknown object"; "no such object"; "serviceunknown"; "service unknown";
                  "entry group no longer exists"]%string.

(** The daemon, the bus and the network interfaces at a tick. A new group has a
    path of its own; an error that says that an object is unknown comes from a
    daemon that does not have it; an error of a lookup of an interface is not
    such an error. *)
Record Daemon := {
  d_lost : nat -> string -> bool;
  d_new : nat -> groups -> res goerr string;
  d_reply : nat -> groups -> Call -> option goerr;
  (** whether a call that failed was applied all the same *)
  d_applied : nat -> Call -> bool;
  d_state : nat -> groups -> string -> res goerr Z;
  d_bus : nat -> option goerr;
  d_connected : nat -> bool;
  d_index : nat -> string -> res goerr Z;
  (** whether the wait for a state has to end *)
  d_over : nat -> bool;
  d_new_fresh t gs p : d_new t gs = Ok p -> p <> ""%string /\ gs !! p = None;
  d_reply_stale t gs c e : d_reply t gs c = Some e -> isStaleEntryGroupError e = true -> gs !! path_of c = None;
  d_state_stale t gs p e : d_state t gs p = Err e -> isStaleEntryGroupError e = true -> gs !! p = None;
  d_index_plain t i e : d_index t i = Err e -> isStaleEntryGroupError e = false
}.

(** ** The publisher *)

Definition avahiInterfaceUnspec : Z := -1.
Definition avahiGroupEstablished : Z := 2.
Definition avahiGroupCollision : Z := 3.
Definition avahiGroupFailure : Z := 4.
Definition avahiStatePollInterval : Z := 25.
Definition avahiStateWait : Z := 2000.

(** [conn] is whether there is a connection. *)
Record avahiPublisher := { conn : bool; group : string; current : option Publication; closed : bool }.
Definition new_publisher : avahiPublisher := {| conn := false; group := ""; current := None; closed := false |}.

(** The publisher and the daemon; [w_unfreed] are the groups the daemon once
    refused to free, without saying that it does not have them. *)
Record AvahiWorld := {
  w_pub : avahiPublisher;
  w_groups : groups;
  w_unfreed : gset string;
  w_tick : nat
}.
Abbreviation AM := (M AvahiWorld (Status * option goerr)).

Definition set_pub (f : avahiPublisher -> avahiPublisher) (w : AvahiWorld) : AvahiWorld :=
  {| w_pub := f (w_pub w); w_groups := w_groups w; w_unfreed := w_unfreed w; w_tick := w_tick w |}.
Definition set_publication (path : string) (pub : option Publication) (p : avahiPublisher) : avahiPublisher :=
  {| conn := conn p; group := path; current := pub; closed := closed p |}.
(** [p.group = ""; p.current = nil] *)
Definition forget : avahiPublisher -> avahiPublisher := set_publication "" None.
Definition set_conn (c : bool) (p : avahiPublisher) : avahiPublisher :=
  {| conn := c; group := group p; current := current p; closed := closed p |}.

Definition return_ {A} (s : Status) (err : option goerr) : AM A := throw (s, err).
(** A status without an error next to it. *)
Definition return_status {A} (s : Status) : AM A := return_ s None.
Definition returned (m : AM (Status * option goerr)) (w : AvahiWorld) : (Status * option goerr) * AvahiWorld :=
  match m w with
  | (Done r, w') | (Fail_ r, w') => (r, w')
  | (_, w') => ((degraded "" (EText ""), None), w')
  end.

Definition interfaceIndex_of (index : res goerr Z) (name : string) : res goerr Z :=
  if (name =? "")%string then Ok avahiInterfaceUnspec else index.

Section avahi.
Context `{R : MapRange} (D : Daemon) (cfg : DNSSDConfig).

(** ** Calls *)

(** The groups the daemon still has. *)
Definition kept_groups (w : AvahiWorld) : groups :=
  filter (fun '(path, _) => d_lost D (w_tick w) path = false) (w_groups w).
Definition ask {A} (f : nat -> A) : AM A := fun w =>
  (Done (f (w_tick w)), {| w_pub := w_pub w; w_groups := kept_groups w; w_unfreed := w_unfreed w; w_tick := S (w_tick w) |}).

Definition call (c : Call) : AM (option goerr) := fun w =>
  let gs := kept_groups w in
  let err := d_reply D (w_tick w) gs c in
  let applied := match err with None => true | Some _ => d_applied D (w_tick w) c end in
  let refused := match c, err with
                 | Free path, Some e => if isStaleEntryGroupError e then ∅ else {[path]}
                 | _, _ => ∅
                 end in
  (Done err, {| w_pub := w_pub w; w_groups := if applied then apply_call c gs else gs;
                w_unfreed := refused ∪ w_unfreed w; w_tick := S (w_tick w) |}).
Definition EntryGroupNew : AM (res goerr string) := fun w =>
  let gs := kept_groups w in
  let r := d_new D (w_tick w) gs in
  (Done r, {| w_pub := w_pub w;
              w_groups := match r with Ok path => <[path := {| g_entries := []; g_committed := false |}]> gs | Err _ => gs end;
              w_unfreed := match r with Ok path => w_unfreed w ∖ {[path]} | Err _ => w_unfreed w end;
              w_tick := S (w_tick w) |}).
Definition GetState (path : string) : AM (res goerr Z) := fun w =>
  let gs := kept_groups w in
  (Done (d_state D (w_tick w) gs path),
   {| w_pub := w_pub w; w_groups := gs; w_unfreed := w_unfreed w; w_tick := S (w_tick w) |}).
Definition interfaceIndex (name : string) : AM (res goerr Z) := ask (fun t => interfaceIndex_of (d_index D t name) name).

Definition ensureBus : AM (option goerr) :=
  p ← gets w_pub;
  connected ← ask (d_connected D);
  if conn p && connected then mret None
  else
    err ← ask (d_bus D);
    match err with
    | Some err => mret (Some err)
    | None => modify (set_pub (set_conn true));; mret None
    end.

Definition freeGroup (path : string) : AM (option goerr) :=
  p ← gets w_pub;
  if negb (conn p) || (path =? "")%string then mret None else call (Free path).

(** ** Creating a group *)

(** [waitForGroupState]: a poll every interval until the wait is over. The
    context of the calls ends with the wait, so no poll after it succeeds. *)
Fixpoint poll_state (polls : nat) (path : string) : AM (res goerr Z) :=
  match polls with
  | O => mret (Err DeadlineExceeded)
  | S polls =>
      r ← GetState path;
      match r with
      | Err err => mret (Err err)
      | Ok state =>
          if bool_decide (state ∈ [avahiGroupEstablished; avahiGroupCollision; avahiGroupFailure]) then mret (Ok state)
          else
            over ← ask (d_over D);
            if over : bool then mret (Err (EWrap ("waiting for avahi entry group " +:+ path +:+ ": ") DeadlineExceeded))
            else poll_state polls path
      end
  end.
Definition waitForGroupState (path : string) : AM (res goerr Z) :=
  poll_state (Z.to_nat (avahiStateWait / avahiStatePollInterval + 2)) path.

Definition avahiTXT (txt : TXT_data) : list string := TXTEntries txt.

(** The failure of a step: whether it is a collision, and the error. *)
Abbreviation failure := (option (bool * goerr)).
Definition step_failure (err : option goerr) : failure := (fun err => (isCollisionError err, err)) <$> err.

Definition add_record (path : string) (index : Z) (r : ServiceRecord) : AM failure :=
  if negb (rSubtype r =? "")%string then
    err ← call (AddEntry path index (ESubtype (rName r) (rType r) (FullType r)));
    mret (step_failure err)
  else
    err ← call (AddEntry path index (EService (rName r) (rType r) (rHostname r) (rPort r) (avahiTXT (rTXT r))));
    match err with
    | Some err => mret (step_failure (Some err))
    | None =>
        if (rGeoLocation r =? "")%string || (rHostname r =? "")%string then mret None
        else match EncodeLOC (rGeoLocation r) with
             | Err err => mret (Some (false, err))
             | Ok loc =>
                 err ← call (AddEntry path index (ELoc (rHostname r) loc));
                 mret (step_failure err)
             end
    end.
Fixpoint add_records (path : string) (index : Z) (records : list ServiceRecord) : AM failure :=
  match records with
  | [] => mret None
  | r :: rest =>
      f ← add_record path index r;
      match f with Some f => mret (Some f) | None => add_records path index rest end
  end.

(** What follows the creation of the group. *)
Definition fill_group (path : string) (input : ServiceInput) (records : list ServiceRecord) : AM failure :=
  index ← interfaceIndex (iInterface input);
  match index with
  | Err err => mret (Some (false, err))
  | Ok index =>
      f ← add_records path index records;
      match f with
      | Some f => mret (Some f)
      | None =>
          err ← call (Commit path);
          match err with
          | Some err => mret (step_failure (Some err))
          | None =>
              r ← waitForGroupState path;
              match r with
              | Err err => mret (Some (false, err))
              | Ok state =>
                  if state =? avahiGroupCollision
                  then mret (Some (true, EText ("avahi reported service name collision for " +:+ Quote (iName input))))
                  else if negb (state =? avahiGroupEstablished)
                  then mret (Some (false, EText ("avahi entry group entered state " +:+ Itoa state)))
                  else mret None
              end
          end
      end
  end.

(** The path of the new group, or why there is none. *)
Definition createGroup (input : ServiceInput) (records : list ServiceRecord) : AM (string + bool * goerr) :=
  path ← EntryGroupNew;
  match path with
  | Err err => mret (inr (isCollisionError err, err))
  | Ok path =>
      f ← fill_group path input records;
      match f with
      | None => mret (inl path)
      | Some f => _ ← freeGroup path; mret (inr f)
      end
  end.

(** ** Changing TXT data in place *)

(** The services of a publication by their type; a later one replaces an
    earlier one. *)
Definition previous_records (pub : option Publication) : gmap string ServiceRecord :=
  match pub with
  | None => ∅
  | Some pub => fold_left (fun m r => if (rSubtype r =? "")%string then <[rType r := r]> m else m) (pRecords pub) ∅
  end.

Definition updateServiceTXT (index : Z) (r : ServiceRecord) : AM (option goerr) :=
  p ← gets w_pub;
  call (UpdateServiceTxt (group p) index (rName r) (rType r) (avahiTXT (rTXT r))).

Fixpoint rollbackTXT (updated : list ServiceRecord) (previous : gmap string ServiceRecord) (index : Z) : AM (option goerr) :=
  match updated with
  | [] => mret None
  | r :: rest =>
      match previous !! rType r with
      | None => mret (Some (EText ("no previous TXT record for " +:+ rType r)))
      | Some old =>
          err ← updateServiceTXT index old;
          match err with
          | Some err => mret (Some (EWrap ("restore " +:+ rType r +:+ " TXT: ") err))
          | None => rollbackTXT rest previous index
          end
      end
  end.

(** [avahiTXTUpdateError], by its text. *)
Definition avahiTXTUpdateError (updateErr rollbackErr : goerr) : goerr :=
  EText ("TXT update failed: " +:+ Error_text updateErr +:+ "; rollback failed: " +:+ Error_text rollbackErr).

(** What follows the failure of an update: the data is put back, or the group
    is freed. *)
Definition restore (updated : list ServiceRecord) (previous : gmap string ServiceRecord) (index : Z) (err : goerr) : AM goerr :=
  rollbackErr ← rollbackTXT updated previous index;
  match rollbackErr with
  | None => mret err
  | Some rollbackErr =>
      p ← gets w_pub;
      cleanupErr ← freeGroup (group p);
      match cleanupErr with
      | None => modify (set_pub forget);; mret (avahiTXTUpdateError err rollbackErr)
      | Some cleanupErr =>
          (* errors.Join *)
          mret (avahiTXTUpdateError err
                  (EText (Error_text rollbackErr +:+ String (chr 10) ("free failed group: " +:+ Error_text cleanupErr))))
      end
  end.

(** A service without data of its own, or a subtype. *)
Definition without_txt (r : ServiceRecord) : bool := negb (rSubtype r =? "")%string || (rType r =? "_printer._tcp")%string.
Fixpoint update_records (index : Z) (previous : gmap string ServiceRecord) (updated records : list ServiceRecord)
    : AM (option goerr) :=
  match records with
  | [] => mret None
  | r :: rest =>
      if without_txt r then update_records index previous updated rest
      else
        err ← updateServiceTXT index r;
        match err with
        | Some err => err ← restore (updated ++ [r]) previous index err; mret (Some err)
        | None => update_records index previous (updated ++ [r]) rest
        end
  end.
Definition updateGroupTXT (input : ServiceInput) (records : list ServiceRecord) : AM (option goerr) :=
  index ← interfaceIndex (iInterface input);
  match index with
  | Err err => mret (Some err)
  | Ok index =>
      p ← gets w_pub;
      update_records index (previous_records (current p)) [] records
  end.

(** ** What the publisher shows *)

Definition avahiGroupStateName (state : Z) : string :=
  if state =? 0 then "uncommitted" else if state =? 1 then "registering"
  else if state =? avahiGroupEstablished then "established" else if state =? avahiGroupCollision then "collision"
  else if state =? avahiGroupFailure then "failure" else "unknown(" +:+ Itoa state +:+ ")".
Definition avahi_DebugState : AM DebugState :=
  p ← gets w_pub;
  availability ← (if closed p then mret "closed"%string
                  else if conn p then
                    connected ← ask (d_connected D); mret (if connected : bool then "connected" else "disconnected")%string
                  else mret "not_connected"%string);
  '(state, err) ← (if (group p =? "")%string then mret ("not_created", "")%string
                   else if negb (conn p) then mret ("unknown", "Avahi connection is unavailable")%string
                   else
                     r ← GetState (group p);
                     mret match r with Ok s => (avahiGroupStateName s, ""%string) | Err e => ("unknown"%string, Error_text e) end);
  mret {| Backend := "avahi"; Availability := availability; EntryGroup := group p; EntryGroupState := state;
          EntryGroupStateErr := err; Closed := closed p; debug_publication := current p |}.

(** ** The operations *)

(** Frees the group, if there is one, and forgets it; [status] is what is left
    to do with an error that says more than that the group is gone. *)
Definition free_or (err_status : goerr -> Status) : AM unit :=
  p ← gets w_pub;
  (if (group p =? "")%string then mret tt
   else
     err ← freeGroup (group p);
     match err with
     | Some err => if isStaleEntryGroupError err then mret tt else return_status (err_status err)
     | None => mret tt
     end);;
  modify (set_pub forget).

(** [p.cfg.Mode == config.DNSModeOff] *)
Definition disable (input : ServiceInput) : AM (Status * option goerr) :=
  p ← gets w_pub;
  (if (group p =? "")%string then mret tt
   else
     err ← freeGroup (group p);
     match err with
     | None => mret tt
     | Some err =>
         let name := publication_name (current p) (iName input) in
         if isStaleEntryGroupError err then
           modify (set_pub forget);;
           return_status {| sState := StateDisabled; sName := name; sAttempts := 0; sErr := Some err |}
         else return_status (degraded name err)
     end);;
  modify (set_pub forget);;
  return_status (reached StateDisabled (iName input)).

(** The input and the records for the publication there is; its group is freed
    when the services change. *)
Definition keep_identity (input : ServiceInput) (records : list ServiceRecord) : AM (ServiceInput * list ServiceRecord) :=
  p ← gets w_pub;
  match current p with
  | None => mret (input, records)
  | Some pub =>
      let input := with_identity (pName pub) (pInput pub) input in
      match build_records input with
      | Err err => return_status (degraded (iName input) err)
      | Ok records =>
          let input := if iProfilesSet input then with_profiles (publicationProfilesForRecords records) input else input in
          (if negb (group p =? "")%string && negb (samePublicationStructure (pRecords pub) records)
           then free_or (degraded (pName pub)) else mret tt);;
          mret (input, records)
      end
  end.

(** After a failed update of the TXT data: whether the group is still worth
    keeping. *)
Definition check_group (err : goerr) : AM unit :=
  p ← gets w_pub;
  if isStaleEntryGroupError err then modify (set_pub forget)
  else if negb (group p =? "")%string && bool_decide (is_Some (current p)) && conn p then
    state ← GetState (group p);
    match state with
    | Ok state => if state =? avahiGroupEstablished then mret tt else
        cleanupErr ← freeGroup (group p);
        match cleanupErr with
        | None => modify (set_pub forget)
        | Some e => if isStaleEntryGroupError e then modify (set_pub forget) else mret tt
        end
    | Err stateErr =>
        cleanupErr ← freeGroup (group p);
        match cleanupErr with
        | None => modify (set_pub forget)
        | Some e => if isStaleEntryGroupError stateErr || isStaleEntryGroupError e then modify (set_pub forget) else mret tt
        end
    end
  else mret tt.

Definition update_group (input : ServiceInput) (records : list ServiceRecord) : AM (Status * option goerr) :=
  err ← updateGroupTXT input records;
  match err with
  | Some err =>
      p ← gets w_pub;
      check_group err;;
      return_status (degraded (publication_name (current p) (iName input)) err)
  | None =>
      p ← gets w_pub;
      modify (set_pub (set_publication (group p) (Some {| pName := iName input; pInput := input; pRecords := records |})));;
      return_status (published_as (iName input) 1)
  end.

(** The loop over the candidate names. *)
Fixpoint publish (input : ServiceInput) (records : list ServiceRecord) (attempt : Z) (names : list string)
    : AM (Status * option goerr) :=
  match names with
  | [] => return_status (no_name_left (iName input) (max_attempts input))
  | candidate :: rest =>
      let pub := publication_of candidate input records in
      r ← createGroup (pInput pub) (pRecords pub);
      match r with
      | inr (true, _) => publish input records (attempt + 1) rest
      | inr (false, err) =>
          return_status {| sState := StateDegraded; sName := candidate; sAttempts := attempt + 1; sErr := Some err |}
      | inl path =>
          modify (set_pub (set_publication path (Some pub)));;
          return_status (published_as candidate (attempt + 1))
      end
  end.

Definition update (ctx : Context) (input : ServiceInput) : AM (Status * option goerr) :=
  match contextErr ctx with
  | Some err => return_ (degraded (iName input) err) (Some err)
  | None =>
      let input := with_host (if (iHostname input =? "")%string then Configuration.Hostname cfg else iHostname input)
                     (if (iInterface input =? "")%string then Configuration.Interface cfg else iInterface input) input in
      match build_records input with
      | Err err => return_ (degraded (iName input) err) (Some err)
      | Ok records =>
          let input := if iProfilesSet input && Ordinary (iProfiles input)
                       then with_profiles (publicationProfilesForRecords records) input else input in
          p ← gets w_pub;
          if closed p then
            let err := EText "DNS-SD publisher is closed" in return_ (degraded (iName input) err) (Some err)
          else if iProfilesSet input && negb (Ordinary (iProfiles input)) then
            let name := publication_name (current p) (iName input) in
            free_or (degraded name);; return_status (reached StateWithdrawn name)
          else if (Configuration.Mode cfg =? DNSModeOff)%string then disable input
          else
            '(input, records) ← keep_identity input records;
            err ← ensureBus;
            match err with
            | Some err => return_status (degraded (iName input) err)
            | None =>
                p ← gets w_pub;
                if negb (group p =? "")%string && bool_decide (is_Some (current p)) then update_group input records
                else publish input records 0 (CollisionNames (iName input) (max_attempts input))
            end
      end
  end.

Definition withdraw (ctx : Context) : AM (Status * option goerr) :=
  match contextErr ctx with
  | Some err => return_ (degraded "" err) (Some err)
  | None =>
      p ← gets w_pub;
      let name := publication_name (current p) "" in
      if (group p =? "")%string then modify (set_pub forget);; return_status (reached StateWithdrawn name)
      else
        err ← freeGroup (group p);
        match err with
        | None => modify (set_pub forget);; return_status (reached StateWithdrawn name)
        | Some err =>
            if isStaleEntryGroupError err then
              modify (set_pub forget);;
              return_status {| sState := StateWithdrawn; sName := name; sAttempts := 0; sErr := Some err |}
            else return_status (degraded name err)
        end
  end.

(** The error of [Close] is the second component. *)
Definition close : AM (Status * option goerr) :=
  p ← gets w_pub;
  if closed p then return_status (reached StateWithdrawn "")
  else
    (if (group p =? "")%string then mret tt
     else
       err ← freeGroup (group p);
       (match err with
        | Some err => if isStaleEntryGroupError err then mret tt else return_ (degraded "" err) (Some err)
        | None => mret tt
        end);;
       modify (set_pub forget));;
    modify (set_pub (fun p => {| conn := false; group := group p; current := current p; closed := true |}));;
    return_status (reached StateWithdrawn "").

Definition avahi_Update (ctx : Context) (input : ServiceInput) : AvahiWorld -> (Status * option goerr) * AvahiWorld :=
  returned (update ctx input).
Definition avahi_Withdraw (ctx : Context) : AvahiWorld -> (Status * option goerr) * AvahiWorld := returned (withdraw ctx).
Definition avahi_Close (w : AvahiWorld) : option goerr * AvahiWorld :=
  let '(_, err, w') := returned close w in (err, w').
End avahi.
