(* ===== verification/AvahiTheorems.v ===== *)
(** * What the Avahi publisher leaves with the daemon

    The invariant of the publisher: which groups the daemon may still have, and
    what is in the one the publisher holds. Then the theorems: no operation
    leaks a group, and a status says what the daemon has. *)

From Stdlib Require Import ZArith Lia Ascii String.
From Stdlib Require Import Strings.Byte.
From stdpp Require Import base tactics list strings gmap.
From S2P Require Import Configuration.
From S2P Require Import Prelude GoString GoError GoTime DnsSd Publisher Avahi.

(** ** What a group should hold *)

Definition location_entry (r : ServiceRecord) : list Entry :=
  if (rGeoLocation r =? "")%string || (rHostname r =? "")%string then []
  else match EncodeLOC (rGeoLocation r) with Ok loc => [ELoc (rHostname r) loc] | Err _ => [] end.
(** The entries of a registration whose data is [txt]. *)
Definition record_entries (txt : list string) (r : ServiceRecord) : list Entry :=
  if (rSubtype r =? "")%string then EService (rName r) (rType r) (rHostname r) (rPort r) txt :: location_entry r
  else [ESubtype (rName r) (rType r) (FullType r)].
Definition entries_by (f : string -> list string) (rs : list ServiceRecord) : list Entry :=
  flat_map (fun r => record_entries (f (rType r)) r) rs.
Definition entries_of (rs : list ServiceRecord) : list Entry :=
  flat_map (fun r => record_entries (avahiTXT (rTXT r)) r) rs.

(** The registrations of one name: a type has one service, and the service of
    the old protocol no data. *)
Record registrations (name : string) (rs : list ServiceRecord) : Prop := {
  reg_name r : r ∈ rs -> rName r = name;
  reg_types r r' : r ∈ rs -> r' ∈ rs -> rSubtype r = "" -> rSubtype r' = "" -> rType r = rType r' -> rTXT r = rTXT r';
  reg_printer r : r ∈ rs -> rType r = "_printer._tcp" -> rTXT r = ∅
}.
Definition holds (f : string -> list string) (rs : list ServiceRecord) : Prop :=
  forall r, r ∈ rs -> rSubtype r = "" -> f (rType r) = avahiTXT (rTXT r).

Lemma entries_by_exact f rs : holds f rs -> entries_by f rs = entries_of rs.
Proof.
  unfold holds, entries_by, entries_of. induction rs as [|r rs IH]; intros H; [done|]. cbn [flat_map].
  rewrite IH by (intros; apply H; set_solver). f_equal. unfold record_entries. destruct (String.eqb_spec (rSubtype r) ""); [|done]. by rewrite H by set_solver.
Qed.

(** A function with the data of the registrations. *)
Definition data_of (rs : list ServiceRecord) (type : string) : list string :=
  match List.find (fun r => (rSubtype r =? "")%string && (rType r =? type)%string) rs with
  | Some r => avahiTXT (rTXT r) | None => [] end.
Lemma data_of_holds name rs : registrations name rs -> holds (data_of rs) rs.
Proof.
  intros Hr r Hin Hs. unfold data_of.
  destruct (List.find _ rs) as [r'|] eqn:Hf.
  - apply List.find_some in Hf as [Hin' ?]. bool_to_prop. f_equal.
    eapply (reg_types _ _ Hr); [by apply list_elem_of_In|done..].
  - apply list_elem_of_In, (List.find_none _ _ Hf r) in Hin.
    by rewrite Hs, !String.eqb_refl in Hin.
Qed.

Definition put (type : string) (txt : list string) (f : string -> list string) : string -> list string :=
  fun t => if (type =? t)%string then txt else f t.
Lemma set_txt_entries name rs type txt f :
  (forall r, r ∈ rs -> rName r = name) ->
  map (set_txt name type txt) (entries_by f rs) = entries_by (put type txt f) rs.
Proof.
  induction rs as [|r rs IH]; intros H; [done|]. unfold entries_by in *. cbn [flat_map]. rewrite List.map_app.
  rewrite IH by (intros; apply H; set_solver). f_equal.
  unfold record_entries. destruct (rSubtype r =? "")%string; [|done]. cbn [map].
  f_equal.
  - cbn [set_txt]. rewrite (H r) by set_solver. rewrite String.eqb_refl. cbn [andb]. unfold put.
    rewrite (String.eqb_sym type). by destruct (rType r =? type)%string.
  - unfold location_entry. destruct (_ || _)%bool; [done|]. by destruct (EncodeLOC _).
Qed.
Lemma same_structure_entries txt r r' : same_structure r r' = true -> record_entries txt r = record_entries txt r'.
Proof.
  unfold same_structure. intros H. bool_to_prop. unfold record_entries, location_entry, FullType.
  destruct r, r'; cbn in *; by subst.
Qed.
Lemma samePublicationStructure_Forall2 rs rs' :
  samePublicationStructure rs rs' = true -> Forall2 (fun r r' => same_structure r r' = true) rs rs'.
Proof.
  revert rs'. induction rs as [|r rs IH]; intros [|r' rs']; cbn; try done.
  intros [? ?]%andb_true_iff. constructor; auto.
Qed.
Lemma same_structure_entries_by f rs rs' :
  samePublicationStructure rs rs' = true -> entries_by f rs = entries_by f rs'.
Proof.
  intros H%samePublicationStructure_Forall2. unfold entries_by. induction H as [|r r' rs rs' Hr _ IH]; [done|].
  cbn. rewrite IH. f_equal. rewrite (same_structure_entries _ _ _ Hr). f_equal. f_equal.
  unfold same_structure in Hr. bool_to_prop. done.
Qed.

Section records.
Context `{R : MapRange}.

Lemma ensure_Ok (b : bool) (e : goerr) u : ensure b e = Ok u -> b = true.
Proof. by destruct b. Qed.
Lemma build_records_registrations input rs : build_records input = Ok rs -> registrations (iName input) rs.
Proof.
  unfold build_records. destruct (iProfilesSet input).
  - unfold BuildRecordsForProfiles. destruct (validateServiceInputBasic input); [|done].
    cbn [mbind res_bind]. destruct (negb _); [intros [= <-]; split; set_solver|].
    destruct (fitProfileTXT _ _) as [[txt p]|]; [|done]. cbn [mbind res_bind]. intros [= <-].
    split; destruct (AirPrint p), (IPPEverywhere p); cbn; set_solver.
  - unfold BuildRecords. destruct (validateServiceInput input); [|done]. cbn [mbind res_bind]. intros [= <-].
    split; destruct (iIPPS input); cbn; set_solver.
Qed.
End records.

Lemma registrations_renamed name name' rs : registrations name rs -> registrations name' (map (renamed name') rs).
Proof.
  intros Hr. split.
  - intros r (r0 & -> & _)%list_elem_of_fmap. done.
  - intros r r' (r0 & -> & ?)%list_elem_of_fmap (r1 & -> & ?)%list_elem_of_fmap. cbn. by eapply (reg_types _ _ Hr).
  - intros r (r0 & -> & ?)%list_elem_of_fmap. cbn. by eapply (reg_printer _ _ Hr).
Qed.

(** The data of an earlier publication. *)
Lemma previous_records_sound pub t old :
  previous_records (Some pub) !! t = Some old -> old ∈ pRecords pub /\ rSubtype old = "" /\ rType old = t.
Proof.
  cbn. rewrite <- fold_left_rev_right.
  assert (forall x, x ∈ rev (pRecords pub) -> x ∈ pRecords pub) as Hl by (intros x; by rewrite !list_elem_of_In, <- in_rev).
  revert Hl. generalize (rev (pRecords pub)) as l. induction l as [|x l IH]; intros Hl; [done|]. cbn.
  destruct (String.eqb_spec (rSubtype x) ""); [|by apply IH; set_solver].
  intros [[<- <-]|[_ H]]%lookup_insert_Some; [set_solver|]. by apply IH; [set_solver|].
Qed.
Lemma previous_records_complete pub r :
  r ∈ pRecords pub -> rSubtype r = "" -> is_Some (previous_records (Some pub) !! rType r).
Proof.
  intros Hin Hs. cbn. rewrite <- fold_left_rev_right.
  assert (r ∈ rev (pRecords pub)) as Hl by (by rewrite list_elem_of_In, <- in_rev, <- list_elem_of_In).
  revert Hl. generalize (rev (pRecords pub)) as l. induction l as [|x l IH]; intros Hl; [set_solver|]. cbn.
  destruct (String.eqb_spec (rSubtype x) ""); [|apply IH; set_solver].
  apply lookup_insert_is_Some'. apply elem_of_cons in Hl as [<-|Hl]; auto.
Qed.

(** ** The groups the daemon may have *)

(** What any call may do to the groups other than those of [X]: they are there
    as they were, or gone. *)
Record later (X : gset string) (w w' : AvahiWorld) : Prop := {
  later_pub : w_pub w' = w_pub w;
  later_unfreed : w_unfreed w ⊆ w_unfreed w';
  later_other q g : q ∉ X -> w_groups w' !! q = Some g -> w_groups w !! q = Some g;
  later_gone q : w_groups w !! q = None -> w_groups w' !! q = None
}.
#[export] Instance later_refl X : Reflexive (later X).
Proof. split; [done|set_solver|done|done]. Qed.
#[export] Instance later_trans X : Transitive (later X).
Proof. intros w w' w'' [] []. split; [congruence|set_solver|eauto|eauto]. Qed.
Lemma later_mono X Y w w' : X ⊆ Y -> later X w w' -> later Y w w'.
Proof. intros ? []. split; [done|set_solver|set_solver|done]. Qed.

Definition gone_or_unfreed (path : string) (w : AvahiWorld) : Prop := w_groups w !! path = None \/ path ∈ w_unfreed w.
Lemma gone_or_unfreed_later X path w w' : later X w w' -> gone_or_unfreed path w -> gone_or_unfreed path w'.
Proof. intros [? ? ? Hg] [?|?]; [left; auto|right; set_solver]. Qed.

#[local] Arguments isStaleEntryGroupError : simpl never.
#[local] Arguments isCollisionError : simpl never.

(** What the end of a call of [freeGroup] says of the group. *)
Definition freed (path : string) (err : option goerr) (w : AvahiWorld) : Prop :=
  match err with
  | None => w_groups w !! path = None
  | Some e => if isStaleEntryGroupError e then w_groups w !! path = None else path ∈ w_unfreed w
  end.
Lemma freed_gone_or_unfreed path err w : freed path err w -> gone_or_unfreed path w.
Proof. unfold freed, gone_or_unfreed. destruct err as [e|]; [destruct (isStaleEntryGroupError e)|]; auto. Qed.

(** A group of the daemon with the entries of [f]. *)
Definition with_entries (es : list Entry) (g : Group) : Group := {| g_entries := es; g_committed := g_committed g |}.

Section calls.
Context `{R : MapRange} (D : Daemon).
Implicit Types (w : AvahiWorld) (X : gset string).

Lemma kept_groups_lookup w q g : kept_groups D w !! q = Some g -> w_groups w !! q = Some g.
Proof. unfold kept_groups. by intros [? _]%map_lookup_filter_Some. Qed.
Lemma kept_groups_None w q : w_groups w !! q = None -> kept_groups D w !! q = None.
Proof.
  intros H. destruct (kept_groups D w !! q) eqn:E; [|done]. apply kept_groups_lookup in E. congruence.
Qed.
Hint Resolve kept_groups_lookup kept_groups_None : core.

Lemma wp_ask {A} (f : nat -> A) (Q : A -> AvahiWorld -> Prop) E w :
  (forall w', later ∅ w w' -> Q (f (w_tick w)) w') -> wp (ask D f) Q E w.
Proof. intros H. apply H. split; cbn; eauto. Qed.

Lemma wp_Free path (Q : option goerr -> AvahiWorld -> Prop) E w :
  (forall err w', later ∅ w w' -> freed path err w' -> Q err w') -> wp (call D (Free path)) Q E w.
Proof.
  intros H. unfold wp, call. cbv zeta. apply H.
  - split; cbn; [done|set_solver| |].
    + intros q g _. repeat case_match; eauto; intros [_ ?]%lookup_delete_Some; eauto.
    + intros q Hq. repeat case_match; eauto; apply lookup_delete_None; eauto.
  - unfold freed. destruct (d_reply D _ _ _) as [e|] eqn:He; cbn; [|apply lookup_delete_eq].
    destruct (isStaleEntryGroupError e) eqn:Hs; [|by apply elem_of_union_l, elem_of_singleton].
    apply d_reply_stale in He; [|done]. cbn in He. destruct (d_applied _ _ _); [|done]. apply lookup_delete_None; auto.
Qed.

Lemma wp_alter (c : Call) (f : Group -> Group) (Q : option goerr -> AvahiWorld -> Prop) E w :
  (forall gs, apply_call c gs = alter f (path_of c) gs) -> (forall p, c <> Free p) ->
  (forall err w', later {[path_of c]} w w' ->
     (forall e, err = Some e -> isStaleEntryGroupError e = true -> w_groups w' !! path_of c = None) ->
     (forall g', w_groups w' !! path_of c = Some g' -> exists g, w_groups w !! path_of c = Some g /\
        (g' = f g \/ err <> None /\ g' = g)) -> Q err w') -> wp (call D c) Q E w.
Proof.
  intros Hc Hf H. unfold wp, call. cbv zeta. rewrite Hc. apply H.
  - split; cbn; [done|set_solver| |].
    + intros q g Hq. repeat case_match; rewrite ?lookup_alter_ne by set_solver; eauto.
    + intros q Hq. repeat case_match; eauto; apply lookup_alter_None; eauto.
  - intros e He Hs. cbn. rewrite He. apply d_reply_stale in He; [|done].
    destruct (d_applied _ _ _); [|done]. apply lookup_alter_None; auto.
  - cbn. intros g'. destruct (d_reply D _ _ _); [case_match|].
    + rewrite lookup_alter_eq. intros (g0 & Hg & ->)%fmap_Some. eauto 6.
    + intros Hg. exists g'. split; [eauto|]. right. done.
    + rewrite lookup_alter_eq. intros (g0 & Hg & ->)%fmap_Some. eauto 6.
Qed.

Lemma wp_GetState path (Q : res goerr Z -> AvahiWorld -> Prop) E w :
  (forall r w', later ∅ w w' -> (forall e, r = Err e -> isStaleEntryGroupError e = true -> w_groups w' !! path = None) ->
     Q r w') -> wp (GetState D path) Q E w.
Proof. intros H. apply H; [split; cbn; eauto|]. cbn. intros e. apply d_state_stale. Qed.

Lemma wp_interfaceIndex name (Q : res goerr Z -> AvahiWorld -> Prop) E w :
  (forall r w', later ∅ w w' -> (forall e, r = Err e -> isStaleEntryGroupError e = false) -> Q r w') ->
  wp (interfaceIndex D name) Q E w.
Proof.
  intros H. apply wp_ask. intros w' Hw. apply H; [done|]. intros e. unfold interfaceIndex_of.
  destruct (name =? "")%string; [done|]. apply d_index_plain.
Qed.

Lemma wp_freeGroup path (Q : option goerr -> AvahiWorld -> Prop) E w :
  path <> "" -> conn (w_pub w) = true ->
  (forall err w', later ∅ w w' -> freed path err w' -> Q err w') -> wp (freeGroup D path) Q E w.
Proof.
  intros Hp Hc H. apply wp_bind, wp_gets. rewrite Hc. apply String.eqb_neq in Hp. rewrite Hp. by apply wp_Free.
Qed.

Lemma wp_EntryGroupNew (Q : res goerr string -> AvahiWorld -> Prop) E w :
  (forall err w', later ∅ w w' -> Q (Err err) w') ->
  (forall path w', path <> "" -> w_pub w' = w_pub w -> w_unfreed w' = w_unfreed w ∖ {[path]} ->
     w_groups w' !! path = Some {| g_entries := []; g_committed := false |} ->
     (forall q g, q <> path -> w_groups w' !! q = Some g -> w_groups w !! q = Some g) -> Q (Ok path) w') ->
  wp (EntryGroupNew D) Q E w.
Proof.
  intros He Hok. unfold wp, EntryGroupNew. cbv zeta. destruct (d_new D _ _) as [path|err] eqn:Hn.
  - apply d_new_fresh in Hn as [Hne Hf]. apply Hok; cbn; [done..|by rewrite lookup_insert_eq|].
    intros q g Hq. rewrite lookup_insert_ne by done. eauto.
  - apply He. split; cbn; eauto.
Qed.
(** *** Creating a group *)

(** The group at [path] is what it was, changed by [f]. *)
Definition grown (path : string) (w w' : AvahiWorld) (f : Group -> Group) : Prop :=
  forall g', w_groups w' !! path = Some g' -> exists g, w_groups w !! path = Some g /\ g' = f g.

Lemma wp_add (e : Entry) path index (Q : option goerr -> AvahiWorld -> Prop) E w :
  (forall err w', later {[path]} w w' ->
     (err = None -> grown path w w' (fun g => with_entries (g_entries g ++ [e]) g)) -> Q err w') ->
  wp (call D (AddEntry path index e)) Q E w.
Proof.
  intros H. eapply wp_alter; [reflexivity|done|]. cbn. intros err w' Hl _ Hg. apply H; [done|].
  intros -> g' Hg'. destruct (Hg g' Hg') as (g & ? & [?|[? _]]); [eauto|done].
Qed.

Lemma wp_add_record path index r (Q : option (bool * goerr) -> AvahiWorld -> Prop) E w :
  (forall f w', later {[path]} w w' ->
     (f = None -> grown path w w' (fun g => with_entries (g_entries g ++ record_entries (avahiTXT (rTXT r)) r) g)) ->
     Q f w') ->
  wp (add_record D path index r) Q E w.
Proof.
  intros H. unfold add_record, record_entries in *. destruct (rSubtype r =? "")%string; cbn [negb].
  - apply wp_bind, wp_add. intros err w1 Hl1 Hg1. destruct err as [err|]; [by apply wp_ret, H|].
    specialize (Hg1 eq_refl). unfold location_entry in *.
    destruct ((rGeoLocation r =? "") || (rHostname r =? ""))%string; [by apply wp_ret, H|].
    destruct (EncodeLOC (rGeoLocation r)) as [loc|err]; [|by apply wp_ret, H].
    apply wp_bind, wp_add. intros err w2 Hl2 Hg2. apply wp_ret, H; [by etrans|].
    destruct err; [done|]. intros _ g' (g1 & H1 & ->)%(Hg2 eq_refl). apply Hg1 in H1 as (g & Hg & ->).
    exists g. split; [done|]. unfold with_entries. cbn. by rewrite <- app_assoc.
  - apply wp_bind, wp_add. intros err w1 Hl1 Hg1. apply wp_ret, H; [done|]. destruct err; [done|]. auto.
Qed.

Lemma wp_add_records path index rs (Q : option (bool * goerr) -> AvahiWorld -> Prop) E w :
  (forall f w', later {[path]} w w' ->
     (f = None -> grown path w w' (fun g => with_entries (g_entries g ++ entries_of rs) g)) -> Q f w') ->
  wp (add_records D path index rs) Q E w.
Proof.
  revert w. induction rs as [|r rs IH]; intros w H; cbn [add_records].
  - apply wp_ret, H; [done|]. intros _ g' Hg. exists g'. split; [done|]. unfold with_entries. cbn.
    rewrite app_nil_r. by destruct g'.
  - apply wp_bind, wp_add_record. intros f w1 Hl1 Hg1. destruct f as [f|]; [by apply wp_ret, H|].
    apply IH. intros f w2 Hl2 Hg2. apply H; [by etrans|].
    intros Hf g' (g1 & H1 & ->)%(Hg2 Hf). apply Hg1 in H1 as (g & Hg & ->); [|done].
    exists g. split; [done|]. unfold with_entries, entries_of. cbn. by rewrite <- app_assoc.
Qed.

Lemma wp_waitForGroupState path (Q : res goerr Z -> AvahiWorld -> Prop) E w :
  (forall r w', later ∅ w w' -> Q r w') -> wp (waitForGroupState D path) Q E w.
Proof.
  unfold waitForGroupState. generalize (Z.to_nat (avahiStateWait / avahiStatePollInterval + 2)) as n. intros n.
  revert w. induction n as [|n IH]; intros w H; cbn [poll_state]; [by apply wp_ret, H|].
  apply wp_bind, wp_GetState. intros r w1 Hl1 _. destruct r as [state|err]; [|by apply wp_ret, H].
  destruct (bool_decide _); [by apply wp_ret, H|].
  apply wp_bind, wp_ask. intros w2 Hl2. destruct (d_over D (w_tick w1)).
  - apply wp_ret, H. by etrans.
  - apply IH. intros r w3 Hl3. apply H. etrans; [done|]. by etrans.
Qed.

Lemma later_empty X w w' : later ∅ w w' -> later X w w'.
Proof. apply later_mono. set_solver. Qed.

Lemma wp_fill_group path input rs (Q : option (bool * goerr) -> AvahiWorld -> Prop) E w :
  (forall f w', later {[path]} w w' ->
     (f = None -> grown path w w' (fun g => {| g_entries := g_entries g ++ entries_of rs; g_committed := true |})) -> Q f w') ->
  wp (fill_group D path input rs) Q E w.
Proof.
  intros H. apply wp_bind, wp_interfaceIndex. intros [index|err] w1 Hl1 _; [|by apply wp_ret, H; [apply later_empty|]].
  apply (later_empty {[path]}) in Hl1 as Hl1'.
  apply wp_bind, wp_add_records. intros f w2 Hl2 Hg2.
  assert (later {[path]} w w2) as Hl02 by by etrans.
  destruct f as [f|]; [by apply wp_ret, H|]. specialize (Hg2 eq_refl).
  apply wp_bind. eapply wp_alter; [reflexivity|done|]. cbn. intros err w3 Hl3 _ Hg3.
  assert (later {[path]} w w3) as Hl03 by by etrans.
  destruct err as [err|]; [by apply wp_ret, H|].
  apply wp_bind, wp_waitForGroupState. intros r w4 Hl4. apply (later_empty {[path]}) in Hl4 as Hl4'.
  assert (later {[path]} w w4) as Hl04 by by etrans.
  assert (grown path w w4 (fun g => {| g_entries := g_entries g ++ entries_of rs; g_committed := true |})) as Hg.
  { intros g4 H4. pose proof (later_other _ _ _ Hl4 path g4 ltac:(apply not_elem_of_empty) H4) as H3.
    destruct (Hg3 _ H3) as (g2 & H2 & [->|[? _]]); [|done]. apply Hg2 in H2 as (g1 & H1 & ->).
    apply (later_other _ _ _ Hl1) in H1; [eauto|apply not_elem_of_empty]. }
  destruct r as [state|err]; [|by apply wp_ret, H].
  destruct (state =? avahiGroupCollision); [by apply wp_ret, H|].
  destruct (negb (state =? avahiGroupEstablished)); by apply wp_ret, H.
Qed.

(** Every group of the daemon is one of [X], or one it refused to free. *)
Definition accounted X w : Prop := forall q g, w_groups w !! q = Some g -> q ∈ X \/ q ∈ w_unfreed w.
Lemma accounted_later X Y w w' : later X w w' -> accounted Y w -> accounted Y w'.
Proof.
  intros [_ Hu Ho Hn] Ha q g Hq. destruct (w_groups w !! q) eqn:E; [|by rewrite Hn in Hq].
  destruct (Ha q _ E); [by left|right; set_solver].
Qed.
Lemma accounted_forget path w : accounted {[path]} w -> gone_or_unfreed path w -> accounted ∅ w.
Proof.
  intros Ha Hg q g Hq. right. destruct (Ha q g Hq) as [->%elem_of_singleton|?]; [|done].
  destruct Hg; [congruence|done].
Qed.

Lemma wp_createGroup input rs (Q : string + bool * goerr -> AvahiWorld -> Prop) E w :
  conn (w_pub w) = true -> accounted ∅ w ->
  (forall f w', w_pub w' = w_pub w -> accounted ∅ w' -> Q (inr f) w') ->
  (forall path w', w_pub w' = w_pub w -> path <> "" -> accounted {[path]} w' ->
     (forall g, w_groups w' !! path = Some g -> g = {| g_entries := entries_of rs; g_committed := true |}) ->
     Q (inl path) w') ->
  wp (createGroup D input rs) Q E w.
Proof.
  intros Hc Ha Hinr Hinl. apply wp_bind, wp_EntryGroupNew.
  - intros err w1 Hl. apply wp_ret, Hinr; [apply Hl|]. by eapply accounted_later.
  - intros path w1 Hne Hp Hu Hg Ho. apply wp_bind, wp_fill_group. intros f w2 Hl Hf.
    assert (accounted {[path]} w1) as Ha1.
    { intros q g Hq. destruct (decide (q = path)) as [->|Hqp]; [set_solver|]. right.
      apply Ho in Hq; [|done]. destruct (Ha q g Hq); set_solver. }
    pose proof (accounted_later _ _ _ _ Hl Ha1) as Ha2.
    assert (w_pub w2 = w_pub w) as Hp2 by (rewrite <- Hp; apply Hl).
    destruct f as [f|].
    + apply wp_bind, wp_freeGroup; [done|by rewrite Hp2|]. intros err w3 Hl3 Hfr. apply wp_ret, Hinr.
      * rewrite <- Hp2. apply Hl3.
      * eapply accounted_forget; [by eapply accounted_later|by eapply freed_gone_or_unfreed].
    + apply wp_ret, Hinl; [done..|]. intros g (g1 & H1 & ->)%(Hf eq_refl).
      rewrite Hg in H1. by injection H1 as <-.
Qed.
End calls.

(** ** The invariant *)

Definition printer_type : string := "_printer._tcp".
Lemma avahiTXT_empty : avahiTXT ∅ = [].
Proof. reflexivity. Qed.

(** The group at [path] is committed and has the registrations of [rs] with the
    data of [f], if it is there. *)
Definition data (path : string) (rs : list ServiceRecord) (f : string -> list string) (w : AvahiWorld) : Prop :=
  forall g, w_groups w !! path = Some g -> g = {| g_entries := entries_by f rs; g_committed := true |}.
Definition own (w : AvahiWorld) : gset string :=
  if (group (w_pub w) =? "")%string then ∅ else {[group (w_pub w)]}.

Record inv (w : AvahiWorld) : Prop := {
  inv_current : group (w_pub w) = "" <-> current (w_pub w) = None;
  inv_conn : group (w_pub w) <> "" -> conn (w_pub w) = true;
  inv_closed : closed (w_pub w) = true -> group (w_pub w) = "";
  inv_accounted : accounted (own w) w;
  inv_registrations pub : current (w_pub w) = Some pub -> registrations (pName pub) (pRecords pub);
  inv_data pub : current (w_pub w) = Some pub -> exists f, data (group (w_pub w)) (pRecords pub) f w /\ f printer_type = [] /\
    (group (w_pub w) ∈ w_unfreed w \/ holds f (pRecords pub))
}.

Lemma data_later path rs f w w' : later ∅ w w' -> data path rs f w -> data path rs f w'.
Proof. intros Hl Hd g Hg. apply Hd. eapply later_other; [done| |done]. apply not_elem_of_empty. Qed.
Lemma own_later X w w' : later X w w' -> own w' = own w.
Proof. intros Hl. unfold own. by rewrite (later_pub _ _ _ Hl). Qed.
Lemma inv_later w w' : later ∅ w w' -> inv w -> inv w'.
Proof.
  intros Hl [Hcur Hconn Hclosed Hacc Hreg Hdata]. pose proof (later_pub _ _ _ Hl) as Hp. split; rewrite ?Hp; auto.
  - rewrite (own_later _ _ _ Hl). by eapply accounted_later.
  - intros pub Hpub. destruct (Hdata pub Hpub) as (f & Hd & Hf & Hh). exists f.
    split_and!; [by eapply data_later|done|]. destruct Hh; [left|by right]. eapply later_unfreed; eauto.
Qed.
(** The publisher forgets the group. *)
Lemma inv_forget w : inv w -> group (w_pub w) = "" \/ gone_or_unfreed (group (w_pub w)) w -> inv (set_pub forget w).
Proof.
  intros [Hcur Hconn Hclosed Hacc Hreg Hdata] Hg. split; cbn; try done.
  unfold own in *. cbn. destruct (String.eqb_spec (group (w_pub w)) ""); [done|].
  destruct Hg as [?|Hg]; [done|]. by eapply accounted_forget in Hacc.
Qed.
Lemma inv_set_conn w : inv w -> inv (set_pub (set_conn true) w).
Proof. by intros []. Qed.
(** The publisher takes a group with the data of its registrations. *)
Lemma inv_publish w path pub :
  path <> "" -> conn (w_pub w) = true -> closed (w_pub w) = false -> accounted {[path]} w ->
  registrations (pName pub) (pRecords pub) ->
  (exists f, data path (pRecords pub) f w /\ f printer_type = [] /\ holds f (pRecords pub)) ->
  inv (set_pub (set_publication path (Some pub)) w).
Proof.
  intros Hp Hc Hcl Ha Hr (f & Hd & Hf & Hh). split; cbn; try done.
  - by rewrite Hcl.
  - unfold own. cbn. apply String.eqb_neq in Hp. by rewrite Hp.
  - by intros ? [= <-].
  - intros ? [= <-]. exists f. auto.
Qed.

(** The data of some registrations, that is what a new group has. *)
Lemma entries_by_data_of name rs : registrations name rs -> entries_of rs = entries_by (data_of rs) rs.
Proof. intros Hr. symmetry. by eapply entries_by_exact, data_of_holds. Qed.
Lemma data_of_printer name rs : registrations name rs -> data_of rs printer_type = [].
Proof.
  intros Hr. unfold data_of. destruct (List.find _ rs) as [r|] eqn:Hf; [|done].
  apply List.find_some in Hf as [Hin ?]. bool_to_prop.
  by rewrite (reg_printer _ _ Hr r) by (rewrite ?list_elem_of_In; done).
Qed.

(** ** Changing the data in place *)

Section txt.
Context `{R : MapRange} (D : Daemon).
Variables (name path : string) (rs : list ServiceRecord).
Hypothesis Hrs : registrations name rs.

Lemma put_comm_data type txt f w w' :
  data path rs f w ->
  (forall g', w_groups w' !! path = Some g' -> exists g, w_groups w !! path = Some g /\
     g' = {| g_entries := map (set_txt name type txt) (g_entries g); g_committed := g_committed g |}) ->
  data path rs (put type txt f) w'.
Proof.
  intros Hd Hg g' (g & H%Hd & ->)%Hg. rewrite H. cbn. by rewrite set_txt_entries by apply (reg_name _ _ Hrs).
Qed.

Lemma wp_updateServiceTXT index r f (Q : option goerr -> AvahiWorld -> Prop) E w :
  group (w_pub w) = path -> rName r = name -> data path rs f w ->
  (forall err w' f', later {[path]} w w' ->
     (forall e, err = Some e -> isStaleEntryGroupError e = true -> w_groups w' !! path = None) ->
     data path rs f' w' -> f' = put (rType r) (avahiTXT (rTXT r)) f \/ err <> None /\ f' = f -> Q err w') ->
  wp (updateServiceTXT D index r) Q E w.
Proof.
  intros Hp Hn Hd H. apply wp_bind, wp_gets. rewrite Hp. eapply wp_alter; [reflexivity|done|]. cbn.
  intros err w' Hl Hs Hg.
  destruct (decide (w_groups w' !! path = None)) as [Hnone|[g' Hg']%not_eq_None_Some].
  - apply (H err w' (put (rType r) (avahiTXT (rTXT r)) f)); auto. intros g' ?. congruence.
  - destruct (Hg g' Hg') as (g & Hg0 & [->|[Herr ->]]).
    + apply (H err w' (put (rType r) (avahiTXT (rTXT r)) f)); auto.
      eapply put_comm_data; [exact Hd|]. intros g' Heq. rewrite Hg' in Heq. injection Heq as <-. rewrite Hn. eauto.
    + apply (H err w' f); auto. intros g' Heq. rewrite Hg' in Heq. injection Heq as <-. by apply Hd.
Qed.

Lemma printer_put f r : rType r <> printer_type -> f printer_type = [] ->
  put (rType r) (avahiTXT (rTXT r)) f printer_type = [].
Proof. intros Hn Hf. unfold put. by apply String.eqb_neq in Hn as ->. Qed.

(** A service with data of its own. *)
Definition has_data (r : ServiceRecord) : Prop := rSubtype r = "" /\ rType r <> printer_type.

Lemma wp_rollbackTXT pub index updated f (Q : option goerr -> AvahiWorld -> Prop) E w :
  pRecords pub = rs -> group (w_pub w) = path -> (forall x, x ∈ updated -> has_data x) -> data path rs f w -> f printer_type = [] ->
  (forall err w' f', later {[path]} w w' -> data path rs f' w' -> f' printer_type = [] ->
     (err = None -> forall t, (t ∉ rType <$> updated -> f' t = f t) /\
        (t ∈ rType <$> updated -> forall r, r ∈ rs -> rSubtype r = "" -> rType r = t -> f' t = avahiTXT (rTXT r))) ->
     Q err w') ->
  wp (rollbackTXT D updated (previous_records (Some pub)) index) Q E w.
Proof.
  intros Hpub. revert f w. induction updated as [|r updated IH]; intros f w Hp Hu Hd Hf H; cbn [rollbackTXT].
  { apply wp_ret, (H None w f); [done..|]. intros _ t. split; [done|set_solver]. }
  destruct (previous_records (Some pub) !! rType r) as [old|] eqn:Hold; [|by apply wp_ret, (H _ w f)].
  apply previous_records_sound in Hold as (Hin & Hs & Ht). rewrite Hpub in Hin.
  assert (rType old <> printer_type) as Hnp by (rewrite Ht; apply Hu; set_solver).
  apply wp_bind, (wp_updateServiceTXT index old f); [done|by apply (reg_name _ _ Hrs)|done|].
  intros err w1 f1 Hl1 _ Hd1 Hf1.
  assert (f1 printer_type = []) as Hpr by (destruct Hf1 as [->|[_ ->]]; [by apply printer_put|done]).
  destruct err as [err|]; [by apply wp_ret, (H _ w1 f1)|]. destruct Hf1 as [->|[? _]]; [|done].
  eapply IH; [by rewrite (later_pub _ _ _ Hl1)|set_solver|done..|].
  intros err w2 f2 Hl2 Hd2 Hpr2 H2. apply (H err w2 f2); [by etrans|done..|].
  intros Herr t. destruct (H2 Herr t) as [Hout Hin2]. cbn [fmap list_fmap]. split.
  - intros Hnot. rewrite Hout by set_solver. unfold put.
    destruct (String.eqb_spec (rType old) t) as [Heq|]; [|done]. exfalso. apply Hnot. rewrite <- Heq, Ht. set_solver.
  - intros Ht2 r' Hr' Hs' Hrt. destruct (decide (t ∈ rType <$> updated)) as [Hyes|Hno]; [eauto|].
    rewrite Hout by done. unfold put. assert (rType old = t) as -> by (rewrite Ht; set_solver).
    rewrite String.eqb_refl. f_equal. eapply (reg_types _ _ Hrs); [done..|].
    rewrite Ht, Hrt. set_solver.
Qed.

(** ** An update of all data *)

(** How a failed update ends: with the data there was, without a group, or with
    a group the daemon would not free. *)
Definition update_failed (pub : Publication) (w : AvahiWorld) (err : goerr) (w' : AvahiWorld) : Prop :=
  accounted {[path]} w' /\
  (w_pub w' = w_pub w /\ (isStaleEntryGroupError err = true -> gone_or_unfreed path w') /\
     (exists f, data path rs f w' /\ f printer_type = [] /\ (path ∈ w_unfreed w' \/ w_groups w' !! path = None \/ holds f rs)) \/
   w_pub w' = forget (w_pub w) /\ gone_or_unfreed path w').

Lemma wp_restore pub index updated f f0 err (Q : goerr -> AvahiWorld -> Prop) E w w0 :
  pRecords pub = rs -> group (w_pub w) = path -> path <> "" -> conn (w_pub w) = true -> accounted {[path]} w ->
  w_pub w = w_pub w0 ->
  (forall x, x ∈ updated -> has_data x) -> data path rs f w -> f printer_type = [] ->
  (forall t, t ∉ rType <$> updated -> f t = f0 t) -> (path ∈ w_unfreed w \/ holds f0 rs) ->
  (isStaleEntryGroupError err = true -> gone_or_unfreed path w) ->
  (forall err' w', update_failed pub w0 err' w' -> Q err' w') ->
  wp (restore D updated (previous_records (Some pub)) index err) Q E w.
Proof.
  intros Hpub Hp Hne Hc Ha Hw0 Hu Hd Hf Hout Hh Hst H.
  apply wp_bind. eapply wp_rollbackTXT; [done..|]. intros rb w1 f1 Hl1 Hd1 Hpr1 Hrb.
  assert (w_pub w1 = w_pub w) as Hp1 by apply Hl1.
  pose proof (accounted_later _ _ _ _ Hl1 Ha) as Ha1.
  destruct rb as [rb|].
  - apply wp_bind, wp_gets. rewrite Hp1, Hp. apply wp_bind, wp_freeGroup; [done|by rewrite Hp1|].
    intros cl w2 Hl2 Hfr. assert (w_pub w2 = w_pub w0) as Hp2 by (rewrite <- Hw0, <- Hp1; apply Hl2).
    pose proof (accounted_later _ _ _ _ (later_empty {[path]} _ _ Hl2) Ha1) as Ha2.
    pose proof (freed_gone_or_unfreed _ _ _ Hfr) as Hg.
    destruct cl as [cl|].
    + apply wp_ret, H. split; [done|]. left. split_and!; [done|done|]. exists f1.
      split_and!; [by eapply data_later|done|]. destruct Hg; auto.
    + apply wp_bind, wp_modify, wp_ret, H. split; [done|]. right. cbn. by rewrite Hp2.
  - apply wp_ret, H. split; [done|]. left. split_and!; [congruence|by intros; eapply gone_or_unfreed_later; eauto|].
    exists f1. split_and!; [done..|]. destruct Hh as [Hh|Hh]; [left; eapply later_unfreed; eauto|right; right].
    intros r Hr Hs. destruct (Hrb eq_refl (rType r)) as [Ho Hi].
    destruct (decide (rType r ∈ rType <$> updated)); [by eapply Hi|]. rewrite Ho, Hout by done. by apply Hh.
Qed.
Lemma without_txt_false r : without_txt r = false -> has_data r.
Proof. unfold without_txt, has_data. intros H. bool_to_prop. done. Qed.

(** The registrations [recs], some of which, [updated], already have their data
    in the group. *)
Lemma wp_update_records pub recs index updated records f f0 (Q : option goerr -> AvahiWorld -> Prop) E w w0 :
  pRecords pub = rs -> registrations name recs -> group (w_pub w) = path -> path <> "" -> conn (w_pub w) = true ->
  accounted {[path]} w -> w_pub w = w_pub w0 -> (forall r, r ∈ updated ++ records -> r ∈ recs) ->
  (forall x, x ∈ updated -> has_data x /\ f (rType x) = avahiTXT (rTXT x)) -> data path rs f w -> f printer_type = [] ->
  (forall t, t ∉ rType <$> updated -> f t = f0 t) -> (path ∈ w_unfreed w \/ holds f0 rs) ->
  (forall err w', update_failed pub w0 err w' -> Q (Some err) w') ->
  (forall w' f', w_pub w' = w_pub w0 -> accounted {[path]} w' -> data path rs f' w' -> f' printer_type = [] ->
     holds f' (updated ++ records) -> Q None w') ->
  wp (update_records D index (previous_records (Some pub)) updated records) Q E w.
Proof.
  intros Hpub Hreg. revert updated f w. induction records as [|r records IH];
    intros updated f w Hp Hne Hc Ha Hw0 Hin Hu Hd Hf Hout Hh HE HQ; cbn [update_records].
  { apply wp_ret, (HQ w f); [done..|]. intros r. rewrite app_nil_r. intros Hr _. by apply Hu. }
  destruct (without_txt r) eqn:Hwt.
  - apply (IH updated f); try done.
    + intros x Hx. apply Hin. set_solver.
    + intros w' f' ? ? ? Hf' Hhold. apply (HQ w' f'); [done..|]. intros x Hx Hs.
      assert (x = r \/ x ∈ updated ++ records) as [->|?] by set_solver; [|by apply Hhold].
      unfold without_txt in Hwt. rewrite Hs in Hwt. cbn in Hwt. apply String.eqb_eq in Hwt.
      rewrite (reg_printer _ _ Hreg r) by (try done; apply Hin; set_solver). rewrite avahiTXT_empty, Hwt. done.
  - apply without_txt_false in Hwt as Hhd.
    assert (r ∈ recs) as Hr by (apply Hin; set_solver).
    apply wp_bind, (wp_updateServiceTXT index r f); [done|by apply (reg_name _ _ Hreg)|done|].
    intros err w1 f1 Hl1 Hst Hd1 Hf1.
    assert (w_pub w1 = w_pub w) as Hp1 by apply Hl1.
    pose proof (accounted_later _ _ _ _ Hl1 Ha) as Ha1.
    assert (path ∈ w_unfreed w1 \/ holds f0 rs) as Hh1 by (destruct Hh; [left; eapply later_unfreed; eauto|by right]).
    assert (f1 printer_type = []) as Hpr by (destruct Hf1 as [->|[_ ->]]; [apply printer_put; [apply Hhd|done]|done]).
    assert (forall t, t ∉ rType <$> updated ++ [r] -> f1 t = f0 t) as Hout1.
    { intros t Ht. rewrite fmap_app in Ht. rewrite <- Hout by set_solver. destruct Hf1 as [->|[_ ->]]; [|done].
      unfold put. destruct (String.eqb_spec (rType r) t); [set_solver|done]. }
    destruct err as [err|].
    + apply wp_bind. apply (wp_restore pub index (updated ++ [r]) f1 f0 err _ _ _ w0); try done.
      * by rewrite Hp1.
      * by rewrite Hp1.
      * by rewrite Hp1.
      * intros x Hx. apply elem_of_app in Hx as [Hx|Hx%list_elem_of_singleton]; [by apply Hu|by subst].
      * intros Hs. left. by eapply Hst.
    + destruct Hf1 as [->|[? _]]; [|done].
      apply (IH (updated ++ [r]) (put (rType r) (avahiTXT (rTXT r)) f)); try done.
      * by rewrite Hp1.
      * by rewrite Hp1.
      * by rewrite Hp1.
      * intros x. rewrite <- app_assoc. apply Hin.
      * intros x Hx. unfold put. destruct (String.eqb_spec (rType r) (rType x)) as [Heq|Hneq].
        -- assert (has_data x) as Hx'
             by (apply elem_of_app in Hx as [Hx|Hx%list_elem_of_singleton]; [by apply Hu|by subst]).
           split; [done|]. f_equal. eapply (reg_types _ _ Hreg); [done| |apply Hhd|apply Hx'|done]. apply Hin. set_solver.
        -- apply Hu. apply elem_of_app in Hx as [?|Hx%list_elem_of_singleton]; [done|]. by subst.
      * intros w' f' ? ? ? ? Hhold. apply (HQ w' f'); [done..|]. by rewrite <- app_assoc in Hhold.
Qed.
End txt.

(** ** The operations *)

Lemma renamed_id name rs : registrations name rs -> map (renamed name) rs = rs.
Proof.
  intros Hr. pose proof (reg_name _ _ Hr) as Hn. clear Hr. induction rs as [|r rs IH]; [done|]. cbn. rewrite IH by set_solver.
  f_equal. unfold renamed. rewrite <- (Hn r) by set_solver. by destruct r.
Qed.

Section operations.
Context `{R : MapRange} (D : Daemon) (cfg : DNSSDConfig).
Abbreviation result := (Status * option goerr)%type.

Lemma own_group w : group (w_pub w) <> "" -> own w = {[group (w_pub w)]}.
Proof. intros Hg. unfold own. by apply String.eqb_neq in Hg as ->. Qed.

Lemma update_failed_inv w pub err w' :
  inv w -> current (w_pub w) = Some pub -> group (w_pub w) <> "" ->
  update_failed (group (w_pub w)) (pRecords pub) pub w err w' ->
  inv w' /\ (w_pub w' = w_pub w \/ w_pub w' = forget (w_pub w)) /\
  (isStaleEntryGroupError err = true -> group (w_pub w') = "" \/ gone_or_unfreed (group (w_pub w')) w').
Proof.
  intros Hi Hpub Hne [Ha [(Hp & Hst & f & Hd & Hf & Hh)|[Hp Hg]]].
  - split_and!; [|by left|rewrite Hp; auto].
    destruct Hi as [Hcur Hconn Hclosed Hacc Hreg Hdata]. split; rewrite ?Hp; auto.
    + unfold own. rewrite Hp. by apply String.eqb_neq in Hne as ->.
    + intros pub' Hpub'. rewrite Hpub in Hpub'. injection Hpub' as <-.
      destruct Hh as [Hh|[Hgone|Hh]]; [by exists f; auto| |by exists f; auto].
      exists (data_of (pRecords pub)). split_and!; [|by eapply data_of_printer, Hreg|right; by eapply data_of_holds, Hreg].
      intros g ?. congruence.
  - split_and!; [|by right|rewrite Hp; by left].
    destruct Hi as [Hcur Hconn Hclosed Hacc Hreg Hdata]. split; rewrite ?Hp; cbn; try done.
    unfold own. rewrite Hp. cbn. by eapply accounted_forget.
Qed.

Lemma wp_updateGroupTXT input records pub w (Q : option goerr -> AvahiWorld -> Prop) E :
  inv w -> current (w_pub w) = Some pub -> group (w_pub w) <> "" -> registrations (pName pub) records ->
  samePublicationStructure (pRecords pub) records = true ->
  (forall err w', inv w' -> w_pub w' = w_pub w \/ w_pub w' = forget (w_pub w) ->
     (isStaleEntryGroupError err = true -> group (w_pub w') = "" \/ gone_or_unfreed (group (w_pub w')) w') -> Q (Some err) w') ->
  (forall w' f', w_pub w' = w_pub w -> accounted {[group (w_pub w)]} w' -> data (group (w_pub w)) records f' w' ->
     f' printer_type = [] -> holds f' records -> Q None w') ->
  wp (updateGroupTXT D input records) Q E w.
Proof.
  intros Hi Hpub Hne Hreg Hsame HE HQ. apply wp_bind, wp_interfaceIndex. intros r w1 Hl1 Hplain.
  pose proof (later_pub _ _ _ Hl1) as Hp1.
  destruct r as [index|err].
  - apply wp_bind, wp_gets. pose proof (inv_later _ _ Hl1 Hi) as Hi1. rewrite <- Hp1 in *. rewrite Hpub.
    destruct (inv_data _ Hi1 _ Hpub) as (f & Hd & Hf & Hh).
    eapply (wp_update_records D (pName pub) (group (w_pub w1)) (pRecords pub) (inv_registrations _ Hi1 _ Hpub)
              pub records index [] records f f _ _ _ w1); try done.
    + by apply inv_conn.
    + rewrite <- own_group by done. by apply inv_accounted.
    + set_solver.
    + intros err w' Hfail. eapply update_failed_inv in Hfail as (? & ? & ?); [|done..]. by apply HE.
    + intros w' f' Hp' Ha' Hd' Hf' Hh'. cbn in Hh'. eapply HQ; [done..| | |done]; [|done].
      intros g Hg. rewrite (Hd' g Hg). f_equal. by apply same_structure_entries_by.
  - apply wp_ret, HE; [by eapply inv_later|by left|]. by rewrite (Hplain err).
Qed.

(** The group may be checked and freed. *)
Lemma wp_check_group err w (Q : unit -> AvahiWorld -> Prop) E :
  inv w -> (isStaleEntryGroupError err = true -> group (w_pub w) = "" \/ gone_or_unfreed (group (w_pub w)) w) ->
  (forall u w', inv w' -> w_pub w' = w_pub w \/ w_pub w' = forget (w_pub w) -> Q u w') ->
  wp (check_group D err) Q E w.
Proof.
  intros Hi Hst HQ. apply wp_bind, wp_gets. destruct (isStaleEntryGroupError err).
  { apply wp_modify, HQ; [by apply inv_forget; auto|by right]. }
  destruct (negb (group (w_pub w) =? "")%string && _ && conn (w_pub w)) eqn:Hb; [|by apply wp_ret, HQ; auto].
  bool_to_prop. apply wp_bind, wp_GetState. intros st w1 Hl1 Hst1.
  pose proof (inv_later _ _ Hl1 Hi) as Hi1. pose proof (later_pub _ _ _ Hl1) as Hp1. rewrite <- Hp1 in *.
  assert (forall (Q' : option goerr -> AvahiWorld -> Prop),
    (forall e w', inv w' -> w_pub w' = w_pub w1 -> later ∅ w1 w' -> freed (group (w_pub w1)) e w' -> Q' e w') ->
    wp (freeGroup D (group (w_pub w1))) Q' E w1) as Hfree.
  { intros Q' HQ'. apply wp_freeGroup; [done..|]. intros e w' Hl Hfr. apply HQ'; [by eapply inv_later|apply Hl|done..]. }
  assert (forall w', inv w' -> w_pub w' = w_pub w1 -> gone_or_unfreed (group (w_pub w1)) w' -> Q tt (set_pub forget w')) as Hforget.
  { intros w' Hi' Hp' Hg'. apply HQ; [apply inv_forget; [done|right; by rewrite Hp']|right; cbn; by rewrite Hp']. }
  destruct st as [state|stateErr].
  - destruct (state =? avahiGroupEstablished); [by apply wp_ret, HQ; auto|].
    apply wp_bind, Hfree. intros e w2 Hi2 Hp2 Hl2 Hfr. pose proof (freed_gone_or_unfreed _ _ _ Hfr).
    destruct e as [e|]; [destruct (isStaleEntryGroupError e)|]; first [apply wp_modify, Hforget; done|apply wp_ret, HQ; auto].
  - apply wp_bind, Hfree. intros e w2 Hi2 Hp2 Hl2 Hfr. pose proof (freed_gone_or_unfreed _ _ _ Hfr).
    destruct e as [e|]; [destruct (_ || _)%bool|]; first [apply wp_modify, Hforget; done|apply wp_ret, HQ; auto].
Qed.

(** The group is freed and forgotten, or stays. *)
Lemma wp_free_or status w (Q : unit -> AvahiWorld -> Prop) (E : result -> AvahiWorld -> Prop) :
  inv w -> (forall w', inv w' -> w_pub w' = forget (w_pub w) -> Q tt w') ->
  (forall err w', inv w' -> w_pub w' = w_pub w -> E (status err, None) w') -> wp (free_or D status) Q E w.
Proof.
  intros Hi HQ HE. apply wp_bind, wp_gets, wp_bind. destruct (String.eqb_spec (group (w_pub w)) "") as [Hg|Hg].
  { apply wp_ret, wp_modify, HQ; [by apply inv_forget; auto|done]. }
  apply wp_bind, wp_freeGroup; [done|by apply inv_conn|]. intros err w1 Hl1 Hfr.
  pose proof (inv_later _ _ Hl1 Hi) as Hi1. pose proof (later_pub _ _ _ Hl1) as Hp1.
  pose proof (freed_gone_or_unfreed _ _ _ Hfr).
  assert (wp (modify (set_pub forget)) Q E w1) as Hdone.
  { apply wp_modify, HQ; [apply inv_forget; [done|right; by rewrite Hp1]|cbn; by rewrite Hp1]. }
  destruct err as [err|]; [destruct (isStaleEntryGroupError err)|]; try by apply wp_ret.
  by apply wp_throw, HE.
Qed.
(** *** What an operation leaves *)

(** The publication is the one of some input with the TXT data of [input], under
    the name of the status; its group has exactly its registrations. *)
Definition published_for (input : ServiceInput) (name : string) (w : AvahiWorld) : Prop :=
  exists pub built records, current (w_pub w) = Some pub /\ pName pub = name /\
    iTXT built = iTXT input /\ iProfilesSet built = iProfilesSet input /\
    build_records built = Ok records /\ pRecords pub = map (renamed name) records /\
    data (group (w_pub w)) (pRecords pub) (data_of (pRecords pub)) w.
Definition left_by (input : ServiceInput) (w : AvahiWorld) (r : result) (w' : AvahiWorld) : Prop :=
  inv w' /\ (sState (fst r) = StatePublished -> published_for input (sName (fst r)) w') /\
  (sState (fst r) <> StatePublished -> current (w_pub w') = current (w_pub w) \/ current (w_pub w') = None).

Lemma left_by_status input w s e w' :
  inv w' -> sState s <> StatePublished -> w_pub w' = w_pub w \/ current (w_pub w') = current (w_pub w) \/ current (w_pub w') = None ->
  left_by input w (s, e) w'.
Proof. intros Hi Hs Hc. split_and!; [done|done|]. intros _. destruct Hc as [->|?]; auto. Qed.

(** What a name is published with comes from the records of [built]. *)
Definition built_from (input built : ServiceInput) (records : list ServiceRecord) : Prop :=
  iTXT built = iTXT input /\ iProfilesSet built = iProfilesSet input /\ build_records built = Ok records.

Lemma holds_data_of name rs f : registrations name rs -> holds f rs -> entries_by f rs = entries_by (data_of rs) rs.
Proof. intros Hr Hh. rewrite entries_by_exact by done. by eapply entries_by_data_of. Qed.

Lemma wp_publish input0 w0 input built records attempt names w (Q : result -> AvahiWorld -> Prop) :
  inv w -> group (w_pub w) = "" -> conn (w_pub w) = true -> closed (w_pub w) = false -> built_from input0 built records ->
  wp (publish D input records attempt names) Q (left_by input0 w0) w.
Proof.
  revert attempt w. induction names as [|candidate names IH]; intros attempt w Hi Hg Hc Hcl Hb; cbn [publish].
  { apply wp_throw, left_by_status; [done|done|]. right. right. by apply (inv_current _ Hi). }
  cbv zeta. apply wp_bind, wp_createGroup; [done| | |].
  - pose proof (inv_accounted _ Hi) as Ha. unfold own in Ha. by rewrite Hg in Ha.
  - intros [collision err] w1 Hp1 Ha1.
    assert (inv w1) as Hi1.
    { destruct Hi as [Hcur Hconn Hclosed Hacc Hreg Hdata]. apply Hcur in Hg as Hnone. split; rewrite ?Hp1; auto.
      - unfold own. by rewrite Hp1, Hg.
      - intros pub. by rewrite Hnone. }
    destruct collision.
    + apply IH; [done|by rewrite Hp1..|done].
    + apply wp_throw, left_by_status; [done|done|]. right. right. rewrite Hp1. by apply (inv_current _ Hi).
  - intros path w1 Hp1 Hne Ha1 Hdata. apply wp_bind, wp_modify, wp_throw. destruct Hb as (Ht & Hps & Hbr).
    pose proof (registrations_renamed _ candidate _ (build_records_registrations _ _ Hbr)) as Hreg.
    assert (data path (map (renamed candidate) records) (data_of (map (renamed candidate) records)) w1) as Hd.
    { intros g Hg1. rewrite (Hdata g Hg1). cbn. f_equal. by eapply entries_by_data_of. }
    split_and!; [|intros _|done].
    + apply inv_publish; cbn; [done|by rewrite Hp1..|done|done|].
      exists (data_of (map (renamed candidate) records)).
      split_and!; [done|by eapply data_of_printer|by eapply data_of_holds].
    + exists (publication_of candidate input records), built, records. by split_and!.
Qed.

Lemma wp_update_group input0 w0 input records pub w (Q : result -> AvahiWorld -> Prop) :
  inv w -> current (w_pub w) = Some pub -> group (w_pub w) <> "" -> current (w_pub w) = current (w_pub w0) ->
  iName input = pName pub -> samePublicationStructure (pRecords pub) records = true ->
  (exists built, built_from input0 built records /\ iName built = pName pub) ->
  wp (update_group D input records) Q (left_by input0 w0) w.
Proof.
  intros Hi Hpub Hne Hw0 Hname Hsame (built & (Ht & Hps & Hbr) & Hbn).
  pose proof (build_records_registrations _ _ Hbr) as Hreg. rewrite Hbn in Hreg.
  apply wp_bind. eapply wp_updateGroupTXT; [done..| |].
  - intros err w1 Hi1 Hp1 Hst. apply wp_bind, wp_gets, wp_bind, wp_check_group; [done..|].
    intros u w2 Hi2 Hp2. apply wp_throw, left_by_status; [done|done|]. right.
    destruct Hp2 as [E2|E2]; rewrite E2; [|by right]. destruct Hp1 as [E1|E1]; rewrite E1; [by left|by right].
  - intros w1 f1 Hp1 Ha1 Hd1 Hf1 Hh1. apply wp_bind, wp_gets, wp_bind, wp_modify, wp_throw. rewrite Hp1.
    split_and!; [|intros _|done].
    + apply inv_publish; cbn; [done|by rewrite Hp1; apply inv_conn|..].
      * rewrite Hp1. destruct (closed (w_pub w)) eqn:Hcl; [|done]. by apply (inv_closed _ Hi) in Hcl.
      * done.
      * by rewrite Hname.
      * by exists f1.
    + exists {| pName := iName input; pInput := input; pRecords := records |}, built, records. cbn.
      split_and!; [done..|by rewrite renamed_id by (rewrite Hname; done)|].
      intros g Hg. rewrite (Hd1 g Hg). f_equal. by eapply holds_data_of.
Qed.

Lemma wp_keep_identity input0 w0 input built records w (Q : ServiceInput * list ServiceRecord -> AvahiWorld -> Prop) :
  inv w -> w_pub w = w_pub w0 -> closed (w_pub w) = false -> built_from input0 built records ->
  iTXT input = iTXT input0 -> iProfilesSet input = iProfilesSet input0 ->
  (forall input' records' w', inv w' -> closed (w_pub w') = false -> (exists built, built_from input0 built records' /\
       forall pub, current (w_pub w') = Some pub -> current (w_pub w0) = Some pub /\ iName input' = pName pub /\ iName built = pName pub /\
         samePublicationStructure (pRecords pub) records' = true) ->
     current (w_pub w') = current (w_pub w0) \/ current (w_pub w') = None -> Q (input', records') w') ->
  wp (keep_identity D input records) Q (left_by input0 w0) w.
Proof.
  intros Hi Hw0 Hcl Hb Ht Hps HQ. apply wp_bind, wp_gets.
  destruct (current (w_pub w)) as [pub|] eqn:Hpub.
  2:{ apply wp_ret, HQ; [done|done|exists built; split; [done|]|by right]. intros pub. by rewrite Hpub. }
  cbv zeta. destruct (build_records _) as [records'|err] eqn:Hbr.
  2:{ apply wp_throw, left_by_status; [done|done|by left]. }
  set (built' := with_identity (pName pub) (pInput pub) input) in *.
  assert (built_from input0 built' records') as Hb' by (by split_and!).
  set (input' := if iProfilesSet built' then _ else _).
  assert (iName input' = pName pub) as Hn by (unfold input'; by destruct (iProfilesSet built')).
  assert (group (w_pub w) <> "") as Hne by (intros Hg%(inv_current _ Hi); congruence).
  apply String.eqb_neq in Hne as Hne'. rewrite Hne'. cbn [negb andb]. apply wp_bind.
  destruct (samePublicationStructure _ _) eqn:Hsame; cbn [negb].
  - apply wp_ret, wp_ret, HQ; [done|done| |left; by rewrite Hw0]. exists built'. split; [done|].
    intros pub'. rewrite Hpub. intros [= <-]. by rewrite <- Hw0.
  - apply wp_free_or; [done| |].
    + intros w' Hi' Hp'. apply wp_ret, HQ; [done|by rewrite Hp'| |right; by rewrite Hp'].
      exists built'. split; [done|]. rewrite Hp'. done.
    + intros err w' Hi' Hp'. apply left_by_status; [done|done|]. left. congruence.
Qed.
Lemma wp_ensureBus w (Q : option goerr -> AvahiWorld -> Prop) E :
  inv w ->
  (forall err w', inv w' -> group (w_pub w') = group (w_pub w) -> current (w_pub w') = current (w_pub w) ->
     closed (w_pub w') = closed (w_pub w) -> (err = None -> conn (w_pub w') = true) -> Q err w') ->
  wp (ensureBus D) Q E w.
Proof.
  intros Hi HQ. apply wp_bind, wp_gets, wp_bind, wp_ask. intros w1 Hl1.
  pose proof (inv_later _ _ Hl1 Hi) as Hi1. pose proof (later_pub _ _ _ Hl1) as Hp1.
  destruct (conn (w_pub w) && d_connected D (w_tick w)) eqn:Hb.
  { bool_to_prop. apply wp_ret, HQ; by rewrite ?Hp1. }
  apply wp_bind, wp_ask. intros w2 Hl2.
  pose proof (inv_later _ _ Hl2 Hi1) as Hi2. pose proof (later_pub _ _ _ Hl2) as Hp2.
  destruct (d_bus D (w_tick w1)) as [err|].
  - apply wp_ret, HQ; by rewrite ?Hp2, ?Hp1.
  - apply wp_bind, wp_modify, wp_ret, HQ; cbn; rewrite ?Hp2, ?Hp1; by try apply inv_set_conn.
Qed.

(** An end of an operation that forgets the group. *)
Lemma left_by_forgotten input w s e w' :
  inv w' -> current (w_pub w') = None -> sState s <> StatePublished -> left_by input w (s, e) w'.
Proof. intros. apply left_by_status; auto. Qed.

Lemma wp_disable input0 input w :
  inv w -> wp (disable D input) (fun r w' => left_by input0 w r w') (left_by input0 w) w.
Proof.
  intros Hi. apply wp_bind, wp_gets. destruct (String.eqb_spec (group (w_pub w)) "") as [Hg|Hg].
  { apply wp_bind, wp_ret, wp_bind, wp_modify, wp_throw, left_by_forgotten; [apply inv_forget; auto|done|done]. }
  apply wp_bind, wp_bind, wp_freeGroup; [done|by apply inv_conn|]. intros err w1 Hl1 Hfr.
  pose proof (inv_later _ _ Hl1 Hi) as Hi1. pose proof (later_pub _ _ _ Hl1) as Hp1.
  pose proof (freed_gone_or_unfreed _ _ _ Hfr) as Hgone.
  assert (inv (set_pub forget w1)) as Hif by (apply inv_forget; [done|right; by rewrite Hp1]).
  destruct err as [err|]; [cbv zeta; destruct (isStaleEntryGroupError err)|].
  - by apply wp_bind, wp_modify, wp_throw, left_by_forgotten.
  - apply wp_throw, left_by_status; [done|done|by left].
  - by apply wp_ret, wp_bind, wp_modify, wp_throw, left_by_forgotten.
Qed.

Lemma update_inv ctx input w :
  inv w -> wp (update D cfg ctx input) (left_by input w) (left_by input w) w.
Proof.
  intros Hi. assert (forall s e, sState s <> StatePublished -> left_by input w (s, e) w) as Hsame.
  { intros s e Hs. apply left_by_status; auto. }
  unfold update. destruct (contextErr ctx) as [err|]; [by apply wp_throw, Hsame|]. cbv zeta.
  set (i := with_host _ _ input). destruct (build_records i) as [records|err] eqn:Hbr; [|by apply wp_throw, Hsame].
  assert (built_from input i records) as Hb by done.
  set (i' := if iProfilesSet i && Ordinary (iProfiles i) then _ else i).
  assert (iTXT i' = iTXT input /\ iProfilesSet i' = iProfilesSet input) as [Ht Hps].
  { unfold i'. by destruct (iProfilesSet i && Ordinary (iProfiles i)). }
  apply wp_bind, wp_gets. destruct (closed (w_pub w)) eqn:Hcl; [by apply wp_throw, Hsame|].
  destruct (iProfilesSet i' && negb (Ordinary (iProfiles i'))).
  { apply wp_bind, wp_free_or; [done| |].
    - intros w1 Hi1 Hp1. apply wp_throw, left_by_forgotten; [done|by rewrite Hp1|done].
    - intros err w1 Hi1 Hp1. apply left_by_status; auto. }
  destruct (Configuration.Mode cfg =? DNSModeOff)%string; [by apply wp_disable|].
  apply wp_bind. eapply (wp_keep_identity input w i' i records); try done.
  clear dependent i' records. intros i' records w1 Hi1 Hcl1 (built & Hb & Hcur) Hc1.
  apply wp_bind, wp_ensureBus; [done|]. intros err w2 Hi2 Hg2 Hc2 Hcl2 Hconn2. rewrite <- Hc2, <- Hcl2 in *.
  destruct err as [err|]; [by apply wp_throw, left_by_status; auto|].
  apply wp_bind, wp_gets. destruct (String.eqb_spec (group (w_pub w2)) "") as [Hg|Hg]; cbn [negb andb].
  - eapply wp_publish; eauto.
  - destruct (current (w_pub w2)) as [pub|] eqn:Hpub; [|by apply (inv_current _ Hi2) in Hpub].
    destruct (Hcur pub eq_refl) as (Hw & Hn & Hbn & Hsm). rewrite bool_decide_eq_true_2 by eauto.
    eapply wp_update_group; eauto. by rewrite Hpub, Hw.
Qed.

Lemma withdraw_inv ctx input w :
  inv w -> wp (withdraw D ctx) (left_by input w) (left_by input w) w.
Proof.
  intros Hi. unfold withdraw. destruct (contextErr ctx) as [err|]; [by apply wp_throw, left_by_status; auto|].
  apply wp_bind, wp_gets. cbv zeta. destruct (String.eqb_spec (group (w_pub w)) "") as [Hg|Hg].
  { apply wp_bind, wp_modify, wp_throw, left_by_forgotten; [apply inv_forget; auto|done|done]. }
  apply wp_bind, wp_freeGroup; [done|by apply inv_conn|]. intros err w1 Hl1 Hfr.
  pose proof (inv_later _ _ Hl1 Hi) as Hi1. pose proof (later_pub _ _ _ Hl1) as Hp1.
  pose proof (freed_gone_or_unfreed _ _ _ Hfr) as Hgone.
  assert (inv (set_pub forget w1)) as Hif by (apply inv_forget; [done|right; by rewrite Hp1]).
  destruct err as [err|]; [destruct (isStaleEntryGroupError err)|].
  - by apply wp_bind, wp_modify, wp_throw, left_by_forgotten.
  - apply wp_throw, left_by_status; auto.
  - by apply wp_bind, wp_modify, wp_throw, left_by_forgotten.
Qed.

Lemma close_inv input w :
  inv w -> wp (close D) (left_by input w) (fun r w' => left_by input w r w' /\ (snd r = None -> closed (w_pub w') = true)) w.
Proof.
  intros Hi. apply wp_bind, wp_gets. destruct (closed (w_pub w)) eqn:Hcl.
  { apply wp_throw. split; [by apply left_by_status; auto|done]. }
  set (stop := fun p : avahiPublisher => _). apply wp_bind.
  assert (forall w', inv w' -> group (w_pub w') = "" -> inv (set_pub stop w')) as Hstop.
  { intros w' [Hcur Hconn Hclosed Hacc Hreg Hdata] Hg. split; cbn; try done. }
  destruct (String.eqb_spec (group (w_pub w)) "") as [Hg|Hg].
  { apply wp_ret, wp_bind, wp_modify, wp_throw. split; [|done]. apply left_by_forgotten; [by apply Hstop| |done].
    by apply (inv_current _ Hi). }
  apply wp_bind, wp_freeGroup; [done|by apply inv_conn|]. intros err w1 Hl1 Hfr.
  pose proof (inv_later _ _ Hl1 Hi) as Hi1. pose proof (later_pub _ _ _ Hl1) as Hp1.
  pose proof (freed_gone_or_unfreed _ _ _ Hfr) as Hgone.
  assert (inv (set_pub forget w1)) as Hif by (apply inv_forget; [done|right; by rewrite Hp1]).
  assert (left_by input w (reached StateWithdrawn "", None) (set_pub stop (set_pub forget w1))) as Hleft
    by (apply left_by_forgotten; [by apply Hstop|done|done]).
  destruct err as [err|]; [destruct (isStaleEntryGroupError err)|].
  - by apply wp_bind, wp_ret, wp_modify, wp_bind, wp_modify, wp_throw.
  - apply wp_bind, wp_throw. split; [apply left_by_status; auto|done].
  - by apply wp_bind, wp_ret, wp_modify, wp_bind, wp_modify, wp_throw.
Qed.
(** *** What a status says, in any state *)

Definition truthful (r : result) (w : AvahiWorld) : Prop :=
  (sState (fst r) = StatePublished ->
     snd r = None /\ sErr (fst r) = None /\ exists pub, current (w_pub w) = Some pub /\ pName pub = sName (fst r)) /\
  (sState (fst r) = StateWithdrawn \/ sState (fst r) = StateDisabled -> snd r = None /\ current (w_pub w) = None) /\
  sState (fst r) ∈ [StatePublished; StateDegraded; StateWithdrawn; StateDisabled].
Lemma truthful_degraded s e w : sState s = StateDegraded -> truthful (s, e) w.
Proof.
  intros Hs. unfold truthful. cbn. rewrite Hs. split_and!; [done|by intros [?|?]|set_solver].
Qed.
Lemma truthful_gone s w : sState s = StateWithdrawn \/ sState s = StateDisabled -> current (w_pub w) = None -> truthful (s, None) w.
Proof.
  intros Hs Hc. unfold truthful. cbn. split_and!; [by destruct Hs as [->| ->]|done|]. destruct Hs as [->| ->]; set_solver.
Qed.

(** Computations that always come to an end of their own. *)
Definition calm {A} (m : AM A) : Prop := forall (Q : A -> AvahiWorld -> Prop) E w, (forall a w', Q a w') -> wp m Q E w.
Lemma calm_ret {A} (a : A) : calm (mret a).
Proof. intros Q E w H. apply H. Qed.
Lemma calm_bind {A B} (m : AM A) (f : A -> AM B) : calm m -> (forall a, calm (f a)) -> calm (m ≫= f).
Proof. intros Hm Hf Q E w H. apply wp_bind, Hm. intros a w'. by apply Hf. Qed.
Lemma calm_step {A} (f : AvahiWorld -> A * AvahiWorld) : calm (fun w => (Done (f w).1, (f w).2)).
Proof. intros Q E w H. apply H. Qed.
Lemma calm_call c : calm (call D c).
Proof. apply (calm_step (fun w => (_, _))). Qed.
Lemma calm_ask {A} (f : nat -> A) : calm (ask D f).
Proof. apply (calm_step (fun w => (_, _))). Qed.
Lemma calm_gets {A} (f : AvahiWorld -> A) : calm (gets f).
Proof. intros Q E w H. apply H. Qed.
Lemma calm_modify f : calm (modify f).
Proof. intros Q E w H. apply H. Qed.
Lemma calm_new : calm (EntryGroupNew D).
Proof. apply (calm_step (fun w => (_, _))). Qed.
Lemma calm_state path : calm (GetState D path).
Proof. apply (calm_step (fun w => (_, _))). Qed.
Hint Resolve calm_ret calm_call calm_ask calm_gets calm_modify calm_new calm_state : golib.
(** Cases and binds of a computation made of calm ones. *)
Ltac calm :=
  repeat first
    [ assumption | solve [auto with golib nocore]
    | apply calm_bind; [|intros ?]
    | match goal with
      | |- calm (match ?x with _ => _ end) => destruct x
      | |- calm (if ?x then _ else _) => destruct x
      end ].
Lemma calm_freeGroup path : calm (freeGroup D path).
Proof. unfold freeGroup. calm. Qed.
Hint Resolve calm_freeGroup : golib.
Lemma calm_createGroup input rs : calm (createGroup D input rs).
Proof.
  assert (forall path index, calm (add_records D path index rs)) as Hadd.
  { intros path index. induction rs as [|r rs' IH]; cbn [add_records]; [calm|]. unfold add_record. calm. }
  assert (forall path, calm (waitForGroupState D path)) as Hwait.
  { intros path. unfold waitForGroupState. generalize (Z.to_nat (avahiStateWait / avahiStatePollInterval + 2)) as n.
    induction n as [|n IH]; cbn [poll_state]; calm. }
  unfold createGroup, fill_group, interfaceIndex. calm; auto.
Qed.
Lemma calm_updateGroupTXT input rs : calm (updateGroupTXT D input rs).
Proof.
  assert (forall index r, calm (updateServiceTXT D index r)) as Hup by (intros; unfold updateServiceTXT; calm).
  assert (forall updated previous index, calm (rollbackTXT D updated previous index)) as Hroll.
  { induction updated as [|r updated IH]; intros previous index; cbn [rollbackTXT]; calm; auto. }
  unfold updateGroupTXT, interfaceIndex. calm.
  generalize (@nil ServiceRecord) as updated. induction rs as [|r rs' IH]; intros updated; cbn [update_records]; [calm|].
  unfold restore. calm; auto.
Qed.
Lemma calm_check_group err : calm (check_group D err).
Proof. unfold check_group. calm. Qed.
Lemma calm_ensureBus : calm (ensureBus D).
Proof. unfold ensureBus. calm. Qed.
Hint Resolve calm_createGroup calm_updateGroupTXT calm_check_group calm_ensureBus : golib.

Lemma free_or_truthful status w (Q : unit -> AvahiWorld -> Prop) :
  (forall err, sState (status err) = StateDegraded) -> (forall u w', current (w_pub w') = None -> Q u w') ->
  wp (free_or D status) Q truthful w.
Proof.
  intros Hs HQ. apply wp_bind, wp_gets, wp_bind. destruct (group (w_pub w) =? "")%string.
  { by apply wp_ret, wp_modify, HQ. }
  apply wp_bind, calm_freeGroup. intros [err|] w'; [destruct (isStaleEntryGroupError err)|].
  - by apply wp_ret, wp_modify, HQ.
  - by apply wp_throw, truthful_degraded.
  - by apply wp_ret, wp_modify, HQ.
Qed.
Lemma publish_truthful input rs attempt names w Q : wp (publish D input rs attempt names) Q truthful w.
Proof.
  revert attempt w. induction names as [|name names IH]; intros attempt w; cbn [publish].
  { by apply wp_throw, truthful_degraded. }
  apply wp_bind, calm_createGroup. intros [path|[[] err]] w1.
  - apply wp_bind, wp_modify, wp_throw. unfold truthful. cbn. split_and!; [|by intros [?|?]|set_solver].
    intros _. eauto.
  - apply IH.
  - by apply wp_throw, truthful_degraded.
Qed.
Lemma update_truthful ctx input w : wp (update D cfg ctx input) truthful truthful w.
Proof.
  unfold update. destruct (contextErr ctx) as [err|]; [by apply wp_throw, truthful_degraded|]. cbv zeta.
  destruct (build_records _) as [records|err]; [|by apply wp_throw, truthful_degraded].
  set (i := if _ && _ then _ else _). apply wp_bind, wp_gets.
  destruct (closed (w_pub w)); [by apply wp_throw, truthful_degraded|].
  destruct (iProfilesSet i && negb (Ordinary (iProfiles i))).
  { apply wp_bind, free_or_truthful; [done|]. intros _ w1 Hc. apply wp_throw, truthful_gone; auto. }
  destruct (Configuration.Mode cfg =? DNSModeOff)%string.
  { apply wp_bind, wp_gets, wp_bind. destruct (group (w_pub w) =? "")%string.
    { apply wp_ret, wp_bind, wp_modify, wp_throw, truthful_gone; auto. }
    apply wp_bind, calm_freeGroup. intros [err|] w1; [cbv zeta; destruct (isStaleEntryGroupError err)|].
    - apply wp_bind, wp_modify, wp_throw, truthful_gone; auto.
    - by apply wp_throw, truthful_degraded.
    - apply wp_ret, wp_bind, wp_modify, wp_throw, truthful_gone; auto. }
  apply wp_bind. eapply (wp_mono _ (fun _ _ => True) _ truthful); [| |done].
  - apply wp_bind, wp_gets. destruct (current (w_pub w)) as [pub|]; [|done]. cbv zeta.
    destruct (build_records _); [|by apply wp_throw, truthful_degraded].
    apply wp_bind. destruct (negb _ && _); [by apply free_or_truthful|done].
  - intros [i' rs'] w1 _. apply wp_bind, calm_ensureBus. intros [err|] w2; [by apply wp_throw, truthful_degraded|].
    apply wp_bind, wp_gets. destruct (negb (group (w_pub w2) =? "")%string && _); [|apply publish_truthful].
    apply wp_bind, calm_updateGroupTXT. intros [err|] w3.
    + apply wp_bind, wp_gets, wp_bind, calm_check_group. intros _ w4. by apply wp_throw, truthful_degraded.
    + apply wp_bind, wp_gets, wp_bind, wp_modify, wp_throw. unfold truthful. cbn.
      split_and!; [|by intros [?|?]|set_solver]. intros _. eauto.
Qed.
Lemma withdraw_truthful ctx w :
  wp (withdraw D ctx) (fun _ _ => False) (fun r w' => truthful r w' /\ sState (fst r) <> StatePublished) w.
Proof.
  unfold withdraw. destruct (contextErr ctx) as [err|]; [by apply wp_throw; split; [apply truthful_degraded|]|].
  apply wp_bind, wp_gets. cbv zeta. destruct (group (w_pub w) =? "")%string.
  { apply wp_bind, wp_modify, wp_throw; split; [apply truthful_gone; auto|done]. }
  apply wp_bind, calm_freeGroup. intros [err|] w1; [destruct (isStaleEntryGroupError err)|].
  - apply wp_bind, wp_modify, wp_throw; split; [apply truthful_gone; auto|done].
  - by apply wp_throw; split; [apply truthful_degraded|].
  - apply wp_bind, wp_modify, wp_throw; split; [apply truthful_gone; auto|done].
Qed.
(** *** Updates with a daemon that keeps the group *)

(** From a tick on the daemon does not lose the group, reports it as
    established, and refuses at most one change of its data. *)
Record steady (from : nat) (path : string) : Prop := {
  steady_kept t : (from <= t)%nat -> d_lost D t path = false;
  steady_established t gs : (from <= t)%nat -> is_Some (gs !! path) -> d_state D t gs path = Ok avahiGroupEstablished;
  steady_once : exists t0, forall t gs index name type txt, (from <= t)%nat -> t <> t0 -> is_Some (gs !! path) ->
    d_reply D t gs (UpdateServiceTxt path index name type txt) = None
}.

(** The input with the host and the interface of the configuration, and with
    the profiles its records have. *)
Definition hosted (input : ServiceInput) : ServiceInput :=
  with_host (if (iHostname input =? "")%string then Configuration.Hostname cfg else iHostname input)
    (if (iInterface input =? "")%string then Configuration.Interface cfg else iInterface input) input.
Definition profiled (input : ServiceInput) (records : list ServiceRecord) : ServiceInput :=
  if iProfilesSet (hosted input) && Ordinary (iProfiles (hosted input))
  then with_profiles (publicationProfilesForRecords records) (hosted input) else hosted input.
(** The services change: the records of the input under the name and the
    endpoint of the publication are not those of the publication. *)
Definition restructures (pub : Publication) (input : ServiceInput) : bool :=
  match build_records (hosted input) with
  | Ok records =>
      match build_records (with_identity (pName pub) (pInput pub) (profiled input records)) with
      | Ok records' => negb (samePublicationStructure (pRecords pub) records')
      | Err _ => false
      end
  | Err _ => false
  end.

Section steady.
Context (from : nat) (path : string) (t0 : nat) (p0 : avahiPublisher).
Context (Hkept : forall t, (from <= t)%nat -> d_lost D t path = false).
Context (Hstate : forall t gs, (from <= t)%nat -> is_Some (gs !! path) -> d_state D t gs path = Ok avahiGroupEstablished).
Context (Honce : forall t gs index name type txt, (from <= t)%nat -> t <> t0 -> is_Some (gs !! path) ->
  d_reply D t gs (UpdateServiceTxt path index name type txt) = None).
Context (Hpath : group p0 = path) (Hne : path <> "").

(** The daemon has the group, and the publisher is as it was but for its
    connection. *)
Record alive (w : AvahiWorld) : Prop := {
  alive_from : (from <= w_tick w)%nat;
  alive_group : is_Some (w_groups w !! path);
  alive_path : group (w_pub w) = path;
  alive_current : current (w_pub w) = current p0
}.

Lemma alive_kept w : alive w -> is_Some (kept_groups D w !! path).
Proof.
  intros [Hf [g Hg] _ _]. exists g. unfold kept_groups. apply map_lookup_filter_Some. split; [done|]. by apply Hkept.
Qed.
Lemma alive_ask {A} (f : nat -> A) (Q : A -> AvahiWorld -> Prop) E w : alive w ->
  (forall a w', alive w' -> (w_tick w < w_tick w')%nat -> a = f (w_tick w) -> Q a w') -> wp (ask D f) Q E w.
Proof.
  intros Ha H. apply (H (f (w_tick w))); [|cbn; lia|done]. pose proof (alive_kept _ Ha) as Hg. destruct Ha. by split; [cbn; lia|..].
Qed.
Lemma alive_txt index r (Q : option goerr -> AvahiWorld -> Prop) E w : alive w ->
  (forall err w', alive w' -> (w_tick w < w_tick w')%nat -> (err <> None -> w_tick w = t0) ->
     (forall e, err = Some e -> isStaleEntryGroupError e = false) -> Q err w') ->
  wp (updateServiceTXT D index r) Q E w.
Proof.
  intros Ha H. pose proof (alive_kept _ Ha) as Hg. apply wp_bind, wp_gets. rewrite (alive_path _ Ha).
  unfold wp, call. cbv zeta. apply H.
  - destruct Ha. split; cbn; [lia| |done|done]. case_match; [case_match|]; rewrite ?lookup_alter_eq; try done; by apply fmap_is_Some.
  - cbn. lia.
  - intros He. destruct (decide (w_tick w = t0)) as [|Hn]; [done|]. destruct He. by apply Honce; [apply Ha|..].
  - intros e He. destruct (isStaleEntryGroupError e) eqn:Hs; [|done]. apply d_reply_stale in He; [|done]. cbn in He.
    destruct Hg as [g Hg]. congruence.
Qed.
Lemma alive_state (Q : res goerr Z -> AvahiWorld -> Prop) E w : alive w ->
  (forall w', alive w' -> Q (Ok avahiGroupEstablished) w') -> wp (GetState D path) Q E w.
Proof.
  intros Ha H. pose proof (alive_kept _ Ha) as Hg. unfold wp, GetState. cbv zeta. rewrite Hstate by (done || apply Ha).
  apply H. destruct Ha. by split; [cbn; lia|..].
Qed.

Lemma alive_rollback pub index updated (Q : option goerr -> AvahiWorld -> Prop) E w : alive w -> (t0 < w_tick w)%nat ->
  (forall r, r ∈ updated -> is_Some (previous_records (Some pub) !! rType r)) ->
  (forall w', alive w' -> Q None w') -> wp (rollbackTXT D updated (previous_records (Some pub)) index) Q E w.
Proof.
  revert w. induction updated as [|r updated IH]; intros w Ha Ht Hu H; cbn [rollbackTXT]; [by apply wp_ret, H|].
  destruct (Hu r) as [old ->]; [left|]. apply wp_bind, alive_txt; [done|]. intros err w' Ha' Ht' He _.
  destruct err as [err|]; [specialize (He ltac:(done)); lia|]. apply IH; [done|lia| |done]. intros r' Hr'. apply Hu. by right.
Qed.

(** An update that fails puts the data back. *)
Lemma alive_update_records pub index records : forall updated (Q : option goerr -> AvahiWorld -> Prop) E w, alive w ->
  (forall r, r ∈ updated -> is_Some (previous_records (Some pub) !! rType r)) ->
  (forall r, r ∈ records -> without_txt r = false -> is_Some (previous_records (Some pub) !! rType r)) ->
  (forall err w', alive w' -> (forall e, err = Some e -> isStaleEntryGroupError e = false) -> Q err w') ->
  wp (update_records D index (previous_records (Some pub)) updated records) Q E w.
Proof.
  induction records as [|r records IH]; intros updated Q E w Ha Hu Hr H; cbn [update_records]; [by apply wp_ret, H|].
  assert (forall x, x ∈ records -> without_txt x = false -> is_Some (previous_records (Some pub) !! rType x)) as Hr'
    by (intros x Hx; apply Hr; by right).
  destruct (without_txt r) eqn:Hw; [by apply IH|].
  assert (forall x, x ∈ updated ++ [r] -> is_Some (previous_records (Some pub) !! rType x)) as Hu'.
  { intros x [Hx|Hx%list_elem_of_singleton]%elem_of_app; [by apply Hu|subst x]. apply Hr; [left|done]. }
  apply wp_bind, alive_txt; [done|]. intros err w1 Ha1 Ht1 He Hs. destruct err as [err|]; [|by apply IH].
  apply wp_bind, wp_bind, (alive_rollback pub); [done|specialize (He ltac:(done)); lia|done|].
  intros w2 Ha2. apply wp_ret, wp_ret, H; [done|]. by intros e [= <-]; apply Hs.
Qed.

Lemma same_structure_previous pub records r : samePublicationStructure (pRecords pub) records = true ->
  r ∈ records -> without_txt r = false -> is_Some (previous_records (Some pub) !! rType r).
Proof.
  intros H%samePublicationStructure_Forall2 Hr [Hs _]%without_txt_false.
  apply list_elem_of_lookup in Hr as [i Hi]. destruct (Forall2_lookup_r _ _ _ _ _ H Hi) as (r0 & H0 & Hsame).
  unfold same_structure in Hsame. bool_to_prop.
  assert (rType r = rType r0) as -> by congruence. apply previous_records_complete; [by eapply list_elem_of_lookup_2|congruence].
Qed.

(** The publication stays: the daemon has its group, or once refused to free it. *)
Definition stays (w : AvahiWorld) : Prop :=
  current (w_pub w) = current p0 /\ group (w_pub w) = path /\ (is_Some (w_groups w !! path) \/ path ∈ w_unfreed w).
Definition degraded_stays (r : result) (w : AvahiWorld) : Prop := sState (fst r) = StateDegraded -> stays w.
Lemma alive_stays w : alive w -> stays w.
Proof. intros []. split_and!; auto. Qed.
Lemma alive_degraded r w : alive w -> degraded_stays r w.
Proof. intros Ha _. by apply alive_stays. Qed.

Lemma alive_update_group input records pub (Q : result -> AvahiWorld -> Prop) w : alive w -> current p0 = Some pub ->
  samePublicationStructure (pRecords pub) records = true -> wp (update_group D input records) Q degraded_stays w.
Proof.
  intros Ha Hpub Hsame. apply wp_bind, wp_bind, alive_ask; [done|]. intros index w1 Ha1 _ Hidx.
  assert (forall err w2, alive w2 -> (forall e, err = Some e -> isStaleEntryGroupError e = false) ->
    wp (match err with
        | Some err => p ← gets w_pub; check_group D err;; return_status (degraded (publication_name (current p) (iName input)) err)
        | None => p ← gets w_pub;
            modify (set_pub (set_publication (group p) (Some {| pName := iName input; pInput := input; pRecords := records |})));;
            return_status (published_as (iName input) 1)
        end) Q degraded_stays w2) as Hrest.
  { intros [err|] w2 Ha2 Hs; [|by apply wp_bind, wp_gets, wp_bind, wp_modify, wp_throw].
    apply wp_bind, wp_gets, wp_bind, wp_bind, wp_gets. rewrite (Hs err eq_refl).
    destruct (negb (group (w_pub w2) =? "")%string && _ && conn (w_pub w2)); [|by apply wp_ret, wp_throw, alive_degraded].
    rewrite (alive_path _ Ha2). apply wp_bind, alive_state; [done|]. intros w3 Ha3. by apply wp_ret, wp_throw, alive_degraded. }
  destruct index as [index|err].
  - apply wp_bind, wp_gets. rewrite (alive_current _ Ha1), Hpub.
    apply alive_update_records; [done|by intros ? ?%elem_of_nil|intros r; by apply same_structure_previous|]. auto.
  - apply wp_ret, (Hrest (Some err) w1); [done|]. intros e [= <-]. revert Hidx. unfold interfaceIndex_of.
    destruct (iInterface input =? "")%string; [done|]. intros Hidx. symmetry in Hidx. by eapply d_index_plain.
Qed.

Lemma alive_free_or status (Q : unit -> AvahiWorld -> Prop) w : alive w -> conn (w_pub w) = true -> 
  (forall w', Q tt w') -> wp (free_or D status) Q degraded_stays w.
Proof.
  intros Ha Hc HQ. apply wp_bind, wp_gets, wp_bind. rewrite (alive_path _ Ha). destruct (path =? "")%string; [by apply wp_ret, wp_modify|].
  apply wp_bind, wp_freeGroup; [done..|]. intros err w1 Hl Hfr. pose proof (later_pub _ _ _ Hl) as Hp.
  destruct err as [err|]; [|by apply wp_ret, wp_modify]. unfold freed in Hfr.
  destruct (isStaleEntryGroupError err) eqn:Hs; [by apply wp_ret, wp_modify|].
  apply wp_throw. intros _. unfold stays. rewrite Hp. destruct Ha. auto.
Qed.

Lemma alive_disable input w : alive w -> conn (w_pub w) = true -> wp (disable D input) (fun r w' => degraded_stays r w') degraded_stays w.
Proof.
  intros Ha Hc. apply wp_bind, wp_gets. rewrite (alive_path _ Ha). apply String.eqb_neq in Hne as Hne'. rewrite Hne'.
  apply wp_bind, wp_bind, wp_freeGroup; [done..|]. intros err w1 Hl Hfr. pose proof (later_pub _ _ _ Hl) as Hp.
  destruct err as [err|]; [|by apply wp_ret, wp_bind, wp_modify, wp_throw].
  cbv zeta. unfold freed in Hfr. destruct (isStaleEntryGroupError err) eqn:Hs; [by apply wp_bind, wp_modify, wp_throw|].
  apply wp_throw. intros _. unfold stays. rewrite Hp. destruct Ha. auto.
Qed.

Lemma alive_update ctx input w pub : alive w -> conn (w_pub w) = true -> current p0 = Some pub ->
  restructures pub input = false -> wp (update D cfg ctx input) degraded_stays degraded_stays w.
Proof.
  intros Ha Hc Hpub Hkeep. unfold update. destruct (contextErr ctx) as [err|]; [by apply wp_throw, alive_degraded|]. cbv zeta.
  fold (hosted input). destruct (build_records (hosted input)) as [records|err] eqn:Hbr; [|by apply wp_throw, alive_degraded].
  fold (profiled input records). set (i := profiled input records).
  apply wp_bind, wp_gets. destruct (closed (w_pub w)); [by apply wp_throw, alive_degraded|].
  destruct (iProfilesSet i && negb (Ordinary (iProfiles i))).
  { apply wp_bind, alive_free_or; [done..|]. intros w1. by apply wp_throw. }
  destruct (Configuration.Mode cfg =? DNSModeOff)%string; [by apply alive_disable|].
  apply wp_bind, wp_bind, wp_gets. rewrite (alive_current _ Ha), Hpub. cbv zeta.
  destruct (build_records (with_identity (pName pub) (pInput pub) i)) as [records'|err] eqn:Hbr'; [|by apply wp_throw, alive_degraded].
  destruct (samePublicationStructure (pRecords pub) records') eqn:Hsame; [|by unfold restructures in Hkeep; fold i in Hkeep; rewrite Hbr in Hkeep; fold i in Hkeep; rewrite Hbr', Hsame in Hkeep].
  rewrite andb_false_r. apply wp_bind, wp_ret, wp_ret.
  apply wp_bind, wp_bind, wp_gets, wp_bind, alive_ask; [done|]. intros connected w1 Ha1 _ _.
  assert (forall w2 (input' : ServiceInput), alive w2 -> wp (p ← gets w_pub;
      if negb (group p =? "")%string && bool_decide (is_Some (current p)) then update_group D input' records'
      else publish D input' records' 0 (CollisionNames (iName input') (max_attempts input'))) degraded_stays degraded_stays w2) as Hrest.
  { intros w2 input' Ha2. apply wp_bind, wp_gets. rewrite (alive_path _ Ha2), (alive_current _ Ha2), Hpub.
    apply String.eqb_neq in Hne as Hne'. rewrite Hne'. cbn [negb andb]. rewrite bool_decide_eq_true_2 by done.
    by eapply alive_update_group. }
  destruct (_ && connected); [apply wp_ret; by apply Hrest|].
  apply wp_bind, alive_ask; [done|]. intros bus w2 Ha2 _ _. destruct bus as [err|]; [by apply wp_ret, wp_throw, alive_degraded|].
  apply wp_bind, wp_modify, wp_ret, Hrest. by destruct Ha2.
Qed.
End steady.

(** An error next to the status: nothing was done. *)
Lemma update_refused ctx input w : wp (update D cfg ctx input) (fun r w' => snd r <> None -> w' = w) (fun r w' => snd r <> None -> w' = w) w.
Proof.
  unfold update. destruct (contextErr ctx) as [err|]; [by apply wp_throw|]. cbv zeta.
  destruct (build_records _) as [records|err]; [|by apply wp_throw]. set (i := if _ && _ then _ else _).
  apply wp_bind, wp_gets. destruct (closed (w_pub w)); [by apply wp_throw|].
  assert (forall status (Q : unit -> AvahiWorld -> Prop) w1, (forall w', Q tt w') ->
    wp (free_or D status) Q (fun r w' => snd r <> None -> w' = w) w1) as Hfree.
  { intros status Q w1 HQ. apply wp_bind, wp_gets, wp_bind. destruct (group (w_pub w1) =? "")%string; [by apply wp_ret, wp_modify|].
    apply wp_bind, calm_freeGroup. intros [err|] w2; [destruct (isStaleEntryGroupError err)|]; by first [apply wp_ret, wp_modify|apply wp_throw]. }
  destruct (iProfilesSet i && negb (Ordinary (iProfiles i))); [by apply wp_bind, Hfree; intros; apply wp_throw|].
  destruct (Configuration.Mode cfg =? DNSModeOff)%string.
  { apply wp_bind, wp_gets, wp_bind. destruct (group (w_pub w) =? "")%string; [by apply wp_ret, wp_bind, wp_modify, wp_throw|].
    apply wp_bind, calm_freeGroup. intros [err|] w1; [cbv zeta; destruct (isStaleEntryGroupError err)|].
    - by apply wp_bind, wp_modify, wp_throw.
    - by apply wp_throw.
    - by apply wp_ret, wp_bind, wp_modify, wp_throw. }
  apply wp_bind. eapply (wp_mono _ (fun _ _ => True) _ (fun r w' => snd r <> None -> w' = w)); [| |done].
  - apply wp_bind, wp_gets. destruct (current (w_pub w)) as [pub|]; [|done]. cbv zeta.
    destruct (build_records _); [|by apply wp_throw]. apply wp_bind. destruct (negb _ && _); [by apply Hfree|done].
  - intros [i' rs'] w1 _. apply wp_bind, calm_ensureBus. intros [err|] w2; [by apply wp_throw|].
    apply wp_bind, wp_gets. destruct (negb (group (w_pub w2) =? "")%string && _).
    + apply wp_bind, calm_updateGroupTXT. intros [err|] w3.
      * apply wp_bind, wp_gets, wp_bind, calm_check_group. intros _ w4. by apply wp_throw.
      * by apply wp_bind, wp_gets, wp_bind, wp_modify, wp_throw.
    + generalize 0 at 1. generalize (CollisionNames (iName i') (max_attempts i')) as names. intros names.
      revert w2. induction names as [|name names IH]; intros w2 attempt; cbn [publish]; [by apply wp_throw|].
      apply wp_bind, calm_createGroup. intros [path|[[] err]] w3; [by apply wp_bind, wp_modify, wp_throw|apply IH|by apply wp_throw].
Qed.

(** *** Histories *)

Definition no_input : ServiceInput := {|
  iName := ""; iHostname := ""; iPort := 0; iIPPS := false; iInterface := ""; iTXT := ∅; iGeoLocation := "";
  iProfiles := no_profiles; iProfilesSet := false; iMaxCollisionRetries := 0 |}.

Lemma returned_wp (m : AM result) (Q : result -> AvahiWorld -> Prop) w :
  wp m Q Q w -> Q (returned m w).1 (returned m w).2.
Proof. unfold wp, returned. by destruct (m w) as [[] ?]. Qed.

Inductive operation : Type :=
| OpUpdate (ctx : Context) (input : ServiceInput)
| OpWithdraw (ctx : Context)
| OpClose.
Definition run_op (op : operation) : AvahiWorld -> result * AvahiWorld :=
  returned match op with OpUpdate ctx input => update D cfg ctx input | OpWithdraw ctx => withdraw D ctx | OpClose => close D end.
(** The states after any operations on a new publisher; the clock of the daemon
    may go on between them. *)
Inductive reachable : AvahiWorld -> Prop :=
| reach_new tick : reachable {| w_pub := new_publisher; w_groups := ∅; w_unfreed := ∅; w_tick := tick |}
| reach_op op w : reachable w -> reachable (run_op op w).2
| reach_wait w n : reachable w -> reachable {| w_pub := w_pub w; w_groups := w_groups w; w_unfreed := w_unfreed w; w_tick := n |}.

Lemma run_op_inv op input w :
  inv w -> (forall ctx i, op = OpUpdate ctx i -> i = input) -> left_by input w (run_op op w).1 (run_op op w).2.
Proof.
  intros Hi Hop. apply (returned_wp _ (left_by input w)). destruct op as [ctx i|ctx|].
  - rewrite (Hop ctx i eq_refl). by apply update_inv.
  - by apply withdraw_inv.
  - eapply wp_mono; [by apply (close_inv input)|done|]. by intros e w' [? _].
Qed.
Lemma reachable_inv w : reachable w -> inv w.
Proof.
  induction 1 as [tick|op w _ IH|w n _ IH].
  - by split.
  - destruct op as [ctx i|ctx|].
    + apply (run_op_inv (OpUpdate ctx i) i); [done|by intros ? ? [= _ <-]].
    + by apply (run_op_inv (OpWithdraw ctx) no_input); [|intros ? ? [=]].
    + by apply (run_op_inv OpClose no_input); [|intros ? ? [=]].
  - by destruct IH.
Qed.

Lemma withdrawn_truthful ctx w :
  truthful (returned (withdraw D ctx) w).1 (returned (withdraw D ctx) w).2 /\
  sState (returned (withdraw D ctx) w).1.1 <> StatePublished.
Proof.
  apply (returned_wp (withdraw D ctx) (fun r w' => truthful r w' /\ sState r.1 <> StatePublished)).
  eapply wp_mono; [apply withdraw_truthful|done|done].
Qed.

(** The Avahi publisher keeps the promises of the interface. *)
#[export] Instance avahi_is_publisher : Publisher AvahiWorld.
Proof.
  refine {| Update := avahi_Update D cfg; Withdraw := avahi_Withdraw D; Close := avahi_Close D;
            published w := current (w_pub w) |}.
  - intros ctx input w s e w' H Hs. pose proof (returned_wp _ truthful _ (update_truthful ctx input w)) as (Ht & _).
    unfold avahi_Update in H. rewrite H in Ht. by apply Ht.
  - intros ctx input w s e w' H Hs. pose proof (returned_wp _ truthful _ (update_truthful ctx input w)) as (_ & Ht & _).
    unfold avahi_Update in H. rewrite H in Ht. by apply Ht.
  - intros ctx input w. by pose proof (returned_wp _ truthful _ (update_truthful ctx input w)) as (_ & _ & Ht).
  - intros ctx w. destruct (withdrawn_truthful ctx w) as ((_ & _ & Ht) & Hs). unfold avahi_Withdraw.
    set_solver.
  - intros ctx w s e w' H Hs. destruct (withdrawn_truthful ctx w) as ((_ & Ht & _) & _).
    unfold avahi_Withdraw in H. rewrite H in Ht. by apply Ht.
Defined.
End operations.

(** ** The theorems *)

Section claims.
Context `{R : MapRange} (D : Daemon) (cfg : DNSSDConfig).

(** C19: In every state the Avahi publisher can reach, with a daemon that may
    fail, lose groups and apply what it reports as failed: each group the daemon
    has is the one the publisher holds or one the daemon refused to free;
    there is a group exactly when there is a publication, and none after
    [Close]; and a group that is held and still there is committed and, unless
    the daemon refused to free it, has exactly the registrations of the
    publication, TXT data included. *)
Theorem avahi_groups w :
  reachable D cfg w ->
  (forall q g, w_groups w !! q = Some g -> current (w_pub w) <> None /\ q = group (w_pub w) \/ q ∈ w_unfreed w) /\
  (group (w_pub w) = "" <-> current (w_pub w) = None) /\ (closed (w_pub w) = true -> current (w_pub w) = None) /\
  (forall pub g, current (w_pub w) = Some pub -> w_groups w !! group (w_pub w) = Some g ->
     g_committed g = true /\ (group (w_pub w) ∉ w_unfreed w -> g_entries g = entries_of (pRecords pub))).
Proof.
  intros Hi%reachable_inv. split_and!.
  - intros q g Hq. destruct (inv_accounted _ Hi q g Hq) as [Hown|?]; [|by right]. left. unfold own in Hown.
    destruct (String.eqb_spec (group (w_pub w)) ""); [set_solver|].
    split; [by intros ?%(inv_current _ Hi)|set_solver].
  - apply (inv_current _ Hi).
  - intros Hc%(inv_closed _ Hi). by apply (inv_current _ Hi).
  - intros pub g Hpub Hg. destruct (inv_data _ Hi pub Hpub) as (f & Hd & _ & Hh). rewrite (Hd g Hg).
    split; [done|]. intros Hu. destruct Hh as [?|Hh]; [done|]. by apply entries_by_exact.
Qed.

(** C9: When an update says that it published a name, there is no error, and the
    publication has the records built from the TXT data of the input, under that
    name; the group of the publication, if the daemon still has it, is committed
    and has exactly their registrations, also after an earlier update of the
    group failed half way. *)
Theorem avahi_published w ctx input s e w' :
  reachable D cfg w -> avahi_Update D cfg ctx input w = (s, e, w') -> sState s = StatePublished ->
  e = None /\ sErr s = None /\ exists pub built records,
    current (w_pub w') = Some pub /\ pName pub = sName s /\ iTXT built = iTXT input /\
    build_records built = Ok records /\ pRecords pub = map (renamed (sName s)) records /\
    forall g, w_groups w' !! group (w_pub w') = Some g -> g = {| g_entries := entries_of (pRecords pub); g_committed := true |}.
Proof.
  intros Hr H Hs. pose proof (returned_wp _ truthful _ (update_truthful D cfg ctx input w)) as (Ht & _).
  pose proof (returned_wp _ (left_by input w) _ (update_inv D cfg ctx input w (reachable_inv _ _ _ Hr))) as (Hi & Hp & _).
  unfold avahi_Update in H. rewrite H in Ht, Hi, Hp. destruct (Ht Hs) as (He & Herr & _). cbn in He, Herr.
  destruct (Hp Hs) as (pub & built & records & Hc & Hn & Htxt & _ & Hb & Hrec & Hd).
  split_and!; [done..|]. exists pub, built, records. split_and!; [done..|]. intros g Hg.
  rewrite (Hd g Hg). f_equal. symmetry. by eapply entries_by_data_of, inv_registrations.
Qed.

(** When an operation ends withdrawn or disabled, there is no error, the
    publisher has no publication, and the daemon has no group but those it once
    refused to free. *)
Theorem avahi_withdrawn w op s e w' :
  reachable D cfg w -> op <> OpClose -> run_op D cfg op w = (s, e, w') ->
  sState s = StateWithdrawn \/ sState s = StateDisabled ->
  e = None /\ current (w_pub w') = None /\ forall q g, w_groups w' !! q = Some g -> q ∈ w_unfreed w'.
Proof.
  intros Hr Hop H Hs. assert (inv w') as Hi.
  { replace w' with (run_op D cfg op w).2 by (by rewrite H). eapply reachable_inv. by apply reach_op. }
  assert (truthful (s, e) w') as (_ & Ht & _).
  { destruct op as [ctx i|ctx|]; [| |done].
    - pose proof (returned_wp _ truthful _ (update_truthful D cfg ctx i w)) as Ht. unfold run_op in H. by rewrite H in Ht.
    - destruct (withdrawn_truthful D ctx w) as [Ht _]. unfold run_op in H. by rewrite H in Ht. }
  destruct (Ht Hs) as [He Hc]. split_and!; [done..|]. intros q g Hq.
  destruct (inv_accounted _ Hi q g Hq) as [Hown|?]; [|done]. unfold own in Hown.
  apply (inv_current _ Hi) in Hc. rewrite Hc in Hown. set_solver.
Qed.

(** C34: An update that does not publish. What is left is the publication there
    was, whose group, if the daemon still has it and did not refuse to free it,
    has exactly the registrations of before, or nothing. An update that returns
    an error has done nothing. And a degraded update keeps the publication, with
    its group, if its services do not change and the daemon keeps the group:
    does not lose it, reports it as established and refuses at most one change of
    its data. A publication can only be lost where one of these fails; it is lost
    when its services change and the new group cannot be created, against the
    promise of the interface ([failed_update_withdraws]). *)
Theorem avahi_failed_update w ctx input s e w' :
  reachable D cfg w -> avahi_Update D cfg ctx input w = (s, e, w') -> sState s <> StatePublished ->
  (forall pub, current (w_pub w') = Some pub ->
     current (w_pub w) = Some pub /\
     forall g, w_groups w' !! group (w_pub w') = Some g ->
       g_committed g = true /\ (group (w_pub w') ∉ w_unfreed w' -> g_entries g = entries_of (pRecords pub))) /\
  (e <> None -> w' = w) /\
  (forall pub, current (w_pub w) = Some pub -> sState s = StateDegraded ->
     restructures cfg pub input = false -> steady D (w_tick w) (group (w_pub w)) -> is_Some (w_groups w !! group (w_pub w)) ->
     current (w_pub w') = Some pub /\ group (w_pub w') = group (w_pub w) /\
     (is_Some (w_groups w' !! group (w_pub w)) \/ group (w_pub w) ∈ w_unfreed w')).
Proof.
  intros Hr H Hs. pose proof (reachable_inv _ _ _ Hr) as Hi0. split_and!.
  - intros pub Hpub.
    pose proof (returned_wp _ (left_by input w) _ (update_inv D cfg ctx input w Hi0)) as (Hi & _ & Hc).
    unfold avahi_Update in H. rewrite H in Hi, Hc. destruct (Hc Hs) as [Hc'|Hc']; cbn in Hc', Hi; [|congruence].
    split; [congruence|]. intros g Hg. destruct (inv_data _ Hi pub Hpub) as (f & Hd & _ & Hh). rewrite (Hd g Hg).
    split; [done|]. intros Hu. destruct Hh as [?|Hh]; [done|]. by apply entries_by_exact.
  - intros He. pose proof (returned_wp _ _ _ (update_refused D cfg ctx input w)) as Hw.
    unfold avahi_Update in H. rewrite H in Hw. by apply Hw.
  - intros pub Hpub Hdeg Hkeep [Hkept Hest [t0 Honce]] Hg.
    assert (group (w_pub w) <> "") as Hne by (intros Hg0%(inv_current _ Hi0); congruence).
    pose proof (alive_update D cfg (w_tick w) (group (w_pub w)) t0 (w_pub w) Hkept Hest Honce Hne ctx input w pub) as Hw.
    eapply returned_wp in Hw; [|by split|by apply inv_conn|done|done]. unfold avahi_Update in H. rewrite H in Hw.
    destruct (Hw Hdeg) as (Hc & Hp & Hx). cbn [snd] in Hc, Hp, Hx. split; [congruence|done].
Qed.
End claims.

(** ** A daemon that fails at some ticks *)

#[local, refine] Instance range_forward : MapRange := {| range A m := map_to_list m |}.
Proof. intros A m. reflexivity. Defined.

Definition timed_out : goerr := EText "timeout".
Definition unknown_object : goerr := EText "Unknown object".
Definition test_new (fails : nat -> bool) (t : nat) (gs : groups) : res goerr string :=
  if fails t then Err timed_out else
  match gs !! ("/group/" +:+ Itoa (Z.of_nat t))%string with
  | None => Ok ("/group/" +:+ Itoa (Z.of_nat t))%string | Some _ => Err timed_out end.
Definition test_reply (fails : nat -> bool) (t : nat) (gs : groups) (c : Call) : option goerr :=
  if fails t then Some timed_out else match gs !! path_of c with Some _ => None | None => Some unknown_object end.
Definition test_state (fails : nat -> bool) (t : nat) (gs : groups) (p : string) : res goerr Z :=
  if fails t then Err timed_out else match gs !! p with Some _ => Ok 2 | None => Err unknown_object end.
Lemma test_new_fresh fails t gs p : test_new fails t gs = Ok p -> p <> "" /\ gs !! p = None.
Proof.
  unfold test_new. destruct (fails t); [done|].
  destruct (gs !! ("/group/" +:+ Itoa (Z.of_nat t))%string) eqn:Hg; [done|]. by intros [= <-].
Qed.
Lemma test_reply_stale fails t gs c e : test_reply fails t gs c = Some e -> isStaleEntryGroupError e = true -> gs !! path_of c = None.
Proof. unfold test_reply. destruct (fails t); [by intros [= <-]|]. by destruct (gs !! path_of c). Qed.
Lemma test_state_stale fails t gs p e : test_state fails t gs p = Err e -> isStaleEntryGroupError e = true -> gs !! p = None.
Proof. unfold test_state. destruct (fails t); [by intros [= <-]|]. by destruct (gs !! p). Qed.
Definition test_daemon_with (fails blind : nat -> bool) : Daemon := {|
  d_lost _ _ := false; d_new := test_new fails; d_reply := test_reply fails; d_applied t _ := negb (fails t);
  d_state := test_state blind; d_bus _ := None; d_connected _ := true; d_index _ _ := Ok 1; d_over _ := false;
  d_new_fresh := test_new_fresh fails; d_reply_stale := test_reply_stale fails; d_state_stale := test_state_stale blind;
  d_index_plain t i e H := match (H : Ok 1 = Err e) with end
|}.

Definition test_daemon (fails : nat -> bool) : Daemon := test_daemon_with fails fails.

Definition avahi_config : DNSSDConfig :=
  {| Mode := "avahi"; Hostname := "proxy.local"; Interface := ""; AllowedAliases := []; modeSet := true |}.
Definition office (profiles : PublicationProfiles) (ty : string) : ServiceInput := {|
  iName := "Office"; iHostname := ""; iPort := 631; iIPPS := false; iInterface := "";
  iTXT := <["rp" := "ipp/office"]> (<["ty" := ty]> (<["pdl" := "application/pdf"]> ∅)); iGeoLocation := "";
  iProfiles := profiles; iProfilesSet := true; iMaxCollisionRetries := 0 |}.
Definition plain : PublicationProfiles := {| Ordinary := true; AirPrint := false; IPPEverywhere := false |}.
Definition everywhere : PublicationProfiles := {| Ordinary := true; AirPrint := false; IPPEverywhere := true |}.
Definition fresh_world : AvahiWorld :=
  {| w_pub := new_publisher; w_groups := ∅; w_unfreed := ∅; w_tick := 0 |}.

(** A daemon that does not answer from a tick on, for some ticks. *)
Definition down (from len : nat) : Daemon := test_daemon (fun t => (from <=? t)%nat && (t <? from + len)%nat).
Definition office_world (D : Daemon) : AvahiWorld := (run_op D avahi_config (OpUpdate LiveContext (office plain "A")) fresh_world).2.
Lemma office_world_reachable D : reachable D avahi_config (office_world D).
Proof. apply reach_op, reach_new. Qed.


Definition texts_of (w : AvahiWorld) : list (string * list (list string)) :=
  (fun '(path, g) => (path, flat_map (fun e => match e with EService _ _ _ _ txt => [txt] | _ => [] end) (g_entries g)))
  <$> map_to_list (w_groups w).
Definition office_update (D : Daemon) (input : ServiceInput) : (Status * option goerr) * AvahiWorld :=
  avahi_Update D avahi_config LiveContext input (office_world D).

(** The update of the data fails, and so do putting it back and freeing the
    group: the publisher keeps the group, which the daemon would not free. *)
Lemma avahi_groups_witness :
  let D := down 10 3 in let w := (office_update D (office plain "B")).2 in
  w_unfreed w = {["/group/2"]} /\ is_Some (current (w_pub w)) /\
  (forall q g, w_groups w !! q = Some g -> current (w_pub w) <> None /\ q = group (w_pub w) \/ q ∈ w_unfreed w).
Proof.
  intros D w. assert (w_unfreed w = {["/group/2"]}) as Hu by (vm_compute; reflexivity).
  assert (is_Some (current (w_pub w))) as Hc by (vm_compute; eexists; reflexivity).
  pose proof (reach_op D avahi_config (OpUpdate LiveContext (office plain "B")) _ (office_world_reachable D)) as Hr.
  destruct (avahi_groups D avahi_config _ Hr) as (Hall & _).
  exact (conj Hu (conj Hc Hall)).
Defined.

(** The update of the data succeeds. *)
Lemma avahi_published_witness :
  let D := down 0 0 in let '(s, e, w') := office_update D (office plain "B") in
  sState s = StatePublished /\ texts_of w' = [("/group/2", [["rp=ipp/office"; "ty=B"; "pdl=application/pdf"]; []])] /\
  exists pub, current (w_pub w') = Some pub /\
    forall g, w_groups w' !! group (w_pub w') = Some g -> g = {| g_entries := entries_of (pRecords pub); g_committed := true |}.
Proof.
  intros D.
  assert (sState (office_update D (office plain "B")).1.1 = StatePublished) as Hs by (vm_compute; reflexivity).
  assert (texts_of (office_update D (office plain "B")).2 =
    [("/group/2", [["rp=ipp/office"; "ty=B"; "pdl=application/pdf"]; []])]) as Ht by (vm_compute; reflexivity).
  destruct (office_update D (office plain "B")) as [[s e] w'] eqn:H.
  destruct (avahi_published D avahi_config _ _ _ _ _ _ (office_world_reachable D) H Hs)
    as (_ & _ & pub & _ & _ & Hc & _ & _ & _ & _ & Hg). exact (conj Hs (conj Ht (ex_intro _ pub (conj Hc Hg)))).
Defined.

Lemma avahi_withdrawn_witness :
  let D := down 0 0 in let '(s, e, w') := run_op D avahi_config (OpWithdraw LiveContext) (office_world D) in
  sState s = StateWithdrawn /\ w_unfreed w' = ∅ /\ forall q g, w_groups w' !! q = Some g -> q ∈ w_unfreed w'.
Proof.
  intros D.
  assert (sState (run_op D avahi_config (OpWithdraw LiveContext) (office_world D)).1.1 = StateWithdrawn) as Hs
    by (vm_compute; reflexivity).
  assert (w_unfreed (run_op D avahi_config (OpWithdraw LiveContext) (office_world D)).2 = ∅) as Hu
    by (vm_compute; reflexivity).
  destruct (run_op D avahi_config (OpWithdraw LiveContext) (office_world D)) as [[s e] w'] eqn:H.
  assert (OpWithdraw LiveContext <> OpClose) as Hop by discriminate.
  destruct (avahi_withdrawn D avahi_config (office_world D) (OpWithdraw LiveContext) s e w' (office_world_reachable D) Hop H (or_introl Hs))
    as (_ & _ & Hall).
  exact (conj Hs (conj Hu Hall)).
Defined.

(** The update of the data fails at one tick and the data is put back: the
    publication stays. *)
Lemma avahi_failed_update_witness :
  let D := test_daemon_with (fun t => (t =? 10)%nat) (fun _ => false) in
  let '(s, e, w') := office_update D (office plain "B") in
  sState s = StateDegraded /\ texts_of w' = [("/group/2", [["rp=ipp/office"; "ty=A"; "pdl=application/pdf"]; []])] /\
  is_Some (current (w_pub (office_world D))) /\ current (w_pub w') = current (w_pub (office_world D)).
Proof.
  intros D.
  assert (sState (office_update D (office plain "B")).1.1 = StateDegraded) as Hs by (vm_compute; reflexivity).
  assert (texts_of (office_update D (office plain "B")).2 =
    [("/group/2", [["rp=ipp/office"; "ty=A"; "pdl=application/pdf"]; []])]) as Ht by (vm_compute; reflexivity).
  assert (group (w_pub (office_world D)) = "/group/2") as Hg by (vm_compute; reflexivity).
  assert (is_Some (w_groups (office_world D) !! group (w_pub (office_world D)))) as Hin by (vm_compute; eexists; reflexivity).
  assert ((fun pub => restructures avahi_config pub (office plain "B")) <$> current (w_pub (office_world D)) = Some false) as Hkeep
    by (vm_compute; reflexivity).
  apply fmap_Some in Hkeep as (pub & Hpub & Hkeep). symmetry in Hkeep. rewrite Hpub.
  destruct (office_update D (office plain "B")) as [[s e] w'] eqn:H.
  cbn [fst snd] in Hs, Ht. assert (sState s <> StatePublished) as Hn by (rewrite Hs; discriminate).
  refine (conj Hs (conj Ht (conj (mk_is_Some _ _ eq_refl) _))).
  refine (proj1 (proj2 (proj2 (avahi_failed_update D avahi_config _ _ _ _ _ _ (office_world_reachable D) H Hn)) pub Hpub Hs Hkeep _ Hin)).
  rewrite Hg. split.
  - reflexivity.
  - intros t gs _ [g Hgs]. cbn. unfold test_state. rewrite Hgs. reflexivity.
  - exists 10%nat. intros t gs index name type txt _ Hne [g Hgs]. cbn. unfold test_reply.
    rewrite (proj2 (Nat.eqb_neq _ _) Hne). cbn. rewrite Hgs. reflexivity.
Defined.

(** A profile is added while the daemon does not make groups: the publication
    of before is gone. *)
Example failed_update_withdraws :
  let D := down 11 2 in let '(s, e, w') := office_update D (office everywhere "A") in
  is_Some (current (w_pub (office_world D))) /\ sState s = StateDegraded /\ current (w_pub w') = None /\ w_groups w' = ∅.
Proof. vm_compute. split_and!; [by eexists|reflexivity..]. Qed.
(** A changed port is not published: the update ends published with the port of
    before. *)
Example endpoint_kept :
  let D := down 0 0 in
  let '(s, e, w') := office_update D {| iName := "Office"; iHostname := "other.local"; iPort := 8631; iIPPS := false;
    iInterface := ""; iTXT := iTXT (office plain "A"); iGeoLocation := ""; iProfiles := plain; iProfilesSet := true;
    iMaxCollisionRetries := 0 |} in
  sState s = StatePublished /\ map_to_list (g_entries <$> w_groups w') = map_to_list (g_entries <$> w_groups (office_world D)).
Proof. vm_compute. split; reflexivity. Qed.
