(* ===== verification/Redaction.v ===== *)
(** * What reports and logs may show ([internal/proxy/dump.go, upstream.go], [internal/ipp/attrs.go])

    A URL is printed again without its user information, the values of
    attributes that hold secrets are left out, and the text of an error is
    cleaned of the URL of the printer. [url.URL] is printed as the package
    [net/url] prints it; the parts of a URL that [GoUrl.Parse] drops, since
    nothing else needs them, are taken from the text again ([Extras]). *)

From Stdlib Require Import ZArith Lia Ascii String.
From stdpp Require Import base tactics list strings.
From S2P Require Import Configuration.
From S2P Require Import Prelude GoString GoError GoUrl Goipp Messages.

(** ** Printing a URL *)

(** [url.Userinfo]: the name, and the password if there is one. *)
Abbreviation Userinfo := (string * option string)%type.
Definition Userinfo_String (u : Userinfo) : string :=
  escape encodeUserPassword (fst u) +:+
  match snd u with Some password => ":" +:+ escape encodeUserPassword password | None => "" end.

Record extras := { x_user : option Userinfo; ForceQuery : bool; RawFragment : string; OmitHost : bool }.
Definition no_extras : extras := {| x_user := None; ForceQuery := false; RawFragment := ""; OmitHost := false |}.

(** The user information of an authority. *)
Definition userinfo_of (authority : string) : option Userinfo :=
  match cut_last "@" authority with
  | None => None
  | Some (userinfo, _) =>
      let '(user, password, found) := cut ":" userinfo in
      user ← unescape encodeUserPassword user;
      if found then password ← unescape encodeUserPassword password; Some (user, Some password) else Some (user, None)
  end.
(** What [url.Parse] keeps of a text that it accepts, next to [GoUrl.Parse]. *)
Definition Extras (raw : string) : extras :=
  let '(u, frag, _) := cut "#" raw in
  let rawFragment := match unescape encodeFragment frag with
                     | Some f => if (frag =? escape encodeFragment f)%string then "" else frag
                     | None => "" end in
  match (if (u =? "*")%string then None else getScheme u) with
  | None => no_extras
  | Some (scheme, rest) =>
      let '(rest, query, found) := cut "?" rest in
      let authority := (negb (scheme =? "")%string || negb (HasPrefix rest "///")) && HasPrefix rest "//" in
      {| x_user := if authority then userinfo_of (fst (fst (cut "/" (sdrop 2 rest)))) else None;
         ForceQuery := found && (query =? "")%string; RawFragment := rawFragment;
         OmitHost := negb authority && negb (scheme =? "")%string && HasPrefix rest "/" |}
  end.

Definition EscapedFragment (u : URL) (x : extras) : string :=
  if negb (RawFragment x =? "")%string &&
     sall (fun c => in_set "!$&'()*+,;=:@[]%" c || negb (shouldEscape c encodeFragment)) (RawFragment x) &&
     bool_decide (unescape encodeFragment (RawFragment x) = Some (Fragment u))
  then RawFragment x else escape encodeFragment (Fragment u).

Definition is_empty (s : string) : bool := (s =? "")%string.

(** [u.String()]. *)
Definition URL_String (u : URL) (x : extras) : string :=
  let scheme := if is_empty (Scheme u) then "" else Scheme u +:+ ":" in
  let has_user := match x_user x with Some _ => true | None => false end in
  let main :=
    if negb (is_empty (Opaque u)) then scheme +:+ Opaque u else
    let authority :=
      if (negb (is_empty (Scheme u)) || negb (is_empty (Host u)) || has_user) &&
         negb (OmitHost x && is_empty (Host u) && negb has_user)
      then (if negb (is_empty (Host u)) || negb (is_empty (Path u)) || has_user then "//" else "") +:+
           match x_user x with Some ui => Userinfo_String ui +:+ "@" | None => "" end +:+
           escape encodeHost (Host u)
      else "" in
    let path := EscapedPath u in
    let slash := if negb (is_empty path) && negb (HasPrefix path "/") && negb (is_empty (Host u)) then "/" else "" in
    let start := scheme +:+ authority +:+ slash in
    start +:+ (if is_empty start && ContainsChar (fst (fst (cut "/" path))) ":" then "./" else "") +:+ path in
  main +:+ (if ForceQuery x || negb (is_empty (RawQuery u)) then "?" +:+ RawQuery u else "") +:+
  (if is_empty (Fragment u) then "" else "#" +:+ EscapedFragment u x).

Definition with_user (ui : option Userinfo) (x : extras) : extras :=
  {| x_user := ui; ForceQuery := ForceQuery x; RawFragment := RawFragment x; OmitHost := OmitHost x |}.

(** ** Texts *)

(** [strings.ReplaceAll]. *)
Fixpoint replace_from (old new : string) (skip : nat) (s : string) : string :=
  match s with
  | EmptyString => EmptyString
  | String c r =>
      match skip with
      | Datatypes.S skip => replace_from old new skip r
      | O => if HasPrefix s old then new +:+ replace_from old new (slen old - 1) r else String c (replace_from old new 0 r)
      end
  end.
Fixpoint between_all (new s : string) : string :=
  match s with EmptyString => new | String c r => new +:+ String c (between_all new r) end.
Definition ReplaceAll (s old new : string) : string :=
  if (old =? new)%string then s else if is_empty old then between_all new s else replace_from old new 0 s.

Section redaction.
Context `{I : IPLiterals} `{U : UrlErrors}.

Definition redactDumpString (value : string) : string :=
  match Parse value with
  | Some parsed => if User parsed then URL_String parsed (with_user (Some ("redacted", None)) (Extras value)) else value
  | None => value
  end.

(** [net.JoinHostPort]. *)
Definition JoinHostPort (host port : string) : string :=
  if ContainsChar host ":" then "[" +:+ host +:+ "]:" +:+ port else host +:+ ":" +:+ port.
Definition with_scheme (scheme host : string) (u : URL) : URL := {|
  Scheme := scheme; Opaque := Opaque u; User := User u; Host := host; Path := Path u; RawPath := RawPath u;
  RawQuery := RawQuery u; Fragment := Fragment u |}.
(** The host of a printer, with the port of IPP unless it has one. *)
Definition printer_host (u : URL) : string := if is_empty (Port u) then JoinHostPort (Hostname u) "631" else Host u.
Definition HTTPURLFromIPP (raw : string) : res goerr string :=
  match Parse raw with
  | None => Err (parse_error raw)
  | Some u =>
      if is_empty (Hostname u) then Err (EText "IPP URI must include a host") else
      let print u := Ok (URL_String u (Extras raw)) in
      let scheme := ToLower (Scheme u) in
      if (scheme =? "ipp")%string then print (with_scheme "http" (printer_host u) u)
      else if (scheme =? "ipps")%string then print (with_scheme "https" (printer_host u) u)
      else if in_strings scheme ["http"; "https"]%string then print u
      else Err (EText ("unsupported upstream URI scheme " +:+ Quote (Scheme u)))
  end.

Definition safeProbeError (err : option string) (upstreamURI : string) : string :=
  match err with
  | None => ""
  | Some message =>
      let message := ReplaceAll message upstreamURI (redactDumpString upstreamURI) in
      match HTTPURLFromIPP upstreamURI with
      | Ok converted => ReplaceAll message converted (redactDumpString converted)
      | Err _ => message
      end
  end.
Definition diagnosticError (message upstreamURI : string) : string :=
  if is_empty message then "" else safeProbeError (Some message) upstreamURI.

(** ** Attributes *)

Definition sensitiveDumpAttribute (name : string) : bool :=
  existsb (Contains (ToLower name)) ["password"; "credential"; "secret"; "auth-info"; "access-token"; "private-key"]%string.
End redaction.

(** A value of a report, as [encoding/json] gets it. *)
Inductive dumped : Type :=
| DNull
| DText (s : string)
| DInt (z : Z)
| DBool (b : bool)
| DRange (lower upper : Z)
| DResolution (xres yres : Z) (units : string)
| DBytes (content : string)
| DAttributes (l : list (string * list (string * dumped))).

(** What else the library knows of values: the kinds of [VOther] that are
    [goipp.Binary], the text of the units of a resolution. *)
Class DumpLib := { is_binary : Z -> bool; units_String : Z -> string }.

(** The order of a report: names up to case, then names. *)
Definition name_less (l r : string) : bool :=
  if (ToLower l =? ToLower r)%string then String.ltb l r else String.ltb (ToLower l) (ToLower r).
Section sort.
Context {A : Type} (less : A -> A -> bool).
(** [sort.SliceStable]: each element behind the ones of the rest that are less. *)
Fixpoint insert_stable (x : A) (l : list A) : list A :=
  match l with [] => [x] | y :: r => if less y x then y :: insert_stable x r else x :: l end.
Definition SliceStable (l : list A) : list A := foldr insert_stable [] l.
End sort.
Definition attr_less (l r : Attribute) : bool := name_less (aName l) (aName r).

Section dump.
Context `{I : IPLiterals} `{G : GoippLib} `{D : DumpLib}.

Fixpoint dumpValue (value : Value) : dumped :=
  let dumpAttribute := fun attr : Attribute =>
    (aName attr, map (fun tv : TValue =>
       (tag_String (val_T tv), if sensitiveDumpAttribute (aName attr) then DText "[redacted]" else dumpValue (val_V tv)))
       (aValues attr)) in
  match value with
  | VNil => DNull
  | VString s => DText (redactDumpString s)
  | VInteger z => DInt z
  | VBoolean b => DBool b
  | VRange lo hi => DRange lo hi
  | VResolution x y u => DResolution x y (units_String u)
  | VCollection attrs => DAttributes (SliceStable (fun l r => name_less (fst l) (fst r)) (map dumpAttribute attrs))
  | VOther kind content => if is_binary kind then DBytes content else DText (redactDumpString (value_String value))
  end.
Definition dumpAttribute (attr : Attribute) : string * list (string * dumped) :=
  (aName attr, map (fun tv =>
     (tag_String (val_T tv), if sensitiveDumpAttribute (aName attr) then DText "[redacted]" else dumpValue (val_V tv)))
     (aValues attr)).
Definition dumpAttributes (attrs : Attributes) : list (string * list (string * dumped)) :=
  map dumpAttribute (SliceStable attr_less attrs).

(** ** Logs *)

Definition logValues (values : list TValue) : list (string * string) :=
  map (fun tv => (tag_String (val_T tv), match val_V tv with
                                         | VNil => "<nil>"%string
                                         | v => redactDumpString (value_String v) end)) values.
Definition logAttributes (attrs : Attributes) : list (string * list (string * string)) :=
  map (fun attr => (aName attr,
    let values := logValues (aValues attr) in
    if sensitiveDumpAttribute (aName attr) then map (fun v => (fst v, "[redacted]"%string)) values else values)) attrs.
Definition logMessageGroups (msg : Message) : list (string * list (string * list (string * string))) :=
  match Groups msg with
  | Some groups => map (fun g => (tag_String (Tag g), logAttributes (Attrs g))) groups
  | None =>
      flat_map (fun '(name, attrs) => match attrs with [] => [] | _ => [(name, logAttributes attrs)] end)
        [("operation-attributes-tag", Operation msg); ("job-attributes-tag", Job msg);
         ("printer-attributes-tag", Printer msg); ("unsupported-attributes-tag", Unsupported msg);
         ("subscription-attributes-tag", Subscription msg); ("event-notification-attributes-tag", EventNotification msg);
         ("resource-attributes-tag", Resource msg); ("document-attributes-tag", Document msg);
         ("system-attributes-tag", System msg)]%string
  end.
End dump.
