(* ===== verification/Lifecycle.v ===== *)
(** * Refreshes and publication of the queues ([internal/proxy/service.go])

    What the service keeps of each queue, and the goroutines that change it: the
    loops that refresh the queues and clean up, the refreshes, the retries of a
    publication and of a withdrawal, and [Close], which waits for the loops and
    the retries.
    What a goroutine does while it holds the lock of the service, or within one
    call of a publisher, is one step; the steps of the goroutines are
    interleaved in any order ([step]). A goroutine is a number. Of a run of the
    maintenance only its begin and its end are here: what it does, it does to the
    store, and it changes nothing of this state ([Reconcile.v]). Logging and
    statistics are left out. *)

From Stdlib Require Import ZArith Lia Ascii String.
From stdpp Require Import base tactics list strings gmap.
From S2P Require Import DnsSd Urf Routing.
From S2P Require Import Prelude GoString GoError GoTime GoUrl Goipp IppAttrs MediaCatalog Normalizer Formats Messages.
From S2P Require Import Configuration PrinterDescription Capabilities Discovery Publisher.

(** [attrs.Similar(other)] of the library: equal up to the order of attributes. *)
Class Similarity := {
  Similar : Attributes -> Attributes -> bool;
  Similar_refl attrs : Similar attrs attrs = true
}.

(** ** What the service keeps *)

Record queueHealth := {
  OrdinaryReady : bool; AirPrintReady : bool; AirPrintReason : string; IPPEverywhereReady : bool; IPPEverywhereReason : string;
  ProfileWarnings : list string; LastSuccess : time; LastAttempt : time; LastError : string; DNSDegraded : bool;
  DNSState : string; DNSName : string; DNSLastAttempt : time; DNSLastPublished : time; DNSLastError : string; DNSAttempts : Z;
  IPPEligible : bool; LastTranslationError : string
}.
Definition no_health : queueHealth := {|
  OrdinaryReady := false; AirPrintReady := false; AirPrintReason := ""; IPPEverywhereReady := false; IPPEverywhereReason := "";
  ProfileWarnings := []; LastSuccess := 0; LastAttempt := 0; LastError := ""; DNSDegraded := false;
  DNSState := ""; DNSName := ""; DNSLastAttempt := 0; DNSLastPublished := 0; DNSLastError := ""; DNSAttempts := 0;
  IPPEligible := false; LastTranslationError := "" |}.

(** [recordDNSStatus]. *)
Definition noted (now : time) (status : Status) (h : queueHealth) : queueHealth :=
  let in_state state := (sState status =? state)%string in
  {| OrdinaryReady := OrdinaryReady h; AirPrintReady := AirPrintReady h; AirPrintReason := AirPrintReason h;
     IPPEverywhereReady := IPPEverywhereReady h; IPPEverywhereReason := IPPEverywhereReason h;
     ProfileWarnings := ProfileWarnings h; LastSuccess := LastSuccess h; LastAttempt := LastAttempt h; LastError := LastError h;
     DNSDegraded := in_state StateDegraded; DNSState := sState status;
     DNSName := if in_state StateWithdrawn || in_state StateDisabled then ""
                else if (sName status =? "")%string then DNSName h else sName status;
     DNSLastAttempt := now;
     DNSLastPublished := if in_state StatePublished then now else DNSLastPublished h;
     DNSLastError := if in_state StatePublished || in_state StateWithdrawn || in_state StateDisabled then ""
                     else match sErr status with Some err => Error_text err | None => DNSLastError h end;
     DNSAttempts := sAttempts status; IPPEligible := IPPEligible h; LastTranslationError := LastTranslationError h |}.
(** What a refresh records of its model. *)
Definition refreshed (now : time) (profiles : CapabilityProfiles) (warnings : list string) (h : queueHealth) : queueHealth := {|
  OrdinaryReady := prReady (pfOrdinary profiles); AirPrintReady := prReady (pfAirPrint profiles);
  AirPrintReason := prReason (pfAirPrint profiles); IPPEverywhereReady := prReady (pfIPPEverywhere profiles);
  IPPEverywhereReason := prReason (pfIPPEverywhere profiles); ProfileWarnings := warnings;
  LastSuccess := now; LastAttempt := LastAttempt h; LastError := ""; DNSDegraded := DNSDegraded h; DNSState := DNSState h;
  DNSName := DNSName h; DNSLastAttempt := DNSLastAttempt h; DNSLastPublished := DNSLastPublished h;
  DNSLastError := DNSLastError h; DNSAttempts := DNSAttempts h; IPPEligible := prReady (pfIPPEverywhere profiles);
  LastTranslationError := LastTranslationError h |}.
(** What the end of a refresh records. *)
Definition attempted (now : time) (err : option goerr) (h : queueHealth) : queueHealth := {|
  OrdinaryReady := OrdinaryReady h; AirPrintReady := AirPrintReady h; AirPrintReason := AirPrintReason h;
  IPPEverywhereReady := IPPEverywhereReady h; IPPEverywhereReason := IPPEverywhereReason h;
  ProfileWarnings := ProfileWarnings h; LastSuccess := LastSuccess h; LastAttempt := now;
  LastError := match err with Some err => Error_text err | None => LastError h end;
  DNSDegraded := DNSDegraded h; DNSState := DNSState h; DNSName := DNSName h; DNSLastAttempt := DNSLastAttempt h;
  DNSLastPublished := DNSLastPublished h; DNSLastError := DNSLastError h; DNSAttempts := DNSAttempts h;
  IPPEligible := IPPEligible h; LastTranslationError := LastTranslationError h |}.

(** The maps of the service; [publishers] are the publishers with what they
    publish to. *)
Record Service (P : Type) := {
  configChangedAt : gmap string time;
  capabilities : gmap string Attributes;
  capabilityModels : gmap string CapabilityModel;
  health : gmap string queueHealth;
  publishers : gmap string P;
  dnsRetrying : gmap string bool;
  refreshing : gmap string bool;
  closing : bool
}.
Arguments configChangedAt {P} s : rename.
Arguments capabilities {P} s : rename.
Arguments capabilityModels {P} s : rename.
Arguments health {P} s : rename.
Arguments publishers {P} s : rename.
Arguments dnsRetrying {P} s : rename.
Arguments refreshing {P} s : rename.
Arguments closing {P} s : rename.

Section setters.
Context {P : Type}.
Implicit Types s : Service P.
Definition set_committed epochs caps models hs s : Service P :=
  Build_Service P epochs caps models hs (publishers s) (dnsRetrying s) (refreshing s) (closing s).
Definition set_health hs s : Service P := set_committed (configChangedAt s) (capabilities s) (capabilityModels s) hs s.
Definition set_publishers ps s : Service P :=
  Build_Service P (configChangedAt s) (capabilities s) (capabilityModels s) (health s) ps (dnsRetrying s) (refreshing s) (closing s).
Definition set_flags retrying refresh close s : Service P :=
  Build_Service P (configChangedAt s) (capabilities s) (capabilityModels s) (health s) (publishers s) retrying refresh close.
Definition on_health (queue : string) (f : queueHealth -> queueHealth) s : Service P :=
  set_health (<[queue := f (default no_health (health s !! queue))]> (health s)) s.
Definition set_retrying (queue : string) (b : bool) s : Service P :=
  set_flags (<[queue := b]> (dnsRetrying s)) (refreshing s) (closing s) s.
Definition set_refreshing f s : Service P := set_flags (dnsRetrying s) (f (refreshing s)) (closing s) s.
Definition is_retrying (queue : string) s : bool := default false (dnsRetrying s !! queue).
End setters.

Definition recordDNSStatus {P} (queue : string) (now : time) (status : Status) : Service P -> Service P :=
  on_health queue (noted now status).

(** [DefaultsConfig.MaxConcurrentPayloadJobsPerQueue] is not part of this state. *)
Definition NewService {P} (cfg : Config) (startedAt : time) (publisher : P) : Service P := {|
  configChangedAt := (fun _ => startedAt) <$> Printers cfg; capabilities := ∅; capabilityModels := ∅; health := ∅;
  publishers := (fun _ => publisher) <$> Printers cfg; dnsRetrying := ∅; refreshing := ∅; closing := false |}.

(** ** Epochs *)

Definition volatilePrinterAttribute (name : string) : bool :=
  HasSuffix name "-ready" ||
  in_strings name
    ["printer-state"; "printer-state-reasons"; "printer-state-message"; "printer-is-accepting-jobs";
     "printer-up-time"; "printer-current-time"; "current-time";
     "printer-config-change-time"; "printer-config-change-date-time";
     "queued-job-count"; "jobs-completed"; "pages-completed";
     "marker-levels"; "marker-high-levels"; "marker-low-levels"; "marker-colors"; "marker-names"; "marker-types";
     "input-tray"; "output-bin"; "printer-supply"]%string.
Definition stablePrinterAttributes (attrs : Attributes) : Attributes :=
  List.filter (fun attr => negb (volatilePrinterAttribute (ToLower (TrimSpace (aName attr))))) attrs.

(** [advanceConfigEpochLocked]. *)
Definition advanceConfigEpoch (queue : string) (now : time) (epochs : gmap string time) : gmap string time :=
  let previous := default 0 (epochs !! queue) in
  let now := if negb (IsZero previous) && negb (After now previous) then Add previous Nanosecond else now in
  <[queue := now]> epochs.

(** ** A refresh *)

(** What is done about the publication of a queue. *)
Inductive dns_action : Type := DoWithdraw | DoUpdate (input : ServiceInput) | Invalid (err : goerr).

Section lifecycle.
Context `{G : GoippLib} `{U : UUIDs} `{R : MapRange} `{I : IPLiterals} `{Sim : Similarity} {P : Type} `{Pub : Publisher P}.
Context (cfg : Config) (startedAt : time).
Implicit Types s : Service P.

Definition printerURI (queue : string) : string := TrimRight (PublicBaseURL (Listen cfg)) "/" +:+ "/" +:+ queue.
Definition identity_of (queue : string) (now : time) s : PrinterIdentityMetadata :=
  proxyPrinterIdentity (printerURI queue) now startedAt (default 0 (configChangedAt s !! queue)).

(** [UpstreamClient.GetPrinterAttributes]: the request, and what is made of the
    decoded answer. *)
Definition probe_request (upstreamURI : string) (now : time) : Message :=
  let req := NewRequest DefaultVersion OpGetPrinterAttributes (u32 (now - unix_epoch)) in
  set_Operation (BasicOperationAttrs upstreamURI ++ [MakeAttribute "requested-attributes" TagKeyword (VString "all")]) req.
Definition GetPrinterAttributes (upstreamURI : string) (now : time) (answer : res goerr Response) : res goerr Response :=
  resp ← answer;
  match checkUpstreamResponse (probe_request upstreamURI now) resp with Some text => Err (EText text) | None => Ok resp end.

(** The description, the policy and the warnings of an answer. *)
Definition accept (printer : PrinterConfig) (resp : Response) : res goerr (Attributes * PolicyConfig * list string) :=
  if StatusErrorBadRequest <=? resCode resp then Err (EText ("upstream returned " +:+ status_String (resCode resp))) else
  let upstream := default [] (resPrinter resp) in
  match ProjectPolicyAgainstUpstream upstream (settings (Policy printer)) with
  | (_, Err err) => Err err
  | (warnings, Ok policy) => Ok (upstream, policy, warnings)
  end.
Definition model_of (queue : string) (printer : PrinterConfig) (upstream : Attributes) (policy : PolicyConfig)
    (warnings : list string) (identity : PrinterIdentityMetadata) : CapabilityModel :=
  NewCapabilityModel upstream queue (printerURI queue) printer
    {| oOperations := Some (proxySupportedOperations upstream); oDisabled := false; oEffectivePolicy := policy;
       oPracticalProfiles := true; oWarnings := warnings |} (Some identity).

(** Whether a refresh begins a new epoch of the queue. *)
Definition changes (queue : string) (upstream : Attributes) (policy : PolicyConfig) (model : CapabilityModel) s : bool :=
  match capabilities s !! queue, capabilityModels s !! queue with
  | Some previous, Some previousModel =>
      negb (Similar (stablePrinterAttributes previous) (stablePrinterAttributes upstream)) ||
      negb (sameCapabilityProfiles (mProfiles previousModel) (mProfiles model)) ||
      negb (samePolicySnapshot (mPolicy previousModel) policy)
  | _, _ => true
  end.
Definition commit (queue : string) (upstream : Attributes) (policy : PolicyConfig) (model : CapabilityModel)
    (epoch_now now : time) s : Service P :=
  set_committed
    (if changes queue upstream policy model s then advanceConfigEpoch queue epoch_now (configChangedAt s) else configChangedAt s)
    (<[queue := upstream]> (capabilities s)) (<[queue := model]> (capabilityModels s))
    (<[queue := refreshed now (mProfiles model) (mWarnings model) (default no_health (health s !! queue))]> (health s)) s.

(** ** Publication *)

(** [!profiles.Ordinary.Ready || !printer.DNSSD || s.cfg.DNSSD.Mode == config.DNSModeOff] *)
Definition not_published (printer : PrinterConfig) (profiles : CapabilityProfiles) : bool :=
  negb (prReady (pfOrdinary profiles)) || negb (DNSSD printer) || (Mode (DNSSDSection cfg) =? DNSModeOff)%string.
Definition profiles_of (queue : string) (printer : PrinterConfig) s : CapabilityProfiles :=
  profilesLocked (capabilityModels s !! queue) printer (printerURI queue) (default [] (capabilities s !! queue)).
(** [dnsServiceInputWithProfiles], as an action. *)
Definition input_action (queue : string) (printer : PrinterConfig) (upstream : Attributes) (profiles : CapabilityProfiles)
    (localHostname : option string) (now : time) s : dns_action :=
  match dnsServiceInputWithProfiles (DNSSDSection cfg) localHostname (printerURI queue) printer upstream
          (clientCapabilities (capabilityModels s !! queue) queue (printerURI queue) printer upstream (identity_of queue now s))
          profiles with
  | Ok input => DoUpdate input
  | Err err => Invalid err
  end.
(** The call of the publisher; [Invalid] is no call. *)
Definition call_publisher (ctx : Context) (action : dns_action) (p : P) : (Status * option goerr) * P :=
  match action with
  | DoWithdraw => Withdraw ctx p
  | DoUpdate input => Update ctx input p
  | Invalid err => (degraded "" err, None, p)
  end.
(** [if err != nil && status.Err == nil { status.Err = err; status.State = ... }] *)
Definition with_error (degrade : bool) (r : Status * option goerr) : Status :=
  let '(status, err) := r in
  match err, sErr status with
  | Some err, None => {| sState := if degrade then StateDegraded else sState status; sName := sName status;
                         sAttempts := sAttempts status; sErr := Some err |}
  | _, _ => status
  end.

(** ** Goroutines *)

Inductive refresh_stage : Type :=
| Asking
| Committing (upstream : Attributes) (policy : PolicyConfig) (model : CapabilityModel)
| Syncing (upstream : Attributes) (profiles : CapabilityProfiles)
| Calling (action : dns_action)
| Recording (action : dns_action) (status : Status)
| Scheduling (action : dns_action)
| Ending (err : option goerr).
Inductive retry_stage : Type :=
| Waiting
| Reading (profiles : CapabilityProfiles)
| Preparing (profiles : CapabilityProfiles) (upstream : Attributes)
| Retrying (action : dns_action)
| Noting (action : dns_action) (status : Status).
(** A refresh, and a retry loop: [name] is the name of the input of a
    publication, [None] for a withdrawal. *)
Inductive thread : Type :=
| Refresh (queue : string) (stage : refresh_stage)
| Retry (queue : string) (name : option string) (attempt : nat) (delay : Z) (stage : retry_stage).
Definition is_retry (t : thread) : bool := match t with Retry _ _ _ _ _ => true | Refresh _ _ => false end.
Definition thread_queue (t : thread) : string := match t with Refresh q _ | Retry q _ _ _ _ => q end.

Definition max_retries : nat := 6.
Definition first_delay : Z := Second.
Definition next_delay (delay : Z) : Z := if delay <? 16 * Second then delay * 2 else delay.

(** The goroutines of [StartRefreshLoop], with the queues it still has to launch
    a loop for, of such a loop, and of [StartMaintenanceLoop], with whether
    [runMaintenance] runs. While a loop of a queue refreshes it, the goroutine
    is a [Refresh] among the threads as well. *)
Inductive turn : Type := Opening | Due | Selecting.
Inductive loop : Type :=
| RefreshLoop (queues : list string)
| QueueLoop (queue : string) (stage : turn)
| MaintenanceLoop (running : bool).

(** The loops [s.loopWG] counts are kept with the context of their caller;
    [w_ended] are the contexts of callers that have ended. *)
Record World := {
  w_service : Service P; w_threads : gmap nat thread; w_closed : bool;
  w_loops : gmap nat (nat * loop); w_ended : gset nat
}.
(** A goroutine there is not yet. *)
Definition next_goroutine (w : World) : nat := fresh (dom (w_threads w) ∪ dom (w_loops w)).
Definition set_threads (s : Service P) (threads : gmap nat thread) (w : World) : World := {|
  w_service := s; w_threads := threads; w_closed := w_closed w; w_loops := w_loops w; w_ended := w_ended w |}.
Definition set_loops (loops : gmap nat (nat * loop)) (w : World) : World := {|
  w_service := w_service w; w_threads := w_threads w; w_closed := w_closed w; w_loops := loops; w_ended := w_ended w |}.

(** What happens to a goroutine [t]: a new refresh, its answer, the clock, the
    context of a call, a timer that fires or a context that ends; a new loop, the
    end of its caller's context, its next turn, a tick of its ticker, or that it
    returns. *)
Inductive event : Type :=
| StartRefresh (queue : string)
| Answer (now asked : time) (answer : res goerr Response)
| Commit (epoch_now now : time)
| Sync (localHostname : option string) (now : time)
| Call (ctx : Context)
| Record_ (now : time)
| Schedule
| End_ (now : time)
| Timer
| Cancel
| StartRefreshLoop (caller : nat)
| StartMaintenanceLoop (caller : nat)
| EndCaller (caller : nat)
| Turn
| Tick
| Leave
| CloseService
| ClosePublishers.

(** A step of a refresh: the next stage, or the end of it. *)
Definition refresh_step (e : event) (queue : string) (printer : PrinterConfig) (stage : refresh_stage) s
    : option (option refresh_stage * Service P) :=
  match stage, e with
  | Asking, Answer now asked answer =>
      Some (match GetPrinterAttributes (UpstreamURI printer) asked answer ≫= accept printer with
            | Err err => Some (Ending (Some err))
            | Ok (upstream, policy, warnings) =>
                Some (Committing upstream policy (model_of queue printer upstream policy warnings (identity_of queue now s)))
            end, s)
  | Committing upstream policy model, Commit epoch_now now =>
      Some (Some (Syncing upstream (mProfiles model)), commit queue upstream policy model epoch_now now s)
  | Syncing upstream profiles, Sync localHostname now =>
      Some (match publishers s !! queue with
            | None => Some (Ending None)
            | Some _ =>
                if not_published printer profiles then Some (Calling DoWithdraw)
                else Some (Calling (input_action queue printer upstream profiles localHostname now s))
            end, s)
  | Calling action, Call ctx =>
      match publishers s !! queue with
      | None => None
      | Some p =>
          let '(r, p') := call_publisher ctx action p in
          Some (Some (Recording action (with_error true r)), set_publishers (<[queue := p']> (publishers s)) s)
      end
  | Recording action status, Record_ now =>
      let retry := (sState status =? StateDegraded)%string && match action with Invalid _ => false | _ => true end in
      Some (Some (if retry then Scheduling action else Ending None), recordDNSStatus queue now status s)
  | Scheduling action, Schedule =>
      Some (Some (Ending None), if closing s || is_retrying queue s then s else set_retrying queue true s)
  | Ending err, End_ now => Some (None, on_health queue (attempted now err) (set_refreshing (delete queue) s))
  | _, _ => None
  end.
(** The retry loop a refresh leaves behind. *)
Definition scheduled (queue : string) (stage : refresh_stage) s : option thread :=
  match stage with
  | Scheduling action =>
      if closing s || is_retrying queue s then None
      else Some (Retry queue (match action with DoUpdate input => Some (iName input) | _ => None end) 0 first_delay Waiting)
  | _ => None
  end.

(** The context of the retries, [s.dnsCtx]. *)
Definition dns_context s : Context := if closing s then DoneContext Canceled else LiveContext.

(** A step of a retry loop is the next attempt, delay and stage, or its end. The
    end of an attempt: [again] after a degraded status, the end of the loop
    after any other. *)
Definition retry_result : Type := option (option (nat * Z * retry_stage) * Service P).
Definition stop_retry (queue : string) s : retry_result := Some (None, set_retrying queue false s).
Definition again (queue : string) (attempt : nat) (delay : Z) s : retry_result :=
  if (S attempt <? max_retries)%nat then Some (Some (S attempt, delay, Waiting), s) else stop_retry queue s.
Definition attempt_noted (queue : string) (attempt : nat) (delay : Z) (status : Status) (now : time) s : retry_result :=
  let s := recordDNSStatus queue now status s in
  if (sState status =? StateDegraded)%string then again queue attempt (next_delay delay) s else stop_retry queue s.
(** A call of the publisher in an attempt, with the context of the service. *)
Definition attempt_call (queue : string) (degrade : bool) (attempt : nat) (delay : Z) (action : dns_action) s : retry_result :=
  match publishers s !! queue with
  | None => None
  | Some p =>
      let '(r, p') := call_publisher (dns_context s) action p in
      Some (Some (attempt, delay, Noting action (with_error degrade r)), set_publishers (<[queue := p']> (publishers s)) s)
  end.
(** The loop of [scheduleDNSWithdrawRetry]. *)
Definition withdraw_retry_step (e : event) (queue : string) (attempt : nat) (delay : Z) (stage : retry_stage) s : retry_result :=
  match stage, e with
  | Waiting, Timer => Some (Some (attempt, delay, Retrying DoWithdraw), s)
  | Waiting, Cancel => if closing s then stop_retry queue s else None
  | Retrying action, Call _ => attempt_call queue true attempt delay action s
  | Noting action status, Record_ now => attempt_noted queue attempt delay status now s
  | _, _ => None
  end.
(** The loop of [scheduleDNSRetry]; [name] is the one of its first input. *)
Definition update_retry_step (e : event) (queue : string) (printer : PrinterConfig) (name : string) (attempt : nat) (delay : Z)
    (stage : retry_stage) s : retry_result :=
  let go stage := Some (Some (attempt, delay, stage), s) in
  match stage, e with
  | Waiting, Timer =>
      let profiles := profiles_of queue printer s in
      if not_published printer profiles then stop_retry queue s else go (Reading profiles)
  | Waiting, Cancel => stop_retry queue s
  | Reading profiles, Sync _ _ => go (Preparing profiles (default [] (capabilities s !! queue)))
  | Preparing profiles upstream, Sync localHostname now =>
      match input_action queue printer upstream profiles localHostname now s with
      | Invalid err => go (Noting (Invalid err) (degraded name err))
      | action => go (Retrying action)
      end
  | Retrying action, Call _ => attempt_call queue false attempt delay action s
  | Noting (Invalid _) status, Record_ now => again queue attempt delay (recordDNSStatus queue now status s)
  | Noting action status, Record_ now => attempt_noted queue attempt delay status now s
  | _, _ => None
  end.
(** A loop that withdraws never reaches the stages of an input. *)
Definition retry_step (e : event) (queue : string) (printer : PrinterConfig) (name : option string) (attempt : nat) (delay : Z)
    (stage : retry_stage) s : retry_result :=
  match name, stage with
  | None, (Waiting | Retrying _ | Noting _ _) => withdraw_retry_step e queue attempt delay stage s
  | _, _ => update_retry_step e queue printer (default ""%string name) attempt delay stage s
  end.

(** ** The loops *)

Definition printerAvailable (queue : string) s : bool := bool_decide (is_Some (capabilities s !! queue)).

(** A step of a loop: the next stage, or the end of it. A loop that waits returns
    when its context is done; it may take a tick before it sees that. *)
Definition loop_step (e : event) (done : bool) (l : loop) s : option (option loop) :=
  match l, e with
  | RefreshLoop (_ :: queues), Turn => Some (Some (RefreshLoop queues))
  | QueueLoop queue Opening, Turn => Some (Some (QueueLoop queue (if printerAvailable queue s then Selecting else Due)))
  | QueueLoop queue Due, Turn => Some (Some (QueueLoop queue Selecting))
  | QueueLoop queue Selecting, Tick => Some (Some (QueueLoop queue Due))
  | MaintenanceLoop true, Turn => Some (Some (MaintenanceLoop false))
  | MaintenanceLoop false, Tick => Some (Some (MaintenanceLoop true))
  | (RefreshLoop [] | QueueLoop _ Selecting | MaintenanceLoop false), Leave => if done then Some None else None
  | _, _ => None
  end.
(** The queue a loop is launched for, and the queue a loop begins to refresh. *)
Definition launches (l : loop) : option string := match l with RefreshLoop (queue :: _) => Some queue | _ => None end.
Definition begins (l : loop) : option string := match l with QueueLoop queue Due => Some queue | _ => None end.
(** [<-loopCtx.Done()]: the context of the service or of the caller has ended. *)
Definition loop_done (caller : nat) (w : World) : bool := closing (w_service w) || bool_decide (caller ∈ w_ended w).

(** A step of the loop [t], which is not one of its refresh. *)
Definition step_loop (t : nat) (e : event) (w : World) : option World :=
  let s := w_service w in
  match w_loops w !! t, w_threads w !! t with
  | Some (caller, l), None =>
      next ← loop_step e (loop_done caller w) l s;
      let loops := match next with Some l' => <[t := (caller, l')]> (w_loops w) | None => delete t (w_loops w) end in
      match launches l, begins l with
      | Some queue, _ => Some (set_loops (<[next_goroutine w := (caller, QueueLoop queue Opening)]> loops) w)
      | None, Some queue =>
          Some (set_loops loops (set_threads (set_refreshing (insert queue true) s) (<[t := Refresh queue Asking]> (w_threads w)) w))
      | None, None => Some (set_loops loops w)
      end
  | _, _ => None
  end.
(** [beginManagedLoop] in the new goroutine [t]: a service that closes starts
    none, and the call returns. *)
Definition begin_loop (t caller : nat) (l : loop) (w : World) : option World :=
  if closing (w_service w) then Some w else
  match w_threads w !! t, w_loops w !! t with
  | None, None => Some (set_loops (<[t := (caller, l)]> (w_loops w)) w)
  | _, _ => None
  end.

(** ** The service *)

Definition new_world (publisher : P) : World := {|
  w_service := NewService cfg startedAt publisher; w_threads := ∅; w_closed := false; w_loops := ∅; w_ended := ∅ |}.

Definition no_retries (threads : gmap nat thread) : bool :=
  forallb (fun '(_, t) => negb (is_retry t)) (map_to_list threads).

(** [publisher.Close()] for all of them. *)
Definition close_publishers s : Service P := set_publishers ((fun p => (Close p).2) <$> publishers s) s.

(** An event of the goroutine [t]; [CloseService] and [ClosePublishers] are the
    two halves of [Close], and have no goroutine of their own. Between them
    [Close] waits for the loops, then for the retries; no loop is begun
    meanwhile, so that at the end of the second wait there is none of either. *)
Definition step (t : nat) (e : event) (w : World) : option World :=
  let s := w_service w in
  match e with
  | CloseService => Some (set_threads (set_flags (dnsRetrying s) (refreshing s) true s) (w_threads w) w)
  | ClosePublishers =>
      if closing s && bool_decide (w_loops w = ∅) && no_retries (w_threads w)
      then Some {| w_service := close_publishers s; w_threads := w_threads w; w_closed := true;
                   w_loops := w_loops w; w_ended := w_ended w |} else None
  | StartRefresh queue =>
      match w_threads w !! t, w_loops w !! t, Printers cfg !! queue with
      | None, None, Some _ => Some (set_threads (set_refreshing (insert queue true) s) (<[t := Refresh queue Asking]> (w_threads w)) w)
      | _, _, _ => None
      end
  | StartRefreshLoop caller => begin_loop t caller (RefreshLoop (map fst (range (Printers cfg)))) w
  | StartMaintenanceLoop caller => begin_loop t caller (MaintenanceLoop true) w
  | EndCaller caller =>
      Some {| w_service := s; w_threads := w_threads w; w_closed := w_closed w; w_loops := w_loops w; w_ended := {[caller]} ∪ w_ended w |}
  | Turn | Tick | Leave => step_loop t e w
  | _ =>
      match w_threads w !! t with
      | None => None
      | Some (Refresh queue stage) =>
          printer ← Printers cfg !! queue;
          '(next, s') ← refresh_step e queue printer stage s;
          let threads := match next with Some stage' => <[t := Refresh queue stage']> (w_threads w) | None => delete t (w_threads w) end in
          let threads := match scheduled queue stage s with
                         | Some retry => <[next_goroutine w := retry]> threads | None => threads end in
          Some (set_threads s' threads w)
      | Some (Retry queue name attempt delay stage) =>
          printer ← Printers cfg !! queue;
          '(next, s') ← retry_step e queue printer name attempt delay stage s;
          Some (set_threads s' match next with
                               | Some (attempt', delay', stage') => <[t := Retry queue name attempt' delay' stage']> (w_threads w)
                               | None => delete t (w_threads w) end w)
      end
  end.
Fixpoint run (l : list (nat * event)) (w : World) : option World :=
  match l with [] => Some w | (t, e) :: l => step t e w ≫= run l end.
Inductive reachable (publisher : P) : World -> Prop :=
| reach_new : reachable publisher (new_world publisher)
| reach_step w t e w' : reachable publisher w -> step t e w = Some w' -> reachable publisher w'.

(** ** The start of the service

    What a refresh meets: its clock, the answer of the printer, the name of the
    machine, its context, and what other goroutines do before each of its
    steps. *)
Record refresh_env := {
  re_asked : time; re_now : refresh_stage -> time; re_answer : res goerr Response; re_hostname : option string;
  re_ctx : Context; re_others : list (list (nat * event))
}.
Definition next_event (env : refresh_env) (stage : refresh_stage) : event :=
  let now := re_now env stage in
  match stage with
  | Asking => Answer now (re_asked env) (re_answer env)
  | Committing _ _ _ => Commit now now
  | Syncing _ _ => Sync (re_hostname env) now
  | Calling _ => Call (re_ctx env)
  | Recording _ _ => Record_ now
  | Scheduling _ => Schedule
  | Ending _ => End_ now
  end.
(** The refresh of the goroutine [t], to its end: its error, if it has one. *)
Fixpoint drive (queue : string) (env : refresh_env) (t : nat) (others : list (list (nat * event))) (w : World) : option (option goerr * World) :=
  match others with
  | [] => None
  | l :: others =>
      w ← run l w;
      match w_threads w !! t with
      | Some (Refresh q stage) =>
          if negb (q =? queue)%string then None else
          w' ← step t (next_event env stage) w;
          match stage with Ending err => Some (err, w') | _ => drive queue env t others w' end
      | _ => None
      end
  end.
Definition refreshOne (queue : string) (env : refresh_env) (w : World) : option (option goerr * World) :=
  let t := next_goroutine w in w ← step t (StartRefresh queue) w; drive queue env t (re_others env) w.
(** [RefreshAll] over the queues that are left: the queue that failed, with its error. *)
Fixpoint refresh_queues (env : string -> refresh_env) (queues : list (string * PrinterConfig)) (w : World)
    : option (option (string * goerr) * World) :=
  match queues with
  | [] => Some (None, w)
  | (queue, printer) :: queues =>
      if Optional printer then refresh_queues env queues w else
      '(err, w) ← refreshOne queue (env queue) w;
      match err with Some err => Some (Some (queue, err), w) | None => refresh_queues env queues w end
  end.
Definition RefreshAll (env : string -> refresh_env) : World -> option (option (string * goerr) * World) :=
  refresh_queues env (range (Printers cfg)).
End lifecycle.
Arguments World P : clear implicits.
