(* ===== verification/LifecycleTheorems.v ===== *)
(** * What the goroutines of the service keep true ([Lifecycle.v])

    The invariants of every interleaving of loops, refreshes, retries and
    [Close]: what is kept of a queue is committed together, and its epoch only
    grows, and grows exactly with what clients can see of its configuration.
    [stepped] has the ways a goroutine steps. *)

From Stdlib Require Import ZArith Lia Ascii String.
From stdpp Require Import base tactics list strings gmap sets.
From S2P Require Import DnsSd Urf Routing.
From S2P Require Import Prelude GoString GoError GoTime GoUrl Goipp IppAttrs MediaCatalog Normalizer Formats Messages.
From S2P Require Import Configuration PrinterDescription Capabilities CapabilityProofs Discovery CapabilityTheorems DiscoveryTheorems.
From S2P Require Import Publisher Lifecycle.

Section theorems.
Context `{G : GoippLib} `{U : UUIDs} `{R : MapRange} `{I : IPLiterals} `{Sim : Similarity} {P : Type} `{Pub : Publisher P}.
Context (cfg : Config) (startedAt : time).
Implicit Types (s : Service P) (w : World P) (h : queueHealth).

(** ** What a step does to the service *)

(** The part of the health a refresh commits. *)
Definition of_profiles (profiles : CapabilityProfiles) (warnings : list string) h : Prop :=
  OrdinaryReady h = prReady (pfOrdinary profiles) /\ AirPrintReady h = prReady (pfAirPrint profiles) /\
  AirPrintReason h = prReason (pfAirPrint profiles) /\ IPPEverywhereReady h = prReady (pfIPPEverywhere profiles) /\
  IPPEverywhereReason h = prReason (pfIPPEverywhere profiles) /\ IPPEligible h = prReady (pfIPPEverywhere profiles) /\
  ProfileWarnings h = warnings.
Definition health_of (queue : string) s : queueHealth := default no_health (health s !! queue).
Definition same_profiles h h' : Prop := forall profiles warnings, of_profiles profiles warnings h -> of_profiles profiles warnings h'.

(** A step that is no commit. *)
Record same_core s s' : Prop := {
  sc_epochs : configChangedAt s' = configChangedAt s;
  sc_capabilities : capabilities s' = capabilities s;
  sc_models : capabilityModels s' = capabilityModels s;
  sc_health queue : same_profiles (health_of queue s) (health_of queue s')
}.
Lemma same_core_refl s : same_core s s.
Proof. split; try done. intros q p ws H; exact H. Qed.
Lemma same_core_trans s1 s2 s3 : same_core s1 s2 -> same_core s2 s3 -> same_core s1 s3.
Proof. intros [E1 C1 M1 H1] [E2 C2 M2 H2]. split; [congruence..|]. intros q p ws H. by apply H2, H1. Qed.
Lemma same_core_health queue f s : (forall h, same_profiles h (f h)) -> same_core s (on_health queue f s).
Proof.
  intros Hf. split; try done. intros q. unfold health_of, on_health, set_health, set_committed. cbn [health].
  destruct (decide (q = queue)) as [->|Hq]; [rewrite lookup_insert_eq; apply Hf|]. rewrite lookup_insert_ne by congruence. intros p ws H; exact H.
Qed.
Lemma same_core_record queue now status s : same_core s (recordDNSStatus queue now status s).
Proof. apply same_core_health. intros h p ws H; exact H. Qed.
Lemma same_core_retrying queue b s : same_core s (set_retrying queue b s).
Proof. split; try done. intros q p ws H; exact H. Qed.
Lemma same_core_publishers ps s : same_core s (set_publishers ps s).
Proof. split; try done. intros q p ws H; exact H. Qed.
Lemma same_core_flags r f c s : same_core s (set_flags r f c s).
Proof. split; try done. intros q p ws H; exact H. Qed.
Lemma same_core_attempted queue now err s : same_core s (on_health queue (attempted now err) s).
Proof. apply same_core_health. intros h p ws H; exact H. Qed.
#[local] Hint Resolve same_core_refl same_core_record same_core_retrying same_core_publishers same_core_flags
  same_core_attempted : core.

(** What a step does to the loops, when it begins no refresh. *)
Inductive loops_stepped (t : nat) (e : event) (w : World P) : gmap nat (nat * loop) -> gset nat -> Prop :=
| loops_refused caller : closing (w_service w) = true -> e = StartRefreshLoop caller \/ e = StartMaintenanceLoop caller ->
    loops_stepped t e w (w_loops w) (w_ended w)
| loops_begun caller l : closing (w_service w) = false -> w_threads w !! t = None -> w_loops w !! t = None ->
    l = RefreshLoop (map fst (range (Printers cfg))) \/ l = MaintenanceLoop true ->
    loops_stepped t e w (<[t := (caller, l)]> (w_loops w)) (w_ended w)
| loops_ended caller : e = EndCaller caller -> loops_stepped t e w (w_loops w) ({[caller]} ∪ w_ended w)
| loops_turn caller l l' : w_threads w !! t = None -> w_loops w !! t = Some (caller, l) ->
    loop_step e (loop_done caller w) l (w_service w) = Some (Some l') -> launches l = None -> begins l = None ->
    loops_stepped t e w (<[t := (caller, l')]> (w_loops w)) (w_ended w)
| loops_left caller l : w_threads w !! t = None -> w_loops w !! t = Some (caller, l) -> e = Leave -> loop_done caller w = true ->
    loops_stepped t e w (delete t (w_loops w)) (w_ended w)
| loops_launched caller queue queues : e = Turn -> w_threads w !! t = None -> w_loops w !! t = Some (caller, RefreshLoop (queue :: queues)) ->
    loops_stepped t e w
      (<[next_goroutine w := (caller, QueueLoop queue Opening)]> (<[t := (caller, RefreshLoop queues)]> (w_loops w))) (w_ended w).
(** A refresh of the start of the service, or one that a loop begins. *)
Inductive begun (t : nat) (e : event) (w : World P) (queue : string) : gmap nat (nat * loop) -> Prop :=
| begun_alone printer : e = StartRefresh queue -> w_loops w !! t = None -> Printers cfg !! queue = Some printer -> begun t e w queue (w_loops w)
| begun_by_loop caller : e = Turn -> w_loops w !! t = Some (caller, QueueLoop queue Due) ->
    begun t e w queue (<[t := (caller, QueueLoop queue Selecting)]> (w_loops w)).
Definition is_stage (e : event) : Prop :=
  match e with
  | Answer _ _ _ | Commit _ _ | Sync _ _ | Call _ | Record_ _ | Schedule | End_ _ | Timer | Cancel => True
  | _ => False
  end.

(** The ways a goroutine steps. *)
Inductive stepped (t : nat) (e : event) (w : World P) : World P -> Prop :=
| by_close : e = CloseService -> stepped t e w
    (set_threads (set_flags (dnsRetrying (w_service w)) (refreshing (w_service w)) true (w_service w)) (w_threads w) w)
| by_closing : e = ClosePublishers -> closing (w_service w) = true -> w_loops w = ∅ -> no_retries (w_threads w) = true -> stepped t e w
    {| w_service := close_publishers (w_service w); w_threads := w_threads w; w_closed := true; w_loops := w_loops w; w_ended := w_ended w |}
| by_loops loops ended : ~ is_stage e -> loops_stepped t e w loops ended -> stepped t e w
    {| w_service := w_service w; w_threads := w_threads w; w_closed := w_closed w; w_loops := loops; w_ended := ended |}
| by_start queue loops : w_threads w !! t = None -> begun t e w queue loops -> stepped t e w
    (set_loops loops (set_threads (set_refreshing (insert queue true) (w_service w)) (<[t := Refresh queue Asking]> (w_threads w)) w))
| by_refresh queue stage printer next s' : is_stage e -> w_threads w !! t = Some (Refresh queue stage) -> Printers cfg !! queue = Some printer ->
    refresh_step cfg startedAt e queue printer stage (w_service w) = Some (next, s') -> stepped t e w
    (set_threads s'
       (let threads := match next with Some stage' => <[t := Refresh queue stage']> (w_threads w) | None => delete t (w_threads w) end in
        match scheduled queue stage (w_service w) with
        | Some retry => <[next_goroutine w := retry]> threads | None => threads end) w)
| by_retry queue name attempt delay stage printer next s' : is_stage e -> w_threads w !! t = Some (Retry queue name attempt delay stage) ->
    Printers cfg !! queue = Some printer ->
    retry_step cfg startedAt e queue printer name attempt delay stage (w_service w) = Some (next, s') -> stepped t e w
    (set_threads s' match next with
                    | Some (attempt', delay', stage') => <[t := Retry queue name attempt' delay' stage']> (w_threads w)
                    | None => delete t (w_threads w) end w).
Lemma set_loops_same w :
  {| w_service := w_service w; w_threads := w_threads w; w_closed := w_closed w; w_loops := w_loops w; w_ended := w_ended w |} = w.
Proof. by destruct w. Qed.
Lemma begin_loop_inv t e caller l w w' : e = StartRefreshLoop caller \/ e = StartMaintenanceLoop caller ->
  l = RefreshLoop (map fst (range (Printers cfg))) \/ l = MaintenanceLoop true -> begin_loop t caller l w = Some w' -> stepped t e w w'.
Proof.
  intros He' Hl. assert (~ is_stage e) as He by (destruct He' as [-> | ->]; tauto). unfold begin_loop. destruct (closing (w_service w)) eqn:Hc.
  - intros [= <-]. rewrite <- (set_loops_same w) at 2. apply by_loops; [done|]. by eapply loops_refused.
  - destruct (w_threads w !! t) eqn:Ht; [done|]. destruct (w_loops w !! t) eqn:El; [done|]. intros [= <-]. apply by_loops; [done|].
    by apply loops_begun.
Qed.
Lemma loop_step_leaves e done l s : loop_step e done l s = Some None -> e = Leave /\ done = true /\ launches l = None /\ begins l = None.
Proof. by destruct l as [[]|? []|[]], e, done. Qed.
Lemma loop_step_launches e done l s next queue : loop_step e done l s = Some next -> launches l = Some queue ->
  exists queues, e = Turn /\ l = RefreshLoop (queue :: queues) /\ next = Some (RefreshLoop queues).
Proof. destruct l as [[]|? []|[]], e, done; intros [= <-] [= ->]; eauto. Qed.
Lemma loop_step_begins e done l s next queue : loop_step e done l s = Some next -> begins l = Some queue ->
  e = Turn /\ l = QueueLoop queue Due /\ next = Some (QueueLoop queue Selecting).
Proof. destruct l as [[]|? []|[]], e, done; intros [= <-] [= ->]; eauto. Qed.
Lemma step_loop_inv t e w w' : ~ is_stage e -> step_loop t e w = Some w' -> stepped t e w w'.
Proof.
  intros He. unfold step_loop. destruct (w_loops w !! t) as [[caller l]|] eqn:El; [|done]. destruct (w_threads w !! t) eqn:Ht; [done|].
  destruct (loop_step e _ l _) as [next|] eqn:Hn; [|done]. cbn [mbind option_bind].
  destruct (launches l) as [queue|] eqn:Hl.
  - destruct (loop_step_launches _ _ _ _ _ _ Hn Hl) as (queues & -> & -> & ->). intros [= <-]. apply by_loops; [done|]. by apply loops_launched.
  - destruct (begins l) as [queue|] eqn:Hb.
    + destruct (loop_step_begins _ _ _ _ _ _ Hn Hb) as (-> & -> & ->). intros [= <-]. apply by_start; [done|]. by apply begun_by_loop.
    + intros [= <-]. apply by_loops; [done|]. destruct next as [l'|]; [by eapply loops_turn|].
      destruct (loop_step_leaves _ _ _ _ Hn) as (-> & ? & _). by eapply loops_left.
Qed.
Lemma step_inv t e w w' : step cfg startedAt t e w = Some w' -> stepped t e w w'.
Proof.
  intros H. assert (is_stage e \/ ~ is_stage e) as [He|He] by (destruct e; cbn; tauto).
  - assert ((match w_threads w !! t with
      | None => None
      | Some (Refresh queue stage) =>
          printer ← Printers cfg !! queue;
          '(next, s') ← refresh_step cfg startedAt e queue printer stage (w_service w);
          let threads := match next with Some stage' => <[t := Refresh queue stage']> (w_threads w) | None => delete t (w_threads w) end in
          let threads := match scheduled queue stage (w_service w) with
                         | Some retry => <[next_goroutine w := retry]> threads | None => threads end in
          Some (set_threads s' threads w)
      | Some (Retry queue name attempt delay stage) =>
          printer ← Printers cfg !! queue;
          '(next, s') ← retry_step cfg startedAt e queue printer name attempt delay stage (w_service w);
          Some (set_threads s' match next with
                               | Some (attempt', delay', stage') => <[t := Retry queue name attempt' delay' stage']> (w_threads w)
                               | None => delete t (w_threads w) end w)
      end) = Some w') as H' by (by destruct e). clear H.
    destruct (w_threads w !! t) as [[queue stage|queue name attempt delay stage]|] eqn:Ht; [| |done].
    + destruct (Printers cfg !! queue) as [printer|] eqn:Hp; [|done]. cbn [mbind option_bind] in H'.
      destruct (refresh_step cfg startedAt e queue printer stage (w_service w)) as [[next s']|] eqn:Hs; [|done].
      cbn in H'. injection H' as <-. by eapply by_refresh.
    + destruct (Printers cfg !! queue) as [printer|] eqn:Hp; [|done]. cbn [mbind option_bind] in H'.
      destruct (retry_step cfg startedAt e queue printer name attempt delay stage (w_service w)) as [[next s']|] eqn:Hs; [|done].
      cbn in H'. injection H' as <-. by eapply by_retry.
  - destruct e; try (by destruct He); cbn [step] in H.
    + destruct (w_threads w !! t) eqn:Ht; [done|]. destruct (w_loops w !! t) eqn:El; [done|]. destruct (Printers cfg !! queue) eqn:Hp; [|done].
      injection H as <-. apply (by_start _ _ _ queue (w_loops w)); [done|]. by eapply begun_alone.
    + apply (begin_loop_inv _ (StartRefreshLoop caller)) in H; auto.
    + apply (begin_loop_inv _ (StartMaintenanceLoop caller)) in H; auto.
    + injection H as <-. apply by_loops; [done|]. by apply loops_ended.
    + by apply step_loop_inv in H.
    + by apply step_loop_inv in H.
    + by apply step_loop_inv in H.
    + injection H as <-. by apply by_close.
    + destruct (closing (w_service w) && _ && _) eqn:Hc; [|done]. injection H as <-.
      apply andb_prop in Hc as [[? ?%bool_decide_eq_true_1]%andb_prop ?]. by apply by_closing.
Qed.

(** A step of a refresh or of a retry loop, seen from what is committed. *)
Lemma refresh_core e queue printer stage s next s' : refresh_step cfg startedAt e queue printer stage s = Some (next, s') ->
  same_core s s' \/ exists upstream policy model epoch_now now, stage = Committing upstream policy model /\
    e = Commit epoch_now now /\ s' = commit queue upstream policy model epoch_now now s.
Proof.
  intros H. destruct stage, e; try done; cbn in H.
  - injection H as _ <-. by left.
  - injection H as _ <-. right. by do 5 eexists.
  - injection H as _ <-. by left.
  - destruct (publishers s !! queue) as [p|]; [|done]. destruct (call_publisher ctx action p). injection H as _ <-. by left.
  - injection H as _ <-. by left.
  - injection H as _ <-. left. by destruct (_ || _).
  - injection H as _ <-. left. eapply same_core_trans; [|apply same_core_attempted]. apply same_core_flags.
Qed.
Lemma again_core queue attempt delay s next s' : again queue attempt delay s = Some (next, s') -> same_core s s'.
Proof. unfold again. destruct (_ <? _)%nat; intros [= _ <-]; auto. Qed.
Lemma attempt_noted_core queue attempt delay status now s next s' :
  attempt_noted queue attempt delay status now s = Some (next, s') -> same_core s s'.
Proof.
  unfold attempt_noted. intros H. eapply same_core_trans; [apply (same_core_record queue now status)|].
  destruct (_ =? _)%string; [by eapply again_core|]. injection H as _ <-; auto.
Qed.
Lemma attempt_call_core queue degrade attempt delay action s next s' :
  attempt_call queue degrade attempt delay action s = Some (next, s') -> same_core s s'.
Proof.
  unfold attempt_call. destruct (publishers s !! queue) as [p|]; [|done]. destruct (call_publisher _ action p). intros [= _ <-]; auto.
Qed.
Lemma retry_core e queue printer name attempt delay stage s next s' :
  retry_step cfg startedAt e queue printer name attempt delay stage s = Some (next, s') -> same_core s s'.
Proof.
  assert (forall n, update_retry_step cfg startedAt e queue printer n attempt delay stage s = Some (next, s') -> same_core s s') as Hu.
  { intros n H. destruct stage as [| | |action|action status], e; try done; cbn in H; try (by destruct action).
    - destruct (not_published _ _ _); injection H as _ <-; auto.
    - injection H as _ <-; auto.
    - injection H as _ <-; auto.
    - destruct (input_action _ _ _ _ _ _ _ _ _); injection H as _ <-; auto.
    - by eapply attempt_call_core.
    - destruct action; [by eapply attempt_noted_core..|]. apply again_core in H. eapply same_core_trans; [apply same_core_record|done]. }
  intros H. destruct name as [n|]; [by apply (Hu n)|]. destruct stage as [| | |action|action status]; try by apply (Hu ""%string).
  - destruct e; try done; cbn in H; [injection H as _ <-; auto|]. destruct (closing s); [injection H as _ <-; auto|done].
  - destruct e; try done. by eapply attempt_call_core.
  - destruct e; try done. by eapply attempt_noted_core.
Qed.
Lemma step_core t e w w' : step cfg startedAt t e w = Some w' -> same_core (w_service w) (w_service w') \/
  exists queue upstream policy model epoch_now now, w_threads w !! t = Some (Refresh queue (Committing upstream policy model)) /\
    e = Commit epoch_now now /\ w_service w' = commit queue upstream policy model epoch_now now (w_service w).
Proof.
  intros [He|He ? ? ?|loops ended _ _|queue loops _ _|queue stage printer next s' _ Ht ? Hs|
    queue name attempt delay stage printer next s' _ Ht ? Hs]%step_inv.
  - left. apply same_core_flags.
  - left. apply same_core_publishers.
  - left. apply same_core_refl.
  - left. apply same_core_flags.
  - apply refresh_core in Hs as [Hs|(upstream & policy & model & en & now & -> & -> & ->)]; [by left|]. right.
    by exists queue, upstream, policy, model, en, now.
  - apply retry_core in Hs. by left.
Qed.

(** ** What is committed *)

(** A model is made of an answer the policy could be projected against. *)
Definition from_refresh (queue : string) (upstream : Attributes) (policy : PolicyConfig) (model : CapabilityModel) : Prop :=
  exists printer warnings identity, Printers cfg !! queue = Some printer /\
    ProjectPolicyAgainstUpstream upstream (settings (Configuration.Policy printer)) = (warnings, Ok policy) /\
    model = model_of cfg queue printer upstream policy warnings identity.
Definition committed s (queue : string) : Prop :=
  match capabilities s !! queue, capabilityModels s !! queue with
  | Some upstream, Some model => (exists policy, from_refresh queue upstream policy model) /\
      of_profiles (mProfiles model) (mWarnings model) (health_of queue s)
  | None, None => of_profiles zero_profiles [] (health_of queue s)
  | _, _ => False
  end.
Definition stage_ok (t : thread) : Prop :=
  match t with
  | Refresh queue (Committing upstream policy model) => from_refresh queue upstream policy model
  | _ => True
  end.
Definition world_ok (w : World P) : Prop :=
  (forall queue, committed (w_service w) queue) /\ map_Forall (fun _ => stage_ok) (w_threads w).

Lemma committed_core s s' queue : same_core s s' -> committed s queue -> committed s' queue.
Proof.
  intros [_ Hc Hm Hh]. unfold committed. rewrite Hc, Hm.
  destruct (capabilities s !! queue), (capabilityModels s !! queue); try done; [intros [? H]; split; [done|]|intros H]; by apply Hh.
Qed.
Lemma committed_commit s q queue upstream policy model en now : from_refresh queue upstream policy model ->
  committed s q -> committed (commit queue upstream policy model en now s) q.
Proof.
  intros Hf Hq. unfold committed, commit, set_committed, health_of. cbn [capabilities capabilityModels health].
  destruct (decide (q = queue)) as [->|Hne].
  - rewrite !lookup_insert_eq. cbn [default]. split; [by exists policy|]. repeat split.
  - rewrite !lookup_insert_ne by congruence. exact Hq.
Qed.
(** What an answer is accepted with. *)
Lemma accept_inv printer upstreamURI asked answer upstream policy warnings :
  GetPrinterAttributes upstreamURI asked answer ≫= accept printer = Ok (upstream, policy, warnings) ->
  ProjectPolicyAgainstUpstream upstream (settings (Configuration.Policy printer)) = (warnings, Ok policy) /\
  exists resp, answer = Ok resp /\ checkUpstreamResponse (probe_request upstreamURI asked) resp = None /\
    resCode resp < StatusErrorBadRequest /\ upstream = default [] (resPrinter resp).
Proof.
  unfold GetPrinterAttributes. destruct answer as [resp|]; [|done]. cbn.
  destruct (checkUpstreamResponse _ resp) eqn:Hc; [done|]. cbn. unfold accept.
  destruct (StatusErrorBadRequest <=? resCode resp) eqn:Hs; [done|]. apply Z.leb_gt in Hs.
  destruct (ProjectPolicyAgainstUpstream _ _) as [ws [p|]] eqn:Hp; [|done]. intros H. injection H as <- <- <-.
  split; [done|]. exists resp. repeat split; try done.
Qed.
Lemma refresh_stage_ok e queue printer stage s stage' s' : Printers cfg !! queue = Some printer ->
  refresh_step cfg startedAt e queue printer stage s = Some (Some stage', s') -> stage_ok (Refresh queue stage').
Proof.
  intros Hp H. destruct stage, e; try done; cbn in H.
  - destruct (GetPrinterAttributes _ _ _ ≫= accept printer) as [[[upstream policy] warnings]|err] eqn:Ha;
      injection H as <- _; [|done]. apply accept_inv in Ha as [Ha _]. by exists printer, warnings, (identity_of cfg startedAt queue now s).
  - by injection H as <- _.
  - destruct (publishers s !! queue); [destruct (not_published _ _ _)|]; by injection H as <- _.
  - destruct (publishers s !! queue); [|done]. destruct (call_publisher _ _ _). by injection H as <- _.
  - destruct (_ && _); by injection H as <- _.
  - by injection H as <- _.
Qed.
Lemma scheduled_retry queue stage s t : scheduled queue stage s = Some t -> exists action name, stage = Scheduling action /\
  closing s = false /\ is_retrying queue s = false /\ t = Retry queue name 0 first_delay Waiting.
Proof.
  destruct stage; try done. cbn. destruct (closing s), (is_retrying queue s); try done. intros [= <-]. by do 2 eexists.
Qed.
Lemma world_ok_step t e w w' : world_ok w -> step cfg startedAt t e w = Some w' -> world_ok w'.
Proof.
  intros [Hs Ht] H. split.
  - intros q. apply step_core in H as [H|(queue & upstream & policy & model & en & now & Hq & _ & ->)]; [by eapply committed_core|].
    apply committed_commit; [|done]. apply (Ht _ _ Hq).
  - apply step_inv in H as [He|He ? ? ?|loops ended _ _|queue loops _ _|queue stage printer next s' _ Hq Hp H|
      queue name attempt delay stage printer next s' _ Hq Hp H]; cbn [w_threads set_threads set_loops]; try done.
    + by apply map_Forall_insert_2.
    + assert (map_Forall (fun _ => stage_ok) match next with Some stage' => <[t := Refresh queue stage']> (w_threads w)
        | None => delete t (w_threads w) end) as Hn.
      { destruct next; [apply map_Forall_insert_2; [by eapply refresh_stage_ok|done]|by apply map_Forall_delete]. }
      destruct (scheduled queue stage (w_service w)) eqn:Hr; [|done].
      apply scheduled_retry in Hr as (? & ? & _ & _ & _ & ->). by apply map_Forall_insert_2.
    + destruct next as [[[? ?] ?]|]; [by apply map_Forall_insert_2|by apply map_Forall_delete].
Qed.
Lemma world_ok_reachable publisher w : reachable cfg startedAt publisher w -> world_ok w.
Proof.
  induction 1; [|by eapply world_ok_step]. split; [|apply map_Forall_empty]. intros q. unfold committed, health_of. cbn.
  rewrite !lookup_empty. repeat split.
Qed.

(** A model of a refresh: the projected policy, and the base service ready. *)
Lemma from_refresh_facts queue upstream policy model : from_refresh queue upstream policy model ->
  mPolicy model = policy /\ prReady (pfOrdinary (mProfiles model)) = true.
Proof.
  intros (printer & ws & identity & Hp & Hpol & ->). apply ProjectPolicy_projected in Hpol.
  unfold model_of, NewCapabilityModel. cbv zeta. cbn [oEffectivePolicy oPracticalProfiles oOperations oDisabled oWarnings].
  rewrite (projected_not_empty _ _ _ Hpol). split.
  - unfold SynthesizeCapabilityModel, new_model. cbn [mPolicy with_attributes]. by rewrite (projected_not_empty _ _ _ Hpol).
  - reflexivity.
Qed.

(** C7: In every interleaving of refreshes, retries and [Close], the answer, the
    model and the health of a queue are those of one refresh: the model is the
    one made of the kept answer with the policy projected against it, the health
    shows the profiles and the warnings of that model, the base service is
    ready, so that only the configuration decides whether the queue is
    published, and every medium a client is then shown is a configured one that the
    kept answer supports. Before the first refresh succeeds no profile is ready
    and Get-Printer-Attributes is refused. *)
Theorem queue_committed publisher w queue : reachable cfg startedAt publisher w ->
  let s := w_service w in let h := health_of queue s in
  match capabilities s !! queue, capabilityModels s !! queue with
  | Some upstream, Some model =>
      exists printer policy warnings at_refresh, Printers cfg !! queue = Some printer /\
        ProjectPolicyAgainstUpstream upstream (settings (Configuration.Policy printer)) = (warnings, Ok policy) /\
        model = model_of cfg queue printer upstream policy warnings at_refresh /\
        of_profiles (mProfiles model) (mWarnings model) h /\ OrdinaryReady h = true /\
        not_published cfg printer (mProfiles model) = negb (DNSSD printer) || (Mode (DNSSDSection cfg) =? DNSModeOff)%string /\
        forall identity n, n ∈ advertised_media
            (clientCapabilities (Some model) queue (printerURI cfg queue) printer upstream identity) ->
          exists m, m ∈ policyMediaNames (settings (Configuration.Policy printer)) /\ EqualFold m n = true /\
            policyMediaSupportedByUpstream upstream (settings (Configuration.Policy printer)) m = true
  | None, None =>
      OrdinaryReady h = false /\ AirPrintReady h = false /\ IPPEverywhereReady h = false /\
      forall printer identity req, resCode (handleGetPrinterAttributes (capabilities s !! queue) (capabilityModels s !! queue)
        (DNSName h) queue (printerURI cfg queue) printer identity req) = StatusErrorPrinterIsDeactivated
  | _, _ => False
  end.
Proof.
  intros Hr s h. destruct (world_ok_reachable _ _ Hr) as [Hc _]. specialize (Hc queue). unfold committed in Hc. fold s h in Hc.
  destruct (capabilities s !! queue) as [upstream|], (capabilityModels s !! queue) as [model|]; try done.
  - destruct Hc as [(policy & Hf) Hh]. destruct (from_refresh_facts _ _ _ _ Hf) as [_ Ho].
    destruct Hf as (printer & warnings & identity & Hp & Hpol & Hm). exists printer, policy, warnings, identity.
    split_and!; try done; [by destruct Hh as [-> _]|unfold not_published; by rewrite Ho|]. intros identity' n. rewrite Hm. by apply client_media with warnings policy.
  - destruct Hc as (-> & -> & _ & -> & _). split_and!; try done. intros. unfold handleGetPrinterAttributes. by rewrite NewResponse_eq.
Qed.

(** ** Epochs *)

(** What clients can see of the configuration of a queue is the same. *)
Definition same_configuration s s' (queue : string) : bool :=
  match capabilities s !! queue, capabilityModels s !! queue, capabilities s' !! queue, capabilityModels s' !! queue with
  | Some attrs, Some model, Some attrs', Some model' =>
      Similar (stablePrinterAttributes attrs) (stablePrinterAttributes attrs') &&
      sameCapabilityProfiles (mProfiles model) (mProfiles model') && samePolicySnapshot (mPolicy model) (mPolicy model')
  | None, _, None, _ => true
  | _, _, _, _ => false
  end.
Lemma sameCapabilityProfiles_refl profiles : sameCapabilityProfiles profiles profiles = true.
Proof.
  assert (forall p, sameCapabilityProfile p p = true) as H.
  { intros p. unfold sameCapabilityProfile. by rewrite ?bool_decide_eq_true_2, ?eqb_reflx, ?String.eqb_refl. }
  unfold sameCapabilityProfiles. by rewrite !H.
Qed.
Lemma samePolicySnapshot_refl policy : samePolicySnapshot policy policy = true.
Proof.
  assert (forall l, same_names l l = true) as H by (induction l; cbn; [done|by rewrite EqualFold_refl]).
  unfold samePolicySnapshot. by rewrite !EqualFold_refl, H, bool_decide_eq_true_2.
Qed.
Lemma same_configuration_unchanged s s' queue : committed s queue ->
  capabilities s' !! queue = capabilities s !! queue -> capabilityModels s' !! queue = capabilityModels s !! queue ->
  same_configuration s s' queue = true.
Proof.
  unfold committed, same_configuration. intros H -> ->. destruct (capabilities s !! queue), (capabilityModels s !! queue); try done.
  by rewrite Similar_refl, sameCapabilityProfiles_refl, samePolicySnapshot_refl.
Qed.
Lemma same_configuration_commit s queue upstream policy model en now : from_refresh queue upstream policy model -> committed s queue ->
  same_configuration s (commit queue upstream policy model en now s) queue = negb (changes queue upstream policy model s).
Proof.
  intros Hf Hc. unfold same_configuration, changes, commit, set_committed. cbn [capabilities capabilityModels].
  rewrite !lookup_insert_eq. unfold committed in Hc.
  destruct (capabilities s !! queue), (capabilityModels s !! queue); try done.
  destruct (from_refresh_facts _ _ _ _ Hf) as [-> _]. by rewrite !negb_orb, !negb_involutive.
Qed.
Lemma advanceConfigEpoch_lookup queue now epochs q before : epochs !! q = Some before -> 0 < before ->
  exists after, advanceConfigEpoch queue now epochs !! q = Some after /\ if decide (q = queue) then before < after else after = before.
Proof.
  intros Hq Hpos. unfold advanceConfigEpoch. destruct (decide (q = queue)) as [->|Hne].
  - rewrite Hq. cbn [default from_option id]. rewrite lookup_insert_eq. eexists. split; [done|]. unfold IsZero, After, Add, Nanosecond.
    rewrite (proj2 (Z.eqb_neq _ _)) by lia. destruct (before <? now) eqn:L; cbn; [by apply Z.ltb_lt|lia].
  - rewrite lookup_insert_ne by congruence. by exists before.
Qed.
(** The epoch of a queue over a step. *)
Lemma epoch_step t e w w' queue before : world_ok w -> step cfg startedAt t e w = Some w' ->
  configChangedAt (w_service w) !! queue = Some before -> 0 < before ->
  exists after, configChangedAt (w_service w') !! queue = Some after /\
    if same_configuration (w_service w) (w_service w') queue then after = before else before < after.
Proof.
  intros [Hc Ht] H Hb Hpos. apply step_core in H as [[He Hcap Hm _]|(q & upstream & policy & model & en & now & Hq & _ & ->)].
  - exists before. rewrite He, same_configuration_unchanged by (rewrite ?Hcap, ?Hm; auto). done.
  - specialize (Ht _ _ Hq). cbn [stage_ok] in Ht. destruct (decide (queue = q)) as [->|Hne].
    + rewrite same_configuration_commit by auto. unfold commit, set_committed. cbn [configChangedAt].
      destruct (changes q upstream policy model (w_service w)); cbn [negb]; [|by exists before].
      destruct (advanceConfigEpoch_lookup q en _ _ _ Hb Hpos) as (after & Ha & Hlt). rewrite decide_True in Hlt by done. eauto.
    + rewrite same_configuration_unchanged; [|done|by apply lookup_insert_ne..].
      unfold commit, set_committed. cbn [configChangedAt]. destruct (changes _ _ _ _ _); [|by exists before].
      destruct (advanceConfigEpoch_lookup q en _ _ _ Hb Hpos) as (after & Ha & Hlt). rewrite decide_False in Hlt by done. eauto.
Qed.
Lemma epochs_start publisher w queue printer : 0 < startedAt -> reachable cfg startedAt publisher w ->
  Printers cfg !! queue = Some printer -> exists epoch, configChangedAt (w_service w) !! queue = Some epoch /\ startedAt <= epoch.
Proof.
  intros Hs Hr Hq. induction Hr as [|w t e w' Hr (epoch & He & Hle) H].
  - exists startedAt. split; [|lia]. cbn. by rewrite lookup_fmap, Hq.
  - destruct (epoch_step _ _ _ _ _ _ (world_ok_reachable _ _ Hr) H He) as (after & Ha & Hlt); [lia|]. exists after. split; [done|].
    destruct (same_configuration _ _ _); lia.
Qed.

(** C21: The epoch of a queue, its printer-config-change-date-time, never goes
    back, whatever the clock does and however goroutines interleave: a step
    moves it forward exactly when it changes what clients can see of the
    configuration (the attributes that are not volatile, the profiles, the
    policy), and keeps it otherwise. Its integer clock stays within the uptime. *)
Theorem epochs_advance publisher w t e w' queue printer : 0 < startedAt -> reachable cfg startedAt publisher w ->
  step cfg startedAt t e w = Some w' -> Printers cfg !! queue = Some printer ->
  exists before after, configChangedAt (w_service w) !! queue = Some before /\ configChangedAt (w_service w') !! queue = Some after /\
    startedAt <= before <= after /\
    (before < after <-> same_configuration (w_service w) (w_service w') queue = false) /\
    forall now, let identity := identity_of cfg startedAt queue now (w_service w') in
      ConfigChangeDateTime identity = after /\ 1 <= ConfigChangeTime identity <= Uptime identity.
Proof.
  intros Hs Hr H Hq. destruct (epochs_start _ _ _ _ Hs Hr Hq) as (before & Hb & Hle).
  destruct (epoch_step _ _ _ _ _ _ (world_ok_reachable _ _ Hr) H Hb) as (after & Ha & Hlt); [lia|].
  exists before, after. assert (before <= after) by (destruct (same_configuration _ _ _); lia).
  split_and!; try done; [|intros now]; [destruct (same_configuration _ _ _); [split; [lia|done]|done]|].
  unfold identity_of, proxyPrinterIdentity. rewrite Ha. cbn [default from_option id ConfigChangeDateTime ConfigChangeTime Uptime].
  unfold IsZero. rewrite !(proj2 (Z.eqb_neq _ _)) by lia. split; [done|]. destruct (_ <? _) eqn:E; lia.
Qed.

(** ** What is shown of a publication *)

(** What a publisher leaves behind a call, and the status that is recorded. *)
Definition told (profiles : CapabilityProfiles) (printer : PrinterConfig) (status : Status) (p' : P) : Prop :=
  sState status ∈ [StatePublished; StateDegraded; StateWithdrawn; StateDisabled] /\
  (sState status = StatePublished -> not_published cfg printer profiles = false /\
     exists pub, published p' = Some pub /\ pName pub = sName status) /\
  (sState status = StateWithdrawn \/ sState status = StateDisabled -> published p' = None).
Lemma with_error_states (l : list string) status err : sState status ∈ l -> StateDegraded ∈ l -> sState (with_error true (status, err)) ∈ l.
Proof. unfold with_error. by destruct err, (sErr status). Qed.
Lemma with_error_state status err state : sState (with_error true (status, err)) = state -> state <> StateDegraded ->
  sState status = state /\ with_error true (status, err) = status.
Proof. unfold with_error. destruct err, (sErr status); cbn; intros <-; auto; done. Qed.
Lemma call_told queue printer upstream profiles localHostname now s ctx p r p' action :
  action = (if not_published cfg printer profiles then DoWithdraw
            else input_action cfg startedAt queue printer upstream profiles localHostname now s) ->
  call_publisher ctx action p = (r, p') -> told profiles printer (with_error true r) p'.
Proof.
  intros -> H. destruct r as [status err]. destruct (not_published cfg printer profiles) eqn:Hn; cbn [call_publisher] in H.
  - pose proof (Withdraw_states ctx p) as Hs. rewrite H in Hs. cbn in Hs.
    assert (sState (with_error true (status, err)) ∈ [StateDegraded; StateWithdrawn; StateDisabled]) as Hs'
      by (apply with_error_states; [done|set_solver]).
    split_and!; [set_solver| |].
    + intros E. rewrite E in Hs'. by rewrite !elem_of_cons, elem_of_nil in Hs'; destruct Hs' as [?|[?|[?|?]]].
    + intros [E|E]; apply with_error_state in E as [E _]; try done; by eapply Withdraw_gone in H as [_ ?]; auto.
  - unfold told. rewrite Hn. destruct (input_action _ _ _ _ _ _ _ _ _) as [|input|e] eqn:Ha; cbn [call_publisher] in H.
    + unfold input_action in Ha. by destruct (dnsServiceInputWithProfiles _ _ _ _ _ _ _).
    + pose proof (Update_states ctx input p) as Hs. rewrite H in Hs. cbn in Hs. split_and!.
      * apply with_error_states; [done|set_solver].
      * intros E. apply with_error_state in E as [E ->]; [|done]. split; [done|].
        destruct (Update_published _ _ _ _ _ _ H E) as (_ & _ & Hpub). exact Hpub.
      * intros [E|E]; apply with_error_state in E as [E _]; try done; by eapply Update_gone in H as [_ ?]; auto.
    + injection H as <- <- <-. cbn. split_and!; [set_solver|done|]. by intros [?|?].
Qed.

Lemma step_refresh t e w queue stage printer next s' : w_threads w !! t = Some (Refresh queue stage) -> Printers cfg !! queue = Some printer ->
  is_stage e ->
  refresh_step cfg startedAt e queue printer stage (w_service w) = Some (Some next, s') -> scheduled queue stage (w_service w) = None ->
  step cfg startedAt t e w = Some (set_threads s' (<[t := Refresh queue next]> (w_threads w)) w).
Proof. intros Ht Hp He Hs Hn. destruct e; try done; cbn; rewrite Ht, Hp; cbn; by rewrite Hs, Hn. Qed.

(** What is recorded of a status. *)
Lemma noted_state now status h : let h' := noted now status h in DNSState h' = sState status /\
  (sState status = StatePublished -> DNSLastError h' = "" /\ DNSLastPublished h' = now /\
     (sName status <> "" -> DNSName h' = sName status)) /\
  (sState status = StateWithdrawn \/ sState status = StateDisabled -> DNSLastError h' = "" /\ DNSName h' = ""%string).
Proof.
  cbn. split; [done|]. split.
  - intros ->. cbn. split_and!; try done. intros Hn. by rewrite (proj2 (String.eqb_neq _ _) Hn).
  - intros [-> | ->]; done.
Qed.

(** When a refresh synchronises the publication of its queue with no other
    goroutine between its call of the publisher and its record, the health of
    the queue tells the truth: [published] is recorded only for a queue that is
    to be published, while the publisher holds a publication, under the name of
    that publication; [withdrawn] and [disabled] only when the publisher holds
    none, and then no name is kept; a degraded state, and only that, leaves
    something to retry, unless the input itself was invalid. *)
Theorem refresh_published t queue upstream profiles printer localHostname now ctx now' w w' :
  w_threads w !! t = Some (Refresh queue (Syncing upstream profiles)) -> Printers cfg !! queue = Some printer ->
  is_Some (publishers (w_service w) !! queue) ->
  run cfg startedAt [(t, Sync localHostname now); (t, Call ctx); (t, Record_ now')] w = Some w' ->
  let h := health_of queue (w_service w') in
  exists p', publishers (w_service w') !! queue = Some p' /\
    DNSState h ∈ [StatePublished; StateDegraded; StateWithdrawn; StateDisabled] /\
    (DNSState h = StatePublished -> not_published cfg printer profiles = false /\ DNSLastError h = "" /\
       exists pub, published p' = Some pub /\ (pName pub <> "" -> DNSName h = pName pub)) /\
    (DNSState h = StateWithdrawn \/ DNSState h = StateDisabled ->
       published p' = None /\ DNSLastError h = "" /\ DNSName h = ""%string) /\
    exists action, w_threads w' !! t = Some (Refresh queue
      (if (DNSState h =? StateDegraded)%string && match action with Invalid _ => false | _ => true end
       then Scheduling action else Ending None)).
Proof.
  intros Ht Hp [p Hpub] H h. cbn [run] in H.
  set (action := if not_published cfg printer profiles then DoWithdraw
                 else input_action cfg startedAt queue printer upstream profiles localHostname now (w_service w)).
  erewrite (step_refresh _ _ _ _ _ _ (Calling action)) in H; [|exact Ht|exact Hp|done| |done]; cycle 1.
  { cbn. rewrite Hpub. unfold action. by destruct (not_published _ _ _). }
  cbn [mbind option_bind] in H. destruct (call_publisher ctx action p) as [r p'] eqn:Hcall.
  erewrite (step_refresh _ _ _ _ _ _ (Recording action (with_error true r))) in H; [|apply lookup_insert_eq|exact Hp|done| |done]; cycle 1.
  { cbn. by rewrite Hpub, Hcall. }
  cbn [mbind option_bind] in H.
  erewrite step_refresh in H; [|apply lookup_insert_eq|exact Hp|done|reflexivity|done]. cbn [mbind option_bind] in H. injection H as <-.
  destruct (call_told _ _ _ _ _ _ _ _ _ _ _ action eq_refl Hcall) as (Hs & Hpublished & Hgone).
  set (status := with_error true r) in *.
  assert (h = noted now' status (health_of queue (w_service w))) as Hh.
  { unfold h, health_of. cbn. by rewrite lookup_insert_eq. }
  pose proof (noted_state now' status (health_of queue (w_service w))) as (Hst & Hpn & Hwn). rewrite <- Hh in *.
  exists p'. rewrite Hst. split_and!; [cbn; by rewrite lookup_insert_eq|done| | |].
  - intros E. destruct (Hpublished E) as (Hnot & pub & Hp1 & Hname), (Hpn E) as (He & _ & Hn). split; [done|]. split; [done|].
    exists pub. split; [done|]. by rewrite Hname.
  - intros E. destruct (Hwn E). auto.
  - exists action. cbn. by rewrite lookup_insert_eq.
Qed.
End theorems.

(** ** A queue that is refreshed *)

(** Attributes with the same names, tags and texts, in the same order. *)
Definition texts `{GoippLib} (attrs : Attributes) : list (string * list (Z * string)) :=
  map (fun attr => (aName attr, map (fun tv => (val_T tv, value_String (val_V tv))) (aValues attr))) attrs.
Definition same_texts `{GoippLib} : Similarity.
Proof.
  refine {| Similar a b := bool_decide (texts a = texts b) |}. intros. by apply bool_decide_eq_true.
Defined.
#[local] Existing Instances goipp_example no_ip6 urn_prefixed visit_in_order same_texts.

Definition office_cfg : Config := {|
  Listen := {| Addr := ":8631"; PublicBaseURL := "ipp://proxy.example:631/ipp/" |}; StoragePath := ""; Statistics := no_statistics;
  Defaults := no_defaults; LimitsAlias := no_defaults; DNSSDSection := example_dnssd;
  Printers := {["office"%string := a4_queue "monochrome"]}; limitsAliasConflict := false |}.
Definition started : time := unix_epoch + 1700000000 * Second.
(** The answer of the printer to the request of the second [s]. *)
Definition office_answer (s : Z) : res goerr Response :=
  let asked := started + s * Second in
  let ops := responseOperationAttrs "" in
  Ok (mkResponse DefaultVersion 0 (RequestID (probe_request "ipp://10.0.0.9/ipp/print" asked))
    (Some [mkGroup TagOperationGroup ops; mkGroup TagPrinterGroup gray_printer]) ops None (Some gray_printer)
    None None None None None None).
(** The events of one refresh, by the goroutine [t], from the second [s]. *)
Definition refresh_events (t : nat) (s : Z) : list (nat * event) :=
  let now := started + s * Second in
  [(t, StartRefresh "office"); (t, Answer now now (office_answer s)); (t, Commit now now);
   (t, Sync None now); (t, Call LiveContext); (t, Record_ now)].
Definition office_world : option (World StubPublisher) :=
  run office_cfg started (refresh_events 0 10) (new_world office_cfg started NewStubPublisher).

Section reachability.
Context `{G : GoippLib} `{U : UUIDs} `{R : MapRange} `{I : IPLiterals} `{Sim : Similarity} {P : Type} `{Pub : Publisher P}.
Lemma run_reachable cfg startedAt publisher l : forall w w', reachable cfg startedAt publisher w ->
  run cfg startedAt l w = Some w' -> reachable cfg startedAt publisher w'.
Proof.
  induction l as [|[t e] l IH]; intros w w' Hr H; cbn in H; [by injection H as <-|].
  destruct (step cfg startedAt t e w) as [w1|] eqn:E; [|done]. by apply (IH w1 w'); [eapply reach_step|].
Qed.
Lemma run_app cfg startedAt l1 l2 w : run cfg startedAt (l1 ++ l2) w = run cfg startedAt l1 w ≫= run cfg startedAt l2.
Proof.
  revert w. induction l1 as [|[t e] l1 IH]; intros w; [done|]. cbn. destruct (step cfg startedAt t e w); [apply IH|done].
Qed.
End reachability.
Definition some {A} (o : option A) : bool := match o with Some _ => true | None => false end.

Lemma queue_committed_witness : exists w model, office_world = Some w /\
  capabilityModels (w_service w) !! "office"%string = Some model /\ OrdinaryReady (health_of "office" (w_service w)) = true /\
  AirPrintReady (health_of "office" (w_service w)) = prReady (pfAirPrint (mProfiles model)).
Proof.
  assert (match office_world with
          | Some w => some (capabilities (w_service w) !! "office"%string) && some (capabilityModels (w_service w) !! "office"%string)
          | None => false end = true) as Hw by (vm_compute; reflexivity).
  destruct office_world as [w|] eqn:E; [|discriminate Hw]. exists w.
  assert (reachable office_cfg started NewStubPublisher w) as Hr
    by exact (run_reachable office_cfg started NewStubPublisher _ _ w (reach_new _ _ _) E).
  pose proof (queue_committed office_cfg started NewStubPublisher w "office" Hr) as H. cbv zeta in H.
  destruct (capabilities (w_service w) !! "office"%string); [|discriminate Hw].
  destruct (capabilityModels (w_service w) !! "office"%string) as [model|]; [|discriminate Hw].
  destruct H as (printer & policy & warnings & at_refresh & _ & _ & _ & (_ & Ha & _) & Ho & _). exists model.
  exact (conj eq_refl (conj eq_refl (conj Ho Ha))).
Defined.

(** The first answer begins an epoch, the same answer again does not. *)
Definition office_again : option (World StubPublisher) := office_world ≫= run office_cfg started (firstn 2 (refresh_events 1 40)).
Definition commit_step (w : option (World StubPublisher)) (t : nat) (s : Z) : option (World StubPublisher * World StubPublisher) :=
  w ← w; w' ← step office_cfg started t (Commit (started + s * Second) (started + s * Second)) w; Some (w, w').
Definition epoch_of (w : World StubPublisher) : option Z := configChangedAt (w_service w) !! "office"%string.
Lemma epochs_advance_witness : exists w w', commit_step office_again 1 40 = Some (w, w') /\
  epoch_of w = Some (started + 10 * Second) /\ epoch_of w' = epoch_of w.
Proof.
  assert (match commit_step office_again 1 40 with
          | Some (w, w') => bool_decide (epoch_of w = Some (started + 10 * Second)) &&
                            same_configuration (w_service w) (w_service w') "office"
          | None => false end = true) as Hw by (vm_compute; reflexivity).
  destruct (commit_step office_again 1 40) as [[w w']|] eqn:E; [|discriminate Hw]. exists w, w'.
  apply andb_prop in Hw as [He Hs]. apply bool_decide_eq_true_1 in He.
  unfold commit_step in E. destruct office_again as [w0|] eqn:E0; [|discriminate E]. cbn [mbind option_bind] in E.
  destruct (step office_cfg started 1 _ w0) as [w0'|] eqn:Es; [|discriminate E]. cbn [mbind option_bind] in E. injection E as -> ->.
  unfold office_again in E0. destruct office_world as [w1|] eqn:E1; [|discriminate E0]. cbn [mbind option_bind] in E0.
  assert (reachable office_cfg started NewStubPublisher w) as Hr.
  { refine (run_reachable office_cfg started NewStubPublisher _ w1 w _ E0).
    exact (run_reachable office_cfg started NewStubPublisher _ _ w1 (reach_new _ _ _) E1). }
  destruct (epochs_advance office_cfg started NewStubPublisher w 1 _ w' "office" (a4_queue "monochrome")
    ltac:(vm_compute; reflexivity) Hr Es eq_refl) as (before & after & Hb & Ha & Hle & Hiff & _).
  split; [reflexivity|]. split; [exact He|]. unfold epoch_of in *. rewrite Hb, Ha. f_equal.
  destruct (Z.lt_ge_cases before after) as [Hlt|Hge]; [|lia]. apply Hiff in Hlt. rewrite Hs in Hlt. discriminate Hlt.
Defined.

Definition syncing (t : option thread) : option (Attributes * CapabilityProfiles) :=
  match t with
  | Some (Refresh q (Syncing upstream profiles)) => if (q =? "office")%string then Some (upstream, profiles) else None
  | _ => None
  end.
Lemma syncing_inv t upstream profiles : syncing t = Some (upstream, profiles) -> t = Some (Refresh "office" (Syncing upstream profiles)).
Proof.
  destruct t as [[q stage|]|]; try done. destruct stage; try done. cbn. destruct (q =? "office")%string eqn:E; [|done].
  apply String.eqb_eq in E as ->. by intros [= -> ->].
Qed.

Lemma refresh_published_witness : exists w p, office_world = Some w /\ publishers (w_service w) !! "office"%string = Some p /\
  DNSState (health_of "office" (w_service w)) = StatePublished /\ exists pub, published p = Some pub.
Proof.
  assert (match office_world with Some w => (DNSState (health_of "office" (w_service w)) =? StatePublished)%string | None => false end = true)
    as Hs by (vm_compute; reflexivity).
  destruct office_world as [w'|] eqn:E; [|discriminate Hs]. apply String.eqb_eq in Hs.
  unfold office_world in E.
  change (refresh_events 0 10) with (firstn 3 (refresh_events 0 10) ++ skipn 3 (refresh_events 0 10)) in E. rewrite run_app in E.
  assert (match run office_cfg started (firstn 3 (refresh_events 0 10)) (new_world office_cfg started NewStubPublisher) with
          | Some w => some (syncing (w_threads w !! 0%nat)) && some (publishers (w_service w) !! "office"%string)
          | None => false end = true) as Hw by (vm_compute; reflexivity).
  destruct (run office_cfg started (firstn 3 (refresh_events 0 10)) _) as [w|] eqn:E3; [|discriminate Hw].
  cbn [mbind option_bind] in E. apply andb_prop in Hw as [Hw Hp].
  destruct (syncing (w_threads w !! 0%nat)) as [[upstream profiles]|] eqn:Ht; [|discriminate Hw]. apply syncing_inv in Ht.
  assert (is_Some (publishers (w_service w) !! "office"%string)) as Hsome
    by (destruct (publishers (w_service w) !! "office"%string); [eexists; reflexivity|discriminate Hp]).
  destruct (refresh_published office_cfg started 0 "office" upstream profiles (a4_queue "monochrome") None
    (started + 10 * Second) LiveContext (started + 10 * Second) w w' Ht eq_refl Hsome E) as (p & Hpub & _ & Hpn & _).
  destruct (Hpn Hs) as (_ & _ & pub & Hp1 & _). exists w', p. exact (conj eq_refl (conj Hpub (conj Hs (ex_intro _ pub Hp1)))).
Defined.
