(* ===== verification/RetryTheorems.v ===== *)
(** * The retry loops of the service ([Lifecycle.v])

    A queue has at most one retry loop, of at most six attempts, and none is
    started once the service is closing. The loops of refresh and maintenance
    are of configured queues, and run at most one refresh each. *)

From Stdlib Require Import ZArith Lia Ascii String.
From stdpp Require Import base tactics list strings gmap sets.
From S2P Require Import Prelude GoString GoError GoTime GoUrl Goipp IppAttrs MediaCatalog Normalizer Formats Messages.
From S2P Require Import Configuration PrinterDescription Capabilities CapabilityTheorems Discovery DiscoveryTheorems Publisher.
From S2P Require Import Lifecycle LifecycleTheorems.

Local Open Scope nat_scope.

Section theorems.
Context `{G : GoippLib} `{U : UUIDs} `{R : MapRange} `{I : IPLiterals} `{Sim : Similarity} {P : Type} `{Pub : Publisher P}.
Context (cfg : Config) (startedAt : time).
Implicit Types (s : Service P) (w : World P).

(** The queues of the retry loops. *)
Definition loop_queue (t : thread) : option string := match t with Retry queue _ _ _ _ => Some queue | Refresh _ _ => None end.
Definition loops (threads : gmap nat thread) : gmap nat string := omap loop_queue threads.

(** The stages a loop has left in its attempt, and in all of its attempts. *)
Definition stage_number (stage : retry_stage) : nat :=
  match stage with Waiting => 0 | Reading _ => 1 | Preparing _ _ => 2 | Retrying _ => 3 | Noting _ _ => 4 end.
Definition rank (t : thread) : nat :=
  match t with Refresh _ _ => 0 | Retry _ _ attempt _ stage => (max_retries - attempt) * 5 - stage_number stage end.
Definition delays : list Z := ((fun n => n * Second) <$> [1; 2; 4; 8; 16])%Z.
Definition in_bounds (t : thread) : Prop :=
  match t with
  | Refresh _ _ => True
  | Retry _ _ attempt delay _ => attempt < max_retries /\ delay ∈ delays
  end.

Lemma loops_insert_retry threads t queue name attempt delay stage :
  loops (<[t := Retry queue name attempt delay stage]> threads) = <[t := queue]> (loops threads).
Proof. by apply omap_insert_Some. Qed.
Lemma loops_insert_refresh threads t queue stage : loops threads !! t = None -> loops (<[t := Refresh queue stage]> threads) = loops threads.
Proof. intros H. unfold loops. rewrite omap_insert_None by done. by apply delete_id. Qed.
Lemma loops_delete threads t : loops (delete t threads) = delete t (loops threads).
Proof. apply omap_delete. Qed.
Lemma loops_lookup threads t queue : loops threads !! t = Some queue <->
  exists name attempt delay stage, threads !! t = Some (Retry queue name attempt delay stage).
Proof.
  unfold loops. rewrite lookup_omap. split.
  - destruct (threads !! t) as [[|q name attempt delay stage]|]; try done. intros [= <-]. by exists name, attempt, delay, stage.
  - by intros (? & ? & ? & ? & ->).
Qed.
Lemma no_retries_loops threads : no_retries threads = true <-> loops threads = ∅.
Proof.
  unfold no_retries. rewrite forallb_forall. split.
  - intros H. apply map_empty. intros t. destruct (loops threads !! t) as [queue|] eqn:E; [|done].
    apply loops_lookup in E as (name & a & d & st & E). apply elem_of_map_to_list, list_elem_of_In in E. by specialize (H _ E).
  - intros H [t x] Hin%list_elem_of_In%elem_of_map_to_list. destruct x as [q st|q name a d st]; [done|].
    assert (loops threads !! t = Some q) as E by (apply loops_lookup; eauto). by rewrite H, lookup_empty in E.
Qed.

(** ** One step *)

Lemma refresh_flags e queue printer stage s next s' : refresh_step cfg startedAt e queue printer stage s = Some (next, s') ->
  closing s' = closing s /\ dom (publishers s') = dom (publishers s) /\
  dnsRetrying s' = match scheduled queue stage s with Some _ => <[queue := true]> (dnsRetrying s) | None => dnsRetrying s end.
Proof.
  intros H. destruct stage, e; try done; cbn in H |- *.
  - injection H as _ <-. auto. - injection H as _ <-. auto. - injection H as _ <-. auto.
  - destruct (publishers s !! queue) as [p|] eqn:Hp; [|done]. destruct (call_publisher ctx action p). injection H as _ <-.
    cbn. split_and!; try done. apply elem_of_dom_2 in Hp. set_solver.
  - injection H as _ <-. auto.
  - destruct (closing s) eqn:Hc, (is_retrying queue s); injection H as _ <-; auto.
  - injection H as _ <-. auto.
Qed.
Lemma next_delay_delays delay : delay ∈ delays -> next_delay delay ∈ delays.
Proof. apply (Forall_forall (fun d => next_delay d ∈ delays) delays). apply (bool_decide_unpack _). vm_compute. exact Logic.I. Qed.
(** What a step of a loop leaves of it. *)
Definition next_ok (queue : string) (name : option string) (old : thread) s (next : option (nat * Z * retry_stage)) s' : Prop :=
  closing s' = closing s /\ dom (publishers s') = dom (publishers s) /\
  match next with
  | Some (attempt', delay', stage') => dnsRetrying s' = dnsRetrying s /\ in_bounds (Retry queue name attempt' delay' stage') /\
      rank (Retry queue name attempt' delay' stage') < rank old
  | None => dnsRetrying s' = <[queue := false]> (dnsRetrying s)
  end.
Section attempt.
Context (queue : string) (name : option string) (attempt : nat) (delay : Z) (s : Service P).
Context (next : option (nat * Z * retry_stage)) (s' : Service P).
Hypothesis Hb : in_bounds (Retry queue name attempt delay Waiting).
Local Abbreviation old stage := (Retry queue name attempt delay stage).

Lemma stop_next stage : stop_retry queue s = Some (next, s') -> next_ok queue name (old stage) s next s'.
Proof. intros [= <- <-]. by split_and!. Qed.
Lemma again_next s0 action status delay' : closing s0 = closing s -> publishers s0 = publishers s -> dnsRetrying s0 = dnsRetrying s ->
  delay' ∈ delays -> again queue attempt delay' s0 = Some (next, s') -> next_ok queue name (old (Noting action status)) s next s'.
Proof.
  intros Hc Hp Hr Hd. unfold again. destruct (S attempt <? max_retries) eqn:Hl.
  - apply Nat.ltb_lt in Hl. intros [= <- <-]. unfold next_ok, rank. cbn [stage_number]. rewrite Hc, Hp, Hr. split_and!; try done. lia.
  - intros [= <- <-]. unfold next_ok. cbn. by rewrite Hc, Hp, Hr.
Qed.
Lemma noted_next action' status status' now : attempt_noted queue attempt delay status now s = Some (next, s') ->
  next_ok queue name (old (Noting action' status')) s next s'.
Proof.
  unfold attempt_noted. destruct (_ =? _)%string; [apply again_next; try done; by apply next_delay_delays, Hb|].
  intros [= <- <-]. by split_and!.
Qed.
Lemma called_next degrade action : attempt_call queue degrade attempt delay action s = Some (next, s') ->
  next_ok queue name (old (Retrying action)) s next s'.
Proof.
  unfold attempt_call. destruct (publishers s !! queue) as [p|] eqn:Hp; [|done]. destruct (call_publisher _ action p).
  intros [= <- <-]. destruct Hb as [Ha Hd]. unfold next_ok, rank. cbn [stage_number].
  split_and!; try done; [cbn; apply elem_of_dom_2 in Hp; set_solver|lia].
Qed.
Lemma go_next stage stage' : stage_number stage < stage_number stage' -> next = Some (attempt, delay, stage') -> s' = s ->
  next_ok queue name (old stage) s next s'.
Proof.
  intros Hl -> ->. destruct Hb as [Ha Hd]. unfold next_ok, rank. split_and!; try done.
  assert (stage_number stage' <= 4) by (destruct stage'; cbn; lia). lia.
Qed.
End attempt.

Lemma retry_next e queue printer name attempt delay stage s next s' :
  retry_step cfg startedAt e queue printer name attempt delay stage s = Some (next, s') ->
  in_bounds (Retry queue name attempt delay stage) -> next_ok queue name (Retry queue name attempt delay stage) s next s'.
Proof.
  intros H Hb.
  assert (forall n, update_retry_step cfg startedAt e queue printer n attempt delay stage s = Some (next, s') ->
    next_ok queue name (Retry queue name attempt delay stage) s next s') as Hu.
  { clear H. intros n H. destruct stage as [| | |action|action status], e; try done; cbn in H; try (by destruct action).
    - destruct (not_published _ _ _); [by eapply stop_next|injection H as <- <-; eapply go_next; try done; cbn; lia].
    - by eapply stop_next.
    - injection H as <- <-. eapply go_next; try done; cbn; lia.
    - destruct (input_action _ _ _ _ _ _ _ _ _); injection H as <- <-; eapply go_next; try done; cbn; lia.
    - by eapply called_next.
    - destruct action; [by eapply noted_next..|]. eapply again_next in H; [exact H|done..|apply Hb]. }
  destruct name as [n|]; [by apply (Hu n)|]. destruct stage as [| | |action|action status]; try by apply (Hu ""%string).
  - destruct e; try done; cbn in H; [injection H as <- <-; eapply go_next; try done; cbn; lia|].
    destruct (closing s); [by eapply stop_next|done].
  - destruct e; try done. by eapply called_next.
  - destruct e; try done. by eapply noted_next.
Qed.

(** ** Every interleaving *)

Lemma next_goroutine_new w : w_threads w !! next_goroutine w = None /\ w_loops w !! next_goroutine w = None.
Proof.
  pose proof (is_fresh (dom (w_threads w) ∪ dom (w_loops w))) as H. apply not_elem_of_union in H as [H1 H2].
  split; by apply not_elem_of_dom.
Qed.

(** A loop of [s.loopWG] is of configured queues, and only one of a queue is a
    thread, a refresh of its queue, and that while it waits for its end. *)
Definition managed (th : option thread) (l : nat * loop) : Prop :=
  match l.2 with
  | RefreshLoop queues => th = None /\ Forall (fun queue => is_Some (Printers cfg !! queue)) queues /\ length queues <= base.size (Printers cfg)
  | QueueLoop queue stage => is_Some (Printers cfg !! queue) /\
      match th with None => True | Some (Refresh q _) => q = queue /\ stage = Selecting | Some (Retry _ _ _ _ _) => False end
  | MaintenanceLoop _ => th = None
  end.
Definition all_managed (threads : gmap nat thread) (m : gmap nat (nat * loop)) : Prop := map_Forall (fun t l => managed (threads !! t) l) m.
(** Threads that are elsewhere, or refreshes that go on or end. *)
Definition goes_on (th th' : option thread) : Prop :=
  th' = th \/ exists queue stage, th = Some (Refresh queue stage) /\ (th' = None \/ exists stage', th' = Some (Refresh queue stage')).
Lemma managed_goes_on th th' l : goes_on th th' -> managed th l -> managed th' l.
Proof.
  intros [-> |(q & st & -> & H)]; [done|]. unfold managed. destruct l.2; [by intros [? _]| |done].
  intros [Hp [-> ->]]. destruct H as [-> |[st' ->]]; done.
Qed.
Lemma all_managed_threads threads threads' m : (forall t, is_Some (m !! t) -> goes_on (threads !! t) (threads' !! t)) ->
  all_managed threads m -> all_managed threads' m.
Proof. intros H Hm t l Hl. eapply managed_goes_on; [apply H; eauto|by apply Hm]. Qed.
Lemma all_queues : Forall (fun queue => is_Some (Printers cfg !! queue)) (map fst (range (Printers cfg))) /\
  length (map fst (range (Printers cfg))) <= base.size (Printers cfg).
Proof.
  split.
  - apply Forall_forall. intros q ([q' printer] & <- & H)%list_elem_of_In%in_map_iff. rewrite <- list_elem_of_In, range_perm in H.
    apply elem_of_map_to_list in H. eauto.
  - rewrite length_map, range_perm, length_map_to_list. done.
Qed.
Lemma loops_managed t e w loops' ended : loops_stepped cfg t e w loops' ended -> all_managed (w_threads w) (w_loops w) ->
  all_managed (w_threads w) loops'.
Proof.
  intros H Hm. destruct H as [caller Hc He|caller l Hc Ht El Hl|caller He|caller l l' Ht El Hs Hn Hb|caller l Ht El He Hd|caller queue queues He Ht El];
    try done.
  - apply map_Forall_insert_2; [|done]. rewrite Ht. destruct all_queues. by destruct Hl as [-> | ->].
  - apply map_Forall_insert_2; [|done]. specialize (Hm _ _ El). cbn beta in Hm. rewrite Ht in *.
    destruct l as [[]|q []|[]], e, (loop_done caller w); cbn in Hs; try done; injection Hs as <-; try done.
    all: destruct Hm as [Hq _]; by destruct (printerAvailable q (w_service w)).
  - by apply map_Forall_delete.
  - specialize (Hm _ _ El) as Hq. unfold managed in Hq. cbn in Hq. destruct Hq as (_ & [Hq Hqs]%Forall_cons & Hlen).
    apply map_Forall_insert_2; [|apply map_Forall_insert_2; [|done]].
    + by rewrite (proj1 (next_goroutine_new w)).
    + rewrite Ht. split; [done|]. split; [done|]. cbn in Hlen. lia.
Qed.
Lemma begun_managed t e w queue loops' : w_threads w !! t = None -> begun cfg t e w queue loops' -> all_managed (w_threads w) (w_loops w) ->
  is_Some (Printers cfg !! queue) /\ all_managed (<[t := Refresh queue Asking]> (w_threads w)) loops'.
Proof.
  intros Ht H Hm. assert (all_managed (<[t := Refresh queue Asking]> (w_threads w)) (delete t (w_loops w))) as Hd.
  { apply (all_managed_threads (w_threads w)); [|by apply map_Forall_delete]. intros t' [l [Hne _]%lookup_delete_Some]. left.
    by apply lookup_insert_ne. }
  destruct H as [printer He El Hp|caller He El].
  - rewrite <- (delete_id (w_loops w) t) by done. eauto.
  - destruct (Hm _ _ El) as [Hq _]. split; [done|]. rewrite <- (insert_delete_eq (w_loops w)). apply map_Forall_insert_2; [|exact Hd].
    by rewrite lookup_insert_eq.
Qed.

Record retries_ok w : Prop := {
  ro_flag queue : is_retrying queue (w_service w) = true <-> exists t, loops (w_threads w) !! t = Some queue;
  ro_one t t' queue : loops (w_threads w) !! t = Some queue -> loops (w_threads w) !! t' = Some queue -> t = t';
  ro_bounds : map_Forall (fun _ t => in_bounds t /\ is_Some (Printers cfg !! thread_queue t)) (w_threads w);
  ro_publishers : dom (publishers (w_service w)) = dom (Printers cfg);
  ro_closed : w_closed w = true -> closing (w_service w) = true /\ loops (w_threads w) = ∅;
  ro_managed : all_managed (w_threads w) (w_loops w)
}.
Lemma is_retrying_insert queue q b s s' : dnsRetrying s' = <[queue := b]> (dnsRetrying s) ->
  is_retrying q s' = if decide (q = queue) then b else is_retrying q s.
Proof.
  intros E. unfold is_retrying. rewrite E. destruct (decide (q = queue)) as [->|Hne]; [by rewrite lookup_insert_eq|].
  by rewrite lookup_insert_ne by congruence.
Qed.

(** The loops over a step: none is new once the service is closing. *)
Lemma refresh_loops threads t n queue stage next retry : threads !! t = Some (Refresh queue stage) ->
  let threads' := match next with Some stage' => <[t := Refresh queue stage']> threads | None => delete t threads end in
  loops (match retry with Some r => <[n := r]> threads' | None => threads' end) =
  match retry ≫= loop_queue with
  | Some q => <[n := q]> (loops threads)
  | None => match retry with Some _ => delete n (loops threads) | None => loops threads end
  end.
Proof.
  intros Ht threads'. assert (loops threads !! t = None) as Hl by (unfold loops; by rewrite lookup_omap, Ht).
  assert (loops threads' = loops threads) as Hs.
  { unfold threads'. destruct next; [by apply loops_insert_refresh|]. rewrite loops_delete. by apply delete_id. }
  destruct retry as [[q st|q name a d st]|]; cbn; [|by rewrite loops_insert_retry, Hs|done].
  unfold loops at 1. rewrite omap_insert_None by done. fold (loops threads'). by rewrite Hs.
Qed.
Lemma refresh_managed w t queue stage next retry : w_threads w !! t = Some (Refresh queue stage) -> all_managed (w_threads w) (w_loops w) ->
  let threads := match next with Some stage' => <[t := Refresh queue stage']> (w_threads w) | None => delete t (w_threads w) end in
  all_managed (match retry with Some r => <[next_goroutine w := r]> threads | None => threads end) (w_loops w).
Proof.
  intros Ht. apply all_managed_threads. intros t0 [l Hl].
  assert (forall retry : option thread, (match retry with Some r => <[next_goroutine w := r]>
    match next with Some stage' => <[t := Refresh queue stage']> (w_threads w) | None => delete t (w_threads w) end | None =>
    match next with Some stage' => <[t := Refresh queue stage']> (w_threads w) | None => delete t (w_threads w) end end) !! t0 =
    match next with Some stage' => <[t := Refresh queue stage']> (w_threads w) | None => delete t (w_threads w) end !! t0) as ->.
  { intros [x|]; [|done]. apply lookup_insert_ne. intros <-. by rewrite (proj2 (next_goroutine_new w)) in Hl. }
  destruct (decide (t0 = t)) as [->|Hne].
  - right. exists queue, stage. split; [done|]. destruct next; [right; rewrite lookup_insert_eq; eauto|left; apply lookup_delete_eq].
  - left. destruct next; [by rewrite lookup_insert_ne|by rewrite lookup_delete_ne].
Qed.
Lemma retries_ok_refresh w t e queue stage printer next s' : retries_ok w -> w_threads w !! t = Some (Refresh queue stage) ->
  Printers cfg !! queue = Some printer ->
  refresh_step cfg startedAt e queue printer stage (w_service w) = Some (next, s') ->
  retries_ok (set_threads s'
    (let threads := match next with Some stage' => <[t := Refresh queue stage']> (w_threads w) | None => delete t (w_threads w) end in
     match scheduled queue stage (w_service w) with
     | Some retry => <[next_goroutine w := retry]> threads | None => threads end) w).
Proof.
  intros [Hf Ho Hb Hd Hc Hm] Ht Hp H. destruct (refresh_flags _ _ _ _ _ _ _ H) as (Hclose & Hdom & Hr).
  pose proof (refresh_loops _ _ (next_goroutine w) _ _ next (scheduled queue stage (w_service w)) Ht) as Hl. cbv zeta in Hl.
  pose proof (refresh_managed w t queue stage next (scheduled queue stage (w_service w)) Ht Hm) as Hm'. cbv zeta in Hm'.
  assert (map_Forall (fun _ t => in_bounds t /\ is_Some (Printers cfg !! thread_queue t))
    match next with Some stage' => <[t := Refresh queue stage']> (w_threads w) | None => delete t (w_threads w) end) as Hn.
  { destruct next; [apply map_Forall_insert_2; [cbn; eauto|done]|by apply map_Forall_delete]. }
  assert (loops (w_threads w) !! next_goroutine w = None) as Hfresh.
  { unfold loops. rewrite lookup_omap. by rewrite (proj1 (next_goroutine_new w)). }
  destruct (scheduled queue stage (w_service w)) as [r|] eqn:Hs; split; cbn [w_service w_threads w_closed w_loops set_threads]; cbv zeta;
    rewrite ?Hl, ?Hclose, ?Hdom; try done; cycle -1.
  - intros q. rewrite <- Hf. unfold is_retrying. by rewrite Hr.
  - apply scheduled_retry in Hs as (action & name & -> & _ & Hnot & ->). cbn [mbind option_bind loop_queue].
    intros q. rewrite (is_retrying_insert queue q true (w_service w)) by done. destruct (decide (q = queue)) as [->|Hne].
    + split; [|done]. intros _. exists (next_goroutine w). by rewrite lookup_insert_eq.
    + rewrite Hf. split; intros [t' Ht'].
      * exists t'. by rewrite lookup_insert_ne by (intros <-; congruence).
      * exists t'. apply lookup_insert_Some in Ht' as [[_ ?]|[_ ?]]; [congruence|done].
  - apply scheduled_retry in Hs as (action & name & -> & _ & Hnot & ->). cbn [mbind option_bind loop_queue].
    intros t1 t2 q H1 H2. apply lookup_insert_Some in H1 as [[<- <-]|[Hn1 H1]]; apply lookup_insert_Some in H2 as [[<- Hq]|[Hn2 H2]];
      try done; [| |by eapply Ho].
    + assert (is_retrying queue (w_service w) = true) by (apply Hf; eauto). congruence.
    + subst q. assert (is_retrying queue (w_service w) = true) by (apply Hf; eauto). congruence.
  - apply scheduled_retry in Hs as (action & name & -> & _ & Hnot & ->). apply map_Forall_insert_2; [|done].
    split; [|cbn; eauto]. split; [vm_compute; lia|]. unfold delays. apply list_elem_of_here.
  - apply scheduled_retry in Hs as (action & name & -> & Hopen & _ & _). intros [Hcl _]%Hc. congruence.
Qed.
Lemma retry_not_managed threads m t queue name attempt delay stage l : all_managed threads m ->
  threads !! t = Some (Retry queue name attempt delay stage) -> m !! t = Some l -> False.
Proof. intros Hm Ht Hl. specialize (Hm _ _ Hl). cbn beta in Hm. rewrite Ht in Hm. unfold managed in Hm. destruct l.2; naive_solver. Qed.
Lemma retries_ok_retry w t e queue name attempt delay stage printer next s' : retries_ok w ->
  w_threads w !! t = Some (Retry queue name attempt delay stage) -> Printers cfg !! queue = Some printer ->
  retry_step cfg startedAt e queue printer name attempt delay stage (w_service w) = Some (next, s') ->
  retries_ok (set_threads s' match next with
                             | Some (attempt', delay', stage') => <[t := Retry queue name attempt' delay' stage']> (w_threads w)
                             | None => delete t (w_threads w) end w).
Proof.
  intros [Hf Ho Hb Hd Hc Hm] Ht Hp H.
  assert (all_managed match next with
                      | Some (attempt', delay', stage') => <[t := Retry queue name attempt' delay' stage']> (w_threads w)
                      | None => delete t (w_threads w) end (w_loops w)) as Hm'.
  { revert Hm. intros Hm. eapply all_managed_threads, Hm. intros t0 [l Hl]. left.
    assert (t0 <> t) as Hne by (intros ->; exact (retry_not_managed _ _ _ _ _ _ _ _ _ Hm Ht Hl)).
    destruct next as [[[? ?] ?]|]; [by rewrite lookup_insert_ne|by rewrite lookup_delete_ne]. } destruct (Hb _ _ Ht) as [Hin _].
  destruct (retry_next _ _ _ _ _ _ _ _ _ _ H Hin) as (Hclose & Hdom & Hr).
  assert (loops (w_threads w) !! t = Some queue) as Hl by (apply loops_lookup; eauto).
  assert (w_closed w = false) as Hopen by (destruct (w_closed w); [|done]; destruct (Hc eq_refl) as [_ E]; by rewrite E, lookup_empty in Hl).
  destruct next as [[[attempt' delay'] stage']|].
  - destruct Hr as (Hr & Hin' & _). split; cbn [w_service w_threads w_closed w_loops set_threads set_loops]; rewrite ?loops_insert_retry, ?(insert_id _ _ _ Hl), ?Hdom; try done.
    + intros q. rewrite <- Hf. unfold is_retrying. by rewrite Hr.
    + apply map_Forall_insert_2; [|done]. split; [done|]. cbn. eauto.
    + congruence.
  - split; cbn [w_service w_threads w_closed w_loops set_threads set_loops]; rewrite ?loops_delete, ?Hdom; try done.
    + intros q. rewrite (is_retrying_insert queue q false (w_service w)) by done. destruct (decide (q = queue)) as [->|Hne].
      * split; [done|]. intros [t' [Hn Ht']%lookup_delete_Some]. by rewrite (Ho _ _ _ Hl Ht') in Hn.
      * rewrite Hf. split; intros [t' Ht']; exists t'; [apply lookup_delete_Some|by apply lookup_delete_Some in Ht' as [_ ?]].
        split; [|done]. intros <-. congruence.
    + intros t1 t2 q [_ H1]%lookup_delete_Some [_ H2]%lookup_delete_Some. by eapply Ho.
    + by apply map_Forall_delete.
    + congruence.
Qed.
Lemma retries_ok_step w t e w' : retries_ok w -> step cfg startedAt t e w = Some w' -> retries_ok w'.
Proof.
  intros Hok H. apply step_inv in H as [He|He Hcl Hn Hr|loops' ended _ Hs|queue loops' Hnone Hs|queue stage printer next s' _ Ht Hp H|
    queue name attempt delay stage printer next s' _ Ht Hp H].
  - destruct Hok as [Hf Ho Hb Hd Hc Hm]. split; try done. intros Hw. by destruct (Hc Hw).
  - destruct Hok as [Hf Ho Hb Hd Hc Hm]. split; try done; [|intros _; split; [done|by apply no_retries_loops]].
    cbn. by rewrite dom_fmap_L.
  - destruct Hok as [Hf Ho Hb Hd Hc Hm]. split; try done. exact (loops_managed _ _ _ _ _ Hs Hm).
  - destruct Hok as [Hf Ho Hb Hd Hc Hm]. destruct (begun_managed _ _ _ _ _ Hnone Hs Hm) as [Hq Hm'].
    assert (loops (<[t := Refresh queue Asking]> (w_threads w)) = loops (w_threads w)) as Hl
      by (apply loops_insert_refresh; unfold loops; by rewrite lookup_omap, Hnone).
    split; cbn [w_service w_threads w_closed w_loops set_threads set_loops]; rewrite ?Hl; try done.
    apply map_Forall_insert_2; [|done]. cbn. eauto.
  - by eapply retries_ok_refresh.
  - by eapply retries_ok_retry.
Qed.
Lemma retries_ok_reachable publisher w : reachable cfg startedAt publisher w -> retries_ok w.
Proof.
  induction 1; [|by eapply retries_ok_step]. split; cbn; try done.
  - intros q. unfold is_retrying. cbn. rewrite lookup_empty. split; [done|]. intros [t Ht]. unfold loops in Ht.
    by rewrite omap_empty, lookup_empty in Ht.
  - by rewrite dom_fmap_L.
Qed.

(** C28: In every interleaving the flag of a queue says exactly whether it has a
    retry loop, it never has two, every loop is of a configured queue, within
    its six attempts and its delays of 1, 2, 4, 8 or 16 seconds, and when the
    publishers are closed no loop is left. *)
Theorem one_retry_loop publisher w : reachable cfg startedAt publisher w ->
  (forall queue, is_retrying queue (w_service w) = true <-> exists t, loops (w_threads w) !! t = Some queue) /\
  (forall t t' queue, loops (w_threads w) !! t = Some queue -> loops (w_threads w) !! t' = Some queue -> t = t') /\
  (forall t queue name attempt delay stage, w_threads w !! t = Some (Retry queue name attempt delay stage) ->
     attempt < 6 /\ delay ∈ delays /\ is_Some (Printers cfg !! queue)) /\
  (w_closed w = true -> closing (w_service w) = true /\ loops (w_threads w) = ∅).
Proof.
  intros [Hf Ho Hb _ Hc _]%retries_ok_reachable. split_and!; try done. intros t queue name a d st H.
  destruct (Hb _ _ H) as [[Ha Hd] Hq]. done.
Qed.

End theorems.

(** ** A queue whose publisher is unavailable *)

#[local] Existing Instances goipp_example no_ip6 urn_prefixed visit_in_order same_texts.
Definition no_avahi : StubPublisher := newStubPlatformPublisher example_dnssd.
(** A refresh that leaves a loop behind, two of its attempts, and a second
    refresh meanwhile; then [Close]. *)
Definition attempt_events (t : nat) (s : Z) : list (nat * event) :=
  let now := (started + s * Second)%Z in [(t, Timer); (t, Sync None now); (t, Sync None now); (t, Call LiveContext); (t, Record_ now)].
Definition retrying_world : option (World StubPublisher) :=
  run office_cfg started (refresh_events 0 10 ++ [(0, Schedule)] ++ attempt_events 1 11 ++ refresh_events 2 12 ++ [(2, Schedule)] ++
    attempt_events 1 13) (new_world office_cfg started no_avahi).

Lemma one_retry_loop_witness : exists w, retrying_world = Some w /\
  w_threads w !! 1 = Some (Retry "office" (Some "Office"%string) 2 (4 * Second)%Z Waiting) /\ is_retrying "office" (w_service w) = true.
Proof.
  assert (match retrying_world with
          | Some w => match w_threads w !! 1 with
                      | Some (Retry q name attempt delay Waiting) =>
                          bool_decide (q = "office"%string /\ name = Some "Office"%string /\ attempt = 2 /\ delay = (4 * Second)%Z)
                      | _ => false end
          | None => false end = true) as Hw by (vm_compute; reflexivity).
  destruct retrying_world as [w|] eqn:E; [|discriminate Hw]. exists w.
  destruct (w_threads w !! 1) as [[|q name attempt delay stage]|] eqn:Ht; [discriminate Hw| |discriminate Hw].
  destruct stage; try discriminate Hw. apply bool_decide_eq_true_1 in Hw. destruct Hw as (Hq & Hn & Ha & Hd). subst q name attempt delay.
  split; [reflexivity|]. split; [reflexivity|].
  destruct (one_retry_loop office_cfg started no_avahi w
    (run_reachable office_cfg started no_avahi _ _ w (reach_new _ _ _) E)) as (Hf & _).
  apply (Hf "office"%string). exists 1. apply loops_lookup. exists (Some "Office"%string), 2, (4 * Second)%Z, Waiting. exact Ht.
Defined.
