(* ===== verification/CloseTheorems.v ===== *)
(** * What [Close] waits for ([Lifecycle.v])

    [Close] waits for the loops of [s.loopWG] and for the retries: once the
    service is closing none of either is begun, what there is of them takes a
    bounded number of steps, can always go on, and when none is left the
    publishers are closed. A call of a printer, of a publisher or of the store is
    a step, and so returns. *)

From Stdlib Require Import ZArith Lia Ascii String.
From stdpp Require Import base tactics list strings gmap sets.
From S2P Require Import Prelude GoString GoError GoTime GoUrl Goipp IppAttrs MediaCatalog Normalizer Formats Messages.
From S2P Require Import Configuration PrinterDescription Capabilities CapabilityTheorems Discovery DiscoveryTheorems Publisher.
From S2P Require Import Lifecycle LifecycleTheorems RetryTheorems.

Local Open Scope nat_scope.

(** The sum of the numbers of a map. *)
Definition total (m : gmap nat nat) : nat := map_fold (fun _ r n => r + n) 0 m.
Lemma total_at m t : total m = default 0 (m !! t) + total (delete t m).
Proof.
  destruct (m !! t) as [r|] eqn:E; [|by rewrite delete_id]. unfold total.
  by apply (map_fold_delete_L (fun _ r n => r + n)); [intros; lia|].
Qed.
Lemma total_bound m c : map_Forall (fun _ r => r <= c) m -> total m <= c * base.size m.
Proof.
  induction m as [|t r m Hn IH] using map_ind; intros H; [unfold total; rewrite map_fold_empty; lia|].
  apply map_Forall_insert_1_1 in H as Hr. apply map_Forall_insert_1_2 in H; [|done]. specialize (IH H).
  rewrite (total_at _ t), lookup_insert_eq, delete_insert_id, map_size_insert_None by done. cbn [default from_option id]. lia.
Qed.

Section theorems.
Context `{G : GoippLib} `{U : UUIDs} `{R : MapRange} `{I : IPLiterals} `{Sim : Similarity} {P : Type} `{Pub : Publisher P}.
Context (cfg : Config) (startedAt : time).
Implicit Types (s : Service P) (w : World P).

(** ** The goroutines [Close] waits for *)

(** The loops and the retries. *)
Definition awaited w : gset nat := dom (w_loops w) ∪ dom (loops (w_threads w)).

(** The steps a goroutine has left, when its ticker is silent: a refresh has
    seven, a loop that waits returns, and the loop of the queues launches what
    it has left to launch. *)
Definition refresh_left (stage : refresh_stage) : nat :=
  match stage with
  | Asking => 7 | Committing _ _ _ => 6 | Syncing _ _ => 5 | Calling _ => 4 | Recording _ _ => 3 | Scheduling _ => 2 | Ending _ => 1
  end.
Definition thread_left (th : option thread) : nat := match th with Some (Refresh _ stage) => refresh_left stage | _ => 0 end.
Definition loop_left (l : loop) : nat :=
  match l with
  | RefreshLoop queues => 11 * length queues + 1
  | QueueLoop _ Opening => 10
  | QueueLoop _ Due => 9
  | QueueLoop _ Selecting => 1
  | MaintenanceLoop running => if running then 2 else 1
  end.
Definition left_of (th : option thread) (l : option (nat * loop)) : option nat :=
  match l, th with
  | Some (_, l), _ => Some (thread_left th + loop_left l)
  | None, Some (Retry _ _ _ _ _ as r) => Some (rank r)
  | None, _ => None
  end.
Definition steps_left w : gmap nat nat := merge left_of (w_threads w) (w_loops w).

(** An event of a goroutine itself. *)
Definition own (e : event) : bool :=
  match e with
  | StartRefresh _ | StartRefreshLoop _ | StartMaintenanceLoop _ | EndCaller _ | CloseService | ClosePublishers => false
  | _ => true
  end.
(** A step of a goroutine [Close] waits for. *)
Definition moves (t : nat) (e : event) w : bool := own e && bool_decide (t ∈ awaited w).
Fixpoint awaited_steps (l : list (nat * event)) w : nat :=
  match l with
  | [] => 0
  | (t, e) :: l => match step cfg startedAt t e w with
                   | Some w' => (if moves t e w then 1 else 0) + awaited_steps l w'
                   | None => 0
                   end
  end.
(** The loops the service was asked for, with their callers. *)
Definition asked_loops w : gmap nat nat :=
  omap (fun '(caller, l) => match l with QueueLoop _ _ => None | _ => Some caller end) (w_loops w).
Definition is_tick (e : event) : bool := match e with Tick => true | _ => false end.
Definition ticks (l : list (nat * event)) : nat := length (List.filter (fun '(_, e) => is_tick e) l).

Lemma steps_left_lookup w t : steps_left w !! t = left_of (w_threads w !! t) (w_loops w !! t).
Proof. unfold steps_left. rewrite lookup_merge. by destruct (w_threads w !! t), (w_loops w !! t). Qed.
Lemma dom_steps_left w : dom (steps_left w) = awaited w.
Proof.
  apply set_eq. intros t. unfold awaited. rewrite elem_of_union, !elem_of_dom, steps_left_lookup.
  unfold loops. rewrite lookup_omap. destruct (w_loops w !! t) as [[c l]|]; cbn.
  - split; [eauto|intros _; eauto].
  - destruct (w_threads w !! t) as [[]|]; cbn; split; try (by intros [??]); try (by intros [[??]|[??]]); eauto.
Qed.
Lemma steps_left_delete w w' t : (forall t', t' <> t -> w_threads w' !! t' = w_threads w !! t' /\ w_loops w' !! t' = w_loops w !! t') ->
  delete t (steps_left w') = delete t (steps_left w).
Proof.
  intros H. apply map_eq. intros t'. destruct (decide (t' = t)) as [->|Hne]; [by rewrite !lookup_delete_eq|].
  rewrite !lookup_delete_ne, !steps_left_lookup by done. by destruct (H t' Hne) as [-> ->].
Qed.
(** ** One step of a service that closes *)

Lemma refresh_left_step e queue printer stage s next s' : refresh_step cfg startedAt e queue printer stage s = Some (next, s') ->
  match next with Some stage' => refresh_left stage' | None => 0 end < refresh_left stage.
Proof.
  intros H. destruct stage, e; try done; cbn in H.
  - injection H as <- _. destruct (_ ≫= _) as [[[? ?] ?]|]; cbn; lia.
  - injection H as <- _. cbn. lia.
  - injection H as <- _. destruct (publishers s !! queue); [destruct (not_published _ _ _)|]; cbn; lia.
  - destruct (publishers s !! queue); [|done]. destruct (call_publisher _ _ _). injection H as <- _. cbn. lia.
  - injection H as <- _. destruct (_ && _); cbn; lia.
  - injection H as <- _. cbn. lia.
  - injection H as <- _. cbn. lia.
Qed.
Lemma loop_left_step e done l s l' : loop_step e done l s = Some (Some l') -> launches l = None -> begins l = None ->
  S (loop_left l') <= loop_left l + if is_tick e then 9 else 0.
Proof.
  destruct l as [[]|q []|[]], e, done; cbn; intros H Hl Hb; try discriminate; injection H as <-; cbn; try lia.
  all: destruct (printerAvailable q s); cbn; lia.
Qed.
(** What a step of [t] leaves is less, but for a tick, when it changes no other goroutine. *)
Lemma total_step w w' t e :
  (forall t', t' <> t -> w_threads w' !! t' = w_threads w !! t' /\ w_loops w' !! t' = w_loops w !! t') ->
  (if moves t e w then 1 else 0) + default 0 (left_of (w_threads w' !! t) (w_loops w' !! t)) <=
    default 0 (left_of (w_threads w !! t) (w_loops w !! t)) + (if is_tick e then 9 else 0) ->
  (if moves t e w then 1 else 0) + total (steps_left w') <= total (steps_left w) + (if is_tick e then 9 else 0).
Proof.
  intros H Hn. rewrite (total_at (steps_left w') t), (total_at (steps_left w) t), (steps_left_delete _ _ _ H), !steps_left_lookup. lia.
Qed.
Lemma moves_le t e w : (if moves t e w then 1 else 0) <= 1.
Proof. destruct (moves t e w); lia. Qed.
Lemma not_awaited t e w : w_loops w !! t = None -> loops (w_threads w) !! t = None -> moves t e w = false.
Proof.
  intros Hl Ht. unfold moves. rewrite bool_decide_eq_false_2; [by destruct (own e)|]. unfold awaited.
  rewrite elem_of_union, !elem_of_dom, Hl, Ht. by intros [[? ?]|[? ?]].
Qed.
Lemma loops_left_step t e w loops' ended : ~ is_stage e -> loops_stepped cfg t e w loops' ended -> closing (w_service w) = true ->
  let w' := {| w_service := w_service w; w_threads := w_threads w; w_closed := w_closed w; w_loops := loops'; w_ended := ended |} in
  (if moves t e w then 1 else 0) + total (steps_left w') <= total (steps_left w) + (if is_tick e then 9 else 0).
Proof.
  intros Hno H Hc w'. pose proof (moves_le t e w) as Hm.
  destruct H as [caller _ He|caller l Hc' Ht El Hl|caller He|caller l l' Ht El Hs Hn Hb|caller l Ht El He Hd|caller queue queues He Ht El].
  - apply total_step; [done|]. destruct He as [-> | ->]; cbn; lia.
  - congruence.
  - apply total_step; [done|]. subst e. cbn. lia.
  - apply total_step; subst w'; cbn [w_threads w_loops]; [intros t' Hne; by rewrite lookup_insert_ne|].
    rewrite lookup_insert_eq, Ht, El. cbn [left_of default from_option id thread_left]. pose proof (loop_left_step _ _ _ _ _ Hs Hn Hb). lia.
  - apply total_step; subst w'; cbn [w_threads w_loops]; [intros t' Hne; by rewrite lookup_delete_ne|].
    rewrite lookup_delete_eq, Ht, El. cbn [left_of default from_option id thread_left].
    assert (1 <= loop_left l) by (destruct l as [|? []|[]]; cbn; lia). lia.
  - destruct (next_goroutine_new w) as [Hnt Hnl].
    assert (next_goroutine w <> t) as Hne by (intros E; by rewrite E, El in Hnl).
    set (w1 := set_loops (<[t := (caller, RefreshLoop queues)]> (w_loops w)) w).
    assert (total (steps_left w') = 10 + total (steps_left w1)) as ->.
    { rewrite (total_at (steps_left w') (next_goroutine w)), (total_at (steps_left w1) (next_goroutine w)), !steps_left_lookup.
      rewrite (steps_left_delete w1 w' (next_goroutine w)) by (intros t' Ht'; subst w' w1; cbn; by rewrite lookup_insert_ne).
      subst w' w1. cbn [w_threads w_loops set_loops]. rewrite lookup_insert_eq, lookup_insert_ne, Hnt, Hnl by done. cbn. lia. }
    assert (S 10 + default 0 (left_of (w_threads w1 !! t) (w_loops w1 !! t)) <= default 0 (left_of (w_threads w !! t) (w_loops w !! t))) as Hle
      by (subst w1; cbn [w_threads w_loops set_loops]; rewrite lookup_insert_eq, Ht, El; cbn -[Nat.mul]; lia).
    rewrite (total_at (steps_left w1) t), (total_at (steps_left w) t), !steps_left_lookup.
    rewrite (steps_left_delete w w1 t) by (intros t' Ht'; subst w1; cbn; by rewrite lookup_insert_ne). lia.
Qed.
Lemma asked_loops_step t e w loops' ended : loops_stepped cfg t e w loops' ended -> closing (w_service w) = true ->
  asked_loops {| w_service := w_service w; w_threads := w_threads w; w_closed := w_closed w; w_loops := loops'; w_ended := ended |} ⊆ asked_loops w.
Proof.
  intros H Hc. apply map_subseteq_spec. intros t0 c. unfold asked_loops. rewrite !lookup_omap. cbn [w_loops].
  destruct H as [caller _ He|caller l Hc' Ht El Hl|caller He|caller l l' Ht El Hs Hn Hb|caller l Ht El He Hd|caller queue queues He Ht El]; try done.
  - congruence.
  - destruct (decide (t0 = t)) as [->|Hne]; [|by rewrite lookup_insert_ne]. rewrite lookup_insert_eq, El.
    destruct l as [[]|q []|[]], e, (loop_done caller w); cbn in Hs; try done; by injection Hs as <-.
  - destruct (decide (t0 = t)) as [->|Hne]; [by rewrite lookup_delete_eq|by rewrite lookup_delete_ne].
  - destruct (decide (t0 = next_goroutine w)) as [->|Hn]; [by rewrite lookup_insert_eq|]. rewrite lookup_insert_ne by done.
    destruct (decide (t0 = t)) as [->|Hne]; [|by rewrite lookup_insert_ne]. by rewrite lookup_insert_eq, El.
Qed.
Record quieter w w' : Prop := {
  qu_closing : closing (w_service w') = true;
  qu_retries : loops (w_threads w') ⊆ loops (w_threads w);
  qu_loops : asked_loops w' ⊆ asked_loops w
}.
Lemma begun_step t e w queue loops' : w_threads w !! t = None -> begun cfg t e w queue loops' -> closing (w_service w) = true ->
  let w' := set_loops loops' (set_threads (set_refreshing (insert queue true) (w_service w)) (<[t := Refresh queue Asking]> (w_threads w)) w) in
  (if moves t e w then 1 else 0) + total (steps_left w') <= total (steps_left w) + (if is_tick e then 9 else 0) /\ quieter w w'.
Proof.
  intros Hnone Hs Hcl w'. subst w'. pose proof (moves_le t e w).
  assert (loops (<[t := Refresh queue Asking]> (w_threads w)) = loops (w_threads w)) as Hl
    by (apply loops_insert_refresh; unfold loops; by rewrite lookup_omap, Hnone).
  destruct Hs as [printer -> El Hp|caller -> El].
  - split; [|split; [done|cbn [w_threads set_threads set_loops]; by rewrite Hl|done]].
    apply total_step; cbn [w_threads w_loops set_threads set_loops].
    + intros t' Hne. by rewrite lookup_insert_ne.
    + rewrite lookup_insert_eq, Hnone, El. cbn. lia.
  - split; [|split; [done|cbn [w_threads set_threads set_loops]; by rewrite Hl|]].
    + apply total_step; cbn [w_threads w_loops set_threads set_loops]; [intros t' Hne; by rewrite !lookup_insert_ne|].
      rewrite !lookup_insert_eq, Hnone, El. cbn [left_of default from_option id thread_left refresh_left loop_left is_tick]. lia.
    + apply map_subseteq_spec. intros t0 c. unfold asked_loops. rewrite !lookup_omap. cbn [w_loops set_loops].
      destruct (decide (t0 = t)) as [->|Hne]; [by rewrite lookup_insert_eq|by rewrite lookup_insert_ne].
Qed.
Lemma closing_step t e w w' : retries_ok cfg w -> closing (w_service w) = true -> step cfg startedAt t e w = Some w' ->
  (if moves t e w then 1 else 0) + total (steps_left w') <= total (steps_left w) + (if is_tick e then 9 else 0) /\ quieter w w'.
Proof.
  intros [Hf Ho Hb Hd Hc Hm] Hcl H. apply step_inv in H as [He|He _ Hl Hn|loops' ended He Hs|queue loops' Hnone Hs|
    queue stage printer next s' _ Ht Hp H|queue name attempt delay stage printer next s' _ Ht Hp H].
  - split; [|done]. apply total_step; [done|]. subst e. cbn. lia.
  - split; [|done]. apply total_step; [done|]. subst e. cbn. lia.
  - split; [by apply loops_left_step|]. split; try done. by eapply asked_loops_step.
  - by eapply begun_step.
  - destruct (refresh_flags _ _ _ _ _ _ _ _ _ H) as (Hclose & _ & _).
    assert (scheduled queue stage (w_service w) = None) as Hs by (destruct stage; try done; cbn; by rewrite Hcl). rewrite Hs.
    pose proof (refresh_loops _ _ 0 _ _ next None Ht) as Hl. cbn [mbind option_bind] in Hl. cbv zeta in Hl |- *.
    split; [|split; [cbn; by rewrite Hclose|cbn [w_threads set_threads]; by rewrite Hl|done]].
    pose proof (refresh_left_step _ _ _ _ _ _ _ H) as Hlt. pose proof (moves_le t e w).
    apply total_step; cbn [w_threads w_loops set_threads].
    + intros t' Hne. destruct next; by rewrite ?lookup_insert_ne, ?lookup_delete_ne.
    + rewrite Ht. destruct (w_loops w !! t) as [[caller l]|] eqn:El.
      * destruct next; rewrite ?lookup_insert_eq, ?lookup_delete_eq; cbn [left_of default from_option id thread_left]; lia.
      * rewrite not_awaited by (unfold loops; rewrite ?lookup_omap, ?Ht; done).
        destruct next; rewrite ?lookup_insert_eq, ?lookup_delete_eq; cbn [left_of default from_option id]; lia.
  - destruct (Hb _ _ Ht) as [Hin _]. destruct (retry_next _ _ _ _ _ _ _ _ _ _ _ _ H Hin) as (Hclose & _ & Hr).
    assert (loops (w_threads w) !! t = Some queue) as Hl by (apply loops_lookup; eauto).
    assert (w_loops w !! t = None) as El.
    { destruct (w_loops w !! t) eqn:El; [|done]. destruct (retry_not_managed _ _ _ _ _ _ _ _ _ _ Hm Ht El). }
    assert (1 <= rank (Retry queue name attempt delay stage)) as Hrank.
    { destruct Hin as [Ha _]. cbn -[max_retries]. destruct stage; cbn -[max_retries]; lia. }
    pose proof (moves_le t e w). split.
    + apply total_step; cbn [w_threads w_loops set_threads].
      * intros t' Hne. destruct next as [[[? ?] ?]|]; by rewrite ?lookup_insert_ne, ?lookup_delete_ne.
      * rewrite Ht, El. destruct next as [[[a' d'] st']|]; rewrite ?lookup_insert_eq, ?lookup_delete_eq;
          cbn [left_of default from_option id]; [|lia]. destruct Hr as (_ & _ & Hlt). lia.
    + split; [cbn; by rewrite Hclose| |done]. cbn [w_threads set_threads]. destruct next as [[[a' d'] st']|].
      * by rewrite loops_insert_retry, (insert_id _ _ _ Hl).
      * rewrite loops_delete. apply delete_subseteq.
Qed.

(** ** Every run of a service that closes *)

Lemma closing_run l : forall w w', retries_ok cfg w -> closing (w_service w) = true -> run cfg startedAt l w = Some w' ->
  awaited_steps l w + total (steps_left w') <= total (steps_left w) + 9 * ticks l /\ quieter w w'.
Proof.
  induction l as [|[t e] l IH]; intros w w' Hok Hcl H; cbn [run awaited_steps] in *; [injection H as <-; split; [cbn; lia|done]|].
  destruct (step cfg startedAt t e w) as [w1|] eqn:E; [|done]. cbn [mbind option_bind] in H.
  destruct (closing_step _ _ _ _ Hok Hcl E) as (Hn & [Hcl1 Hl1 Ha1]).
  destruct (IH _ _ (retries_ok_step _ _ _ _ _ _ Hok E) Hcl1 H) as [Hn' [Hcl2 Hl2 Ha2]].
  assert (ticks ((t, e) :: l) = (if is_tick e then 1 else 0) + ticks l) as -> by (unfold ticks; cbn; by destruct (is_tick e)).
  split; [destruct (is_tick e); lia|]. split; [done|by etrans..].
Qed.
Lemma steps_left_bound w : retries_ok cfg w -> total (steps_left w) <= (30 + 11 * base.size (Printers cfg)) * base.size (awaited w).
Proof.
  intros [_ _ _ _ _ Hm]. rewrite <- dom_steps_left, size_dom. apply total_bound. intros t r.
  rewrite steps_left_lookup. destruct (w_loops w !! t) as [[c l]|] eqn:El.
  - intros [= <-]. specialize (Hm _ _ El). unfold managed in Hm. cbn [snd] in Hm.
    assert (thread_left (w_threads w !! t) <= 7) by (destruct (w_threads w !! t) as [[? []|]|]; cbn; lia).
    destruct l as [queues|queue []|[]]; cbn [loop_left]; [|lia..]. destruct Hm as (-> & _ & Hlen). cbn [thread_left]. lia.
  - destruct (w_threads w !! t) as [[q st|q name a d st]|]; try done. intros [= <-]. cbn -[max_retries Nat.mul]. unfold max_retries. lia.
Qed.

(** A goroutine can always go on, without a tick. *)
Lemma refresh_enabled queue printer stage s : is_Some (publishers s !! queue) ->
  exists e, is_stage e /\ is_Some (refresh_step cfg startedAt e queue printer stage s).
Proof.
  intros [p Hp]. destruct stage.
  - exists (Answer 0%Z 0%Z (Err (EText ""%string))). cbn. eauto.
  - exists (Commit 0%Z 0%Z). cbn. eauto.
  - exists (Sync None 0%Z). cbn. eauto.
  - exists (Call LiveContext). split; [done|]. cbn. rewrite Hp. destruct (call_publisher _ _ _). eauto.
  - exists (Record_ 0%Z). cbn. eauto.
  - exists Schedule. cbn. eauto.
  - exists (End_ 0%Z). cbn. eauto.
Qed.
Lemma again_enabled queue attempt delay s : is_Some (again queue attempt delay s).
Proof. unfold again, stop_retry. destruct (_ <? _); eauto. Qed.
Lemma noted_enabled queue attempt delay status now s : is_Some (attempt_noted queue attempt delay status now s).
Proof. unfold attempt_noted. destruct (_ =? _)%string; [apply again_enabled|unfold stop_retry; eauto]. Qed.
Lemma call_enabled queue degrade attempt delay action s p : publishers s !! queue = Some p ->
  is_Some (attempt_call queue degrade attempt delay action s).
Proof. intros Hp. unfold attempt_call. rewrite Hp. destruct (call_publisher _ action p). eauto. Qed.
Lemma retry_enabled queue printer name attempt delay stage s : is_Some (publishers s !! queue) ->
  exists e, is_stage e /\ is_Some (retry_step cfg startedAt e queue printer name attempt delay stage s).
Proof.
  intros [p Hp]. destruct stage.
  - exists Timer. split; [done|]. destruct name; cbn; [destruct (not_published _ _ _)|]; unfold stop_retry; eauto.
  - exists (Sync None 0%Z). split; [done|]. destruct name; cbn; eauto.
  - exists (Sync None 0%Z). split; [done|]. destruct name; cbn; destruct (input_action _ _ _ _ _ _ _ _ _); eauto.
  - exists (Call LiveContext). split; [done|]. destruct name; by eapply call_enabled.
  - exists (Record_ 0%Z). split; [done|]. destruct name; destruct action; apply noted_enabled || apply again_enabled.
Qed.
Lemma stage_own t e w : is_stage e -> t ∈ awaited w -> moves t e w = true /\ is_tick e = false.
Proof. intros He Ht. unfold moves. rewrite bool_decide_eq_true_2 by done. by destruct e. Qed.
Lemma loop_enabled w t caller l : closing (w_service w) = true -> w_threads w !! t = None -> w_loops w !! t = Some (caller, l) ->
  exists e w', own e = true /\ is_tick e = false /\ step cfg startedAt t e w = Some w'.
Proof.
  intros Hc Ht El.
  assert (exists e, (e = Turn \/ e = Leave) /\ is_Some (loop_step e (loop_done caller w) l (w_service w))) as (e & He & next & Hn).
  { unfold loop_done. rewrite Hc. cbn [orb].
    destruct l as [[]|q []|[]]; solve [exists Turn; cbn; eauto|exists Leave; cbn; eauto]. }
  exists e. assert (is_Some (step_loop t e w)) as [w' Hw'].
  { unfold step_loop. rewrite El, Ht, Hn. cbn [mbind option_bind]. destruct (launches l); [eauto|]. destruct (begins l); eauto. }
  exists w'. by destruct He as [-> | ->].
Qed.
Lemma awaited_enabled w t : retries_ok cfg w -> closing (w_service w) = true -> t ∈ awaited w ->
  exists e w', moves t e w = true /\ is_tick e = false /\ step cfg startedAt t e w = Some w'.
Proof.
  intros [_ _ Hb Hd _ Hm] Hc Hin. destruct (w_threads w !! t) as [th|] eqn:Ht.
  - destruct (Hb _ _ Ht) as [_ [printer Hp]].
    assert (is_Some (publishers (w_service w) !! thread_queue th)) as Hpub by (apply elem_of_dom; rewrite Hd; apply elem_of_dom; eauto).
    destruct th as [queue stage|queue name attempt delay stage]; cbn [thread_queue] in *.
    + destruct (refresh_enabled queue printer stage _ Hpub) as (e & He & [[next s'] Hs]). exists e.
      destruct (stage_own t e w He Hin) as [-> ->].
      destruct e; try done; eexists; (split_and!; [done..|]); cbn; rewrite Ht, Hp; cbn; rewrite Hs; reflexivity.
    + destruct (retry_enabled queue printer name attempt delay stage _ Hpub) as (e & He & [[next s'] Hs]). exists e.
      destruct (stage_own t e w He Hin) as [-> ->].
      destruct e; try done; eexists; (split_and!; [done..|]); cbn; rewrite Ht, Hp; cbn; rewrite Hs; reflexivity.
  - destruct (w_loops w !! t) as [[caller l]|] eqn:El.
    + destruct (loop_enabled _ _ _ _ Hc Ht El) as (e & w' & He & Htick & Hs). exists e, w'. split; [|done].
      unfold moves. by rewrite He, bool_decide_eq_true_2.
    + unfold awaited in Hin. rewrite elem_of_union, !elem_of_dom, El in Hin. unfold loops in Hin. rewrite lookup_omap, Ht in Hin.
      by destruct Hin as [[? ?]|[? ?]].
Qed.
Lemma close_enabled w t : closing (w_service w) = true -> is_Some (step cfg startedAt t ClosePublishers w) <-> awaited w = ∅.
Proof.
  intros Hc. cbn. rewrite Hc. unfold awaited. cbn [andb]. rewrite empty_union_L, !dom_empty_iff_L, <- no_retries_loops.
  case_bool_decide; cbn [andb]; [destruct (no_retries (w_threads w))|]; split; try (by intros [? ?]); eauto.
Qed.
Lemma closed_by t w w' : step cfg startedAt t ClosePublishers w = Some w' -> w_closed w' = true.
Proof. cbn. destruct (_ && _ && _); [|done]. by intros [= <-]. Qed.
Lemma close_ends w : retries_ok cfg w -> closing (w_service w) = true ->
  exists l w', ticks l = 0 /\ run cfg startedAt l w = Some w' /\ w_closed w' = true.
Proof.
  remember (total (steps_left w)) as n eqn:En. revert w En. induction n as [n IH] using lt_wf_ind. intros w -> Hok Hc.
  destruct (decide (awaited w = ∅)) as [He|[t Ht]%set_choose_L].
  - apply (close_enabled w 0 Hc) in He as [w' Hw']. exists [(0, ClosePublishers)], w'. cbn [run]. rewrite Hw'. split_and!; try done.
    by apply closed_by in Hw'.
  - destruct (awaited_enabled w t Hok Hc Ht) as (e & w1 & Hmoves & Htick & Hs).
    destruct (closing_step _ _ _ _ Hok Hc Hs) as (Hn & [Hc1 _ _]). rewrite Hmoves, Htick in Hn.
    destruct (IH (total (steps_left w1))) with (w := w1) as (l & w' & Hl & Hr & Hcl); try done; [lia|by eapply retries_ok_step|].
    exists ((t, e) :: l), w'. unfold ticks in *. cbn [List.filter run]. rewrite Htick, Hs. done.
Qed.

(** C29: [Close] does not wait forever. Once the service is closing, whatever is
    interleaved: no retry and no loop is begun, but for the queues that a loop
    still launches; the goroutines [Close] waits for (the loops that refresh and
    clean up with the refreshes they run, and the retries) take together at
    most thirty steps, and eleven for each configured queue, for each of them,
    and nine for each tick that a loop takes before it sees that its context is
    done; each of them can always go on without a tick; the publishers are
    closed exactly when none of them is left, and whatever has happened the
    service can get there without a tick. *)
Theorem close_returns publisher w : reachable cfg startedAt publisher w -> closing (w_service w) = true ->
  (forall l w', run cfg startedAt l w = Some w' ->
     awaited_steps l w <= (30 + 11 * base.size (Printers cfg)) * base.size (awaited w) + 9 * ticks l /\
     loops (w_threads w') ⊆ loops (w_threads w) /\ asked_loops w' ⊆ asked_loops w) /\
  (forall t, t ∈ awaited w -> exists e w', moves t e w = true /\ is_tick e = false /\ step cfg startedAt t e w = Some w') /\
  (forall t, is_Some (step cfg startedAt t ClosePublishers w) <-> awaited w = ∅) /\
  exists l w', ticks l = 0 /\ run cfg startedAt l w = Some w' /\ w_closed w' = true.
Proof.
  intros Hr%retries_ok_reachable Hcl. split_and!.
  - intros l w' H. destruct (closing_run _ _ _ Hr Hcl H) as (Hn & [_ Hl Ha]). split; [|done]. pose proof (steps_left_bound _ Hr). lia.
  - intros t Ht. by apply awaited_enabled.
  - intros t. by apply close_enabled.
  - by apply close_ends.
Qed.
End theorems.

(** ** A service that closes while it refreshes and retries *)

#[local] Existing Instances goipp_example no_ip6 urn_prefixed visit_in_order same_texts.
(** A retry of the queue waits, and [main] has started its two loops, with the
    context 0: the loop of the queue, launched as the goroutine 7, finds its
    queue available, and its ticker makes it refresh the queue. *)
Definition working_world : option (World StubPublisher) :=
  retrying_world ≫= run office_cfg started
    [(5, StartRefreshLoop 0); (6, StartMaintenanceLoop 0); (5, Turn); (7, Turn); (7, Tick); (7, Turn)].
Definition closing_world : option (World StubPublisher) := working_world ≫= run office_cfg started [(0, CloseService)].
(** [Close] then waits for the retry, the two loops and the loop of the queue
    with its refresh, and closes the publishers after their last steps. *)
Example closing_ends : exists w, closing_world = Some w /\ awaited w = {[1; 5; 6; 7]} /\ step office_cfg started 0 ClosePublishers w = None /\
  exists w', run office_cfg started ([(1, Cancel); (6, Turn); (6, Leave); (5, Leave)] ++
    [(7, Answer started started (Err (EText "context canceled"%string))); (7, End_ started); (7, Leave); (0, ClosePublishers)]) w = Some w' /\
    w_closed w' = true.
Proof.
  assert (match closing_world with
          | Some w => bool_decide (awaited w = {[1; 5; 6; 7]}) && negb (some (step office_cfg started 0 ClosePublishers w)) &&
              match run office_cfg started ([(1, Cancel); (6, Turn); (6, Leave); (5, Leave)] ++
                [(7, Answer started started (Err (EText "context canceled"%string))); (7, End_ started); (7, Leave); (0, ClosePublishers)]) w with
              | Some w' => w_closed w' | None => false end
          | None => false end = true) as Hw by (vm_compute; reflexivity).
  destruct closing_world as [w|]; [|discriminate Hw]. exists w. apply andb_prop in Hw as [[Ha%bool_decide_eq_true_1 Hn]%andb_prop Hw].
  split_and!; [done|done|by destruct (step _ _ _ _ w)|]. destruct (run _ _ _ w) as [w'|]; [eauto|discriminate Hw].
Qed.
Lemma close_returns_witness : exists w, closing_world = Some w /\ awaited w = {[1; 5; 6; 7]} /\
  (forall l w', run office_cfg started l w = Some w' -> awaited_steps office_cfg started l w <= 164 + 9 * ticks l) /\
  exists l w', ticks l = 0 /\ run office_cfg started l w = Some w' /\ w_closed w' = true.
Proof.
  assert (match closing_world with
          | Some w => closing (w_service w) && bool_decide (awaited w = {[1; 5; 6; 7]})
          | None => false end = true) as Hw by (vm_compute; reflexivity).
  destruct closing_world as [w|] eqn:E; [|discriminate Hw]. exists w. apply andb_prop in Hw as [Hc Ha].
  apply bool_decide_eq_true_1 in Ha. split; [reflexivity|]. split; [exact Ha|]. unfold closing_world, working_world in E.
  destruct retrying_world as [w0|] eqn:E0; [|discriminate E]. cbn [mbind option_bind] in E.
  destruct (run office_cfg started _ w0) as [w1|] eqn:E1; [|discriminate E]. cbn [mbind option_bind] in E.
  assert (reachable office_cfg started no_avahi w) as Hr.
  { refine (run_reachable office_cfg started no_avahi _ w1 w _ E). refine (run_reachable office_cfg started no_avahi _ w0 w1 _ E1).
    exact (run_reachable office_cfg started no_avahi _ _ w0 (reach_new _ _ _) E0). }
  destruct (close_returns office_cfg started no_avahi w Hr Hc) as (Hn & _ & _ & He). split; [|exact He].
  intros l w' H. destruct (Hn l w' H) as [Hle _]. rewrite Ha in Hle. exact Hle.
Defined.
