(* ===== verification/Upstream.v ===== *)
(** * Messages to a printer, and the report of its capabilities ([internal/proxy/upstream.go, dump.go])

    [UpstreamClient.Do] with the HTTP exchange as an argument, and the report
    [-dump-printer-capabilities] writes. The body of an answer is what a reader
    gives before its end. Logging and statistics are left out. *)

From Stdlib Require Import ZArith Lia Ascii String.
From stdpp Require Import base tactics list strings gmap.
From S2P Require Import Payload Redaction.
From S2P Require Import Prelude GoString GoError GoTime GoUrl Goipp IppAttrs MediaCatalog Normalizer Formats Messages.
From S2P Require Import Configuration Lifecycle.

(** What a reader gives, and how it ends: [None] is [io.EOF]. *)
Record stream := { s_bytes : string; s_end : option goerr }.
(** A [maxBytesReader] over it: at the limit one more byte is an error. *)
Definition bounded (Max : Z) (s : stream) : stream :=
  if (0 <? Max) && (Max <? Z.of_nat (slen (s_bytes s)))
  then {| s_bytes := substring 0 (Z.to_nat Max) (s_bytes s); s_end := Some errReadLimitExceeded |} else s.

Record HTTPResponse := { StatusCode : Z; HTTPStatus : string; content_type : string; Body : stream }.
Record HTTPRequest := { q_url : string; q_content_type : string; q_accept : string; q_body : string }.

(** What the packages [goipp], [net/http] and [mime] do with messages and
    headers: encoding, the request, the exchange, the media type of a header,
    and decoding what a reader gives. *)
Class HTTPLib := {
  EncodeBytes : Message -> res goerr string;
  NewRequestWithContext : string -> option goerr;
  ParseMediaType : string -> option string;
  Decode : stream -> res goerr Response
}.
Definition ContentType : string := "application/ipp".

Record UpstreamClient := { MaxResponseBytes : Z; ProbeTimeout : Z; HTTPTimeout : Z }.
Definition NewUpstreamClient : UpstreamClient :=
  {| MaxResponseBytes := Z.shiftl 32 20; ProbeTimeout := 30 * Second; HTTPTimeout := 10 * Minute |}.

Section upstream.
Context `{G : GoippLib} `{I : IPLiterals} `{UE : UrlErrors} `{HL : HTTPLib}.

(** The end of [Do], over the answer. *)
Definition read_answer (client : UpstreamClient) (msg : Message) (resp : HTTPResponse) : res goerr Response :=
  if negb (StatusCode resp =? 200) then Err (EText (HTTPStatus resp)) else
  match ParseMediaType (content_type resp) with
  | Some mediaType =>
      if negb (EqualFold mediaType ContentType)
      then Err (EText ("upstream returned content-type " +:+ Quote (content_type resp) +:+ ", expected " +:+ ContentType)) else
      let Max := MaxResponseBytes client in
      let body := bounded Max (Body resp) in
      out ← Decode body;
      _ ← (if 0 <? Max then
             match s_end body with
             | None => Ok tt
             | Some err => if Is err errReadLimitExceeded
                           then Err (EWrap ("upstream IPP response exceeds " +:+ Itoa Max +:+ " bytes: ") err)
                           else Err (EWrap "read upstream IPP response: " err)
             end
           else Ok tt);
      match checkUpstreamResponse msg out with Some text => Err (EText text) | None => Ok out end
  | None => Err (EText ("upstream returned content-type " +:+ Quote (content_type resp) +:+ ", expected " +:+ ContentType))
  end.
Definition upstream_request (httpURL envelope : string) (payload : option string) : HTTPRequest :=
  {| q_url := httpURL; q_content_type := ContentType; q_accept := ContentType; q_body := envelope +:+ default "" payload |}.
(** [exchange] is [c.HTTP.Do]: it is asked at most once. *)
Definition Do (client : UpstreamClient) (upstreamURI : string) (msg : Message) (payload : option string)
    (exchange : HTTPRequest -> res goerr HTTPResponse) : res goerr Response :=
  httpURL ← HTTPURLFromIPP upstreamURI;
  envelope ← EncodeBytes msg;
  match NewRequestWithContext httpURL with
  | Some err => Err err
  | None => resp ← exchange (upstream_request httpURL envelope payload); read_answer client msg resp
  end.

(** ** The report of the capabilities *)

Context `{DL : DumpLib}.
Record PrinterCapabilityDump := {
  pcQueue : string; pcUpstreamURI : string; pcDisplayName : string; pcLocation : string; pcOptional : bool;
  pcStatusCode : Z; pcStatus : string; pcError : string; pcAttributes : list (string * list (string * dumped))
}.
(** The item of a queue, and whether its probe failed. *)
Definition probe_item (queue : string) (printer : PrinterConfig) (answer : res goerr Response) : PrinterCapabilityDump * bool :=
  let uri := UpstreamURI printer in
  let item code status error attrs := {|
    pcQueue := queue; pcUpstreamURI := redactDumpString uri; pcDisplayName := DisplayName printer; pcLocation := Location printer;
    pcOptional := Optional printer; pcStatusCode := code; pcStatus := status; pcError := error; pcAttributes := attrs |} in
  match answer with
  | Err err => (item 0 ""%string (safeProbeError (Some (Error_text err)) uri) [], true)
  | Ok resp =>
      let status := status_String (resCode resp) in
      let attrs := dumpAttributes (default [] (resPrinter resp)) in
      if StatusErrorBadRequest <=? resCode resp then
        let error := safeProbeError (Some (statusMessage resp)) uri in
        (item (resCode resp) status (if is_empty error then status else error) attrs, true)
      else (item (resCode resp) status ""%string attrs, false)
  end.
(** [CapabilityDumpError], as its queues. *)
Definition CapabilityDumpError_Error (queues : list string) : string :=
  "capability probe failed for printer queues: " +:+ Join queues ", ".
(** [DumpPrinterCapabilities]: the report, and the queues of the error it
    returns, if there are any. The probes run at once, and each writes only to
    the index of its queue; [now] is the clock each reads. *)
Definition probe (exchange : HTTPRequest -> res goerr HTTPResponse) (now : time) (printer : PrinterConfig) : res goerr Response :=
  Do NewUpstreamClient (UpstreamURI printer) (probe_request (UpstreamURI printer) now) None exchange.
Definition DumpPrinterCapabilities `{R : MapRange} (cfg : Config) (exchange : HTTPRequest -> res goerr HTTPResponse)
    (now : string -> time) : list PrinterCapabilityDump * option (list string) :=
  let queues := SliceStable (fun l r => String.ltb (fst l) (fst r)) (range (Printers cfg)) in
  let items := map (fun '(queue, printer) => probe_item queue printer (probe exchange (now queue) printer)) queues in
  let failed := map (fun i => pcQueue (fst i)) (List.filter snd items) in
  (map fst items, match failed with [] => None | _ => Some failed end).
End upstream.
