(* ===== verification/Diagnostics.v ===== *)
(** * Readiness and the dump of the state ([internal/proxy/service.go, diagnostics.go, diagnostic_plugins_avahi.go])

    What [/readyz] answers, and the sections of the state dump, of the service
    as [Lifecycle.v] keeps it. A value of Go's [any] is a [report]; the fields
    of a [map[string]any] are listed in the order of the source, which is not
    the order they are printed in. The maps of queues are visited in the order
    of an argument, which shows only before a sort or under a conjunction. *)

From Stdlib Require Import ZArith Lia Ascii String.
From stdpp Require Import base tactics list strings gmap.
From S2P Require Import DnsSd Urf Routing Store.
From S2P Require Import Prelude GoString GoError GoTime GoUrl Goipp IppAttrs MediaCatalog Normalizer Formats Messages.
From S2P Require Import Configuration PrinterDescription Capabilities Discovery Publisher Redaction Lifecycle.

Local Open Scope string_scope.

Inductive report : Type :=
| RNil
| RText (s : string)
| RTexts (l : list string)
| RInt (z : Z)
| RBool (b : bool)
| RTime (t : time)
| RDuration (d : Z)
| RCounts (m : gmap string Z)
| RTxt (m : TXT_data)
| RAttributes (l : list (string * list (string * dumped)))
| RList (l : list report)
| RMap (fields : list (string * report)).

(** ** Readiness *)

Record profileReadinessResponse := { ppEnabled : bool; ppReady : bool; ppReason : string; ppWarnings : list string }.
Record profileReadinessResponseSetType := {
  psOrdinary : profileReadinessResponse; psAirPrint : profileReadinessResponse; psIPPEverywhere : profileReadinessResponse
}.
Record queueReadiness := {
  qrOptional : bool; qrActive : bool; qrStale : bool; qrLastSuccess : time; qrLastError : string; qrIPPEligible : bool;
  qrIPPERequired : bool; qrProfiles : profileReadinessResponseSetType; qrOrdinaryReady : bool; qrAirPrintReady : bool;
  qrAirPrintReason : string; qrIPPEverywhereReady : bool; qrIPPEverywhereReason : string; qrProfileWarnings : list string
}.
(** [MDNS] is the state of the summary; there is none in a build without Avahi. *)
Record readinessResponse := { Ready : bool; MDNS : option string; Queues : gmap string queueReadiness }.

Definition profileResponse (p : CapabilityProfile) : profileReadinessResponse :=
  {| ppEnabled := prEnabled p; ppReady := prReady p; ppReason := prReason p; ppWarnings := prWarnings p |}.
Definition profileReadinessResponseSet (p : CapabilityProfiles) : profileReadinessResponseSetType :=
  {| psOrdinary := profileResponse (pfOrdinary p); psAirPrint := profileResponse (pfAirPrint p);
     psIPPEverywhere := profileResponse (pfIPPEverywhere p) |}.

(** The end of [mdnsStateLocked] and of [mdnsStateFromSnapshot], of the queues
    that are to be published, with their states. *)
Definition mdns_state (mode : string) (states : list string) : string :=
  if (mode =? DNSModeOff)%string then StateDisabled else
  match states with
  | [] => StateDisabled
  | _ => if in_strings StateDegraded states then StateDegraded
         else if in_strings StatePublished states then StatePublished else StateUnpublished
  end.

Section readiness.
Context `{G : GoippLib} `{U : UUIDs} `{R : MapRange} `{I : IPLiterals} `{UE : UrlErrors} {P : Type}.
Context (cfg : Config) (avahi : bool).
Implicit Types (s : Service P).

Definition mdnsStateLocked s : string :=
  mdns_state (Mode (DNSSDSection cfg))
    (map (fun '(queue, _) => DNSState (default no_health (health s !! queue)))
       (List.filter (fun '(_, printer) => DNSSD printer) (range (Printers cfg)))).

Definition stale (now : time) (printer : PrinterConfig) (active : bool) (h : queueHealth) : bool :=
  let interval := (if RefreshInterval printer <=? 0 then 5 * Minute else RefreshInterval printer)%Z in
  active && negb (IsZero (LastSuccess h)) && (i64 (2 * interval) <? Sub now (LastSuccess h))%Z.
Definition is_active (queue : string) s : bool := bool_decide (is_Some (capabilities s !! queue)).

Definition queue_readiness (now : time) s (queue : string) (printer : PrinterConfig) : queueReadiness :=
  let active := is_active queue s in
  let h := default no_health (health s !! queue) in
  let profiles := if active then profiles_of cfg queue printer s
                  else evaluateCapabilityProfiles [] printer (settings (Configuration.Policy printer)) [] (printerURI cfg queue) true in
  {| qrOptional := Optional printer; qrActive := active; qrStale := stale now printer active h; qrLastSuccess := LastSuccess h;
     qrLastError := safeProbeError (Some (LastError h)) (Configuration.UpstreamURI printer);
     qrIPPEligible := prReady (pfIPPEverywhere profiles); qrIPPERequired := false;
     qrProfiles := profileReadinessResponseSet profiles; qrOrdinaryReady := prReady (pfOrdinary profiles);
     qrAirPrintReady := prReady (pfAirPrint profiles); qrAirPrintReason := prReason (pfAirPrint profiles);
     qrIPPEverywhereReady := prReady (pfIPPEverywhere profiles); qrIPPEverywhereReason := prReason (pfIPPEverywhere profiles);
     qrProfileWarnings := ProfileWarnings h |}.
(** [readyz], as the status and the body of its response. *)
Definition readyz (now : time) s : Z * readinessResponse :=
  let ready := forallb (fun '(queue, printer) => Optional printer || is_active queue s) (range (Printers cfg)) in
  ((if ready then 200 else 503)%Z,
   {| Ready := ready; MDNS := if avahi then Some (mdnsStateLocked s) else None;
      Queues := map_imap (fun queue printer => Some (queue_readiness now s queue printer)) (Printers cfg) |}).
End readiness.

(** ** Configuration *)

Definition optionalConfigString (value : option string) : report := match value with Some s => RText s | None => RNil end.
Definition defaultsConfigDump (defaults : DefaultsConfig) : report :=
  let l := limits defaults in
  RMap [("max_envelope_bytes", RInt (MaxEnvelopeBytes l)); ("max_document_bytes", RInt (MaxDocumentBytes l));
        ("max_upstream_response_bytes", RInt (MaxUpstreamResponseBytes l));
        ("max_concurrent_payload_jobs_per_queue", RInt (MaxConcurrentPayloadJobsPerQueue l));
        ("job_retention", RDuration (JobRetention l))].
Definition policyConfigDump (policy : PolicyConfig) : report :=
  RMap [("media", RText (pMedia policy)); ("media_supported", RTexts (pMediaSupported policy));
        ("media_default", RText (pMediaDefault policy)); ("media_type", RText (pMediaType policy));
        ("print_color_mode", RText (pPrintColorMode policy)); ("media_source", optionalConfigString (pMediaSource policy));
        ("print_scaling", optionalConfigString (pPrintScaling policy)); ("use_media_col", RBool (pUseMediaCol policy));
        ("fidelity_mode", RText (pFidelityMode policy))].
Definition passthroughConfigDump (passthrough : PassthroughConfig) : report :=
  RMap [("allow_unknown_attributes", RBool (AllowUnknownAttributes passthrough));
        ("preserve_job_attrs", RTexts (PreserveJobAttrs passthrough));
        ("drop_vendor_attrs", RTexts (DropVendorAttrs passthrough))].
Definition diagnosticProfile (profile : CapabilityProfile) : report :=
  RMap [("enabled", RBool (prEnabled profile)); ("ready", RBool (prReady profile)); ("reason", RText (prReason profile));
        ("warnings", RTexts (prWarnings profile))].
Definition diagnosticProfiles (profiles : CapabilityProfiles) : report :=
  RMap [("ordinary", diagnosticProfile (pfOrdinary profiles)); ("airprint", diagnosticProfile (pfAirPrint profiles));
        ("ipp_everywhere", diagnosticProfile (pfIPPEverywhere profiles))].
Definition diagnosticRoutes (routes : list Routing.DocumentRoute) : report :=
  RList (map (fun route => let page := Page route in
    RMap [("client_format", RText (ClientFormat route)); ("upstream_format", RText (UpstreamFormat route));
          ("transform", RBool (Transform route)); ("mapping", RText (Mapping_String (drMapping route)));
          ("media", RText (Urf.MediaName page)); ("resolution_x", RInt (Urf.ResolutionX page));
          ("resolution_y", RInt (Urf.ResolutionY page)); ("sides", RText (Urf.Sides page));
          ("sheet_back", RText (Urf.SheetBack page))]) routes).
(** The path of a snapshot; [None] is the zero snapshot. *)
Definition path_text (s : option RouteSnapshot) : string :=
  match s with
  | None => ""
  | Some s => match snapPath s with
              | AirPrintPathNative => "native" | AirPrintPathEmulated => "emulated" | AirPrintPathUnavailable => "unavailable" end
  end.

Section dump.
Context `{G : GoippLib} `{U : UUIDs} `{R : MapRange} `{I : IPLiterals} `{UE : UrlErrors} `{DL : DumpLib}.

Definition effectiveConfigDump (cfg : Config) : report :=
  let stats := Statistics cfg in let dns := DNSSDSection cfg in
  RMap [("listen", RMap [("addr", RText (Addr (Listen cfg))); ("public_base_url", RText (redactDumpString (PublicBaseURL (Listen cfg))))]);
        ("storage", RMap [("sqlite_path", RText (StoragePath cfg))]);
        ("defaults", defaultsConfigDump (Defaults cfg));
        ("statistics", RMap [("enabled", RBool (Enabled stats)); ("sqlite_path", RText (SQLitePath stats));
           ("detail_retention", RDuration (DetailRetention stats)); ("cpu_retention", RDuration (CPURetention stats));
           ("rollup_retention", RDuration (RollupRetention stats)); ("queue_size", RInt (QueueSize stats));
           ("batch_size", RInt (BatchSize stats)); ("flush_interval", RDuration (FlushInterval stats));
           ("resources", RBool (Resources stats)); ("cpu", RBool (CPU stats))]);
        ("dns_sd", RMap [("mode", RText (Mode dns)); ("hostname", RText (Configuration.Hostname dns));
           ("interface", RText (Interface dns)); ("allowed_aliases", RTexts (AllowedAliases dns))]);
        ("printers", RMap (map (fun '(queue, printer) => (queue,
           RMap [("upstream_uri", RText (redactDumpString (Configuration.UpstreamURI printer)));
                 ("display_name", RText (DisplayName printer)); ("location", RText (Location printer));
                 ("optional", RBool (Optional printer)); ("ipp_everywhere_mode", RText (IPPEverywhereMode printer));
                 ("airprint_mode", RText (Configuration.AirPrintMode printer)); ("dns_sd", RBool (DNSSD printer));
                 ("geo_location", RText (GeoLocation printer)); ("refresh_interval", RDuration (RefreshInterval printer));
                 ("policy", policyConfigDump (settings (Configuration.Policy printer)));
                 ("passthrough", passthroughConfigDump (Passthrough printer))])) (range (Printers cfg))))].

(** ** The snapshot *)

Record diagnosticQueue := {
  dqName : string; dqPrinter : PrinterConfig; dqPublicURI : string; dqActive : bool; dqStale : bool; dqRefreshInFlight : bool;
  dqConfigChangedAt : time; dqHealth : queueHealth; dqPayloadJobsInFlight : Z; dqPayloadJobCapacity : Z; dqDNSRetrying : bool;
  dqUpstreamCapabilities : Attributes; dqClientCapabilities : Attributes; dqProfiles : CapabilityProfiles;
  dqRoutes : option RouteSnapshot; dqPublisher : option DebugState
}.
(** [JobSummary] with [JobSummaryError]; [Queues] of the source is [dsQueues]. *)
Record diagnosticSnapshot := {
  dsNow : time; dsStartedAt : time; dsNextRequestID : Z; dsClosing : bool; dsUpstreamTimeout : Z; dsProbeTimeout : Z;
  dsMaxResponseBytes : Z; dsEffectiveConfig : report; dsDNSMode : string; dsDNSHostname : string; dsDNSInterface : string;
  dsQueues : list diagnosticQueue; dsJobSummary : res goerr JobSummary; dsJobStoreAvailable : bool; dsStatistics : report
}.
Definition no_summary : JobSummary := {| Total := 0; ByQueue := ∅; ByState := ∅ |}.

(** What the snapshot is taken of besides the maps of the service: the clock,
    the counter of requests, the upstream client, the slots of the payloads in
    use and in all, the statistics, the job store. *)
Record surroundings := {
  su_now : time; su_next_request : Z; su_timeout : Z; su_probe_timeout : Z; su_max_response : Z;
  su_slots : string -> Z * Z; su_statistics : report; su_store : option Store
}.
(** What a publisher shows of itself, if it does. *)
Class DiagnosticPublisher (P : Type) := debug_state : P -> option DebugState.
#[export] Instance stub_diagnostics : DiagnosticPublisher StubPublisher := fun p => Some (stub_DebugState p).

Section snapshot.
Context {P : Type} `{DP : DiagnosticPublisher P} (cfg : Config) (startedAt : time).
Implicit Types (s : Service P).

Definition queue_snapshot (su : surroundings) s (queue : string) (printer : PrinterConfig) : diagnosticQueue :=
  let h := default no_health (health s !! queue) in
  let upstream := default [] (capabilities s !! queue) in
  let identity := identity_of cfg startedAt queue (su_now su) s in
  {| dqName := queue; dqPrinter := printer; dqPublicURI := printerURI cfg queue; dqActive := is_active queue s;
     dqStale := stale (su_now su) printer (is_active queue s) h; dqRefreshInFlight := default false (refreshing s !! queue);
     dqConfigChangedAt := default 0%Z (configChangedAt s !! queue); dqHealth := h;
     dqPayloadJobsInFlight := fst (su_slots su queue); dqPayloadJobCapacity := snd (su_slots su queue);
     dqDNSRetrying := is_retrying queue s; dqUpstreamCapabilities := upstream;
     dqClientCapabilities := match upstream with
                             | [] => []
                             | _ => clientCapabilities (capabilityModels s !! queue) queue (printerURI cfg queue) printer upstream identity
                             end;
     dqProfiles := profiles_of cfg queue printer s;
     dqRoutes := match capabilityModels s !! queue with
                 | Some model => mRoutes model
                 | None => Some (buildRouteSnapshot upstream (settings (Configuration.Policy printer)) (service_printer printer))
                 end;
     dqPublisher := publishers s !! queue ≫= debug_state |}.
(** [captureDiagnosticSnapshot]. *)
Definition captureDiagnosticSnapshot (su : surroundings) s : diagnosticSnapshot :=
  {| dsNow := su_now su; dsStartedAt := startedAt; dsNextRequestID := su_next_request su; dsClosing := closing s;
     dsUpstreamTimeout := su_timeout su; dsProbeTimeout := su_probe_timeout su; dsMaxResponseBytes := su_max_response su;
     dsEffectiveConfig := effectiveConfigDump cfg; dsDNSMode := Mode (DNSSDSection cfg);
     dsDNSHostname := Configuration.Hostname (DNSSDSection cfg); dsDNSInterface := Interface (DNSSDSection cfg);
     dsQueues := SliceStable (fun l r => String.ltb (dqName l) (dqName r))
                   (map (fun '(queue, printer) => queue_snapshot su s queue printer) (range (Printers cfg)));
     dsJobSummary := SummarizeJobs (su_store su); dsJobStoreAvailable := bool_decide (is_Some (su_store su));
     dsStatistics := su_statistics su |}.

(** ** Sections *)

Definition application_queue (q : diagnosticQueue) : list (string * report) :=
  let h := dqHealth q in let printer := dqPrinter q in
  [("queue", RMap [("queue", RText (dqName q)); ("upstream_uri", RText (redactDumpString (Configuration.UpstreamURI printer)));
      ("public_uri", RText (dqPublicURI q)); ("display_name", RText (DisplayName printer)); ("location", RText (Location printer));
      ("optional", RBool (Optional printer)); ("airprint_mode", RText (Configuration.AirPrintMode printer));
      ("ipp_everywhere_mode", RText (IPPEverywhereMode printer)); ("active", RBool (dqActive q)); ("stale", RBool (dqStale q));
      ("refresh_in_flight", RBool (dqRefreshInFlight q)); ("config_changed_at", RTime (dqConfigChangedAt q));
      ("last_success", RTime (LastSuccess h)); ("last_attempt", RTime (LastAttempt h));
      ("last_error", RText (diagnosticError (LastError h) (Configuration.UpstreamURI printer)));
      ("ipp_everywhere_eligible", RBool (IPPEligible h)); ("profiles", diagnosticProfiles (dqProfiles q));
      ("airprint_path", RText (path_text (dqRoutes q))); ("airprint_reason", RText (default "" (snapReason <$> dqRoutes q)));
      ("synthesized_urf", RTexts (default [] (URFTokens <$> dqRoutes q)));
      ("document_routes", diagnosticRoutes (default [] (Routes <$> dqRoutes q)));
      ("last_translation_error", RText (diagnosticError (LastTranslationError h) (Configuration.UpstreamURI printer)));
      ("profile_warnings", RTexts (ProfileWarnings h)); ("payload_jobs_in_flight", RInt (dqPayloadJobsInFlight q));
      ("payload_job_capacity", RInt (dqPayloadJobCapacity q))]);
   ("capabilities", RMap [("queue", RText (dqName q)); ("upstream", RAttributes (dumpAttributes (dqUpstreamCapabilities q)));
      ("client", RAttributes (dumpAttributes (dqClientCapabilities q)))])].
Definition application_Dump (snapshot : diagnosticSnapshot) : list (string * report) :=
  let summary := match dsJobSummary snapshot with Ok sum => sum | Err _ => no_summary end in
  [("application", RMap [("snapshot_at", RTime (dsNow snapshot)); ("started_at", RTime (dsStartedAt snapshot));
      ("next_request_id", RInt (dsNextRequestID snapshot)); ("closing", RBool (dsClosing snapshot));
      ("queue_count", RInt (Z.of_nat (length (dsQueues snapshot)))); ("job_store_present", RBool (dsJobStoreAvailable snapshot));
      ("upstream_timeout", RDuration (dsUpstreamTimeout snapshot)); ("upstream_probe_timeout", RDuration (dsProbeTimeout snapshot));
      ("upstream_max_response_bytes", RInt (dsMaxResponseBytes snapshot))]);
   ("effective_config", dsEffectiveConfig snapshot);
   ("job_registry", RMap ([("available", RBool (dsJobStoreAvailable snapshot)); ("total", RInt (Total summary));
      ("by_queue", RCounts (ByQueue summary)); ("by_state", RCounts (ByState summary))] ++
      match dsJobSummary snapshot with Err err => [("error", RText (Error_text err))] | Ok _ => [] end));
   ("statistics", dsStatistics snapshot)] ++
  mjoin (map application_queue (dsQueues snapshot)).

Definition dnsRegistrationDump (records : list ServiceRecord) : report :=
  RList (map (fun r => RMap [("name", RText (rName r)); ("hostname", RText (rHostname r)); ("port", RInt (rPort r));
    ("type", RText (rType r)); ("subtype", RText (rSubtype r)); ("full_type", RText (FullType r)); ("txt", RTxt (rTXT r));
    ("geo_location", RText (rGeoLocation r))]) records).
Definition publication_dump (state : DebugState) : report :=
  RMap ([("present", RBool (bool_decide (is_Some (debug_publication state))));
         ("registrations", dnsRegistrationDump (match debug_publication state with Some pub => pRecords pub | None => [] end))] ++
        match debug_publication state with
        | None => []
        | Some pub => let i := pInput pub in
            [("name", RText (pName pub)); ("hostname", RText (iHostname i)); ("port", RInt (iPort i)); ("ipps", RBool (iIPPS i));
             ("interface", RText (iInterface i)); ("geo_location", RText (iGeoLocation i))]
        end).
Definition no_debug : DebugState := {|
  Backend := "none"; Availability := "not_configured"; EntryGroup := ""; EntryGroupState := ""; EntryGroupStateErr := "";
  Closed := false; debug_publication := None |}.
Definition mdnsStateFromSnapshot (snapshot : diagnosticSnapshot) : string :=
  mdns_state (dsDNSMode snapshot)
    (map (fun q => DNSState (dqHealth q)) (List.filter (fun q => DNSSD (dqPrinter q)) (dsQueues snapshot))).
Definition mdns_queue (q : diagnosticQueue) : report :=
  let h := dqHealth q in let profiles := dqProfiles q in let state := default no_debug (dqPublisher q) in
  RMap [("queue", RText (dqName q)); ("configured", RBool (DNSSD (dqPrinter q)));
    ("ordinary_ready", RBool (prReady (pfOrdinary profiles))); ("airprint_ready", RBool (prReady (pfAirPrint profiles)));
    ("airprint_reason", RText (prReason (pfAirPrint profiles)));
    ("ipp_everywhere_ready", RBool (prReady (pfIPPEverywhere profiles)));
    ("ipp_everywhere_reason", RText (prReason (pfIPPEverywhere profiles))); ("profile_warnings", RTexts (ProfileWarnings h));
    ("ipp_everywhere_eligible", RBool (IPPEligible h)); ("retrying", RBool (dqDNSRetrying q)); ("state", RText (DNSState h));
    ("degraded", RBool (DNSDegraded h)); ("name", RText (DNSName h)); ("last_attempt", RTime (DNSLastAttempt h));
    ("last_published", RTime (DNSLastPublished h));
    ("last_error", RText (diagnosticError (DNSLastError h) (Configuration.UpstreamURI (dqPrinter q))));
    ("attempts", RInt (DNSAttempts h)); ("publisher_backend", RText (Backend state));
    ("publisher_availability", RText (Availability state)); ("entry_group", RText (EntryGroup state));
    ("entry_group_state", RText (EntryGroupState state)); ("entry_group_state_error", RText (EntryGroupStateErr state));
    ("closed", RBool (Closed state)); ("publication", publication_dump state)].
Definition mdns_Dump (snapshot : diagnosticSnapshot) : list (string * report) :=
  [("mdns", RMap [("mode", RText (dsDNSMode snapshot)); ("hostname", RText (dsDNSHostname snapshot));
      ("interface", RText (dsDNSInterface snapshot)); ("state", RText (mdnsStateFromSnapshot snapshot));
      ("queues", RList (map mdns_queue (dsQueues snapshot)))])].

(** ** Plugins

    A plugin is its name and its dump; a registration that panics is [None]. *)
Abbreviation plugin := (string * (diagnosticSnapshot -> list (string * report)))%type.
Definition registerDiagnosticPlugin (p : plugin) (registry : gmap string plugin) : option (gmap string plugin) :=
  if is_empty (fst p) then None
  else match registry !! fst p with Some _ => None | None => Some (<[fst p := p]> registry) end.
Definition orderedDiagnosticPlugins (core : plugin) (registry : gmap string plugin) : list plugin :=
  core :: omap (fun name => registry !! name) (SliceStable String.ltb (map fst (range registry))).
Definition application_plugin : plugin := ("application", application_Dump).
Definition mdns_plugin : plugin := ("mdns", mdns_Dump).
(** What a build registers when it starts. *)
Definition registry_of (avahi : bool) : gmap string plugin :=
  if avahi then default ∅ (registerDiagnosticPlugin mdns_plugin ∅) else ∅.
Definition diagnosticPlugins (avahi : bool) : list plugin := orderedDiagnosticPlugins application_plugin (registry_of avahi).
(** [DumpState], as what it logs. *)
Definition DumpState (avahi : bool) (su : surroundings) s : list (string * report) :=
  let snapshot := captureDiagnosticSnapshot su s in mjoin (map (fun p => snd p snapshot) (diagnosticPlugins avahi)).
End snapshot.
End dump.
