(* ===== verification/DiagnosticsTheorems.v ===== *)
(** * What [/readyz] and the dump of the state say ([Diagnostics.v])

    Readiness is exact in every interleaving of the goroutines of the service,
    and is never lost again; the two places that summarise the publications of
    the queues agree. *)

From Stdlib Require Import ZArith Lia Ascii String.
From stdpp Require Import base tactics list strings gmap sets.
From S2P Require Import DnsSd Urf Routing.
From S2P Require Import Prelude GoString GoError GoTime GoUrl Goipp IppAttrs MediaCatalog Normalizer Formats Messages.
From S2P Require Import Configuration PrinterDescription Capabilities CapabilityTheorems Discovery DiscoveryTheorems Publisher.
From S2P Require Import Redaction Lifecycle LifecycleTheorems Diagnostics.

Section theorems.
Context `{G : GoippLib} `{U : UUIDs} `{R : MapRange} `{I : IPLiterals} `{UE : UrlErrors} `{Sim : Similarity} {P : Type} `{Pub : Publisher P}.
Context (cfg : Config) (startedAt : time).
Implicit Types (s : Service P) (w : World P).

Lemma range_elem {A} (m : gmap string A) k x : (k, x) ∈ range m <-> m !! k = Some x.
Proof. rewrite range_perm. apply elem_of_map_to_list. Qed.

(** ** Readiness *)

Lemma is_active_true queue s : is_active queue s = true <-> is_Some (capabilities s !! queue).
Proof. apply bool_decide_eq_true. Qed.
Lemma active_step t e w w' queue : step cfg startedAt t e w = Some w' ->
  is_active queue (w_service w) = true -> is_active queue (w_service w') = true.
Proof.
  rewrite !is_active_true. intros [[_ Hc _ _]|(q & upstream & policy & model & en & now & _ & _ & ->)]%step_core.
  - by rewrite Hc.
  - intros H. unfold commit, set_committed. cbn [capabilities].
    destruct (decide (queue = q)) as [->|Hne]; [rewrite lookup_insert_eq; eauto|by rewrite lookup_insert_ne by congruence].
Qed.
Lemma active_run l : forall w w' queue, run cfg startedAt l w = Some w' ->
  is_active queue (w_service w) = true -> is_active queue (w_service w') = true.
Proof.
  induction l as [|[t e] l IH]; intros w w' queue H Ha; cbn in H; [by injection H as <-|].
  destruct (step cfg startedAt t e w) as [w1|] eqn:E; [|done]. by eapply IH, active_step.
Qed.
Lemma ready_iff avahi now s : Ready (snd (readyz cfg avahi now s)) = true <->
  forall queue printer, Printers cfg !! queue = Some printer -> Optional printer = false -> is_active queue s = true.
Proof.
  cbn. rewrite forallb_forall. split.
  - intros H queue printer Hp Ho. specialize (H (queue, printer) (proj1 (list_elem_of_In _ _) (proj2 (range_elem _ _ _) Hp))).
    cbn in H. by rewrite Ho in H.
  - intros H [queue printer] Hin%list_elem_of_In%range_elem. destruct (Optional printer) eqn:Ho; [done|]. by apply H with printer.
Qed.

(** C30: [/readyz] is 200 exactly when every queue that is not optional has been
    refreshed once, 503 otherwise, and once it is 200 it stays so in every
    later state. It has an entry for every configured queue and for no other;
    in the entry the queue is active exactly when Get-Printer-Attributes is
    answered from a description, the base service is ready exactly then, and the
    other profiles are the ones the health of the queue keeps. *)
Theorem readiness_exact publisher w avahi now : reachable cfg startedAt publisher w ->
  let s := w_service w in let '(status, body) := readyz cfg avahi now s in
  status = (if Ready body then 200 else 503) /\
  (Ready body = true <-> forall queue printer, Printers cfg !! queue = Some printer -> Optional printer = false ->
     is_Some (capabilities s !! queue)) /\
  (Ready body = true -> forall l w' now', run cfg startedAt l w = Some w' -> Ready (snd (readyz cfg avahi now' (w_service w'))) = true) /\
  dom (Queues body) = dom (Printers cfg) /\
  forall queue entry, Queues body !! queue = Some entry -> let h := health_of queue s in
    (qrActive entry = true <-> forall printer identity req,
       resCode (handleGetPrinterAttributes (capabilities s !! queue) (capabilityModels s !! queue) (DNSName h) queue
         (printerURI cfg queue) printer identity req) <> StatusErrorPrinterIsDeactivated) /\
    qrOrdinaryReady entry = qrActive entry /\ qrAirPrintReady entry = AirPrintReady h /\
    qrIPPEverywhereReady entry = IPPEverywhereReady h /\ qrIPPEligible entry = IPPEligible h /\ qrProfileWarnings entry = ProfileWarnings h.
Proof.
  intros Hr s. pose proof (ready_iff avahi now s) as Hready. destruct (readyz cfg avahi now s) as [status body] eqn:E. cbn [snd] in Hready.
  injection E as Hst Hb. split; [by rewrite <- Hst, <- Hb|]. split_and!.
  - rewrite Hready. split; intros H queue printer Hp Ho; apply is_active_true; by eapply H.
  - rewrite Hready. intros H l w' now' Hrun. apply ready_iff. intros queue printer Hp Ho. eapply active_run; [exact Hrun|]. by eapply H.
  - rewrite <- Hb. cbn [Queues]. apply set_eq. intros q. rewrite !elem_of_dom, map_lookup_imap.
    destruct (Printers cfg !! q); cbn; split; intros [? ?]; eauto; done.
  - intros queue entry Hq h. rewrite <- Hb in Hq. cbn [Queues] in Hq. rewrite map_lookup_imap in Hq.
    destruct (Printers cfg !! queue) as [printer|] eqn:Hp; [|done]. cbn in Hq. injection Hq as <-.
    destruct (world_ok_reachable _ _ _ _ Hr) as [Hc _]. specialize (Hc queue). fold s in Hc. unfold committed in Hc.
    unfold queue_readiness, is_active. cbv zeta. cbn [qrActive qrOrdinaryReady qrAirPrintReady qrIPPEverywhereReady qrIPPEligible qrProfileWarnings].
    change (default no_health (health s !! queue)) with h in *. fold h in Hc.
    destruct (capabilities s !! queue) as [upstream|] eqn:Hcap, (capabilityModels s !! queue) as [model|] eqn:Hm; try done.
    + rewrite bool_decide_eq_true_2 by eauto. unfold profiles_of, profilesLocked. rewrite Hm.
      destruct Hc as [(policy & Hf) (Ho & Ha & _ & Hi & _ & He & _)].
      destruct (from_refresh_facts _ _ _ _ _ Hf) as [_ Hord]. rewrite Hord, Ha, Hi, He. split_and!; try done. split; [|done].
      intros _ printer' identity req. unfold handleGetPrinterAttributes. cbv zeta. rewrite NewResponse_eq. done.
    + rewrite bool_decide_eq_false_2 by (intros [? ?]; done). destruct Hc as (Ho & Ha & _ & Hi & _ & He & _).
      rewrite Ha, Hi, He. split_and!; try done; [|unfold evaluateCapabilityProfiles..]; try (by destruct (negb _)).
      split; [done|]. intros H. exfalso. apply (H printer (identity_of cfg startedAt queue now s) (mkMessage 0 0 0 None [] [] [] [] [] [] [] [] [])).
      unfold handleGetPrinterAttributes. by rewrite NewResponse_eq.
Qed.

(** ** The start *)

(** A refresh that is past its commit has one. *)
Definition is_past (stage : refresh_stage) : bool := match stage with Asking | Committing _ _ _ | Ending (Some _) => false | _ => true end.
Definition past_commit (w : World P) : Prop := forall t queue stage, w_threads w !! t = Some (Refresh queue stage) ->
  is_past stage = true -> is_active queue (w_service w) = true.
Lemma refresh_past e queue printer stage s stage' s' : refresh_step cfg startedAt e queue printer stage s = Some (Some stage', s') ->
  (is_past stage = true -> is_active queue s = true) ->
  (is_past stage' = true -> is_active queue s' = true).
Proof.
  intros H Ha. destruct stage, e; try done; cbn in H.
  - destruct (GetPrinterAttributes _ _ _ ≫= accept printer) as [[[? ?] ?]|]; by injection H as <- <-.
  - injection H as <- <-. intros _. apply is_active_true. unfold commit, set_committed. cbn [capabilities]. rewrite lookup_insert_eq. eauto.
  - destruct (publishers s !! queue); [destruct (not_published _ _ _)|]; by injection H as <- <-.
  - destruct (publishers s !! queue); [|done]. destruct (call_publisher _ _ _). by injection H as <- <-.
  - destruct (_ && _); by injection H as <- <-.
  - injection H as <- <-. by destruct (_ || _).
Qed.
Lemma past_commit_step t e w w' : past_commit w -> step cfg startedAt t e w = Some w' -> past_commit w'.
Proof.
  intros Hw H. pose proof (fun q => active_step t e w w' q H) as Hact.
  assert (forall t queue stage, w_threads w !! t = Some (Refresh queue stage) ->
    (is_past stage = true -> is_active queue (w_service w') = true)) as Hold.
  { intros t0 q st H0. specialize (Hw _ _ _ H0). auto. }
  apply step_inv in H. destruct H as [He|He ? ? ?|loops ended _ _|queue loops _ _|queue stage printer next s' _ Ht Hp H|
    queue name attempt delay stage printer next s' _ Ht Hp H]; try done; intros t0 q st; cbn [w_threads w_service set_threads set_loops] in *.
  - destruct (decide (t0 = t)) as [->|Hne]; [rewrite lookup_insert_eq; by intros [= <- <-]|].
    rewrite lookup_insert_ne by done. apply Hold.
  - assert (forall t0 q st, match next with Some stage' => <[t := Refresh queue stage']> (w_threads w) | None => delete t (w_threads w) end
      !! t0 = Some (Refresh q st) ->
      (is_past st = true -> is_active q s' = true)) as Hn.
    { intros t1 q1 st1. destruct next as [stage'|].
      - destruct (decide (t1 = t)) as [->|Hne]; [|rewrite lookup_insert_ne by done; apply Hold].
        rewrite lookup_insert_eq. intros [= <- <-]. eapply refresh_past; [exact H|]. by apply (Hw t).
      - intros [_ H1]%lookup_delete_Some. by eapply Hold. }
    destruct (scheduled queue stage (w_service w)) as [r|] eqn:Hs; [|apply Hn].
    apply scheduled_retry in Hs as (? & ? & _ & _ & _ & ->). cbv zeta.
    intros [[_ ?]|[_ H0]]%lookup_insert_Some; [done|]. by eapply Hn.
  - destruct next as [[[a' d'] st']|].
    + intros [[_ ?]|[_ H0]]%lookup_insert_Some; [done|]. by eapply Hold.
    + intros [_ H0]%lookup_delete_Some. by eapply Hold.
Qed.
Lemma past_commit_run l : forall w w', past_commit w -> run cfg startedAt l w = Some w' -> past_commit w'.
Proof.
  induction l as [|[t e] l IH]; intros w w' Hw H; cbn in H; [by injection H as <-|].
  destruct (step cfg startedAt t e w) as [w1|] eqn:E; [|done]. by eapply IH, H; eapply past_commit_step.
Qed.
Lemma past_commit_reachable publisher w : reachable cfg startedAt publisher w -> past_commit w.
Proof. induction 1; [|by eapply past_commit_step]. intros t q st. cbn. by rewrite lookup_empty. Qed.

Lemma drive_ends queue env t others : forall publisher w err w', reachable cfg startedAt publisher w ->
  drive cfg startedAt queue env t others w = Some (err, w') ->
  reachable cfg startedAt publisher w' /\ (exists l, run cfg startedAt l w = Some w') /\
  match err with None => is_active queue (w_service w') = true | Some e => LastError (health_of queue (w_service w')) = Error_text e end.
Proof.
  induction others as [|l others IH]; intros publisher w err w' Hr H; [done|]. cbn [drive] in H.
  destruct (run cfg startedAt l w) as [w1|] eqn:E1; [|done]. cbn [mbind option_bind] in H.
  pose proof (run_reachable _ _ _ _ _ _ Hr E1) as Hr1.
  destruct (w_threads w1 !! t) as [[q stage|]|] eqn:Ht; [|done..]. destruct (String.eqb_spec q queue) as [->|]; [|done]. cbn [negb] in H.
  destruct (step cfg startedAt t (next_event env stage) w1) as [w2|] eqn:E2; [|done]. cbn [mbind option_bind] in H.
  assert (reachable cfg startedAt publisher w2) as Hr2 by (by eapply reach_step).
  assert (run cfg startedAt (l ++ [(t, next_event env stage)]) w = Some w2) as Hrun
    by (rewrite run_app, E1; cbn; by rewrite E2).
  assert (forall err, (drive cfg startedAt queue env t others w2 = Some (err, w')) ->
    reachable cfg startedAt publisher w' /\ (exists l, run cfg startedAt l w = Some w') /\
    match err with None => is_active queue (w_service w') = true | Some e => LastError (health_of queue (w_service w')) = Error_text e end) as Hnext.
  { intros err' (Hr' & (l' & Hl') & He)%(IH publisher); [|done]. split; [done|]. split; [|done].
    exists ((l ++ [(t, next_event env stage)]) ++ l'). by rewrite run_app, Hrun. }
  destruct stage as [| | | | | |end_err]; try by apply Hnext. injection H as <- <-. split; [done|]. split; [eauto|].
  destruct end_err as [e|].
  - cbn in E2. rewrite Ht in E2. destruct (Printers cfg !! queue); [|done]. cbn in E2. injection E2 as <-. unfold health_of. cbn.
    by rewrite lookup_insert_eq.
  - eapply active_step; [exact E2|]. by apply (past_commit_reachable _ _ Hr1 _ _ _ Ht).
Qed.
Lemma refreshOne_ends queue env publisher w err w' : reachable cfg startedAt publisher w ->
  refreshOne cfg startedAt queue env w = Some (err, w') ->
  reachable cfg startedAt publisher w' /\ (exists l, run cfg startedAt l w = Some w') /\
  match err with None => is_active queue (w_service w') = true | Some e => LastError (health_of queue (w_service w')) = Error_text e end.
Proof.
  intros Hr H. unfold refreshOne in H. cbv zeta in H.
  destruct (step cfg startedAt (next_goroutine w) (StartRefresh queue) w) as [w1|] eqn:E; [|done]. cbn [mbind option_bind] in H.
  destruct (drive_ends _ _ _ _ publisher _ _ _ (reach_step _ _ _ _ _ _ _ Hr E) H) as (Hr' & (l & Hl) & He). split; [done|]. split; [|done].
  exists ((next_goroutine w, StartRefresh queue) :: l). cbn [run]. by rewrite E.
Qed.
Lemma refresh_queues_ends env queues : forall publisher w result w', reachable cfg startedAt publisher w ->
  refresh_queues cfg startedAt env queues w = Some (result, w') ->
  reachable cfg startedAt publisher w' /\ (exists l, run cfg startedAt l w = Some w') /\
  match result with
  | None => forall queue printer, (queue, printer) ∈ queues -> Optional printer = false -> is_active queue (w_service w') = true
  | Some (queue, err) => (exists printer, (queue, printer) ∈ queues /\ Optional printer = false) /\
      LastError (health_of queue (w_service w')) = Error_text err
  end.
Proof.
  induction queues as [|[queue printer] queues IH]; intros publisher w result w' Hr H; cbn [refresh_queues] in H.
  - injection H as <- <-. split; [done|]. split; [by exists []|]. by intros ? ? ?%elem_of_nil.
  - destruct (Optional printer) eqn:Ho.
    + destruct (IH publisher _ _ _ Hr H) as (Hr' & Hl & Hres). split; [done|]. split; [done|]. destruct result as [[q err]|].
      * destruct Hres as [(p & Hin & Hp) He]. split; [|done]. exists p. split; [by right|done].
      * intros q p [[= -> ->]|Hin]%elem_of_cons; [congruence|]. by eapply Hres.
    + destruct (refreshOne cfg startedAt queue (env queue) w) as [[err w1]|] eqn:E; [|done]. cbn [mbind option_bind] in H.
      destruct (refreshOne_ends _ _ publisher _ _ _ Hr E) as (Hr1 & (l1 & Hl1) & He1). destruct err as [err|].
      * injection H as <- <-. split; [done|]. split; [eauto|]. split; [|done]. exists printer. split; [by left|done].
      * destruct (IH publisher _ _ _ Hr1 H) as (Hr' & (l & Hl) & Hres). split; [done|].
        split; [exists (l1 ++ l); by rewrite run_app, Hl1|]. destruct result as [[q err]|].
        -- destruct Hres as [(p & Hin & Hp) He]. split; [|done]. exists p. split; [by right|done].
        -- intros q p [[= -> ->]|Hin]%elem_of_cons; [by intros _; eapply active_run|]. by eapply Hres.
Qed.

(** A start of the service, whatever other goroutines do meanwhile: when
    [RefreshAll] returns no error the service is ready, and otherwise the error
    is that of a queue that is not optional, and is kept as the last error of
    its health. *)
Theorem start_ready publisher env w result w' avahi now : reachable cfg startedAt publisher w ->
  RefreshAll cfg startedAt env w = Some (result, w') ->
  match result with
  | None => fst (readyz cfg avahi now (w_service w')) = 200
  | Some (queue, err) => (exists printer, Printers cfg !! queue = Some printer /\ Optional printer = false) /\
      LastError (health_of queue (w_service w')) = Error_text err
  end.
Proof.
  intros Hr H. destruct (refresh_queues_ends _ _ _ _ _ _ Hr H) as (_ & _ & Hres). destruct result as [[queue err]|].
  - destruct Hres as [(printer & Hin%range_elem & Ho) He]. eauto.
  - pose proof (proj2 (ready_iff avahi now (w_service w'))) as Hready. cbn in Hready |- *. rewrite Hready; [done|].
    intros queue printer Hp Ho. eapply Hres; [by apply range_elem|done].
Qed.

(** ** The summary of the publications *)

Lemma insert_stable_perm {A} (less : A -> A -> bool) x l : insert_stable less x l ≡ₚ x :: l.
Proof.
  induction l as [|y l IH]; [done|]. cbn. destruct (less y x); [|done]. rewrite IH. apply Permutation_swap.
Qed.
Lemma SliceStable_perm {A} (less : A -> A -> bool) (l : list A) : SliceStable less l ≡ₚ l.
Proof. induction l as [|x l IH]; [done|]. cbn. by rewrite insert_stable_perm, IH. Qed.
Lemma in_strings_perm x l l' : l ≡ₚ l' -> in_strings x l = in_strings x l'.
Proof. intros H. apply Bool.eq_iff_eq_true. rewrite !in_strings_true. by rewrite H. Qed.
Lemma mdns_state_perm mode states states' : states ≡ₚ states' -> mdns_state mode states = mdns_state mode states'.
Proof.
  intros H. unfold mdns_state. destruct (mode =? DNSModeOff)%string; [done|].
  rewrite !(in_strings_perm _ _ _ H). destruct states, states'; try done.
  - by apply Permutation_nil_cons in H.
  - by apply symmetry, Permutation_nil_cons in H.
Qed.
Lemma filter_map {A B} (f : A -> B) (q : B -> bool) (l : list A) : List.filter q (map f l) = map f (List.filter (fun x => q (f x)) l).
Proof. induction l as [|x l IH]; [done|]. cbn. rewrite IH. by destruct (q (f x)). Qed.
Lemma filter_perm {A} (q : A -> bool) (l l' : list A) : l ≡ₚ l' -> List.filter q l ≡ₚ List.filter q l'.
Proof.
  induction 1; cbn; try done.
  - by destruct (q x); [constructor|].
  - destruct (q x), (q y); try done. apply Permutation_swap.
  - by etrans.
Qed.
(** The states of the queues that are to be published. *)
Definition to_publish s (state : string) : Prop :=
  exists queue printer, Printers cfg !! queue = Some printer /\ DNSSD printer = true /\ DNSState (health_of queue s) = state.
Lemma states_elem s state : state ∈ map (fun '(queue, _) => DNSState (default no_health (health s !! queue)))
    (List.filter (fun '(_, printer) => DNSSD printer) (range (Printers cfg))) <-> to_publish s state.
Proof.
  unfold to_publish. rewrite list_elem_of_In, in_map_iff. split.
  - intros ([queue printer] & <- & [Hin Hd]%filter_In). exists queue, printer. split_and!; try done.
    by apply range_elem, list_elem_of_In.
  - intros (queue & printer & Hp & Hd & <-). exists (queue, printer). split; [done|]. apply filter_In. split; [|done].
    by apply list_elem_of_In, range_elem.
Qed.

(** The summary of the publications in the dump of the state is the one
    [/readyz] shows of the same state: disabled when the configuration publishes
    no queue, degraded when a queue that is to be published is, published when
    one is published and none degraded, and unpublished otherwise. *)
Theorem mdns_states_agree `{DumpLib} `{DiagnosticPublisher P} su s : let state := mdnsStateLocked cfg s in
  mdnsStateFromSnapshot (captureDiagnosticSnapshot cfg startedAt su s) = state /\
  (state = StateDisabled <-> Mode (DNSSDSection cfg) = DNSModeOff \/ forall x, ~ to_publish s x) /\
  (state = StateDegraded <-> Mode (DNSSDSection cfg) <> DNSModeOff /\ to_publish s StateDegraded) /\
  (state = StatePublished <-> Mode (DNSSDSection cfg) <> DNSModeOff /\ to_publish s StatePublished /\ ~ to_publish s StateDegraded).
Proof.
  intros state. split.
  - unfold state, mdnsStateFromSnapshot, mdnsStateLocked, captureDiagnosticSnapshot. cbn [dsDNSMode dsQueues].
    apply mdns_state_perm. rewrite (filter_perm _ _ _ (SliceStable_perm _ _)), filter_map, map_map.
    rewrite (filter_ext _ (fun '(_, printer) => DNSSD printer)) by (by intros [? ?]).
    by rewrite (map_ext _ (fun '(queue, _) => DNSState (default no_health (health s !! queue)))) by (by intros [? ?]).
  - assert (forall x, in_strings x (map (fun '(queue, _) => DNSState (default no_health (health s !! queue)))
      (List.filter (fun '(_, printer) => DNSSD printer) (range (Printers cfg)))) = true <-> to_publish s x) as Hin
      by (intros x; rewrite in_strings_true; apply states_elem).
    pose proof (states_elem s) as Hnil. unfold state, mdnsStateLocked, mdns_state.
    set (states := map _ (List.filter _ _)) in *.
    destruct (String.eqb_spec (Mode (DNSSDSection cfg)) DNSModeOff) as [Hoff|Hoff]; [split_and!; split; try tauto; try done; by intros [? ?]|].
    destruct states as [|x0 states0] eqn:Es.
    + assert (forall x, ~ to_publish s x) as Hnone by (intros x Hx%Hnil; by apply elem_of_nil in Hx).
      split_and!; split; try done; [auto|by intros [_ ?%Hnone]|by intros [_ [?%Hnone _]]].
    + assert (to_publish s x0) as Hx0 by (apply Hnil, list_elem_of_here).
      destruct (in_strings StateDegraded (x0 :: states0)) eqn:Ed; [apply Hin in Ed|].
      * split_and!; split; try done; [intros [?|Hn]; [done|by apply Hn in Ed]|by intros (_ & _ & ?)].
      * assert (~ to_publish s StateDegraded) as Hd by (rewrite <- Hin, Ed; done).
        destruct (in_strings StatePublished (x0 :: states0)) eqn:Ep; [apply Hin in Ep|].
        -- split_and!; split; try done; [intros [?|Hn]; [done|by apply Hn in Ep]|by intros [_ ?]].
        -- assert (~ to_publish s StatePublished) as Hp by (rewrite <- Hin, Ep; done).
           split_and!; split; try done; [intros [?|Hn]; [done|by apply Hn in Hx0]|by intros [_ ?]|by intros (_ & ? & _)].
Qed.
End theorems.

#[local] Existing Instances goipp_example no_ip6 urn_prefixed visit_in_order same_texts.
#[local] Instance plain_errors : UrlErrors := {| parse_error s := EText s |}.

(** Before its refresh a required queue makes the service unready. *)
Example not_ready_at_first : fst (readyz office_cfg true (started + Second) (NewService office_cfg started NewStubPublisher)) = 503.
Proof. vm_compute. reflexivity. Qed.
Lemma readiness_exact_witness : exists w, office_world = Some w /\
  fst (readyz office_cfg true (started + 20 * Second) (w_service w)) = 200 /\
  MDNS (snd (readyz office_cfg true (started + 20 * Second) (w_service w))) = Some StatePublished.
Proof.
  assert (match office_world with
          | Some w => Ready (snd (readyz office_cfg true (started + 20 * Second) (w_service w))) &&
                      (mdnsStateLocked office_cfg (w_service w) =? StatePublished)%string
          | None => false end = true) as Hw by (vm_compute; reflexivity).
  destruct office_world as [w|] eqn:E; [|discriminate Hw]. exists w. apply andb_prop in Hw as [Hr Hm]. apply String.eqb_eq in Hm.
  pose proof (readiness_exact office_cfg started NewStubPublisher w true (started + 20 * Second)
    (run_reachable office_cfg started NewStubPublisher _ _ w (reach_new _ _ _) E)) as H. cbv zeta in H.
  assert (MDNS (snd (readyz office_cfg true (started + 20 * Second) (w_service w))) = Some StatePublished) as Hs
    by exact (f_equal Some Hm).
  destruct (readyz office_cfg true (started + 20 * Second) (w_service w)) as [status body]. destruct H as [H _].
  cbn [fst snd] in *. rewrite Hr in H. exact (conj eq_refl (conj H Hs)).
Defined.

(** A start at which nothing else happens. *)
Definition office_env (_ : string) : refresh_env := {|
  re_asked := started + 10 * Second; re_now _ := started + 10 * Second; re_answer := office_answer 10; re_hostname := None;
  re_ctx := LiveContext; re_others := replicate 7 [] |}.
Definition office_start : option (option (string * goerr) * World StubPublisher) :=
  RefreshAll office_cfg started office_env (new_world office_cfg started NewStubPublisher).
(** The printer does not answer. *)
Example start_fails : match RefreshAll office_cfg started (fun q => {|
    re_asked := started; re_now _ := started; re_answer := Err (EText "connection refused"); re_hostname := None; re_ctx := LiveContext;
    re_others := replicate 7 [] |}) (new_world office_cfg started NewStubPublisher) with
  | Some (Some (queue, err), w) => queue = "office"%string /\ LastError (health_of queue (w_service w)) = "connection refused"%string
  | _ => False end.
Proof. vm_compute. split; reflexivity. Qed.
Lemma start_ready_witness : exists w, office_start = Some (None, w) /\
  fst (readyz office_cfg false (started + 20 * Second) (w_service w)) = 200.
Proof.
  assert (match office_start with Some (None, _) => true | _ => false end = true) as Hw by (vm_compute; reflexivity).
  destruct office_start as [[[?|] w]|] eqn:E; [discriminate Hw| |discriminate Hw]. exists w. split; [reflexivity|].
  exact (start_ready office_cfg started NewStubPublisher office_env (new_world office_cfg started NewStubPublisher) None w false
    (started + 20 * Second) (reach_new _ _ _) E).
Defined.
