(* ===== verification/UpstreamTheorems.v ===== *)
(** * What an answer of a printer must be, and what the report of the capabilities holds ([Upstream.v]) *)

From Stdlib Require Import ZArith Lia Ascii String Sorting.Sorted Structures.OrdersEx.
From stdpp Require Import base tactics list strings gmap.
From S2P Require Import Payload Redaction.
From S2P Require Import Prelude GoString GoError GoTime GoUrl Goipp IppAttrs MediaCatalog Normalizer Formats Messages.
From S2P Require Import Configuration CapabilityTheorems DiscoveryTheorems Lifecycle LifecycleTheorems Upstream Diagnostics DiagnosticsTheorems.

(** ** A stable sort *)

Section stable.
Context {A : Type} (less : A -> A -> bool).
Definition le (x y : A) : Prop := less y x = false.
Hypothesis le_trans : forall x y z, le x y -> le y z -> le x z.
Hypothesis less_le : forall x y, less x y = true -> le x y.

Lemma insert_sorted x l : StronglySorted le l -> StronglySorted le (insert_stable less x l).
Proof.
  induction 1 as [|y l Hl IH Hy]; cbn; [by repeat constructor|]. destruct (less y x) eqn:E.
  - constructor; [done|]. rewrite (insert_stable_perm less x l). constructor; [by apply less_le|done].
  - constructor; [by constructor|]. constructor; [done|]. eapply Forall_impl; [exact Hy|]. intros z. by apply le_trans.
Qed.
Lemma SliceStable_sorted l : StronglySorted le (SliceStable less l).
Proof. induction l as [|x l IH]; cbn; [constructor|by apply insert_sorted]. Qed.
End stable.

Lemma compare_OT s s' : String.compare s s' = String_as_OT.compare s s'.
Proof. revert s'. by induction s as [|c s IH]; intros [|c' s']. Qed.
Lemma ltb_lt s s' : String.ltb s s' = true <-> String_as_OT.lt s s'.
Proof. unfold String.ltb, String_as_OT.lt. rewrite compare_OT. by destruct (String_as_OT.compare s s'). Qed.
Lemma ltb_trans x y z : String.ltb y x = false -> String.ltb z y = false -> String.ltb z x = false.
Proof.
  rewrite <- !not_true_iff_false, !ltb_lt. intros H1 H2 H.
  destruct (String_as_OT.compare_spec x y) as [E|E|E]; [by rewrite E in H| |done]. apply H2. by transitivity x.
Qed.
Lemma ltb_asym x y : String.ltb x y = true -> String.ltb y x = false.
Proof. rewrite <- not_true_iff_false, !ltb_lt. intros H H'. by apply (irreflexivity String_as_OT.lt x); transitivity y. Qed.
Lemma ltb_ne x y : String.ltb y x = false -> x <> y -> String.ltb x y = true.
Proof.
  intros H Hne. apply ltb_lt. destruct (String_as_OT.compare_spec x y) as [E|E|E]; [done|done|].
  apply ltb_lt in E. congruence.
Qed.

Section theorems.
Context `{G : GoippLib} `{I : IPLiterals} `{UE : UrlErrors} `{HL : HTTPLib} `{DL : DumpLib} `{R : MapRange}.

(** ** Answers *)

(** A message is answered exactly by what passes every check: the URL of the
    printer is one of HTTP, the answer has status 200 and the media type of IPP,
    its body ends within the limit and decodes, and the decoded message has the
    id of the request, a version that is supported and not above the one
    requested, one leading group of operation attributes and its charset and
    language. A longer body is refused whatever it decodes to. *)
Theorem upstream_answer client uri msg payload exchange out : 0 < MaxResponseBytes client ->
  Do client uri msg payload exchange = Ok out <->
  exists httpURL envelope resp mediaType, HTTPURLFromIPP uri = Ok httpURL /\ EncodeBytes msg = Ok envelope /\
    NewRequestWithContext httpURL = None /\ exchange (upstream_request httpURL envelope payload) = Ok resp /\
    StatusCode resp = 200 /\ ParseMediaType (content_type resp) = Some mediaType /\ EqualFold mediaType ContentType = true /\
    Z.of_nat (slen (s_bytes (Body resp))) <= MaxResponseBytes client /\ s_end (Body resp) = None /\
    Decode (Body resp) = Ok out /\ checkUpstreamResponse msg out = None.
Proof.
  intros Hmax. unfold Do. split.
  - destruct (HTTPURLFromIPP uri) as [httpURL|]; [|done]. cbn. destruct (EncodeBytes msg) as [envelope|]; [|done]. cbn.
    destruct (NewRequestWithContext httpURL) eqn:Hn; [done|]. destruct (exchange _) as [resp|] eqn:He; [|done]. cbn. unfold read_answer.
    destruct (Z.eqb_spec (StatusCode resp) 200) as [Hs|]; [|done]. cbn [negb].
    destruct (ParseMediaType _) as [mediaType|] eqn:Hm; [|done]. destruct (EqualFold mediaType ContentType) eqn:Hf; [|done]. cbn [negb].
    cbv zeta. rewrite (proj2 (Z.ltb_lt _ _) Hmax). unfold bounded. rewrite (proj2 (Z.ltb_lt _ _) Hmax). cbn [andb].
    destruct (Z.ltb_spec (MaxResponseBytes client) (Z.of_nat (slen (s_bytes (Body resp))))) as [Hl|Hl].
    + destruct (Decode _); [|done]. cbn [mbind res_bind s_end]. by destruct (Is _ _).
    + destruct (Decode (Body resp)) as [out'|] eqn:Hd; [|done]. cbn. destruct (s_end (Body resp)) as [err|] eqn:Hend.
      { destruct (bool_decide _); done. }
      cbn. destruct (checkUpstreamResponse msg out') eqn:Hc; [done|]. intros [= <-].
      exists httpURL, envelope, resp, mediaType. by split_and!.
  - intros (httpURL & envelope & resp & mediaType & -> & He & Hn & Hx & Hs & Hm & Hf & Hl & Hend & Hd & Hc).
    cbn. rewrite He. cbn. rewrite Hn, Hx. cbn. unfold read_answer. rewrite Hs, Hm, Hf. cbn [negb Z.eqb Pos.eqb].
    unfold bounded. rewrite (proj2 (Z.ltb_lt _ _) Hmax), (proj2 (Z.ltb_ge _ _) Hl). cbn [andb]. rewrite Hd, Hend. cbn. by rewrite Hc.
Qed.

(** ** The report *)

Lemma probe_item_queue queue printer answer : pcQueue (fst (probe_item queue printer answer)) = queue.
Proof. unfold probe_item. destruct answer as [resp|]; [|done]. by destruct (_ <=? _). Qed.
Lemma probe_item_failed queue printer answer : snd (probe_item queue printer answer) = true <->
  match answer with Ok resp => StatusErrorBadRequest <= resCode resp | Err _ => True end.
Proof.
  unfold probe_item. destruct answer as [resp|]; [|done]. destruct (Z.leb_spec StatusErrorBadRequest (resCode resp)) as [H|H]; cbn; split; try done; lia.
Qed.

(** The queues in the order of their names, and any part of them. *)
Lemma sorted_names {A} (m : gmap string A) (f : string * A -> bool) :
  StronglySorted (fun l r => String.ltb l r = true)
    (map fst (List.filter f (SliceStable (fun l r => String.ltb (fst l) (fst r)) (range m)))).
Proof.
  set (l := SliceStable _ _).
  assert (NoDup (map fst l)) as Hn.
  { unfold l. rewrite (SliceStable_perm _ (range m)), range_perm. apply NoDup_fst_map_to_list. }
  assert (StronglySorted (le (fun l r : string * A => String.ltb (fst l) (fst r))) l) as Hs.
  { apply SliceStable_sorted; [intros x y z; apply ltb_trans|intros x y; apply ltb_asym]. }
  clearbody l. induction Hs as [|x l Hs IH Hx]; [constructor|]. cbn in Hn. apply NoDup_cons in Hn as [Hni Hn].
  cbn. assert (Forall (fun q => String.ltb (fst x) q = true) (map fst (List.filter f l))) as Hall.
  { apply Forall_forall. intros q (y & <- & Hy)%list_elem_of_In%in_map_iff. apply filter_In in Hy as [Hy _].
    apply ltb_ne; [|intros E; apply Hni; rewrite E; apply list_elem_of_In, in_map, Hy].
    rewrite Forall_forall in Hx. by apply Hx, list_elem_of_In. }
  destruct (f x); [|by apply IH]. constructor; [by apply IH|done].
Qed.

(** The report of the capabilities has one item for every configured queue,
    in the strict order of their names, whatever the order of the map is and
    whichever probes fail. The error names exactly the queues whose probe had no
    answer or was refused, in that order; an item of another queue has no error
    text and the attributes of its answer, and every item shows the URL of its
    printer only redacted. *)
Theorem capability_report cfg exchange now : let '(items, failed) := DumpPrinterCapabilities cfg exchange now in
  let failing queue := exists printer, Printers cfg !! queue = Some printer /\
    match probe exchange (now queue) printer with Ok resp => StatusErrorBadRequest <= resCode resp | Err _ => True end in
  StronglySorted (fun l r => String.ltb l r = true) (map pcQueue items) /\
  map pcQueue items ≡ₚ map fst (map_to_list (Printers cfg)) /\
  (forall queue, queue ∈ default [] failed <-> failing queue) /\ (failed = None <-> forall queue, ~ failing queue) /\
  StronglySorted (fun l r => String.ltb l r = true) (default [] failed) /\
  forall i, i ∈ items -> exists printer, Printers cfg !! pcQueue i = Some printer /\
    pcUpstreamURI i = redactDumpString (UpstreamURI printer) /\
    (~ failing (pcQueue i) -> pcError i = ""%string /\ exists resp, probe exchange (now (pcQueue i)) printer = Ok resp /\
       pcAttributes i = dumpAttributes (default [] (resPrinter resp)) /\ pcStatusCode i = resCode resp).
Proof.
  unfold DumpPrinterCapabilities. cbv zeta. set (pairs := SliceStable _ (range (Printers cfg))).
  set (item := fun '(queue, printer) => probe_item queue printer (probe exchange (now queue) printer)).
  set (bad := fun qp : string * PrinterConfig => snd (item qp)).
  set (failing := fun queue => exists printer, Printers cfg !! queue = Some printer /\
    match probe exchange (now queue) printer with Ok resp => StatusErrorBadRequest <= resCode resp | Err _ => True end).
  assert (forall q p, (q, p) ∈ pairs <-> Printers cfg !! q = Some p) as Hpairs.
  { intros q p. unfold pairs. rewrite (SliceStable_perm _ (range (Printers cfg))). apply range_elem. }
  assert (forall l, map (fun i => pcQueue (fst i)) (map item l) = map fst l) as Hnames.
  { intros l. rewrite map_map. apply map_ext. intros [q p]. apply probe_item_queue. }
  assert (forall q p, bad (q, p) = true <-> match probe exchange (now q) p with Ok resp => StatusErrorBadRequest <= resCode resp | Err _ => True end)
    as Hbad by (intros q p; apply probe_item_failed).
  assert (map (fun i => pcQueue (fst i)) (List.filter snd (map item pairs)) = map fst (List.filter bad pairs)) as Hfailed
    by (rewrite filter_map; apply Hnames).
  assert (forall queue, queue ∈ map fst (List.filter bad pairs) <-> failing queue) as Hin.
  { intros queue. rewrite list_elem_of_In, in_map_iff. split.
    - intros ([q p] & <- & [Hq Hb]%filter_In). exists p. split; [by apply Hpairs, list_elem_of_In|by apply Hbad].
    - intros (p & Hq & Hb). exists (queue, p). split; [done|]. apply filter_In. split; [by apply list_elem_of_In, Hpairs|by apply Hbad]. }
  rewrite map_map, Hfailed, Hnames. clear Hfailed. set (failed := map fst (List.filter bad pairs)) in *.
  assert (default [] (match failed with [] => None | _ => Some failed end) = failed) as -> by (by destruct failed).
  split_and!; [| |done| | |].
  - pose proof (sorted_names (Printers cfg) (fun _ => true)) as H. rewrite forallb_filter_id in H; [done|].
    by apply forallb_forall.
  - unfold pairs. by rewrite (SliceStable_perm _ (range (Printers cfg))), range_perm.
  - destruct failed as [|q failed0]; split; try done.
    + intros _ queue Hq%Hin. by apply elem_of_nil in Hq.
    + intros H. destruct (H q). apply Hin, list_elem_of_here.
  - apply sorted_names.
  - intros i (x & <- & Hx)%list_elem_of_In%in_map_iff. apply in_map_iff in Hx as ([q p] & <- & Hq). unfold item.
    rewrite probe_item_queue. apply list_elem_of_In, Hpairs in Hq. exists p. split; [done|].
    assert (~ failing q -> exists resp, probe exchange (now q) p = Ok resp /\ resCode resp < StatusErrorBadRequest) as Hok.
    { intros Hf. destruct (probe exchange (now q) p) as [resp|err] eqn:Hp.
      - exists resp. split; [done|]. apply Z.nle_gt. intros Hle. apply Hf. exists p. split; [done|]. by rewrite Hp.
      - destruct Hf. exists p. split; [done|]. by rewrite Hp. }
    split; [unfold probe_item; destruct (probe exchange (now q) p); [|done]; by destruct (_ <=? _)|].
    intros (resp & -> & Hlt)%Hok. unfold probe_item. rewrite (proj2 (Z.leb_gt _ _) Hlt). cbn. split; [done|]. by exists resp.
Qed.
End theorems.

#[local] Existing Instances goipp_example no_ip6 visit_in_order.
#[local] Instance plain_errors : UrlErrors := {| parse_error s := EText s |}.
(** A printer that answers the request of the tenth second. *)
#[local] Instance office_http : HTTPLib := {|
  EncodeBytes _ := Ok "envelope"%string; NewRequestWithContext _ := None; ParseMediaType s := Some s;
  Decode _ := office_answer 10 |}.
Definition office_exchange (body : string) (_ : HTTPRequest) : res goerr HTTPResponse :=
  Ok {| StatusCode := 200; HTTPStatus := "200 OK"; content_type := "application/IPP"; Body := {| s_bytes := body; s_end := None |} |}.
Definition office_request : Message := probe_request "ipp://10.0.0.9/ipp/print" (started + 10 * Second).
Definition small_client : UpstreamClient := {| MaxResponseBytes := 8; ProbeTimeout := 0; HTTPTimeout := 0 |}.
Example long_answer_refused : is_ok (Do small_client "ipp://10.0.0.9/ipp/print" office_request None (office_exchange "123456789")) = false.
Proof. vm_compute. reflexivity. Qed.
Lemma upstream_answer_witness : exists out,
  Do small_client "ipp://10.0.0.9/ipp/print" office_request None (office_exchange "12345678") = Ok out /\
  checkUpstreamResponse office_request out = None.
Proof.
  destruct (Do small_client "ipp://10.0.0.9/ipp/print" office_request None (office_exchange "12345678")) as [out|e] eqn:E;
    [|vm_compute in E; discriminate E].
  exists out. split; [reflexivity|].
  destruct (proj1 (upstream_answer small_client "ipp://10.0.0.9/ipp/print" office_request None (office_exchange "12345678") out eq_refl) E)
    as (_ & _ & _ & _ & _ & _ & _ & _ & _ & _ & _ & _ & _ & _ & H). exact H.
Defined.
