(* ===== verification/Sums.v ===== *)
(** * Sums and maxima over lists and maps

    What the accounting of resources and of jobs shares: totals over a list, up
    to permutation, and over the values of a map, with the effect of an
    insertion or a replacement. *)

From Stdlib Require Import ZArith Lia.
From stdpp Require Import base tactics list gmap.
From S2P Require Import Prelude.

Definition zsum {A} (f : A -> Z) (l : list A) : Z := foldr (fun x a => f x + a) 0 l.
Definition zmax {A} (f : A -> Z) (l : list A) : Z := foldr (fun x a => Z.max (f x) a) 0 l.

Section lists.
Context {A : Type}.
Implicit Types (f g : A -> Z) (l k : list A).

Lemma zsum_cons f x l : zsum f (x :: l) = f x + zsum f l.
Proof. done. Qed.
Lemma zsum_app f l k : zsum f (l ++ k) = zsum f l + zsum f k.
Proof. induction l as [|x l IH]; [done|]. cbn [app]. rewrite !zsum_cons, IH. lia. Qed.
Lemma zmax_cons f x l : zmax f (x :: l) = Z.max (f x) (zmax f l).
Proof. done. Qed.
Lemma zmax_nonneg f l : 0 <= zmax f l.
Proof. induction l as [|x l IH]; [done|]. rewrite zmax_cons. lia. Qed.
Lemma zmax_app f l k : zmax f (l ++ k) = Z.max (zmax f l) (zmax f k).
Proof.
  induction l as [|x l IH]; cbn [app]; [|rewrite !zmax_cons, IH; lia].
  pose proof (zmax_nonneg f k). change (zmax f []) with 0. lia.
Qed.

#[export] Instance zsum_Permutation f : Proper (Permutation ==> eq) (zsum f).
Proof. intros l k Hp. induction Hp; rewrite ?zsum_cons in *; lia. Qed.
#[export] Instance zmax_Permutation f : Proper (Permutation ==> eq) (zmax f).
Proof. intros l k Hp. induction Hp; rewrite ?zmax_cons in *; lia. Qed.

Lemma zsum_ext f g l : (forall x, x ∈ l -> f x = g x) -> zsum f l = zsum g l.
Proof.
  induction l as [|x l IH]; [done|]. intros He.
  rewrite !zsum_cons, IH, (He x) by (intros; first [apply He|idtac]; set_solver). done.
Qed.
Lemma zmax_ext f g l : (forall x, x ∈ l -> f x = g x) -> zmax f l = zmax g l.
Proof.
  induction l as [|x l IH]; [done|]. intros He.
  rewrite !zmax_cons, IH, (He x) by (intros; first [apply He|idtac]; set_solver). done.
Qed.
Lemma zsum_zero f l : (forall x, x ∈ l -> f x = 0) -> zsum f l = 0.
Proof. intros Hz. rewrite (zsum_ext f (fun _ => 0)) by done. induction l as [|x l IH]; [done|]. rewrite zsum_cons, IH by set_solver. lia. Qed.
Lemma zmax_zero f l : (forall x, x ∈ l -> f x = 0) -> zmax f l = 0.
Proof. intros Hz. rewrite (zmax_ext f (fun _ => 0)) by done. induction l as [|x l IH]; [done|]. rewrite zmax_cons, IH by set_solver. lia. Qed.
Lemma zsum_plus f g l : zsum (fun x => f x + g x) l = zsum f l + zsum g l.
Proof. induction l as [|x l IH]; [done|]. rewrite !zsum_cons, IH. lia. Qed.
Lemma zsum_nonneg f l : (forall x, x ∈ l -> 0 <= f x) -> 0 <= zsum f l.
Proof. induction l as [|x l IH]; [done|]. intros Hf. rewrite zsum_cons. assert (0 <= f x) by set_solver. assert (0 <= zsum f l) by (apply IH; set_solver). lia. Qed.
Lemma zsum_le f g l : (forall x, x ∈ l -> f x <= g x) -> zsum f l <= zsum g l.
Proof. induction l as [|x l IH]; [done|]. intros Hf. rewrite !zsum_cons. assert (f x <= g x) by set_solver. assert (zsum f l <= zsum g l) by (apply IH; set_solver). lia. Qed.
Lemma zsum_elem_le f l x : (forall y, y ∈ l -> 0 <= f y) -> x ∈ l -> f x <= zsum f l.
Proof.
  induction l as [|y l IH]; [set_solver|]. intros Hf [->|Hx]%elem_of_cons; rewrite zsum_cons.
  - assert (0 <= zsum f l) by (apply zsum_nonneg; set_solver). lia.
  - assert (f x <= zsum f l) by (apply IH; set_solver). assert (0 <= f y) by set_solver. lia.
Qed.
Lemma zsum_filter f P `{!forall x, Decision (P x)} l :
  zsum f (filter P l) = zsum (fun x => if decide (P x) then f x else 0) l.
Proof. induction l as [|x l IH]; [done|]. rewrite filter_cons, zsum_cons, <- IH. by destruct (decide (P x)). Qed.
Lemma zmax_filter f P `{!forall x, Decision (P x)} l :
  zmax f (filter P l) = zmax (fun x => if decide (P x) then f x else 0) l.
Proof.
  induction l as [|x l IH]; [done|]. rewrite filter_cons, zmax_cons, <- IH. destruct (decide (P x)); [done|].
  pose proof (zmax_nonneg f (filter P l)). lia.
Qed.

(** The replacement of one element. *)
Lemma zsum_alter f h i x l : l !! i = Some x -> zsum f (alter h i l) = zsum f l - f x + f (h x).
Proof.
  revert i. induction l as [|y l IH]; intros [|i]; [done|done| |]; cbn; intros Hl.
  - injection Hl as ->. change (zsum f (h x :: l) = zsum f (x :: l) - f x + f (h x)). rewrite !zsum_cons. lia.
  - change (zsum f (y :: alter h i l) = zsum f (y :: l) - f x + f (h x)). rewrite !zsum_cons, (IH _ Hl). lia.
Qed.
End lists.

Lemma zsum_map {A B} (f : B -> Z) (h : A -> B) l : zsum f (map h l) = zsum (fun x => f (h x)) l.
Proof. induction l as [|x l IH]; [done|]. cbn [map]. by rewrite !zsum_cons, IH. Qed.

(** ** Maps *)

Section maps.
Context {K A : Type} `{Countable K}.
Implicit Types (m : gmap K A).

(** The values of a map, in the order of [map_to_list]. *)
Definition values m : list A := map snd (map_to_list m).

Lemma values_insert m i x : m !! i = None -> values (<[i := x]> m) ≡ₚ x :: values m.
Proof. intros Hi. unfold values. rewrite map_to_list_insert by done. done. Qed.

Lemma values_split m i x : m !! i = Some x -> values m ≡ₚ x :: values (delete i m).
Proof. intros Hi. rewrite <- (insert_delete_id m i x Hi) at 1. apply values_insert, lookup_delete_eq. Qed.

Lemma values_replace m i x : values (<[i := x]> m) ≡ₚ x :: values (delete i m).
Proof. rewrite <- insert_delete_eq. apply values_insert, lookup_delete_eq. Qed.

Lemma elem_of_values m x : x ∈ values m <-> exists i, m !! i = Some x.
Proof.
  unfold values. rewrite list_elem_of_fmap. split.
  - intros ([i y] & -> & Hin). exists i. by apply elem_of_map_to_list.
  - intros [i Hi]. exists (i, x). split; [done|]. by apply elem_of_map_to_list.
Qed.

Lemma values_filter P `{!forall ix : K * A, Decision (P ix)} m :
  values m ≡ₚ values (filter P m) ++ values (filter (fun ix => ~ P ix) m).
Proof.
  induction m as [|i x m Hi IH] using map_ind.
  { by rewrite !map_filter_empty. }
  rewrite values_insert by done. destruct (decide (P (i, x))) as [HP|HP].
  - rewrite map_filter_insert_True by done. rewrite (map_filter_insert_not' (fun ix => ~ P ix)) by naive_solver.
    rewrite values_insert by (apply map_lookup_filter_None; naive_solver). cbn [app]. by rewrite IH.
  - rewrite (map_filter_insert_not' P) by naive_solver. rewrite map_filter_insert_True by done.
    rewrite values_insert by (apply map_lookup_filter_None; naive_solver). rewrite IH. by rewrite Permutation_middle.
Qed.
End maps.
