(* ===== verification/Accounting.v ===== *)
(** * The accounting of jobs and actions ([internal/stats])

    The statistics database: the snapshots of jobs with their daily totals
    ([jobs.go]), the completed actions with theirs ([persistAction] of
    [collector.go]) and the retention ([maintenance.go]). A table is a map from
    its primary key; [INSERT ... ON CONFLICT DO UPDATE] replaces or combines the
    row of the key. A persisting function is a function of the database, of the
    current time where it asks for it, and of its arguments; when it fails the
    caller rolls the transaction back, so that it returns no database.

    Totals are exact integers: SQLite keeps 64 bits and goes over to floating
    numbers beyond. CPU times (floating numbers) and the reports are left out. *)

From Stdlib Require Import ZArith Lia Ascii String.
From stdpp Require Import base tactics list strings gmap.
From S2P Require Import Configuration.
From S2P Require Import Prelude GoString GoError GoTime Sums.

(** ** Data ([types.go]) *)

Record Options := {
  Enabled : bool; Path : string; QueueSize : Z; BatchSize : Z; FlushInterval : Z;
  DetailRetention : Z; CPURetention : Z; RollupRetention : Z; Resources : bool; CPU : bool
}.

Record Action := {
  ID : string; ParentID : string; RunID : string; Kind : string; Operation : string; aQueue : string; aUser : string;
  Owner : string; aRegistryID : string; aJobID : Z; Outcome : string; Reason : string; HTTPStatus : Z; IPPStatus : Z;
  StartedAt : time; FinishedAt : time; DurationNS : Z; ClientBytes : Z; UpstreamBytes : Z; OutputBytes : Z;
  BufferPeakBytes : Z; BufferComponents : gmap string Z; TempPeakBytes : Z; TempWrittenBytes : Z;
  Concurrency : Z; UserConcurrency : Z
}.

(** The route and the settings a submission is pinned to; fields of [Job]. *)
Record Settings := {
  DocumentFormat : string; UpstreamFormat : string; Route : string; RequestedColor : string; EffectiveColor : string;
  RequestedSides : string; EffectiveSides : string; RequestedMedia : string; EffectiveMedia : string
}.

(** The measurements of a job; fields of [Job]. Unknown facts are [None]. *)
Record Measures := {
  DocumentCount : Z; Copies : Z; PayloadBytes : Z; PageCount : option Z; EstimatedImpressions : option Z;
  CompletedImpressions : option Z; CompletedSheets : option Z
}.

Record Job := {
  Register : bool; RegistryID : string; JobID : Z; Queue : string; User : string; CreatedAt : time; UpdatedAt : time;
  ProcessingAt : option time; TerminalAt : option time; State : string; ObservedState : string; StateReasons : string;
  Accepted : bool; CancelAccepted : bool; measures : Measures; settings : Settings
}.

#[export] Instance Settings_eq_dec : EqDecision Settings.
Proof. solve_decision. Defined.

(** ** Times as texts *)

Definition date (t : time) : string :=
  let '(y, doy) := year_of (t / (86400 * Second)) in
  let m := month_of (is_leap y) doy in
  pad4 y +:+ "-" +:+ pad2 m +:+ "-" +:+ pad2 (doy - month_start (is_leap y) m + 1).

Definition formatTime (t : time) : string :=
  if IsZero t then ""
  else
    let ns := t mod (86400 * Second) in
    let sec := ns / Second in
    date t +:+ "T" +:+ pad2 (sec / 3600) +:+ ":" +:+ pad2 (sec / 60 mod 60) +:+ ":" +:+ pad2 (sec mod 60) +:+
    "." +:+ padn 9 (ns mod Second) +:+ "Z".

Definition dayString (now t : time) : string := date (if IsZero t then now else t).

Definition boolInt (v : bool) : Z := if v then 1 else 0.

(** [a < b] of two texts of SQLite. *)
Definition text_before (a b : string) : bool := String.ltb a b.

(** ** What is known of a job *)

Definition maxIntPtr (a b : option Z) : option Z :=
  match b with
  | None => a
  | Some n => if n <? 0 then a
              else match a with
                   | None => Some n
                   | Some k => if k <? n then Some n else a
                   end
  end.

Definition terminalOutcome (s : string) : bool :=
  in_strings s ["completed"; "canceled"; "aborted"; "failed"; "rejected"].

Definition jobOutcome (j : Job) : string :=
  if terminalOutcome (ObservedState j) then ObservedState j
  else if ((State j =? "failed") || (State j =? "rejected"))%string then
    if negb (Accepted j) then "rejected" else "failed"
  else "unresolved".

(** An earlier setting is never changed. *)
Definition pinned (old next : string) : string := if (old =? "")%string then next else old.
Definition pin (old next : Settings) : Settings := {|
  DocumentFormat := pinned (DocumentFormat old) (DocumentFormat next);
  UpstreamFormat := pinned (UpstreamFormat old) (UpstreamFormat next);
  Route := pinned (Route old) (Route next);
  RequestedColor := pinned (RequestedColor old) (RequestedColor next);
  EffectiveColor := pinned (EffectiveColor old) (EffectiveColor next);
  RequestedSides := pinned (RequestedSides old) (RequestedSides next);
  EffectiveSides := pinned (EffectiveSides old) (EffectiveSides next);
  RequestedMedia := pinned (RequestedMedia old) (RequestedMedia next);
  EffectiveMedia := pinned (EffectiveMedia old) (EffectiveMedia next) |}.

Definition more (old next : Measures) : Measures := {|
  DocumentCount := Z.max (DocumentCount old) (DocumentCount next);
  Copies := Z.max (Copies old) (Copies next);
  PayloadBytes := Z.max (PayloadBytes old) (PayloadBytes next);
  PageCount := maxIntPtr (PageCount old) (PageCount next);
  EstimatedImpressions := maxIntPtr (EstimatedImpressions old) (EstimatedImpressions next);
  CompletedImpressions := maxIntPtr (CompletedImpressions old) (CompletedImpressions next);
  CompletedSheets := maxIntPtr (CompletedSheets old) (CompletedSheets next) |}.

Definition mergeJob (old next : Job) : Job :=
  let newer := negb (UpdatedAt next <? UpdatedAt old) in
  let state := if newer then State next else State old in
  let reasons := if newer then StateReasons next else StateReasons old in
  {| Register := false;
     RegistryID := RegistryID old; JobID := JobID old; Queue := Queue old; User := User old; CreatedAt := CreatedAt old;
     UpdatedAt := if newer then UpdatedAt next else UpdatedAt old;
     ProcessingAt := match ProcessingAt old with Some _ => ProcessingAt old | None => ProcessingAt next end;
     TerminalAt := match TerminalAt old with Some _ => TerminalAt old | None => TerminalAt next end;
     State := if (state =? "")%string then State old else state;
     ObservedState := if ((ObservedState next =? "")%string || terminalOutcome (ObservedState old) || negb newer)%bool
                      then ObservedState old else ObservedState next;
     StateReasons := if (reasons =? "")%string then StateReasons old else reasons;
     Accepted := Accepted old || Accepted next;
     CancelAccepted := CancelAccepted old || CancelAccepted next;
     measures := more (measures old) (measures next);
     settings := pin (settings old) (settings next) |}.

(** ** What a job contributes to the totals of its day *)

Definition known_count (name : string) (value : option Z) (v : gmap string Z) : gmap string Z :=
  let v := <[name +:+ "_known" := 0]> (<[name := 0]> v) in
  match value with
  | Some n => if 0 <=? n then <[name +:+ "_known" := 1]> (<[name := n]> v) else v
  | None => v
  end.

Definition delay_count (created : time) (name : string) (at_ : option time) (v : gmap string Z) : gmap string Z :=
  let v := <[name +:+ "_max_ns" := 0]> (<[name +:+ "_total_ns" := 0]> (<[name +:+ "_observations" := 0]> v)) in
  match at_ with
  | Some t =>
      if t <? created then v
      else let d := GoTime.Sub t created in
           <[name +:+ "_max_ns" := d]> (<[name +:+ "_total_ns" := d]> (<[name +:+ "_observations" := 1]> v))
  | None => v
  end.

Definition base_counts (j : Job) : gmap string Z :=
  list_to_map [("job_count", 1); ("accepted_count", boolInt (Accepted j)); ("cancel_accepted_count", boolInt (CancelAccepted j));
    ("document_count", DocumentCount (measures j)); ("copies", Copies (measures j)); ("payload_bytes", PayloadBytes (measures j));
    ("unresolved_count", 0); ("completed_count", 0); ("canceled_count", 0); ("aborted_count", 0); ("failed_count", 0);
    ("rejected_count", 0); ("stopped_count", 0)].

Definition contribution (j : Job) : gmap string Z :=
  let v := <[jobOutcome j +:+ "_count" := 1]> (base_counts j) in
  let v := known_count "page_count" (PageCount (measures j)) v in
  let v := known_count "estimated_impressions" (EstimatedImpressions (measures j)) v in
  let v := known_count "completed_impressions" (CompletedImpressions (measures j)) v in
  let v := known_count "completed_sheets" (CompletedSheets (measures j)) v in
  delay_count (CreatedAt j) "completion" (TerminalAt j) (delay_count (CreatedAt j) "processing" (ProcessingAt j) v).

(** ** Columns *)

(** [SObject] is the JSON text of an object, by what it says. *)
Inductive sqlval := SNull | SText (s : string) | SInt (z : Z) | SObject (o : gmap string Z).

Definition text_of (t : option time) : sqlval := match t with Some t => SText (formatTime t) | None => SNull end.
Definition int_of (n : option Z) : sqlval := match n with Some n => SInt n | None => SNull end.

(** The fields of the struct in their order, [register] left out. *)
Definition jobColumns (j : Job) : list (string * sqlval) :=
  let m := measures j in
  let s := settings j in
  [("registry_id", SText (RegistryID j)); ("job_id", SInt (JobID j)); ("queue", SText (Queue j)); ("user_name", SText (User j));
   ("created_at", SText (formatTime (CreatedAt j))); ("updated_at", SText (formatTime (UpdatedAt j)));
   ("processing_at", text_of (ProcessingAt j)); ("terminal_at", text_of (TerminalAt j)); ("state", SText (State j));
   ("observed_state", SText (ObservedState j)); ("state_reasons", SText (StateReasons j)); ("accepted", SInt (boolInt (Accepted j)));
   ("cancel_accepted", SInt (boolInt (CancelAccepted j))); ("document_count", SInt (DocumentCount m)); ("copies", SInt (Copies m));
   ("payload_bytes", SInt (PayloadBytes m)); ("page_count", int_of (PageCount m));
   ("estimated_impressions", int_of (EstimatedImpressions m)); ("completed_impressions", int_of (CompletedImpressions m));
   ("completed_sheets", int_of (CompletedSheets m)); ("document_format", SText (DocumentFormat s));
   ("upstream_format", SText (UpstreamFormat s)); ("route", SText (Route s)); ("requested_color", SText (RequestedColor s));
   ("effective_color", SText (EffectiveColor s)); ("requested_sides", SText (RequestedSides s));
   ("effective_sides", SText (EffectiveSides s)); ("requested_media", SText (RequestedMedia s));
   ("effective_media", SText (EffectiveMedia s))].

(** ** The database ([schema.go]) *)

(** A row of [job_checkpoints]; [snapshot] is what [snapshot_json] decodes to. *)
Record checkpoint := { snapshot : Job; cpDay : string; cpQueue : string; cpUser : string; unresolved : bool; updated_at : string }.

Record action_totals := {
  action_count : Z; duration_ns : Z; duration_max_ns : Z; client_bytes : Z; upstream_bytes : Z; output_bytes : Z;
  buffer_peak_bytes : Z; temp_peak_bytes : Z; temp_written_bytes : Z; concurrency_max : Z; user_concurrency_max : Z
}.

Record buffer_totals := { bAction_count : Z; peak_capacity_bytes : Z }.

Abbreviation day_key := (string * string * string)%type.
Abbreviation setting_key := (day_key * list string)%type.
Abbreviation action_key := (day_key * (string * string * string))%type.
Abbreviation buffer_key := (day_key * (string * string))%type.

Record DB := {
  actions : gmap string (list (string * sqlval));
  jobs : gmap (string * Z) (list (string * sqlval));
  job_checkpoints : gmap (string * Z) checkpoint;
  job_rollups : gmap day_key (gmap string Z);
  job_setting_rollups : gmap setting_key Z;
  action_rollups : gmap action_key action_totals;
  buffer_rollups : gmap buffer_key buffer_totals;
  last_cleanup : option string
}.

Definition no_db : DB := {| actions := ∅; jobs := ∅; job_checkpoints := ∅; job_rollups := ∅; job_setting_rollups := ∅;
  action_rollups := ∅; buffer_rollups := ∅; last_cleanup := None |}.

(** ** The snapshot as JSON

    [json.Marshal] writes U+FFFD for every byte that is not part of valid
    UTF-8, and fails for a time outside of the years 0 to 9999; everything else
    comes back from [json.Unmarshal] as it was. *)

Definition in_bytes (lo hi : Z) (s : string) : bool :=
  match s with String c _ => (lo <=? code c) && (code c <=? hi) | EmptyString => false end.
Definition continuation (s : string) : bool := in_bytes 128 191 s.

(** The number of bytes of the rune a text starts with; [None] where it is not
    valid UTF-8. *)
Definition rune_length (s : string) : option nat :=
  match s with
  | EmptyString => None
  | String c r =>
      let b := code c in
      let follow k := if continuation (sdrop 1 r) then if (k =? 3)%nat then Some 3%nat
                                                       else if continuation (sdrop 2 r) then Some k else None
                      else None in
      if b <? 128 then Some 1%nat
      else if (194 <=? b) && (b <=? 223) then if continuation r then Some 2%nat else None
      else if b =? 224 then if in_bytes 160 191 r then follow 3%nat else None
      else if b =? 237 then if in_bytes 128 159 r then follow 3%nat else None
      else if (225 <=? b) && (b <=? 239) then if continuation r then follow 3%nat else None
      else if b =? 240 then if in_bytes 144 191 r then follow 4%nat else None
      else if (241 <=? b) && (b <=? 243) then if continuation r then follow 4%nat else None
      else if b =? 244 then if in_bytes 128 143 r then follow 4%nat else None
      else None
  end.

Definition RuneError : string := String (chr 239) (String (chr 191) (String (chr 189) "")).

(** The text after [json.Marshal] and [json.Unmarshal]; [skip] counts the bytes
    left of the current rune. *)
Fixpoint json_runes (skip : nat) (s : string) : string :=
  match s with
  | EmptyString => EmptyString
  | String c r =>
      match skip with
      | Datatypes.S k => String c (json_runes k r)
      | O => match rune_length s with
             | Some n => String c (json_runes (n - 1) r)
             | None => RuneError +:+ json_runes 0 r
             end
      end
  end.
Definition json_text (s : string) : string := json_runes 0 s.
#[global] Arguments json_text s : simpl never.

Definition json_settings (s : Settings) : Settings := {|
  DocumentFormat := json_text (DocumentFormat s); UpstreamFormat := json_text (UpstreamFormat s); Route := json_text (Route s);
  RequestedColor := json_text (RequestedColor s); EffectiveColor := json_text (EffectiveColor s);
  RequestedSides := json_text (RequestedSides s); EffectiveSides := json_text (EffectiveSides s);
  RequestedMedia := json_text (RequestedMedia s); EffectiveMedia := json_text (EffectiveMedia s) |}.

Definition json_time (t : time) : bool := (- 366 * 86400 * Second <=? t) && (t <? max_time).
Definition json_times (j : Job) : bool :=
  json_time (CreatedAt j) && json_time (UpdatedAt j) &&
  forallb json_time (option_list (ProcessingAt j)) && forallb json_time (option_list (TerminalAt j)).

Definition ErrJSONTime : goerr := EText "json: error calling MarshalJSON for type time.Time".

(** What [json.Unmarshal] reads from what [json.Marshal] wrote. *)
Definition json_job (j : Job) : res goerr Job :=
  if json_times j then
    Ok {| Register := Register j; RegistryID := json_text (RegistryID j); JobID := JobID j; Queue := json_text (Queue j);
          User := json_text (User j); CreatedAt := CreatedAt j; UpdatedAt := UpdatedAt j; ProcessingAt := ProcessingAt j;
          TerminalAt := TerminalAt j; State := json_text (State j); ObservedState := json_text (ObservedState j);
          StateReasons := json_text (StateReasons j); Accepted := Accepted j; CancelAccepted := CancelAccepted j;
          measures := measures j; settings := json_settings (settings j) |}
  else Err ErrJSONTime.

(** ** Recording a job ([persistJob]) *)

Definition is_max (key : string) : bool := HasSuffix key "_max_ns".

(** [values[k] -= v] for the earlier contribution, the maxima left out. *)
Definition less_values (old values : gmap string Z) : gmap string Z :=
  foldl (fun values kv => if is_max kv.1 then values else <[kv.1 := i64 (default 0 (values !! kv.1) - kv.2)]> values)
        values (map_to_list old).

Definition combine_value (key : string) (row excluded : Z) : Z := if is_max key then Z.max row excluded else row + excluded.

Definition upsert_rollup (key : day_key) (values : gmap string Z) (t : gmap day_key (gmap string Z)) : gmap day_key (gmap string Z) :=
  <[key := match t !! key with
           | None => values
           | Some row => map_imap (fun k v => Some (combine_value k (default 0 (row !! k)) v)) values ∪ row
           end]> t.

Definition setting_list (s : Settings) : list string :=
  [DocumentFormat s; UpstreamFormat s; Route s; RequestedColor s; EffectiveColor s; RequestedSides s; EffectiveSides s;
   RequestedMedia s; EffectiveMedia s].

Definition settingContribution (now : time) (j : Job) (n : Z) (t : gmap setting_key Z) : gmap setting_key Z :=
  let key := ((dayString now (CreatedAt j), Queue j, User j), setting_list (settings j)) in
  <[key := match t !! key with None => n | Some count => count + n end]> t.

Definition known (n : option Z) : option Z := match n with Some n => if n <? 0 then None else Some n | None => None end.
Definition known_measures (m : Measures) : Measures := {|
  DocumentCount := DocumentCount m; Copies := Copies m; PayloadBytes := PayloadBytes m; PageCount := known (PageCount m);
  EstimatedImpressions := known (EstimatedImpressions m); CompletedImpressions := known (CompletedImpressions m);
  CompletedSheets := known (CompletedSheets m) |}.
Definition clean (j : Job) : Job := {|
  Register := Register j; RegistryID := RegistryID j; JobID := JobID j; Queue := Queue j; User := User j; CreatedAt := CreatedAt j;
  UpdatedAt := UpdatedAt j; ProcessingAt := ProcessingAt j; TerminalAt := TerminalAt j; State := State j;
  ObservedState := ObservedState j; StateReasons := StateReasons j; Accepted := Accepted j; CancelAccepted := CancelAccepted j;
  measures := known_measures (measures j); settings := settings j |}.

(** The totals of the day, while the retention keeps it. *)
Definition roll_job (now : time) (retention : Z) (day : string) (old : option Job) (next : Job) (db : DB) : DB :=
  if ((retention =? 0) || negb (text_before day (dayString now (GoTime.Add now (- retention)))))%bool then
    let values := match old with
                  | Some old => less_values (contribution old) (contribution next)
                  | None => contribution next
                  end in
    let counted := match old with
                   | Some old => settingContribution now old (-1) (job_setting_rollups db)
                   | None => job_setting_rollups db
                   end in
    {| actions := actions db; jobs := jobs db; job_checkpoints := job_checkpoints db;
       job_rollups := upsert_rollup (day, Queue next, User next) values (job_rollups db);
       job_setting_rollups := settingContribution now next 1 counted;
       action_rollups := action_rollups db; buffer_rollups := buffer_rollups db; last_cleanup := last_cleanup db |}
  else db.

(** [INSERT INTO job_checkpoints ... ON CONFLICT DO UPDATE SET unresolved, updated_at, snapshot_json]. *)
Definition upsert_checkpoint (day : string) (next stored : Job) (t : gmap (string * Z) checkpoint) : gmap (string * Z) checkpoint :=
  let key := (RegistryID next, JobID next) in
  let row := match t !! key with
             | None => {| snapshot := stored; cpDay := day; cpQueue := Queue next; cpUser := User next;
                          unresolved := (jobOutcome next =? "unresolved")%string; updated_at := formatTime (UpdatedAt next) |}
             | Some row => {| snapshot := stored; cpDay := cpDay row; cpQueue := cpQueue row; cpUser := cpUser row;
                              unresolved := (jobOutcome next =? "unresolved")%string; updated_at := formatTime (UpdatedAt next) |}
             end in
  <[key := row]> t.

Definition with_rollups (jobs' : gmap (string * Z) (list (string * sqlval))) (checkpoints : gmap (string * Z) checkpoint) (db : DB) : DB := {|
  actions := actions db; jobs := jobs'; job_checkpoints := checkpoints; job_rollups := job_rollups db;
  job_setting_rollups := job_setting_rollups db; action_rollups := action_rollups db; buffer_rollups := buffer_rollups db;
  last_cleanup := last_cleanup db |}.

Definition persistJob (now : time) (retention : Z) (next : Job) (db : DB) : res goerr DB :=
  if ((RegistryID next =? "")%string || (JobID next <? 1))%bool then Ok db
  else
    let old := snapshot <$> job_checkpoints db !! (RegistryID next, JobID next) in
    if (negb (bool_decide (is_Some old)) && negb (Register next))%bool then Ok db
    else
      let next := clean (match old with Some old => mergeJob old next | None => next end) in
      let day := dayString now (CreatedAt next) in
      let db := roll_job now retention day old next db in
      stored ← json_job next;
      Ok (with_rollups (<[(RegistryID next, JobID next) := jobColumns next ++ [("submission_day", SText day)]]> (jobs db))
                       (upsert_checkpoint day next stored (job_checkpoints db)) db).

(** ** Recording an action ([persistAction]) *)

Definition nullableString (s : string) : sqlval := if (s =? "")%string then SNull else SText s.

Definition actionColumns (a : Action) : list (string * sqlval) :=
  [("id", SText (ID a)); ("parent_id", nullableString (ParentID a)); ("run_id", SText (RunID a)); ("kind", SText (Kind a));
   ("operation", SText (Operation a)); ("queue", SText (aQueue a)); ("user_name", SText (aUser a)); ("owner", SText (Owner a));
   ("registry_id", SText (aRegistryID a)); ("job_id", SInt (aJobID a)); ("outcome", SText (Outcome a)); ("reason", SText (Reason a));
   ("http_status", SInt (HTTPStatus a)); ("ipp_status", SInt (IPPStatus a)); ("started_at", SText (formatTime (StartedAt a)));
   ("finished_at", SText (formatTime (FinishedAt a))); ("duration_ns", SInt (DurationNS a)); ("client_bytes", SInt (ClientBytes a));
   ("upstream_bytes", SInt (UpstreamBytes a)); ("output_bytes", SInt (OutputBytes a)); ("buffer_peak_bytes", SInt (BufferPeakBytes a));
   ("buffer_components_json", if bool_decide (BufferComponents a = ∅) then SText "" else SObject (BufferComponents a));
   ("temp_peak_bytes", SInt (TempPeakBytes a)); ("temp_written_bytes", SInt (TempWrittenBytes a));
   ("concurrency", SInt (Concurrency a)); ("user_concurrency", SInt (UserConcurrency a))].

(** What one action adds to the totals of its day. *)
Definition totals_of (a : Action) : action_totals := {|
  action_count := 1; duration_ns := DurationNS a; duration_max_ns := DurationNS a; client_bytes := ClientBytes a;
  upstream_bytes := UpstreamBytes a; output_bytes := OutputBytes a; buffer_peak_bytes := BufferPeakBytes a;
  temp_peak_bytes := TempPeakBytes a; temp_written_bytes := TempWrittenBytes a; concurrency_max := Concurrency a;
  user_concurrency_max := UserConcurrency a |}.

(** [ON CONFLICT ... DO UPDATE SET]. *)
Definition add_totals (row excluded : action_totals) : action_totals := {|
  action_count := action_count row + action_count excluded; duration_ns := duration_ns row + duration_ns excluded;
  duration_max_ns := Z.max (duration_max_ns row) (duration_max_ns excluded);
  client_bytes := client_bytes row + client_bytes excluded; upstream_bytes := upstream_bytes row + upstream_bytes excluded;
  output_bytes := output_bytes row + output_bytes excluded;
  buffer_peak_bytes := Z.max (buffer_peak_bytes row) (buffer_peak_bytes excluded);
  temp_peak_bytes := Z.max (temp_peak_bytes row) (temp_peak_bytes excluded);
  temp_written_bytes := temp_written_bytes row + temp_written_bytes excluded;
  concurrency_max := Z.max (concurrency_max row) (concurrency_max excluded);
  user_concurrency_max := Z.max (user_concurrency_max row) (user_concurrency_max excluded) |}.

Definition add_buffer (peak : Z) (row : option buffer_totals) : buffer_totals :=
  match row with
  | None => {| bAction_count := 1; peak_capacity_bytes := peak |}
  | Some row => {| bAction_count := bAction_count row + 1; peak_capacity_bytes := Z.max (peak_capacity_bytes row) peak |}
  end.

Section actions.
Context `{R : MapRange}.

Definition persistAction (now : time) (a : Action) (db : DB) : DB :=
  match actions db !! ID a with
  | Some _ => db
  | None =>
      let day := dayString now (FinishedAt a) in
      let buffer_row (t : gmap buffer_key buffer_totals) (c : string * Z) :=
        let key := ((day, aQueue a, aUser a), (Kind a, c.1)) in <[key := add_buffer c.2 (t !! key)]> t in
      let key := ((day, aQueue a, aUser a), (Kind a, Operation a, Outcome a)) in
      {| actions := <[ID a := actionColumns a]> (actions db); jobs := jobs db; job_checkpoints := job_checkpoints db;
         job_rollups := job_rollups db; job_setting_rollups := job_setting_rollups db;
         action_rollups := <[key := match action_rollups db !! key with
                                    | None => totals_of a
                                    | Some row => add_totals row (totals_of a)
                                    end]> (action_rollups db);
         buffer_rollups := foldl buffer_row (buffer_rollups db) (range (BufferComponents a));
         last_cleanup := last_cleanup db |}
  end.
End actions.

(** ** Retention ([Cleanup]) *)

Definition column (name : string) (row : list (string * sqlval)) : sqlval :=
  match List.find (fun c => (c.1 =? name)%string) row with Some c => c.2 | None => SNull end.
(** [column < bound] in a WHERE clause; NULL is not before anything. *)
Definition column_before (name bound : string) (row : list (string * sqlval)) : bool :=
  match column name row with SText s => text_before s bound | _ => false end.

Definition delete_where {K A} `{Countable K} (p : K * A -> bool) (t : gmap K A) : gmap K A :=
  filter (fun kv => p kv = false) t.

Definition day_before {K : Type} (bound : string) (key : day_key * K) : bool := text_before key.1.1.1 bound.

(** The statements of [DetailRetention]. *)
Definition expire_detail (cutoff : string) (db : DB) : DB := {|
  actions := delete_where (fun kv => column_before "finished_at" cutoff kv.2) (actions db);
  jobs := delete_where (fun kv => column_before "created_at" cutoff kv.2) (jobs db);
  job_checkpoints := delete_where (fun kv => negb (unresolved kv.2) && text_before (updated_at kv.2) cutoff)%bool (job_checkpoints db);
  job_rollups := job_rollups db; job_setting_rollups := job_setting_rollups db; action_rollups := action_rollups db;
  buffer_rollups := buffer_rollups db; last_cleanup := last_cleanup db |}.

(** The statements of [RollupRetention]. *)
Definition expire_rollups (bound : string) (db : DB) : DB := {|
  actions := actions db; jobs := jobs db; job_checkpoints := job_checkpoints db;
  job_rollups := delete_where (fun kv => text_before kv.1.1.1 bound) (job_rollups db);
  job_setting_rollups := delete_where (fun kv => day_before bound kv.1) (job_setting_rollups db);
  action_rollups := delete_where (fun kv => day_before bound kv.1) (action_rollups db);
  buffer_rollups := delete_where (fun kv => day_before bound kv.1) (buffer_rollups db);
  last_cleanup := last_cleanup db |}.

Definition Cleanup (opts : Options) (clock now : time) (db : DB) : DB :=
  let db := if 0 <? DetailRetention opts then expire_detail (formatTime (GoTime.Add now (- DetailRetention opts))) db else db in
  let db := if 0 <? RollupRetention opts then expire_rollups (dayString clock (GoTime.Add now (- RollupRetention opts))) db else db in
  {| actions := actions db; jobs := jobs db; job_checkpoints := job_checkpoints db; job_rollups := job_rollups db;
     job_setting_rollups := delete_where (fun kv => kv.2 =? 0) (job_setting_rollups db); action_rollups := action_rollups db;
     buffer_rollups := buffer_rollups db; last_cleanup := Some (formatTime now) |}.
