(* ===== verification/AccountingProofs.v ===== *)
(** * Proofs about the accounting: contributions, updates and merged snapshots

    The lemmas about single statements and single snapshots that
    [AccountingTheorems.v] composes: what a contribution holds, what the
    difference of two contributions does to a row, and what a merged snapshot
    keeps of the earlier one. *)

From Stdlib Require Import ZArith Lia Ascii String.
From stdpp Require Import base tactics list strings gmap.
From S2P Require Import Configuration.
From S2P Require Import Prelude GoString GoError GoTime Sums Accounting.

(** A value of a row; a column that is not there counts as zero. *)
Definition col (v : gmap string Z) (k : string) : Z := default 0 (v !! k).

Lemma col_insert v k k' x : col (<[k := x]> v) k' = if decide (k = k') then x else col v k'.
Proof. unfold col. rewrite lookup_insert. by destruct (decide (k = k')). Qed.
Lemma col_empty k : col ∅ k = 0.
Proof. unfold col. by rewrite lookup_empty. Qed.

(** ** Contributions *)

Lemma dom_known name value v : dom (known_count name value v) = {[name +:+ "_known"; name]} ∪ dom v.
Proof. unfold known_count. destruct value as [n|]; [destruct (0 <=? n)|]; rewrite ?dom_insert_L; set_solver. Qed.

Lemma dom_delay created name at_ v :
  dom (delay_count created name at_ v) = {[name +:+ "_max_ns"; name +:+ "_total_ns"; name +:+ "_observations"]} ∪ dom v.
Proof. unfold delay_count. destruct at_ as [t|]; [destruct (t <? created)|]; rewrite ?dom_insert_L; set_solver. Qed.

Lemma outcome_cases j : jobOutcome j ∈ ["completed"; "canceled"; "aborted"; "failed"; "rejected"; "unresolved"].
Proof.
  unfold jobOutcome. destruct (terminalOutcome (ObservedState j)) eqn:Ht.
  - apply in_strings_true in Ht. set_solver.
  - destruct (_ || _)%bool; [destruct (negb _)|]; set_solver.
Qed.

(** Every contribution has the same columns. *)
Lemma dom_contribution j j' : dom (contribution j) = dom (contribution j').
Proof.
  unfold contribution. rewrite !dom_delay, !dom_known, !dom_insert_L.
  assert (forall i, ({[jobOutcome i +:+ "_count"]} : gset string) ∪ dom (base_counts i) = dom (base_counts i)) as Ho.
  { intros i. apply subseteq_union_1_L, singleton_subseteq_l. unfold base_counts. rewrite dom_list_to_map_L.
    pose proof (outcome_cases i) as Hc. cbn. rewrite !elem_of_cons in Hc. set_unfold in Hc.
    destruct Hc as [->|[->|[->|[->|[->|[->|[]]]]]]]; set_solver. }
  rewrite !Ho. unfold base_counts. by rewrite !dom_list_to_map_L.
Qed.

Lemma contribution_lookup j k : contribution j !! k = None \/ contribution j !! k = Some (col (contribution j) k).
Proof. unfold col. destruct (contribution j !! k); auto. Qed.

Lemma contribution_same j j' k : contribution j !! k = None -> contribution j' !! k = None.
Proof. rewrite <- !not_elem_of_dom. by rewrite (dom_contribution j j'). Qed.

(** ** The difference of two contributions *)

Definition subtract (values : gmap string Z) (kv : string * Z) : gmap string Z :=
  if is_max kv.1 then values else <[kv.1 := i64 (default 0 (values !! kv.1) - kv.2)]> values.

Lemma subtract_other values kv k : kv.1 <> k -> subtract values kv !! k = values !! k.
Proof. unfold subtract. intros Hk. destruct (is_max kv.1); [done|]. by rewrite lookup_insert_ne. Qed.

Lemma foldl_subtract_other l values k : k ∉ l.*1 -> foldl subtract values l !! k = values !! k.
Proof.
  revert values. induction l as [|kv l IH]; [done|]. intros values Hk. cbn [foldl]. rewrite IH by set_solver.
  apply subtract_other. set_solver.
Qed.

Lemma foldl_subtract l values k x : NoDup l.*1 -> (k, x) ∈ l ->
  foldl subtract values l !! k = if is_max k then values !! k else Some (i64 (col values k - x)).
Proof.
  revert values. induction l as [|[k' x'] l IH]; intros values; [set_solver|]. cbn [foldl]. rewrite fmap_cons, NoDup_cons.
  cbn [fst]. intros [Hk Hnd] [Heq|Hin]%elem_of_cons.
  - injection Heq as <- <-. rewrite foldl_subtract_other by done. unfold subtract. cbn [fst snd].
    destruct (is_max k); [done|]. apply lookup_insert_eq.
  - assert (k' <> k) as Hne. { intros ->. apply Hk, list_elem_of_fmap. by exists (k, x). }
    rewrite IH by done. unfold col. by rewrite subtract_other.
Qed.

Lemma less_values_lookup old values k :
  less_values old values !! k =
  match old !! k with
  | Some x => if is_max k then values !! k else Some (i64 (col values k - x))
  | None => values !! k
  end.
Proof.
  change (less_values old values) with (foldl subtract values (map_to_list old)).
  destruct (old !! k) as [x|] eqn:Hk.
  - apply foldl_subtract; [apply NoDup_fst_map_to_list|by apply elem_of_map_to_list].
  - apply foldl_subtract_other. intros ([k' x] & -> & Hin)%list_elem_of_fmap. apply elem_of_map_to_list in Hin.
    cbn in Hk. congruence.
Qed.

(** ** Rows *)

Definition row_of (t : gmap day_key (gmap string Z)) (key : day_key) : gmap string Z := default ∅ (t !! key).

Lemma upsert_rollup_ne key key' values t : key <> key' -> row_of (upsert_rollup key values t) key' = row_of t key'.
Proof. intros Hk. unfold row_of, upsert_rollup. by rewrite lookup_insert_ne. Qed.

(** A row takes on the values; a new row starts at zero, which the maxima of
    nonnegative values do not show. *)
Lemma upsert_rollup_eq key values t k :
  (is_max k = true -> 0 <= col values k) -> (values !! k = None -> col (row_of t key) k = 0) ->
  col (row_of (upsert_rollup key values t) key) k =
  match values !! k with Some x => combine_value k (col (row_of t key) k) x | None => 0 end.
Proof.
  intros Hmax Hnone. unfold row_of, upsert_rollup in *. rewrite lookup_insert_eq.
  destruct (t !! key) as [row|] eqn:Hrow; cbn [default from_option id] in *.
  - unfold col in *. destruct (values !! k) as [x|] eqn:Hx.
    + rewrite lookup_union_l' by (rewrite map_lookup_imap, Hx; eauto). by rewrite map_lookup_imap, Hx.
    + rewrite lookup_union_r by (by rewrite map_lookup_imap, Hx). by apply Hnone.
  - rewrite col_empty. unfold col in *. destruct (values !! k) as [x|]; [|done]. cbn in *.
    unfold combine_value. destruct (is_max k); [|lia]. specialize (Hmax eq_refl). lia.
Qed.

(** ** Numbers within range *)

Definition fact_fits (n : option Z) : Prop := match n with Some n => n <= maxI64 | None => True end.
(** Counts are not negative, and everything fits Go's 64 bits. *)
Definition measures_fit (m : Measures) : Prop :=
  (0 <= DocumentCount m <= maxI64 /\ 0 <= Copies m <= maxI64 /\ 0 <= PayloadBytes m <= maxI64) /\
  fact_fits (PageCount m) /\ fact_fits (EstimatedImpressions m) /\ fact_fits (CompletedImpressions m) /\
  fact_fits (CompletedSheets m).

Definition fits (v : gmap string Z) : Prop := forall k, 0 <= col v k <= maxI64.

Lemma fits_insert k x v : 0 <= x <= maxI64 -> fits v -> fits (<[k := x]> v).
Proof. intros Hx Hv k'. rewrite col_insert. by case_decide. Qed.
Lemma fits_known name value v : fact_fits value -> fits v -> fits (known_count name value v).
Proof.
  unfold known_count, maxI64. intros Hn Hv.
  destruct value as [n|]; [destruct (Z.leb_spec 0 n)|]; repeat apply fits_insert; unfold fact_fits, maxI64 in *; try lia; done.
Qed.
Lemma fits_delay created name at_ v : fits v -> fits (delay_count created name at_ v).
Proof.
  unfold delay_count. intros Hv. destruct at_ as [t|]; [destruct (Z.ltb_spec t created)|]; repeat apply fits_insert;
    unfold GoTime.Sub, maxI64, minI64 in *; try lia; done.
Qed.
Lemma fits_list (l : list (string * Z)) : Forall (fun kv => 0 <= kv.2 <= maxI64) l -> fits (list_to_map l).
Proof.
  induction 1 as [|[k x] l Hx _ IH].
  - intros k. change (list_to_map []) with (∅ : gmap string Z). rewrite col_empty. unfold maxI64. lia.
  - by apply fits_insert.
Qed.
Lemma contribution_fits j : measures_fit (measures j) -> fits (contribution j).
Proof.
  intros ((Hd & Hc & Hp) & Hpage & Hest & Hci & Hcs). unfold contribution.
  do 2 apply fits_delay. repeat apply fits_known; try done. apply fits_insert; [unfold maxI64; lia|].
  apply fits_list. unfold boolInt, maxI64 in *. destruct (Accepted j), (CancelAccepted j); repeat constructor; cbn; lia.
Qed.

Lemma maxIntPtr_fits a b : fact_fits a -> fact_fits b -> fact_fits (maxIntPtr a b).
Proof. destruct a as [a|], b as [b|]; cbn; repeat case_match; done. Qed.
Lemma known_fits n : fact_fits n -> fact_fits (known n).
Proof. destruct n as [n|]; cbn; [|done]. by case_match. Qed.
Lemma merge_fits old next : measures_fit old -> measures_fit next -> measures_fit (more old next).
Proof.
  unfold measures_fit, more. cbn. intros ((? & ? & ?) & ? & ? & ? & ?) ((? & ? & ?) & ? & ? & ? & ?).
  split_and!; try lia; by apply maxIntPtr_fits.
Qed.
Lemma clean_fits m : measures_fit m -> measures_fit (known_measures m).
Proof. unfold measures_fit, known_measures. cbn. intros (? & ? & ? & ? & ?). split_and!; try apply known_fits; naive_solver. Qed.

(** ** The greatest delays *)

Definition delay (created : time) (at_ : option time) : Z :=
  match at_ with Some t => if t <? created then 0 else GoTime.Sub t created | None => 0 end.

Lemma delay_nonneg created at_ : 0 <= delay created at_.
Proof. destruct at_ as [t|]; cbn; [|lia]. destruct (Z.ltb_spec t created); unfold GoTime.Sub, maxI64, minI64; lia. Qed.

Lemma delay_count_max created name at_ v k : is_max k = true ->
  is_max (name +:+ "_total_ns") = false -> is_max (name +:+ "_observations") = false ->
  col (delay_count created name at_ v) k = if decide (name +:+ "_max_ns" = k) then delay created at_ else col v k.
Proof.
  intros Hk H1 H2. unfold delay_count, delay.
  destruct at_ as [t|]; [destruct (t <? created)|]; rewrite !col_insert; repeat case_decide; subst; congruence.
Qed.
Lemma known_count_max name value v k : is_max k = true ->
  is_max name = false -> is_max (name +:+ "_known") = false -> col (known_count name value v) k = col v k.
Proof.
  intros Hk H1 H2. unfold known_count.
  destruct value as [n|]; [destruct (0 <=? n)|]; rewrite !col_insert; repeat case_decide; subst; congruence.
Qed.

Lemma contribution_max j k : is_max k = true ->
  col (contribution j) k =
  if decide (k = "completion_max_ns") then delay (CreatedAt j) (TerminalAt j)
  else if decide (k = "processing_max_ns") then delay (CreatedAt j) (ProcessingAt j) else 0.
Proof.
  intros Hk. unfold contribution. rewrite !delay_count_max, !known_count_max by done. rewrite col_insert.
  destruct (decide (jobOutcome j +:+ "_count" = k)) as [<-|_].
  { exfalso. pose proof (outcome_cases j) as Ho. rewrite !elem_of_cons in Ho.
    destruct Ho as [E|[E|[E|[E|[E|[E|[]%not_elem_of_nil]]]]]]; rewrite E in Hk; by vm_compute in Hk. }
  replace (col (base_counts j) k) with 0.
  { repeat case_decide; subst; done. }
  unfold base_counts, col. symmetry. rewrite not_elem_of_list_to_map_1; [done|]. intros Hin.
  cbn in Hin. rewrite !elem_of_cons in Hin. repeat destruct Hin as [->|Hin]; try by vm_compute in Hk. by apply not_elem_of_nil in Hin.
Qed.

(** ** Merged snapshots *)

Lemma merge_max old next k : is_max k = true ->
  col (contribution old) k <= col (contribution (clean (mergeJob old next))) k.
Proof.
  intros Hk. rewrite !contribution_max by done. cbn.
  destruct (decide (k = "completion_max_ns")); [|destruct (decide (k = "processing_max_ns")); [|lia]].
  - destruct (TerminalAt old); [done|]. apply delay_nonneg.
  - destruct (ProcessingAt old); [done|]. apply delay_nonneg.
Qed.

(** What stands in the totals of a day. *)
Definition day_of (j : Job) : day_key := (date (CreatedAt j), Queue j, User j).

Lemma merge_day old next : day_of (clean (mergeJob old next)) = day_of old.
Proof. done. Qed.

(** Snapshots that JSON does not change. *)
Definition plain (s : string) : Prop := json_text s = s.
Definition settings_plain (s : Settings) : Prop := Forall plain (setting_list s).
Definition texts_plain (j : Job) : Prop :=
  Forall plain [RegistryID j; Queue j; User j; State j; ObservedState j; StateReasons j] /\ settings_plain (settings j).

(** Every element of a list of a hypothesis, or of the goal. *)
Ltac each_text :=
  repeat match goal with
  | H : Forall _ (_ :: _) |- _ => apply Forall_cons in H as [? H]
  | |- Forall _ (_ :: _) => apply Forall_cons; split
  | |- Forall _ [] => apply Forall_nil_2
  end.

Lemma json_job_plain j : json_times j = true -> texts_plain j -> json_job j = Ok j.
Proof.
  intros Ht [Hj Hs]. unfold json_job. rewrite Ht. unfold settings_plain, setting_list, plain in *.
  destruct j as [? ? ? ? ? ? ? ? ? ? ? ? ? ? ? []]. cbn in *. each_text. unfold json_settings. cbn.
  by repeat match goal with H : json_text _ = _ |- _ => rewrite H; clear H end.
Qed.

Lemma pinned_plain a b : plain a -> plain b -> plain (pinned a b).
Proof. unfold pinned. by destruct (a =? "")%string. Qed.
Lemma pin_plain old next : settings_plain old -> settings_plain next -> settings_plain (pin old next).
Proof. unfold settings_plain, setting_list. intros. each_text; by apply pinned_plain. Qed.
Lemma merge_plain old next : texts_plain old -> texts_plain next -> texts_plain (clean (mergeJob old next)).
Proof.
  intros [Ho Hso] [Hn Hsn]. split; [|by apply pin_plain]. each_text; cbn; repeat case_match; done.
Qed.
Lemma merge_times old next : json_times old = true -> json_times next = true -> json_times (clean (mergeJob old next)) = true.
Proof.
  unfold json_times. cbn. rewrite !andb_true_iff. intros [[[Hc Hu] Hp] Ht] [[[Hc' Hu'] Hp'] Ht'].
  split_and!; [done|by destruct (negb _)|by destruct (ProcessingAt old)|by destruct (TerminalAt old)].
Qed.
