(* ===== verification/AccountingTheorems.v ===== *)
(** * Theorems about the accounting

    The abstract specification of the statistics of jobs is a ledger: the latest
    snapshot of every job that was registered, and the snapshots of the jobs
    that were forgotten once they were settled. The totals of a day, a queue and
    a user are those of the jobs of the ledger, at any time and after any
    observations, repeated, late or out of order, and any clean-up. *)

From Stdlib Require Import ZArith Lia Ascii String.
From stdpp Require Import base tactics list strings gmap.
From S2P Require Import Configuration.
From S2P Require Import Prelude GoString GoError GoTime Sums Accounting AccountingProofs.

(** ** The ledger *)

Record Ledger := { live : gmap (string * Z) Job; retired : list Job }.
Definition no_ledger : Ledger := {| live := ∅; retired := [] |}.
Definition ledger_jobs (L : Ledger) : list Job := values (live L) ++ retired L.

(** A registered job enters; a later snapshot is merged into the earlier one; a
    snapshot of an unknown job is nothing. *)
Definition observe (next : Job) (L : Ledger) : Ledger :=
  if ((RegistryID next =? "")%string || (JobID next <? 1))%bool then L
  else match live L !! (RegistryID next, JobID next) with
       | None => if Register next then {| live := <[(RegistryID next, JobID next) := clean next]> (live L); retired := retired L |} else L
       | Some old => {| live := <[(RegistryID next, JobID next) := clean (mergeJob old next)]> (live L); retired := retired L |}
       end.

Definition settled (cutoff : string) (j : Job) : bool :=
  negb (jobOutcome j =? "unresolved")%string && text_before (formatTime (UpdatedAt j)) cutoff.

Definition retire (cutoff : string) (L : Ledger) : Ledger := {|
  live := filter (fun kj => settled cutoff kj.2 = false) (live L);
  retired := values (filter (fun kj => ~ settled cutoff kj.2 = false) (live L)) ++ retired L |}.

(** What a job counts for in a column of a row, and the value of the column. *)
Definition share (key : day_key) (k : string) (j : Job) : Z :=
  if decide (day_of j = key) then col (contribution j) k else 0.
Definition total (key : day_key) (k : string) (l : list Job) : Z :=
  if is_max k then zmax (share key k) l else zsum (share key k) l.
Definition with_settings (key : setting_key) (l : list Job) : Z :=
  zsum (fun j => if decide ((day_of j, setting_list (settings j)) = key) then 1 else 0) l.

(** ** Runs *)

Inductive operation := Persisted (now : time) (next : Job) | Recorded (now : time) (a : Action) | CleanedUp (clock now : time).

Section runs.
Context `{R : MapRange}.

(** A persisting transaction that fails is rolled back. *)
Definition run_op (opts : Options) (db : DB) (op : operation) : DB :=
  match op with
  | Persisted now next => match persistJob now (RollupRetention opts) next db with Ok db' => db' | Err _ => db end
  | Recorded now a => persistAction now a db
  | CleanedUp clock now => Cleanup opts clock now db
  end.
End runs.

Definition ledger_op (opts : Options) (L : Ledger) (op : operation) : Ledger :=
  match op with
  | Persisted _ next => observe next L
  | Recorded _ _ => L
  | CleanedUp _ now => if 0 <? DetailRetention opts then retire (formatTime (GoTime.Add now (- DetailRetention opts))) L else L
  end.

(** A snapshot as the service makes it. *)
Definition observed_job (j : Job) : Prop :=
  CreatedAt j <> 0 /\ json_times j = true /\ texts_plain j /\ measures_fit (measures j).
Definition good_op (op : operation) : Prop := match op with Persisted _ next => observed_job next | _ => True end.

(** The retention of the totals has not reached the day. *)
Definition keeps_day (opts : Options) (day : string) (op : operation) : Prop :=
  match op with
  | Persisted now _ => RollupRetention opts = 0 \/ text_before day (dayString now (GoTime.Add now (- RollupRetention opts))) = false
  | Recorded _ _ => True
  | CleanedUp clock now => RollupRetention opts <= 0 \/ text_before day (dayString clock (GoTime.Add now (- RollupRetention opts))) = false
  end.

(** ** The refinement relation *)

(** The snapshots of the database are the live jobs of the ledger. *)
Record mirrors (db : DB) (L : Ledger) : Prop := {
  mir_live : live L = snapshot <$> job_checkpoints db;
  mir_rows : forall id c, job_checkpoints db !! id = Some c ->
    unresolved c = (jobOutcome (snapshot c) =? "unresolved")%string /\ updated_at c = formatTime (UpdatedAt (snapshot c)) /\
    id = (RegistryID (snapshot c), JobID (snapshot c));
  mir_jobs : Forall observed_job (ledger_jobs L);
  mir_clean : Forall (fun j => clean j = j) (ledger_jobs L)
}.

(** The totals of a day are those of the jobs of the ledger. *)
Record totalled (day : string) (db : DB) (L : Ledger) : Prop := {
  tot_values : forall q u k, col (row_of (job_rollups db) (day, q, u)) k = total (day, q, u) k (ledger_jobs L);
  tot_settings : forall q u s,
    default 0 (job_setting_rollups db !! ((day, q, u), s)) = with_settings ((day, q, u), s) (ledger_jobs L)
}.

#[export] Instance total_Permutation key k : Proper (Permutation ==> eq) (total key k).
Proof. intros l l' Hp. unfold total. by destruct (is_max k); rewrite Hp. Qed.
#[export] Instance with_settings_Permutation key : Proper (Permutation ==> eq) (with_settings key).
Proof. intros l l' Hp. unfold with_settings. by rewrite Hp. Qed.

Lemma total_cons key k j l :
  total key k (j :: l) = if is_max k then Z.max (share key k j) (total key k l) else share key k j + total key k l.
Proof. unfold total. by destruct (is_max k). Qed.

Lemma share_nonneg key k j : observed_job j -> 0 <= share key k j.
Proof. intros (_ & _ & _ & Hm). unfold share. case_decide; [|done]. by apply contribution_fits. Qed.

Lemma total_nonneg key k l : Forall observed_job l -> 0 <= total key k l.
Proof.
  intros Hl. unfold total. destruct (is_max k); [apply zmax_nonneg|]. apply zsum_nonneg. intros j Hj.
  apply share_nonneg. by eapply Forall_forall in Hl.
Qed.

Lemma total_absent key k l j : contribution j !! k = None -> total key k l = 0.
Proof.
  intros Hk. assert (forall i, share key k i = 0) as Hz.
  { intros i. unfold share, col. rewrite (contribution_same _ _ _ Hk). by case_decide. }
  unfold total. destruct (is_max k); [by apply zmax_zero|by apply zsum_zero].
Qed.

Lemma settingContribution_lookup now j n t key :
  CreatedAt j <> 0 ->
  default 0 (settingContribution now j n t !! key) =
  default 0 (t !! key) + if decide ((day_of j, setting_list (settings j)) = key) then n else 0.
Proof.
  intros Hc. unfold settingContribution. replace (dayString now (CreatedAt j), Queue j, User j) with (day_of j).
  - rewrite lookup_insert. case_decide as Hk; [|lia]. subst key. by destruct (t !! _).
  - unfold day_of, dayString, IsZero. by rewrite (proj2 (Z.eqb_neq _ _) Hc).
Qed.

Lemma observed_clean_merge old next : observed_job old -> observed_job next -> observed_job (clean (mergeJob old next)).
Proof.
  intros (Hc & Ht & Hp & Hm) (_ & Ht' & Hp' & Hm').
  split_and!; [done|by apply merge_times|by apply merge_plain|by apply clean_fits, merge_fits].
Qed.
Lemma observed_clean j : observed_job j -> observed_job (clean j).
Proof. intros (Hc & Ht & Hp & Hm). split_and!; [done|done|done|by apply clean_fits]. Qed.

(** ** Single steps *)

(** The contribution a job takes back, and the one it makes. *)
Definition earlier (old : option Job) (k : string) : Z := match old with Some o => col (contribution o) k | None => 0 end.
Definition change (old : option Job) (next : Job) : gmap string Z :=
  match old with Some o => less_values (contribution o) (contribution next) | None => contribution next end.
(** [next] may replace [old]. *)
Definition replaces (old : option Job) (next : Job) : Prop :=
  match old with
  | Some o => observed_job o /\ day_of o = day_of next /\
              (forall k, is_max k = true -> col (contribution o) k <= col (contribution next) k)
  | None => True
  end.

Lemma change_lookup old next k : observed_job next -> replaces old next ->
  change old next !! k =
  match contribution next !! k with
  | Some x => Some (if is_max k then x else x - earlier old k)
  | None => None
  end.
Proof.
  intros (_ & _ & _ & Hm) Hr. unfold change, earlier. destruct old as [o|].
  - destruct Hr as ((_ & _ & _ & Hmo) & _). rewrite less_values_lookup.
    pose proof (contribution_fits _ Hm k) as Hf. pose proof (contribution_fits _ Hmo k) as Hfo. unfold col in *.
    destruct (contribution o !! k) as [x|] eqn:Ho.
    + destruct (contribution next !! k) as [y|] eqn:Hn; [|by rewrite (contribution_same _ o _ Hn) in Ho].
      cbn in *. destruct (is_max k); [done|]. rewrite i64_small by (unfold minI64, maxI64 in *; lia). done.
    + rewrite (contribution_same _ next _ Ho). done.
  - destruct (contribution next !! k); [|done]. destruct (is_max k); by rewrite ?Z.sub_0_r.
Qed.

(** Replacing a job of the day replaces its share. *)
Lemma rolled_total old next rest t key k :
  observed_job next -> Forall observed_job rest -> replaces old next ->
  (forall k, col (row_of t key) k = total key k (option_list old ++ rest)) ->
  col (row_of (upsert_rollup (day_of next) (change old next) t) key) k = total key k (next :: rest).
Proof.
  intros Hn Hrest Hr Ht. pose proof (total_nonneg key k rest Hrest) as H0. rewrite total_cons.
  destruct (decide (day_of next = key)) as [<-|Hne].
  2:{ rewrite upsert_rollup_ne by done. rewrite Ht. unfold share at 1 2. rewrite !decide_False by done.
      assert (total key k (option_list old ++ rest) = total key k rest) as ->.
      { destruct old as [o|]; [|done]. destruct Hr as (_ & Hd & _). change (option_list (Some o) ++ rest) with (o :: rest). rewrite total_cons.
        unfold share at 1 2. rewrite !decide_False by congruence. destruct (is_max k); lia. }
      destruct (is_max k); lia. }
  assert (col (row_of t (day_of next)) k =
          if is_max k then Z.max (earlier old k) (total (day_of next) k rest) else earlier old k + total (day_of next) k rest) as Hrow.
  { rewrite Ht. destruct old as [o|]; [|destruct (is_max k); cbn; lia]. destruct Hr as (_ & Hd & _). cbn [earlier].
    change (option_list (Some o) ++ rest) with (o :: rest). rewrite total_cons. unfold share at 1 2. by rewrite !decide_True. }
  unfold share at 1 2. rewrite !decide_True by done.
  rewrite upsert_rollup_eq.
  - rewrite change_lookup by done. destruct (contribution next !! k) as [x|] eqn:Hk.
    + unfold combine_value. rewrite Hrow. assert (col (contribution next) k = x) as -> by (unfold col; by rewrite Hk).
      destruct (is_max k) eqn:Hmk; [|lia]. destruct old as [o|]; cbn [earlier]; [|lia].
      destruct Hr as (_ & _ & Hmono). specialize (Hmono k Hmk). unfold col in Hmono at 2. rewrite Hk in Hmono. cbn in Hmono. lia.
    + rewrite (total_absent _ _ _ _ Hk). assert (col (contribution next) k = 0) as -> by (unfold col; by rewrite Hk).
      by destruct (is_max k).
  - intros Hmk. unfold col. rewrite change_lookup, Hmk by done. destruct Hn as (_ & _ & _ & Hm).
    pose proof (contribution_fits _ Hm k) as Hf. unfold col in Hf. destruct (contribution next !! k); cbn in *; lia.
  - rewrite change_lookup by done. destruct (contribution next !! k) eqn:Hk; [done|]. intros _.
    rewrite Ht. by eapply total_absent.
Qed.

(** ** The operations refine those of the ledger *)

Lemma ledger_jobs_split L id : ledger_jobs L ≡ₚ option_list (live L !! id) ++ (values (delete id (live L)) ++ retired L).
Proof.
  unfold ledger_jobs. destruct (live L !! id) as [o|] eqn:Ho.
  - by rewrite (values_split _ _ _ Ho).
  - by rewrite delete_id.
Qed.

Lemma ledger_jobs_insert L id j :
  ledger_jobs {| live := <[id := j]> (live L); retired := retired L |} ≡ₚ j :: (values (delete id (live L)) ++ retired L).
Proof. unfold ledger_jobs. cbn. by rewrite values_replace. Qed.

Lemma roll_job_checkpoints now R d old next db : job_checkpoints (roll_job now R d old next db) = job_checkpoints db.
Proof. unfold roll_job. by destruct (_ || _)%bool. Qed.

Lemma day_nonzero now j : CreatedAt j <> 0 -> dayString now (CreatedAt j) = date (CreatedAt j).
Proof. intros Hc. unfold dayString, IsZero. by rewrite (proj2 (Z.eqb_neq _ _) Hc). Qed.

Lemma rolled_settings now old next rest t key :
  observed_job next -> replaces old next ->
  default 0 (t !! key) = with_settings key (option_list old ++ rest) ->
  default 0 (settingContribution now next 1 (match old with Some o => settingContribution now o (-1) t | None => t end) !! key) =
  with_settings key (next :: rest).
Proof.
  intros (Hc & _) Hr Ht. rewrite settingContribution_lookup by done. unfold with_settings in *. rewrite zsum_cons.
  destruct old as [o|].
  - destruct Hr as ((Hco & _) & _). rewrite settingContribution_lookup, Ht by done.
    change (option_list (Some o) ++ rest) with (o :: rest). rewrite zsum_cons. repeat case_decide; lia.
  - rewrite Ht. change (option_list None ++ rest) with rest. case_decide; lia.
Qed.

Lemma known_known n : known (known n) = known n.
Proof. destruct n as [n|]; [|done]. cbn. destruct (n <? 0) eqn:Hn; [done|]. cbn. by rewrite Hn. Qed.
Lemma clean_clean j : clean (clean j) = clean j.
Proof. unfold clean. cbn. unfold known_measures. cbn. by rewrite !known_known. Qed.

(** A snapshot is entered in both, or in neither. *)
Lemma mirrors_entered db L id j jobs' d db' :
  mirrors db L -> id = (RegistryID j, JobID j) -> observed_job j -> clean j = j -> job_checkpoints db' = job_checkpoints db ->
  mirrors (with_rollups jobs' (upsert_checkpoint d j j (job_checkpoints db')) db')
          {| live := <[id := j]> (live L); retired := retired L |}.
Proof.
  intros [Hlive Hrows Hjobs Hclean] -> Hj Hcj Hcp. split.
  - cbn. rewrite Hcp. unfold upsert_checkpoint. rewrite fmap_insert, Hlive. by destruct (job_checkpoints db !! _).
  - cbn. rewrite Hcp. unfold upsert_checkpoint. intros id' c.
    destruct (decide ((RegistryID j, JobID j) = id')) as [<-|Hne]; [|rewrite lookup_insert_ne by done; apply Hrows].
    rewrite lookup_insert_eq. intros [= <-]. by destruct (job_checkpoints db !! _).
  - rewrite ledger_jobs_insert. constructor; [done|].
    rewrite (ledger_jobs_split L (RegistryID j, JobID j)) in Hjobs. by apply Forall_app in Hjobs as [_ ?].
  - rewrite ledger_jobs_insert. constructor; [done|].
    rewrite (ledger_jobs_split L (RegistryID j, JobID j)) in Hclean. by apply Forall_app in Hclean as [_ ?].
Qed.

Section steps.
Context `{R : MapRange} (opts : Options).

(** What a snapshot does: nothing, or it enters, merged into what is known. *)
Lemma persisted_cases now next db L : mirrors db L -> observed_job next ->
  (run_op opts db (Persisted now next) = db /\ ledger_op opts L (Persisted now next) = L) \/
  exists old j jobs', live L !! (RegistryID j, JobID j) = old /\
    j = clean (match old with Some o => mergeJob o next | None => next end) /\ observed_job j /\ replaces old j /\
    let db' := roll_job now (RollupRetention opts) (dayString now (CreatedAt j)) old j db in
    run_op opts db (Persisted now next) =
      with_rollups jobs' (upsert_checkpoint (dayString now (CreatedAt j)) j j (job_checkpoints db')) db' /\
    ledger_op opts L (Persisted now next) = {| live := <[(RegistryID j, JobID j) := j]> (live L); retired := retired L |}.
Proof.
  intros HR Hn. cbn [run_op ledger_op]. unfold persistJob, observe.
  destruct (_ || _)%bool; [by left|].
  assert (live L !! (RegistryID next, JobID next) = snapshot <$> job_checkpoints db !! (RegistryID next, JobID next)) as Hl
    by by rewrite (mir_live _ _ HR), lookup_fmap.
  rewrite Hl. destruct (job_checkpoints db !! (RegistryID next, JobID next)) as [c|] eqn:Hc; cbn [fmap option_fmap option_map] in *.
  - right. rewrite bool_decide_true by eauto. cbn [negb andb].
    destruct (mir_rows _ _ HR _ _ Hc) as (_ & _ & Hid).
    assert (observed_job (snapshot c)) as Hoc.
    { pose proof (mir_jobs _ _ HR) as Hj. rewrite (ledger_jobs_split L (RegistryID next, JobID next)), Hl in Hj.
      by apply Forall_cons in Hj as [? _]. }
    assert (observed_job (clean (mergeJob (snapshot c) next))) as Hj by by apply observed_clean_merge.
    exists (Some (snapshot c)), (clean (mergeJob (snapshot c) next)). rewrite json_job_plain by apply Hj. eexists.
    split_and!; [by cbn; rewrite <- Hid|done|done|split_and!; [done|done|intros k; apply merge_max]|by cbn|by cbn; rewrite <- Hid].
  - rewrite bool_decide_false by (intros [? [=]]). destruct (Register next); cbn [negb andb]; [|by left].
    right. assert (observed_job (clean next)) as Hj by by apply observed_clean.
    exists None, (clean next). rewrite json_job_plain by apply Hj. by eexists.
Qed.

Lemma persisted_mirrors now next db L : mirrors db L -> observed_job next ->
  mirrors (run_op opts db (Persisted now next)) (ledger_op opts L (Persisted now next)).
Proof.
  intros HR Hn. destruct (persisted_cases now next db L HR Hn) as [[-> ->]|(old & j & jobs' & Hold & Hj & Ho & _ & -> & ->)]; [done|].
  apply (mirrors_entered db); [done..| |apply roll_job_checkpoints]. subst j. apply clean_clean.
Qed.

(** The totals of a day that is kept follow the replacement of a job. *)
Lemma entered_totalled day now old next db L jobs' d checkpoints :
  let id := (RegistryID next, JobID next) in
  totalled day db L -> Forall observed_job (ledger_jobs L) -> live L !! id = old -> observed_job next -> replaces old next ->
  keeps_day opts day (Persisted now next) -> d = dayString now (CreatedAt next) ->
  totalled day (with_rollups jobs' checkpoints (roll_job now (RollupRetention opts) d old next db))
               {| live := <[id := next]> (live L); retired := retired L |}.
Proof.
  intros id [Htot Hset] Hjobs Hold Hn Hr Hkeep Hd. rewrite day_nonzero in Hd by apply Hn.
  pose proof (ledger_jobs_split L id) as Hsplit. rewrite Hold in Hsplit.
  pose proof (ledger_jobs_insert L id next) as Hins.
  set (rest := values (delete id (live L)) ++ retired L) in *.
  assert (Forall observed_job rest) as Hrest.
  { rewrite Hsplit in Hjobs. by apply Forall_app in Hjobs as [_ ?]. }
  assert (forall q u, ((RollupRetention opts =? 0) || negb (text_before d (dayString now (GoTime.Add now (- RollupRetention opts)))))%bool = false ->
    day_of next <> (day, q, u)) as Hskip.
  { intros q u [H0%Z.eqb_neq H1%negb_false_iff]%orb_false_iff. unfold day_of. intros [= Hday _ _]. rewrite Hd, Hday in H1.
    destruct Hkeep as [|Hkeep]; [done|]. by rewrite H1 in Hkeep. }
  split.
  - intros q u k. rewrite Hins. cbn [job_rollups with_rollups]. unfold roll_job.
    destruct (_ || _)%bool eqn:Hroll.
    + cbn [job_rollups]. rewrite Hd. apply (rolled_total old); try done. intros k'. by rewrite Htot, Hsplit.
    + specialize (Hskip q u eq_refl).
      rewrite Htot, Hsplit, total_cons. unfold share at 1 2. rewrite !decide_False by done.
      pose proof (total_nonneg (day, q, u) k rest Hrest).
      destruct old as [o|]; [|change (option_list None ++ rest) with rest; destruct (is_max k); lia]. destruct Hr as (_ & Hdo & _).
      change (option_list (Some o) ++ rest) with (o :: rest). rewrite total_cons. unfold share at 1 2.
      rewrite !decide_False by congruence. done.
  - intros q u s. rewrite Hins. cbn [job_setting_rollups with_rollups]. unfold roll_job.
    destruct (_ || _)%bool eqn:Hroll.
    + cbn [job_setting_rollups]. apply rolled_settings; try done. by rewrite Hset, Hsplit.
    + specialize (Hskip q u eq_refl).
      rewrite Hset, Hsplit. unfold with_settings. rewrite zsum_cons, decide_False by congruence.
      destruct old as [o|]; [|change (option_list None ++ rest) with rest; lia]. destruct Hr as (_ & Hdo & _).
      change (option_list (Some o) ++ rest) with (o :: rest). rewrite zsum_cons, decide_False by congruence. lia.
Qed.

Lemma persisted_totalled day now next db L :
  mirrors db L -> totalled day db L -> observed_job next -> keeps_day opts day (Persisted now next) ->
  totalled day (run_op opts db (Persisted now next)) (ledger_op opts L (Persisted now next)).
Proof.
  intros HR HT Hn Hkeep.
  destruct (persisted_cases now next db L HR Hn) as [[-> ->]|(old & j & jobs' & Hold & Hj & Ho & Hr & -> & ->)]; [done|].
  by apply entered_totalled; [|apply (mir_jobs _ _ HR)|..].
Qed.

Lemma delete_where_lookup {K A} `{Countable K} (p : K * A -> bool) (t : gmap K A) k :
  delete_where p t !! k = match t !! k with Some x => if p (k, x) then None else Some x | None => None end.
Proof.
  unfold delete_where. rewrite map_lookup_filter. destruct (t !! k) as [x|]; [|done]. cbn.
  destruct (p (k, x)); [by rewrite option_guard_False|by rewrite option_guard_True].
Qed.

Lemma delete_where_keep {K A} `{Countable K} (p : K * A -> bool) (t : gmap K A) k :
  (forall x, p (k, x) = false) -> delete_where p t !! k = t !! k.
Proof. intros Hp. rewrite delete_where_lookup. destruct (t !! k); [by rewrite Hp|done]. Qed.

(** The jobs that are settled for long are forgotten, but still count. *)
Lemma retire_jobs cutoff L : ledger_jobs (retire cutoff L) ≡ₚ ledger_jobs L.
Proof. unfold ledger_jobs, retire. cbn. by rewrite app_assoc, <- values_filter. Qed.

Lemma retired_mirrors cutoff db L : mirrors db L -> mirrors (expire_detail cutoff db) (retire cutoff L).
Proof.
  intros [Hlive Hrows Hjobs Hclean]. split; [| |by rewrite retire_jobs..].
  - cbn. unfold delete_where. rewrite Hlive, map_filter_fmap. f_equal. apply map_filter_ext. intros id c Hc. cbn.
    destruct (Hrows _ _ Hc) as (-> & -> & _). done.
  - cbn. intros id c. unfold delete_where. rewrite map_lookup_filter_Some. intros [Hc _]. by apply Hrows.
Qed.

Lemma cleaned_mirrors clock now db L : mirrors db L ->
  mirrors (run_op opts db (CleanedUp clock now)) (ledger_op opts L (CleanedUp clock now)).
Proof.
  intros HR. cbn [run_op ledger_op]. unfold Cleanup.
  assert (mirrors (if 0 <? DetailRetention opts then expire_detail (formatTime (GoTime.Add now (- DetailRetention opts))) db else db)
            (if 0 <? DetailRetention opts then retire (formatTime (GoTime.Add now (- DetailRetention opts))) L else L))
    as [Hlive Hrows Hjobs Hclean].
  { destruct (0 <? DetailRetention opts); [by apply retired_mirrors|done]. }
  split; [| |done..]; destruct (0 <? RollupRetention opts); cbn; done.
Qed.

Lemma cleaned_totalled day clock now db L : totalled day db L -> keeps_day opts day (CleanedUp clock now) ->
  totalled day (run_op opts db (CleanedUp clock now)) (ledger_op opts L (CleanedUp clock now)).
Proof.
  intros HT Hkeep. cbn [run_op ledger_op]. unfold Cleanup.
  set (db1 := if 0 <? DetailRetention opts then expire_detail _ db else db).
  set (L1 := if 0 <? DetailRetention opts then retire _ L else L).
  assert (totalled day db1 L1) as [Htot Hset].
  { subst db1 L1. destruct (0 <? DetailRetention opts); [|done]. destruct HT as [Htot Hset].
    split; intros; rewrite retire_jobs; [apply Htot|apply Hset]. }
  set (db2 := if 0 <? RollupRetention opts then expire_rollups _ db1 else db1).
  assert (forall q u, row_of (job_rollups db2) (day, q, u) = row_of (job_rollups db1) (day, q, u)) as Hrow.
  { intros q u. subst db2. destruct (Z.ltb_spec 0 (RollupRetention opts)); [|done]. unfold row_of. cbn.
    rewrite delete_where_keep; [done|]. intros x. cbn. destruct Hkeep; [lia|done]. }
  assert (forall q u s, job_setting_rollups db2 !! ((day, q, u), s) = job_setting_rollups db1 !! ((day, q, u), s)) as Hs.
  { intros q u s. subst db2. destruct (Z.ltb_spec 0 (RollupRetention opts)); [|done]. cbn.
    rewrite delete_where_keep; [done|]. intros x. unfold day_before. cbn. destruct Hkeep; [lia|done]. }
  clearbody db2. split; cbn.
  - intros q u k. by rewrite Hrow.
  - intros q u s. rewrite <- Hset, <- Hs, delete_where_lookup. destruct (job_setting_rollups db2 !! _) as [n|]; [|done].
    cbn. by destruct (Z.eqb_spec n 0) as [->|].
Qed.

Lemma recorded_mirrors now a db L : mirrors db L -> mirrors (persistAction now a db) L.
Proof. intros []. unfold persistAction. destruct (actions db !! ID a); by split. Qed.
Lemma recorded_totalled day now a db L : totalled day db L -> totalled day (persistAction now a db) L.
Proof. intros []. unfold persistAction. destruct (actions db !! ID a); by split. Qed.

Lemma mirrors_step op db L : mirrors db L -> good_op op -> mirrors (run_op opts db op) (ledger_op opts L op).
Proof. intros HR Hg. destruct op; [by apply persisted_mirrors|by apply recorded_mirrors|by apply cleaned_mirrors]. Qed.

Lemma totalled_step day op db L : mirrors db L -> totalled day db L -> good_op op -> keeps_day opts day op ->
  totalled day (run_op opts db op) (ledger_op opts L op).
Proof. intros HR HT Hg Hk. destruct op; [by apply persisted_totalled|by apply recorded_totalled|by apply cleaned_totalled]. Qed.

(** ** Whole runs *)

Definition run (ops : list operation) : DB := foldl (run_op opts) no_db ops.
Definition ledger (ops : list operation) : Ledger := foldl (ledger_op opts) no_ledger ops.

Lemma ledger_run_snoc ops op : run (ops ++ [op]) = run_op opts (run ops) op.
Proof. unfold run. by rewrite foldl_snoc. Qed.
Lemma ledger_snoc ops op : ledger (ops ++ [op]) = ledger_op opts (ledger ops) op.
Proof. unfold ledger. by rewrite foldl_snoc. Qed.

Lemma run_mirrors ops : Forall good_op ops -> mirrors (run ops) (ledger ops).
Proof.
  induction ops as [|op ops IH] using rev_ind.
  - intros _. split; cbn; [by rewrite fmap_empty|intros id c; by rewrite lookup_empty| |];
      unfold ledger_jobs, values; cbn; rewrite map_to_list_empty; by constructor.
  - rewrite Forall_app, Forall_singleton, ledger_run_snoc, ledger_snoc. intros [Hg Hop]. apply mirrors_step; auto.
Qed.

Lemma run_totalled day ops : Forall good_op ops -> Forall (keeps_day opts day) ops -> totalled day (run ops) (ledger ops).
Proof.
  induction ops as [|op ops IH] using rev_ind.
  - intros _ _. split; cbn; intros; unfold row_of; rewrite lookup_empty, ?col_empty; unfold total, with_settings, ledger_jobs, values;
      cbn; rewrite map_to_list_empty; by destruct (is_max _) || done.
  - rewrite !Forall_app, !Forall_singleton, ledger_run_snoc, ledger_snoc. intros [Hg Hop] [Hk Hkop].
    apply totalled_step; auto using run_mirrors.
Qed.
End steps.

(** ** What a row says *)

Definition outcomes : list string := ["unresolved"; "completed"; "canceled"; "aborted"; "failed"; "rejected"].

Lemma known_count_other name value v k : k <> name -> k <> name +:+ "_known" -> col (known_count name value v) k = col v k.
Proof.
  intros H1 H2. unfold known_count. destruct value as [n|]; [destruct (0 <=? n)|]; rewrite !col_insert; repeat case_decide; congruence.
Qed.
Lemma delay_count_other created name at_ v k :
  k <> name +:+ "_max_ns" -> k <> name +:+ "_total_ns" -> k <> name +:+ "_observations" -> col (delay_count created name at_ v) k = col v k.
Proof.
  intros H1 H2 H3. unfold delay_count.
  destruct at_ as [t|]; [destruct (t <? created)|]; rewrite !col_insert; repeat case_decide; congruence.
Qed.

(** Strip the measurements off a contribution. *)
Ltac plain_column := unfold contribution; rewrite !delay_count_other, !known_count_other by (vm_compute; congruence); rewrite col_insert.

Lemma outcome_in j : jobOutcome j ∈ outcomes.
Proof. pose proof (outcome_cases j) as Ho. unfold outcomes. set_solver. Qed.

Lemma job_count_one j : col (contribution j) "job_count" = 1.
Proof. plain_column. pose proof (outcome_in j) as Ho. unfold outcomes in Ho. rewrite !elem_of_cons in Ho.
  by destruct Ho as [->|[->|[->|[->|[->|[->|[]%not_elem_of_nil]]]]]]. Qed.

Lemma outcome_count j o : o ∈ outcomes -> col (contribution j) (o +:+ "_count") = if decide (jobOutcome j = o) then 1 else 0.
Proof.
  intros Ho. pose proof (outcome_in j) as Hj. unfold outcomes in *. rewrite !elem_of_cons in Ho, Hj.
  destruct Ho as [->|[->|[->|[->|[->|[->|[]%not_elem_of_nil]]]]]]; plain_column;
    destruct Hj as [->|[->|[->|[->|[->|[->|[]%not_elem_of_nil]]]]]]; done.
Qed.

Lemma payload_column j : col (contribution j) "payload_bytes" = PayloadBytes (measures j).
Proof. plain_column. pose proof (outcome_in j) as Ho. unfold outcomes in Ho. rewrite !elem_of_cons in Ho.
  by destruct Ho as [->|[->|[->|[->|[->|[->|[]%not_elem_of_nil]]]]]]. Qed.

(** The jobs of a row. *)
Definition jobs_of (key : day_key) (l : list Job) : list Job := filter (fun j => day_of j = key) l.

Lemma total_sum key k l : is_max k = false -> total key k l = zsum (fun j => col (contribution j) k) (jobs_of key l).
Proof. intros Hk. unfold total, jobs_of. rewrite Hk, zsum_filter. done. Qed.

Lemma zsum_one {A} (l : list A) : zsum (fun _ => 1) l = zlen l.
Proof. induction l as [|x l IH]; [done|]. rewrite zsum_cons, zlen_cons, IH. done. Qed.

(** ** What a snapshot keeps *)

Definition fact_le (a b : option Z) : Prop :=
  match a with None => True | Some n => match b with Some m => n <= m | None => False end end.
Definition once_set {A} (a b : option A) : Prop := forall x, a = Some x -> b = Some x.

Record measures_le (m m' : Measures) : Prop := {
  le_documents : DocumentCount m <= DocumentCount m'; le_copies : Copies m <= Copies m'; le_payload : PayloadBytes m <= PayloadBytes m';
  le_pages : fact_le (PageCount m) (PageCount m'); le_estimated : fact_le (EstimatedImpressions m) (EstimatedImpressions m');
  le_completed : fact_le (CompletedImpressions m) (CompletedImpressions m'); le_sheets : fact_le (CompletedSheets m) (CompletedSheets m')
}.

Record remembers (j j' : Job) : Prop := {
  rem_identity : (RegistryID j', JobID j', Queue j', User j', CreatedAt j') = (RegistryID j, JobID j, Queue j, User j, CreatedAt j);
  rem_updated : UpdatedAt j <= UpdatedAt j';
  rem_accepted : Accepted j = true -> Accepted j' = true;
  rem_cancel : CancelAccepted j = true -> CancelAccepted j' = true;
  rem_terminal : terminalOutcome (ObservedState j) = true -> ObservedState j' = ObservedState j;
  rem_processing : once_set (ProcessingAt j) (ProcessingAt j');
  rem_terminal_at : once_set (TerminalAt j) (TerminalAt j');
  rem_measures : measures_le (measures j) (measures j');
  rem_settings : Forall2 (fun a b => a <> ""%string -> b = a) (setting_list (settings j)) (setting_list (settings j'))
}.

Lemma fact_le_trans a b c : fact_le a b -> fact_le b c -> fact_le a c.
Proof. destruct a, b, c; cbn; lia || done. Qed.
Lemma fact_le_refl a : fact_le a a.
Proof. destruct a; cbn; lia || done. Qed.

#[export] Instance remembers_preorder : PreOrder remembers.
Proof.
  split.
  - intros j. split; [done|lia|done|done|done|by intros x|by intros x|split; lia || apply fact_le_refl|].
    by apply Forall_Forall2_diag, Forall_true.
  - intros j1 j2 j3 [I1 U1 A1 C1 T1 P1 E1 [] S1] [I2 U2 A2 C2 T2 P2 E2 [] S2]. split; [congruence|lia|auto|auto| | | | |].
    + intros Ht. rewrite <- (T1 Ht). apply T2. by rewrite (T1 Ht).
    + intros x Hx. auto.
    + intros x Hx. auto.
    + split; lia || eapply fact_le_trans; done.
    + eapply Forall2_trans; [|exact S1|exact S2]. cbn. intros a b c H1 H2 Ha. specialize (H1 Ha). subst. auto.
Qed.

Lemma known_maxIntPtr a b : known a = a -> fact_le a (known (maxIntPtr a b)).
Proof.
  destruct a as [a|]; [|done]. cbn. destruct (Z.ltb_spec a 0); [done|]. intros _.
  destruct b as [b|]; cbn.
  - destruct (Z.ltb_spec b 0); [cbn; destruct (Z.ltb_spec a 0); cbn; lia|].
    destruct (Z.ltb_spec a b); cbn; [destruct (Z.ltb_spec b 0)|destruct (Z.ltb_spec a 0)]; cbn; lia.
  - destruct (Z.ltb_spec a 0); cbn; lia.
Qed.

Lemma merge_remembers o next : clean o = o -> remembers o (clean (mergeJob o next)).
Proof.
  intros Hc. split; cbn.
  - done.
  - destruct (Z.ltb_spec (UpdatedAt next) (UpdatedAt o)); cbn; lia.
  - intros ->. done.
  - intros ->. done.
  - intros ->. by rewrite orb_true_r.
  - intros x ->. done.
  - intros x ->. done.
  - apply (f_equal measures) in Hc. cbn in Hc. unfold known_measures in Hc.
    pose proof (f_equal PageCount Hc) as H1. pose proof (f_equal EstimatedImpressions Hc) as H2.
    pose proof (f_equal CompletedImpressions Hc) as H3. pose proof (f_equal CompletedSheets Hc) as H4. cbn in H1, H2, H3, H4.
    split; cbn; try lia; by apply known_maxIntPtr.
  - unfold setting_list. cbn.
    assert (forall a b : string, a <> ""%string -> pinned a b = a) as Hp.
    { intros a b Ha. unfold pinned. by rewrite (proj2 (String.eqb_neq _ _) Ha). }
    by repeat (constructor; [apply Hp|]).
Qed.

(** ** Repeated snapshots *)

Definition unregistered (j : Job) : Job := {|
  Register := false; RegistryID := RegistryID j; JobID := JobID j; Queue := Queue j; User := User j; CreatedAt := CreatedAt j;
  UpdatedAt := UpdatedAt j; ProcessingAt := ProcessingAt j; TerminalAt := TerminalAt j; State := State j;
  ObservedState := ObservedState j; StateReasons := StateReasons j; Accepted := Accepted j; CancelAccepted := CancelAccepted j;
  measures := measures j; settings := settings j |}.

Lemma maxIntPtr_again a b : known (maxIntPtr (known (maxIntPtr a b)) b) = known (maxIntPtr a b).
Proof.
  unfold maxIntPtr. destruct a as [a|], b as [b|]; cbn;
    repeat (match goal with |- context [?x <? ?y] => destruct (Z.ltb_spec x y); cbn end); auto; try lia; f_equal; lia.
Qed.
Lemma maxIntPtr_self b : known (maxIntPtr (known b) b) = known b.
Proof.
  unfold maxIntPtr. destruct b as [b|]; cbn;
    repeat (match goal with |- context [?x <? ?y] => destruct (Z.ltb_spec x y); cbn end); auto; lia.
Qed.
Lemma pinned_again a b : pinned (pinned a b) b = pinned a b.
Proof. unfold pinned. destruct (a =? "")%string eqn:Ha; [by destruct (b =? "")%string|by rewrite Ha]. Qed.
Lemma pinned_self a : pinned a a = a.
Proof. unfold pinned. by destruct (a =? "")%string. Qed.

Lemma more_again a b : known_measures (more (known_measures (more a b)) b) = known_measures (more a b).
Proof. unfold known_measures, more. cbn. rewrite !maxIntPtr_again. f_equal; lia. Qed.
Lemma pin_again a b : pin (pin a b) b = pin a b.
Proof. unfold pin. cbn. by rewrite !pinned_again. Qed.

(** Merging a snapshot a second time. *)
Lemma merge_again o next : clean (mergeJob (clean (mergeJob o next)) next) = clean (mergeJob o next).
Proof.
  unfold clean, mergeJob. cbn -[terminalOutcome]. rewrite more_again, pin_again, <- !orb_assoc, !orb_diag.
  destruct (UpdatedAt next <? UpdatedAt o) eqn:Hu; cbn -[terminalOutcome]; rewrite ?Hu, ?Z.ltb_irrefl; cbn -[terminalOutcome];
    rewrite ?orb_true_r, ?orb_false_r.
  - f_equal; try (by repeat case_match); by destruct (_ =? "")%string eqn:E; rewrite ?E.
  - f_equal; try (by repeat case_match). destruct (ObservedState next =? "")%string; [done|]. cbn -[terminalOutcome].
    destruct (terminalOutcome (ObservedState o)) eqn:E; [by rewrite E|]. by destruct (terminalOutcome (ObservedState next)).
Qed.
Lemma register_merge next : unregistered (clean (mergeJob (clean next) next)) = unregistered (clean next).
Proof.
  unfold unregistered, clean, mergeJob. cbn -[terminalOutcome].
  rewrite Z.ltb_irrefl. cbn -[terminalOutcome]. rewrite !orb_diag, orb_false_r.
  assert (known_measures (more (known_measures (measures next)) (measures next)) = known_measures (measures next)) as ->.
  { unfold known_measures, more. cbn. rewrite !maxIntPtr_self. f_equal; lia. }
  assert (pin (settings next) (settings next) = settings next) as ->.
  { unfold pin. rewrite !pinned_self. by destruct (settings next). }
  f_equal; by repeat case_match.
Qed.

(** ** Actions *)

(** The greatest of the values of a list that is not empty. *)
Definition greatest {A} (f : A -> Z) (l : list A) : Z :=
  match l with [] => 0 | x :: l => foldl (fun m y => Z.max m (f y)) (f x) l end.
Lemma greatest_snoc {A} (f : A -> Z) l x : greatest f (l ++ [x]) = match l with [] => f x | _ => Z.max (greatest f l) (f x) end.
Proof. destruct l as [|y l]; [done|]. cbn. by rewrite foldl_snoc. Qed.
Lemma zsum_snoc {A} (f : A -> Z) l x : zsum f (l ++ [x]) = zsum f l + f x.
Proof. rewrite zsum_app. change (zsum f [x]) with (f x + 0). lia. Qed.

(** The ledger of the actions: those in the table, and those that the totals
    of their days count, each with the day it was counted on. *)
Abbreviation counted_action := (string * Action)%type.
Record action_ledger := { present : list Action; counted : list counted_action }.

(** Recorded: an action whose id is not in the table. *)
Definition note_action (now : time) (a : Action) (L : action_ledger) : action_ledger :=
  if decide (ID a ∈ map ID (present L)) then L
  else {| present := present L ++ [a]; counted := counted L ++ [(dayString now (FinishedAt a), a)] |}.
(** Cleaned up: the actions that finished before one time and the days before
    another, where these retentions are set. *)
Definition unexpired (cutoff : string) (a : Action) : Prop := text_before (formatTime (FinishedAt a)) cutoff = false.
#[export] Instance unexpired_dec cutoff a : Decision (unexpired cutoff a) := Bool.bool_dec _ _.
Definition clean_actions (opts : Options) (clock now : time) (L : action_ledger) : action_ledger := {|
  present := if 0 <? DetailRetention opts
             then filter (unexpired (formatTime (GoTime.Add now (- DetailRetention opts)))) (present L) else present L;
  counted := if 0 <? RollupRetention opts
             then filter (fun e => text_before e.1 (dayString clock (GoTime.Add now (- RollupRetention opts))) = false) (counted L)
             else counted L |}.
Definition action_ledger_op (opts : Options) (L : action_ledger) (op : operation) : action_ledger :=
  match op with
  | Persisted _ _ => L
  | Recorded now a => note_action now a L
  | CleanedUp clock now => clean_actions opts clock now L
  end.
Definition actions_ledger (opts : Options) (ops : list operation) : action_ledger :=
  foldl (action_ledger_op opts) {| present := []; counted := [] |} ops.

(** The first action of every id. *)
Definition first_of (l : list Action) (a : Action) : list Action := if decide (ID a ∈ map ID l) then l else l ++ [a].
Definition firsts (l : list Action) : list Action := foldl first_of [] l.

Definition action_day (e : counted_action) : day_key := (e.1, aQueue e.2, aUser e.2).
Definition action_row_key (e : counted_action) : action_key := (action_day e, (Kind e.2, Operation e.2, Outcome e.2)).
Definition counted_in (key : action_key) (l : list counted_action) : list Action := map snd (filter (fun e => action_row_key e = key) l).
Definition buffered_in (key : day_key) (kind : string) (l : list counted_action) : list Action :=
  map snd (filter (fun e => (action_day e, Kind e.2) = (key, kind)) l).

(** The totals of the actions of a row. *)
Definition aggregate_of (l : list Action) : action_totals := {|
  action_count := zlen l; duration_ns := zsum DurationNS l; duration_max_ns := greatest DurationNS l;
  client_bytes := zsum ClientBytes l; upstream_bytes := zsum UpstreamBytes l; output_bytes := zsum OutputBytes l;
  buffer_peak_bytes := greatest BufferPeakBytes l; temp_peak_bytes := greatest TempPeakBytes l;
  temp_written_bytes := zsum TempWrittenBytes l; concurrency_max := greatest Concurrency l;
  user_concurrency_max := greatest UserConcurrency l |}.
Definition aggregate (l : list Action) : option action_totals := match l with [] => None | _ => Some (aggregate_of l) end.
Definition peaks_of (component : string) (l : list Action) : list Z := omap (fun a => BufferComponents a !! component) l.
Definition buffer_aggregate (peaks : list Z) : option buffer_totals :=
  match peaks with [] => None | _ => Some {| bAction_count := zlen peaks; peak_capacity_bytes := greatest id peaks |} end.

Lemma aggregate_snoc l a :
  aggregate (l ++ [a]) = Some (match aggregate l with None => totals_of a | Some row => add_totals row (totals_of a) end).
Proof.
  assert (aggregate (l ++ [a]) = Some (aggregate_of (l ++ [a]))) as -> by by destruct l.
  f_equal. destruct l as [|b l].
  - unfold aggregate_of, totals_of. cbn. f_equal; lia.
  - cbn [aggregate]. unfold aggregate_of, add_totals, totals_of.
    cbn [action_count duration_ns duration_max_ns client_bytes upstream_bytes output_bytes buffer_peak_bytes temp_peak_bytes
         temp_written_bytes concurrency_max user_concurrency_max].
    by rewrite !zsum_snoc, !greatest_snoc, zlen_app.
Qed.
Lemma buffer_aggregate_snoc l p : buffer_aggregate (l ++ [p]) = Some (add_buffer p (buffer_aggregate l)).
Proof.
  destruct l as [|b l]; [done|]. unfold buffer_aggregate. cbn [app]. change (b :: l ++ [p]) with ((b :: l) ++ [p]).
  unfold add_buffer. rewrite greatest_snoc, zlen_app. done.
Qed.

Definition buffer_row (key : day_key) (kind : string) (t : gmap buffer_key buffer_totals) (c : string * Z) : gmap buffer_key buffer_totals :=
  <[(key, (kind, c.1)) := add_buffer c.2 (t !! (key, (kind, c.1)))]> t.

Lemma buffer_rows_other key kind l t key' : (forall c, c ∈ l -> (key, (kind, c.1)) <> key') -> foldl (buffer_row key kind) t l !! key' = t !! key'.
Proof.
  revert t. induction l as [|c l IH]; intros t Hne; [done|]. cbn [foldl]. rewrite IH by set_solver.
  unfold buffer_row. rewrite lookup_insert_ne; [done|]. apply Hne. set_solver.
Qed.
Lemma buffer_rows_in key kind l t c p : NoDup l.*1 -> (c, p) ∈ l ->
  foldl (buffer_row key kind) t l !! (key, (kind, c)) = Some (add_buffer p (t !! (key, (kind, c)))).
Proof.
  revert t. induction l as [|[c' p'] l IH]; intros t; [set_solver|]. rewrite fmap_cons, NoDup_cons. cbn [foldl fst].
  intros [Hc Hnd] [[= <- <-]|Hin]%elem_of_cons.
  - rewrite buffer_rows_other; [apply lookup_insert_eq|]. intros x Hx [= Hxc]. apply Hc, list_elem_of_fmap. by exists x.
  - rewrite IH by done. f_equal. f_equal. unfold buffer_row. rewrite lookup_insert_ne; [done|]. intros [= ->].
    apply Hc, list_elem_of_fmap. by exists (c, p).
Qed.

(** The tables of the actions are those of the ledger. *)
Record actions_totalled (db : DB) (L : action_ledger) : Prop := {
  act_ids : NoDup (map ID (present L));
  act_rows : forall id, actions db !! id = actionColumns <$> List.find (fun a => (ID a =? id)%string) (present L);
  act_totals : forall key, action_rollups db !! key = aggregate (counted_in key (counted L));
  act_buffers : forall key kind c, buffer_rollups db !! (key, (kind, c)) =
    buffer_aggregate (peaks_of c (buffered_in key kind (counted L)))
}.

Lemma find_id id l : (exists a, List.find (fun a => (ID a =? id)%string) l = Some a) <-> id ∈ map ID l.
Proof.
  split.
  - intros [a Ha]. apply List.find_some in Ha as [Hin <-%String.eqb_eq]. apply list_elem_of_fmap.
    exists a. by rewrite list_elem_of_In.
  - intros (a & -> & Hin)%list_elem_of_fmap.
    destruct (List.find (fun b => (ID b =? ID a)%string) l) as [b|] eqn:Hf; [by exists b|].
    exfalso. pose proof (List.find_none _ _ Hf a) as Hn. rewrite <- list_elem_of_In in Hn. specialize (Hn Hin). by rewrite String.eqb_refl in Hn.
Qed.

Lemma find_app (p : Action -> bool) l k : List.find p (l ++ k) = match List.find p l with Some a => Some a | None => List.find p k end.
Proof. induction l as [|a l IH]; [done|]. cbn. by destruct (p a). Qed.

Lemma find_filter (P : Action -> Prop) `{!forall a, Decision (P a)} id l : NoDup (map ID l) ->
  List.find (fun a => (ID a =? id)%string) (filter P l) =
  match List.find (fun a => (ID a =? id)%string) l with Some a => if decide (P a) then Some a else None | None => None end.
Proof.
  induction l as [|b l IH]; [done|]. cbn [map]. intros [Hb Hnd]%NoDup_cons. rewrite filter_cons. cbn [List.find].
  destruct (String.eqb_spec (ID b) id) as [<-|Hne].
  - destruct (decide (P b)); [cbn; by rewrite String.eqb_refl|]. rewrite IH by done.
    destruct (List.find _ l) as [c|] eqn:Hf; [|done]. exfalso. apply Hb, find_id. eauto.
  - destruct (decide (P b)); [cbn; rewrite (proj2 (String.eqb_neq _ _) Hne)|]; by apply IH.
Qed.

(** The entries of one key, when the days before a bound are dropped. *)
Lemma filter_kept {K} `{EqDecision K} (key : counted_action -> K) (day : K -> string) (k : K) bound l :
  (forall e, day (key e) = e.1) ->
  filter (fun e => key e = k) (filter (fun e => text_before e.1 bound = false) l) =
  if text_before (day k) bound then [] else filter (fun e => key e = k) l.
Proof.
  intros Hd. induction l as [|e l IH]; [by destruct (text_before _ _)|]. rewrite (filter_cons _ e l), (filter_cons _ e l).
  destruct (decide (key e = k)) as [<-|Hne].
  - rewrite Hd in *. destruct (text_before e.1 bound) eqn:Et.
    + by rewrite (decide_False (P := true = false)).
    + rewrite (decide_True (P := false = false)), filter_cons, decide_True by done. by rewrite IH.
  - case_decide; [rewrite filter_cons, decide_False by done|]; exact IH.
Qed.

Lemma counted_in_snoc key l e :
  counted_in key (l ++ [e]) = counted_in key l ++ (if decide (action_row_key e = key) then [e.2] else []).
Proof. unfold counted_in. rewrite filter_app, filter_cons, filter_nil, map_app. by case_decide. Qed.
Lemma buffered_in_snoc key kind l e :
  buffered_in key kind (l ++ [e]) = buffered_in key kind l ++ (if decide ((action_day e, Kind e.2) = (key, kind)) then [e.2] else []).
Proof. unfold buffered_in. rewrite filter_app, filter_cons, filter_nil, map_app. by case_decide. Qed.

Lemma recorded_totals `{R : MapRange} now a db L :
  actions_totalled db L -> actions_totalled (persistAction now a db) (note_action now a L).
Proof.
  intros [Hnd Hrows Htot Hbuf]. unfold persistAction, note_action. rewrite Hrows.
  pose proof (find_id (ID a) (present L)) as Hid. destruct (List.find _ (present L)) as [b|] eqn:Hf.
  { rewrite decide_True by (apply Hid; eauto). by split. }
  assert (ID a ∉ map ID (present L)) as Hnew by (intros [? [=]]%Hid).
  rewrite decide_False by done. cbn [fmap option_fmap option_map].
  set (e := (dayString now (FinishedAt a), a) : counted_action).
  split; cbn [present counted actions action_rollups buffer_rollups].
  - rewrite map_app. apply NoDup_app. split; [done|]. split; [set_solver|]. apply NoDup_singleton.
  - intros id. rewrite find_app.
    destruct (decide (ID a = id)) as [<-|Hne].
    + rewrite lookup_insert_eq, Hf. cbn. by rewrite String.eqb_refl.
    + rewrite lookup_insert_ne, Hrows by done.
      destruct (List.find (fun b => (ID b =? id)%string) _); [done|]. cbn. by rewrite (proj2 (String.eqb_neq _ _) Hne).
  - intros key. fold (action_day e) (action_row_key e). rewrite counted_in_snoc.
    destruct (decide (action_row_key e = key)) as [<-|Hne].
    + by rewrite lookup_insert_eq, aggregate_snoc, Htot.
    + by rewrite lookup_insert_ne, app_nil_r.
  - intros key kind c. fold (action_day e).
    change (foldl _ (buffer_rollups db) (range (BufferComponents a))) with
      (foldl (buffer_row (action_day e) (Kind a)) (buffer_rollups db) (range (BufferComponents a))).
    rewrite buffered_in_snoc. unfold peaks_of. rewrite omap_app. fold (peaks_of c (buffered_in key kind (counted L))).
    destruct (decide ((action_day e, Kind e.2) = (key, kind))) as [[= <- <-]|Hne].
    + cbn [omap list_omap]. destruct (BufferComponents e.2 !! c) as [p|] eqn:Hp.
      * rewrite buffer_aggregate_snoc, <- Hbuf. apply buffer_rows_in; rewrite range_perm; [apply NoDup_fst_map_to_list|by apply elem_of_map_to_list].
      * rewrite app_nil_r, <- Hbuf. apply buffer_rows_other. intros [c' p] Hin [= ->]. rewrite range_perm in Hin.
        apply elem_of_map_to_list in Hin. cbn in Hp, Hin. congruence.
    + cbn [omap list_omap]. rewrite app_nil_r, <- Hbuf. apply buffer_rows_other. intros x _ [= Hd Hk]. apply Hne. by rewrite Hd, <- Hk.
Qed.

Lemma cleaned_totals opts clock now db L :
  actions_totalled db L -> actions_totalled (Cleanup opts clock now db) (clean_actions opts clock now L).
Proof.
  intros [Hnd Hrows Htot Hbuf]. unfold Cleanup, clean_actions. cbv zeta.
  set (db1 := if 0 <? DetailRetention opts then _ else db).
  set (db2 := if 0 <? RollupRetention opts then _ else db1).
  assert (action_rollups db1 = action_rollups db /\ buffer_rollups db1 = buffer_rollups db) as [Er Eb] by (by unfold db1; case_match).
  assert (actions db2 = actions db1) as Ea by (by unfold db2; case_match).
  split; cbn [present counted actions action_rollups buffer_rollups].
  - case_match; [|done]. eapply sublist_NoDup; [exact Hnd|]. apply fmap_sublist, sublist_filter.
  - intros id. rewrite Ea. unfold db1. destruct (0 <? DetailRetention opts); [|apply Hrows].
    cbn [actions expire_detail]. rewrite delete_where_lookup, Hrows, find_filter by done.
    destruct (List.find _ _) as [a|]; [|done]. cbn [fmap option_fmap option_map].
    cbv beta. cbn [snd]. change (column_before "finished_at" ?c (actionColumns a)) with (text_before (formatTime (FinishedAt a)) c).
    unfold unexpired. case_decide as Hd; [by rewrite Hd|]. by apply not_false_iff_true in Hd as ->.
  - intros key. unfold db2. destruct (0 <? RollupRetention opts); [|by rewrite Er, Htot].
    cbn [action_rollups expire_rollups]. rewrite delete_where_lookup, Er, Htot. unfold counted_in.
    rewrite (filter_kept action_row_key (fun k => k.1.1.1)) by done. unfold day_before. cbn [fst].
    destruct (text_before key.1.1.1 _); [by destruct (aggregate _)|by destruct (aggregate _)].
  - intros key kind c. unfold db2. destruct (0 <? RollupRetention opts); [|by rewrite Eb, Hbuf].
    cbn [buffer_rollups expire_rollups]. rewrite delete_where_lookup, Eb, Hbuf. unfold buffered_in.
    rewrite (filter_kept (fun e => (action_day e, Kind e.2)) (fun k => k.1.1.1)) by done. unfold day_before. cbn [fst].
    destruct (text_before key.1.1 _); [by destruct (buffer_aggregate _)|by destruct (buffer_aggregate _)].
Qed.

(** ** Steps of a run *)

Definition is_cleanup (op : operation) : bool := match op with CleanedUp _ _ => true | _ => false end.
Definition recorded_actions (ops : list operation) : list Action := omap (fun op => match op with Recorded _ a => Some a | _ => None end) ops.

Lemma remembers_step `{R : MapRange} opts op db L id c : mirrors db L -> good_op op -> is_cleanup op = false ->
  job_checkpoints db !! id = Some c ->
  exists c', job_checkpoints (run_op opts db op) !! id = Some c' /\ remembers (snapshot c) (snapshot c').
Proof.
  intros HR Hg Hn Hc. destruct op as [now next|now a|]; [| |done].
  - destruct (persisted_cases opts now next db L HR Hg) as [[-> _]|(old & j & jobs' & Hold & Hj & Ho & _ & -> & _)].
    { by exists c. }
    cbn. rewrite roll_job_checkpoints. unfold upsert_checkpoint.
    destruct (decide ((RegistryID j, JobID j) = id)) as [Hid|Hne].
    2:{ exists c. split; [by rewrite lookup_insert_ne|done]. }
    rewrite Hid in *. rewrite lookup_insert_eq, Hc. eexists. split; [done|]. cbn.
    rewrite (mir_live _ _ HR), lookup_fmap, Hc in Hold. cbn in Hold. subst old. rewrite Hj. apply merge_remembers.
    pose proof (mir_clean _ _ HR) as Hcl. rewrite (ledger_jobs_split L id), (mir_live _ _ HR), lookup_fmap, Hc in Hcl.
    by apply Forall_cons in Hcl as [? _].
  - exists c. split; [|done]. cbn. unfold persistAction. by destruct (actions db !! ID a).
Qed.

Lemma persisted_actions `{R : MapRange} opts now next db :
  let db' := run_op opts db (Persisted now next) in
  actions db' = actions db /\ action_rollups db' = action_rollups db /\ buffer_rollups db' = buffer_rollups db.
Proof.
  cbn. unfold persistJob. destruct (_ || _)%bool; [done|]. destruct (_ && _)%bool; [done|].
  destruct (json_job _); cbn; [|done]. unfold roll_job. by destruct (_ || _)%bool.
Qed.

Lemma actions_ledger_snoc opts ops op : actions_ledger opts (ops ++ [op]) = action_ledger_op opts (actions_ledger opts ops) op.
Proof. apply foldl_snoc. Qed.

Lemma run_actions `{R : MapRange} opts ops : actions_totalled (run opts ops) (actions_ledger opts ops).
Proof.
  induction ops as [|op ops IH] using rev_ind.
  { split; cbn; intros; [constructor|by rewrite lookup_empty..]. }
  rewrite ledger_run_snoc, actions_ledger_snoc. destruct op as [now next|now a|clock now].
  - destruct (persisted_actions opts now next (run opts ops)) as (Ha & Hr & Hb). destruct IH.
    split; intros; rewrite ?Ha, ?Hr, ?Hb; done.
  - by apply recorded_totals.
  - by apply cleaned_totals.
Qed.

(** Without a clean-up the ledger is the first action of every id. *)
Lemma ledger_firsts opts ops : Forall (fun op => is_cleanup op = false) ops ->
  present (actions_ledger opts ops) = firsts (recorded_actions ops) /\
  map snd (counted (actions_ledger opts ops)) = firsts (recorded_actions ops).
Proof.
  induction ops as [|op ops IH] using rev_ind; [done|]. rewrite Forall_app, Forall_singleton. intros [Hn Hop].
  destruct (IH Hn) as [Hp Hc]. rewrite actions_ledger_snoc. unfold recorded_actions. rewrite omap_app.
  destruct op as [now next|now a|]; [| |done]; cbn [omap list_omap action_ledger_op].
  - by rewrite app_nil_r.
  - unfold firsts. rewrite foldl_snoc. fold (recorded_actions ops). fold (firsts (recorded_actions ops)).
    unfold note_action, first_of. rewrite Hp. case_decide; cbn [present counted]; [done|]. by rewrite map_app, Hc.
Qed.

(** Jobs that count the same. *)
Definition same_shares (l l' : list Job) : Prop :=
  Permutation (map unregistered l) (map unregistered l').

Lemma same_total key k l l' : same_shares l l' -> total key k l = total key k l'.
Proof.
  unfold same_shares. intros Hs. assert (forall l, total key k l = total key k (map unregistered l)) as Hu.
  { clear. intros l. induction l as [|j l IH]; [done|]. cbn [map]. rewrite !total_cons, IH. done. }
  by rewrite (Hu l), (Hu l'), Hs.
Qed.
Lemma same_settings key l l' : same_shares l l' -> with_settings key l = with_settings key l'.
Proof.
  unfold same_shares. intros Hs. assert (forall l, with_settings key l = with_settings key (map unregistered l)) as Hu.
  { clear. intros l. unfold with_settings. by rewrite zsum_map. }
  by rewrite (Hu l), (Hu l'), Hs.
Qed.

Lemma observe_again next L : same_shares (ledger_jobs (observe next (observe next L))) (ledger_jobs (observe next L)).
Proof.
  unfold same_shares, observe. destruct (_ || _)%bool; [done|].
  destruct (live L !! (RegistryID next, JobID next)) as [o|] eqn:Ho.
  - cbn [live retired]. rewrite lookup_insert_eq, insert_insert_eq, merge_again. done.
  - destruct (Register next) eqn:Hreg; [|by rewrite Ho].
    cbn [live retired]. rewrite lookup_insert_eq, insert_insert_eq, !ledger_jobs_insert. cbn [map].
    by rewrite register_merge.
Qed.

Section theorems.
Context `{R : MapRange} (opts : Options).

(** C10: The totals of the statistics refine the ledger: after any sequence of
    observations (repeated, late, out of order, of unknown jobs), of completed
    actions and of clean-ups, the snapshots of the database are those of the
    ledger, every column of a daily row of job totals is the sum (the maximum,
    for the greatest delays) of what the jobs of the day, the queue and the user
    contribute, settled and forgotten jobs included, and the table of settings
    counts the jobs with each combination of settings. A day counts as long as
    the retention of the totals has not reached it. *)
Theorem job_totals (ops : list operation) (day q u : string) :
  Forall good_op ops -> Forall (keeps_day opts day) ops ->
  snapshot <$> job_checkpoints (run opts ops) = live (ledger opts ops) /\
  (forall k, col (row_of (job_rollups (run opts ops)) (day, q, u)) k = total (day, q, u) k (ledger_jobs (ledger opts ops))) /\
  (forall s, default 0 (job_setting_rollups (run opts ops) !! ((day, q, u), s)) =
             with_settings ((day, q, u), s) (ledger_jobs (ledger opts ops))).
Proof.
  intros Hg Hk. pose proof (run_totalled opts day ops Hg Hk) as [Htot Hset].
  split_and!; [|intros k; apply Htot|intros s; apply Hset]. by rewrite (mir_live _ _ (run_mirrors opts ops Hg)).
Qed.

(** A daily row is balanced: it counts every job of the day, the queue and
    the user once; each outcome column is the number of these jobs with that
    outcome, so that the outcomes add up to the jobs, and no column is ever
    negative. *)
Theorem day_balanced (ops : list operation) (day q u : string) :
  Forall good_op ops -> Forall (keeps_day opts day) ops ->
  let row := row_of (job_rollups (run opts ops)) (day, q, u) in
  let jobs := jobs_of (day, q, u) (ledger_jobs (ledger opts ops)) in
  col row "job_count" = zlen jobs /\
  (forall o, o ∈ outcomes -> col row (o +:+ "_count") = zlen (filter (fun j => jobOutcome j = o) jobs)) /\
  col row "job_count" = zsum (fun o => col row (o +:+ "_count")) outcomes /\
  (forall k, 0 <= col row k).
Proof.
  intros Hg Hk row jobs. pose proof (run_totalled opts day ops Hg Hk) as [Htot _].
  assert (col row "job_count" = zlen jobs) as Hcount.
  { unfold row. rewrite Htot, total_sum by done. fold jobs.
    rewrite (zsum_ext _ (fun _ => 1)) by (intros; apply job_count_one). apply zsum_one. }
  assert (forall o, o ∈ outcomes -> col row (o +:+ "_count") = zlen (filter (fun j => jobOutcome j = o) jobs)) as Hout.
  { intros o Ho. unfold row. rewrite Htot, total_sum.
    - fold jobs. rewrite (zsum_ext _ (fun j => if decide (jobOutcome j = o) then 1 else 0)) by (intros; by apply outcome_count).
      by rewrite <- (zsum_filter (fun _ => 1)), zsum_one.
    - unfold outcomes in Ho. rewrite !elem_of_cons in Ho. by destruct Ho as [->|[->|[->|[->|[->|[->|[]%not_elem_of_nil]]]]]]. }
  split_and!; [done|done| |].
  - rewrite Hcount, (zsum_ext _ (fun o => zlen (filter (fun j => jobOutcome j = o) jobs))) by exact Hout.
    clear. induction jobs as [|j l IH]; [done|]. rewrite zlen_cons, IH.
    rewrite <- (Z.add_comm _ 1). rewrite (zsum_ext (fun o => zlen (filter (fun j => jobOutcome j = o) (j :: l)))
      (fun o => zlen (filter (fun j => jobOutcome j = o) l) + if decide (jobOutcome j = o) then 1 else 0)).
    + rewrite zsum_plus. f_equal. pose proof (outcome_in j) as Hj. unfold outcomes in *. rewrite !elem_of_cons in Hj.
      by destruct Hj as [->|[->|[->|[->|[->|[->|[]%not_elem_of_nil]]]]]].
    + intros o _. rewrite filter_cons. case_decide; rewrite ?zlen_cons; lia.
  - intros k. unfold row. rewrite Htot. apply total_nonneg, (mir_jobs _ _ (run_mirrors opts ops Hg)).
Qed.

(** C26: Nothing that is known of a job is lost: while no clean-up forgets it, a
    recorded job keeps its identity, its user and its day, its acceptance and
    its cancellation, the outcome the printer has reported, the first times, and
    the settings of its submission, and no count ever decreases, whatever
    snapshots come later and in whatever order. *)
Theorem facts_kept (before after : list operation) (id : string * Z) (c : checkpoint) :
  Forall good_op before -> Forall good_op after -> Forall (fun op => is_cleanup op = false) after ->
  job_checkpoints (run opts before) !! id = Some c ->
  exists c', job_checkpoints (run opts (before ++ after)) !! id = Some c' /\ remembers (snapshot c) (snapshot c').
Proof.
  intros Hb Ha Hn Hc. induction after as [|op after IH] using rev_ind.
  { exists c. by rewrite app_nil_r. }
  rewrite Forall_app, Forall_singleton in Ha, Hn. destruct Ha as [Ha Hop], Hn as [Hn Hnop].
  destruct (IH Ha Hn) as (c1 & Hc1 & Hr). rewrite app_assoc, ledger_run_snoc.
  assert (mirrors (run opts (before ++ after)) (ledger opts (before ++ after))) as HR by (apply run_mirrors, Forall_app; done).
  destruct (remembers_step opts op _ _ id c1 HR Hop Hnop Hc1) as (c2 & Hc2 & Hr2). exists c2. split; [done|]. by etrans.
Qed.

(** A snapshot that is recorded again, as when a request reports a job that
    has not changed, changes no total of any day. *)
Theorem repeated_snapshot (ops : list operation) (now now' : time) (next : Job) (day q u : string) :
  Forall good_op ops -> observed_job next -> Forall (keeps_day opts day) (ops ++ [Persisted now next; Persisted now' next]) ->
  (forall k, col (row_of (job_rollups (run opts (ops ++ [Persisted now next; Persisted now' next]))) (day, q, u)) k =
             col (row_of (job_rollups (run opts (ops ++ [Persisted now next]))) (day, q, u)) k) /\
  (forall s, default 0 (job_setting_rollups (run opts (ops ++ [Persisted now next; Persisted now' next])) !! ((day, q, u), s)) =
             default 0 (job_setting_rollups (run opts (ops ++ [Persisted now next])) !! ((day, q, u), s))).
Proof.
  intros Hg Hn Hk. change [Persisted now next; Persisted now' next] with ([Persisted now next] ++ [Persisted now' next]) in *.
  rewrite app_assoc in *. pose proof Hk as [Hk1 _]%Forall_app.
  assert (Forall good_op (ops ++ [Persisted now next])) as Hg1 by (apply Forall_app; split; [done|by apply Forall_singleton]).
  destruct (run_totalled opts day (ops ++ [Persisted now next])) as [T1 S1]; [done..|].
  destruct (run_totalled opts day ((ops ++ [Persisted now next]) ++ [Persisted now' next])) as [T2 S2];
    [apply Forall_app; split; [done|by apply Forall_singleton]|done|].
  assert (same_shares (ledger_jobs (ledger opts ((ops ++ [Persisted now next]) ++ [Persisted now' next])))
                      (ledger_jobs (ledger opts (ops ++ [Persisted now next])))) as Hs.
  { rewrite !ledger_snoc. apply observe_again. }
  split.
  - intros k. rewrite T1, T2. by apply same_total.
  - intros s. rewrite S1, S2. by apply same_settings.
Qed.

(** C27: An action is counted when its id is not in the table, and only then:
    after any sequence of recorded actions and jobs and of clean-ups, the table
    holds the actions of the ledger, each daily row is the number, the sums and
    the maxima of the actions counted on its day for its queue, user, kind,
    operation and outcome, and the rows of the buffers are those of the
    components of these actions. Without a clean-up these are the first actions
    of each id; a clean-up removes the actions that finished before the retention
    of details, whose ids are then free to be counted again, and the days before
    the retention of totals. *)
Theorem actions_counted_once (ops : list operation) :
  let L := actions_ledger opts ops in
  NoDup (map ID (present L)) /\
  (forall id, actions (run opts ops) !! id = actionColumns <$> List.find (fun a => (ID a =? id)%string) (present L)) /\
  (forall key, action_rollups (run opts ops) !! key = aggregate (counted_in key (counted L))) /\
  (forall key kind c, buffer_rollups (run opts ops) !! (key, (kind, c)) =
     buffer_aggregate (peaks_of c (buffered_in key kind (counted L)))) /\
  (Forall (fun op => is_cleanup op = false) ops ->
     present L = firsts (recorded_actions ops) /\ map snd (counted L) = firsts (recorded_actions ops)).
Proof.
  intros L. destruct (run_actions opts ops) as [Hnd Hrows Htot Hbuf]. split_and!; [done..|]. apply ledger_firsts.
Qed.

End theorems.

(** ** An example

    A job of alice: it is registered, completes, is reported again late, and is
    forgotten by a clean-up; the request that printed it is recorded twice. *)

#[local] Instance listed_range : MapRange := {| range A m := map_to_list m; range_perm A m := reflexivity _ |}.

Definition noon : time := 730000 * 86400 * Second + 43200 * Second.
Definition day_span : Z := 86400 * Second.
Definition no_settings : Settings := {|
  DocumentFormat := "application/pdf"; UpstreamFormat := ""; Route := ""; RequestedColor := ""; EffectiveColor := "monochrome";
  RequestedSides := ""; EffectiveSides := ""; RequestedMedia := ""; EffectiveMedia := "" |}.
Definition alice_job (register : bool) (updated : time) (state observed : string) (sheets : option Z) (done_at : option time) : Job := {|
  Register := register; RegistryID := "registry"; JobID := 1; Queue := "office"; User := "alice"; CreatedAt := noon; UpdatedAt := updated;
  ProcessingAt := None; TerminalAt := done_at; State := state; ObservedState := observed; StateReasons := ""; Accepted := negb register;
  CancelAccepted := false;
  measures := {| DocumentCount := 1; Copies := 2; PayloadBytes := 10; PageCount := Some 3; EstimatedImpressions := None;
                 CompletedImpressions := None; CompletedSheets := sheets |};
  settings := no_settings |}.
Definition alice_request : Action := {|
  ID := "a-1"; ParentID := ""; RunID := "run"; Kind := "client-request"; Operation := "Print-Job"; aQueue := "office"; aUser := "alice";
  Owner := "alice"; aRegistryID := "registry"; aJobID := 1; Outcome := "success"; Reason := ""; HTTPStatus := 200; IPPStatus := 0;
  StartedAt := noon; FinishedAt := noon + 7; DurationNS := 7; ClientBytes := 10; UpstreamBytes := 12; OutputBytes := 0;
  BufferPeakBytes := 64; BufferComponents := {["staging" := 64]}; TempPeakBytes := 0; TempWrittenBytes := 0;
  Concurrency := 1; UserConcurrency := 1 |}.
Definition kept_options : Options := {|
  Enabled := true; Path := ""; QueueSize := 64; BatchSize := 32; FlushInterval := Second; DetailRetention := 90 * day_span;
  CPURetention := 0; RollupRetention := 365 * day_span; Resources := true; CPU := false |}.

Definition first_ops : list operation :=
  [Persisted noon (alice_job true noon "reserved" "" None None); Recorded noon alice_request;
   Persisted noon (alice_job false (noon + 2) "mapped" "completed" (Some 2) (Some (noon + 2)))].
Definition later_ops : list operation :=
  [Recorded noon alice_request; Persisted noon (alice_job false (noon + 1) "mapped" "processing" (Some 1) None)].
Definition alice_ops : list operation :=
  first_ops ++ later_ops ++ [CleanedUp (noon + 100 * day_span) (noon + 100 * day_span);
    Persisted (noon + 100 * day_span) (alice_job false (noon + 3) "mapped" "aborted" None None)].

Lemma alice_observed register updated state observed sheets done_at :
  json_times (alice_job register updated state observed sheets done_at) = true -> plain state -> plain observed -> fact_fits sheets ->
  observed_job (alice_job register updated state observed sheets done_at).
Proof.
  intros Ht Hs Ho Hf. split; [by vm_compute|]. split; [exact Ht|]. split.
  - split; cbn; unfold settings_plain, setting_list; cbn; each_text; done.
  - unfold measures_fit, maxI64; cbn; unfold maxI64 in *; split_and!; lia || done.
Qed.

(** Each operation of the example is a good one, and keeps the day. *)
Ltac good_ops := repeat (constructor; [first [exact I | apply alice_observed; [reflexivity| reflexivity | reflexivity | cbn; unfold maxI64; lia || exact I]]|]); constructor.
Ltac kept_days := repeat (constructor; [first [exact I | right; vm_compute; reflexivity]|]); constructor.

Example job_totals_witness :
  let db := run kept_options alice_ops in
  (snapshot <$> job_checkpoints db = live (ledger kept_options alice_ops) /\
   (forall k, col (row_of (job_rollups db) ("1999-09-04", "office", "alice")) k =
      total ("1999-09-04", "office", "alice") k (ledger_jobs (ledger kept_options alice_ops))) /\
   (forall s, default 0 (job_setting_rollups db !! (("1999-09-04", "office", "alice"), s)) =
      with_settings (("1999-09-04", "office", "alice"), s) (ledger_jobs (ledger kept_options alice_ops)))) /\
  job_checkpoints db = ∅ /\
  map (col (row_of (job_rollups db) ("1999-09-04", "office", "alice")))
    ["job_count"; "unresolved_count"; "completed_count"; "copies"; "completed_sheets"; "completion_max_ns"] = [1; 0; 1; 2; 2; 2].
Proof.
  intros db. split; [apply (job_totals kept_options alice_ops "1999-09-04" "office" "alice"); [good_ops|kept_days]|].
  split; vm_compute; reflexivity.
Defined.

Example day_balanced_witness :
  let row := row_of (job_rollups (run kept_options (first_ops ++ later_ops))) ("1999-09-04", "office", "alice") in
  let jobs := jobs_of ("1999-09-04", "office", "alice") (ledger_jobs (ledger kept_options (first_ops ++ later_ops))) in
  (col row "job_count" = zlen jobs /\
   (forall o, o ∈ outcomes -> col row (o +:+ "_count") = zlen (filter (fun j => jobOutcome j = o) jobs)) /\
   col row "job_count" = zsum (fun o => col row (o +:+ "_count")) outcomes /\
   (forall k, 0 <= col row k)) /\
  col row "completed_count" = 1.
Proof.
  intros row jobs. split; [|vm_compute; reflexivity].
  refine (day_balanced kept_options (first_ops ++ later_ops) "1999-09-04" "office" "alice" _ _); [good_ops|kept_days].
Defined.

Example facts_kept_witness :
  (exists c c', job_checkpoints (run kept_options first_ops) !! ("registry", 1) = Some c /\
     job_checkpoints (run kept_options (first_ops ++ later_ops)) !! ("registry", 1) = Some c' /\
     remembers (snapshot c) (snapshot c')) /\
  (fun c => ObservedState (snapshot c)) <$> job_checkpoints (run kept_options (first_ops ++ later_ops)) !! ("registry", 1) = Some "completed".
Proof.
  split; [|vm_compute; reflexivity].
  destruct (job_checkpoints (run kept_options first_ops) !! ("registry", 1)) as [c|] eqn:Hc.
  - exists c. destruct (facts_kept kept_options first_ops later_ops ("registry", 1) c) as (c' & Hc' & Hr);
      [good_ops|good_ops|repeat constructor|exact Hc|]. exists c'. split; [reflexivity|]. split; [exact Hc'|exact Hr].
  - exfalso. vm_compute in Hc. discriminate.
Defined.

Example repeated_snapshot_witness :
  let next := alice_job false (noon + 1) "mapped" "processing" (Some 1) None in
  let once := run kept_options (first_ops ++ [Persisted noon next]) in
  let twice := run kept_options (first_ops ++ [Persisted noon next; Persisted (noon + 5) next]) in
  (forall k, col (row_of (job_rollups twice) ("1999-09-04", "office", "alice")) k =
             col (row_of (job_rollups once) ("1999-09-04", "office", "alice")) k) /\
  (forall s, default 0 (job_setting_rollups twice !! (("1999-09-04", "office", "alice"), s)) =
             default 0 (job_setting_rollups once !! (("1999-09-04", "office", "alice"), s))).
Proof.
  intros next once twice. apply (repeated_snapshot kept_options first_ops noon (noon + 5) next "1999-09-04" "office" "alice").
  - good_ops.
  - apply alice_observed; [reflexivity|reflexivity|reflexivity|cbn; unfold maxI64; lia].
  - kept_days.
Defined.

(** The request of alice is recorded twice, forgotten with the details, and
    counted again when it is recorded once more. *)
Definition action_ops : list operation :=
  first_ops ++ later_ops ++ [CleanedUp (noon + 100 * day_span) (noon + 100 * day_span); Recorded (noon + 100 * day_span) alice_request].

Example actions_recounted :
  let row ops := action_count <$> action_rollups (run kept_options ops) !!
                   (("1999-09-04", "office", "alice"), ("client-request", "Print-Job", "success")) in
  row (first_ops ++ later_ops) = Some 1 /\ row action_ops = Some 2 /\
  present (actions_ledger kept_options action_ops) = [alice_request].
Proof. split_and!; vm_compute; reflexivity. Qed.

Example actions_counted_once_witness :
  present (actions_ledger kept_options (first_ops ++ later_ops)) = [alice_request] /\
  map snd (counted (actions_ledger kept_options (first_ops ++ later_ops))) = [alice_request].
Proof.
  destruct (actions_counted_once kept_options (first_ops ++ later_ops)) as (_ & _ & _ & _ & H).
  apply H. repeat (constructor; [by vm_compute|]). constructor.
Defined.

(** A name that is not valid UTF-8 splits the row: what is known later is
    counted under another name, and the outcomes of both rows are wrong. *)
Example invalid_user_splits :
  let user := String (chr 255) "x" in
  let job (register : bool) (observed : string) := {|
    Register := register; RegistryID := "registry"; JobID := 1; Queue := "office"; User := user; CreatedAt := noon; UpdatedAt := noon;
    ProcessingAt := None; TerminalAt := None; State := "mapped"; ObservedState := observed; StateReasons := ""; Accepted := true;
    CancelAccepted := false; measures := measures (alice_job true noon "" "" None None); settings := no_settings |} in
  let db := run kept_options [Persisted noon (job true ""); Persisted noon (job false "completed")] in
  map (col (row_of (job_rollups db) ("1999-09-04", "office", user))) ["job_count"; "unresolved_count"; "completed_count"] = [1; 1; 0] /\
  map (col (row_of (job_rollups db) ("1999-09-04", "office", RuneError +:+ "x"))) ["job_count"; "unresolved_count"; "completed_count"]
    = [0; -1; 1].
Proof. split; vm_compute; reflexivity. Qed.
