(* ===== verification/Spans.v ===== *)
(** * Resources held by an action ([internal/stats/resources.go])

    The spans of the running actions and the resources they hold: buffers with
    their capacities, and temporary files with their logical sizes. A span is a
    shared object that several goroutines use; what a method does while it holds
    the lock of one span is one step ([hold], [resize], [written], [deduct]), and
    so is a compare-and-swap. A method goes through the span and then, one
    after the other, through its ancestors. Spans and resources are named by
    their position in the heap. *)

From Stdlib Require Import ZArith Lia Ascii String.
From stdpp Require Import base tactics list strings gmap.
From S2P Require Import Prelude GoString GoTime Sums Accounting.

(** ** Numbers *)

Definition clampNonNegative (n : Z) : Z := if n <? 0 then 0 else n.

Definition addSaturating (a b : Z) : Z :=
  if b <? 0 then if (b =? minI64) || (a <? - b) then 0 else i64 (a + b)
  else if b =? 0 then a
  else if maxI64 - b <? a then maxI64
  else i64 (a + b).

(** ** Spans and resources *)

Inductive resourceKind := resourceBuffer | resourceTemp.
#[export] Instance resourceKind_eq_dec : EqDecision resourceKind.
Proof. solve_decision. Defined.

(** What a span asks of its collector. *)
Record ActionRecorder := { rEnabled : bool; rRunID : string; rResources : bool }.

Record Span := {
  action : Action; resources : bool; parent : option nat; started : time; finished : bool;
  bufferCurrent : Z; bufferPeak : Z; buffers : gmap string Z; bufferPeaks : gmap string Z;
  tempCurrent : Z; tempPeak : Z; tempWritten : Z; finishOnce : bool
}.

Record Resource := { span : nat; kind : resourceKind; component : string; current : Z; parents : list nat; released : bool }.

(** [recorded] is what the collector was given, with the span it came from. *)
Record Heap := { spans : list Span; held : list Resource; recorded : list (nat * Action) }.
Definition no_heap : Heap := {| spans := []; held := []; recorded := [] |}.

Definition set_span (i : nat) (f : Span -> Span) (h : Heap) : Heap :=
  {| spans := alter f i (spans h); held := held h; recorded := recorded h |}.
Definition set_resource (r : nat) (f : Resource -> Resource) (h : Heap) : Heap :=
  {| spans := spans h; held := alter f r (held h); recorded := recorded h |}.

(** ** The fields of an action *)

Inductive edit :=
| SetOutcome (s : string) | SetReason (s : string) | SetHTTPStatus (n : Z) | SetIPPStatus (n : Z) | SetQueue (s : string)
| SetUser (s : string) | SetOwner (s : string) | SetOperation (s : string) | SetConcurrency (n : Z) | SetUserConcurrency (n : Z)
| SetJob (registryID : string) (jobID : Z) | SetClientBytes (n : Z) | AddClientBytes (n : Z) | SetUpstreamBytes (n : Z)
| AddUpstreamBytes (n : Z) | SetOutputBytes (n : Z) | AddOutputBytes (n : Z).

Definition edited (e : edit) (a : Action) : Action := {|
  ID := ID a; ParentID := ParentID a; RunID := RunID a; Kind := Kind a;
  Operation := match e with SetOperation s => s | _ => Operation a end;
  aQueue := match e with SetQueue s => s | _ => aQueue a end;
  aUser := match e with SetUser s => s | _ => aUser a end;
  Owner := match e with SetOwner s => s | _ => Owner a end;
  aRegistryID := match e with SetJob r _ => r | _ => aRegistryID a end;
  aJobID := match e with SetJob _ j => j | _ => aJobID a end;
  Outcome := match e with SetOutcome s => s | _ => Outcome a end;
  Reason := match e with SetReason s => s | _ => Reason a end;
  HTTPStatus := match e with SetHTTPStatus n => n | _ => HTTPStatus a end;
  IPPStatus := match e with SetIPPStatus n => n | _ => IPPStatus a end;
  StartedAt := StartedAt a; FinishedAt := FinishedAt a; DurationNS := DurationNS a;
  ClientBytes := match e with SetClientBytes n => clampNonNegative n | AddClientBytes n => addSaturating (ClientBytes a) n | _ => ClientBytes a end;
  UpstreamBytes := match e with SetUpstreamBytes n => clampNonNegative n | AddUpstreamBytes n => addSaturating (UpstreamBytes a) n | _ => UpstreamBytes a end;
  OutputBytes := match e with SetOutputBytes n => clampNonNegative n | AddOutputBytes n => addSaturating (OutputBytes a) n | _ => OutputBytes a end;
  BufferPeakBytes := BufferPeakBytes a; BufferComponents := BufferComponents a; TempPeakBytes := TempPeakBytes a;
  TempWrittenBytes := TempWrittenBytes a;
  Concurrency := match e with SetConcurrency n => n | _ => Concurrency a end;
  UserConcurrency := match e with SetUserConcurrency n => n | _ => UserConcurrency a end |}.

Definition set_action (f : Action -> Action) (s : Span) : Span := {|
  action := f (action s); resources := resources s; parent := parent s; started := started s; finished := finished s;
  bufferCurrent := bufferCurrent s; bufferPeak := bufferPeak s; buffers := buffers s; bufferPeaks := bufferPeaks s;
  tempCurrent := tempCurrent s; tempPeak := tempPeak s; tempWritten := tempWritten s; finishOnce := finishOnce s |}.

(** [update]: a finished span does not change. *)
Definition update (e : edit) (s : Span) : Span := if finished s then s else set_action (edited e) s.

(** [copyIdentity]: what the action does not say it has from its parent. *)
Definition copyIdentity (parent a : Action) : Action := {|
  ID := ID a; ParentID := ParentID a; RunID := RunID a; Kind := Kind a; Operation := Operation a;
  aQueue := if (aQueue a =? "")%string then aQueue parent else aQueue a;
  aUser := if (aUser a =? "")%string then aUser parent else aUser a;
  Owner := if (Owner a =? "")%string then Owner parent else Owner a;
  aRegistryID := if (aRegistryID a =? "")%string then aRegistryID parent else aRegistryID a;
  aJobID := if aJobID a =? 0 then aJobID parent else aJobID a;
  Outcome := Outcome a; Reason := Reason a; HTTPStatus := HTTPStatus a; IPPStatus := IPPStatus a; StartedAt := StartedAt a;
  FinishedAt := FinishedAt a; DurationNS := DurationNS a; ClientBytes := ClientBytes a; UpstreamBytes := UpstreamBytes a;
  OutputBytes := OutputBytes a; BufferPeakBytes := BufferPeakBytes a; BufferComponents := BufferComponents a;
  TempPeakBytes := TempPeakBytes a; TempWrittenBytes := TempWrittenBytes a; Concurrency := Concurrency a;
  UserConcurrency := UserConcurrency a |}.

(** [Begin], before the identity is copied: the id, the parent and the run. *)
Definition begun (id parentID runID : string) (now : time) (a : Action) : Action := {|
  ID := if (ID a =? "")%string then id else ID a;
  ParentID := if (ParentID a =? "")%string then parentID else ParentID a;
  RunID := if (RunID a =? "")%string then runID else RunID a;
  Kind := Kind a; Operation := Operation a; aQueue := aQueue a; aUser := aUser a; Owner := Owner a; aRegistryID := aRegistryID a;
  aJobID := aJobID a; Outcome := Outcome a; Reason := Reason a; HTTPStatus := HTTPStatus a; IPPStatus := IPPStatus a;
  StartedAt := if IsZero (StartedAt a) then now else StartedAt a;
  FinishedAt := FinishedAt a; DurationNS := DurationNS a; ClientBytes := ClientBytes a; UpstreamBytes := UpstreamBytes a;
  OutputBytes := OutputBytes a; BufferPeakBytes := BufferPeakBytes a; BufferComponents := BufferComponents a;
  TempPeakBytes := TempPeakBytes a; TempWrittenBytes := TempWrittenBytes a; Concurrency := Concurrency a;
  UserConcurrency := UserConcurrency a |}.

Definition new_span (a : Action) (res : bool) (parent : option nat) (now : time) : Span := {|
  action := a; resources := res; parent := parent; started := now; finished := false; bufferCurrent := 0; bufferPeak := 0;
  buffers := ∅; bufferPeaks := ∅; tempCurrent := 0; tempPeak := 0; tempWritten := 0; finishOnce := false |}.

(** The span of the context is the parent; [None] is a context without one, or
    a collector that is nil or switched off. *)
Definition Begin (ctx : option nat) (collector : option ActionRecorder) (initial : Action) (id : string) (now : time) (h : Heap)
  : Heap * option nat :=
  match collector with
  | None => (h, None)
  | Some c =>
      if negb (rEnabled c) then (h, None)
      else
        let p := ctx ≫= fun i => spans h !! i in
        let runID := match p with
                     | Some p => if (RunID (action p) =? "")%string then rRunID c else RunID (action p)
                     | None => rRunID c
                     end in
        let a := begun id (match p with Some p => ID (action p) | None => ""%string end) runID now initial in
        let a := match p with Some p => copyIdentity (action p) a | None => a end in
        ({| spans := spans h ++ [new_span a (rResources c) (match p with Some _ => ctx | None => None end) now];
            held := held h; recorded := recorded h |}, Some (length (spans h)))
  end.

(** ** What is done under the lock of one span *)

Definition plus_buffer (c : string) (size : Z) (s : Span) : Span :=
  let now := addSaturating (bufferCurrent s) size in
  let part := addSaturating (default 0 (buffers s !! c)) size in
  {| action := action s; resources := resources s; parent := parent s; started := started s; finished := finished s;
     bufferCurrent := now; bufferPeak := if bufferPeak s <? now then now else bufferPeak s;
     buffers := <[c := part]> (buffers s);
     bufferPeaks := if default 0 (bufferPeaks s !! c) <? part then <[c := part]> (bufferPeaks s) else bufferPeaks s;
     tempCurrent := tempCurrent s; tempPeak := tempPeak s; tempWritten := tempWritten s; finishOnce := finishOnce s |}.

Definition set_temp (size : Z) (s : Span) : Span := {|
  action := action s; resources := resources s; parent := parent s; started := started s; finished := finished s;
  bufferCurrent := bufferCurrent s; bufferPeak := bufferPeak s; buffers := buffers s; bufferPeaks := bufferPeaks s;
  tempCurrent := size; tempPeak := if tempPeak s <? size then size else tempPeak s; tempWritten := tempWritten s;
  finishOnce := finishOnce s |}.

Definition add_written (bytes : Z) (s : Span) : Span := {|
  action := action s; resources := resources s; parent := parent s; started := started s; finished := finished s;
  bufferCurrent := bufferCurrent s; bufferPeak := bufferPeak s; buffers := buffers s; bufferPeaks := bufferPeaks s;
  tempCurrent := tempCurrent s; tempPeak := tempPeak s; tempWritten := addSaturating (tempWritten s) bytes;
  finishOnce := finishOnce s |}.

Definition minus_buffer (c : string) (size : Z) (s : Span) : Span :=
  let part := i64 (default 0 (buffers s !! c) - size) in
  {| action := action s; resources := resources s; parent := parent s; started := started s; finished := finished s;
     bufferCurrent := clampNonNegative (i64 (bufferCurrent s - size)); bufferPeak := bufferPeak s;
     buffers := if part <=? 0 then delete c (buffers s) else <[c := part]> (buffers s);
     bufferPeaks := bufferPeaks s; tempCurrent := tempCurrent s; tempPeak := tempPeak s; tempWritten := tempWritten s;
     finishOnce := finishOnce s |}.

(** A release does not look at the peak. *)
Definition minus_temp (size : Z) (s : Span) : Span := {|
  action := action s; resources := resources s; parent := parent s; started := started s; finished := finished s;
  bufferCurrent := bufferCurrent s; bufferPeak := bufferPeak s; buffers := buffers s; bufferPeaks := bufferPeaks s;
  tempCurrent := clampNonNegative (i64 (tempCurrent s - size)); tempPeak := tempPeak s; tempWritten := tempWritten s;
  finishOnce := finishOnce s |}.

Definition with_current (size : Z) (r : Resource) : Resource := {|
  span := span r; kind := kind r; component := component r; current := size; parents := parents r; released := released r |}.
Definition with_parents (p : list nat) (r : Resource) : Resource := {|
  span := span r; kind := kind r; component := component r; current := current r; parents := p; released := released r |}.
Definition mark_released (r : Resource) : Resource := {|
  span := span r; kind := kind r; component := component r; current := current r; parents := parents r; released := true |}.

(** The first part of [acquire]: a new resource of one span. *)
Definition hold (i : nat) (k : resourceKind) (c : string) (size : Z) (h : Heap) : Heap :=
  let size := clampNonNegative size in
  let c := if (c =? "")%string then "unspecified"%string else c in
  {| spans := alter (fun s => match k with
                              | resourceBuffer => plus_buffer c size s
                              | resourceTemp => set_temp (addSaturating (tempCurrent s) size) s
                              end) i (spans h);
     held := held h ++ [{| span := i; kind := k; component := c; current := size; parents := []; released := false |}];
     recorded := recorded h |}.

(** [SetSize] of one resource. *)
Definition resize (r : nat) (size : Z) (h : Heap) : Heap :=
  match held h !! r with
  | Some x =>
      if decide (kind x = resourceTemp) then
        if released x then h
        else
          let size := clampNonNegative size in
          let grown s := if current x <? size then addSaturating (tempCurrent s) (i64 (size - current x))
                         else clampNonNegative (i64 (tempCurrent s - i64 (current x - size))) in
          set_resource r (with_current size) (set_span (span x) (fun s => set_temp (grown s) s) h)
      else h
  | None => h
  end.

(** [Written] of one resource. *)
Definition written (r : nat) (bytes : Z) (h : Heap) : Heap :=
  match held h !! r with
  | Some x => if decide (kind x = resourceTemp) then
                if ((bytes <=? 0) || released x)%bool then h else set_span (span x) (add_written bytes) h
              else h
  | None => h
  end.

(** [Release] of one resource, after the compare-and-swap. *)
Definition deduct (r : nat) (h : Heap) : Heap :=
  match held h !! r with
  | Some x =>
      let less s := match kind x with
                    | resourceBuffer => minus_buffer (component x) (current x) s
                    | resourceTemp => minus_temp (current x) s
                    end in
      set_resource r (with_current 0) (set_span (span x) less h)
  | None => h
  end.

(** ** Whole methods, when no other goroutine comes between *)

Fixpoint acquire (fuel : nat) (i : nat) (k : resourceKind) (c : string) (size : Z) (h : Heap) : Heap * list nat :=
  match fuel with
  | O => (h, [])
  | Datatypes.S fuel =>
      let r := length (held h) in
      let h := hold i k c size h in
      match spans h !! i ≫= parent with
      | Some p => let '(h, above) := acquire fuel p k c size h in (set_resource r (with_parents above) h, [r])
      | None => (h, [r])
      end
  end.

Definition AcquireBuffer (i : nat) (c : string) (capacity : Z) (h : Heap) : Heap * list nat :=
  match spans h !! i with
  | Some s => if (negb (resources s) || (capacity <=? 0))%bool then (h, []) else acquire (Datatypes.S i) i resourceBuffer c capacity h
  | None => (h, [])
  end.

Definition AcquireTemp (i : nat) (c : string) (logicalSize : Z) (h : Heap) : Heap * list nat :=
  match spans h !! i with
  | Some s => if negb (resources s) then (h, []) else acquire (Datatypes.S i) i resourceTemp c (clampNonNegative logicalSize) h
  | None => (h, [])
  end.

Definition AddTempWritten (i : nat) (bytes : Z) (h : Heap) : Heap :=
  match spans h !! i with
  | Some s => if (negb (resources s) || (bytes <=? 0))%bool then h else set_span i (add_written bytes) h
  | None => h
  end.

(** The methods of a resource; [fuel] bounds the ancestors. *)
Fixpoint SetSize (fuel : nat) (r : nat) (size : Z) (h : Heap) : Heap :=
  match fuel, held h !! r with
  | Datatypes.S fuel, Some x =>
      if decide (kind x = resourceTemp) then
        if released x then h
        else let size := clampNonNegative size in foldl (fun h p => SetSize fuel p size h) (resize r size h) (parents x)
      else h
  | _, _ => h
  end.

Fixpoint Written (fuel : nat) (r : nat) (bytes : Z) (h : Heap) : Heap :=
  match fuel, held h !! r with
  | Datatypes.S fuel, Some x =>
      if decide (kind x = resourceTemp) then
        if ((bytes <=? 0) || released x)%bool then h
        else foldl (fun h p => Written fuel p bytes h) (written r bytes h) (parents x)
      else h
  | _, _ => h
  end.

Fixpoint Release (fuel : nat) (r : nat) (h : Heap) : Heap :=
  match fuel, held h !! r with
  | Datatypes.S fuel, Some x =>
      if released x then h
      else foldl (fun h p => Release fuel p h) (deduct r (set_resource r mark_released h)) (parents x)
  | _, _ => h
  end.

(** ** The end of an action *)

Definition snapshot_action (s : Span) : Action :=
  let a := action s in
  {| ID := ID a; ParentID := ParentID a; RunID := RunID a; Kind := Kind a; Operation := Operation a; aQueue := aQueue a;
     aUser := aUser a; Owner := Owner a; aRegistryID := aRegistryID a; aJobID := aJobID a; Outcome := Outcome a; Reason := Reason a;
     HTTPStatus := HTTPStatus a; IPPStatus := IPPStatus a; StartedAt := StartedAt a; FinishedAt := FinishedAt a;
     DurationNS := DurationNS a; ClientBytes := ClientBytes a; UpstreamBytes := UpstreamBytes a; OutputBytes := OutputBytes a;
     BufferPeakBytes := bufferPeak s;
     BufferComponents := if bool_decide (bufferPeaks s = ∅) then BufferComponents a else bufferPeaks s;
     TempPeakBytes := tempPeak s; TempWrittenBytes := tempWritten s; Concurrency := Concurrency a; UserConcurrency := UserConcurrency a |}.

Definition completed (outcome : string) (now : time) (started : time) (a : Action) : Action := {|
  ID := ID a; ParentID := ParentID a; RunID := RunID a; Kind := Kind a; Operation := Operation a; aQueue := aQueue a;
  aUser := aUser a; Owner := Owner a; aRegistryID := aRegistryID a; aJobID := aJobID a;
  Outcome := if (outcome =? "")%string then Outcome a else outcome; Reason := Reason a; HTTPStatus := HTTPStatus a;
  IPPStatus := IPPStatus a; StartedAt := StartedAt a; FinishedAt := now;
  DurationNS := if IsZero (StartedAt a) then DurationNS a
                else clampNonNegative (GoTime.Sub now (if IsZero started then StartedAt a else started));
  ClientBytes := ClientBytes a; UpstreamBytes := UpstreamBytes a; OutputBytes := OutputBytes a; BufferPeakBytes := BufferPeakBytes a;
  BufferComponents := BufferComponents a; TempPeakBytes := TempPeakBytes a; TempWrittenBytes := TempWrittenBytes a;
  Concurrency := Concurrency a; UserConcurrency := UserConcurrency a |}.

Definition claim_finish (s : Span) : Span := {|
  action := action s; resources := resources s; parent := parent s; started := started s; finished := finished s;
  bufferCurrent := bufferCurrent s; bufferPeak := bufferPeak s; buffers := buffers s; bufferPeaks := bufferPeaks s;
  tempCurrent := tempCurrent s; tempPeak := tempPeak s; tempWritten := tempWritten s; finishOnce := true |}.
Definition set_finished (s : Span) : Span := {|
  action := action s; resources := resources s; parent := parent s; started := started s; finished := true;
  bufferCurrent := bufferCurrent s; bufferPeak := bufferPeak s; buffers := buffers s; bufferPeaks := bufferPeaks s;
  tempCurrent := tempCurrent s; tempPeak := tempPeak s; tempWritten := tempWritten s; finishOnce := finishOnce s |}.

(** What the call that won the compare-and-swap does. *)
Definition record_finish (i : nat) (outcome : string) (now : time) (h : Heap) : Heap :=
  match spans h !! i with
  | Some s =>
      let s := set_finished (set_action (completed outcome now (started s)) s) in
      {| spans := alter (fun _ => s) i (spans h); held := held h; recorded := recorded h ++ [(i, snapshot_action s)] |}
  | None => h
  end.

Definition Finish (i : nat) (outcome : string) (now : time) (h : Heap) : Heap :=
  match spans h !! i with
  | Some s => if finishOnce s then h else record_finish i outcome now (set_span i claim_finish h)
  | None => h
  end.
