(* ===== verification/SpansTheorems.v ===== *)
(** * Theorems about the resources of actions

    In every interleaving of the locked sections of all goroutines, what a span
    says it holds is what its resources hold, and its peaks are the greatest
    amounts it held at once at any moment of its history. *)

From Stdlib Require Import ZArith Lia Ascii String.
From stdpp Require Import base tactics list strings gmap.
From S2P Require Import Prelude GoString GoTime Sums Accounting Spans.

(** ** Interleavings *)

(** One step of some goroutine. A release deducts after its compare-and-swap,
    and the call that won the one of [Finish] records. *)
Inductive op :=
| OBegin (ctx : option nat) (collector : option ActionRecorder) (initial : Action) (id : string) (now : time)
| OEdit (i : nat) (e : edit) | OHold (i : nat) (k : resourceKind) (c : string) (size : Z) | OLink (r : nat) (above : list nat)
| OResize (r : nat) (size : Z) | OWritten (r : nat) (bytes : Z) | OTempWritten (i : nat) (bytes : Z)
| OMark (r : nat) | ODeduct (r : nat) | OClaim (i : nat) | ORecord (i : nat) (outcome : string) (now : time).

Definition is_released (r : nat) (h : Heap) : bool := match held h !! r with Some x => released x | None => false end.
Definition is_claimed (i : nat) (h : Heap) : bool :=
  match spans h !! i with Some s => finishOnce s && negb (finished s) | None => false end.

Definition do_op (o : op) (h : Heap) : Heap :=
  match o with
  | OBegin ctx collector initial id now => (Begin ctx collector initial id now h).1
  | OEdit i e => set_span i (update e) h
  | OHold i k c size => if decide (i < length (spans h))%nat then hold i k c size h else h
  | OLink r above => set_resource r (with_parents above) h
  | OResize r size => resize r size h
  | OWritten r bytes => written r bytes h
  | OTempWritten i bytes => AddTempWritten i bytes h
  | OMark r => set_resource r mark_released h
  | ODeduct r => if is_released r h then deduct r h else h
  | OClaim i => set_span i claim_finish h
  | ORecord i outcome now => if is_claimed i h then record_finish i outcome now h else h
  end.

Definition run (ops : list op) (h : Heap) : Heap := foldl (fun h o => do_op o h) h ops.
(** Every heap of a run, the first and the last one included. *)
Fixpoint history (ops : list op) (h : Heap) : list Heap :=
  match ops with [] => [h] | o :: ops => h :: history ops (do_op o h) end.

Lemma steps_snoc ops o h : run (ops ++ [o]) h = do_op o (run ops h).
Proof. unfold run. by rewrite foldl_snoc. Qed.
Lemma history_snoc ops o h : history (ops ++ [o]) h = history ops h ++ [do_op o (run ops h)].
Proof. revert h. induction ops as [|o' ops IH]; intros h; [done|]. cbn. by rewrite IH. Qed.

(** ** What the resources hold *)

Definition amount (k : resourceKind) (i : nat) (x : Resource) : Z := if decide (span x = i /\ kind x = k) then current x else 0.
Definition part (c : string) (i : nat) (x : Resource) : Z :=
  if decide (span x = i /\ kind x = resourceBuffer /\ component x = c) then current x else 0.
Definition usage (k : resourceKind) (i : nat) (h : Heap) : Z := zsum (amount k i) (held h).
Definition part_usage (c : string) (i : nat) (h : Heap) : Z := zsum (part c i) (held h).

(** Nothing a span holds exceeds 64 bits. *)
Definition fits (h : Heap) : Prop := forall k i, usage k i h <= maxI64.

(** A resource belongs to a span and holds a size. *)
Definition sized (h : Heap) : Prop := Forall (fun x => 0 <= current x /\ (span x < length (spans h))%nat) (held h).

(** A span that is not there holds nothing. *)
Definition no_action : Action := {|
  ID := ""; ParentID := ""; RunID := ""; Kind := ""; Operation := ""; aQueue := ""; aUser := ""; Owner := ""; aRegistryID := "";
  aJobID := 0; Outcome := ""; Reason := ""; HTTPStatus := 0; IPPStatus := 0; StartedAt := 0; FinishedAt := 0; DurationNS := 0;
  ClientBytes := 0; UpstreamBytes := 0; OutputBytes := 0; BufferPeakBytes := 0; BufferComponents := ∅; TempPeakBytes := 0;
  TempWrittenBytes := 0; Concurrency := 0; UserConcurrency := 0 |}.
Definition idle : Span := new_span no_action true None 0.
Definition span_at (i : nat) (h : Heap) : Span := default idle (spans h !! i).

Definition of_component (c : string) (m : gmap string Z) : Z := default 0 (m !! c).

(** What a span says it holds. *)
Record counts (i : nat) (s : Span) (h : Heap) : Prop := {
  counts_buffer : bufferCurrent s = usage resourceBuffer i h;
  counts_temp : tempCurrent s = usage resourceTemp i h;
  counts_part c : of_component c (buffers s) = part_usage c i h
}.
Record below_peak (s : Span) : Prop := {
  below_buffer : bufferCurrent s <= bufferPeak s;
  below_temp : tempCurrent s <= tempPeak s;
  below_part c : of_component c (buffers s) <= of_component c (bufferPeaks s)
}.
Record accounted (h : Heap) : Prop := {
  acc_sized : sized h;
  acc_counts i : counts i (span_at i h) h;
  acc_peak i : below_peak (span_at i h)
}.
(** The peaks after a step. *)
Record peaked (s s' : Span) : Prop := {
  peaked_buffer : bufferPeak s' = Z.max (bufferPeak s) (bufferCurrent s');
  peaked_temp : tempPeak s' = Z.max (tempPeak s) (tempCurrent s');
  peaked_part c : of_component c (bufferPeaks s') = Z.max (of_component c (bufferPeaks s)) (of_component c (buffers s'))
}.
Definition good_step (h h' : Heap) : Prop := accounted h' /\ forall i, peaked (span_at i h) (span_at i h').

Lemma amount_nonneg k i x : 0 <= current x -> 0 <= amount k i x.
Proof. unfold amount. by case_decide. Qed.
Lemma part_nonneg c i x : 0 <= current x -> 0 <= part c i x.
Proof. unfold part. by case_decide. Qed.
Lemma usage_nonneg k i h : sized h -> 0 <= usage k i h.
Proof. intros Hs. apply zsum_nonneg. intros x Hx. apply amount_nonneg. by eapply (Forall_forall _ _) in Hs as [? _]. Qed.
Lemma part_usage_nonneg c i h : sized h -> 0 <= part_usage c i h.
Proof. intros Hs. apply zsum_nonneg. intros x Hx. apply part_nonneg. by eapply (Forall_forall _ _) in Hs as [? _]. Qed.
Lemma part_usage_le c i h : sized h -> part_usage c i h <= usage resourceBuffer i h.
Proof.
  intros Hs. apply zsum_le. intros x Hx. eapply (Forall_forall _ _) in Hs as [? _]; [|done].
  unfold part, amount. repeat case_decide; naive_solver lia.
Qed.

Lemma sized_lookup h r x : sized h -> held h !! r = Some x -> 0 <= current x /\ (span x < length (spans h))%nat.
Proof. intros Hs Hr. unfold sized in Hs. rewrite Forall_lookup in Hs. by eapply Hs. Qed.
Lemma amount_le k i h r x : sized h -> held h !! r = Some x -> amount k i x <= usage k i h.
Proof.
  intros Hs Hr. apply zsum_elem_le; [|by eapply list_elem_of_lookup_2]. intros y Hy. apply amount_nonneg.
  by eapply (Forall_forall _ _) in Hs as [? _].
Qed.
Lemma part_le c i h r x : sized h -> held h !! r = Some x -> part c i x <= part_usage c i h.
Proof.
  intros Hs Hr. apply zsum_elem_le; [|by eapply list_elem_of_lookup_2]. intros y Hy. apply part_nonneg.
  by eapply (Forall_forall _ _) in Hs as [? _].
Qed.

(** The replacement of one resource. *)
Lemma usage_replace k i h r x f : held h !! r = Some x -> usage k i (set_resource r f h) = usage k i h - amount k i x + amount k i (f x).
Proof. intros Hr. unfold usage, set_resource. cbn [held]. by rewrite (zsum_alter _ _ _ _ _ Hr). Qed.
Lemma part_replace c i h r x f : held h !! r = Some x -> part_usage c i (set_resource r f h) = part_usage c i h - part c i x + part c i (f x).
Proof. intros Hr. unfold part_usage, set_resource. cbn [held]. by rewrite (zsum_alter _ _ _ _ _ Hr). Qed.
Lemma set_resource_none r f h : held h !! r = None -> set_resource r f h = h.
Proof.
  intros Hr. unfold set_resource. assert (alter f r (held h) = held h) as ->; [|by destruct h].
  transitivity (alter id r (held h)); [apply list_alter_ext; [intros x Hx; congruence|done]|by apply list_alter_id].
Qed.

Lemma span_at_set i j f h : span_at j (set_span i f h) = if decide (i = j /\ (i < length (spans h))%nat) then f (span_at j h) else span_at j h.
Proof.
  unfold span_at, set_span. cbn [spans]. rewrite list_lookup_alter. case_decide as Hd.
  - subst j. destruct (spans h !! i) as [s|] eqn:Hs; cbn.
    + rewrite decide_True by (split; [done|by eapply lookup_lt_Some]). done.
    + apply lookup_ge_None in Hs. rewrite decide_False by lia. done.
  - rewrite decide_False by naive_solver. done.
Qed.

(** ** Steps that hold and release nothing *)

Record same_counts (s s' : Span) : Prop := {
  same_buffer : bufferCurrent s' = bufferCurrent s; same_buffer_peak : bufferPeak s' = bufferPeak s;
  same_buffers : buffers s' = buffers s; same_peaks : bufferPeaks s' = bufferPeaks s;
  same_temp : tempCurrent s' = tempCurrent s; same_temp_peak : tempPeak s' = tempPeak s
}.
Lemma same_counts_refl s : same_counts s s.
Proof. done. Qed.

(** Heaps that hold the same. *)
Lemma inert_step h h' : accounted h ->
  (length (spans h) <= length (spans h'))%nat ->
  (forall i, same_counts (span_at i h) (span_at i h')) ->
  Forall2 (fun x x' => span x' = span x /\ kind x' = kind x /\ component x' = component x /\ current x' = current x) (held h) (held h') ->
  good_step h h'.
Proof.
  intros [Hs Hc Hp] Hlen Hsame Hheld.
  assert (forall f : Resource -> Z, (forall x x', span x' = span x -> kind x' = kind x -> component x' = component x -> current x' = current x -> f x = f x') ->
    zsum f (held h) = zsum f (held h')) as Hsum.
  { intros f Hf. clear -Hheld Hf. induction Hheld as [|x x' l l' (? & ? & ? & ?) _ IH]; [done|]. rewrite !zsum_cons, IH. f_equal. by apply Hf. }
  assert (forall k i, usage k i h = usage k i h') as Hu.
  { intros k i. apply Hsum. intros x x' E1 E2 E3 E4. unfold amount. by rewrite E1, E2, E4. }
  assert (forall c i, part_usage c i h = part_usage c i h') as Hpu.
  { intros c i. apply Hsum. intros x x' E1 E2 E3 E4. unfold part. by rewrite E1, E2, E3, E4. }
  split; [split|].
  - unfold sized in *. clear -Hs Hheld Hlen. induction Hheld as [|x x' l l' (? & ? & ? & ?) _ IH]; [done|].
    apply Forall_cons in Hs as [[? ?] Hs]. constructor; [lia|auto].
  - intros i. destruct (Hsame i) as [E1 E2 E3 E4 E5 E6]. destruct (Hc i) as [C1 C2 C3].
    split; [rewrite E1, <- Hu; done|rewrite E5, <- Hu; done|intros c; rewrite E3, <- Hpu; done].
  - intros i. destruct (Hsame i) as [E1 E2 E3 E4 E5 E6]. destruct (Hp i). split; [rewrite E1, E2; done|rewrite E5, E6; done|intros c; rewrite E3, E4; done].
  - intros i. destruct (Hsame i) as [E1 E2 E3 E4 E5 E6]. destruct (Hp i) as [P1 P2 P3].
    split; [rewrite E1, E2; lia|rewrite E5, E6; lia|intros c; rewrite E3, E4; specialize (P3 c); lia].
Qed.

Lemma set_span_inert i f h : (forall s, same_counts s (f s)) -> accounted h -> good_step h (set_span i f h).
Proof.
  intros Hf Hacc. apply inert_step; [done|by unfold set_span; cbn; rewrite length_alter| |].
  - intros j. rewrite span_at_set. case_decide; [apply Hf|done].
  - apply Forall_Forall2_diag, Forall_forall. done.
Qed.

Lemma set_resource_inert r f h :
  (forall x, span (f x) = span x /\ kind (f x) = kind x /\ component (f x) = component x /\ current (f x) = current x) ->
  accounted h -> good_step h (set_resource r f h).
Proof.
  intros Hf Hacc. apply inert_step; [done|done|done|]. unfold set_resource. cbn [held].
  apply Forall2_same_length_lookup. split; [by rewrite length_alter|]. intros i x y Hx Hy.
  rewrite list_lookup_alter in Hy. case_decide; [subst r|]; rewrite Hx in Hy; injection Hy as <-; [apply Hf|done].
Qed.

Lemma Begin_good ctx collector initial id now h : accounted h -> good_step h (Begin ctx collector initial id now h).1.
Proof.
  intros Hacc. assert (good_step h h) as Hid.
  { apply inert_step; [done|done|done|]. apply Forall_Forall2_diag, Forall_forall. done. }
  unfold Begin. destruct collector as [c|]; [|done]. destruct (negb (rEnabled c)); [done|]. cbn [fst].
  apply inert_step; [done|cbn; rewrite length_app; lia| |].
  - intros i. unfold span_at. cbn [spans]. destruct (decide (i < length (spans h))%nat).
    + by rewrite lookup_app_l.
    + rewrite (lookup_ge_None_2 (spans h) i), lookup_app_r by lia.
      by destruct (i - length (spans h))%nat as [|m].
  - apply Forall_Forall2_diag, Forall_forall. done.
Qed.

(** ** Steps that change what is held *)

Lemma addSaturating_exact a b : 0 <= a -> 0 <= b -> a + b <= maxI64 -> addSaturating a b = a + b.
Proof.
  unfold addSaturating. intros Ha Hb Hab. destruct (Z.ltb_spec b 0); [lia|]. destruct (Z.eqb_spec b 0); [lia|].
  destruct (Z.ltb_spec (maxI64 - b) a); [lia|]. apply i64_small. unfold minI64, maxI64 in *. lia.
Qed.
Lemma clamp_exact a : 0 <= a -> clampNonNegative a = a.
Proof. unfold clampNonNegative. destruct (Z.ltb_spec a 0); lia. Qed.
Lemma clamp_nonneg a : 0 <= clampNonNegative a.
Proof. unfold clampNonNegative. destruct (Z.ltb_spec a 0); lia. Qed.
Lemma clamp_idemp a : clampNonNegative (clampNonNegative a) = clampNonNegative a.
Proof. apply clamp_exact, clamp_nonneg. Qed.

(** The step of [acquire]. *)
Lemma usage_hold k i k' i' c size h :
  usage k i (hold i' k' c size h) = usage k i h + if decide (i' = i /\ k' = k) then clampNonNegative size else 0.
Proof. unfold usage, hold. cbn [held]. rewrite zsum_app. cbn. unfold amount at 2. cbn. case_decide; lia. Qed.
Lemma part_hold c i k' i' c' size h :
  part_usage c i (hold i' k' c' size h) = part_usage c i h +
    if decide (i' = i /\ k' = resourceBuffer /\ (if (c' =? "")%string then "unspecified"%string else c') = c) then clampNonNegative size else 0.
Proof. unfold part_usage, hold. cbn [held]. rewrite zsum_app. cbn. unfold part at 2. cbn. case_decide; lia. Qed.

Lemma below_peaked s : below_peak s -> peaked s s.
Proof. intros [P1 P2 P3]. split; [lia|lia|]. intros c. specialize (P3 c). lia. Qed.

(** A step that changes one span and what it holds. *)
Lemma one_span h h' i s' : accounted h -> sized h' ->
  (forall j, span_at j h' = if decide (i = j) then s' else span_at j h) ->
  (forall k j, i <> j -> usage k j h' = usage k j h) -> (forall c j, i <> j -> part_usage c j h' = part_usage c j h) ->
  counts i s' h' -> below_peak s' -> peaked (span_at i h) s' -> good_step h h'.
Proof.
  intros [Hs Hc Hp] Hs' Hat Hu Hpu Hcount Hbelow Hpeak. split; [split; [done| |]|].
  - intros j. rewrite Hat. case_decide as Hj; [by subst|]. destruct (Hc j) as [C1 C2 C3].
    split; [by rewrite Hu|by rewrite Hu|intros c; by rewrite Hpu].
  - intros j. rewrite Hat. by case_decide.
  - intros j. rewrite Hat. case_decide; [by subst|]. apply below_peaked, Hp.
Qed.

Lemma of_component_insert c c' x m : of_component c' (<[c := x]> m) = if decide (c = c') then x else of_component c' m.
Proof. unfold of_component. rewrite lookup_insert. by case_decide. Qed.
Lemma of_component_delete c c' m : of_component c' (delete c m) = if decide (c = c') then 0 else of_component c' m.
Proof. unfold of_component. rewrite lookup_delete. by case_decide. Qed.

(** The spans after the change of one. *)
Lemma span_at_hold i k c size h j : (i < length (spans h))%nat ->
  span_at j (hold i k c size h) =
  if decide (i = j) then
    match k with
    | resourceBuffer => plus_buffer (if (c =? "")%string then "unspecified"%string else c) (clampNonNegative size) (span_at i h)
    | resourceTemp => set_temp (addSaturating (tempCurrent (span_at i h)) (clampNonNegative size)) (span_at i h)
    end
  else span_at j h.
Proof.
  intros Hi. unfold span_at, hold. cbn [spans]. rewrite list_lookup_alter. case_decide as Hj; [|done]. subst j.
  destruct (lookup_lt_is_Some_2 _ _ Hi) as [s ->]. done.
Qed.

(** What the parts of a step do to the amounts of a span. *)
Record moved (s s' : Span) (buffer temp : Z) (c : string) : Prop := {
  moved_buffer : bufferCurrent s' = bufferCurrent s + buffer;
  moved_temp : tempCurrent s' = tempCurrent s + temp;
  moved_part c' : of_component c' (buffers s') = of_component c' (buffers s) + if decide (c = c') then buffer else 0;
  moved_below : below_peak s';
  moved_peaked : peaked s s'
}.

Lemma plus_buffer_moved c n s : below_peak s -> 0 <= bufferCurrent s -> 0 <= of_component c (buffers s) -> 0 <= n ->
  bufferCurrent s + n <= maxI64 -> of_component c (buffers s) + n <= maxI64 -> moved s (plus_buffer c n s) n 0 c.
Proof.
  intros [P1 P2 P3] Hb Hc Hn Hmax Hcmax. unfold plus_buffer. change (default 0 (buffers s !! c)) with (of_component c (buffers s)).
  change (default 0 (bufferPeaks s !! c)) with (of_component c (bufferPeaks s)).
  rewrite !addSaturating_exact by lia. set (m := of_component c (buffers s) + n).
  assert (forall c', of_component c' (if of_component c (bufferPeaks s) <? m then <[c := m]> (bufferPeaks s) else bufferPeaks s) =
    if decide (c = c') then Z.max (of_component c (bufferPeaks s)) m else of_component c' (bufferPeaks s)) as Hpk.
  { intros c'. destruct (Z.ltb_spec (of_component c (bufferPeaks s)) m); rewrite ?of_component_insert; case_decide; subst; lia || done. }
  split; cbn; [done|lia| | |].
  - intros c'. rewrite of_component_insert. case_decide; [subst c'; unfold m; lia|lia].
  - split; cbn; [destruct (Z.ltb_spec (bufferPeak s) (bufferCurrent s + n)); lia|done|].
    intros c'. rewrite Hpk, of_component_insert. case_decide; [lia|apply P3].
  - split; cbn; [destruct (Z.ltb_spec (bufferPeak s) (bufferCurrent s + n)); lia|lia|].
    intros c'. rewrite Hpk, of_component_insert. case_decide; [by subst|]. specialize (P3 c'). lia.
Qed.

Lemma set_temp_moved m c s : below_peak s -> moved s (set_temp m s) 0 (m - tempCurrent s) c.
Proof.
  intros [P1 P2 P3]. split; cbn; [lia|lia|intros c'; case_decide; lia| |].
  - split; cbn; [done|destruct (Z.ltb_spec (tempPeak s) m); lia|done].
  - split; cbn; [lia|destruct (Z.ltb_spec (tempPeak s) m); lia|]. intros c'. specialize (P3 c'). lia.
Qed.

Lemma minus_temp_moved n c s : below_peak s -> 0 <= n <= tempCurrent s -> tempCurrent s <= maxI64 -> moved s (minus_temp n s) 0 (- n) c.
Proof.
  intros [P1 P2 P3] Hn Hmax. assert (clampNonNegative (i64 (tempCurrent s - n)) = tempCurrent s - n) as Hc.
  { rewrite i64_small by (unfold minI64, maxI64 in *; lia). apply clamp_exact. lia. }
  split; cbn; rewrite ?Hc; [lia|lia|intros c'; case_decide; lia| |].
  - split; cbn; [done|lia|done].
  - split; cbn; [lia|lia|]. intros c'. specialize (P3 c'). lia.
Qed.

Lemma minus_buffer_moved c n s : below_peak s -> 0 <= n <= bufferCurrent s -> bufferCurrent s <= maxI64 ->
  n <= of_component c (buffers s) <= maxI64 -> moved s (minus_buffer c n s) (- n) 0 c.
Proof.
  intros [P1 P2 P3] Hn Hmax Hc. unfold minus_buffer. change (default 0 (buffers s !! c)) with (of_component c (buffers s)).
  rewrite !i64_small by (unfold minI64, maxI64 in *; lia). rewrite clamp_exact by lia.
  set (m := of_component c (buffers s) - n).
  assert (forall c', of_component c' (if m <=? 0 then delete c (buffers s) else <[c := m]> (buffers s)) =
    if decide (c = c') then m else of_component c' (buffers s)) as Hpart.
  { intros c'. destruct (Z.leb_spec m 0); rewrite ?of_component_insert, ?of_component_delete; case_decide; lia || done. }
  split; cbn; [lia|lia| | |].
  - intros c'. rewrite Hpart. case_decide; [subst c'; unfold m; lia|lia].
  - split; cbn; [lia|done|]. intros c'. rewrite Hpart. specialize (P3 c'). case_decide; [subst c'; unfold m; lia|done].
  - split; cbn; [lia|lia|]. intros c'. rewrite Hpart. specialize (P3 c'). case_decide; [subst c'; unfold m; lia|lia].
Qed.

(** A step that moves the amounts of one span as it moves its resources. *)
Lemma moved_step h h' i s' buffer temp c : accounted h -> sized h' ->
  (forall j, span_at j h' = if decide (i = j) then s' else span_at j h) ->
  (forall k j, usage k j h' = usage k j h + if decide (i = j) then match k with resourceBuffer => buffer | resourceTemp => temp end else 0) ->
  (forall c' j, part_usage c' j h' = part_usage c' j h + if decide (i = j /\ c = c') then buffer else 0) ->
  moved (span_at i h) s' buffer temp c -> good_step h h'.
Proof.
  intros Hacc Hs' Hat Hu Hpu [M1 M2 M3 M4 M5]. destruct (acc_counts _ Hacc i) as [C1 C2 C3].
  eapply one_span; try done.
  - intros k j Hj. rewrite Hu, decide_False by done. lia.
  - intros c' j Hj. rewrite Hpu, decide_False by naive_solver. lia.
  - split.
    + by rewrite Hu, decide_True, M1, C1.
    + by rewrite Hu, decide_True, M2, C2.
    + intros c'. rewrite Hpu, M3, C3. do 2 case_decide; naive_solver.
Qed.

Lemma hold_good i k c size h : accounted h -> (i < length (spans h))%nat -> fits (hold i k c size h) -> good_step h (hold i k c size h).
Proof.
  intros Hacc Hi Hf. pose proof Hacc as [Hs Hc Hp]. destruct (Hc i) as [C1 C2 C3].
  pose proof (clamp_nonneg size) as Hsz. set (n := clampNonNegative size) in *.
  pose proof (usage_nonneg resourceBuffer i h Hs) as Hb0. pose proof (usage_nonneg resourceTemp i h Hs) as Ht0.
  set (c' := if (c =? "")%string then "unspecified"%string else c).
  pose proof (part_usage_nonneg c' i h Hs). pose proof (part_usage_le c' i h Hs).
  pose proof (Hf resourceBuffer i) as Hfb. pose proof (Hf resourceTemp i) as Hft. rewrite usage_hold in Hfb, Hft. fold n in Hfb, Hft.
  eapply (moved_step _ _ i _ (match k with resourceBuffer => n | _ => 0 end) (match k with resourceTemp => n | _ => 0 end) c'); [done| |intros j; by apply span_at_hold| | |].
  - unfold sized, hold in *. cbn [held spans]. rewrite length_alter. apply Forall_app. split; [done|]. constructor; [|done]. by cbn.
  - intros k' j. rewrite usage_hold. fold n. destruct k, k'; repeat case_decide; naive_solver.
  - intros c'' j. rewrite part_hold. fold n c'. destruct k; repeat case_decide; naive_solver.
  - fold n c'. destruct k.
    + rewrite decide_True in Hfb by done. apply plus_buffer_moved; rewrite ?C1, ?C3; (apply Hp || lia).
    + rewrite decide_True in Hft by done. rewrite addSaturating_exact by (rewrite ?C2; lia).
      replace n with (tempCurrent (span_at i h) + n - tempCurrent (span_at i h)) at 2 by lia. apply set_temp_moved, Hp.
Qed.

Lemma amount_current k i x n : amount k i (with_current n x) = if decide (span x = i /\ kind x = k) then n else 0.
Proof. done. Qed.
Lemma part_current c i x n : part c i (with_current n x) = if decide (span x = i /\ kind x = resourceBuffer /\ component x = c) then n else 0.
Proof. done. Qed.

Lemma sized_current r n j f h : sized h -> 0 <= n -> sized (set_resource r (with_current n) (set_span j f h)).
Proof.
  intros Hs Hn. unfold sized, set_resource, set_span in *. cbn [held spans]. rewrite length_alter.
  apply Forall_lookup. intros i x Hx. rewrite list_lookup_alter in Hx. rewrite Forall_lookup in Hs.
  case_decide; [subst i|by eapply Hs]. destruct (held h !! r) as [y|] eqn:Hy; [|done]. cbn in Hx. injection Hx as <-.
  destruct (Hs _ _ Hy) as [_ ?]. cbn. done.
Qed.

(** The amount of a resource is changed, and its span with it. *)
Lemma current_step h r x n f c : accounted h -> held h !! r = Some x -> 0 <= n ->
  moved (span_at (span x) h) (f (span_at (span x) h)) (if decide (kind x = resourceBuffer) then n - current x else 0)
        (if decide (kind x = resourceTemp) then n - current x else 0) c ->
  (kind x = resourceBuffer -> c = component x) ->
  good_step h (set_resource r (with_current n) (set_span (span x) f h)).
Proof.
  intros Hacc Hr Hn Hm Hc. pose proof (acc_sized _ Hacc) as Hs.
  assert ((span x < length (spans h))%nat) as Hlen by (by eapply sized_lookup).
  assert (held (set_span (span x) f h) !! r = Some x) as Hr' by done.
  eapply (moved_step _ _ (span x)); [done|by apply sized_current| | | |exact Hm].
  - intros j. unfold set_resource. change (span_at j {| spans := spans (set_span (span x) f h); held := _; recorded := _ |}) with (span_at j (set_span (span x) f h)).
    rewrite span_at_set. destruct (decide (span x = j)) as [<-|]; [by rewrite decide_True by done|by rewrite decide_False by naive_solver].
  - intros k j. rewrite (usage_replace _ _ _ _ _ _ Hr'), amount_current. unfold amount. change (usage k j (set_span (span x) f h)) with (usage k j h).
    destruct (kind x) eqn:Hk, k; repeat case_decide; naive_solver lia.
  - intros c' j. rewrite (part_replace _ _ _ _ _ _ Hr'), part_current. unfold part. change (part_usage c' j (set_span (span x) f h)) with (part_usage c' j h).
    destruct (kind x) eqn:Hk; repeat case_decide; naive_solver lia.
Qed.

Lemma good_step_refl h : accounted h -> good_step h h.
Proof. intros Hacc. split; [done|]. intros i. apply below_peaked, Hacc. Qed.

Lemma resize_good r size h : accounted h -> fits h -> fits (resize r size h) -> good_step h (resize r size h).
Proof.
  intros Hacc Hf0 Hf. unfold resize in *. destruct (held h !! r) as [x|] eqn:Hr; [|by apply good_step_refl].
  destruct (decide (kind x = resourceTemp)) as [Hk|]; [|by apply good_step_refl].
  destruct (released x); [by apply good_step_refl|].
  pose proof (clamp_nonneg size) as Hsz. set (n := clampNonNegative size) in *.
  destruct (acc_counts _ Hacc (span x)) as [_ C2 _]. pose proof (acc_sized _ Hacc) as Hs.
  pose proof (amount_le resourceTemp (span x) h r x Hs Hr) as Hle. unfold amount in Hle. rewrite decide_True in Hle by done.
  assert (0 <= current x) as Hx0 by (by eapply sized_lookup).
  pose proof (Hf0 resourceTemp (span x)) as Hmax0.
  pose proof (Hf resourceTemp (span x)) as Hmax.
  match type of Hmax with context [set_span _ ?g h] => set (grow := g) in * end.
  assert (held (set_span (span x) grow h) !! r = Some x) as Hr' by done.
  rewrite (usage_replace _ _ _ _ _ _ Hr'), amount_current, decide_True in Hmax by done.
  change (usage resourceTemp (span x) (set_span (span x) grow h)) with (usage resourceTemp (span x) h) in Hmax.
  unfold amount in Hmax. rewrite decide_True in Hmax by done.
  assert (grow (span_at (span x) h) = set_temp (tempCurrent (span_at (span x) h) + (n - current x)) (span_at (span x) h)) as Hg.
  { unfold grow. f_equal. rewrite C2. destruct (Z.ltb_spec (current x) n).
    - rewrite i64_small by (unfold minI64, maxI64 in *; lia). apply addSaturating_exact; lia.
    - rewrite (i64_small (current x - n)), i64_small by (unfold minI64, maxI64 in *; lia). rewrite clamp_exact; lia. }
  apply (current_step h r x n grow (component x)); try done.
  rewrite Hg, decide_False, decide_True by congruence.
  replace (n - current x) with (tempCurrent (span_at (span x) h) + (n - current x) - tempCurrent (span_at (span x) h)) at 2 by lia.
  apply set_temp_moved, Hacc.
Qed.

Lemma deduct_good r h : accounted h -> fits h -> good_step h (deduct r h).
Proof.
  intros Hacc Hf0. unfold deduct. destruct (held h !! r) as [x|] eqn:Hr; [|by apply good_step_refl].
  destruct (acc_counts _ Hacc (span x)) as [C1 C2 C3]. pose proof (acc_sized _ Hacc) as Hs.
  assert (0 <= current x) as Hx0 by (by eapply sized_lookup).
  pose proof (amount_le (kind x) (span x) h r x Hs Hr) as Hle. unfold amount in Hle. rewrite decide_True in Hle by done.
  pose proof (Hf0 resourceBuffer (span x)). pose proof (Hf0 resourceTemp (span x)).
  eapply (current_step h r x 0 _ (component x)); try done.
  destruct (kind x) eqn:Hk; cbn.
  - pose proof (part_le (component x) (span x) h r x Hs Hr) as Hpl. unfold part in Hpl. rewrite decide_True in Hpl by done.
    pose proof (part_usage_le (component x) (span x) h Hs).
    apply minus_buffer_moved; [apply Hacc|lia..|rewrite C3; lia].
  - apply minus_temp_moved; [apply Hacc|lia..].
Qed.

(** ** All steps *)

Lemma do_op_good o h : accounted h -> fits h -> fits (do_op o h) -> good_step h (do_op o h).
Proof.
  intros Hacc Hf Hf'. destruct o; cbn [do_op] in *.
  - by apply Begin_good.
  - apply set_span_inert; [|done]. intros s. unfold update. by destruct (finished s).
  - case_decide; [by apply hold_good|by apply good_step_refl].
  - by apply set_resource_inert.
  - by apply resize_good.
  - unfold written. destruct (held h !! r) as [x|]; [|by apply good_step_refl]. case_decide; [|by apply good_step_refl].
    destruct (_ || _)%bool; [by apply good_step_refl|by apply set_span_inert].
  - unfold AddTempWritten. destruct (spans h !! i) as [s|]; [|by apply good_step_refl].
    destruct (_ || _)%bool; [by apply good_step_refl|by apply set_span_inert].
  - by apply set_resource_inert.
  - destruct (is_released r h); [by apply deduct_good|by apply good_step_refl].
  - by apply set_span_inert.
  - unfold is_claimed, record_finish. destruct (spans h !! i) as [s|] eqn:Hs; [|by apply good_step_refl].
    destruct (_ && _)%bool; [|by apply good_step_refl]. cbn [do_op].
    apply inert_step; [done|cbn; by rewrite length_alter| |by apply Forall_Forall2_diag, Forall_forall].
    intros j. unfold span_at. cbn [spans]. rewrite list_lookup_alter. case_decide; [|done]. subst j. by rewrite Hs.
Qed.

Lemma accounted_empty : accounted no_heap.
Proof. split; [by constructor|by split|by split]. Qed.

Lemma run_accounted ops : Forall fits (history ops no_heap) -> accounted (run ops no_heap) /\ fits (run ops no_heap).
Proof.
  induction ops as [|o ops IH] using rev_ind.
  - intros Hf. split; [apply accounted_empty|]. by apply Forall_inv in Hf.
  - rewrite history_snoc, Forall_app, Forall_singleton, steps_snoc. intros [Hf Hf']. destruct (IH Hf). split; [|done].
    by apply do_op_good.
Qed.

Lemma run_peaks ops i : Forall fits (history ops no_heap) ->
  bufferPeak (span_at i (run ops no_heap)) = zmax (usage resourceBuffer i) (history ops no_heap) /\
  tempPeak (span_at i (run ops no_heap)) = zmax (usage resourceTemp i) (history ops no_heap) /\
  forall c, of_component c (bufferPeaks (span_at i (run ops no_heap))) = zmax (part_usage c i) (history ops no_heap).
Proof.
  induction ops as [|o ops IH] using rev_ind; [by intros _|].
  rewrite history_snoc, Forall_app, Forall_singleton, steps_snoc. intros [Hf Hf']. destruct (IH Hf) as (I1 & I2 & I3).
  destruct (run_accounted _ Hf) as [Hacc Hfit]. destruct (do_op_good o _ Hacc Hfit Hf') as [Hacc' Hp].
  destruct (Hp i) as [P1 P2 P3]. destruct (acc_counts _ Hacc' i) as [C1 C2 C3]. pose proof (acc_sized _ Hacc') as Hs.
  assert (forall f : Heap -> Z, 0 <= f (do_op o (run ops no_heap)) -> zmax f (history ops no_heap ++ [do_op o (run ops no_heap)]) =
    Z.max (zmax f (history ops no_heap)) (f (do_op o (run ops no_heap)))) as Hz.
  { intros f Hf0. rewrite zmax_app, zmax_cons. change (zmax f []) with 0. lia. }
  split_and!; [|..|intros c]; rewrite Hz; try (by apply usage_nonneg); try (by apply part_usage_nonneg).
  - by rewrite P1, I1, C1.
  - by rewrite P2, I2, C2.
  - by rewrite P3, I3, C3.
Qed.

(** ** The methods are runs of steps *)

Lemma steps_app ops ops' h : run (ops ++ ops') h = run ops' (run ops h).
Proof. unfold run. by rewrite foldl_app. Qed.

Lemma foldl_run {A} (f : Heap -> A -> Heap) l h : (forall h x, exists ops, f h x = run ops h) -> exists ops, foldl f h l = run ops h.
Proof.
  intros Hf. revert h. induction l as [|x l IH]; intros h; [by exists []|]. cbn [foldl].
  destruct (Hf h x) as [o Ho]. destruct (IH (f h x)) as [ops Hops]. exists (o ++ ops). by rewrite steps_app, <- Ho.
Qed.

Lemma Release_run fuel : forall r h, exists ops, Release fuel r h = run ops h.
Proof.
  induction fuel as [|fuel IH]; intros r h; [by exists []|]. cbn [Release].
  destruct (held h !! r) as [x|] eqn:Hr; [|by exists []]. destruct (released x); [by exists []|].
  edestruct (foldl_run (fun h p => Release fuel p h) (parents x) (deduct r (set_resource r mark_released h))) as [ops Hops]; [intros h' p; apply IH|].
  exists ([OMark r; ODeduct r] ++ ops). rewrite steps_app. rewrite Hops. f_equal. cbn. unfold is_released, set_resource. cbn [held].
  rewrite list_lookup_alter_eq, Hr. done.
Qed.

Lemma SetSize_run fuel : forall r size h, exists ops, SetSize fuel r size h = run ops h.
Proof.
  induction fuel as [|fuel IH]; intros r size h; [by exists []|]. cbn [SetSize].
  destruct (held h !! r) as [x|] eqn:Hr; [|by exists []]. case_decide; [|by exists []]. destruct (released x); [by exists []|].
  edestruct (foldl_run (fun h p => SetSize fuel p (clampNonNegative size) h) (parents x) (resize r (clampNonNegative size) h)) as [ops Hops]; [intros h' p; apply IH|].
  exists (OResize r (clampNonNegative size) :: ops). rewrite Hops. done.
Qed.

Lemma Written_run fuel : forall r bytes h, exists ops, Written fuel r bytes h = run ops h.
Proof.
  induction fuel as [|fuel IH]; intros r bytes h; [by exists []|]. cbn [Written].
  destruct (held h !! r) as [x|] eqn:Hr; [|by exists []]. case_decide; [|by exists []]. destruct (_ || _)%bool; [by exists []|].
  edestruct (foldl_run (fun h p => Written fuel p bytes h) (parents x) (written r bytes h)) as [ops Hops]; [intros h' p; apply IH|].
  exists (OWritten r bytes :: ops). rewrite Hops. done.
Qed.

(** A parent is an earlier span. *)
Definition ancestors_ok (h : Heap) : Prop := forall i s p, spans h !! i = Some s -> parent s = Some p -> (p < i)%nat.

Lemma hold_parent i k c size h j : (spans (hold i k c size h) !! j ≫= parent) = (spans h !! j ≫= parent).
Proof.
  unfold hold. cbn [spans]. rewrite list_lookup_alter. case_decide; [|done]. subst. destruct (spans h !! j); [|done]. by destruct k.
Qed.
Lemma hold_ancestors i k c size h : ancestors_ok h -> ancestors_ok (hold i k c size h).
Proof.
  intros Ha j s p Hs Hp. pose proof (hold_parent i k c size h j) as He. rewrite Hs in He. cbn in He. rewrite Hp in He.
  destruct (spans h !! j) as [s0|] eqn:Hs0; [|done]. cbn in He. by eapply Ha.
Qed.

Lemma acquire_run fuel : forall i k c size h, ancestors_ok h -> (i < length (spans h))%nat ->
  exists ops, (acquire fuel i k c size h).1 = run ops h.
Proof.
  induction fuel as [|fuel IH]; intros i k c size h Ha Hi; [by exists []|]. cbn [acquire]. rewrite hold_parent.
  assert (do_op (OHold i k c size) h = hold i k c size h) as Hh by (cbn; by rewrite decide_True).
  destruct (spans h !! i ≫= parent) as [p|] eqn:Hp.
  - destruct (spans h !! i) as [s|] eqn:Hs; [|done]. cbn in Hp. pose proof (Ha _ _ _ Hs Hp).
    destruct (IH p k c size (hold i k c size h)) as [ops Hops]; [by apply hold_ancestors|unfold hold; cbn; rewrite length_alter; lia|].
    destruct (acquire fuel p k c size (hold i k c size h)) as [h' above]. cbn [fst] in *.
    exists ([OHold i k c size] ++ ops ++ [OLink (length (held h)) above]). rewrite !steps_app. change (run [OHold i k c size] h) with (do_op (OHold i k c size) h).
    by rewrite Hh, <- Hops.
  - exists [OHold i k c size]. by rewrite <- Hh.
Qed.

Lemma acquire_S fuel i k c size h : acquire (S fuel) i k c size h =
  let r := length (held h) in
  let h := hold i k c size h in
  match spans h !! i ≫= parent with
  | Some p => let '(h, above) := acquire fuel p k c size h in (set_resource r (with_parents above) h, [r])
  | None => (h, [r])
  end.
Proof. done. Qed.

(** The fuel of [AcquireBuffer] and [AcquireTemp] reaches every ancestor. *)
Lemma acquire_fuel fuel : forall i k c size h, ancestors_ok h -> (i < fuel)%nat -> acquire (S fuel) i k c size h = acquire fuel i k c size h.
Proof.
  induction fuel as [|fuel IH]; intros i k c size h Ha Hi; [lia|].
  rewrite (acquire_S (S fuel) i k c size h), (acquire_S fuel i k c size h). cbv zeta. rewrite hold_parent.
  destruct (spans h !! i) as [s|] eqn:Hs; [|done]. cbn [mbind option_bind]. destruct (parent s) as [p|] eqn:Hp; [|done].
  pose proof (Ha _ _ _ Hs Hp). by rewrite IH by (apply hold_ancestors || lia; done).
Qed.

Lemma Finish_run i outcome now h : (forall s, spans h !! i = Some s -> finished s = true -> finishOnce s = true) ->
  exists ops, Finish i outcome now h = run ops h.
Proof.
  intros Hfin. unfold Finish. destruct (spans h !! i) as [s|] eqn:Hs; [|by exists []]. destruct (finishOnce s) eqn:Ho; [by exists []|].
  exists [OClaim i; ORecord i outcome now]. cbn. unfold is_claimed, set_span. cbn [spans]. rewrite list_lookup_alter_eq, Hs. cbn.
  destruct (finished s) eqn:Hf; [|done]. specialize (Hfin s eq_refl Hf). congruence.
Qed.

(** ** The end of an action *)

(** The fields of an action that [Finish] does not fill in from the resources. *)
Definition own_fields (a : Action) : Action := {|
  ID := ID a; ParentID := ParentID a; RunID := RunID a; Kind := Kind a; Operation := Operation a; aQueue := aQueue a;
  aUser := aUser a; Owner := Owner a; aRegistryID := aRegistryID a; aJobID := aJobID a; Outcome := Outcome a; Reason := Reason a;
  HTTPStatus := HTTPStatus a; IPPStatus := IPPStatus a; StartedAt := StartedAt a; FinishedAt := FinishedAt a; DurationNS := DurationNS a;
  ClientBytes := ClientBytes a; UpstreamBytes := UpstreamBytes a; OutputBytes := OutputBytes a; BufferPeakBytes := 0;
  BufferComponents := ∅; TempPeakBytes := 0; TempWrittenBytes := 0; Concurrency := Concurrency a; UserConcurrency := UserConcurrency a |}.

Lemma lookup_set_span i f h j : spans (set_span i f h) !! j = if decide (i = j) then f <$> spans h !! j else spans h !! j.
Proof. unfold set_span. cbn [spans]. rewrite list_lookup_alter. case_decide; by subst. Qed.

(** A finished span stays finished, with the action it has. *)
Lemma finished_step o h i s : spans h !! i = Some s -> finished s = true ->
  exists s', spans (do_op o h) !! i = Some s' /\ finished s' = true /\ action s' = action s.
Proof.
  intros Hs Hf.
  assert (forall j f, (finished (f s) = true /\ action (f s) = action s) ->
    exists s', spans (set_span j f h) !! i = Some s' /\ finished s' = true /\ action s' = action s) as Hset.
  { intros j f Hfs. rewrite lookup_set_span, Hs. case_decide; cbn; eauto. }
  destruct o; cbn [do_op]; try by eauto.
  - unfold Begin. destruct collector as [c|]; [|by eauto]. destruct (negb _); [by eauto|]. cbn. exists s.
    rewrite lookup_app_l by (by eapply lookup_lt_Some). done.
  - apply Hset. unfold update. by rewrite Hf.
  - case_decide; [|by eauto]. unfold hold. cbn [spans]. rewrite list_lookup_alter. case_decide; [subst; rewrite Hs|by eauto].
    cbn. destruct k; eauto.
  - unfold resize. destruct (held h !! r) as [x|]; [|by eauto]. case_decide; [|by eauto]. destruct (released x); [by eauto|].
    cbn [spans set_resource]. by apply Hset.
  - unfold written. destruct (held h !! r) as [x|]; [|by eauto]. case_decide; [|by eauto]. destruct (_ || _)%bool; [by eauto|]. by apply Hset.
  - unfold AddTempWritten. destruct (spans h !! i0) as [x|]; [|by eauto]. destruct (_ || _)%bool; [by eauto|]. by apply Hset.
  - destruct (is_released r h); [|by eauto]. unfold deduct. destruct (held h !! r) as [x|]; [|by eauto]. cbn [spans set_resource].
    apply Hset. by destruct (kind x).
  - unfold is_claimed, record_finish. destruct (spans h !! i0) as [x|] eqn:Hx; [|by eauto]. destruct (_ && _)%bool eqn:Hc; [|by eauto].
    cbn [spans]. rewrite list_lookup_alter. case_decide; [|by eauto]. subst i0. rewrite Hs in Hx. injection Hx as <-.
    rewrite Hf, andb_false_r in Hc. done.
Qed.

Lemma recorded_step o h : recorded (do_op o h) = recorded h \/
  exists i outcome now s, o = ORecord i outcome now /\ spans h !! i = Some s /\ finished s = false /\
    let s' := set_finished (set_action (completed outcome now (started s)) s) in
    spans (do_op o h) !! i = Some s' /\ recorded (do_op o h) = recorded h ++ [(i, snapshot_action s')].
Proof.
  destruct o; cbn [do_op]; try by left.
  - left. unfold Begin. destruct collector as [c|]; [|done]. by destruct (negb _).
  - left. by case_decide.
  - left. unfold resize. destruct (held h !! r); [|done]. case_decide; [|done]. by destruct (released _).
  - left. unfold written. destruct (held h !! r); [|done]. case_decide; [|done]. by destruct (_ || _)%bool.
  - left. unfold AddTempWritten. destruct (spans h !! i); [|done]. by destruct (_ || _)%bool.
  - left. destruct (is_released r h); [|done]. unfold deduct. by destruct (held h !! r).
  - unfold is_claimed. destruct (spans h !! i) as [s|] eqn:Hs; [|by left]. destruct (_ && _)%bool eqn:Hc; [|by left].
    apply andb_true_iff in Hc as [_ Hc%negb_true_iff]. right. exists i, outcome, now, s. split_and!; try done; unfold record_finish; rewrite Hs; cbn [spans recorded]; [|done].
    rewrite list_lookup_alter_eq, Hs. done.
Qed.

Lemma run_recorded ops : let h := run ops no_heap in
  NoDup (recorded h).*1 /\
  forall i a, (i, a) ∈ recorded h -> exists s, spans h !! i = Some s /\ finished s = true /\ own_fields a = own_fields (action s).
Proof.
  induction ops as [|o ops [Hnd Hin]] using rev_ind; [split; [constructor|set_solver]|]. cbv zeta in *.
  rewrite steps_snoc. set (h := run ops no_heap) in *.
  assert (forall i a, (i, a) ∈ recorded h -> exists s, spans (do_op o h) !! i = Some s /\ finished s = true /\ own_fields a = own_fields (action s)) as Hkeep.
  { intros i a (s & Hs & Hf & Ha)%Hin. destruct (finished_step o h i s Hs Hf) as (s' & Hs' & Hf' & Ha'). exists s'. by rewrite Ha'. }
  destruct (recorded_step o h) as [->|(i & outcome & now & s & -> & Hs & Hf & Hs' & ->)]; [by split|]. split.
  - rewrite fmap_app. apply NoDup_app. split; [done|]. split; [|by apply NoDup_singleton]. intros j Hj Hji.
    cbn in Hji. apply list_elem_of_singleton in Hji. subst j. apply list_elem_of_fmap in Hj as ([j a] & -> & Hj).
    destruct (Hin _ _ Hj) as (s0 & Hs0 & Hf0 & _). cbn in *. congruence.
  - intros j a [Hj|Hj]%elem_of_app; [by apply Hkeep|]. apply list_elem_of_singleton in Hj. injection Hj as -> ->.
    eexists. split; [exact Hs'|]. done.
Qed.

(** ** The theorems *)

(** C20: The resources of an action are accounted for exactly. In every
    interleaving of the steps of all goroutines (acquisitions, changes of size,
    writes and releases through a span and its ancestors, edits, starts and ends
    of spans), as long as no span holds more than 64 bits can say, what a span
    says it holds is the sum of what its resources hold, in buffers, in
    temporary files and for each component, and the peaks it records are the
    greatest amounts it held at once at any moment of its history. *)
Theorem usage_exact (ops : list op) (i : nat) (s : Span) :
  Forall fits (history ops no_heap) -> spans (run ops no_heap) !! i = Some s ->
  let h := run ops no_heap in
  (bufferCurrent s = usage resourceBuffer i h /\ tempCurrent s = usage resourceTemp i h /\
   forall c, of_component c (buffers s) = part_usage c i h) /\
  BufferPeakBytes (snapshot_action s) = zmax (usage resourceBuffer i) (history ops no_heap) /\
  TempPeakBytes (snapshot_action s) = zmax (usage resourceTemp i) (history ops no_heap) /\
  (forall c, of_component c (bufferPeaks s) = zmax (part_usage c i) (history ops no_heap)).
Proof.
  intros Hf Hs h. destruct (run_accounted ops Hf) as [Hacc _]. destruct (run_peaks ops i Hf) as (P1 & P2 & P3).
  destruct (acc_counts _ Hacc i) as [C1 C2 C3]. unfold span_at in *. rewrite Hs in *. cbn in *. done.
Qed.

(** Whatever goroutines do, and however often [Finish] is called, an action
    is recorded at most once, when its span ends, and what is recorded is what
    the span says ever after: no later edit changes it. *)
Theorem recorded_once (ops : list op) :
  let h := run ops no_heap in
  NoDup (recorded h).*1 /\
  (forall i a, (i, a) ∈ recorded h -> exists s, spans h !! i = Some s /\ finished s = true /\ own_fields a = own_fields (action s)).
Proof. apply run_recorded. Qed.

(** A request with a translation below it: both hold the buffer and the file
    the translation acquires. *)
Definition recorder : ActionRecorder := {| rEnabled := true; rRunID := "run"; rResources := true |}.
Definition begun_heap : Heap :=
  (Begin (Some 0%nat) (Some recorder) no_action "child" 2 (Begin None (Some recorder) no_action "request" 1 no_heap).1).1.

Example nested_resources :
  let h := (AcquireTemp 1 "translation" 0 (AcquireBuffer 1 "row" 64 begun_heap).1).1 in
  let h := SetSize 2 2 500 h in
  let h := Release 2 0 (Written 2 2 700 h) in
  let h := Finish 1 "success" 9 (Release 2 2 (SetSize 2 2 100 h)) in
  (fun s => (bufferCurrent s, bufferPeak s, tempCurrent s, tempPeak s, tempWritten s)) <$> spans h =
    [(0, 64, 0, 500, 700); (0, 64, 0, 500, 700)] /\
  (fun r => (r.1, ID r.2, ParentID r.2, BufferPeakBytes r.2, TempPeakBytes r.2)) <$> recorded h = [(1%nat, "child", "request", 64, 500)].
Proof. vm_compute. done. Qed.

Definition nested_ops : list op :=
  [OBegin None (Some recorder) no_action "request" 1; OHold 0 resourceBuffer "row" 64; OHold 0 resourceTemp "" 0;
   OResize 1 500; OMark 0; OHold 0 resourceBuffer "row" 8; ODeduct 0; OResize 1 100].

Example usage_exact_witness : exists s, spans (run nested_ops no_heap) !! 0%nat = Some s /\
  (let h := run nested_ops no_heap in
   (bufferCurrent s = usage resourceBuffer 0 h /\ tempCurrent s = usage resourceTemp 0 h /\
    forall c, of_component c (buffers s) = part_usage c 0 h) /\
   BufferPeakBytes (snapshot_action s) = zmax (usage resourceBuffer 0) (history nested_ops no_heap) /\
   TempPeakBytes (snapshot_action s) = zmax (usage resourceTemp 0) (history nested_ops no_heap) /\
   (forall c, of_component c (bufferPeaks s) = zmax (part_usage c 0) (history nested_ops no_heap))) /\
  (bufferCurrent s, bufferPeak s, tempCurrent s, tempPeak s) = (8, 72, 100, 500).
Proof.
  eexists. split; [vm_compute; reflexivity|]. split; [|reflexivity].
  apply (usage_exact nested_ops 0); [|vm_compute; reflexivity].
  cbn -[fits]. repeat (constructor; [intros k [|i]; destruct k; vm_compute; discriminate|]). constructor.
Defined.
