(* ===== verification/Collector.v ===== *)
(** * The recording of statistics ([internal/stats/collector.go])

    Request handlers hand their records to a bounded queue and never wait; one
    goroutine takes them out, collects batches and writes each batch in one
    transaction, in at most three attempts; [Close] lets it empty the queue.
    What a goroutine does under a lock, or in one attempt of the database, is
    one step, and the steps of all goroutines are interleaved in any order
    ([step]). An attempt may fail for reasons of the database at any time. The
    CPU samples and the table of runs are left out. *)

From Stdlib Require Import ZArith Lia Ascii String.
From stdpp Require Import base tactics list strings gmap.
From S2P Require Import Configuration.
From S2P Require Import Prelude GoString GoError GoTime Sums Accounting.

Inductive event := eventAction (a : Action) | eventJob (j : Job).

Definition defaultQueueSize : Z := 4096.
Definition defaultBatchSize : Z := 256.
Definition defaultFlushInterval : Z := Second.

(** The options [New] works with. *)
Definition normal_options (o : Options) : Options :=
  let queueSize := if QueueSize o <=? 0 then defaultQueueSize else QueueSize o in
  {| Enabled := Enabled o; Path := Path o; QueueSize := queueSize;
     BatchSize := if ((BatchSize o <=? 0) || (queueSize <? BatchSize o))%bool
                  then if queueSize <? defaultBatchSize then queueSize else defaultBatchSize else BatchSize o;
     FlushInterval := if FlushInterval o <=? 0 then defaultFlushInterval else FlushInterval o;
     DetailRetention := DetailRetention o; CPURetention := CPURetention o; RollupRetention := RollupRetention o;
     Resources := Resources o; CPU := CPU o |}.

(** ** Health *)

Record Health := { Dropped : Z; Errors : Z; LastPersisted : time; LastError : string }.

Definition recordDroppedN (n : Z) (h : Health) : Health :=
  if n <=? 0 then h else {| Dropped := u64 (Dropped h + n); Errors := Errors h; LastPersisted := LastPersisted h; LastError := LastError h |}.
Definition recordDropped (h : Health) : Health :=
  {| Dropped := u64 (Dropped h + 1); Errors := Errors h; LastPersisted := LastPersisted h; LastError := LastError h |}.
Definition recordError (err : goerr) (h : Health) : Health :=
  {| Dropped := Dropped h; Errors := u64 (Errors h + 1); LastPersisted := LastPersisted h; LastError := Error_text err |}.
Definition recordPersisted (now : time) (h : Health) : Health :=
  {| Dropped := Dropped h; Errors := Errors h; LastPersisted := now; LastError := LastError h |}.

(** The row of [stats_health]. *)
Record health_row := { dropped : Z; errors : Z; last_persisted : option string; last_error : string }.
Definition fresh_row : health_row := {| dropped := 0; errors := 0; last_persisted := None; last_error := "" |}.
Definition persistHealth (now : time) (h : Health) : health_row :=
  {| dropped := Dropped h; errors := Errors h; last_persisted := Some (formatTime now); last_error := LastError h |}.
(** [initializeMetadata], where the row can be read. *)
Definition initial_health (row : health_row) (h : Health) : Health :=
  {| Dropped := u64 (Dropped h + dropped row); Errors := u64 (Errors h + errors row);
     LastPersisted := match last_persisted row with Some t => default 0 (ParseRFC3339 t) | None => LastPersisted h end;
     LastError := last_error row |}.

(** ** Records as the queue gets them *)

(** [RecordAction] fills in what is missing. *)
Definition recorded_action (now : time) (id runID : string) (a : Action) : Action :=
  let started := if IsZero (StartedAt a) then now else StartedAt a in
  let finished := if IsZero (FinishedAt a) then now else FinishedAt a in
  {| ID := if (ID a =? "")%string then id else ID a; ParentID := ParentID a;
     RunID := if (RunID a =? "")%string then runID else RunID a; Kind := Kind a; Operation := Operation a; aQueue := aQueue a;
     aUser := aUser a; Owner := Owner a; aRegistryID := aRegistryID a; aJobID := aJobID a; Outcome := Outcome a; Reason := Reason a;
     HTTPStatus := HTTPStatus a; IPPStatus := IPPStatus a; StartedAt := started; FinishedAt := finished;
     DurationNS := if ((DurationNS a <=? 0) && negb (finished <? started))%bool then GoTime.Sub finished started else DurationNS a;
     ClientBytes := ClientBytes a; UpstreamBytes := UpstreamBytes a; OutputBytes := OutputBytes a; BufferPeakBytes := BufferPeakBytes a;
     BufferComponents := BufferComponents a; TempPeakBytes := TempPeakBytes a; TempWrittenBytes := TempWrittenBytes a;
     Concurrency := Concurrency a; UserConcurrency := UserConcurrency a |}.

(** [ObserveJob]; the copies of what its pointers point to are the same values. *)
Definition stamped_job (now : time) (j : Job) : Job := {|
  Register := Register j; RegistryID := RegistryID j; JobID := JobID j; Queue := Queue j; User := User j;
  CreatedAt := if IsZero (CreatedAt j) then now else CreatedAt j; UpdatedAt := if IsZero (UpdatedAt j) then now else UpdatedAt j;
  ProcessingAt := ProcessingAt j; TerminalAt := TerminalAt j; State := State j; ObservedState := ObservedState j;
  StateReasons := StateReasons j; Accepted := Accepted j; CancelAccepted := CancelAccepted j; measures := measures j; settings := settings j |}.

(** ** The collector *)

(** Where the writer is: in its loop; taking the rest of the queue after the
    stop; or writing a batch, with the attempts made so far and where it goes
    on. *)
Inductive next_phase := ToLoop | ToDrain | ToEnd.
Inductive phase := Looping | Draining | Writing (batch : list event) (attempts : nat) (after : next_phase) | Finishing | Stopped.
Definition phase_of (n : next_phase) : phase := match n with ToLoop => Looping | ToDrain => Draining | ToEnd => Finishing end.

Record Collector := {
  queue : list event; closed : bool; writer : phase; pending : list event; health : Health;
  savedHealth : Z * Z; db : DB; stats_health : health_row
}.

Definition set_queue (q : list event) (c : Collector) : Collector := {|
  queue := q; closed := closed c; writer := writer c; pending := pending c; health := health c; savedHealth := savedHealth c;
  db := db c; stats_health := stats_health c |}.
Definition set_health (f : Health -> Health) (c : Collector) : Collector := {|
  queue := queue c; closed := closed c; writer := writer c; pending := pending c; health := f (health c); savedHealth := savedHealth c;
  db := db c; stats_health := stats_health c |}.
Definition set_closed (c : Collector) : Collector := {|
  queue := queue c; closed := true; writer := writer c; pending := pending c; health := health c; savedHealth := savedHealth c;
  db := db c; stats_health := stats_health c |}.
Definition set_writer (w : phase) (p : list event) (c : Collector) : Collector := {|
  queue := queue c; closed := closed c; writer := w; pending := p; health := health c; savedHealth := savedHealth c;
  db := db c; stats_health := stats_health c |}.
Definition set_db (d : DB) (c : Collector) : Collector := {|
  queue := queue c; closed := closed c; writer := writer c; pending := pending c; health := health c; savedHealth := savedHealth c;
  db := d; stats_health := stats_health c |}.

(** What [New] starts with, over the file it opened; [failed] are the errors of
    its writes to the tables that are left out. *)
Definition start (d : DB) (row : health_row) (failed : list goerr) : Collector :=
  let h := initial_health row {| Dropped := 0; Errors := 0; LastPersisted := 0; LastError := "" |} in
  let h := foldl (fun h err => recordError err h) h failed in
  {| queue := []; closed := false; writer := Looping; pending := []; health := h;
     savedHealth := (Dropped h, Errors h); db := d; stats_health := row |}.

Section collector.
Context `{R : MapRange} (opts : Options).

(** [enqueue]: the event, or one more that is dropped. *)
Definition accepts (c : Collector) : bool := negb (closed c) && (zlen (queue c) <? QueueSize opts).
Definition enqueue (e : event) (c : Collector) : Collector :=
  if accepts c then set_queue (queue c ++ [e]) c else set_health recordDropped c.

(** [flush], up to its first attempt. *)
Definition flush (after : next_phase) (c : Collector) : Collector :=
  let h := health c in
  if (bool_decide (pending c = []) && (Dropped h =? (savedHealth c).1) && (Errors h =? (savedHealth c).2))%bool
  then set_writer (phase_of after) (pending c) c
  else set_writer (Writing (pending c) 0 after) [] c.

(** One event comes out of the queue. *)
Definition take_event (after : next_phase) (c : Collector) : Collector :=
  match queue c with
  | [] => c
  | e :: q =>
      let c := set_writer (writer c) (pending c ++ [e]) (set_queue q c) in
      if BatchSize opts <=? zlen (pending c) then flush after c else c
  end.

(** The transaction of [writeBatch]; [clock] says when each event is written. *)
Fixpoint persist_events (clock : list time) (batch : list event) (d : DB) : res goerr DB :=
  match batch with
  | [] => Ok d
  | e :: batch =>
      let now := hd 0 clock in
      d ← match e with
          | eventAction a => Ok (persistAction now a d)
          | eventJob j => persistJob now (RollupRetention opts) j d
          end;
      persist_events (tl clock) batch d
  end.

(** An attempt that succeeds. *)
Definition attempt_done (now : time) (d : DB) (after : next_phase) (c : Collector) : Collector :=
  let h := recordPersisted now (health c) in
  {| queue := queue c; closed := closed c; writer := phase_of after; pending := pending c; health := h;
     savedHealth := (Dropped h, Errors h); db := d; stats_health := persistHealth now (health c) |}.
(** An attempt that fails; the third one drops the batch. *)
Definition attempt_failed (err : goerr) (batch : list event) (attempts : nat) (after : next_phase) (c : Collector) : Collector :=
  let c := set_health (recordError err) c in
  if (attempts <? 2)%nat then set_writer (Writing batch (Datatypes.S attempts) after) (pending c) c
  else set_health (recordDroppedN (zlen batch)) (set_writer (phase_of after) (pending c) c).

(** ** Steps *)

(** What a step shows: an event accepted or refused, a batch written (with what
    the transaction did) or given up, a clean-up. *)
Inductive label := Accept (e : event) | Refuse (e : event) | Write (clock : list time) (batch : list event) | GiveUp (batch : list event)
| Clean (clock now : time) | Silent.

(** The request handlers, the maintenance loop and [Close]. A clean-up that began
    before [Close] may still go on; it may fail at any call of the database. *)
Inductive client_step : Collector -> label -> Collector -> Prop :=
| step_enqueue c e : client_step c (if accepts c then Accept e else Refuse e) (enqueue e c)
| step_close c : client_step c Silent (set_closed c)
| step_cleanup c clock now : writer c <> Stopped -> client_step c (Clean clock now) (set_db (Cleanup opts clock now (db c)) c)
| step_cleanup_failed c err : client_step c Silent (set_health (recordError err) c).

(** [writerLoop]. *)
Inductive writer_step : Collector -> label -> Collector -> Prop :=
| step_take c : writer c = Looping -> queue c <> [] -> writer_step c Silent (take_event ToLoop c)
| step_tick c : writer c = Looping -> writer_step c Silent (flush ToLoop c)
| step_stop c : writer c = Looping -> closed c = true -> writer_step c Silent (set_writer Draining (pending c) c)
| step_drain c : writer c = Draining -> queue c <> [] -> writer_step c Silent (take_event ToDrain c)
| step_drained c : writer c = Draining -> queue c = [] -> writer_step c Silent (flush ToEnd c)
| step_written c batch attempts after clock now d : writer c = Writing batch attempts after ->
    persist_events clock batch (db c) = Ok d -> writer_step c (Write clock batch) (attempt_done now d after c)
| step_failed c batch attempts after err : writer c = Writing batch attempts after ->
    writer_step c (if (attempts <? 2)%nat then Silent else GiveUp batch) (attempt_failed err batch attempts after c)
| step_finish c h row : writer c = Finishing -> h = health c \/ (exists err, h = recordError err (health c)) ->
    (exists now, row = persistHealth now h) \/ row = stats_health c ->
    writer_step c Silent {| queue := queue c; closed := closed c; writer := Stopped; pending := pending c; health := h;
                            savedHealth := savedHealth c; db := db c; stats_health := row |}.

Inductive step (c : Collector) (l : label) (c' : Collector) : Prop :=
| by_client : client_step c l c' -> step c l c'
| by_writer : writer_step c l c' -> step c l c'.

Inductive runs (c0 : Collector) : list label -> Collector -> Prop :=
| runs_start : runs c0 [] c0
| runs_step ls c l c' : runs c0 ls c -> step c l c' -> runs c0 (ls ++ [l]) c'.
End collector.
