(* ===== verification/CollectorTheorems.v ===== *)
(** * Theorems about the recording of statistics

    Nothing is lost silently: in every interleaving, what the queue accepted is
    what was written or given up, in the order it was accepted, and what is
    still on its way; what was refused or given up is what [Dropped] counts. The
    database is the run of what was written, so that the totals are those of the
    ledger of [AccountingTheorems.v]. *)

From Stdlib Require Import ZArith Lia Ascii String.
From stdpp Require Import base tactics list strings gmap.
From S2P Require Import Configuration.
From S2P Require Import Prelude GoString GoError GoTime Sums Accounting AccountingProofs AccountingTheorems Collector.

(** ** What a run shows *)

Definition accepted_of (l : label) : list event := match l with Accept e => [e] | _ => [] end.
Definition settled_of (l : label) : list event := match l with Write _ batch | GiveUp batch => batch | _ => [] end.
Definition lost_of (l : label) : Z := match l with Refuse _ => 1 | GiveUp batch => zlen batch | _ => 0 end.
Definition operation_of (now : time) (e : event) : operation :=
  match e with eventAction a => Recorded now a | eventJob j => Persisted now j end.
Fixpoint operations_of_batch (clock : list time) (batch : list event) : list operation :=
  match batch with [] => [] | e :: batch => operation_of (hd 0 clock) e :: operations_of_batch (tl clock) batch end.
Definition operations_of (l : label) : list operation :=
  match l with Write clock batch => operations_of_batch clock batch | Clean clock now => [CleanedUp clock now] | _ => [] end.

Definition all_accepted (ls : list label) : list event := concat (map accepted_of ls).
Definition all_settled (ls : list label) : list event := concat (map settled_of ls).
Definition all_operations (ls : list label) : list operation := concat (map operations_of ls).
Definition lost (ls : list label) : Z := zsum lost_of ls.

Definition in_flight (w : phase) : list event := match w with Writing batch _ _ => batch | _ => [] end.
(** The writer has seen the stop. *)
Definition past_stop (w : phase) : bool := match w with Looping | Writing _ _ ToLoop => false | _ => true end.
(** The writer has seen the queue empty after the stop. *)
Definition past_queue (w : phase) : bool := match w with Writing _ _ ToEnd | Finishing | Stopped => true | _ => false end.

Section theorems.
Context `{R : MapRange} (opts : Options) (d0 : DB) (row0 : health_row) (failed : list goerr).

Record conserved (ls : list label) (c : Collector) : Prop := {
  con_order : all_accepted ls = all_settled ls ++ in_flight (writer c) ++ pending c ++ queue c;
  con_dropped : Dropped (health c) = u64 (dropped row0 + lost ls);
  con_queue : zlen (queue c) <= QueueSize opts;
  con_pending : zlen (pending c) < BatchSize opts;
  con_batch : zlen (in_flight (writer c)) <= BatchSize opts;
  con_stop : past_stop (writer c) = true -> closed c = true;
  con_empty : past_queue (writer c) = true -> pending c = [] /\ queue c = [];
  con_db : db c = foldl (run_op opts) d0 (all_operations ls)
}.

Lemma concat_snoc {A B} (f : A -> list B) l x : concat (map f (l ++ [x])) = concat (map f l) ++ f x.
Proof. rewrite map_app, concat_app. cbn. by rewrite app_nil_r. Qed.

Lemma persist_events_run clock batch d d' : persist_events opts clock batch d = Ok d' ->
  foldl (run_op opts) d (operations_of_batch clock batch) = d'.
Proof.
  revert clock d. induction batch as [|e batch IH]; intros clock d; cbn; [by intros [= ->]|].
  destruct e as [a|j]; cbn; [apply IH|]. destruct (persistJob _ _ _ _) as [d1|err]; [apply IH|done].
Qed.

Lemma u64_add a b : u64 (u64 a + b) = u64 (a + b).
Proof. unfold u64, wrapu. by rewrite Z.add_mod_idemp_l. Qed.

Lemma phase_flight n : in_flight (phase_of n) = [].
Proof. by destruct n. Qed.

Lemma failed_dropped h : Dropped (foldl (fun h err => recordError err h) h failed) = Dropped h.
Proof. clear row0. revert h. induction failed as [|err f IH]; intros h; [done|]. cbn. by rewrite IH. Qed.

Lemma conserved_start : 0 <= QueueSize opts -> 0 < BatchSize opts -> conserved [] (start d0 row0 failed).
Proof.
  intros HQ HB. split; try done; [|cbn; unfold zlen; cbn; lia].
  unfold start. cbn [health]. rewrite failed_dropped. unfold initial_health, lost. cbn. by rewrite Z.add_0_r.
Qed.

(** A step that shows nothing adds nothing. *)
Lemma silent_shown ls : all_accepted (ls ++ [Silent]) = all_accepted ls /\ all_settled (ls ++ [Silent]) = all_settled ls /\
  lost (ls ++ [Silent]) = lost ls /\ all_operations (ls ++ [Silent]) = all_operations ls.
Proof.
  unfold all_accepted, all_settled, lost, all_operations. rewrite !concat_snoc. cbn [accepted_of settled_of operations_of].
  rewrite !app_nil_r, zsum_app. cbn. split_and!; try done. unfold zsum. lia.
Qed.

(** [flush] with nothing in flight; the pending events may just have filled a
    batch. *)
Lemma flush_conserved ls after c :
  all_accepted ls = all_settled ls ++ pending c ++ queue c -> Dropped (health c) = u64 (dropped row0 + lost ls) ->
  zlen (queue c) <= QueueSize opts -> zlen (pending c) <= BatchSize opts -> 0 < BatchSize opts ->
  (after <> ToLoop -> closed c = true) -> (after = ToEnd -> queue c = []) ->
  db c = foldl (run_op opts) d0 (all_operations ls) -> conserved (ls ++ [Silent]) (flush after c).
Proof.
  intros Ho Hd Hq Hp HB Hstop Hend Hdb. destruct (silent_shown ls) as (E1 & E2 & E3 & E4). unfold flush.
  destruct (_ && _)%bool eqn:Hf.
  - apply andb_true_iff in Hf as [[Hnil%bool_decide_eq_true _]%andb_true_iff _].
    split; cbn; rewrite ?E1, ?E2, ?E3, ?E4, ?phase_flight; try done.
    + rewrite Hnil. done.
    + unfold zlen. cbn. lia.
    + intros Hs. apply Hstop. by intros ->.
    + intros He. destruct after; [done|done|]. auto.
  - split; cbn; rewrite ?E1, ?E2, ?E3, ?E4; try done.
    + intros Hs. apply Hstop. by intros ->.
    + intros He. destruct after; [done|done|]. auto.
Qed.

Lemma take_conserved ls after c : conserved ls c -> in_flight (writer c) = [] -> 0 < BatchSize opts ->
  (after <> ToLoop -> closed c = true) -> after <> ToEnd -> past_queue (writer c) = false -> queue c <> [] ->
  conserved (ls ++ [Silent]) (take_event opts after c).
Proof.
  intros [C1 C2 C3 C4 C5 C6 C7 C8] Hfl HB Hstop Hend Hpq Hne. unfold take_event. destruct (queue c) as [|e q] eqn:Hq; [done|].
  rewrite Hfl in *. cbn [app] in C1. autorewrite with gosimp in C3. pose proof (zlen_nonneg q).
  destruct (silent_shown ls) as (E1 & E2 & E3 & E4). cbn [pending set_writer].
  destruct (Z.leb_spec (BatchSize opts) (zlen (pending c ++ [e]))) as [Hb|Hb].
  - apply flush_conserved; cbn; try done; try lia.
    + by rewrite C1, <- app_assoc.
    + autorewrite with gosimp. lia.
  - split; cbn; rewrite ?E1, ?E2, ?E3, ?E4, ?Hfl, ?Hpq; try done; try lia.
    by rewrite C1, <- app_assoc.
Qed.

Lemma client_conserved ls c l c' : conserved ls c -> client_step opts c l c' -> conserved (ls ++ [l]) c'.
Proof.
  intros HC Hs. pose proof HC as [C1 C2 C3 C4 C5 C6 C7 C8]. destruct (silent_shown ls) as (E1 & E2 & E3 & E4).
  destruct Hs as [c e|c|c clock now Hw|c err].
  - unfold enqueue. destruct (accepts opts c) eqn:Ha.
    + unfold accepts in Ha. bool_to_prop. split; cbn; try done; unfold all_accepted, all_settled, all_operations, lost; rewrite ?concat_snoc, ?zsum_app.
      * cbn. fold (all_accepted ls) (all_settled ls). by rewrite C1, app_nil_r, <- !app_assoc.
      * rewrite C2. unfold lost, zsum. cbn. f_equal. lia.
      * autorewrite with gosimp. lia.
      * intros Hpq. destruct (C7 Hpq). split; [done|]. exfalso. specialize (C6 ltac:(by destruct (writer c) as [| |? ? []| |])). congruence.
      * cbn. by rewrite app_nil_r.
    + split; cbn; try done; unfold all_accepted, all_settled, all_operations, lost; rewrite ?concat_snoc, ?zsum_app; cbn; rewrite ?app_nil_r; try done.
      rewrite C2, u64_add. unfold lost, zsum. f_equal. lia.
  - split; cbn; rewrite ?E1, ?E2, ?E3, ?E4; done.
  - split; cbn; try done; unfold all_accepted, all_settled, all_operations, lost; rewrite ?concat_snoc, ?zsum_app; cbn; rewrite ?app_nil_r; try done.
    + rewrite C2. unfold lost, zsum. f_equal. lia.
    + rewrite foldl_snoc. cbn. by rewrite C8.
  - split; cbn; rewrite ?E1, ?E2, ?E3, ?E4; done.
Qed.

Lemma writer_conserved ls c l c' : 0 < BatchSize opts -> conserved ls c -> writer_step opts c l c' -> conserved (ls ++ [l]) c'.
Proof.
  intros HB HC Hs. pose proof HC as [C1 C2 C3 C4 C5 C6 C7 C8]. destruct (silent_shown ls) as (E1 & E2 & E3 & E4).
  destruct Hs as [c Hw Hq|c Hw|c Hw Hcl|c Hw Hq|c Hw Hq|c batch attempts after clock now d Hw Hd|c batch attempts after err Hw|c h row Hw Hh Hr].
  - by apply take_conserved; rewrite ?Hw.
  - rewrite Hw in *. cbn in *. by apply flush_conserved; [..|lia| | | |].
  - rewrite Hw in *. split; cbn; rewrite ?E1, ?E2, ?E3, ?E4; done.
  - rewrite Hw in *. apply take_conserved; rewrite ?Hw; try done. auto.
  - rewrite Hw in *. cbn in *. apply flush_conserved; try done; [lia|auto].
  - rewrite Hw in *. cbn in *. split; cbn; try done; unfold all_accepted, all_settled, all_operations, lost; rewrite ?concat_snoc, ?zsum_app; cbn;
      rewrite ?app_nil_r, ?phase_flight; try done.
    + fold (all_accepted ls) (all_settled ls). by rewrite C1, <- app_assoc.
    + rewrite C2. unfold lost, zsum. f_equal. lia.
    + unfold zlen. cbn. lia.
    + intros Hp. apply C6. by destruct after.
    + intros Hp. apply C7. by destruct after.
    + rewrite foldl_app. fold (all_operations ls). rewrite <- C8. symmetry. by apply persist_events_run.
  - rewrite Hw in *. unfold attempt_failed. destruct (attempts <? 2)%nat; cbn in *.
    + split; cbn; rewrite ?E1, ?E2, ?E3, ?E4; try done.
    + split; cbn; try done; unfold all_accepted, all_settled, all_operations, lost; rewrite ?concat_snoc, ?zsum_app; cbn;
        rewrite ?app_nil_r, ?phase_flight; try done.
      * fold (all_accepted ls) (all_settled ls). by rewrite C1, <- app_assoc.
      * unfold recordDroppedN. pose proof (zlen_nonneg batch). destruct (Z.leb_spec (zlen batch) 0); cbn.
        -- rewrite C2. unfold lost, zsum. f_equal. cbn. lia.
        -- rewrite C2, u64_add. unfold lost, zsum. f_equal. cbn. lia.
      * unfold zlen. cbn. lia.
      * intros Hp. apply C6. by destruct after.
      * intros Hp. apply C7. by destruct after.
  - rewrite Hw in *. split; cbn; rewrite ?E1, ?E2, ?E3, ?E4; try done; auto.
    by destruct Hh as [->|[err ->]].
Qed.

Lemma runs_conserved ls c : 0 <= QueueSize opts -> 0 < BatchSize opts -> runs opts (start d0 row0 failed) ls c -> conserved ls c.
Proof.
  intros HQ HB Hr. induction Hr as [|ls c l c' Hr IH [Hs|Hs]]; [by apply conserved_start|by eapply client_conserved|by eapply writer_conserved].
Qed.
End theorems.

(** ** The options of a collector *)

Lemma normal_options_ok o : 0 < QueueSize (normal_options o) /\ 0 < BatchSize (normal_options o) <= QueueSize (normal_options o).
Proof.
  unfold normal_options. cbn. destruct (Z.leb_spec (QueueSize o) 0), (Z.leb_spec (BatchSize o) 0); cbn; unfold defaultQueueSize, defaultBatchSize;
    repeat match goal with |- context [?x <? ?y] => destruct (Z.ltb_spec x y) end; lia.
Qed.

(** ** The writer after the stop *)

Section drain.
Context `{R : MapRange} (opts : Options).

(** A run from [c], with the number of steps of the writer. *)
Inductive continues (c : Collector) : nat -> Collector -> Prop :=
| continues_refl : continues c 0 c
| continues_client n c1 l c2 : continues c n c1 -> client_step opts c1 l c2 -> continues c n c2
| continues_writer n c1 l c2 : continues c n c1 -> writer_step opts c1 l c2 -> continues c (S n) c2.

(** A bound on the steps left: each event of the queue may fill a batch of three
    attempts. *)
Definition remaining (c : Collector) : nat :=
  match writer c with
  | Looping | Writing _ _ ToLoop => 0
  | Draining => 5 * length (queue c) + 8
  | Writing _ attempts ToDrain => 5 * length (queue c) + 9 + (3 - attempts)
  | Writing _ attempts ToEnd => 3 + (3 - attempts)
  | Finishing => 1
  | Stopped => 0
  end%nat.

(** What holds after the stop. *)
Record stopping (c : Collector) : Prop := { st_past : past_stop (writer c) = true; st_closed : closed c = true }.

Lemma client_stopping c l c' : stopping c -> client_step opts c l c' -> stopping c' /\ remaining c' = remaining c.
Proof.
  intros [Hp Hc] Hs. destruct Hs as [c e|c|c clock now Hw|c err]; [|done..].
  unfold enqueue, accepts. rewrite Hc. done.
Qed.

Lemma flush_stopping after c : stopping c -> after <> ToLoop ->
  stopping (flush after c) /\ (remaining (flush after c) <= match after with ToEnd => 6 | _ => 5 * length (queue c) + 12 end)%nat.
Proof.
  intros [Hp Hc] Ha. unfold flush. destruct (_ && _)%bool; (split; [split; [by destruct after|done]|]); destruct after; cbn; lia || done.
Qed.

Lemma writer_stopping c l c' : stopping c -> writer_step opts c l c' -> stopping c' /\ (remaining c' < remaining c)%nat.
Proof.
  intros Hst Hs. pose proof Hst as [Hp Hc].
  destruct Hs as [c Hw Hq|c Hw|c Hw Hcl|c Hw Hq|c Hw Hq|c batch attempts after clock now d Hw Hd|c batch attempts after err Hw|c h row Hw Hh Hr];
    rewrite ?Hw in Hp; try done.
  - unfold take_event. destruct (queue c) as [|e q] eqn:E; [done|]. set (c1 := set_writer _ _ _).
    assert (stopping c1) as Hst1 by (split; [by unfold c1; cbn; rewrite Hw|done]).
    assert (remaining c = 5 * S (length q) + 8)%nat as -> by (unfold remaining; by rewrite Hw, E).
    destruct (_ <=? _).
    + destruct (flush_stopping ToDrain c1 Hst1) as [? Hrem]; [done|]. split; [done|]. cbn in Hrem. lia.
    + split; [done|]. unfold remaining, c1. cbn [writer set_writer queue set_queue]. rewrite Hw. lia.
  - destruct (flush_stopping ToEnd c Hst) as [? Hrem]; [done|]. split; [done|]. unfold remaining at 2. rewrite Hw, Hq. cbn in *. lia.
  - split; [split; [by destruct after|done]|]. unfold remaining. rewrite Hw. cbn [writer attempt_done queue]. destruct after; cbn; lia || done.
  - unfold attempt_failed. destruct (Nat.ltb_spec attempts 2).
    + split; [by split|]. unfold remaining. rewrite Hw. cbn. destruct after; [done|lia|lia].
    + split; [split; [by destruct after|done]|]. unfold remaining. rewrite Hw. cbn. destruct after; cbn; lia || done.
  - split; [by split|]. unfold remaining. rewrite Hw. cbn. lia.
Qed.

Lemma writer_progress c : stopping c -> writer c = Stopped \/ exists l c', writer_step opts c l c'.
Proof.
  intros [Hp _]. destruct (writer c) as [| |batch attempts after| |] eqn:Hw; [done| | | |by left]; right.
  - destruct (queue c) as [|e q] eqn:Hq; do 2 eexists; [by apply step_drained|apply step_drain; [done|by rewrite Hq]].
  - do 2 eexists. by apply (step_failed opts c batch attempts after (EText "database is locked")).
  - do 2 eexists. apply (step_finish opts c (health c) (stats_health c)); [done|by left|by right].
Qed.

Lemma continues_bound c n c' : stopping c -> continues c n c' -> stopping c' /\ (n + remaining c' <= remaining c)%nat.
Proof.
  intros Hst Hr. induction Hr as [|n c1 l c2 _ [IH Hb] Hs|n c1 l c2 _ [IH Hb] Hs]; [done| |].
  - destruct (client_stopping _ _ _ IH Hs) as [? ->]. done.
  - destruct (writer_stopping _ _ _ IH Hs). split; [done|lia].
Qed.
End drain.

(** ** The theorems *)

Section claims.
Context `{R : MapRange}.

(** C17: Nothing is lost silently. In every interleaving of request handlers, the
    maintenance loop, [Close] and the writer, and whatever the database answers,
    the events the queue accepted are, in the order they were accepted, those of
    the batches written or given up after three attempts, the batch being
    written, the pending ones and those in the queue; [Dropped] counts exactly
    the events refused and given up; the queue and the batches stay within their
    bounds; and when the writer has ended, everything accepted was written or
    given up. *)
Theorem collector_conserves (o : Options) (d0 : DB) (row0 : health_row) (failed : list goerr) (ls : list label) (c : Collector) :
  runs (normal_options o) (start d0 row0 failed) ls c ->
  all_accepted ls = all_settled ls ++ in_flight (writer c) ++ pending c ++ queue c /\
  Dropped (health c) = u64 (dropped row0 + lost ls) /\
  zlen (queue c) <= QueueSize (normal_options o) /\ zlen (pending c) < BatchSize (normal_options o) /\
  zlen (in_flight (writer c)) <= BatchSize (normal_options o) /\
  (writer c = Stopped -> all_accepted ls = all_settled ls).
Proof.
  intros Hr. destruct (normal_options_ok o) as (HQ & HB & _).
  assert (0 <= QueueSize (normal_options o)) as HQ0 by lia.
  destruct (runs_conserved _ _ _ _ _ _ HQ0 HB Hr) as [C1 C2 C3 C4 C5 C6 C7 C8].
  split_and!; try done. intros Hw. destruct C7 as [Hp Hq]; [by rewrite Hw|]. rewrite C1, Hw, Hp, Hq. cbn. by rewrite app_nil_r.
Qed.

(** The database behind the collector is at every moment the accounting of
    what was written: starting from an empty file, the totals of a day that the
    retention has not reached are those of the ledger of the snapshots in the
    batches that were written, in their order, and of the clean-ups between
    them; a batch that failed has left nothing behind. *)
Theorem collector_accounts (o : Options) (row0 : health_row) (failed : list goerr) (ls : list label) (c : Collector) (day q u : string) :
  runs (normal_options o) (start no_db row0 failed) ls c ->
  Forall good_op (all_operations ls) -> Forall (keeps_day (normal_options o) day) (all_operations ls) ->
  let L := ledger (normal_options o) (all_operations ls) in
  snapshot <$> job_checkpoints (db c) = live L /\
  (forall k, col (row_of (job_rollups (db c)) (day, q, u)) k = total (day, q, u) k (ledger_jobs L)) /\
  (forall s, default 0 (job_setting_rollups (db c) !! ((day, q, u), s)) = with_settings ((day, q, u), s) (ledger_jobs L)).
Proof.
  intros Hr Hg Hk L. destruct (normal_options_ok o) as (HQ & HB & _).
  assert (0 <= QueueSize (normal_options o)) as HQ0 by lia.
  pose proof (con_db _ _ _ _ _ (runs_conserved _ _ _ _ _ _ HQ0 HB Hr)) as ->.
  change (foldl (run_op (normal_options o)) no_db (all_operations ls)) with (run (normal_options o) (all_operations ls)).
  pose proof (run_totalled _ day _ Hg Hk) as [Ht Hs]. split_and!; [|intros k; apply Ht|intros s; apply Hs].
  symmetry. apply (mir_live _ _ (run_mirrors _ _ Hg)).
Qed.

(** C33: [Close] lets the writer end. Once the writer has seen the stop, it ends
    within a number of its own steps that the length of the queue bounds, even
    when every attempt of the database fails and requests keep recording; until
    then it is never stuck. *)
Theorem writer_drains (o : Options) (d0 : DB) (row0 : health_row) (failed : list goerr) (ls : list label) (c c' : Collector) (n : nat) :
  runs (normal_options o) (start d0 row0 failed) ls c -> past_stop (writer c) = true -> continues (normal_options o) c n c' ->
  (n <= remaining c)%nat /\ (writer c' = Stopped \/ exists l c'', writer_step (normal_options o) c' l c'').
Proof.
  intros Hr Hp Hc. destruct (normal_options_ok o) as (HQ & HB & _).
  assert (0 <= QueueSize (normal_options o)) as HQ0 by lia.
  assert (stopping c) as Hst by (split; [done|by apply (con_stop _ _ _ _ _ (runs_conserved _ _ _ _ _ _ HQ0 HB Hr))]).
  destruct (continues_bound _ _ _ _ Hst Hc) as [Hst' Hb]. split; [lia|by apply writer_progress].
Qed.
End claims.

(** ** An executable scheduler, and an example *)

Inductive move := Offer (e : event) | CloseIt | CleanIt (clock now : time) | TakeOne | Tick | SeeStop | Drain | Drained
| Succeed (clock : list time) (now : time) | FailIt (err : goerr) | End (now : time).

Section scheduler.
Context `{R : MapRange} (opts : Options).

(** The step a move stands for, where it is possible. *)
Definition play_move (m : move) (c : Collector) : option (label * Collector) :=
  match m, writer c with
  | Offer e, _ => Some (if accepts opts c then Accept e else Refuse e, enqueue opts e c)
  | CloseIt, _ => Some (Silent, set_closed c)
  | CleanIt clock now, w => match w with Stopped => None | _ => Some (Clean clock now, set_db (Cleanup opts clock now (db c)) c) end
  | TakeOne, Looping => match queue c with [] => None | _ => Some (Silent, take_event opts ToLoop c) end
  | Tick, Looping => Some (Silent, flush ToLoop c)
  | SeeStop, Looping => if closed c then Some (Silent, set_writer Draining (pending c) c) else None
  | Drain, Draining => match queue c with [] => None | _ => Some (Silent, take_event opts ToDrain c) end
  | Drained, Draining => match queue c with [] => Some (Silent, flush ToEnd c) | _ => None end
  | Succeed clock now, Writing batch _ after =>
      match persist_events opts clock batch (db c) with Ok d => Some (Write clock batch, attempt_done now d after c) | Err _ => None end
  | FailIt err, Writing batch attempts after =>
      Some (if (attempts <? 2)%nat then Silent else GiveUp batch, attempt_failed err batch attempts after c)
  | End now, Finishing =>
      Some (Silent, {| queue := queue c; closed := closed c; writer := Stopped; pending := pending c; health := health c;
                       savedHealth := savedHealth c; db := db c; stats_health := persistHealth now (health c) |})
  | _, _ => None
  end.

Lemma play_move_step m c l c' : play_move m c = Some (l, c') -> step opts c l c'.
Proof.
  unfold play_move. destruct m, (writer c) eqn:Hw; try done;
    repeat match goal with
    | |- context [match queue c with _ => _ end] => destruct (queue c) eqn:?
    | |- context [if closed c then _ else _] => destruct (closed c) eqn:?
    | |- context [match persist_events ?o ?k ?b ?d with _ => _ end] => destruct (persist_events o k b d) eqn:?
    end; try done; intros [= <- <-];
    first [apply by_client; constructor; congruence | apply by_writer; econstructor; (eassumption || congruence || eauto)].
Qed.

(** The moves that are not possible are left out. *)
Fixpoint play (moves : list move) (ls : list label) (c : Collector) : list label * Collector :=
  match moves with
  | [] => (ls, c)
  | m :: moves => match play_move m c with Some (l, c') => play moves (ls ++ [l]) c' | None => play moves ls c end
  end.

Lemma play_runs c0 moves : forall ls c, runs opts c0 ls c -> runs opts c0 (play moves ls c).1 (play moves ls c).2.
Proof.
  induction moves as [|m moves IH]; intros ls c Hr; [done|]. cbn. destruct (play_move m c) as [[l c']|] eqn:Hm; [|by apply IH].
  apply IH. eapply runs_step; [done|by apply play_move_step with m].
Qed.
End scheduler.

#[local] Instance map_order : MapRange := {| range A m := map_to_list m; range_perm A m := reflexivity _ |}.

Definition small_options : Options := {|
  Enabled := true; Path := ""; QueueSize := 1; BatchSize := 1; FlushInterval := 0; DetailRetention := 0; CPURetention := 0;
  RollupRetention := 0; Resources := true; CPU := false |}.
Definition locked : goerr := EText "database is locked".
Definition reserved : event := eventJob (alice_job true noon "reserved" "" None None).
Definition printed : event := eventJob (alice_job false (noon + 2) "mapped" "completed" (Some 2) (Some (noon + 2))).

(** The first record is written at the second attempt; a third record finds the
    queue full; after the stop the second record is written. *)
Definition some_moves : list move :=
  [Offer reserved; TakeOne; Offer printed; Offer printed; FailIt locked; Succeed [noon] noon; CloseIt; SeeStop].
Definition last_moves : list move := [Drain; FailIt locked; Offer printed; Succeed [noon] noon; Drained; Succeed [] noon; End noon].
Definition start_state : Collector := start no_db fresh_row [].
Definition played : list label * Collector := play (normal_options small_options) (some_moves ++ last_moves) [] start_state.

Lemma played_runs moves :
  runs (normal_options small_options) start_state (play (normal_options small_options) moves [] start_state).1
       (play (normal_options small_options) moves [] start_state).2.
Proof. apply play_runs. constructor. Qed.

Example collector_conserves_witness :
  let ls := played.1 in
  let c := played.2 in
  (all_accepted ls = all_settled ls ++ in_flight (writer c) ++ pending c ++ queue c /\
   Dropped (health c) = u64 (dropped fresh_row + lost ls) /\
   zlen (queue c) <= QueueSize (normal_options small_options) /\ zlen (pending c) < BatchSize (normal_options small_options) /\
   zlen (in_flight (writer c)) <= BatchSize (normal_options small_options) /\
   (writer c = Stopped -> all_accepted ls = all_settled ls)) /\
  writer c = Stopped /\ all_accepted ls = [reserved; printed] /\ Dropped (health c) = 2.
Proof.
  intros ls c. split; [|split; [|split]; vm_compute; reflexivity].
  exact (collector_conserves small_options no_db fresh_row [] ls c (played_runs _)).
Defined.

Example collector_accounts_witness :
  let ls := played.1 in
  let c := played.2 in
  let L := ledger (normal_options small_options) (all_operations ls) in
  (snapshot <$> job_checkpoints (db c) = live L /\
   (forall k, col (row_of (job_rollups (db c)) ("1999-09-04", "office", "alice")) k =
      total ("1999-09-04", "office", "alice") k (ledger_jobs L)) /\
   (forall s, default 0 (job_setting_rollups (db c) !! (("1999-09-04", "office", "alice"), s)) =
      with_settings (("1999-09-04", "office", "alice"), s) (ledger_jobs L))) /\
  col (row_of (job_rollups (db c)) ("1999-09-04", "office", "alice")) "completed_count" = 1.
Proof.
  intros ls c L. split; [|vm_compute; reflexivity].
  assert (all_operations ls = [Persisted noon (alice_job true noon "reserved" "" None None);
    Persisted noon (alice_job false (noon + 2) "mapped" "completed" (Some 2) (Some (noon + 2)))]) as Hops by (vm_compute; reflexivity).
  refine (collector_accounts small_options fresh_row [] ls c "1999-09-04" "office" "alice" (played_runs _) _ _).
  - rewrite Hops. good_ops.
  - rewrite Hops. repeat (constructor; [by left|]). constructor.
Defined.

Lemma played_continues moves : forall ls c n c', continues (normal_options small_options) c n c' ->
  exists k, continues (normal_options small_options) c k (play (normal_options small_options) moves ls c').2.
Proof.
  induction moves as [|m moves IH]; intros ls c n c' Hc; [by exists n|]. cbn.
  destruct (play_move _ m c') as [[l c1]|] eqn:Hm; [|by eapply IH].
  destruct (play_move_step _ _ _ _ _ Hm) as [Hs|Hs]; eapply IH; [by eapply continues_client|by eapply continues_writer].
Qed.

Example writer_drains_witness :
  let r := play (normal_options small_options) some_moves [] start_state in
  let c' := (play (normal_options small_options) last_moves [] r.2).2 in
  past_stop (writer r.2) = true /\ length (queue r.2) = 1%nat /\ writer c' = Stopped /\
  exists n, (n <= remaining r.2)%nat /\ (writer c' = Stopped \/ exists l c'', writer_step (normal_options small_options) c' l c'').
Proof.
  intros r c'. assert (past_stop (writer r.2) = true) as Hp by (vm_compute; reflexivity).
  split; [exact Hp|]. split; [vm_compute; reflexivity|]. split; [vm_compute; reflexivity|].
  destruct (played_continues last_moves [] r.2 0 r.2 (continues_refl _ _)) as [n Hn]. exists n.
  apply (writer_drains small_options no_db fresh_row [] r.1 r.2 c' n (played_runs _) Hp Hn).
Defined.
