(* ===== verification/ProxyStatistics.v ===== *)
(** * What requests report to the statistics ([internal/proxy/statistics.go])

    The snapshot of a stored job with what a response of the printer says about
    it, the gauges of the requests in progress, and the edits of the span of a
    request. The collector is [Collector.v]; a snapshot is what [ObserveJob] is
    given. A registry that fails is one that does not have the job. *)

From Stdlib Require Import ZArith Lia Ascii String.
From stdpp Require Import base tactics list strings gmap.
From S2P Require Import Prelude GoString GoError GoTime Goipp IppAttrs Messages Store.
From S2P Require Import Accounting Spans.

Section statistics.
Context `{G : GoippLib}.

(** ** Snapshots *)

Definition text_attr (attrs : Attributes) (name : string) : string := default "" (FirstString attrs name).

(** The primary cancellation state records that a request was accepted, not what
    the printer has done; only a response sets [ObservedState]. *)
Definition statsJob (now : time) (j : Store.Job) (registry : string) : Job := {|
  Register := false; RegistryID := registry; JobID := ProxyJobID j; Queue := Store.Queue (names j); User := RequestingUser (names j);
  CreatedAt := Store.CreatedAt (times j); UpdatedAt := now; ProcessingAt := None;
  TerminalAt := if (Store.State (life j) =? StateFailed)%string then Store.TerminalAt (times j) else None;
  State := Store.State (life j); ObservedState := ""; StateReasons := ""; Accepted := HasUpstreamJobID j || HasUpstreamJobURI j;
  CancelAccepted := false;
  measures := {|
    DocumentCount := Store.DocumentCount (payload j); Copies := Store.Copies (payload j); PayloadBytes := Store.PayloadBytes (payload j);
    PageCount := Store.PageCount (payload j); EstimatedImpressions := Store.EstimatedImpressions (payload j);
    CompletedImpressions := None; CompletedSheets := None |};
  settings := {|
    DocumentFormat := Store.DocumentFormat j; UpstreamFormat := UpstreamDocumentFormat j; Route := RouteKind (routeFields j);
    RequestedColor := ""; EffectiveColor := ""; RequestedSides := ""; EffectiveSides := ""; RequestedMedia := ""; EffectiveMedia := "" |} |}.

(** The settings of a submission, where the job is new. *)
Definition submitted (j : Store.Job) (requested effective : Attributes) (s : Settings) : Settings :=
  let media := text_attr effective "media" in
  let sides := text_attr effective "sides" in
  {| DocumentFormat := DocumentFormat s; UpstreamFormat := UpstreamFormat s; Route := Route s;
     RequestedColor := text_attr requested "print-color-mode"; EffectiveColor := text_attr effective "print-color-mode";
     RequestedSides := text_attr requested "sides";
     EffectiveSides := if (sides =? "")%string then RouteSides (routeFields j) else sides;
     RequestedMedia := text_attr requested "media";
     EffectiveMedia := if (media =? "")%string then RouteMediaName (routeFields j) else media |}.

Definition registered (settings : Settings) (x : Job) : Job := {|
  Register := true; RegistryID := RegistryID x; JobID := JobID x; Queue := Queue x; User := User x; CreatedAt := CreatedAt x;
  UpdatedAt := UpdatedAt x; ProcessingAt := ProcessingAt x; TerminalAt := TerminalAt x; State := State x;
  ObservedState := ObservedState x; StateReasons := StateReasons x; Accepted := Accepted x; CancelAccepted := CancelAccepted x;
  measures := measures x; settings := settings |}.

Definition statsSnapshot (enabled : bool) (now : time) (registry queue : string) (id : Z) (register : bool)
    (requested effective : Attributes) (st : Store.Store) : option Job :=
  if enabled then
    match fst (GetByProxyID [AString queue; AInt KInt id] st) with
    | Done j => let x := statsJob now j registry in
                Some (if register then registered (submitted j requested effective (settings x)) x else x)
    | _ => None
    end
  else None.

(** ** What a response says *)

Definition observed_state (n : Z) : string :=
  if n =? 3 then "pending" else if n =? 4 then "pending-held" else if n =? 5 then "processing"
  else if n =? 6 then "processing-stopped" else if n =? 7 then "canceled" else if n =? 8 then "aborted"
  else if n =? 9 then "completed" else "".

(** A count of a response, which is not taken when it is negative. *)
Definition counted (attrs : Attributes) (name : string) (old : option Z) : option Z :=
  match FirstInt attrs name with Some n => if 0 <=? n then Some n else old | None => old end.

Definition applyStatsObservation (now : time) (attrs : Attributes) (x : Job) : Job :=
  let n := FirstInt attrs "job-state" in
  {| Register := Register x; RegistryID := RegistryID x; JobID := JobID x; Queue := Queue x; User := User x; CreatedAt := CreatedAt x;
     UpdatedAt := UpdatedAt x;
     ProcessingAt := match n with Some n => if ((n =? 5) || (n =? 6))%bool then Some now else ProcessingAt x | None => ProcessingAt x end;
     TerminalAt := match n with Some n => if ((7 <=? n) && (n <=? 9))%bool then Some now else TerminalAt x | None => TerminalAt x end;
     State := State x;
     ObservedState := match n with Some n => observed_state n | None => ObservedState x end;
     StateReasons := match FirstString attrs "job-state-reasons" with Some reason => reason | None => StateReasons x end;
     Accepted := Accepted x; CancelAccepted := CancelAccepted x;
     measures := {|
       DocumentCount := DocumentCount (measures x); Copies := Copies (measures x); PayloadBytes := PayloadBytes (measures x);
       PageCount := PageCount (measures x); EstimatedImpressions := EstimatedImpressions (measures x);
       CompletedImpressions := counted attrs "job-impressions-completed" (CompletedImpressions (measures x));
       CompletedSheets := counted attrs "job-media-sheets-completed" (CompletedSheets (measures x)) |};
     settings := settings x |}.

Definition with_acceptance (accepted cancelAccepted : bool) (x : Job) : Job := {|
  Register := Register x; RegistryID := RegistryID x; JobID := JobID x; Queue := Queue x; User := User x; CreatedAt := CreatedAt x;
  UpdatedAt := UpdatedAt x; ProcessingAt := ProcessingAt x; TerminalAt := TerminalAt x; State := State x;
  ObservedState := ObservedState x; StateReasons := StateReasons x; Accepted := Accepted x || accepted; CancelAccepted := cancelAccepted;
  measures := measures x; settings := settings x |}.

(** ** The reports of the handlers *)

(** A report at the time [now] of the clock, and [later] for the time the
    response is looked at. *)
Inductive report :=
| Registered (now : time) (requested effective : Attributes)
| Stored (now : time)
| Responded (now later : time) (attrs : Attributes) (accepted cancelAccepted : bool).

(** [statsRegister], [statsStored] and [statsResponse]: what [ObserveJob] gets. *)
Definition statsRegister (enabled : bool) (now : time) (registry queue : string) (id : Z) (requested effective : Attributes)
    (st : Store.Store) : option Job :=
  statsSnapshot enabled now registry queue id true requested effective st.
Definition statsStored (enabled : bool) (now : time) (registry queue : string) (id : Z) (st : Store.Store) : option Job :=
  statsSnapshot enabled now registry queue id false [] [] st.
Definition statsResponse (enabled : bool) (now later : time) (registry queue : string) (id : Z) (attrs : Attributes)
    (accepted cancelAccepted : bool) (st : Store.Store) : option Job :=
  x ← statsSnapshot enabled now registry queue id false [] [] st;
  Some (applyStatsObservation later attrs (with_acceptance accepted cancelAccepted x)).

Definition snapshot_of (enabled : bool) (registry queue : string) (id : Z) (r : report) (st : Store.Store) : option Job :=
  match r with
  | Registered now requested effective => statsRegister enabled now registry queue id requested effective st
  | Stored now => statsStored enabled now registry queue id st
  | Responded now later attrs accepted cancelAccepted => statsResponse enabled now later registry queue id attrs accepted cancelAccepted st
  end.

(** ** The span of a request *)

(** [statsRegister] names the job in the span of the request. *)
Definition registered_edits (registry : string) (id : Z) (x : Job) : list edit := [SetJob registry id; SetOwner (User x)].
Definition WriteHeader (n : Z) : list edit := SetHTTPStatus n :: if 400 <=? n then [SetOutcome "rejected"] else [].
Definition response_Write (failed : bool) : list edit := if failed then [SetOutcome "error"; SetReason "response-write"] else [].
Definition recordIPP (m : Response) : list edit :=
  [SetIPPStatus (resCode m); SetReason (status_String (resCode m)); SetOutcome (if ippSuccess m then "success" else "rejected")].
Definition statisticsReader_Read (upstream : bool) (n : Z) : list edit := if upstream then [AddUpstreamBytes n] else [AddClientBytes n].

Definition outcomeForError (err : option goerr) : string := match err with Some _ => "error" | None => "success" end.
Definition statisticsReason (err : option goerr) : string :=
  match err with
  | None => ""
  | Some err => if Contains (Error_text err) "context" then "context-ended" else "operation-failed"
  end.
End statistics.

(** ** The requests in progress *)

Record Gauges := { statsActive : Z; statsUsers : gmap string Z }.
Definition no_requests : Gauges := {| statsActive := 0; statsUsers := ∅ |}.

(** [statsRequest], its span begun; the second result is what [SetConcurrency] gets. *)
Definition statsRequest (g : Gauges) : Gauges * Z :=
  let n := i64 (statsActive g + 1) in ({| statsActive := n; statsUsers := statsUsers g |}, n).
Definition request_ended (g : Gauges) : Gauges := {| statsActive := i64 (statsActive g - 1); statsUsers := statsUsers g |}.

(** [statsUser] with its result; what [SetUserConcurrency] gets, and the function it returns. *)
Definition statsUser (user : string) (g : Gauges) : Gauges * Z :=
  let n := i64 (default 0 (statsUsers g !! user) + 1) in
  ({| statsActive := statsActive g; statsUsers := <[user := n]> (statsUsers g) |}, n).
Definition user_ended (user : string) (g : Gauges) : Gauges :=
  let n := i64 (default 0 (statsUsers g !! user) - 1) in
  {| statsActive := statsActive g; statsUsers := if n =? 0 then delete user (statsUsers g) else <[user := n]> (statsUsers g) |}.
