(* ===== verification/ProxyStatisticsTheorems.v ===== *)
(** * Theorems about what requests report

    The snapshots of the service are snapshots the accounting is about; the
    outcome the statistics show for a job is the first final state the printer
    has reported, and without one what the registry says; the gauges count the
    requests in progress. *)

From Stdlib Require Import ZArith Lia Ascii String Sorting.Sorted.
From stdpp Require Import base tactics list strings gmap.
From S2P Require Import Configuration.
From S2P Require Import Prelude GoString GoError GoTime Goipp IppAttrs Messages Store.
From S2P Require Import Sums Accounting AccountingProofs AccountingTheorems Spans ProxyStatistics.

(** ** Snapshots are observed jobs *)

(** A job the registry can hold: its texts are valid UTF-8, its counts are not
    negative and fit 64 bits, and its times are within the years JSON can say. *)
Record stored_well (j : Store.Job) : Prop := {
  sw_texts : Forall plain [Store.Queue (names j); RequestingUser (names j); Store.State (life j); Store.DocumentFormat j;
                           UpstreamDocumentFormat j; RouteKind (routeFields j); RouteSides (routeFields j); RouteMediaName (routeFields j)];
  sw_counts : 0 <= Store.DocumentCount (payload j) <= maxI64 /\ 0 <= Store.Copies (payload j) <= maxI64 /\
              0 <= Store.PayloadBytes (payload j) <= maxI64 /\ fact_fits (Store.PageCount (payload j)) /\
              fact_fits (Store.EstimatedImpressions (payload j));
  sw_created : Store.CreatedAt (times j) <> 0 /\ json_time (Store.CreatedAt (times j)) = true;
  sw_terminal : forallb json_time (option_list (Store.TerminalAt (times j))) = true
}.

Section snapshots.
Context `{G : GoippLib}.

(** Attributes as they are decoded: texts in UTF-8, integers of 32 bits. *)
Record attrs_well (attrs : Attributes) : Prop := {
  aw_texts : forall name s, FirstString attrs name = Some s -> plain s;
  aw_ints : forall name n, FirstInt attrs name = Some n -> n <= maxI32
}.
Definition report_well (r : report) : Prop :=
  match r with
  | Registered now requested effective => json_time now = true /\ attrs_well requested /\ attrs_well effective
  | Stored now => json_time now = true
  | Responded now later attrs _ _ => json_time now = true /\ json_time later = true /\ attrs_well attrs
  end.

Lemma plain_text_attr attrs name : attrs_well attrs -> plain (text_attr attrs name).
Proof. intros [Ht _]. unfold text_attr. destruct (FirstString attrs name) eqn:E; [by eapply Ht|done]. Qed.

Lemma plain_observed n : plain (observed_state n).
Proof. unfold observed_state. repeat case_match; vm_compute; reflexivity. Qed.

Lemma counted_fits attrs name old : attrs_well attrs -> fact_fits old -> fact_fits (counted attrs name old).
Proof.
  intros [_ Hi] Ho. unfold counted. destruct (FirstInt attrs name) as [n|] eqn:E; [|done]. apply Hi in E.
  destruct (0 <=? n); [|done]. cbn. unfold maxI32, maxI64 in *. lia.
Qed.

Lemma json_times_iff j : json_times j = true <->
  json_time (CreatedAt j) = true /\ json_time (UpdatedAt j) = true /\ forallb json_time (option_list (ProcessingAt j)) = true /\
  forallb json_time (option_list (TerminalAt j)) = true.
Proof. unfold json_times. rewrite !andb_true_iff. tauto. Qed.

Lemma statsJob_observed now j registry : stored_well j -> plain registry -> json_time now = true -> observed_job (statsJob now j registry).
Proof.
  intros [Ht (? & ? & ? & ? & ?) [Hc Hcj] Hterm] Hr Hn. unfold observed_job, statsJob. cbn. split_and!; try done.
  - unfold json_times. cbn. rewrite Hcj, Hn. cbn. by destruct (_ =? StateFailed)%string.
  - unfold texts_plain, settings_plain, setting_list. cbn. split; each_text; try done; vm_compute; reflexivity.
Qed.

Lemma registered_observed j requested effective x : stored_well j -> attrs_well requested -> attrs_well effective ->
  observed_job x -> observed_job (registered (submitted j requested effective (settings x)) x).
Proof.
  intros [Hj _ _ _] Hq He (Hc & Ht & [Hp Hs] & Hm). split_and!; try done. unfold texts_plain, settings_plain, setting_list in *. cbn in *.
  split; each_text; try done; try (by apply plain_text_attr); destruct (_ =? "")%string; try done; by apply plain_text_attr.
Qed.

Lemma response_observed later attrs accepted cancel x : attrs_well attrs -> json_time later = true -> observed_job x ->
  observed_job (applyStatsObservation later attrs (with_acceptance accepted cancel x)).
Proof.
  intros Ha Hl (Hc & (Ht1 & Ht2 & Ht3 & Ht4)%json_times_iff & [Hp Hs] & (? & ? & ? & ? & ?)).
  assert (forallb json_time (option_list (Some later)) = true) as Hl' by (cbn; by rewrite Hl).
  unfold observed_job, applyStatsObservation, with_acceptance. cbn. split_and!; try done.
  - apply json_times_iff. cbn [CreatedAt UpdatedAt ProcessingAt TerminalAt]. split_and!; try done.
    + destruct (FirstInt attrs "job-state") as [n|]; [|done]. by destruct ((n =? 5) || (n =? 6))%bool.
    + destruct (FirstInt attrs "job-state") as [n|]; [|done]. by destruct ((7 <=? n) && (n <=? 9))%bool.
  - split; [|done]. each_text; cbn; try done.
    + destruct (FirstInt attrs "job-state"); [apply plain_observed|done].
    + destruct (FirstString attrs _) eqn:E; [|done]. by eapply aw_texts.
  - unfold measures_fit. cbn. split; [done|]. split_and!; try done; by apply counted_fits.
Qed.

(** What the service hands to the collector is a snapshot as the accounting
    takes them to be. *)
Lemma snapshot_observed registry queue id r st x :
  (forall j, fst (GetByProxyID [AString queue; AInt KInt id] st) = Done j -> stored_well j) -> plain registry -> report_well r ->
  snapshot_of true registry queue id r st = Some x -> observed_job x.
Proof.
  intros Hst Hr Hw. unfold snapshot_of, statsRegister, statsStored, statsResponse, statsSnapshot.
  destruct (fst (GetByProxyID _ st)) as [j| | |]; [|by destruct r..]. specialize (Hst j eq_refl).
  destruct r as [now requested effective|now|now later attrs accepted cancel]; cbn in Hw |- *; intros [= <-].
  - destruct Hw as (Hn & Hq & He). apply registered_observed; try done. by apply statsJob_observed.
  - by apply statsJob_observed.
  - destruct Hw as (Hn & Hl & Ha). apply response_observed; try done. by apply statsJob_observed.
Qed.
End snapshots.

(** ** The snapshots of one job *)

Definition snapshots_of (id : string * Z) (ops : list operation) : list Job :=
  omap (fun op => match op with Persisted _ j => if decide ((RegistryID j, JobID j) = id) then Some j else None | _ => None end) ops.

Definition merge_into (old : option Job) (next : Job) : option Job :=
  match old with
  | None => if Register next then Some (clean next) else None
  | Some old => Some (clean (mergeJob old next))
  end.
Definition merged (l : list Job) : option Job := foldl merge_into None l.

(** What the statistics keep of a job is what its own snapshots say, whatever is
    recorded in between. *)
Lemma live_merged opts ops id : id.1 <> "" -> 1 <= id.2 -> Forall (fun op => is_cleanup op = false) ops ->
  live (ledger opts ops) !! id = merged (snapshots_of id ops).
Proof.
  intros Hr Hj. induction ops as [|op ops IH] using rev_ind; [done|]. rewrite Forall_app, Forall_singleton, ledger_snoc. intros [Hn Hop].
  specialize (IH Hn). unfold snapshots_of in *. rewrite omap_app. destruct op as [now next|now a|]; [| |done]; cbn [ledger_op omap list_omap].
  - unfold observe. case_decide as Hid.
    + subst id. cbn in Hr, Hj. rewrite (proj2 (String.eqb_neq _ _) Hr), (proj2 (Z.ltb_ge _ _) Hj). cbn [orb].
      unfold merged in *. rewrite foldl_snoc, <- IH. destruct (live _ !! _) eqn:E; cbn [merge_into live]; [by rewrite lookup_insert_eq|].
      destruct (Register next); [cbn; by rewrite lookup_insert_eq|done].
    + rewrite app_nil_r, <- IH. destruct (_ || _)%bool; [done|]. destruct (live _ !! (_, _)); [|destruct (Register next)]; cbn; try done;
        by rewrite lookup_insert_ne.
  - by rewrite app_nil_r.
Qed.

(** The clock of the observations does not go back. *)
Definition in_order (l : list Job) : Prop := Sorted (fun a b => UpdatedAt a <= UpdatedAt b) l.

Lemma in_order_snoc l next : in_order (l ++ [next]) -> in_order l /\ forall x, last l = Some x -> UpdatedAt x <= UpdatedAt next.
Proof.
  unfold in_order. induction l as [|a l IH]; [by split; [constructor|]|]. cbn [app]. intros Hs. apply Sorted_inv in Hs as [Hs Hd].
  destruct (IH Hs) as [Hl Hx]. destruct l as [|b l]; cbn in Hd |- *.
  - split; [by repeat constructor|]. intros x [= <-]. by inversion Hd.
  - split; [|exact Hx]. constructor; [done|]. constructor. by inversion Hd.
Qed.

(** The last known text. *)
Definition latest (l : list string) : string := foldl (fun old s => if (s =? "")%string then old else s) "" l.
Definition first_final (l : list Job) : option string := List.find terminalOutcome (map ObservedState l).

(** What the registry says of a job no printer has reported as ended. *)
Definition registry_outcome (l : list Job) : string :=
  let s := latest (map State l) in
  if ((s =? "failed") || (s =? "rejected"))%string then if existsb Accepted l then "failed" else "rejected" else "unresolved".

Record merged_of (l : list Job) (j : Job) : Prop := {
  mo_state : State j = latest (map State l);
  mo_accepted : Accepted j = existsb Accepted l;
  mo_updated : exists x, last l = Some x /\ UpdatedAt j = UpdatedAt x;
  mo_final : forall s, first_final l = Some s -> ObservedState j = s;
  mo_open : first_final l = None -> terminalOutcome (ObservedState j) = false
}.

Lemma find_snoc {A} (p : A -> bool) l x :
  List.find p (l ++ [x]) = match List.find p l with Some a => Some a | None => if p x then Some x else None end.
Proof. induction l as [|a l IH]; cbn; [by destruct (p x)|]. by destruct (p a). Qed.

Lemma find_true {A} (p : A -> bool) l x : List.find p l = Some x -> p x = true.
Proof. induction l as [|a l IH]; cbn; [done|]. destruct (p a) eqn:E; [by intros [= <-]|done]. Qed.

Lemma map_snoc {A B} (f : A -> B) l x : map f (l ++ [x]) = map f l ++ [f x].
Proof. by rewrite map_app. Qed.

Lemma merged_snoc l j next : merged_of l j -> (forall x, last l = Some x -> UpdatedAt x <= UpdatedAt next) ->
  merged_of (l ++ [next]) (clean (mergeJob j next)).
Proof.
  intros [Hs Ha (x & Hx & Hu) Hf Ho] Hle. specialize (Hle x Hx). rewrite <- Hu in Hle.
  unfold clean, mergeJob. rewrite (proj2 (Z.ltb_ge _ _) Hle). cbn [negb].
  split; cbn [State Accepted UpdatedAt ObservedState].
  - unfold latest in *. rewrite map_snoc, foldl_snoc, Hs. by destruct (State next =? "")%string eqn:E.
  - rewrite existsb_app, Ha. cbn. by rewrite orb_false_r.
  - exists next. by rewrite last_snoc.
  - intros s. unfold first_final in *. rewrite map_snoc, find_snoc. destruct (List.find _ (map ObservedState l)) as [s'|] eqn:E.
    + intros [= <-]. rewrite (Hf s' eq_refl). apply find_true in E. rewrite E, orb_true_r. done.
    + rewrite (Ho eq_refl), orb_false_r. cbn [negb orb]. rewrite orb_false_r. destruct (terminalOutcome (ObservedState next)) eqn:Ht; [|done].
      intros [= <-]. destruct (String.eqb_spec (ObservedState next) "") as [Hnil|]; [by rewrite Hnil in Ht|done].
  - unfold first_final in *. rewrite map_snoc, find_snoc. destruct (List.find _ (map ObservedState l)); [done|].
    rewrite (Ho eq_refl), orb_false_r. cbn [negb orb]. rewrite orb_false_r. destruct (terminalOutcome (ObservedState next)) eqn:Ht; [done|]. intros _.
    destruct (ObservedState next =? "")%string; [by apply Ho|done].
Qed.

Lemma merged_spec first rest : Register first = true -> in_order (first :: rest) ->
  exists j, merged (first :: rest) = Some j /\ merged_of (first :: rest) j.
Proof.
  intros Hreg. induction rest as [|next rest IH] using rev_ind; intros Ho.
  - exists (clean first). unfold merged. cbn. rewrite Hreg. split; [done|]. split.
    + unfold latest. cbn. by destruct (State first =? "")%string eqn:E; [apply String.eqb_eq in E|].
    + cbn. by rewrite orb_false_r.
    + by exists first.
    + intros s. unfold first_final. cbn [map List.find]. destruct (terminalOutcome (ObservedState first)); [by intros [= <-]|done].
    + unfold first_final. cbn [map List.find]. change (ObservedState (clean first)) with (ObservedState first).
      by destruct (terminalOutcome (ObservedState first)).
  - change (first :: rest ++ [next]) with ((first :: rest) ++ [next]) in *. apply in_order_snoc in Ho as [Ho Hx].
    destruct (IH Ho) as (j & Hj & Hm). exists (clean (mergeJob j next)). split; [|by apply merged_snoc].
    unfold merged in *. by rewrite foldl_snoc, Hj.
Qed.

(** ** The reports of the service *)

Section outcomes.
Context `{G : GoippLib} `{R : MapRange} (opts : Options).

(** What a report says of the state at the printer. *)
Definition told (r : report) : string :=
  match r with
  | Responded _ _ attrs _ _ => match FirstInt attrs "job-state" with Some n => observed_state n | None => "" end
  | _ => ""
  end.
Definition is_registration (r : report) : bool := match r with Registered _ _ _ => true | _ => false end.
(** A report, and the registry at that moment. *)
Definition reported (registry queue : string) (id : Z) (r : report * Store.Store) (x : Job) : Prop :=
  snapshot_of true registry queue id r.1 r.2 = Some x.

Lemma reported_says registry queue id r x : reported registry queue id r x ->
  ObservedState x = told r.1 /\ Register x = is_registration r.1.
Proof.
  unfold reported, snapshot_of, statsRegister, statsStored, statsResponse, statsSnapshot. destruct r as [r st]. cbn [fst snd].
  destruct (fst (GetByProxyID _ st)) as [j| | |]; [|by destruct r..]. by destruct r; intros [= <-].
Qed.

Lemma reported_final registry queue id rs l : Forall2 (reported registry queue id) rs l ->
  first_final l = List.find terminalOutcome (map (fun r => told r.1) rs).
Proof.
  unfold first_final. induction 1 as [|r x rs l Hr _ IH]; [done|]. cbn [map List.find]. by rewrite (proj1 (reported_says _ _ _ _ _ Hr)), IH.
Qed.

(** C37: The printer decides the outcome of a job. While nothing is cleaned up and
    the clock does not go back, the outcome the statistics keep of a job that was
    registered is the first final state (completed, canceled or aborted) a
    response has given for it; as long as there is none it is failed or rejected
    when the registry says so, by whether a printer ever accepted the job, and
    otherwise unresolved. What is recorded of other jobs, and whether a
    cancellation was accepted, does not matter. *)
Theorem printer_decides_outcome (ops : list operation) (registry queue : string) (id : Z) (r : report * Store.Store)
    (rs : list (report * Store.Store)) :
  Forall good_op ops -> Forall (fun op => is_cleanup op = false) ops -> registry <> "" -> 1 <= id ->
  let snapshots := snapshots_of (registry, id) ops in
  Forall2 (reported registry queue id) (r :: rs) snapshots -> is_registration r.1 = true -> in_order snapshots ->
  exists c, job_checkpoints (run opts ops) !! (registry, id) = Some c /\
    jobOutcome (snapshot c) = match List.find terminalOutcome (map (fun r => told r.1) (r :: rs)) with
                              | Some s => s
                              | None => registry_outcome snapshots
                              end /\
    unresolved c = bool_decide (jobOutcome (snapshot c) = "unresolved").
Proof.
  intros Hg Hn Hr Hj snapshots Hreps Hreg Ho. pose proof (run_mirrors opts ops Hg) as [Hlive Hrows _ _].
  pose proof (live_merged opts ops (registry, id) Hr Hj Hn) as Hm. rewrite <- (reported_final _ _ _ _ _ Hreps). fold snapshots in Hm.
  destruct snapshots as [|first rest]; [by apply Forall2_cons_nil_inv in Hreps|].
  pose proof (Forall2_cons_1 _ _ _ _ _ Hreps) as [Hfirst _]. apply reported_says in Hfirst as [_ Hfirst].
  destruct (merged_spec first rest) as (j & Hj' & [Hst Hacc _ Hf Hopen]); [by rewrite Hfirst|done|]. rewrite Hj' in Hm.
  rewrite Hlive, lookup_fmap in Hm. destruct (job_checkpoints (run opts ops) !! (registry, id)) as [c|] eqn:Hc; [|done].
  injection Hm as Hm. exists c. split; [done|]. split.
  - unfold jobOutcome. rewrite Hm. destruct (first_final (first :: rest)) as [s|] eqn:E.
    + rewrite (Hf s eq_refl). unfold first_final in E. apply find_true in E. by rewrite E.
    + rewrite (Hopen eq_refl). unfold registry_outcome. rewrite Hst, Hacc. by destruct (existsb Accepted _).
  - rewrite (proj1 (Hrows _ c Hc)). by destruct (String.eqb_spec (jobOutcome (snapshot c)) "unresolved"); case_bool_decide.
Qed.
End outcomes.

(** ** The gauges *)

(** The requests in progress: how many spans are begun, and the users of those
    that are past [statsUser]. *)
Record InProgress := { begun_requests : Z; users : list string }.

Inductive gauge_step : Gauges * InProgress -> Gauges * InProgress -> Prop :=
| gauge_begin g p : begun_requests p < maxI64 ->
    gauge_step (g, p) ((statsRequest g).1, {| begun_requests := begun_requests p + 1; users := users p |})
| gauge_user g p u : zlen (users p) < maxI64 ->
    gauge_step (g, p) ((statsUser u g).1, {| begun_requests := begun_requests p; users := u :: users p |})
| gauge_user_end g p u l l' : users p = l ++ u :: l' ->
    gauge_step (g, p) (user_ended u g, {| begun_requests := begun_requests p; users := l ++ l' |})
| gauge_end g p : 0 < begun_requests p ->
    gauge_step (g, p) (request_ended g, {| begun_requests := begun_requests p - 1; users := users p |}).

Inductive gauge_reach : Gauges * InProgress -> Prop :=
| gauge_start : gauge_reach (no_requests, {| begun_requests := 0; users := [] |})
| gauge_next s s' : gauge_reach s -> gauge_step s s' -> gauge_reach s'.

Definition requests_of (u : string) (p : InProgress) : Z := zlen (filter (fun v => v = u) (users p)).

Record gauged (g : Gauges) (p : InProgress) : Prop := {
  gd_active : statsActive g = begun_requests p;
  gd_begun : 0 <= begun_requests p <= maxI64;
  gd_length : zlen (users p) <= maxI64;
  gd_users : forall u, statsUsers g !! u = if requests_of u p =? 0 then None else Some (requests_of u p)
}.

Lemma requests_bound u p : 0 <= requests_of u p <= zlen (users p).
Proof. unfold requests_of, zlen. pose proof (length_filter (fun v => v = u) (users p)). lia. Qed.

Lemma gauged_default g p u : gauged g p -> default 0 (statsUsers g !! u) = requests_of u p.
Proof. intros [_ _ _ Hu]. rewrite Hu. by destruct (Z.eqb_spec (requests_of u p) 0) as [->|]. Qed.

Lemma i64_count n : 0 <= n <= maxI64 -> i64 n = n.
Proof. intros. apply i64_small. unfold minI64, maxI64 in *. lia. Qed.

Lemma gauge_step_gauged g p g' p' : gauged g p -> gauge_step (g, p) (g', p') -> gauged g' p'.
Proof.
  intros HG Hs. pose proof HG as [Ha Hb Hl Hu]. inversion Hs as [? ? Hlt|? ? u Hlt|? ? u l l' Hp|? ? Hlt]; subst; clear Hs.
  - split; cbn; [by rewrite Ha, i64_count by lia|lia|done|done].
  - pose proof (requests_bound u p) as Hr. split; cbn; [done|done|autorewrite with gosimp; lia|]. intros v.
    rewrite (gauged_default _ _ _ HG), i64_count by lia. unfold requests_of in *. cbn [users]. rewrite filter_cons. rewrite lookup_insert.
    case_decide as Huv; [|done]. subst v. rewrite zlen_cons, (proj2 (Z.eqb_neq _ 0)) by lia. f_equal. lia.
  - pose proof (requests_bound u p) as Hr.
    assert (forall v, requests_of v p = requests_of v {| begun_requests := begun_requests p; users := l ++ l' |} + if decide (u = v) then 1 else 0) as Hc.
    { intros v. unfold requests_of, zlen. rewrite Hp. cbn [users]. rewrite !filter_app, filter_cons, !length_app.
      case_decide; cbn [length]; lia. }
    split; cbn [user_ended statsActive statsUsers begun_requests users]; [done|done| |].
    + rewrite Hp in Hl. unfold zlen in *. rewrite length_app in *. cbn in Hl. lia.
    + intros v. rewrite (gauged_default _ _ _ HG). pose proof (Hc u) as Hcu. rewrite decide_True in Hcu by done.
      pose proof (requests_bound u {| begun_requests := begun_requests p; users := l ++ l' |}). rewrite i64_count by lia.
      specialize (Hc v). specialize (Hu v). destruct (decide (u = v)) as [<-|Hne].
      * destruct (Z.eqb_spec (requests_of u p - 1) 0) as [E|E]; [rewrite lookup_delete_eq|rewrite lookup_insert_eq];
          destruct (Z.eqb_spec (requests_of u {| begun_requests := begun_requests p; users := l ++ l' |}) 0); try (f_equal; lia); lia.
      * rewrite Z.add_0_r in Hc. rewrite <- Hc.
        destruct (requests_of u p - 1 =? 0); [by rewrite lookup_delete_ne|by rewrite lookup_insert_ne].
  - split; cbn; [by rewrite Ha, i64_count by lia|lia|done|done].
Qed.

(** The gauges are exact in every interleaving, and no user is kept without a
    request; a request is told its own place among them. *)
Theorem gauges_exact (g : Gauges) (p : InProgress) :
  gauge_reach (g, p) ->
  statsActive g = begun_requests p /\
  (forall u, statsUsers g !! u = if requests_of u p =? 0 then None else Some (requests_of u p)) /\
  (forall u, zlen (users p) < maxI64 -> (statsUser u g).2 = requests_of u p + 1).
Proof.
  intros Hr. assert (gauged g p) as HG.
  { remember (g, p) as s eqn:Hs. revert g p Hs. induction Hr as [|[g0 p0] s' _ IH Hstep]; intros g p Hs.
    - injection Hs as <- <-. split; cbn; [done|unfold maxI64; lia|unfold zlen, maxI64; cbn; lia|done].
    - subst s'. eapply gauge_step_gauged; [by apply IH|done]. }
  pose proof HG as [Ha Hb Hl Hu]. split_and!; [done|done|]. intros u Hlt. cbn. rewrite (gauged_default _ _ _ HG).
  pose proof (requests_bound u p). apply i64_count. lia.
Qed.

(** ** An example: a job is printed, canceled by its user, and canceled *)

#[local] Existing Instance goipp_example.
#[local] Instance visited : MapRange := {| range A m := map_to_list m; range_perm A m := reflexivity _ |}.

Definition reserved_store : Store.Store := snd (Reserve noon [AString "office"; AString "alice"] emptyStore).
Definition job_state (n : Z) : Attributes := [("job-state", [(TagEnum, VInteger n)])].
Definition some_reports : list (report * Store.Store) :=
  [(Registered noon [] [], reserved_store); (Responded (noon + 1) (noon + 1) (job_state 5) true false, reserved_store);
   (Responded (noon + 2) (noon + 2) (job_state 5) true true, reserved_store); (Stored (noon + 3), reserved_store)].
Definition last_report : report * Store.Store := (Responded (noon + 4) (noon + 4) (job_state 7) true false, reserved_store).
Definition observations (rs : list (report * Store.Store)) : list operation :=
  omap (fun r => Persisted noon <$> snapshot_of true "registry" "office" 1 r.1 r.2) rs.

Lemma reserved_well j : fst (GetByProxyID [AString "office"; AInt KInt 1] reserved_store) = Done j -> stored_well j.
Proof.
  intros Hj. vm_compute in Hj. injection Hj as <-.
  split; [|vm_compute; repeat split; discriminate|split; [vm_compute; discriminate|vm_compute; reflexivity]|vm_compute; reflexivity].
  each_text; vm_compute; reflexivity.
Qed.

Lemma job_state_well n : n <= maxI32 -> plain (Itoa n) -> attrs_well (job_state n).
Proof.
  intros Hn Hp. assert (forall name, IppAttrs.Attr (job_state n) name = None \/
    IppAttrs.Attr (job_state n) name = Some ("job-state", [(TagEnum, VInteger n)])) as Ha.
  { intros name. unfold IppAttrs.Attr, job_state. cbn. case_match; auto. }
  split; intros name x; unfold FirstString, FirstInt; destruct (Ha name) as [->| ->]; try done; cbn; by intros [= <-].
Qed.

Lemma empty_well : attrs_well [].
Proof. by split. Qed.

Lemma observations_good rs : Forall (fun r => r.2 = reserved_store /\ report_well r.1) rs -> Forall good_op (observations rs).
Proof.
  induction 1 as [|[r st] rs [Hst Hw] _ IH]; [constructor|]. cbn in Hst, Hw. subst st. unfold observations. cbn [omap list_omap fst snd].
  destruct (snapshot_of true "registry" "office" 1 r reserved_store) as [x|] eqn:E; cbn [fmap option_fmap option_map]; [|done].
  constructor; [|done]. cbn. apply (snapshot_observed "registry" "office" 1 r reserved_store); try done. apply reserved_well.
Qed.

Lemma observations_open rs : Forall (fun op => is_cleanup op = false) (observations rs).
Proof.
  induction rs as [|r rs IH]; [constructor|]. unfold observations in *. cbn [omap list_omap].
  destruct (snapshot_of true "registry" "office" 1 r.1 r.2); cbn; [by constructor|done].
Qed.

Lemma reports_well : Forall (fun r => r.2 = reserved_store /\ report_well r.1) (some_reports ++ [last_report]).
Proof.
  unfold some_reports, last_report. cbn [app]. each_text; (split; [reflexivity|]); cbn [report_well fst]; split_and?; try apply empty_well;
    first [apply job_state_well; [unfold maxI32; lia|by vm_compute] | vm_compute; reflexivity].
Qed.

(** The hypotheses on concrete reports, by evaluation. *)
Lemma reported_by_evaluation registry queue id rs l :
  map (fun r => snapshot_of true registry queue id r.1 r.2) rs = map Some l -> Forall2 (reported registry queue id) rs l.
Proof. revert l. induction rs as [|r rs IH]; intros [|x l]; cbn; try done. intros [= Hr Hl]. constructor; [done|by apply IH]. Qed.

Fixpoint ordered (l : list Z) : bool := match l with a :: ((b :: _) as l') => (a <=? b) && ordered l' | _ => true end.
Lemma in_order_times l : ordered (map UpdatedAt l) = true -> in_order l.
Proof.
  unfold in_order. induction l as [|a [|b l] IH]; [constructor|by repeat constructor|]. cbn. rewrite andb_true_iff, Z.leb_le.
  intros [Hab Hl]. constructor; [by apply IH|by constructor].
Qed.

(** The printer goes on after the cancellation was accepted: unresolved, until it
    reports that the job was canceled. *)
Example printer_decides_outcome_witness :
  (exists c, job_checkpoints (run kept_options (observations some_reports)) !! ("registry", 1) = Some c /\
     jobOutcome (snapshot c) = "unresolved") /\
  (exists c, job_checkpoints (run kept_options (observations (some_reports ++ [last_report]))) !! ("registry", 1) = Some c /\
     jobOutcome (snapshot c) = "canceled").
Proof.
  pose proof reports_well as Hw. split.
  - destruct (printer_decides_outcome kept_options (observations some_reports) "registry" "office" 1
      (Registered noon [] [], reserved_store) (tl some_reports)) as (c & Hc & Ho & _).
    + apply observations_good. by apply Forall_app in Hw as [Hw _].
    + apply observations_open.
    + discriminate.
    + lia.
    + apply reported_by_evaluation. vm_compute. reflexivity.
    + reflexivity.
    + apply in_order_times. vm_compute. reflexivity.
    + exists c. split; [exact Hc|]. rewrite Ho. vm_compute. reflexivity.
  - destruct (printer_decides_outcome kept_options (observations (some_reports ++ [last_report])) "registry" "office" 1
      (Registered noon [] [], reserved_store) (tl some_reports ++ [last_report])) as (c & Hc & Ho & _).
    + by apply observations_good.
    + apply observations_open.
    + discriminate.
    + lia.
    + apply reported_by_evaluation. vm_compute. reflexivity.
    + reflexivity.
    + apply in_order_times. vm_compute. reflexivity.
    + exists c. split; [exact Hc|]. rewrite Ho. vm_compute. reflexivity.
Defined.

(** The final state of a snapshot that is overtaken by one of a later clock is
    dropped, although its time is kept: the job stays unresolved. *)
Example late_final_state_lost :
  let late := [(Registered noon [] [], reserved_store); (Stored (noon + 3), reserved_store);
               (Responded (noon + 2) (noon + 2) (job_state 9) true false, reserved_store)] in
  let row := job_checkpoints (run kept_options (observations late)) !! ("registry", 1) in
  (jobOutcome ∘ snapshot <$> row) = Some "unresolved" /\ (TerminalAt ∘ snapshot <$> row) = Some (Some (noon + 2)).
Proof. vm_compute. done. Qed.
